(* ===== verification/_CoqProject ===== *)
-Q . S2P
Prelude.v
RustStr.v
Disk.v
StateStore.v
Records.v
AuthTypes.v
AuthStore.v
AuthService.v
AuthReach.v
AuthLockout.v
AuthProps.v
AuthWitness.v
JsonRpc.v
Router.v
Registry.v
Rest.v
RestProps.v
RpcWitness.v
GuestShare.v
GuestShareProps.v
FirewallRules.v
Firewall.v
FirewallProps.v
FirewallWitness.v
Layered.v
LayeredProps.v
Nm.v
NetworkCheck.v
Network.v
NmDbus.v
NetworkProps.v
NmDbusProps.v
NetworkTxn.v
NetworkWitness.v
BackupJobs.v
Backup.v
BackupService.v
Scheduler.v
BackupProps.v
BackupSecrets.v
AlertService.v
AlertProps.v
BackupWitness.v
ConfigFs.v
BlockWorld.v
Iscsi.v
IscsiService.v
IscsiAcl.v
IscsiRemap.v
NvmeofService.v
NvmeofRestore.v
Protocol.v
BlockReconcile.v
ShareBoot.v
FileShare.v
Nfs.v
NfsService.v
Smb.v
SmbService.v
SmbConf.v
SmbPortal.v
SmbInv.v
FileShareWitness.v
BlockWitness.v
Subvolume.v
SubvolumeRead.v
SubvolumeService.v
SubvolumeLaws.v
SubvolumeOwner.v
SubvolumeProps.v
SubvolumeRestore.v
SubvolumeWitness.v
Filesystem.v
FilesystemProps.v
Api.v
ShareApi.v
SubvolumeApi.v
ApiProps.v
ShareScope.v
ApiWitness.v
