(* ===== verification/Prelude.v ===== *)
(** * NASty engine: a verification library

    NASty is a NAS appliance; its engine (engine/, Rust) is one daemon that
    serves JSON-RPC over WebSocket, a REST gateway and public guest-share
    links, and drives the system's services. This library models the parts of
    the engine that decide who may do what, that keep the appliance's security
    state, that change its network without cutting the operator off, that run its
    backups, that raise its alerts, that create its filesystems, that keep its
    subvolumes and snapshots and that share them, and proves what they promise.

    ** Parts and files

    - [Prelude] (this file): results, the state-and-error monad [M] with its
      notation, the development's tactics and hint databases, lemmas on lists,
      options, maps and 64-bit arithmetic. [RustStr]: the string methods of
      Rust's standard library. [Disk]: a file system of regular files and
      symbolic links in which every call may fail (record [Faults]), and the
      class [Codec] of a serialiser with its law [CodecLaws].
    - [StateStore]: nasty-common/src/state.rs, [StateDir] and
      [load_singleton_or_recover].
    - [AuthTypes], [AuthStore], [AuthService]:
      nasty-engine/src/auth.rs. [AuthTypes] has the data (users, sessions, API
      tokens), the access levels of [authorize_session] and the pure helpers,
      with [role_for_groups] of auth_oidc.rs and the failure windows;
      [AuthStore] the state file; [AuthService] one definition per method of
      [AuthService], over the record [World] (the state behind the two locks,
      the audit trail, the disk) and [Env] (clock, random bytes, faults).
    - [JsonRpc]: nasty-common/src/jsonrpc.rs. [Router]:
      nasty-engine/src/router/mod.rs, the role lists, [handle_rpc_request],
      [route] and the endpoint gates, with the account arms of router/auth.rs.
    - [Registry]: nasty-engine/src/registry, all 329 methods by group. [Rest]:
      registry/paths.rs, rest_gateway.rs and the token extraction of main.rs.
    - [GuestShare]: nasty-engine/src/guestshare.rs.
    - [FirewallRules], [Firewall]: nasty-system/src/firewall.rs with the
      protocol names of protocol.rs.
    - [Layered]: the flat configuration of nasty-system/src/network.rs and
      network/layered.rs, its layered form, the translation both ways and the
      validator. [Nm]: network/nm.rs, the NetworkManager profiles and keyfiles.
      [NetworkCheck]: the pure checks of network.rs (requests, InfiniBand,
      SR-IOV, inherited addresses, the risk of losing the operator's link).
      [Network]: [NetworkService], over the record [NetWorld] (pending
      transactions, the disk, what was last pushed) and [NetEnv] (faults,
      clock, kernel state, what NetworkManager answered). [NmDbus]: the settings
      dictionaries of nm.rs and network/nm/dbus.rs, the comparison with what
      NetworkManager holds and [apply_profiles] over its connections.
    - [BackupJobs]: nasty-backup/src/jobs.rs with the [start_*] wrappers of
      lib.rs, jobs, their tasks and monitors as the step relation [job_step].
      [Backup], [BackupService]: nasty-backup/src/lib.rs, profiles, secrets,
      redaction and the state file, and one definition per method of
      [BackupService] that changes profiles, with the access rule of
      router/backup.rs. [Scheduler]:
      nasty-backup/src/scheduler.rs, the tick and the loop that starts jobs.
    - [AlertService]: nasty-system/src/alerts.rs. First come the
      rules, the measurements and the evaluation of every metric,
      then the occurrences of alerts, their acknowledgement and the
      state file, over the record [AlertWorld].
    - [Records]: the state directory seen as a map from identifiers to records,
      used by all share services. [ConfigFs]: the kernel's configfs tree, its
      calls and the class of its rules; [BlockWorld]: disk and kernel together,
      with the configfs helpers of the share services.
    - [Iscsi], [IscsiService]: nasty-sharing/src/iscsi.rs and
      nasty-common/src/block_volume.rs, data, validators, the portal planner and
      the rewriting of saveconfig.json, then one definition per method of
      [IscsiService]. [NvmeofService]: nasty-sharing/src/nvmeof.rs in
      the same way.
    - [Protocol]: nasty-system/src/protocol.rs with the modes of nut.rs, over
      the record [ProtoWorld] (disk and kernel, active units, how the next runs
      of systemctl and modprobe end). [BlockReconcile]:
      [reconcile_block_shares_under_lock] of router/fs.rs, and [ShareBoot]: the
      part of [main] that starts the shares, both over [ShareWorld] (the
      protocols' world and the firewall).
    - [FileShare]: the disk with the programs the file-sharing services run.
      [Nfs]: nasty-sharing/src/nfs.rs. [Smb], [SmbService]:
      nasty-sharing/src/smb.rs, the sections and the portal's policy, then the
      operations on shares, users and groups.
    - [Subvolume], [SubvolumeRead], [SubvolumeService]:
      nasty-storage/src/subvolume.rs (nasty-snapshot only forwards to it). First
      the data, the checks and the calls of the kernel and of the tools, as the
      type [Sys]; then what the service reads; then every operation that changes
      the machine, as a program over those calls on the record [SvWorld].
    - [Filesystem]: nasty-storage/src/filesystem.rs, [create] and everything it
      calls, from the checks of the request to the mounted filesystem, over the
      calls [Dev] and the record [FsWorld] (the machine, and the calls made so
      far with their answers).
    - [Api]: the state that the arms of share.*, subvolume.* and snapshot.* work
      on, [ApiWorld] (the worlds of subvolumes, block shares and file shares, on
      one disk, and the containers and machines behind [Guests]), with the
      helpers of router/mod.rs that several arms use. [ShareApi]:
      router/share.rs, one definition per arm. [SubvolumeApi]:
      router/subvolume.rs, router/snapshot.rs, subvolume_dependents.rs and
      subvol_rollback.rs. An early return of an arm is an error of the monad.

    How they interact: the gateway ([Rest.dispatch]) asks
    [AuthService.validate] for a session and hands a request to
    [Router.handle_rpc_request], which asks [Router.role_permits] and calls the
    authentication service or another domain; the authentication service
    persists through [AuthStore], guest shares through [StateStore], the
    firewall through its staged files, network and backups through their own
    atomic writes, all on [Disk]. A network update goes through [NetworkCheck],
    is stored by [Network.persist_config] and pushed as the profiles of [Nm] by
    [NmDbus.apply_profiles]; a round of the scheduler reads the profiles of
    [BackupService] and starts jobs of [BackupJobs]. After a mount and at boot,
    [BlockReconcile] and [ShareBoot] call [IscsiService], [NvmeofService],
    [Protocol] and [Firewall] on one disk and one kernel, with the devices that
    [restore_block_devices] of [SubvolumeService] answers. An arm of [ShareApi]
    asks [SubvolumeService] whose a path, a device or a volume is before it calls
    a share service, and has the firewall follow the portals; an arm of
    [SubvolumeApi] asks the share services who uses a subvolume before it is
    deleted. The clients are proved
    against the classes ([Codec], [AuthPrims], [RpcSerde], [RestSerde],
    [IpParser], [UuidV5], [Ipv6Parser], [ValueDebug], [Rfc3339], [Vault],
    [UrlLib], [Cron], [FmtFixed], [ConfigFs], [KernelModules], [ShareTree],
    [NameService], [Os], [Machine], [ProjectHash],
    [Guests], [ApiSerde]) and the lemmas of the components they call.

    ** What the theorems show

    - State store ([StateStore]): saves are all or nothing under any faults, a
      corrupt singleton is moved aside and not lost, a strict load omits
      nothing.
    - Authentication ([AuthReach], [AuthProps], [AuthLockout]): over every world reachable from the first boot, with
      restarts and I/O faults, memory and state file agree and sessions speak
      for present users with present roles and are bound to the address that
      opened them; validation is sound; the life of
      login sessions and API tokens, clock skew and overflow included; at most
      five wrong guesses per account in fifteen minutes and twenty per address
      in an hour for logins that follow one another, which concurrent requests
      escape; users and tokens keep separate names except for OIDC
      provisioning.
    - Dispatcher and gateway ([Router], [RestProps]): roles are
      nested; a refused request runs no handler; admitted requests are recorded
      as they must be; only administrators change accounts; the roles the
      registry declares are the ones enforced; REST paths and methods
      correspond one to one; the gateway grants nothing the dispatcher refuses.
    - Guest shares ([GuestShare], [GuestShareProps]): records only move
      forward, revocation is final, download caps hold, links and grants work as
      issued, paths stay below the share, limits are enforced in a table of
      bounded size.
    - Firewall ([FirewallProps]): the kernel's rules are those in memory after
      every operation that succeeds, and whatever fails if [nft] fails only
      without effect, persisted changes are all or nothing,
      restrictions mean what they say and replace one another, the conflict
      check is exact.
    - Network ([LayeredProps], [NetworkProps], [NetworkTxn],
      [NmDbusProps], on the frame rules of
      [Records]): the validator terminates and accepts exactly the well-formed
      configurations, the layered form keeps the flat one, profiles follow the
      topology, NetworkManager ends up with the accepted configuration and its
      other connections are untouched; a change that was not confirmed in time
      is undone, also across a restart, as far as disk and NetworkManager work,
      a confirmed one stays, at most one is pending and its snapshot is the
      configuration of before, and the risk classifier flags exactly the changes
      it lists.
    - Backups ([BackupJobs], [BackupProps], [BackupSecrets],
      [Scheduler]): under every interleaving of requests,
      workers and monitors a profile has at most one unfinished job and none is
      stuck; profiles in memory are those a restart reads back whatever fails;
      secrets resolve to what was given, no answer of the service shows them,
      and they are not kept in plaintext while the vault works; results are recorded on the definition
      that ran; each occurrence of a schedule fires once, and a due profile
      gets its job, or another try if a job of it is unfinished.
    - Alerts ([AlertProps]): an alert comes from an enabled rule
      whose condition holds; an occurrence keeps its id and acknowledgement
      while its alert is reported or its signal is not observed, and ends when
      the signal is observed without it; occurrences survive a restart unless
      the state is marked as not saved; acknowledging is all or nothing and
      changes one occurrence only.
    - Block exports ([IscsiAcl], [IscsiRemap],
      [NvmeofRestore], [Protocol], [BlockReconcile],
      [ShareBoot]): a planned change of portals never makes two of them collide
      and ends with those asked for; changing an access list under any faults
      ends with the entry in force, with the kernel's tree as before but for one
      attribute, or with the target down; remapping that calls itself safe leaves records and saveconfig.json
      on the devices the volumes have now; after a reported reconcile every
      enabled namespace is on its own volume's device; at boot the firewall is
      open for exactly what came up, and only what could be placed came up: NFS
      only with every filesystem mounted.
    - File shares ([FileShare], [NfsService], [SmbConf], [SmbPortal],
      [SmbInv]): an exports file reads, by a reader of
      exports(5), as the record it was made from, a Samba section, by a reader
      of smb.conf(5), as the directives of its record, for the values that the
      formats can hold; after an operation that
      reports success every share is in step with its record, and after any
      operation every other share, as long as files that are removed go away; records keep their validators; the portal
      admits a principal exactly when Samba's list of valid users does.
    - Subvolumes ([SubvolumeLaws], [SubvolumeOwner], [SubvolumeProps],
      [SubvolumeRestore]): whatever calls fail, a token confined to its own
      subvolumes changes no other, a rollback loses nothing of what was there
      before it, creating a subvolume changes no existing one, both but for the
      mode of a subvolume that a create request names; after a start the
      loop device named for a volume is on the image of that volume, and so an
      export that is brought back serves its own image.
    - Creating filesystems ([FilesystemProps]): whatever the tools answer, only
      devices are formatted that nobody used in a reading just before, with
      everything stacked on them, and that are the ones the request named; only
      partitions are made in free space that was reported, and only those are
      wiped.
    - Arms of the router ([ApiProps], [ShareScope]): through the dispatcher no
      request on subvolumes, snapshots or shares lets a token change the
      subvolume of another, but for the mode when it asks to create one of that
      name; when a request on shares of a confined session
      changes anything, then all that it names, sources and what is behind the
      target or subsystem, is in subvolumes of that session's scope, and so is
      every subvolume nested in a directory it shares.
    The files named [*Witness] instantiate the classes with concrete functions
    and apply each theorem that has hypotheses.

    ** Conventions, bounds and assumptions

    - Rust strings are byte strings; [u64] arithmetic is in [Z] modulo 2^64
      with wrap-around written out, as in the release build (no profile turns
      overflow checks on); ports are 16-bit values in [Z]; [f64] is the binary64
      format of [SpecFloat], so that a measurement that is not a number is a
      value; its decimal printing is the class [FmtFixed]; [HashMap] is [gmap],
      a [Vec] is a list.
    - An operation holds its lock to the end, so operations are atomic steps.
      Exceptions: [login], whose check and body take separate locks, which the
      scheduler of [AuthLockout] interleaves; the backup calls that take the
      lock on profiles twice, in which [between] is whatever other calls did
      meanwhile; and backup tasks, whose steps [job_step] interleaves. An arm of
      the router runs to its end, and the operations on one subvolume do not
      overlap, as their locks see to.
    - Fuel: [pick_loop] tries one candidate more than there are users, and
      [pick_username_free] shows that one of them is free; [trim] uses the
      length of the string; [fmt_octal] prints the three digits of a mode;
      [Disk.resolve] follows at most forty links, as the kernel does; the
      search for cycles has one level per link and one more, and
      [validate_terminates] shows that this is enough; [walk_masters] stops
      after eight, as the code does; [redact_fuel] and [count_words] use the
      length of the text, and [redact_fuel_enough] shows that more changes
      nothing; a machine that shuts down is looked at [ae_polls] times, the
      number of intervals before the deadline, which is arbitrary, and so is the
      number of looks at a new mount; the walk over the devices stacked on a disk
      has one step for each child of each device, and [descendants_complete]
      shows that nothing is missed.
    - Argon2, SHA-256, base64, constant-time comparison and passkeys are the
      class [AuthPrims]; its laws say that comparison decides equality, that a
      password verifies against its hash and that a passkey keeps its id.
      serde_json is [Codec], [RpcSerde] and [RestSerde] with round-trip laws; of
      the alerts' file, which holds floats, [AlertCodecLaws] promises all but the
      numbers, and only if these are finite.
      The outcome of each [nft] run is a parameter; [sound_nft] says that a batch
      is in effect when the run reports success, and [atomic_nft] that it is so
      exactly then, which a timeout after the commit breaks. What NetworkManager
      answers to each call is a parameter, and so are the kernel's interfaces,
      the results of the rustic package and of the cron package, whose
      [after(t).next()] is the least occurrence after [t] ([CronLaws]); a secret
      unseals to what was sealed ([VaultLaws]).
    - configfs paths are lists of components. Which directories, files and
      default values appear when a directory is made is the class [ConfigFs];
      [ConfigFsLaws] says that an attribute reads back what was written up to
      white space, [StartsDisabled] that an enable attribute starts at 0,
      [ProtocolJson] that protocols.json says the same to both its readers. In
      the share services each call has its own entry in a plan of faults, and
      the results of external programs are a queue; an empty plan or queue means
      success. Theorems that need more say so: [honest] faults report a missing
      file only when it is missing, and [reliable] ones do not hide a failed
      removal of a companion file, which the code ignores.
    - What a call of [Sys] answers and does is the class [Os]. [OsView] names
      what can be seen of the machine (subvolumes with their attributes and data,
      mounts, loop devices) and [OsLaws] and [LoopLaws] state what the kernel,
      bcachefs and losetup promise about it: what a call may change, what an
      attribute and a listing say, that a snapshot is a copy, and that nothing is
      created or copied over a subvolume that is there. No call is
      promised to succeed, and nothing is concluded from an answer that a path
      does not exist. A program is [calm] or [quiet] when it leaves the
      volumes alone, [resting] or [idle] when an arm does; [known] is what a
      listing says of a subvolume. Containers, machines, backup profiles and
      Tailscale answer what they like ([Guests]).
    - The handlers of the domains not modelled are an arbitrary function of the
      dispatcher. Log lines and durations are not modelled.

    ** Not modelled

    Filesystems and disks beyond creating them, containers, virtual machines, metrics and most system
    services drive external tools and read their output; the HTTP server,
    terminal, file streaming and ZIP archives are input and output; OIDC and
    WebAuthn are protocol runs of third-party packages; schemas and descriptions
    of the registry are documentation. Of the network, reading the kernel's
    interfaces and routes and the restart of discovery daemons after an apply;
    of the backups, snapshots, checks and restores, which are calls of rustic;
    of the alerts, collecting the measurements and sending notifications; of the
    shares, the mounts at boot (which of them failed is an argument of
    [boot_shares]), the time limits and waits, the detection of addresses, and the files
    that the UPS, watchdog and backup-server modules write before their services
    start; of the router, the arms of the domains not listed above, boot status
    and updates. *)
From Stdlib Require Import String Ascii ZArith Lia List.
From stdpp Require Import base list gmap strings numbers pretty.

(** ** Notations and results *)

Declare Scope rust_scope.
Delimit Scope rust_scope with rust.

(** Rust's [Result<A, E>]. *)
Inductive result (A E : Type) : Type :=
| Ok (a : A)
| Err (e : E).
Arguments Ok {A E} a.
Arguments Err {A E} e.

Definition is_ok {A E} (r : result A E) : bool :=
  match r with Ok _ => true | Err _ => false end.

(** [Result::map_err]. *)
Definition map_err {A E F} (f : E -> F) (r : result A E) : result A F :=
  match r with Ok a => Ok a | Err e => Err (f e) end.

(** [Option::ok_or]. *)
Definition ok_or {A E} (o : option A) (e : E) : result A E :=
  match o with Some a => Ok a | None => Err e end.

(** [Option::is_some]. *)
Definition is_some {A} (o : option A) : bool :=
  match o with Some _ => true | None => false end.

Notation "a =s b" := (String.eqb a b) (at level 70, no associativity) : rust_scope.

(** ** A state and error monad

    An engine handler reads and writes the service's world [W] and either
    returns a value or an error. The world reached so far is kept on the error
    path, as it is in the Rust code, where an early return does not undo the
    writes that were already made. *)
Definition M (W E A : Type) : Type := W -> result A E * W.

Definition ret {W E A} (a : A) : M W E A := fun w => (Ok a, w).

Definition throw {W E A} (e : E) : M W E A := fun w => (Err e, w).

Definition bind {W E A B} (m : M W E A) (f : A -> M W E B) : M W E B :=
  fun w => match m w with
           | (Ok a, w') => f a w'
           | (Err e, w') => (Err e, w')
           end.

(** Read a projection of the world. *)
Definition gets {W E A} (f : W -> A) : M W E A := fun w => (Ok (f w), w).

(** Change the world. *)
Definition modify {W E} (f : W -> W) : M W E unit := fun w => (Ok tt, f w).

(** [if b { return Err(e) }]. *)
Definition throw_if {W E} (b : bool) (e : E) : M W E unit :=
  if b then throw e else ret tt.

(** [r?]. *)
Definition lift {W E A} (r : result A E) : M W E A := fun w => (r, w).

(** The outcome of a computation as a value, so that the caller may match on
    it ([match f().await { Ok(..) => .., Err(..) => .. }]). *)
Definition attempt {W E F A} (m : M W E A) : M W F (result A E) :=
  fun w => match m w with (r, w') => (Ok r, w') end.

Notation "x <- m ;; k" := (bind m (fun x => k))
  (at level 100, m at next level, right associativity) : rust_scope.
Notation "m ;;; k" := (bind m (fun _ => k))
  (at level 100, right associativity) : rust_scope.

(** ** Weakest preconditions of handlers *)

(** [wp m Q w]: running [m] in the world [w] ends with an outcome and a world
    that satisfy [Q], on the error path too. *)
Definition wp {W E A} (m : M W E A) (Q : result A E -> W -> Prop) (w : W) : Prop :=
  Q (m w).1 (m w).2.

Lemma bind_Ok {W E A B} (m : M W E A) (f : A -> M W E B) w a w' :
  m w = (Ok a, w') -> bind m f w = f a w'.
Proof. unfold bind. by intros ->. Qed.

Lemma bind_Err {W E A B} (m : M W E A) (f : A -> M W E B) w e w' :
  m w = (Err e, w') -> bind m f w = (Err e, w').
Proof. unfold bind. by intros ->. Qed.

Section WeakestPreconditions.
Context {W E : Type}.

Lemma wp_ret {A} (a : A) (Q : result A E -> W -> Prop) w :
  Q (Ok a) w -> wp (ret a) Q w.
Proof. done. Qed.

Lemma wp_throw {A} (e : E) (Q : result A E -> W -> Prop) w :
  Q (Err e) w -> wp (throw e) Q w.
Proof. done. Qed.

Lemma wp_gets {A} (f : W -> A) (Q : result A E -> W -> Prop) w :
  Q (Ok (f w)) w -> wp (gets f) Q w.
Proof. done. Qed.

Lemma wp_modify (f : W -> W) (Q : result unit E -> W -> Prop) w :
  Q (Ok tt) (f w) -> wp (modify f) Q w.
Proof. done. Qed.

Lemma wp_lift {A} (r : result A E) (Q : result A E -> W -> Prop) w :
  Q r w -> wp (lift r) Q w.
Proof. done. Qed.

Lemma wp_bind {A B} (m : M W E A) (f : A -> M W E B) (Q : result B E -> W -> Prop) w :
  wp m (fun r w' => match r with
                    | Ok a => wp (f a) Q w'
                    | Err e => Q (Err e) w'
                    end) w ->
  wp (bind m f) Q w.
Proof. unfold wp, bind. by destruct (m w) as [[a|e] w']. Qed.

Lemma wp_throw_if (b : bool) (e : E) (Q : result unit E -> W -> Prop) w :
  (b = true -> Q (Err e) w) -> (b = false -> Q (Ok tt) w) -> wp (throw_if b e) Q w.
Proof. destruct b; eauto using wp_throw, wp_ret. Qed.

Lemma wp_attempt {F A} (m : M W F A) (Q : result (result A F) E -> W -> Prop) w :
  wp m (fun r w' => Q (Ok r) w') w -> wp (attempt m) Q w.
Proof. unfold wp, attempt. by destruct (m w) as [r w']. Qed.

Lemma wp_mono {A} (m : M W E A) (P Q : result A E -> W -> Prop) w :
  (forall r w', P r w' -> Q r w') -> wp m P w -> wp m Q w.
Proof. unfold wp. eauto. Qed.

Lemma wp_use {A} (m : M W E A) (P Q : result A E -> W -> Prop) w :
  wp m P w -> (forall r w', P r w' -> Q r w') -> wp m Q w.
Proof. unfold wp. eauto. Qed.

Lemma wp_and {A} (m : M W E A) (P Q : result A E -> W -> Prop) w :
  wp m P w -> wp m Q w -> wp m (fun r w' => P r w' /\ Q r w') w.
Proof. done. Qed.

(** [keeps I m w]: the computation [m] started in [w] ends in a world that
    satisfies [I], whatever its outcome. *)
Definition keeps {A} (I : W -> Prop) (m : M W E A) (w : W) : Prop := wp m (fun _ => I) w.

Section Keeps.
Context (I : W -> Prop).

Lemma keeps_bind {A B} (m : M W E A) (f : A -> M W E B) w :
  keeps I m w -> (forall a w', I w' -> keeps I (f a) w') -> keeps I (bind m f) w.
Proof.
  unfold keeps. intros Hm Hf. apply wp_bind. revert Hm. apply wp_mono.
  intros [a|e] w' Hw; [by apply Hf | done].
Qed.

Lemma keeps_gets {A B} (g : W -> A) (f : A -> M W E B) w :
  keeps I (f (g w)) w -> keeps I (bind (gets g) f) w.
Proof. done. Qed.

Lemma keeps_throw_if {B} (b : bool) e (f : unit -> M W E B) w :
  I w -> (b = false -> keeps I (f tt) w) -> keeps I (bind (throw_if b e) f) w.
Proof. destruct b; unfold keeps, wp, bind; simpl; auto. Qed.

Lemma keeps_lift {A B} (r : result A E) (f : A -> M W E B) w :
  I w -> (forall a, r = Ok a -> keeps I (f a) w) -> keeps I (bind (lift r) f) w.
Proof. destruct r; unfold keeps, wp, bind; simpl; auto. Qed.

Lemma keeps_lift_last {A} (r : result A E) w : I w -> keeps I (lift r) w.
Proof. done. Qed.

Lemma keeps_ret {A} (a : A) w : I w -> keeps I (ret a) w.
Proof. done. Qed.

Lemma keeps_throw {A} (e : E) w : I w -> keeps I (throw (A := A) e) w.
Proof. done. Qed.

End Keeps.

End WeakestPreconditions.

Create HintDb rust.
Create Rewrite HintDb rust.

(** One structural step of a [wp] goal. *)
Ltac wp_step :=
  lazymatch goal with
  | |- wp (ret _) _ _ => apply wp_ret
  | |- wp (throw _) _ _ => apply wp_throw
  | |- wp (gets _) _ _ => apply wp_gets
  | |- wp (modify _) _ _ => apply wp_modify
  | |- wp (lift _) _ _ => apply wp_lift
  | |- wp (attempt _) _ _ => apply wp_attempt
  | |- wp (bind _ _) _ _ => apply wp_bind
  | |- wp (throw_if _ _) _ _ => apply wp_throw_if; intros
  | |- wp (match ?x with _ => _ end) _ _ => destruct x eqn:?
  | |- match ?x with _ => _ end => destruct x eqn:?
  end.

Ltac wp_go := repeat (wp_step; cbn beta iota).

Lemma keeps_attempt {W E F A} (I : W -> Prop) (m : M W F A) w :
  keeps I m w -> keeps I (attempt (F := E) m) w.
Proof. intros. by apply wp_attempt. Qed.

#[export] Hint Resolve keeps_ret keeps_throw keeps_lift_last keeps_attempt : rust.

(** Walk through a handler under an invariant. What is left are the leaves the
    hints in [rust] do not settle. *)
Ltac keeps_go :=
  repeat first
    [ progress cbn beta zeta
    | lazymatch goal with
      | |- keeps _ (bind (gets _) _) _ => apply keeps_gets
      | |- keeps _ (bind (throw_if _ _) _) _ => apply keeps_throw_if; [assumption|intros]
      | |- keeps _ (bind (lift _) _) _ => apply keeps_lift; [assumption|intros]
      | |- keeps _ (bind _ _) _ => apply keeps_bind; [|intros]
      | |- keeps _ (match ?x with _ => _ end) _ => destruct x eqn:?
      | |- keeps _ _ _ => solve [eauto with rust]
      end ].

(** Case analysis of every match in the context, closing absurd branches. *)
Ltac crush_match := repeat (case_match; simplify_eq/=).

(** ** Machine integers *)

Open Scope Z_scope.

Definition u64_modulus : Z := 2 ^ 64.

Definition is_u64 (x : Z) : Prop := 0 <= x < u64_modulus.

(** [a - b] and [a + b] on [u64] as a release build computes them. *)
Definition wrapping_sub (a b : Z) : Z := (a - b) mod u64_modulus.
Definition wrapping_add (a b : Z) : Z := (a + b) mod u64_modulus.

(** [a.saturating_sub(b)] on an unsigned type. *)
Definition saturating_sub (a b : Z) : Z := Z.max 0 (a - b).

Lemma wrapping_sub_small a b : is_u64 a -> is_u64 b -> b <= a -> wrapping_sub a b = a - b.
Proof. unfold is_u64, wrapping_sub. intros. apply Z.mod_small. lia. Qed.

Lemma wrapping_sub_underflow a b :
  is_u64 a -> is_u64 b -> a < b -> wrapping_sub a b = u64_modulus - (b - a).
Proof.
  unfold is_u64, wrapping_sub. intros.
  rewrite <- (Z.mod_add _ 1) by (unfold u64_modulus; lia).
  rewrite Z.mod_small; lia.
Qed.

Lemma wrapping_add_small a b :
  is_u64 a -> is_u64 b -> a + b < u64_modulus -> wrapping_add a b = a + b.
Proof. unfold is_u64, wrapping_add. intros. apply Z.mod_small. lia. Qed.

Lemma wrapping_add_overflow a b :
  is_u64 a -> is_u64 b -> u64_modulus <= a + b -> wrapping_add a b = a + b - u64_modulus.
Proof.
  unfold is_u64, wrapping_add. intros.
  rewrite <- (Z.mod_add _ (-1)) by (unfold u64_modulus; lia).
  rewrite Z.mod_small; lia.
Qed.

Close Scope Z_scope.

(** ** Vectors *)

Section Vectors.
Context {A : Type}.
Implicit Types (l : list A) (p : A -> bool) (f : A -> A).

(** [Vec::retain]. *)
Definition retain p l : list A := List.filter p l.

(** [iter_mut().find(p)] followed by a mutation [f] of the element found. *)
Fixpoint update_first p f l : list A :=
  match l with
  | [] => []
  | x :: l' => if p x then f x :: l' else x :: update_first p f l'
  end.

Lemma elem_of_retain p l x : x ∈ retain p l <-> p x = true /\ x ∈ l.
Proof. unfold retain. rewrite !list_elem_of_In, filter_In. tauto. Qed.

Lemma retain_sublist p l : retain p l `sublist_of` l.
Proof. induction l as [|x l IH]; simpl; [done|]. destruct (p x); by constructor. Qed.

Lemma length_retain p l : length (retain p l) <= length l.
Proof. apply sublist_length, retain_sublist. Qed.

Lemma retain_all p l : (forall x, x ∈ l -> p x = true) -> retain p l = l.
Proof.
  induction l as [|x l IH]; intros H; simpl; [done|].
  rewrite (H x) by set_solver. f_equal. apply IH. set_solver.
Qed.

Lemma retain_length_eq p l :
  length (retain p l) = length l -> forall x, x ∈ l -> p x = true.
Proof.
  induction l as [|y l IH]; simpl; [set_solver|].
  destruct (p y) eqn:Hp; simpl; intros H x.
  - rewrite elem_of_cons. intros [->|Hx]; [done|]. apply IH; [lia|done].
  - pose proof (length_retain p l). lia.
Qed.

Lemma retain_retain p q l : retain p (retain q l) = retain (fun x => q x && p x) l.
Proof.
  induction l as [|x l IH]; simpl; [done|].
  destruct (q x); simpl; [destruct (p x); by rewrite IH | done].
Qed.

Lemma retain_app p l1 l2 : retain p (l1 ++ l2) = retain p l1 ++ retain p l2.
Proof. apply List.filter_app. Qed.

Lemma length_retain_mono p q l :
  (forall x, x ∈ l -> p x = true -> q x = true) ->
  length (retain p l) <= length (retain q l).
Proof.
  induction l as [|x l IH]; intros H; simpl; [lia|].
  assert (length (retain p l) <= length (retain q l)) by (apply IH; set_solver).
  pose proof (H x ltac:(set_solver)).
  destruct (p x), (q x); simpl; lia.
Qed.

Lemma find_Some_elem p l x : List.find p l = Some x -> x ∈ l /\ p x = true.
Proof. intros H%List.find_some. by rewrite list_elem_of_In. Qed.

Lemma find_None_elem p l : List.find p l = None -> forall x, x ∈ l -> p x = false.
Proof. intros H x Hx%list_elem_of_In. by apply (List.find_none _ _ H). Qed.

Lemma find_retain_None p q l :
  (forall x, x ∈ l -> p x = true -> q x = false) -> List.find p (retain q l) = None.
Proof.
  induction l as [|x l IH]; intros H; simpl; [done|].
  destruct (q x) eqn:Hq; [|apply IH; set_solver].
  simpl. destruct (p x) eqn:Hp.
  - by rewrite (H x) in Hq by set_solver.
  - apply IH. set_solver.
Qed.

Lemma existsb_elem p l : existsb p l = true <-> exists x, x ∈ l /\ p x = true.
Proof. rewrite existsb_exists. by setoid_rewrite list_elem_of_In. Qed.

Lemma existsb_none p l : existsb p l = false <-> forall x, x ∈ l -> p x = false.
Proof.
  rewrite <- not_true_iff_false, existsb_elem. split.
  - intros H x Hx. destruct (p x) eqn:?; [|done]. destruct H. eauto.
  - intros H (x & Hx & Hp). by rewrite H in Hp.
Qed.

Lemma length_update_first p f l : length (update_first p f l) = length l.
Proof. induction l as [|x l IH]; simpl; [done|]. destruct (p x); simpl; congruence. Qed.

Lemma update_first_None p f l : List.find p l = None -> update_first p f l = l.
Proof. induction l as [|x l IH]; simpl; [done|]. destruct (p x); [done|]. by intros ->%IH. Qed.

Lemma elem_of_update_first p f l y :
  y ∈ update_first p f l -> y ∈ l \/ exists x, List.find p l = Some x /\ y = f x.
Proof.
  induction l as [|x l IH]; simpl; [set_solver|].
  destruct (p x); rewrite !elem_of_cons.
  - intros [->|]; eauto.
  - intros [->|[]%IH]; eauto.
Qed.

Lemma map_update_first {B} (g : A -> B) p f l :
  (forall x, g (f x) = g x) -> g <$> update_first p f l = g <$> l.
Proof.
  intros H. induction l as [|x l IH]; simpl; [done|].
  destruct (p x); csimpl; [by rewrite H | by rewrite IH].
Qed.

Lemma Forall_sublist (Q : A -> Prop) (l1 l2 : list A) :
  l1 `sublist_of` l2 -> Forall Q l2 -> Forall Q l1.
Proof. induction 1; intros HQ; [done|..]; inversion HQ; subst; auto. Qed.

Lemma Forall_retain (Q : A -> Prop) p l : Forall Q l -> Forall Q (retain p l).
Proof. apply Forall_sublist, retain_sublist. Qed.

Lemma find_app p l1 l2 :
  List.find p (l1 ++ l2) = match List.find p l1 with Some x => Some x | None => List.find p l2 end.
Proof. induction l1 as [|x l1 IH]; simpl; [done|]. by destruct (p x). Qed.

Lemma find_none_iff p l : List.find p l = None <-> forall x, x ∈ l -> p x = false.
Proof.
  split; [apply find_None_elem|]. induction l as [|x l IH]; intros Hp; simpl; [done|].
  rewrite (Hp x) by set_solver. apply IH. set_solver.
Qed.

Lemma insert_middle l1 x y l2 : <[length l1 := x]> (l1 ++ y :: l2) = l1 ++ x :: l2.
Proof. rewrite insert_app_r_alt by lia. by rewrite Nat.sub_diag. Qed.

End Vectors.

#[export] Hint Rewrite @retain_app @length_update_first : rust.
