(* ===== verification/RustStr.v ===== *)
(** * Rust strings

    [str] and [String] as byte strings (the UTF-8 encoding is what [len] counts
    and what the comparison operators compare), with the methods of the
    standard library the engine calls: [starts_with], [ends_with],
    [split_once], [split], [trim], [to_ascii_lowercase],
    [eq_ignore_ascii_case], [char::is_control] and the formatting of integers
    and of [Debug] values. *)
From Stdlib Require Import String Ascii.
From stdpp Require Import base list strings numbers pretty.
From S2P Require Import Prelude.

Open Scope string_scope.
Open Scope nat_scope.
Open Scope rust_scope.

(** ** Searching *)

(** [s.starts_with(p)]. *)
Definition starts_with (p s : string) : bool := String.prefix p s.

Fixpoint rev_string (s : string) : string :=
  match s with
  | EmptyString => EmptyString
  | String c s' => rev_string s' ++ String c EmptyString
  end.

(** [s.ends_with(p)]. *)
Definition ends_with (p s : string) : bool :=
  let n := String.length s in
  let m := String.length p in
  (m <=? n) && (String.substring (n - m) m s =s p).

(** [s.split_once(c)] for an ASCII [c]: the text before and after the first
    occurrence. *)
Fixpoint split_once (c : ascii) (s : string) : option (string * string) :=
  match s with
  | EmptyString => None
  | String d s' =>
      if Ascii.eqb c d then Some (EmptyString, s')
      else '(a, b) ← split_once c s'; Some (String d a, b)
  end.

(** [s.split(c)] for an ASCII [c]: never empty. *)
Fixpoint split (c : ascii) (s : string) : list string :=
  match s with
  | EmptyString => [EmptyString]
  | String d s' =>
      if Ascii.eqb c d then EmptyString :: split c s'
      else match split c s' with
           | [] => [String d EmptyString]
           | h :: t => String d h :: t
           end
  end.

(** [s.contains(c)] for an ASCII [c]. *)
Fixpoint contains_char (c : ascii) (s : string) : bool :=
  match s with
  | EmptyString => false
  | String d s' => Ascii.eqb c d || contains_char c s'
  end.

(** [s.replace(a, b)] for characters. *)
Fixpoint replace_char (a b : ascii) (s : string) : string :=
  match s with
  | EmptyString => EmptyString
  | String c s' => String (if Ascii.eqb c a then b else c) (replace_char a b s')
  end.

(** [s.strip_prefix(p)]. *)
Fixpoint strip_prefix (p s : string) : option string :=
  match p, s with
  | EmptyString, _ => Some s
  | String c p', String d s' => if Ascii.eqb c d then strip_prefix p' s' else None
  | String _ _, EmptyString => None
  end.

(** [s.contains(p)] for a string [p]. *)
Fixpoint contains_str (p s : string) : bool :=
  starts_with p s ||
  match s with
  | EmptyString => false
  | String _ s' => contains_str p s'
  end.

(** ** White space *)

Definition bytes_of (l : list nat) : string :=
  foldr (fun n s => String (ascii_of_nat n) s) EmptyString l.

(** The UTF-8 encodings of the characters with the Unicode property
    White_Space, which [str::trim] removes. *)
Definition white_space : list string :=
  Eval vm_compute in
  bytes_of <$>
  [[9]; [10]; [11]; [12]; [13]; [32]; [194; 133]; [194; 160]; [225; 154; 128];
   [226; 128; 128]; [226; 128; 129]; [226; 128; 130]; [226; 128; 131];
   [226; 128; 132]; [226; 128; 133]; [226; 128; 134]; [226; 128; 135];
   [226; 128; 136]; [226; 128; 137]; [226; 128; 138]; [226; 128; 168];
   [226; 128; 169]; [226; 128; 175]; [226; 129; 159]; [227; 128; 128]].

Fixpoint skip_prefix (n : nat) (s : string) : string :=
  match n, s with
  | S n', String _ s' => skip_prefix n' s'
  | _, _ => s
  end.

(** Remove white space at the front. Every round removes at least one byte, so
    the length of the string is fuel enough. *)
Fixpoint trim_start_fuel (ws : list string) (fuel : nat) (s : string) : string :=
  match fuel with
  | 0 => s
  | S k =>
      match List.find (fun w => String.prefix w s) ws with
      | Some w => trim_start_fuel ws k (skip_prefix (String.length w) s)
      | None => s
      end
  end.

Definition trim_start (s : string) : string :=
  trim_start_fuel white_space (String.length s) s.

Definition trim_end (s : string) : string :=
  rev_string (trim_start_fuel (rev_string <$> white_space) (String.length s) (rev_string s)).

(** [s.trim()]. *)
Definition trim (s : string) : string := trim_end (trim_start s).

(** ** Characters *)

Definition to_ascii_lower (c : ascii) : ascii :=
  let n := nat_of_ascii c in
  if (65 <=? n) && (n <=? 90) then ascii_of_nat (n + 32) else c.

Fixpoint to_ascii_lowercase (s : string) : string :=
  match s with
  | EmptyString => EmptyString
  | String c s' => String (to_ascii_lower c) (to_ascii_lowercase s')
  end.

(** [a.eq_ignore_ascii_case(b)]. *)
Definition eq_ignore_ascii_case (a b : string) : bool :=
  to_ascii_lowercase a =s to_ascii_lowercase b.

(** [s.chars().any(char::is_control)]: the category Cc is U+0000 to U+001F,
    U+007F, and U+0080 to U+009F, encoded as C2 80 to C2 9F. *)
Fixpoint any_control (s : string) : bool :=
  match s with
  | EmptyString => false
  | String c s' =>
      let n := nat_of_ascii c in
      (n <? 32) || (n =? 127)
      || ((n =? 194) && match s' with
                        | String d _ => let m := nat_of_ascii d in (128 <=? m) && (m <=? 159)
                        | EmptyString => false
                        end)
      || any_control s'
  end.

(** ** Numbers *)

Definition is_digit (c : ascii) : bool := (48 <=? nat_of_ascii c)%nat && (nat_of_ascii c <=? 57)%nat.

Definition is_ascii_alphanumeric (c : ascii) : bool :=
  let n := nat_of_ascii c in
  is_digit c || ((65 <=? n)%nat && (n <=? 90)%nat) || ((97 <=? n)%nat && (n <=? 122)%nat).

(** [s.chars().all(f)] for a predicate that only ASCII characters satisfy. *)
Fixpoint all_chars (f : ascii -> bool) (s : string) : bool :=
  match s with EmptyString => true | String c s' => f c && all_chars f s' end.

Definition newline : string := String (ascii_of_nat 10) EmptyString.

Fixpoint digits_value (acc : Z) (s : string) : option Z :=
  match s with
  | EmptyString => Some acc
  | String c s' =>
      if is_digit c then digits_value (10 * acc + Z.of_nat (nat_of_ascii c - 48)) s' else None
  end.

(** [str::parse] of an unsigned integer: an optional sign, then digits; at most [max]. *)
Definition parse_unsigned (max : Z) (s : string) : option Z :=
  let body := match s with String "+" s' => s' | _ => s end in
  match body with
  | EmptyString => None
  | _ => match digits_value 0 body with
         | Some n => if (n <=? max)%Z then Some n else None
         | None => None
         end
  end.

Definition hex_value (c : ascii) : option Z :=
  let n := Z.of_nat (nat_of_ascii c) in
  if (48 <=? n)%Z && (n <=? 57)%Z then Some (n - 48)%Z
  else if (65 <=? n)%Z && (n <=? 70)%Z then Some (n - 55)%Z
  else if (97 <=? n)%Z && (n <=? 102)%Z then Some (n - 87)%Z
  else None.

(** [u8::from_str_radix(p, 16)] of a text of two bytes, which may start with a sign. *)
Definition hex_octet (p : string) : option Z :=
  match p with
  | String "+" (String d EmptyString) => hex_value d
  | String a (String b EmptyString) =>
      match hex_value a, hex_value b with Some x, Some y => Some (16 * x + y)%Z | _, _ => None end
  | _ => None
  end.

(** [String::from_utf8]: whether bytes are well-formed UTF-8. [n] continuation bytes are due; the next one
    lies between [lo] and [hi]. *)
Fixpoint utf8_from (n lo hi : nat) (s : string) : bool :=
  match s with
  | EmptyString => (n =? 0)%nat
  | String c s' =>
      let b := nat_of_ascii c in
      match n with
      | S n' => (lo <=? b)%nat && (b <=? hi)%nat && utf8_from n' 128 191 s'
      | 0 =>
          if (b <? 128)%nat then utf8_from 0 0 0 s'
          else if (194 <=? b)%nat && (b <=? 223)%nat then utf8_from 1 128 191 s'
          else if (b =? 224)%nat then utf8_from 2 160 191 s'
          else if (b =? 237)%nat then utf8_from 2 128 159 s'
          else if (225 <=? b)%nat && (b <=? 239)%nat then utf8_from 2 128 191 s'
          else if (b =? 240)%nat then utf8_from 3 144 191 s'
          else if (241 <=? b)%nat && (b <=? 243)%nat then utf8_from 3 128 191 s'
          else if (b =? 244)%nat then utf8_from 3 128 143 s'
          else false
      end
  end.
Definition valid_utf8 (s : string) : bool := utf8_from 0 0 0 s.

(** [str::lines]. *)
Definition line_end : ascii := ascii_of_nat 10.
Definition strip_cr (s : string) : string :=
  match rev_string s with
  | String c s' => if Ascii.eqb c (ascii_of_nat 13) then rev_string s' else s
  | EmptyString => s
  end.
Definition lines (s : string) : list string :=
  let parts := split line_end s in
  let n := length parts in
  let kept := match list.last parts with Some EmptyString => removelast parts | _ => parts end in
  (* a carriage return is part of the line feed it comes before *)
  if bool_decide (length kept = n) then ((strip_cr <$> removelast kept) ++ option_list (list.last kept))%list
  else strip_cr <$> kept.

(** [s.split_whitespace()] of ASCII white space or any other white space: the non-empty parts. *)
Fixpoint skip_spaces (fuel : nat) (acc s : string) : list string :=
  match fuel, s with
  | S k, String c s' =>
      match List.find (fun w => String.prefix w s) white_space with
      | Some w => ((if acc =s "" then [] else [acc]) ++ skip_spaces k "" (skip_prefix (String.length w) s))%list
      | None => skip_spaces k (acc ++ String c "") s'
      end
  | _, _ => if acc =s "" then [] else [acc]
  end.
Definition split_whitespace (s : string) : list string := skip_spaces (S (String.length s)) "" s.

(** ** Formatting *)

(** [{n}] for an unsigned integer. *)
Definition fmt_nat (n : nat) : string := pretty n.
Definition fmt_Z (z : Z) : string := pretty z.

Definition hex_digit (n : nat) : ascii :=
  ascii_of_nat (if n <? 10 then 48 + n else 87 + n).

(** [{b:02x}]. *)
Definition hex_byte (c : ascii) : string :=
  let n := nat_of_ascii c in
  String (hex_digit (n / 16)) (String (hex_digit (n mod 16)) EmptyString).

Fixpoint hex_string (s : string) : string :=
  match s with
  | EmptyString => EmptyString
  | String c s' => hex_byte c ++ hex_string s'
  end.

Definition quote : string := String (ascii_of_nat 34) EmptyString.

(** [char::escape_debug] on ASCII; other bytes are printed as they are. *)
Definition escape_debug (c : ascii) : string :=
  match nat_of_ascii c with
  | 0 => "\0"
  | 9 => "\t"
  | 10 => "\n"
  | 13 => "\r"
  | 34 => "\" ++ quote
  | 92 => "\\"
  | n => if (n <? 16) then "\u{" ++ String (hex_digit n) "}"
         else if (n <? 32) || (n =? 127) then "\u{" ++ hex_byte c ++ "}"
         else String c EmptyString
  end.

(** [{s:?}] of a string and [{v:?}] of a vector of strings. *)
Definition fmt_debug_str (s : string) : string :=
  quote ++ String.concat "" (escape_debug <$> String.list_ascii_of_string s) ++ quote.

Definition fmt_debug_strs (l : list string) : string :=
  "[" ++ String.concat ", " (fmt_debug_str <$> l) ++ "]".

(** ** Lemmas *)

Lemma eqb_spec (a b : string) : (a =s b) = true <-> a = b.
Proof. apply String.eqb_eq. Qed.

Lemma eqb_neq_spec (a b : string) : (a =s b) = false <-> a <> b.
Proof. apply String.eqb_neq. Qed.

Lemma eqb_refl (a : string) : (a =s a) = true.
Proof. by apply eqb_spec. Qed.

Lemma append_inj_l (p a b : string) : p ++ a = p ++ b -> a = b.
Proof. apply (inj (String.append p)). Qed.

Lemma length_append (a b : string) :
  String.length (a ++ b) = String.length a + String.length b.
Proof.
  induction a as [|c a IH]; [done|].
  change (S (String.length (a ++ b)) = S (String.length a + String.length b)).
  by rewrite IH.
Qed.

Lemma append_assoc (a b c : string) : a ++ (b ++ c) = (a ++ b) ++ c.
Proof.
  induction a as [|x a IH]; [done|].
  change (String x (a ++ (b ++ c)) = String x ((a ++ b) ++ c)). by rewrite IH.
Qed.

Lemma append_inj_r (a b s : string) : a ++ s = b ++ s -> a = b.
Proof.
  revert b. induction a as [|c a IH]; intros [|d b] H; try done.
  - apply (f_equal String.length) in H. rewrite !length_append in H. simpl in H. lia.
  - apply (f_equal String.length) in H. rewrite !length_append in H. simpl in H. lia.
  - change (String c (a ++ s) = String d (b ++ s)) in H.
    injection H as -> H. by rewrite (IH b).
Qed.

(** Distinct counters give distinct numbered candidates. *)
Lemma fmt_nat_inj (m n : nat) : fmt_nat m = fmt_nat n -> m = n.
Proof. apply (inj (pretty : nat -> string)). Qed.

Lemma eq_ignore_ascii_case_refl a : eq_ignore_ascii_case a a = true.
Proof. apply eqb_refl. Qed.

Lemma eq_ignore_ascii_case_sym a b :
  eq_ignore_ascii_case a b = eq_ignore_ascii_case b a.
Proof. unfold eq_ignore_ascii_case. apply String.eqb_sym. Qed.

Lemma eq_ignore_ascii_case_trans a b c :
  eq_ignore_ascii_case a b = true -> eq_ignore_ascii_case b c = true ->
  eq_ignore_ascii_case a c = true.
Proof. unfold eq_ignore_ascii_case. rewrite !eqb_spec. congruence. Qed.

Lemma split_nonempty c s : split c s <> [].
Proof. destruct s as [|d s]; simpl; [done|]. destruct (Ascii.eqb c d); [done|]. by destruct (split c s). Qed.

Example trim_example : trim (bytes_of [32; 194; 160; 97; 32; 98; 10; 227; 128; 128]) = "a b".
Proof. vm_compute. reflexivity. Qed.

Example split_once_example : split_once "." "fs.device.list" = Some ("fs", "device.list").
Proof. reflexivity. Qed.

Example fmt_debug_example :
  fmt_debug_strs ["10.0.0.1"; "::1"] = "[" ++ quote ++ "10.0.0.1" ++ quote ++ ", " ++ quote ++ "::1" ++ quote ++ "]".
Proof. vm_compute. reflexivity. Qed.

(** Boolean equalities of strings in the context become equalities. *)
Ltac str_eq :=
  repeat match goal with
  | H : (_ =s _) = true |- _ => apply eqb_spec in H
  | H : (_ =s _) = false |- _ => apply eqb_neq_spec in H
  | H : negb _ = true |- _ => apply negb_true_iff in H
  | H : negb _ = false |- _ => apply negb_false_iff in H
  end.

Lemma replace_char_back a b s :
  contains_char b s = false -> replace_char b a (replace_char a b s) = s.
Proof.
  induction s as [|c s IH]; [done|]. cbn [contains_char replace_char].
  intros [Hc Hs]%orb_false_iff. rewrite (IH Hs). f_equal.
  destruct (Ascii.eqb_spec c a) as [->|Hne].
  - by rewrite Ascii.eqb_refl.
  - rewrite Ascii.eqb_sym in Hc. by rewrite Hc.
Qed.

Lemma strip_prefix_app p s : strip_prefix p (p ++ s) = Some s.
Proof.
  induction p as [|c p IH]; [done|]. change (String c p ++ s) with (String c (p ++ s)).
  cbn [strip_prefix]. by rewrite Ascii.eqb_refl.
Qed.
