(* ===== verification/Disk.v ===== *)
(** * The file system as the engine sees it

    A disk maps absolute paths (lists of components) to files. Every system
    call the modelled code makes is a definition that may fail as a fault plan
    says; a failed call leaves the disk as the kernel would: a failed write
    leaves a prefix of the data, the other calls leave no trace. Directories
    are not represented: [create_dir_all] can only fail or succeed. *)
From Stdlib Require Import String Ascii ZArith.
From stdpp Require Import base list gmap strings numbers.
From S2P Require Import Prelude RustStr.

Open Scope string_scope.
Open Scope rust_scope.

(** ** Paths *)

Abbreviation Path := (list string).

(** The components of a relative or absolute path text; empty components and
    [.] are dropped, as [Path::components] does. *)
Definition components (s : string) : Path :=
  List.filter (fun c => negb (c =s "") && negb (c =s ".")) (split "/" s).

(** [dir.join(s)]: an absolute [s] replaces [dir]. *)
Definition join (dir : Path) (s : string) : Path :=
  if starts_with "/" s then components s else (dir ++ components s)%list.

(** [Path::parent] and [Path::file_name]. *)
Definition parent (p : Path) : option Path :=
  match p with [] => None | _ => Some (removelast p) end.

Definition file_name (p : Path) : option string := list.last p.

(** Split a file name at its last dot; a leading dot does not count. *)
Fixpoint rsplit_dot (s : string) : option (string * string) :=
  match s with
  | EmptyString => None
  | String d s' =>
      match rsplit_dot s' with
      | Some (a, b) => Some (String d a, b)
      | None => if Ascii.eqb d "." then Some (EmptyString, s') else None
      end
  end.

(** [Path::extension] and [Path::file_stem] of a file name. *)
Definition extension (name : string) : option string :=
  match rsplit_dot name with
  | Some (EmptyString, _) | None => None
  | Some (_, e) => Some e
  end.

Definition file_stem (name : string) : string :=
  match rsplit_dot name with
  | Some (EmptyString, _) | None => name
  | Some (st, _) => st
  end.

(** [Path::with_extension]. *)
Definition with_extension (p : Path) (e : string) : Path :=
  match file_name p with
  | Some n => (removelast p ++ [(file_stem n ++ "." ++ e)%string])%list
  | None => p
  end.

(** ** Files *)

Inductive FileKind :=
| Regular
| Symlink (target : Path)
| Special.

Record File := mkFile {
  f_kind : FileKind;
  f_mode : Z;
  f_uid : Z;
  f_content : string
}.

Definition is_regular (f : File) : bool :=
  match f_kind f with Regular => true | _ => false end.

Abbreviation Disk := (gmap (list string) File).

(** The engine runs as root, with the umask 022 of a systemd service. *)
Definition engine_uid : Z := 0.

(** The part of [std::io::Error] the engine looks at. *)
Inductive IoErr :=
| NotFound
| AlreadyExists
| SymlinkLoop
| OtherIo (msg : string).

(** [Path::display]. *)
Definition display_path (p : Path) : string := "/" ++ String.concat "/" p.

(** The text of an [io::Error]; the operating system chooses it. *)
Definition display_io (e : IoErr) : string :=
  match e with
  | NotFound => "No such file or directory (os error 2)"
  | AlreadyExists => "File exists (os error 17)"
  | SymlinkLoop => "Too many levels of symbolic links (os error 40)"
  | OtherIo m => m
  end.

Definition is_not_found (e : IoErr) : bool :=
  match e with NotFound => true | _ => false end.

(** ** Faults *)

Inductive IoOp :=
| OpOpen | OpStat | OpRead | OpCreateNew | OpWrite | OpSync | OpRename | OpLink
| OpUnlink | OpOpenDir | OpSyncDir | OpMkdir | OpChmod | OpReadDir.

(** Which calls fail during one handler, and how many bytes of a failed write
    reach the file. *)
Record Faults := mkFaults {
  fault : IoOp -> Path -> option IoErr;
  short_write : nat
}.

Definition no_faults : Faults := mkFaults (fun _ _ => None) 0.

Fixpoint take_string (n : nat) (s : string) : string :=
  match n, s with
  | S n', String c s' => String c (take_string n' s')
  | _, _ => EmptyString
  end.

(** ** System calls *)

Section Calls.
Context (F : Faults).

Definition check (op : IoOp) (p : Path) : M Disk IoErr unit :=
  match fault F op p with Some e => throw e | None => ret tt end.

(** Follow symbolic links, at most 40 of them as Linux does. *)
Fixpoint resolve (fuel : nat) (d : Disk) (p : Path) : result Path IoErr :=
  match d !! p with
  | Some (mkFile (Symlink t) _ _ _) =>
      match fuel with
      | 0 => Err SymlinkLoop
      | S k => resolve k d t
      end
  | _ => Ok p
  end.

(** [open(path, O_RDONLY | O_NOFOLLOW)], the handle being the file. *)
Definition open_nofollow (p : Path) : M Disk IoErr File :=
  check OpOpen p ;;;
  f <- gets (fun d : Disk => d !! p) ;;
  match f with
  | None => throw NotFound
  | Some f => match f_kind f with
              | Symlink _ => throw SymlinkLoop
              | _ => ret f
              end
  end.

(** [fs::read_to_string]. *)
Definition read_to_string (p : Path) : M Disk IoErr string :=
  check OpRead p ;;;
  d <- gets (fun d => d) ;;
  q <- lift (resolve 40 d p) ;;
  match d !! q with
  | Some f => ret (f_content f)
  | None => throw NotFound
  end.

(** [OpenOptions::write(true).create_new(true).mode(m).open]. *)
Definition create_new (p : Path) (mode : Z) : M Disk IoErr unit :=
  check OpCreateNew p ;;;
  d <- gets (fun d => d) ;;
  throw_if (is_some (d !! p)) AlreadyExists ;;;
  modify (<[p := mkFile Regular mode engine_uid ""]>).

Definition set_content (s : string) (f : File) : File :=
  mkFile (f_kind f) (f_mode f) (f_uid f) s.

(** [write_all] on a handle opened at [p]. *)
Definition write_all (p : Path) (data : string) : M Disk IoErr unit :=
  match fault F OpWrite p with
  | Some e => modify (alter (set_content (take_string (short_write F) data)) p) ;;; throw e
  | None => modify (alter (set_content data) p)
  end.

(** [fs::write]: follow links, create or truncate, then write. *)
Definition fs_write (p : Path) (data : string) : M Disk IoErr unit :=
  d <- gets (fun d => d) ;;
  q <- lift (resolve 40 d p) ;;
  let old := match d !! q with
             | Some f => f
             | None => mkFile Regular 420 engine_uid ""
             end in
  match fault F OpWrite p with
  | Some e => modify (<[q := set_content (take_string (short_write F) data) old]>) ;;; throw e
  | None => modify (<[q := set_content data old]>)
  end.

Definition rename (a b : Path) : M Disk IoErr unit :=
  check OpRename a ;;;
  d <- gets (fun d => d) ;;
  match d !! a with
  | None => throw NotFound
  | Some f => modify (fun d => <[b := f]> (delete a d))
  end.

Definition hard_link (a b : Path) : M Disk IoErr unit :=
  check OpLink a ;;;
  d <- gets (fun d => d) ;;
  match d !! a with
  | None => throw NotFound
  | Some f => throw_if (is_some (d !! b)) AlreadyExists ;;; modify (<[b := f]>)
  end.

Definition remove_file (p : Path) : M Disk IoErr unit :=
  check OpUnlink p ;;;
  d <- gets (fun d => d) ;;
  match d !! p with
  | None => throw NotFound
  | Some _ => modify (delete p)
  end.

Definition set_permissions (p : Path) (mode : Z) : M Disk IoErr unit :=
  check OpChmod p ;;;
  d <- gets (fun d => d) ;;
  match d !! p with
  | None => throw NotFound
  | Some f => modify (<[p := mkFile (f_kind f) mode (f_uid f) (f_content f)]>)
  end.

(** [fs::read_dir]: the entries of a directory, in the order of the map. *)
Definition read_dir (dir : Path) : M Disk IoErr (list Path) :=
  check OpReadDir dir ;;;
  d <- gets (fun d => d) ;;
  ret (List.filter (fun p => bool_decide (parent p = Some dir)) (map_to_list d).*1).

End Calls.

(** ** Serialisation *)

(** [serde_json]: a text format with its parser. *)
Class Codec (T : Type) := {
  encode : T -> result string string;
  decode : string -> result T string
}.

(** What the engine relies on: a value that was printed parses back. *)
Class CodecLaws (T : Type) `{Codec T} : Prop :=
  decode_encode : forall (x : T) s, encode x = Ok s -> decode s = Ok x.

(** ** Lemmas *)

Lemma check_disk F op p d : (check F op p d).2 = d.
Proof. unfold check. by destruct (fault F op p). Qed.

Lemma read_to_string_disk F p d : (read_to_string F p d).2 = d.
Proof.
  unfold read_to_string, bind, check, gets, lift, ret, throw.
  by repeat case_match; simplify_eq/=.
Qed.

Lemma read_dir_disk F p d : (read_dir F p d).2 = d.
Proof.
  unfold read_dir, bind, check, gets, ret, throw. by repeat case_match; simplify_eq/=.
Qed.

Lemma split_no_slash s : contains_char "/" s = false -> split "/" s = [s].
Proof.
  induction s as [|c s IH]; [done|]. cbn [contains_char RustStr.split].
  intros [Hc H]%orb_false_iff. by rewrite Hc, (IH H).
Qed.

(** A name without a slash is one component. *)
Lemma join_name dir s :
  contains_char "/" s = false -> s <> "" -> s <> "." -> join dir s = (dir ++ [s])%list.
Proof.
  intros Hs He Hd. unfold join, components, starts_with.
  destruct (String.prefix "/" s) eqn:Hp.
  - destruct s as [|c s]; [done|]. cbn [contains_char] in Hs.
    unfold String.prefix in Hp. destruct (ascii_dec "/" c) as [<-|]; [|done].
    by rewrite Ascii.eqb_refl in Hs.
  - rewrite (split_no_slash s Hs). simpl.
    apply eqb_neq_spec in He, Hd. by rewrite He, Hd.
Qed.

Example components_example : components "/var/lib/./nasty//auth.json" = ["var"; "lib"; "nasty"; "auth.json"].
Proof. vm_compute. reflexivity. Qed.

Example with_extension_example :
  with_extension ["var"; "rl.json"] "json.corrupt.17" = ["var"; "rl.json.corrupt.17"].
Proof. vm_compute. reflexivity. Qed.
