(* ===== verification/StateStore.v ===== *)
(** * Persisted state: engine/nasty-common/src/state.rs

    Singleton state files with recovery from corruption
    ([load_singleton_or_recover]) and the directory store with one JSON file
    per item ([StateDir]): what is written is what is read back, a failed save
    never damages the stored item, and a corrupt file is moved aside, not lost. *)
From Stdlib Require Import String Ascii ZArith.
From stdpp Require Import base list gmap strings numbers.
From S2P Require Import Prelude RustStr Disk.

Open Scope string_scope.
Open Scope rust_scope.

Section Store.
Context {T : Type} `{Codec T}.
Context (F : Faults).

(** [path.extension().and_then(|e| e.to_str())]. *)
Definition path_extension (p : Path) : option string := file_name p ≫= extension.

(** Where a corrupt file is moved. [ts] is the clock in seconds, [None] when it
    is before the epoch. *)
Definition corrupt_backup (p : Path) (ts : option Z) : Path :=
  with_extension p
    (default "dat" (path_extension p) ++ ".corrupt."
     ++ match ts with Some t => fmt_Z t | None => "unknown" end).

Definition load_singleton_or_recover (dflt : T) (p : Path) (ts : option Z) : M Disk IoErr T :=
  r <- attempt (read_to_string F p) ;;
  match r with
  | Err _ => ret dflt
  | Ok content =>
      match decode content with
      | Ok v => ret v
      | Err _ =>
          _ <- attempt (E := IoErr) (rename F p (corrupt_backup p ts)) ;;
          ret dflt
      end
  end.

(** [StateDir] is its directory. *)
Record StateDir := mkStateDir { dir : Path }.

Definition is_json (p : Path) : bool :=
  match path_extension p with Some e => e =s "json" | None => false end.

Definition item_path (sd : StateDir) (id : string) : Path := join (dir sd) (id ++ ".json").

Definition tmp_path (sd : StateDir) (id : string) : Path :=
  join (dir sd) ("." ++ id ++ ".tmp").

(** The loop of [load_all]: unreadable and unparsable entries are skipped, a
    failure to advance the iterator ends the loop. *)
Fixpoint load_all_loop (ps : list Path) (items : list T) : M Disk IoErr (list T) :=
  match ps with
  | [] => ret items
  | p :: ps' =>
      r <- attempt (check F OpReadDir p) ;;
      match r with
      | Err _ => ret items
      | Ok _ =>
          if negb (is_json p) then load_all_loop ps' items
          else
            c <- attempt (read_to_string F p) ;;
            match c with
            | Ok content =>
                match decode content with
                | Ok item => load_all_loop ps' (items ++ [item])%list
                | Err _ => load_all_loop ps' items
                end
            | Err _ => load_all_loop ps' items
            end
      end
  end.

Definition load_all (sd : StateDir) : M Disk IoErr (list T) :=
  r <- attempt (read_dir F (dir sd)) ;;
  match r with
  | Err _ => ret []
  | Ok ps => load_all_loop ps []
  end.

(** The loop of [load_all_strict]: the first failure fails the whole load. *)
Fixpoint load_all_strict_loop (ps : list Path) (items : list T) : M Disk IoErr (list T) :=
  match ps with
  | [] => ret items
  | p :: ps' =>
      check F OpReadDir p ;;;
      if negb (is_json p) then load_all_strict_loop ps' items
      else
        content <- read_to_string F p ;;
        match decode content with
        | Ok item => load_all_strict_loop ps' (items ++ [item])%list
        | Err e => throw (OtherIo e)
        end
  end.

Definition load_all_strict (sd : StateDir) : M Disk IoErr (list T) :=
  r <- attempt (read_dir F (dir sd)) ;;
  match r with
  | Err e => if is_not_found e then ret [] else throw e
  | Ok ps => load_all_strict_loop ps []
  end.

Definition load (sd : StateDir) (id : string) : M Disk IoErr (option T) :=
  r <- attempt (read_to_string F (item_path sd id)) ;;
  match r with
  | Err _ => ret None
  | Ok content => match decode content with
                  | Ok v => ret (Some v)
                  | Err _ => ret None
                  end
  end.

Definition save (sd : StateDir) (id : string) (item : T) : M Disk IoErr unit :=
  check F OpMkdir (dir sd) ;;;
  json <- lift (map_err OtherIo (encode item)) ;;
  fs_write F (tmp_path sd id) json ;;;
  rename F (tmp_path sd id) (item_path sd id).

Definition remove (sd : StateDir) (id : string) : M Disk IoErr unit :=
  r <- attempt (remove_file F (item_path sd id)) ;;
  match r with
  | Ok _ => ret tt
  | Err e => if is_not_found e then ret tt else throw e
  end.

End Store.

Arguments load_singleton_or_recover {T _} F dflt p ts _.
Arguments load_all {T _} F sd _.
Arguments load_all_strict {T _} F sd _.
Arguments load {T _} F sd id _.
Arguments save {T _} F sd id item _.

(** ** Lemmas *)

Lemma contains_char_app c a b :
  contains_char c (a ++ b) = contains_char c a || contains_char c b.
Proof.
  induction a as [|d a IH]; [done|].
  change (Ascii.eqb c d || contains_char c (a ++ b) = (Ascii.eqb c d || contains_char c a) || contains_char c b).
  rewrite IH. by rewrite orb_assoc.
Qed.

Lemma item_path_eq sd id :
  contains_char "/" id = false -> item_path sd id = (dir sd ++ [(id ++ ".json")%string])%list.
Proof.
  intros Hid. apply join_name.
  - by rewrite contains_char_app, Hid.
  - intros E%(f_equal String.length). rewrite length_append in E. simpl in E. lia.
  - intros E%(f_equal String.length). rewrite length_append in E. simpl in E. lia.
Qed.

Lemma tmp_path_eq sd id :
  contains_char "/" id = false -> tmp_path sd id = (dir sd ++ [("." ++ id ++ ".tmp")%string])%list.
Proof.
  intros Hid. apply join_name.
  - rewrite !contains_char_app, Hid. done.
  - intros E%(f_equal String.length). rewrite length_append in E. simpl in E. lia.
  - intros E%(f_equal String.length). rewrite !length_append in E. simpl in E. lia.
Qed.

Lemma substring_suffix a b :
  String.substring (String.length a) (String.length b) (a ++ b) = b.
Proof.
  induction a as [|c a IH]; [|exact IH].
  induction b as [|d b IHb]; [done|]. change (String d (String.substring 0 (String.length b) b) = String d b).
  f_equal. exact IHb.
Qed.

(** Different suffixes of the same length separate names. *)
Lemma suffix_neq a b x y :
  String.length x = String.length y -> x <> y -> a ++ x <> b ++ y.
Proof.
  intros Hl Hne E. apply Hne.
  assert (String.length a = String.length b) as Hab.
  { apply (f_equal String.length) in E. rewrite !length_append in E. lia. }
  rewrite <- (substring_suffix a x), <- (substring_suffix b y), E, Hab, Hl. done.
Qed.

Lemma tmp_ne_item sd id id' :
  contains_char "/" id = false -> contains_char "/" id' = false ->
  tmp_path sd id <> item_path sd id'.
Proof.
  intros Hid Hid' E. rewrite tmp_path_eq, item_path_eq in E by done.
  apply app_inj_tail in E as [_ E].
  assert ("." ++ id ++ ".tmp" = ("." ++ id) ++ ".tmp") as E1 by done.
  assert (id' ++ ".json" = (id' ++ ".") ++ "json") as E2.
  { change ".json" with ("." ++ "json"). by rewrite append_assoc. }
  rewrite E1, E2 in E. by apply suffix_neq in E.
Qed.

Lemma item_path_inj sd id id' :
  contains_char "/" id = false -> contains_char "/" id' = false ->
  item_path sd id = item_path sd id' -> id = id'.
Proof.
  intros Hid Hid'. rewrite !item_path_eq by done.
  intros [_ E]%app_inj_tail. by apply append_inj_r in E.
Qed.

Lemma resolve_plain (n : nat) (d : Disk) (p : Path) :
  (forall f, d !! p = Some f -> is_regular f = true) -> resolve n d p = Ok p.
Proof.
  intros Hf. destruct n; simpl; destruct (d !! p) as [[[] m u c]|] eqn:E; try done;
    by specialize (Hf _ eq_refl).
Qed.

Lemma read_to_string_no_faults (d : Disk) (p : Path) :
  (forall f, d !! p = Some f -> is_regular f = true) ->
  read_to_string no_faults p d =
  (match d !! p with Some f => Ok (f_content f) | None => Err NotFound end, d).
Proof.
  intros Hf. unfold read_to_string, bind, check, ret, gets, lift. cbn [fault no_faults].
  rewrite resolve_plain by done. by destruct (d !! p).
Qed.

Section Guarantees.
Context {T : Type} `{Codec T}.
Implicit Types (sd : StateDir) (id : string) (d : Disk).

(** Everything a save does to the disk, whatever calls fail. *)
Lemma save_spec F sd id (x : T) d :
  contains_char "/" id = false ->
  (forall f, d !! tmp_path sd id = Some f -> is_regular f = true) ->
  wp (save F sd id x)
    (fun r d' =>
       (forall p, p <> item_path sd id -> p <> tmp_path sd id -> d' !! p = d !! p) /\
       match r with
       | Ok _ => exists s f, encode x = Ok s /\ d' !! item_path sd id = Some f /\
                             f_content f = s /\ is_regular f = true
       | Err _ => d' !! item_path sd id = d !! item_path sd id
       end /\
       (forall f, d' !! tmp_path sd id = Some f -> is_regular f = true)) d.
Proof.
  intros Hid Hreg. pose proof (tmp_ne_item sd id id Hid Hid) as Hne.
  assert (forall s, is_regular (set_content s
            match d !! tmp_path sd id with
            | Some f => f
            | None => mkFile Regular 420 engine_uid EmptyString
            end) = true) as Hnew.
  { intros s. destruct (d !! tmp_path sd id) as [f|] eqn:E; [|done]. exact (Hreg f eq_refl). }
  unfold save, wp, bind, check, fs_write, rename, gets, modify, lift, throw, ret.
  destruct (fault F OpMkdir (dir sd)); [done|].
  destruct (encode x) as [s|e]; [|done]. cbn -[tmp_path item_path resolve].
  rewrite (resolve_plain _ d) by done.
  destruct (fault F OpWrite (tmp_path sd id)); cbn -[tmp_path item_path resolve].
  { split_and!; [intros; by rewrite lookup_insert_ne|by rewrite lookup_insert_ne|].
    intros f. rewrite lookup_insert_eq. intros [= <-]. apply Hnew. }
  unfold check, throw, ret.
  destruct (fault F OpRename (tmp_path sd id)); cbn -[tmp_path item_path resolve].
  { split_and!; [intros; by rewrite lookup_insert_ne|by rewrite lookup_insert_ne|].
    intros f. rewrite lookup_insert_eq. intros [= <-]. apply Hnew. }
  rewrite lookup_insert_eq. cbn -[tmp_path item_path resolve]. split_and!.
  - intros. by rewrite lookup_insert_ne, lookup_delete_ne, lookup_insert_ne.
  - eexists s, _. rewrite lookup_insert_eq. by split_and!.
  - intros f. by rewrite lookup_insert_ne, lookup_delete_eq.
Qed.

Lemma load_no_faults sd id d :
  (forall f, d !! item_path sd id = Some f -> is_regular f = true) ->
  load no_faults sd id d =
  (Ok (match d !! item_path sd id with
       | Some f => match decode (T := T) (f_content f) with Ok v => Some v | Err _ => None end
       | None => None
       end), d).
Proof.
  intros Hreg. unfold load, bind, attempt. rewrite read_to_string_no_faults by done.
  destruct (d !! item_path sd id) as [f|]; [|done].
  by destruct (decode (f_content f)).
Qed.

(** The strict load refines the lenient one: when it succeeds the lenient load
    returns the same items, so nothing was skipped. *)
Lemma load_all_strict_loop_lenient F ps (items items' : list T) d d' :
  load_all_strict_loop F ps items d = (Ok items', d') ->
  load_all_loop F ps items d = (Ok items', d').
Proof.
  revert items d. induction ps as [|p ps IH]; intros items d; [done|].
  cbn [load_all_strict_loop load_all_loop]. unfold bind, attempt.
  destruct (check F OpReadDir p d) as [[[]|e] d1]; [|done].
  destruct (negb (is_json p)); [apply IH|].
  destruct (read_to_string F p d1) as [[c|e] d2]; [|done].
  destruct (decode c); [apply IH | done].
Qed.

Lemma strict_loop_mono F ps (items items' : list T) d :
  (load_all_strict_loop F ps items d).1 = Ok items' -> forall y, y ∈ items -> y ∈ items'.
Proof.
  revert items d. induction ps as [|q ps IH]; intros items d.
  { cbn. naive_solver. }
  cbn [load_all_strict_loop]. unfold bind.
  destruct (check F OpReadDir q d) as [[[]|e] d1]; [|done].
  destruct (negb (is_json q)); [apply IH|].
  destruct (read_to_string F q d1) as [[c|e] d2]; [|done].
  destruct (decode c); [|done]. intros Hi y Hy. eapply IH; [done|set_solver].
Qed.

Lemma load_all_strict_items F ps (items items' : list T) d :
  (load_all_strict_loop F ps items d).1 = Ok items' ->
  forall p content, p ∈ ps -> is_json p = true -> (read_to_string F p d).1 = Ok content ->
  exists x, decode content = Ok x /\ x ∈ items'.
Proof.
  revert items. induction ps as [|q ps IH]; intros items; [set_solver|].
  cbn [load_all_strict_loop]. unfold bind.
  destruct (check F OpReadDir q d) as [r d1] eqn:Hc.
  assert (d1 = d) as -> by (by rewrite <- (check_disk F OpReadDir q d), Hc).
  destruct r as [[]|]; [|done].
  destruct (negb (is_json q)) eqn:Hj.
  { intros Hi p content Hp Hp' Hr. apply (IH items) with p; try done.
    apply elem_of_cons in Hp as [->|]; [|done]. by rewrite Hp' in Hj. }
  destruct (read_to_string F q d) as [r d2] eqn:Hr.
  assert (d2 = d) as -> by (by rewrite <- (read_to_string_disk F q d), Hr).
  destruct r as [c|]; [|done].
  destruct (decode c) as [x|] eqn:Hx; [|done]. intros Hi p content Hp Hp' Hpr.
  apply elem_of_cons in Hp as [->|Hp]; [|by apply (IH (items ++ [x])%list) with p].
  rewrite Hr in Hpr. simplify_eq/=. exists x. split; [done|].
  eapply strict_loop_mono; [done|set_solver].
Qed.

(** C39: A save is all or nothing under any I/O faults: when it reports success
    the item reads back as the value saved; when it reports an error the stored
    item is untouched; no other file of the disk but the temporary one changes. *)
Theorem save_all_or_nothing `{!CodecLaws T} F sd id (x : T) d :
  contains_char "/" id = false ->
  (forall f, d !! tmp_path sd id = Some f -> is_regular f = true) ->
  (forall p, p <> item_path sd id -> p <> tmp_path sd id -> (save F sd id x d).2 !! p = d !! p) /\
  match (save F sd id x d).1 with
  | Ok _ => (load no_faults sd id (save F sd id x d).2).1 = Ok (Some x)
  | Err _ => (save F sd id x d).2 !! item_path sd id = d !! item_path sd id
  end.
Proof.
  intros Hid Hreg. destruct (save_spec F sd id x d Hid Hreg) as (Hother & Hr & _).
  split; [exact Hother|].
  destruct (save F sd id x d) as [[[]|e] d']; simpl in *; [|done].
  destruct Hr as (s & f & Hs & Hf & <- & Hrf).
  rewrite load_no_faults by (by intros ? [= <-]%(eq_trans (eq_sym Hf))).
  simpl. by rewrite Hf, (decode_encode _ _ Hs).
Qed.

(** Recovery from a corrupt singleton file loses nothing: when the file
    exists and does not parse, the default is returned and, unless the rename
    itself failed, the very same file is found at the backup path and is gone
    from the original one. *)
Theorem recover_keeps_corrupt_file F (dflt : T) p ts d f :
  fault F OpRead p = None ->
  d !! p = Some f -> is_regular f = true -> is_ok (decode (T := T) (f_content f)) = false ->
  corrupt_backup p ts <> p ->
  (load_singleton_or_recover F dflt p ts d).1 = Ok dflt /\
  (fault F OpRename p = None ->
   let d' := (load_singleton_or_recover F dflt p ts d).2 in
   d' !! corrupt_backup p ts = Some f /\ d' !! p = None) /\
  (fault F OpRename p <> None -> (load_singleton_or_recover F dflt p ts d).2 = d).
Proof.
  intros HF Hf Hreg Hdec Hne.
  unfold load_singleton_or_recover, read_to_string, rename, bind, attempt, check, gets, lift.
  rewrite HF. cbn -[resolve corrupt_backup].
  rewrite resolve_plain by congruence. rewrite Hf.
  cbn -[resolve corrupt_backup].
  destruct (decode (f_content f)); [done|].
  destruct (fault F OpRename p); cbn -[corrupt_backup].
  { split_and!; congruence. }
  rewrite Hf. cbn -[corrupt_backup]. split_and!; [done| |congruence]. intros _.
  by rewrite lookup_insert_eq, lookup_insert_ne, lookup_delete_eq by done.
Qed.

(** A successful strict load omits no item: it returns exactly what the
    lenient load returns, and every readable [.json] entry of the directory is
    parsed and among the items. *)
Theorem strict_load_complete F sd (items : list T) d ps :
  (read_dir F (dir sd) d).1 = Ok ps ->
  (load_all_strict F sd d).1 = Ok items ->
  (load_all F sd d).1 = Ok items /\
  forall p content, p ∈ ps -> is_json p = true -> (read_to_string F p d).1 = Ok content ->
  exists x, decode content = Ok x /\ x ∈ items.
Proof.
  unfold load_all_strict, load_all, bind, attempt.
  pose proof (read_dir_disk F (dir sd) d) as Hd.
  destruct (read_dir F (dir sd) d) as [r d1]. simpl in Hd |- *. subst d1. intros -> Hs. split.
  - destruct (load_all_strict_loop F ps [] d) as [r d'] eqn:E. simpl in Hs. subst r.
    by rewrite (load_all_strict_loop_lenient _ _ _ _ _ _ E).
  - by apply load_all_strict_items with [].
Qed.

End Guarantees.

(** ** Witnesses: a store of numbers in decimal *)

(** A codec for the examples: strings are stored with a marker in front. *)
#[local] Instance string_codec : Codec string := {
  encode s := Ok ("!" ++ s);
  decode t := match t with
              | String "!" s => Ok s
              | _ => Err "expected a marker"
              end
}.

#[local] Instance string_codec_laws : CodecLaws string.
Proof. intros x s [= <-]. done. Qed.

Lemma save_all_or_nothing_witness :
  let sd := mkStateDir ["var"; "lib"] in
  (load no_faults sd "a" (save no_faults sd "a" "hello" ∅).2).1 = Ok (Some "hello").
Proof.
  exact (proj2 (save_all_or_nothing no_faults (mkStateDir ["var"; "lib"]) "a" "hello" ∅
                  eq_refl (fun f E => ltac:(rewrite lookup_empty in E; discriminate)))).
Defined.

Lemma recover_keeps_corrupt_file_witness :
  let f := mkFile Regular 420 0 "garbage" in
  let d : Disk := {[ ["var"; "rl.json"] := f ]} in
  (load_singleton_or_recover no_faults "dflt" ["var"; "rl.json"] (Some 17%Z) d).2
    !! ["var"; "rl.json.corrupt.17"] = Some f.
Proof.
  pose proof (recover_keeps_corrupt_file (T := string) no_faults "dflt" ["var"; "rl.json"] (Some 17%Z)
    {[ ["var"; "rl.json"] := mkFile Regular 420 0 "garbage" ]} (mkFile Regular 420 0 "garbage")
    eq_refl eq_refl eq_refl eq_refl ltac:(vm_compute; discriminate)) as (_ & Hr & _).
  exact (proj1 (Hr eq_refl)).
Defined.

Lemma strict_load_complete_witness :
  let d : Disk := {[ ["var"; "a.json"] := mkFile Regular 420 0 "!x" ]} in
  (load_all no_faults (mkStateDir ["var"]) d).1 = Ok ["x"].
Proof.
  set (d := {[ ["var"; "a.json"] := mkFile Regular 420 0 "!x" ]} : Disk).
  assert ((read_dir no_faults ["var"] d).1 = Ok [["var"; "a.json"]]) as Hd by (vm_compute; reflexivity).
  assert ((load_all_strict no_faults (mkStateDir ["var"]) d).1 = Ok ["x"]) as Hs
    by (vm_compute; reflexivity).
  exact (proj1 (strict_load_complete no_faults (mkStateDir ["var"]) ["x"] d _ Hd Hs)).
Defined.
