(* ===== verification/Records.v ===== *)
(** * Directories of records: [StateDir] and [HasId] of engine/nasty-common/src/state.rs

    The services that keep one JSON file per record (guest shares, iSCSI
    targets, NVMe-oF subsystems, NFS and SMB shares) load, save and remove
    records through [StateStore]. What such a directory holds is the partial
    map [stored]; each call is specified on it, whatever calls fail.

    ** Disks without symbolic links

    What the system calls do on a disk whose files are all regular, as the
    engine's own directories are, and a frame rule: a computation that keeps
    away from some paths leaves their files as they were. *)
From Stdlib Require Import String Ascii ZArith.
From stdpp Require Import base list gmap strings numbers.
From S2P Require Import Prelude RustStr Disk StateStore.

Open Scope string_scope.
Open Scope rust_scope.

(** The trait [HasId]. *)
Class HasId (T : Type) := id_of : T -> string.

Lemma rsplit_dot_json a : rsplit_dot (a ++ ".json") = Some (a, "json").
Proof.
  induction a as [|c a IH]; [reflexivity|].
  change (String c a ++ ".json") with (String c (a ++ ".json")). cbn [rsplit_dot]. by rewrite IH.
Qed.

Lemma rsplit_dot_tmp a : rsplit_dot (a ++ ".tmp") = Some (a, "tmp").
Proof.
  induction a as [|c a IH]; [reflexivity|].
  change (String c a ++ ".tmp") with (String c (a ++ ".tmp")). cbn [rsplit_dot]. by rewrite IH.
Qed.

(** Identifiers the services make: not empty, one path component. *)
Definition valid_id (id : string) : Prop := contains_char "/" id = false /\ id <> "".

Lemma is_json_item sd id : valid_id id -> is_json (item_path sd id) = true.
Proof.
  intros [Hs He]. rewrite item_path_eq by done. unfold is_json, path_extension, file_name.
  rewrite last_snoc. cbn. unfold extension. rewrite rsplit_dot_json. by destruct id.
Qed.

Lemma is_json_tmp sd id : contains_char "/" id = false -> is_json (tmp_path sd id) = false.
Proof.
  intros Hs. rewrite tmp_path_eq by done. unfold is_json, path_extension, file_name.
  rewrite last_snoc. cbn [mbind option_bind]. unfold extension.
  change ("." ++ id ++ ".tmp") with (String "." (id ++ ".tmp")). cbn [rsplit_dot].
  by rewrite rsplit_dot_tmp.
Qed.

Section Directory.
Context {T : Type} `{!HasId T} `{!Codec T} (sd : StateDir).
Implicit Types (d : Disk) (id : string) (F : Faults).

(** The record under an identifier, if its file is there and parses. *)
Definition stored d id : option T :=
  match d !! item_path sd id with
  | Some f => match decode (f_content f) with Ok s => Some s | Err _ => None end
  | None => None
  end.

(** The directory as a service keeps it: regular files, and each record under
    its own identifier. *)
Record dir_ok d : Prop := mkDirOk {
  dir_plain : forall n f, d !! (dir sd ++ [n])%list = Some f -> is_regular f = true;
  dir_ids : forall n f x, d !! (dir sd ++ [n])%list = Some f -> is_json (dir sd ++ [n])%list = true ->
    decode (f_content f) = Ok x -> n = id_of x ++ ".json" /\ valid_id (id_of x)
}.

Lemma stored_id d id x : dir_ok d -> valid_id id -> stored d id = Some x -> id_of x = id.
Proof.
  intros Hd Hid. pose proof (is_json_item sd id Hid) as Hj. unfold stored.
  rewrite item_path_eq in * by apply Hid. destruct (d !! _) as [f|] eqn:Hf; [|done].
  destruct (decode (f_content f)) eqn:Hx; [|done]. intros [= <-].
  destruct (dir_ids d Hd _ _ _ Hf Hj Hx) as [E _]. by apply append_inj_r in E.
Qed.

(** Loading a record, whatever reads fail. *)
Lemma load_stored F d id :
  dir_ok d -> valid_id id ->
  (load F sd id d).2 = d /\
  ((load F sd id d).1 = Ok None \/ (load F sd id d).1 = Ok (stored d id)).
Proof.
  intros Hd [Hid _]. unfold load, bind, attempt.
  pose proof (read_to_string_disk F (item_path sd id) d) as Hdisk.
  destruct (read_to_string F (item_path sd id) d) as [r d1] eqn:E. cbn in Hdisk. subst d1.
  destruct r as [c|err]; [|by split; [|left]].
  assert (stored d id = match decode c with Ok s => Some s | Err _ => None end) as Hs.
  { revert E. unfold read_to_string, bind, check, gets, lift, throw, ret, stored.
    destruct (fault F OpRead (item_path sd id)); [done|]. cbn -[resolve].
    rewrite resolve_plain; [|rewrite item_path_eq by done; apply (dir_plain d Hd)].
    destruct (d !! item_path sd id); [|done]. by intros [= <-]. }
  destruct (decode c); cbn; rewrite <- Hs || idtac; (split; [done|]); [right|left]; by rewrite ?Hs.
Qed.

Lemma read_regular F p n d c :
  dir_ok d -> p = (dir sd ++ [n])%list -> (read_to_string F p d).1 = Ok c ->
  exists f, d !! p = Some f /\ f_content f = c.
Proof.
  intros Hd ->. unfold read_to_string, bind, check, gets, lift, throw, ret.
  destruct (fault F OpRead _); [done|]. cbn -[resolve].
  rewrite resolve_plain by apply (dir_plain d Hd).
  destruct (d !! _) as [f|]; [|done]. intros [= <-]. eauto.
Qed.

Lemma parent_snoc (p q : Path) : parent p = Some q -> exists n, p = (q ++ [n])%list.
Proof.
  destruct p as [|x p]; [done|]. unfold parent. intros [= <-]. exists (List.last (x :: p) "").
  by apply app_removelast_last.
Qed.

Lemma load_all_loop_stored F ps acc items d d' :
  dir_ok d -> Forall (fun p => exists n, p = (dir sd ++ [n])%list) ps ->
  load_all_loop F ps acc d = (Ok items, d') ->
  d' = d /\ forall x, x ∈ items -> x ∈ acc \/ (valid_id (id_of x) /\ stored d (id_of x) = Some x).
Proof.
  intros Hd Hps. revert acc. induction Hps as [|p ps [n ->] _ IH]; intros acc.
  { intros [= <- <-]. split; [done|]. auto. }
  cbn [load_all_loop]. unfold bind, attempt at 1.
  pose proof (check_disk F OpReadDir (dir sd ++ [n])%list d) as Hc.
  destruct (check F OpReadDir _ d) as [r d1]. cbn in Hc. subst d1.
  destruct r as [[]|e]; [|intros [= <- <-]; split; [done|auto]].
  destruct (is_json (dir sd ++ [n])%list) eqn:Hj; cbn [negb]; [|apply IH]. unfold attempt at 1.
  pose proof (read_to_string_disk F (dir sd ++ [n])%list d) as Hrd.
  pose proof (read_regular F (dir sd ++ [n])%list n d) as Hplain.
  destruct (read_to_string F (dir sd ++ [n])%list d) as [r d1]. cbn in Hrd, Hplain. subst d1.
  destruct r as [c|]; [|apply IH]. destruct (decode c) as [x|] eqn:Hx; [|apply IH].
  intros E. destruct (IH _ E) as [-> Hin]. split; [done|]. intros y Hy.
  destruct (Hin y Hy) as [Hy'|]; [|auto]. apply elem_of_app in Hy' as [|Hy']; [auto|].
  apply list_elem_of_singleton in Hy' as ->. right.
  destruct (Hplain c Hd eq_refl eq_refl) as (f & Hf & <-).
  destruct (dir_ids d Hd n f x Hf Hj Hx) as [-> Hv]. split; [done|].
  unfold stored. rewrite item_path_eq by apply Hv. by rewrite Hf, Hx.
Qed.

Lemma load_all_stored F items d d' :
  dir_ok d -> load_all F sd d = (Ok items, d') ->
  d' = d /\ forall x, x ∈ items -> valid_id (id_of x) /\ stored d (id_of x) = Some x.
Proof.
  intros Hd. unfold load_all, bind, attempt.
  pose proof (read_dir_disk F (dir sd) d) as Hrd.
  destruct (read_dir F (dir sd) d) as [r d1] eqn:Hr. cbn in Hrd. subst d1.
  destruct r as [ps|e]; [|intros [= <- <-]; split; [done|set_solver]]. intros E.
  assert (Forall (fun p => exists n, p = (dir sd ++ [n])%list) ps) as Hps.
  { revert Hr. unfold read_dir, bind, check, gets, ret, throw.
    destruct (fault F OpReadDir (dir sd)); [done|]. intros [= <-].
    apply list.Forall_forall. intros p Hp. apply list_elem_of_In, filter_In in Hp as [_ Hp].
    apply parent_snoc. by apply bool_decide_eq_true in Hp. }
  destruct (load_all_loop_stored F ps [] items d d' Hd Hps E) as [-> Hin]. split; [done|].
  intros x Hx. destruct (Hin x Hx) as [Hn|]; [by apply not_elem_of_nil in Hn|done].
Qed.

(** Saving a record under its identifier. *)
Lemma save_stored `{!CodecLaws T} F d x :
  dir_ok d -> valid_id (id_of x) ->
  let out := save F sd (id_of x) x d in
  dir_ok out.2 /\
  (forall id, valid_id id -> id <> id_of x -> stored out.2 id = stored d id) /\
  match out.1 with
  | Ok _ => stored out.2 (id_of x) = Some x
  | Err _ => stored out.2 (id_of x) = stored d (id_of x)
  end.
Proof.
  intros Hd Hid. cbn zeta. pose proof Hid as [Hns _].
  assert (forall f, d !! tmp_path sd (id_of x) = Some f -> is_regular f = true) as Hreg.
  { rewrite tmp_path_eq by done. apply (dir_plain d Hd). }
  destruct (save_spec F sd (id_of x) x d Hns Hreg) as (Hother & Hr & Htmp).
  destruct (save F sd (id_of x) x d) as [r d']. cbn [fst snd] in *.
  assert (stored d' (id_of x) = match r with Ok _ => Some x | Err _ => stored d (id_of x) end) as Hst.
  { unfold stored. destruct r as [[]|e].
    - destruct Hr as (s & f & Hs & -> & <- & _). by rewrite (decode_encode _ _ Hs).
    - by rewrite Hr. }
  assert (forall n f, d' !! (dir sd ++ [n])%list = Some f -> (dir sd ++ [n])%list <> tmp_path sd (id_of x) ->
    d !! (dir sd ++ [n])%list = Some f \/
    ((dir sd ++ [n])%list = item_path sd (id_of x) /\ is_regular f = true /\ decode (f_content f) = Ok x)) as Hcase.
  { intros n f Hf Hnt. destruct (decide ((dir sd ++ [n])%list = item_path sd (id_of x))) as [E|Hne].
    - rewrite E in Hf |- *. destruct r as [[]|e]; [right|left; by rewrite <- Hr].
      destruct Hr as (s & f' & Hs & Hf' & <- & Hrf). rewrite Hf in Hf'. injection Hf' as ->.
      split_and!; [done..|]. by apply decode_encode.
    - left. by rewrite <- (Hother _ Hne Hnt). }
  split_and!.
  - split.
    + intros n f Hf. destruct (decide ((dir sd ++ [n])%list = tmp_path sd (id_of x))) as [E|Hnt].
      { rewrite E in Hf. by apply Htmp. }
      destruct (Hcase n f Hf Hnt) as [Hf'|(_ & ? & _)]; [by apply (dir_plain d Hd n)|done].
    + intros n f y Hf Hj Hy. destruct (decide ((dir sd ++ [n])%list = tmp_path sd (id_of x))) as [E|Hnt].
      { rewrite E, is_json_tmp in Hj by done. done. }
      destruct (Hcase n f Hf Hnt) as [Hf'|(E & _ & Hx)]; [by apply (dir_ids d Hd n f)|].
      rewrite Hy in Hx. injection Hx as ->. rewrite item_path_eq in E by done.
      apply app_inj_tail in E as [_ ->]. done.
  - intros id Hv Hne. unfold stored. rewrite Hother; [done|..].
    + intros E. apply Hne. apply (item_path_inj sd); [apply Hv|done|done].
    + apply not_eq_sym, tmp_ne_item; [done|apply Hv].
  - rewrite Hst. by destruct r.
Qed.

(** Faults that do not claim a file to be missing: the disk itself tells. *)
Definition honest F : Prop := forall op p, fault F op p <> Some NotFound.

(** Removing a record. *)
Lemma remove_stored F d id :
  dir_ok d -> valid_id id -> honest F ->
  let out := remove F sd id d in
  dir_ok out.2 /\
  (forall i, valid_id i -> i <> id -> stored out.2 i = stored d i) /\
  match out.1 with
  | Ok _ => stored out.2 id = None
  | Err _ => out.2 = d
  end.
Proof.
  intros Hd Hid Hh. cbn zeta. unfold remove, remove_file, bind, attempt, check, gets, throw, ret, modify.
  specialize (Hh OpUnlink (item_path sd id)).
  destruct (fault F OpUnlink (item_path sd id)) as [[]|]; [done|cbn; by split_and!..|].
  cbn -[item_path]. destruct (d !! item_path sd id) as [f|] eqn:Hf; cbn -[item_path];
    [|split_and!; try done; unfold stored; by rewrite Hf].
  assert (forall n g, delete (item_path sd id) d !! (dir sd ++ [n])%list = Some g ->
            d !! (dir sd ++ [n])%list = Some g) as Hsub by (intros n g [_ ?]%lookup_delete_Some; done).
  split_and!.
  - split; [intros n g Hg; exact (dir_plain d Hd _ _ (Hsub _ _ Hg))|].
    intros n g x Hg. exact (dir_ids d Hd _ _ _ (Hsub _ _ Hg)).
  - intros i Hi Hne. unfold stored. rewrite lookup_delete_ne; [done|].
    intros E. apply Hne. symmetry. apply (item_path_inj sd); [apply Hid|apply Hi|done].
  - unfold stored. by rewrite lookup_delete_eq.
Qed.

(** A readable entry and the record it holds. *)
Definition entry d (p : Path) (x : T) : Prop :=
  exists f, d !! p = Some f /\ decode (f_content f) = Ok x.

Lemma strict_loop_entries F ps (acc items : list T) d :
  (forall p f, p ∈ ps -> d !! p = Some f -> is_regular f = true) ->
  (load_all_strict_loop F ps acc d).1 = Ok items ->
  exists xs, items = (acc ++ xs)%list /\ Forall2 (entry d) (List.filter is_json ps) xs.
Proof.
  revert acc. induction ps as [|p ps IH]; intros acc Hp; cbn [load_all_strict_loop List.filter].
  { intros [= <-]. exists []. by rewrite app_nil_r. }
  assert (forall q f, q ∈ ps -> d !! q = Some f -> is_regular f = true) as Hp'
    by (intros q f Hq; apply Hp; by right).
  unfold bind. pose proof (check_disk F OpReadDir p d) as Hc.
  destruct (check F OpReadDir p d) as [[[]|e] d1]; cbn in Hc; subst d1; [|done].
  destruct (is_json p); cbn [negb]; [|by apply IH].
  destruct (read_to_string F p d) as [[c|e] d1] eqn:Hr; [|done].
  pose proof (read_to_string_disk F p d) as Hd1. rewrite Hr in Hd1. cbn in Hd1. subst d1.
  destruct (decode c) as [x|] eqn:Hx; [|done]. intros (xs & -> & Hxs)%IH; [|done].
  exists (x :: xs). rewrite <- app_assoc. split; [done|]. constructor; [|done].
  revert Hr. unfold read_to_string, bind, check, gets, lift, throw, ret.
  destruct (fault F OpRead p); [done|]. cbn -[resolve].
  rewrite resolve_plain by (intros f; apply Hp; by left).
  destruct (d !! p) as [f|] eqn:Hf; [|done]. intros [= <-]. by exists f.
Qed.

(** The paths a directory listing gives, in the order of the map. *)
Definition entries_of d : list Path :=
  List.filter (fun p => bool_decide (parent p = Some (dir sd))) (map_to_list d).*1.

Lemma elem_of_entries d p : p ∈ entries_of d <-> (exists n, p = dir sd ++ [n])%list /\ is_Some (d !! p).
Proof.
  unfold entries_of. rewrite list_elem_of_In, filter_In, <- list_elem_of_In, bool_decide_eq_true.
  rewrite list_elem_of_fmap. split.
  - intros [([q f] & -> & Hq%elem_of_map_to_list) Hpar]. cbn in *. split; [|by eexists].
    unfold parent in Hpar. destruct q as [|c q] using rev_ind; [done|]. exists c.
    destruct (q ++ [c])%list eqn:E; [by destruct q|]. rewrite <- E, removelast_last in Hpar. congruence.
  - intros [(n & ->) (f & Hf)]. split; [exists ((dir sd ++ [n])%list, f); by rewrite elem_of_map_to_list|].
    unfold parent. destruct (dir sd ++ [n])%list eqn:E; [by destruct (dir sd)|].
    by rewrite <- E, removelast_last.
Qed.

Lemma NoDup_entries d : NoDup (entries_of d).
Proof.
  unfold entries_of. apply NoDup_ListNoDup, List.NoDup_filter, NoDup_ListNoDup, NoDup_fst_map_to_list.
Qed.

(** A strict load that succeeds returns the records of the directory, each once. *)
Lemma load_all_strict_stored F d items :
  dir_ok d -> honest F -> (load_all_strict F sd d).1 = Ok items ->
  NoDup (id_of <$> items) /\
  forall x, x ∈ items <-> valid_id (id_of x) /\ stored d (id_of x) = Some x.
Proof.
  intros Hd Hh. unfold load_all_strict, bind, attempt, read_dir, check, gets, ret, throw.
  pose proof (Hh OpReadDir (dir sd)) as Hn.
  destruct (fault F OpReadDir (dir sd)) as [[]|]; [done..|]. cbn -[load_all_strict_loop]. fold (entries_of d).
  intros (xs & -> & Hxs)%strict_loop_entries; cycle 1.
  { intros p f [(n & ->) _]%elem_of_entries. apply (dir_plain d Hd). }
  cbn [app]. assert (forall p x, entry d p x -> p ∈ List.filter is_json (entries_of d) ->
    valid_id (id_of x) /\ p = item_path sd (id_of x)) as Hpath.
  { intros p x (f & Hf & Hx) Hp. apply list_elem_of_In, filter_In in Hp as [Hp%list_elem_of_In Hj].
    apply elem_of_entries in Hp as [(n & ->) _]. destruct (dir_ids d Hd _ _ _ Hf Hj Hx) as [-> Hv].
    split; [done|]. by rewrite item_path_eq by apply Hv. }
  assert ((item_path sd ∘ id_of) <$> xs = List.filter is_json (entries_of d)) as Hmap.
  { assert (forall ps ys, Forall2 (entry d) ps ys -> (forall p, p ∈ ps -> p ∈ List.filter is_json (entries_of d)) ->
              (item_path sd ∘ id_of) <$> ys = ps) as Haux; [|by apply Haux].
    clear -Hpath. induction 1 as [|p x ps ys Hpx _ IH]; intros Hin; [done|]. cbn.
    rewrite IH by (intros; apply Hin; by right). destruct (Hpath p x Hpx (Hin p ltac:(left))) as [_ ->]. done. }
  split.
  - apply (NoDup_fmap_1 (item_path sd)). rewrite <- list_fmap_compose, Hmap.
    apply NoDup_ListNoDup, List.NoDup_filter, NoDup_ListNoDup, NoDup_entries.
  - intros x. split.
    + intros Hx. apply list_elem_of_lookup in Hx as (i & Hi).
      destruct (Forall2_lookup_r _ _ _ _ _ Hxs Hi) as (p & Hp & Hpx).
      destruct (Hpath p x Hpx) as [Hv ->]; [by eapply list_elem_of_lookup_2|]. split; [done|].
      destruct Hpx as (f & Hf & Hx). unfold stored. by rewrite Hf, Hx.
    + intros [Hv Hs]. assert (item_path sd (id_of x) ∈ List.filter is_json (entries_of d)) as Hin.
      { apply list_elem_of_In, filter_In. rewrite <- list_elem_of_In, elem_of_entries.
        split_and!; [|unfold stored in Hs; by destruct (d !! _)|by apply is_json_item].
        eexists. apply item_path_eq, Hv. }
      apply list_elem_of_lookup in Hin as (i & Hi). destruct (Forall2_lookup_l _ _ _ _ _ Hxs Hi) as (y & Hy & Hpy).
      assert (y = x) as <-; [|by eapply list_elem_of_lookup_2].
      destruct Hpy as (f & Hf & Hdy). unfold stored in Hs. rewrite Hf, Hdy in Hs. congruence.
Qed.

Lemma load_all_strict_disk F d : (load_all_strict (T := T) F sd d).2 = d.
Proof.
  unfold load_all_strict, bind, attempt. pose proof (read_dir_disk F (dir sd) d) as Hr.
  destruct (read_dir F (dir sd) d) as [[ps|e] d1]; cbn in Hr; subst d1; [|by destruct (is_not_found e)].
  generalize (@nil T). induction ps as [|p ps IH]; intros acc; cbn [load_all_strict_loop]; [done|].
  unfold bind. pose proof (check_disk F OpReadDir p d) as Hc.
  destruct (check F OpReadDir p d) as [[[]|e] d1]; cbn in Hc; subst d1; [|done].
  destruct (negb (is_json p)); [apply IH|]. pose proof (read_to_string_disk F p d) as Hr.
  destruct (read_to_string F p d) as [[c|e] d1]; cbn in Hr; subst d1; [|done].
  destruct (decode c); [apply IH|done].
Qed.

End Directory.

Lemma dir_ok_same {T} `{!HasId T} `{!Codec T} (sd : StateDir) (d d' : Disk) :
  (forall n, d' !! (dir sd ++ [n])%list = d !! (dir sd ++ [n])%list) -> dir_ok (T := T) sd d -> dir_ok (T := T) sd d'.
Proof. intros Hd [Hp Hi]. split; [intros n f|intros n f x]; rewrite Hd; [apply Hp|apply Hi]. Qed.

Definition plain (d : Disk) : Prop := forall p f, d !! p = Some f -> is_regular f = true.

Definition content_at (d : Disk) (p : Path) : option string := f_content <$> d !! p.

Lemma plain_resolve n d p : plain d -> resolve n d p = Ok p.
Proof. intros H. apply resolve_plain. exact (H p). Qed.

Lemma plain_insert d p f : plain d -> is_regular f = true -> plain (<[p := f]> d).
Proof. intros Hd Hf q g [[_ <-]|[_ Hg]]%lookup_insert_Some; eauto. Qed.

Lemma plain_delete d p : plain d -> plain (delete p d).
Proof. intros Hd q g [_ Hg]%lookup_delete_Some. eauto. Qed.

Lemma is_regular_set_content s f : is_regular (set_content s f) = is_regular f.
Proof. by destruct f. Qed.

Lemma read_plain F p d : plain d ->
  read_to_string F p d =
  (match fault F OpRead p with
   | Some e => Err e
   | None => match content_at d p with Some s => Ok s | None => Err NotFound end
   end, d).
Proof.
  intros Hd. unfold read_to_string, content_at, check, gets, lift, throw, ret, bind.
  destruct (fault F OpRead p); [done|]. rewrite plain_resolve by done. by destruct (d !! p).
Qed.

(** A file present or new, regular as any file here. *)
Lemma fs_write_plain F p s d : plain d ->
  exists f, is_regular f = true /\
  fs_write F p s d =
  match fault F OpWrite p with
  | Some e => (Err e, <[p := set_content (take_string (short_write F) s) f]> d)
  | None => (Ok tt, <[p := set_content s f]> d)
  end.
Proof.
  intros Hd. unfold fs_write, gets, lift, bind, modify, throw, ret. rewrite plain_resolve by done.
  destruct (d !! p) as [f|] eqn:Hp.
  - exists f. split; [exact (Hd _ _ Hp)|]. by destruct (fault F OpWrite p).
  - exists (mkFile Regular 420 engine_uid ""). split; [done|]. by destruct (fault F OpWrite p).
Qed.

(** ** Frames *)

Section Frame.
Context (keep : Path -> Prop) (d0 : Disk).

(** The disk is plain and the files of [keep] are those of [d0]. *)
Definition framed (d : Disk) : Prop := plain d /\ forall p, keep p -> d !! p = d0 !! p.

Lemma framed_refl : plain d0 -> framed d0.
Proof. by split. Qed.

Lemma framed_insert d p f : ~ keep p -> is_regular f = true -> framed d -> framed (<[p := f]> d).
Proof.
  intros Hp Hf [Hd Hk]. split; [by apply plain_insert|]. intros q Hq.
  rewrite lookup_insert_ne by congruence. auto.
Qed.

Lemma framed_delete d p : ~ keep p -> framed d -> framed (delete p d).
Proof.
  intros Hp [Hd Hk]. split; [by apply plain_delete|]. intros q Hq.
  rewrite lookup_delete_ne by congruence. auto.
Qed.

Lemma keeps_check F op p d : framed d -> keeps framed (check F op p) d.
Proof. unfold keeps, wp. by rewrite check_disk. Qed.

Lemma keeps_read_dir F p d : framed d -> keeps framed (read_dir F p) d.
Proof. unfold keeps, wp. by rewrite read_dir_disk. Qed.

Lemma keeps_read F p d : framed d -> keeps framed (read_to_string F p) d.
Proof. unfold keeps, wp. by rewrite read_to_string_disk. Qed.

Lemma keeps_fs_write F p s d : ~ keep p -> framed d -> keeps framed (fs_write F p s) d.
Proof.
  intros Hp Hd. destruct (fs_write_plain F p s d (proj1 Hd)) as (f & Hf & E).
  unfold keeps, wp. rewrite E. destruct (fault F OpWrite p); cbn;
    by apply framed_insert; rewrite ?is_regular_set_content.
Qed.

Lemma keeps_rename F a b d : ~ keep a -> ~ keep b -> framed d -> keeps framed (rename F a b) d.
Proof.
  intros Ha Hb Hd. unfold keeps, wp, rename, check, gets, bind, throw, ret, modify.
  destruct (fault F OpRename a); [done|]. destruct (d !! a) as [f|] eqn:E; [|done]. cbn.
  apply framed_insert; [done|exact (proj1 Hd _ _ E)|]. by apply framed_delete.
Qed.

Lemma keeps_remove F p d : ~ keep p -> framed d -> keeps framed (remove_file F p) d.
Proof.
  intros Hp Hd. unfold keeps, wp, remove_file, check, gets, bind, throw, ret, modify.
  destruct (fault F OpUnlink p); [done|]. destruct (d !! p); [|done]. cbn. by apply framed_delete.
Qed.

End Frame.

#[export] Hint Resolve framed_refl keeps_check keeps_read_dir keeps_read keeps_fs_write keeps_rename keeps_remove : rust.

Lemma remove_file_no_faults p d f :
  d !! p = Some f -> remove_file no_faults p d = (Ok tt, delete p d).
Proof. intros E. unfold remove_file, check, gets, bind, modify. cbn. by rewrite E. Qed.
