(* ===== verification/AuthTypes.v ===== *)
(** * Authentication: data, policy and pure helpers

    The data of engine/nasty-engine/src/auth.rs (users, sessions, API tokens,
    errors), the endpoint policy [authorize_session], and the pure helpers of
    that file and of auth_oidc.rs. The cryptographic packages the code calls
    (argon2, sha2, subtle, base64, webauthn-rs) are the class [AuthPrims].

    ** Failed-login tracking: [RateLimitState] of auth.rs

    Failure timestamps per user name and per source address, with the windows
    of fifteen minutes and of one hour. *)
From Stdlib Require Import String Ascii ZArith.
From stdpp Require Import base list gmap strings numbers.
From S2P Require Import Prelude RustStr Disk.

Open Scope string_scope.
Open Scope rust_scope.

(** ** Third-party primitives *)

(** Byte strings are strings. *)
Class AuthPrims := {
  (** webauthn-rs *)
  Passkey : Type;
  cred_id : Passkey -> string;
  AuthenticationResult : Type;
  ar_cred_id : AuthenticationResult -> string;
  update_credential : AuthenticationResult -> Passkey -> Passkey;
  (** argon2 and password_hash *)
  salt_encode_b64 : string -> result string string;
  argon2_hash_password : string -> string -> result string string;
  PasswordHash : Type;
  PasswordHash_new : string -> result PasswordHash string;
  argon2_verify_password : string -> PasswordHash -> bool;
  (** sha2, base64 (URL_SAFE_NO_PAD) and subtle *)
  sha256 : string -> string;
  b64_url_no_pad : string -> string;
  ct_eq : string -> string -> bool
}.

(** What the packages document and the engine relies on. *)
Class AuthPrimsLaws `{AuthPrims} : Prop := {
  (** [subtle]: on slices of one length, [ct_eq] decides equality. *)
  ct_eq_spec a b : String.length a = String.length b -> (ct_eq a b = true <-> a = b);
  (** [argon2]: a password verifies against its own hash. *)
  argon2_verifies pw salt h :
    argon2_hash_password pw salt = Ok h ->
    exists ph, PasswordHash_new h = Ok ph /\ argon2_verify_password pw ph = true;
  (** [webauthn-rs]: updating the counter keeps the credential's identity. *)
  update_keeps_id r pk : cred_id (update_credential r pk) = cred_id pk
}.

(** ** Data *)

Inductive Role := Admin | ReadOnly | Operator | RUser.

#[export] Instance Role_eq_dec : EqDecision Role.
Proof. solve_decision. Defined.

Definition role_eqb (a b : Role) : bool := bool_decide (a = b).

(** [{role:?}]. *)
Definition fmt_debug_role (r : Role) : string :=
  match r with
  | Admin => "Admin" | ReadOnly => "ReadOnly" | Operator => "Operator" | RUser => "User"
  end.

Record WebauthnCredential `{AuthPrims} := mkCredential {
  wc_label : string;
  wc_created_at : Z;
  wc_passkey : Passkey
}.

Record User `{AuthPrims} := mkUser {
  u_username : string;
  u_password_hash : option string;
  u_role : Role;
  u_file_principal : option string;
  u_must_change_password : bool;
  u_oidc_subject : option string;
  u_oidc_issuer : option string;
  u_webauthn_credentials : list WebauthnCredential
}.

Record Session := mkSession {
  s_token : string;
  s_username : string;
  s_role : Role;
  s_file_principal : option string;
  s_filesystem : option string;
  s_owner : option string;
  s_created_at : Z;
  s_must_change_password : bool;
  s_client_ip : option string
}.

Record ApiToken := mkApiToken {
  t_id : string;
  t_name : string;
  t_token : string;
  t_role : Role;
  t_created_at : Z;
  t_filesystem : option string;
  t_expires_at : option Z;
  t_allowed_ips : list string
}.

Record ApiTokenInfo := mkApiTokenInfo {
  ti_id : string;
  ti_name : string;
  ti_role : Role;
  ti_created_at : Z;
  ti_filesystem : option string;
  ti_expires_at : option Z;
  ti_allowed_ips : list string
}.

Record UserInfo := mkUserInfo {
  ui_username : string;
  ui_role : Role;
  ui_file_principal : option string;
  ui_webauthn_credential_count : nat
}.

Record AuthState `{AuthPrims} := mkAuthState {
  users : list User;
  sessions : list Session;
  api_tokens : list ApiToken;
  initialized : bool
}.

Arguments mkCredential {_} _ _ _.
Arguments mkUser {_} _ _ _ _ _ _ _ _.
Arguments mkAuthState {_} _ _ _ _.

Inductive AuthError :=
| InvalidCredentials
| AccountLocked
| InvalidToken
| TokenExpired
| Forbidden
| UserNotFound
| UserExists
| AuthNotFound
| WeakPassword
| InvalidFilePrincipal (reason : string)
| HashError (reason : string)
| StateCorrupt (path : Path) (source : string)
| StateUninitialized (path : Path)
| StateUnsafe (path : Path) (reason : string)
| StateIo (operation : string) (path : Path) (source : IoErr)
| StateSerialize (source : string)
| AuthIo (source : IoErr).

(** ** Constants *)

Definition SESSION_TTL_SECS : Z := 8 * 3600.
Definition MAX_FAILED_ATTEMPTS : nat := 5.
Definition LOCKOUT_WINDOW_SECS : Z := 15 * 60.
Definition MAX_IP_FAILED_ATTEMPTS : nat := 20.
Definition IP_LOCKOUT_WINDOW_SECS : Z := 60 * 60.

Definition STATE_DIR : Path := ["var"; "lib"; "nasty"].
Definition STATE_PATH : Path := ["var"; "lib"; "nasty"; "auth.json"].
Definition RATE_LIMIT_PATH : Path := ["var"; "lib"; "nasty"; "auth-rate-limit.json"].

(** ** The endpoint policy *)

Inductive EndpointAccess :=
| Read | Mutation | UnscopedMutation | RootEquivalent | SelfService | PortalFiles.

#[export] Instance EndpointAccess_eq_dec : EqDecision EndpointAccess.
Proof. solve_decision. Defined.

Inductive AccessDenied :=
| PasswordChangeRequired
| InsufficientRole
| ScopedCredential
| MissingFilePrincipal
| InteractiveSessionRequired.

Definition message (d : AccessDenied) : string :=
  match d with
  | PasswordChangeRequired => "Password change required"
  | InsufficientRole => "Permission denied"
  | ScopedCredential => "Scoped credentials cannot access this endpoint"
  | MissingFilePrincipal => "A file principal is required"
  | InteractiveSessionRequired => "An interactive session is required"
  end.

Definition role_allowed (r : Role) (access : EndpointAccess) : bool :=
  match access with
  | Read => negb (role_eqb r RUser)
  | SelfService => true
  | Mutation | UnscopedMutation => role_eqb r Admin || role_eqb r Operator
  | RootEquivalent => role_eqb r Admin
  | PortalFiles => role_eqb r RUser
  end.

Definition authorize_session (session : Session) (access : EndpointAccess)
    : result unit AccessDenied :=
  if s_must_change_password session && negb (bool_decide (access = SelfService))
  then Err PasswordChangeRequired
  else if negb (role_allowed (s_role session) access) then Err InsufficientRole
  else if (match access with UnscopedMutation | RootEquivalent | PortalFiles => true | _ => false end)
       && (is_some (s_filesystem session) || is_some (s_owner session))
  then Err ScopedCredential
  else if bool_decide (access = PortalFiles)
  then if negb (is_some (s_client_ip session)) then Err InteractiveSessionRequired
       else if match s_file_principal session with None => true | Some p => p =s "" end
       then Err MissingFilePrincipal
       else Ok tt
  else Ok tt.

(** ** Pure helpers *)

Definition is_only_admin `{AuthPrims} (us : list User) (username : string) : bool :=
  match List.filter (fun u => role_eqb (u_role u) Admin) us with
  | [u] => u_username u =s username
  | _ => false
  end.

Definition validate_file_principal_binding (role : Role) (file_principal : option string)
    : result (option string) AuthError :=
  match role with
  | RUser =>
      match trim <$> file_principal with
      | Some (String _ _ as principal) =>
          if (256 <? String.length principal)%nat || any_control principal
          then Err (InvalidFilePrincipal "principal is too long or contains control characters")
          else Ok (Some principal)
      | _ => Err (InvalidFilePrincipal "Role::User requires a non-empty file_principal")
      end
  | Admin | Operator | ReadOnly =>
      if is_some file_principal
      then Err (InvalidFilePrincipal "file_principal is only valid for Role::User")
      else Ok None
  end.

Definition parse_role_str (s : string) : option Role :=
  let t := to_ascii_lowercase (trim s) in
  if t =s "admin" then Some Admin
  else if t =s "operator" then Some Operator
  else if (t =s "readonly") || (t =s "read_only") || (t =s "read-only") then Some ReadOnly
  else if t =s "user" then Some RUser
  else None.

Definition ct_eq_str `{AuthPrims} (a b : string) : bool :=
  if negb (String.length a =? String.length b)%nat then false else ct_eq a b.

(** The random bytes of [rand::fill] are an argument. *)
Definition generate_token `{AuthPrims} (bytes : string) : string := b64_url_no_pad bytes.
Definition generate_id (bytes : string) : string := hex_string bytes.

Definition hash_token `{AuthPrims} (token : string) : string :=
  "sha256:" ++ hex_string (sha256 token).

Definition hash_password `{AuthPrims} (salt_bytes password : string) : result string AuthError :=
  match salt_encode_b64 salt_bytes with
  | Err e => Err (HashError e)
  | Ok salt => map_err HashError (argon2_hash_password password salt)
  end.

Definition verify_password `{AuthPrims} (password hash : string) : result unit AuthError :=
  match PasswordHash_new hash with
  | Err e => Err (HashError e)
  | Ok parsed => if argon2_verify_password password parsed then Ok tt else Err InvalidCredentials
  end.

Definition revoke_user_sessions (username : string) (ss : list Session) : list Session :=
  retain (fun s => negb (s_username s =s username)) ss.

Definition clear_must_change (s : Session) : Session :=
  mkSession (s_token s) (s_username s) (s_role s) (s_file_principal s) (s_filesystem s)
            (s_owner s) (s_created_at s) false (s_client_ip s).

Definition revoke_sessions_after_password_change `{AuthPrims}
    (target_username actor_username current_token : string) (ss : list Session) : list Session :=
  let changing_own_password := target_username =s actor_username in
  let kept := retain (fun s => negb (s_username s =s target_username)
                               || (changing_own_password && ct_eq_str (s_token s) current_token)) ss in
  if changing_own_password
  then update_first (fun s => ct_eq_str (s_token s) current_token) clear_must_change kept
  else kept.

(** ** OIDC *)

Record OidcIdentity := mkOidcIdentity {
  oi_issuer : string;
  oi_subject : string;
  oi_email : option string;
  oi_preferred_username : option string;
  oi_groups : list string
}.

Record OidcRoleMapping := mkOidcRoleMapping { rm_group : string; rm_role : string }.

(** The part of [OidcSettings] that decides roles. *)
Record OidcSettings := mkOidcSettings {
  os_role_mappings : list OidcRoleMapping;
  os_default_role : option string;
  os_auto_provision : bool
}.

Definition role_for_groups (groups : list string) (settings : OidcSettings) : option string :=
  match List.find (fun m => existsb (fun g => g =s rm_group m) groups) (os_role_mappings settings) with
  | Some m => Some (rm_role m)
  | None => match os_default_role settings with
            | Some s => if s =s "" then None else Some s
            | None => None
            end
  end.

Definition username_taken `{AuthPrims} (existing : list User) (name : string) : bool :=
  existsb (fun u => u_username u =s name) existing.

(** The loop [for n in 2..]: the candidates are pairwise different, so it ends
    after at most one round per existing user. *)
Fixpoint pick_loop `{AuthPrims} (existing : list User) (base : string) (fuel n : nat) : string :=
  let candidate := base ++ "-" ++ fmt_nat n in
  match fuel with
  | 0 => candidate
  | S k => if username_taken existing candidate then pick_loop existing base k (S n) else candidate
  end.

Definition pick_base (identity : OidcIdentity) : string :=
  let base := match oi_preferred_username identity with
              | Some u => u
              | None => match oi_email identity with
                        | Some e => default (oi_subject identity) (head (split "@" e))
                        | None => oi_subject identity
                        end
              end in
  let base := trim base in
  if base =s "" then oi_subject identity else base.

Definition pick_username `{AuthPrims} (existing : list User) (identity : OidcIdentity) : string :=
  let base := pick_base identity in
  if negb (username_taken existing base) then base
  else pick_loop existing base (length existing) 2.

(** ** Lemmas *)

Lemma role_eqb_spec a b : role_eqb a b = true <-> a = b.
Proof. apply bool_decide_eq_true. Qed.

Lemma role_eqb_neq a b : role_eqb a b = false <-> a <> b.
Proof. apply bool_decide_eq_false. Qed.

Section Helpers.
Context `{AuthPrims}.

Lemma ct_eq_str_spec `{!AuthPrimsLaws} a b : ct_eq_str a b = true <-> a = b.
Proof.
  unfold ct_eq_str. destruct (Nat.eqb_spec (String.length a) (String.length b)) as [E|E]; simpl.
  - by apply ct_eq_spec.
  - split; [done|]. intros ->. done.
Qed.

Lemma ct_eq_str_neq `{!AuthPrimsLaws} a b : ct_eq_str a b = false <-> a <> b.
Proof. by rewrite <- not_true_iff_false, ct_eq_str_spec. Qed.

Lemma username_taken_spec us name :
  username_taken us name = true <-> name ∈ (u_username <$> us).
Proof.
  unfold username_taken. rewrite existsb_elem, list_elem_of_fmap. split.
  - intros (u & Hu & E%eqb_spec). eauto.
  - intros (u & -> & Hu). exists u. by rewrite eqb_refl.
Qed.

Lemma username_taken_false us name :
  username_taken us name = false <-> name ∉ (u_username <$> us).
Proof. by rewrite <- not_true_iff_false, username_taken_spec. Qed.

Definition candidate (base : string) (n : nat) : string := base ++ "-" ++ fmt_nat n.

#[local] Instance candidate_inj base : Inj (=) (=) (candidate base).
Proof.
  intros m n E. apply append_inj_l in E. apply append_inj_l in E. by apply fmt_nat_inj.
Qed.

(** Where the search stops: the first free candidate, or the last one tried
    after all the earlier ones were found taken. *)
Lemma pick_loop_stops us base fuel n :
  let c := pick_loop us base fuel n in
  username_taken us c = false \/
  (forall m, n <= m <= n + fuel -> username_taken us (candidate base m) = true).
Proof.
  revert n. induction fuel as [|k IH]; intros n; simpl.
  - destruct (username_taken us (base ++ "-" ++ fmt_nat n)) eqn:E; [right|by left].
    intros m Hm. by replace m with n by lia.
  - destruct (username_taken us (base ++ "-" ++ fmt_nat n)) eqn:E; [|by left].
    destruct (IH (S n)) as [|Hall]; [by left|right].
    intros m Hm. destruct (decide (m = n)) as [->|]; [done|]. apply Hall. lia.
Qed.

Lemma candidates_exceed us base n :
  ~ (forall m, n <= m <= n + length us -> username_taken us (candidate base m) = true).
Proof.
  intros Hall.
  assert (length (candidate base <$> seq n (S (length us))) <= length (u_username <$> us)) as Hle.
  { apply submseteq_length, NoDup_submseteq.
    - apply NoDup_fmap_2; [apply _|]. apply NoDup_ListNoDup, seq_NoDup.
    - intros x (m & -> & Hm%elem_of_seq)%list_elem_of_fmap.
      apply username_taken_spec, Hall. lia. }
  rewrite !length_fmap, length_seq in Hle. lia.
Qed.

Lemma pick_username_free us identity :
  username_taken us (pick_username us identity) = false.
Proof.
  unfold pick_username. destruct (username_taken us (pick_base identity)) eqn:E; [|done].
  destruct (pick_loop_stops us (pick_base identity) (length us) 2) as [|Hall]; [done|].
  by apply candidates_exceed in Hall.
Qed.

Lemma is_only_admin_spec us username :
  is_only_admin us username = true <->
  exists u, List.filter (fun u => role_eqb (u_role u) Admin) us = [u] /\ u_username u = username.
Proof.
  unfold is_only_admin. destruct (List.filter _ us) as [|u [|v l]].
  - split; [done|]. by intros (? & ? & ?).
  - rewrite eqb_spec. split; [eauto|]. by intros (? & [= ->] & ?).
  - split; [done|]. by intros (? & ? & ?).
Qed.

(** A binding that is accepted carries a non-empty principal exactly for the
    standard-user role. *)
Lemma principal_binding_ok r fp o :
  validate_file_principal_binding r fp = Ok o ->
  match o with
  | Some p => r = RUser /\ p <> "" /\ Some p = trim <$> fp
  | None => r <> RUser
  end.
Proof.
  unfold validate_file_principal_binding. intros E.
  destruct r; try (destruct fp; [discriminate|by injection E as <-]).
  destruct (trim <$> fp) as [[|c s]|]; [discriminate| |discriminate].
  destruct (_ || _); [discriminate|]. by injection E as <-.
Qed.

End Helpers.

Lemma authorize_session_ok s a :
  authorize_session s a = Ok tt <->
  (s_must_change_password s = true -> a = SelfService) /\
  role_allowed (s_role s) a = true /\
  (a = UnscopedMutation \/ a = RootEquivalent \/ a = PortalFiles ->
   s_filesystem s = None /\ s_owner s = None) /\
  (a = PortalFiles -> s_client_ip s <> None /\ exists p, s_file_principal s = Some p /\ p <> "").
Proof.
  unfold authorize_session. destruct (role_allowed (s_role s) a).
  2:{ split; [|naive_solver]. by destruct (s_must_change_password s), a. }
  destruct (s_must_change_password s), a; simpl; try (intuition congruence);
    destruct (s_filesystem s), (s_owner s); simpl; try (intuition congruence);
    destruct (s_client_ip s); simpl; try (intuition congruence).
  destruct (s_file_principal s) as [p|]; simpl.
  - destruct (p =s "") eqn:E; str_eq; split; try done.
    + intros (_ & _ & _ & Hp). by destruct Hp as (_ & q & [= <-] & ?).
    + intros _. split_and!; [done..|]. eauto.
  - split; [done|]. intros (_ & _ & _ & Hp). by destruct Hp as (_ & q & ? & _).
Qed.

Record RateLimitState := mkRateLimit {
  by_user : gmap string (list Z);
  by_ip : gmap string (list Z)
}.

(** [Default::default()]. *)
Definition rate_limit_default : RateLimitState := mkRateLimit ∅ ∅.

(** [now.saturating_sub(t) < window]. *)
Definition in_window (now window t : Z) : bool := (saturating_sub now t <? window)%Z.

(** [values_mut] with [retain], then [retain(|_, v| !v.is_empty())]. *)
Definition prune_map (now window : Z) (m : gmap string (list Z)) : gmap string (list Z) :=
  omap (fun v => match retain (in_window now window) v with
                 | [] => None
                 | v' => Some v'
                 end) m.

Definition prune (now : Z) (rl : RateLimitState) : RateLimitState :=
  mkRateLimit (prune_map now LOCKOUT_WINDOW_SECS (by_user rl))
              (prune_map now IP_LOCKOUT_WINDOW_SECS (by_ip rl)).

Definition failures (m : gmap string (list Z)) (key : string) (now window : Z) : nat :=
  match m !! key with
  | Some v => length (List.filter (in_window now window) v)
  | None => 0
  end.

Definition user_failures (rl : RateLimitState) (username : string) (now : Z) : nat :=
  failures (by_user rl) username now LOCKOUT_WINDOW_SECS.

Definition ip_failures (rl : RateLimitState) (ip : string) (now : Z) : nat :=
  failures (by_ip rl) ip now IP_LOCKOUT_WINDOW_SECS.

(** [entry(key).or_default()], then [push(now)] and [retain]. *)
Definition record_in (now window : Z) (key : string) (m : gmap string (list Z))
    : gmap string (list Z) :=
  <[key := retain (in_window now window) (default [] (m !! key) ++ [now])]> m.

(** The map updates of [record_failed_attempt]. *)
Definition record_failure (username client_ip : string) (now : Z) (rl : RateLimitState)
    : RateLimitState :=
  mkRateLimit
    (record_in now LOCKOUT_WINDOW_SECS username (by_user rl))
    (if negb (client_ip =s "unknown")
     then record_in now IP_LOCKOUT_WINDOW_SECS client_ip (by_ip rl)
     else by_ip rl).

(** ** Lemmas *)

Section Windows.
Open Scope Z_scope.

Lemma in_window_now now w : 0 < w -> in_window now w now = true.
Proof. unfold in_window, saturating_sub. intros. apply Z.ltb_lt. lia. Qed.

Lemma in_window_later now now' w t :
  now <= now' -> in_window now' w t = true -> in_window now w t = true.
Proof. unfold in_window, saturating_sub. rewrite !Z.ltb_lt. lia. Qed.

(** A timestamp stays in the window as long as less than the window has passed. *)
Lemma in_window_span now w t t0 :
  0 < w -> t0 <= t -> now < t0 + w -> in_window now w t = true.
Proof. unfold in_window, saturating_sub. rewrite Z.ltb_lt. lia. Qed.

End Windows.

Lemma failures_prune m key now now' w :
  (now <= now')%Z -> failures (prune_map now w m) key now' w = failures m key now' w.
Proof.
  intros Hle. unfold failures, prune_map. rewrite lookup_omap.
  destruct (m !! key) as [v|]; simpl; [|done].
  assert (retain (in_window now' w) (retain (in_window now w) v) = retain (in_window now' w) v) as E.
  { rewrite retain_retain. unfold retain. apply List.filter_ext. intros t.
    destruct (in_window now' w t) eqn:Hw; [|by rewrite andb_false_r].
    by rewrite (in_window_later _ _ _ _ Hle Hw). }
  unfold retain in *. destruct (List.filter (in_window now w) v) as [|t v'] eqn:Hv.
  - by rewrite <- E.
  - by rewrite <- E.
Qed.

Lemma failures_record_same m key now w :
  (0 < w)%Z -> failures (record_in now w key m) key now w = S (failures m key now w).
Proof.
  intros Hw. unfold failures, record_in. rewrite lookup_insert_eq.
  fold (retain (in_window now w) (retain (in_window now w) (default [] (m !! key) ++ [now]))).
  rewrite retain_retain, (List.filter_ext _ (in_window now w)) by (intros; by rewrite andb_diag).
  rewrite List.filter_app, length_app. simpl. rewrite in_window_now by done. simpl.
  destruct (m !! key); simpl; lia.
Qed.

Lemma failures_record_other m key key' now now' w w' :
  key <> key' -> failures (record_in now w key m) key' now' w' = failures m key' now' w'.
Proof. intros. unfold failures, record_in. by rewrite lookup_insert_ne. Qed.

(** Nothing that is still in the window at [now'] is dropped by a record made
    within the window of [t0]. *)
Lemma failures_record_grows m key now now' w t0 :
  (0 < w)%Z -> (t0 <= now < t0 + w)%Z -> (t0 <= now' < t0 + w)%Z ->
  length (List.filter (fun t => (t0 <=? t)%Z) (default [] (m !! key))) < 
  length (List.filter (fun t => (t0 <=? t)%Z) (default [] (record_in now w key m !! key))).
Proof.
  intros Hw Hn Hn'. unfold record_in. rewrite lookup_insert_eq. simpl.
  fold (retain (fun t => (t0 <=? t)%Z)
         (retain (in_window now w) (default [] (m !! key) ++ [now]))).
  rewrite retain_retain, retain_app, length_app. simpl.
  rewrite in_window_now by done. rewrite (proj2 (Z.leb_le t0 now)) by lia. simpl.
  unfold retain. rewrite (List.filter_ext (fun x => in_window now w x && (t0 <=? x)%Z)
                            (fun t => (t0 <=? t)%Z)); [lia|].
  intros t. destruct (Z.leb_spec t0 t); [|by rewrite andb_false_r].
  by rewrite (in_window_span _ _ _ t0) by lia.
Qed.
