(* ===== verification/AuthStore.v ===== *)
(** * Persistence of the authentication state: auth.rs

    Loading with the safety checks of [load_state_from], the crash-safe write
    [save_state_with_temp] and the commit of a new state, in memory and on
    disk, by [commit_state]. *)
From Stdlib Require Import String Ascii ZArith.
From stdpp Require Import base list gmap strings numbers.
From S2P Require Import Prelude RustStr Disk StateStore AuthTypes.

Open Scope string_scope.
Open Scope rust_scope.

(** ** Messages *)

Fixpoint fmt_octal_fuel (fuel : nat) (z : Z) : string :=
  match fuel with
  | 0 => ""
  | S k => (if (z <? 8)%Z then "" else fmt_octal_fuel k (z / 8))
           ++ String (ascii_of_nat (48 + Z.to_nat (z mod 8))) EmptyString
  end.

(** [{mode:o}] of a permission mode, below 512. *)
Definition fmt_octal (z : Z) : string := fmt_octal_fuel 3 z.

(** The [#[error(..)]] attributes. *)
Definition display_auth_error (e : AuthError) : string :=
  match e with
  | InvalidCredentials => "invalid username or password"
  | AccountLocked => "account temporarily locked due to too many failed attempts"
  | InvalidToken => "invalid token"
  | TokenExpired => "token has expired"
  | Forbidden => "forbidden"
  | UserNotFound => "user not found"
  | UserExists => "user already exists"
  | AuthNotFound => "not found"
  | WeakPassword => "password must be at least 8 characters"
  | InvalidFilePrincipal r => "invalid file principal: " ++ r
  | HashError r => "password hash error: " ++ r
  | StateCorrupt p s => "auth state at " ++ display_path p ++ " is corrupt: " ++ s
  | StateUninitialized p => "auth state at " ++ display_path p ++ " exists but is not initialized"
  | StateUnsafe p r => "unsafe auth state at " ++ display_path p ++ ": " ++ r
  | StateIo op p s => "failed to " ++ op ++ " auth state at " ++ display_path p ++ ": " ++ display_io s
  | StateSerialize s => "failed to serialize auth state: " ++ s
  | AuthIo s => "io error: " ++ display_io s
  end.

Section Persist.
Context `{AuthPrims} `{!Codec AuthState}.

(** ** Loading *)

Definition load_state_from (F : Faults) (path : Path) (expected_owner : option Z)
    : M Disk AuthError (option AuthState) :=
  r <- attempt (open_nofollow F path) ;;
  match r with
  | Err NotFound => ret None
  | Err SymlinkLoop => throw (StateUnsafe path "refusing to follow an auth state symlink")
  | Err source => throw (StateIo "open without following symlinks" path source)
  | Ok file =>
      match fault F OpStat path with
      | Some source => throw (StateIo "inspect" path source)
      | None =>
          throw_if (negb (is_regular file))
            (StateUnsafe path "expected a regular file, not a symlink or special file") ;;;
          let mode := Z.land (f_mode file) 511 in
          throw_if (negb (Z.land mode 63 =? 0)%Z)
            (StateUnsafe path ("permissions " ++ fmt_octal mode ++ " expose authentication secrets")) ;;;
          throw_if (match expected_owner with
                    | Some owner => negb (f_uid file =? owner)%Z
                    | None => false
                    end)
            (StateUnsafe path
               ("owner UID " ++ fmt_Z (f_uid file) ++ " does not match expected UID "
                ++ fmt_Z (default 0%Z expected_owner))) ;;;
          match fault F OpRead path with
          | Some source => throw (StateIo "read" path source)
          | None => lift (match decode (f_content file) with
                          | Ok st => Ok (Some st)
                          | Err source => Err (StateCorrupt path source)
                          end)
          end
      end
  end.

(** ** Saving *)

Record StatePersistFailure := mkPersistFailure {
  source : AuthError;
  committed : bool
}.

(** A system call inside the [async] block of [save_state_with_temp], whose
    state is the disk and the local variable [committed]. *)
Definition step (operation : string) (path : Path) (m : M Disk IoErr unit)
    : M (Disk * bool) AuthError unit :=
  fun '(d, c) => match m d with (r, d') => (map_err (StateIo operation path) r, (d', c)) end.

Definition set_committed : M (Disk * bool) AuthError unit := modify (fun '(d, _) => (d, true)).

Definition save_block (F : Faults) (path temp par : Path) (json : string) (replace : bool)
    : M (Disk * bool) AuthError unit :=
  step "create temporary file for" path (create_new F temp 384) ;;;
  step "write temporary file for" path (write_all F temp json) ;;;
  step "sync temporary file for" path (check F OpSync temp) ;;;
  (if replace : bool
   then step "replace" path (rename F temp path) ;;;
        set_committed
   else step "create" path (hard_link F temp path) ;;;
        set_committed ;;;
        step "remove temporary file for" path (remove_file F temp)) ;;;
  step "open parent directory for" path (check F OpOpenDir par) ;;;
  step "sync parent directory for" path (check F OpSyncDir par).

Definition no_parent (path : Path) : StatePersistFailure :=
  mkPersistFailure (StateIo "resolve parent for" path (OtherIo "state path has no parent")) false.

Definition save_state_with_temp (F : Faults) (path temp : Path) (st : AuthState) (replace : bool)
    : M Disk StatePersistFailure unit :=
  match parent path with
  | None => throw (no_parent path)
  | Some par =>
      match encode st with
      | Err e => throw (mkPersistFailure (StateSerialize e) false)
      | Ok json =>
          fun d =>
            match save_block F path temp par json replace (d, false) with
            | (r, (d', c)) =>
                (map_err (fun source => mkPersistFailure source c) r,
                 if negb (is_ok r) && negb c then (remove_file F temp d').2 else d')
            end
      end
  end.

(** [uuid] is the random part of the temporary name. *)
Definition persist_state_to (F : Faults) (uuid : string) (path : Path) (st : AuthState) (replace : bool)
    : M Disk StatePersistFailure unit :=
  match parent path with
  | None => throw (no_parent path)
  | Some par =>
      let name := default "auth.json" (file_name path) in
      let temp := join par ("." ++ name ++ "." ++ uuid ++ ".tmp") in
      save_state_with_temp F path temp st replace
  end.

Definition create_state_to (F : Faults) (uuid : string) (path : Path) (st : AuthState)
    : M Disk AuthError unit :=
  fun d => match persist_state_to F uuid path st false d with
           | (r, d') => (map_err source r, d')
           end.

(** The account of a fresh installation. *)
Definition default_admin (hash : string) : User :=
  mkUser "admin" (Some hash) Admin None true None None [].

Definition initialize_state (F : Faults) (uuid salt : string) (path : Path) (expected_owner : option Z)
    : M Disk AuthError AuthState :=
  loaded <- load_state_from F path expected_owner ;;
  match loaded with
  | Some st =>
      throw_if (negb (initialized st)) (StateUninitialized path) ;;;
      ret st
  | None =>
      hash <- lift (hash_password salt "admin") ;;
      let st := mkAuthState [default_admin hash] [] [] true in
      create_state_to F uuid path st ;;;
      ret st
  end.

End Persist.

(** ** Lemmas *)

Section PersistLemmas.
Context `{AuthPrims} `{!Codec AuthState}.
Implicit Types (d : Disk) (st : AuthState).

(** The file a completed write leaves. *)
Definition saved_file (json : string) : File := mkFile Regular 384 engine_uid json.

(** What the block does to the target, and what [committed] says about it. *)
Lemma save_block_replace F path temp par json d :
  temp <> path ->
  wp (save_block F path temp par json true)
    (fun r '(d', c) =>
       (forall p, p <> path -> p <> temp -> d' !! p = d !! p) /\
       d' !! path = (if c then Some (saved_file json) else d !! path) /\
       (r = Ok tt -> c = true) /\
       (c = true -> d' !! temp = None)) (d, false).
Proof.
  intros Hne. unfold wp, save_block, step, bind, set_committed, modify.
  unfold create_new, check, bind, gets, throw_if, throw, ret, modify.
  destruct (fault F OpCreateNew temp); simpl; [done|].
  destruct (d !! temp) eqn:Ht; simpl; [done|].
  unfold write_all, bind, modify, throw. destruct (fault F OpWrite temp); simpl.
  { split_and!; try done; intros; rewrite lookup_alter_ne, lookup_insert_ne by done; done. }
  set (d1 := alter (set_content json) temp (<[temp := mkFile Regular 384 engine_uid ""]> d)).
  assert (d1 !! temp = Some (saved_file json)) as E1.
  { unfold d1. by rewrite lookup_alter, decide_True, lookup_insert_eq. }
  assert (forall p, p <> temp -> d1 !! p = d !! p) as E2.
  { intros p Hp. unfold d1. by rewrite lookup_alter_ne, lookup_insert_ne. }
  destruct (fault F OpSync temp); simpl; [split_and!; [intros; by apply E2|by apply E2|done|done]|].
  unfold rename, check, bind, gets, throw, ret, modify.
  destruct (fault F OpRename temp); simpl; [split_and!; [intros; by apply E2|by apply E2|done|done]|].
  rewrite E1. simpl.
  assert (forall p, p <> path -> p <> temp ->
            (<[path := saved_file json]> (delete temp d1)) !! p = d !! p) as E3.
  { intros p Hp Hp'. rewrite lookup_insert_ne, lookup_delete_ne by done. by apply E2. }
  unfold throw, ret. destruct (fault F OpOpenDir par); simpl;
    [|destruct (fault F OpSyncDir par); simpl];
    (split_and!; [exact E3| by rewrite lookup_insert_eq | done
                 | intros _; by rewrite lookup_insert_ne, lookup_delete_eq]).
Qed.

(** The same for the first write, which never replaces an existing file. *)
Lemma save_block_create F path temp par json d :
  temp <> path ->
  wp (save_block F path temp par json false)
    (fun r '(d', c) =>
       (forall p, p <> path -> p <> temp -> d' !! p = d !! p) /\
       d' !! path = (if c then Some (saved_file json) else d !! path) /\
       (r = Ok tt -> c = true) /\
       (c = true -> d !! path = None)) (d, false).
Proof.
  intros Hne. unfold wp, save_block, step, bind, set_committed, modify.
  unfold create_new, check, bind, gets, throw_if, throw, ret, modify.
  destruct (fault F OpCreateNew temp); simpl; [done|].
  destruct (d !! temp) eqn:Ht; simpl; [done|].
  unfold write_all, bind, modify, throw. destruct (fault F OpWrite temp); simpl.
  { split_and!; try done; intros; rewrite lookup_alter_ne, lookup_insert_ne by done; done. }
  set (d1 := alter (set_content json) temp (<[temp := mkFile Regular 384 engine_uid ""]> d)).
  assert (d1 !! temp = Some (saved_file json)) as E1.
  { unfold d1. by rewrite lookup_alter, decide_True, lookup_insert_eq. }
  assert (forall p, p <> temp -> d1 !! p = d !! p) as E2.
  { intros p Hp. unfold d1. by rewrite lookup_alter_ne, lookup_insert_ne. }
  destruct (fault F OpSync temp); simpl; [split_and!; [intros; by apply E2|by apply E2|done|done]|].
  unfold hard_link, check, bind, gets, throw_if, throw, ret, modify.
  destruct (fault F OpLink temp); simpl; [split_and!; [intros; by apply E2|by apply E2|done|done]|].
  rewrite E1, (E2 path) by done.
  destruct (d !! path) eqn:Hpath; simpl; [split_and!; [intros; by apply E2|by rewrite E2|done|done]|].
  set (d2 := <[path := saved_file json]> d1).
  assert (forall p, p <> path -> p <> temp -> d2 !! p = d !! p) as E3.
  { intros p Hp Hp'. unfold d2. rewrite lookup_insert_ne by done. by apply E2. }
  assert (d2 !! path = Some (saved_file json)) as E4 by apply lookup_insert_eq.
  unfold remove_file, check, bind, gets, throw, ret, modify.
  destruct (fault F OpUnlink temp); simpl; [done|].
  unfold d2 at 1. rewrite lookup_insert_ne, E1 by done. simpl.
  assert (forall p, p <> temp -> delete temp d2 !! p = d2 !! p) as E5.
  { intros p Hp. by rewrite lookup_delete_ne. }
  destruct (fault F OpOpenDir par); simpl;
    [|destruct (fault F OpSyncDir par); simpl];
    (split_and!; [intros p ??; rewrite E5 by done; auto| by rewrite E5 | done | done]).
Qed.

Definition temp_path (uuid : string) : Path :=
  join STATE_DIR ("." ++ "auth.json" ++ "." ++ uuid ++ ".tmp").

(** The temporary name starts with a dot, whatever the random part. *)
Lemma temp_path_ne uuid name :
  starts_with "." name = false -> temp_path uuid <> (STATE_DIR ++ [name])%list.
Proof.
  intros Hn E. unfold temp_path, join in E.
  change ("." ++ "auth.json" ++ "." ++ uuid ++ ".tmp")
    with (String "." (String "a" ("uth.json" ++ "." ++ uuid ++ ".tmp"))) in E.
  set (rest := "uth.json" ++ _) in E.
  assert (starts_with "/" (String "." (String "a" rest)) = false) as Hs by done.
  rewrite Hs in E. apply app_inv_head in E. unfold components in E.
  cbn [RustStr.split] in E.
  change (Ascii.eqb "/" ".") with false in E. change (Ascii.eqb "/" "a") with false in E.
  cbn match in E. destruct (RustStr.split "/" rest) as [|h t]; simpl in E; simplify_eq/=.
Qed.

Lemma remove_file_lookup F temp d p : p <> temp -> (remove_file F temp d).2 !! p = d !! p.
Proof.
  intros Hp. unfold remove_file, bind, check, gets, throw, ret, modify.
  repeat case_match; simplify_eq/=; try done. by rewrite lookup_delete_ne.
Qed.

(** What persisting does at the state's path and elsewhere. *)
Lemma persist_spec F uuid st d :
  wp (persist_state_to F uuid STATE_PATH st true)
    (fun r d' =>
       (forall p, p <> STATE_PATH -> p <> temp_path uuid -> d' !! p = d !! p) /\
       if (match r with Ok _ => true | Err f => committed f end)
       then exists json, encode st = Ok json /\ d' !! STATE_PATH = Some (saved_file json)
       else d' !! STATE_PATH = d !! STATE_PATH) d.
Proof.
  assert (temp_path uuid <> STATE_PATH) as Hne by by apply (temp_path_ne uuid "auth.json").
  change (persist_state_to F uuid STATE_PATH st true)
    with (save_state_with_temp F STATE_PATH (temp_path uuid) st true).
  unfold save_state_with_temp, wp. change (parent STATE_PATH) with (Some STATE_DIR).
  destruct (encode st) as [json|e] eqn:Hj; [|done]. cbn match.
  pose proof (save_block_replace F STATE_PATH (temp_path uuid) STATE_DIR json d Hne) as Hb.
  unfold wp in Hb.
  destruct (save_block _ _ _ _ _ _ _) as [r [d' c]]. simpl in Hb |- *.
  destruct Hb as (Hother & Hpath & Hok & _).
  assert (forall p, p <> temp_path uuid ->
          (if negb (is_ok r) && negb c then (remove_file F (temp_path uuid) d').2 else d') !! p = d' !! p) as E.
  { intros p Hp. destruct (negb (is_ok r) && negb c); [by apply remove_file_lookup | done]. }
  split; [intros p Hp Hp'; rewrite E by done; auto|].
  rewrite E by done.
  destruct r as [[]|err]; simpl; [rewrite Hok in Hpath by done; eauto|].
  destruct c; eauto.
Qed.

(** A first write that reports success has created the file. *)
Lemma create_spec F uuid st d :
  wp (create_state_to F uuid STATE_PATH st)
    (fun r d' =>
       (forall p, p <> STATE_PATH -> p <> temp_path uuid -> d' !! p = d !! p) /\
       (r = Ok tt -> d !! STATE_PATH = None /\
          exists json, encode st = Ok json /\ d' !! STATE_PATH = Some (saved_file json))) d.
Proof.
  assert (temp_path uuid <> STATE_PATH) as Hne by by apply (temp_path_ne uuid "auth.json").
  unfold create_state_to, wp.
  change (persist_state_to F uuid STATE_PATH st false)
    with (save_state_with_temp F STATE_PATH (temp_path uuid) st false).
  unfold save_state_with_temp. change (parent STATE_PATH) with (Some STATE_DIR).
  destruct (encode st) as [json|e] eqn:Hj; [|done]. cbn match.
  pose proof (save_block_create F STATE_PATH (temp_path uuid) STATE_DIR json d Hne) as Hb.
  unfold wp in Hb.
  destruct (save_block _ _ _ _ _ _ _) as [r [d' c]]. simpl in Hb |- *.
  destruct Hb as (Hother & Hpath & Hok & Hnew). split.
  - intros p Hp Hp'. destruct (negb (is_ok r) && negb c); [rewrite remove_file_lookup by done|]; auto.
  - destruct r as [[]|]; [|done]. intros _. simpl. rewrite Hok in Hpath, Hnew by done. eauto.
Qed.

(** Loading never writes; what it returns is what the file decodes to. *)
Lemma load_state_spec F path owner d :
  wp (load_state_from F path owner)
    (fun r d' => d' = d /\
       match r with
       | Ok (Some st) => exists f, d !! path = Some f /\ is_regular f = true /\ decode (f_content f) = Ok st
       | _ => True
       end) d.
Proof.
  unfold load_state_from, open_nofollow, check. wp_go; simplify_eq; try done.
  all: split; [done|]; destruct (decode (f_content f)) eqn:?; [|done];
    str_eq; eauto.
Qed.

End PersistLemmas.
