(* ===== verification/AuthService.v ===== *)
(** * The authentication service: [AuthService] of auth.rs

    One definition per method. The world of the service is the state behind
    its two locks ([state], [rate_limit]), the audit trail and the disk. What
    the environment supplies to a call (the clock, random bytes, the temporary
    file's UUID, the I/O faults) is the record [Env]. Log lines ([tracing]) are
    not modelled. *)
From Stdlib Require Import String Ascii ZArith.
From stdpp Require Import base list gmap strings numbers.
From S2P Require Import Prelude RustStr Disk StateStore AuthTypes AuthStore.

Open Scope string_scope.
Open Scope rust_scope.

Record AuditEntry := mkAudit {
  a_ts : Z;
  a_event : string;
  a_user : string;
  a_ip : string;
  a_detail : string
}.

Record World `{AuthPrims} := mkWorld {
  state : AuthState;
  rate_limit : RateLimitState;
  audit_log : list AuditEntry;
  disk : Disk
}.
Arguments mkWorld {_} _ _ _ _.

Record Env := mkEnv {
  now : Z;
  salt_bytes : string;
  token_bytes : string;
  id_bytes : string;
  tmp_uuid : string;
  io : Faults
}.

(** [serde_json] on the rate-limit state: printing cannot fail. *)
Class RateCodec := {
  rl_print : RateLimitState -> string;
  rl_parse : string -> result RateLimitState string
}.

#[export] Instance rate_codec `{RateCodec} : Codec RateLimitState := {
  encode rl := Ok (rl_print rl);
  decode := rl_parse
}.

Section Service.
Context `{AuthPrims} `{!Codec AuthState} `{!RateCodec}.

Abbreviation Auth := (M World AuthError).

Definition set_state (st : AuthState) (w : World) : World :=
  mkWorld st (rate_limit w) (audit_log w) (disk w).
Definition set_rate_limit (rl : RateLimitState) (w : World) : World :=
  mkWorld (state w) rl (audit_log w) (disk w).
Definition set_disk (d : Disk) (w : World) : World :=
  mkWorld (state w) (rate_limit w) (audit_log w) d.
Definition add_audit (a : AuditEntry) (w : World) : World :=
  mkWorld (state w) (rate_limit w) (audit_log w ++ [a]) (disk w).

(** Updates of an [AuthState] field. *)
Definition with_users (us : list User) (st : AuthState) : AuthState :=
  mkAuthState us (sessions st) (api_tokens st) (initialized st).
Definition with_sessions (ss : list Session) (st : AuthState) : AuthState :=
  mkAuthState (users st) ss (api_tokens st) (initialized st).
Definition with_api_tokens (ts : list ApiToken) (st : AuthState) : AuthState :=
  mkAuthState (users st) (sessions st) ts (initialized st).

Definition audit (e : Env) (event user ip detail : string) : Auth unit :=
  modify (add_audit (mkAudit (now e) event user ip detail)).

(** [session.client_ip.as_deref().unwrap_or("")]. *)
Definition ip_or_empty (s : Session) : string := default "" (s_client_ip s).

(** Make [next] the current state, durably: the outcome of
    [finish_state_commit]. *)
Definition finish_state_commit (e : Env) (next : AuthState)
    (r : result unit StatePersistFailure) : Auth unit :=
  match r with
  | Ok _ => modify (set_state next)
  | Err failure =>
      (if committed failure
       then modify (set_state next) ;;;
            audit e "auth_state_committed_with_durability_error" "system" "local"
                  (display_auth_error (source failure))
       else ret tt) ;;;
      throw (source failure)
  end.

Definition commit_state (e : Env) (next : AuthState) : Auth unit :=
  r <- (fun w => match persist_state_to (io e) (tmp_uuid e) STATE_PATH next true (disk w) with
                 | (r, d') => (Ok r, set_disk d' w)
                 end) ;;
  finish_state_commit e next r.

Definition save_rate_limit (e : Env) (rl : RateLimitState) : Auth unit :=
  fun w =>
    match (check (io e) OpMkdir STATE_DIR ;;;
           fs_write (io e) RATE_LIMIT_PATH (rl_print rl) ;;;
           set_permissions (io e) RATE_LIMIT_PATH 384) (disk w) with
    | (r, d') => (map_err AuthIo r, set_disk d' w)
    end.

Definition record_failed_attempt (e : Env) (username client_ip : string) : Auth unit :=
  rl <- gets rate_limit ;;
  let rl' := record_failure username client_ip (now e) rl in
  modify (set_rate_limit rl') ;;;
  _ <- attempt (E := AuthError) (save_rate_limit e rl') ;;
  ret tt.

Definition clear_failed_attempts (e : Env) (username : string) : Auth unit :=
  rl <- gets rate_limit ;;
  match by_user rl !! username with
  | None => ret tt
  | Some _ =>
      let rl' := mkRateLimit (delete username (by_user rl)) (by_ip rl) in
      modify (set_rate_limit rl') ;;;
      _ <- attempt (E := AuthError) (save_rate_limit e rl') ;;
      ret tt
  end.

(** [AuthService::new]. *)
Definition service_new (e : Env) : M Disk AuthError (AuthState * RateLimitState) :=
  st <- initialize_state (io e) (tmp_uuid e) (salt_bytes e) STATE_PATH (Some 0%Z) ;;
  rl <- (fun d => match load_singleton_or_recover (io e) rate_limit_default RATE_LIMIT_PATH (Some (now e)) d with
                  | (r, d') => (map_err AuthIo r, d')
                  end) ;;
  ret (st, prune (now e) rl).

(** ** Logging in *)

Definition fmt_fails (n : nat) : string := fmt_nat n ++ " failed attempts".

(** The rate-limit checks at the start of [login]. *)
Definition login_gate (e : Env) (username client_ip : string) : Auth unit :=
  rl <- gets rate_limit ;;
  let ip_fails := ip_failures rl client_ip (now e) in
  (if negb (client_ip =s "unknown") && (MAX_IP_FAILED_ATTEMPTS <=? ip_fails)%nat
   then audit e "login_ip_locked" username client_ip (fmt_fails ip_fails) ;;;
        throw AccountLocked
   else ret tt) ;;;
  only_admin <- gets (fun w => is_only_admin (users (state w)) username) ;;
  rl <- gets rate_limit ;;
  let user_fails := user_failures rl username (now e) in
  if (MAX_FAILED_ATTEMPTS <=? user_fails)%nat
  then if only_admin : bool
       then audit e "login_lockout_suppressed_only_admin" username client_ip (fmt_fails user_fails)
       else audit e "login_locked" username client_ip (fmt_fails user_fails) ;;;
            throw AccountLocked
  else ret tt.

(** [state.sessions.retain(|s| now - s.created_at <= SESSION_TTL_SECS)]: the
    subtraction wraps in a release build. *)
Definition session_live (now : Z) (s : Session) : bool :=
  (wrapping_sub now (s_created_at s) <=? SESSION_TTL_SECS)%Z.

Definition prune_sessions (now : Z) (ss : list Session) : list Session := retain (session_live now) ss.

(** The principal a session carries: only standard users have one. *)
Definition session_principal (role : Role) (fp : option string) : option string :=
  if role_eqb role RUser then fp else None.

Definition find_user (us : list User) (username : string) : option User :=
  List.find (fun u => u_username u =s username) us.

Definition login_failed (e : Env) (username client_ip detail : string) (err : AuthError)
    : Auth string :=
  audit e "login_failed" username client_ip detail ;;;
  record_failed_attempt e username client_ip ;;;
  throw err.

(** The rest of [login], under the write lock of the state. *)
Definition login_body (e : Env) (username password client_ip : string) : Auth string :=
  st <- gets state ;;
  match find_user (users st) username with
  | None => login_failed e username client_ip "user not found" InvalidCredentials
  | Some user =>
      match u_password_hash user with
      | None => login_failed e username client_ip "no local password (OIDC-only user)" InvalidCredentials
      | Some hash =>
          match verify_password password hash with
          | Err err => login_failed e username client_ip "wrong password" err
          | Ok _ =>
              clear_failed_attempts e username ;;;
              let token := generate_token (token_bytes e) in
              let session :=
                mkSession token (u_username user) (u_role user)
                  (session_principal (u_role user) (u_file_principal user))
                  None None (now e) (u_must_change_password user) (Some client_ip) in
              commit_state e
                (with_sessions (prune_sessions (now e) (sessions st) ++ [session])%list st) ;;;
              audit e "login_success" username client_ip "" ;;;
              ret token
          end
      end
  end.

Definition login (e : Env) (username password client_ip : string) : Auth string :=
  login_gate e username client_ip ;;;
  login_body e username password client_ip.

(** [identity.preferred_username.as_deref().unwrap_or(&identity.subject)]. *)
Definition identity_label (identity : OidcIdentity) : string :=
  default (oi_subject identity) (oi_preferred_username identity).

Definition oidc_matches (identity : OidcIdentity) (u : User) : bool :=
  bool_decide (u_oidc_subject u = Some (oi_subject identity)) &&
  bool_decide (u_oidc_issuer u = Some (oi_issuer identity)).

Definition set_role (role : Role) (u : User) : User :=
  mkUser (u_username u) (u_password_hash u) role
         (if negb (role_eqb role RUser) then None else u_file_principal u)
         (u_must_change_password u) (u_oidc_subject u) (u_oidc_issuer u) (u_webauthn_credentials u).

Definition provision_user (us : list User) (identity : OidcIdentity) (role : Role) : User :=
  mkUser (pick_username us identity) None role None false
         (Some (oi_subject identity)) (Some (oi_issuer identity)) [].

(** The part of [login_or_provision_oidc] after the user's record is known:
    [us] holds it at [idx]. *)
Definition oidc_finish (e : Env) (identity : OidcIdentity) (role : Role) (client_ip : string)
    (st : AuthState) (us : list User) (idx : nat) (user : User) (provisioned : option string)
    : Auth string :=
  let role_changed := negb (role_eqb (u_role user) role) in
  let user' := if role_changed then set_role role user else user in
  let us' := if role_changed then <[idx := user']> us else us in
  let username := u_username user' in
  let ss := if role_changed then revoke_user_sessions username (sessions st) else sessions st in
  let token := generate_token (token_bytes e) in
  let session := mkSession token username role
                   (session_principal role (u_file_principal user'))
                   None None (now e) false (Some client_ip) in
  commit_state e (with_sessions (prune_sessions (now e) ss ++ [session])%list (with_users us' st)) ;;;
  (match provisioned with
   | Some name => audit e "oidc_user_provisioned" name client_ip
                    ("issuer=" ++ oi_issuer identity ++ " sub=" ++ oi_subject identity
                     ++ " role=" ++ fmt_debug_role role)
   | None => ret tt
   end) ;;;
  (if role_changed
   then audit e "oidc_role_updated_on_login" username client_ip
          ("from=" ++ fmt_debug_role (u_role user) ++ " to=" ++ fmt_debug_role role)
   else ret tt) ;;;
  audit e "oidc_login_success" username client_ip "" ;;;
  ret token.

Definition login_or_provision_oidc (e : Env) (identity : OidcIdentity) (derived_role : option Role)
    (auto_provision : bool) (client_ip : string) : Auth string :=
  match derived_role with
  | None =>
      audit e "oidc_login_denied_no_role" (identity_label identity) client_ip
        ("issuer=" ++ oi_issuer identity ++ " sub=" ++ oi_subject identity) ;;;
      throw Forbidden
  | Some role =>
      st <- gets state ;;
      let existing := list_find (fun u => oidc_matches identity u = true) (users st) in
      let safely_bound := match existing with
                          | Some (_, u) => match u_file_principal u with
                                           | Some p => negb (p =s "")
                                           | None => false
                                           end
                          | None => false
                          end in
      if role_eqb role RUser && negb safely_bound
      then audit e "oidc_login_denied_unbound_user" (identity_label identity) client_ip
             "standard User role requires a pre-provisioned file principal" ;;;
           throw Forbidden
      else
        match existing with
        | Some (idx, user) =>
            oidc_finish e identity role client_ip st (users st) idx user None
        | None =>
            if negb auto_provision
            then audit e "oidc_login_failed" (identity_label identity) client_ip
                   "user not provisioned and auto_provision disabled" ;;;
                 throw UserNotFound
            else
              let user := provision_user (users st) identity role in
              oidc_finish e identity role client_ip st (users st ++ [user])%list
                (length (users st)) user (Some (u_username user))
        end
  end.

(** ** Validating a token *)

(** The session of an API token: the [Ok(Session { .. })] at the end of
    [validate]. *)
Definition api_session (token : string) (t : ApiToken) : Session :=
  mkSession token (t_name t) (t_role t) None (t_filesystem t)
            (if role_eqb (t_role t) Operator then Some (t_name t) else None)
            (t_created_at t) false None.

Definition validate (e : Env) (token client_ip : string) : Auth Session :=
  st <- gets state ;;
  match List.find (fun s => ct_eq_str (s_token s) token) (sessions st) with
  | Some session =>
      if (SESSION_TTL_SECS <? wrapping_sub (now e) (s_created_at session))%Z
      then
        st <- gets state ;;
        _ <- attempt (E := AuthError)
               (commit_state e
                  (with_sessions (retain (fun s => negb (ct_eq_str (s_token s) token)) (sessions st)) st)) ;;
        throw TokenExpired
      else
        match s_client_ip session with
        | Some bound_ip =>
            if negb (bound_ip =s client_ip)
            then audit e "session_ip_mismatch" (s_username session) client_ip ("bound=" ++ bound_ip) ;;;
                 throw InvalidToken
            else ret session
        | None => ret session
        end
  | None =>
      let incoming_hash := hash_token token in
      match List.find (fun t => ct_eq_str (t_token t) incoming_hash) (api_tokens st) with
      | None => throw InvalidToken
      | Some t =>
          throw_if (match t_expires_at t with Some exp => (exp <=? now e)%Z | None => false end)
            TokenExpired ;;;
          match t_allowed_ips t with
          | _ :: _ =>
              if negb (existsb (fun ip => ip =s client_ip) (t_allowed_ips t))
              then audit e "token_ip_rejected" (t_name t) client_ip
                     ("allowed=" ++ fmt_debug_strs (t_allowed_ips t)) ;;;
                   throw InvalidToken
              else ret (api_session token t)
          | [] => ret (api_session token t)
          end
      end
  end.

Definition require_admin (e : Env) (token client_ip : string) : Auth Session :=
  session <- validate e token client_ip ;;
  throw_if (negb (role_eqb (s_role session) Admin)) Forbidden ;;;
  ret session.

Definition logout (e : Env) (token : string) : Auth unit :=
  st <- gets state ;;
  let kept := retain (fun s => negb (s_token s =s token)) (sessions st) in
  throw_if (length kept =? length (sessions st))%nat InvalidToken ;;;
  commit_state e (with_sessions kept st).

(** ** API tokens *)

Definition create_api_token (e : Env) (session : Session) (name : string) (role : Role)
    (filesystem : option string) (expires_in_secs : option Z) (allowed_ips : list string)
    : Auth ApiToken :=
  throw_if (negb (role_eqb (s_role session) Admin)) Forbidden ;;;
  throw_if (role_eqb role RUser) Forbidden ;;;
  st <- gets state ;;
  throw_if (existsb (fun t => t_name t =s name) (api_tokens st)
            || existsb (fun u => u_username u =s name) (users st)) UserExists ;;;
  let id := generate_id (id_bytes e) in
  let raw_token := generate_token (token_bytes e) in
  let token_hash := hash_token raw_token in
  let created_at := now e in
  let expires_at := wrapping_add created_at <$> expires_in_secs in
  let stored := mkApiToken id name token_hash role created_at filesystem expires_at allowed_ips in
  commit_state e (with_api_tokens (api_tokens st ++ [stored])%list st) ;;;
  audit e "token_created" (s_username session) (ip_or_empty session) ("name=" ++ name) ;;;
  ret (mkApiToken id name raw_token role created_at filesystem expires_at allowed_ips).

Definition list_api_tokens (session : Session) : Auth (list ApiTokenInfo) :=
  throw_if (negb (role_eqb (s_role session) Admin)) Forbidden ;;;
  st <- gets state ;;
  ret ((fun t => mkApiTokenInfo (t_id t) (t_name t) (t_role t) (t_created_at t) (t_filesystem t)
                   (t_expires_at t) (t_allowed_ips t)) <$> api_tokens st).

Definition delete_api_token (e : Env) (session : Session) (id : string) : Auth unit :=
  throw_if (negb (role_eqb (s_role session) Admin)) Forbidden ;;;
  st <- gets state ;;
  let kept := retain (fun t => negb (t_id t =s id)) (api_tokens st) in
  throw_if (length kept =? length (api_tokens st))%nat UserNotFound ;;;
  commit_state e (with_api_tokens kept st) ;;;
  audit e "token_deleted" (s_username session) (ip_or_empty session) ("id=" ++ id).

(** ** Users *)

Definition set_password (hash : string) (u : User) : User :=
  mkUser (u_username u) (Some hash) (u_role u) (u_file_principal u) false
         (u_oidc_subject u) (u_oidc_issuer u) (u_webauthn_credentials u).

Definition has_name (username : string) (u : User) : bool := u_username u =s username.

Definition change_password (e : Env) (session : Session) (username new_password : string)
    : Auth unit :=
  throw_if (negb (is_some (s_client_ip session))) Forbidden ;;;
  throw_if (negb (role_eqb (s_role session) Admin) && negb (s_username session =s username))
    Forbidden ;;;
  throw_if (String.length new_password <? 8)%nat WeakPassword ;;;
  st <- gets state ;;
  match find_user (users st) username with
  | None => throw UserNotFound
  | Some _ =>
      hash <- lift (hash_password (salt_bytes e) new_password) ;;
      commit_state e
        (mkAuthState (update_first (has_name username) (set_password hash) (users st))
           (revoke_sessions_after_password_change username (s_username session) (s_token session)
              (sessions st))
           (api_tokens st) (initialized st)) ;;;
      audit e "password_changed" (s_username session) (ip_or_empty session) ("target=" ++ username)
  end.

(** [principal_authorization] is the SMB service's resolver of principals. *)
Definition create_user (e : Env) (principal_authorization : string -> result unit string)
    (session : Session) (username password : string) (role : Role) (file_principal : option string)
    : Auth unit :=
  throw_if (negb (role_eqb (s_role session) Admin)) Forbidden ;;;
  throw_if (String.length password <? 8)%nat WeakPassword ;;;
  file_principal <- lift (validate_file_principal_binding role file_principal) ;;
  (match file_principal with
   | Some principal => lift (map_err InvalidFilePrincipal (principal_authorization principal))
   | None => ret tt
   end) ;;;
  st <- gets state ;;
  throw_if (existsb (fun u => u_username u =s username) (users st)
            || existsb (fun t => t_name t =s username) (api_tokens st)) UserExists ;;;
  hash <- lift (hash_password (salt_bytes e) password) ;;
  commit_state e
    (with_users (users st ++ [mkUser username (Some hash) role file_principal false None None []])%list st) ;;;
  audit e "user_created" (s_username session) (ip_or_empty session)
    ("target=" ++ username ++ ", role=" ++ fmt_debug_role role).

Definition delete_user (e : Env) (session : Session) (username : string) : Auth unit :=
  throw_if (negb (role_eqb (s_role session) Admin)) Forbidden ;;;
  throw_if (s_username session =s username) Forbidden ;;;
  st <- gets state ;;
  let kept := retain (fun u => negb (u_username u =s username)) (users st) in
  throw_if (length kept =? length (users st))%nat UserNotFound ;;;
  commit_state e
    (with_sessions (retain (fun s => negb (s_username s =s username)) (sessions st))
       (with_users kept st)) ;;;
  audit e "user_deleted" (s_username session) (ip_or_empty session) ("target=" ++ username).

Definition list_users : Auth (list UserInfo) :=
  st <- gets state ;;
  ret ((fun u => mkUserInfo (u_username u) (u_role u)
                   (session_principal (u_role u) (u_file_principal u))
                   (length (u_webauthn_credentials u))) <$> users st).

(** ** WebAuthn credentials *)

Definition any_webauthn_credentials_registered : Auth bool :=
  st <- gets state ;;
  ret (existsb (fun u => match u_webauthn_credentials u with [] => false | _ => true end) (users st)).

Definition webauthn_credentials_for (username : string) : Auth (list WebauthnCredential) :=
  st <- gets state ;;
  ret (match find_user (users st) username with
       | Some u => u_webauthn_credentials u
       | None => []
       end).

Definition set_credentials (cs : list WebauthnCredential) (u : User) : User :=
  mkUser (u_username u) (u_password_hash u) (u_role u) (u_file_principal u)
         (u_must_change_password u) (u_oidc_subject u) (u_oidc_issuer u) cs.

Definition add_webauthn_credential (e : Env) (username : string) (credential : WebauthnCredential)
    : Auth unit :=
  st <- gets state ;;
  match find_user (users st) username with
  | None => throw UserNotFound
  | Some u =>
      commit_state e
        (with_users
           (update_first (has_name username)
              (set_credentials (u_webauthn_credentials u ++ [credential])%list) (users st)) st)
  end.

Definition remove_webauthn_credential (e : Env) (username credential_id : string) : Auth unit :=
  st <- gets state ;;
  match find_user (users st) username with
  | None => throw UserNotFound
  | Some u =>
      let kept := retain (fun c => negb (cred_id (wc_passkey c) =s credential_id))
                    (u_webauthn_credentials u) in
      throw_if (length kept =? length (u_webauthn_credentials u))%nat AuthNotFound ;;;
      commit_state e
        (with_users (update_first (has_name username) (set_credentials kept) (users st)) st)
  end.

Definition has_non_webauthn_factor (username : string) : Auth bool :=
  st <- gets state ;;
  ret (match find_user (users st) username with
       | Some u => is_some (u_password_hash u)
                   || (is_some (u_oidc_subject u) && is_some (u_oidc_issuer u))
       | None => false
       end).

Definition reset_webauthn_credentials (e : Env) (actor : Session) (target_username : string)
    : Auth nat :=
  throw_if (negb (role_eqb (s_role actor) Admin)) Forbidden ;;;
  st <- gets state ;;
  match find_user (users st) target_username with
  | None => throw UserNotFound
  | Some u =>
      let removed := length (u_webauthn_credentials u) in
      commit_state e
        (with_users (update_first (has_name target_username) (set_credentials []) (users st)) st) ;;;
      audit e "webauthn_reset_for_user" (s_username actor) (ip_or_empty actor)
        ("target=" ++ target_username ++ " removed=" ++ fmt_nat removed) ;;;
      ret removed
  end.

Definition update_passkey (r : AuthenticationResult) (c : WebauthnCredential) : WebauthnCredential :=
  mkCredential (wc_label c) (wc_created_at c) (update_credential r (wc_passkey c)).

Definition update_webauthn_sign_count (e : Env) (username : string) (auth_result : AuthenticationResult)
    : Auth unit :=
  st <- gets state ;;
  match find_user (users st) username with
  | None => throw UserNotFound
  | Some u =>
      let is_it := fun c => cred_id (wc_passkey c) =s ar_cred_id auth_result in
      match List.find is_it (u_webauthn_credentials u) with
      | None => throw AuthNotFound
      | Some _ =>
          commit_state e
            (with_users
               (update_first (has_name username)
                  (set_credentials
                     (update_first is_it (update_passkey auth_result) (u_webauthn_credentials u)))
                  (users st)) st)
      end
  end.

(** The rate-limit checks at the start of [mint_session_for_webauthn]. *)
Definition webauthn_gate (e : Env) (username client_ip : string) : Auth unit :=
  rl <- gets rate_limit ;;
  let ip_fails := ip_failures rl client_ip (now e) in
  (if negb (client_ip =s "unknown") && (MAX_IP_FAILED_ATTEMPTS <=? ip_fails)%nat
   then audit e "login_webauthn_ip_locked" username client_ip (fmt_fails ip_fails) ;;;
        throw AccountLocked
   else ret tt) ;;;
  only_admin <- gets (fun w => is_only_admin (users (state w)) username) ;;
  rl <- gets rate_limit ;;
  let user_fails := user_failures rl username (now e) in
  if (MAX_FAILED_ATTEMPTS <=? user_fails)%nat && negb only_admin
  then audit e "login_webauthn_locked" username client_ip (fmt_fails user_fails) ;;;
       throw AccountLocked
  else ret tt.

Definition mint_session_for_webauthn (e : Env) (username client_ip : string) : Auth string :=
  webauthn_gate e username client_ip ;;;
  st <- gets state ;;
  match find_user (users st) username with
  | None => throw UserNotFound
  | Some user =>
      let token := generate_token (token_bytes e) in
      let session :=
        mkSession token (u_username user) (u_role user)
          (session_principal (u_role user) (u_file_principal user))
          None None (now e) false (Some client_ip) in
      commit_state e
        (with_sessions (prune_sessions (now e) (sessions st) ++ [session])%list st) ;;;
      clear_failed_attempts e username ;;;
      audit e "login_webauthn_success" username client_ip "" ;;;
      ret token
  end.

Definition record_webauthn_failure (e : Env) (username client_ip : string) : Auth unit :=
  record_failed_attempt e username client_ip.

End Service.
