(* ===== verification/AuthReach.v ===== *)
(** * Invariants of the authentication service

    A generic argument ("every operation commits only states that satisfy P,
    and memory and disk stay in step"), its instance for the well-formedness of
    the state, and the guarantees over every reachable world.

    ** Reachable worlds of the authentication service

    The operations as a transition system, from the first boot on, with
    restarts in between, and the invariants of every reachable world. *)
From Stdlib Require Import String Ascii ZArith.
From stdpp Require Import base list gmap strings numbers.
From S2P Require Import Prelude RustStr Disk StateStore AuthTypes AuthStore AuthService.

Open Scope string_scope.
Open Scope rust_scope.

Section Preservation.
Context `{AuthPrims} `{!Codec AuthState} `{!RateCodec}.
Context (P : AuthState -> Prop).

(** The file at the state's path is the encoding of the state in memory. *)
Definition durable (w : World) : Prop :=
  exists json, encode (state w) = Ok json /\ disk w !! STATE_PATH = Some (saved_file json).

(** The rate-limit file, when there is one, is a regular file. *)
Definition rate_file_plain (d : Disk) : Prop :=
  forall f, d !! RATE_LIMIT_PATH = Some f -> is_regular f = true.

Definition Inv (w : World) : Prop := P (state w) /\ durable w /\ rate_file_plain (disk w).

Abbreviation safe := (keeps Inv).

Lemma safe_audit e ev u ip d w : Inv w -> safe (audit e ev u ip d) w.
Proof. done. Qed.

Lemma rate_path_ne : RATE_LIMIT_PATH <> STATE_PATH.
Proof. discriminate. Qed.

(** Saving the rate-limit file touches no other path. *)
Lemma save_rate_limit_frame e rl w :
  rate_file_plain (disk w) ->
  let w' := (save_rate_limit e rl w).2 in
  state w' = state w /\ rate_limit w' = rate_limit w /\ audit_log w' = audit_log w /\
  disk w' !! STATE_PATH = disk w !! STATE_PATH /\ rate_file_plain (disk w').
Proof.
  intros Hplain. pose proof rate_path_ne as Hne.
  assert (forall s, is_regular (set_content s (default (mkFile Regular 420 engine_uid "")
            (disk w !! RATE_LIMIT_PATH))) = true) as Hreg.
  { intros s. destruct (disk w !! RATE_LIMIT_PATH) eqn:E; [|done]. exact (Hplain _ E). }
  unfold save_rate_limit, fs_write, set_permissions, check, bind, gets, lift, modify, throw, ret.
  destruct (fault (io e) OpMkdir STATE_DIR); [done|]. cbn -[resolve].
  rewrite resolve_plain by done.
  destruct (fault (io e) OpWrite RATE_LIMIT_PATH); cbn -[resolve].
  { rewrite lookup_insert_ne by done. split_and!; try done.
    intros f. rewrite lookup_insert_eq. intros [= <-]. apply Hreg. }
  destruct (fault (io e) OpChmod RATE_LIMIT_PATH); cbn -[resolve].
  { rewrite lookup_insert_ne by done. split_and!; try done.
    intros f. rewrite lookup_insert_eq. intros [= <-]. apply Hreg. }
  rewrite lookup_insert_eq. cbn -[resolve]. rewrite !lookup_insert_ne by done.
  split_and!; try done.
  intros f. rewrite lookup_insert_eq. intros [= <-]. apply (Hreg "").
Qed.

Lemma Inv_frame w w' :
  state w' = state w -> disk w' !! STATE_PATH = disk w !! STATE_PATH ->
  rate_file_plain (disk w') -> Inv w -> Inv w'.
Proof.
  intros Hs Hd Hp (HP & Hdur & _). unfold Inv, durable. rewrite Hs, Hd. done.
Qed.

Lemma safe_save_rate_limit e rl w : Inv w -> safe (save_rate_limit e rl) w.
Proof.
  intros HI. destruct (save_rate_limit_frame e rl w) as (Hs & _ & _ & Hd & Hp); [apply HI|].
  by apply (Inv_frame w).
Qed.

Lemma safe_record_failed e u ip w : Inv w -> safe (record_failed_attempt e u ip) w.
Proof.
  intros HI. unfold record_failed_attempt. apply keeps_gets, keeps_bind; [exact HI|].
  intros _ w1 Hw1. apply keeps_bind; [by apply keeps_attempt, safe_save_rate_limit|].
  intros. by apply keeps_ret.
Qed.

Lemma safe_clear_failed e u w : Inv w -> safe (clear_failed_attempts e u) w.
Proof.
  intros HI. unfold clear_failed_attempts. apply keeps_gets.
  case_match; [|by apply keeps_ret]. apply keeps_bind; [exact HI|].
  intros _ w1 Hw1. apply keeps_bind; [by apply keeps_attempt, safe_save_rate_limit|].
  intros. by apply keeps_ret.
Qed.

(** The two outcomes of a commit. *)
Lemma commit_spec e next w :
  let r := (commit_state e next w).1 in
  let w' := (commit_state e next w).2 in
  rate_limit w' = rate_limit w /\
  (forall p, p <> STATE_PATH -> p <> temp_path (tmp_uuid e) -> disk w' !! p = disk w !! p) /\
  ((state w' = next /\ durable w') \/
   (state w' = state w /\ disk w' !! STATE_PATH = disk w !! STATE_PATH /\ r <> Ok tt)).
Proof.
  unfold commit_state, bind. pose proof (persist_spec (io e) (tmp_uuid e) next (disk w)) as Hp.
  unfold wp in Hp. destruct (persist_state_to _ _ _ _ _ _) as [r d']. simpl in Hp.
  destruct Hp as [Hother Hp].
  destruct r as [[]|[err [|]]]; simpl in *; split_and!; try done; [left|left|right]; done.
Qed.

Lemma safe_commit e next w : Inv w -> P next -> safe (commit_state e next) w.
Proof.
  intros (HP & Hdur & Hplain) Hnext.
  destruct (commit_spec e next w) as (_ & Hother & Hcase).
  assert (rate_file_plain (disk (commit_state e next w).2)) as Hpl.
  { intros f. rewrite Hother; [apply Hplain|discriminate|].
    apply not_eq_sym, (temp_path_ne _ "auth-rate-limit.json"). done. }
  unfold keeps, wp, Inv. destruct Hcase as [[Hs Hd]|(Hs & Hd & _)].
  - by rewrite Hs.
  - unfold durable. rewrite Hs, Hd. done.
Qed.

End Preservation.

#[export] Hint Resolve safe_audit safe_save_rate_limit safe_record_failed safe_clear_failed : rust.

(** ** Well-formed states *)

Section WellFormed.
Context `{AuthPrims}.
Implicit Types (st : AuthState) (u : User) (s : Session).

(** What the rest of the system sees of a user. *)
Definition ident u : string * Role * option string :=
  (u_username u, u_role u, u_file_principal u).

(** A standard user is bound to a principal and nobody else is. *)
Definition principal_ok (i : string * Role * option string) : Prop :=
  match i with
  | (_, RUser, fp) => exists p, fp = Some p /\ p <> ""
  | (_, _, fp) => fp = None
  end.

(** A stored session speaks for an existing user with that user's present
    role and principal; it is unscoped and bound to an address. *)
Definition session_ok (ids : list (string * Role * option string)) s : Prop :=
  (exists fp, (s_username s, s_role s, fp) ∈ ids /\
              s_file_principal s = session_principal (s_role s) fp) /\
  s_filesystem s = None /\ s_owner s = None /\ is_some (s_client_ip s) = true.

Record state_ok (st : AuthState) : Prop := mkStateOk {
  ok_initialized : initialized st = true;
  ok_names : NoDup (u_username <$> users st);
  ok_principals : Forall principal_ok (ident <$> users st);
  ok_sessions : Forall (session_ok (ident <$> users st)) (sessions st);
  ok_token_names : NoDup (t_name <$> api_tokens st);
  ok_token_roles : Forall (fun t => t_role t <> RUser) (api_tokens st)
}.

Lemma usernames_ident (us : list User) : u_username <$> us = (fun i => i.1.1) <$> (ident <$> us).
Proof. by rewrite <- list_fmap_compose. Qed.

(** Changes that identify the same users keep the state well formed. *)
Lemma state_ok_same_ids st us :
  state_ok st -> ident <$> us = ident <$> users st -> state_ok (with_users us st).
Proof.
  intros [? Hn Hp Hs ? ?] E. split; simpl; try done.
  - by rewrite usernames_ident, E, <- usernames_ident.
  - by rewrite E.
  - by rewrite E.
Qed.

Lemma state_ok_sessions st ss :
  state_ok st -> Forall (session_ok (ident <$> users st)) ss -> state_ok (with_sessions ss st).
Proof. intros []. by split. Qed.

Lemma state_ok_push st f s :
  state_ok st -> session_ok (ident <$> users st) s ->
  state_ok (with_sessions (retain f (sessions st) ++ [s])%list st).
Proof.
  intros Hok Hs. apply state_ok_sessions; [done|]. apply Forall_app. split.
  - apply Forall_retain, Hok.
  - by constructor.
Qed.

Lemma find_user_Some us name u :
  find_user us name = Some u -> u ∈ us /\ u_username u = name.
Proof. intros [Hu E%eqb_spec]%find_Some_elem. done. Qed.

Lemma session_ok_user us u token t m ip :
  u ∈ us ->
  session_ok (ident <$> us)
    (mkSession token (u_username u) (u_role u) (session_principal (u_role u) (u_file_principal u))
       None None t m (Some ip)).
Proof.
  intros Hu. split; [|done]. exists (u_file_principal u). split; [|done].
  apply list_elem_of_fmap. by exists u.
Qed.

(** Removing a user together with the sessions in their name. *)
Lemma session_ok_other ids ids' s name :
  session_ok ids s -> s_username s <> name ->
  (forall i, i ∈ ids -> i.1.1 <> name -> i ∈ ids') -> session_ok ids' s.
Proof.
  intros [(fp & Hin & Hfp) Hr] Hne Hsub. split; [|done]. exists fp. split; [|done].
  by apply Hsub.
Qed.

Lemma state_ok_delete st name :
  state_ok st ->
  state_ok (with_sessions (retain (fun s => negb (s_username s =s name)) (sessions st))
              (with_users (retain (fun u => negb (u_username u =s name)) (users st)) st)).
Proof.
  intros [? Hn Hp Hs ? ?]. split; simpl; try done.
  - eapply sublist_NoDup; [exact Hn|]. apply fmap_sublist, retain_sublist.
  - eapply Forall_sublist; [|exact Hp]. apply fmap_sublist, retain_sublist.
  - rewrite list.Forall_forall in Hs |- *. intros s [Hne Hin]%elem_of_retain. str_eq.
    eapply session_ok_other; [by apply Hs|done|].
    intros i (u & -> & Hu)%list_elem_of_fmap Hi. apply list_elem_of_fmap. exists u.
    split; [done|]. apply elem_of_retain. split; [|done].
    by apply negb_true_iff, eqb_neq_spec.
Qed.

Lemma state_ok_add_user st u :
  state_ok st -> username_taken (users st) (u_username u) = false -> principal_ok (ident u) ->
  state_ok (with_users (users st ++ [u])%list st).
Proof.
  intros [? Hn Hp Hs ? ?] Hfresh%username_taken_false Hu. split; simpl; try done.
  - rewrite fmap_app. apply list.NoDup_app. split_and!; [done| |apply NoDup_singleton].
    intros x Hx ->%list_elem_of_singleton. done.
  - rewrite fmap_app. apply Forall_app. split; [done|]. by constructor.
  - rewrite list.Forall_forall in Hs |- *. intros s Hin. destruct (Hs s Hin) as [(fp & Hi & Hfp) Hr].
    split; [|done]. exists fp. split; [|done]. rewrite fmap_app. set_solver.
Qed.

Lemma state_ok_change_password st name actor token hash :
  state_ok st ->
  state_ok (mkAuthState (update_first (has_name name) (set_password hash) (users st))
              (revoke_sessions_after_password_change name actor token (sessions st))
              (api_tokens st) (initialized st)).
Proof.
  intros Hok.
  assert (ident <$> update_first (has_name name) (set_password hash) (users st)
          = ident <$> users st) as E by by apply map_update_first.
  apply (state_ok_sessions (with_users (update_first (has_name name) (set_password hash) (users st)) st)).
  { by apply state_ok_same_ids. }
  simpl. rewrite E. unfold revoke_sessions_after_password_change.
  assert (Forall (session_ok (ident <$> users st))
            (retain (fun s => negb (s_username s =s name)
               || ((name =s actor) && ct_eq_str (s_token s) token)) (sessions st))) as Hk.
  { apply Forall_retain, Hok. }
  destruct (name =s actor); [|exact Hk].
  rewrite list.Forall_forall in Hk |- *. intros s [Hin|(x & [Hin _]%find_Some_elem & ->)]%elem_of_update_first.
  - by apply Hk.
  - exact (Hk x Hin).
Qed.

(** Changing a user's role and revoking that user's sessions. *)
Lemma state_ok_set_role st idx u role :
  state_ok st -> users st !! idx = Some u -> principal_ok (ident (set_role role u)) ->
  state_ok (with_sessions (revoke_user_sessions (u_username u) (sessions st))
              (with_users (<[idx := set_role role u]> (users st)) st)).
Proof.
  intros [? Hn Hp Hs ? ?] Hidx Hu. split; simpl; try done.
  - rewrite list_fmap_insert. change (u_username (set_role role u)) with (u_username u).
    rewrite list_insert_id; [done|]. by rewrite list_lookup_fmap, Hidx.
  - rewrite list_fmap_insert. by apply Forall_insert.
  - rewrite list.Forall_forall in Hs |- *. intros s [Hne Hin]%elem_of_retain. str_eq.
    eapply session_ok_other; [by apply Hs|done|].
    intros i (v & -> & [j Hj]%list_elem_of_lookup)%list_elem_of_fmap Hi.
    apply list_elem_of_fmap. exists v. split; [done|].
    apply list_elem_of_lookup. exists j. rewrite list_lookup_insert_ne; [done|].
    intros <-. rewrite Hidx in Hj. by simplify_eq/=.
Qed.

Lemma principal_ok_binding name r fp o hash must sub iss creds :
  validate_file_principal_binding r fp = Ok o ->
  principal_ok (ident (mkUser name hash r o must sub iss creds)).
Proof.
  intros Hb%principal_binding_ok. unfold ident, principal_ok. simpl.
  destruct o as [p|].
  - destruct Hb as (-> & Hp & _). eauto.
  - by destruct r.
Qed.

Lemma state_ok_add_token st t :
  state_ok st -> t_role t <> RUser -> existsb (fun t' => t_name t' =s t_name t) (api_tokens st) = false ->
  state_ok (with_api_tokens (api_tokens st ++ [t])%list st).
Proof.
  intros [? ? ? ? Hn Hr] Hrole Hfresh. split; simpl; try done.
  - rewrite fmap_app. apply list.NoDup_app. split_and!; [done| |apply NoDup_singleton].
    intros x (t' & -> & Ht')%list_elem_of_fmap E%list_elem_of_singleton.
    rewrite existsb_none in Hfresh. specialize (Hfresh t' Ht').
    by apply eqb_neq_spec in Hfresh.
  - apply Forall_app. split; [done|]. by constructor.
Qed.

Lemma state_ok_delete_token st f :
  state_ok st -> state_ok (with_api_tokens (retain f (api_tokens st)) st).
Proof.
  intros [? ? ? ? Hn Hr]. split; simpl; try done.
  - eapply sublist_NoDup; [exact Hn|]. apply fmap_sublist, retain_sublist.
  - by apply Forall_retain.
Qed.

Lemma principal_ok_set_role role u :
  (role = RUser -> exists p, u_file_principal u = Some p /\ p <> "") ->
  principal_ok (ident (set_role role u)).
Proof. intros Hr. unfold ident, set_role. destruct role; simpl; auto. Qed.

End WellFormed.

Section Operations.
Context `{AuthPrims} `{!Codec AuthState} `{!RateCodec}.

(** Calls of the methods that may change the world. Sessions are arguments:
    the callers pass whatever session they hold. *)
Inductive AuthOp :=
| OLogin (username password client_ip : string)
| OOidc (identity : OidcIdentity) (role : option Role) (auto : bool) (client_ip : string)
| OValidate (token client_ip : string)
| ORequireAdmin (token client_ip : string)
| OLogout (token : string)
| OCreateToken (session : Session) (name : string) (role : Role) (filesystem : option string)
    (expires_in : option Z) (ips : list string)
| ODeleteToken (session : Session) (id : string)
| OChangePassword (session : Session) (username password : string)
| OCreateUser (authz : string -> result unit string) (session : Session)
    (username password : string) (role : Role) (principal : option string)
| ODeleteUser (session : Session) (username : string)
| OAddCredential (username : string) (credential : WebauthnCredential)
| ORemoveCredential (username credential_id : string)
| OResetCredentials (session : Session) (username : string)
| OUpdateSignCount (username : string) (r : AuthenticationResult)
| OMint (username client_ip : string)
| OWebauthnFailure (username client_ip : string).

(** The outcome of a call, without its value. *)
Definition outcome {A} (x : result A AuthError * World) : result unit AuthError * World :=
  (match x.1 with Ok _ => Ok tt | Err e => Err e end, x.2).

Definition exec (e : Env) (op : AuthOp) (w : World) : result unit AuthError * World :=
  match op with
  | OLogin u p ip => outcome (login e u p ip w)
  | OOidc i r a ip => outcome (login_or_provision_oidc e i r a ip w)
  | OValidate t ip => outcome (validate e t ip w)
  | ORequireAdmin t ip => outcome (require_admin e t ip w)
  | OLogout t => outcome (logout e t w)
  | OCreateToken s n r f x ips => outcome (create_api_token e s n r f x ips w)
  | ODeleteToken s i => outcome (delete_api_token e s i w)
  | OChangePassword s u p => outcome (change_password e s u p w)
  | OCreateUser a s u p r f => outcome (create_user e a s u p r f w)
  | ODeleteUser s u => outcome (delete_user e s u w)
  | OAddCredential u c => outcome (add_webauthn_credential e u c w)
  | ORemoveCredential u c => outcome (remove_webauthn_credential e u c w)
  | OResetCredentials s u => outcome (reset_webauthn_credentials e s u w)
  | OUpdateSignCount u r => outcome (update_webauthn_sign_count e u r w)
  | OMint u ip => outcome (mint_session_for_webauthn e u ip w)
  | OWebauthnFailure u ip => outcome (record_webauthn_failure e u ip w)
  end.

(** From a first boot on a disk without an authentication state, through
    operations under arbitrary environments, with restarts. *)
Inductive reachable : World -> Prop :=
| reach_first_boot e d st rl d' :
    d !! STATE_PATH = None -> rate_file_plain d ->
    service_new e d = (Ok (st, rl), d') ->
    reachable (mkWorld st rl [] d')
| reach_step e op w :
    reachable w -> reachable (exec e op w).2
| reach_restart e w st rl d' :
    reachable w -> service_new e (disk w) = (Ok (st, rl), d') ->
    reachable (mkWorld st rl (audit_log w) d').

(** ** Every operation keeps the state well formed *)

Abbreviation safe_ok := (keeps (Inv state_ok)).

(** Walk through a handler, leaving the committed states to justify. *)
Ltac safe_go :=
  keeps_go; repeat (apply safe_commit; [assumption|]).

(** The states the handlers commit. *)
Ltac commit_ok :=
  repeat match goal with
  | Hi : Inv state_ok ?w |- _ => pose proof (proj1 Hi); clear Hi
  | Hf : find_user _ _ = Some _ |- _ => apply find_user_Some in Hf as [? ?]
  end;
  first
    [ apply state_ok_push; [assumption|by apply session_ok_user]
    | apply state_ok_sessions; [assumption|by apply Forall_retain, ok_sessions]
    | apply state_ok_same_ids; [assumption|by apply map_update_first]
    | by apply state_ok_delete
    | by apply state_ok_change_password ].

Lemma safe_login e u p ip w : Inv state_ok w -> safe_ok (login e u p ip) w.
Proof.
  intros HI. unfold login, login_gate, login_body, login_failed. safe_go. commit_ok.
Qed.

Lemma safe_validate e t ip w : Inv state_ok w -> safe_ok (validate e t ip) w.
Proof. intros HI. unfold validate. safe_go. apply keeps_attempt. safe_go. commit_ok. Qed.

Lemma safe_require_admin e t ip w : Inv state_ok w -> safe_ok (require_admin e t ip) w.
Proof. intros HI. unfold require_admin. apply keeps_bind; [by apply safe_validate|]. intros. safe_go. Qed.

Lemma safe_logout e t w : Inv state_ok w -> safe_ok (logout e t) w.
Proof. intros HI. unfold logout. safe_go. commit_ok. Qed.

Lemma safe_delete_user e s u w : Inv state_ok w -> safe_ok (delete_user e s u) w.
Proof. intros HI. unfold delete_user. safe_go. commit_ok. Qed.

Lemma safe_change_password e s u p w : Inv state_ok w -> safe_ok (change_password e s u p) w.
Proof. intros HI. unfold change_password. safe_go. commit_ok. Qed.

Lemma safe_mint e u ip w : Inv state_ok w -> safe_ok (mint_session_for_webauthn e u ip) w.
Proof. intros HI. unfold mint_session_for_webauthn, webauthn_gate. safe_go. commit_ok. Qed.

Lemma safe_credentials w :
  Inv state_ok w ->
  (forall e u c, safe_ok (add_webauthn_credential e u c) w) /\
  (forall e u c, safe_ok (remove_webauthn_credential e u c) w) /\
  (forall e s u, safe_ok (reset_webauthn_credentials e s u) w) /\
  (forall e u r, safe_ok (update_webauthn_sign_count e u r) w).
Proof.
  intros HI. split_and!; intros;
    unfold add_webauthn_credential, remove_webauthn_credential, reset_webauthn_credentials,
      update_webauthn_sign_count; safe_go; commit_ok.
Qed.

Lemma safe_create_user e a s u p r f w : Inv state_ok w -> safe_ok (create_user e a s u p r f) w.
Proof.
  intros HI. unfold create_user. safe_go;
    match goal with Hi : Inv state_ok ?w', Ho : _ || _ = false |- _ =>
      apply orb_false_iff in Ho as [Hfree _]; apply state_ok_add_user; [apply Hi|done|] end;
    by eapply principal_ok_binding.
Qed.

Lemma safe_tokens w :
  Inv state_ok w ->
  (forall e s n r f x ips, safe_ok (create_api_token e s n r f x ips) w) /\
  (forall e s i, safe_ok (delete_api_token e s i) w).
Proof.
  intros HI. split; intros; unfold create_api_token, delete_api_token; safe_go.
  - match goal with Ho : _ || _ = false |- _ => apply orb_false_iff in Ho as [Hfree _] end.
    apply state_ok_add_token; [apply HI| |done]. simpl. by apply role_eqb_neq.
  - apply state_ok_delete_token, HI.
Qed.

(** The state an OIDC login commits, for a user found or provisioned. *)
Lemma oidc_finish_ok st idx u role token t ip :
  state_ok st -> users st !! idx = Some u ->
  (role = RUser -> exists p, u_file_principal u = Some p /\ p <> "") ->
  let changed := negb (role_eqb (u_role u) role) in
  let u' := if changed then set_role role u else u in
  let us' := if changed then <[idx := u']> (users st) else users st in
  let ss := if changed then revoke_user_sessions (u_username u') (sessions st) else sessions st in
  state_ok (with_sessions (prune_sessions t ss ++
     [mkSession token (u_username u') role (session_principal role (u_file_principal u'))
        None None t false (Some ip)])%list (with_users us' st)).
Proof.
  intros Hok Hidx Hrole. simpl. destruct (role_eqb (u_role u) role) eqn:Hr; simpl.
  - apply role_eqb_spec in Hr as <-.
    apply (state_ok_push (with_users (users st) st)); [by apply state_ok_same_ids|].
    apply session_ok_user. by eapply list_elem_of_lookup_2.
  - apply (state_ok_push (with_sessions (revoke_user_sessions (u_username u) (sessions st))
      (with_users (<[idx := set_role role u]> (users st)) st))).
    { apply state_ok_set_role; [done..|]. by apply principal_ok_set_role. }
    apply (session_ok_user _ (set_role role u)). eapply list_elem_of_lookup_2.
    apply list_lookup_insert_eq. by eapply lookup_lt_Some.
Qed.

Lemma safe_oidc_finish e i role ip st idx u prov w :
  Inv state_ok w -> state_ok st -> users st !! idx = Some u ->
  (role = RUser -> exists p, u_file_principal u = Some p /\ p <> "") ->
  safe_ok (oidc_finish e i role ip st (users st) idx u prov) w.
Proof.
  intros HI Hst Hidx Hrole. unfold oidc_finish.
  pose proof (oidc_finish_ok st idx u role (generate_token (token_bytes e)) (now e) ip Hst Hidx Hrole) as Hok.
  cbn zeta in Hok |- *. apply keeps_bind; [by apply safe_commit|]. intros. safe_go.
Qed.

Lemma safe_oidc e i r a ip w : Inv state_ok w -> safe_ok (login_or_provision_oidc e i r a ip) w.
Proof.
  intros HI. unfold login_or_provision_oidc. destruct r as [role|]; [|safe_go].
  apply keeps_gets.
  destruct (list_find _ (users (state w))) as [[idx u]|] eqn:Hf; cbn zeta.
  - destruct (role_eqb role RUser && _) eqn:Hb; [safe_go|].
    apply list_find_Some in Hf as (Hidx & _ & _).
    apply safe_oidc_finish; [done|apply HI|done|]. intros ->. simpl in Hb.
    destruct (u_file_principal u) as [p|]; [|done]. exists p. split; [done|]. by str_eq.
  - destruct (role_eqb role RUser && negb false) eqn:Hb; [safe_go|].
    destruct a; cbn [negb]; [|safe_go].
    set (u := provision_user (users (state w)) i role).
    assert (role <> RUser) as Hne by (apply role_eqb_neq; by destruct (role_eqb role RUser)).
    apply (safe_oidc_finish e i role ip (with_users (users (state w) ++ [u])%list (state w)));
      [done| | |done].
    + apply state_ok_add_user; [apply HI|apply pick_username_free|]. by destruct role.
    + apply list_lookup_middle. done.
Qed.

Lemma exec_inv e op w : Inv state_ok w -> Inv state_ok (exec e op w).2.
Proof.
  intros HI. destruct op; simpl.
  - by apply safe_login.
  - by apply safe_oidc.
  - by apply safe_validate.
  - by apply safe_require_admin.
  - by apply safe_logout.
  - by apply safe_tokens.
  - by apply safe_tokens.
  - by apply safe_change_password.
  - by apply safe_create_user.
  - by apply safe_delete_user.
  - by apply safe_credentials.
  - by apply safe_credentials.
  - by apply safe_credentials.
  - by apply safe_credentials.
  - by apply safe_mint.
  - by apply safe_record_failed.
Qed.

(** ** Booting *)

Lemma corrupt_backup_rate ts : corrupt_backup RATE_LIMIT_PATH ts <> STATE_PATH.
Proof. unfold corrupt_backup. destruct ts; discriminate. Qed.

Lemma recover_frame F dflt ts d :
  rate_file_plain d ->
  let d' := (load_singleton_or_recover (T := RateLimitState) F dflt RATE_LIMIT_PATH ts d).2 in
  d' !! STATE_PATH = d !! STATE_PATH /\ rate_file_plain d'.
Proof.
  intros Hplain. unfold load_singleton_or_recover, bind, attempt.
  pose proof (read_to_string_disk F RATE_LIMIT_PATH d) as Hd.
  destruct (read_to_string F RATE_LIMIT_PATH d) as [r d1]. simpl in Hd. subst d1.
  destruct r as [c|]; [|done]. destruct (decode c); [done|].
  pose proof (corrupt_backup_rate ts) as Hb. set (b := corrupt_backup _ _) in *.
  unfold rename, bind, check, gets, throw, ret, modify.
  destruct (fault F OpRename RATE_LIMIT_PATH); [done|].
  destruct (d !! RATE_LIMIT_PATH) as [f|] eqn:Hf; [|done]. cbn -[b]. split.
  - by rewrite lookup_insert_ne, lookup_delete_ne by (done || apply rate_path_ne).
  - intros g. destruct (decide (b = RATE_LIMIT_PATH)) as [->|Hne].
    + rewrite lookup_insert_eq. intros [= <-]. by apply Hplain.
    + by rewrite lookup_insert_ne, lookup_delete_eq.
Qed.

Lemma service_new_ok e d st rl d' :
  service_new e d = (Ok (st, rl), d') -> rate_file_plain d ->
  rate_file_plain d' /\
  ((d !! STATE_PATH = None /\
    exists hash json, st = mkAuthState [default_admin hash] [] [] true /\
    encode st = Ok json /\ d' !! STATE_PATH = Some (saved_file json)) \/
   (exists f, d !! STATE_PATH = Some f /\ is_regular f = true /\ decode (f_content f) = Ok st /\
    initialized st = true /\ d' !! STATE_PATH = Some f)).
Proof.
  unfold service_new, initialize_state, bind. intros Hnew Hplain.
  pose proof (load_state_spec (io e) STATE_PATH (Some 0%Z) d) as Hl. unfold wp in Hl.
  destruct (load_state_from _ _ _ _) as [r d1]. simpl in Hl. destruct Hl as [-> Hl].
  destruct r as [[st0|]|]; [..|done].
  - unfold throw_if, throw, ret in Hnew. destruct (initialized st0) eqn:Hi; [|done].
    cbn [negb] in Hnew. pose proof (recover_frame (io e) rate_limit_default (Some (now e)) d Hplain) as Hr.
    destruct (load_singleton_or_recover _ _ _ _ _) as [[rl0|] d2]; simplify_eq/=.
    destruct Hr as [Hd ?], Hl as (f & Hf & Hreg & Hdec). split; [done|]. right. exists f.
    by rewrite Hd.
  - unfold lift in Hnew. destruct (hash_password _ _) as [hash|]; [|done].
    set (st0 := mkAuthState [default_admin hash] [] [] true) in *.
    pose proof (create_spec (io e) (tmp_uuid e) st0 d) as Hc. unfold wp in Hc.
    destruct (create_state_to _ _ _ _ _) as [[[]|] d1]; [|done]. simpl in Hc.
    destruct Hc as [Hother Hok]. destruct (Hok eq_refl) as (Hnone & json & Hj & Hd1).
    assert (rate_file_plain d1) as Hp1.
    { intros f. rewrite Hother; [apply Hplain|apply rate_path_ne|].
      apply not_eq_sym, (temp_path_ne _ "auth-rate-limit.json"). done. }
    unfold ret in Hnew.
    pose proof (recover_frame (io e) rate_limit_default (Some (now e)) d1 Hp1) as Hr.
    destruct (load_singleton_or_recover _ _ _ _ _) as [[rl0|] d2]; simplify_eq/=.
    destruct Hr as [Hd ?]. split; [done|]. left. split; [done|]. exists hash, json.
    by rewrite Hd.
Qed.

Lemma default_state_ok hash : state_ok (mkAuthState [default_admin hash] [] [] true).
Proof.
  split; simpl; try done; try constructor.
  - apply not_elem_of_nil.
  - constructor.
  - done.
  - constructor.
Qed.

Lemma reachable_inv `{!CodecLaws AuthState} w : reachable w -> Inv state_ok w.
Proof.
  induction 1 as [e d st rl d' Hnone Hplain Hnew | e op w _ IH | e w st rl d' _ IH Hnew].
  - destruct (service_new_ok _ _ _ _ _ Hnew Hplain) as [Hp [(_ & hash & json & -> & Hj & Hd)|(f & Hf & _)]].
    + split; [apply default_state_ok|]. split; [by exists json|done].
    + congruence.
  - by apply exec_inv.
  - destruct IH as (Hok & (json & Hj & Hd) & Hplain).
    destruct (service_new_ok _ _ _ _ _ Hnew Hplain) as [Hp [(Hn & _)|(f & Hf & _ & Hdec & _ & Hd')]].
    + congruence.
    + rewrite Hd in Hf. injection Hf as <-. simpl in Hdec.
      rewrite (decode_encode _ _ Hj) in Hdec. injection Hdec as <-.
      split; [done|]. split; [by exists json|done].
Qed.

(** ** Where a session comes from *)

(** What is fixed when a session is opened. *)
Definition login_part (s : Session) : string * string * Z * option string :=
  (s_token s, s_username s, s_created_at s, s_client_ip s).

(** [s] is the session that the call [op] opens: a login or a passkey login in the user's name, or an OIDC
    login, with the token drawn and the time read during the call, bound to the address the call came from. *)
Definition opened_by (e : Env) (op : AuthOp) (s : Session) : Prop :=
  s_token s = generate_token (token_bytes e) /\ s_created_at s = now e /\
  match op with
  | OLogin u _ ip | OMint u ip => s_username s = u /\ s_client_ip s = Some ip
  | OOidc _ _ _ ip => s_client_ip s = Some ip
  | _ => False
  end.

(** Each session of [st] was there in [w] or is opened by the call. *)
Definition from (e : Env) (op : AuthOp) (w : World) (st : AuthState) : Prop :=
  forall s, s ∈ sessions st ->
    opened_by e op s \/ exists s0, s0 ∈ sessions (state w) /\ login_part s0 = login_part s.

Lemma from_sub e op w st st' :
  from e op w st -> (forall s, s ∈ sessions st' -> s ∈ sessions st) -> from e op w st'.
Proof. intros Hf Hs s Hin. by apply Hf, Hs. Qed.

Lemma from_push e op w st st' f s :
  from e op w st -> sessions st' = (retain f (sessions st) ++ [s])%list -> opened_by e op s -> from e op w st'.
Proof.
  intros Hf E Ho s'. rewrite E, elem_of_app. intros [[_ Hin]%elem_of_retain| ->%list_elem_of_singleton]; [by apply Hf|by left].
Qed.

Lemma from_password_change e op w st name actor token us ts i :
  from e op w st ->
  from e op w (mkAuthState us (revoke_sessions_after_password_change name actor token (sessions st)) ts i).
Proof.
  intros Hf s. cbn. unfold revoke_sessions_after_password_change.
  destruct (name =s actor); [|intros [_ Hin]%elem_of_retain; by apply Hf].
  intros [[_ Hin]%elem_of_retain|(x & [[_ Hin]%elem_of_retain _]%find_Some_elem & ->)]%elem_of_update_first;
    [by apply Hf|].
  destruct (Hf x Hin) as [Ho|Ho]; [by left|by right].
Qed.

Ltac from_go :=
  match goal with
  | Hi : Inv (from ?e ?op ?w) _ |- from ?e ?op ?w _ =>
      first
        [ eapply from_push; [exact (proj1 Hi)|reflexivity|]; unfold opened_by; cbn;
          repeat match goal with Hu : find_user _ _ = Some _ |- _ => apply find_user_Some in Hu as [? ?] end; by split_and!
        | eapply from_sub; [exact (proj1 Hi)|]; cbn; by first [intros ? [_ ?]%elem_of_retain|intros]
        | by apply from_password_change, (proj1 Hi) ]
  end.

Lemma from_oidc_finish e i r a role ip w st us idx u prov w1 :
  Inv (from e (OOidc i r a ip) w) w1 -> from e (OOidc i r a ip) w st ->
  keeps (Inv (from e (OOidc i r a ip) w)) (oidc_finish e i role ip st us idx u prov) w1.
Proof.
  intros HI Hst. unfold oidc_finish. apply keeps_bind; [|intros; keeps_go].
  apply safe_commit; [done|]. destruct (negb _); cbn.
  - eapply (from_push _ _ _ (with_sessions (revoke_user_sessions (u_username u) (sessions st)) st)); [|done|by split_and!].
    eapply from_sub; [exact Hst|]. by intros s [_ ?]%elem_of_retain.
  - by eapply from_push; [exact Hst|done|by split_and!].
Qed.

Lemma exec_from e op w : Inv state_ok w -> from e op w (state (exec e op w).2).
Proof.
  intros (_ & Hd & Hp).
  assert (Inv (from e op w) w) as HI by (split; [intros s Hs; right; by exists s|by split]).
  enough (Inv (from e op w) (exec e op w).2) as [? _] by done.
  assert (forall t ip, keeps (Inv (from e op w)) (validate e t ip) w) as Hv.
  { intros. unfold validate. safe_go. apply keeps_attempt. safe_go. from_go. }
  destruct op; cbn [exec outcome snd];
    match goal with |- Inv ?Q (?m ?w).2 => change (keeps (Inv Q) m w) end.
  - unfold login, login_gate, login_body, login_failed. safe_go. from_go.
  - unfold login_or_provision_oidc. keeps_go; by apply from_oidc_finish; [|apply HI].
  - apply Hv.
  - unfold require_admin. apply keeps_bind; [apply Hv|]. intros. safe_go.
  - unfold logout. safe_go. from_go.
  - unfold create_api_token. safe_go. from_go.
  - unfold delete_api_token. safe_go. from_go.
  - unfold change_password. safe_go. from_go.
  - unfold create_user. safe_go; from_go.
  - unfold delete_user. safe_go. from_go.
  - unfold add_webauthn_credential. safe_go. from_go.
  - unfold remove_webauthn_credential. safe_go. from_go.
  - unfold reset_webauthn_credentials. safe_go. from_go.
  - unfold update_webauthn_sign_count. safe_go. from_go.
  - unfold mint_session_for_webauthn, webauthn_gate. safe_go. from_go.
  - by apply safe_record_failed.
Qed.

(** What follows a world: calls and restarts. *)
Inductive auth_step : World -> World -> Prop :=
| AuthCall e op w : auth_step w (exec e op w).2
| AuthRestart e w st rl d' :
    service_new e (disk w) = (Ok (st, rl), d') -> auth_step w (mkWorld st rl (audit_log w) d').

(** A session was opened by a call made in a world the service reached earlier. *)
Definition has_origin (w : World) (s : Session) : Prop :=
  exists w0 e op, reachable w0 /\ opened_by e op s /\ rtc auth_step (exec e op w0).2 w.

Lemma opened_by_part e op s s' : login_part s = login_part s' -> opened_by e op s -> opened_by e op s'.
Proof. unfold login_part, opened_by. intros [= -> -> -> ->]. done. Qed.

Lemma origin_step w w' s s0 :
  has_origin w s0 -> login_part s0 = login_part s -> auth_step w w' -> has_origin w' s.
Proof.
  intros (w0 & e & op & Hr & Ho & Hs) E Hw. exists w0, e, op.
  split_and!; [done|by eapply opened_by_part|by eapply rtc_r].
Qed.

Lemma sessions_have_origin `{!CodecLaws AuthState} w s :
  reachable w -> s ∈ sessions (state w) -> has_origin w s.
Proof.
  intros Hr. revert s. induction Hr as [e d st rl d' Hnone Hplain Hnew | e op w Hr IH | e w st rl d' Hr IH Hnew]; intros s Hs.
  - destruct (service_new_ok _ _ _ _ _ Hnew Hplain) as [Hp [(_ & hash & json & -> & _)|(f & Hf & _)]]; [|congruence].
    by apply not_elem_of_nil in Hs.
  - destruct (exec_from e op w (reachable_inv _ Hr) s Hs) as [Ho|(s0 & Hs0 & E)].
    + exists w, e, op. split_and!; [done..|apply rtc_refl].
    + eapply origin_step; [by apply IH|done|constructor].
  - destruct (reachable_inv _ Hr) as (Hok & (json & Hj & Hd) & Hplain).
    destruct (service_new_ok _ _ _ _ _ Hnew Hplain) as [Hp [(Hn & _)|(f & Hf & _ & Hdec & _)]]; [congruence|].
    rewrite Hd in Hf. injection Hf as <-. cbn in Hdec. rewrite (decode_encode _ _ Hj) in Hdec. injection Hdec as <-.
    eapply origin_step; [by apply IH|done|by econstructor].
Qed.

End Operations.
