(* ===== verification/AuthLockout.v ===== *)
(** * Brute-force limits of the authentication service

    How many password guesses get through, over arbitrary sequences of
    operations (per user name and per source address), when the lockout is
    suppressed, and what happens when requests interleave. *)
From Stdlib Require Import String Ascii ZArith.
From stdpp Require Import base list gmap strings numbers.
From S2P Require Import Prelude RustStr Disk StateStore AuthTypes AuthStore AuthService AuthReach.

Open Scope string_scope.
Open Scope rust_scope.

Section Lockout.
Context `{AuthPrims} `{!Codec AuthState} `{!RateCodec}.
Implicit Types (w : World) (e : Env).

(** Whether the password is the user's. *)
Definition password_ok w (username password : string) : bool :=
  match find_user (users (state w)) username with
  | Some u => match u_password_hash u with
              | Some h => is_ok (verify_password password h)
              | None => false
              end
  | None => false
  end.

Definition is_locked {A} (r : result A AuthError) : bool :=
  match r with Err AccountLocked => true | _ => false end.

(** ** What each operation does to the failure counters *)

Abbreviation rate_is rl := (fun w : World => rate_limit w = rl).

Lemma rate_audit e ev u ip d rl w : rate_is rl w -> keeps (rate_is rl) (audit e ev u ip d) w.
Proof. done. Qed.

Lemma rate_commit e next rl w : rate_is rl w -> keeps (rate_is rl) (commit_state e next) w.
Proof. intros <-. apply (commit_spec e next w). Qed.

Lemma rate_save e rl' rl w : rate_is rl w -> keeps (rate_is rl) (save_rate_limit e rl') w.
Proof. intros <-. unfold keeps, wp, save_rate_limit. by destruct ((_ ;;; _) (disk w)). Qed.

#[local] Hint Resolve rate_audit rate_commit rate_save : rust.

Lemma record_rate e u ip w :
  rate_limit (record_failed_attempt e u ip w).2 = record_failure u ip (now e) (rate_limit w).
Proof.
  enough (keeps (rate_is (record_failure u ip (now e) (rate_limit w)))
            (record_failed_attempt e u ip) w) as E by exact E.
  unfold record_failed_attempt. apply keeps_gets. apply keeps_bind; [done|]. intros. keeps_go.
Qed.

Definition clear_failures (u : string) (rl : RateLimitState) : RateLimitState :=
  mkRateLimit (delete u (by_user rl)) (by_ip rl).

Lemma clear_rate e u w :
  rate_limit (clear_failed_attempts e u w).2 = clear_failures u (rate_limit w).
Proof.
  enough (keeps (rate_is (clear_failures u (rate_limit w))) (clear_failed_attempts e u) w) as E by exact E.
  unfold clear_failed_attempts. apply keeps_gets.
  destruct (by_user (rate_limit w) !! u) eqn:E.
  - apply keeps_bind; [done|]. intros. keeps_go.
  - apply keeps_ret. unfold clear_failures. rewrite delete_id by done. by destruct (rate_limit w).
Qed.

(** The gate decides from the counters and leaves them and the state alone. *)
Lemma login_gate_cases e u ip w :
  let ip_full := negb (ip =s "unknown") && (MAX_IP_FAILED_ATTEMPTS <=? ip_failures (rate_limit w) ip (now e))%nat in
  let user_full := (MAX_FAILED_ATTEMPTS <=? user_failures (rate_limit w) u (now e))%nat
                   && negb (is_only_admin (users (state w)) u) in
  (login_gate e u ip w).1 = (if ip_full || user_full then Err AccountLocked else Ok tt) /\
  state (login_gate e u ip w).2 = state w /\
  rate_limit (login_gate e u ip w).2 = rate_limit w /\
  disk (login_gate e u ip w).2 = disk w.
Proof.
  unfold login_gate, bind, gets, ret, throw, audit, modify. cbn zeta beta iota.
  destruct (negb (ip =s "unknown") && _); [done|]. cbn -[Nat.leb].
  destruct (MAX_FAILED_ATTEMPTS <=? user_failures (rate_limit w) u (now e))%nat; [|done].
  by destruct (is_only_admin (users (state w)) u).
Qed.

Lemma login_failed_spec e u ip d err w :
  (login_failed e u ip d err w).1 = Err err /\
  rate_limit (login_failed e u ip d err w).2 = record_failure u ip (now e) (rate_limit w).
Proof.
  unfold login_failed, audit, modify, bind, throw.
  set (w1 := add_audit (mkAudit (now e) "login_failed" u ip d) w).
  pose proof (record_rate e u ip w1) as Hr.
  assert (exists w2, record_failed_attempt e u ip w1 = (Ok tt, w2)) as [w2 E].
  { unfold record_failed_attempt, bind, gets, modify, attempt, ret.
    destruct (save_rate_limit _ _ _). eauto. }
  fold w1. by rewrite E in Hr |- *.
Qed.

(** A wrong guess that passes the gate is counted and is not an
    [AccountLocked]; a right one clears the user's counter. *)
Lemma login_body_wrong e u p ip w :
  password_ok w u p = false ->
  is_locked (login_body e u p ip w).1 = false /\ is_ok (login_body e u p ip w).1 = false /\
  rate_limit (login_body e u p ip w).2 = record_failure u ip (now e) (rate_limit w).
Proof.
  unfold password_ok. intros Hp.
  enough (exists d err, login_body e u p ip w = login_failed e u ip d err w /\ err <> AccountLocked)
    as (d & err & -> & Herr).
  { destruct (login_failed_spec e u ip d err w) as [-> ->]. by destruct err. }
  unfold login_body, bind at 1, gets.
  destruct (find_user (users (state w)) u) as [user|]; [|by eexists _, _].
  destruct (u_password_hash user) as [h|]; [|by eexists _, _].
  destruct (verify_password p h) as [|err] eqn:Hv; [done|].
  eexists _, _. split; [done|]. unfold verify_password in Hv. by crush_match.
Qed.

Lemma login_body_wrong_state e u p ip w :
  password_ok w u p = false -> state (login_body e u p ip w).2 = state w.
Proof.
  intros Hp.
  enough (keeps (fun w' => state w' = state w) (login_body e u p ip) w) as E by exact E.
  assert (forall d err, keeps (fun w' : World => state w' = state w) (login_failed e u ip d err) w) as Hf.
  { intros d err. unfold login_failed, record_failed_attempt, save_rate_limit.
    apply keeps_bind; [done|]. intros _ w1 Hw1. apply keeps_bind; [|done].
    apply keeps_gets, keeps_bind; [done|]. intros _ w2 Hw2. apply keeps_bind; [|done].
    apply keeps_attempt. unfold keeps, wp. by destruct ((_ ;;; _) (disk w2)). }
  unfold password_ok in Hp. unfold login_body. apply keeps_gets.
  destruct (find_user (users (state w)) u) as [user|]; [|apply Hf].
  destruct (u_password_hash user) as [h|]; [|apply Hf].
  destruct (verify_password p h) as [|err]; [done|apply Hf].
Qed.

Lemma login_body_right e u p ip w :
  password_ok w u p = true ->
  rate_limit (login_body e u p ip w).2 = clear_failures u (rate_limit w).
Proof.
  unfold password_ok. intros Hp.
  enough (keeps (rate_is (clear_failures u (rate_limit w))) (login_body e u p ip) w) as E by exact E.
  unfold login_body. apply keeps_gets.
  destruct (find_user (users (state w)) u) as [user|]; [|done].
  destruct (u_password_hash user) as [h|]; [|done].
  destruct (verify_password p h); [|done].
  apply keeps_bind; [apply clear_rate|]. intros. keeps_go.
Qed.

Lemma login_after_gate e u p ip w w1 :
  login_gate e u ip w = (Ok tt, w1) -> login e u p ip w = login_body e u p ip w1.
Proof. intros E. unfold login. by rewrite (bind_Ok _ _ _ _ _ E). Qed.

(** ** Counting over traces *)

(** A sequence of calls, each with what the environment supplies to it. *)
Abbreviation Trace := (list (Env * AuthOp)).

(** [all_along Q tr w]: [Q] holds at every call of the trace run from [w]. *)
Fixpoint all_along (Q : Env -> AuthOp -> World -> Prop) (tr : Trace) (w : World) : Prop :=
  match tr with
  | [] => True
  | (e, op) :: tr' => Q e op w /\ all_along Q tr' (exec e op w).2
  end.

(** The number of calls of the trace that [f] counts. *)
Fixpoint count_along (f : Env -> AuthOp -> World -> bool) (tr : Trace) (w : World) : nat :=
  match tr with
  | [] => 0
  | (e, op) :: tr' => (if f e op w then 1 else 0) + count_along f tr' (exec e op w).2
  end.

(** A potential that grows with every counted call, that never shrinks, and
    that a counted call finds below the cap, bounds the count. *)
Lemma count_bounded (k : World -> nat) cap f Q tr w :
  (forall e op w, Q e op w ->
     k w <= k (exec e op w).2 /\
     (f e op w = true -> k w < cap /\ k w < k (exec e op w).2)) ->
  all_along Q tr w -> count_along f tr w <= cap - k w.
Proof.
  intros Hk. revert w. induction tr as [|[e op] tr IH]; intros w; simpl; [lia|].
  intros [HQ Hall]. destruct (Hk e op w HQ) as [Hle Hlt].
  specialize (IH _ Hall). destruct (f e op w); [|lia]. destruct (Hlt eq_refl). lia.
Qed.

(** The failures recorded since [t0]. *)
Definition since (t0 : Z) (m : gmap string (list Z)) (key : string) : nat :=
  length (List.filter (fun t => (t0 <=? t)%Z) (default [] (m !! key))).

Lemma since_le_failures t0 m key now window :
  (0 < window)%Z -> (now < t0 + window)%Z -> since t0 m key <= failures m key now window.
Proof.
  intros Hw Hn. unfold since, failures. destruct (m !! key) as [v|]; simpl; [|lia].
  apply (length_retain_mono (fun t => (t0 <=? t)%Z)). intros t _ Ht%Z.leb_le.
  by apply (in_window_span now window t t0).
Qed.

(** The operations that touch the counters. *)
Lemma exec_rate_other e op w :
  match op with
  | OLogin _ _ _ | OMint _ _ | OWebauthnFailure _ _ => True
  | _ => rate_limit (exec e op w).2 = rate_limit w
  end.
Proof.
  destruct op; try done; cbn [exec];
    match goal with |- rate_limit (outcome (?m ?w)).2 = ?rl =>
      change (keeps (rate_is rl) m w) end;
    assert (rate_is (rate_limit w) w) by done.
  - unfold login_or_provision_oidc, oidc_finish. keeps_go.
  - unfold validate. keeps_go.
  - unfold require_admin, validate. keeps_go.
  - unfold logout. keeps_go.
  - unfold create_api_token. keeps_go.
  - unfold delete_api_token. keeps_go.
  - unfold change_password. keeps_go.
  - unfold create_user. keeps_go.
  - unfold delete_user. keeps_go.
  - unfold add_webauthn_credential. keeps_go.
  - unfold remove_webauthn_credential. keeps_go.
  - unfold reset_webauthn_credentials. keeps_go.
  - unfold update_webauthn_sign_count. keeps_go.
Qed.

Lemma exec_rate_mint e u ip w :
  rate_limit (exec e (OMint u ip) w).2 = rate_limit w \/
  rate_limit (exec e (OMint u ip) w).2 = clear_failures u (rate_limit w).
Proof.
  change (wp (mint_session_for_webauthn e u ip) (fun _ w' => rate_limit w' = rate_limit w \/
            rate_limit w' = clear_failures u (rate_limit w)) w).
  assert (keeps (rate_is (rate_limit w)) (webauthn_gate e u ip) w) as Hg.
  { assert (rate_is (rate_limit w) w) by done. unfold webauthn_gate. keeps_go. }
  apply wp_bind. revert Hg. apply wp_mono. intros [[]|err] w1 Hw1; [|by left].
  apply wp_bind, wp_gets. cbn beta iota. destruct (find_user _ _) as [user|]; [|by left].
  apply wp_bind. eapply wp_mono; [|apply rate_commit, Hw1]. intros [[]|err] w2 Hw2; [|by left].
  apply wp_bind. apply (wp_mono _ (fun _ => rate_is (clear_failures u (rate_limit w)))).
  - intros [[]|err] w3 Hw3; right; exact Hw3.
  - unfold wp. by rewrite clear_rate, Hw2.
Qed.

Lemma since_record_same t0 now window key m :
  (0 < window)%Z -> (t0 <= now < t0 + window)%Z ->
  since t0 m key < since t0 (record_in now window key m) key.
Proof. intros. by apply failures_record_grows with now. Qed.

Lemma since_record_other t0 now window key key' m :
  key <> key' -> since t0 (record_in now window key m) key' = since t0 m key'.
Proof. intros. unfold since, record_in. by rewrite lookup_insert_ne. Qed.

Lemma since_record_le t0 now window key key' m :
  (0 < window)%Z -> (t0 <= now < t0 + window)%Z ->
  since t0 m key' <= since t0 (record_in now window key m) key'.
Proof.
  intros Hw Hn. destruct (decide (key = key')) as [->|Hne].
  - apply Nat.lt_le_incl. by apply since_record_same.
  - by rewrite since_record_other.
Qed.

(** What a login does to the counters, by the gate and by the password. *)
Lemma login_rate_cases e u p ip w :
  (is_locked (login e u p ip w).1 = true /\ rate_limit (login e u p ip w).2 = rate_limit w) \/
  (is_ok (login_gate e u ip w).1 = true /\
   rate_limit (login e u p ip w).2 =
     (if password_ok w u p then clear_failures u (rate_limit w)
      else record_failure u ip (now e) (rate_limit w))).
Proof.
  destruct (login_gate_cases e u ip w) as (Hr & Hs & Hrl & _).
  destruct (login_gate e u ip w) as [r w1] eqn:Hg. simpl in Hr, Hs, Hrl.
  destruct (_ || _); subst r.
  - left. unfold login. by rewrite (bind_Err _ _ _ _ _ Hg).
  - right. rewrite (login_after_gate _ _ _ _ _ _ Hg). split; [done|].
    assert (password_ok w1 u p = password_ok w u p) as Hp by (unfold password_ok; by rewrite Hs).
    rewrite <- Hrl, <- Hp. destruct (password_ok w1 u p) eqn:Hp1.
    + by apply login_body_right.
    + by apply login_body_wrong.
Qed.

(** An attack on one account within one window: every login to it uses a wrong
    password, no passkey login to it is made, and the user is not the only
    administrator. Any other call may happen in between. *)
Definition user_attack (t0 : Z) (u : string) (e : Env) (op : AuthOp) (w : World) : Prop :=
  (t0 <= now e < t0 + LOCKOUT_WINDOW_SECS)%Z /\
  is_only_admin (users (state w)) u = false /\
  match op with
  | OLogin u' p _ => u' = u -> password_ok w u' p = false
  | OMint u' _ => u' <> u
  | _ => True
  end.

(** A guess at the account's password that the lockout let through. *)
Definition user_guess (u : string) (e : Env) (op : AuthOp) (w : World) : bool :=
  match op with
  | OLogin u' _ _ => (u' =s u) && negb (is_locked (exec e op w).1)
  | _ => false
  end.

Lemma gate_below_user_cap e u ip w :
  is_ok (login_gate e u ip w).1 = true -> is_only_admin (users (state w)) u = false ->
  user_failures (rate_limit w) u (now e) < MAX_FAILED_ATTEMPTS.
Proof.
  destruct (login_gate_cases e u ip w) as (-> & _). intros Hok Ha. rewrite Ha, andb_true_r in Hok.
  destruct (MAX_FAILED_ATTEMPTS <=? _)%nat eqn:E; [by rewrite orb_true_r in Hok|].
  by apply Nat.leb_gt.
Qed.

Lemma user_attack_step t0 u e op w :
  user_attack t0 u e op w ->
  since t0 (by_user (rate_limit w)) u <= since t0 (by_user (rate_limit (exec e op w).2)) u /\
  (user_guess u e op w = true ->
   since t0 (by_user (rate_limit w)) u < MAX_FAILED_ATTEMPTS /\
   since t0 (by_user (rate_limit w)) u < since t0 (by_user (rate_limit (exec e op w).2)) u).
Proof.
  intros (Hn & Ha & Hop). assert (0 < LOCKOUT_WINDOW_SECS)%Z as Hw by done.
  pose proof (exec_rate_other e op w) as Hother.
  destruct op as [u' p ip| | | | | | | | | | | | | |u' ip|u' ip];
    try (rewrite Hother; split; [lia|done]).
  - destruct (login_rate_cases e u' p ip w) as [[Hl Hr]|[Hg Hr]]; cbn [exec outcome fst snd user_guess].
    + rewrite Hr. split; [lia|]. destruct (login e u' p ip w).1 as [|[]]; try done.
      by rewrite andb_false_r.
    + rewrite Hr. destruct (decide (u' = u)) as [->|Hne].
      * rewrite (Hop eq_refl). simpl. split; [by apply since_record_le|]. intros _. split.
        -- eapply Nat.le_lt_trans; [|by eapply gate_below_user_cap].
           apply since_le_failures; [done|lia].
        -- by apply since_record_same.
      * apply eqb_neq_spec in Hne as Hne'. rewrite Hne'. split; [|done].
        destruct (password_ok w u' p); simpl; [|by rewrite since_record_other].
        unfold since. by rewrite lookup_delete_ne.
  - split; [|done]. destruct (exec_rate_mint e u' ip w) as [->| ->]; [lia|].
    simpl. unfold since. by rewrite lookup_delete_ne.
  - split; [|done]. cbn [exec outcome snd]. unfold record_webauthn_failure. rewrite record_rate.
    simpl. by apply since_record_le.
Qed.

(** C2: Brute force against one account is bounded. Take any sequence of
    operations within one fifteen-minute window in which every login to the
    account uses a wrong password, no passkey login to it is made, and it is
    never the only administrator; everything else, logins to other accounts
    included, may be interleaved. Then at most five of the guesses at the
    account's password get past the lockout. (A successful login to the account
    resets its counter, and the bound starts anew.) *)
Theorem user_guesses_bounded t0 u tr w :
  all_along (user_attack t0 u) tr w ->
  count_along (user_guess u) tr w <= MAX_FAILED_ATTEMPTS.
Proof.
  intros Hall. etrans; [|apply Nat.le_sub_l].
  eapply (count_bounded (fun w => since t0 (by_user (rate_limit w)) u)); [|exact Hall].
  intros. by apply user_attack_step.
Qed.

(** A wrong guess, at any account, from one address, that was let through. *)
Definition ip_guess (ip : string) (e : Env) (op : AuthOp) (w : World) : bool :=
  match op with
  | OLogin u p ip' => (ip' =s ip) && negb (password_ok w u p) && negb (is_locked (exec e op w).1)
  | _ => false
  end.

Definition in_hour (t0 : Z) (e : Env) (op : AuthOp) (w : World) : Prop :=
  (t0 <= now e < t0 + IP_LOCKOUT_WINDOW_SECS)%Z.

Lemma gate_below_ip_cap e u ip w :
  is_ok (login_gate e u ip w).1 = true -> ip <> "unknown" ->
  ip_failures (rate_limit w) ip (now e) < MAX_IP_FAILED_ATTEMPTS.
Proof.
  destruct (login_gate_cases e u ip w) as (-> & _). intros Hok Hne%eqb_neq_spec.
  rewrite Hne in Hok. destruct (MAX_IP_FAILED_ATTEMPTS <=? _)%nat eqn:E; [done|].
  by apply Nat.leb_gt.
Qed.

Lemma since_record_ip t0 u ip ip' now rl :
  (t0 <= now < t0 + IP_LOCKOUT_WINDOW_SECS)%Z ->
  since t0 (by_ip rl) ip <= since t0 (by_ip (record_failure u ip' now rl)) ip /\
  (ip' = ip -> ip <> "unknown" ->
   since t0 (by_ip rl) ip < since t0 (by_ip (record_failure u ip' now rl)) ip).
Proof.
  intros Hn. unfold record_failure. simpl. destruct (ip' =s "unknown") eqn:E; simpl.
  - str_eq. split; [lia|]. congruence.
  - split; [by apply since_record_le|]. intros -> _. by apply since_record_same.
Qed.

Lemma ip_attack_step t0 ip e op w :
  ip <> "unknown" -> in_hour t0 e op w ->
  since t0 (by_ip (rate_limit w)) ip <= since t0 (by_ip (rate_limit (exec e op w).2)) ip /\
  (ip_guess ip e op w = true ->
   since t0 (by_ip (rate_limit w)) ip < MAX_IP_FAILED_ATTEMPTS /\
   since t0 (by_ip (rate_limit w)) ip < since t0 (by_ip (rate_limit (exec e op w).2)) ip).
Proof.
  intros Hip Hn. assert (0 < IP_LOCKOUT_WINDOW_SECS)%Z as Hw by done.
  pose proof (exec_rate_other e op w) as Hother.
  destruct op as [u p ip'| | | | | | | | | | | | | |u ip'|u ip'];
    try (rewrite Hother; split; [lia|done]).
  - destruct (login_rate_cases e u p ip' w) as [[Hl Hr]|[Hg Hr]]; cbn [exec outcome fst snd ip_guess].
    + rewrite Hr. split; [lia|]. destruct (login e u p ip' w).1 as [|[]]; try done.
      by rewrite andb_false_r.
    + rewrite Hr. destruct (password_ok w u p); simpl.
      * split; [lia|]. by rewrite andb_false_r.
      * destruct (since_record_ip t0 u ip ip' (now e) (rate_limit w) Hn) as [Hle Hlt].
        split; [done|]. rewrite andb_true_r. intros [E%eqb_spec _]%andb_prop. subst ip'.
        split; [|by apply Hlt].
        eapply Nat.le_lt_trans; [|by eapply gate_below_ip_cap].
        apply since_le_failures; [done|]. unfold in_hour in Hn. lia.
  - split; [|done]. by destruct (exec_rate_mint e u ip' w) as [->| ->].
  - split; [|done]. cbn [exec outcome snd]. unfold record_webauthn_failure. rewrite record_rate.
    by apply since_record_ip.
Qed.

(** Spraying from one address is bounded. In any sequence of operations
    within one hour, whatever the accounts tried, whoever logs in successfully
    in between, and also when the account is the only administrator, at most
    twenty wrong guesses from one known address get past the limits. *)
Theorem ip_guesses_bounded t0 ip tr w :
  ip <> "unknown" ->
  all_along (in_hour t0) tr w ->
  count_along (ip_guess ip) tr w <= MAX_IP_FAILED_ATTEMPTS.
Proof.
  intros Hip Hall. etrans; [|apply Nat.le_sub_l].
  eapply (count_bounded (fun w => since t0 (by_ip (rate_limit w)) ip)); [|exact Hall].
  intros. by apply ip_attack_step.
Qed.

(** ** The lockout of the only administrator *)

(** A computation that never answers [AccountLocked]. *)
Definition unlocked {W A} (m : M W AuthError A) : Prop := forall x, is_locked (m x).1 = false.

Lemma unlocked_bind {W A B} (m : M W AuthError A) (f : A -> M W AuthError B) :
  unlocked m -> (forall a, unlocked (f a)) -> unlocked (bind m f).
Proof.
  intros Hm Hf w. specialize (Hm w). unfold bind.
  destruct (m w) as [[a|err] w']; [apply Hf | exact Hm].
Qed.

Lemma unlocked_step op path m : unlocked (step op path m).
Proof. intros [d c]. unfold step. by destruct (m d) as [[]]. Qed.

Lemma unlocked_save_block F path temp par json replace :
  unlocked (save_block F path temp par json replace).
Proof.
  unfold save_block. repeat (apply unlocked_bind; [apply unlocked_step|intros _]).
  apply unlocked_bind; [|intros _; apply unlocked_bind; [apply unlocked_step|intros _; apply unlocked_step]].
  destruct replace; repeat (apply unlocked_bind; [|intros _]); try apply unlocked_step; done.
Qed.

Lemma unlocked_commit e next : unlocked (commit_state e next).
Proof.
  intros w. unfold commit_state, bind, persist_state_to.
  change (parent STATE_PATH) with (Some STATE_DIR). cbn match zeta beta.
  unfold save_state_with_temp. change (parent STATE_PATH) with (Some STATE_DIR). cbn match beta.
  destruct (encode next) as [json|x]; [|done].
  match goal with |- context [save_block ?F ?p ?t ?par ?j ?r ?x] =>
    pose proof (unlocked_save_block F p t par j r x) as Hs;
    destruct (save_block F p t par j r x) as [[[]|err] [d' c]] end; [done|].
  simpl in Hs |- *. by destruct c, err.
Qed.

Lemma login_body_unlocked e u p ip : unlocked (login_body e u p ip).
Proof.
  intros w. destruct (password_ok w u p) eqn:Hp; [|by apply login_body_wrong].
  unfold password_ok in Hp. unfold login_body, bind at 1, gets.
  destruct (find_user (users (state w)) u) as [user|]; [|done].
  destruct (u_password_hash user) as [h|]; [|done].
  destruct (verify_password p h); [|done]. revert w Hp. intros w _.
  match goal with |- is_locked (?m w).1 = false => enough (unlocked m) as E by apply E end.
  apply unlocked_bind.
  { intros w'. unfold clear_failed_attempts, bind, gets, modify, attempt, ret.
    destruct (by_user _ !! u); [|done]. by destruct (save_rate_limit _ _ _). }
  intros _. apply unlocked_bind; [apply unlocked_commit|done].
Qed.

(** The lockout cannot brick the appliance. Whatever failures are on record
    for the only administrator, a login of that administrator from an address
    below its own limit is never answered with [AccountLocked]: the password
    decides. *)
Theorem only_admin_never_locked_out e u p ip w :
  is_only_admin (users (state w)) u = true ->
  ip = "unknown" \/ ip_failures (rate_limit w) ip (now e) < MAX_IP_FAILED_ATTEMPTS ->
  is_locked (login e u p ip w).1 = false.
Proof.
  intros Ha Hip. destruct (login_gate_cases e u ip w) as (Hr & _).
  rewrite Ha, andb_false_r, orb_false_r in Hr.
  assert (negb (ip =s "unknown") && (MAX_IP_FAILED_ATTEMPTS <=? ip_failures (rate_limit w) ip (now e))%nat
          = false) as E.
  { destruct Hip as [->|Hlt]; [done|]. apply Nat.leb_gt in Hlt. by rewrite Hlt, andb_false_r. }
  rewrite E in Hr. destruct (login_gate e u ip w) as [r w1] eqn:Hg. simpl in Hr. subst r.
  rewrite (login_after_gate _ _ _ _ _ _ Hg). apply login_body_unlocked.
Qed.

(** ** Interleaved logins

    [login] takes the counters' lock for its checks, releases it, and only
    records a failure after the password was verified under the state's lock.
    A request therefore has two phases that other requests may separate. *)

Inductive Phase :=
| Waiting
| Passed
| Done (r : result string AuthError).

Record Req := mkReq {
  rq_env : Env;
  rq_user : string;
  rq_password : string;
  rq_ip : string;
  rq_phase : Phase
}.

Definition set_phase (ph : Phase) (r : Req) : Req :=
  mkReq (rq_env r) (rq_user r) (rq_password r) (rq_ip r) ph.

(** Let the request number [i] run its next phase. *)
Definition sched_step (i : nat) (p : World * list Req) : World * list Req :=
  match p.2 !! i with
  | None => p
  | Some r =>
      match rq_phase r with
      | Waiting =>
          match login_gate (rq_env r) (rq_user r) (rq_ip r) p.1 with
          | (Ok _, w') => (w', <[i := set_phase Passed r]> p.2)
          | (Err err, w') => (w', <[i := set_phase (Done (Err err)) r]> p.2)
          end
      | Passed =>
          match login_body (rq_env r) (rq_user r) (rq_password r) (rq_ip r) p.1 with
          | (res, w') => (w', <[i := set_phase (Done res) r]> p.2)
          end
      | Done _ => p
      end
  end.

Fixpoint run_sched (is_ : list nat) (p : World * list Req) : World * list Req :=
  match is_ with
  | [] => p
  | i :: rest => run_sched rest (sched_step i p)
  end.

Lemma run_sched_app l1 l2 p : run_sched (l1 ++ l2)%list p = run_sched l2 (run_sched l1 p).
Proof. revert p. induction l1 as [|i l1 IH]; intros p; simpl; [done|apply IH]. Qed.

Lemma gates_all_pass e u p ip n l w :
  is_ok (login_gate e u ip w).1 = true ->
  exists w', run_sched (seq (length l) n) (w, l ++ replicate n (mkReq e u p ip Waiting))%list
             = (w', l ++ replicate n (mkReq e u p ip Passed))%list /\ state w' = state w.
Proof.
  revert l w. induction n as [|n IH]; intros l w Hg; [by exists w|].
  cbn [seq run_sched replicate].
  destruct (login_gate_cases e u ip w) as (Hr & Hs & Hrl & _).
  destruct (login_gate e u ip w) as [r w1] eqn:E. cbn [fst snd] in Hr, Hs, Hrl, Hg.
  destruct r as [[]|]; [|done].
  unfold sched_step. cbn [fst snd]. rewrite list_lookup_middle by done. cbn [rq_phase rq_env rq_user rq_ip].
  rewrite E, insert_middle. cbn [set_phase rq_env rq_user rq_password rq_ip].
  destruct (IH (l ++ [mkReq e u p ip Passed])%list w1) as (w' & Hw & Hst).
  { destruct (login_gate_cases e u ip w1) as (-> & _). rewrite Hs, Hrl. by rewrite <- Hr. }
  rewrite length_app, Nat.add_1_r, <- !app_assoc in Hw. exists w'. split; [exact Hw|congruence].
Qed.

Lemma bodies_all_reached e u p ip n l w :
  password_ok w u p = false ->
  exists w' rs, run_sched (seq (length l) n) (w, l ++ replicate n (mkReq e u p ip Passed))%list
                = (w', l ++ rs)%list /\ length rs = n /\
    Forall (fun r => exists err, rq_phase r = Done (Err err) /\ err <> AccountLocked) rs.
Proof.
  revert l w. induction n as [|n IH]; intros l w Hp; [by exists w, []|].
  cbn [seq run_sched replicate]. unfold sched_step. cbn [fst snd].
  rewrite list_lookup_middle by done. cbn [rq_phase rq_env rq_user rq_password rq_ip].
  destruct (login_body_wrong e u p ip w Hp) as (Hl & Hok & _).
  assert (state (login_body e u p ip w).2 = state w) as Hs by by apply login_body_wrong_state.
  destruct (login_body e u p ip w) as [[tok|err] w1]; [done|]. simpl in Hl, Hs.
  rewrite insert_middle. cbn [set_phase rq_env rq_user rq_password rq_ip].
  set (r := mkReq e u p ip (Done (Err err))).
  destruct (IH (l ++ [r])%list w1) as (w' & rs & Hw & Hlen & Hall).
  { unfold password_ok in *. by rewrite Hs. }
  rewrite length_app, Nat.add_1_r, <- !app_assoc in Hw.
  exists w', (r :: rs). split_and!; [exact Hw|by simpl; rewrite Hlen|].
  constructor; [|done]. exists err. split; [done|]. by intros ->.
Qed.

(** The limits hold for logins that follow one another, not for logins in
    flight together: any number of wrong guesses at one account, sent at once
    while the counters are below the limit, all pass the checks before any of
    them is recorded, and all reach the password verification. *)
Theorem concurrent_guesses_pass_the_limit n e u p ip w :
  is_ok (login_gate e u ip w).1 = true -> password_ok w u p = false ->
  let final := run_sched (seq 0 n ++ seq 0 n)%list (w, replicate n (mkReq e u p ip Waiting)) in
  length final.2 = n /\
  Forall (fun r => exists err, rq_phase r = Done (Err err) /\ err <> AccountLocked) final.2.
Proof.
  intros Hg Hp. simpl. rewrite run_sched_app.
  destruct (gates_all_pass e u p ip n [] w Hg) as (w1 & E1 & Hs). simpl in E1. rewrite E1.
  destruct (bodies_all_reached e u p ip n [] w1) as (w2 & rs & E2 & Hlen & Hall).
  { unfold password_ok in *. by rewrite Hs. }
  simpl in E2. by rewrite E2.
Qed.

End Lockout.
