(* ===== verification/AuthProps.v ===== *)
(** * What authentication guarantees its callers

    Soundness of token validation, the life of a login session, the effect of a
    password change, and API tokens.

    ** One name, one identity

    Users and API tokens share the name space of the audit trail and of the
    self-service methods, which act on the session's user name. The service's
    own operations keep the two apart; provisioning a user at an OIDC login
    does not. *)
From Stdlib Require Import String Ascii ZArith.
From stdpp Require Import base list gmap strings numbers.
From S2P Require Import Prelude RustStr Disk StateStore AuthTypes AuthStore AuthService AuthReach AuthLockout.

Open Scope string_scope.
Open Scope rust_scope.

Section Guarantees.
Context `{AuthPrims} `{!Codec AuthState} `{!RateCodec}.
Implicit Types (w : World) (e : Env).

(** ** Reachable worlds *)


(** C20: Memory and disk agree. In every reachable world, whatever I/O calls
    failed on the way, the state file is a regular file of mode 0600 owned by
    root whose content is the encoding of the state in memory. *)
Theorem state_file_matches_memory `{!CodecLaws AuthState} w :
  reachable w ->
  exists json, encode (state w) = Ok json /\
    disk w !! STATE_PATH = Some (mkFile Regular 384 0 json).
Proof. by intros (_ & Hd & _)%reachable_inv. Qed.

Lemma load_saved d json st :
  d !! STATE_PATH = Some (saved_file json) -> decode json = Ok st ->
  load_state_from no_faults STATE_PATH (Some 0%Z) d = (Ok (Some st), d).
Proof.
  intros Hd Hj. unfold load_state_from, open_nofollow, attempt, bind, check, gets.
  cbn [fault no_faults]. unfold ret. rewrite Hd. cbv -[decode]. by rewrite Hj.
Qed.

(** A restart recovers the exact state. From any reachable world, booting
    the service again without I/O faults passes the safety checks on the file
    and yields the same users, sessions and tokens. *)
Theorem restart_recovers_state `{!CodecLaws AuthState} e w :
  reachable w -> io e = no_faults ->
  exists rl d', service_new e (disk w) = (Ok (state w, rl), d').
Proof.
  intros (Hok & (json & Hj & Hd) & Hp)%reachable_inv Hio.
  unfold service_new, initialize_state, bind. rewrite Hio.
  rewrite (load_saved _ _ _ Hd (decode_encode _ _ Hj)).
  unfold throw_if. rewrite (ok_initialized _ Hok). cbn [negb]. unfold ret.
  unfold load_singleton_or_recover, bind, attempt.
  destruct (read_to_string _ _ _) as [[c|] d1]; [|by eexists _, _].
  destruct (decode c); [by eexists _, _|]. destruct (rename _ _ _ d1). by eexists _, _.
Qed.

(** ** Validation *)

Lemma validate_sound_lemma `{!AuthPrimsLaws} e token ip w s :
  (validate e token ip w).1 = Ok s ->
  (validate e token ip w).2 = w /\
  ((s ∈ sessions (state w) /\ s_token s = token /\
    (wrapping_sub (now e) (s_created_at s) <= SESSION_TTL_SECS)%Z /\
    (forall bound, s_client_ip s = Some bound -> bound = ip)) \/
   (exists t, t ∈ api_tokens (state w) /\ t_token t = hash_token token /\
    (forall x, t_expires_at t = Some x -> (now e < x)%Z) /\
    (t_allowed_ips t = [] \/ ip ∈ t_allowed_ips t) /\
    s = api_session token t)).
Proof.
  match goal with |- (validate e token ip w).1 = Ok s -> (validate e token ip w).2 = w /\ ?G =>
    enough (wp (validate e token ip) (fun r w' => r = Ok s -> w' = w /\ G) w) as E by exact E end.
  unfold validate. apply wp_bind, wp_gets. cbn beta iota.
  destruct (List.find _ (sessions (state w))) as [s'|] eqn:Hf.
  - apply find_Some_elem in Hf as [Hin Ht%ct_eq_str_spec].
    destruct (SESSION_TTL_SECS <? _)%Z eqn:Httl.
    { apply wp_bind, wp_gets, wp_bind, wp_attempt. unfold wp. done. }
    apply Z.ltb_ge in Httl. destruct (s_client_ip s') as [b|] eqn:Hb.
    + destruct (negb (b =s ip)) eqn:Hbi; [by apply wp_bind|]. str_eq.
      apply wp_ret. intros [= <-]. split; [done|]. left. split_and!; [done..|]. congruence.
    + apply wp_ret. intros [= <-]. split; [done|]. left. split_and!; [done..|]. congruence.
  - destruct (List.find _ (api_tokens (state w))) as [t|] eqn:Ht; [|done].
    apply find_Some_elem in Ht as [Hin Ht%ct_eq_str_spec].
    apply wp_bind, wp_throw_if; [done|]. intros Hx.
    assert (forall x, t_expires_at t = Some x -> (now e < x)%Z) as Hexp.
    { intros x E. rewrite E in Hx. by apply Z.leb_gt. }
    destruct (t_allowed_ips t) as [|i ips] eqn:Hips.
    + apply wp_ret. intros [= <-]. split; [done|]. right. exists t. split_and!; try done. by left.
    + destruct (negb (existsb (fun x => x =s ip) (i :: ips))) eqn:Hex; [by apply wp_bind|].
      apply wp_ret. intros [= <-]. split; [done|]. right. exists t. rewrite Hips.
      split_and!; try done. right. str_eq.
      apply existsb_elem in Hex as (x & Hxi & E%eqb_spec). by subst x.
Qed.

(** C3: Validation is sound. A session is handed out only for the token of a
    stored login session that is within its eight hours and used from the
    address it is bound to, or for the hash of an API token that has not
    expired and allows the address; the latter's scope is the token's. Handing
    it out changes nothing. *)
Theorem validate_sound `{!AuthPrimsLaws} e token ip w s :
  (validate e token ip w).1 = Ok s ->
  (validate e token ip w).2 = w /\
  ((s ∈ sessions (state w) /\ s_token s = token /\
    (wrapping_sub (now e) (s_created_at s) <= SESSION_TTL_SECS)%Z /\
    (forall bound, s_client_ip s = Some bound -> bound = ip)) \/
   (exists t, t ∈ api_tokens (state w) /\ t_token t = hash_token token /\
    (forall x, t_expires_at t = Some x -> (now e < x)%Z) /\
    (t_allowed_ips t = [] \/ ip ∈ t_allowed_ips t) /\
    s = api_session token t)).
Proof. apply validate_sound_lemma. Qed.

(** A session stamped later than the present clock: the unsigned difference
    wraps around to a huge age. *)
Lemma future_session_age t c :
  is_u64 t -> is_u64 c -> (t < c)%Z -> (c <= t + u64_modulus - SESSION_TTL_SECS - 1)%Z ->
  (SESSION_TTL_SECS < wrapping_sub t c)%Z.
Proof. intros. rewrite wrapping_sub_underflow by done. lia. Qed.

(** C40: A clock that moved backwards fails closed. When the session that a
    token names was stamped after the present time, by anything up to the full
    range of the clock less eight hours, validation answers [TokenExpired]; it
    does not treat the wrapped difference as a young session. *)
Theorem clock_skew_fails_closed e token ip w s :
  List.find (fun s => ct_eq_str (s_token s) token) (sessions (state w)) = Some s ->
  is_u64 (now e) -> is_u64 (s_created_at s) -> (now e < s_created_at s)%Z ->
  (s_created_at s <= now e + u64_modulus - SESSION_TTL_SECS - 1)%Z ->
  (validate e token ip w).1 = Err TokenExpired.
Proof.
  intros Hf Hn Hc Hlt Hle.
  enough (wp (validate e token ip) (fun r _ => r = Err TokenExpired) w) as E by exact E.
  unfold validate. apply wp_bind, wp_gets. cbn beta iota. rewrite Hf.
  rewrite (proj2 (Z.ltb_lt _ _) (future_session_age _ _ Hn Hc Hlt Hle)).
  apply wp_bind, wp_gets, wp_bind, wp_attempt. done.
Qed.

(** ** The life of a login session *)

Lemma commit_ok_state e next w :
  wp (commit_state e next) (fun r w' => r = Ok tt -> state w' = next) w.
Proof.
  destruct (commit_spec e next w) as (_ & _ & [[Hs _]|(_ & _ & Hne)]); unfold wp; [done|].
  intros E. by rewrite E in Hne.
Qed.

Abbreviation state_is st := (fun w : World => state w = st).

Lemma state_save_rate e rl st w : state_is st w -> keeps (state_is st) (save_rate_limit e rl) w.
Proof. intros <-. unfold keeps, wp, save_rate_limit. by destruct ((_ ;;; _) (disk w)). Qed.

Lemma state_clear e u st w : state_is st w -> keeps (state_is st) (clear_failed_attempts e u) w.
Proof.
  intros Hw. unfold clear_failed_attempts. apply keeps_gets. destruct (by_user _ !! u); [|done].
  apply keeps_bind; [done|]. intros _ w1 Hw1. apply keeps_bind; [|done].
  by apply keeps_attempt, state_save_rate.
Qed.

(** The session a password login opens for [user]. *)
Definition login_session (e : Env) (user : User) (ip : string) : Session :=
  mkSession (generate_token (token_bytes e)) (u_username user) (u_role user)
    (session_principal (u_role user) (u_file_principal user))
    None None (now e) (u_must_change_password user) (Some ip).

Lemma login_ok_spec e u p ip w :
  wp (login e u p ip)
    (fun r w' => forall tok, r = Ok tok ->
       exists user, find_user (users (state w)) u = Some user /\ password_ok w u p = true /\
         tok = generate_token (token_bytes e) /\
         state w' = with_sessions (prune_sessions (now e) (sessions (state w)) ++
                                   [login_session e user ip])%list (state w)) w.
Proof.
  unfold login. apply wp_bind.
  destruct (login_gate_cases e u ip w) as (_ & Hs & _ & _).
  unfold wp at 1. destruct (login_gate e u ip w) as [[[]|err] w1]; [|done]. simpl in Hs |- *.
  unfold password_ok. rewrite <- Hs. unfold login_body. apply wp_bind, wp_gets. cbn beta iota.
  assert (forall d err, wp (login_failed e u ip d err) (fun r (_ : World) => forall tok : string, r = Ok tok -> False) w1) as Hf.
  { intros d err. unfold wp. destruct (login_failed_spec e u ip d err w1) as [-> _]. done. }
  destruct (find_user (users (state w1)) u) as [user|];
    [|eapply wp_mono; [|apply Hf]; naive_solver].
  destruct (u_password_hash user) as [h|]; [|eapply wp_mono; [|apply Hf]; naive_solver].
  destruct (verify_password p h) as [|err]; [|eapply wp_mono; [|apply Hf]; naive_solver].
  apply wp_bind. eapply wp_mono; [|by apply (state_clear e u (state w1))].
  intros [[]|err] w2 Hw2; [|done]. apply wp_bind. eapply wp_mono; [|apply commit_ok_state].
  intros [[]|err] w3 Hw3; [|done]. apply wp_bind, wp_modify, wp_ret.
  intros tok [= <-]. exists user. split_and!; [done..|]. exact (Hw3 eq_refl).
Qed.

(** The life of a login session. A successful login presupposes the user's
    password; the token it returns, drawn afresh, validates to a session with
    the user's name, role and principal from the same address for eight hours
    and answers [TokenExpired] afterwards; from any other address it is
    refused. *)
Theorem login_session_lifecycle `{!AuthPrimsLaws} e u p ip w tok w' :
  login e u p ip w = (Ok tok, w') ->
  (forall s, s ∈ sessions (state w) -> s_token s <> tok) ->
  exists user, find_user (users (state w)) u = Some user /\ password_ok w u p = true /\
    forall e2 ip2, is_u64 (now e) -> is_u64 (now e2) -> (now e <= now e2)%Z ->
    (validate e2 tok ip2 w').1 =
      if (SESSION_TTL_SECS <? now e2 - now e)%Z then Err TokenExpired
      else if ip =s ip2 then Ok (login_session e user ip) else Err InvalidToken.
Proof.
  intros Hl Hfresh. pose proof (login_ok_spec e u p ip w) as Hspec.
  unfold wp in Hspec. rewrite Hl in Hspec.
  destruct (Hspec tok eq_refl) as (user & Hu & Hp & Htok & Hst). exists user.
  cbn [snd] in Hst. split_and!; [done..|]. intros e2 ip2 Hn Hn2 Hle.
  match goal with |- (validate _ _ _ _).1 = ?G =>
    enough (wp (validate e2 tok ip2) (fun r _ => r = G) w') as E by exact E end.
  unfold validate. apply wp_bind, wp_gets. cbn beta iota. rewrite Hst. simpl sessions.
  rewrite find_app.
  assert (List.find (fun s => ct_eq_str (s_token s) tok)
            (prune_sessions (now e) (sessions (state w))) = None) as ->.
  { apply find_none_iff. intros s [_ Hs]%elem_of_retain. apply ct_eq_str_neq. by apply Hfresh. }
  cbn [List.find]. cbn [login_session s_token s_created_at s_client_ip s_username].
  rewrite <- Htok. rewrite (proj2 (ct_eq_str_spec tok tok) eq_refl).
  cbn [s_created_at s_client_ip s_username login_session].
  rewrite wrapping_sub_small by done.
  destruct (SESSION_TTL_SECS <? now e2 - now e)%Z.
  { apply wp_bind, wp_gets, wp_bind, wp_attempt. done. }
  destruct (ip =s ip2); cbn [negb]; [|by apply wp_bind].
  apply wp_ret. unfold login_session. by rewrite <- Htok.
Qed.

(** ** Passwords *)

Lemma find_user_update us u hash user :
  find_user us u = Some user ->
  find_user (update_first (has_name u) (set_password hash) us) u = Some (set_password hash user) /\
  (forall v, v <> u -> find_user (update_first (has_name u) (set_password hash) us) v = find_user us v).
Proof.
  unfold find_user, has_name. induction us as [|x us IH]; simpl; [done|].
  destruct (u_username x =s u) eqn:E; simpl.
  - intros [= ->]. rewrite E. split; [done|]. intros v Hv. str_eq.
    by rewrite (proj2 (eqb_neq_spec _ _)) by congruence.
  - rewrite E. intros Hf. destruct (IH Hf) as [H1' H2']. split; [done|].
    intros v Hv. destruct (u_username x =s v); [done|]. by apply H2'.
Qed.

Lemma revoke_after_change `{!AuthPrimsLaws} target actor token ss x :
  (x ∈ revoke_sessions_after_password_change target actor token ss ->
   s_username x = target -> actor = target /\ s_token x = token) /\
  (x ∈ ss -> s_username x <> target -> s_token x <> token ->
   x ∈ revoke_sessions_after_password_change target actor token ss).
Proof.
  unfold revoke_sessions_after_password_change.
  set (kept := retain _ ss).
  assert (forall y, y ∈ kept -> s_username y = target -> actor = target /\ s_token y = token) as Hk.
  { intros y [Hy _]%elem_of_retain E%eqb_spec. rewrite E in Hy. simpl in Hy.
    apply andb_prop in Hy as [Ha%eqb_spec Ht%ct_eq_str_spec]. done. }
  assert (x ∈ ss -> s_username x <> target -> x ∈ kept) as Hin.
  { intros Hx Hne. apply elem_of_retain. split; [|done].
    by rewrite (proj2 (eqb_neq_spec _ _) Hne). }
  destruct (target =s actor); split; [| |auto..].
  - intros [Hx|(y & [Hy Hp]%find_Some_elem & ->)]%elem_of_update_first; [by apply Hk|].
    intros E. exact (Hk y Hy E).
  - intros Hx Hne Ht. specialize (Hin Hx Hne). clear Hk Hx. clearbody kept.
    induction kept as [|y l IH]; simpl; [done|].
    apply elem_of_cons in Hin as [->|Hin].
    + rewrite (proj2 (ct_eq_str_neq _ _) Ht). set_solver.
    + destruct (ct_eq_str (s_token y) token); set_solver.
Qed.

(** A password change does what it must: it needs an interactive session of
    an administrator or of the user, and eight bytes; afterwards the new
    password is the account's; every session of the account but the actor's own
    is gone; other users and their sessions are untouched. *)
Theorem change_password_effect `{!AuthPrimsLaws} e s u pw w w' :
  change_password e s u pw w = (Ok tt, w') ->
  is_some (s_client_ip s) = true /\ (s_role s = Admin \/ s_username s = u) /\
  8 <= String.length pw /\
  password_ok w' u pw = true /\
  (forall v, v <> u -> find_user (users (state w')) v = find_user (users (state w)) v) /\
  (forall x, x ∈ sessions (state w') -> s_username x = u -> s_username s = u /\ s_token x = s_token s) /\
  (forall x, x ∈ sessions (state w) -> s_username x <> u -> s_token x <> s_token s ->
             x ∈ sessions (state w')) /\
  api_tokens (state w') = api_tokens (state w).
Proof.
  intros Hc.
  match goal with |- ?G =>
    enough (wp (change_password e s u pw) (fun r w0 => r = Ok tt -> w0 = w' -> G) w) as E end.
  { unfold wp in E. rewrite Hc in E. by apply E. }
  unfold change_password. apply wp_bind, wp_throw_if; [done|]. intros Hip.
  apply wp_bind, wp_throw_if; [done|]. intros Hrole.
  apply wp_bind, wp_throw_if; [done|]. intros Hlen.
  apply wp_bind, wp_gets. cbn beta iota.
  destruct (find_user (users (state w)) u) as [user|] eqn:Hu; [|done].
  apply wp_bind, wp_lift. destruct (hash_password (salt_bytes e) pw) as [hash|] eqn:Hh; [|done].
  apply wp_bind. eapply wp_mono; [|apply commit_ok_state]. intros [[]|err] w1 Hw1; [|done].
  apply wp_modify. intros _ Hw'. specialize (Hw1 eq_refl).
  assert (state w' = state w1) as Hst by by rewrite <- Hw'. rewrite Hst, Hw1.
  cbn [users sessions api_tokens].
  destruct (find_user_update _ _ hash _ Hu) as [Hfu Hfo]. split_and!.
  - by str_eq.
  - apply andb_false_iff in Hrole as [Hr|Hr]; str_eq; [left; by apply role_eqb_spec|by right].
  - by apply Nat.ltb_ge.
  - unfold password_ok. rewrite Hst, Hw1. cbn [users]. rewrite Hfu. cbn [u_password_hash set_password].
    unfold hash_password in Hh. destruct (salt_encode_b64 _) as [salt|]; [|done].
    destruct (argon2_hash_password pw salt) eqn:Ha; simplify_eq/=.
    destruct (argon2_verifies _ _ _ Ha) as (ph & Hn & Hv).
    unfold verify_password. by rewrite Hn, Hv.
  - exact Hfo.
  - intros x Hx Hxu. destruct (proj1 (revoke_after_change u (s_username s) (s_token s) (sessions (state w)) x) Hx Hxu).
    done.
  - intros x. apply (revoke_after_change u (s_username s) (s_token s) (sessions (state w)) x).
  - done.
Qed.

(** ** API tokens *)

Lemma create_token_spec e s name role fs exp ips w :
  wp (create_api_token e s name role fs exp ips)
    (fun r w' => forall t, r = Ok t ->
       s_role s = Admin /\ role <> RUser /\
       (forall u, u ∈ users (state w) -> u_username u <> name) /\
       (forall t', t' ∈ api_tokens (state w) -> t_name t' <> name) /\
       t = mkApiToken (generate_id (id_bytes e)) name (generate_token (token_bytes e)) role (now e) fs
             (wrapping_add (now e) <$> exp) ips /\
       state w' = with_api_tokens (api_tokens (state w) ++
         [mkApiToken (t_id t) name (hash_token (t_token t)) role (now e) fs (t_expires_at t) ips])%list (state w)) w.
Proof.
  unfold create_api_token. apply wp_bind, wp_throw_if; [done|]. intros Hr.
  apply wp_bind, wp_throw_if; [done|]. intros Hu. apply wp_bind, wp_gets. cbn beta iota.
  apply wp_bind, wp_throw_if; [done|]. intros [Ht Hus]%orb_false_iff.
  rewrite existsb_none in Ht. rewrite existsb_none in Hus.
  cbn zeta. apply wp_bind. eapply wp_mono; [|apply commit_ok_state]. intros [[]|err] w1 Hw1; [|done].
  apply wp_bind, wp_modify, wp_ret. intros t [= <-]. str_eq. apply role_eqb_spec in Hr.
  apply role_eqb_neq in Hu. split_and!; try done.
  - intros u Hin. by apply eqb_neq_spec, Hus.
  - intros t Hin. by apply eqb_neq_spec, Ht.
  - exact (Hw1 eq_refl).
Qed.

(** An API token works as issued. Only an administrator can create one,
    never with the standard-user role and never under a name in use; the raw
    value is not stored, only its hash; and presented later, the raw value
    validates to a session with exactly the token's role and filesystem scope,
    refused after the expiry and from addresses outside the allowed list. *)
Theorem api_token_roundtrip `{!AuthPrimsLaws} e s name role fs exp ips w t w' :
  create_api_token e s name role fs exp ips w = (Ok t, w') ->
  (forall x, x ∈ sessions (state w) -> s_token x <> t_token t) ->
  (forall t', t' ∈ api_tokens (state w) -> t_token t' <> hash_token (t_token t)) ->
  s_role s = Admin /\ role <> RUser /\
  (forall u, u ∈ users (state w) -> u_username u <> name) /\
  (forall t', t' ∈ api_tokens (state w') -> t_token t' = hash_token (t_token t) -> t_name t' = name) /\
  forall e2 ip, (validate e2 (t_token t) ip w').1 =
    if match t_expires_at t with Some x => (x <=? now e2)%Z | None => false end then Err TokenExpired
    else if match ips with [] => true | _ => existsb (fun i => i =s ip) ips end
    then Ok (mkSession (t_token t) name role None fs (if role_eqb role Operator then Some name else None)
               (now e) false None)
    else Err InvalidToken.
Proof.
  intros Hc Hs Ht. pose proof (create_token_spec e s name role fs exp ips w) as Hspec.
  unfold wp in Hspec. rewrite Hc in Hspec. cbn [fst snd] in Hspec.
  destruct (Hspec t eq_refl) as (Hr & Hu & Hus & Hts & Et & Hst). split_and!; try done.
  { intros t'. rewrite Hst. cbn. intros [Hin|Hin%list_elem_of_singleton]%elem_of_app E; [|by subst t'].
    by destruct (Ht t' Hin). }
  intros e2 ip.
  match goal with |- (validate _ _ _ _).1 = ?G =>
    enough (wp (validate e2 (t_token t) ip) (fun r _ => r = G) w') as E by exact E end.
  unfold validate. apply wp_bind, wp_gets. cbn beta iota. rewrite Hst.
  cbn [sessions api_tokens with_api_tokens].
  rewrite (proj2 (find_none_iff _ _)) by (intros x Hx; apply ct_eq_str_neq; by apply Hs).
  rewrite find_app, (proj2 (find_none_iff _ _)) by (intros x Hx; apply ct_eq_str_neq; by apply Ht).
  cbn [List.find t_token]. rewrite (proj2 (ct_eq_str_spec _ _) eq_refl).
  cbn [t_expires_at t_allowed_ips].
  apply wp_bind, wp_throw_if; intros ->; [done|].
  destruct ips as [|i ips]; [done|].
  destruct (existsb (fun j => j =s ip) (i :: ips)); cbn [negb]; [done|by apply wp_bind].
Qed.

(** A token lifetime that overflows the clock fails closed: when the
    requested number of seconds takes the expiry past 2^64, the addition wraps
    and the token is already expired when it is created. *)
Theorem token_expiry_overflow_fails_closed e s name role fs x ips w t w' :
  create_api_token e s name role fs (Some x) ips w = (Ok t, w') ->
  is_u64 (now e) -> is_u64 x -> (u64_modulus <= now e + x)%Z ->
  exists expiry, t_expires_at t = Some expiry /\ (expiry < now e)%Z.
Proof.
  intros Hc Hn Hx Hov. pose proof (create_token_spec e s name role fs (Some x) ips w) as Hspec.
  unfold wp in Hspec. rewrite Hc in Hspec. destruct (Hspec t eq_refl) as (_ & _ & _ & _ & -> & _).
  eexists. split; [reflexivity|]. rewrite wrapping_add_overflow by done. unfold is_u64 in *. lia.
Qed.

(** A bearer token never acts as a person. A session validated from an API
    token cannot open the file portal, cannot change any password, and when it
    is an operator's or is scoped to a filesystem it cannot make unscoped
    mutations or root-equivalent calls. *)
Theorem api_sessions_are_confined `{!AuthPrimsLaws} `{!CodecLaws AuthState} e token ip w s :
  reachable w -> (validate e token ip w).1 = Ok s -> s_client_ip s = None ->
  authorize_session s PortalFiles <> Ok tt /\
  (forall e2 u pw w2, change_password e2 s u pw w2 = (Err Forbidden, w2)) /\
  (s_role s = Operator \/ is_some (s_filesystem s) = true ->
   authorize_session s UnscopedMutation <> Ok tt /\ authorize_session s RootEquivalent <> Ok tt).
Proof.
  intros Hw Hv Hip. destruct (validate_sound_lemma e token ip w s Hv) as [_ [(Hs & _)|(t & _ & _ & _ & _ & ->)]].
  - destruct (proj1 (reachable_inv w Hw)) as [_ _ _ Hss _ _]. rewrite list.Forall_forall in Hss.
    destruct (Hss s Hs) as (_ & _ & _ & Hsome). by rewrite Hip in Hsome.
  - split_and!.
    + rewrite authorize_session_ok. intros (_ & _ & _ & Hp). by destruct (Hp eq_refl).
    + done.
    + intros Hsc.
      assert (s_filesystem (api_session token t) = None /\ s_owner (api_session token t) = None -> False) as Hno.
      { simpl in *. intros [Hf Ho]. destruct Hsc as [Hr|Hsc]; [by rewrite Hr in Ho|by rewrite Hf in Hsc]. }
      split; rewrite authorize_session_ok; intros (_ & _ & Hp & _); apply Hno, Hp; auto.
Qed.

End Guarantees.

Section Names.
Context `{AuthPrims} `{!Codec AuthState} `{!RateCodec}.
Implicit Types (w : World) (e : Env) (st : AuthState).

(** No user has the name of an API token. *)
Definition names_apart st : Prop :=
  forall x, x ∈ u_username <$> users st -> x ∈ t_name <$> api_tokens st -> False.

Lemma names_apart_shrink st st' :
  names_apart st ->
  (forall x, x ∈ u_username <$> users st' -> x ∈ u_username <$> users st) ->
  (forall x, x ∈ t_name <$> api_tokens st' -> x ∈ t_name <$> api_tokens st) ->
  names_apart st'.
Proof. intros Ha Hu Ht x Hx Hx'. apply (Ha x); auto. Qed.

Lemma same_user_names f g (us : list User) x :
  (forall u, u_username (g u) = u_username u) ->
  x ∈ u_username <$> update_first f g us -> x ∈ u_username <$> us.
Proof. intros Hg. by rewrite (map_update_first u_username). Qed.

Lemma retain_names {A} (f : A -> bool) (p : A -> string) l x :
  x ∈ p <$> retain f l -> x ∈ p <$> l.
Proof.
  intros (a & -> & [_ Ha]%elem_of_retain)%list_elem_of_fmap. apply list_elem_of_fmap. eauto.
Qed.

Abbreviation apart_ok := (keeps (Inv names_apart)).

Ltac apart_go :=
  keeps_go; repeat (apply safe_commit; [assumption|]);
  match goal with
  | Hi : Inv names_apart ?w |- names_apart ?next =>
      apply (names_apart_shrink (state w)); [apply Hi| |]; cbn; intros x; 
      try (by apply retain_names); try (by apply same_user_names); done
  end.

Lemma apart_users w :
  Inv names_apart w ->
  (forall e u p ip, apart_ok (login e u p ip) w) /\
  (forall e t ip, apart_ok (validate e t ip) w) /\
  (forall e t, apart_ok (logout e t) w) /\
  (forall e s u p, apart_ok (change_password e s u p) w) /\
  (forall e s u, apart_ok (delete_user e s u) w) /\
  (forall e u c, apart_ok (add_webauthn_credential e u c) w) /\
  (forall e u c, apart_ok (remove_webauthn_credential e u c) w) /\
  (forall e s u, apart_ok (reset_webauthn_credentials e s u) w) /\
  (forall e u r, apart_ok (update_webauthn_sign_count e u r) w) /\
  (forall e u ip, apart_ok (mint_session_for_webauthn e u ip) w) /\
  (forall e s t, apart_ok (delete_api_token e s t) w).
Proof.
  intros HI. split_and!; intros.
  - unfold login, login_gate, login_body, login_failed. apart_go.
  - unfold validate. keeps_go. apply keeps_attempt. apart_go.
  - unfold logout. apart_go.
  - unfold change_password. apart_go.
  - unfold delete_user. apart_go.
  - unfold add_webauthn_credential. apart_go.
  - unfold remove_webauthn_credential. apart_go.
  - unfold reset_webauthn_credentials. apart_go.
  - unfold update_webauthn_sign_count. apart_go.
  - unfold mint_session_for_webauthn, webauthn_gate. apart_go.
  - unfold delete_api_token. apart_go.
Qed.

Lemma apart_require_admin e t ip w : Inv names_apart w -> apart_ok (require_admin e t ip) w.
Proof. intros HI. unfold require_admin. apply keeps_bind; [by apply apart_users|]. intros. keeps_go. Qed.

(** The two operations that add a name check both lists. *)
Lemma name_free st name :
  existsb (fun u => u_username u =s name) (users st) = false ->
  existsb (fun t => t_name t =s name) (api_tokens st) = false ->
  (name ∉ (u_username <$> users st)) /\ (name ∉ (t_name <$> api_tokens st)).
Proof.
  intros Hu Ht. rewrite existsb_none in Hu. rewrite existsb_none in Ht.
  split; intros (y & -> & Hy)%list_elem_of_fmap.
  - specialize (Hu y Hy). by rewrite eqb_refl in Hu.
  - specialize (Ht y Hy). by rewrite eqb_refl in Ht.
Qed.

Lemma apart_create_user e a s u p r f w : Inv names_apart w -> apart_ok (create_user e a s u p r f) w.
Proof.
  intros HI. unfold create_user. keeps_go; apply safe_commit; try assumption;
    match goal with Hi : Inv names_apart ?w', Ho : _ || _ = false |- _ =>
      pose proof (proj1 Hi) as Hap;
      apply orb_false_iff in Ho as [Hfu Hft]; destruct (name_free (state w') _ Hfu Hft) as [Nu Nt];
      intros x; cbn; rewrite fmap_app; intros [Hx|Hx]%elem_of_app Hx'; [by apply (Hap x)|set_solver] end.
Qed.

Lemma apart_create_token e s n r f x ips w : Inv names_apart w -> apart_ok (create_api_token e s n r f x ips) w.
Proof.
  intros HI. unfold create_api_token. keeps_go. apply safe_commit; [assumption|].
  match goal with Ho : _ || _ = false |- _ => apply orb_false_iff in Ho as [Hft Hfu] end.
  destruct (name_free (state w) n Hfu Hft) as [Nu Nt].
  intros y Hy. cbn. rewrite fmap_app. intros [Hx|Hx]%elem_of_app; [by apply (proj1 HI y)|set_solver].
Qed.

Definition is_oidc (op : AuthOp) : bool :=
  match op with OOidc _ _ _ _ => true | _ => false end.

(** The service's own operations keep users and API tokens apart: in a
    world where no user has the name of a token, no operation other than an
    OIDC login makes such a user or such a token, whatever fails on the way. *)
Theorem names_stay_apart `{!CodecLaws AuthState} e op w :
  reachable w -> names_apart (state w) -> is_oidc op = false ->
  names_apart (state (exec e op w).2).
Proof.
  intros (_ & Hdur & Hplain)%reachable_inv Ha Hop.
  assert (Inv names_apart w) as HI by done.
  enough (Inv names_apart (exec e op w).2) as [E _] by exact E.
  destruct op; try discriminate; simpl; try (by apply apart_users).
  - by apply apart_require_admin.
  - by apply apart_create_token.
  - by apply apart_create_user.
  - by apply safe_record_failed.
Qed.

Lemma pick_username_base us identity :
  username_taken us (pick_base identity) = false -> pick_username us identity = pick_base identity.
Proof. unfold pick_username. by intros ->. Qed.

(** The state after a user was provisioned. *)
Lemma oidc_provision_spec e identity role ip w :
  list_find (fun u => oidc_matches identity u = true) (users (state w)) = None ->
  wp (login_or_provision_oidc e identity (Some role) true ip)
    (fun r w' => is_ok r = true ->
       users (state w') = (users (state w) ++ [provision_user (users (state w)) identity role])%list /\
       api_tokens (state w') = api_tokens (state w)) w.
Proof.
  intros Hnone. unfold login_or_provision_oidc. apply wp_bind, wp_gets. cbn beta iota. rewrite Hnone.
  cbn zeta. destruct (role_eqb role RUser && negb false); [by apply wp_bind|]. cbn [negb].
  unfold oidc_finish. cbn zeta. cbn [provision_user u_role u_username u_file_principal].
  rewrite (proj2 (role_eqb_spec role role) eq_refl). cbn [negb].
  apply wp_bind. eapply wp_mono; [|apply commit_ok_state]. intros [[]|err] w1 Hw1; [|done].
  apply wp_bind, wp_bind. unfold wp. cbn. intros _. by rewrite (Hw1 eq_refl).
Qed.

(** Provisioning does not keep them apart. When an identity's preferred name
    is that of an API token and no user has it yet, the OIDC login creates the
    user under the token's name while the token stays valid: the token's
    sessions now carry the user's name, and the user has the second factor that
    registering a security key in that name asks for. *)
Theorem oidc_provisioning_ignores_token_names e identity role ip w tok w' t :
  login_or_provision_oidc e identity (Some role) true ip w = (Ok tok, w') ->
  list_find (fun u => oidc_matches identity u = true) (users (state w)) = None ->
  t ∈ api_tokens (state w) -> t_name t = pick_base identity ->
  username_taken (users (state w)) (t_name t) = false ->
  ~ names_apart (state w') /\
  exists u, u ∈ users (state w') /\ u_role u = role /\ t ∈ api_tokens (state w') /\
    (forall raw, s_username (api_session raw t) = u_username u) /\
    (has_non_webauthn_factor (t_name t) w').1 = Ok true.
Proof.
  intros Hl Hnone Ht Hname Hfree. pose proof (oidc_provision_spec e identity role ip w Hnone) as Hs.
  unfold wp in Hs. rewrite Hl in Hs. destruct (Hs eq_refl) as [Hu Ha]. clear Hs. cbn [snd] in *.
  rewrite Hname in Hfree. set (u := provision_user (users (state w)) identity role) in *.
  assert (u_username u = t_name t) as Hun.
  { rewrite Hname. by apply pick_username_base. }
  assert (u ∈ users (state w')) as Hin by (rewrite Hu; set_solver).
  assert (t ∈ api_tokens (state w')) as Hin' by by rewrite Ha.
  split.
  { intros Hap. apply (Hap (t_name t)); apply list_elem_of_fmap; eauto. }
  exists u. split_and!; [done..|]. unfold has_non_webauthn_factor, bind, gets, ret. cbn -[find_user].
  rewrite Hu. unfold find_user. rewrite find_app.
  assert (List.find (fun v => u_username v =s t_name t) (users (state w)) = None) as ->.
  { apply find_none_iff. intros v Hv. apply eqb_neq_spec. intros E.
    apply username_taken_false in Hfree. apply Hfree. rewrite <- Hname, <- E.
    apply list_elem_of_fmap. eauto. }
  cbn [List.find]. by rewrite Hun, eqb_refl.
Qed.

End Names.
