(* ===== verification/AuthWitness.v ===== *)
(** * The authentication theorems at work

    An instance of the interfaces of the authentication model (toy
    cryptography, and a codec built from stdpp's [Countable]) with its laws, a
    first boot and a few operations on it, and each guarantee applied there. *)
From Stdlib Require Import String Ascii ZArith.
From stdpp Require Import base list gmap strings numbers countable.
From S2P Require Import Prelude RustStr Disk StateStore AuthTypes AuthStore AuthService AuthReach AuthLockout AuthProps.

Open Scope string_scope.
Open Scope nat_scope.
Open Scope rust_scope.

(** ** The instance *)

#[export] Instance toy_prims : AuthPrims := {|
  Passkey := string;
  cred_id := fun pk => pk;
  AuthenticationResult := string;
  ar_cred_id := fun r => r;
  update_credential := fun _ pk => pk;
  salt_encode_b64 := fun s => Ok s;
  argon2_hash_password := fun pw salt => Ok (String.append pw salt);
  PasswordHash := string;
  PasswordHash_new := fun h => Ok h;
  argon2_verify_password := fun pw h => String.prefix pw h;
  sha256 := fun s => String.append "h" s;
  b64_url_no_pad := fun s => s;
  ct_eq := String.eqb
|}.

#[export] Instance toy_laws : AuthPrimsLaws.
Proof.
  split.
  - intros a b _. apply eqb_spec.
  - intros pw salt h [= <-]. exists (String.append pw salt). split; [done|].
    cbn. induction pw as [|c pw IH]; simpl; [by destruct salt|].
    by destruct (ascii_dec c c).
  - done.
Qed.

(** A positive in binary. *)
Fixpoint pos_print (p : positive) : string :=
  match p with
  | xH => ""
  | xO q => String "0" (pos_print q)
  | xI q => String "1" (pos_print q)
  end.

Fixpoint pos_parse (s : string) : positive :=
  match s with
  | "" => xH
  | String c s' => if Ascii.eqb c "0" then xO (pos_parse s') else xI (pos_parse s')
  end.

Lemma pos_parse_print p : pos_parse (pos_print p) = p.
Proof. induction p as [p IH|p IH|]; simpl; [by rewrite IH..|done]. Qed.

Definition count_codec (T : Type) `{Countable T} : Codec T := {|
  encode x := Ok (pos_print (countable.encode x));
  decode s := match countable.decode (pos_parse s) with
              | Some x => Ok x
              | None => Err "unexpected end of input"
              end
|}.

Lemma count_codec_laws (T : Type) `{Countable T} : @CodecLaws T (count_codec T).
Proof. intros x s [= <-]. cbn. by rewrite pos_parse_print, countable.decode_encode. Qed.

Definition role_nat (r : Role) : nat :=
  match r with Admin => 0 | ReadOnly => 1 | Operator => 2 | RUser => 3 end.
Definition nat_role (n : nat) : Role :=
  match n with 0 => Admin | 1 => ReadOnly | 2 => Operator | _ => RUser end.

#[export] Instance Role_countable : Countable Role.
Proof. apply (inj_countable' role_nat nat_role). by intros []. Defined.

#[export] Instance cred_eq_dec : EqDecision WebauthnCredential.
Proof. intros [l t p] [l' t' p']. simpl in *. solve_decision. Defined.
#[export] Instance cred_countable : Countable WebauthnCredential.
Proof.
  apply (inj_countable' (fun c : @WebauthnCredential toy_prims => (wc_label c, wc_created_at c, (wc_passkey c : string)))
           (fun x => @mkCredential toy_prims x.1.1 x.1.2 x.2)). by intros [].
Defined.

#[export] Instance user_eq_dec : EqDecision User.
Proof. solve_decision. Defined.
#[export] Instance user_countable : Countable User.
Proof.
  apply (inj_countable' (fun u => ((u_role u, u_must_change_password u, u_file_principal u, u_oidc_subject u),
             (u_oidc_issuer u, u_webauthn_credentials u), (u_username u, u_password_hash u)))
           (fun x => mkUser x.2.1 x.2.2 x.1.1.1.1.1 x.1.1.1.2 x.1.1.1.1.2 x.1.1.2 x.1.2.1 x.1.2.2)).
  by intros [].
Defined.

#[export] Instance session_eq_dec : EqDecision Session.
Proof. solve_decision. Defined.
#[export] Instance session_countable : Countable Session.
Proof.
  apply (inj_countable' (fun s => ((s_role s, s_must_change_password s, s_file_principal s, s_filesystem s),
             (s_owner s, s_created_at s), (s_token s, s_username s, s_client_ip s)))
           (fun x => mkSession x.2.1.1 x.2.1.2 x.1.1.1.1.1 x.1.1.1.2 x.1.1.2 x.1.2.1 x.1.2.2 x.1.1.1.1.2 x.2.2)).
  by intros [].
Defined.

#[export] Instance token_eq_dec : EqDecision ApiToken.
Proof. solve_decision. Defined.
#[export] Instance token_countable : Countable ApiToken.
Proof.
  apply (inj_countable' (fun t => ((t_role t, t_created_at t, t_filesystem t, t_expires_at t),
             (t_allowed_ips t, t_id t), (t_token t, t_name t)))
           (fun x => mkApiToken x.1.2.2 x.2.2 x.2.1 x.1.1.1.1.1 x.1.1.1.1.2 x.1.1.1.2 x.1.1.2 x.1.2.1)).
  by intros [].
Defined.

#[export] Instance state_eq_dec : EqDecision AuthState.
Proof. solve_decision. Defined.
#[export] Instance state_countable : Countable AuthState.
Proof.
  apply (inj_countable' (fun s => (users s, sessions s, (api_tokens s, initialized s)))
           (fun x => mkAuthState x.1.1 x.1.2 x.2.1 x.2.2)). by intros [].
Defined.

#[export] Instance toy_codec : Codec AuthState := count_codec AuthState.
#[export] Instance toy_codec_laws : CodecLaws AuthState.
Proof. apply count_codec_laws. Qed.

#[export] Instance toy_rate_codec : RateCodec := {|
  rl_print := fun _ => "{}";
  rl_parse := fun _ => Ok rate_limit_default
|}.

(** ** A run *)

Definition env (t : Z) (tok : string) : Env := mkEnv t "s" tok "i" "u" no_faults.

Definition boot : result (AuthState * RateLimitState) AuthError * Disk := service_new (env 1000 "b") ∅.

(** The world after the first boot. *)
Definition w0 : World :=
  match boot.1 with
  | Ok (st, rl) => mkWorld st rl [] boot.2
  | Err _ => mkWorld (mkAuthState [] [] [] false) rate_limit_default [] ∅
  end.

Lemma boot_ok : exists hash, boot.1 = Ok (mkAuthState [default_admin hash] [] [] true, rate_limit_default).
Proof. eexists. vm_compute. reflexivity. Qed.

Lemma w0_reachable : reachable w0.
Proof.
  unfold w0. destruct boot_ok as [hash Hb]. rewrite Hb.
  apply (reach_first_boot (env 1000 "b") ∅); [done..|].
  by rewrite (surjective_pairing (service_new _ _)), <- Hb.
Qed.

(** The administrator logs in. *)
Definition w1 : World := (login (env 2000 "t") "admin" "admin" "10.0.0.1" w0).2.

Lemma w1_reachable : reachable w1.
Proof. exact (reach_step (env 2000 "t") (OLogin "admin" "admin" "10.0.0.1") w0 w0_reachable). Qed.

(** A run is its result and its world. *)
Lemma run_split {A B} (p : A * B) a : p.1 = a -> p = (a, p.2).
Proof. intros <-. apply surjective_pairing. Qed.

Definition sess : Session :=
  mkSession (generate_token "t") "admin" Admin None None None 2000 true (Some "10.0.0.1").

Lemma w1_sessions : sessions (state w1) = [sess].
Proof. vm_compute. reflexivity. Qed.

(** ** Lockout *)

(** Seven guesses at the account of bob, of which five get through. *)
Definition guesses : list (Env * AuthOp) :=
  replicate 7 (env 3000 "x", OLogin "bob" "hunter2" "10.9.9.9").

Lemma user_guesses_bounded_witness :
  all_along (user_attack 3000 "bob") guesses w1 /\ count_along (user_guess "bob") guesses w1 = 5 /\
  count_along (user_guess "bob") guesses w1 <= MAX_FAILED_ATTEMPTS.
Proof.
  assert (all_along (user_attack 3000 "bob") guesses w1) as Hall.
  { unfold guesses. cbn [replicate all_along].
    split_and!; try done; cbn; try lia; intros; vm_compute; reflexivity. }
  split_and!; [exact Hall|vm_compute; reflexivity|].
  apply (user_guesses_bounded 3000 "bob" guesses w1). exact Hall.
Defined.

Definition spray : list (Env * AuthOp) :=
  (fun n => (env 3000 "x", OLogin (fmt_nat n) "hunter2" "10.9.9.9")) <$> seq 0 23.

Lemma ip_guesses_bounded_witness :
  all_along (in_hour 3000) spray w1 /\ count_along (ip_guess "10.9.9.9") spray w1 = 20 /\
  count_along (ip_guess "10.9.9.9") spray w1 <= MAX_IP_FAILED_ATTEMPTS.
Proof.
  assert (all_along (in_hour 3000) spray w1) as Hall.
  { unfold spray. cbn [seq fmap list_fmap all_along]. split_and!; done. }
  split_and!; [exact Hall|vm_compute; reflexivity|].
  apply (ip_guesses_bounded 3000 "10.9.9.9" spray w1); [done|exact Hall].
Defined.

(** Six failures are on record for the only administrator. *)
Definition w_failed : World :=
  set_rate_limit (mkRateLimit {["admin" := replicate 6 2900%Z]} ∅) w1.

Lemma only_admin_never_locked_out_witness :
  MAX_FAILED_ATTEMPTS <= user_failures (rate_limit w_failed) "admin" 3000 /\
  is_locked (login (env 3000 "x") "admin" "wrong" "10.0.0.7" w_failed).1 = false.
Proof.
  split; [vm_compute; lia|].
  apply only_admin_never_locked_out; [vm_compute; reflexivity|right; vm_compute; lia].
Defined.

Lemma concurrent_guesses_pass_the_limit_witness :
  let final := run_sched (seq 0 9 ++ seq 0 9)%list
                 (w1, replicate 9 (mkReq (env 3000 "x") "bob" "hunter2" "10.9.9.9" Waiting)) in
  length final.2 = 9 /\
  Forall (fun r => exists err, rq_phase r = Done (Err err) /\ err <> AccountLocked) final.2.
Proof. apply concurrent_guesses_pass_the_limit; vm_compute; reflexivity. Defined.

(** ** Reachable worlds *)


Lemma state_file_matches_memory_witness :
  exists json, encode (state w1) = Ok json /\ disk w1 !! STATE_PATH = Some (mkFile Regular 384 0 json).
Proof. exact (state_file_matches_memory w1 w1_reachable). Defined.

Lemma restart_recovers_state_witness :
  exists rl d', service_new (env 4000 "r") (disk w1) = (Ok (state w1, rl), d').
Proof. exact (restart_recovers_state (env 4000 "r") w1 w1_reachable eq_refl). Defined.

(** ** Tokens and passwords *)

Lemma validate_sound_witness :
  (validate (env 2500 "x") (generate_token "t") "10.0.0.1" w1).1 = Ok sess /\
  (validate (env 2500 "x") (generate_token "t") "10.0.0.1" w1).2 = w1.
Proof.
  assert ((validate (env 2500 "x") (generate_token "t") "10.0.0.1" w1).1 = Ok sess) as Hv
    by (vm_compute; reflexivity).
  split; [exact Hv|]. exact (proj1 (validate_sound _ _ _ _ _ Hv)).
Defined.

Lemma clock_skew_fails_closed_witness :
  (validate (env 1999 "x") (generate_token "t") "10.0.0.1" w1).1 = Err TokenExpired.
Proof.
  apply (clock_skew_fails_closed _ _ _ _ sess); [vm_compute; reflexivity|..]; unfold is_u64; vm_compute;
    intuition congruence.
Defined.

Lemma login_session_lifecycle_witness :
  (forall s, s ∈ sessions (state w0) -> s_token s <> generate_token "t") /\
  (validate (env 3000 "x") (generate_token "t") "10.0.0.1" w1).1 = Ok sess.
Proof.
  assert (forall s, s ∈ sessions (state w0) -> s_token s <> generate_token "t") as Hf.
  { intros s Hs. exfalso. revert Hs.
    replace (sessions (state w0)) with (@nil Session) by (vm_compute; reflexivity). apply not_elem_of_nil. }
  split; [exact Hf|].
  assert (login (env 2000 "t") "admin" "admin" "10.0.0.1" w0 = (Ok (generate_token "t"), w1)) as Hl.
  { apply run_split. vm_compute. reflexivity. }
  destruct (login_session_lifecycle _ _ _ _ _ _ _ Hl Hf) as (user & Hu & _ & Hval).
  rewrite Hval by (unfold is_u64; vm_compute; intuition congruence).
  assert (find_user (users (state w0)) "admin" =
          Some (mkUser "admin" (Some "admins") Admin None true None None [])) as Hu' by (vm_compute; reflexivity).
  rewrite Hu' in Hu. injection Hu as <-. vm_compute. reflexivity.
Defined.

Definition w_changed : World := (change_password (env 3000 "x") sess "admin" "correct horse" w1).2.

Lemma change_password_effect_witness :
  (change_password (env 3000 "x") sess "admin" "correct horse" w1).1 = Ok tt /\
  password_ok w_changed "admin" "correct horse" = true.
Proof.
  assert ((change_password (env 3000 "x") sess "admin" "correct horse" w1).1 = Ok tt) as Hr
    by (vm_compute; reflexivity).
  split; [exact Hr|].
  exact (proj1 (proj2 (proj2 (proj2 (change_password_effect _ _ _ _ _ _ (run_split _ _ Hr)))))).
Defined.

Definition ci_token : ApiToken :=
  mkApiToken (generate_id "i") "ci" (generate_token "k") Operator 3000 (Some "tank") (Some 3600%Z) ["10.0.0.5"].
Definition w_token : World :=
  (create_api_token (env 3000 "k") sess "ci" Operator (Some "tank") (Some 600%Z) ["10.0.0.5"] w1).2.

Lemma ci_created :
  create_api_token (env 3000 "k") sess "ci" Operator (Some "tank") (Some 600%Z) ["10.0.0.5"] w1
  = (Ok ci_token, w_token).
Proof. apply run_split. vm_compute. reflexivity. Qed.

Lemma w_token_reachable : reachable w_token.
Proof.
  exact (reach_step (env 3000 "k")
    (OCreateToken sess "ci" Operator (Some "tank") (Some 600%Z) ["10.0.0.5"]) w1 w1_reachable).
Qed.

Lemma api_token_roundtrip_witness :
  (validate (env 3599 "x") (generate_token "k") "10.0.0.5" w_token).1 =
    Ok (mkSession (generate_token "k") "ci" Operator None (Some "tank") (Some "ci") 3000 false None) /\
  (validate (env 3600 "x") (generate_token "k") "10.0.0.5" w_token).1 = Err TokenExpired /\
  (validate (env 3599 "x") (generate_token "k") "10.0.0.6" w_token).1 = Err InvalidToken.
Proof.
  assert (forall x, x ∈ sessions (state w1) -> s_token x <> t_token ci_token) as Hs.
  { rewrite w1_sessions. intros x ->%list_elem_of_singleton. vm_compute. congruence. }
  assert (forall t', t' ∈ api_tokens (state w1) -> t_token t' <> hash_token (t_token ci_token)) as Ht.
  { replace (api_tokens (state w1)) with (@nil ApiToken) by (vm_compute; reflexivity).
    intros t' []%not_elem_of_nil. }
  destruct (api_token_roundtrip _ _ _ _ _ _ _ _ _ _ ci_created Hs Ht) as (_ & _ & _ & _ & Hv).
  cbn [ci_token t_token] in Hv. rewrite !Hv. split_and!; reflexivity.
Defined.

Lemma token_expiry_overflow_fails_closed_witness :
  exists t expiry,
    (create_api_token (env 3000 "k") sess "ci" Operator None (Some (2^64 - 1)%Z) [] w1).1 = Ok t /\
    t_expires_at t = Some expiry /\ (expiry < 3000)%Z.
Proof.
  set (t := mkApiToken (generate_id "i") "ci" (generate_token "k") Operator 3000 None (Some 2999%Z) []).
  assert ((create_api_token (env 3000 "k") sess "ci" Operator None (Some (2^64 - 1)%Z) [] w1).1 = Ok t) as Hr
    by (vm_compute; reflexivity).
  exists t.
  destruct (token_expiry_overflow_fails_closed _ _ _ _ _ _ _ _ _ _ (run_split _ _ Hr)) as (x & Hx & Hlt);
    [unfold is_u64; vm_compute; intuition congruence..|].
  exists x. exact (conj Hr (conj Hx Hlt)).
Defined.

Lemma api_sessions_are_confined_witness :
  (validate (env 3100 "x") (generate_token "k") "10.0.0.5" w_token).1 = Ok (api_session (generate_token "k") ci_token) /\
  authorize_session (api_session (generate_token "k") ci_token) UnscopedMutation <> Ok tt.
Proof.
  assert ((validate (env 3100 "x") (generate_token "k") "10.0.0.5" w_token).1
          = Ok (api_session (generate_token "k") ci_token)) as Hv by (vm_compute; reflexivity).
  split; [exact Hv|].
  destruct (api_sessions_are_confined _ _ _ _ _ w_token_reachable Hv eq_refl) as (_ & _ & Hc).
  exact (proj1 (Hc (or_introl eq_refl))).
Defined.

(** ** Names *)

Lemma names_stay_apart_witness :
  names_apart (state (exec (env 4000 "y") (OCreateUser (fun _ => Ok tt) sess "ci" "long enough" Operator None)
                        w_token).2).
Proof.
  apply (names_stay_apart _ _ w_token w_token_reachable); [|reflexivity].
  intros x. replace (u_username <$> users (state w_token)) with ["admin"] by (vm_compute; reflexivity).
  replace (t_name <$> api_tokens (state w_token)) with ["ci"] by (vm_compute; reflexivity).
  intros ->%list_elem_of_singleton E%list_elem_of_singleton. discriminate.
Defined.

(** The identity provider knows somebody by the name of the token. *)
Definition ci_identity : OidcIdentity := mkOidcIdentity "https://idp" "4711" None (Some "ci") [].
Definition stored_ci : ApiToken :=
  mkApiToken (generate_id "i") "ci" (hash_token (generate_token "k")) Operator 3000 (Some "tank")
    (Some 3600%Z) ["10.0.0.5"].

Lemma oidc_provisioning_ignores_token_names_witness :
  (login_or_provision_oidc (env 3100 "o") ci_identity (Some Admin) true "10.0.0.9" w_token).1
    = Ok (generate_token "o") /\
  exists u, u_role u = Admin /\ s_username (api_session (generate_token "k") stored_ci) = u_username u.
Proof.
  assert ((login_or_provision_oidc (env 3100 "o") ci_identity (Some Admin) true "10.0.0.9" w_token).1
    = Ok (generate_token "o")) as Hl by (vm_compute; reflexivity).
  split; [exact Hl|].
  destruct (oidc_provisioning_ignores_token_names _ _ _ _ _ _ _ stored_ci (run_split _ _ Hl))
    as (_ & u & _ & Hr & _ & Hn & _).
  - vm_compute. reflexivity.
  - replace (api_tokens (state w_token)) with [stored_ci] by (vm_compute; reflexivity). by apply list_elem_of_singleton.
  - vm_compute. reflexivity.
  - vm_compute. reflexivity.
  - exists u. exact (conj Hr (Hn _)).
Defined.
