(* ===== verification/JsonRpc.v ===== *)
(** * JSON-RPC messages: engine/nasty-common/src/jsonrpc.rs

    JSON values as [serde_json::Value] has them, requests, responses and error
    codes. *)
From Stdlib Require Import String Ascii ZArith.
From stdpp Require Import base list gmap strings numbers.
From S2P Require Import Prelude RustStr.

Open Scope string_scope.
Open Scope rust_scope.

(** [serde_json::Value]. A number that is not an integer keeps its text. *)
Inductive Json :=
| JNull
| JBool (b : bool)
| JInt (n : Z)
| JFloat (text : string)
| JString (s : string)
| JArray (l : list Json)
| JObject (fields : list (string * Json)).

(** [Value::get] with a string key: a field of an object. *)
Definition json_get (v : Json) (key : string) : option Json :=
  match v with
  | JObject fields => snd <$> List.find (fun f => f.1 =s key) fields
  | _ => None
  end.

Definition as_str (v : Json) : option string :=
  match v with JString s => Some s | _ => None end.

Definition json_opt_str (o : option string) : Json :=
  match o with Some s => JString s | None => JNull end.

Record Request := mkRequest {
  rq_jsonrpc : string;
  rq_method : string;
  rq_params : option Json;
  rq_id : Json
}.

Record RpcError := mkRpcError {
  er_code : Z;
  er_message : string;
  er_data : option Json
}.

Record Response := mkResponse {
  rs_jsonrpc : string;
  rs_result : option Json;
  rs_error : option RpcError;
  rs_id : Json
}.

Inductive ErrorCode := ParseError | InvalidRequest | MethodNotFound | InvalidParams | InternalError.

(** [code as i64]. *)
Definition error_code (c : ErrorCode) : Z :=
  match c with
  | ParseError => -32700
  | InvalidRequest => -32600
  | MethodNotFound => -32601
  | InvalidParams => -32602
  | InternalError => -32603
  end.

(** [Response::success]. *)
Definition response_success (id result : Json) : Response :=
  mkResponse "2.0" (Some result) None id.

(** [Response::error]. *)
Definition response_error (id : Json) (code : ErrorCode) (message : string) : Response :=
  mkResponse "2.0" None (Some (mkRpcError (error_code code) message None)) id.

(** A response answers [id] with exactly one of a result and an error. *)
Definition answers (id : Json) (r : Response) : Prop :=
  rs_id r = id /\ is_some (rs_result r) = negb (is_some (rs_error r)).

Lemma success_answers id v : answers id (response_success id v).
Proof. done. Qed.

Lemma error_answers id c m : answers id (response_error id c m).
Proof. done. Qed.

#[export] Hint Resolve success_answers error_answers : rust.
