(* ===== verification/Router.v ===== *)
(** * Which role may call which method: the predicates of router/mod.rs

    The allow-lists and suffix rules of the central gate, the collection names
    of the event bus, and the inclusion of the roles in one another.

    ** The JSON-RPC dispatcher: engine/nasty-engine/src/router/mod.rs

    [handle_rpc_request] with its gates, its audit records and its events,
    [route], the response helpers, the endpoint gates, and the arms of
    router/auth.rs that call the authentication service. The arms of the other
    domains are a parameter. *)
From Stdlib Require Import String Ascii ZArith.
From stdpp Require Import base list gmap strings numbers.
From S2P Require Import Prelude RustStr Disk StateStore AuthTypes AuthStore AuthService JsonRpc.

Open Scope string_scope.
Open Scope rust_scope.

(** [matches!(method, "a" | "b" | ..)]. *)
Definition matches (method : string) (l : list string) : bool := existsb (String.eqb method) l.

(** Methods with a read suffix that are privileged all the same. *)
Definition read_carve_outs : list string := [
  "domain.user.list"; "domain.group.list"; "dc.user.list"; "dc.group.list"; "dc.computer.list";
  "auth.token.list"; "guestshare.list"; "guestshare.get"; "system.custom_config.get"
].

(** Reads without a read suffix (and some with one). *)
Definition read_methods : list string := [
  "system.info"; "system.health"; "system.hardware.iommu"; "system.hardware.summary";
  "system.secure_boot.enrollment.status"; "system.secure_boot.readiness";
  "system.passthrough.get"; "system.rdma.status"; "system.stats"; "system.disks";
  "system.network.get"; "system.logs"; "system.logs.units"; "system.ssh.status";
  "system.alerts"; "system.settings.get"; "system.tuning.get"; "system.nut.config.get";
  "system.nut.status"; "system.watchdog.config.get"; "system.tailscale.get";
  "system.acme.status"; "system.tls.local_ca_root"; "system.tls.host_statuses";
  "system.metrics.history"; "system.metrics.prometheus"; "alert.rules.list"; "device.list";
  "auth.me"; "auth.list_users"; "fs.dependents"; "fs.locked_dependents"; "fs.usage";
  "fs.scrub.status"; "fs.reconcile.status"; "bcachefs.usage"; "service.protocol.list";
  "subvolume.list_all"; "subvolume.list_dependents"; "subvolume.find_by_property";
  "subvolume.children"; "smb.user.list"; "smb.group.list"; "service.rest_server.config";
  "service.base_names.get"; "system.update.version"; "system.update.check";
  "system.update.check_cached"; "backup.secrets_status"; "system.update.status";
  "system.update.build_dir.get"; "system.reboot_required"; "system.generations.list";
  "system.version.get"; "system.version.tagged_release_notice"; "system.log.level";
  "system.settings.timezones"; "audit.list"; "audit.mine"; "apps.check_ports";
  "apps.check_devices"; "apps.check_volumes"; "apps.check_compose"; "apps.status";
  "apps.stats"; "apps.logs"; "apps.compose.logs"; "apps.container.logs"; "apps.inspect";
  "system.firewall.status"; "vm.capabilities"; "vm.images.import_info"; "firmware.available";
  "firmware.constraints"; "firmware.check"; "firmware.devices"; "notifications.config.get";
  "apps.config"; "apps.inspect_image"; "apps.caddy.routes"; "apps.ingress.check_conflict";
  "bcachefs.timestats"; "bcachefs.top"; "backup.profile.list"; "backup.profile.get";
  "backup.status"; "backup.snapshots"; "backup.jobs.list"; "backup.jobs.get";
  "auth.oidc.config_status"; "auth.webauthn.config"; "auth.webauthn.list"
].

Definition is_read_only (method : string) : bool :=
  if matches method read_carve_outs then false
  else ends_with ".list" method || ends_with ".get" method || ends_with ".status" method
       || matches method read_methods.

(** Mutations of the caller's own session or account. *)
Definition self_methods : list string := [
  "auth.logout"; "auth.change_password"; "auth.webauthn.register.start";
  "auth.webauthn.register.finish"; "auth.webauthn.delete"
].

Definition is_universally_allowed (method : string) : bool :=
  is_read_only method || matches method self_methods.

(** The explicit list of a standard user. *)
Definition user_methods : list string := [
  "auth.me"; "auth.logout"; "auth.change_password"; "auth.webauthn.config";
  "auth.webauthn.list"; "auth.webauthn.register.start"; "auth.webauthn.register.finish";
  "auth.webauthn.delete"; "audit.mine"
].

Definition is_user_allowed (method : string) : bool := matches method user_methods.

(** What an operator may call beyond what everybody may. *)
Definition operator_methods : list string := [
  "subvolume.create"; "subvolume.delete"; "subvolume.attach"; "subvolume.detach";
  "subvolume.resize"; "subvolume.update"; "subvolume.clone"; "subvolume.set_properties";
  "subvolume.remove_properties"; "snapshot.create"; "snapshot.delete"; "snapshot.clone";
  "share.nfs.create"; "share.nfs.update"; "share.nfs.delete"; "guestshare.list";
  "guestshare.get"; "guestshare.create"; "guestshare.revoke"; "guestshare.remove";
  "share.smb.create"; "share.smb.update"; "share.smb.delete"; "smb.user.create";
  "smb.user.delete"; "smb.user.set_password"; "smb.group.create"; "smb.group.delete";
  "smb.group.add_member"; "smb.group.remove_member"; "share.iscsi.create";
  "share.iscsi.delete"; "share.iscsi.add_lun"; "share.iscsi.remove_lun"; "share.iscsi.add_acl";
  "share.iscsi.remove_acl"; "share.iscsi.add_portal"; "share.iscsi.remove_portal";
  "share.nvmeof.create"; "share.nvmeof.delete"; "share.nvmeof.add_namespace";
  "share.nvmeof.remove_namespace"; "share.nvmeof.add_port"; "share.nvmeof.remove_port";
  "share.nvmeof.add_host"; "share.nvmeof.remove_host"; "vm.create"; "vm.update"; "vm.delete";
  "vm.start"; "vm.stop"; "vm.kill"; "vm.snapshot"; "vm.clone"; "apps.install"; "apps.update";
  "apps.remove"; "apps.stop"; "apps.start"; "apps.restart"; "apps.pull"; "apps.prune";
  "apps.ingress.set"; "apps.ingress.remove"; "apps.networks.create"; "apps.networks.remove";
  "backup.profile.create"; "backup.profile.update"; "backup.profile.delete"; "backup.run";
  "backup.repo.check"; "backup.repo.init"; "backup.restore"; "service.protocol.enable";
  "service.protocol.disable"; "alert.acknowledge"; "vm.images.ensure"; "firmware.update"
].

Definition is_operator_allowed (method : string) : bool :=
  is_universally_allowed method || matches method operator_methods.

(** The [denied] match of [handle_rpc_request], negated. *)
Definition role_permits (role : Role) (method : string) : bool :=
  match role with
  | Admin => true
  | ReadOnly => is_universally_allowed method
  | Operator => is_operator_allowed method
  | RUser => is_user_allowed method
  end.

(** Collections whose event is sent for the mutations under a prefix. *)
Definition mutation_collections : list (string * string) := [
  ("fs.", "filesystem"); ("device.", "filesystem"); ("subvolume.", "subvolume");
  ("snapshot.", "snapshot"); ("share.nfs.", "share.nfs"); ("share.smb.", "share.smb");
  ("share.iscsi.", "share.iscsi"); ("share.nvmeof.", "share.nvmeof");
  ("service.protocol.", "protocol"); ("system.settings.", "settings");
  ("system.tuning.", "tuning"); ("system.nut.", "nut"); ("system.watchdog.", "watchdog");
  ("system.tailscale.", "tailscale"); ("alert.", "alert")
].

Definition collection_for_method (method : string) : option string :=
  if starts_with "fs.device." method then Some "filesystem"
  else snd <$> List.find (fun pc => starts_with pc.1 method && negb (is_read_only method))
                 mutation_collections.

(** ** The roles are nested *)

Lemma matches_elem method l : matches method l = true <-> method ∈ l.
Proof.
  unfold matches. rewrite existsb_elem. split.
  - by intros (x & Hx & ->%eqb_spec).
  - intros Hm. exists method. by rewrite String.eqb_refl.
Qed.

(** What holds of each method of a list holds of a method that matches it. *)
Lemma matches_forall method l (P : string -> bool) :
  matches method l = true -> forallb P l = true -> P method = true.
Proof. rewrite matches_elem, forallb_forall. intros Hm%list_elem_of_In HP. by apply HP. Qed.

Lemma permits_user_read_only m : role_permits RUser m = true -> role_permits ReadOnly m = true.
Proof.
  simpl. intros Hm. apply (matches_forall m user_methods is_universally_allowed Hm).
  vm_compute. reflexivity.
Qed.

Lemma permits_read_only_operator m : role_permits ReadOnly m = true -> role_permits Operator m = true.
Proof. simpl. unfold is_operator_allowed. by intros ->. Qed.

(** The central gate grants more to every higher role: what a standard user
    may call a read-only user may call, what that one may call an operator may,
    and an administrator may call everything; so only an administrator reaches
    a method outside the operator's lists. *)
Theorem gate_roles_nested m :
  (role_permits RUser m = true -> role_permits ReadOnly m = true) /\
  (role_permits ReadOnly m = true -> role_permits Operator m = true) /\
  role_permits Admin m = true /\
  (is_operator_allowed m = false -> forall r, role_permits r m = true -> r = Admin).
Proof.
  split_and!; [apply permits_user_read_only|apply permits_read_only_operator|done|].
  intros Ho r Hr.
  assert (role_permits Operator m = false) as Hn by done.
  destruct r; [done|..]; exfalso; apply not_true_iff_false in Hn; apply Hn.
  - by apply permits_read_only_operator.
  - done.
  - by apply permits_read_only_operator, permits_user_read_only.
Qed.

(** The modules of router/ that own a method prefix. *)
Inductive Domain :=
| DAuth | DAudit | DAlerts | DNotifications | DBackup | DFs | DBcachefs | DSubvolume
| DSnapshot | DShare | DGuestshare | DSmb | DDomain | DDc | DService | DSystem | DVm | DApps.

(** The part of [method] before its first dot, or all of it. *)
Definition method_prefix (method : string) : string :=
  match split_once "." method with
  | Some (p, _) => p
  | None => method
  end.

(** The [match prefix] of [route]. *)
Definition domain_of (method : string) : option Domain :=
  let prefix := method_prefix method in
  if prefix =s "auth" then Some DAuth
  else if prefix =s "audit" then Some DAudit
  else if (prefix =s "alert") || (prefix =s "telemetry") then Some DAlerts
  else if prefix =s "notifications" then Some DNotifications
  else if prefix =s "backup" then Some DBackup
  else if (prefix =s "fs") || (prefix =s "device") then Some DFs
  else if prefix =s "bcachefs" then Some DBcachefs
  else if prefix =s "subvolume" then Some DSubvolume
  else if prefix =s "snapshot" then Some DSnapshot
  else if prefix =s "share" then Some DShare
  else if prefix =s "guestshare" then Some DGuestshare
  else if prefix =s "smb" then Some DSmb
  else if prefix =s "domain" then Some DDomain
  else if prefix =s "dc" then Some DDc
  else if prefix =s "service" then Some DService
  else if prefix =s "system" then
    if method =s "system.alerts" then Some DAlerts else Some DSystem
  else if prefix =s "firmware" then Some DSystem
  else if prefix =s "vm" then Some DVm
  else if prefix =s "apps" then Some DApps
  else None.

Definition str_param (request : Request) (key : string) : option string :=
  rq_params request ≫= fun p => json_get p key ≫= as_str.

(** The keys [audit_detail] tries, in order. *)
Definition detail_keys : list string :=
  ["name"; "username"; "filesystem"; "target"; "id"; "path"; "device"].

Fixpoint first_string (params : Json) (keys : list string) : string :=
  match keys with
  | [] => ""
  | k :: keys' =>
      match json_get params k ≫= as_str with
      | Some s => s
      | None => first_string params keys'
      end
  end.

Definition audit_detail (request : Request) : string :=
  match rq_params request with
  | None => ""
  | Some params => first_string params detail_keys
  end.

(** ** Response helpers *)

Definition ok_ (req : Request) (val : Json) : Response := response_success (rq_id req) val.

Definition err (req : Request) (e : string) : Response := response_error (rq_id req) InternalError e.

Definition invalid (req : Request) (msg : string) : Response :=
  response_error (rq_id req) InvalidParams ("Invalid params: " ++ msg).

Definition require_str (req : Request) (key : string) : result string Response :=
  ok_or (str_param req key)
    (response_error (rq_id req) InvalidParams ("Missing required param: " ++ key)).

(** [session.client_ip.as_deref().unwrap_or("unknown")]. *)
Definition ip_or_unknown (s : Session) : string := default "unknown" (s_client_ip s).

(** Serialised values of the authentication data. *)
Definition json_role (r : Role) : Json :=
  JString (match r with
           | Admin => "admin" | ReadOnly => "readonly" | Operator => "operator" | RUser => "user"
           end).

Definition json_opt_int (o : option Z) : Json :=
  match o with Some n => JInt n | None => JNull end.

Definition json_api_token (t : ApiToken) : Json :=
  JObject [("id", JString (t_id t)); ("name", JString (t_name t)); ("token", JString (t_token t));
           ("role", json_role (t_role t)); ("created_at", JInt (t_created_at t));
           ("filesystem", json_opt_str (t_filesystem t)); ("expires_at", json_opt_int (t_expires_at t));
           ("allowed_ips", JArray (JString <$> t_allowed_ips t))].

Definition json_api_token_info (t : ApiTokenInfo) : Json :=
  JObject [("id", JString (ti_id t)); ("name", JString (ti_name t));
           ("role", json_role (ti_role t)); ("created_at", JInt (ti_created_at t));
           ("filesystem", json_opt_str (ti_filesystem t)); ("expires_at", json_opt_int (ti_expires_at t));
           ("allowed_ips", JArray (JString <$> ti_allowed_ips t))].

Definition json_user_info (u : UserInfo) : Json :=
  JObject [("username", JString (ui_username u)); ("role", json_role (ui_role u));
           ("file_principal", json_opt_str (ui_file_principal u));
           ("webauthn_credential_count", JInt (Z.of_nat (ui_webauthn_credential_count u)))].

(** ** The engine *)

(** [AppState] as the dispatcher sees it: the authentication service with the
    audit trail, the events sent, and the services of the other domains. *)
Record Engine `{AuthPrims} {X : Type} := mkEngine {
  auth : World;
  events : list string;
  services : X
}.
Arguments Engine {_} X.
Arguments mkEngine {_ _} _ _ _.

(** What [serde_json] and the derived deserialisers supply. *)
Class RpcSerde := {
  parse_request : string -> result Request string;
  print_response : Response -> string;
  change_password_params : Json -> result (string * string) string;
  create_user_params : Json -> result (string * string * Role * option string) string;
  create_token_params : Json -> result (string * Role * option string * option Z * list string) string
}.

(** [parse_params]. *)
Definition parse_params {T} (from_value : Json -> result T string) (request : Request) : result T string :=
  match rq_params request with
  | None => Err "missing params"
  | Some p => from_value p
  end.

Section Dispatch.
Context `{AuthPrims} `{!Codec AuthState} `{!RateCodec} `{!RpcSerde} {X : Type}.
Abbreviation Eng := (Engine X).

(** The arms of the domains other than those below: [None] when the method is
    not theirs. *)
Context (try_route : Domain -> Env -> Request -> Session -> Eng -> option Response * Eng).
(** [state.smb]'s resolver of file principals. *)
Context (principal_authorization : string -> result unit string).

(** Run a call of the authentication service. *)
Definition with_auth {A B} (m : M World AuthError A) (k : result A AuthError -> B) (g : Eng) : B * Eng :=
  match m (auth g) with
  | (r, w) => (k r, mkEngine w (events g) (services g))
  end.

(** [match r { Ok(v) => ok(req, v), Err(e) => err(req, e) }]. *)
Definition reply {A} (req : Request) (f : A -> Json) (r : result A AuthError) : option Response :=
  Some (match r with
        | Ok a => ok_ req (f a)
        | Err e => err req (display_auth_error e)
        end).

Definition json_ok {A} (_ : A) : Json := JString "ok".

(** [auth::try_route]. *)
Definition auth_try_route (e : Env) (req : Request) (session : Session) (g : Eng) : option Response * Eng :=
  let m := rq_method req in
  if m =s "auth.me" then
    (Some (ok_ req (JObject [("username", JString (s_username session)); ("role", json_role (s_role session));
       ("file_principal", json_opt_str (s_file_principal session));
       ("scoped", JBool (is_some (s_filesystem session) || is_some (s_owner session)))])), g)
  else if m =s "auth.logout" then
    with_auth (logout e (s_token session)) (reply req json_ok) g
  else if m =s "auth.change_password" then
    match parse_params change_password_params req with
    | Ok (u, p) => with_auth (change_password e session u p) (reply req json_ok) g
    | Err msg => (Some (invalid req msg), g)
    end
  else if m =s "auth.create_user" then
    match parse_params create_user_params req with
    | Ok (u, p, r, fp) =>
        with_auth (create_user e principal_authorization session u p r fp) (reply req json_ok) g
    | Err msg => (Some (invalid req msg), g)
    end
  else if m =s "auth.delete_user" then
    match require_str req "username" with
    | Ok u => with_auth (delete_user e session u) (reply req json_ok) g
    | Err r => (Some r, g)
    end
  else if m =s "auth.list_users" then
    with_auth list_users (reply req (fun us => JArray (json_user_info <$> us))) g
  else if m =s "auth.token.list" then
    with_auth (list_api_tokens session) (reply req (fun ts => JArray (json_api_token_info <$> ts))) g
  else if m =s "auth.token.create" then
    match parse_params create_token_params req with
    | Ok (n, r, fs, x, ips) => with_auth (create_api_token e session n r fs x ips) (reply req json_api_token) g
    | Err msg => (Some (invalid req msg), g)
    end
  else if m =s "auth.token.delete" then
    match require_str req "id" with
    | Ok i => with_auth (delete_api_token e session i) (reply req json_ok) g
    | Err r => (Some r, g)
    end
  else if m =s "auth.webauthn.reset_for_user" then
    if negb (role_eqb (s_role session) Admin) then (Some (err req "admin only"), g)
    else match require_str req "username" with
         | Ok u => with_auth (reset_webauthn_credentials e session u)
                     (reply req (fun n => JObject [("removed", JInt (Z.of_nat n))])) g
         | Err r => (Some r, g)
         end
  else try_route DAuth e req session g.

Definition route (e : Env) (req : Request) (session : Session) (g : Eng) : Response * Eng :=
  let '(resp, g') :=
    match domain_of (rq_method req) with
    | Some DAuth => auth_try_route e req session g
    | Some d => try_route d e req session g
    | None => (None, g)
    end in
  (match resp with
   | Some r => r
   | None => response_error (rq_id req) MethodNotFound ("Unknown method: " ++ rq_method req)
   end, g').

Definition audit_engine (e : Env) (event user ip detail : string) (g : Eng) : Eng :=
  mkEngine (add_audit (mkAudit (now e) event user ip detail) (auth g)) (events g) (services g).

Definition send_event (collection : string) (g : Eng) : Eng :=
  mkEngine (auth g) (events g ++ [collection])%list (services g).

(** What a session that must change its password may call. *)
Definition password_change_methods : list string := ["auth.change_password"; "auth.me"; "auth.logout"].

(** [handle_rpc_request] from the parsed request to the response. *)
Definition handle_request (e : Env) (request : Request) (session : Session) (g : Eng) : Response * Eng :=
  let m := rq_method request in
  if s_must_change_password session && negb (matches m password_change_methods)
  then (response_error (rq_id request) InternalError "Password change required", g)
  else if negb (role_permits (s_role session) m)
  then (response_error (rq_id request) InternalError "Permission denied",
        audit_engine e "permission_denied" (s_username session) (ip_or_unknown session)
          ("method=" ++ m ++ " role=" ++ fmt_debug_role (s_role session)) g)
  else
    let '(response, g1) := route e request session g in
    match rs_error response with
    | Some _ => (response, g1)
    | None =>
        let g2 := if negb (is_read_only m) && negb (starts_with "auth." m)
                  then audit_engine e m (s_username session) (ip_or_unknown session) (audit_detail request) g1
                  else g1 in
        let g3 := match collection_for_method m with
                  | Some c => send_event c g2
                  | None => g2
                  end in
        (response, g3)
    end.

Definition handle_rpc_request (e : Env) (raw : string) (session : Session) (g : Eng) : string * Eng :=
  match parse_request raw with
  | Err _ => (print_response (response_error JNull ParseError "Failed to parse JSON-RPC request"), g)
  | Ok request =>
      let '(r, g') := handle_request e request session g in (print_response r, g')
  end.

(** ** Endpoint gates *)

Definition require_endpoint_access (e : Env) (req : Request) (session : Session) (access : EndpointAccess)
    (reason : string) (audit_allowed : bool) (g : Eng) : option Response * Eng :=
  match authorize_session session access with
  | Ok _ =>
      (None, if audit_allowed
             then audit_engine e "root_equivalent_requested" (s_username session) (ip_or_unknown session)
                    ("method=" ++ rq_method req ++ " reason=" ++ reason) g
             else g)
  | Err denied =>
      (Some (err req (message denied)),
       audit_engine e "permission_denied" (s_username session) (ip_or_unknown session)
         ("method=" ++ rq_method req ++ " role=" ++ fmt_debug_role (s_role session)
          ++ " reason=" ++ reason) g)
  end.

Definition require_root_equivalent (e : Env) (req : Request) (session : Session) (reason : string) (g : Eng)
    : option Response * Eng :=
  require_endpoint_access e req session RootEquivalent reason true g.

Definition require_unscoped_mutation (e : Env) (req : Request) (session : Session) (reason : string) (g : Eng)
    : option Response * Eng :=
  require_endpoint_access e req session UnscopedMutation reason false g.

End Dispatch.
