(* ===== verification/Registry.v ===== *)
(** * The method registry: engine/nasty-engine/src/registry

    Every RPC method with the role it declares, the kind of its parameters and
    whether it has a result, by the groups of registry/methods.rs.
    Descriptions and JSON schemas are documentation and are left out. *)
From Stdlib Require Import String Ascii ZArith.
From stdpp Require Import base list gmap strings numbers.
From S2P Require Import Prelude RustStr Disk StateStore AuthTypes AuthStore AuthService JsonRpc Router.

Open Scope string_scope.
Open Scope rust_scope.

Inductive MethodRole := RoleAny | RoleOperator | RoleAdmin.

#[export] Instance MethodRole_eq_dec : EqDecision MethodRole.
Proof. solve_decision. Defined.

(** The schema of a typed request is known by the name of its type ([json!]
    for the one that is written inline). *)
Inductive MethodParams := PNone | PSchema (type_name : string) | PAdHoc.

Record Method := mkMethod {
  m_name : string;
  m_role : MethodRole;
  m_params : MethodParams;
  m_has_result : bool
}.

(** ** The groups *)

Definition group_authentication : list Method := [
  mkMethod "auth.me" RoleAny PNone true;
  mkMethod "auth.logout" RoleAny PNone false;
  mkMethod "auth.change_password" RoleAny (PSchema "ChangePasswordRequest") false;
  mkMethod "auth.create_user" RoleAdmin (PSchema "CreateUserRequest") false;
  mkMethod "auth.delete_user" RoleAdmin PAdHoc false;
  mkMethod "auth.list_users" RoleAny PNone true;
  mkMethod "auth.token.list" RoleAdmin PNone true;
  mkMethod "auth.token.create" RoleAdmin PAdHoc true;
  mkMethod "auth.token.delete" RoleAdmin PAdHoc false
].

Definition group_system : list Method := [
  mkMethod "system.info" RoleAny PNone true;
  mkMethod "system.health" RoleAny PNone true;
  mkMethod "system.status" RoleAny PNone true;
  mkMethod "system.operations.list" RoleAny PNone true;
  mkMethod "system.custom_config.get" RoleAdmin PNone true;
  mkMethod "system.stats" RoleAny PNone true;
  mkMethod "system.disks" RoleAny PNone true;
  mkMethod "system.alerts" RoleAny PNone true;
  mkMethod "system.reboot" RoleAdmin PNone false;
  mkMethod "system.shutdown" RoleAdmin PNone false
].

Definition group_system_update : list Method := [
  mkMethod "system.update.version" RoleAny PNone true;
  mkMethod "system.update.check" RoleAny PNone true;
  mkMethod "system.update.check_cached" RoleAny PNone true;
  mkMethod "system.update.apply" RoleAdmin PNone false;
  mkMethod "system.update.rollback" RoleAdmin PNone false;
  mkMethod "system.update.status" RoleAny PNone true;
  mkMethod "system.update.build_dir.get" RoleAny PNone true;
  mkMethod "system.update.build_dir.set" RoleAdmin PAdHoc true;
  mkMethod "system.version.get" RoleAny PNone true;
  mkMethod "system.version.tagged_release_notice" RoleAny PNone true;
  mkMethod "system.version.upgrade_tagged_release" RoleAdmin PNone false;
  mkMethod "system.version.switch" RoleAdmin (PSchema "VersionSwitchRequest") false
].

Definition group_settings : list Method := [
  mkMethod "system.settings.get" RoleAny PNone true;
  mkMethod "system.settings.update" RoleAdmin (PSchema "SettingsUpdate") true;
  mkMethod "system.settings.timezones" RoleAny PNone true
].

Definition group_network : list Method := [
  mkMethod "system.network.get" RoleAny PNone true;
  mkMethod "system.network.update" RoleAdmin (PSchema "NetworkConfig") false
].

Definition group_protocols_services : list Method := [
  mkMethod "service.protocol.list" RoleAny PNone true;
  mkMethod "service.protocol.enable" RoleOperator PAdHoc true;
  mkMethod "service.protocol.disable" RoleOperator PAdHoc true
].

Definition group_alert_rules : list Method := [
  mkMethod "alert.acknowledge" RoleOperator PAdHoc true;
  mkMethod "alert.rules.list" RoleAny PNone true;
  mkMethod "alert.rules.create" RoleAdmin (PSchema "AlertRule") true;
  mkMethod "alert.rules.update" RoleAdmin (PSchema "AlertRuleUpdate") true;
  mkMethod "alert.rules.delete" RoleAdmin PAdHoc false
].

Definition group_block_devices : list Method := [
  mkMethod "device.list" RoleAny PNone true;
  mkMethod "device.wipe" RoleAdmin PAdHoc false;
  mkMethod "device.set_type" RoleAdmin (PSchema "DiskTypeUpdate") false;
  mkMethod "device.set_io_scheduler" RoleAdmin (PSchema "IoSchedulerUpdate") true
].

Definition group_filesystems : list Method := [
  mkMethod "fs.list" RoleAny PNone true;
  mkMethod "fs.unavailable.list" RoleAny PNone true;
  mkMethod "fs.get" RoleAny PAdHoc true;
  mkMethod "fs.create" RoleAdmin (PSchema "CreateFilesystemRequest") true;
  mkMethod "fs.destroy" RoleAdmin (PSchema "DestroyFilesystemRequest") false;
  mkMethod "fs.forget" RoleAdmin (PSchema "ForgetUnavailableRequest") false;
  mkMethod "fs.mount" RoleAdmin PAdHoc true;
  mkMethod "fs.unmount" RoleAdmin PAdHoc false;
  mkMethod "fs.options.update" RoleAdmin (PSchema "UpdateFilesystemOptionsRequest") true;
  mkMethod "fs.usage" RoleAny PAdHoc true;
  mkMethod "fs.scrub.start" RoleAdmin PAdHoc false;
  mkMethod "fs.scrub.status" RoleAny PAdHoc true;
  mkMethod "fs.scrub.cancel" RoleAdmin PAdHoc false;
  mkMethod "fs.fsck.start" RoleAdmin PAdHoc false;
  mkMethod "fs.fsck.status" RoleAny PAdHoc true;
  mkMethod "fs.reconcile.status" RoleAny PAdHoc true;
  mkMethod "bcachefs.usage" RoleAny PAdHoc true;
  mkMethod "fs.tpm.status" RoleAny PAdHoc true;
  mkMethod "fs.tpm.bind" RoleAdmin PAdHoc true;
  mkMethod "fs.tpm.unbind" RoleAdmin PAdHoc true
].

Definition group_filesystem_devices : list Method := [
  mkMethod "fs.device.add" RoleAdmin (PSchema "DeviceAddRequest") true;
  mkMethod "fs.device.remove" RoleAdmin (PSchema "DeviceActionRequest") true;
  mkMethod "fs.device.evacuate" RoleAdmin (PSchema "DeviceActionRequest") false;
  mkMethod "fs.device.set_state" RoleAdmin (PSchema "DeviceSetStateRequest") true;
  mkMethod "fs.device.set_label" RoleAdmin (PSchema "DeviceSetLabelRequest") true;
  mkMethod "fs.device.online" RoleAdmin (PSchema "DeviceActionRequest") true;
  mkMethod "fs.device.offline" RoleAdmin (PSchema "DeviceActionRequest") true
].

Definition group_subvolumes : list Method := [
  mkMethod "subvolume.list" RoleAny PAdHoc true;
  mkMethod "subvolume.list_all" RoleAny PNone true;
  mkMethod "subvolume.get" RoleAny PAdHoc true;
  mkMethod "subvolume.create" RoleOperator (PSchema "CreateSubvolumeRequest") true;
  mkMethod "subvolume.delete" RoleOperator (PSchema "DeleteSubvolumeRequest") false;
  mkMethod "subvolume.attach" RoleOperator PAdHoc true;
  mkMethod "subvolume.detach" RoleOperator PAdHoc true;
  mkMethod "subvolume.resize" RoleOperator (PSchema "ResizeSubvolumeRequest") true;
  mkMethod "subvolume.set_properties" RoleOperator (PSchema "SetPropertiesRequest") true;
  mkMethod "subvolume.remove_properties" RoleOperator (PSchema "RemovePropertiesRequest") true;
  mkMethod "subvolume.find_by_property" RoleAny (PSchema "FindByPropertyRequest") true
].

Definition group_snapshots : list Method := [
  mkMethod "snapshot.list" RoleAny PAdHoc true;
  mkMethod "snapshot.create" RoleOperator (PSchema "CreateSnapshotRequest") true;
  mkMethod "snapshot.delete" RoleOperator (PSchema "DeleteSnapshotRequest") false;
  mkMethod "snapshot.clone" RoleOperator (PSchema "CloneSnapshotRequest") true;
  mkMethod "snapshot.rollback" RoleAdmin (PSchema "RollbackSnapshotRequest") true
].

Definition group_nfs_shares : list Method := [
  mkMethod "share.nfs.list" RoleAny PNone true;
  mkMethod "share.nfs.get" RoleAny PAdHoc true;
  mkMethod "share.nfs.create" RoleOperator (PSchema "CreateNfsShareRequest") true;
  mkMethod "share.nfs.update" RoleOperator (PSchema "UpdateNfsShareRequest") true;
  mkMethod "share.nfs.delete" RoleOperator (PSchema "DeleteNfsShareRequest") false
].

Definition group_smb_shares : list Method := [
  mkMethod "share.smb.list" RoleAny PNone true;
  mkMethod "share.smb.get" RoleAny PAdHoc true;
  mkMethod "share.smb.create" RoleOperator (PSchema "CreateSmbShareRequest") true;
  mkMethod "share.smb.update" RoleOperator (PSchema "UpdateSmbShareRequest") true;
  mkMethod "share.smb.delete" RoleOperator (PSchema "DeleteSmbShareRequest") false
].

Definition group_iscsi_targets : list Method := [
  mkMethod "share.iscsi.list" RoleAny PNone true;
  mkMethod "share.iscsi.get" RoleAny PAdHoc true;
  mkMethod "share.iscsi.create" RoleOperator (PSchema "CreateTargetRequest") true;
  mkMethod "share.iscsi.delete" RoleOperator (PSchema "DeleteTargetRequest") false;
  mkMethod "share.iscsi.add_lun" RoleOperator (PSchema "AddLunRequest") true;
  mkMethod "share.iscsi.remove_lun" RoleOperator (PSchema "RemoveLunRequest") true;
  mkMethod "share.iscsi.repair_lun" RoleAdmin (PSchema "RepairLunRequest") true;
  mkMethod "share.iscsi.add_acl" RoleOperator (PSchema "AddAclRequest") true;
  mkMethod "share.iscsi.remove_acl" RoleOperator (PSchema "RemoveAclRequest") true;
  mkMethod "share.iscsi.add_portal" RoleOperator (PSchema "AddPortalRequest") true;
  mkMethod "share.iscsi.remove_portal" RoleOperator (PSchema "RemovePortalRequest") true;
  mkMethod "share.iscsi.set_portals" RoleAdmin (PSchema "SetPortalsRequest") true
].

Definition group_nvme_of_subsystems : list Method := [
  mkMethod "share.nvmeof.list" RoleAny PNone true;
  mkMethod "share.nvmeof.get" RoleAny PAdHoc true;
  mkMethod "share.nvmeof.create" RoleOperator (PSchema "CreateSubsystemRequest") true;
  mkMethod "share.nvmeof.delete" RoleOperator (PSchema "DeleteSubsystemRequest") false;
  mkMethod "share.nvmeof.add_namespace" RoleOperator (PSchema "AddNamespaceRequest") true;
  mkMethod "share.nvmeof.remove_namespace" RoleOperator (PSchema "RemoveNamespaceRequest") true;
  mkMethod "share.nvmeof.repair_namespace" RoleAdmin (PSchema "RepairNamespaceRequest") true;
  mkMethod "share.nvmeof.add_port" RoleOperator (PSchema "AddPortRequest") true;
  mkMethod "share.nvmeof.remove_port" RoleOperator (PSchema "RemovePortRequest") true;
  mkMethod "share.nvmeof.add_host" RoleOperator (PSchema "AddHostRequest") true;
  mkMethod "share.nvmeof.remove_host" RoleOperator (PSchema "RemoveHostRequest") true
].

Definition group_guest_shares : list Method := [
  mkMethod "guestshare.list" RoleOperator PNone true;
  mkMethod "guestshare.get" RoleOperator PAdHoc true;
  mkMethod "guestshare.create" RoleOperator (PSchema "CreateGuestShareRequest") true;
  mkMethod "guestshare.revoke" RoleOperator PAdHoc true;
  mkMethod "guestshare.remove" RoleOperator PAdHoc false
].

Definition group_oidc : list Method := [
  mkMethod "auth.oidc.config_status" RoleAny PNone true;
  mkMethod "auth.oidc.test" RoleAdmin (PSchema "OidcTestClaims") true;
  mkMethod "auth.oidc.update_config" RoleAdmin (PSchema "OidcSettings") true
].

Definition group_webauthn : list Method := [
  mkMethod "auth.webauthn.config" RoleAny PNone true;
  mkMethod "auth.webauthn.list" RoleAny PNone true;
  mkMethod "auth.webauthn.register.start" RoleAny (PSchema "WebauthnRegisterStartRequest") true;
  mkMethod "auth.webauthn.register.finish" RoleAny PAdHoc true;
  mkMethod "auth.webauthn.delete" RoleAny PAdHoc false;
  mkMethod "auth.webauthn.reset_for_user" RoleAdmin PAdHoc true
].

Definition group_audit : list Method := [
  mkMethod "audit.list" RoleAny PAdHoc true;
  mkMethod "audit.mine" RoleAny PAdHoc true
].

Definition group_system_continued : list Method := [
  mkMethod "system.reboot_required" RoleAny PNone true
].

Definition group_system_generations : list Method := [
  mkMethod "system.generations.list" RoleAny PNone true;
  mkMethod "system.generations.label" RoleAdmin PAdHoc false;
  mkMethod "system.generations.delete" RoleAdmin PAdHoc false;
  mkMethod "system.generations.switch" RoleAdmin PAdHoc true
].

Definition group_system_hardware : list Method := [
  mkMethod "system.hardware.iommu" RoleAny PNone true;
  mkMethod "system.hardware.summary" RoleAny PNone true
].

Definition group_system_logs : list Method := [
  mkMethod "system.logs" RoleAny PAdHoc true;
  mkMethod "system.logs.units" RoleAny PNone true;
  mkMethod "system.log.level" RoleAny PNone true;
  mkMethod "system.log.set_level" RoleAdmin PAdHoc false
].

Definition group_system_metrics : list Method := [
  mkMethod "system.metrics.history" RoleAny PAdHoc true;
  mkMethod "system.metrics.prometheus" RoleAny PNone true
].

Definition group_system_acme : list Method := [
  mkMethod "system.acme.status" RoleAny PNone true;
  mkMethod "system.acme.reset" RoleAdmin PNone false;
  mkMethod "system.acme.retry" RoleAdmin PNone false
].

Definition group_system_tls : list Method := [
  mkMethod "system.tls.host_statuses" RoleAny PNone true;
  mkMethod "system.tls.local_ca_root" RoleAny PNone true
].

Definition group_system_nut_ups : list Method := [
  mkMethod "system.nut.config.get" RoleAny PNone true;
  mkMethod "system.nut.config.update" RoleAdmin (PSchema "NutConfigUpdate") true;
  mkMethod "system.nut.status" RoleAny PNone true
].

Definition group_system_watchdog : list Method := [
  mkMethod "system.watchdog.config.get" RoleAny PNone true;
  mkMethod "system.watchdog.config.update" RoleAdmin (PSchema "WatchdogConfigUpdate") true
].

Definition group_system_rdma : list Method := [
  mkMethod "system.rdma.status" RoleAny PNone true;
  mkMethod "system.rdma.set" RoleAdmin (PSchema "RdmaSetRequest") true
].

Definition group_system_passthrough : list Method := [
  mkMethod "system.passthrough.get" RoleAny PNone true;
  mkMethod "system.passthrough.update" RoleAdmin (PSchema "PassthroughUpdate") true
].

Definition group_system_guest_tools : list Method := [
  mkMethod "system.guest_tools.status" RoleAny PNone true;
  mkMethod "system.guest_tools.set" RoleAdmin (PSchema "GuestToolsUpdate") true
].

Definition group_system_secure_boot : list Method := [
  mkMethod "system.secure_boot.readiness" RoleAny PNone true;
  mkMethod "system.secure_boot.enrollment.status" RoleAny PNone true;
  mkMethod "system.secure_boot.enrollment.begin" RoleAdmin PNone true;
  mkMethod "system.secure_boot.enrollment.rebuild" RoleAdmin PNone true;
  mkMethod "system.secure_boot.enrollment.complete" RoleAdmin PNone true;
  mkMethod "system.secure_boot.enrollment.abort" RoleAdmin PAdHoc true
].

Definition group_system_ssh : list Method := [
  mkMethod "system.ssh.status" RoleAny PNone true;
  mkMethod "system.ssh.add_key" RoleAdmin PAdHoc false;
  mkMethod "system.ssh.remove_key" RoleAdmin PAdHoc false;
  mkMethod "system.ssh.set_password_auth" RoleAdmin PAdHoc false
].

Definition group_system_tailscale : list Method := [
  mkMethod "system.tailscale.get" RoleAny PNone true;
  mkMethod "system.tailscale.connect" RoleAdmin (PSchema "TailscaleConnectRequest") true;
  mkMethod "system.tailscale.disconnect" RoleAdmin PNone true
].

Definition group_system_tuning : list Method := [
  mkMethod "system.tuning.get" RoleAny PNone true;
  mkMethod "system.tuning.update" RoleAdmin (PSchema "TuningUpdate") true
].

Definition group_system_firewall : list Method := [
  mkMethod "system.firewall.status" RoleAny PNone true;
  mkMethod "system.firewall.restrict" RoleAdmin PAdHoc false;
  mkMethod "system.firewall.custom.add" RoleAdmin (PSchema "nasty_system::firewall::CustomRuleInput") false;
  mkMethod "system.firewall.custom.update" RoleAdmin PAdHoc false;
  mkMethod "system.firewall.custom.remove" RoleAdmin PAdHoc false
].

Definition group_system_update_channel : list Method := [
  mkMethod "system.update.channel.get" RoleAny PNone true;
  mkMethod "system.update.channel.set" RoleAdmin PAdHoc true
].

Definition group_network_continued : list Method := [
  mkMethod "system.network.pending" RoleAdmin PNone true;
  mkMethod "system.network.confirm" RoleAdmin (PSchema "ConfirmRequest") false;
  mkMethod "system.network.nm_preview" RoleAdmin PNone true;
  mkMethod "system.network.nm_apply" RoleAdmin PNone true
].

Definition group_protocols_services_continued : list Method := [
  mkMethod "service.base_names.get" RoleAny PNone true;
  mkMethod "service.base_names.update" RoleAdmin PAdHoc false;
  mkMethod "service.rest_server.config" RoleAny PNone true;
  mkMethod "service.rest_server.configure" RoleAdmin PAdHoc false;
  mkMethod "service.rest_server.credentials" RoleAdmin PNone true;
  mkMethod "service.rest_server.rotate_credentials" RoleAdmin PAdHoc true
].

Definition group_telemetry : list Method := [
  mkMethod "telemetry.send" RoleAdmin PNone true
].

Definition group_notifications : list Method := [
  mkMethod "notifications.config.get" RoleAny PNone true;
  mkMethod "notifications.config.update" RoleAdmin (PSchema "NotificationConfig") false;
  mkMethod "notifications.test" RoleAdmin (PSchema "ChannelType") true;
  mkMethod "notifications.test_saved" RoleAdmin (PSchema "json!") true
].

Definition group_firmware : list Method := [
  mkMethod "firmware.available" RoleAny PNone true;
  mkMethod "firmware.devices" RoleAny PNone true;
  mkMethod "firmware.check" RoleAny PNone true;
  mkMethod "firmware.constraints" RoleAny PNone true;
  mkMethod "firmware.update" RoleOperator PAdHoc true
].

Definition group_filesystem_encryption : list Method := [
  mkMethod "fs.lock" RoleAdmin PAdHoc true;
  mkMethod "fs.unlock" RoleAdmin PAdHoc true;
  mkMethod "fs.key.export" RoleAdmin PAdHoc true;
  mkMethod "fs.key.delete" RoleAdmin PAdHoc false
].

Definition group_filesystem_reconcile : list Method := [
  mkMethod "fs.reconcile.enable" RoleAdmin PAdHoc false;
  mkMethod "fs.reconcile.disable" RoleAdmin PAdHoc false;
  mkMethod "fs.copygc.enable" RoleAdmin PAdHoc false;
  mkMethod "fs.copygc.disable" RoleAdmin PAdHoc false;
  mkMethod "fs.device.evacuate.cancel" RoleAdmin (PSchema "DeviceActionRequest") false
].

Definition group_filesystem_dependents : list Method := [
  mkMethod "fs.dependents" RoleAny PAdHoc true;
  mkMethod "fs.locked_dependents" RoleAny PNone true
].

Definition group_bcachefs_tools : list Method := [
  mkMethod "bcachefs.top" RoleAny PAdHoc true;
  mkMethod "bcachefs.timestats" RoleAny PAdHoc true
].

Definition group_subvolumes_continued : list Method := [
  mkMethod "subvolume.children" RoleAny PAdHoc true;
  mkMethod "subvolume.clone" RoleOperator (PSchema "CloneSubvolumeRequest") true;
  mkMethod "subvolume.update" RoleOperator (PSchema "UpdateSubvolumeRequest") true;
  mkMethod "subvolume.list_dependents" RoleAny PNone true
].

Definition group_smb_users : list Method := [
  mkMethod "smb.user.list" RoleAny PNone true;
  mkMethod "smb.user.create" RoleOperator (PSchema "CreateSmbUserRequest") true;
  mkMethod "smb.user.delete" RoleOperator PAdHoc false;
  mkMethod "smb.user.set_password" RoleOperator PAdHoc false
].

Definition group_smb_groups : list Method := [
  mkMethod "smb.group.list" RoleAny PNone true;
  mkMethod "smb.group.create" RoleOperator PAdHoc true;
  mkMethod "smb.group.delete" RoleOperator PAdHoc false;
  mkMethod "smb.group.add_member" RoleOperator PAdHoc false;
  mkMethod "smb.group.remove_member" RoleOperator PAdHoc false
].

Definition group_active_directory : list Method := [
  mkMethod "domain.status" RoleAny PNone true;
  mkMethod "domain.join" RoleAdmin (PSchema "JoinDomainRequest") true;
  mkMethod "domain.leave" RoleAdmin (PSchema "LeaveDomainRequest") false;
  mkMethod "domain.user.list" RoleAdmin PAdHoc true;
  mkMethod "domain.group.list" RoleAdmin PAdHoc true
].

Definition group_active_directory_domain_controller : list Method := [
  mkMethod "dc.status" RoleAny PNone true;
  mkMethod "dc.provision" RoleAdmin (PSchema "ProvisionRequest") true;
  mkMethod "dc.demote" RoleAdmin (PSchema "DemoteRequest") false;
  mkMethod "dc.backup" RoleAdmin PAdHoc true;
  mkMethod "dc.user.list" RoleAdmin PNone true;
  mkMethod "dc.user.create" RoleAdmin PAdHoc false;
  mkMethod "dc.user.delete" RoleAdmin PAdHoc false;
  mkMethod "dc.user.set_password" RoleAdmin PAdHoc false;
  mkMethod "dc.user.enable" RoleAdmin PAdHoc false;
  mkMethod "dc.user.disable" RoleAdmin PAdHoc false;
  mkMethod "dc.group.list" RoleAdmin PNone true;
  mkMethod "dc.group.create" RoleAdmin PAdHoc false;
  mkMethod "dc.group.delete" RoleAdmin PAdHoc false;
  mkMethod "dc.group.add_member" RoleAdmin PAdHoc false;
  mkMethod "dc.group.remove_member" RoleAdmin PAdHoc false;
  mkMethod "dc.computer.list" RoleAdmin PNone true
].

Definition group_backup : list Method := [
  mkMethod "backup.status" RoleAny PNone true;
  mkMethod "backup.profile.list" RoleAny PNone true;
  mkMethod "backup.schedule.list" RoleAny PNone true;
  mkMethod "backup.profile.get" RoleAny PAdHoc true;
  mkMethod "backup.profile.create" RoleOperator (PSchema "BackupProfile") true;
  mkMethod "backup.profile.update" RoleOperator (PSchema "BackupProfile") true;
  mkMethod "backup.profile.delete" RoleOperator PAdHoc false;
  mkMethod "backup.run" RoleOperator PAdHoc true;
  mkMethod "backup.snapshots" RoleAny PAdHoc true;
  mkMethod "backup.restore" RoleOperator PAdHoc true;
  mkMethod "backup.repo.init" RoleOperator PAdHoc true;
  mkMethod "backup.repo.check" RoleOperator PAdHoc true;
  mkMethod "backup.jobs.list" RoleAny PAdHoc true;
  mkMethod "backup.jobs.get" RoleAny PAdHoc true;
  mkMethod "backup.secrets_status" RoleAny PNone true
].

Definition group_vms : list Method := [
  mkMethod "vm.capabilities" RoleAny PNone true;
  mkMethod "vm.list" RoleAny PNone true;
  mkMethod "vm.get" RoleAny PAdHoc true;
  mkMethod "vm.create" RoleOperator (PSchema "CreateVmRequest") true;
  mkMethod "vm.update" RoleOperator (PSchema "UpdateVmRequest") true;
  mkMethod "vm.delete" RoleOperator PAdHoc false;
  mkMethod "vm.start" RoleOperator PAdHoc true;
  mkMethod "vm.stop" RoleOperator PAdHoc false;
  mkMethod "vm.kill" RoleOperator PAdHoc false;
  mkMethod "vm.snapshot" RoleOperator (PSchema "SnapshotVmRequest") true;
  mkMethod "vm.clone" RoleOperator (PSchema "CloneVmRequest") true
].

Definition group_vm_disk_images : list Method := [
  mkMethod "vm.images.list" RoleAny PNone true;
  mkMethod "vm.images.ensure" RoleOperator PAdHoc true;
  mkMethod "vm.images.import_info" RoleAny PAdHoc true
].

Definition group_apps : list Method := [
  mkMethod "apps.status" RoleAny PNone true;
  mkMethod "apps.list" RoleAny PNone true;
  mkMethod "apps.get" RoleAny PAdHoc true;
  mkMethod "apps.config" RoleAny PAdHoc true;
  mkMethod "apps.stats" RoleAny PNone true;
  mkMethod "apps.logs" RoleAny PAdHoc true;
  mkMethod "apps.container.logs" RoleAny PAdHoc true;
  mkMethod "apps.inspect" RoleAny PAdHoc true;
  mkMethod "apps.inspect_image" RoleAny PAdHoc true;
  mkMethod "apps.caddy.routes" RoleAny PNone true;
  mkMethod "apps.check_ports" RoleAny (PSchema "CheckPortsRequest") true;
  mkMethod "apps.check_devices" RoleAny (PSchema "CheckDevicesRequest") true;
  mkMethod "apps.check_volumes" RoleAny (PSchema "CheckVolumesRequest") true;
  mkMethod "apps.check_compose" RoleAny (PSchema "CheckComposeRequest") true;
  mkMethod "apps.appdata.status" RoleAny PNone true;
  mkMethod "apps.appdata.relocate" RoleAdmin PAdHoc false;
  mkMethod "apps.enable" RoleAdmin (PSchema "EnableAppsRequest") false;
  mkMethod "apps.disable" RoleAdmin PNone false;
  mkMethod "apps.install" RoleOperator (PSchema "InstallAppRequest") true;
  mkMethod "apps.update" RoleOperator (PSchema "InstallAppRequest") true;
  mkMethod "apps.remove" RoleOperator PAdHoc false;
  mkMethod "apps.start" RoleOperator PAdHoc false;
  mkMethod "apps.stop" RoleOperator PAdHoc false;
  mkMethod "apps.restart" RoleOperator PAdHoc false;
  mkMethod "apps.pull" RoleOperator PAdHoc true;
  mkMethod "apps.prune" RoleOperator PNone true;
  mkMethod "apps.exec_command" RoleAdmin PAdHoc true;
  mkMethod "apps.fix_volume_perms" RoleAdmin (PSchema "FixVolumePermsRequest") true;
  mkMethod "apps.compose.get" RoleAny PAdHoc true;
  mkMethod "apps.compose.logs" RoleAny PAdHoc true;
  mkMethod "apps.compose.install" RoleAdmin (PSchema "InstallComposeRequest") true;
  mkMethod "apps.compose.update" RoleAdmin (PSchema "InstallComposeRequest") true;
  mkMethod "apps.compose.remove" RoleAdmin PAdHoc false;
  mkMethod "apps.compose.set_startup" RoleAdmin (PSchema "SetComposeStartupRequest") false;
  mkMethod "apps.compose.startup.list" RoleAny PNone true;
  mkMethod "apps.ingress.list" RoleAny PNone true;
  mkMethod "apps.ingress.set" RoleOperator (PSchema "SetIngressRequest") true;
  mkMethod "apps.ingress.remove" RoleOperator PAdHoc false;
  mkMethod "apps.ingress.check_conflict" RoleAny PAdHoc true;
  mkMethod "apps.networks.list" RoleAny PNone true;
  mkMethod "apps.networks.create" RoleOperator (PSchema "ManagedNetwork") false;
  mkMethod "apps.networks.remove" RoleOperator PAdHoc false
].

Definition registry : list (string * list Method) := [
  ("Authentication", group_authentication);
  ("System", group_system);
  ("System Update", group_system_update);
  ("Settings", group_settings);
  ("Network", group_network);
  ("Protocols & Services", group_protocols_services);
  ("Alert Rules", group_alert_rules);
  ("Block Devices", group_block_devices);
  ("Filesystems", group_filesystems);
  ("Filesystem Devices", group_filesystem_devices);
  ("Subvolumes", group_subvolumes);
  ("Snapshots", group_snapshots);
  ("NFS Shares", group_nfs_shares);
  ("SMB Shares", group_smb_shares);
  ("iSCSI Targets", group_iscsi_targets);
  ("NVMe-oF Subsystems", group_nvme_of_subsystems);
  ("Guest Shares", group_guest_shares);
  ("OIDC", group_oidc);
  ("WebAuthn", group_webauthn);
  ("Audit", group_audit);
  ("System (continued)", group_system_continued);
  ("System Generations", group_system_generations);
  ("System Hardware", group_system_hardware);
  ("System Logs", group_system_logs);
  ("System Metrics", group_system_metrics);
  ("System ACME", group_system_acme);
  ("System TLS", group_system_tls);
  ("System NUT (UPS)", group_system_nut_ups);
  ("System Watchdog", group_system_watchdog);
  ("System RDMA", group_system_rdma);
  ("System Passthrough", group_system_passthrough);
  ("System Guest Tools", group_system_guest_tools);
  ("System Secure Boot", group_system_secure_boot);
  ("System SSH", group_system_ssh);
  ("System Tailscale", group_system_tailscale);
  ("System Tuning", group_system_tuning);
  ("System Firewall", group_system_firewall);
  ("System Update Channel", group_system_update_channel);
  ("Network (continued)", group_network_continued);
  ("Protocols & Services (continued)", group_protocols_services_continued);
  ("Telemetry", group_telemetry);
  ("Notifications", group_notifications);
  ("Firmware", group_firmware);
  ("Filesystem Encryption", group_filesystem_encryption);
  ("Filesystem Reconcile", group_filesystem_reconcile);
  ("Filesystem Dependents", group_filesystem_dependents);
  ("bcachefs Tools", group_bcachefs_tools);
  ("Subvolumes (continued)", group_subvolumes_continued);
  ("SMB Users", group_smb_users);
  ("SMB Groups", group_smb_groups);
  ("Active Directory", group_active_directory);
  ("Active Directory: Domain Controller", group_active_directory_domain_controller);
  ("Backup", group_backup);
  ("VMs", group_vms);
  ("VM Disk Images", group_vm_disk_images);
  ("Apps", group_apps)
].

(** All methods. *)
Definition all_methods : list Method := concat (snd <$> registry).
