(* ===== verification/Rest.v ===== *)
(** * The REST gateway: registry/paths.rs and rest_gateway.rs

    Method names as REST paths and verbs, the session token in the request's
    headers (main.rs), query strings, and the gateway's [dispatch] in front of
    [handle_rpc_request]. *)
From Stdlib Require Import String Ascii ZArith.
From stdpp Require Import base list gmap strings numbers.
From S2P Require Import Prelude RustStr Disk StateStore AuthTypes AuthStore AuthService JsonRpc Router Registry.

Open Scope string_scope.
Open Scope rust_scope.

(** ** Paths and verbs *)

Inductive HttpVerb := VGet | VPost | VPut | VDelete.

#[export] Instance HttpVerb_eq_dec : EqDecision HttpVerb.
Proof. solve_decision. Defined.

(** [as_str]. *)
Definition verb_str (v : HttpVerb) : string :=
  match v with VGet => "get" | VPost => "post" | VPut => "put" | VDelete => "delete" end.

(** [as_str().to_uppercase()]. *)
Definition verb_upper (v : HttpVerb) : string :=
  match v with VGet => "GET" | VPost => "POST" | VPut => "PUT" | VDelete => "DELETE" end.

Definition ACTION_VERBS : list (string * HttpVerb) := [
  ("get", VGet); ("list", VGet); ("status", VGet); ("check", VGet); ("find", VGet);
  ("delete", VDelete); ("destroy", VDelete); ("forget", VDelete); ("remove", VDelete);
  ("set", VPut); ("update", VPut)
].

Definition READ_NOUNS : list string := [
  "info"; "health"; "stats"; "version"; "alerts"; "disks"; "usage"; "timezones"; "notice"; "me";
  "config"; "available"; "routes"; "logs"; "summary"; "iommu"; "level"; "history"; "prometheus";
  "pending"; "devices"; "capabilities"; "constraints"; "readiness"; "snapshots"; "dependents";
  "children"; "top"; "timestats"; "required"
].

Definition infer_verb (method : string) : HttpVerb :=
  let last_segment := default method (list.last (split "." method)) in
  let words := split "_" last_segment in
  let first := default "" (head words) in
  let last_word := default "" (list.last words) in
  match List.find (fun kv => first =s kv.1) ACTION_VERBS with
  | Some (_, verb) => verb
  | None => if matches last_word READ_NOUNS then VGet else VPost
  end.

Definition translate (method : string) : HttpVerb * string :=
  (infer_verb method, "/api/v1/" ++ replace_char "." "/" method).

Definition method_from_segments (segments : string) : string := replace_char "/" "." segments.

(** [canonical_verb_for]: the table is built from the registry once. *)
Definition verb_table : list (string * HttpVerb) :=
  (fun m => (m_name m, (translate (m_name m)).1)) <$> all_methods.

Definition canonical_verb_for (method : string) : option HttpVerb :=
  snd <$> List.find (fun kv => kv.1 =s method) verb_table.

(** ** Headers *)

Record Headers := mkHeaders {
  h_x_real_ip : option string;
  h_cookie : option string;
  h_authorization : option string
}.

Definition SESSION_COOKIE : string := "nasty_session".

Fixpoint find_session_cookie (parts : list string) : option string :=
  match parts with
  | [] => None
  | part :: rest =>
      match split_once "=" (trim part) with
      | None => find_session_cookie rest
      | Some (name, value) =>
          if (name =s SESSION_COOKIE) && negb (value =s "") then Some value
          else find_session_cookie rest
      end
  end.

Definition parse_session_cookie (header : string) : option string :=
  find_session_cookie (split ";" header).

Definition token_from_headers (h : Headers) : option string :=
  match h_cookie h ≫= parse_session_cookie with
  | Some t => Some t
  | None => h_authorization h ≫= strip_prefix "Bearer "
  end.

(** ** Status codes *)

Definition map_error_to_status (code : Z) (message : string) : Z :=
  if ((code =? -32700) || (code =? -32600) || (code =? -32602))%Z then 400%Z
  else if (code =? -32601)%Z then 404%Z
  else
    let lower := to_ascii_lowercase message in
    if contains_str "permission denied" lower || contains_str "access denied" lower then 403%Z
    else if contains_str "not found" lower then 404%Z
    else if contains_str "missing params" lower || contains_str "missing field" lower
            || contains_str "invalid" lower then 400%Z
    else 500%Z.

Definition json_error (msg : string) : Json := JObject [("error", JString msg)].

(** Status and body. *)
Record HttpReply := mkReply { hr_status : Z; hr_body : option Json }.

Definition auth_error_to_response (err : AuthError) : HttpReply :=
  mkReply 401 (Some (json_error
    (match err with
     | InvalidToken => "invalid token"
     | TokenExpired => "token expired"
     | _ => "authentication failed"
     end))).

(** ** Query strings *)

(** What [serde_json], [url] and [uuid] supply to the gateway. *)
Class RestSerde := {
  json_from_str : string -> option Json;
  form_urldecode : string -> string;
  print_envelope : Json -> string -> Json -> string;
  parse_response : string -> result Response string
}.

(** The envelope reads back; a [null] parameter reads back as none. *)
Class RestSerdeLaws `{RpcSerde} `{RestSerde} : Prop := {
  parse_envelope id m v :
    parse_request (print_envelope id m v) =
      Ok (mkRequest "2.0" m (match v with JNull => None | _ => Some v end) id);
  parse_print_response r : parse_response (print_response r) = Ok r
}.

(** [Map::insert]. *)
Fixpoint json_insert (k : string) (v : Json) (fields : list (string * Json)) : list (string * Json) :=
  match fields with
  | [] => [(k, v)]
  | (k', v') :: rest => if k' =s k then (k, v) :: rest else (k', v') :: json_insert k v rest
  end.

Definition query_pair `{RestSerde} (pair : string) : string * Json :=
  let '(k, v) := match split_once "=" pair with Some t => t | None => (pair, "") end in
  let v := form_urldecode v in
  (form_urldecode k, default (JString v) (json_from_str v)).

Definition query_to_json `{RestSerde} (query : string) : Json :=
  if query =s "" then JNull
  else JObject (fold_left (fun obj pair => let '(k, v) := query_pair pair in json_insert k v obj)
                  (split "&" query) []).

(** ** Dispatch *)

Section Gateway.
Context `{AuthPrims} `{!Codec AuthState} `{!RateCodec} `{!RpcSerde} `{!RestSerde} {X : Type}.
Abbreviation Eng := (Engine X).
Context (try_route : Domain -> Env -> Request -> Session -> Eng -> option Response * Eng).
Context (authz : string -> result unit string).

(** The reply for a JSON-RPC response. *)
Definition unwrap_response (response : Response) : HttpReply :=
  match rs_error response with
  | Some err =>
      mkReply (map_error_to_status (er_code err) (er_message err))
        (Some (JObject [("error", JObject [("code", JInt (er_code err)); ("message", JString (er_message err))])]))
  | None =>
      match default JNull (rs_result response) with
      | JString s => if s =s "ok" then mkReply 204 None else mkReply 200 (Some (JString s))
      | JNull => mkReply 204 None
      | v => mkReply 200 (Some v)
      end
  end.

Definition dispatch (e : Env) (request_id : string) (headers : Headers) (path_tail : string)
    (verb : HttpVerb) (params : Json) (g : Eng) : HttpReply * Eng :=
  let method := method_from_segments path_tail in
  match canonical_verb_for method with
  | None => (mkReply 404 (Some (json_error ("unknown RPC method: " ++ method))), g)
  | Some canonical_verb =>
      if negb (bool_decide (canonical_verb = verb))
      then (mkReply 405 (Some (json_error ("method `" ++ method ++ "` is exposed as "
              ++ verb_upper canonical_verb ++ ", not " ++ verb_upper verb))), g)
      else
        let client_ip := default "unknown" (h_x_real_ip headers) in
        match token_from_headers headers with
        | None => (mkReply 401 (Some (json_error "missing session token")), g)
        | Some token =>
            match validate e token client_ip (auth g) with
            | (Err err, w) => (auth_error_to_response err, mkEngine w (events g) (services g))
            | (Ok session, w) =>
                let g1 := mkEngine w (events g) (services g) in
                let raw := print_envelope (JString request_id) method params in
                let '(response_str, g2) := handle_rpc_request try_route authz e raw session g1 in
                match parse_response response_str with
                | Err msg => (mkReply 500 (Some (json_error ("malformed engine response: " ++ msg))), g2)
                | Ok response => (unwrap_response response, g2)
                end
            end
        end
  end.

Definition gateway_get (e : Env) (request_id : string) (headers : Headers) (path : string)
    (query : option string) : Eng -> HttpReply * Eng :=
  dispatch e request_id headers path VGet (query_to_json (default "" query)).

(** [gateway_post], [gateway_put] and [gateway_delete] differ in the verb. *)
Definition gateway_body (verb : HttpVerb) (e : Env) (request_id : string) (headers : Headers)
    (path : string) (body : option Json) : Eng -> HttpReply * Eng :=
  dispatch e request_id headers path verb (default JNull body).

End Gateway.
