(* ===== verification/RestProps.v ===== *)
(** * What the dispatcher guarantees

    The gates of [handle_rpc_request] come before every handler, denials leave
    a trace and nothing else, successful mutations are recorded, and accounts
    change only in the hands of administrators.

    ** The registry, the gate and the gateway agree

    Declared roles are the enforced ones, methods and URLs correspond one to
    one, and the REST gateway grants nothing the dispatcher would refuse. *)
From Stdlib Require Import String Ascii ZArith.
From stdpp Require Import base list gmap strings numbers.
From S2P Require Import Prelude RustStr Disk StateStore AuthTypes AuthStore AuthService AuthReach JsonRpc Router Registry Rest.

Open Scope string_scope.
Open Scope rust_scope.

Section Dispatcher.
Context `{AuthPrims} `{!Codec AuthState} `{!RateCodec} `{!RpcSerde} {X : Type}.
Abbreviation Eng := (Engine X).
Context (try_route : Domain -> Env -> Request -> Session -> Eng -> option Response * Eng).
Context (authz : string -> result unit string).
Implicit Types (g : Eng) (req : Request) (s : Session) (e : Env).

Abbreviation handle := (handle_request try_route authz).

(** A request the gates let through. *)
Definition admitted s req : bool :=
  (negb (s_must_change_password s) || matches (rq_method req) password_change_methods)
  && role_permits (s_role s) (rq_method req).

(** The record the engine keeps of a denied request. *)
Definition denial e req s : AuditEntry :=
  mkAudit (now e) "permission_denied" (s_username s) (ip_or_unknown s)
    ("method=" ++ rq_method req ++ " role=" ++ fmt_debug_role (s_role s)).

(** The record of a successful mutation. *)
Definition mutation_record e req s : AuditEntry :=
  mkAudit (now e) (rq_method req) (s_username s) (ip_or_unknown s) (audit_detail req).

(** C4: No handler runs behind the gate. A request that the session's role does
    not permit, or that comes before a due password change, is answered with an
    error that carries the request's id; users, sessions, tokens, counters,
    files, other services and events stay as they were; and the audit trail
    gains exactly one record when, and only when, the role is the reason. *)
Theorem refused_requests_are_inert e req s g :
  admitted s req = false ->
  let out := handle e req s g in
  answers (rq_id req) out.1 /\ is_some (rs_error out.1) = true /\
  events out.2 = events g /\ services out.2 = services g /\
  state (auth out.2) = state (auth g) /\ rate_limit (auth out.2) = rate_limit (auth g) /\
  disk (auth out.2) = disk (auth g) /\
  audit_log (auth out.2) =
    (audit_log (auth g) ++
     if s_must_change_password s && negb (matches (rq_method req) password_change_methods)
     then [] else [denial e req s])%list.
Proof.
  unfold admitted, handle_request. intros Ha. cbn zeta.
  destruct (s_must_change_password s && _) eqn:Hm.
  { cbn. by rewrite app_nil_r. }
  assert (role_permits (s_role s) (rq_method req) = false) as ->; [|done].
  destruct (s_must_change_password s); simpl in *; [|done].
  apply negb_false_iff in Hm. by rewrite Hm in Ha.
Qed.

(** An admitted request is routed exactly once and its outcome decides the
    traces: a failed call leaves what its handler left; a successful call adds
    one audit record if the method is neither a read nor audited by the
    authentication service, and one event if it belongs to a collection. *)
Theorem admitted_requests_are_traced e req s g :
  admitted s req = true ->
  let r := route try_route authz e req s g in
  let out := handle e req s g in
  let m := rq_method req in
  out.1 = r.1 /\ services out.2 = services r.2 /\ state (auth out.2) = state (auth r.2) /\
  disk (auth out.2) = disk (auth r.2) /\
  audit_log (auth out.2) =
    (audit_log (auth r.2) ++
     if negb (is_some (rs_error r.1)) && negb (is_read_only m) && negb (starts_with "auth." m)
     then [mutation_record e req s] else [])%list /\
  events out.2 =
    (events r.2 ++
     if negb (is_some (rs_error r.1))
     then match collection_for_method m with Some c => [c] | None => [] end else [])%list.
Proof.
  unfold admitted. intros [Hm Hp]%andb_prop. unfold handle_request. cbn zeta.
  assert (s_must_change_password s && negb (matches (rq_method req) password_change_methods) = false) as ->.
  { by destruct (s_must_change_password s), (matches (rq_method req) password_change_methods). }
  rewrite Hp. cbn [negb]. destruct (route try_route authz e req s g) as [r g1].
  cbn [fst snd]. destruct (rs_error r); cbn [is_some negb andb].
  { by rewrite !app_nil_r. }
  destruct (negb (is_read_only _) && negb _), (collection_for_method _);
    cbn; rewrite ?app_nil_r; done.
Qed.

(** ** Accounts *)

(** Who may log in with which role, and which tokens exist. *)
Definition accounts (w : World) : list (string * Role * option string) * list ApiToken :=
  (ident <$> users (state w), api_tokens (state w)).

Abbreviation keeps_accounts a := (keeps (fun w => accounts w = a)).

Lemma accounts_commit e next a w :
  accounts w = a -> (ident <$> users next, api_tokens next) = a ->
  keeps_accounts a (commit_state e next) w.
Proof.
  intros Hw Hn. unfold keeps, wp, accounts.
  destruct (commit_spec e next w) as (_ & _ & [[-> _]|(-> & _)]); done.
Qed.

Lemma accounts_audit e ev u ip d a w :
  accounts w = a -> keeps_accounts a (audit e ev u ip d) w.
Proof. done. Qed.

#[local] Hint Resolve accounts_audit : rust.

Ltac accounts_go :=
  keeps_go; apply accounts_commit; [assumption|unfold accounts in *; simplify_eq/=].

Lemma accounts_logout e t w : keeps_accounts (accounts w) (logout e t) w.
Proof. assert (accounts w = accounts w) by done. unfold logout. accounts_go. done. Qed.

Lemma accounts_change_password e s u p w : keeps_accounts (accounts w) (change_password e s u p) w.
Proof.
  assert (accounts w = accounts w) by done. unfold change_password. accounts_go.
  f_equal. by apply map_update_first.
Qed.

Lemma accounts_reset e s u w : keeps_accounts (accounts w) (reset_webauthn_credentials e s u) w.
Proof.
  assert (accounts w = accounts w) by done. unfold reset_webauthn_credentials. accounts_go.
  f_equal. by apply map_update_first.
Qed.

(** A service call that begins with the administrator check does nothing for
    anybody else. *)
Lemma admin_check_first {A} (m : M World AuthError A) s w :
  role_eqb (s_role s) Admin = false ->
  ((throw_if (negb (role_eqb (s_role s) Admin)) Forbidden ;;; m) w).2 = w.
Proof. by intros ->. Qed.

Definition account_methods : list string :=
  ["auth.create_user"; "auth.delete_user"; "auth.token.create"; "auth.token.delete"].

(** Where a step of the dispatcher may leave the accounts changed. *)
Abbreviation account_step m s g g' :=
  (accounts (auth g') = accounts (auth g) \/ (s_role s = Admin /\ m ∈ account_methods)).

Lemma with_auth_keeps {A B} (m : M World AuthError A) (k : result A AuthError -> B) g :
  keeps_accounts (accounts (auth g)) m (auth g) ->
  accounts (auth (with_auth m k g).2) = accounts (auth g).
Proof. unfold keeps, wp, with_auth. by destruct (m (auth g)). Qed.

Lemma with_auth_admin {A B} (m : M World AuthError A) (k : result A AuthError -> B) s meth g :
  meth ∈ account_methods ->
  account_step meth s g
    (with_auth (throw_if (negb (role_eqb (s_role s) Admin)) Forbidden ;;; m) k g).2.
Proof.
  intros Hm. destruct (role_eqb (s_role s) Admin) eqn:Hr.
  - right. split; [by apply role_eqb_spec|done].
  - left. pose proof (admin_check_first m s (auth g) Hr) as E. unfold with_auth.
    destruct (_ (auth g)) as [r w]. simpl in *. by subst.
Qed.

(** A call whose method is one of the account methods. *)
Lemma account_arm m k s g g' :
  (m =s k) = true -> k ∈ account_methods -> (k ∈ account_methods -> account_step k s g g') ->
  account_step m s g g'.
Proof. intros ->%eqb_spec Hk Hs. by apply Hs. Qed.

Ltac account_arm :=
  eapply account_arm; [eassumption|by repeat constructor|intros Hin];
  repeat match goal with
  | |- context [match ?r with Ok _ => _ | Err _ => _ end] => destruct r as [x|?]; [|by left]
  end;
  repeat match goal with x : _ * _ |- _ => destruct x end;
  by apply with_auth_admin.

Lemma auth_route_accounts e req s g :
  (forall g, accounts (auth (try_route DAuth e req s g).2) = accounts (auth g)) ->
  account_step (rq_method req) s g (auth_try_route try_route authz e req s g).2.
Proof.
  intros Hother. unfold auth_try_route. cbn zeta.
  destruct (rq_method req =s "auth.me"); [by left|].
  destruct (rq_method req =s "auth.logout"); [left; apply with_auth_keeps, accounts_logout|].
  destruct (rq_method req =s "auth.change_password").
  { left. destruct (parse_params _ _) as [[u p]|]; [|done].
    apply with_auth_keeps, accounts_change_password. }
  destruct (rq_method req =s "auth.create_user") eqn:?; [account_arm|].
  destruct (rq_method req =s "auth.delete_user") eqn:?; [account_arm|].
  destruct (rq_method req =s "auth.list_users"); [by left|].
  destruct (rq_method req =s "auth.token.list").
  { left. apply with_auth_keeps. unfold list_api_tokens. by destruct (negb _). }
  destruct (rq_method req =s "auth.token.create") eqn:?; [account_arm|].
  destruct (rq_method req =s "auth.token.delete") eqn:?; [account_arm|].
  destruct (rq_method req =s "auth.webauthn.reset_for_user"); [|by left].
  left. destruct (negb _); [done|]. destruct (require_str _ _); [|done].
  apply with_auth_keeps, accounts_reset.
Qed.

Lemma route_accounts e req s g :
  (forall d e req s g, accounts (auth (try_route d e req s g).2) = accounts (auth g)) ->
  account_step (rq_method req) s g (route try_route authz e req s g).2.
Proof.
  intros Hother. unfold route. destruct (domain_of (rq_method req)) as [d|]; [|by left].
  pose proof (auth_route_accounts e req s g (Hother DAuth e req s)) as Hauth.
  pose proof (Hother d e req s g) as Hd.
  destruct d; first
    [ destruct (auth_try_route try_route authz e req s g); exact Hauth
    | destruct (try_route _ e req s g); by left ].
Qed.

(** Accounts change only in the hands of administrators. Whatever the
    request, as long as the other domains' handlers leave the accounts alone,
    the users with their roles and principals and the API tokens after it are
    those before it, unless the session is an administrator's with no password
    change due and the method is one of the four that manage accounts. *)
Theorem only_admins_change_accounts e req s g :
  (forall d e req s g, accounts (auth (try_route d e req s g).2) = accounts (auth g)) ->
  accounts (auth (handle e req s g).2) = accounts (auth g) \/
  (s_role s = Admin /\ s_must_change_password s = false /\ rq_method req ∈ account_methods).
Proof.
  intros Hother. pose proof (route_accounts e req s g Hother) as Hr.
  unfold handle_request. cbn zeta.
  destruct (s_must_change_password s && _) eqn:Hm; [by left|].
  destruct (role_permits (s_role s) (rq_method req)); cbn [negb]; [|by left].
  destruct (route try_route authz e req s g) as [r g1].
  assert (forall g2, accounts (auth g2) = accounts (auth g1) ->
    accounts (auth g2) = accounts (auth g) \/
    (s_role s = Admin /\ s_must_change_password s = false /\ rq_method req ∈ account_methods)) as Hgo.
  { intros g2 E. destruct Hr as [Hr|[Ha Hin]]; [left; by rewrite E|right]. split_and!; [done| |done].
    destruct (s_must_change_password s); [|done]. cbn [andb] in Hm.
    apply matches_elem in Hin.
    pose proof (matches_forall _ _ (fun x => negb (matches x password_change_methods)) Hin eq_refl) as Hn.
    cbn beta in Hn. congruence. }
  apply Hgo. destruct (rs_error r); [done|].
  by destruct (negb (is_read_only _) && _), (collection_for_method _).
Qed.

End Dispatcher.

(** ** Roles *)

(** The role of a session is at least the minimum a method declares. *)
Definition role_at_least (r : Role) (min : MethodRole) : bool :=
  match min, r with
  | RoleAny, _ => true
  | RoleOperator, (Admin | Operator) => true
  | RoleAdmin, Admin => true
  | _, _ => false
  end.

(** All lists the gate consults. *)
Definition gate_lists : list string :=
  (read_carve_outs ++ read_methods ++ self_methods ++ user_methods ++ operator_methods)%list.

Lemma all_methods_forall (P : Method -> bool) :
  forallb P all_methods = true -> forall m, m ∈ all_methods -> P m = true.
Proof. rewrite forallb_forall. intros HP m Hm%list_elem_of_In. by apply HP. Qed.

(** The checks on one method, as a test. *)
Definition role_check (m : Method) : bool :=
  forallb (fun r => Bool.eqb (role_permits r (m_name m)) (role_at_least r (m_role m)))
    [Admin; ReadOnly; Operator]
  && (negb (role_permits RUser (m_name m)) || bool_decide (m_role m = RoleAny))
  && is_some (domain_of (m_name m)).

Lemma role_checks m : m ∈ all_methods -> role_check m = true.
Proof. apply all_methods_forall. vm_compute. reflexivity. Qed.

(** C23: What the registry declares is what the gate enforces: for each of the
    329 registered methods, a management role may call it exactly when it
    reaches the declared minimum, and a standard user may call only methods
    declared for any role. Each method belongs to a domain of the dispatcher,
    no name is declared twice, and no list of the gate names a method that does
    not exist. *)
Theorem declared_roles_are_enforced :
  (forall m, m ∈ all_methods ->
     (forall r, r <> RUser -> role_permits r (m_name m) = role_at_least r (m_role m)) /\
     (role_permits RUser (m_name m) = true -> m_role m = RoleAny) /\
     domain_of (m_name m) <> None) /\
  NoDup (m_name <$> all_methods) /\
  (forall x, x ∈ gate_lists -> x ∈ m_name <$> all_methods).
Proof.
  split_and!.
  - intros m Hm.
    pose proof (role_checks m Hm) as Hall.
    apply andb_prop in Hall as [[Hr Hu]%andb_prop Hd]. rewrite forallb_forall in Hr. split_and!.
    + intros r Hne. apply Bool.eqb_prop, Hr. destruct r; simpl; tauto.
    + intros Hp. rewrite Hp in Hu. by apply bool_decide_eq_true in Hu.
    + by destruct (domain_of (m_name m)).
  - apply (bool_decide_eq_true_1 (NoDup _)). vm_compute. reflexivity.
  - intros x Hx. apply matches_elem in Hx.
    apply (matches_forall _ _ (fun x => matches x (m_name <$> all_methods))) in Hx;
      [by apply matches_elem|vm_compute; reflexivity].
Qed.

(** ** URLs *)

Lemma method_names_plain : forall m, m ∈ all_methods -> contains_char "/" (m_name m) = false.
Proof.
  intros m Hm. apply negb_true_iff.
  apply (all_methods_forall (fun m => negb (contains_char "/" (m_name m)))); [|done].
  vm_compute. reflexivity.
Qed.

Lemma rest_back m :
  contains_char "/" m = false ->
  exists tail, strip_prefix "/api/v1/" (translate m).2 = Some tail /\ method_from_segments tail = m.
Proof.
  intros Hm. exists (replace_char "." "/" m). split.
  - apply (strip_prefix_app "/api/v1/").
  - by apply replace_char_back.
Qed.

(** The verb table answers for the registered methods. *)
Lemma canonical_verb_Some method v :
  canonical_verb_for method = Some v ->
  v = (translate method).1 /\ exists m, m ∈ all_methods /\ m_name m = method.
Proof.
  unfold canonical_verb_for. destruct (List.find _ verb_table) as [kv|] eqn:E; [|done].
  intros [= <-]. apply find_Some_elem in E as [Hin Hk%eqb_spec].
  apply list_elem_of_fmap in Hin as (m & -> & Hm). simpl in *. subst method. eauto.
Qed.

Lemma canonical_verb_registered m :
  m ∈ all_methods -> canonical_verb_for (m_name m) = Some (translate (m_name m)).1.
Proof.
  intros Hm. destruct (canonical_verb_for (m_name m)) as [v|] eqn:E.
  - by apply canonical_verb_Some in E as [-> _].
  - exfalso. unfold canonical_verb_for in E.
    destruct (List.find _ verb_table) eqn:Hf; [done|].
    rewrite find_none_iff in Hf. specialize (Hf (m_name m, (translate (m_name m)).1)).
    simpl in Hf. rewrite eqb_refl in Hf. apply diff_true_false, Hf.
    apply list_elem_of_fmap. by exists m.
Qed.

(** Methods and URLs correspond one to one. The tail of the URL a method is
    published at leads the gateway back to that method, which it serves under
    the published verb; two methods with the same URL are the same method. *)
Theorem rest_paths_round_trip m :
  m ∈ all_methods ->
  (exists tail, strip_prefix "/api/v1/" (translate (m_name m)).2 = Some tail /\
     method_from_segments tail = m_name m /\
     canonical_verb_for (method_from_segments tail) = Some (translate (m_name m)).1) /\
  (forall m', m' ∈ all_methods -> (translate (m_name m')).2 = (translate (m_name m)).2 ->
     m_name m' = m_name m).
Proof.
  intros Hm. destruct (rest_back (m_name m) (method_names_plain m Hm)) as (tail & Ht & Hb). split.
  - exists tail. split_and!; [done..|]. rewrite Hb. by apply canonical_verb_registered.
  - intros m' Hm' E. destruct (rest_back (m_name m') (method_names_plain m' Hm')) as (tail' & Ht' & Hb').
    congruence.
Qed.

(** ** Safe verbs *)

(** Reads that need more than any role. *)
Definition privileged_reads : list string := ("system.network.pending" :: read_carve_outs)%list.

Definition verb_check (m : Method) : bool :=
  (negb (bool_decide ((translate (m_name m)).1 = VGet)) || is_read_only (m_name m)
   || matches (m_name m) privileged_reads || (m_name m =s "backup.repo.check"))
  && (negb (is_read_only (m_name m)) || bool_decide ((translate (m_name m)).1 = VGet)
      || bool_decide ((translate (m_name m)).1 = VPost)).

Lemma verb_checks m : m ∈ all_methods -> verb_check m = true.
Proof. apply all_methods_forall. vm_compute. reflexivity. Qed.

(** A GET reads. Each method published under GET is a read or one of the
    privileged reads, with one exception: [backup.repo.check], which starts a
    job. No read is published under PUT or DELETE. *)
Theorem get_methods_read m :
  m ∈ all_methods ->
  ((translate (m_name m)).1 = VGet ->
   is_read_only (m_name m) = true \/ m_name m ∈ privileged_reads \/ m_name m = "backup.repo.check") /\
  (is_read_only (m_name m) = true -> (translate (m_name m)).1 = VGet \/ (translate (m_name m)).1 = VPost).
Proof.
  intros [Hg Hr]%verb_checks%andb_prop. split.
  - intros Hv. rewrite bool_decide_eq_true_2 in Hg by done. simpl in Hg.
    apply orb_prop in Hg as [[Hg|Hg]%orb_prop|Hg]; [by left|right; left; by apply matches_elem|].
    right; right. by apply eqb_spec.
  - intros Hro. rewrite Hro in Hr. simpl in Hr.
    apply orb_prop in Hr as [Hr|Hr]; apply bool_decide_eq_true in Hr; auto.
Qed.

(** ** The gateway *)

Lemma map_error_status_high code msg : (400 <= map_error_to_status code msg)%Z.
Proof.
  unfold map_error_to_status. cbn zeta.
  repeat match goal with |- context [if ?b then _ else _] => destruct b; [lia|] end. lia.
Qed.

Lemma unwrap_success r : (hr_status (unwrap_response r) < 300)%Z -> rs_error r = None.
Proof.
  unfold unwrap_response. destruct (rs_error r) as [err|]; [|done]. simpl.
  pose proof (map_error_status_high (er_code err) (er_message err)). lia.
Qed.

Section Gateway.
Context `{AuthPrims} `{!Codec AuthState} `{!RateCodec} `{!RpcSerde} `{!RestSerde} `{!RestSerdeLaws} {X : Type}.
Context (try_route : Domain -> Env -> Request -> Session -> Engine X -> option Response * Engine X).
Context (authz : string -> result unit string).
Implicit Types (g : Engine X) (s : Session) (e : Env).

(** The JSON-RPC request of a REST call. *)
Definition rest_request (id method : string) (params : Json) : Request :=
  mkRequest "2.0" method (match params with JNull => None | _ => Some params end) (JString id).

Lemma handle_error_free e req s g :
  rs_error (handle_request try_route authz e req s g).1 = None -> admitted s req = true.
Proof.
  unfold handle_request, admitted. cbn zeta.
  destruct (s_must_change_password s), (matches _ _), (role_permits _ _); done.
Qed.

(** The gateway after its checks: the dispatcher on the call's request. *)
Lemma dispatch_handled e id h tail v params g token s :
  let method := method_from_segments tail in
  canonical_verb_for method = Some v -> token_from_headers h = Some token ->
  let ip := default "unknown" (h_x_real_ip h) in
  (validate e token ip (auth g)).1 = Ok s ->
  let g1 := mkEngine (validate e token ip (auth g)).2 (events g) (services g) in
  let out := handle_request try_route authz e (rest_request id method params) s g1 in
  dispatch try_route authz e id h tail v params g = (unwrap_response out.1, out.2).
Proof.
  cbn zeta. intros Hv Ht Hs. unfold dispatch. cbn zeta. rewrite Hv, bool_decide_eq_true_2 by done.
  cbn [negb]. rewrite Ht. destruct (validate _ _ _ _) as [r w]. simpl in Hs. subst r.
  unfold handle_rpc_request. rewrite parse_envelope. cbn [snd fst].
  fold (rest_request id (method_from_segments tail) params).
  destruct (handle_request _ _ _ _ _ _) as [r g2]. by rewrite parse_print_response.
Qed.

(** C29: The REST gateway opens no second door. A call that it answers with
    success is for a registered method under its published verb, carries a
    token that the authentication service accepts from the caller's address,
    is one the central gate admits for that session, and its effect on the
    engine is that of the dispatcher on the same request. *)
Theorem gateway_success_is_authorised e id h tail v params g :
  let out := dispatch try_route authz e id h tail v params g in
  (hr_status out.1 < 300)%Z ->
  exists m token s,
    m ∈ all_methods /\ method_from_segments tail = m_name m /\ v = (translate (m_name m)).1 /\
    token_from_headers h = Some token /\
    (validate e token (default "unknown" (h_x_real_ip h)) (auth g)).1 = Ok s /\
    let req := rest_request id (m_name m) params in
    admitted s req = true /\
    out.2 = (handle_request try_route authz e req s
               (mkEngine (validate e token (default "unknown" (h_x_real_ip h)) (auth g)).2
                  (events g) (services g))).2.
Proof.
  cbn zeta. intros Hst. pose proof Hst as Hok. unfold dispatch in Hok. cbn zeta in Hok.
  destruct (canonical_verb_for (method_from_segments tail)) as [cv|] eqn:Hcv; [|done].
  destruct (negb (bool_decide (cv = v))) eqn:Hdec; [done|].
  apply negb_false_iff, bool_decide_eq_true in Hdec. subst cv.
  destruct (token_from_headers h) as [token|] eqn:Ht; [|done].
  destruct (validate e token (default "unknown" (h_x_real_ip h)) (auth g)).1 as [s|err] eqn:Hs.
  2:{ rewrite (surjective_pairing (validate _ _ _ _)), Hs in Hok. done. }
  clear Hok. pose proof (dispatch_handled e id h tail v params g token s Hcv Ht Hs) as Hd.
  cbn zeta in Hd. rewrite Hd in Hst |- *. cbn [fst snd] in *.
  apply unwrap_success, handle_error_free in Hst.
  destruct (canonical_verb_Some _ _ Hcv) as (Hv & m & Hm & Hn). rewrite <- Hn in *.
  exists m, token, s. by split_and!.
Qed.

End Gateway.
