(* ===== verification/RpcWitness.v ===== *)
(** * The dispatcher and gateway theorems at work

    A serialisation of JSON values with its laws, an engine with the
    administrator of [AuthWitness] logged in, and the guarantees applied to it. *)
From Stdlib Require Import String Ascii ZArith.
From stdpp Require Import base list gmap strings numbers countable.
From S2P Require Import Prelude RustStr Disk StateStore AuthTypes AuthStore AuthService AuthReach AuthLockout AuthProps AuthWitness JsonRpc Router RestProps Registry Rest.

Open Scope string_scope.
Open Scope nat_scope.
Open Scope rust_scope.

(** ** A serialisation of JSON values *)

Fixpoint json_tree (v : Json) : gen_tree (Z + string) :=
  match v with
  | JNull => GenNode 0 []
  | JBool b => GenNode (if b then 1 else 2) []
  | JInt n => GenLeaf (inl n)
  | JFloat t => GenNode 3 [GenLeaf (inr t)]
  | JString s => GenLeaf (inr s)
  | JArray l => GenNode 4 (List.map json_tree l)
  | JObject fs => GenNode 5 (List.map (fun kv => GenNode 6 [GenLeaf (inr kv.1); json_tree kv.2]) fs)
  end.

Definition tree_key (t : gen_tree (Z + string)) : string :=
  match t with GenLeaf (inr s) => s | _ => "" end.

Fixpoint tree_json (t : gen_tree (Z + string)) : Json :=
  match t with
  | GenLeaf (inl n) => JInt n
  | GenLeaf (inr s) => JString s
  | GenNode 1 _ => JBool true
  | GenNode 2 _ => JBool false
  | GenNode 3 [GenLeaf (inr s)] => JFloat s
  | GenNode 4 l => JArray (List.map tree_json l)
  | GenNode 5 l =>
      JObject (List.map (fun t => match t with
                                  | GenNode _ [k; v] => (tree_key k, tree_json v)
                                  | _ => ("", JNull)
                                  end) l)
  | GenNode _ _ => JNull
  end.

Fixpoint tree_json_tree (v : Json) : tree_json (json_tree v) = v.
Proof.
  destruct v as [|[]| | | |l|fs]; try reflexivity; simpl; f_equal.
  - induction l as [|x l IH]; simpl; [reflexivity|]. f_equal; [apply tree_json_tree|apply IH].
  - induction fs as [|[k x] fs IH]; simpl; [reflexivity|].
    f_equal; [f_equal; apply tree_json_tree|apply IH].
Qed.

Definition print_json (v : Json) : string := pos_print (countable.encode (json_tree v)).
Definition parse_json (s : string) : Json :=
  match countable.decode (pos_parse s) with Some t => tree_json t | None => JNull end.

Lemma parse_print_json v : parse_json (print_json v) = v.
Proof. unfold parse_json, print_json. by rewrite pos_parse_print, countable.decode_encode, tree_json_tree. Qed.

Definition opt_json (o : option Json) : Json := match o with Some v => JArray [v] | None => JNull end.
Definition json_opt (v : Json) : option Json := match v with JArray [x] => Some x | _ => None end.

Definition response_json (r : Response) : Json :=
  JArray [JString (rs_jsonrpc r); opt_json (rs_result r); rs_id r;
          match rs_error r with
          | Some er => JArray [JInt (er_code er); JString (er_message er); opt_json (er_data er)]
          | None => JNull
          end].

Definition json_response (v : Json) : result Response string :=
  match v with
  | JArray [JString j; res; id; er] =>
      Ok (mkResponse j (json_opt res)
            (match er with
             | JArray [JInt c; JString m; d] => Some (mkRpcError c m (json_opt d))
             | _ => None
             end) id)
  | _ => Err "not a response"
  end.

#[export] Instance toy_rpc_serde : RpcSerde := {|
  parse_request s := match parse_json s with
                     | JArray [id; JString m; v] =>
                         Ok (mkRequest "2.0" m (match v with JNull => None | _ => Some v end) id)
                     | _ => Err "not a request"
                     end;
  print_response r := print_json (response_json r);
  change_password_params _ := Ok ("admin", "correct horse");
  create_user_params _ := Err "missing field";
  create_token_params _ := Err "missing field"
|}.

#[export] Instance toy_rest_serde : RestSerde := {|
  json_from_str _ := None;
  form_urldecode s := s;
  print_envelope id m v := print_json (JArray [id; JString m; v]);
  parse_response s := json_response (parse_json s)
|}.

#[export] Instance toy_rest_laws : RestSerdeLaws.
Proof.
  split; intros; cbn; rewrite parse_print_json; [done|].
  destruct r as [j [res|] [[c m [d|]]|] id]; done.
Qed.

(** ** An engine *)

(** The other domains answer nothing and change nothing. *)
Definition no_route (d : Domain) (e : Env) (req : Request) (s : Session) (g : Engine unit)
    : option Response * Engine unit := (Some (ok_ req (JString "pong")), g).
Definition no_principals (p : string) : result unit string := Err "no such principal".

Definition g1 : Engine unit := mkEngine w1 [] tt.

Definition req (m : string) : Request := mkRequest "2.0" m None (JInt 7).

(** The session of the administrator before and after the password change. *)
Definition viewer : Session := mkSession "v" "vic" ReadOnly None None None 2000 false (Some "10.0.0.3").

Lemma refused_requests_are_inert_witness :
  admitted viewer (req "system.reboot") = false /\
  audit_log (auth (handle_request no_route no_principals (env 3000 "x") (req "system.reboot") viewer g1).2)
  = (audit_log w1 ++ [denial (env 3000 "x") (req "system.reboot") viewer])%list.
Proof.
  assert (admitted viewer (req "system.reboot") = false) as Ha by (vm_compute; reflexivity).
  split; [exact Ha|].
  apply (refused_requests_are_inert no_route no_principals (env 3000 "x") (req "system.reboot") viewer g1 Ha).
Defined.

Definition operator : Session := mkSession "o" "olga" Operator None None None 2000 false (Some "10.0.0.4").

Lemma admitted_requests_are_traced_witness :
  admitted operator (req "snapshot.create") = true /\
  events (handle_request no_route no_principals (env 3000 "x") (req "snapshot.create") operator g1).2
  = ["snapshot"].
Proof.
  assert (admitted operator (req "snapshot.create") = true) as Ha by (vm_compute; reflexivity).
  split; [exact Ha|].
  destruct (admitted_requests_are_traced no_route no_principals (env 3000 "x") (req "snapshot.create")
    operator g1 Ha) as (_ & _ & _ & _ & _ & He).
  rewrite He. vm_compute. reflexivity.
Defined.

Lemma only_admins_change_accounts_witness :
  accounts (auth (handle_request no_route no_principals (env 3000 "x") (req "auth.delete_user") operator g1).2)
  = accounts w1.
Proof.
  destruct (only_admins_change_accounts no_route no_principals (env 3000 "x") (req "auth.delete_user")
    operator g1) as [E|[Ha _]]; [reflexivity|exact E|discriminate].
Defined.

Lemma fs_get_registered : exists m, m ∈ all_methods /\ m_name m = "fs.get".
Proof.
  destruct (List.find (fun m => m_name m =s "fs.get") all_methods) as [m|] eqn:E; [|vm_compute in E; discriminate].
  exists m. apply find_Some_elem in E as [? ?%eqb_spec]. done.
Qed.

Lemma rest_paths_round_trip_witness :
  exists m, m ∈ all_methods /\ m_name m = "fs.get" /\
    exists tail, strip_prefix "/api/v1/" "/api/v1/fs/get" = Some tail /\ method_from_segments tail = "fs.get".
Proof.
  destruct fs_get_registered as (m & Hm & Hn). exists m. split; [exact Hm|]. split; [exact Hn|].
  destruct (proj1 (rest_paths_round_trip m Hm)) as (tail & Ht & Hb & _). exists tail.
  rewrite Hn in Ht, Hb. split; [|exact Hb]. exact Ht.
Defined.

Lemma get_methods_read_witness :
  exists m, m ∈ all_methods /\ m_name m = "fs.get" /\
    (is_read_only "fs.get" = true -> (translate "fs.get").1 = VGet \/ (translate "fs.get").1 = VPost).
Proof.
  destruct fs_get_registered as (m & Hm & Hn). exists m.
  split; [exact Hm|]. split; [exact Hn|]. destruct (get_methods_read m Hm) as [_ Hr].
  rewrite Hn in Hr. exact Hr.
Defined.

(** A REST call with the administrator's cookie. *)
Definition hdrs : Headers :=
  mkHeaders (Some "10.0.0.1") (Some (String.append "a=1; nasty_session=" (generate_token "t"))) None.

Lemma gateway_success_is_authorised_witness :
  hr_status (dispatch no_route no_principals (env 2500 "x") "r1" hdrs "auth/me" VGet JNull g1).1 = 200%Z /\
  exists token, token_from_headers hdrs = Some token.
Proof.
  assert (hr_status (dispatch no_route no_principals (env 2500 "x") "r1" hdrs "auth/me" VGet JNull g1).1
          = 200%Z) as Hs by (vm_compute; reflexivity).
  split; [exact Hs|].
  destruct (gateway_success_is_authorised no_route no_principals (env 2500 "x") "r1" hdrs "auth/me" VGet JNull g1)
    as (_ & token & _ & _ & _ & _ & Ht & _); [rewrite Hs; lia|].
  exists token. exact Ht.
Defined.
