(* ===== verification/GuestShare.v ===== *)
(** * The bounded rate limiter of guestshare.rs

    [BoundedRateLimiter]: sliding windows per key, in a table of bounded size.
    Times are seconds since the epoch in an [i64]; both operands of every
    subtraction are non-negative, so it cannot overflow.

    ** Guest shares: engine/nasty-engine/src/guestshare.rs

    Share records on disk (one JSON file each, through [StateStore]), the
    operator's operations, the public lookups and download accounting, the
    password-unlock grants and the unlock limits. Every record mutation holds
    the service's state lock, so operations follow one another. Opening and
    streaming of files (descriptors, ZIP archives) is not modelled. *)
From Stdlib Require Import String Ascii ZArith Sorted.
From stdpp Require Import base list gmap strings numbers.
From S2P Require Import Prelude RustStr Disk StateStore AuthTypes AuthStore.

Open Scope string_scope.
Open Scope rust_scope.

(** [RateLimitEntry] is its timestamps, oldest first. *)
Record BoundedRateLimiter := mkLimiter {
  entries : gmap string (list Z);
  last_sweep_at : option Z
}.

(** [Default::default()]. *)
Definition limiter_default : BoundedRateLimiter := mkLimiter ∅ None.

(** [now >= t && now - t < window_secs]. *)
Definition fresh (now window t : Z) : bool := (t <=? now)%Z && (now - t <? window)%Z.

Definition sweep_expired (now window : Z) (l : BoundedRateLimiter) : BoundedRateLimiter :=
  mkLimiter
    (filter (fun kv => match list.last kv.2 with Some t => fresh now window t | None => false end = true)
       (entries l))
    (Some now).

(** [o.is_none_or(|last| f(last))]. *)
Definition is_none_or {A} (o : option A) (f : A -> bool) : bool :=
  match o with Some a => f a | None => true end.

(** The two housekeeping steps at the start of [reserve]. *)
Definition housekeep (now window : Z) (l : BoundedRateLimiter) : BoundedRateLimiter :=
  let l := match last_sweep_at l with
           | Some t => if (now <? t)%Z then mkLimiter ∅ (Some now) else l
           | None => l
           end in
  if is_none_or (last_sweep_at l) (fun t => (window <=? now - t)%Z) then sweep_expired now window l else l.

Definition reserve (key : string) (now window : Z) (max_attempts max_keys : nat)
    (l : BoundedRateLimiter) : bool * BoundedRateLimiter :=
  let l := housekeep now window l in
  match entries l !! key with
  | Some ts =>
      let ts := retain (fresh now window) ts in
      if (max_attempts <=? length ts)%nat
      then (false, mkLimiter (<[key := ts]> (entries l)) (last_sweep_at l))
      else (true, mkLimiter (<[key := (ts ++ [now])%list]> (entries l)) (last_sweep_at l))
  | None =>
      let l := if (max_keys <=? size (entries l))%nat
                  && is_none_or (last_sweep_at l) (fun t => (1 <=? now - t)%Z)
               then sweep_expired now window l else l in
      if (max_keys <=? size (entries l))%nat then (false, l)
      else (true, mkLimiter (<[key := [now]]> (entries l)) (last_sweep_at l))
  end.

(** [clear]. *)
Definition limiter_clear (key : string) (l : BoundedRateLimiter) : BoundedRateLimiter :=
  mkLimiter (delete key (entries l)) (last_sweep_at l).

(** ** The table is bounded *)

Lemma size_sweep now window l : size (entries (sweep_expired now window l)) <= size (entries l).
Proof. apply map_size_filter. Qed.

Lemma size_housekeep now window l : size (entries (housekeep now window l)) <= size (entries l).
Proof.
  unfold housekeep.
  set (l' := match last_sweep_at l with Some t => _ | None => l end).
  assert (size (entries l') <= size (entries l)) as Hl'.
  { unfold l'. destruct (last_sweep_at l); [|done]. destruct (_ <? _)%Z; [|done].
    cbn. rewrite map_size_empty. lia. }
  cbn zeta. destruct (is_none_or _ _); [|done].
  pose proof (size_sweep now window l'). lia.
Qed.

(** The table never outgrows its bound: whatever keys arrive and whatever
    the clock does, a reservation leaves at most [max_keys] keys if there were
    no more before. *)
Theorem limiter_table_bounded key now window max_attempts max_keys l :
  size (entries l) <= max_keys ->
  size (entries (reserve key now window max_attempts max_keys l).2) <= max_keys.
Proof.
  intros Hl. pose proof (size_housekeep now window l) as Hh. unfold reserve. cbn zeta.
  destruct (entries (housekeep now window l) !! key) as [ts|] eqn:Hk.
  - destruct (_ <=? _)%nat; cbn; rewrite map_size_insert, Hk; cbn; lia.
  - set (l' := if _ && _ then _ else _).
    assert (size (entries l') <= size (entries (housekeep now window l))) as Hl'.
    { unfold l'. destruct (_ && _); [apply size_sweep|done]. }
    destruct (max_keys <=? size (entries l'))%nat eqn:Hc; cbn; [lia|].
    apply Nat.leb_gt in Hc. rewrite map_size_insert. destruct (entries l' !! key); cbn; lia.
Qed.

(** ** The windows are enforced *)

(** Timestamps are in order and not after [t]: what a clock that does not go
    backwards maintains. *)
Definition in_order (t : Z) (l : BoundedRateLimiter) : Prop :=
  (forall k ts, entries l !! k = Some ts -> StronglySorted Z.le ts /\ Forall (fun x => (x <= t)%Z) ts) /\
  (forall s, last_sweep_at l = Some s -> (s <= t)%Z).

(** The timestamps of [key] from [t0] on. *)
Definition recent (t0 : Z) (key : string) (l : BoundedRateLimiter) : nat :=
  length (List.filter (fun x => (t0 <=? x)%Z) (default [] (entries l !! key))).

Lemma in_order_mono t t' l : (t <= t')%Z -> in_order t l -> in_order t' l.
Proof.
  intros Hle [He Hs]. split.
  - intros k ts [Hss Hf]%He. split; [done|]. revert Hf. apply Forall_impl. cbn. lia.
  - intros s E%Hs. lia.
Qed.

Lemma sorted_last (ts : list Z) t x :
  StronglySorted Z.le ts -> list.last ts = Some t -> x ∈ ts -> (x <= t)%Z.
Proof.
  intros Hs. induction Hs as [|y ts Hs IH Hy]; [done|]. intros Hl Hx.
  destruct ts as [|z ts].
  - cbn in Hl. apply list_elem_of_singleton in Hx. simplify_eq. lia.
  - rewrite last_cons_cons in Hl. apply elem_of_cons in Hx as [->|Hx]; [|by apply IH].
    rewrite list.Forall_forall in Hy. apply Hy. by apply last_Some_elem_of.
Qed.

Lemma filter_none {A} (f : A -> bool) l : (forall x, x ∈ l -> f x = false) -> List.filter f l = [].
Proof.
  induction l as [|x l IH]; intros Hf; [done|]. simpl. rewrite Hf by set_solver.
  apply IH. intros y Hy. apply Hf. set_solver.
Qed.

(** An expired entry has no timestamp in a window that still runs. *)
Lemma expired_recent t0 now window ts :
  (now < t0 + window)%Z -> StronglySorted Z.le ts -> Forall (fun x => (x <= now)%Z) ts ->
  match list.last ts with Some t => fresh now window t | None => false end = false ->
  List.filter (fun x => (t0 <=? x)%Z) ts = [].
Proof.
  intros Hw Hs Hf Hl. apply filter_none. intros x Hx. apply Z.leb_gt.
  destruct (list.last ts) as [t|] eqn:E; [|by apply last_None in E as ->; apply not_elem_of_nil in Hx].
  pose proof (sorted_last ts t x Hs E Hx). rewrite list.Forall_forall in Hf.
  specialize (Hf t (last_Some_elem_of _ _ E)). unfold fresh in Hl.
  apply andb_false_iff in Hl as [Hl%Z.leb_gt|Hl%Z.ltb_ge]; lia.
Qed.

Lemma in_order_sweep now window l : in_order now l -> in_order now (sweep_expired now window l).
Proof.
  intros [He Hs]. split.
  - intros k ts [E _]%map_lookup_filter_Some. by apply He in E.
  - intros s [= <-]. lia.
Qed.

Lemma recent_sweep t0 key now window l :
  (now < t0 + window)%Z -> in_order now l ->
  recent t0 key (sweep_expired now window l) = recent t0 key l.
Proof.
  intros Hw [He _]. unfold recent. f_equal.
  destruct (entries (sweep_expired now window l) !! key) as [ts|] eqn:E.
  - apply map_lookup_filter_Some in E as [-> _]. done.
  - destruct (entries l !! key) as [ts|] eqn:E'; [|done]. cbn. symmetry.
    destruct (He _ _ E') as [Hs Hf]. apply (expired_recent t0 now window); [done..|].
    apply map_lookup_filter_None in E as [E|E]; [congruence|].
    specialize (E ts E'). by apply not_true_iff_false in E.
Qed.

Lemma housekeep_spec t0 key now window l :
  (now < t0 + window)%Z -> in_order now l ->
  in_order now (housekeep now window l) /\ recent t0 key (housekeep now window l) = recent t0 key l.
Proof.
  intros Hw Ho. unfold housekeep.
  assert (match last_sweep_at l with
          | Some t => if (now <? t)%Z then mkLimiter ∅ (Some now) else l
          | None => l end = l) as ->.
  { destruct Ho as [_ Hs]. destruct (last_sweep_at l) as [s|]; [|done].
    specialize (Hs s eq_refl). by rewrite (proj2 (Z.ltb_ge _ _)). }
  cbn zeta. destruct (is_none_or _ _); [|done].
  split; [by apply in_order_sweep|by apply recent_sweep].
Qed.

(** Within the window, dropping stale timestamps loses none from [t0] on. *)
Lemma recent_retain t0 now window ts :
  (now < t0 + window)%Z -> Forall (fun x => (x <= now)%Z) ts ->
  List.filter (fun x => (t0 <=? x)%Z) (retain (fresh now window) ts) = List.filter (fun x => (t0 <=? x)%Z) ts.
Proof.
  intros Hw Hf. induction Hf as [|x ts Hx Hf IH]; [done|]. unfold retain in *. simpl.
  destruct (fresh now window x) eqn:E; simpl; [by rewrite IH|].
  rewrite IH. destruct (t0 <=? x)%Z eqn:E'; [|done].
  unfold fresh in E. apply andb_false_iff in E as [E%Z.leb_gt|E%Z.ltb_ge]; lia.
Qed.

Lemma sorted_retain (f : Z -> bool) ts : StronglySorted Z.le ts -> StronglySorted Z.le (retain f ts).
Proof.
  unfold retain. induction 1 as [|x ts Hs IH Hx]; simpl; [constructor|].
  destruct (f x); [|done]. constructor; [done|]. by apply Forall_retain.
Qed.

Lemma sorted_push ts t :
  StronglySorted Z.le ts -> Forall (fun x => (x <= t)%Z) ts -> StronglySorted Z.le (ts ++ [t])%list.
Proof.
  induction 1 as [|x ts Hs IH Hx]; intros Hf; simpl; [repeat constructor|].
  inversion_clear Hf as [|? ? Hxt Hf']. constructor; [by apply IH|].
  apply Forall_app. split; [done|]. by constructor.
Qed.

Lemma in_order_set t l key ts :
  in_order t l -> StronglySorted Z.le ts -> Forall (fun x => (x <= t)%Z) ts ->
  in_order t (mkLimiter (<[key := ts]> (entries l)) (last_sweep_at l)).
Proof.
  intros [He Hl] Hs Hf. split; [|done]. cbn. intros k ts'.
  destruct (decide (k = key)) as [->|Hne].
  - rewrite lookup_insert_eq. by intros [= <-].
  - rewrite lookup_insert_ne by done. apply He.
Qed.

Lemma recent_set t0 key k ts l :
  recent t0 key (mkLimiter (<[k := ts]> (entries l)) (last_sweep_at l)) =
  if k =s key then length (List.filter (fun x => (t0 <=? x)%Z) ts) else recent t0 key l.
Proof.
  unfold recent. cbn [entries]. destruct (k =s key) eqn:E; str_eq.
  - by rewrite E, lookup_insert_eq.
  - by rewrite lookup_insert_ne.
Qed.

(** One reservation, seen from the window that starts at [t0]. *)
Lemma reserve_spec t0 key k now window max_attempts max_keys l :
  (t0 <= now < t0 + window)%Z -> in_order now l -> 1 <= max_attempts ->
  let out := reserve k now window max_attempts max_keys l in
  in_order now out.2 /\
  recent t0 key out.2 = (if out.1 && (k =s key) then 1 else 0) + recent t0 key l /\
  (out.1 = true -> k = key -> recent t0 key l < max_attempts).
Proof.
  intros [Ht0 Hw] Ho Hmax. destruct (housekeep_spec t0 key now window l Hw Ho) as [Ho' Hr].
  unfold reserve. cbn zeta. rewrite <- Hr. clear Hr Ho. set (l1 := housekeep now window l) in *.
  assert (List.filter (fun x => (t0 <=? x)%Z) [now] = [now]) as Hnow.
  { simpl. by rewrite (proj2 (Z.leb_le _ _)). }
  destruct (entries l1 !! k) as [ts|] eqn:Hk.
  - destruct (proj1 Ho' _ _ Hk) as [Hs Hf].
    pose proof (recent_retain t0 now window ts Hw Hf) as Hret.
    assert (k = key -> recent t0 key l1 = length (List.filter (fun x => (t0 <=? x)%Z) ts)) as Hrec.
    { intros <-. unfold recent. by rewrite Hk. }
    destruct (max_attempts <=? _)%nat eqn:Hle; cbn [fst snd andb]; rewrite recent_set.
    + split_and!; [by apply in_order_set; [..|apply sorted_retain|apply Forall_retain]| |done].
      destruct (k =s key) eqn:E; str_eq; [|done]. by rewrite Hret, Hrec.
    + apply Nat.leb_gt in Hle. split_and!.
      * apply in_order_set; [done|by apply sorted_push; [apply sorted_retain|apply Forall_retain]|].
        apply Forall_app. split; [by apply Forall_retain|]. by repeat constructor.
      * destruct (k =s key) eqn:E; str_eq; [|done].
        rewrite filter_app, length_app, Hret, Hnow, Hrec by done. simpl. lia.
      * intros _ E. rewrite Hrec, <- Hret by done.
        pose proof (length_retain (fun x => (t0 <=? x)%Z) (retain (fresh now window) ts)) as Hlen.
        unfold retain at 1 in Hlen. lia.
  - set (l2 := if _ && _ then _ else _).
    assert (in_order now l2 /\ recent t0 key l2 = recent t0 key l1 /\ entries l2 !! k = None) as (Ho2 & Hr2 & Hk2).
    { unfold l2. destruct (_ && _); [|done]. split_and!; [by apply in_order_sweep|by apply recent_sweep|].
      apply map_lookup_filter_None. by left. }
    clearbody l2. destruct (max_keys <=? size (entries l2))%nat; cbn [fst snd andb]; [by rewrite Hr2|].
    rewrite recent_set. split_and!.
    + apply in_order_set; [done|by repeat constructor|by repeat constructor].
    + destruct (k =s key) eqn:E; str_eq; [|by rewrite Hr2].
      rewrite Hnow, <- Hr2. unfold recent. by rewrite <- E, Hk2.
    + intros _ ->. rewrite <- Hr2. unfold recent. rewrite Hk2. simpl. lia.
Qed.

(** Calls of the limiter. *)
Inductive LimiterOp :=
| LReserve (key : string) (now : Z)
| LClear (key : string).

(** The reservations granted to [key] in a run. *)
Fixpoint granted (key : string) (window : Z) (max_attempts max_keys : nat) (ops : list LimiterOp)
    (l : BoundedRateLimiter) : nat :=
  match ops with
  | [] => 0
  | LReserve k now :: ops' =>
      let '(ok, l') := reserve k now window max_attempts max_keys l in
      (if ok && (k =s key) then 1 else 0) + granted key window max_attempts max_keys ops' l'
  | LClear k :: ops' => granted key window max_attempts max_keys ops' (limiter_clear k l)
  end.

(** The clock of the run does not go backwards and stays in [t0, t0 + window);
    nobody clears [key]. *)
Fixpoint within (key : string) (t0 window t : Z) (ops : list LimiterOp) : Prop :=
  match ops with
  | [] => True
  | LReserve _ now :: ops' => (t <= now)%Z /\ (t0 <= now < t0 + window)%Z /\ within key t0 window now ops'
  | LClear k :: ops' => k <> key /\ within key t0 window t ops'
  end.

Lemma clear_spec t0 key k t l :
  k <> key -> in_order t l ->
  in_order t (limiter_clear k l) /\ recent t0 key (limiter_clear k l) = recent t0 key l.
Proof.
  intros Hne [He Hs]. split.
  - split; [|done]. cbn. intros k' ts E. apply lookup_delete_Some in E as [_ E]. by apply He in E.
  - unfold recent, limiter_clear. cbn [entries]. by rewrite lookup_delete_ne.
Qed.

Lemma granted_bounded key t0 window max_attempts max_keys ops t l :
  in_order t l -> within key t0 window t ops -> 1 <= max_attempts ->
  recent t0 key l <= max_attempts ->
  granted key window max_attempts max_keys ops l <= max_attempts - recent t0 key l.
Proof.
  revert t l. induction ops as [|[k now|k] ops IH]; intros t l Ho Hw Hmax Hl; simpl; [lia|..].
  - destruct Hw as (Ht & Hin & Hw).
    destruct (reserve_spec t0 key k now window max_attempts max_keys l Hin
      (in_order_mono t now l Ht Ho) Hmax) as (Ho' & Hr & Hlt).
    destruct (reserve k now window max_attempts max_keys l) as [ok l']. cbn [fst snd] in *.
    assert (recent t0 key l' <= max_attempts) as Hl'.
    { rewrite Hr. destruct ok; simpl; [|lia]. destruct (k =s key) eqn:E; str_eq; [|lia].
      specialize (Hlt eq_refl E). lia. }
    specialize (IH now l' Ho' Hw Hmax Hl'). rewrite Hr in IH, Hl'.
    destruct (ok && (k =s key)); lia.
  - destruct Hw as [Hne Hw]. destruct (clear_spec t0 key k t l Hne Ho) as [Ho' Hr].
    rewrite <- Hr in Hl. specialize (IH t _ Ho' Hw Hmax Hl). lia.
Qed.

(** The limiter enforces its window. In any run of reservations for any keys
    in which the clock does not go backwards, interleaved with the clearing of
    other keys and starting from the empty table, no more than [max_attempts]
    reservations are granted to one key within any [window] seconds; sweeping
    and eviction never forget an attempt that still counts. *)
Theorem limiter_window_enforced key t0 window max_attempts max_keys ops t :
  within key t0 window t ops -> 1 <= max_attempts ->
  granted key window max_attempts max_keys ops limiter_default <= max_attempts.
Proof.
  intros Hw Hmax.
  assert (in_order t limiter_default) as Ho.
  { split; [cbn; intros ? ? E; by rewrite lookup_empty in E|done]. }
  assert (recent t0 key limiter_default = 0) as Hr by (unfold recent; cbn; by rewrite lookup_empty).
  pose proof (granted_bounded key t0 window max_attempts max_keys ops t _ Ho Hw Hmax). lia.
Qed.

Lemma limiter_table_bounded_witness :
  size (entries (reserve "b" 5 60 3 1 (reserve "a" 5 60 3 1 limiter_default).2).2) <= 1.
Proof. apply limiter_table_bounded. vm_compute. lia. Defined.

Lemma limiter_window_enforced_witness :
  let ops := [LReserve "a" 10; LReserve "a" 11; LClear "b"; LReserve "a" 12; LReserve "a" 69] in
  granted "a" 60 3 4 ops limiter_default = 3 /\ granted "a" 60 3 4 ops limiter_default <= 3.
Proof.
  split; [vm_compute; reflexivity|].
  apply (limiter_window_enforced "a" 10 60 3 4 _ 0); [|lia]. cbn. repeat split; (lia || discriminate).
Defined.

Definition GRANT_TTL_SECS : Z := 3600.
Definition UNLOCK_MAX_FAILURES : nat := 10.
Definition UNLOCK_WINDOW_SECS : Z := 15 * 60.
Definition UNLOCK_MAX_TRACKED_KEYS : nat := 4096.
Definition UNLOCK_REQUEST_MAX : nat := 30.
Definition UNLOCK_REQUEST_WINDOW_SECS : Z := 60.
Definition UNLOCK_MAX_TRACKED_IPS : nat := 4096.
Definition MAX_PUBLIC_PATH_BYTES : nat := 4096.
Definition MAX_SHARE_ROOTS : nat := 32.

Inductive GuestShareError :=
| GsNotFound (id : string)
| GsNotRevoked (id : string)
| GsNoPaths
| GsTooManyPaths
| GsPathNotFound (p : string)
| GsPathNotInFilesystem (p : string)
| GsInvalidPath (p : string)
| GsHash (msg : string)
| GsPasswordCheckBusy
| GsIo (e : IoErr).

Record GuestShare := mkGuestShare {
  gs_id : string;
  gs_token_hash : string;
  gs_paths : list string;
  gs_created_by : string;
  gs_created_at : Z;
  gs_expires_at : option Z;
  gs_password_hash : option string;
  gs_max_downloads : option Z;
  gs_downloads : Z;
  gs_views : Z;
  gs_revoked : bool;
  gs_hidden : bool;
  gs_note : option string
}.

Record CreateGuestShareRequest := mkCreateRequest {
  cr_paths : list string;
  cr_expires_at : option Z;
  cr_password : option string;
  cr_max_downloads : option Z;
  cr_note : option string
}.

Record GuestShareInfo := mkShareInfo {
  si_id : string;
  si_names : list string;
  si_created_by : string;
  si_created_at : Z;
  si_expires_at : option Z;
  si_password_protected : bool;
  si_max_downloads : option Z;
  si_downloads : Z;
  si_views : Z;
  si_revoked : bool;
  si_hidden : bool;
  si_note : option string
}.

(** [GuestShareInfo::from]. *)
Definition share_info (s : GuestShare) : GuestShareInfo :=
  mkShareInfo (gs_id s)
    ((fun p => default "file" (file_name (components p))) <$> gs_paths s)
    (gs_created_by s) (gs_created_at s) (gs_expires_at s) (is_some (gs_password_hash s))
    (gs_max_downloads s) (gs_downloads s) (gs_views s) (gs_revoked s) (gs_hidden s) (gs_note s).

Definition is_accessible (s : GuestShare) (now : Z) : bool :=
  negb (gs_revoked s)
  && is_none_or (gs_expires_at s) (fun e => (now <? e)%Z)
  && is_none_or (gs_max_downloads s) (fun m => (gs_downloads s <? m)%Z).

(** [u32::saturating_add(1)]. *)
Definition u32_max : Z := 2 ^ 32 - 1.
Definition u32_succ (n : Z) : Z := Z.min (n + 1) u32_max.

Definition set_revoked (s : GuestShare) : GuestShare :=
  mkGuestShare (gs_id s) (gs_token_hash s) (gs_paths s) (gs_created_by s) (gs_created_at s)
    (gs_expires_at s) (gs_password_hash s) (gs_max_downloads s) (gs_downloads s) (gs_views s)
    true (gs_hidden s) (gs_note s).
Definition set_hidden (s : GuestShare) : GuestShare :=
  mkGuestShare (gs_id s) (gs_token_hash s) (gs_paths s) (gs_created_by s) (gs_created_at s)
    (gs_expires_at s) (gs_password_hash s) (gs_max_downloads s) (gs_downloads s) (gs_views s)
    (gs_revoked s) true (gs_note s).
Definition add_download (s : GuestShare) : GuestShare :=
  mkGuestShare (gs_id s) (gs_token_hash s) (gs_paths s) (gs_created_by s) (gs_created_at s)
    (gs_expires_at s) (gs_password_hash s) (gs_max_downloads s) (u32_succ (gs_downloads s))
    (gs_views s) (gs_revoked s) (gs_hidden s) (gs_note s).
Definition add_view (s : GuestShare) : GuestShare :=
  mkGuestShare (gs_id s) (gs_token_hash s) (gs_paths s) (gs_created_by s) (gs_created_at s)
    (gs_expires_at s) (gs_password_hash s) (gs_max_downloads s) (gs_downloads s)
    (u32_succ (gs_views s)) (gs_revoked s) (gs_hidden s) (gs_note s).

(** ** Paths *)

Inductive NodeKind := KFile | KDirectory | KOther.

(** [fs::canonicalize] and [fs::metadata] of the running system. *)
Record FsView := mkFsView {
  canonicalize : string -> option Path;
  node_kind : Path -> option NodeKind
}.

(** One of the characters a shared path must not contain. *)
Definition quote_or_backslash (s : string) : bool :=
  contains_char (ascii_of_nat 34) s || contains_char "'" s || contains_char (ascii_of_nat 92) s.

Definition canonicalize_under (fs : FsView) (root : Path) (requested : string)
    : result string GuestShareError :=
  if any_control requested || quote_or_backslash requested then Err (GsInvalidPath requested)
  else
    match canonicalize fs requested with
    | None => Err (GsPathNotFound requested)
    | Some canonical =>
        if negb (bool_decide (root `prefix_of` canonical)) then Err (GsPathNotInFilesystem requested)
        else if bool_decide (canonical = root) then Err (GsInvalidPath requested)
        else
          match node_kind fs canonical with
          | None => Err (GsPathNotFound requested)
          | Some KOther => Err (GsInvalidPath requested)
          | Some _ => Ok (display_path canonical)
          end
    end.

Fixpoint canonicalize_all (fs : FsView) (root : Path) (ps : list string)
    : result (list string) GuestShareError :=
  match ps with
  | [] => Ok []
  | p :: ps' =>
      match canonicalize_under fs root p with
      | Err e => Err e
      | Ok c => match canonicalize_all fs root ps' with
                | Err e => Err e
                | Ok cs => Ok (c :: cs)
                end
      end
  end.

Definition public_name_is_supported (name : string) : bool :=
  negb (name =s "") && negb (any_control name || quote_or_backslash name).

(** [std::path::Component] of a relative path. *)
Inductive Component := Normal (name : string) | CurDir | ParentDir.

(** Components after the first: repeated separators and [.] vanish. *)
Definition later_component (part : string) : option Component :=
  if (part =s "") || (part =s ".") then None
  else if part =s ".." then Some ParentDir
  else Some (Normal part).

(** [Path::components] of a relative path: a leading [.] is a component. *)
Definition relative_components (s : string) : list Component :=
  match split "/" s with
  | [] => []
  | first :: rest =>
      ((if first =s "." then [CurDir] else option_list (later_component first))
       ++ omap later_component rest)%list
  end.

Fixpoint normal_names (cs : list Component) : option (list string) :=
  match cs with
  | [] => Some []
  | Normal n :: cs' =>
      if negb (public_name_is_supported n) then None
      else (fun ns => n :: ns) <$> normal_names cs'
  | _ :: _ => None
  end.

(** The names of the path, with their joined form. *)
Definition public_relative_path (requested : string) : option (list string * string) :=
  if (MAX_PUBLIC_PATH_BYTES <? String.length requested)%nat
     || any_control requested || quote_or_backslash requested then None
  else if starts_with "/" requested then None
  else (fun names => (names, String.concat "/" names)) <$> normal_names (relative_components requested).

(** ** Records *)

Section Records.
Context `{AuthPrims} `{!Codec GuestShare}.
(** The I/O faults of the call, and the service's directories. *)
Context (F : Faults) (sd : StateDir) (fs_root : Path).

Abbreviation Share := (M Disk GuestShareError).

(** An I/O call of the store; [?] turns its error into [GsIo]. *)
Definition io {A} (m : M Disk IoErr A) : Share A :=
  fun d => match m d with (r, d') => (map_err GsIo r, d') end.

Definition list_ : Share (list GuestShare) := io (load_all F sd).

Definition load_share (id : string) : Share GuestShare :=
  o <- io (load F sd id) ;;
  match o with
  | Some s => ret s
  | None => throw (GsNotFound id)
  end.

Definition get (id : string) : Share GuestShare := load_share id.

Definition sha256_hex (input : string) : string := hex_string (sha256 input).

(** The record [create] stores. *)
Definition new_share (uuid token : string) (now : Z) (created_by : string) (paths : list string)
    (password_hash : option string) (req : CreateGuestShareRequest) : GuestShare :=
  mkGuestShare uuid (sha256_hex token) paths created_by now (cr_expires_at req) password_hash
    (cr_max_downloads req) 0 0 false false (cr_note req).

(** [token_bytes], [salt_bytes] and [uuid] are the randomness of the call. *)
Definition create (fs : FsView) (now : Z) (token_bytes salt_bytes uuid : string)
    (req : CreateGuestShareRequest) (created_by : string) : Share (GuestShareInfo * string) :=
  throw_if (match cr_paths req with [] => true | _ => false end) GsNoPaths ;;;
  throw_if (MAX_SHARE_ROOTS <? length (cr_paths req))%nat GsTooManyPaths ;;;
  canonical_paths <- lift (canonicalize_all fs fs_root (cr_paths req)) ;;
  password_hash <- lift (match cr_password req with
                         | Some pw =>
                             if pw =s "" then Ok None
                             else map_err (fun e => GsHash (display_auth_error e))
                                    (match hash_password salt_bytes pw with
                                     | Ok h => Ok (Some h)
                                     | Err e => Err e
                                     end)
                         | None => Ok None
                         end) ;;
  let token := generate_token token_bytes in
  let share := new_share uuid token now created_by canonical_paths password_hash req in
  io (save F sd (gs_id share) share) ;;;
  ret (share_info share, token).

Definition revoke (id : string) : Share GuestShare :=
  share <- load_share id ;;
  if negb (gs_revoked share)
  then io (save F sd (gs_id share) (set_revoked share)) ;;; ret (set_revoked share)
  else ret share.

Definition remove_share (id : string) : Share unit :=
  share <- load_share id ;;
  throw_if (negb (gs_revoked share)) (GsNotRevoked id) ;;;
  if negb (gs_hidden share)
  then io (save F sd (gs_id share) (set_hidden share))
  else ret tt.

Definition lookup_active (token : string) (now : Z) : Share (option GuestShare) :=
  let hash := sha256_hex token in
  shares <- io (load_all F sd) ;;
  ret (List.find (fun s => (gs_token_hash s =s hash) && is_accessible s now) shares).

Definition needs_password (s : GuestShare) : bool := is_some (gs_password_hash s).

(** [busy]: no permit for another password check. *)
Definition verify_share_password (busy : bool) (s : GuestShare) (password : string)
    : result bool GuestShareError :=
  match gs_password_hash s with
  | None => Ok true
  | Some hash => if busy then Err GsPasswordCheckBusy else Ok (is_ok (verify_password password hash))
  end.

(** [contended]: the state lock is held by another call. *)
Definition record_view (contended : bool) (id : string) : Share unit :=
  if contended then ret tt
  else
    o <- io (load F sd id) ;;
    match o with
    | Some share => _ <- attempt (E := GuestShareError) (io (save F sd id (add_view share))) ;; ret tt
    | None => ret tt
    end.

Definition register_download (id : string) (now : Z) : Share unit :=
  share <- load_share id ;;
  throw_if (negb (is_accessible share now)) (GsNotFound id) ;;;
  io (save F sd (gs_id share) (add_download share)).

End Records.

(** ** Grants and limits *)

Record GrantEntry := mkGrant { gr_share_id : string; gr_expires_at : Z }.

Definition prune_grants (now : Z) (grants : gmap string GrantEntry) : gmap string GrantEntry :=
  filter (fun kv => (now <? gr_expires_at kv.2)%Z = true) grants.

Definition mint_grant `{AuthPrims} (token_bytes share_id : string) (now : Z)
    (grants : gmap string GrantEntry) : string * gmap string GrantEntry :=
  let token := generate_token token_bytes in
  (token, <[token := mkGrant share_id (now + GRANT_TTL_SECS)]> (prune_grants now grants)).

Definition check_grant (grant share_id : string) (now : Z) (grants : gmap string GrantEntry)
    : bool * gmap string GrantEntry :=
  let grants := prune_grants now grants in
  (match grants !! grant with
   | Some e => (gr_share_id e =s share_id) && (now <? gr_expires_at e)%Z
   | None => false
   end, grants).

Definition unlock_failure_key `{AuthPrims} (ip token : string) : string :=
  ip ++ "|" ++ sha256_hex token.

Definition allow_unlock_request (ip : string) (now : Z) (l : BoundedRateLimiter)
    : bool * BoundedRateLimiter :=
  reserve ip now UNLOCK_REQUEST_WINDOW_SECS UNLOCK_REQUEST_MAX UNLOCK_MAX_TRACKED_IPS l.

Definition reserve_unlock_attempt `{AuthPrims} (ip token : string) (now : Z) (l : BoundedRateLimiter)
    : bool * BoundedRateLimiter :=
  reserve (unlock_failure_key ip token) now UNLOCK_WINDOW_SECS UNLOCK_MAX_FAILURES
    UNLOCK_MAX_TRACKED_KEYS l.

Definition clear_unlock_failures `{AuthPrims} (ip token : string) (l : BoundedRateLimiter)
    : BoundedRateLimiter :=
  limiter_clear (unlock_failure_key ip token) l.
