(* ===== verification/GuestShareProps.v ===== *)
(** * What guest shares guarantee

    Records only move forward, a revoked share is never served again, the
    download cap is never exceeded, a created link works, and grants unlock
    only the share they were minted for. *)
From Stdlib Require Import String Ascii ZArith.
From stdpp Require Import base list gmap strings numbers.
From S2P Require Import Prelude RustStr Disk StateStore Records AuthTypes AuthStore GuestShare.

Open Scope string_scope.
Open Scope rust_scope.

#[export] Instance guest_share_id : HasId GuestShare := gs_id.

(** ** Operations *)

Inductive ShareOp :=
| SCreate (fs : FsView) (now : Z) (token_bytes salt_bytes uuid : string)
    (req : CreateGuestShareRequest) (created_by : string)
| SRevoke (id : string)
| SRemove (id : string)
| SView (contended : bool) (id : string)
| SDownload (id : string) (now : Z).

(** The record an operation is about. *)
Definition target (op : ShareOp) : string :=
  match op with
  | SCreate _ _ _ _ uuid _ _ => uuid
  | SRevoke id | SRemove id | SView _ id | SDownload id _ => id
  end.

(** What an operation may do to a record: identity, credential, paths, expiry,
    password and cap stay; revocation and hiding are final; counters grow. *)
Record share_le (s s' : GuestShare) : Prop := mkShareLe {
  le_same : (gs_id s', gs_token_hash s', gs_paths s', gs_created_by s', gs_created_at s',
             gs_expires_at s', gs_password_hash s', gs_max_downloads s', gs_note s')
          = (gs_id s, gs_token_hash s, gs_paths s, gs_created_by s, gs_created_at s,
             gs_expires_at s, gs_password_hash s, gs_max_downloads s, gs_note s);
  le_revoked : gs_revoked s = true -> gs_revoked s' = true;
  le_hidden : gs_hidden s = true -> gs_hidden s' = true;
  le_downloads : (gs_downloads s <= u32_max -> gs_downloads s <= gs_downloads s' <= u32_max)%Z;
  le_views : (gs_views s <= u32_max -> gs_views s <= gs_views s' <= u32_max)%Z
}.

#[export] Instance share_le_refl : Reflexive share_le.
Proof. intros s. split; auto with lia. Qed.

#[export] Instance share_le_trans : Transitive share_le.
Proof.
  intros a b c [E1 R1 H1 D1 V1] [E2 R2 H2 D2 V2]. split; [congruence|auto..| |].
  - intros Ha. specialize (D1 Ha). specialize (D2 ltac:(lia)). lia.
  - intros Ha. specialize (V1 Ha). specialize (V2 ltac:(lia)). lia.
Qed.

Lemma share_le_steps s :
  share_le s (set_revoked s) /\ share_le s (set_hidden s) /\ share_le s (add_download s) /\
  share_le s (add_view s).
Proof. split_and!; split; cbn; auto with lia; unfold u32_succ; lia. Qed.

Section Steps.
Context `{AuthPrims} `{!Codec GuestShare} `{!CodecLaws GuestShare} (sd : StateDir) (fs_root : Path).
Implicit Types (d : Disk) (id : string) (F : Faults).

Definition exec_share F (op : ShareOp) (d : Disk) : result unit GuestShareError * Disk :=
  let drop {A} (x : result A GuestShareError * Disk) :=
    (match x.1 with Ok _ => Ok tt | Err e => Err e end, x.2) in
  match op with
  | SCreate fs now tb sb uuid req by_ => drop (create F sd fs_root fs now tb sb uuid req by_ d)
  | SRevoke id => drop (revoke F sd id d)
  | SRemove id => remove_share F sd id d
  | SView c id => record_view F sd c id d
  | SDownload id now => register_download F sd id now d
  end.

Lemma wp_load_share F id d (Q : result GuestShare GuestShareError -> Disk -> Prop) :
  dir_ok sd d -> valid_id id ->
  (forall s, stored sd d id = Some s -> gs_id s = id -> Q (Ok s) d) -> (forall e, Q (Err e) d) ->
  wp (load_share F sd id) Q d.
Proof.
  intros Hd Hid Hok Herr. destruct (load_stored sd F d id Hd Hid) as [H2 H1].
  unfold wp, load_share, bind, io. destruct (load F sd id d) as [r d1]. cbn in *. subst d1.
  destruct H1 as [-> | ->]; [apply Herr|]. cbn.
  destruct (stored sd d id) as [s|] eqn:E; [|apply Herr].
  apply Hok; [done|]. by eapply stored_id.
Qed.

Lemma wp_save_share F (x : GuestShare) d (Q : result unit GuestShareError -> Disk -> Prop) :
  dir_ok sd d -> valid_id (gs_id x) ->
  (forall d', dir_ok sd d' -> (forall i, valid_id i -> i <> gs_id x -> stored sd d' i = stored sd d i) ->
     stored sd d' (gs_id x) = Some x -> Q (Ok tt) d') ->
  (forall e d', dir_ok sd d' -> (forall i, valid_id i -> stored sd d' i = stored sd d i) -> Q (Err e) d') ->
  wp (io (save F sd (gs_id x) x)) Q d.
Proof.
  intros Hd Hid Hok Herr. destruct (save_stored sd F d x Hd Hid) as (Hd' & Hoth & Hr).
  unfold id_of, guest_share_id in *.
  unfold wp, io. destruct (save F sd (gs_id x) x d) as [[[]|e] d']; cbn in *.
  - by apply Hok.
  - apply Herr; [done|]. intros i Hi. destruct (decide (i = gs_id x)) as [->|]; auto.
Qed.

(** The disk after a step: still in order, and of each record other than a new
    one the same or a later version; only a download counts downloads. *)
Definition step_ok (dl : bool) (fresh_id : option string) d d' : Prop :=
  dir_ok sd d' /\
  forall i s, valid_id i -> fresh_id <> Some i -> stored sd d i = Some s ->
    exists s', stored sd d' i = Some s' /\ share_le s s' /\
      (dl = false -> gs_downloads s' = gs_downloads s).

Lemma step_refl b o d : dir_ok sd d -> step_ok b o d d.
Proof. intros Hd. split; [done|]. intros i s _ _ Hs. by exists s. Qed.

Lemma step_same b o d d' :
  dir_ok sd d' -> (forall i, valid_id i -> stored sd d' i = stored sd d i) -> step_ok b o d d'.
Proof. intros Hd He. split; [done|]. intros i s Hi _ Hs. exists s. by rewrite He. Qed.

Lemma step_update b d d' s s' :
  dir_ok sd d' -> stored sd d (gs_id s) = Some s -> gs_id s' = gs_id s -> share_le s s' ->
  (b = false -> gs_downloads s' = gs_downloads s) ->
  (forall i, valid_id i -> i <> gs_id s' -> stored sd d' i = stored sd d i) ->
  stored sd d' (gs_id s') = Some s' -> step_ok b None d d'.
Proof.
  intros Hd Hs Hid Hle Hdl Hoth Hnew. split; [done|]. intros i x Hi _ Hx.
  destruct (decide (i = gs_id s')) as [->|Hne].
  - rewrite Hid, Hs in Hx. injection Hx as <-. eauto.
  - exists x. by rewrite Hoth.
Qed.

(** Saving a later version of a loaded record. *)
Lemma wp_save_later b F s s' d :
  dir_ok sd d -> valid_id (gs_id s) -> stored sd d (gs_id s) = Some s ->
  gs_id s' = gs_id s -> share_le s s' -> (b = false -> gs_downloads s' = gs_downloads s) ->
  wp (io (save F sd (gs_id s') s')) (fun _ d' => step_ok b None d d') d.
Proof.
  intros Hd Hv Hs Hid Hle Hdl. apply wp_save_share; [done|by rewrite Hid|..].
  - intros d' Hd' Hoth Hnew. by eapply step_update.
  - intros e d' Hd' Hsame. by apply step_same.
Qed.

Definition is_download (op : ShareOp) : bool :=
  match op with SDownload _ _ => true | _ => false end.

Lemma exec_step F op d :
  dir_ok sd d -> valid_id (target op) ->
  step_ok (is_download op) (match op with SCreate _ _ _ _ uuid _ _ => Some uuid | _ => None end) d (exec_share F op d).2.
Proof.
  intros Hd Hv. destruct op as [fs now tb sb uuid req by_|id|id|c id|id now]; cbn [exec_share target] in *.
  - enough (wp (create F sd fs_root fs now tb sb uuid req by_) (fun _ d' => step_ok false (Some uuid) d d') d) as E
      by exact E.
    unfold create. apply wp_bind, wp_throw_if; [intros; by apply step_refl|]. intros _.
    apply wp_bind, wp_throw_if; [intros; by apply step_refl|]. intros _.
    apply wp_bind, wp_lift. destruct (canonicalize_all _ _ _) as [ps|]; [|by apply step_refl].
    apply wp_bind, wp_lift. destruct (match cr_password req with Some _ => _ | None => _ end) as [ph|];
      [|by apply step_refl].
    cbn zeta. apply wp_bind. apply wp_save_share; [done..| |].
    + intros d' Hd' Hoth _. apply wp_ret. split; [done|]. intros i s Hi Hne Hs. exists s.
      rewrite Hoth; [done|done|]. cbn. congruence.
    + intros e d' Hd' Hsame. by apply step_same.
  - enough (wp (revoke F sd id) (fun _ d' => step_ok false None d d') d) as E by exact E.
    unfold revoke. apply wp_bind, wp_load_share; [done..| |intros; by apply step_refl].
    intros s Hs <-. destruct (gs_revoked s) eqn:Hr; cbn [negb]; [by apply wp_ret, step_refl|].
    apply wp_bind. change (gs_id s) with (gs_id (set_revoked s)).
    eapply wp_mono; [|apply (wp_save_later false F s); [done..|apply share_le_steps|done]].
    by intros [|] d' Hstep.
  - enough (wp (remove_share F sd id) (fun _ d' => step_ok false None d d') d) as E by exact E.
    unfold remove_share. apply wp_bind, wp_load_share; [done..| |intros; by apply step_refl].
    intros s Hs <-. apply wp_bind, wp_throw_if; [intros; by apply step_refl|]. intros _.
    destruct (gs_hidden s); cbn [negb]; [by apply wp_ret, step_refl|].
    change (gs_id s) with (gs_id (set_hidden s)). apply (wp_save_later false F s); [done..|apply share_le_steps|done].
  - enough (wp (record_view F sd c id) (fun _ d' => step_ok false None d d') d) as E by exact E.
    unfold record_view. destruct c; [by apply wp_ret, step_refl|].
    destruct (load_stored sd F d id Hd Hv) as [H2 H1]. unfold wp, bind at 1, io at 1.
    destruct (load F sd id d) as [r d1]. cbn in H1, H2. subst d1.
    destruct H1 as [-> | ->]; cbn [map_err]; [by apply step_refl|].
    destruct (stored sd d id) as [s|] eqn:Hs; [|by apply step_refl].
    pose proof (stored_id sd d id s Hd Hv Hs : gs_id s = id) as <-.
    pose proof (wp_save_later false F s (add_view s) d Hd Hv Hs eq_refl
      (proj2 (proj2 (proj2 (share_le_steps s)))) (fun _ => eq_refl)) as Hstep.
    unfold wp in Hstep. unfold bind, attempt.
    change (gs_id (add_view s)) with (gs_id s) in Hstep.
    by destruct (io (save F sd (gs_id s) (add_view s)) d).
  - enough (wp (register_download F sd id now) (fun _ d' => step_ok true None d d') d) as E by exact E.
    unfold register_download. apply wp_bind, wp_load_share; [done..| |intros; by apply step_refl].
    intros s Hs <-. apply wp_bind, wp_throw_if; [intros; by apply step_refl|]. intros _.
    change (gs_id s) with (gs_id (add_download s)). apply (wp_save_later true F s); [done..|apply share_le_steps|done].
Qed.

(** ** Lookups *)

Lemma lookup_active_stored F token now d x :
  dir_ok sd d -> (lookup_active F sd token now d).1 = Ok (Some x) ->
  valid_id (gs_id x) /\ stored sd d (gs_id x) = Some x /\
  gs_token_hash x = sha256_hex token /\ is_accessible x now = true.
Proof.
  intros Hd. unfold lookup_active, bind, io, ret. destruct (load_all F sd d) as [r d'] eqn:E.
  destruct r as [items|]; [|done]. cbn [map_err fst]. intros [= Hf].
  apply find_Some_elem in Hf as [Hin [Hh%eqb_spec Ha]%andb_prop].
  destruct (load_all_stored sd F items d d' Hd E) as [_ Hall]. destruct (Hall x Hin). done.
Qed.

(** ** Runs *)

Fixpoint run_shares (tr : list (Faults * ShareOp)) (d : Disk) : Disk :=
  match tr with
  | [] => d
  | (F, op) :: tr' => run_shares tr' (exec_share F op d).2
  end.

(** The calls of a run are about well-formed identifiers, and none creates a
    share under [id] again. *)
Definition calls_ok id (tr : list (Faults * ShareOp)) : Prop :=
  Forall (fun c => valid_id (target c.2) /\
                   match c.2 with SCreate _ _ _ _ uuid _ _ => uuid <> id | _ => True end) tr.

Lemma run_ok id tr d s :
  dir_ok sd d -> valid_id id -> calls_ok id tr -> stored sd d id = Some s ->
  dir_ok sd (run_shares tr d) /\ exists s', stored sd (run_shares tr d) id = Some s' /\ share_le s s'.
Proof.
  revert d s. induction tr as [|[F op] tr IH]; intros d s Hd Hv Hc Hs; simpl.
  { split; [done|]. by exists s. }
  inversion_clear Hc as [|? ? [Ht Hne] Hc']. cbn [snd] in *.
  destruct (exec_step F op d Hd Ht) as [Hd' Hstep].
  destruct (Hstep id s Hv) as (s1 & Hs1 & Hle1 & Hdl1); [destruct op; congruence|done|].
  destruct (IH _ s1 Hd' Hv Hc' Hs1) as (Hd2 & s2 & Hs2 & Hle2). split; [done|].
  exists s2. split; [done|]. by transitivity s1.
Qed.

(** Shares only move forward. Through any sequence of operations on any
    shares, with any I/O failures in between, an existing share keeps its
    credential, paths, expiry, password and download cap, is never lost, never
    comes back from revocation or hiding, and its counters never go down. *)
Theorem share_records_only_advance id tr d s :
  dir_ok sd d -> valid_id id -> calls_ok id tr -> stored sd d id = Some s ->
  exists s', stored sd (run_shares tr d) id = Some s' /\ share_le s s'.
Proof. intros Hd Hv Hc Hs. exact (proj2 (run_ok id tr d s Hd Hv Hc Hs)). Qed.

(** A revoked share is never served again: after any sequence of operations
    and failures, looking up any token at any time, with whatever reads fail,
    does not yield it. *)
Theorem revoked_share_never_served id tr d s F token now x :
  dir_ok sd d -> valid_id id -> calls_ok id tr -> stored sd d id = Some s -> gs_revoked s = true ->
  (lookup_active F sd token now (run_shares tr d)).1 = Ok (Some x) -> gs_id x <> id.
Proof.
  intros Hd Hv Hc Hs Hr Hl E. destruct (run_ok id tr d s Hd Hv Hc Hs) as (Hd' & s' & Hs' & Hle).
  destruct (lookup_active_stored F token now _ x Hd' Hl) as (_ & Hx & _ & Ha).
  rewrite E, Hs' in Hx. injection Hx as ->. unfold is_accessible in Ha.
  by rewrite (le_revoked _ _ Hle Hr) in Ha.
Qed.

(** A registered download was allowed and is counted. *)
Lemma download_counted F id now d :
  dir_ok sd d -> valid_id id -> (register_download F sd id now d).1 = Ok tt ->
  exists s, stored sd d id = Some s /\ is_accessible s now = true /\
    stored sd (register_download F sd id now d).2 id = Some (add_download s).
Proof.
  intros Hd Hv Hok.
  enough (wp (register_download F sd id now) (fun r d' => r = Ok tt -> exists s,
    stored sd d id = Some s /\ is_accessible s now = true /\ stored sd d' id = Some (add_download s)) d) as E
    by exact (E Hok).
  clear Hok. unfold register_download. apply wp_bind, wp_load_share; [done..| |done].
  intros s Hs Hid. apply wp_bind, wp_throw_if; [done|]. intros Ha%negb_false_iff.
  change (gs_id s) with (gs_id (add_download s)). apply wp_save_share; [done|by cbn; rewrite Hid|..].
  - intros d' _ _ Hnew _. exists s. cbn in Hnew. by rewrite Hid in Hnew.
  - done.
Qed.

(** A download that is refused or not saved counts nothing. *)
Lemma download_failed F id now d i :
  dir_ok sd d -> valid_id id -> is_ok (register_download F sd id now d).1 = false -> valid_id i ->
  stored sd (register_download F sd id now d).2 i = stored sd d i.
Proof.
  intros Hd Hv Herr Hi.
  enough (wp (register_download F sd id now) (fun r d' => is_ok r = false ->
    stored sd d' i = stored sd d i) d) as E by exact (E Herr).
  clear Herr. unfold register_download. apply wp_bind, wp_load_share; [done..| |done].
  intros s Hs Hid. apply wp_bind, wp_throw_if; [done|]. intros _.
  change (gs_id s) with (gs_id (add_download s)). apply wp_save_share; [done|by cbn; rewrite Hid|done|].
  intros e d' _ Hsame _. by apply Hsame.
Qed.

(** Another share's download. *)
Lemma download_other F id now d i :
  dir_ok sd d -> valid_id id -> valid_id i -> i <> id ->
  stored sd (register_download F sd id now d).2 i = stored sd d i.
Proof.
  intros Hd Hv Hi Hne.
  enough (wp (register_download F sd id now) (fun r d' => stored sd d' i = stored sd d i) d) as E by exact E.
  unfold register_download. apply wp_bind, wp_load_share; [done..| |done].
  intros s Hs Hid. apply wp_bind, wp_throw_if; [done|]. intros _.
  change (gs_id s) with (gs_id (add_download s)). apply wp_save_share; [done|by cbn; rewrite Hid|..].
  - intros d' _ Hoth _. apply Hoth; [done|]. cbn. congruence.
  - intros e d' _ Hsame. by apply Hsame.
Qed.

(** The downloads of [id] served in a run. *)
Fixpoint served id (tr : list (Faults * ShareOp)) (d : Disk) : nat :=
  match tr with
  | [] => 0
  | (F, op) :: tr' =>
      (match op with
       | SDownload i _ => if (i =s id) && is_ok (exec_share F op d).1 then 1 else 0
       | _ => 0
       end) + served id tr' (exec_share F op d).2
  end.

(** One call, counted against what is left of the cap. *)
Lemma cap_step id F op d s m :
  dir_ok sd d -> valid_id id -> valid_id (target op) ->
  match op with SCreate _ _ _ _ uuid _ _ => uuid <> id | _ => True end ->
  stored sd d id = Some s -> gs_max_downloads s = Some m -> (gs_downloads s <= m <= u32_max)%Z ->
  exists s', stored sd (exec_share F op d).2 id = Some s' /\ gs_max_downloads s' = Some m /\
    (gs_downloads s' <= m)%Z /\
    (gs_downloads s' = gs_downloads s +
       match op with
       | SDownload i _ => if (i =s id) && is_ok (exec_share F op d).1 then 1 else 0
       | _ => 0
       end)%Z.
Proof.
  intros Hd Hv Ht Hne Hs Hm Hle. destruct (exec_step F op d Hd Ht) as [Hd' Hstep].
  destruct (Hstep id s Hv) as (s1 & Hs1 & Hle1 & Hdl1); [destruct op; congruence|done|].
  assert (gs_max_downloads s1 = Some m) as Hm1 by (pose proof (le_same _ _ Hle1); congruence).
  destruct op as [| | | |i now]; try (exists s1; rewrite Hdl1 by done; split_and!; done || lia).
  cbn [exec_share] in *. destruct (i =s id) eqn:Hi; str_eq; simpl.
  - subst i. destruct (is_ok (register_download F sd id now d).1) eqn:Hok.
    + destruct (download_counted F id now d Hd Hv) as (s0 & Hs0 & Ha & Hnew).
      { by destruct (register_download F sd id now d).1 as [[]|]. }
      rewrite Hs in Hs0. injection Hs0 as <-. exists (add_download s). cbn.
      unfold is_accessible in Ha. rewrite Hm in Ha. apply andb_prop in Ha as [_ Ha%Z.ltb_lt].
      unfold u32_succ. split_and!; [done..| |]; lia.
    + exists s. rewrite download_failed by done. split_and!; done || lia.
  - exists s. rewrite download_other by done. split_and!; done || lia.
Qed.

(** C5: The download cap holds. However operations follow one another and
    whatever I/O fails, the downloads a share with a cap serves never exceed
    what was left of the cap; a download whose count could not be saved is not
    served. *)
Theorem download_cap_holds id tr d s m :
  dir_ok sd d -> valid_id id -> calls_ok id tr -> stored sd d id = Some s ->
  gs_max_downloads s = Some m -> (gs_downloads s <= m <= u32_max)%Z ->
  (Z.of_nat (served id tr d) <= m - gs_downloads s)%Z.
Proof.
  intros Hd Hv Hc. revert d s Hd. induction Hc as [|[F op] tr [Ht Hne] Hc IH]; intros d s Hd Hs Hm Hle; simpl; [lia|].
  cbn [snd] in *. destruct (cap_step id F op d s m Hd Hv Ht Hne Hs Hm Hle) as (s1 & Hs1 & Hm1 & Hle1 & Hdl).
  specialize (IH _ s1 (proj1 (exec_step F op d Hd Ht)) Hs1 Hm1 ltac:(lia)).
  destruct op as [| | | |i now]; try lia. destruct (_ && _); lia.
Qed.

(** ** Links *)

(** What the loader makes of one directory entry when nothing fails. *)
Definition parse_entry d (p : Path) : option GuestShare :=
  if is_json p then
    match d !! p with
    | Some f => match decode (f_content f) with Ok x => Some x | Err _ => None end
    | None => None
    end
  else None.

Lemma load_loop_no_faults ps acc d :
  Forall (fun p => forall f, d !! p = Some f -> is_regular f = true) ps ->
  load_all_loop no_faults ps acc d = (Ok (acc ++ omap (parse_entry d) ps)%list, d).
Proof.
  intros Hps. revert acc. induction Hps as [|p ps Hp _ IH]; intros acc; [by rewrite app_nil_r|].
  cbn [load_all_loop omap list_omap]. unfold bind, attempt, check, ret at 1 2. cbn [fault no_faults].
  unfold parse_entry at 1. destruct (is_json p); cbn [negb]; [|apply IH].
  rewrite read_to_string_no_faults by done.
  destruct (d !! p) as [f|]; [|apply IH]. destruct (decode (f_content f)); [|apply IH].
  rewrite IH. by rewrite <- app_assoc.
Qed.

(** The entries of a directory when nothing fails. *)
Definition entries_of (dir0 : Path) d : list Path :=
  List.filter (fun p => bool_decide (parent p = Some dir0)) (map_to_list d).*1.

Lemma load_all_complete d id x :
  dir_ok sd d -> valid_id id -> stored sd d id = Some x ->
  exists items, load_all no_faults sd d = (Ok items, d) /\ x ∈ items.
Proof.
  intros Hd Hv Hx. unfold load_all, bind, attempt.
  assert (read_dir no_faults (dir sd) d = (Ok (entries_of (dir sd) d), d)) as -> by reflexivity.
  set (ps := entries_of (dir sd) d).
  assert (forall p, p ∈ ps -> exists n, p = (dir sd ++ [n])%list) as Hps.
  { intros p Hp. apply list_elem_of_In, filter_In in Hp as [_ Hp]. apply parent_snoc.
    by apply bool_decide_eq_true in Hp. }
  exists (omap (parse_entry d) ps). split.
  { apply (load_loop_no_faults ps []). apply list.Forall_forall. intros p [n ->]%Hps. apply (dir_plain sd d Hd). }
  apply list_elem_of_omap. exists (item_path sd id). unfold stored in Hx.
  destruct (d !! item_path sd id) as [f|] eqn:Hf; [|done]. split.
  - apply list_elem_of_In, filter_In. split.
    + apply list_elem_of_In, list_elem_of_fmap. exists (item_path sd id, f). split; [done|].
      by apply elem_of_map_to_list.
    + apply bool_decide_eq_true. rewrite item_path_eq by apply Hv. unfold parent.
      destruct (dir sd ++ _)%list eqn:E; [by destruct (dir sd)|]. rewrite <- E. by rewrite removelast_last.
  - unfold parse_entry. by rewrite is_json_item, Hf.
Qed.

(** What a successful [create] leaves behind. *)
Lemma create_stored F fs now tb sb uuid req by_ d :
  dir_ok sd d -> valid_id uuid ->
  wp (create F sd fs_root fs now tb sb uuid req by_)
    (fun r d' => forall info token, r = Ok (info, token) ->
       exists ps ph, canonicalize_all fs fs_root (cr_paths req) = Ok ps /\
         (forall pw, cr_password req = Some pw -> pw <> "" ->
            exists h, ph = Some h /\ hash_password sb pw = Ok h) /\
         let x := new_share uuid token now by_ ps ph req in
         token = generate_token tb /\ info = share_info x /\ dir_ok sd d' /\
         stored sd d' uuid = Some x /\
         (forall i, valid_id i -> i <> uuid -> stored sd d' i = stored sd d i)) d.
Proof.
  intros Hd Hv. unfold create. apply wp_bind, wp_throw_if; [done|]. intros _.
  apply wp_bind, wp_throw_if; [done|]. intros _. apply wp_bind, wp_lift.
  destruct (canonicalize_all fs fs_root (cr_paths req)) as [ps|]; [|done]. apply wp_bind, wp_lift.
  destruct (match cr_password req with Some _ => _ | None => _ end) as [ph|] eqn:Hph; [|done].
  cbn zeta. apply wp_bind, wp_save_share; [done..| |done].
  intros d' Hd' Hoth Hnew. apply wp_ret. intros info token [= <- <-]. exists ps, ph.
  split_and!; try done.
  intros pw E Hne. rewrite E in Hph. apply eqb_neq_spec in Hne. rewrite Hne in Hph.
  destruct (hash_password sb pw) as [h|]; [|done]. injection Hph as <-. eauto.
Qed.

(** A created link works and keeps its promises. When [create] returns a
    token, and no other share has its hash, a lookup of that token finds the new
    share as long as it has not expired and allows a download; the record holds
    the token's hash, the operator's limits and the canonical paths; and the
    password given, if any, is the one that unlocks it. *)
Theorem created_link_works `{!AuthPrimsLaws} F fs now tb sb uuid req by_ d info token d' :
  create F sd fs_root fs now tb sb uuid req by_ d = (Ok (info, token), d') ->
  dir_ok sd d -> valid_id uuid ->
  (forall i y, valid_id i -> i <> uuid -> stored sd d i = Some y -> gs_token_hash y <> sha256_hex token) ->
  exists x, stored sd d' uuid = Some x /\ info = share_info x /\
    gs_token_hash x = sha256_hex token /\ gs_expires_at x = cr_expires_at req /\
    gs_max_downloads x = cr_max_downloads req /\
    canonicalize_all fs fs_root (cr_paths req) = Ok (gs_paths x) /\
    (forall later, is_none_or (cr_expires_at req) (fun e => later <? e)%Z = true ->
       is_none_or (cr_max_downloads req) (fun m => 0 <? m)%Z = true ->
       (lookup_active no_faults sd token later d').1 = Ok (Some x)) /\
    (forall pw, cr_password req = Some pw -> pw <> "" ->
       needs_password x = true /\ verify_share_password false x pw = Ok true).
Proof.
  intros Hc Hd Hv Huniq. pose proof (create_stored F fs now tb sb uuid req by_ d Hd Hv) as Hs.
  unfold wp in Hs. rewrite Hc in Hs. destruct (Hs info token eq_refl) as (ps & ph & Hps & Hpw & Htok & Hi & Hd' & Hx & Hoth).
  cbn [snd] in *. clear Hs Hc. set (x := new_share uuid token now by_ ps ph req) in *.
  exists x. split_and!; try done.
  - intros later He Hm. destruct (load_all_complete d' uuid x Hd' Hv Hx) as (items & Hl & Hin).
    unfold lookup_active, bind, io, ret. rewrite Hl. cbn [map_err fst]. f_equal.
    assert (is_accessible x later = true) as Ha by (unfold is_accessible; cbn; by rewrite He, Hm).
    destruct (List.find _ items) as [y|] eqn:Hf.
    + apply find_Some_elem in Hf as [Hy [Hh%eqb_spec _]%andb_prop].
      destruct (load_all_stored sd no_faults items d' d' Hd' Hl) as [_ Hall].
      destruct (Hall y Hy) as [Hvy Hsy]. destruct (decide (gs_id y = uuid)) as [E|Hne]; [unfold id_of, guest_share_id in *; congruence|].
      rewrite Hoth in Hsy by done. by destruct (Huniq _ _ Hvy Hne Hsy).
    + rewrite find_none_iff in Hf. specialize (Hf x Hin). cbn in Hf. by rewrite eqb_refl, Ha in Hf.
  - intros pw E Hne. destruct (Hpw pw E Hne) as (h & -> & Hh). split; [done|].
    unfold verify_share_password. cbn. unfold hash_password in Hh.
    destruct (salt_encode_b64 sb) as [salt|]; [|done].
    destruct (argon2_hash_password pw salt) as [h'|] eqn:Ea; [|done]. injection Hh as ->.
    destruct (argon2_verifies _ _ _ Ea) as (parsed & Hp & Hok).
    unfold verify_password. by rewrite Hp, Hok.
Qed.

End Steps.

(** ** Grants *)

Inductive GrantOp :=
| GMint (token_bytes share_id : string) (now : Z)
| GCheck (grant share_id : string) (now : Z).

Section Grants.
Context `{AuthPrims}.
Implicit Types (gr : gmap string GrantEntry) (ops : list GrantOp).

Definition exec_grant (op : GrantOp) gr : gmap string GrantEntry :=
  match op with
  | GMint tb share now => (mint_grant tb share now gr).2
  | GCheck g share now => (check_grant g share now gr).2
  end.

(** The history, latest first, and the grants it leaves. *)
Fixpoint run_grants ops : gmap string GrantEntry :=
  match ops with
  | [] => ∅
  | op :: ops' => exec_grant op (run_grants ops')
  end.

Lemma prune_grants_Some now gr g e :
  prune_grants now gr !! g = Some e <-> gr !! g = Some e /\ (now < gr_expires_at e)%Z.
Proof. unfold prune_grants. rewrite map_lookup_filter_Some. cbn. by rewrite Z.ltb_lt. Qed.

Lemma grants_minted ops g e :
  run_grants ops !! g = Some e ->
  exists tb t, GMint tb (gr_share_id e) t ∈ ops /\ generate_token tb = g /\
    gr_expires_at e = (t + GRANT_TTL_SECS)%Z.
Proof.
  induction ops as [|op ops IH]; simpl; [by rewrite lookup_empty|].
  assert (forall now, prune_grants now (run_grants ops) !! g = Some e ->
    exists tb t, GMint tb (gr_share_id e) t ∈ op :: ops /\ generate_token tb = g /\
      gr_expires_at e = (t + GRANT_TTL_SECS)%Z) as Hold.
  { intros now [Hg _]%prune_grants_Some. destruct (IH Hg) as (tb & t & Hin & ? & ?).
    exists tb, t. split_and!; [|done..]. set_solver. }
  destruct op as [tb share now|g' share now]; cbn -[prune_grants]; [|apply Hold].
  intros [(<- & <-)|(_ & Hg)]%lookup_insert_Some; [|by eapply Hold].
  exists tb, now. split_and!; [set_solver|done..].
Qed.

(** A grant unlocks the share it was minted for and nothing else, for an
    hour: right after minting, the token passes the check for that share until
    the hour is over; and whatever was minted and checked before, a check
    passes only if that very token was minted for that very share less than an
    hour ago. *)
Theorem grants_unlock_their_share :
  (forall tb share t gr now, (t <= now < t + GRANT_TTL_SECS)%Z ->
     (check_grant (mint_grant tb share t gr).1 share now (mint_grant tb share t gr).2).1 = true) /\
  (forall ops g share now, (check_grant g share now (run_grants ops)).1 = true ->
     exists tb t, GMint tb share t ∈ ops /\ generate_token tb = g /\ (now < t + GRANT_TTL_SECS)%Z).
Proof.
  split.
  - intros tb share t gr now Ht. unfold check_grant, mint_grant. cbn -[prune_grants].
    destruct (prune_grants now _ !! _) as [e|] eqn:E.
    + apply prune_grants_Some in E as [E Hlt]. rewrite lookup_insert_eq in E. injection E as <-. cbn in *.
      rewrite eqb_refl. by apply Z.ltb_lt.
    + exfalso.
      assert (prune_grants now (<[generate_token tb := mkGrant share (t + GRANT_TTL_SECS)]> (prune_grants t gr))
                !! generate_token tb = Some (mkGrant share (t + GRANT_TTL_SECS))) as E'.
      { apply prune_grants_Some. rewrite lookup_insert_eq. split; [done|]. cbn. lia. }
      congruence.
  - intros ops g share now. unfold check_grant. cbn -[prune_grants].
    destruct (prune_grants now (run_grants ops) !! g) as [e|] eqn:E; [|done].
    intros [<-%eqb_spec Hlt%Z.ltb_lt]%andb_prop. apply prune_grants_Some in E as [E _].
    destruct (grants_minted ops g e E) as (tb & t & Hin & Hg & He). exists tb, t.
    split_and!; [done..|]. lia.
Qed.

End Grants.

(** ** Guest paths *)

Lemma split_parts c s x : x ∈ split c s -> contains_char c x = false.
Proof.
  revert x. induction s as [|d s IH]; intros x; cbn [RustStr.split].
  { intros ->%list_elem_of_singleton. done. }
  destruct (Ascii.eqb c d) eqn:E.
  - intros [->|Hx]%elem_of_cons; [done|by apply IH].
  - assert (forall h, contains_char c h = false -> contains_char c (String d h) = false) as Hc.
    { intros h Hh. cbn [contains_char]. by rewrite E. }
    destruct (split c s) as [|h t] eqn:Hs.
    + intros ->%list_elem_of_singleton. by apply (Hc "").
    + intros [->|Hx]%elem_of_cons; [apply Hc, IH; set_solver|apply IH; set_solver].
Qed.

Lemma relative_components_normal s n :
  Normal n ∈ relative_components s -> contains_char "/" n = false /\ n <> "." /\ n <> "..".
Proof.
  assert (forall part, part ∈ split "/" s -> later_component part = Some (Normal n) ->
    contains_char "/" n = false /\ n <> "." /\ n <> "..") as Hl.
  { intros part Hp. unfold later_component.
    destruct ((part =s "") || (part =s ".")) eqn:E1; [done|]. apply orb_false_iff in E1 as [_ E1].
    destruct (part =s "..") eqn:E2; [done|]. intros [= <-]. str_eq.
    split_and!; [by apply (split_parts "/" s)|done..]. }
  unfold relative_components. destruct (split "/" s) as [|first rest]; [set_solver|].
  intros [Hn|Hn]%elem_of_app.
  - destruct (first =s "."); [apply list_elem_of_singleton in Hn; done|].
    apply (Hl first); [set_solver|]. destruct (later_component first) eqn:E; [|set_solver].
    apply list_elem_of_singleton in Hn. congruence.
  - apply list_elem_of_omap in Hn as (part & Hp & E). apply (Hl part); [set_solver|done].
Qed.

Lemma normal_names_spec cs names :
  normal_names cs = Some names ->
  cs = Normal <$> names /\ Forall (fun n => public_name_is_supported n = true) names.
Proof.
  revert names. induction cs as [|[n| |] cs IH]; intros names; cbn; [by intros [= <-]| |done..].
  destruct (public_name_is_supported n) eqn:Hn; cbn; [|done].
  destruct (normal_names cs) as [ns|]; [|done]. intros [= <-].
  destruct (IH ns eq_refl) as [-> Hf]. split; [done|]. by constructor.
Qed.

(** A guest's path stays below the shared directory. The names it resolves
    to are plain components, never empty, [.] or [..] and without a separator,
    a quote or a control character; an absolute path, a path with [..] anywhere
    or with more than 4096 bytes is refused. *)
Theorem guest_paths_stay_below requested names joined :
  public_relative_path requested = Some (names, joined) ->
  Forall (fun n => n <> "" /\ n <> "." /\ n <> ".." /\ contains_char "/" n = false /\
                   any_control n = false /\ quote_or_backslash n = false) names /\
  joined = String.concat "/" names /\ starts_with "/" requested = false /\
  (".." ∉ split "/" requested) /\ String.length requested <= MAX_PUBLIC_PATH_BYTES.
Proof.
  unfold public_relative_path. destruct (_ || _) eqn:Hbad; [done|].
  apply orb_false_iff in Hbad as [[Hlen _]%orb_false_iff _]. apply Nat.ltb_ge in Hlen.
  destruct (starts_with "/" requested) eqn:Habs; [done|].
  destruct (normal_names (relative_components requested)) as [ns|] eqn:Hn; [|done]. intros [= <- <-].
  apply normal_names_spec in Hn as [Hcs Hsup]. split_and!; try done.
  - rewrite list.Forall_forall in Hsup |- *. intros n Hin. specialize (Hsup n Hin).
    unfold public_name_is_supported in Hsup.
    apply andb_prop in Hsup as [Hne [Hctl Hq]%negb_true_iff%orb_false_iff]. str_eq.
    destruct (relative_components_normal requested n) as (? & ? & ?).
    { rewrite Hcs. apply list_elem_of_fmap. eauto. }
    done.
  - intros Hdd. enough (ParentDir ∈ relative_components requested) as Hp.
    { rewrite Hcs in Hp. apply list_elem_of_fmap in Hp as (? & ? & _). done. }
    unfold relative_components. destruct (split "/" requested) as [|first rest]; [set_solver|].
    apply elem_of_cons in Hdd as [<-|Hdd].
    + set_solver.
    + apply elem_of_app. right. apply list_elem_of_omap. by exists "..".
Qed.
