(* ===== verification/FirewallRules.v ===== *)
(** * Firewall rules: the data and pure functions of nasty-system/src/firewall.rs

    Ports per service, restrictions, custom rules with their validation, and
    the rendering of the nftables table. Ports are 16-bit numbers in [Z]. *)
From Stdlib Require Import String Ascii ZArith.
From stdpp Require Import base list gmap strings numbers.
From S2P Require Import Prelude RustStr Disk.

Open Scope string_scope.
Open Scope rust_scope.

(** ** Protocols: nasty-system/src/protocol.rs *)

Inductive Protocol := Nfs | Smb | Iscsi | Nvmeof | Nut | Ssh | Avahi | Smart | Watchdog | RestServer.

Definition protocol_name (p : Protocol) : string :=
  match p with
  | Nfs => "nfs" | Smb => "smb" | Iscsi => "iscsi" | Nvmeof => "nvmeof" | Nut => "nut"
  | Ssh => "ssh" | Avahi => "avahi" | Smart => "smart" | Watchdog => "watchdog"
  | RestServer => "rest-server"
  end.

Definition ALL_PROTOCOLS : list Protocol :=
  [Nfs; Smb; Iscsi; Nvmeof; Nut; Ssh; Avahi; Smart; Watchdog; RestServer].

Definition protocol_from_name (name : string) : option Protocol :=
  List.find (fun p => protocol_name p =s name) ALL_PROTOCOLS.

(** ** Data *)

Inductive Transport := Tcp | Udp.

Record PortSpec := mkPort {
  ps_port : Z;
  ps_to : option Z;
  ps_transport : Transport;
  ps_source : option string;
  ps_iface : option string
}.

Record FirewallRule := mkRule {
  r_service : string;
  r_ports : list PortSpec;
  r_active : bool
}.

(** [FirewallState] is its rules. *)
Abbreviation FirewallState := (list FirewallRule).

Record FirewallRestrictions := mkRestrictions {
  fr_services : gmap string (list string);
  fr_interfaces : gmap string (list string)
}.

Record CustomRule := mkCustom {
  c_id : string;
  c_label : string;
  c_transport : Transport;
  c_from : Z;
  c_to : Z;
  c_source : option string;
  c_iface : option string;
  c_enabled : bool
}.

Record CustomRuleInput := mkCustomInput {
  ci_label : string;
  ci_transport : Transport;
  ci_from : Z;
  ci_to : Z;
  ci_source : option string;
  ci_iface : option string;
  ci_enabled : bool
}.

Record PublishedAppPort := mkPublished {
  pa_app : string;
  pa_host_port : Z;
  pa_container_port : Z;
  pa_transport : string
}.

#[export] Instance Transport_eq_dec : EqDecision Transport.
Proof. solve_decision. Defined.
#[export] Instance PortSpec_eq_dec : EqDecision PortSpec.
Proof. solve_decision. Defined.
#[export] Instance PublishedAppPort_eq_dec : EqDecision PublishedAppPort.
Proof. solve_decision. Defined.

(** ** Ports of the services *)

Definition tcp (port : Z) : PortSpec := mkPort port None Tcp None None.
Definition udp (port : Z) : PortSpec := mkPort port None Udp None None.
Definition tcp_range (from to : Z) : PortSpec := mkPort from (Some to) Tcp None None.

Definition ports_for_protocol (p : Protocol) : list PortSpec :=
  match p with
  | Nfs => [tcp 2049]
  | Smb => [tcp 445; tcp 139; udp 3702; tcp 5357]
  | Iscsi => [tcp 3260]
  | Nvmeof => [tcp 4420]
  | Nut => [tcp 3493]
  | Ssh => [tcp 22]
  | Avahi => [udp 5353]
  | Smart => []
  | Watchdog => []
  | RestServer => [tcp 8000]
  end.

Definition webui_ports : list PortSpec := [tcp 80; tcp 443].
Definition rdma_ports : list PortSpec := [udp 4791; tcp 20049].
Definition dc_ports : list PortSpec :=
  (flat_map (fun p => [tcp p; udp p]) [53; 88; 389; 464]%Z
  ++ (tcp <$> [135; 139; 445; 636; 3268; 3269]%Z)
  ++ (udp <$> [137; 138]%Z)
  ++ [tcp_range 49152 65535])%list.

(** ** Validation *)

(** [IpAddr::from_str] of the standard library's parser: the family of the
    address, and the characters an address is made of. *)
Inductive IpFamily := V4 | V6.
Class IpParser := parse_ip : string -> option IpFamily.

(** [str::parse::<u8>]. *)
Definition parse_u8 (s : string) : option Z := parse_unsigned 255 s.

Definition valid_source `{IpParser} (s : string) : bool :=
  let '(addr, prefix) := match split_once "/" s with
                         | Some (a, p) => (a, Some p)
                         | None => (s, None)
                         end in
  match parse_ip addr with
  | None => false
  | Some ip =>
      match prefix with
      | None => true
      | Some p => match parse_u8 p with
                  | Some bits => match ip with V4 => (bits <=? 32)%Z | V6 => (bits <=? 128)%Z end
                  | None => false
                  end
      end
  end.

Definition iface_char (c : ascii) : bool :=
  is_ascii_alphanumeric c || Ascii.eqb c "." || Ascii.eqb c "_" || Ascii.eqb c "-" || Ascii.eqb c "@".

Definition valid_iface (s : string) : bool :=
  negb (s =s "") && (String.length s <=? 15)%nat && all_chars iface_char s.

Definition validate_custom_input `{IpParser} (input : CustomRuleInput) : result unit string :=
  if (ci_from input =? 0)%Z then Err "port must be ≥ 1"
  else if (ci_to input <? ci_from input)%Z then Err "range start must be ≤ range end"
  else
    let label := trim (ci_label input) in
    if label =s "" then Err "label is required"
    else if (64 <? String.length label)%nat then Err "label must be ≤ 64 characters"
    else if any_control (ci_label input) then Err "label must not contain control characters"
    else
      match ci_source input with
      | Some src => if negb (valid_source src)
                    then Err ("invalid source (expected an IP or CIDR): " ++ src)
                    else match ci_iface input with
                         | Some i => if negb (valid_iface i) then Err ("invalid interface name: " ++ i) else Ok tt
                         | None => Ok tt
                         end
      | None => match ci_iface input with
                | Some i => if negb (valid_iface i) then Err ("invalid interface name: " ++ i) else Ok tt
                | None => Ok tt
                end
      end.

(** Whether a port specification meets the range [from, to] of a transport. *)
Definition meets (transport : Transport) (from to : Z) (p : PortSpec) : bool :=
  bool_decide (ps_transport p = transport) && (ps_port p <=? to)%Z
  && (from <=? default (ps_port p) (ps_to p))%Z.

Definition service_port_conflict (state : FirewallState) (transport : Transport) (from to : Z)
    : option string :=
  r_service <$> List.find (fun r => existsb (meets transport from to) (r_ports r)) state.

Definition transport_str (t : Transport) : string := match t with Tcp => "tcp" | Udp => "udp" end.

Definition same_rule (r : CustomRule) (input : CustomRuleInput) : bool :=
  bool_decide (c_transport r = ci_transport input) && (c_from r =? ci_from input)%Z
  && (c_to r =? ci_to input)%Z && bool_decide (c_source r = ci_source input)
  && bool_decide (c_iface r = ci_iface input).

(** ** Restrictions *)

Definition restrict (source iface : option string) (p : PortSpec) : PortSpec :=
  mkPort (ps_port p) (ps_to p) (ps_transport p) source iface.

Definition apply_restrictions (ports : list PortSpec) (sources ifaces : list string) : list PortSpec :=
  match sources, ifaces with
  | [], [] => ports
  | _ :: _, _ :: _ =>
      flat_map (fun p => flat_map (fun src => (fun i => restrict (Some src) (Some i) p) <$> ifaces) sources) ports
  | _ :: _, [] => flat_map (fun p => (fun src => restrict (Some src) None p) <$> sources) ports
  | [], _ :: _ => flat_map (fun p => (fun i => restrict None (Some i) p) <$> ifaces) ports
  end.

(** [restrictions.services.get(service).cloned().unwrap_or_default()]. *)
Definition sources_of (r : FirewallRestrictions) (service : string) : list string :=
  default [] (fr_services r !! service).
Definition ifaces_of (r : FirewallRestrictions) (service : string) : list string :=
  default [] (fr_interfaces r !! service).

Definition restricted_rule (r : FirewallRestrictions) (service : string) (ports : list PortSpec)
    (active : bool) : FirewallRule :=
  mkRule service (apply_restrictions ports (sources_of r service) (ifaces_of r service)) active.

Definition for_service (service : string) (r : FirewallRule) : bool := r_service r =s service.

Definition set_ports (ports : list PortSpec) (r : FirewallRule) : FirewallRule :=
  mkRule (r_service r) ports (r_active r).
Definition set_active (active : bool) (r : FirewallRule) : FirewallRule :=
  mkRule (r_service r) (r_ports r) active.

Definition replace_rule_ports (r : FirewallRestrictions) (service : string) (ports : list PortSpec)
    (state : FirewallState) : bool * FirewallState :=
  let ports := apply_restrictions ports (sources_of r service) (ifaces_of r service) in
  match List.find (for_service service) state with
  | Some rule =>
      if bool_decide (r_ports rule = ports) then (false, state)
      else (true, update_first (for_service service) (set_ports ports) state)
  | None => (true, (state ++ [mkRule service ports false])%list)
  end.

(** [FirewallRestrictions::strip_iface_refs]. *)
Definition strip_iface_refs (removed : list string) (r : FirewallRestrictions) : bool * FirewallRestrictions :=
  match removed with
  | [] => (false, r)
  | _ =>
      let keep := retain (fun i => negb (existsb (String.eqb i) removed)) in
      (existsb (fun kv => negb (length (keep kv.2) =? length kv.2)%nat) (map_to_list (fr_interfaces r)),
       mkRestrictions (fr_services r)
         (omap (fun l => match keep l with [] => None | l' => Some l' end) (fr_interfaces r)))
  end.

(** ** Rendering *)

Definition line (s : string) : string := s ++ newline.
Definition lines (l : list string) : string := String.concat "" (line <$> l).

Definition saddr_clause `{IpParser} (src : string) : string :=
  match parse_ip (default src (head (split "/" src))) with
  | Some V6 => "ip6 saddr " ++ src
  | _ => "ip saddr " ++ src
  end.

(** The conditions on the interface and the source of a rule. *)
Definition origin_conditions `{IpParser} (iface source : option string) : list string :=
  (option_list ((fun i => ("iifname " ++ quote ++ i ++ quote)%string) <$> iface)
   ++ option_list (saddr_clause <$> source))%list.

Definition render_port `{IpParser} (service : string) (p : PortSpec) : string :=
  let proto := transport_str (ps_transport p) in
  let dport := match ps_to p with
               | Some to => proto ++ " dport " ++ fmt_Z (ps_port p) ++ "-" ++ fmt_Z to
               | None => proto ++ " dport " ++ fmt_Z (ps_port p)
               end in
  "        " ++ String.concat " " (origin_conditions (ps_iface p) (ps_source p) ++ [dport])%list
  ++ " accept # " ++ service.

Definition render_custom `{IpParser} (r : CustomRule) : string :=
  let proto := transport_str (c_transport r) in
  let dport := if (c_from r =? c_to r)%Z then proto ++ " dport " ++ fmt_Z (c_from r)
               else proto ++ " dport " ++ fmt_Z (c_from r) ++ "-" ++ fmt_Z (c_to r) in
  "        " ++ String.concat " " (origin_conditions (c_iface r) (c_source r) ++ [dport])%list
  ++ " accept # custom:" ++ c_id r.

Definition render_published (p : PublishedAppPort) : option string :=
  let go proto :=
    Some ("        ct direction original ct status dnat meta l4proto " ++ proto
          ++ " ct original proto-dst " ++ fmt_Z (pa_host_port p) ++ " accept # app-published") in
  if eq_ignore_ascii_case (pa_transport p) "tcp" then go "tcp"
  else if eq_ignore_ascii_case (pa_transport p) "udp" then go "udp"
  else None.

Definition render_custom_forward `{IpParser} (r : CustomRule) : string :=
  let dst := if (c_from r =? c_to r)%Z then "ct original proto-dst " ++ fmt_Z (c_from r)
             else "ct original proto-dst " ++ fmt_Z (c_from r) ++ "-" ++ fmt_Z (c_to r) in
  "        " ++ String.concat " "
    (["ct direction original"; "ct status dnat"] ++ origin_conditions (c_iface r) (c_source r)
     ++ [("meta l4proto " ++ transport_str (c_transport r))%string; dst])%list
  ++ " accept # custom:" ++ c_id r.

Definition render_ruleset_with_published `{IpParser} (state : FirewallState) (custom : list CustomRule)
    (published : list PublishedAppPort) : string :=
  lines
    (["table inet nasty {"; "    chain input {";
      "        type filter hook input priority 0; policy drop;";
      "        ct state established,related accept"; "        ct state invalid drop";
      "        iif lo accept"; "        # ICMP/ICMPv6 — always allow";
      "        ip protocol icmp accept"; "        ip6 nexthdr icmpv6 accept";
      "        # DHCPv6 client"; "        udp dport 546 accept"]
     ++ flat_map (fun r => if r_active r then render_port (r_service r) <$> r_ports r else []) state
     ++ flat_map (fun c => if c_enabled c then [render_custom c] else []) custom
     ++ ["    }"; "    chain forward {";
         "        type filter hook forward priority -10; policy accept;";
         "        # Explicitly allowed Docker-published host ports"]
     ++ omap render_published published
     ++ flat_map (fun c => if c_enabled c then [render_custom_forward c] else []) custom
     ++ ["        ct direction original ct status dnat drop"; "    }"; "}"])%list.

Definition render_transaction `{IpParser} (state : FirewallState) (custom : list CustomRule)
    (published : list PublishedAppPort) : string :=
  line "destroy table inet nasty" ++ render_ruleset_with_published state custom published.
