(* ===== verification/Firewall.v ===== *)
(** * The firewall service: [FirewallService] of nasty-system/src/firewall.rs

    The configuration behind its lock, the live table of the kernel and the
    state files. Every change builds a candidate, stages its file, applies it
    to the kernel and only then makes it current ([commit_candidate]). The
    outcomes of the [nft] runs are the environment's. *)
From Stdlib Require Import String Ascii ZArith.
From stdpp Require Import base list gmap strings numbers sorting.
From S2P Require Import Prelude RustStr Disk StateStore FirewallRules.

Open Scope string_scope.
Open Scope rust_scope.

Record FirewallConfig := mkConfig {
  fc_state : FirewallState;
  fc_restrictions : FirewallRestrictions;
  fc_custom : list CustomRule;
  fc_published : list PublishedAppPort
}.

Definition no_restrictions : FirewallRestrictions := mkRestrictions ∅ ∅.

(** [FirewallConfig::default()]. *)
Definition config_default : FirewallConfig := mkConfig [] no_restrictions [] [].

Definition RESTRICTIONS_PATH : Path := ["var"; "lib"; "nasty"; "firewall-restrictions.json"].
Definition CUSTOM_PATH : Path := ["var"; "lib"; "nasty"; "firewall-custom.json"].

(** The service, the table in the kernel (the last transaction it took) and
    the disk. *)
Record FwWorld := mkFw {
  fw_config : FirewallConfig;
  fw_live : option string;
  fw_disk : Disk
}.

(** One run of [nft]: what it reports, and whether the kernel took the batch. *)
Record NftRun := mkNftRun {
  nft_result : result unit string;
  nft_applied : bool
}.

(** What a call gets from its environment: the outcomes of [nft --check] and
    [nft] for the candidate and for a rollback, the UUID of the staged file and
    of a new rule, and the I/O faults. *)
Record FwEnv := mkFwEnv {
  fe_check : string -> result unit string;
  fe_apply : string -> NftRun;
  fe_rollback_check : string -> result unit string;
  fe_rollback : string -> NftRun;
  fe_uuid : string;
  fe_rule_id : string;
  fe_io : Faults
}.

(** What [nft] reports as applied is in. It may report a failure for a batch that is in as well, as a run
    that times out after its commit does. *)
Definition sound_nft (e : FwEnv) : Prop :=
  (forall t, is_ok (nft_result (fe_apply e t)) = true -> nft_applied (fe_apply e t) = true) /\
  (forall t, is_ok (nft_result (fe_rollback e t)) = true -> nft_applied (fe_rollback e t) = true).

(** It never does: it reports success exactly when the batch is in. *)
Definition atomic_nft (e : FwEnv) : Prop :=
  (forall t, is_ok (nft_result (fe_apply e t)) = nft_applied (fe_apply e t)) /\
  (forall t, is_ok (nft_result (fe_rollback e t)) = nft_applied (fe_rollback e t)).

Section Service.
Context `{IpParser} `{!Codec FirewallRestrictions} `{!Codec (list CustomRule)}.

Abbreviation Fw := (M FwWorld string).

Definition set_config (c : FirewallConfig) (w : FwWorld) : FwWorld := mkFw c (fw_live w) (fw_disk w).
Definition set_live (t : string) (w : FwWorld) : FwWorld := mkFw (fw_config w) (Some t) (fw_disk w).

(** The batch of a configuration. *)
Definition batch (c : FirewallConfig) : string :=
  render_transaction (fc_state c) (fc_custom c) (fc_published c).

(** [apply_nftables_with], given the outcomes of its two runs. *)
Definition apply_nftables (check : string -> result unit string) (apply : string -> NftRun)
    (c : FirewallConfig) : Fw unit :=
  let transaction := batch c in
  lift (check transaction) ;;;
  let run := apply transaction in
  (if nft_applied run then modify (set_live transaction) else ret tt) ;;;
  lift (nft_result run).

(** Disk calls of the service, with the text of their errors. *)
Definition fw_io {A} (msg : IoErr -> string) (m : M Disk IoErr A) : Fw A :=
  fun w => match m (fw_disk w) with
           | (r, d) => (map_err msg r, mkFw (fw_config w) (fw_live w) d)
           end.

(** [StagedJson]. *)
Record StagedJson := mkStaged { sj_temp : Path; sj_destination : Path }.

(** The name a value is staged under; neither part of it holds a separator. *)
Definition staged_temp (uuid : string) (par : Path) (name : string) : Path :=
  (par ++ [("." ++ name ++ "." ++ uuid ++ ".tmp")%string])%list.

(** [format!("{op} {}: {e}", path.display())]. *)
Definition io_message (op : string) (path : Path) (e : IoErr) : string :=
  op ++ " " ++ display_path path ++ ": " ++ display_io e.

Definition stage {T} `{Codec T} (e : FwEnv) (destination : Path) (value : T) : Fw StagedJson :=
  par <- lift (ok_or (parent destination) (display_path destination ++ " has no parent directory")) ;;
  name <- lift (ok_or (file_name destination) ("invalid state path: " ++ display_path destination)) ;;
  let temp := staged_temp (fe_uuid e) par name in
  json <- lift (map_err (fun m => "serialize: " ++ m) (encode value)) ;;
  fw_io (io_message "create" temp) (create_new (fe_io e) temp 384) ;;;
  r <- attempt (fw_io (io_message "write" temp) (write_all (fe_io e) temp json)) ;;
  match r with
  | Err msg => _ <- attempt (E := string) (fw_io display_io (remove_file (fe_io e) temp)) ;; throw msg
  | Ok _ =>
      r <- attempt (fw_io (io_message "sync" temp) (check (fe_io e) OpSync temp)) ;;
      match r with
      | Err msg => _ <- attempt (E := string) (fw_io display_io (remove_file (fe_io e) temp)) ;; throw msg
      | Ok _ => ret (mkStaged temp destination)
      end
  end.

(** [discard], and the drop of a file that was not committed. *)
Definition discard (e : FwEnv) (s : StagedJson) : Fw unit :=
  _ <- attempt (E := string) (fw_io display_io (remove_file (fe_io e) (sj_temp s))) ;;
  ret tt.

(** [commit]: the failures to sync the directory are only logged. *)
Definition staged_commit (e : FwEnv) (s : StagedJson) : Fw unit :=
  r <- attempt (fw_io (fun err => "rename " ++ display_path (sj_temp s) ++ " to "
                                  ++ display_path (sj_destination s) ++ ": " ++ display_io err)
                  (rename (fe_io e) (sj_temp s) (sj_destination s))) ;;
  match r with
  | Ok _ => ret tt
  | Err msg => discard e s ;;; throw msg
  end.

Definition commit_candidate (e : FwEnv) (candidate : FirewallConfig) (staged : option StagedJson) : Fw unit :=
  current <- gets fw_config ;;
  applied <- attempt (E := string) (apply_nftables (fe_check e) (fe_apply e) candidate) ;;
  match applied with
  | Err err =>
      match staged with Some s => discard e s | None => ret tt end ;;;
      throw err
  | Ok _ =>
      persisted <- attempt (E := string) (match staged with
                                          | Some s => staged_commit e s
                                          | None => ret tt
                                          end) ;;
      match persisted with
      | Ok _ => modify (set_config candidate)
      | Err persist_error =>
          rollback <- attempt (E := string) (apply_nftables (fe_rollback_check e) (fe_rollback e) current) ;;
          match rollback with
          | Err rollback_error =>
              modify (set_config candidate) ;;;
              throw ("persist firewall state: " ++ persist_error ++ "; live rollback also failed: "
                     ++ rollback_error ++ "; in-memory state reflects the live candidate")
          | Ok _ => throw ("persist firewall state: " ++ persist_error ++ "; previous live rules restored")
          end
      end
  end.

Definition with_state (s : FirewallState) (c : FirewallConfig) : FirewallConfig :=
  mkConfig s (fc_restrictions c) (fc_custom c) (fc_published c).
Definition with_custom (l : list CustomRule) (c : FirewallConfig) : FirewallConfig :=
  mkConfig (fc_state c) (fc_restrictions c) l (fc_published c).

Definition set_rule_active (e : FwEnv) (service : string) (base_ports : list PortSpec) (active : bool)
    : Fw unit :=
  match base_ports with
  | [] => ret tt
  | _ =>
      current <- gets fw_config ;;
      match List.find (for_service service) (fc_state current) with
      | Some rule =>
          if Bool.eqb (r_active rule) active then ret tt
          else commit_candidate e
                 (with_state (update_first (for_service service) (set_active active) (fc_state current)) current)
                 None
      | None =>
          commit_candidate e
            (with_state (fc_state current ++ [restricted_rule (fc_restrictions current) service base_ports active])%list
               current) None
      end
  end.

Definition open_ (e : FwEnv) (p : Protocol) : Fw unit :=
  set_rule_active e (protocol_name p) (ports_for_protocol p) true.
Definition close_ (e : FwEnv) (p : Protocol) : Fw unit :=
  set_rule_active e (protocol_name p) (ports_for_protocol p) false.
Definition open_rdma (e : FwEnv) : Fw unit := set_rule_active e "rdma" rdma_ports true.
Definition close_rdma (e : FwEnv) : Fw unit := set_rule_active e "rdma" rdma_ports false.
Definition open_dc (e : FwEnv) : Fw unit := set_rule_active e "dc" dc_ports true.
Definition close_dc (e : FwEnv) : Fw unit := set_rule_active e "dc" dc_ports false.

(** ** Start-up *)

(** [FirewallRestrictions::load] and [load_custom_rules]: a missing file is the
    default, a file that cannot be read or parsed is an error. *)
Definition load_or {T} `{Codec T} (e : FwEnv) (path : Path) (dflt : T) : Fw T :=
  fun w =>
    match read_to_string (fe_io e) path (fw_disk w) with
    | (Ok json, _) => (map_err (fun m => "parse " ++ display_path path ++ ": " ++ m) (decode json), w)
    | (Err err, _) => (if is_not_found err then Ok dflt else Err (io_message "read" path err), w)
    end.

(** The rules of the protocols that have ports. *)
Definition protocol_rules (r : FirewallRestrictions) (protocols : list (Protocol * bool)) : list FirewallRule :=
  omap (fun pe => match ports_for_protocol pe.1 with
                  | [] => None
                  | ports => Some (restricted_rule r (protocol_name pe.1) ports pe.2)
                  end) protocols.

(** The configuration [init] applies. *)
Definition initial_config (r : FirewallRestrictions) (custom : list CustomRule)
    (protocols : list (Protocol * bool)) (rdma_enabled dc_enabled : bool)
    (iscsi_ports nvmeof_ports : list PortSpec) (published : list PublishedAppPort) : FirewallConfig :=
  let rules :=
    ([restricted_rule r "webui" webui_ports true] ++ protocol_rules r protocols
     ++ (if rdma_enabled then [restricted_rule r "rdma" rdma_ports true] else [])
     ++ (if dc_enabled then [restricted_rule r "dc" dc_ports true] else []))%list in
  let rules := (replace_rule_ports r (protocol_name Iscsi) iscsi_ports rules).2 in
  let rules := (replace_rule_ports r (protocol_name Nvmeof) nvmeof_ports rules).2 in
  mkConfig rules r custom published.

Definition init (e : FwEnv) (protocols : list (Protocol * bool)) (rdma_enabled dc_enabled : bool)
    (iscsi_ports nvmeof_ports : list PortSpec) (published : list PublishedAppPort) : Fw unit :=
  restrictions <- load_or e RESTRICTIONS_PATH no_restrictions ;;
  custom <- load_or e CUSTOM_PATH [] ;;
  commit_candidate e
    (initial_config restrictions custom protocols rdma_enabled dc_enabled iscsi_ports nvmeof_ports published)
    None.

(** ** Changes *)

(** One step of [set_protocol_states]. *)
Definition set_protocol_state (acc : bool * FirewallState) (pe : Protocol * bool) : bool * FirewallState :=
  match List.find (for_service (protocol_name pe.1)) acc.2 with
  | Some rule =>
      if Bool.eqb (r_active rule) pe.2 then acc
      else (true, update_first (for_service (protocol_name pe.1)) (set_active pe.2) acc.2)
  | None => acc
  end.

Definition set_protocol_states (e : FwEnv) (protocols : list (Protocol * bool)) : Fw unit :=
  current <- gets fw_config ;;
  let '(changed, state) := fold_left set_protocol_state protocols (false, fc_state current) in
  if negb changed then ret tt else commit_candidate e (with_state state current) None.

(** Order by transport, host port and app. *)
Definition published_le (a b : PublishedAppPort) : bool :=
  match String.compare (pa_transport a) (pa_transport b) with
  | Lt => true
  | Gt => false
  | Eq => match Z.compare (pa_host_port a) (pa_host_port b) with
          | Lt => true
          | Gt => false
          | Eq => match String.compare (pa_app a) (pa_app b) with Gt => false | _ => true end
          end
  end.

(** [sort_by]: stable. *)
Fixpoint insert_published (x : PublishedAppPort) (l : list PublishedAppPort) : list PublishedAppPort :=
  match l with
  | [] => [x]
  | y :: l' => if published_le x y then x :: l else y :: insert_published x l'
  end.
Definition sort_published (l : list PublishedAppPort) : list PublishedAppPort :=
  foldr insert_published [] l.

Definition same_published (a b : PublishedAppPort) : bool :=
  (pa_transport a =s pa_transport b) && (pa_host_port a =? pa_host_port b)%Z && (pa_app a =s pa_app b).

(** [dedup_by]: drop elements equal to the one kept before them. *)
Fixpoint dedup_published (last : option PublishedAppPort) (l : list PublishedAppPort) : list PublishedAppPort :=
  match l with
  | [] => []
  | x :: l' =>
      match last with
      | Some y => if same_published x y then dedup_published last l' else x :: dedup_published (Some x) l'
      | None => x :: dedup_published (Some x) l'
      end
  end.

Definition set_published_app_ports (e : FwEnv) (published : list PublishedAppPort) : Fw unit :=
  let published := dedup_published None (sort_published published) in
  current <- gets fw_config ;;
  if bool_decide (fc_published current = published) then ret tt
  else commit_candidate e
         (mkConfig (fc_state current) (fc_restrictions current) (fc_custom current) published) None.

(** The ports of a rule without its restrictions, each once. *)
Fixpoint strip_ports (ports seen : list PortSpec) : list PortSpec :=
  match ports with
  | [] => seen
  | p :: ports' =>
      let p := restrict None None p in
      if bool_decide (p ∈ seen) then strip_ports ports' seen else strip_ports ports' (seen ++ [p])%list
  end.

Definition default_ports (service : string) : option (list PortSpec) :=
  if service =s "webui" then Some webui_ports
  else if service =s "rdma" then Some rdma_ports
  else if service =s "dc" then Some dc_ports
  else ports_for_protocol <$> protocol_from_name service.

(** Insert a non-empty list, remove the key for an empty one. *)
Definition put_list (k : string) (l : list string) (m : gmap string (list string)) : gmap string (list string) :=
  match l with [] => delete k m | _ => <[k := l]> m end.

Definition restriction_candidate (service : string) (sources ifaces : list string)
    (dports : list PortSpec) (current : FirewallConfig) : FirewallConfig :=
  let base_ports := match List.find (for_service service) (fc_state current) with
                    | Some rule => strip_ports (r_ports rule) []
                    | None => dports
                    end in
  mkConfig
    (update_first (for_service service) (set_ports (apply_restrictions base_ports sources ifaces)) (fc_state current))
    (mkRestrictions (put_list service sources (fr_services (fc_restrictions current)))
       (put_list service ifaces (fr_interfaces (fc_restrictions current))))
    (fc_custom current) (fc_published current).

Definition set_restriction (e : FwEnv) (service : string) (sources ifaces : list string) : Fw unit :=
  match List.find (fun s => negb (valid_source s)) sources with
  | Some s => throw ("invalid source (expected an IP or CIDR): " ++ s)
  | None =>
      match List.find (fun i => negb (valid_iface i)) ifaces with
      | Some i => throw ("invalid interface name: " ++ i)
      | None =>
          match default_ports service with
          | None => throw ("unknown service: " ++ service)
          | Some dports =>
              current <- gets fw_config ;;
              let candidate := restriction_candidate service sources ifaces dports current in
              staged <- stage e RESTRICTIONS_PATH (fc_restrictions candidate) ;;
              commit_candidate e candidate (Some staged)
          end
      end
  end.

Definition set_service_ports (e : FwEnv) (p : Protocol) (ports : list PortSpec) : Fw unit :=
  current <- gets fw_config ;;
  let '(changed, state) := replace_rule_ports (fc_restrictions current) (protocol_name p) ports (fc_state current) in
  if negb changed then ret tt else commit_candidate e (with_state state current) None.

Definition set_portal_ports (e : FwEnv) (iscsi_ports nvmeof_ports : list PortSpec) : Fw unit :=
  current <- gets fw_config ;;
  let r := fc_restrictions current in
  let '(iscsi_changed, s1) := replace_rule_ports r (protocol_name Iscsi) iscsi_ports (fc_state current) in
  let '(nvmeof_changed, s2) := replace_rule_ports r (protocol_name Nvmeof) nvmeof_ports s1 in
  if negb iscsi_changed && negb nvmeof_changed then ret tt
  else commit_candidate e (with_state s2 current) None.

Definition conflict_message (input : CustomRuleInput) (owner : string) : string :=
  transport_str (ci_transport input) ++ "/" ++ fmt_Z (ci_from input) ++ "-" ++ fmt_Z (ci_to input)
  ++ " overlaps ports managed by " ++ owner ++ " — enable " ++ owner ++ " to open them".

Definition custom_of_input (id : string) (input : CustomRuleInput) : CustomRule :=
  mkCustom id (trim (ci_label input)) (ci_transport input) (ci_from input) (ci_to input)
    (ci_source input) (ci_iface input) (ci_enabled input).

Definition add_custom_rule (e : FwEnv) (input : CustomRuleInput) : Fw CustomRule :=
  lift (validate_custom_input input) ;;;
  current <- gets fw_config ;;
  match service_port_conflict (fc_state current) (ci_transport input) (ci_from input) (ci_to input) with
  | Some owner => throw (conflict_message input owner)
  | None =>
      throw_if (existsb (fun r => same_rule r input) (fc_custom current))
        "an identical custom rule already exists" ;;;
      let rule := custom_of_input (fe_rule_id e) input in
      let candidate := with_custom (fc_custom current ++ [rule])%list current in
      staged <- stage e CUSTOM_PATH (fc_custom candidate) ;;
      commit_candidate e candidate (Some staged) ;;;
      ret rule
  end.

Definition has_id (id : string) (r : CustomRule) : bool := c_id r =s id.

Definition update_custom_rule (e : FwEnv) (id : string) (input : CustomRuleInput) : Fw CustomRule :=
  lift (validate_custom_input input) ;;;
  current <- gets fw_config ;;
  match service_port_conflict (fc_state current) (ci_transport input) (ci_from input) (ci_to input) with
  | Some owner => throw (conflict_message input owner)
  | None =>
      throw_if (existsb (fun r => negb (c_id r =s id) && same_rule r input) (fc_custom current))
        "an identical custom rule already exists" ;;;
      match List.find (has_id id) (fc_custom current) with
      | None => throw ("custom rule not found: " ++ id)
      | Some rule =>
          let updated := custom_of_input (c_id rule) input in
          let candidate := with_custom (update_first (has_id id) (fun _ => updated) (fc_custom current)) current in
          staged <- stage e CUSTOM_PATH (fc_custom candidate) ;;
          commit_candidate e candidate (Some staged) ;;;
          ret updated
      end
  end.

Definition remove_custom_rule (e : FwEnv) (id : string) : Fw unit :=
  current <- gets fw_config ;;
  let kept := retain (fun r => negb (c_id r =s id)) (fc_custom current) in
  throw_if (length kept =? length (fc_custom current))%nat ("custom rule not found: " ++ id) ;;;
  let candidate := with_custom kept current in
  staged <- stage e CUSTOM_PATH (fc_custom candidate) ;;
  commit_candidate e candidate (Some staged).

End Service.
