(* ===== verification/FirewallProps.v ===== *)
(** * What the firewall guarantees

    The configuration in memory is the table in the kernel after every success,
    and after a failure too unless [nft] fails on a batch that it has applied;
    persisted changes are all or nothing.

    ** What firewall rules let in

    Port specifications as packet predicates: restrictions narrow the traffic of
    a service to the listed sources and interfaces and nothing else, setting a
    restriction replaces the previous one, and a custom rule that is accepted
    shares no port with a service. *)
From Stdlib Require Import String Ascii ZArith.
From stdpp Require Import base list gmap strings numbers sorting.
From S2P Require Import Prelude RustStr Disk StateStore FirewallRules Firewall.

Open Scope string_scope.
Open Scope rust_scope.

Section Guarantees.
Context `{IpParser} `{!Codec FirewallRestrictions} `{!Codec (list CustomRule)}.
Implicit Types (w : FwWorld) (e : FwEnv) (c : FirewallConfig).

(** The kernel's table is the one of the configuration in memory. *)
Definition in_step w : Prop := fw_live w = Some (batch (fw_config w)).

(** ** Transactions *)

Lemma apply_spec check apply c w :
  (forall t, is_ok (nft_result (apply t)) = nft_applied (apply t)) ->
  wp (apply_nftables check apply c)
    (fun r w' => fw_config w' = fw_config w /\ fw_disk w' = fw_disk w /\
       fw_live w' = if is_ok r then Some (batch c) else fw_live w) w.
Proof.
  intros Ha. unfold apply_nftables. apply wp_bind, wp_lift. destruct (check (batch c)) as [[]|]; [|done].
  specialize (Ha (batch c)). destruct (apply (batch c)) as [r applied]. cbn in *. subst applied.
  destruct r as [[]|]; done.
Qed.

(** A call on the disk leaves memory and kernel alone. *)
Lemma fw_io_spec {A} (msg : IoErr -> string) (m : M Disk IoErr A) w :
  fw_config (fw_io msg m w).2 = fw_config w /\ fw_live (fw_io msg m w).2 = fw_live w /\
  fw_disk (fw_io msg m w).2 = (m (fw_disk w)).2 /\
  is_ok (fw_io msg m w).1 = is_ok (m (fw_disk w)).1.
Proof. unfold fw_io. by destruct (m (fw_disk w)) as [[]]. Qed.

Lemma remove_file_frame F p d q : q <> p -> (remove_file F p d).2 !! q = d !! q.
Proof.
  intros Hne. unfold remove_file, bind, check, gets, throw, modify, ret.
  destruct (fault F OpUnlink p); [done|]. cbn. destruct (d !! p); [|done]. cbn.
  by rewrite lookup_delete_ne.
Qed.

Lemma discard_spec e s w :
  wp (discard e s)
    (fun r w' => r = Ok tt /\ fw_config w' = fw_config w /\ fw_live w' = fw_live w /\
       forall p, p <> sj_temp s -> fw_disk w' !! p = fw_disk w !! p) w.
Proof.
  unfold discard. apply wp_bind, wp_attempt. unfold wp.
  destruct (fw_io_spec display_io (remove_file (fe_io e) (sj_temp s)) w) as (Hc & Hl & Hd & _).
  cbn. rewrite Hc, Hl, Hd. split_and!; [done..|]. intros p Hp. by apply remove_file_frame.
Qed.

Lemma staged_commit_spec e s w :
  sj_temp s <> sj_destination s ->
  wp (staged_commit e s)
    (fun r w' => fw_config w' = fw_config w /\ fw_live w' = fw_live w /\
       (forall p, p <> sj_temp s -> p <> sj_destination s -> fw_disk w' !! p = fw_disk w !! p) /\
       fw_disk w' !! sj_destination s =
         if is_ok r then fw_disk w !! sj_temp s else fw_disk w !! sj_destination s) w.
Proof.
  intros Hne. unfold staged_commit. apply wp_bind, wp_attempt. unfold wp at 1.
  destruct (fw_io_spec (fun err => ("rename " ++ display_path (sj_temp s) ++ " to "
    ++ display_path (sj_destination s) ++ ": " ++ display_io err)%string) (rename (fe_io e) (sj_temp s) (sj_destination s)) w) as (Hc & Hl & Hd & Hr).
  destruct (fw_io _ _ w) as [r w1]. cbn [fst snd] in *.
  revert Hd Hr. unfold rename, bind, check, gets, throw, modify, ret.
  assert (forall w2 (msg : string),
    fw_config w2 = fw_config w -> fw_live w2 = fw_live w -> fw_disk w2 = fw_disk w ->
    wp (discard e s ;;; throw (A := unit) msg)
      (fun r w' => fw_config w' = fw_config w /\ fw_live w' = fw_live w /\
       (forall p, p <> sj_temp s -> p <> sj_destination s -> fw_disk w' !! p = fw_disk w !! p) /\
       fw_disk w' !! sj_destination s =
         if is_ok r then fw_disk w !! sj_temp s else fw_disk w !! sj_destination s) w2) as Hfail.
  { intros w2 msg E1 E2 E3. apply wp_bind. eapply wp_mono; [|apply discard_spec].
    intros r' w' (-> & Hc' & Hl' & Hd'). apply wp_throw. cbn. rewrite Hc', Hl', <- E3. split_and!; auto. }
  destruct (fault (fe_io e) OpRename (sj_temp s)); cbn.
  { intros Hd Hr. destruct r; [done|]. exact (Hfail w1 _ Hc Hl Hd). }
  destruct (fw_disk w !! sj_temp s) as [f|] eqn:Hf; cbn.
  - intros Hd Hr. destruct r; [|done]. apply wp_ret. cbn. rewrite Hd. split_and!; [done..| |].
    + intros p Hp Hq. by rewrite lookup_insert_ne, lookup_delete_ne.
    + by rewrite lookup_insert_eq.
  - intros Hd Hr. destruct r; [done|]. exact (Hfail w1 _ Hc Hl Hd).
Qed.

(** All outcomes of [commit_candidate]. *)
Lemma commit_candidate_spec e candidate staged w :
  atomic_nft e ->
  match staged with Some s => sj_temp s <> sj_destination s | None => True end ->
  wp (commit_candidate e candidate staged)
    (fun r w' =>
       match r with
       | Ok _ => fw_config w' = candidate /\ fw_live w' = Some (batch candidate)
       | Err _ =>
           (fw_config w' = fw_config w /\ (fw_live w' = fw_live w \/ fw_live w' = Some (batch (fw_config w)))) \/
           (fw_config w' = candidate /\ fw_live w' = Some (batch candidate))
       end /\
       match staged with
       | None => fw_disk w' = fw_disk w
       | Some s =>
           (forall p, p <> sj_temp s -> p <> sj_destination s -> fw_disk w' !! p = fw_disk w !! p) /\
           fw_disk w' !! sj_destination s =
             if is_ok r then fw_disk w !! sj_temp s else fw_disk w !! sj_destination s
       end) w.
Proof.
  intros [Ha Hrb] Hs. unfold commit_candidate. apply wp_bind, wp_gets. cbn beta iota.
  apply wp_bind, wp_attempt. eapply wp_mono; [|by apply apply_spec].
  intros [[]|err] w1 (Hc1 & Hd1 & Hl1); cbn [is_ok] in Hl1.
  2:{ destruct staged as [s|].
      - apply wp_bind. eapply wp_mono; [|apply discard_spec]. intros r w2 (-> & Hc2 & Hl2 & Hd2).
        apply wp_throw. rewrite Hc2, Hl2, Hc1, Hl1, <- Hd1. split_and!; auto.
      - apply wp_bind, wp_ret, wp_throw. rewrite Hc1, Hl1, Hd1. auto. }
  apply wp_bind, wp_attempt.
  destruct staged as [s|].
  2:{ apply wp_ret. cbn. split; [done|exact Hd1]. }
  eapply wp_mono; [|by apply staged_commit_spec].
  intros [[]|perr] w2 (Hc2 & Hl2 & Hother & Hdest); cbn [is_ok] in Hdest; rewrite Hd1 in *.
  - apply wp_modify. cbn. split; [by rewrite Hl2|done].
  - apply wp_bind, wp_attempt. eapply wp_mono; [|by apply apply_spec].
    intros [[]|rerr] w3 (Hc3 & Hd3 & Hl3); cbn [is_ok] in Hl3.
    + apply wp_throw. rewrite Hd3, Hc3, Hc2, Hc1, Hl3. cbn. auto.
    + apply wp_bind, wp_modify, wp_throw. cbn. rewrite Hd3, Hl3, Hl2, Hl1. auto.
Qed.

(** ** Staging *)

(** Where the value for [dest] is staged. *)
Definition temp_of (uuid : string) (dest : Path) : Path :=
  staged_temp uuid (removelast dest) (default "" (file_name dest)).

Lemma temp_of_fresh uuid p :
  p = RESTRICTIONS_PATH \/ p = CUSTOM_PATH ->
  temp_of uuid p <> RESTRICTIONS_PATH /\ temp_of uuid p <> CUSTOM_PATH.
Proof. intros [-> | ->]; split; discriminate. Qed.

Lemma stage_spec {T} `{!Codec T} e dest (v : T) w :
  wp (stage e dest v)
    (fun r w' => fw_config w' = fw_config w /\ fw_live w' = fw_live w /\
       (forall p, p <> temp_of (fe_uuid e) dest -> fw_disk w' !! p = fw_disk w !! p) /\
       match r with
       | Ok s => s = mkStaged (temp_of (fe_uuid e) dest) dest /\
                 exists json, encode v = Ok json /\
                   fw_disk w' !! temp_of (fe_uuid e) dest = Some (mkFile Regular 384 engine_uid json)
       | Err _ => True
       end) w.
Proof.
  unfold stage. apply wp_bind, wp_lift. destruct dest as [|c dest']; [done|]. cbn [ok_or parent].
  apply wp_bind, wp_lift. destruct (file_name (c :: dest')) as [name|] eqn:Hn; [|done]. cbn [ok_or].
  set (dest := c :: dest') in *. fold dest.
  set (temp := staged_temp (fe_uuid e) (removelast dest) name).
  replace (temp_of (fe_uuid e) dest) with temp by (unfold temp_of; by rewrite Hn).
  clearbody temp dest.
  cbn zeta. apply wp_bind, wp_lift.
  destruct (encode v) as [json|]; [|done]. cbn [map_err].
  assert (forall w2 (msg : string), fw_config w2 = fw_config w -> fw_live w2 = fw_live w ->
    (forall p, p <> temp -> fw_disk w2 !! p = fw_disk w !! p) ->
    wp (_ <- attempt (E := string) (fw_io display_io (remove_file (fe_io e) temp)) ;; throw (A := StagedJson) msg)
      (fun r w' => fw_config w' = fw_config w /\ fw_live w' = fw_live w /\
        (forall p, p <> temp -> fw_disk w' !! p = fw_disk w !! p) /\
        match r with
        | Ok s => s = mkStaged temp dest /\ exists json', Ok json = Ok (E := string) json' /\
                   fw_disk w' !! temp = Some (mkFile Regular 384 engine_uid json')
        | Err _ => True
        end) w2) as Hfail.
  { intros w2 msg E1 E2 E3. apply wp_bind, wp_attempt. unfold wp.
    destruct (fw_io_spec display_io (remove_file (fe_io e) temp) w2) as (Hc & Hl & Hd & _). cbn.
    rewrite Hc, Hl, Hd. split_and!; [done..| |done]. intros p Hp. by rewrite remove_file_frame, E3. }
  apply wp_bind. unfold wp at 1, fw_io, create_new, bind, check, gets, throw_if, throw, modify, ret.
  destruct (fault (fe_io e) OpCreateNew temp); [done|]. cbn.
  destruct (fw_disk w !! temp) eqn:Hex; [done|]. cbn.
  apply wp_bind, wp_attempt. unfold wp at 1, fw_io, write_all, modify, throw, bind.
  set (w1 := mkFw _ _ _).
  destruct (fault (fe_io e) OpWrite temp); cbn.
  { apply Hfail; [done..|]. intros p Hp. cbn. by rewrite lookup_alter_ne, lookup_insert_ne. }
  apply wp_bind, wp_attempt. unfold wp at 1, fw_io, check, throw, ret.
  destruct (fault (fe_io e) OpSync temp); cbn.
  { apply Hfail; [done..|]. intros p Hp. cbn. by rewrite lookup_alter_ne, lookup_insert_ne. }
  unfold wp. cbn. split_and!; [done..| |done|].
  - intros p Hp. by rewrite lookup_alter_ne, lookup_insert_ne.
  - exists json. split; [done|]. by rewrite lookup_alter_eq, lookup_insert_eq.
Qed.

(** A change that is persisted: staged, applied, renamed. *)
Lemma staged_change_spec {T} `{!Codec T} e path (v : T) candidate w :
  atomic_nft e -> path = RESTRICTIONS_PATH \/ path = CUSTOM_PATH ->
  wp (s <- stage e path v ;; commit_candidate e candidate (Some s))
    (fun r w' =>
       match r with
       | Ok _ => fw_config w' = candidate /\ fw_live w' = Some (batch candidate) /\
                 exists json, encode v = Ok json /\
                   fw_disk w' !! path = Some (mkFile Regular 384 engine_uid json)
       | Err _ =>
           fw_disk w' !! path = fw_disk w !! path /\
           ((fw_config w' = fw_config w /\ (fw_live w' = fw_live w \/ fw_live w' = Some (batch (fw_config w)))) \/
            (fw_config w' = candidate /\ fw_live w' = Some (batch candidate)))
       end) w.
Proof.
  intros Ha Hp. destruct (temp_of_fresh (fe_uuid e) path Hp) as [H1 H2].
  assert (path <> temp_of (fe_uuid e) path) as Hne by (destruct Hp; congruence).
  apply wp_bind. eapply wp_mono; [|apply stage_spec].
  intros [s|err] w1 (Hc & Hl & Hd & Hr).
  2:{ rewrite Hc, Hl, Hd by done. auto. }
  destruct Hr as [-> (json & Hj & Hf)]. eapply wp_mono; [|apply commit_candidate_spec; [done|by apply not_eq_sym]].
  cbn. intros [[]|err] w2 [Hcl [_ Hdest]]; cbn in Hdest.
  - destruct Hcl. split_and!; [done..|]. exists json. by rewrite Hdest.
  - rewrite Hdest, Hd by done. split; [done|]. rewrite <- Hc, <- Hl. exact Hcl.
Qed.

(** ** Operations *)

Inductive FwOp :=
| FInit (protocols : list (Protocol * bool)) (rdma dc : bool) (iscsi nvmeof : list PortSpec) (published : list PublishedAppPort)
| FOpen (p : Protocol) | FClose (p : Protocol)
| FOpenRdma | FCloseRdma | FOpenDc | FCloseDc
| FStates (protocols : list (Protocol * bool))
| FPublished (published : list PublishedAppPort)
| FRestrict (service : string) (sources ifaces : list string)
| FServicePorts (p : Protocol) (ports : list PortSpec)
| FPortals (iscsi nvmeof : list PortSpec)
| FAddCustom (input : CustomRuleInput)
| FUpdateCustom (id : string) (input : CustomRuleInput)
| FRemoveCustom (id : string).

Definition exec_fw e (op : FwOp) w : result unit string * FwWorld :=
  let drop {A} (x : result A string * FwWorld) := (match x.1 with Ok _ => Ok tt | Err m => Err m end, x.2) in
  match op with
  | FInit ps rdma dc iscsi nvmeof published => init e ps rdma dc iscsi nvmeof published w
  | FOpen p => open_ e p w
  | FClose p => close_ e p w
  | FOpenRdma => open_rdma e w
  | FCloseRdma => close_rdma e w
  | FOpenDc => open_dc e w
  | FCloseDc => close_dc e w
  | FStates ps => set_protocol_states e ps w
  | FPublished l => set_published_app_ports e l w
  | FRestrict s srcs ifs => set_restriction e s srcs ifs w
  | FServicePorts p ports => set_service_ports e p ports w
  | FPortals a b => set_portal_ports e a b w
  | FAddCustom i => drop (add_custom_rule e i w)
  | FUpdateCustom id i => drop (update_custom_rule e id i w)
  | FRemoveCustom id => remove_custom_rule e id w
  end.

Abbreviation in_step_ok := (keeps in_step).

Lemma in_step_commit e candidate w :
  atomic_nft e -> in_step w -> in_step_ok (commit_candidate e candidate None) w.
Proof.
  intros Ha Hw. eapply wp_mono; [|by apply commit_candidate_spec].
  intros [[]|err] w' [Hcl _]; unfold in_step in *; [by destruct Hcl as [-> ->]|].
  destruct Hcl as [(-> & [-> | ->])|(-> & ->)]; done.
Qed.

Lemma in_step_staged {T} `{!Codec T} e path (v : T) candidate w :
  atomic_nft e -> path = RESTRICTIONS_PATH \/ path = CUSTOM_PATH -> in_step w ->
  in_step_ok (s <- stage e path v ;; commit_candidate e candidate (Some s)) w.
Proof.
  intros Ha Hp Hw. eapply wp_mono; [|by apply staged_change_spec].
  intros [[]|err] w' Hcl; unfold in_step in *; [by destruct Hcl as (-> & -> & _)|].
  destruct Hcl as [_ [(-> & [-> | ->])|(-> & ->)]]; done.
Qed.

(** A change and what is returned after it. *)
Lemma in_step_staged_ret {T A} `{!Codec T} e path (v : T) candidate (a : A) w :
  atomic_nft e -> path = RESTRICTIONS_PATH \/ path = CUSTOM_PATH -> in_step w ->
  in_step_ok (s <- stage e path v ;; (commit_candidate e candidate (Some s) ;;; ret a)) w.
Proof.
  intros Ha Hp Hw. pose proof (in_step_staged e path v candidate w Ha Hp Hw) as Hk.
  unfold keeps, wp, bind, ret in *. destruct (stage e path v w) as [[s|] w1]; [|done].
  by destruct (commit_candidate e candidate (Some s) w1) as [[] w2].
Qed.

Lemma in_step_set_active e s ports b w :
  atomic_nft e -> in_step w -> in_step_ok (set_rule_active e s ports b) w.
Proof.
  intros Ha Hw. unfold set_rule_active. destruct ports; [done|]. apply keeps_gets.
  destruct (List.find _ _) as [rule|]; [destruct (Bool.eqb _ _); [done|]|]; by apply in_step_commit.
Qed.

(** The validation prefix shared by the two operations on custom rules. *)
Lemma in_step_custom {A} input (m : FirewallConfig -> M FwWorld string A) w :
  in_step w -> (forall c, in_step_ok (m c) w) ->
  in_step_ok (lift (validate_custom_input input) ;;; (c <- gets fw_config ;; m c)) w.
Proof. intros Hw Hm. apply keeps_lift; [done|]. intros _ _. by apply keeps_gets. Qed.

(** Reading the saved files leaves memory and kernel alone. *)
Lemma load_or_spec {T} `{!Codec T} e path (v : T) w :
  wp (load_or e path v) (fun _ w' => fw_config w' = fw_config w /\ fw_live w' = fw_live w) w.
Proof. unfold wp, load_or. destruct (read_to_string _ _ _) as [[] ?]; by repeat case_match. Qed.

Lemma in_step_init e ps rdma dc iscsi nvmeof published w :
  atomic_nft e -> in_step w -> in_step_ok (init e ps rdma dc iscsi nvmeof published) w.
Proof.
  intros Ha Hw. assert (forall T (HT : Codec T) path (v : T) w1, in_step w1 -> in_step_ok (load_or e path v) w1) as Hl.
  { intros T HT path v w1 Hw1. eapply wp_mono; [|apply load_or_spec]. intros r w' [Hc Hv]. unfold in_step. by rewrite Hc, Hv. }
  unfold init. apply keeps_bind; [by apply Hl|]. intros rs w1 Hw1. apply keeps_bind; [by apply Hl|]. intros cs w2 Hw2.
  by apply in_step_commit.
Qed.

(** With an honest [nft] every operation keeps memory and kernel together. *)
Lemma exec_in_step e op w : atomic_nft e -> in_step w -> in_step (exec_fw e op w).2.
Proof.
  intros Ha Hw. destruct op; cbn [exec_fw]; try (by apply in_step_set_active).
  - by apply in_step_init.
  - enough (in_step_ok (set_protocol_states e protocols) w) as E by exact E.
    unfold set_protocol_states. apply keeps_gets. destruct (fold_left _ _ _) as [changed st].
    destruct changed; [by apply in_step_commit|done].
  - enough (in_step_ok (set_published_app_ports e published) w) as E by exact E.
    unfold set_published_app_ports. apply keeps_gets. destruct (bool_decide _); [done|by apply in_step_commit].
  - enough (in_step_ok (set_restriction e service sources ifaces) w) as E by exact E.
    unfold set_restriction. destruct (List.find _ sources); [done|]. destruct (List.find _ ifaces); [done|].
    destruct (default_ports service); [|done]. apply keeps_gets. apply in_step_staged; auto.
  - enough (in_step_ok (set_service_ports e p ports) w) as E by exact E.
    unfold set_service_ports. apply keeps_gets. destruct (replace_rule_ports _ _ _ _) as [[] st];
      [by apply in_step_commit|done].
  - enough (in_step_ok (set_portal_ports e iscsi nvmeof) w) as E by exact E.
    unfold set_portal_ports. apply keeps_gets. destruct (replace_rule_ports _ _ iscsi _) as [b1 s1].
    destruct (replace_rule_ports _ _ nvmeof _) as [b2 s2].
    destruct (negb b1 && negb b2); [done|by apply in_step_commit].
  - enough (in_step_ok (add_custom_rule e input) w) as E by exact E.
    apply in_step_custom; [done|]. intros c. destruct (service_port_conflict _ _ _ _); [done|].
    apply keeps_throw_if; [done|]. intros _. apply in_step_staged_ret; auto.
  - enough (in_step_ok (update_custom_rule e id input) w) as E by exact E.
    apply in_step_custom; [done|]. intros c. destruct (service_port_conflict _ _ _ _); [done|].
    apply keeps_throw_if; [done|]. intros _. destruct (List.find _ _); [|done].
    apply in_step_staged_ret; auto.
  - enough (in_step_ok (remove_custom_rule e id) w) as E by exact E.
    unfold remove_custom_rule. apply keeps_gets, keeps_throw_if; [done|]. intros _.
    apply in_step_staged; auto.
Qed.

(** ** Success *)

Abbreviation in_step_if_ok m := (wp m (fun r w' => is_ok r = true -> in_step w')).

Lemma apply_sound check apply c w :
  (forall t, is_ok (nft_result (apply t)) = true -> nft_applied (apply t) = true) ->
  wp (apply_nftables check apply c)
    (fun r w' => fw_config w' = fw_config w /\ fw_disk w' = fw_disk w /\ (is_ok r = true -> fw_live w' = Some (batch c))) w.
Proof.
  intros Ha. unfold apply_nftables. apply wp_bind, wp_lift. destruct (check (batch c)) as [[]|]; [|done].
  specialize (Ha (batch c)). destruct (apply (batch c)) as [r applied]. cbn in *. destruct applied; [by destruct r|].
  destruct r; [by specialize (Ha eq_refl)|done].
Qed.

Lemma committed e candidate staged w :
  sound_nft e -> match staged with Some s => sj_temp s <> sj_destination s | None => True end ->
  in_step_if_ok (commit_candidate e candidate staged) w.
Proof.
  intros [Ha _] Hs. unfold commit_candidate. apply wp_bind, wp_gets. cbn beta iota.
  apply wp_bind, wp_attempt. eapply wp_mono; [|by apply apply_sound]. intros [[]|err] w1 (_ & _ & Hl1).
  2:{ apply wp_bind. apply (wp_mono _ (fun _ _ => True)); [|done]. by intros [] ? _. }
  specialize (Hl1 eq_refl). apply wp_bind, wp_attempt.
  apply (wp_mono _ (fun r w' => fw_live w' = fw_live w1)).
  - intros [[]|perr] w2 Hl2; [apply wp_modify; intros _; unfold in_step; cbn; congruence|].
    apply wp_bind. apply (wp_mono _ (fun _ _ => True)); [|done]. by intros [[]|] ? _.
  - destruct staged as [s|]; [|done]. eapply wp_mono; [|by apply staged_commit_spec]. by intros r w' (_ & ? & _).
Qed.

Lemma committed_staged {T} `{!Codec T} e path (v : T) candidate w :
  sound_nft e -> path = RESTRICTIONS_PATH \/ path = CUSTOM_PATH ->
  in_step_if_ok (s <- stage e path v ;; commit_candidate e candidate (Some s)) w.
Proof.
  intros Ha Hp. destruct (temp_of_fresh (fe_uuid e) path Hp) as [H1 H2].
  apply wp_bind. eapply wp_mono; [|apply stage_spec]. intros [st|err] w1 (_ & _ & _ & Hr); [|done].
  destruct Hr as [-> _]. apply committed; [done|]. cbn. destruct Hp; congruence.
Qed.

Lemma committed_staged_ret {T A} `{!Codec T} e path (v : T) candidate (a : A) w :
  sound_nft e -> path = RESTRICTIONS_PATH \/ path = CUSTOM_PATH ->
  in_step_if_ok (s <- stage e path v ;; (commit_candidate e candidate (Some s) ;;; ret a)) w.
Proof.
  intros Ha Hp. pose proof (committed_staged e path v candidate w Ha Hp) as Hk.
  unfold wp, bind, ret in *. destruct (stage e path v w) as [[st|] w1]; [|done].
  by destruct (commit_candidate e candidate (Some st) w1) as [[] w2].
Qed.

(** Walk through an operation whose result is judged only if it succeeds. *)
Ltac success_go :=
  repeat first
    [ progress cbn beta zeta
    | lazymatch goal with
      | |- wp (bind (gets _) _) _ _ => apply wp_bind, wp_gets
      | |- wp (bind (throw_if _ _) _) _ _ => apply wp_bind, wp_throw_if; [done|intros _]
      | |- wp (bind (lift _) _) _ _ => apply wp_bind, wp_lift
      | |- wp (commit_candidate _ _ None) _ _ => by apply committed
      | |- wp (ret _) _ _ => apply wp_ret; intros _; assumption
      | |- wp (match ?x with _ => _ end) _ _ => destruct x
      | |- match ?x with Ok _ => _ | Err _ => _ end => destruct x; [|done]
      end
    | done | by apply committed_staged; auto | by apply committed_staged_ret; auto ].

(** An operation that reports success has put the kernel in step. *)
Lemma exec_success e op w : sound_nft e -> in_step w -> (exec_fw e op w).1 = Ok tt -> in_step (exec_fw e op w).2.
Proof.
  intros Hs Hw. assert (forall m : M FwWorld string unit, in_step_if_ok m w -> (m w).1 = Ok tt -> in_step (m w).2) as Hm.
  { intros m Hm Hok. apply Hm. by rewrite Hok. }
  assert (forall A (m : M FwWorld string A), in_step_if_ok m w ->
    (match (m w).1 with Ok _ => Ok tt | Err msg => Err msg end) = Ok (E := string) tt -> in_step (m w).2) as Hd.
  { intros A m Hm' Hok. apply Hm'. by destruct (m w).1. }
  destruct op; cbn [exec_fw fst snd]; [apply Hm|apply Hm..|apply Hd|apply Hd|apply Hm];
    unfold init, open_, close_, open_rdma, close_rdma, open_dc, close_dc, set_rule_active, set_protocol_states, set_published_app_ports,
      set_restriction, set_service_ports, set_portal_ports, add_custom_rule, update_custom_rule, remove_custom_rule; success_go.
  all: try (apply wp_bind; apply (wp_mono _ (fun _ _ => True)); [|done]; intros [x|] w1 _; [|done]; success_go).
  all: try (apply wp_bind; apply (wp_mono _ (fun _ _ => True)); [|done]; intros [y|] w2 _; [|done]; success_go).
Qed.

(** C16: The engine does not misreport the firewall. Take any operation of the firewall service, loading the saved rules at
    a start included, in a state in which the kernel enforces exactly the rules of the configuration in memory, and an [nft]
    that has applied what it reports as applied. If the operation reports success, the kernel enforces exactly the rules of
    the configuration in memory afterwards. If it reports an error, because it is refused, fails in [nft], fails to write
    its file or even fails to roll back, the same holds provided that no [nft] run reports a failure for a batch that it
    has applied, as one that times out after its commit would. *)
Theorem kernel_matches_memory e op w :
  sound_nft e -> in_step w ->
  let '(r, w') := exec_fw e op w in
  (r = Ok tt -> in_step w') /\ (atomic_nft e -> in_step w').
Proof.
  intros Hs Hw. pose proof (exec_success e op w Hs Hw) as H1. pose proof (fun Ha => exec_in_step e op w Ha Hw) as H2.
  by destruct (exec_fw e op w).
Qed.

(** ** Persisted changes *)

(** The file an operation persists its change in, and that it holds the present
    configuration. *)
Definition op_path (op : FwOp) : option Path :=
  match op with
  | FRestrict _ _ _ => Some RESTRICTIONS_PATH
  | FAddCustom _ | FUpdateCustom _ _ | FRemoveCustom _ => Some CUSTOM_PATH
  | _ => None
  end.

Definition saved (op : FwOp) w : Prop :=
  match op with
  | FRestrict _ _ _ => exists json, encode (fc_restrictions (fw_config w)) = Ok json /\
      fw_disk w !! RESTRICTIONS_PATH = Some (mkFile Regular 384 0 json)
  | _ => exists json, encode (fc_custom (fw_config w)) = Ok json /\
      fw_disk w !! CUSTOM_PATH = Some (mkFile Regular 384 0 json)
  end.

(** The outcome of a persisted change: done, or undone on disk and in memory,
    unless the rollback itself failed. *)
Definition all_or_nothing (op : FwOp) (path : Path) w {A} (r : result A string) w' : Prop :=
  match r with
  | Ok _ => saved op w' /\ in_step w'
  | Err _ => fw_disk w' !! path = fw_disk w !! path /\ (fw_config w' = fw_config w \/ in_step w')
  end.

Lemma staged_all_or_nothing {T} `{!Codec T} op e path (v : T) candidate w :
  atomic_nft e -> path = RESTRICTIONS_PATH \/ path = CUSTOM_PATH ->
  (forall json w', fw_config w' = candidate -> encode v = Ok json ->
     fw_disk w' !! path = Some (mkFile Regular 384 engine_uid json) -> saved op w') ->
  wp (s <- stage e path v ;; commit_candidate e candidate (Some s)) (all_or_nothing op path w) w.
Proof.
  intros Ha Hp Hsaved. eapply wp_mono; [|by apply staged_change_spec].
  intros [[]|err] w'; cbn.
  - intros (Hc & Hl & json & Hj & Hf). split; [by eapply Hsaved|]. unfold in_step. by rewrite Hc.
  - intros [Hd Hc]. split; [done|]. destruct Hc as [[? _]|[Hc Hl]]; [by left|right].
    unfold in_step. by rewrite Hc.
Qed.

(** The same with a value returned at the end. *)
Lemma staged_ret_all_or_nothing {T A} `{!Codec T} op e path (v : T) candidate (a : A) w :
  wp (s <- stage e path v ;; commit_candidate e candidate (Some s)) (all_or_nothing op path w) w ->
  wp (s <- stage e path v ;; (commit_candidate e candidate (Some s) ;;; ret a)) (all_or_nothing op path w) w.
Proof.
  unfold wp, bind, ret. destruct (stage e path v w) as [[s|] w1]; [|done].
  by destruct (commit_candidate e candidate (Some s) w1) as [[] w2].
Qed.

(** A refusal before anything was done. *)
Lemma refused_all_or_nothing {A} op path w (msg : string) : all_or_nothing (A := A) op path w (Err msg) w.
Proof. split; auto. Qed.

(** Restrictions and custom rules persist all or nothing. When a change
    reports success, its file, mode 0600, is the encoding of the configuration
    in memory, and the kernel enforces it. When it reports an error, the file is
    what it was, and so is the configuration, unless the kernel could not be
    rolled back: then memory follows the kernel. *)
Theorem persisted_changes_all_or_nothing e op path w :
  atomic_nft e -> op_path op = Some path ->
  let out := exec_fw e op w in
  match out.1 with
  | Ok _ => saved op out.2 /\ in_step out.2
  | Err _ => fw_disk out.2 !! path = fw_disk w !! path /\ (fw_config out.2 = fw_config w \/ in_step out.2)
  end.
Proof.
  intros Ha Hop. cbn zeta. pose proof (@refused_all_or_nothing) as Hrefused.
  destruct op; try discriminate; injection Hop as <-; cbn [exec_fw].
  - enough (wp (set_restriction e service sources ifaces)
      (all_or_nothing (FRestrict service sources ifaces) RESTRICTIONS_PATH w) w) as E by exact E.
    unfold set_restriction. destruct (List.find _ sources); [apply Hrefused|].
    destruct (List.find _ ifaces); [apply Hrefused|]. destruct (default_ports service); [|apply Hrefused].
    apply wp_bind, wp_gets. cbn beta iota zeta. apply staged_all_or_nothing; [done|by left|].
    intros json w' Hc Hj Hf. exists json. by rewrite Hc.
  - enough (wp (add_custom_rule e input) (all_or_nothing (FAddCustom input) CUSTOM_PATH w) w) as E.
    { unfold wp, all_or_nothing in E. by destruct (add_custom_rule e input w) as [[] w']. }
    unfold add_custom_rule. apply wp_bind, wp_lift. destruct (validate_custom_input input); [|apply Hrefused].
    apply wp_bind, wp_gets. cbn beta iota. destruct (service_port_conflict _ _ _ _); [apply Hrefused|].
    apply wp_bind, wp_throw_if; [intros; apply Hrefused|]. intros _. cbn zeta.
    apply staged_ret_all_or_nothing, staged_all_or_nothing; [done|by right|].
    intros json w' Hc Hj Hf. exists json. by rewrite Hc.
  - enough (wp (update_custom_rule e id input) (all_or_nothing (FUpdateCustom id input) CUSTOM_PATH w) w) as E.
    { unfold wp, all_or_nothing in E. by destruct (update_custom_rule e id input w) as [[] w']. }
    unfold update_custom_rule. apply wp_bind, wp_lift. destruct (validate_custom_input input); [|apply Hrefused].
    apply wp_bind, wp_gets. cbn beta iota. destruct (service_port_conflict _ _ _ _); [apply Hrefused|].
    apply wp_bind, wp_throw_if; [intros; apply Hrefused|]. intros _.
    destruct (List.find _ _); [|apply Hrefused]. cbn zeta.
    apply staged_ret_all_or_nothing, staged_all_or_nothing; [done|by right|].
    intros json w' Hc Hj Hf. exists json. by rewrite Hc.
  - enough (wp (remove_custom_rule e id) (all_or_nothing (FRemoveCustom id) CUSTOM_PATH w) w) as E by exact E.
    unfold remove_custom_rule. apply wp_bind, wp_gets. cbn beta iota zeta.
    apply wp_bind, wp_throw_if; [intros; apply Hrefused|]. intros _.
    apply staged_all_or_nothing; [done|by right|].
    intros json w' Hc Hj Hf. exists json. by rewrite Hc.
Qed.

End Guarantees.

(** ** Packets *)

(** What the rules look at. *)
Record Packet {Addr : Type} := mkPacket {
  pk_transport : Transport;
  pk_dport : Z;
  pk_iface : string;
  pk_src : Addr
}.
Arguments Packet : clear implicits.

Section Packets.
Context {Addr : Type} (in_net : string -> Addr -> bool).
Implicit Types (pk : Packet Addr) (p : PortSpec).

(** The packet matches the rule line of a port specification. *)
Definition port_accepts pk p : bool :=
  bool_decide (ps_transport p = pk_transport pk)
  && (ps_port p <=? pk_dport pk)%Z && (pk_dport pk <=? default (ps_port p) (ps_to p))%Z
  && match ps_source p with Some net => in_net net (pk_src pk) | None => true end
  && match ps_iface p with Some i => pk_iface pk =s i | None => true end.

Definition ports_accept pk (ports : list PortSpec) : bool := existsb (port_accepts pk) ports.

(** An empty list of a restriction allows everything. *)
Definition allowed {A} (f : A -> bool) (l : list A) : bool :=
  match l with [] => true | _ => existsb f l end.

Definition unrestricted p : Prop := ps_source p = None /\ ps_iface p = None.

Lemma existsb_flat_map {A B} (f : B -> bool) (g : A -> list B) l :
  existsb f (flat_map g l) = existsb (fun a => existsb f (g a)) l.
Proof. induction l as [|a l IH]; [done|]. cbn. by rewrite existsb_app, IH. Qed.

Lemma existsb_fmap {A B} (f : B -> bool) (g : A -> B) l : existsb f (g <$> l) = existsb (fun a => f (g a)) l.
Proof. induction l as [|a l IH]; [done|]. cbn. by rewrite IH. Qed.

Lemma existsb_const {A} (b : bool) (f : A -> bool) l : existsb (fun a => b && f a) l = b && existsb f l.
Proof. induction l as [|a l IH]; cbn; [by rewrite andb_false_r|]. rewrite IH. by destruct b. Qed.

Lemma existsb_ext {A} (f g : A -> bool) l : (forall a, a ∈ l -> f a = g a) -> existsb f l = existsb g l.
Proof.
  induction l as [|a l IH]; intros Hfg; [done|]. cbn. rewrite Hfg, IH by set_solver. done.
Qed.

(** A restricted port accepts what the port accepts from the given origin. *)
Lemma restrict_accepts pk p src i :
  unrestricted p ->
  port_accepts pk (restrict src i p) =
    port_accepts pk p
    && match src with Some net => in_net net (pk_src pk) | None => true end
    && match i with Some i => pk_iface pk =s i | None => true end.
Proof. intros [Hs Hi]. unfold port_accepts. rewrite Hs, Hi. cbn. by rewrite !andb_true_r. Qed.

(** C22: Restrictions mean what they say. Traffic passes a restricted service
    exactly when it is for one of the service's ports, comes from one of the
    listed networks if any are listed, and enters through one of the listed
    interfaces if any are listed. *)
Theorem restrictions_mean_what_they_say pk ports sources ifaces :
  Forall unrestricted ports ->
  ports_accept pk (apply_restrictions ports sources ifaces) =
    ports_accept pk ports && allowed (fun net => in_net net (pk_src pk)) sources
    && allowed (fun i => pk_iface pk =s i) ifaces.
Proof.
  intros Hu. rewrite list.Forall_forall in Hu. unfold ports_accept.
  assert (forall (b : bool) (f : PortSpec -> bool),
    (forall p, p ∈ ports -> f p = port_accepts pk p && b) ->
    existsb f ports = existsb (port_accepts pk) ports && b) as Hfactor.
  { intros b f Hf. rewrite (existsb_ext f (fun p => b && port_accepts pk p)).
    - by rewrite existsb_const, andb_comm.
    - intros p Hp. by rewrite Hf, andb_comm. }
  unfold apply_restrictions. destruct sources as [|src srcs], ifaces as [|i is_].
  - cbn [allowed]. by rewrite !andb_true_r.
  - rewrite existsb_flat_map, andb_true_r. apply Hfactor. intros p Hp. cbn [allowed].
    rewrite existsb_fmap, <- existsb_const. apply existsb_ext. intros j _.
    rewrite restrict_accepts by auto. by rewrite andb_true_r.
  - rewrite existsb_flat_map, andb_true_r. apply Hfactor. intros p Hp. cbn [allowed].
    rewrite existsb_fmap, <- existsb_const. apply existsb_ext. intros j _.
    rewrite restrict_accepts by auto. by rewrite andb_true_r.
  - rewrite existsb_flat_map, <- andb_assoc. apply Hfactor. intros p Hp. cbn [allowed].
    set (B := existsb (fun j => pk_iface pk =s j) (i :: is_)).
    rewrite existsb_flat_map, (existsb_ext _ (fun s => (port_accepts pk p && B) && in_net s (pk_src pk))).
    + rewrite existsb_const. by destruct (port_accepts pk p), B, (existsb _ (src :: srcs)).
    + intros s _. rewrite existsb_fmap, (existsb_ext _ (fun j => (port_accepts pk p && in_net s (pk_src pk))
        && (pk_iface pk =s j))) by (intros j _; by rewrite restrict_accepts by auto).
      rewrite existsb_const. change (existsb _ (i :: is_)) with B.
      by destruct (port_accepts pk p), B, (in_net s (pk_src pk)).
Qed.

(** ** Replacing a restriction *)

Lemma strip_block p block rest seen :
  block <> [] -> Forall (fun x => restrict None None x = p) block ->
  strip_ports (block ++ rest)%list seen =
    strip_ports rest (if bool_decide (p ∈ seen) then seen else (seen ++ [p])%list).
Proof.
  intros Hne Hb. revert seen Hne. induction Hb as [|x block Hx Hb IH]; intros seen Hne; [done|].
  cbn [app strip_ports]. rewrite Hx. destruct block as [|y block].
  { cbn [app]. by destruct (bool_decide (p ∈ seen)). }
  destruct (bool_decide (p ∈ seen)) eqn:E.
  - rewrite IH by done. by rewrite E.
  - rewrite IH by done. rewrite bool_decide_eq_true_2; [done|]. set_solver.
Qed.

(** Blocks of restricted copies of each port strip back to the ports. *)
Lemma strip_blocks (g : PortSpec -> list PortSpec) ports seen :
  (forall p, p ∈ ports -> g p <> [] /\ Forall (fun x => restrict None None x = p) (g p)) ->
  NoDup ports -> (forall p, p ∈ ports -> p ∉ seen) ->
  strip_ports (flat_map g ports) seen = (seen ++ ports)%list.
Proof.
  revert seen. induction ports as [|p ports IH]; intros seen Hg Hn Hs; cbn [flat_map]; [by rewrite app_nil_r|].
  apply list.NoDup_cons in Hn as [Hp Hn]. destruct (Hg p) as [Hne Hb]; [set_solver|].
  rewrite (strip_block p) by done. rewrite bool_decide_eq_false_2 by (apply Hs; set_solver).
  rewrite IH; [by rewrite <- app_assoc|set_solver|done|].
  intros q Hq. rewrite not_elem_of_app, list_elem_of_singleton. split; [set_solver|]. by intros ->.
Qed.

Lemma restrict_unrestricted p : unrestricted p -> restrict None None p = p.
Proof. destruct p. by intros [[= ->] [= ->]]. Qed.

Lemma strip_apply ports sources ifaces :
  NoDup ports -> Forall unrestricted ports ->
  strip_ports (apply_restrictions ports sources ifaces) [] = ports.
Proof.
  intros Hn Hu. rewrite list.Forall_forall in Hu.
  assert (forall g, (forall p, p ∈ ports -> g p <> [] /\ Forall (fun x => restrict None None x = p) (g p)) ->
    strip_ports (flat_map g ports) [] = ports) as Hblocks.
  { intros g Hg. apply (strip_blocks g ports []); [done..|]. set_solver. }
  assert (forall p src i, p ∈ ports -> restrict None None (restrict src i p) = p) as Hback.
  { intros p src i Hp. by apply (restrict_unrestricted p), Hu. }
  unfold apply_restrictions. destruct sources as [|src srcs], ifaces as [|i is_].
  - transitivity (strip_ports (flat_map (fun p => [p]) ports) []).
    + f_equal. clear. induction ports as [|p ports IH]; [done|]. cbn. by rewrite <- IH.
    + apply Hblocks. intros p Hp. split; [done|]. constructor; [|constructor]. by apply restrict_unrestricted, Hu.
  - apply Hblocks. intros p Hp. split; [done|]. apply list.Forall_forall.
    intros x (j & -> & _)%list_elem_of_fmap. by apply Hback.
  - apply Hblocks. intros p Hp. split; [done|]. apply list.Forall_forall.
    intros x (j & -> & _)%list_elem_of_fmap. by apply Hback.
  - apply Hblocks. intros p Hp. split; [done|]. apply list.Forall_forall.
    intros x (s & _ & (j & <- & _)%in_map_iff)%list_elem_of_In%in_flat_map. by apply Hback.
Qed.

(** Setting a restriction replaces the previous one. For a service whose
    rule holds its base ports under some restriction, setting another leaves
    the base ports under the new restriction alone: rules do not pile up, and
    setting none brings the base ports back. Other services keep their rules. *)
Theorem restriction_replaces_previous service base s0 i0 sources ifaces dports c rule :
  NoDup base -> Forall unrestricted base ->
  List.find (for_service service) (fc_state c) = Some rule -> r_ports rule = apply_restrictions base s0 i0 ->
  let c' := restriction_candidate service sources ifaces dports c in
  List.find (for_service service) (fc_state c') =
    Some (mkRule service (apply_restrictions base sources ifaces) (r_active rule)) /\
  (forall other, other <> service ->
     List.find (for_service other) (fc_state c') = List.find (for_service other) (fc_state c)) /\
  sources_of (fc_restrictions c') service = sources /\ ifaces_of (fc_restrictions c') service = ifaces.
Proof.
  intros Hn Hu Hf Hr. unfold restriction_candidate. rewrite Hf, Hr, strip_apply by done. cbn -[apply_restrictions].
  assert (forall k (l : list string) m, default [] (put_list k l m !! k) = l) as Hput.
  { intros k [|x l] m; unfold put_list; [by rewrite lookup_delete_eq|by rewrite lookup_insert_eq]. }
  unfold sources_of, ifaces_of. cbn. rewrite !Hput. split_and!; [| |done..].
  - clear Hr. induction (fc_state c) as [|r st IH]; [done|]. cbn in *.
    destruct (for_service service r) eqn:E; cbn.
    + injection Hf as ->. unfold for_service in *. cbn. rewrite E. apply eqb_spec in E. unfold set_ports. by rewrite E.
    + by rewrite E, IH.
  - intros other Hne. clear Hf Hr. induction (fc_state c) as [|r st IH]; [done|]. cbn.
    destruct (for_service service r) eqn:E; cbn.
    + unfold for_service in *. cbn. apply eqb_spec in E. rewrite E.
      by rewrite (proj2 (eqb_neq_spec service other)) by congruence.
    + by rewrite IH.
Qed.

End Packets.

(** ** Conflicts *)

(** A custom rule shares no port with a service. The conflict check passes
    exactly when no port number of the rule's range belongs, on the same
    transport, to a service's rule, active or not; when it fails it names a
    service that owns such a port. *)
Theorem conflict_check_exact state transport from to :
  (from <= to)%Z ->
  (forall r p, r ∈ state -> p ∈ r_ports r -> (ps_port p <= default (ps_port p) (ps_to p))%Z) ->
  match service_port_conflict state transport from to with
  | None => forall r p n, r ∈ state -> p ∈ r_ports r -> ps_transport p = transport ->
      (from <= n <= to)%Z -> ~ (ps_port p <= n <= default (ps_port p) (ps_to p))%Z
  | Some owner => exists r p n, r ∈ state /\ r_service r = owner /\ p ∈ r_ports r /\
      ps_transport p = transport /\ (from <= n <= to)%Z /\
      (ps_port p <= n <= default (ps_port p) (ps_to p))%Z
  end.
Proof.
  intros Hft Hok. unfold service_port_conflict.
  destruct (List.find _ state) as [r|] eqn:E; cbn.
  - apply find_Some_elem in E as [Hr (p & Hp & Hm)%existsb_elem].
    unfold meets in Hm. apply andb_prop in Hm as [[Ht%bool_decide_eq_true H1%Z.leb_le]%andb_prop H2%Z.leb_le].
    specialize (Hok r p Hr Hp). exists r, p, (Z.max from (ps_port p)). split_and!; try done; lia.
  - rewrite find_none_iff in E. intros r p n Hr Hp Ht Hn Hp'. specialize (E r Hr). cbn in E.
    rewrite existsb_none in E. specialize (E p Hp). unfold meets in E.
    rewrite bool_decide_eq_true_2 in E by done. cbn in E.
    apply andb_false_iff in E as [E%Z.leb_gt|E%Z.leb_gt]; lia.
Qed.
