(* ===== verification/FirewallWitness.v ===== *)
(** * The guest-share theorems at work

    A share created, revoked and downloaded on a small disk.

    ** The firewall theorems at work

    A firewall brought up with SSH and SMB, a restriction, a custom rule, and a
    change that fails after the kernel took it. *)
From Stdlib Require Import String Ascii ZArith.
From stdpp Require Import base list gmap strings numbers countable sorting.
From S2P Require Import Prelude RustStr Disk StateStore Records AuthTypes AuthStore AuthWitness GuestShare GuestShareProps FirewallRules Firewall FirewallProps.

Open Scope string_scope.
Open Scope nat_scope.
Open Scope rust_scope.

#[export] Instance guest_share_eq_dec : EqDecision GuestShare.
Proof. solve_decision. Defined.
#[export] Instance guest_share_countable : Countable GuestShare.
Proof.
  apply (inj_countable' (fun s => ((gs_id s, gs_token_hash s, gs_paths s),
      (gs_created_by s, gs_created_at s, gs_expires_at s),
      (gs_password_hash s, gs_max_downloads s, gs_downloads s, gs_views s),
      (gs_revoked s, gs_hidden s, gs_note s)))
    (fun x => mkGuestShare x.1.1.1.1.1 x.1.1.1.1.2 x.1.1.1.2 x.1.1.2.1.1 x.1.1.2.1.2 x.1.1.2.2
       x.1.2.1.1.1 x.1.2.1.1.2 x.1.2.1.2 x.1.2.2 x.2.1.1 x.2.1.2 x.2.2)).
  by intros [].
Defined.

#[export] Instance guest_share_codec : Codec GuestShare := count_codec GuestShare.
#[export] Instance guest_share_codec_laws : CodecLaws GuestShare.
Proof. apply count_codec_laws. Qed.

Definition gsd : StateDir := mkStateDir ["var"; "gs"].
Definition fs_view : FsView := mkFsView (fun p => Some (components p)) (fun _ => Some KFile).
Definition share_req : CreateGuestShareRequest :=
  mkCreateRequest ["/fs/tank/a.txt"] (Some 5000%Z) (Some "hunter2") (Some 2%Z) None.

Lemma empty_dir_ok : dir_ok gsd ∅.
Proof. split; intros *; rewrite lookup_empty; discriminate. Qed.

Definition created : result (GuestShareInfo * string) GuestShareError * Disk :=
  create no_faults gsd ["fs"] fs_view 1000 "t" "s" "u1" share_req "admin" ∅.
Definition disk1 : Disk := created.2.

Definition share1 : GuestShare :=
  new_share "u1" (generate_token "t") 1000 "admin" ["/fs/tank/a.txt"] (Some "hunter2s") share_req.

Lemma created_ok :
  create no_faults gsd ["fs"] fs_view 1000 "t" "s" "u1" share_req "admin" ∅ = (Ok (share_info share1, generate_token "t"), disk1).
Proof. apply (run_split created). vm_compute. reflexivity. Qed.

Lemma u1_valid : valid_id "u1".
Proof. by split. Qed.

Lemma created_link_works_witness :
  exists x, gs_token_hash x = sha256_hex (generate_token "t") /\
    (lookup_active no_faults gsd (generate_token "t") 4999 disk1).1 = Ok (Some x) /\
    verify_share_password false x "hunter2" = Ok true.
Proof.
  destruct (created_link_works gsd ["fs"] _ _ _ _ _ _ _ _ _ _ _ _ created_ok empty_dir_ok u1_valid)
    as (x & _ & _ & Hh & _ & _ & _ & Hl & Hp).
  - intros i y _ _ E. vm_compute in E. discriminate.
  - exists x. split; [exact Hh|]. split; [apply Hl; reflexivity|].
    exact (proj2 (Hp "hunter2" eq_refl ltac:(discriminate))).
Defined.

(** [disk1] is a directory in order with the new share in it. *)
Lemma disk1_ok : dir_ok gsd disk1.
Proof.
  pose proof (exec_step gsd ["fs"] no_faults (SCreate fs_view 1000 "t" "s" "u1" share_req "admin") ∅
    empty_dir_ok u1_valid) as [Hd _]. exact Hd.
Qed.

Lemma share1_stored : stored gsd disk1 "u1" = Some share1.
Proof. vm_compute. reflexivity. Qed.

(** Two downloads are served, the third is refused; then the share is revoked. *)
Definition busy_run : list (Faults * ShareOp) :=
  [(no_faults, SDownload "u1" 2000); (no_faults, SView false "u1"); (no_faults, SDownload "u1" 2001);
   (no_faults, SDownload "u1" 2002); (no_faults, SRevoke "u1"); (no_faults, SRemove "u1")].

Lemma busy_calls : calls_ok "u1" busy_run.
Proof. repeat constructor; discriminate. Qed.

Lemma share_records_only_advance_witness :
  exists s', stored gsd (run_shares gsd ["fs"] busy_run disk1) "u1" = Some s' /\ share_le share1 s'.
Proof. exact (share_records_only_advance gsd ["fs"] "u1" busy_run disk1 share1 disk1_ok u1_valid busy_calls share1_stored). Defined.

Lemma download_cap_holds_witness :
  served gsd ["fs"] "u1" busy_run disk1 = 2 /\
  (Z.of_nat (served gsd ["fs"] "u1" busy_run disk1) <= 2)%Z.
Proof.
  split; [vm_compute; reflexivity|].
  apply (download_cap_holds gsd ["fs"] "u1" busy_run disk1 share1 2 disk1_ok u1_valid busy_calls share1_stored);
    [reflexivity|]. cbn. unfold u32_max. lia.
Defined.

Definition disk2 : Disk := (exec_share gsd ["fs"] no_faults (SRevoke "u1") disk1).2.

Lemma disk2_ok : dir_ok gsd disk2.
Proof. exact (proj1 (exec_step gsd ["fs"] no_faults (SRevoke "u1") disk1 disk1_ok u1_valid)). Qed.

Lemma revoked_share_never_served_witness :
  stored gsd disk2 "u1" = Some (set_revoked share1) /\
  forall x, (lookup_active no_faults gsd (generate_token "t") 2000
               (run_shares gsd ["fs"] busy_run disk2)).1 = Ok (Some x) -> gs_id x <> "u1".
Proof.
  assert (stored gsd disk2 "u1" = Some (set_revoked share1)) as Hs by (vm_compute; reflexivity).
  split; [exact Hs|]. intros x Hl.
  exact (revoked_share_never_served gsd ["fs"] "u1" busy_run disk2 (set_revoked share1) no_faults _ _ x
    disk2_ok u1_valid busy_calls Hs eq_refl Hl).
Defined.

Lemma guest_paths_stay_below_witness :
  public_relative_path "photos/2024//img.jpg" = Some (["photos"; "2024"; "img.jpg"], "photos/2024/img.jpg") /\
  (".." ∉ split "/" "photos/2024//img.jpg").
Proof.
  assert (public_relative_path "photos/2024//img.jpg"
          = Some (["photos"; "2024"; "img.jpg"], "photos/2024/img.jpg")) as Hp by (vm_compute; reflexivity).
  split; [exact Hp|]. destruct (guest_paths_stay_below _ _ _ Hp) as (_ & _ & _ & Hd & _). exact Hd.
Defined.

(** Climbing out is refused. *)
Example guest_path_climb : public_relative_path "photos/../../etc/shadow" = None.
Proof. vm_compute. reflexivity. Qed.

(** Addresses with a colon are IPv6, others IPv4. *)
#[export] Instance toy_ip : IpParser := fun s =>
  if s =s "" then None else if contains_char ":" s then Some V6 else Some V4.

#[export] Instance restrictions_eq_dec : EqDecision FirewallRestrictions.
Proof. solve_decision. Defined.
#[export] Instance restrictions_countable : Countable FirewallRestrictions.
Proof.
  apply (inj_countable' (fun r => (fr_services r, fr_interfaces r)) (fun x => mkRestrictions x.1 x.2)).
  by intros [].
Defined.

Definition transport_bool (t : Transport) : bool := match t with Tcp => true | Udp => false end.

#[export] Instance transport_countable : Countable Transport.
Proof. apply (inj_countable' transport_bool (fun b : bool => if b then Tcp else Udp)). by intros []. Defined.
#[export] Instance custom_eq_dec : EqDecision CustomRule.
Proof. solve_decision. Defined.
#[export] Instance custom_countable : Countable CustomRule.
Proof.
  apply (inj_countable' (fun r => ((c_id r, c_label r, c_transport r), (c_from r, c_to r),
      (c_source r, c_iface r, c_enabled r)))
    (fun x => mkCustom x.1.1.1.1 x.1.1.1.2 x.1.1.2 x.1.2.1 x.1.2.2 x.2.1.1 x.2.1.2 x.2.2)).
  by intros [].
Defined.

#[export] Instance restrictions_codec : Codec FirewallRestrictions := count_codec FirewallRestrictions.
#[export] Instance custom_codec : Codec (list CustomRule) := count_codec (list CustomRule).

Definition nft_ok (t : string) : NftRun := mkNftRun (Ok tt) true.
Definition nft_fails (t : string) : NftRun := mkNftRun (Err "nft: netlink") false.
Definition no_complaint (t : string) : result unit string := Ok tt.

(** Everything works; renames fail; renames and the rollback fail. *)
Definition fenv : FwEnv := mkFwEnv no_complaint nft_ok no_complaint nft_ok "u" "r1" no_faults.
Definition rename_fails : Faults :=
  mkFaults (fun op _ => match op with OpRename => Some (OtherIo "disk full") | _ => None end) 0.
Definition fenv_bad : FwEnv := mkFwEnv no_complaint nft_ok no_complaint nft_fails "u" "r1" rename_fails.

Lemma fenv_atomic : atomic_nft fenv.
Proof. by split. Qed.
Lemma fenv_bad_atomic : atomic_nft fenv_bad.
Proof. by split. Qed.

Definition fw0 : FwWorld := mkFw config_default None ∅.
Definition fw1 : FwWorld := (init fenv [(Ssh, true); (Smb, false)] false false [tcp 3260] [] [] fw0).2.

Lemma fw1_in_step : in_step fw1.
Proof. vm_compute. reflexivity. Qed.

Definition plex : CustomRuleInput := mkCustomInput "Plex" Tcp 32400 32401 None None true.

Lemma kernel_matches_memory_witness :
  (exec_fw fenv_bad (FAddCustom plex) fw1).1 <> Ok tt /\ in_step (exec_fw fenv_bad (FAddCustom plex) fw1).2 /\
  (exec_fw fenv (FAddCustom plex) fw1).1 = Ok tt /\ in_step (exec_fw fenv (FAddCustom plex) fw1).2.
Proof.
  assert (sound_nft fenv_bad) as Hb by (split; intros t Ht; cbn in *; congruence).
  assert (sound_nft fenv) as Hg by (split; intros t Ht; reflexivity).
  pose proof (kernel_matches_memory fenv_bad (FAddCustom plex) fw1 Hb fw1_in_step) as H1.
  pose proof (kernel_matches_memory fenv (FAddCustom plex) fw1 Hg fw1_in_step) as H2.
  assert ((exec_fw fenv (FAddCustom plex) fw1).1 = Ok tt) as Hok by (vm_compute; reflexivity).
  destruct (exec_fw fenv_bad (FAddCustom plex) fw1) as [r1 w1] eqn:E1. destruct (exec_fw fenv (FAddCustom plex) fw1) as [r2 w2].
  split; [|split; [exact (proj2 H1 fenv_bad_atomic)|split; [exact Hok|exact (proj1 H2 Hok)]]].
  assert ((exec_fw fenv_bad (FAddCustom plex) fw1).1 <> Ok tt) as Hn by (vm_compute; discriminate). rewrite E1 in Hn. exact Hn.
Defined.

(** A run that times out after its commit: the operation reports an error, the rules are live, and memory does not have them. *)
Definition fenv_late : FwEnv :=
  mkFwEnv no_complaint (fun _ => mkNftRun (Err "nft apply timed out") true) no_complaint nft_ok "u" "r1" no_faults.

Lemma late_failure_leaves_memory_behind :
  let run := exec_fw fenv_late (FOpen Smb) fw1 in
  run.1 = Err "nft apply timed out" /\ fw_config run.2 = fw_config fw1 /\ fw_live run.2 <> fw_live fw1.
Proof. split_and!; [vm_compute; reflexivity|vm_compute; reflexivity|vm_compute; discriminate]. Qed.

Lemma persisted_changes_all_or_nothing_witness :
  (exec_fw fenv (FAddCustom plex) fw1).1 = Ok tt /\ saved (FAddCustom plex) (exec_fw fenv (FAddCustom plex) fw1).2.
Proof.
  assert ((exec_fw fenv (FAddCustom plex) fw1).1 = Ok tt) as Hok by (vm_compute; reflexivity).
  split; [exact Hok|].
  pose proof (persisted_changes_all_or_nothing fenv (FAddCustom plex) CUSTOM_PATH fw1 fenv_atomic eq_refl) as Hs.
  cbn zeta in Hs. rewrite Hok in Hs. exact (proj1 Hs).
Defined.

(** Networks as prefixes of address texts. *)
Definition in_prefix (net addr : string) : bool := String.prefix net addr.

Lemma restrictions_mean_what_they_say_witness :
  ports_accept in_prefix (mkPacket string Tcp 22 "eth1" "10.1.2.3")
    (apply_restrictions (ports_for_protocol Ssh) ["10.1."; "10.2."] ["eth0"]) = false.
Proof.
  rewrite restrictions_mean_what_they_say; [vm_compute; reflexivity|]. by repeat constructor.
Defined.

Definition ssh_rule : FirewallRule := mkRule "ssh" [tcp 22] true.

Lemma restriction_replaces_previous_witness :
  List.find (for_service "ssh")
    (fc_state (restriction_candidate "ssh" ["10.0.0.0/8"] [] [tcp 22] (fw_config fw1)))
  = Some (mkRule "ssh" (apply_restrictions [tcp 22] ["10.0.0.0/8"] []) true).
Proof.
  refine (proj1 (restriction_replaces_previous "ssh" [tcp 22] [] [] ["10.0.0.0/8"] [] [tcp 22]
    (fw_config fw1) ssh_rule _ _ _ _)).
  - apply NoDup_singleton.
  - by repeat constructor.
  - vm_compute. reflexivity.
  - reflexivity.
Defined.

Lemma conflict_check_exact_witness :
  service_port_conflict (fc_state (fw_config fw1)) Tcp 444 450 = Some "smb" /\
  exists r p n, r ∈ fc_state (fw_config fw1) /\ r_service r = "smb" /\ p ∈ r_ports r /\
    (444 <= n <= 450)%Z /\ (ps_port p <= n)%Z.
Proof.
  assert (service_port_conflict (fc_state (fw_config fw1)) Tcp 444 450 = Some "smb") as Hc
    by (vm_compute; reflexivity).
  split; [exact Hc|].
  assert (forallb (fun r => forallb (fun p => (ps_port p <=? default (ps_port p) (ps_to p))%Z) (r_ports r))
            (fc_state (fw_config fw1)) = true) as Hall by (vm_compute; reflexivity).
  pose proof (conflict_check_exact (fc_state (fw_config fw1)) Tcp 444 450 ltac:(lia)) as Hx.
  rewrite Hc in Hx. destruct Hx as (r & p & n & Hr & Hs & Hp & _ & Hn & Hn' & _).
  - intros r p Hr Hp. rewrite forallb_forall in Hall. apply list_elem_of_In in Hr. specialize (Hall r Hr).
    rewrite forallb_forall in Hall. apply list_elem_of_In in Hp. by apply Z.leb_le, Hall.
  - exists r, p, n. exact (conj Hr (conj Hs (conj Hp (conj Hn Hn')))).
Defined.
