(* ===== verification/Layered.v ===== *)
(** * Network configuration: nasty-system/src/network.rs and network/layered.rs

    The flat configuration the WebUI edits, the layered model of links and
    addresses handed to NetworkManager, the two converters between them, and
    the structural validator with its depth-first search for cycles. *)
From Stdlib Require Import String Ascii ZArith.
From stdpp Require Import base list gmap strings numbers relations.
From S2P Require Import Prelude RustStr.

Open Scope string_scope.
Open Scope rust_scope.

(** ** The flat configuration: network.rs *)

Inductive IpMethod := Dhcp | Static | Slaac | Inherit | Disabled.

#[export] Instance IpMethod_eq_dec : EqDecision IpMethod.
Proof. solve_decision. Defined.

Record IpConfig := mkIp {
  ip_method : IpMethod;
  ip_addresses : list string;
  ip_gateway : option string
}.

#[export] Instance IpConfig_eq_dec : EqDecision IpConfig.
Proof. solve_decision. Defined.

(** [IpConfig::default()]. *)
Definition ip_default : IpConfig := mkIp Disabled [] None.

Record VfConfig := mkVf {
  vf_index : Z;
  vf_vlan : option Z;
  vf_mac : option string;
  vf_trust : option bool;
  vf_spoof_check : option bool
}.

#[export] Instance VfConfig_eq_dec : EqDecision VfConfig.
Proof. solve_decision. Defined.

Record InterfaceConfig := mkIface {
  if_name : string;
  if_enabled : bool;
  if_ipv4 : IpConfig;
  if_ipv6 : IpConfig;
  if_mtu : option Z;
  if_sriov_num_vfs : option Z;
  if_vfs : list VfConfig
}.

#[export] Instance InterfaceConfig_eq_dec : EqDecision InterfaceConfig.
Proof. solve_decision. Defined.

Inductive BondMode := Lacp | ActiveBackup | BalanceRr | BalanceXor.

#[export] Instance BondMode_eq_dec : EqDecision BondMode.
Proof. solve_decision. Defined.

(** [BondMode::to_kernel]. *)
Definition to_kernel (m : BondMode) : string :=
  match m with
  | Lacp => "802.3ad"
  | ActiveBackup => "active-backup"
  | BalanceRr => "balance-rr"
  | BalanceXor => "balance-xor"
  end.

Record BondConfig := mkBond {
  bo_name : string;
  bo_members : list string;
  bo_mode : BondMode;
  bo_ipv4 : IpConfig;
  bo_ipv6 : IpConfig;
  bo_mtu : option Z;
  bo_inherit_member_mac : bool
}.

#[export] Instance BondConfig_eq_dec : EqDecision BondConfig.
Proof. solve_decision. Defined.

Record VlanConfig := mkVlan {
  vl_parent : string;
  vl_vlan_id : Z;
  vl_ipv4 : IpConfig;
  vl_ipv6 : IpConfig;
  vl_mtu : option Z
}.

#[export] Instance VlanConfig_eq_dec : EqDecision VlanConfig.
Proof. solve_decision. Defined.

Record BridgeConfig := mkBridge {
  br_name : string;
  br_members : list string;
  br_ipv4 : IpConfig;
  br_ipv6 : IpConfig;
  br_mtu : option Z;
  br_stp : bool;
  br_forward_delay_s : option Z;
  br_inherit_member_mac : bool
}.

#[export] Instance BridgeConfig_eq_dec : EqDecision BridgeConfig.
Proof. solve_decision. Defined.

Record MacvlanConfig := mkMacvlan {
  mv_name : string;
  mv_parent : string;
  mv_mode : string;
  mv_ipv4 : IpConfig;
  mv_mtu : option Z;
  mv_routes : list string
}.

#[export] Instance MacvlanConfig_eq_dec : EqDecision MacvlanConfig.
Proof. solve_decision. Defined.

Record NetworkConfig := mkNet {
  nc_interfaces : list InterfaceConfig;
  nc_dns : list string;
  nc_bonds : list BondConfig;
  nc_vlans : list VlanConfig;
  nc_bridges : list BridgeConfig;
  nc_macvlans : list MacvlanConfig
}.

#[export] Instance NetworkConfig_eq_dec : EqDecision NetworkConfig.
Proof. solve_decision. Defined.

(** [NetworkConfig::default()]. *)
Definition net_default : NetworkConfig := mkNet [] [] [] [] [] [].

(** ** The layered model: layered.rs *)

Inductive LinkKind :=
| Physical
| Bond (members : list string) (mode : BondMode) (inherit_member_mac : bool)
| Bridge (members : list string) (stp : bool) (forward_delay_s : option Z) (inherit_member_mac : bool)
| Vlan (parent : string) (id : Z)
| Macvlan (parent mode : string).

Record Link := mkLink {
  l_name : string;
  l_enabled : bool;
  l_mtu : option Z;
  l_mac : option string;
  l_sriov_num_vfs : option Z;
  l_vfs : list VfConfig;
  l_kind : LinkKind
}.

Inductive Family := V4 | V6.

Record Address := mkAddr {
  a_link : string;
  a_family : Family;
  a_method : IpMethod;
  a_cidr : list string;
  a_gateway : option string
}.

Record Route := mkRoute {
  ro_table : Z;
  ro_dst : string;
  ro_via : option string;
  ro_dev : string;
  ro_metric : option Z
}.

(** [Rule]: reserved by the code, always empty. *)
Record PolicyRule := mkPolicyRule {
  pr_priority : Z;
  pr_table : Z;
  pr_from : option string;
  pr_to : option string;
  pr_iif : option string;
  pr_oif : option string
}.

Record LayeredConfig := mkLayered {
  lc_links : list Link;
  lc_addresses : list Address;
  lc_routes : list Route;
  lc_rules : list PolicyRule;
  lc_dns : list string
}.

(** ** Flat to layered *)

Definition is_empty_ip (ip : IpConfig) : bool :=
  match ip_method ip, ip_addresses ip, ip_gateway ip with
  | Disabled, [], None => true
  | _, _, _ => false
  end.

Definition address_of (link : string) (f : Family) (ip : IpConfig) : list Address :=
  if is_empty_ip ip then []
  else [mkAddr link f (ip_method ip) (ip_addresses ip) (ip_gateway ip)].

(** The rows [push_addresses] appends. *)
Definition push_addresses (link : string) (v4 v6 : IpConfig) : list Address :=
  (address_of link V4 v4 ++ address_of link V6 v6)%list.

(** [Link { enabled: true, mac: None, sriov_num_vfs: None, vfs: [], .. }]. *)
Definition virtual_link (name : string) (mtu : option Z) (kind : LinkKind) : Link :=
  mkLink name true mtu None None [] kind.

Definition vlan_name (v : VlanConfig) : string := vl_parent v ++ "." ++ fmt_Z (vl_vlan_id v).

Definition iface_link (i : InterfaceConfig) : Link :=
  mkLink (if_name i) (if_enabled i) (if_mtu i) None (if_sriov_num_vfs i) (if_vfs i) Physical.
Definition bond_link (b : BondConfig) : Link :=
  virtual_link (bo_name b) (bo_mtu b) (Bond (bo_members b) (bo_mode b) (bo_inherit_member_mac b)).
Definition bridge_link (b : BridgeConfig) : Link :=
  virtual_link (br_name b) (br_mtu b)
    (Bridge (br_members b) (br_stp b) (br_forward_delay_s b) (br_inherit_member_mac b)).
Definition vlan_link (v : VlanConfig) : Link :=
  virtual_link (vlan_name v) (vl_mtu v) (Vlan (vl_parent v) (vl_vlan_id v)).
Definition macvlan_link (m : MacvlanConfig) : Link :=
  virtual_link (mv_name m) (mv_mtu m) (Macvlan (mv_parent m) (mv_mode m)).

Definition declared_links (c : NetworkConfig) : list Link :=
  ((iface_link <$> nc_interfaces c) ++ (bond_link <$> nc_bonds c) ++
   (bridge_link <$> nc_bridges c) ++ (vlan_link <$> nc_vlans c) ++
   (macvlan_link <$> nc_macvlans c))%list.

Definition declared_addresses (c : NetworkConfig) : list Address :=
  (flat_map (fun i => push_addresses (if_name i) (if_ipv4 i) (if_ipv6 i)) (nc_interfaces c) ++
   flat_map (fun b => push_addresses (bo_name b) (bo_ipv4 b) (bo_ipv6 b)) (nc_bonds c) ++
   flat_map (fun b => push_addresses (br_name b) (br_ipv4 b) (br_ipv6 b)) (nc_bridges c) ++
   flat_map (fun v => push_addresses (vlan_name v) (vl_ipv4 v) (vl_ipv6 v)) (nc_vlans c) ++
   flat_map (fun m => push_addresses (mv_name m) (mv_ipv4 m) ip_default) (nc_macvlans c))%list.

Definition macvlan_routes (m : MacvlanConfig) : list Route :=
  (fun dst => mkRoute 254 dst None (mv_name m) None) <$> mv_routes m.

(** The members of a bond or bridge. *)
Definition members_of (k : LinkKind) : list string :=
  match k with
  | Bond ms _ _ | Bridge ms _ _ _ => ms
  | _ => []
  end.

(** The members that no link declares, each once, in the order met. [seen] is
    the set of the names already synthesized. *)
Fixpoint missing_members (declared : list string) (ms seen : list string) : list string :=
  match ms with
  | [] => []
  | m :: ms' =>
      if bool_decide (m ∈ declared) || bool_decide (m ∈ seen) then missing_members declared ms' seen
      else m :: missing_members declared ms' (m :: seen)
  end.

Definition synthesized (links : list Link) : list Link :=
  (fun m => virtual_link m None Physical) <$>
    missing_members (l_name <$> links) (flat_map (fun l => members_of (l_kind l)) links) [].

Definition to_layered (legacy : NetworkConfig) : LayeredConfig :=
  let links := declared_links legacy in
  mkLayered (links ++ synthesized links)%list (declared_addresses legacy)
    (flat_map macvlan_routes (nc_macvlans legacy)) [] (nc_dns legacy).

(** ** Layered to flat *)

Definition set_family (f : Family) (ip : IpConfig) (p : IpConfig * IpConfig) : IpConfig * IpConfig :=
  match f with V4 => (ip, p.2) | V6 => (p.1, ip) end.

(** [group_addresses]: a later row of the same family replaces an earlier one. *)
Definition group_addresses (addrs : list Address) : gmap string (IpConfig * IpConfig) :=
  fold_left (fun out a =>
    let entry := default (ip_default, ip_default) (out !! a_link a) in
    <[a_link a := set_family (a_family a) (mkIp (a_method a) (a_cidr a) (a_gateway a)) entry]> out)
    addrs ∅.

Definition routes_by_dev (routes : list Route) : gmap string (list string) :=
  fold_left (fun out r => <[ro_dev r := (default [] (out !! ro_dev r) ++ [ro_dst r])%list]> out) routes ∅.

Definition push_link (addrs : gmap string (IpConfig * IpConfig)) (routes : gmap string (list string))
    (acc : NetworkConfig) (l : Link) : NetworkConfig :=
  let '(ipv4, ipv6) := default (ip_default, ip_default) (addrs !! l_name l) in
  let '(mkNet ifs dns bonds vlans bridges mvs) := acc in
  match l_kind l with
  | Physical =>
      mkNet (ifs ++ [mkIface (l_name l) (l_enabled l) ipv4 ipv6 (l_mtu l) (l_sriov_num_vfs l) (l_vfs l)])%list
        dns bonds vlans bridges mvs
  | Bond ms mode inh =>
      mkNet ifs dns (bonds ++ [mkBond (l_name l) ms mode ipv4 ipv6 (l_mtu l) inh])%list vlans bridges mvs
  | Bridge ms stp fd inh =>
      mkNet ifs dns bonds vlans (bridges ++ [mkBridge (l_name l) ms ipv4 ipv6 (l_mtu l) stp fd inh])%list mvs
  | Vlan p id =>
      mkNet ifs dns bonds (vlans ++ [mkVlan p id ipv4 ipv6 (l_mtu l)])%list bridges mvs
  | Macvlan p mode =>
      mkNet ifs dns bonds vlans bridges
        (mvs ++ [mkMacvlan (l_name l) p mode ipv4 (l_mtu l) (default [] (routes !! l_name l))])%list
  end.

Definition from_layered (c : LayeredConfig) : NetworkConfig :=
  fold_left (push_link (group_addresses (lc_addresses c)) (routes_by_dev (lc_routes c)))
    (lc_links c) (mkNet [] (lc_dns c) [] [] [] []).

(** ** Validation *)

(** The steps of [validate] over lists stop at the first error. *)
Fixpoint check_each {A} (f : A -> result unit string) (l : list A) : result unit string :=
  match l with
  | [] => Ok tt
  | x :: l' => match f x with Ok _ => check_each f l' | Err e => Err e end
  end.

(** 1. No duplicate link names. *)
Fixpoint duplicate_name (names : list string) (links : list Link) : result unit string :=
  match links with
  | [] => Ok tt
  | l :: links' =>
      if bool_decide (l_name l ∈ names) then Err ("duplicate link name '" ++ l_name l ++ "'")
      else duplicate_name (l_name l :: names) links'
  end.

(** 2. References resolve and do not target the link itself. *)
Definition check_member (names : list string) (l : Link) (m : string) : result unit string :=
  if m =s l_name l then Err ("link '" ++ l_name l ++ "' enslaves itself")
  else if bool_decide (m ∈ names) then Ok tt
  else Err ("link '" ++ l_name l ++ "' references missing member '" ++ m ++ "'").

Definition check_refs (names : list string) (l : Link) : result unit string :=
  match l_kind l with
  | Bond ms _ _ | Bridge ms _ _ _ => check_each (check_member names l) ms
  | Vlan p _ =>
      if p =s l_name l then Err ("vlan '" ++ l_name l ++ "' is its own parent")
      else if bool_decide (p ∈ names) then Ok tt
      else Err ("vlan '" ++ l_name l ++ "' references missing parent '" ++ p ++ "'")
  | Macvlan p _ =>
      if p =s l_name l then Err ("macvlan '" ++ l_name l ++ "' is its own parent")
      else if bool_decide (p ∈ names) then Ok tt
      else Err ("macvlan '" ++ l_name l ++ "' references missing parent '" ++ p
                ++ "' (declare the parent interface/bridge first)")
  | Physical => Ok tt
  end.

(** 3. Address links resolve. *)
Definition check_address (names : list string) (a : Address) : result unit string :=
  if bool_decide (a_link a ∈ names) then Ok tt
  else Err ("address references missing link '" ++ a_link a ++ "'").

(** 4. Each link is the member of at most one master. *)
Fixpoint enslave (master_of : gmap string string) (name : string) (ms : list string)
    : result (gmap string string) string :=
  match ms with
  | [] => Ok master_of
  | m :: ms' =>
      match master_of !! m with
      | Some existing =>
          Err ("link '" ++ m ++ "' is a member of both '" ++ existing ++ "' and '" ++ name ++ "'")
      | None => enslave (<[m := name]> master_of) name ms'
      end
  end.

Fixpoint single_master (master_of : gmap string string) (links : list Link) : result unit string :=
  match links with
  | [] => Ok tt
  | l :: links' =>
      match enslave master_of (l_name l) (members_of (l_kind l)) with
      | Ok master_of' => single_master master_of' links'
      | Err e => Err e
      end
  end.

(** 5. No cycles: three-colour depth-first search. *)
Inductive Color := Gray | Black.

Definition deps (l : Link) : list string :=
  match l_kind l with
  | Bond ms _ _ | Bridge ms _ _ _ => ms
  | Vlan p _ | Macvlan p _ => [p]
  | Physical => []
  end.

(** [visit] on each name in turn, threading the colours; [None] is a search out
    of fuel. *)
Fixpoint visit_each (visit : string -> gmap string Color -> option (result (gmap string Color) string))
    (ds : list string) (color : gmap string Color) : option (result (gmap string Color) string) :=
  match ds with
  | [] => Some (Ok color)
  | d :: ds' =>
      match visit d color with
      | Some (Ok color') => visit_each visit ds' color'
      | r => r
      end
  end.

Fixpoint visit_for_cycles (fuel : nat) (by_name : gmap string Link) (node : string)
    (color : gmap string Color) : option (result (gmap string Color) string) :=
  match fuel with
  | 0 => None
  | S k =>
      match color !! node with
      | Some Black => Some (Ok color)
      | Some Gray => Some (Err ("cycle detected through link '" ++ node ++ "'"))
      | None =>
          let color1 := <[node := Gray]> color in
          match (match by_name !! node with
                 | Some link => visit_each (visit_for_cycles k by_name) (deps link) color1
                 | None => Some (Ok color1)
                 end) with
          | Some (Ok color2) => Some (Ok (<[node := Black]> color2))
          | r => r
          end
      end
  end.

(** [links.iter().map(|l| (l.name, l)).collect()]: the last link of a name wins. *)
Definition by_name (links : list Link) : gmap string Link :=
  list_to_map (reverse ((fun l => (l_name l, l)) <$> links)).

(** The search descends through links that are not coloured yet, so one more
    than their number is fuel enough. *)
Definition detect_cycles (links : list Link) : option (result unit string) :=
  match visit_each (visit_for_cycles (S (length links)) (by_name links)) (l_name <$> links) ∅ with
  | Some (Ok _) => Some (Ok tt)
  | Some (Err e) => Some (Err e)
  | None => None
  end.

Definition validate_layered (c : LayeredConfig) : option (result unit string) :=
  let names := l_name <$> lc_links c in
  match duplicate_name [] (lc_links c) with
  | Err e => Some (Err e)
  | Ok _ =>
      match check_each (check_refs names) (lc_links c) with
      | Err e => Some (Err e)
      | Ok _ =>
          match check_each (check_address names) (lc_addresses c) with
          | Err e => Some (Err e)
          | Ok _ =>
              match single_master ∅ (lc_links c) with
              | Err e => Some (Err e)
              | Ok _ => detect_cycles (lc_links c)
              end
          end
      end
  end.
