(* ===== verification/LayeredProps.v ===== *)
(** * What the layered network model guarantees

    The cycle search terminates and is exact, the validator accepts exactly the
    well-formed configurations, and the two converters are inverse up to the
    links that are synthesized. *)
From Stdlib Require Import String Ascii ZArith.
From stdpp Require Import base list gmap strings numbers relations fin_map_dom.
From S2P Require Import Prelude RustStr Layered.

Open Scope string_scope.
Open Scope rust_scope.

(** ** The link graph *)

(** [a] depends on [b]: [b] is a member or the parent of [a]. *)
Definition edge (m : gmap string Link) (a b : string) : Prop :=
  exists l, m !! a = Some l /\ b ∈ deps l.

Definition acyclic (m : gmap string Link) : Prop := forall x, ~ tc (edge m) x x.

Section Search.
Context (m : gmap string Link).
Implicit Types (color : gmap string Color) (node : string).

(** Everything below a finished node is finished: no infinite descent. *)
Definition blacks_acc color : Prop :=
  forall x, color !! x = Some Black -> Acc (flip (edge m)) x.

(** Colours are only added, and the grey nodes stay the same. *)
Definition grows color color' : Prop :=
  (forall x c, color !! x = Some c -> color' !! x = Some c) /\
  (forall x, color' !! x = Some Gray -> color !! x = Some Gray).

Lemma grows_refl color : grows color color.
Proof. split; auto. Qed.

Lemma grows_trans c1 c2 c3 : grows c1 c2 -> grows c2 c3 -> grows c1 c3.
Proof. intros [H1 H2] [H3 H4]. split; auto. Qed.

(** What a search from [node] must satisfy. *)
Definition visit_ok (visit : string -> gmap string Color -> option (result (gmap string Color) string)) : Prop :=
  forall node color color', visit node color = Some (Ok color') ->
    grows color color' /\ color' !! node = Some Black /\ (blacks_acc color -> blacks_acc color').

Lemma visit_each_ok visit : visit_ok visit ->
  forall ds color color', visit_each visit ds color = Some (Ok color') ->
    grows color color' /\ (forall d, d ∈ ds -> color' !! d = Some Black) /\
    (blacks_acc color -> blacks_acc color').
Proof.
  intros Hv ds. induction ds as [|d ds IH]; intros color color' H; simpl in H.
  - simplify_eq. split_and!; [apply grows_refl|by intros d ?%not_elem_of_nil|done].
  - destruct (visit d color) as [[c1|]|] eqn:Hd; [|discriminate..].
    destruct (Hv _ _ _ Hd) as (G1 & B1 & A1). destruct (IH _ _ H) as (G2 & B2 & A2).
    split_and!; [by eapply grows_trans| |auto].
    intros x [->|Hx]%elem_of_cons; [exact (proj1 G2 _ _ B1)|exact (B2 _ Hx)].
Qed.

Lemma visit_for_cycles_ok k : visit_ok (visit_for_cycles k m).
Proof.
  induction k as [|k IH]; intros node color color' H; simpl in H; [done|].
  destruct (color !! node) as [[]|] eqn:Hn; simplify_eq; [split_and!; auto using grows_refl|].
  set (color1 := <[node:=Gray]> color) in *.
  assert (exists color2, color' = <[node:=Black]> color2 /\ grows color1 color2 /\
            (forall l d, m !! node = Some l -> d ∈ deps l -> color2 !! d = Some Black) /\
            (blacks_acc color1 -> blacks_acc color2)) as (color2 & -> & [G1 G2] & HB & HA).
  { destruct (m !! node) as [l|].
    - destruct (visit_each _ _ _) as [[c2|]|] eqn:Hd; simplify_eq.
      destruct (visit_each_ok _ IH _ _ _ Hd) as (? & ? & ?). exists c2. split_and!; [done..| |done].
      intros l' d [= <-]. auto.
    - simplify_eq. exists color1. by split_and!; [|apply grows_refl| |]. }
  split_and!.
  - split.
    + intros x c Hx. rewrite lookup_insert_ne by congruence. apply G1.
      unfold color1. by rewrite lookup_insert_ne by congruence.
    + intros x [[_ ?]|[Hne Hx]]%lookup_insert_Some; [done|].
      apply G2 in Hx. unfold color1 in Hx. by rewrite lookup_insert_ne in Hx.
  - by rewrite lookup_insert_eq.
  - intros Hacc x [[<- _]|[Hne Hx]]%lookup_insert_Some.
    + constructor. intros d (l & Hl & Hd). apply HA; [|by eapply HB].
      intros y [[_ ?]|[_ ?]]%lookup_insert_Some; [done|by apply Hacc].
    + apply HA; [|done]. intros y [[_ ?]|[_ ?]]%lookup_insert_Some; [done|by apply Hacc].
Qed.

(** Every grey node is above [node]: the search stack. *)
Definition grays_above color node : Prop :=
  forall g, color !! g = Some Gray -> tc (edge m) g node.

Lemma visit_each_err visit node :
  visit_ok visit ->
  (forall d color e, edge m node d -> grays_above color d -> visit d color = Some (Err e) ->
     exists x, tc (edge m) x x) ->
  forall ds color e, (forall d, d ∈ ds -> edge m node d) ->
    (forall g, color !! g = Some Gray -> g = node \/ tc (edge m) g node) ->
    visit_each visit ds color = Some (Err e) -> exists x, tc (edge m) x x.
Proof.
  intros Hok Herr ds. induction ds as [|d ds IH]; intros color e Hds Hg H; simpl in H; [done|].
  assert (edge m node d) as Hd by (apply Hds, elem_of_cons; auto).
  destruct (visit d color) as [[c1|e0]|] eqn:Hv; [| |discriminate].
  - destruct (Hok _ _ _ Hv) as ([_ G] & _ & _). apply (IH c1 e); [|auto|done].
    intros d' Hd'. apply Hds, elem_of_cons; auto.
  - apply (Herr d color e0); [done| |done].
    intros g [->|Htc]%Hg; [by apply tc_once|by eapply tc_r].
Qed.

Lemma visit_for_cycles_err k node color e :
  grays_above color node -> visit_for_cycles k m node color = Some (Err e) ->
  exists x, tc (edge m) x x.
Proof.
  revert node color e. induction k as [|k IH]; intros node color e Hg H; simpl in H; [done|].
  destruct (color !! node) as [[]|] eqn:Hn; simplify_eq; [exists node; by apply Hg|].
  destruct (m !! node) as [l|] eqn:Hl; [|done].
  destruct (visit_each _ _ _) as [[c2|e2]|] eqn:Hd; simplify_eq.
  eapply (visit_each_err _ node (visit_for_cycles_ok k)); [| | |exact Hd].
  - intros d c e2 _ Hg2 He. by eapply IH.
  - intros d Hdd. by exists l.
  - intros g [[-> _]|[_ Hx]]%lookup_insert_Some; [by left|right; by apply Hg].
Qed.

(** The links not visited yet. *)
Definition unvisited color : nat := size ((dom m : gset string) ∖ dom color).

Lemma unvisited_grows c1 c2 : grows c1 c2 -> unvisited c2 <= unvisited c1.
Proof.
  intros [G _]. unfold unvisited. apply subseteq_size. intros x [Hx Hn]%elem_of_difference.
  apply elem_of_difference. split; [done|]. contradict Hn.
  apply elem_of_dom in Hn as [c Hc]. apply elem_of_dom. eauto.
Qed.

Lemma visit_each_total visit n :
  visit_ok visit -> (forall d color, unvisited color <= n -> visit d color <> None) ->
  forall ds color, unvisited color <= n -> visit_each visit ds color <> None.
Proof.
  intros Hok Ht ds. induction ds as [|d ds IH]; intros color Hc; simpl; [done|].
  destruct (visit d color) as [[c1|]|] eqn:Hv; [|done|by apply Ht in Hv].
  apply IH. apply Hok in Hv as [G _]. pose proof (unvisited_grows _ _ G). lia.
Qed.

Lemma visit_for_cycles_total k node color :
  unvisited color < k -> visit_for_cycles k m node color <> None.
Proof.
  revert node color. induction k as [|k IH]; intros node color Hk; [lia|]. simpl.
  destruct (color !! node) as [[]|] eqn:Hn; [done..|].
  destruct (m !! node) as [l|] eqn:Hl; [|done].
  destruct (visit_each _ _ _) as [[]|] eqn:Hd; [done..|]. exfalso. revert Hd.
  apply (visit_each_total _ (k - 1) (visit_for_cycles_ok k)).
  - intros d c Hc. apply IH. unfold unvisited in *. destruct k; [|lia].
    simpl in Hk. assert (size ((dom m : gset string) ∖ dom color) = 0) as H0 by lia.
    apply size_empty_inv in H0. assert (node ∈ (dom m : gset string) ∖ dom color) as Hin; [|set_solver].
    apply elem_of_difference. split; [by apply elem_of_dom|by apply not_elem_of_dom].
  - unfold unvisited in *. rewrite dom_insert_L.
    assert ((dom m : gset string) ∖ dom color = {[node]} ∪ (dom m ∖ ({[node]} ∪ dom color))) as Heq.
    { apply leibniz_equiv. intros x. rewrite elem_of_union, !elem_of_difference, elem_of_union, elem_of_singleton.
      destruct (decide (x = node)) as [->|]; [|tauto].
      split; [auto|]. intros _. split; [by apply elem_of_dom|by apply not_elem_of_dom]. }
    rewrite Heq, size_union, size_singleton in Hk by set_solver. lia.
Qed.

End Search.

(** ** Cycle detection is exact *)

Lemma Acc_no_cycle (m : gmap string Link) x : Acc (flip (edge m)) x -> ~ tc (edge m) x x.
Proof.
  induction 1 as [x _ IH]. intros Hc. inversion Hc as [? ? He|? y ? He Hr]; subst.
  - by apply (IH x He).
  - apply (IH y He). by eapply tc_r.
Qed.

Lemma by_name_Some links x l : by_name links !! x = Some l -> l ∈ links /\ l_name l = x.
Proof.
  unfold by_name. intros H%elem_of_list_to_map_2. rewrite elem_of_reverse, list_elem_of_fmap in H.
  destruct H as (l' & [= -> ->] & ?). auto.
Qed.

Lemma size_list_to_map {A} (l : list (string * A)) :
  size (list_to_map l : gmap string A) <= length l.
Proof.
  induction l as [|[k v] l IH]; [done|]. cbn.
  rewrite map_size_insert. case_match; cbn; lia.
Qed.

Lemma by_name_size links : size (by_name links) <= length links.
Proof. unfold by_name. etrans; [apply size_list_to_map|]. by rewrite length_reverse, length_fmap. Qed.

Lemma detect_cycles_total links : detect_cycles links <> None.
Proof.
  unfold detect_cycles. destruct (visit_each _ _ _) as [[]|] eqn:H; [done..|].
  exfalso. revert H. apply (visit_each_total (by_name links) _ (length links)).
  - apply visit_for_cycles_ok.
  - intros d color Hc. apply visit_for_cycles_total. lia.
  - unfold unvisited. rewrite dom_empty_L, difference_empty_L, size_dom. apply by_name_size.
Qed.

Lemma detect_cycles_exact links :
  detect_cycles links = Some (Ok tt) <-> acyclic (by_name links).
Proof.
  unfold detect_cycles. pose proof (detect_cycles_total links) as Ht. unfold detect_cycles in Ht.
  destruct (visit_each _ _ _) as [[color|e]|] eqn:H; [| |done].
  - split; [intros _|done]. apply visit_each_ok with (m := by_name links) in H as (_ & HB & HA);
      [|apply visit_for_cycles_ok].
    intros x Hc. apply (Acc_no_cycle (by_name links) x); [|done].
    apply HA; [by intros y; rewrite lookup_empty|]. apply HB.
    assert (exists y, edge (by_name links) x y) as [y (l & Hl & _)] by (inversion Hc; eauto).
    apply by_name_Some in Hl as [Hin <-]. by apply list_elem_of_fmap_2.
  - split; [done|]. intros Hac. exfalso.
    assert (forall names color e, (forall g, color !! g <> Some Gray) ->
      visit_each (visit_for_cycles (S (length links)) (by_name links)) names color = Some (Err e) -> False) as Hno.
    { clear H Ht e. induction names as [|d ds IH]; intros color e Hg He; cbn [visit_each] in He; [done|].
      destruct (visit_for_cycles _ _ d color) as [[c1|e1]|] eqn:Hv; [| |discriminate].
      - apply (IH c1 e); [|done]. intros g Hc. apply (Hg g).
        by apply visit_for_cycles_ok in Hv as ([_ G] & _ & _); apply G.
      - apply visit_for_cycles_err in Hv as [x Hx]; [by apply (Hac x)|].
        intros g Hc. by apply Hg in Hc. }
    eapply Hno; [|exact H]. intros g. by rewrite lookup_empty.
Qed.

(** ** The validator is exact *)

Record well_formed (c : LayeredConfig) : Prop := {
  wf_names : NoDup (l_name <$> lc_links c);
  wf_refs : forall l d, l ∈ lc_links c -> d ∈ deps l -> d <> l_name l /\ d ∈ l_name <$> lc_links c;
  wf_addresses : forall a, a ∈ lc_addresses c -> a_link a ∈ l_name <$> lc_links c;
  wf_masters : NoDup (flat_map (fun l => members_of (l_kind l)) (lc_links c));
  wf_acyclic : acyclic (by_name (lc_links c))
}.

Lemma check_each_ok {A} (f : A -> result unit string) l :
  check_each f l = Ok tt <-> forall x, x ∈ l -> f x = Ok tt.
Proof.
  induction l as [|x l IH]; simpl.
  - split; [by intros _ y ?%not_elem_of_nil|done].
  - setoid_rewrite elem_of_cons. destruct (f x) as [[]|e] eqn:Hx.
    + rewrite IH. naive_solver.
    + split; [done|]. intros H. specialize (H x). rewrite Hx in H. auto.
Qed.

Lemma duplicate_name_ok links names :
  duplicate_name names links = Ok tt <->
  NoDup (l_name <$> links) /\ forall x, x ∈ l_name <$> links -> x ∉ names.
Proof.
  revert names. induction links as [|l links IH]; intros names; simpl.
  - split; [split; [apply base.NoDup_nil_2|by intros x ?%not_elem_of_nil]|done].
  - setoid_rewrite list.NoDup_cons. setoid_rewrite elem_of_cons.
    case_bool_decide as Hin; [split; [done|]; naive_solver|].
    rewrite IH. setoid_rewrite not_elem_of_cons. split.
    + intros [Hnd Hx]. split_and!; [|done|].
      * intros Hl. by apply Hx in Hl as [].
      * intros x [->|Hl]; [done|by apply Hx].
    + intros [[Hl Hnd] Hx]. split; [done|]. intros x Hxl. split; [|auto]. by intros ->.
Qed.

Lemma check_refs_ok names l :
  check_refs names l = Ok tt <-> forall d, d ∈ deps l -> d <> l_name l /\ d ∈ names.
Proof.
  assert (forall ms, check_each (check_member names l) ms = Ok tt <->
            forall d, d ∈ ms -> d <> l_name l /\ d ∈ names) as Hms.
  { intros ms. rewrite check_each_ok. apply forall_proper. intros d. unfold check_member.
    destruct (d =s l_name l) eqn:Hd; str_eq; [naive_solver|]. case_bool_decide; naive_solver. }
  assert (forall p (e1 e2 : string), (if p =s l_name l then Err e1 else if bool_decide (p ∈ names) then Ok tt else Err e2)
            = Ok tt <-> forall d, d ∈ [p] -> d <> l_name l /\ d ∈ names) as Hp.
  { intros p e1 e2. setoid_rewrite list_elem_of_singleton.
    destruct (p =s l_name l) eqn:Hd; str_eq; [naive_solver|]. case_bool_decide; naive_solver. }
  unfold check_refs, deps. destruct (l_kind l); [|apply Hms..|apply Hp|apply Hp].
  split; [by intros _ d ?%not_elem_of_nil|done].
Qed.

Lemma enslave_ok ms name mo :
  match enslave mo name ms with
  | Ok mo' => NoDup ms /\ (forall x, x ∈ ms -> mo !! x = None) /\
              (forall x, is_Some (mo' !! x) <-> x ∈ ms \/ is_Some (mo !! x))
  | Err _ => ~ (NoDup ms /\ forall x, x ∈ ms -> mo !! x = None)
  end.
Proof.
  revert mo. induction ms as [|m ms IH]; intros mo; simpl.
  - split_and!; [apply base.NoDup_nil_2|by intros x ?%not_elem_of_nil|].
    intros x. rewrite elem_of_nil. tauto.
  - destruct (mo !! m) eqn:Hm; [intros [_ H]; rewrite H in Hm by (apply elem_of_cons; auto); done|].
    specialize (IH (<[m:=name]> mo)). destruct (enslave _ _ _) as [mo'|e].
    + destruct IH as (Hnd & Hx & Hd). setoid_rewrite list.NoDup_cons. split_and!; [|done| |].
      * intros Hin. apply Hx in Hin. by rewrite lookup_insert_eq in Hin.
      * intros x [->|Hin]%elem_of_cons; [done|]. apply Hx in Hin. by apply lookup_insert_None in Hin as [? _].
      * intros x. rewrite Hd, elem_of_cons, lookup_insert_is_Some'. naive_solver.
    + intros [[Hn Hnd]%list.NoDup_cons Hx]. apply IH. split; [done|]. intros x Hin.
      apply lookup_insert_None. split; [apply Hx, elem_of_cons; auto|by intros ->].
Qed.

Lemma single_master_ok links mo :
  single_master mo links = Ok tt <->
  NoDup (flat_map (fun l => members_of (l_kind l)) links) /\
  forall x, x ∈ flat_map (fun l => members_of (l_kind l)) links -> mo !! x = None.
Proof.
  revert mo. induction links as [|l links IH]; intros mo; simpl.
  - split; [split; [apply base.NoDup_nil_2|by intros x ?%not_elem_of_nil]|done].
  - setoid_rewrite list.NoDup_app. setoid_rewrite elem_of_app.
    pose proof (enslave_ok (members_of (l_kind l)) (l_name l) mo) as He.
    destruct (enslave _ _ _) as [mo'|e].
    + destruct He as (Hnd & Hx & Hd). rewrite IH.
      assert (forall x, mo' !! x = None <-> (x ∉ members_of (l_kind l)) /\ mo !! x = None) as Hd'
        by (intros x; rewrite !eq_None_not_Some, Hd; tauto).
      setoid_rewrite Hd'. naive_solver.
    + split; [done|]. intros [(Hnd & _ & _) Hx]. exfalso. apply He. auto.
Qed.

Lemma validate_well_formed (c : LayeredConfig) :
  validate_layered c = Some (Ok tt) <-> well_formed c.
Proof.
  unfold validate_layered.
  assert (duplicate_name [] (lc_links c) = Ok tt <-> NoDup (l_name <$> lc_links c)) as H1.
  { rewrite duplicate_name_ok. split; [tauto|]. intros. split; [done|]. intros x _. apply not_elem_of_nil. }
  pose proof (check_each_ok (check_refs (l_name <$> lc_links c)) (lc_links c)) as H2.
  setoid_rewrite check_refs_ok in H2.
  pose proof (check_each_ok (check_address (l_name <$> lc_links c)) (lc_addresses c)) as H3.
  assert (forall a, check_address (l_name <$> lc_links c) a = Ok tt <-> a_link a ∈ l_name <$> lc_links c) as Ha.
  { intros a. unfold check_address. case_bool_decide; naive_solver. }
  setoid_rewrite Ha in H3.
  assert (single_master ∅ (lc_links c) = Ok tt <->
          NoDup (flat_map (fun l => members_of (l_kind l)) (lc_links c))) as H4.
  { rewrite single_master_ok. split; [tauto|]. intros. split; [done|]. intros x _. apply lookup_empty. }
  pose proof (detect_cycles_exact (lc_links c)) as H5.
  destruct (duplicate_name _ _) as [[]|]; [|split; [done|intros []; naive_solver]].
  destruct (check_each (check_refs _) _) as [[]|]; [|split; [done|intros []; naive_solver]].
  destruct (check_each (check_address _) _) as [[]|]; [|split; [done|intros []; naive_solver]].
  destruct (single_master _ _) as [[]|]; [|split; [done|intros []; naive_solver]].
  rewrite H5. split; [|by intros []]. intros. split; [by apply H1| | |by apply H4|done].
  - intros l d Hl. by apply H2.
  - by apply H3.
Qed.

(** C21: The validator is exact: it accepts a layered configuration if and only
    if link names are distinct, members, parents and addresses name links and
    no link names itself, no link has two masters (or is listed twice), and the
    graph of members and parents has no cycle. *)
Theorem validate_exact (c : LayeredConfig) :
  validate_layered c = Some (Ok tt) <-> well_formed c.
Proof. apply validate_well_formed. Qed.

(** C37: Validation terminates: the recursive search for cycles ends on every
    configuration, cyclic ones and ones with dangling names included. *)
Theorem validate_terminates (c : LayeredConfig) : validate_layered c <> None.
Proof.
  unfold validate_layered. pose proof (detect_cycles_total (lc_links c)). by repeat case_match.
Qed.

(** ** The converters *)

Abbreviation addrs_at g n := (default (ip_default, ip_default) ((g : gmap string (IpConfig * IpConfig)) !! n)).

Definition group_from (out : gmap string (IpConfig * IpConfig)) (addrs : list Address) :=
  fold_left (fun out a =>
    let entry := default (ip_default, ip_default) (out !! a_link a) in
    <[a_link a := set_family (a_family a) (mkIp (a_method a) (a_cidr a) (a_gateway a)) entry]> out) addrs out.

Lemma is_empty_ip_default ip : is_empty_ip ip = true -> ip = ip_default.
Proof. destruct ip as [[] [] []]; done. Qed.

(** The rows of one link restore its settings and touch no other link. *)
Lemma group_push out n v4 v6 x :
  out !! n = None ->
  addrs_at (group_from out (push_addresses n v4 v6)) x = if x =s n then (v4, v6) else addrs_at out x.
Proof.
  intros Hn. unfold group_from, push_addresses, address_of.
  assert (forall ip, mkIp (ip_method ip) (ip_addresses ip) (ip_gateway ip) = ip) as Heta by by intros [].
  destruct (is_empty_ip v4) eqn:H4; destruct (is_empty_ip v6) eqn:H6; cbn; rewrite ?Heta.
  all: try apply is_empty_ip_default in H4 as ->; try apply is_empty_ip_default in H6 as ->.
  all: destruct (x =s n) eqn:Hx; str_eq; subst; rewrite ?lookup_insert_eq, ?lookup_insert_ne, ?Hn by done; done.
Qed.

Lemma group_push_other out n v4 v6 x :
  x <> n -> out !! x = None -> group_from out (push_addresses n v4 v6) !! x = None.
Proof.
  intros Hx Ho. unfold group_from, push_addresses, address_of.
  destruct (is_empty_ip v4), (is_empty_ip v6); cbn; by rewrite ?lookup_insert_ne.
Qed.

(** The settings of every link as [to_layered] lists them. *)
Definition ip_rows (c : NetworkConfig) : list (string * (IpConfig * IpConfig)) :=
  (((fun i => (if_name i, (if_ipv4 i, if_ipv6 i))) <$> nc_interfaces c) ++
   ((fun b => (bo_name b, (bo_ipv4 b, bo_ipv6 b))) <$> nc_bonds c) ++
   ((fun b => (br_name b, (br_ipv4 b, br_ipv6 b))) <$> nc_bridges c) ++
   ((fun v => (vlan_name v, (vl_ipv4 v, vl_ipv6 v))) <$> nc_vlans c) ++
   ((fun m => (mv_name m, (mv_ipv4 m, ip_default))) <$> nc_macvlans c))%list.

Definition push_row (r : string * (IpConfig * IpConfig)) : list Address := push_addresses r.1 r.2.1 r.2.2.

Lemma group_rows rows out :
  NoDup rows.*1 -> (forall n, n ∈ rows.*1 -> out !! n = None) ->
  (forall n v, (n, v) ∈ rows -> addrs_at (group_from out (flat_map push_row rows)) n = v) /\
  (forall n, n ∉ rows.*1 -> addrs_at (group_from out (flat_map push_row rows)) n = addrs_at out n).
Proof.
  revert out. induction rows as [|[n [v4 v6]] rows IH]; intros out Hnd Ho.
  { split; [by intros n v ?%not_elem_of_nil|done]. }
  cbn in Hnd. apply list.NoDup_cons in Hnd as [Hn Hnd].
  cbn [flat_map]. unfold group_from at 1 2. rewrite fold_left_app. fold (group_from out (push_row (n, (v4, v6)))).
  fold (group_from (group_from out (push_row (n, (v4, v6)))) (flat_map push_row rows)).
  assert (out !! n = None) as Hon by (apply Ho; cbn; apply elem_of_cons; auto).
  destruct (IH (group_from out (push_row (n, (v4, v6)))) Hnd) as [I1 I2].
  { intros x Hx. apply group_push_other; [by intros ->|]. apply Ho. cbn. apply elem_of_cons; auto. }
  unfold push_row in *. cbn [fst snd] in *. split.
  - intros x v [[= -> ->]|Hx]%elem_of_cons; [|by apply I1].
    rewrite I2 by done. by rewrite group_push, eqb_refl.
  - intros x [Hx Hr]%not_elem_of_cons. cbn in Hx, Hr. rewrite I2 by done. rewrite group_push by done.
    by apply eqb_neq_spec in Hx as ->.
Qed.

Lemma flat_map_fmap {A B C} (f : B -> list C) (g : A -> B) (l : list A) :
  flat_map f (g <$> l) = flat_map (fun x => f (g x)) l.
Proof. induction l as [|x l IH]; [done|]. cbn. by rewrite <- IH. Qed.

Lemma declared_addresses_rows c : declared_addresses c = flat_map push_row (ip_rows c).
Proof. unfold declared_addresses, ip_rows. rewrite !flat_map_app, !flat_map_fmap. done. Qed.

Lemma ip_rows_names c : (ip_rows c).*1 = l_name <$> declared_links c.
Proof. unfold ip_rows, declared_links. rewrite !fmap_app, <- !list_fmap_compose. done. Qed.

Definition routes_from (out : gmap string (list string)) (routes : list Route) :=
  fold_left (fun out r => <[ro_dev r := (default [] (out !! ro_dev r) ++ [ro_dst r])%list]> out) routes out.

Lemma routes_from_device out n dsts x :
  default [] (routes_from out ((fun dst => mkRoute 254 dst None n None) <$> dsts) !! x) =
  if n =s x then (default [] (out !! x) ++ dsts)%list else default [] (out !! x).
Proof.
  revert out. induction dsts as [|d dsts IH]; intros out; cbn.
  { destruct (n =s x); [by rewrite app_nil_r|done]. }
  unfold routes_from in IH. rewrite IH. destruct (n =s x) eqn:Hn; str_eq; subst.
  - rewrite lookup_insert_eq. cbn. by rewrite <- app_assoc.
  - by rewrite lookup_insert_ne.
Qed.

Lemma routes_from_macvlans ms out x :
  default [] (routes_from out (flat_map macvlan_routes ms) !! x) =
  (default [] (out !! x) ++ flat_map (fun m => if mv_name m =s x then mv_routes m else []) ms)%list.
Proof.
  revert out. induction ms as [|m ms IH]; intros out; cbn; [by rewrite app_nil_r|].
  unfold routes_from. rewrite fold_left_app. fold (routes_from out (macvlan_routes m)).
  fold (routes_from (routes_from out (macvlan_routes m)) (flat_map macvlan_routes ms)).
  rewrite IH. unfold macvlan_routes. rewrite routes_from_device.
  destruct (mv_name m =s x); [by rewrite app_assoc|done].
Qed.

Lemma routes_restored ms m :
  NoDup (mv_name <$> ms) -> m ∈ ms ->
  default [] (routes_by_dev (flat_map macvlan_routes ms) !! mv_name m) = mv_routes m.
Proof.
  intros Hnd Hm. change (routes_by_dev ?r) with (routes_from ∅ r).
  rewrite routes_from_macvlans, lookup_empty. cbn.
  assert (forall l, mv_name m ∉ mv_name <$> l ->
    flat_map (fun m' => if mv_name m' =s mv_name m then mv_routes m' else []) l = []) as Hnil.
  { induction l as [|m' l IH]; [done|]. cbn. intros [H1 H2]%not_elem_of_cons.
    destruct (mv_name m' =s mv_name m) eqn:He; str_eq; [by rewrite He in H1|]. cbn. by apply IH. }
  induction ms as [|m' ms IH]; [by apply not_elem_of_nil in Hm|].
  cbn in Hnd |- *. apply list.NoDup_cons in Hnd as [Hn Hnd]. apply elem_of_cons in Hm as [->|Hm].
  - rewrite eqb_refl, Hnil by done. apply app_nil_r.
  - destruct (mv_name m' =s mv_name m) eqn:He; str_eq; [|by apply IH].
    rewrite He in Hn. destruct Hn. by apply list_elem_of_fmap_2.
Qed.

(** Each block of links restores its list. *)
Section Push.
Context (g : gmap string (IpConfig * IpConfig)) (r : gmap string (list string)).

Ltac push_block :=
  intros l; induction l as [|x l IH]; intros ifs dns bonds vlans bridges mvs Hl; cbn;
  [by rewrite app_nil_r|];
  unfold push_link at 2; cbn; rewrite (Hl x) by (apply elem_of_cons; auto);
  rewrite IH by (intros y Hy; apply Hl, elem_of_cons; auto);
  rewrite <- app_assoc; by destruct x.

Lemma push_interfaces : forall (l : list InterfaceConfig) ifs dns bonds vlans bridges mvs,
  (forall i, i ∈ l -> addrs_at g (if_name i) = (if_ipv4 i, if_ipv6 i)) ->
  fold_left (push_link g r) (iface_link <$> l) (mkNet ifs dns bonds vlans bridges mvs) =
  mkNet (ifs ++ l)%list dns bonds vlans bridges mvs.
Proof. push_block. Qed.

Lemma push_bonds : forall (l : list BondConfig) ifs dns bonds vlans bridges mvs,
  (forall b, b ∈ l -> addrs_at g (bo_name b) = (bo_ipv4 b, bo_ipv6 b)) ->
  fold_left (push_link g r) (bond_link <$> l) (mkNet ifs dns bonds vlans bridges mvs) =
  mkNet ifs dns (bonds ++ l)%list vlans bridges mvs.
Proof. push_block. Qed.

Lemma push_bridges : forall (l : list BridgeConfig) ifs dns bonds vlans bridges mvs,
  (forall b, b ∈ l -> addrs_at g (br_name b) = (br_ipv4 b, br_ipv6 b)) ->
  fold_left (push_link g r) (bridge_link <$> l) (mkNet ifs dns bonds vlans bridges mvs) =
  mkNet ifs dns bonds vlans (bridges ++ l)%list mvs.
Proof. push_block. Qed.

Lemma push_vlans : forall (l : list VlanConfig) ifs dns bonds vlans bridges mvs,
  (forall v, v ∈ l -> addrs_at g (vlan_name v) = (vl_ipv4 v, vl_ipv6 v)) ->
  fold_left (push_link g r) (vlan_link <$> l) (mkNet ifs dns bonds vlans bridges mvs) =
  mkNet ifs dns bonds (vlans ++ l)%list bridges mvs.
Proof. push_block. Qed.

Lemma push_macvlans : forall (l : list MacvlanConfig) ifs dns bonds vlans bridges mvs,
  (forall m, m ∈ l -> addrs_at g (mv_name m) = (mv_ipv4 m, ip_default) /\ default [] (r !! mv_name m) = mv_routes m) ->
  fold_left (push_link g r) (macvlan_link <$> l) (mkNet ifs dns bonds vlans bridges mvs) =
  mkNet ifs dns bonds vlans bridges (mvs ++ l)%list.
Proof.
  intros l; induction l as [|x l IH]; intros ifs dns bonds vlans bridges mvs Hl; cbn;
  [by rewrite app_nil_r|].
  destruct (Hl x) as [Ha Hr]; [apply elem_of_cons; auto|].
  unfold push_link at 2; cbn. rewrite Ha, Hr, IH by (intros y Hy; apply Hl, elem_of_cons; auto).
  rewrite <- app_assoc; by destruct x.
Qed.

(** An interface nothing is known about but its name. *)
Definition plain_interface (n : string) : InterfaceConfig := mkIface n true ip_default ip_default None None [].

Lemma push_plain : forall (l : list string) ifs dns bonds vlans bridges mvs,
  (forall n, n ∈ l -> addrs_at g n = (ip_default, ip_default)) ->
  fold_left (push_link g r) ((fun m => virtual_link m None Physical) <$> l)
    (mkNet ifs dns bonds vlans bridges mvs) =
  mkNet (ifs ++ (plain_interface <$> l))%list dns bonds vlans bridges mvs.
Proof.
  intros l; induction l as [|x l IH]; intros ifs dns bonds vlans bridges mvs Hl; cbn;
  [by rewrite app_nil_r|].
  unfold push_link at 2; cbn; rewrite (Hl x) by (apply elem_of_cons; auto).
  rewrite IH by (intros y Hy; apply Hl, elem_of_cons; auto). by rewrite <- app_assoc.
Qed.

End Push.

Lemma missing_members_spec declared ms seen :
  forall m, m ∈ missing_members declared ms seen <-> m ∈ ms /\ (m ∉ declared) /\ (m ∉ seen).
Proof.
  revert seen. induction ms as [|x ms IH]; intros seen m; cbn.
  - rewrite !elem_of_nil. tauto.
  - assert (m = x \/ m <> x) as Hm by (destruct (decide (m = x)); auto).
    case_bool_decide as H1; [|case_bool_decide as H2]; cbn;
      rewrite ?elem_of_cons, IH, ?elem_of_cons; destruct Hm as [->|Hm]; tauto.
Qed.

(** The members that no link of the configuration declares. *)
Definition undeclared_members (c : NetworkConfig) : list string :=
  missing_members (l_name <$> declared_links c)
    (flat_map (fun l => members_of (l_kind l)) (declared_links c)) [].

(** The settings found for each link of an accepted configuration. *)
Lemma rows_found c n v :
  NoDup (l_name <$> declared_links c) -> (n, v) ∈ ip_rows c ->
  addrs_at (group_addresses (declared_addresses c)) n = v.
Proof.
  intros Hnd Hin. rewrite declared_addresses_rows. change (group_addresses ?a) with (group_from ∅ a).
  apply (group_rows (ip_rows c) ∅); [by rewrite ip_rows_names| |done].
  intros x _. apply lookup_empty.
Qed.

Lemma rows_absent c n :
  NoDup (l_name <$> declared_links c) -> n ∉ l_name <$> declared_links c ->
  addrs_at (group_addresses (declared_addresses c)) n = (ip_default, ip_default).
Proof.
  intros Hnd Hin. rewrite declared_addresses_rows. change (group_addresses ?a) with (group_from ∅ a).
  destruct (group_rows (ip_rows c) ∅) as [_ G]; [by rewrite ip_rows_names|intros x _; apply lookup_empty|].
  rewrite G by (by rewrite ip_rows_names). by rewrite lookup_empty.
Qed.

Ltac row_found H := intros x Hx; apply rows_found; [exact H|];
  unfold ip_rows; rewrite !elem_of_app, !list_elem_of_fmap; eauto 10.

Lemma layered_back c :
  NoDup (l_name <$> declared_links c) ->
  from_layered (to_layered c) =
    mkNet (nc_interfaces c ++ (plain_interface <$> undeclared_members c))%list (nc_dns c) (nc_bonds c)
      (nc_vlans c) (nc_bridges c) (nc_macvlans c).
Proof.
  intros Hnd. unfold from_layered, to_layered. cbn [lc_addresses lc_routes lc_links lc_dns].
  set (g := group_addresses _). set (r := routes_by_dev _).
  unfold synthesized. change (missing_members _ _ _) with (undeclared_members c).
  unfold declared_links at 1. rewrite !fold_left_app.
  rewrite (push_interfaces g r) by row_found Hnd.
  rewrite (push_bonds g r) by row_found Hnd.
  rewrite (push_bridges g r) by row_found Hnd.
  rewrite (push_vlans g r) by row_found Hnd.
  rewrite (push_macvlans g r).
  2:{ intros m Hm. split; [revert m Hm; row_found Hnd|]. apply routes_restored; [|done].
      unfold declared_links in Hnd. rewrite !fmap_app in Hnd.
      do 4 apply list.NoDup_app in Hnd as (_ & _ & Hnd). by rewrite <- list_fmap_compose in Hnd. }
  rewrite (push_plain g r); [done|].
  intros n Hn. apply rows_absent; [done|]. by apply missing_members_spec in Hn as (_ & Hn & _).
Qed.

(** C38: Converting to the layered model and back loses nothing. For a
    configuration whose link names are distinct, the result is the
    configuration itself with one addition: each bond or bridge member that was
    not declared comes back as a plain interface. With all members declared
    the round trip is the identity. *)
Theorem layered_round_trip (c : NetworkConfig)
    (Hnames : NoDup (l_name <$> declared_links c)) :
  from_layered (to_layered c) =
    mkNet (nc_interfaces c ++ (plain_interface <$> undeclared_members c))%list (nc_dns c) (nc_bonds c)
      (nc_vlans c) (nc_bridges c) (nc_macvlans c) /\
  ((forall b m, b ∈ nc_bonds c -> m ∈ bo_members b -> m ∈ l_name <$> declared_links c) ->
   (forall b m, b ∈ nc_bridges c -> m ∈ br_members b -> m ∈ l_name <$> declared_links c) ->
   from_layered (to_layered c) = c).
Proof.
  pose proof (layered_back c Hnames) as Hrt.
  split; [done|]. intros Hbo Hbr. rewrite Hrt.
  assert (undeclared_members c = []) as ->; [|rewrite app_nil_r; by destruct c].
  destruct (undeclared_members c) as [|m ms] eqn:Hm; [done|]. exfalso.
  assert (m ∈ undeclared_members c) as Hin by (rewrite Hm; apply elem_of_cons; auto).
  apply missing_members_spec in Hin as (Hin & Hnot & _). apply Hnot.
  apply list_elem_of_In, in_flat_map in Hin as (l & Hl & Hml).
  apply list_elem_of_In in Hl, Hml. unfold declared_links in Hl.
  rewrite !elem_of_app, !list_elem_of_fmap in Hl.
  destruct Hl as [(x & -> & _)|[(x & -> & Hx)|[(x & -> & Hx)|[(x & -> & _)|(x & -> & _)]]]]; cbn in Hml;
    solve [by apply not_elem_of_nil in Hml | eauto].
Qed.
