(* ===== verification/Nm.v ===== *)
(** * NetworkManager profiles: nasty-system/src/network/nm.rs

    The connection profiles derived from a layered configuration, the filter
    that withholds profiles of absent devices (network.rs), and their rendering
    as keyfiles. *)
From Stdlib Require Import String Ascii ZArith.
From stdpp Require Import base list gmap strings numbers.
From S2P Require Import Prelude RustStr Layered LayeredProps.

Open Scope string_scope.
Open Scope rust_scope.

Inductive NmConnectionType := NmEthernet | NmInfiniband | NmBond | NmBridge | NmVlan | NmMacvlan.

#[export] Instance NmConnectionType_eq_dec : EqDecision NmConnectionType.
Proof. solve_decision. Defined.

(** [NmConnectionType::keyfile_str]. *)
Definition type_str (t : NmConnectionType) : string :=
  match t with
  | NmEthernet => "802-3-ethernet"
  | NmInfiniband => "infiniband"
  | NmBond => "bond"
  | NmBridge => "bridge"
  | NmVlan => "vlan"
  | NmMacvlan => "macvlan"
  end.

Inductive NmIpMethod := NmAuto | NmManual | NmLinkLocal | NmDisabled | NmIgnore.

(** [NmIpMethod::keyfile_str]. *)
Definition method_str (m : NmIpMethod) : string :=
  match m with
  | NmAuto => "auto"
  | NmManual => "manual"
  | NmLinkLocal => "link-local"
  | NmDisabled => "disabled"
  | NmIgnore => "ignore"
  end.

Record NmIpSettings := mkNmIp {
  ns_method : NmIpMethod;
  ns_addresses : list string;
  ns_gateway : option string;
  ns_dns : list string;
  ns_routes : list string
}.

(** [NmIpSettings::default()]. *)
Definition nm_ip_default : NmIpSettings := mkNmIp NmDisabled [] None [] [].

Inductive NmTypeSpecific :=
| TsNone
| TsBond (mode : string)
| TsBridge (stp : bool) (forward_delay : option Z)
| TsVlan (parent : string) (id : Z)
| TsMacvlan (parent mode : string).

Record NmConnection := mkNm {
  nm_id : string;
  nm_uuid : string;
  nm_conn_type : NmConnectionType;
  nm_interface_name : string;
  nm_controller : option string;
  nm_port_type : option string;
  nm_mtu : option Z;
  nm_sriov_num_vfs : option Z;
  nm_vfs : list VfConfig;
  nm_mac : option string;
  nm_autoconnect : bool;
  nm_ipv4 : NmIpSettings;
  nm_ipv6 : NmIpSettings;
  nm_type_specific : NmTypeSpecific
}.

Record MacContext := mkMacContext {
  live_macs : gmap string string;
  mgmt_iface : option string;
  infiniband_ifaces : gset string
}.

(** [MacContext::default()]. *)
Definition mac_context_default : MacContext := mkMacContext ∅ None ∅.

(** ** Converter *)

Definition address_method_to_nm (m : IpMethod) (f : Family) : NmIpMethod :=
  match m with
  | Dhcp => NmAuto
  | Static => NmManual
  | Slaac => match f with V4 => NmAuto | V6 => NmAuto end
  | Disabled => NmDisabled
  | Inherit => NmAuto
  end.

Definition address_to_nm_settings (a : Address) : NmIpSettings :=
  mkNmIp (address_method_to_nm (a_method a) (a_family a)) (a_cidr a) (a_gateway a) [] [].

Definition nm_set_family (f : Family) (s : NmIpSettings) (p : NmIpSettings * NmIpSettings) :=
  match f with V4 => (s, p.2) | V6 => (p.1, s) end.

Definition nm_addrs_by_link (addrs : list Address) : gmap string (NmIpSettings * NmIpSettings) :=
  fold_left (fun out a =>
    <[a_link a := nm_set_family (a_family a) (address_to_nm_settings a)
                    (default (nm_ip_default, nm_ip_default) (out !! a_link a))]> out) addrs ∅.

(** Link name to its master and the kind of the master. *)
Definition port_type_of (k : LinkKind) : option string :=
  match k with
  | Bond _ _ _ => Some "bond"
  | Bridge _ _ _ _ => Some "bridge"
  | _ => None
  end.

Definition add_members (out : gmap string (string * string)) (l : Link) : gmap string (string * string) :=
  match port_type_of (l_kind l) with
  | Some pt => fold_left (fun out m => <[m := (l_name l, pt)]> out) (members_of (l_kind l)) out
  | None => out
  end.

Definition nm_master_of (links : list Link) : gmap string (string * string) :=
  fold_left add_members links ∅.

Definition nm_routes_by_dev (routes : list Route) : gmap string (list string * list string) :=
  fold_left (fun out r =>
    let '(v4, v6) := default ([], []) (out !! ro_dev r) in
    <[ro_dev r := if contains_char ":" (ro_dst r) then (v4, (v6 ++ [ro_dst r])%list)
                  else ((v4 ++ [ro_dst r])%list, v6)]> out) routes ∅.

Definition split_dns_by_family (dns : list string) : list string * list string :=
  (List.filter (fun s => negb (contains_char ":" s)) dns, List.filter (contains_char ":") dns).

Definition inherits_member_mac (k : LinkKind) : bool :=
  match k with
  | Bond _ _ inherit => inherit
  | Bridge _ _ _ inherit => inherit
  | _ => false
  end.

Definition pick_primary_member (k : LinkKind) (ctx : MacContext) : option string :=
  match port_type_of k with
  | None => None
  | Some _ =>
      match mgmt_iface ctx with
      | Some mgmt => if existsb (fun m => m =s mgmt) (members_of k) then Some mgmt else head (members_of k)
      | None => head (members_of k)
      end
  end.

(** [Uuid::new_v5] of the package [uuid], in the engine's name space. *)
Class UuidV5 := uuid_v5 : string -> string.

Section Profiles.
Context `{UuidV5}.

Definition deterministic_uuid_for (name : string) : string := uuid_v5 name.

Definition profile_for_link (l : Link) (addrs : gmap string (NmIpSettings * NmIpSettings))
    (master_of : gmap string (string * string)) (ctx : MacContext) : NmConnection :=
  let master := master_of !! l_name l in
  let '(ipv4, ipv6) :=
    match master with
    | Some _ => (nm_ip_default, nm_ip_default)
    | None => default (nm_ip_default, nm_ip_default) (addrs !! l_name l)
    end in
  let '(conn_type, type_specific) :=
    match l_kind l with
    | Physical => (if bool_decide (l_name l ∈ infiniband_ifaces ctx) then NmInfiniband else NmEthernet, TsNone)
    | Bond _ mode _ => (NmBond, TsBond (to_kernel mode))
    | Bridge _ stp fd _ => (NmBridge, TsBridge stp fd)
    | Vlan p i => (NmVlan, TsVlan p i)
    | Macvlan p mode => (NmMacvlan, TsMacvlan p mode)
    end in
  mkNm ("nasty-" ++ l_name l) (deterministic_uuid_for (l_name l)) conn_type (l_name l)
    (fst <$> master) (snd <$> master) (l_mtu l) (l_sriov_num_vfs l) (l_vfs l) (l_mac l) (l_enabled l)
    ipv4 ipv6 type_specific.

Definition set_dns (dns : list string) (s : NmIpSettings) : NmIpSettings :=
  mkNmIp (ns_method s) (ns_addresses s) (ns_gateway s) dns (ns_routes s).
Definition set_routes (routes : list string) (s : NmIpSettings) : NmIpSettings :=
  mkNmIp (ns_method s) (ns_addresses s) (ns_gateway s) (ns_dns s) routes.
Definition set_ips (v4 v6 : NmIpSettings) (c : NmConnection) : NmConnection :=
  mkNm (nm_id c) (nm_uuid c) (nm_conn_type c) (nm_interface_name c) (nm_controller c) (nm_port_type c)
    (nm_mtu c) (nm_sriov_num_vfs c) (nm_vfs c) (nm_mac c) (nm_autoconnect c) v4 v6 (nm_type_specific c).
Definition set_mac (mac : string) (c : NmConnection) : NmConnection :=
  mkNm (nm_id c) (nm_uuid c) (nm_conn_type c) (nm_interface_name c) (nm_controller c) (nm_port_type c)
    (nm_mtu c) (nm_sriov_num_vfs c) (nm_vfs c) (Some mac) (nm_autoconnect c) (nm_ipv4 c) (nm_ipv6 c)
    (nm_type_specific c).

(** The closure of [to_nm_profiles_with_macs]: one link's profile. *)
Definition finish_profile (dns_v4 dns_v6 : list string) (routes : gmap string (list string * list string))
    (ctx : MacContext) (l : Link) (conn : NmConnection) : NmConnection :=
  let conn := match nm_controller conn with
              | None => set_ips (set_dns dns_v4 (nm_ipv4 conn)) (set_dns dns_v6 (nm_ipv6 conn)) conn
              | Some _ => conn
              end in
  let conn := match routes !! l_name l with
              | Some (v4, v6) => set_ips (set_routes v4 (nm_ipv4 conn)) (set_routes v6 (nm_ipv6 conn)) conn
              | None => conn
              end in
  if inherits_member_mac (l_kind l) then
    match pick_primary_member (l_kind l) ctx ≫= (fun m => live_macs ctx !! m) with
    | Some mac => set_mac mac conn
    | None => conn
    end
  else conn.

Definition to_nm_profiles_with_macs (c : LayeredConfig) (ctx : MacContext) : list NmConnection :=
  let addrs := nm_addrs_by_link (lc_addresses c) in
  let master_of := nm_master_of (lc_links c) in
  let routes := nm_routes_by_dev (lc_routes c) in
  let '(dns_v4, dns_v6) := split_dns_by_family (lc_dns c) in
  (fun l => finish_profile dns_v4 dns_v6 routes ctx l (profile_for_link l addrs master_of ctx)) <$> lc_links c.

Definition to_nm_profiles (c : LayeredConfig) : list NmConnection :=
  to_nm_profiles_with_macs c mac_context_default.

End Profiles.

(** [retain_live_physical_profiles] of network.rs. *)
Definition retain_live_physical_profiles (profiles : list NmConnection) (live_names : gset string)
    : list NmConnection :=
  List.filter (fun p =>
    negb (match nm_conn_type p with NmEthernet | NmInfiniband => true | _ => false end)
    || bool_decide (nm_interface_name p ∈ live_names)) profiles.

(** ** Keyfiles *)

Definition nl : string := String (ascii_of_nat 10) EmptyString.
Definition kv (key value : string) : string := key ++ "=" ++ value ++ nl.
Definition kv_opt (key : string) (value : option string) : string :=
  match value with Some v => kv key v | None => "" end.
Definition bool_str (b : bool) : string := if b then "true" else "false".

Definition vf_attr_string (vf : VfConfig) : string :=
  String.concat " "
    (option_list (String.append "mac=" <$> vf_mac vf) ++
     option_list ((fun b => String.append "spoof-check=" (bool_str b)) <$> vf_spoof_check vf) ++
     option_list ((fun b => String.append "trust=" (bool_str b)) <$> vf_trust vf) ++
     option_list ((fun v => String.append "vlans=" (fmt_Z v)) <$> vf_vlan vf))%list.

Definition macvlan_mode_num (mode : string) : Z :=
  if mode =s "vepa" then 1
  else if mode =s "bridge" then 2
  else if mode =s "private" then 3
  else if mode =s "passthru" then 4
  else if mode =s "source" then 5
  else 2.

(** [for (i, x) in l.iter().enumerate()], numbered from [n]. *)
Fixpoint numbered (key : string) (n : nat) (l : list string) : string :=
  match l with
  | [] => ""
  | x :: l' => kv (key ++ fmt_nat n) x ++ numbered key (S n) l'
  end.

Definition serialize_ip_section (ip : NmIpSettings) : string :=
  kv "method" (method_str (ns_method ip)) ++
  match ns_addresses ip, ns_gateway ip with
  | a :: rest, Some gw => kv "address1" (a ++ "," ++ gw) ++ numbered "address" 2 rest
  | addrs, _ => numbered "address" 1 addrs
  end ++
  match ns_gateway ip, ns_addresses ip with
  | Some _, [] => "# warning: gateway set but no addresses; NM will ignore" ++ nl
  | _, _ => ""
  end ++
  match ns_dns ip with
  | [] => ""
  | dns => "dns=" ++ String.concat "" ((fun d => d ++ ";") <$> dns) ++ nl
  end ++
  numbered "route" 1 (ns_routes ip).

Definition serialize_keyfile (p : NmConnection) : string :=
  let is_bridge := bool_decide (nm_conn_type p = NmBridge) in
  let eth_cloned_mac := if is_bridge then None else nm_mac p in
  let needs_eth_section :=
    match nm_conn_type p with NmEthernet | NmBond | NmVlan | NmBridge => true | _ => false end in
  "# Generated by NASty for inspection. NM gets the" ++ nl ++
  "# active profile via DBus, not from this file." ++ nl ++ nl ++
  "[connection]" ++ nl ++
  kv "id" (nm_id p) ++ kv "uuid" (nm_uuid p) ++ kv "type" (type_str (nm_conn_type p)) ++
  kv "interface-name" (nm_interface_name p) ++ kv "autoconnect" (bool_str (nm_autoconnect p)) ++
  kv_opt "controller" (nm_controller p) ++ kv_opt "port-type" (nm_port_type p) ++ nl ++
  match nm_type_specific p with
  | TsNone => ""
  | TsBond mode => "[bond]" ++ nl ++ kv "mode" mode ++ nl
  | TsBridge stp fd =>
      "[bridge]" ++ nl ++ kv "stp" (bool_str stp) ++ kv_opt "forward-delay" (fmt_Z <$> fd) ++
      "multicast-snooping=false" ++ nl ++ kv_opt "mac-address" (nm_mac p) ++ nl
  | TsVlan par i => "[vlan]" ++ nl ++ kv "parent" par ++ kv "id" (fmt_Z i) ++ nl
  | TsMacvlan par mode =>
      "[macvlan]" ++ nl ++ kv "parent" par ++ kv "mode" (fmt_Z (macvlan_mode_num mode)) ++ nl
  end ++
  (if bool_decide (nm_conn_type p = NmInfiniband)
   then "[infiniband]" ++ nl ++ "transport-mode=datagram" ++ nl ++ kv_opt "mtu" (fmt_Z <$> nm_mtu p) ++ nl
   else "") ++
  (if needs_eth_section &&
      (is_some (nm_mtu p) || is_some eth_cloned_mac || bool_decide (nm_conn_type p = NmEthernet))
   then "[ethernet]" ++ nl ++ kv_opt "mtu" (fmt_Z <$> nm_mtu p) ++
        kv_opt "cloned-mac-address" eth_cloned_mac ++ nl
   else "") ++
  match nm_sriov_num_vfs p with
  | Some n =>
      "[sriov]" ++ nl ++ kv "total-vfs" (fmt_Z n) ++
      String.concat "" ((fun vf => kv ("vf." ++ fmt_Z (vf_index vf)) (vf_attr_string vf)) <$> nm_vfs p) ++ nl
  | None => ""
  end ++
  "[ipv4]" ++ nl ++ serialize_ip_section (nm_ipv4 p) ++ nl ++
  "[ipv6]" ++ nl ++ serialize_ip_section (nm_ipv6 p).

(** ** Properties *)

Lemma add_members_lookup out l x :
  add_members out l !! x =
  match port_type_of (l_kind l) with
  | Some pt => if bool_decide (x ∈ members_of (l_kind l)) then Some (l_name l, pt) else out !! x
  | None => out !! x
  end.
Proof.
  unfold add_members. destruct (port_type_of (l_kind l)) as [pt|]; [|done].
  generalize (members_of (l_kind l)). intros ms. revert out.
  induction ms as [|m ms IH]; intros out; cbn [fold_left]; [done|]. rewrite IH.
  destruct (decide (x = m)) as [->|Hne].
  - rewrite lookup_insert_eq, (bool_decide_eq_true_2 (m ∈ m :: ms)) by (apply elem_of_cons; auto).
    by case_bool_decide.
  - rewrite lookup_insert_ne by done.
    repeat case_bool_decide; try done; rewrite elem_of_cons in *; tauto.
Qed.

Lemma port_type_members k m : m ∈ members_of k -> is_Some (port_type_of k).
Proof. destruct k; cbn; intros H; try by apply not_elem_of_nil in H. all: eauto. Qed.

Lemma nm_master_of_spec links out x :
  fold_left add_members links out !! x = out !! x /\
    (forall l, l ∈ links -> x ∉ members_of (l_kind l)) \/
  exists l pt, l ∈ links /\ x ∈ members_of (l_kind l) /\ port_type_of (l_kind l) = Some pt /\
    fold_left add_members links out !! x = Some (l_name l, pt).
Proof.
  revert out. induction links as [|l links IH]; intros out; cbn [fold_left].
  { left. split; [done|]. by intros l ?%not_elem_of_nil. }
  destruct (IH (add_members out l)) as [[E Hno]|(l' & pt & Hl & Hx & Hp & E)].
  - rewrite E, add_members_lookup. destruct (decide (x ∈ members_of (l_kind l))) as [Hin|Hin].
    + right. destruct (port_type_members _ _ Hin) as [pt Hpt]. exists l, pt.
      rewrite Hpt, bool_decide_eq_true_2 by done. split_and!; try done. apply elem_of_cons; auto.
    + left. split; [|intros l' [->|?]%elem_of_cons; auto].
      destruct (port_type_of _); [by rewrite bool_decide_eq_false_2|done].
  - right. exists l', pt. split_and!; try done. apply elem_of_cons; auto.
Qed.

#[export] Instance Family_eq_dec : EqDecision Family.
Proof. solve_decision. Defined.

(** The settings of a link in one family: those of the last address declared for it. *)
Definition settings_of (f : Family) (x : string) (addrs : list Address) : NmIpSettings :=
  default nm_ip_default
    (address_to_nm_settings <$> list.last (filter (fun a => a_link a = x /\ a_family a = f) addrs)).

Lemma settings_of_snoc f x addrs a :
  settings_of f x (addrs ++ [a])%list =
  if bool_decide (a_link a = x /\ a_family a = f) then address_to_nm_settings a else settings_of f x addrs.
Proof.
  unfold settings_of. rewrite list.filter_app, list.filter_cons, list.filter_nil. case_bool_decide as E.
  - by rewrite decide_True, last_snoc.
  - by rewrite decide_False, app_nil_r.
Qed.

Lemma nm_addrs_by_link_spec addrs x :
  default (nm_ip_default, nm_ip_default) (nm_addrs_by_link addrs !! x) =
  (settings_of V4 x addrs, settings_of V6 x addrs).
Proof.
  unfold nm_addrs_by_link. induction addrs as [|a addrs IH] using rev_ind; [done|].
  rewrite fold_left_app, !settings_of_snoc. cbn [fold_left].
  destruct (decide (a_link a = x)) as [<-|Hne].
  - rewrite lookup_insert_eq, IH. destruct (a_family a) eqn:Ef; cbn; repeat case_bool_decide; naive_solver.
  - rewrite lookup_insert_ne, IH by done. repeat case_bool_decide; naive_solver.
Qed.

Lemma flat_map_owner {A B} (f : A -> list B) l x a b :
  NoDup (flat_map f l) -> a ∈ l -> b ∈ l -> x ∈ f a -> x ∈ f b -> a = b.
Proof.
  induction l as [|c l IH]; cbn [flat_map]; intros Hn Ha Hb Hxa Hxb; [by apply not_elem_of_nil in Ha|].
  apply list.NoDup_app in Hn as (_ & Hd & Hn).
  assert (forall d, d ∈ l -> x ∈ f d -> x ∈ flat_map f l) as Hin.
  { intros d Hd' Hx. apply list_elem_of_In, in_flat_map. exists d. by rewrite <- !list_elem_of_In. }
  apply elem_of_cons in Ha as [->|Ha]; apply elem_of_cons in Hb as [->|Hb]; eauto; exfalso; eapply Hd; eauto.
Qed.

Section NmTheorems.
Context `{UuidV5}.

Lemma finish_profile_frame d4 d6 routes ctx l c :
  let p := finish_profile d4 d6 routes ctx l c in
  nm_id p = nm_id c /\ nm_interface_name p = nm_interface_name c /\ nm_controller p = nm_controller c /\
  nm_port_type p = nm_port_type c /\ nm_conn_type p = nm_conn_type c /\
  ns_method (nm_ipv4 p) = ns_method (nm_ipv4 c) /\ ns_method (nm_ipv6 p) = ns_method (nm_ipv6 c) /\
  ns_addresses (nm_ipv4 p) = ns_addresses (nm_ipv4 c) /\ ns_addresses (nm_ipv6 p) = ns_addresses (nm_ipv6 c).
Proof. unfold finish_profile. cbn zeta. repeat case_match; cbn; auto 10. Qed.

(** The addressing of a profile, as method and addresses of its two families. *)
Definition addressing (s4 s6 : NmIpSettings) : NmIpMethod * list string * (NmIpMethod * list string) :=
  ((ns_method s4, ns_addresses s4), (ns_method s6, ns_addresses s6)).

(** Of a layered configuration that the validator accepts, the profile generated for a link that some
    bond or bridge lists as a member names that bond or bridge, and no other can list it, as its controller
    with the matching port type, and carries no address in either family; the profile of every other
    link has no controller and exactly the addressing declared for the link. *)
Theorem profiles_follow_topology c ctx p :
  validate_layered c = Some (Ok tt) -> p ∈ to_nm_profiles_with_macs c ctx ->
  exists l, l ∈ lc_links c /\ nm_interface_name p = l_name l /\ nm_id p = "nasty-" ++ l_name l /\
  match nm_controller p with
  | Some m =>
      (exists b, b ∈ lc_links c /\ l_name b = m /\ l_name l ∈ members_of (l_kind b) /\
         nm_port_type p = port_type_of (l_kind b) /\
         forall b', b' ∈ lc_links c -> l_name l ∈ members_of (l_kind b') -> b' = b) /\
      addressing (nm_ipv4 p) (nm_ipv6 p) = (NmDisabled, [], (NmDisabled, []))
  | None =>
      (forall b, b ∈ lc_links c -> l_name l ∉ members_of (l_kind b)) /\ nm_port_type p = None /\
      addressing (nm_ipv4 p) (nm_ipv6 p) =
      addressing (settings_of V4 (l_name l) (lc_addresses c)) (settings_of V6 (l_name l) (lc_addresses c))
  end.
Proof.
  intros Hv Hp. apply validate_well_formed, wf_masters in Hv.
  unfold to_nm_profiles_with_macs in Hp. destruct (split_dns_by_family _) as [d4 d6].
  apply list_elem_of_fmap in Hp as (l & -> & Hl). exists l.
  destruct (finish_profile_frame d4 d6 (nm_routes_by_dev (lc_routes c)) ctx l
    (profile_for_link l (nm_addrs_by_link (lc_addresses c)) (nm_master_of (lc_links c)) ctx))
    as (E1 & E2 & E3 & E4 & _ & M4 & M6 & A4 & A6).
  unfold addressing. rewrite E1, E2, E3, E4, M4, M6, A4, A6. clear E1 E2 E3 E4 M4 M6 A4 A6.
  pose proof (nm_addrs_by_link_spec (lc_addresses c) (l_name l)) as Hs.
  unfold profile_for_link, nm_master_of.
  destruct (nm_master_of_spec (lc_links c) ∅ (l_name l)) as [[E Hno]|(b & pt & Hb & Hm & Hpt & E)];
    rewrite E.
  - rewrite lookup_empty, Hs. by destruct (l_kind l).
  - destruct (l_kind l) eqn:Ek; cbn; (split_and!; [done..| |done]);
      exists b; split_and!; try done; intros b' Hb' Hm'; by eapply (flat_map_owner _ _ (l_name l)).
Qed.

End NmTheorems.
