(* ===== verification/NetworkCheck.v ===== *)
(** * Checks and decisions of nasty-system/src/network.rs

    The checks an update passes (addresses, InfiniBand references, SR-IOV
    counts), the entries it supersedes, the addresses a bridge inherits, and the
    classification of changes that could cut the caller off. Live interfaces
    and addresses are values read from the kernel by the caller. *)
From Stdlib Require Import String Ascii ZArith.
From stdpp Require Import base list gmap strings numbers.
From S2P Require Import Prelude RustStr Layered.

Open Scope string_scope.
Open Scope rust_scope.

Record LiveInterface := mkLive {
  li_name : string;
  li_mac : string;
  li_up : bool;
  li_speed_mbps : option Z;
  li_carrier : bool;
  li_ipv4_addresses : list string;
  li_ipv6_addresses : list string;
  li_mtu : Z;
  li_kind : string;
  li_sriov_total_vfs : option Z;
  li_sriov_num_vfs : option Z;
  li_vf_of : option string;
  li_vf_index : option Z
}.

(** [iter().map(|x| (key(x), value(x))).collect()] into a [HashMap]: of equal
    keys the last wins. *)
Definition collect_map {A B} (key : A -> string) (value : A -> B) (l : list A) : gmap string B :=
  fold_left (fun m x => <[key x := value x]> m) l ∅.

(** [a?; b]. *)
Definition and_then (a b : result unit string) : result unit string :=
  match a with Ok _ => b | Err e => Err e end.
Notation "a '&?' b" := (and_then a b) (at level 85, right associativity) : rust_scope.

Definition err_if (b : bool) (msg : string) : result unit string := if b then Err msg else Ok tt.

Definition validate_ip_config (ip : IpConfig) (label : string) : result unit string :=
  err_if (bool_decide (ip_method ip = Static) && bool_decide (ip_addresses ip = []))
    (label ++ " static mode requires at least one address").

(** ** InfiniBand *)

Section Infiniband.
Context (live_kinds : gmap string string).

Definition is_ib (name : string) : bool :=
  match live_kinds !! name with Some k => k =s "infiniband" | None => false end.

Definition bond_ib (b : BondConfig) : result unit string :=
  match List.find is_ib (bo_members b) with
  | Some m => Err ("'" ++ m ++ "' is an InfiniBand (IPoIB) interface — it cannot be a member of bond '"
                   ++ bo_name b ++ "' (bonds are Ethernet-only; InfiniBand bonding is not yet supported, see #602)")
  | None => Ok tt
  end.

Definition bridge_ib (b : BridgeConfig) : result unit string :=
  match List.find is_ib (br_members b) with
  | Some m => Err ("'" ++ m ++ "' is an InfiniBand (IPoIB) interface — it cannot be enslaved to bridge '"
                   ++ br_name b ++ "' (bridges are Ethernet-only)")
  | None => Ok tt
  end.

Definition reject_infiniband_refs (cfg : NetworkConfig) : result unit string :=
  check_each bond_ib (nc_bonds cfg) &?
  check_each bridge_ib (nc_bridges cfg) &?
  check_each (fun v => err_if (is_ib (vl_parent v))
    ("'" ++ vl_parent v ++ "' is an InfiniBand (IPoIB) interface — VLANs on InfiniBand are not supported (IB partitions use P_Keys, not 802.1Q; see #602)"))
    (nc_vlans cfg) &?
  check_each (fun m => err_if (is_ib (mv_parent m))
    ("'" ++ mv_parent m ++ "' is an InfiniBand (IPoIB) interface — macvlan requires an Ethernet parent"))
    (nc_macvlans cfg).

End Infiniband.

Definition infiniband_names (live : list LiveInterface) : gset string :=
  list_to_set (li_name <$> List.filter (fun i => li_kind i =s "infiniband") live).

(** The drop-in that keeps NetworkManager off the ports not configured here. *)
Definition by_name_entries (live_ib : list string) (entries : list string) : list string :=
  fold_left (fun es name =>
    let by_n := "interface-name:" ++ name in
    if negb (bool_decide (by_n ∈ es)) && negb (starts_with "ib" name) then (es ++ [by_n])%list else es)
    live_ib entries.

Definition line_feed : string := String (ascii_of_nat 10) EmptyString.

Definition render_ib_unmanaged_conf (live_ib : list string) (configured : gset string) : option string :=
  match live_ib with
  | [] => None
  | _ =>
      let entries :=
        (by_name_entries live_ib ["interface-name:ib*"; "interface-name:ibp*"] ++
         (String.append "except:interface-name:" <$>
            List.filter (fun n => bool_decide (n ∈ configured)) live_ib))%list in
      Some ("# Generated by nasty-engine. InfiniBand ports are operator-managed" ++ line_feed ++
            "# (systemd-networkd, manual) unless configured through NASty's" ++ line_feed ++
            "# network settings — the except: entries below. Re-rendered on" ++ line_feed ++
            "# every network apply; edits here are overwritten." ++ line_feed ++
            "[keyfile]" ++ line_feed ++
            "unmanaged-devices=" ++ String.concat ";" entries ++ line_feed)
  end.

(** ** SR-IOV *)

Definition is_hex (c : ascii) : bool :=
  let n := nat_of_ascii c in
  (48 <=? n)%nat && (n <=? 57)%nat || (65 <=? n)%nat && (n <=? 70)%nat || (97 <=? n)%nat && (n <=? 102)%nat.

Definition is_valid_mac (mac : string) : bool :=
  let parts := split ":" mac in
  (length parts =? 6)%nat &&
  forallb (fun p => (String.length p =? 2)%nat && forallb is_hex (list_ascii_of_string p)) parts.

(** The loop over the virtual functions; [seen] holds the indices met. *)
Fixpoint validate_vfs (name : string) (count : Z) (seen : list Z) (vfs : list VfConfig) : result unit string :=
  match vfs with
  | [] => Ok tt
  | vf :: vfs' =>
      err_if (count <=? vf_index vf)%Z
        ("'" ++ name ++ "' creates " ++ fmt_Z count ++ " VFs — VF index " ++ fmt_Z (vf_index vf)
         ++ " is out of range (0–" ++ fmt_Z (saturating_sub count 1) ++ ")") &?
      err_if (bool_decide (vf_index vf ∈ seen))
        ("'" ++ name ++ "' has duplicate configuration for VF index " ++ fmt_Z (vf_index vf)) &?
      match vf_vlan vf with
      | Some vlan => err_if (negb ((1 <=? vlan)%Z && (vlan <=? 4094)%Z))
          ("VF " ++ fmt_Z (vf_index vf) ++ " on '" ++ name ++ "': VLAN " ++ fmt_Z vlan
           ++ " is not a valid 802.1Q id (1–4094)")
      | None => Ok tt
      end &?
      match vf_mac vf with
      | Some mac => err_if (negb (is_valid_mac mac))
          ("VF " ++ fmt_Z (vf_index vf) ++ " on '" ++ name ++ "': '" ++ mac
           ++ "' is not a valid MAC address (expected six colon-separated hex octets)")
      | None => Ok tt
      end &?
      validate_vfs name count (vf_index vf :: seen) vfs'
  end.

Definition validate_vf_properties (i : InterfaceConfig) : result unit string :=
  match if_vfs i, if_sriov_num_vfs i with
  | [], _ => Ok tt
  | _, None => Err ("'" ++ if_name i ++ "' has per-VF properties but no VF count — set the VF count on the interface first")
  | vfs, Some count => validate_vfs (if_name i) count [] vfs
  end.

Definition validate_sriov_iface (live_caps : gmap string (option Z)) (i : InterfaceConfig) : result unit string :=
  validate_vf_properties i &?
  match if_sriov_num_vfs i with
  | None => Ok tt
  | Some n =>
      match live_caps !! if_name i with
      | Some (Some total) => err_if (total <? n)%Z
          ("'" ++ if_name i ++ "' supports at most " ++ fmt_Z total ++ " virtual functions (requested "
           ++ fmt_Z n ++ ")")
      | Some None => Err ("'" ++ if_name i ++ "' is not SR-IOV capable — it exposes no sriov_totalvfs; VF count cannot be configured on it")
      | None => Ok tt
      end
  end.

Definition validate_sriov (cfg : NetworkConfig) (live_caps : gmap string (option Z)) : result unit string :=
  check_each (validate_sriov_iface live_caps) (nc_interfaces cfg).

(** ** The checks at the head of [update] *)

Definition validate_request (config : NetworkConfig) (mgmt : option string) : result unit string :=
  check_each (fun i => validate_ip_config (if_ipv4 i) "IPv4" &? validate_ip_config (if_ipv6 i) "IPv6")
    (nc_interfaces config) &?
  check_each (fun b =>
    err_if (bool_decide (bo_members b = [])) ("Bond '" ++ bo_name b ++ "' has no members") &?
    validate_ip_config (bo_ipv4 b) "IPv4" &? validate_ip_config (bo_ipv6 b) "IPv6") (nc_bonds config) &?
  check_each (fun v =>
    err_if ((vl_vlan_id v =? 0)%Z || (4094 <? vl_vlan_id v)%Z)
      ("VLAN ID " ++ fmt_Z (vl_vlan_id v) ++ " is invalid (1-4094)") &?
    validate_ip_config (vl_ipv4 v) "IPv4" &? validate_ip_config (vl_ipv6 v) "IPv6") (nc_vlans config) &?
  check_each (fun b =>
    err_if (br_name b =s "") "Bridge name is required" &?
    validate_ip_config (br_ipv4 b) "IPv4" &? validate_ip_config (br_ipv6 b) "IPv6") (nc_bridges config) &?
  check_each (fun m =>
    err_if ((mv_name m =s "") || (mv_parent m =s "")) "macvlan name and parent are required" &?
    err_if (bool_decide (mgmt = Some (mv_parent m)))
      ("refusing macvlan shim on management interface '" ++ mv_parent m ++ "'") &?
    validate_ip_config (mv_ipv4 m) "IPv4") (nc_macvlans config).

(** ** Entries superseded by a virtual device of their name *)

Definition virtual_names (cfg : NetworkConfig) : list string :=
  ((bo_name <$> nc_bonds cfg) ++ (br_name <$> nc_bridges cfg) ++ (mv_name <$> nc_macvlans cfg) ++
   (vlan_name <$> nc_vlans cfg))%list.

Definition set_interfaces (ifs : list InterfaceConfig) (c : NetworkConfig) : NetworkConfig :=
  mkNet ifs (nc_dns c) (nc_bonds c) (nc_vlans c) (nc_bridges c) (nc_macvlans c).

Definition supersede_absent_physical_entries (cfg : NetworkConfig) (live_names : gset string)
    : NetworkConfig * list string :=
  let superseded := if_name <$>
    List.filter (fun i => bool_decide (if_name i ∈ virtual_names cfg) && negb (bool_decide (if_name i ∈ live_names)))
      (nc_interfaces cfg) in
  (match superseded with
   | [] => cfg
   | _ => set_interfaces (retain (fun i => negb (bool_decide (if_name i ∈ superseded))) (nc_interfaces cfg)) cfg
   end, superseded).

(** ** Inherited addresses *)

Record LiveTopology := mkTopology {
  addrs_v4 : gmap string (list string);
  addrs_v6 : gmap string (list string);
  default_via_v4 : gmap string string;
  default_via_v6 : gmap string string;
  dhcp_managed_v4 : gset string
}.

Definition topology_default : LiveTopology := mkTopology ∅ ∅ ∅ ∅ ∅.

Definition addrs (t : LiveTopology) (iface : string) (v6 : bool) : list string :=
  default [] ((if v6 then addrs_v6 t else addrs_v4 t) !! iface).
Definition default_via (t : LiveTopology) (iface : string) (v6 : bool) : option string :=
  (if v6 then default_via_v6 t else default_via_v4 t) !! iface.
Definition is_dhcp_managed_v4 (t : LiveTopology) (iface : string) : bool :=
  bool_decide (iface ∈ dhcp_managed_v4 t).

Definition find_iface (name : string) (c : NetworkConfig) : option InterfaceConfig :=
  List.find (fun i => if_name i =s name) (nc_interfaces c).

(** What the previous configuration says a member's addresses are. *)
Definition prior_ip (prev : NetworkConfig) (v6 : bool) (member : string) : option IpConfig :=
  match find_iface member prev with
  | None => None
  | Some i =>
      let ip := if v6 then if_ipv6 i else if_ipv4 i in
      match ip_method ip with
      | Dhcp => Some (mkIp Dhcp [] None)
      | Static => if bool_decide (ip_addresses ip = []) then None else Some ip
      | Slaac => if v6 then Some (mkIp Slaac [] None) else None
      | Inherit | Disabled => None
      end
  end.

Fixpoint resolve_inherit_one (members : list string) (prev : NetworkConfig) (live : LiveTopology) (v6 : bool)
    : IpConfig :=
  match members with
  | [] => ip_default
  | m :: members' =>
      match prior_ip prev v6 m with
      | Some ip => ip
      | None =>
          if negb v6 && is_dhcp_managed_v4 live m then mkIp Dhcp [] None
          else match addrs live m v6 with
               | [] => resolve_inherit_one members' prev live v6
               | live_addrs => mkIp Static live_addrs (default_via live m v6)
               end
      end
  end.

Definition resolve_bridge (prev : NetworkConfig) (live : LiveTopology) (b : BridgeConfig) : BridgeConfig :=
  let resolve ip v6 :=
    if bool_decide (ip_method ip = Inherit) then resolve_inherit_one (br_members b) prev live v6 else ip in
  mkBridge (br_name b) (br_members b) (resolve (br_ipv4 b) false) (resolve (br_ipv6 b) true) (br_mtu b)
    (br_stp b) (br_forward_delay_s b) (br_inherit_member_mac b).

Definition resolve_inherit (config prev : NetworkConfig) (live : LiveTopology) : NetworkConfig :=
  mkNet (nc_interfaces config) (nc_dns config) (nc_bonds config) (nc_vlans config)
    (resolve_bridge prev live <$> nc_bridges config) (nc_macvlans config).

(** ** Risk *)

(** The first reason some element of a list gives. *)
Fixpoint first_some {A B} (f : A -> option B) (l : list A) : option B :=
  match l with
  | [] => None
  | x :: l' => match f x with Some b => Some b | None => first_some f l' end
  end.

Definition or_else {A} (a b : option A) : option A := match a with Some _ => a | None => b end.

Definition some_if (b : bool) (s : string) : option string := if b then Some s else None.

Definition lists (mgmt : string) (members : list string) : bool := existsb (fun m => m =s mgmt) members.

Section Risk.
Context (prev next : NetworkConfig) (mgmt : string).

(** A master that takes the interface as a new member. *)
Definition enslaved_by {A} (name : A -> string) (members : A -> list string) (what : string)
    (before after : list A) : option string :=
  let by_n := collect_map name id before in
  first_some (fun n =>
    let was := match by_n !! name n with Some p => lists mgmt (members p) | None => false end in
    some_if (lists mgmt (members n) && negb was)
      ("management iface " ++ mgmt ++ " is being enslaved into " ++ what ++ " " ++ name n)) after.

(** A master that goes away and is the interface or held it. *)
Definition released_by {A} (name : A -> string) (members : A -> list string) (what : string)
    (before after : list A) : option string :=
  let by_n := collect_map name id after in
  first_some (fun p =>
    if is_some (by_n !! name p) then None
    else if name p =s mgmt then Some ("management " ++ what ++ " " ++ mgmt ++ " is being removed")
    else some_if (lists mgmt (members p))
      ("management iface " ++ mgmt ++ " is being released from " ++ what ++ " " ++ name p
       ++ " that's being removed")) before.

Definition iface_risk : option string :=
  match find_iface mgmt prev, find_iface mgmt next with
  | Some p, Some n =>
      or_else (some_if (negb (bool_decide (if_ipv4 p = if_ipv4 n)) || negb (bool_decide (if_ipv6 p = if_ipv6 n)))
                 ("IP config of management iface " ++ mgmt ++ " is changing"))
      (or_else (some_if (negb (bool_decide (if_mtu p = if_mtu n)))
                  ("MTU of management iface " ++ mgmt ++ " is changing"))
               (some_if (if_enabled p && negb (if_enabled n))
                  ("management iface " ++ mgmt ++ " is being disabled")))
  | Some _, None => Some ("management iface " ++ mgmt ++ " is being removed from config")
  | None, _ => None
  end.

End Risk.

Definition classify_risk (prev next : NetworkConfig) (mgmt_iface : option string) : option string :=
  match mgmt_iface with
  | None =>
      some_if (negb (bool_decide (nc_bonds prev = nc_bonds next)) ||
               negb (bool_decide (nc_bridges prev = nc_bridges next)) ||
               negb (bool_decide (nc_vlans prev = nc_vlans next)))
        "management iface unknown — applying topology change with rollback safety net"
  | Some mgmt =>
      or_else (enslaved_by mgmt br_name br_members "bridge" (nc_bridges prev) (nc_bridges next))
      (or_else (enslaved_by mgmt bo_name bo_members "bond" (nc_bonds prev) (nc_bonds next))
      (or_else (iface_risk prev next mgmt)
      (or_else (released_by mgmt br_name br_members "bridge" (nc_bridges prev) (nc_bridges next))
               (released_by mgmt bo_name bo_members "bond" (nc_bonds prev) (nc_bonds next)))))
  end.

Definition rollback_window (confirm_within_secs : option Z) (risk_reason : option string) : option Z :=
  match confirm_within_secs, risk_reason with
  | Some n, _ => if (n =? 0)%Z then None else Some n
  | None, Some _ => Some 30%Z
  | None, None => None
  end.

(** ** The management interface of a peer *)

(** [peer_addr.rsplit_once(':')], the part before. *)
Fixpoint rsplit_colon (s : string) : option string :=
  match s with
  | EmptyString => None
  | String c s' =>
      match rsplit_colon s' with
      | Some a => Some (String c a)
      | None => if Ascii.eqb c ":" then Some EmptyString else None
      end
  end.

(** One step per link read at [/sys/class/net/<name>/master]; [master] is what the kernel shows. *)
Fixpoint walk_masters (steps : nat) (master : string -> option string) (current : string) : string :=
  match steps with
  | 0 => current
  | S k => match master current with Some m => walk_masters k master m | None => current end
  end.

Definition walk_to_topmost_master (master : string -> option string) (start : string) : string :=
  walk_masters 8 master start.

(** [route_get host] is the device [ip route get] names for the host. *)
Definition mgmt_iface_for_peer (route_get : string -> option string) (master : string -> option string)
    (peer_addr : string) : option string :=
  if (peer_addr =s "") || (peer_addr =s "unknown") then None
  else
    let host := default peer_addr (rsplit_colon peer_addr) in
    walk_to_topmost_master master <$> route_get host.
