(* ===== verification/Network.v ===== *)
(** * The network service: [NetworkService] of nasty-system/src/network.rs

    The stored configuration with its history and previews, the push of
    profiles to NetworkManager, and the transactions that take a change back
    unless it is confirmed: [update], [confirm], the rollback timer and the
    recovery at start-up. A call holds [transaction_lifecycle] to its end, so
    each is one step. *)
From Stdlib Require Import String Ascii ZArith.
From stdpp Require Import base list gmap strings numbers.
From S2P Require Import Prelude RustStr Disk Layered Nm NetworkCheck.

Open Scope string_scope.
Open Scope rust_scope.

Definition nasty_dir : Path := ["var"; "lib"; "nasty"].
Definition JSON_PATH : Path := ["var"; "lib"; "nasty"; "networking.json"].
Definition HISTORY_DIR : Path := ["var"; "lib"; "nasty"; "networking.history"].
Definition HISTORY_KEEP : nat := 10.
Definition PENDING_REVERT_PATH : Path := ["var"; "lib"; "nasty"; "networking.json.pending-revert"].
Definition JSON_PATH_V2 : Path := ["var"; "lib"; "nasty"; "networking-v2.json"].
Definition NM_PREVIEW_DIR : Path := ["var"; "lib"; "nasty"; "networking-v2-nm-preview"].
Definition IB_UNMANAGED_CONF_PATH : Path :=
  ["etc"; "NetworkManager"; "conf.d"; "nasty-infiniband.conf"].

(** ** Environment *)

(** [nm::dbus::NmApplyOutcome]. *)
Record NmApplyOutcome := mkOutcome {
  oc_added : list string;
  oc_updated : list string;
  oc_deleted : list string;
  oc_unchanged : list string;
  oc_activated : list string;
  oc_errors : list (string * string)
}.

(** What one run of [apply_config] finds: the live interfaces, whether the
    D-Bus connection opens, and what pushing the profiles reports. *)
Record ApplyEnv := mkApplyEnv {
  ae_live : list LiveInterface;
  ae_connect : result unit string;
  ae_apply : list NmConnection -> result NmApplyOutcome string
}.

(** What one run of [persist_config] finds: the clock and the times of the
    files of the history. *)
Record PersistEnv := mkPersistEnv {
  pe_ts : Z;
  pe_mtime : Path -> Z
}.

Record NetEnv := mkNetEnv {
  ne_io : Faults;
  ne_topology : LiveTopology;
  ne_live : list LiveInterface;
  ne_persist : PersistEnv;
  ne_apply : ApplyEnv;
  ne_settle : ApplyEnv;
  ne_txn_secs : Z;
  ne_now : Z
}.

Record PendingTxn := mkPending {
  pt_revert_at_unix : Z;
  pt_risk_reason : string;
  pt_cancel : bool
}.

(** The table of transactions, the counter of [new_txn_id], the disk and the
    last set of profiles given to NetworkManager. *)
Record NetWorld := mkNetWorld {
  nw_transactions : gmap string PendingTxn;
  nw_counter : Z;
  nw_disk : Disk;
  nw_pushed : option (list NmConnection)
}.

Record UpdateRequest := mkUpdateRequest {
  ur_config : NetworkConfig;
  ur_confirm_within_secs : option Z
}.

Record NetworkApplyError := mkApplyError { ap_connection_id : string; ap_message : string }.

Record UpdateResponse := mkUpdateResponse {
  us_txn_id : option string;
  us_revert_at_unix : option Z;
  us_risk_reason : option string;
  us_apply_errors : list NetworkApplyError
}.

Record NetworkPendingTxn := mkNetworkPending {
  np_txn_id : string;
  np_revert_at_unix : Z;
  np_risk_reason : string
}.

(** ** Files *)

Section Files.
Context (F : Faults).

(** [format!("{path}.tmp")]. *)
Definition tmp_of (p : Path) : Path :=
  match file_name p with
  | Some n => (removelast p ++ [(n ++ ".tmp")%string])%list
  | None => p
  end.

Definition atomic_write (p : Path) (contents : string) : M Disk IoErr unit :=
  match parent p with Some dir => check F OpMkdir dir | None => ret tt end ;;;
  let tmp := tmp_of p in
  check F OpOpen tmp ;;;
  fs_write F tmp contents ;;;
  check F OpSync tmp ;;;
  rename F tmp p.

(** A directory iterated by [while let Ok(Some(entry))]: a failure to advance
    ends the loop. *)
Fixpoint entries_until_error (ps : list Path) : list Path :=
  match ps with
  | [] => []
  | p :: ps' => match fault F OpReadDir p with Some _ => [] | None => p :: entries_until_error ps' end
  end.

(** [let _ = remove_file(p)] on each path. *)
Fixpoint remove_each (ps : list Path) : M Disk IoErr unit :=
  match ps with
  | [] => ret tt
  | p :: ps' => _ <- attempt (E := IoErr) (remove_file F p) ;; remove_each ps'
  end.

(** Stable insertion, newest first. *)
Fixpoint insert_newest (mtime : Path -> Z) (p : Path) (l : list Path) : list Path :=
  match l with
  | [] => [p]
  | q :: l' => if (mtime q <=? mtime p)%Z then p :: l else q :: insert_newest mtime p l'
  end.

Definition sort_newest (mtime : Path -> Z) (l : list Path) : list Path :=
  foldr (insert_newest mtime) [] l.

Definition prune_history (mtime : Path -> Z) : M Disk IoErr unit :=
  r <- attempt (E := IoErr) (read_dir F HISTORY_DIR) ;;
  match r with
  | Err _ => ret tt
  | Ok ps => remove_each (drop HISTORY_KEEP (sort_newest mtime (entries_until_error ps)))
  end.

Definition snapshot_history (pe : PersistEnv) (prev : string) : M Disk IoErr unit :=
  check F OpMkdir HISTORY_DIR ;;;
  fs_write F (HISTORY_DIR ++ [(fmt_Z (pe_ts pe) ++ ".json")%string])%list prev ;;;
  prune_history (pe_mtime pe).

Section Previews.
Context `{UuidV5}.

Definition preview_name (p : NmConnection) : string := nm_id p ++ ".nmconnection.preview".

(** A preview that no current profile writes. *)
Definition stale_preview (expected : list string) (p : Path) : bool :=
  match file_name p with
  | Some n => ends_with ".nmconnection.preview" n && negb (bool_decide (n ∈ expected))
  | None => false
  end.

Fixpoint write_previews (profiles : list NmConnection) : M Disk IoErr unit :=
  match profiles with
  | [] => ret tt
  | p :: ps =>
      atomic_write (join NM_PREVIEW_DIR (preview_name p)) (serialize_keyfile p) ;;;
      write_previews ps
  end.

Definition write_nm_previews (c : LayeredConfig) : M Disk IoErr unit :=
  check F OpMkdir NM_PREVIEW_DIR ;;;
  let profiles := to_nm_profiles c in
  r <- attempt (E := IoErr) (read_dir F NM_PREVIEW_DIR) ;;
  match r with
  | Err _ => ret tt
  | Ok ps => remove_each (List.filter (stale_preview (preview_name <$> profiles)) (entries_until_error ps))
  end ;;;
  write_previews profiles.

End Previews.
End Files.

(** The validator's verdict; its fuel always suffices. *)
Definition validate (c : LayeredConfig) : result unit string :=
  default (Err "") (validate_layered c).

(** ** The service *)

Section Service.
Context `{UuidV5} `{!Codec NetworkConfig} `{!Codec LayeredConfig}.

Abbreviation Net := (M NetWorld string).

Definition set_disk (d : Disk) (w : NetWorld) : NetWorld :=
  mkNetWorld (nw_transactions w) (nw_counter w) d (nw_pushed w).
Definition set_txns (t : gmap string PendingTxn) (w : NetWorld) : NetWorld :=
  mkNetWorld t (nw_counter w) (nw_disk w) (nw_pushed w).
Definition set_pushed (ps : list NmConnection) (w : NetWorld) : NetWorld :=
  mkNetWorld (nw_transactions w) (nw_counter w) (nw_disk w) (Some ps).

(** Disk calls of the service, with the text of their errors. *)
Definition net_io {A} (msg : IoErr -> string) (m : M Disk IoErr A) : Net A :=
  fun w => match m (nw_disk w) with (r, d) => (map_err msg r, set_disk d w) end.

Definition load_config (F : Faults) : Net NetworkConfig :=
  r <- attempt (E := string) (net_io display_io (read_to_string F JSON_PATH)) ;;
  match r with
  | Ok content => match decode content with Ok c => ret c | Err _ => ret net_default end
  | Err _ => ret net_default
  end.

Definition persist_config (F : Faults) (pe : PersistEnv) (config : NetworkConfig) : Net unit :=
  json <- lift (map_err (String.append "serialization error: ") (encode config)) ;;
  let layered_cfg := to_layered config in
  lift (map_err (String.append "network config rejected by validator: ") (validate layered_cfg)) ;;;
  prev <- attempt (E := string) (net_io display_io (read_to_string F JSON_PATH)) ;;
  match prev with
  | Ok c => _ <- attempt (E := string) (net_io display_io (snapshot_history F pe c)) ;; ret tt
  | Err _ => ret tt
  end ;;;
  net_io (fun e => "failed to write " ++ display_path JSON_PATH ++ ": " ++ display_io e)
    (atomic_write F JSON_PATH json) ;;;
  match encode layered_cfg with
  | Ok layered_json =>
      _ <- attempt (E := string) (net_io display_io (atomic_write F JSON_PATH_V2 layered_json)) ;; ret tt
  | Err _ => ret tt
  end ;;;
  _ <- attempt (E := string) (net_io display_io (write_nm_previews F layered_cfg)) ;;
  ret tt.

Definition live_names (live : list LiveInterface) : gset string := list_to_set (li_name <$> live).

(** [sync_ib_unmanaged_conf]; the reload that follows a change is a message to NetworkManager. *)
Definition sync_ib_unmanaged_conf (F : Faults) (live : list LiveInterface) (cfg : NetworkConfig) : Net unit :=
  let live_ib := li_name <$> List.filter (fun i => li_kind i =s "infiniband") live in
  match render_ib_unmanaged_conf live_ib (list_to_set (if_name <$> nc_interfaces cfg)) with
  | Some content =>
      r <- attempt (E := string) (net_io display_io (read_to_string F IB_UNMANAGED_CONF_PATH)) ;;
      let current := match r with Ok c => c | Err _ => "" end in
      if current =s content then ret tt
      else _ <- attempt (E := string) (net_io display_io (atomic_write F IB_UNMANAGED_CONF_PATH content)) ;;
           ret tt
  | None =>
      _ <- attempt (E := string) (net_io display_io (remove_file F IB_UNMANAGED_CONF_PATH)) ;; ret tt
  end.

(** The profiles an apply pushes. *)
Definition desired_profiles (live : list LiveInterface) (ctx : MacContext) (config : NetworkConfig)
    : list NmConnection :=
  retain_live_physical_profiles (to_nm_profiles_with_macs (to_layered config) ctx) (live_names live).

Definition apply_config (F : Faults) (ae : ApplyEnv) (config : NetworkConfig) (mgmt : option string)
    : Net NmApplyOutcome :=
  let live := ae_live ae in
  let ctx := mkMacContext (collect_map li_name li_mac live) mgmt (infiniband_names live) in
  let profiles := desired_profiles live ctx config in
  lift (map_err (String.append "connect to NetworkManager: ") (ae_connect ae)) ;;;
  sync_ib_unmanaged_conf F live config ;;;
  modify (set_pushed profiles) ;;;
  lift (ae_apply ae profiles).

Definition apply_with_vf_settle (F : Faults) (first second : ApplyEnv) (config : NetworkConfig)
    (mgmt : option string) (live_at_validate : gset string) : Net NmApplyOutcome :=
  outcome <- apply_config F first config mgmt ;;
  let creates_vfs := existsb (fun i => (0 <? default 0 (if_sriov_num_vfs i))%Z) (nc_interfaces config) in
  let has_absent := existsb (fun i => negb (bool_decide (if_name i ∈ live_at_validate))) (nc_interfaces config) in
  if creates_vfs && has_absent then apply_config F second config mgmt else ret outcome.

Definition outcome_to_apply_errors (o : NmApplyOutcome) : list NetworkApplyError :=
  (fun p => mkApplyError p.1 p.2) <$> oc_errors o.

(** [format!("{n:x}")] of a [u64]; sixteen digits hold it. *)
Fixpoint hex_digits (fuel : nat) (n : Z) (acc : string) : string :=
  match fuel with
  | 0 => acc
  | S k =>
      let acc := String (hex_digit (Z.to_nat (n mod 16))) acc in
      if (n / 16 =? 0)%Z then acc else hex_digits k (n / 16)%Z acc
  end.
Definition fmt_hex (n : Z) : string := hex_digits 16 n "".

Definition new_txn_id (e : NetEnv) : Net string :=
  n <- gets nw_counter ;;
  modify (fun w => mkNetWorld (nw_transactions w) (wrapping_add n 1) (nw_disk w) (nw_pushed w)) ;;;
  ret (fmt_hex (ne_txn_secs e) ++ "-" ++ fmt_hex n).

(** [schedule_rollback]: the entry, with its timer armed. *)
Definition schedule_rollback (txn_id : string) (revert_at : Z) (reason : string) : Net unit :=
  modify (fun w => set_txns (<[txn_id := mkPending revert_at reason true]> (nw_transactions w)) w).

(** [symlink_metadata(path).is_ok()]. *)
Definition path_exists (F : Faults) (p : Path) : Net bool :=
  fun w => (Ok (match fault F OpStat p with Some _ => false | None => is_some (nw_disk w !! p) end), w).

(** The configuration an update would store: checked, addresses inherited,
    stale entries dropped. *)
Definition prepare (e : NetEnv) (config prev : NetworkConfig) : result NetworkConfig string :=
  let config := resolve_inherit config prev (ne_topology e) in
  match reject_infiniband_refs (collect_map li_name li_kind (ne_live e)) config &?
        validate_sriov config (collect_map li_name li_sriov_total_vfs (ne_live e)) with
  | Err msg => Err msg
  | Ok _ => Ok (supersede_absent_physical_entries config (live_names (ne_live e))).1
  end.

Definition update (e : NetEnv) (request : UpdateRequest) (mgmt : option string) : Net UpdateResponse :=
  let F := ne_io e in
  txns <- gets nw_transactions ;;
  match (map_to_list txns).*1 with
  | txn_id :: _ => throw ("network transaction " ++ txn_id ++ " is still awaiting confirmation")
  | [] =>
  pending <- path_exists F PENDING_REVERT_PATH ;;
  throw_if pending "a pending network rollback snapshot requires recovery before another update" ;;;
  lift (validate_request (ur_config request) mgmt) ;;;
  prev <- load_config F ;;
  config <- lift (prepare e (ur_config request) prev) ;;
  let risk_reason := classify_risk prev config mgmt in
  match rollback_window (ur_confirm_within_secs request) risk_reason with
  | Some secs =>
      prev_json <- lift (map_err (String.append "snapshot prior config: ") (encode prev)) ;;
      net_io (fun err => "write " ++ display_path PENDING_REVERT_PATH ++ ": " ++ display_io err)
        (atomic_write F PENDING_REVERT_PATH prev_json) ;;;
      persist_config F (ne_persist e) config ;;;
      outcome <- apply_with_vf_settle F (ne_apply e) (ne_settle e) config mgmt (live_names (ne_live e)) ;;
      txn_id <- new_txn_id e ;;
      let revert_at := wrapping_add (ne_now e) secs in
      let reason := default "explicit confirm requested" risk_reason in
      schedule_rollback txn_id revert_at reason ;;;
      ret (mkUpdateResponse (Some txn_id) (Some revert_at) (Some reason) (outcome_to_apply_errors outcome))
  | None =>
      persist_config F (ne_persist e) config ;;;
      outcome <- apply_with_vf_settle F (ne_apply e) (ne_settle e) config mgmt (live_names (ne_live e)) ;;
      ret (mkUpdateResponse None None None (outcome_to_apply_errors outcome))
  end
  end.

Definition pending (w : NetWorld) : list NetworkPendingTxn :=
  (fun p => mkNetworkPending p.1 (pt_revert_at_unix p.2) (pt_risk_reason p.2)) <$> map_to_list (nw_transactions w).

Definition confirm (F : Faults) (txn_id : string) : Net unit :=
  txns <- gets nw_transactions ;;
  match txns !! txn_id with
  | None => throw ("unknown or already-completed txn_id " ++ txn_id)
  | Some txn =>
      throw_if (negb (pt_cancel txn))
        ("network txn " ++ txn_id ++ " rollback is already in progress or failed") ;;;
      r <- attempt (fun w => match remove_file F PENDING_REVERT_PATH (nw_disk w) with (r, d) => (r, set_disk d w) end) ;;
      match r with
      | Err e => throw_if (negb (is_not_found e))
                   ("remove pending network rollback snapshot: " ++ display_io e)
      | Ok _ => ret tt
      end ;;;
      modify (fun w => set_txns (delete txn_id (nw_transactions w)) w)
  end.

Definition perform_rollback (F : Faults) (pe : PersistEnv) (ae : ApplyEnv) : Net unit :=
  contents <- net_io (fun e => "pending-revert file disappeared: " ++ display_io e)
                (read_to_string F PENDING_REVERT_PATH) ;;
  prev <- lift (map_err (String.append "unparseable pending-revert: ") (decode contents)) ;;
  r <- attempt (persist_config F pe prev) ;;
  match r with
  | Err msg => throw ("persist failed: " ++ msg)
  | Ok _ =>
      r <- attempt (apply_config F ae prev None) ;;
      match r with
      | Err msg => throw ("apply failed: " ++ msg)
      | Ok _ => net_io (fun e => "remove pending-revert after apply: " ++ display_io e)
                  (remove_file F PENDING_REVERT_PATH)
      end
  end.

Definition disarm (t : PendingTxn) : PendingTxn := mkPending (pt_revert_at_unix t) (pt_risk_reason t) false.
Definition rollback_failed (msg : string) (t : PendingTxn) : PendingTxn :=
  mkPending (pt_revert_at_unix t) ("Automatic rollback failed: " ++ msg) (pt_cancel t).

(** The task of [schedule_rollback] when its timer wins. *)
Definition rollback_timer (F : Faults) (pe : PersistEnv) (ae : ApplyEnv) (txn_id : string) : Net unit :=
  txns <- gets nw_transactions ;;
  match txns !! txn_id with
  | None => ret tt
  | Some _ =>
      modify (fun w => set_txns (alter disarm txn_id (nw_transactions w)) w) ;;;
      r <- attempt (E := string) (perform_rollback F pe ae) ;;
      match r with
      | Ok _ => modify (fun w => set_txns (delete txn_id (nw_transactions w)) w)
      | Err msg => modify (fun w => set_txns (alter (rollback_failed msg) txn_id (nw_transactions w)) w)
      end
  end.

Definition restore_pending_revert (F : Faults) (pe : PersistEnv) (ae : ApplyEnv) : Net unit :=
  r <- attempt (E := string) (net_io display_io (read_to_string F PENDING_REVERT_PATH)) ;;
  match r with
  | Err _ => ret tt
  | Ok contents =>
      match decode contents with
      | Err _ => _ <- attempt (E := string) (net_io display_io (remove_file F PENDING_REVERT_PATH)) ;; ret tt
      | Ok prev =>
          r <- attempt (E := string) (persist_config F pe prev) ;;
          match r with
          | Err _ => ret tt
          | Ok _ =>
              r <- attempt (E := string) (apply_config F ae prev None) ;;
              match r with
              | Err _ => ret tt
              | Ok _ => _ <- attempt (E := string) (net_io display_io (remove_file F PENDING_REVERT_PATH)) ;; ret tt
              end
          end
      end
  end.

(** A start of the engine: a fresh service on the disk that is there. *)
Definition restart (w : NetWorld) : NetWorld := mkNetWorld ∅ 0 (nw_disk w) (nw_pushed w).

Definition reconcile_orphans (F : Faults) (ae : ApplyEnv) : Net unit :=
  cfg <- load_config F ;;
  let ctx := mkMacContext ∅ None (infiniband_names (ae_live ae)) in
  let desired := desired_profiles (ae_live ae) ctx cfg in
  match ae_connect ae with
  | Err _ => ret tt
  | Ok _ => sync_ib_unmanaged_conf F (ae_live ae) cfg ;;; modify (set_pushed desired)
  end.

Definition nm_apply (F : Faults) (ae : ApplyEnv) : Net NmApplyOutcome :=
  cfg <- load_config F ;;
  let ctx := mkMacContext ∅ None (infiniband_names (ae_live ae)) in
  let desired := desired_profiles (ae_live ae) ctx cfg in
  lift (ae_connect ae) ;;;
  modify (set_pushed desired) ;;;
  lift (ae_apply ae desired).

End Service.
