(* ===== verification/NmDbus.v ===== *)
(** * NetworkManager over D-Bus: network/nm.rs and network/nm/dbus.rs

    The settings dictionary of a profile, the comparison with what
    NetworkManager holds, and [apply_profiles], which adds, updates, deletes
    and activates connections. NetworkManager's table of connections is part of
    the world; each call may fail as the environment says. *)
From Stdlib Require Import String Ascii ZArith.
From stdpp Require Import base list gmap strings numbers.
From S2P Require Import Prelude RustStr Layered Nm NetworkCheck Network.

Open Scope string_scope.
Open Scope rust_scope.

(** ** Settings dictionaries *)

(** The D-Bus values the profiles use. A dictionary inside a value is a list of
    its entries, in the order of insertion. *)
Inductive NmValue :=
| VStr (s : string)
| VBool (b : bool)
| VU32 (n : Z)
| VBytes (l : list Z)
| VU32s (l : list Z)
| VBytesList (l : list (list Z))
| VStrMap (l : list (string * string))
| VDicts (l : list (list (string * NmValue))).

Abbreviation Section_ := (gmap string NmValue).
Abbreviation SettingsDict := (gmap string (gmap string NmValue)).

(** [Ipv6Addr::from_str], as octets. *)
Class Ipv6Parser := parse_ipv6 : string -> option (list Z).

(** One octet of [Ipv4Addr::from_str]: at most three digits, no leading zero. *)
Definition parse_octet (s : string) : option Z :=
  match s with
  | EmptyString => None
  | String "0" (String _ _) => None
  | _ => if (String.length s <=? 3)%nat then
           match digits_value 0 s with
           | Some n => if (n <=? 255)%Z then Some n else None
           | None => None
           end
         else None
  end.

Definition parse_ipv4 (s : string) : option (list Z) :=
  let parts := split "." s in
  if (length parts =? 4)%nat then mapM parse_octet parts else None.

(** [u32::from_ne_bytes] on a little-endian machine. *)
Definition u32_from_ne_bytes (l : list Z) : Z := foldr (fun b acc => b + 256 * acc)%Z 0%Z l.

Definition parse_cidr (cidr : string) : option (string * Z) :=
  match split_once "/" cidr with
  | Some (addr, prefix) => (fun n => (addr, n)) <$> parse_unsigned (2 ^ 32 - 1) prefix
  | None => None
  end.

Definition mac_to_bytes (mac : string) : option (list Z) :=
  let parts := split ":" mac in
  if (length parts =? 6)%nat then mapM hex_octet parts else None.

(** [if let Some(v) = o { dict.insert(key, value(v)) }]. *)
Definition opt_entry {A} (key : string) (value : A -> NmValue) (o : option A) : list (string * NmValue) :=
  match o with Some a => [(key, value a)] | None => [] end.

(** The same for a list that is only inserted when it has elements. *)
Definition list_entry {A} (key : string) (value : list A -> NmValue) (l : list A) : list (string * NmValue) :=
  match l with [] => [] | _ => [(key, value l)] end.

Definition dict (entries : list (string * NmValue)) : gmap string NmValue :=
  fold_left (fun m e => <[e.1 := e.2]> m) entries ∅.

Definition vf_entry (vf : VfConfig) : list (string * NmValue) :=
  ([("index", VU32 (vf_index vf))] ++ opt_entry "mac" VStr (vf_mac vf) ++
   opt_entry "spoof-check" VBool (vf_spoof_check vf) ++ opt_entry "trust" VBool (vf_trust vf) ++
   opt_entry "vlans" (fun v => VDicts [[("id", VU32 v); ("qos", VU32 0); ("protocol", VU32 0)]]) (vf_vlan vf))%list.

Section Dict.
Context `{Ipv6Parser}.

Definition cidr_entries (key : string) (cidrs : list string) : list (list (string * NmValue)) :=
  (fun p => [(key, VStr p.1); ("prefix", VU32 p.2)]) <$> omap parse_cidr cidrs.

Definition ip_section_dict (ip : NmIpSettings) (family : Family) : gmap string NmValue :=
  dict
    ([("method", VStr (method_str (ns_method ip)))] ++
     list_entry "address-data" VDicts (cidr_entries "address" (ns_addresses ip)) ++
     opt_entry "gateway" VStr (ns_gateway ip) ++
     match family with
     | V4 => list_entry "dns" VU32s (u32_from_ne_bytes <$> omap parse_ipv4 (ns_dns ip))
     | V6 => list_entry "dns" VBytesList (omap parse_ipv6 (ns_dns ip))
     end ++
     list_entry "route-data" VDicts (cidr_entries "dest" (ns_routes ip)))%list.

Definition type_section (p : NmConnection) : list (string * gmap string NmValue) :=
  match nm_type_specific p with
  | TsNone => []
  | TsBond mode => [("bond", dict [("options", VStrMap [("mode", mode)])])]
  | TsBridge stp fd =>
      [("bridge", dict ([("stp", VBool stp)] ++ opt_entry "forward-delay" VU32 fd ++
                        [("multicast-snooping", VBool false)] ++
                        opt_entry "mac-address" VBytes (nm_mac p ≫= mac_to_bytes))%list)]
  | TsVlan par i => [("vlan", dict [("parent", VStr par); ("id", VU32 i)])]
  | TsMacvlan par mode => [("macvlan", dict [("parent", VStr par); ("mode", VU32 (macvlan_mode_num mode))])]
  end.

Definition eth_section (p : NmConnection) : list (string * gmap string NmValue) :=
  match nm_conn_type p with
  | NmInfiniband | NmMacvlan => []
  | t =>
      let eth := (opt_entry "mtu" VU32 (nm_mtu p) ++
                  match t with
                  | NmBridge => []
                  | _ => opt_entry "cloned-mac-address" VBytes (nm_mac p ≫= mac_to_bytes)
                  end)%list in
      match t, eth with
      | NmEthernet, _ => [("802-3-ethernet", dict eth)]
      | _, [] => []
      | _, _ => [("802-3-ethernet", dict eth)]
      end
  end.

Definition to_settings_dict (p : NmConnection) : SettingsDict :=
  fold_left (fun m e => <[e.1 := e.2]> m)
    ([("connection",
       dict ([("id", VStr (nm_id p)); ("uuid", VStr (nm_uuid p)); ("type", VStr (type_str (nm_conn_type p)));
              ("interface-name", VStr (nm_interface_name p)); ("autoconnect", VBool (nm_autoconnect p))] ++
             opt_entry "controller" VStr (nm_controller p) ++ opt_entry "port-type" VStr (nm_port_type p))%list)] ++
     type_section p ++
     match nm_conn_type p with
     | NmInfiniband => [("infiniband", dict ([("transport-mode", VStr "datagram")] ++ opt_entry "mtu" VU32 (nm_mtu p))%list)]
     | _ => []
     end ++
     eth_section p ++
     match nm_sriov_num_vfs p with
     | Some n => [("sriov", dict ([("total-vfs", VU32 n)] ++ list_entry "vfs" VDicts (vf_entry <$> nm_vfs p))%list)]
     | None => []
     end ++
     [("ipv4", ip_section_dict (nm_ipv4 p) V4); ("ipv6", ip_section_dict (nm_ipv6 p) V6)])%list ∅.

End Dict.

(** ** Comparison *)

(** [format!("{v:?}")] of a value. *)
Class ValueDebug := debug_value : NmValue -> string.

Section Diff.
Context `{Ipv6Parser} `{ValueDebug}.

Definition section_changed (a b : option (gmap string NmValue)) : bool :=
  match a, b with
  | None, None => false
  | Some _, None | None, Some _ => true
  | Some a, Some b =>
      negb (size a =? size b)%nat ||
      existsb (fun kv => match b !! kv.1 with
                         | None => true
                         | Some vb => negb (debug_value kv.2 =s debug_value vb)
                         end) (map_to_list a)
  end.

Definition diff_sections (a b : SettingsDict) : list string :=
  List.filter (fun s => section_changed (a !! s) (b !! s)) (elements (dom a ∪ dom b : gset string)).

Definition section_changed_any (a b : SettingsDict) : bool := negb (bool_decide (diff_sections a b = [])).

(** A connection NetworkManager holds; object paths end in a number. *)
Record NmExisting := mkExisting { ex_path : nat; ex_id : string; ex_settings : SettingsDict }.

Record NmDiff := mkDiff {
  df_to_add : list string;
  df_to_update : list (string * list string);
  df_to_delete : list string;
  df_unchanged : nat
}.

Definition by_id (existing : list NmExisting) : gmap string NmExisting := collect_map ex_id id existing.

Definition diff_one (existing : gmap string NmExisting) (out : NmDiff) (d : NmConnection) : NmDiff :=
  match existing !! nm_id d with
  | None => mkDiff (df_to_add out ++ [nm_id d]) (df_to_update out) (df_to_delete out) (df_unchanged out)
  | Some e =>
      match diff_sections (to_settings_dict d) (ex_settings e) with
      | [] => mkDiff (df_to_add out) (df_to_update out) (df_to_delete out) (S (df_unchanged out))
      | changed => mkDiff (df_to_add out) (df_to_update out ++ [(nm_id d, changed)]) (df_to_delete out) (df_unchanged out)
      end
  end%list.

Definition compute_diff (desired : list NmConnection) (existing : list NmExisting) : NmDiff :=
  let out := fold_left (diff_one (by_id existing)) desired (mkDiff [] [] [] 0) in
  mkDiff (df_to_add out) (df_to_update out)
    (ex_id <$> List.filter (fun e => negb (bool_decide (ex_id e ∈ nm_id <$> desired))) existing) (df_unchanged out).

(** ** Applying *)

(** NetworkManager's connections by object number, and those active. *)
Record NmWorld := mkNmWorld {
  nmw_connections : gmap nat SettingsDict;
  nmw_next : nat;
  nmw_active : list nat
}.

(** The failures of the calls, and the devices by interface name. *)
Record NmEnv := mkNmEnv {
  nv_list : option string;
  nv_get : nat -> option string;
  nv_add : string -> option string;
  nv_update : nat -> option string;
  nv_delete : nat -> option string;
  nv_device : string -> result (option nat) string;
  nv_activate : nat -> nat -> option string
}.

Abbreviation NmM := (M NmWorld string).

Definition fails (o : option string) : NmM unit :=
  match o with Some e => throw e | None => ret tt end.

Definition read_string (s : SettingsDict) (section key : string) : option string :=
  match s !! section ≫= (fun m => m !! key) with Some (VStr v) => Some v | _ => None end.

(** The connections whose id starts with [nasty-]; unreadable ones are skipped. *)
Definition nasty_connection (e : NmEnv) (c : nat * SettingsDict) : option NmExisting :=
  match nv_get e c.1 with
  | Some _ => None
  | None => match read_string c.2 "connection" "id" with
            | Some i => if starts_with "nasty-" i then Some (mkExisting c.1 i c.2) else None
            | None => None
            end
  end.

Definition list_nasty_connections (e : NmEnv) : NmM (list NmExisting) :=
  fails (nv_list e) ;;;
  conns <- gets nmw_connections ;;
  ret (omap (nasty_connection e) (map_to_list conns)).

Definition add_connection (e : NmEnv) (i : string) (s : SettingsDict) : NmM nat :=
  fails (nv_add e i) ;;;
  n <- gets nmw_next ;;
  modify (fun w => mkNmWorld (<[n := s]> (nmw_connections w)) (S n) (nmw_active w)) ;;;
  ret n.

Definition update_connection (e : NmEnv) (path : nat) (s : SettingsDict) : NmM unit :=
  fails (nv_update e path) ;;;
  modify (fun w => mkNmWorld (<[path := s]> (nmw_connections w)) (nmw_next w) (nmw_active w)).

Definition delete_connection (e : NmEnv) (path : nat) : NmM unit :=
  fails (nv_delete e path) ;;;
  modify (fun w => mkNmWorld (delete path (nmw_connections w)) (nmw_next w)
                     (List.filter (fun p => negb (p =? path)%nat) (nmw_active w))).

Definition activate_connection (e : NmEnv) (path device : nat) : NmM unit :=
  fails (nv_activate e path device) ;;;
  modify (fun w => mkNmWorld (nmw_connections w) (nmw_next w) (nmw_active w ++ [path])%list).

(** The outcome so far and the connections to activate. *)
Record Progress := mkProgress {
  pg_added : list string;
  pg_updated : list string;
  pg_deleted : list string;
  pg_unchanged : list string;
  pg_activated : list string;
  pg_errors : gmap string string;
  pg_targets : list (string * nat * string)
}.

Definition progress0 : Progress := mkProgress [] [] [] [] [] ∅ [].

Definition target (d : NmConnection) (path : nat) (p : Progress) : list (string * nat * string) :=
  if nm_autoconnect d then (pg_targets p ++ [(nm_id d, path, nm_interface_name d)])%list else pg_targets p.

Definition add_error (i msg : string) (p : Progress) : Progress :=
  mkProgress (pg_added p) (pg_updated p) (pg_deleted p) (pg_unchanged p) (pg_activated p)
    (<[i := msg]> (pg_errors p)) (pg_targets p).

Definition apply_one (e : NmEnv) (existing : gmap string NmExisting) (p : Progress) (d : NmConnection) : NmM Progress :=
  let s := to_settings_dict d in
  match existing !! nm_id d with
  | None =>
      r <- attempt (E := string) (add_connection e (nm_id d) s) ;;
      match r with
      | Ok path => ret (mkProgress (pg_added p ++ [nm_id d])%list (pg_updated p) (pg_deleted p) (pg_unchanged p)
                          (pg_activated p) (pg_errors p) (target d path p))
      | Err msg => ret (add_error (nm_id d) msg p)
      end
  | Some ex =>
      if section_changed_any s (ex_settings ex) then
        r <- attempt (E := string) (update_connection e (ex_path ex) s) ;;
        match r with
        | Ok _ => ret (mkProgress (pg_added p) (pg_updated p ++ [nm_id d])%list (pg_deleted p) (pg_unchanged p)
                         (pg_activated p) (pg_errors p) (target d (ex_path ex) p))
        | Err msg => ret (add_error (nm_id d) msg p)
        end
      else ret (mkProgress (pg_added p) (pg_updated p) (pg_deleted p) (pg_unchanged p ++ [nm_id d])%list
                  (pg_activated p) (pg_errors p) (target d (ex_path ex) p))
  end.

Definition delete_one (e : NmEnv) (desired_ids : list string) (p : Progress) (ex : NmExisting) : NmM Progress :=
  if bool_decide (ex_id ex ∈ desired_ids) then ret p
  else
    r <- attempt (E := string) (delete_connection e (ex_path ex)) ;;
    match r with
    | Ok _ => ret (mkProgress (pg_added p) (pg_updated p) (pg_deleted p ++ [ex_id ex])%list (pg_unchanged p)
                     (pg_activated p) (pg_errors p) (pg_targets p))
    | Err msg => ret (add_error (ex_id ex) msg p)
    end.

Definition activate_one (e : NmEnv) (p : Progress) (t : string * nat * string) : NmM Progress :=
  let '(i, path, iface) := t in
  match nv_device e iface with
  | Err msg => ret (add_error i msg p)
  | Ok None => ret (add_error i ("no NM-managed device matches interface '" ++ iface ++ "'") p)
  | Ok (Some dev) =>
      r <- attempt (E := string) (activate_connection e path dev) ;;
      match r with
      | Ok _ => ret (mkProgress (pg_added p) (pg_updated p) (pg_deleted p) (pg_unchanged p)
                       (pg_activated p ++ [i])%list (pg_errors p) (pg_targets p))
      | Err msg => ret (add_error i ("activate: " ++ msg) p)
      end
  end.

(** [for x in l { .. }] over the progress. *)
Fixpoint for_each {A} (f : Progress -> A -> NmM Progress) (l : list A) (p : Progress) : NmM Progress :=
  match l with
  | [] => ret p
  | x :: l' => p' <- f p x ;; for_each f l' p'
  end.

Definition outcome_of (p : Progress) : NmApplyOutcome :=
  mkOutcome (pg_added p) (pg_updated p) (pg_deleted p) (pg_unchanged p) (pg_activated p) (map_to_list (pg_errors p)).

Definition apply_profiles (e : NmEnv) (desired : list NmConnection) : NmM NmApplyOutcome :=
  existing <- list_nasty_connections e ;;
  p <- for_each (apply_one e (by_id existing)) desired progress0 ;;
  p <- for_each (delete_one e (nm_id <$> desired)) existing p ;;
  p <- for_each (activate_one e) (pg_targets p) p ;;
  ret (outcome_of p).

End Diff.
