(* ===== verification/NetworkProps.v ===== *)
(** * What storing and applying a network configuration changes

    Specifications of [atomic_write], [persist_config] and [apply_config] of
    network.rs over the files that matter to a rollback: the configuration and
    the snapshot of the previous one.

    ** Network transactions: correctness

    Every change of the network service as a step, the invariant of the
    reachable worlds, and what the rollback window promises: a change that is
    not confirmed is taken back, by the timer or by the next start. *)
From Stdlib Require Import String Ascii ZArith.
From stdpp Require Import base list gmap strings numbers relations.
From S2P Require Import Prelude RustStr Disk StateStore Layered LayeredProps Records Nm NetworkCheck Network.

Open Scope string_scope.
Open Scope rust_scope.

(** The two files. *)
Definition vital (p : Path) : Prop := p = JSON_PATH \/ p = PENDING_REVERT_PATH.

Lemma not_vital p : p !! 3 <> JSON_PATH !! 3 -> p !! 3 <> PENDING_REVERT_PATH !! 3 -> ~ vital p.
Proof. intros H1 H2 [->| ->]; done. Qed.

(** ** Writing a file *)

Lemma tmp_of_ne p : tmp_of p = p -> p = [].
Proof.
  unfold tmp_of, file_name. destruct p as [|x p' _] using rev_ind; [done|].
  rewrite last_snoc, removelast_last. intros [_ E]%app_inj_tail.
  apply (f_equal String.length) in E. rewrite length_append in E. simpl in E. lia.
Qed.

Lemma keeps_atomic_write keep d0 F p s d :
  ~ keep p -> ~ keep (tmp_of p) -> framed keep d0 d -> keeps (framed keep d0) (atomic_write F p s) d.
Proof.
  intros Hp Ht Hd. unfold atomic_write. destruct (parent p); keeps_go.
Qed.

(** A write is all or nothing. *)
Lemma atomic_write_content F p s d r d' :
  plain d -> p <> [] -> atomic_write F p s d = (r, d') ->
  match r with
  | Ok _ => content_at d' p = Some s
  | Err _ => d' !! p = d !! p
  end.
Proof.
  intros Hd Hp. assert (tmp_of p <> p) as Ht by (intros ?%tmp_of_ne; done).
  unfold atomic_write, bind, check, ret, throw.
  destruct (fs_write_plain F (tmp_of p) s d Hd) as (f & Hf & E).
  destruct (parent p) as [q|]; [destruct (fault F OpMkdir q); [by intros [= <- <-]|]|].
  all: destruct (fault F OpOpen (tmp_of p)); [by intros [= <- <-]|]; rewrite E;
    destruct (fault F OpWrite (tmp_of p)); [intros [= <- <-]; by rewrite lookup_insert_ne|];
    destruct (fault F OpSync (tmp_of p)); [intros [= <- <-]; by rewrite lookup_insert_ne|];
    unfold rename, check, bind, gets, ret, throw, modify;
    destruct (fault F OpRename (tmp_of p)); [intros [= <- <-]; by rewrite lookup_insert_ne|];
    rewrite lookup_insert_eq; intros [= <- <-]; unfold content_at; by rewrite lookup_insert_eq.
Qed.

Lemma atomic_write_no_faults p s d : plain d -> is_ok (atomic_write no_faults p s d).1 = true.
Proof.
  intros Hd. destruct (fs_write_plain no_faults (tmp_of p) s d Hd) as (f & Hf & E).
  unfold atomic_write, bind, check, ret. cbn -[fs_write].
  assert (forall w, is_ok (rename no_faults (tmp_of p) p (<[tmp_of p := w]> d)).1 = true) as Hr.
  { intros w. unfold rename, bind, gets, check, ret, modify. cbn. by rewrite lookup_insert_eq. }
  destruct (parent p); cbn -[fs_write rename]; rewrite E; apply Hr.
Qed.

(** ** Files beside *)

Section Beside.
Context (d0 : Disk).
Abbreviation safe := (framed vital d0).

Lemma keeps_remove_each F ps d :
  (forall p, p ∈ ps -> ~ vital p) -> safe d -> keeps safe (remove_each F ps) d.
Proof.
  revert d. induction ps as [|p ps IH]; intros d Hps Hd; cbn [remove_each]; [by apply keeps_ret|].
  apply keeps_bind; [apply keeps_attempt, keeps_remove; [|done]; set_solver|].
  intros _ d' Hd'. apply IH; [|done]. set_solver.
Qed.

Lemma insert_newest_perm mtime p l : insert_newest mtime p l ≡ₚ p :: l.
Proof.
  induction l as [|q l IH]; [done|]. cbn [insert_newest]. case_match; [done|].
  rewrite IH. apply Permutation_swap.
Qed.

Lemma sort_newest_perm mtime l : sort_newest mtime l ≡ₚ l.
Proof.
  induction l as [|p l IH]; [done|]. cbn [sort_newest foldr]. rewrite insert_newest_perm. by constructor.
Qed.

Lemma entries_sublist F ps p : p ∈ entries_until_error F ps -> p ∈ ps.
Proof.
  induction ps as [|q ps IH]; cbn [entries_until_error]; [done|].
  destruct (fault F OpReadDir q); set_solver.
Qed.

Lemma read_dir_parent F dir d ps d' p :
  read_dir F dir d = (Ok ps, d') -> p ∈ ps -> parent p = Some dir.
Proof.
  unfold read_dir, bind, check, gets, ret, throw. destruct (fault F OpReadDir dir); [done|].
  intros [= <- _] Hp. apply list_elem_of_In, filter_In in Hp as [_ Hp]. by apply bool_decide_eq_true in Hp.
Qed.

(** Clearing a directory that holds neither file keeps them. *)
Lemma keeps_sweep F dir (f : list Path -> list Path) d :
  (forall ps p, p ∈ f ps -> p ∈ ps) -> Some dir <> parent JSON_PATH -> safe d ->
  keeps safe (r <- attempt (E := IoErr) (F := IoErr) (read_dir F dir) ;;
              match r with Err _ => ret tt | Ok ps => remove_each F (f ps) end) d.
Proof.
  intros Hf Hdir Hd. unfold keeps, wp, bind, attempt.
  pose proof (keeps_read_dir vital d0 F dir d Hd) as Hk. unfold keeps, wp in Hk.
  destruct (read_dir F dir d) as [[ps|e] d'] eqn:E; cbn in Hk; [|done].
  apply keeps_remove_each; [|done]. intros p Hp Hv. apply Hdir.
  rewrite <- (read_dir_parent _ _ _ _ _ _ E (Hf _ _ Hp)). by destruct Hv as [->| ->].
Qed.

Lemma keeps_prune F mtime d : safe d -> keeps safe (prune_history F mtime) d.
Proof.
  intros. unfold prune_history.
  apply (keeps_sweep F HISTORY_DIR (fun ps => drop HISTORY_KEEP (sort_newest mtime (entries_until_error F ps)))); [|done..].
  intros ps p Hp. apply (entries_sublist F). rewrite <- (sort_newest_perm mtime).
  by eapply subseteq_drop.
Qed.

Lemma keeps_snapshot F pe s d : safe d -> keeps safe (snapshot_history F pe s) d.
Proof.
  intros Hd. unfold snapshot_history. keeps_go.
  - apply keeps_fs_write; [|done]. by apply not_vital.
  - by apply keeps_prune.
Qed.

(** *** Previews *)

Context `{UuidV5}.

Lemma preview_path p : starts_with "nasty-" (nm_id p) = true ->
  join NM_PREVIEW_DIR (preview_name p) = (NM_PREVIEW_DIR ++ components (preview_name p))%list.
Proof.
  unfold preview_name, join, starts_with. intros Hp.
  destruct (nm_id p) as [|c s]; [done|]. cbn [String.append].
  unfold String.prefix in *. destruct (ascii_dec "n" c) as [<-|]; [done|]. done.
Qed.

Lemma preview_not_vital c : ~ vital (NM_PREVIEW_DIR ++ c)%list /\ ~ vital (tmp_of (NM_PREVIEW_DIR ++ c)%list).
Proof.
  split; [by apply not_vital|].
  destruct c as [|x c _] using rev_ind; [by apply not_vital|].
  unfold tmp_of, file_name. rewrite app_assoc, last_snoc, removelast_last, <- app_assoc. by apply not_vital.
Qed.

Lemma keeps_write_previews F ps d :
  (forall p, p ∈ ps -> starts_with "nasty-" (nm_id p) = true) -> safe d -> keeps safe (write_previews F ps) d.
Proof.
  revert d. induction ps as [|p ps IH]; intros d Hps Hd; cbn [write_previews]; [by apply keeps_ret|].
  rewrite preview_path by (apply Hps; set_solver).
  destruct (preview_not_vital (components (preview_name p))).
  apply keeps_bind; [by apply keeps_atomic_write|]. intros _ d' Hd'. apply IH; [|done]. set_solver.
Qed.

Lemma starts_with_append a b : starts_with a (a ++ b) = true.
Proof.
  unfold starts_with. induction a as [|c a IH]; [by destruct b|].
  change ((if ascii_dec c c then String.prefix a (a ++ b) else false) = true).
  destruct (ascii_dec c c); [exact IH|congruence].
Qed.

Lemma profile_ids c ctx p :
  p ∈ to_nm_profiles_with_macs c ctx -> starts_with "nasty-" (nm_id p) = true.
Proof.
  unfold to_nm_profiles_with_macs. destruct (split_dns_by_family _) as [d4 d6].
  intros (l & -> & _)%list_elem_of_fmap.
  edestruct finish_profile_frame as (-> & _). unfold profile_for_link.
  repeat case_match; simplify_eq; apply (starts_with_append "nasty-").
Qed.

Lemma keeps_previews F c d : safe d -> keeps safe (write_nm_previews F c) d.
Proof.
  intros Hd. unfold write_nm_previews. apply keeps_bind; [by apply keeps_check|]. intros _ d1 H1.
  cbn zeta. set (stale := stale_preview _).
  assert (forall ps p, p ∈ List.filter stale (entries_until_error F ps) -> p ∈ ps) as Hf.
  { intros ps p Hp. apply list_elem_of_In, filter_In in Hp as [Hp _].
    by eapply entries_sublist, list_elem_of_In. }
  pose proof (keeps_sweep F NM_PREVIEW_DIR _ d1 Hf ltac:(done) H1) as Hs.
  unfold keeps, wp, bind, attempt in Hs |- *.
  destruct (read_dir F NM_PREVIEW_DIR d1) as [[ps|e] d2] eqn:E; cbn in Hs |- *;
    [destruct (remove_each F _ d2) as [[[]|e] d3]; cbn in Hs |- *; [|done]|];
    (apply keeps_write_previews; [intros p; apply profile_ids|done]).
Qed.

End Beside.

(** ** The configuration *)

Section Config.
Context `{UuidV5} `{!Codec NetworkConfig} `{!Codec LayeredConfig}.

(** Only files beside the two changed. *)
Definition beside (w0 w : NetWorld) : Prop :=
  nw_transactions w = nw_transactions w0 /\ nw_counter w = nw_counter w0 /\ nw_pushed w = nw_pushed w0 /\
  framed vital (nw_disk w0) (nw_disk w).

Lemma beside_refl w : plain (nw_disk w) -> beside w w.
Proof. intros. split_and!; auto using framed_refl. Qed.

Lemma beside_trans w0 w1 w2 : beside w0 w1 -> beside w1 w2 -> beside w0 w2.
Proof.
  intros (T1 & C1 & P1 & _ & F1) (T2 & C2 & P2 & D2 & F2). unfold beside. rewrite T2, C2, P2.
  split_and!; [done..|]. split; [done|]. intros p Hp. by rewrite F2, F1.
Qed.

Lemma beside_plain w0 w : beside w0 w -> plain (nw_disk w).
Proof. by intros (_ & _ & _ & ? & _). Qed.

Lemma keeps_net_io {A : Type} (w0 : NetWorld) (msg : IoErr -> string) (m : M Disk IoErr A) w :
  beside w0 w -> (framed vital (nw_disk w0) (nw_disk w) -> keeps (framed vital (nw_disk w0)) m (nw_disk w)) ->
  keeps (beside w0) (net_io msg m) w.
Proof.
  intros (T & C & P & D) Hm. specialize (Hm D). unfold keeps, wp, net_io in *.
  destruct (m (nw_disk w)) as [r d]. by split_and!.
Qed.

(** The best-effort calls: their failures are logged. *)
Lemma wp_best_effort {A B : Type} (w0 : NetWorld) (msg : IoErr -> string) (m : M Disk IoErr A) (k : result A string -> M NetWorld string B) (Q : result B string -> NetWorld -> Prop) w :
  beside w0 w -> (framed vital (nw_disk w0) (nw_disk w) -> keeps (framed vital (nw_disk w0)) m (nw_disk w)) ->
  (forall r w', beside w0 w' -> wp (k r) Q w') ->
  wp (bind (attempt (net_io msg m)) k) Q w.
Proof.
  intros Hw Hm Hk. apply wp_bind, wp_attempt.
  eapply wp_mono; [|apply (keeps_net_io w0); [exact Hw|exact Hm]]. cbn. auto.
Qed.

Definition persist_post (c : NetworkConfig) (w : NetWorld) (r : result unit string) (w' : NetWorld) : Prop :=
  nw_transactions w' = nw_transactions w /\ nw_counter w' = nw_counter w /\ nw_pushed w' = nw_pushed w /\
  plain (nw_disk w') /\ nw_disk w' !! PENDING_REVERT_PATH = nw_disk w !! PENDING_REVERT_PATH /\
  match r with
  | Ok _ => exists json, encode c = Ok json /\ validate (to_layered c) = Ok tt /\
              content_at (nw_disk w') JSON_PATH = Some json
  | Err _ => nw_disk w' !! JSON_PATH = nw_disk w !! JSON_PATH
  end.

Lemma beside_err c w e w' : beside w w' -> persist_post c w (Err e) w'.
Proof.
  intros (T & C & P & D & K). split_and!; try done; apply K; [by right|by left].
Qed.

(** Storing a configuration: accepted by the validator and complete, or nothing. *)
Lemma persist_config_spec F pe c w :
  plain (nw_disk w) -> wp (persist_config F pe c) (persist_post c w) w.
Proof.
  intros Hd. unfold persist_config. pose proof (beside_refl w Hd) as H0.
  apply wp_bind, wp_lift. destruct (encode c) as [json|e] eqn:He; [|by apply beside_err].
  cbn [map_err]. cbn zeta. apply wp_bind, wp_lift.
  destruct (validate (to_layered c)) as [[]|e] eqn:Hv; [|by apply beside_err]. cbn [map_err].
  apply (wp_best_effort w); [done|auto with rust|]. intros r w1 H1. apply wp_bind.
  apply (wp_mono _ (fun r w' => is_ok r = true /\ beside w w')).
  2: { destruct r as [s|e]; [|by apply wp_ret].
       apply (wp_best_effort w); [done|intros; by apply keeps_snapshot|]. intros. by apply wp_ret. }
  intros [[]|e] w2 [Hok H2]; [|done]. clear r w1 H1 Hok. apply wp_bind.
  pose proof (atomic_write_content F JSON_PATH json (nw_disk w2)) as Hc.
  pose proof (keeps_atomic_write (fun p => p = PENDING_REVERT_PATH) (nw_disk w2) F JSON_PATH json (nw_disk w2)
    ltac:(done) ltac:(done) (framed_refl _ _ (beside_plain _ _ H2))) as Hk.
  unfold keeps, wp in Hk. unfold net_io at 1. unfold wp at 1.
  destruct (atomic_write F JSON_PATH json (nw_disk w2)) as [r d3] eqn:E.
  specialize (Hc r d3 (beside_plain _ _ H2) ltac:(done) eq_refl). destruct Hk as [Hp3 Hk]. cbn in Hp3, Hk |- *.
  destruct H2 as (T & C & P & D & K). destruct r as [[]|e]; cbn.
  2: { split_and!; try done; cbn; [rewrite Hk by done; apply K; by right|rewrite Hc; apply K; by left]. }
  set (w3 := set_disk d3 w2). assert (beside w3 w3) as H3 by by apply beside_refl.
  assert (forall w4, beside w3 w4 -> persist_post c w (Ok tt) w4) as Hend.
  { intros w4 (T4 & C4 & P4 & D4 & K4). unfold persist_post. rewrite T4, C4, P4. split_and!; try done.
    - rewrite K4 by by right. cbn. rewrite Hk by done. apply K. by right.
    - exists json. split_and!; try done. unfold content_at. rewrite K4 by by left. exact Hc. }
  clearbody w3. apply wp_bind.
  apply (wp_mono _ (fun r w' => is_ok r = true /\ beside w3 w')).
  2: { destruct (encode (to_layered c)) as [s|e]; [|by apply wp_ret].
       apply (wp_best_effort w3); [done| |intros; by apply wp_ret].
       intros. apply keeps_atomic_write; [by apply not_vital..|done]. }
  intros [[]|e] w4 [Hok H4]; [|done].
  apply (wp_best_effort w3); [done|intros; by apply keeps_previews|]. intros. apply wp_ret. auto.
Qed.

End Config.

Section NetworkProps.
Context `{UuidV5} `{!Codec NetworkConfig} `{!Codec LayeredConfig} `{!CodecLaws NetworkConfig}.

(** ** The configuration on a disk *)

Definition config_on (d : Disk) : NetworkConfig :=
  match content_at d JSON_PATH with
  | Some s => match decode s with Ok c => c | Err _ => net_default end
  | None => net_default
  end.

Lemma load_config_plain F w : plain (nw_disk w) ->
  load_config F w =
  (Ok (match fault F OpRead JSON_PATH with Some _ => net_default | None => config_on (nw_disk w) end), w).
Proof.
  intros Hd. unfold load_config, net_io, attempt, bind. rewrite read_plain by done.
  unfold config_on. destruct w as [t n d p]; cbn in *.
  destruct (fault F OpRead JSON_PATH); [done|].
  destruct (content_at d JSON_PATH) as [s|]; [|done]. cbn. by destruct (decode s).
Qed.

(** A configuration the validator accepts. *)
Definition accepted (c : NetworkConfig) : Prop := validate (to_layered c) = Ok tt.

Lemma accepted_default : accepted net_default.
Proof. vm_compute. reflexivity. Qed.

(** ** Applying *)

Lemma sync_ib_spec F live c w : plain (nw_disk w) ->
  wp (sync_ib_unmanaged_conf F live c) (fun r w' => r = Ok tt /\ beside w w') w.
Proof.
  intros Hd. pose proof (beside_refl w Hd). unfold sync_ib_unmanaged_conf. cbn zeta.
  destruct (render_ib_unmanaged_conf _ _) as [s|].
  - apply (wp_best_effort w); [done|auto with rust|]. intros r w1 H1. case_match; [by apply wp_ret|].
    apply (wp_best_effort w); [done| |intros; by apply wp_ret].
    intros. apply keeps_atomic_write; [by apply not_vital..|done].
  - apply (wp_best_effort w); [done| |intros; by apply wp_ret].
    intros. apply keeps_remove; [by apply not_vital|done].
Qed.

(** What pushing profiles may change: the files beside the two and the profiles. *)
Definition pushes (w w' : NetWorld) : Prop :=
  nw_transactions w' = nw_transactions w /\ nw_counter w' = nw_counter w /\
  framed vital (nw_disk w) (nw_disk w').

Lemma pushes_refl w : plain (nw_disk w) -> pushes w w.
Proof. intros. split_and!; auto using framed_refl. Qed.

Lemma pushes_trans w0 w1 w2 : pushes w0 w1 -> pushes w1 w2 -> pushes w0 w2.
Proof.
  intros (T1 & C1 & D1 & F1) (T2 & C2 & D2 & F2). unfold pushes. rewrite T2, C2.
  split_and!; [done..|]. split; [done|]. intros p Hp. by rewrite F2, F1.
Qed.

Lemma pushes_beside w w' : beside w w' -> pushes w w'.
Proof. by intros (T & C & _ & D). Qed.

Lemma pushes_pushed w w' ps : pushes w w' -> pushes w (set_pushed ps w').
Proof. done. Qed.

Definition apply_context (ae : ApplyEnv) (mgmt : option string) : MacContext :=
  mkMacContext (collect_map li_name li_mac (ae_live ae)) mgmt (infiniband_names (ae_live ae)).

Lemma apply_config_spec F ae c mgmt w : plain (nw_disk w) ->
  wp (apply_config F ae c mgmt) (fun r w' => pushes w w' /\
    (is_ok r = true -> nw_pushed w' = Some (desired_profiles (ae_live ae) (apply_context ae mgmt) c))) w.
Proof.
  intros Hd. unfold apply_config. cbn zeta. apply wp_bind, wp_lift.
  destruct (ae_connect ae) as [[]|e]; cbn; [|split; [by apply pushes_refl|done]].
  apply wp_bind. eapply wp_mono; [|by apply sync_ib_spec]. cbn. intros r w' [-> Hw].
  apply wp_bind, wp_modify, wp_lift. split; [by apply pushes_pushed, pushes_beside|done].
Qed.

Lemma apply_settle_spec F a1 a2 c mgmt live w : plain (nw_disk w) ->
  wp (apply_with_vf_settle F a1 a2 c mgmt live) (fun _ w' => pushes w w') w.
Proof.
  intros Hd. unfold apply_with_vf_settle. apply wp_bind.
  eapply wp_mono; [|by apply apply_config_spec]. intros [o|e] w1 [H1 _]; [|done]. cbn zeta.
  case_match; [|by apply wp_ret].
  eapply wp_mono; [|apply apply_config_spec, H1]. intros r w2 [H2 _]. by eapply pushes_trans.
Qed.

(** ** Updates *)

(** A file with the prior configuration of a pending change. *)
Definition snapshot_of (d : Disk) (c : NetworkConfig) : Prop :=
  exists s, content_at d PENDING_REVERT_PATH = Some s /\ encode c = Ok s.

(** What an update leaves. [Refused] is before anything is written. *)
Definition update_post (e : NetEnv) (w : NetWorld) (r : result UpdateResponse string) (w' : NetWorld) : Prop :=
  plain (nw_disk w') /\
  let prev := match fault (ne_io e) OpRead JSON_PATH with
              | Some _ => net_default | None => config_on (nw_disk w) end in
  (w' = w /\ is_ok r = false) \/
  (nw_transactions w = ∅ /\
   (nw_disk w' !! JSON_PATH = nw_disk w !! JSON_PATH \/ exists c, accepted c /\ exists s,
      encode c = Ok s /\ content_at (nw_disk w') JSON_PATH = Some s) /\
   (nw_disk w' !! PENDING_REVERT_PATH = nw_disk w !! PENDING_REVERT_PATH \/ snapshot_of (nw_disk w') prev) /\
   match r with
   | Ok resp =>
       match us_txn_id resp with
       | Some id => snapshot_of (nw_disk w') prev /\
                    exists t, nw_transactions w' = {[id := t]} /\ pt_cancel t = true
       | None => nw_transactions w' = ∅
       end
   | Err _ => nw_transactions w' = ∅
   end).

Lemma snapshot_of_same d d' c :
  d' !! PENDING_REVERT_PATH = d !! PENDING_REVERT_PATH -> snapshot_of d c -> snapshot_of d' c.
Proof. intros E (s & Hs & Hc). exists s. unfold content_at in *. by rewrite E. Qed.

(** Storing and applying, as both branches of [update] do. *)
Lemma store_and_apply_spec F pe a1 a2 c mgmt live w {B : Type} (k : NmApplyOutcome -> M NetWorld string B) Q :
  plain (nw_disk w) ->
  (forall e w', plain (nw_disk w') -> nw_transactions w' = nw_transactions w ->
     nw_disk w' !! PENDING_REVERT_PATH = nw_disk w !! PENDING_REVERT_PATH ->
     (nw_disk w' !! JSON_PATH = nw_disk w !! JSON_PATH \/ exists c, accepted c /\ exists s,
        encode c = Ok s /\ content_at (nw_disk w') JSON_PATH = Some s) -> Q (Err e) w') ->
  (forall o w', plain (nw_disk w') -> nw_transactions w' = nw_transactions w ->
     nw_disk w' !! PENDING_REVERT_PATH = nw_disk w !! PENDING_REVERT_PATH ->
     (exists c, accepted c /\ exists s, encode c = Ok s /\ content_at (nw_disk w') JSON_PATH = Some s) ->
     wp (k o) Q w') ->
  wp (persist_config F pe c ;;; o <- apply_with_vf_settle F a1 a2 c mgmt live ;; k o) Q w.
Proof.
  intros Hd He Hk. apply wp_bind. eapply wp_mono; [|by apply (persist_config_spec F pe c)].
  intros [[]|e] w1 (T1 & _ & _ & D1 & P1 & R1); [|by apply He; auto].
  destruct R1 as (s & Hs & Hv & HJ). apply wp_bind. eapply wp_mono; [|by apply apply_settle_spec].
  intros r w2 (T2 & _ & D2 & F2).
  assert (exists c0, accepted c0 /\ exists s, encode c0 = Ok s /\ content_at (nw_disk w2) JSON_PATH = Some s) as HJ2.
  { exists c. split; [done|]. exists s. split; [done|]. unfold content_at. by rewrite F2 by by left. }
  rewrite T1 in T2. assert (nw_disk w2 !! PENDING_REVERT_PATH = nw_disk w !! PENDING_REVERT_PATH) as P2
    by by rewrite F2 by by right.
  destruct r as [o|e]; [by apply Hk|by apply He; auto].
Qed.

Lemma update_spec e req mgmt w : plain (nw_disk w) -> wp (update e req mgmt) (update_post e w) w.
Proof.
  intros Hd. assert (forall msg, update_post e w (Err msg) w) as Href by (intros; split; [done|by left]).
  unfold update. cbn zeta. apply wp_bind, wp_gets.
  destruct ((map_to_list (nw_transactions w)).*1) as [|id ids] eqn:Ht; [|by apply wp_throw].
  apply fmap_nil_inv, map_to_list_empty_iff in Ht.
  apply wp_bind. unfold path_exists at 1. unfold wp at 1. cbn.
  apply wp_bind, wp_throw_if; intros Hp; [done|].
  apply wp_bind, wp_lift. destruct (validate_request _ _) as [[]|msg]; [|done].
  apply wp_bind. unfold wp at 1. rewrite load_config_plain by done. cbn.
  set (prev := match fault (ne_io e) OpRead JSON_PATH with
               | Some _ => net_default | None => config_on (nw_disk w) end).
  apply wp_bind, wp_lift. destruct (prepare e (ur_config req) prev) as [config|msg]; [|done].
  destruct (rollback_window _ _) as [secs|].
  - apply wp_bind, wp_lift. destruct (encode prev) as [s|m] eqn:Hs; cbn [map_err]; [|done].
    apply wp_bind. unfold net_io at 1. unfold wp at 1.
    pose proof (atomic_write_content (ne_io e) PENDING_REVERT_PATH s (nw_disk w)) as Hc.
    pose proof (keeps_atomic_write (fun p => p = JSON_PATH) (nw_disk w) (ne_io e) PENDING_REVERT_PATH s (nw_disk w)
      ltac:(done) ltac:(done) (framed_refl _ _ Hd)) as Hk. unfold keeps, wp in Hk.
    destruct (atomic_write (ne_io e) PENDING_REVERT_PATH s (nw_disk w)) as [r d1].
    specialize (Hc r d1 Hd ltac:(done) eq_refl). destruct Hk as [D1 K1]. cbn in D1, K1 |- *.
    specialize (K1 JSON_PATH eq_refl). destruct r as [[]|m]; cbn.
    2: { split; [done|]. right. split_and!; auto. }
    assert (snapshot_of d1 prev) as Hsnap by by exists s.
    apply store_and_apply_spec; [done| |].
    { cbn. intros m w2 D2 T2 P2 J2. split; [done|]. right. rewrite T2, <- K1. split_and!; auto.
      right. by eapply snapshot_of_same. }
    cbn. intros o w2 D2 T2 P2 J2. apply wp_bind. unfold new_txn_id, wp, bind, gets, modify, ret, schedule_rollback. cbn.
    split; [done|]. right. split_and!; auto; [right; by eapply snapshot_of_same|].
    split; [by eapply snapshot_of_same|]. eexists. rewrite T2, Ht. split; [by apply insert_empty|done].
  - apply store_and_apply_spec; [done| |].
    { intros m w2 D2 T2 P2 J2. split; [done|]. right. rewrite T2. split_and!; auto. }
    intros o w2 D2 T2 P2 J2. apply wp_ret. split; [done|]. right. cbn. rewrite T2. split_and!; auto.
Qed.

(** ** Taking a change back *)

Lemma wp_attempt_any {W E G A B : Type} (m : M W G A) (k : result A G -> M W E B) Q w :
  (forall r w', wp (k r) Q w') -> wp (bind (attempt m) k) Q w.
Proof. intros Hk. apply wp_bind, wp_attempt. unfold wp at 1. apply Hk. Qed.

Lemma persist_config_ok pe c s w :
  plain (nw_disk w) -> encode c = Ok s -> accepted c ->
  wp (persist_config no_faults pe c) (fun r _ => r = Ok tt) w.
Proof.
  intros Hd He Hv. unfold persist_config. pose proof (beside_refl w Hd) as H0. rewrite He. cbn [map_err].
  apply wp_bind, wp_lift. cbn zeta. apply wp_bind, wp_lift. rewrite Hv. cbn [map_err].
  apply (wp_best_effort w); [done|auto with rust|]. intros r w1 H1. apply wp_bind.
  apply (wp_mono _ (fun r w' => is_ok r = true /\ beside w w')).
  2: { destruct r as [h|e]; [|by apply wp_ret].
       apply (wp_best_effort w); [done|intros; by apply keeps_snapshot|]. intros. by apply wp_ret. }
  intros [[]|e] w2 [Hok H2]; [|done]. apply wp_bind. unfold net_io at 1. unfold wp at 1.
  pose proof (atomic_write_no_faults JSON_PATH s (nw_disk w2) (beside_plain _ _ H2)) as Ha.
  destruct (atomic_write no_faults JSON_PATH s (nw_disk w2)) as [[[]|e] d3]; [|done]. cbn.
  apply wp_bind. apply (wp_mono _ (fun r _ => r = Ok tt)).
  - intros ? w4 ->. by apply wp_attempt_any; intros; apply wp_ret.
  - destruct (encode (to_layered c)); [apply wp_attempt_any; intros|]; by apply wp_ret.
Qed.

(** NetworkManager answers and takes the profiles. *)
Definition healthy (ae : ApplyEnv) : Prop :=
  ae_connect ae = Ok tt /\ forall ps, is_ok (ae_apply ae ps) = true.

Lemma apply_config_ok ae c w :
  plain (nw_disk w) -> healthy ae -> wp (apply_config no_faults ae c None) (fun r _ => is_ok r = true) w.
Proof.
  intros Hd [Hc Ha]. unfold apply_config. cbn zeta. rewrite Hc. apply wp_bind, wp_lift. cbn [map_err].
  apply wp_bind. eapply wp_mono; [|by apply sync_ib_spec]. intros r w' [-> _]. by apply wp_bind, wp_modify, wp_lift.
Qed.

(** The stored configuration is [prev], it is the one pushed, and no snapshot is left. *)
Definition reinstated (ae : ApplyEnv) (prev : NetworkConfig) (w : NetWorld) : Prop :=
  config_on (nw_disk w) = prev /\ nw_disk w !! PENDING_REVERT_PATH = None /\
  nw_pushed w = Some (desired_profiles (ae_live ae) (apply_context ae None) prev).

(** The steps the timer and the recovery share. *)
Lemma put_back pe ae prev w {E : Type} (k : M NetWorld E unit) (k1 k2 : string -> M NetWorld E unit) Q :
  plain (nw_disk w) -> snapshot_of (nw_disk w) prev -> accepted prev -> healthy ae ->
  (forall w', nw_transactions w' = nw_transactions w -> plain (nw_disk w') ->
     is_Some (nw_disk w' !! PENDING_REVERT_PATH) ->
     config_on (nw_disk w') = prev ->
     nw_pushed w' = Some (desired_profiles (ae_live ae) (apply_context ae None) prev) -> wp k Q w') ->
  wp (r <- attempt (persist_config no_faults pe prev) ;;
      match r with
      | Err msg => k1 msg
      | Ok _ => r <- attempt (apply_config no_faults ae prev None) ;;
                match r with Err msg => k2 msg | Ok _ => k end
      end) Q w.
Proof.
  intros Hd (s & Hs & He) Ha Hh Hk. apply wp_bind, wp_attempt.
  pose proof (persist_config_spec no_faults pe prev w Hd) as H1.
  pose proof (persist_config_ok pe prev s w Hd He Ha) as H2. unfold wp in H1, H2 |- * at 1. rewrite H2 in H1 |- *.
  destruct (persist_config no_faults pe prev w) as [r w1]. cbn in *. clear r H2.
  destruct H1 as (T1 & _ & _ & D1 & P1 & s' & Hs' & _ & J1).
  apply wp_bind, wp_attempt.
  pose proof (apply_config_spec no_faults ae prev None w1 D1) as H3.
  pose proof (apply_config_ok ae prev w1 D1 Hh) as H4. unfold wp in H3, H4 |- * at 1.
  destruct (apply_config no_faults ae prev None w1) as [r w2]. cbn in *.
  destruct H3 as ((T2 & _ & D2 & F2) & Hp). destruct r; [|done]. apply Hk.
  - by rewrite T2.
  - done.
  - rewrite F2, P1 by by right. unfold content_at in Hs. destruct (nw_disk w !! PENDING_REVERT_PATH); [eauto|done].
  - unfold config_on, content_at. rewrite F2 by by left. unfold content_at in J1. rewrite J1. by rewrite (decode_encode _ _ Hs').
  - auto.
Qed.

Lemma config_on_delete d : config_on (delete PENDING_REVERT_PATH d) = config_on d.
Proof. unfold config_on, content_at. by rewrite lookup_delete_ne. Qed.

Lemma read_net_io F (msg : IoErr -> string) p w :
  plain (nw_disk w) ->
  net_io msg (read_to_string F p) w =
  (match fault F OpRead p with
   | Some e => Err (msg e)
   | None => match content_at (nw_disk w) p with Some s => Ok s | None => Err (msg NotFound) end
   end, w).
Proof.
  intros Hd. unfold net_io. rewrite read_plain by done. destruct w. cbn.
  destruct (fault F OpRead p); [done|]. by destruct (content_at _ p).
Qed.

Lemma perform_rollback_ok pe ae prev w :
  plain (nw_disk w) -> snapshot_of (nw_disk w) prev -> accepted prev -> healthy ae ->
  wp (perform_rollback no_faults pe ae)
    (fun r w' => r = Ok tt /\ nw_transactions w' = nw_transactions w /\ plain (nw_disk w') /\
                 reinstated ae prev w') w.
Proof.
  intros Hd Hs Ha Hh. destruct Hs as (s & Hs & He).
  unfold perform_rollback. apply wp_bind. unfold wp at 1. rewrite read_net_io by done. cbn [fault no_faults]. rewrite Hs. cbn.
  apply wp_bind, wp_lift. rewrite (decode_encode _ _ He). cbn [map_err].
  apply put_back; try done; [by exists s|]. intros w' T D [f Hf] C P.
  unfold wp, net_io. rewrite (remove_file_no_faults _ _ _ Hf). cbn.
  split_and!; try done; [by apply plain_delete|]. unfold reinstated. cbn. rewrite config_on_delete.
  split_and!; try done. apply lookup_delete_eq.
Qed.

Lemma restore_ok pe ae prev w :
  plain (nw_disk w) -> snapshot_of (nw_disk w) prev -> accepted prev -> healthy ae ->
  wp (restore_pending_revert no_faults pe ae)
    (fun r w' => r = Ok tt /\ nw_transactions w' = nw_transactions w /\ reinstated ae prev w') w.
Proof.
  intros Hd Hs Ha Hh. destruct Hs as (s & Hs & He).
  unfold restore_pending_revert. apply wp_bind, wp_attempt. unfold wp at 1.
  rewrite read_net_io by done. cbn [fault no_faults]. rewrite Hs. cbn. rewrite (decode_encode _ _ He).
  apply put_back; try done; [by exists s|]. intros w' T D [f Hf] C P.
  apply wp_bind, wp_attempt. unfold wp, net_io. rewrite (remove_file_no_faults _ _ _ Hf). cbn.
  split_and!; try done. unfold reinstated. cbn. rewrite config_on_delete.
  split_and!; try done. apply lookup_delete_eq.
Qed.

End NetworkProps.
