(* ===== verification/NmDbusProps.v ===== *)
(** * What [apply_profiles] leaves in NetworkManager

    Connections of others are never touched; when no call fails, the engine's
    own connections are exactly the desired profiles.

    ** From an accepted configuration to NetworkManager's connections

    The profiles of a configuration the validator accepts have distinct ids, so
    pushing them makes the engine's connections exactly theirs. *)
From Stdlib Require Import String Ascii ZArith.
From stdpp Require Import base list gmap strings numbers.
From S2P Require Import Prelude RustStr Layered LayeredProps Nm NetworkCheck Network NmDbus NetworkProps.

Open Scope string_scope.
Open Scope rust_scope.

(** ** Dictionaries *)

Section Inserts.
Context {V : Type}.

Lemma fold_insert_other (l : list (string * V)) (m : gmap string V) k :
  k ∉ l.*1 -> fold_left (fun m e => <[e.1 := e.2]> m) l m !! k = m !! k.
Proof.
  revert m. induction l as [|[k' v] l IH]; intros m Hk; [done|]. cbn in *.
  apply not_elem_of_cons in Hk as [Hne Hk]. rewrite IH by done. by apply lookup_insert_ne.
Qed.

End Inserts.

Section NmDbusProps.
Context `{Ipv6Parser} `{ValueDebug}.

Lemma settings_id (d : NmConnection) : read_string (to_settings_dict d) "connection" "id" = Some (nm_id d).
Proof.
  unfold read_string, to_settings_dict. cbn [app fold_left fst snd]. rewrite fold_insert_other.
  - rewrite lookup_insert_eq. cbn [option_bind mbind].
    unfold dict. cbn [fold_left fst snd]. rewrite fold_insert_other.
    + reflexivity.
    + destruct (nm_controller d), (nm_port_type d); cbn; set_solver.
  - rewrite !fmap_app. unfold type_section, eth_section.
    destruct (nm_type_specific d), (nm_conn_type d), (nm_sriov_num_vfs d), (nm_mtu d), (nm_mac d ≫= mac_to_bytes);
      cbn; set_solver.
Qed.

(** ** Equality of dictionaries *)

(** The values of a dictionary. *)
Definition value_in (s : SettingsDict) (v : NmValue) : Prop :=
  exists name m k, s !! name = Some m /\ m !! k = Some v.

(** The printed form tells the values of two dictionaries apart. *)
Definition distinguished (a b : SettingsDict) : Prop :=
  forall va vb, value_in a va -> value_in b vb -> debug_value va = debug_value vb -> va = vb.

Lemma section_unchanged (a b : SettingsDict) s :
  distinguished a b -> section_changed (a !! s) (b !! s) = false -> a !! s = b !! s.
Proof.
  intros Hd. destruct (a !! s) as [ma|] eqn:Ea, (b !! s) as [mb|] eqn:Eb; cbn; try done.
  intros [Hs He]%orb_false_iff.
  apply negb_false_iff, Nat.eqb_eq in Hs. f_equal. apply map_subseteq_size_eq; [|lia].
  apply map_subseteq_spec. intros k v Hk.
  rewrite <- not_true_iff_false, existsb_exists in He. destruct (mb !! k) as [vb|] eqn:Hb.
  - destruct (debug_value v =s debug_value vb) eqn:E.
    + apply eqb_spec in E. f_equal. symmetry. apply Hd; [exists s, ma, k; auto|exists s, mb, k; auto|done].
    + destruct He. exists (k, v). rewrite <- list_elem_of_In, elem_of_map_to_list. cbn. by rewrite Hb, E.
  - destruct He. exists (k, v). rewrite <- list_elem_of_In, elem_of_map_to_list. cbn. by rewrite Hb.
Qed.

Lemma settings_unchanged a b : distinguished a b -> section_changed_any a b = false -> a = b.
Proof.
  intros Hd. unfold section_changed_any. rewrite negb_false_iff, bool_decide_eq_true. unfold diff_sections. intros E.
  apply map_eq. intros s. destruct (decide (s ∈ (dom a ∪ dom b : gset string))) as [Hs|Hs].
  - apply section_unchanged; [done|]. destruct (section_changed (a !! s) (b !! s)) eqn:Hc; [|done].
    assert (s ∈ []) as []%not_elem_of_nil. rewrite <- E.
    rewrite list_elem_of_In. apply filter_In. rewrite <- list_elem_of_In. by rewrite elem_of_elements.
  - rewrite elem_of_union, !elem_of_dom in Hs.
    destruct (a !! s) eqn:Ea, (b !! s) eqn:Eb; try done; destruct Hs; rewrite ?Ea, ?Eb; eauto.
Qed.


(** ** Loops *)

Lemma wp_for_each {A : Type} (I : list A -> NmWorld -> Prop) (f : Progress -> A -> M NmWorld string Progress) l p w :
  I [] w ->
  (forall before x after p w', l = (before ++ x :: after)%list -> I before w' ->
     wp (f p x) (fun r w'' => is_ok r = true /\ I (before ++ [x])%list w'') w') ->
  wp (for_each f l p) (fun r w' => is_ok r = true /\ I l w') w.
Proof.
  intros Hinit Hf.
  assert (forall after before p w', l = (before ++ after)%list -> I before w' ->
    wp (for_each f after p) (fun r w' => is_ok r = true /\ I l w') w') as Hg; [|by apply (Hg l [])].
  clear p w Hinit. induction after as [|x after IH]; intros before p w' El Hb; cbn [for_each].
  - apply wp_ret. rewrite app_nil_r in El. by subst.
  - apply wp_bind. eapply wp_mono; [|by apply (Hf before x after)]. intros [p'|e] w'' [Hok Hx]; [|done].
    apply (IH (before ++ [x])%list); [|done]. by rewrite <- app_assoc.
Qed.

(** ** The connections *)

(** A connection of the engine's. *)
Definition is_nasty (s : SettingsDict) : bool :=
  match read_string s "connection" "id" with Some i => starts_with "nasty-" i | None => false end.

(** Object numbers are handed out in order. *)
Definition numbered_below (w : NmWorld) : Prop :=
  forall n s, nmw_connections w !! n = Some s -> n < nmw_next w.

Lemma by_id_Some i ex l : by_id l !! i = Some ex -> ex ∈ l /\ ex_id ex = i.
Proof.
  unfold by_id, collect_map. induction l as [|c l IH] using rev_ind; [done|].
  rewrite fold_left_app. cbn. intros [[? <-]|[_ ?]]%lookup_insert_Some; [set_solver|].
  destruct IH; [done|]. set_solver.
Qed.

Lemma by_id_None i l : by_id l !! i = None -> forall ex, ex ∈ l -> ex_id ex <> i.
Proof.
  unfold by_id, collect_map. induction l as [|c l IH] using rev_ind; [by intros _ ex ?%not_elem_of_nil|].
  rewrite fold_left_app. cbn. intros [Hi Hne]%lookup_insert_None ex. set_solver.
Qed.

Section Run.
Context (e : NmEnv) (w : NmWorld) (Hwf : numbered_below w).

Definition found : list NmExisting := omap (nasty_connection e) (map_to_list (nmw_connections w)).

Lemma found_spec ex : ex ∈ found ->
  nmw_connections w !! ex_path ex = Some (ex_settings ex) /\
  read_string (ex_settings ex) "connection" "id" = Some (ex_id ex) /\ starts_with "nasty-" (ex_id ex) = true.
Proof.
  unfold found. intros ([n s] & Hn%elem_of_map_to_list & Hx)%list_elem_of_omap.
  unfold nasty_connection in Hx. cbn in Hx. destruct (nv_get e n); [done|].
  destruct (read_string s "connection" "id") as [i|] eqn:Er; [|done].
  destruct (starts_with "nasty-" i) eqn:Es; [|done]. simplify_eq. done.
Qed.

(** *** Others' connections *)

Definition spared (w' : NmWorld) : Prop :=
  numbered_below w' /\ nmw_next w <= nmw_next w' /\
  forall n s, nmw_connections w !! n = Some s -> is_nasty s = false -> nmw_connections w' !! n = Some s.

Lemma not_found_path n s ex :
  nmw_connections w !! n = Some s -> is_nasty s = false -> ex ∈ found -> ex_path ex <> n.
Proof.
  intros Hn Hs (Hp & Hr & Hst)%found_spec <-. rewrite Hp in Hn. simplify_eq.
  unfold is_nasty in Hs. rewrite Hr in Hs. congruence.
Qed.

Lemma keeps_fails o w' : spared w' -> keeps spared (fails o) w'.
Proof. by destruct o. Qed.

Lemma spared_add i s w' : spared w' -> keeps spared (add_connection e i s) w'.
Proof.
  intros Hs. unfold add_connection. apply keeps_bind; [by apply keeps_fails|]. clear w' Hs. intros _ w' (Hb & Hn & Hk).
  split_and!; cbn; [|lia|].
  - intros n t Ht. cbn in Ht |- *. apply lookup_insert_Some in Ht as [[<- <-]|[_ Ht]]; [lia|]. apply Hb in Ht. lia.
  - intros n t Ht Hnn. rewrite lookup_insert_ne; [by apply Hk|]. apply Hwf in Ht. lia.
Qed.

Lemma spared_update ex s w' : ex ∈ found -> spared w' -> keeps spared (update_connection e (ex_path ex) s) w'.
Proof.
  intros He Hs. unfold update_connection. apply keeps_bind; [by apply keeps_fails|]. clear w' Hs.
  intros _ w' (Hb & Hn & Hk). split_and!; cbn; [|done|].
  - intros n t Ht. cbn in Ht |- *. apply lookup_insert_Some in Ht as [[<- <-]|[_ Ht]]; [|by apply Hb in Ht].
    apply found_spec in He as (He & _). apply Hwf in He. lia.
  - intros n t Ht Hnn. rewrite lookup_insert_ne; [by apply Hk|]. by eapply not_found_path.
Qed.

Lemma spared_delete ex w' : ex ∈ found -> spared w' -> keeps spared (delete_connection e (ex_path ex)) w'.
Proof.
  intros He Hs. unfold delete_connection. apply keeps_bind; [by apply keeps_fails|]. clear w' Hs.
  intros _ w' (Hb & Hn & Hk). split_and!; cbn; [|done|].
  - intros n t Ht. cbn in Ht |- *. apply lookup_delete_Some in Ht as [_ Ht]. by apply Hb in Ht.
  - intros n t Ht Hnn. rewrite lookup_delete_ne; [by apply Hk|]. by eapply not_found_path.
Qed.

(** An attempt whose outcome only changes the progress. *)
Lemma spared_attempt {A : Type} (m : M NmWorld string A) (k : result A string -> M NmWorld string Progress) w' :
  (forall r, exists p, k r = ret p) -> keeps spared m w' ->
  wp (bind (attempt (E := string) m) k) (fun r w'' => is_ok r = true /\ spared w'') w'.
Proof.
  intros Hk Hm. apply wp_bind, wp_attempt. apply (wp_mono _ (fun _ => spared)); [|exact Hm].
  intros r w'' Hw. cbn.
  destruct (Hk r) as [p ->]. by apply wp_ret.
Qed.

Lemma spared_loop {A : Type} (f : Progress -> A -> M NmWorld string Progress) l p w' :
  spared w' ->
  (forall x p w', x ∈ l -> spared w' -> wp (f p x) (fun r w'' => is_ok r = true /\ spared w'') w') ->
  wp (for_each f l p) (fun r w' => is_ok r = true /\ spared w') w'.
Proof.
  intros Hw Hf. apply (wp_for_each (fun _ => spared)); [done|].
  intros before x after p0 w1 El H1. apply Hf; [|done]. subst. set_solver.
Qed.

End Run.

(** C31: Whatever calls fail, an apply leaves every connection whose id does not start with [nasty-] as it
    was, under the same object path. *)
Theorem foreign_connections_untouched e desired w n s :
  numbered_below w -> nmw_connections w !! n = Some s -> is_nasty s = false ->
  nmw_connections (apply_profiles e desired w).2 !! n = Some s.
Proof.
  intros Hwf Hn Hs.
  assert (keeps (spared w) (apply_profiles e desired) w) as (_ & _ & Hk); [|by apply Hk].
  assert (spared w w) as Hinit by (split_and!; auto).
  unfold apply_profiles. apply wp_bind. unfold list_nasty_connections, fails.
  destruct (nv_list e); [done|]. apply wp_bind, wp_ret, wp_bind, wp_gets, wp_ret.
  change (omap (nasty_connection e) (map_to_list (nmw_connections w))) with (found e w).
  apply wp_bind. eapply wp_mono.
  2: { apply (spared_loop w Hwf); [exact Hinit|]. intros d p w' _ Hw'. unfold apply_one. cbn zeta.
       destruct (by_id (found e w) !! nm_id d) as [ex|] eqn:Eb.
       - apply by_id_Some in Eb as [He _]. destruct (section_changed_any _ _); [|by apply wp_ret].
         apply spared_attempt; [by intros []; eexists|by apply spared_update].
       - apply spared_attempt; [by intros []; eexists|by apply spared_add]. }
  intros [p|] w1 [Hok H1]; [|done]. apply wp_bind. eapply wp_mono.
  2: { apply (spared_loop w Hwf); [exact H1|]. intros ex p' w' He Hw'. unfold delete_one.
       case_bool_decide; [by apply wp_ret|].
       apply spared_attempt; [by intros []; eexists|by apply spared_delete]. }
  intros [p'|] w2 [Hok2 H2]; [|done]. apply wp_bind. eapply wp_mono.
  2: { apply (spared_loop w Hwf); [exact H2|]. intros [[i path] iface] p'' w' _ Hw'. unfold activate_one.
       destruct (nv_device e iface) as [[dev|]|]; [|by apply wp_ret..].
       apply spared_attempt; [by intros []; eexists|].
       unfold activate_connection. apply keeps_bind; [by apply keeps_fails|]. by intros. }
  intros [p''|] w3 [Hok3 H3]; [|done]. by apply wp_ret.
Qed.

(** *** The engine's connections *)

(** Every call on the connections succeeds (devices and activation may fail). *)
Record calls_succeed (e : NmEnv) : Prop := {
  cs_list : nv_list e = None;
  cs_get : forall n, nv_get e n = None;
  cs_add : forall i, nv_add e i = None;
  cs_update : forall n, nv_update e n = None;
  cs_delete : forall n, nv_delete e n = None
}.

Section Converge.
Context (e : NmEnv) (w : NmWorld) (desired : list NmConnection).
Context (Hcs : calls_succeed e) (Hwf : numbered_below w).
Context (Hdbg : forall d ex, d ∈ desired -> ex ∈ found e w -> distinguished (to_settings_dict d) (ex_settings ex)).
Context (Hids : NoDup (nm_id <$> desired)) (Hex : NoDup (ex_id <$> found e w)).

Lemma found_complete n s :
  nmw_connections w !! n = Some s -> is_nasty s = true -> exists ex, ex ∈ found e w /\ ex_path ex = n.
Proof.
  unfold is_nasty. intros Hn Hs. destruct (read_string s "connection" "id") as [i|] eqn:Er; [|done].
  exists (mkExisting n i s). split; [|done]. apply list_elem_of_omap. exists (n, s).
  rewrite elem_of_map_to_list. split; [done|]. unfold nasty_connection. cbn. by rewrite (cs_get _ Hcs), Er, Hs.
Qed.

Lemma found_same_id ex ex' : ex ∈ found e w -> ex' ∈ found e w -> ex_id ex = ex_id ex' -> ex = ex'.
Proof.
  intros [i Hi]%list_elem_of_lookup [j Hj]%list_elem_of_lookup E. assert (i = j) as ->; [|congruence].
  apply (NoDup_lookup (ex_id <$> found e w) i j (ex_id ex)); [done|..]; rewrite list_lookup_fmap;
    [by rewrite Hi|rewrite Hj; cbn; by rewrite E].
Qed.

Lemma found_same_path ex ex' : ex ∈ found e w -> ex' ∈ found e w -> ex_path ex = ex_path ex' -> ex = ex'.
Proof.
  intros He He' E. apply found_same_id; [done..|].
  destruct (found_spec _ _ _ He) as (H1 & H2 & _), (found_spec _ _ _ He') as (H3 & H4 & _).
  rewrite E in H1. rewrite H1 in H3. simplify_eq. congruence.
Qed.

(** After the profiles [before] were added or updated. *)
Record merged (before : list NmConnection) (w' : NmWorld) : Prop := {
  mg_below : numbered_below w';
  mg_next : nmw_next w <= nmw_next w';
  mg_found : forall ex, ex ∈ found e w ->
    (exists d, d ∈ before /\ nm_id d = ex_id ex /\ nmw_connections w' !! ex_path ex = Some (to_settings_dict d)) \/
    ((forall d, d ∈ before -> nm_id d <> ex_id ex) /\ nmw_connections w' !! ex_path ex = Some (ex_settings ex));
  mg_source : forall n s, nmw_connections w' !! n = Some s -> is_nasty s = true ->
    (exists ex, ex ∈ found e w /\ ex_path ex = n) \/ exists d, d ∈ before /\ s = to_settings_dict d;
  mg_all : forall d, d ∈ before -> exists n, nmw_connections w' !! n = Some (to_settings_dict d)
}.

Lemma merged_init : merged [] w.
Proof.
  split; try done.
  - intros ex He. right. split; [by intros d ?%not_elem_of_nil|]. by apply found_spec in He as (? & _).
  - intros n s Hn Hs. left. by eapply found_complete.
  - by intros d ?%not_elem_of_nil.
Qed.

Lemma merged_insert before d w' n next act :
  merged before w' -> (forall d', d' ∈ before -> nm_id d' <> nm_id d) ->
  nmw_next w' <= next -> n < next ->
  (forall ex, ex ∈ found e w -> (ex_path ex = n <-> ex_id ex = nm_id d)) ->
  (forall d', d' ∈ before -> nmw_connections w' !! n <> Some (to_settings_dict d')) ->
  merged (before ++ [d])%list (mkNmWorld (<[n := to_settings_dict d]> (nmw_connections w')) next act).
Proof.
  intros [Hb Hn Hf Hs Ha] Hnew Hnext Hlt Hpath Hkeep. split; cbn.
  - intros m s Hm. cbn in Hm |- *. apply lookup_insert_Some in Hm as [[<- _]|[_ Hm]]; [done|].
    apply Hb in Hm. lia.
  - lia.
  - intros ex He. destruct (decide (ex_path ex = n)) as [E|E].
    + left. exists d. split; [set_solver|]. split; [symmetry; by apply Hpath|]. by rewrite E, lookup_insert_eq.
    + rewrite lookup_insert_ne by done. destruct (Hf ex He) as [(d' & Hd' & Hid & Hl)|[Hno Hl]].
      * left. exists d'. split; [set_solver|done].
      * right. split; [|done]. intros d' [Hd'|Hd'%list_elem_of_singleton]%elem_of_app; [by apply Hno|].
        subst. intros Eid. apply E, Hpath; [done|by symmetry].
  - intros m s Hm Hns. apply lookup_insert_Some in Hm as [[_ <-]|[_ Hm]]; [right; exists d; split; [set_solver|done]|].
    destruct (Hs m s Hm Hns) as [?|(d' & ? & ?)]; [by left|right; exists d'; split; [set_solver|done]].
  - intros d' [Hd'|Hd'%list_elem_of_singleton]%elem_of_app; [|subst; exists n; apply lookup_insert_eq].
    destruct (Ha d' Hd') as [m Hm]. exists m. rewrite lookup_insert_ne; [done|]. intros <-. by apply (Hkeep d').
Qed.

Lemma merged_step before d after p w' :
  desired = (before ++ d :: after)%list -> merged before w' ->
  wp (apply_one e (by_id (found e w)) p d) (fun r w'' => is_ok r = true /\ merged (before ++ [d])%list w'') w'.
Proof.
  intros El Hm.
  assert (forall d', d' ∈ before -> nm_id d' <> nm_id d) as Hnew.
  { intros d' Hd' E. rewrite El, fmap_app in Hids. apply list.NoDup_app in Hids as (_ & Hd & _).
    apply (Hd (nm_id d')); [by apply list_elem_of_fmap_2|]. rewrite E. cbn. set_solver. }
  unfold apply_one. cbn zeta. destruct (by_id (found e w) !! nm_id d) as [ex|] eqn:Eb.
  - apply by_id_Some in Eb as [He Eid].
    assert (forall ex', ex' ∈ found e w -> (ex_path ex' = ex_path ex <-> ex_id ex' = nm_id d)) as Hpath.
    { intros ex' He'. rewrite <- Eid. split; intros E; f_equal; [by apply found_same_path|by apply found_same_id]. }
    assert (nmw_connections w' !! ex_path ex = Some (ex_settings ex)) as Hold.
    { destruct (mg_found _ _ Hm ex He) as [(d' & Hd' & Hid & _)|[_ ?]]; [|done].
      destruct (Hnew d' Hd'). congruence. }
    destruct (section_changed_any (to_settings_dict d) (ex_settings ex)) eqn:Ec.
    + unfold update_connection, fails. rewrite (cs_update _ Hcs). unfold wp, bind, attempt, ret, modify. cbn.
      split; [done|]. apply merged_insert; try done; [apply (mg_below _ _ Hm _ _ Hold)|].
      intros d' Hd' E. rewrite Hold in E. simplify_eq. apply (Hnew d' Hd').
      destruct (found_spec _ _ _ He) as (_ & Hr & _). rewrite E, settings_id in Hr. congruence.
    + apply wp_ret. split; [done|]. apply settings_unchanged in Ec; [|apply Hdbg; [rewrite El; set_solver|done]].
      assert (w' = mkNmWorld (<[ex_path ex := to_settings_dict d]> (nmw_connections w')) (nmw_next w') (nmw_active w')) as ->.
      { rewrite insert_id by (by rewrite Ec). by destruct w'. }
      apply merged_insert; try done; [apply (mg_below _ _ Hm _ _ Hold)|].
      intros d' Hd' E. rewrite Hold in E. simplify_eq. apply (Hnew d' Hd').
      destruct (found_spec _ _ _ He) as (_ & Hr & _). rewrite E, settings_id in Hr. congruence.
  - unfold add_connection, fails. rewrite (cs_add _ Hcs). unfold wp, bind, attempt, ret, modify, gets. cbn.
    split; [done|]. apply merged_insert; [done|done|lia|lia| |].
    + intros ex He. pose proof (by_id_None _ _ Eb ex He). split; [|done]. intros E.
      destruct (found_spec _ _ _ He) as (Hp & _). apply Hwf in Hp. pose proof (mg_next _ _ Hm). lia.
    + intros d' _ E. apply (mg_below _ _ Hm) in E. lia.
Qed.

(** After the connections [gone] were deleted where no profile has their id. *)
Record swept (w1 : NmWorld) (gone : list NmExisting) (w' : NmWorld) : Prop := {
  sw_sub : forall n s, nmw_connections w' !! n = Some s -> nmw_connections w1 !! n = Some s;
  sw_kept : forall n s, nmw_connections w1 !! n = Some s ->
    nmw_connections w' !! n = Some s \/
    exists ex, ex ∈ gone /\ ex_path ex = n /\ (ex_id ex ∉ nm_id <$> desired);
  sw_gone : forall ex, ex ∈ gone -> (ex_id ex ∉ nm_id <$> desired) -> nmw_connections w' !! ex_path ex = None
}.

Lemma swept_step w1 before ex p w' :
  swept w1 before w' ->
  wp (delete_one e (nm_id <$> desired) p ex) (fun r w'' => is_ok r = true /\ swept w1 (before ++ [ex])%list w'') w'.
Proof.
  intros [Hs Hk Hg]. unfold delete_one. case_bool_decide as Hin.
  - apply wp_ret. split; [done|]. split; [done| |].
    + intros n s Hn. destruct (Hk n s Hn) as [?|(x & ? & ?)]; [by left|right; exists x; split; [set_solver|done]].
    + intros x [Hx|Hx%list_elem_of_singleton]%elem_of_app Hx'; [by apply Hg|by subst].
  - unfold delete_connection, fails. rewrite (cs_delete _ Hcs). unfold wp, bind, attempt, ret, modify. cbn.
    split; [done|]. split; cbn.
    + intros n s [_ Hn]%lookup_delete_Some. by apply Hs.
    + intros n s Hn. destruct (decide (ex_path ex = n)) as [E|E].
      * right. exists ex. split_and!; [set_solver|done|done].
      * rewrite lookup_delete_ne by done. destruct (Hk n s Hn) as [?|(x & ? & ?)]; [by left|].
        right. exists x. split; [set_solver|done].
    + intros x Hx Hx'. destruct (decide (ex_path ex = ex_path x)) as [->|E]; [apply lookup_delete_eq|].
      rewrite lookup_delete_ne by done. apply elem_of_app in Hx as [Hx|Hx%list_elem_of_singleton]; [by apply Hg|].
      by subst.
Qed.

(** The engine's connections are the desired profiles. *)
Definition converged (w' : NmWorld) : Prop :=
  forall s, (exists n, nmw_connections w' !! n = Some s /\ is_nasty s = true) <->
            s ∈ to_settings_dict <$> desired.

Lemma is_nasty_settings d : starts_with "nasty-" (nm_id d) = true -> is_nasty (to_settings_dict d) = true.
Proof. intros Hd. unfold is_nasty. by rewrite settings_id. Qed.

Lemma merged_swept_converged w1 w' :
  (forall d, d ∈ desired -> starts_with "nasty-" (nm_id d) = true) ->
  merged desired w1 -> swept w1 (found e w) w' -> converged w'.
Proof.
  intros Hpre Hm [Hs Hk Hg] s. rewrite list_elem_of_fmap. split.
  - intros (n & Hn & Hns). destruct (mg_source _ _ Hm n s (Hs _ _ Hn) Hns) as [(ex & He & <-)|(d & Hd & ->)].
    + destruct (mg_found _ _ Hm ex He) as [(d & Hd & _ & Hl)|[Hno _]].
      * rewrite (Hs _ _ Hn) in Hl. simplify_eq. by exists d.
      * rewrite (Hg ex He) in Hn; [done|]. intros (d & Ed & Hd)%list_elem_of_fmap. by apply (Hno d).
    + by exists d.
  - intros (d & -> & Hd). destruct (mg_all _ _ Hm d Hd) as [n Hn]. exists n.
    split; [|by apply is_nasty_settings, Hpre]. destruct (Hk _ _ Hn) as [?|(ex & He & <- & Hno)]; [done|]. exfalso.
    apply Hno. destruct (mg_found _ _ Hm ex He) as [(d' & Hd' & <- & _)|[_ Hl]]; [by apply list_elem_of_fmap_2|].
    rewrite Hn in Hl. simplify_eq. destruct (found_spec _ _ _ He) as (_ & Hr & _).
    rewrite <- Hl, settings_id in Hr. injection Hr as <-. by apply list_elem_of_fmap_2.
Qed.

End Converge.

(** When no call on the connections fails, the missing profiles are added, the changed ones updated and the
    others of the engine's deleted; activation may fail, which changes no connection. *)
Lemma apply_converges e desired w :
  calls_succeed e -> numbered_below w ->
  (forall d ex, d ∈ desired -> ex ∈ found e w -> distinguished (to_settings_dict d) (ex_settings ex)) -> NoDup (nm_id <$> desired) -> NoDup (ex_id <$> found e w) ->
  (forall d, d ∈ desired -> starts_with "nasty-" (nm_id d) = true) ->
  is_ok (apply_profiles e desired w).1 = true /\ converged desired (apply_profiles e desired w).2.
Proof.
  intros Hcs Hwf Hdbg Hids Hex Hpre.
  enough (wp (apply_profiles e desired) (fun r w' => is_ok r = true /\ converged desired w') w) as Hw
    by exact Hw.
  unfold apply_profiles. apply wp_bind. unfold list_nasty_connections, fails. rewrite (cs_list _ Hcs).
  apply wp_bind, wp_ret, wp_bind, wp_gets, wp_ret.
  change (omap (nasty_connection e) (map_to_list (nmw_connections w))) with (found e w).
  apply wp_bind. eapply wp_mono.
  2: { apply (wp_for_each (merged e w)); [by apply merged_init|]. intros. by eapply merged_step. }
  intros [p|] w1 [Ho1 Hm]; [|done]. apply wp_bind. eapply wp_mono.
  2: { apply (wp_for_each (swept desired w1)); [|intros; by apply (swept_step e w desired)].
       split; [done|by left|by intros ex ?%not_elem_of_nil]. }
  intros [p'|] w2 [Ho2 Hs]; [|done]. pose proof (merged_swept_converged e w desired w1 w2 Hpre Hm Hs) as Hc.
  apply wp_bind. eapply wp_mono.
  2: { apply (wp_for_each (fun _ => converged desired)); [exact Hc|].
       intros before [[i path] iface] after p0 w' _ Hw'. unfold activate_one.
       destruct (nv_device e iface) as [[dev|]|]; [|by apply wp_ret..].
       unfold activate_connection, fails, wp, bind, attempt. by destruct (nv_activate e path dev). }
  intros [p''|] w3 [Ho3 H3]; [|done]. by apply wp_ret.
Qed.

End NmDbusProps.

Section NmConverge.
Context `{UuidV5} `{Ipv6Parser} `{ValueDebug}.

Lemma profile_id_names c ctx :
  nm_id <$> to_nm_profiles_with_macs c ctx = (fun l => "nasty-" ++ l_name l) <$> lc_links c.
Proof.
  unfold to_nm_profiles_with_macs. destruct (split_dns_by_family _) as [d4 d6].
  rewrite <- list_fmap_compose. apply list_fmap_ext. intros i l _. cbn.
  edestruct finish_profile_frame as (-> & _). unfold profile_for_link. by repeat case_match; simplify_eq.
Qed.

Lemma accepted_ids c ctx live :
  accepted c -> NoDup (nm_id <$> desired_profiles live ctx c).
Proof.
  unfold accepted, validate. intros Hv.
  destruct (validate_layered (to_layered c)) as [r|] eqn:E; [|done]. cbn in Hv. subst r.
  apply validate_well_formed, wf_names in E.
  unfold desired_profiles, retain_live_physical_profiles.
  eapply sublist_NoDup; [|apply fmap_sublist, (retain_sublist _ (to_nm_profiles_with_macs (to_layered c) ctx))].
  rewrite profile_id_names. change (fun l => "nasty-" ++ l_name l) with (String.append "nasty-" ∘ l_name).
  rewrite list_fmap_compose. apply NoDup_fmap_2; [|done]. intros a b. apply append_inj_l.
Qed.

(** C14: When no call on the connections fails, pushing the profiles of a configuration the validator
    accepts answers Ok (a failed activation is only listed in the answer), and the engine's connections in NetworkManager are then exactly those of the profiles of
    the devices present: the missing ones were added, the changed ones updated, all others of the
    engine's deleted. Assumed of NetworkManager: it numbers its connections in order, and no two of the engine's
    connections found there have the same id (the code updates one of the two and leaves the other). Assumed of the values:
    the Debug texts by which the code compares a profile with the connection it finds tell the values of the two apart;
    a change the text does not show is not pushed. *)
Theorem accepted_config_converges e live ctx c w :
  accepted c -> calls_succeed e -> numbered_below w -> NoDup (ex_id <$> found e w) ->
  (forall d ex, d ∈ desired_profiles live ctx c -> ex ∈ found e w ->
     distinguished (to_settings_dict d) (ex_settings ex)) ->
  is_ok (apply_profiles e (desired_profiles live ctx c) w).1 = true /\
  converged (desired_profiles live ctx c) (apply_profiles e (desired_profiles live ctx c) w).2.
Proof.
  intros Ha Hcs Hwf Hex Hd. apply apply_converges; try done; [by apply accepted_ids|].
  intros p Hp. apply elem_of_retain in Hp as [_ Hp]. by eapply profile_ids.
Qed.

End NmConverge.
