(* ===== verification/NetworkTxn.v ===== *)
(** * Reachable worlds of the network service

    The calls as steps, the invariant of every reachable world, and the
    guarantees of a pending transaction.

    ** Which changes get a rollback window, and what a rejected one leaves

    An exact reading of [classify_risk], the addresses an inheriting bridge
    ends up with, and the behaviours of network.rs that its comments do not
    announce. *)
From Stdlib Require Import String Ascii ZArith.
From stdpp Require Import base list gmap strings numbers relations.
From S2P Require Import Prelude RustStr Disk StateStore Records Layered LayeredProps Nm NetworkCheck Network NetworkProps.

Open Scope string_scope.
Open Scope rust_scope.

Section NetworkTxn.
Context `{UuidV5} `{!Codec NetworkConfig} `{!Codec LayeredConfig} `{!CodecLaws NetworkConfig}.

(** ** Steps *)

(** The calls that leave a pending transaction alone: updates, confirmations of
    another transaction, and pushes of the stored configuration. *)
Inductive waiting (id : string) : NetWorld -> NetWorld -> Prop :=
| WUpdate e req mgmt w : waiting id w (update e req mgmt w).2
| WConfirm F other w : other <> id -> waiting id w (confirm F other w).2
| WReconcile F ae w : waiting id w (reconcile_orphans F ae w).2
| WApply F ae w : waiting id w (nm_apply F ae w).2.

(** Every call; a timer fires once, while its transaction is armed; a restart
    recovers from a snapshot that is there. *)
Inductive net_step : NetWorld -> NetWorld -> Prop :=
| SUpdate e req mgmt w : net_step w (update e req mgmt w).2
| SConfirm F id w : net_step w (confirm F id w).2
| STimer F pe ae id t w :
    nw_transactions w !! id = Some t -> pt_cancel t = true -> net_step w (rollback_timer F pe ae id w).2
| SRestart F pe ae w : net_step w (restore_pending_revert F pe ae (restart w)).2
| SReconcile F ae w : net_step w (reconcile_orphans F ae w).2
| SApply F ae w : net_step w (nm_apply F ae w).2.

(** ** The invariant *)

(** What is stored at a path, if it parses, is a configuration the validator accepts. *)
Definition stores_accepted (d : Disk) (p : Path) : Prop :=
  forall s c, content_at d p = Some s -> decode s = Ok c -> accepted c.

Record NetInv (w : NetWorld) : Prop := {
  ni_plain : plain (nw_disk w);
  ni_one : size (nw_transactions w) <= 1;
  ni_covered : nw_transactions w <> ∅ -> is_Some (nw_disk w !! PENDING_REVERT_PATH);
  ni_config : stores_accepted (nw_disk w) JSON_PATH;
  ni_snapshot : stores_accepted (nw_disk w) PENDING_REVERT_PATH
}.

Lemma stores_same d d' p : d' !! p = d !! p -> stores_accepted d p -> stores_accepted d' p.
Proof. unfold stores_accepted, content_at. by intros ->. Qed.

Lemma stores_encoded d p c s :
  encode c = Ok s -> content_at d p = Some s -> accepted c -> stores_accepted d p.
Proof. intros He Hs Ha s' c' Hs' Hd'. rewrite Hs in Hs'. simplify_eq. rewrite (decode_encode _ _ He) in Hd'. by simplify_eq. Qed.

Lemma stores_none d p : d !! p = None -> stores_accepted d p.
Proof. unfold stores_accepted, content_at. by intros ->. Qed.

Lemma config_accepted d : stores_accepted d JSON_PATH -> accepted (config_on d).
Proof.
  intros Hs. unfold config_on. destruct (content_at d JSON_PATH) as [s|] eqn:E; [|apply accepted_default].
  destruct (decode s) as [c|m] eqn:Ed; [by eapply Hs|apply accepted_default].
Qed.

Lemma NetInv_pushes w w' : pushes w w' -> NetInv w -> NetInv w'.
Proof.
  intros (T & _ & D & K) [? ? ? HJ HP]. split; rewrite ?T; try done.
  - intros Ht. rewrite K by by right. auto.
  - eapply stores_same; [|exact HJ]. apply K. by left.
  - eapply stores_same; [|exact HP]. apply K. by right.
Qed.

Lemma NetInv_update e req mgmt w : NetInv w -> NetInv (update e req mgmt w).2.
Proof.
  intros Hw. pose proof (update_spec e req mgmt w (ni_plain _ Hw)) as [D Hc]. unfold wp in *.
  destruct (update e req mgmt w) as [r w']. cbn in *.
  destruct Hc as [[-> _]|(Ht & HJ & HP & Hr)]; [done|]. destruct Hw as [_ _ Hcov HsJ HsP].
  assert (size (nw_transactions w') <= 1 /\
          (nw_transactions w' <> ∅ -> is_Some (nw_disk w' !! PENDING_REVERT_PATH))) as [? ?].
  { destruct r as [resp|]; [destruct (us_txn_id resp)|]; [|(rewrite Hr, map_size_empty; split; [lia|done])..].
    destruct Hr as ((sn & Hs & _) & t & -> & _). rewrite map_size_singleton. split; [lia|].
    intros _. unfold content_at in Hs. destruct (nw_disk w' !! PENDING_REVERT_PATH); [eauto|done]. }
  split; try done.
  - destruct HJ as [E|(c & Ha & s & He & Hs)]; [by eapply stores_same|by eapply stores_encoded].
  - destruct HP as [E|(s & Hs & He)]; [by eapply stores_same|]. eapply stores_encoded; [done..|].
    destruct (fault (ne_io e) OpRead JSON_PATH); [apply accepted_default|by apply config_accepted].
Qed.

(** Removing the snapshot together with the transactions. *)
Lemma NetInv_drop_snapshot w d t :
  NetInv w -> framed (fun p => p = JSON_PATH) (nw_disk w) d ->
  d !! PENDING_REVERT_PATH = None \/ d !! PENDING_REVERT_PATH = nw_disk w !! PENDING_REVERT_PATH ->
  size t <= 1 -> (t <> ∅ -> is_Some (d !! PENDING_REVERT_PATH)) ->
  NetInv (set_disk d (set_txns t w)).
Proof.
  intros [? ? ? HJ HP] [D K] Hp Ht Hc. split; cbn; try done.
  - eapply stores_same; [|exact HJ]. by apply K.
  - destruct Hp as [E|E]; [by apply stores_none|by eapply stores_same].
Qed.

Lemma remove_snapshot F d r d' :
  plain d -> remove_file F PENDING_REVERT_PATH d = (r, d') ->
  framed (fun p => p = JSON_PATH) d d' /\
  match r with
  | Ok _ => d' !! PENDING_REVERT_PATH = None
  | Err e => d' = d /\ (is_not_found e = true -> fault F OpUnlink PENDING_REVERT_PATH = None -> d !! PENDING_REVERT_PATH = None)
  end.
Proof.
  intros Hd E. pose proof (keeps_remove (fun p => p = JSON_PATH) d F PENDING_REVERT_PATH d ltac:(done) (framed_refl _ _ Hd)) as Hk.
  unfold keeps, wp in Hk. rewrite E in Hk. split; [done|]. revert E.
  unfold remove_file, bind, check, gets, throw, ret, modify.
  destruct (fault F OpUnlink PENDING_REVERT_PATH); [by intros [= <- <-]|].
  destruct (d !! PENDING_REVERT_PATH) eqn:Ed; intros [= <- <-]; [apply lookup_delete_eq|auto].
Qed.

Lemma txn_singleton (m : gmap string PendingTxn) id t : size m <= 1 -> m !! id = Some t -> m = {[id := t]}.
Proof.
  intros Hs Hm. apply insert_delete_id in Hm as E. rewrite <- E.
  assert (delete id m = ∅) as ->; [|apply insert_empty].
  apply map_size_empty_inv. rewrite map_size_delete_Some by eauto. lia.
Qed.

Lemma NetInv_confirm F id w : NetInv w -> NetInv (confirm F id w).2.
Proof.
  intros Hw. unfold confirm, bind, gets. destruct (nw_transactions w !! id) as [t|] eqn:Et; [|done].
  unfold throw_if. destruct (pt_cancel t); cbn [negb]; [|done]. unfold ret, attempt.
  pose proof (txn_singleton _ _ _ (ni_one _ Hw) Et) as Es.
  destruct (remove_file F PENDING_REVERT_PATH (nw_disk w)) as [r d] eqn:E.
  apply remove_snapshot in E as [Hf Hr]; [|apply Hw].
  assert (delete id (nw_transactions w) = ∅) as Hdel by (rewrite Es; apply delete_singleton_eq).
  assert (NetInv (set_txns (delete id (nw_transactions w)) (set_disk d w))) as Hgood.
  { rewrite Hdel. apply (NetInv_drop_snapshot w d ∅ Hw Hf); [|by rewrite map_size_empty; lia|done].
    destruct r; [by left|right; by destruct Hr as [-> _]]. }
  destruct r as [[]|e]; [exact Hgood|]. destruct (is_not_found e); [exact Hgood|]. destruct Hr as [-> _]. by destruct w.
Qed.

(** The same changes pend, with the same snapshot. *)
Definition same_pending (w w' : NetWorld) : Prop :=
  nw_transactions w' = nw_transactions w /\
  nw_disk w' !! PENDING_REVERT_PATH = nw_disk w !! PENDING_REVERT_PATH.

Lemma pushes_pending w w' : pushes w w' -> same_pending w w'.
Proof. intros (T & _ & _ & K). split; [done|]. apply K. by right. Qed.

(** Storing and applying a snapshot keeps the invariant, the transactions and the snapshot. *)
Lemma wp_put_back F pe ae c w {E : Type} (k1 k2 : string -> M NetWorld E unit) (k : M NetWorld E unit) Q :
  NetInv w -> accepted c ->
  (forall w', same_pending w w' -> NetInv w' -> wp k Q w') ->
  (forall msg w', same_pending w w' -> NetInv w' -> wp (k1 msg) Q w') ->
  (forall msg w', same_pending w w' -> NetInv w' -> wp (k2 msg) Q w') ->
  wp (r <- attempt (persist_config F pe c) ;;
      match r with
      | Err msg => k1 msg
      | Ok _ => r <- attempt (apply_config F ae c None) ;;
                match r with Err msg => k2 msg | Ok _ => k end
      end) Q w.
Proof.
  intros Hw Ha Hk Hk1 Hk2. apply wp_bind, wp_attempt.
  eapply wp_mono; [|apply (persist_config_spec F pe c), Hw].
  intros r w1 (T1 & _ & _ & D1 & P1 & R1). destruct Hw as [_ ? Hcov HJ HP].
  assert (NetInv w1) as H1.
  { split; rewrite ?T1, ?P1; try done; [|by eapply stores_same].
    destruct r as [[]|e]; [|by eapply stores_same].
    destruct R1 as (s & He & _ & Hs). by eapply stores_encoded. }
  destruct r as [[]|e]; [|by apply Hk1]. apply wp_bind, wp_attempt.
  eapply wp_mono; [|apply apply_config_spec, D1]. intros r w2 [H2 _].
  pose proof (NetInv_pushes _ _ H2 H1). apply pushes_pending in H2 as [T2 P2].
  assert (same_pending w w2) by (split; congruence).
  destruct r; [by apply Hk|by apply Hk2].
Qed.

(** A rollback of the only transaction: done, it may be forgotten. *)
Lemma NetInv_perform F pe ae w : NetInv w ->
  wp (perform_rollback F pe ae) (fun r w' => nw_transactions w' = nw_transactions w /\
     match r with Ok _ => NetInv (set_txns ∅ w') | Err _ => NetInv w' /\ same_pending w w' end) w.
Proof.
  intros Hw. unfold perform_rollback. apply wp_bind. unfold wp at 1. rewrite read_net_io by apply Hw.
  cbn [fst snd]. destruct (fault F OpRead PENDING_REVERT_PATH); [done|].
  destruct (content_at (nw_disk w) PENDING_REVERT_PATH) as [s|] eqn:Hs; [|done].
  apply wp_bind, wp_lift. destruct (decode s) as [c|m] eqn:Hd; cbn [map_err]; [|done].
  apply wp_put_back; [done|exact (ni_snapshot _ Hw s c Hs Hd)| |by intros ? ? Hs' ?; apply wp_throw; destruct Hs'..].
  intros w' [T P] I'. unfold wp, net_io.
  destruct (remove_file F PENDING_REVERT_PATH (nw_disk w')) as [r d] eqn:E.
  apply remove_snapshot in E as [Hf Hr]; [|apply I']. destruct r as [[]|e]; (split; [done|]); cbn.
  - apply (NetInv_drop_snapshot w' d ∅ I' Hf); [by left|rewrite map_size_empty; lia|done].
  - destruct Hr as [-> _]. split; [by destruct w'|by split].
Qed.

(** Changing the entry of the only transaction. *)
Lemma NetInv_alter w id f t :
  NetInv w -> nw_transactions w = {[id := t]} -> NetInv (set_txns (alter f id (nw_transactions w)) w).
Proof.
  intros [? ? Hc ? ?] Es. rewrite Es, alter_singleton_eq. split; cbn; try done.
  - by rewrite map_size_singleton.
  - intros _. apply Hc. rewrite Es. apply map_non_empty_singleton.
Qed.

(** A change still pending after a step was pending before it, on the same snapshot. *)
Definition stays (w w' : NetWorld) : Prop :=
  (forall id, is_Some (nw_transactions w' !! id) -> is_Some (nw_transactions w !! id)) /\
  (nw_transactions w' <> ∅ -> nw_disk w' !! PENDING_REVERT_PATH = nw_disk w !! PENDING_REVERT_PATH).

Lemma stays_pending w w' : same_pending w w' -> stays w w'.
Proof. intros [T P]. split; [by rewrite T|done]. Qed.

Lemma stays_none w w' : nw_transactions w' = ∅ -> stays w w'.
Proof. intros T. split; [|done]. intros id. rewrite T, lookup_empty. by intros []. Qed.

Lemma timer_keeps F pe ae id t w :
  NetInv w -> nw_transactions w !! id = Some t ->
  let w' := (rollback_timer F pe ae id w).2 in NetInv w' /\ stays w w'.
Proof.
  intros Hw Et. pose proof (txn_singleton _ _ _ (ni_one _ Hw) Et) as Es.
  apply (wp_bind _ _ (fun _ w' => NetInv w' /\ stays w w')), wp_gets. rewrite Et. apply wp_bind, wp_modify.
  pose proof (NetInv_alter w id disarm t Hw Es) as H1. apply wp_bind, wp_attempt.
  eapply wp_mono; [|by apply NetInv_perform]. cbn. rewrite Es, alter_singleton_eq.
  intros [[]|msg] w2 [T2 Hr]; apply wp_modify.
  - rewrite T2, delete_singleton_eq. split; [done|]. by apply stays_none.
  - destruct Hr as [Hi [_ Hp]]. split; [by eapply NetInv_alter|]. rewrite T2, alter_singleton_eq.
    split; [|by intros _]. intros id'. cbn. rewrite Es. intros [? [<- _]%lookup_singleton_Some].
    by rewrite lookup_singleton_eq.
Qed.

Lemma restart_keeps F pe ae w :
  NetInv w -> let w' := (restore_pending_revert F pe ae (restart w)).2 in NetInv w' /\ nw_transactions w' = ∅.
Proof.
  intros Hw0. assert (NetInv (restart w)) as Hw by (destruct Hw0; split; cbn; rewrite ?map_size_empty; solve [done|lia]).
  assert (nw_transactions (restart w) = ∅) as Ht by done. revert Hw Ht. generalize (restart w). clear w Hw0.
  intros w Hw Ht.
  apply (wp_bind _ _ (fun _ w' => NetInv w' /\ nw_transactions w' = ∅)), wp_attempt. unfold wp at 1.
  rewrite read_net_io by apply Hw. cbn [fst snd].
  destruct (fault F OpRead PENDING_REVERT_PATH); [by split|].
  destruct (content_at (nw_disk w) PENDING_REVERT_PATH) as [s|] eqn:Hs; [|by split]. cbn.
  assert (forall w', same_pending w w' -> NetInv w' -> keeps (fun w' => NetInv w' /\ nw_transactions w' = ∅)
    (_ <- attempt (E := string) (F := string) (net_io display_io (remove_file F PENDING_REVERT_PATH)) ;; ret tt) w') as Hrm.
  { intros w' [T _] Hw'. apply wp_bind, wp_attempt. unfold wp, net_io.
    destruct (remove_file F PENDING_REVERT_PATH (nw_disk w')) as [r d] eqn:E.
    apply remove_snapshot in E as [Hf Hr]; [|apply Hw']. cbn.
    split; [|congruence].
    assert (set_disk d w' = set_disk d (set_txns ∅ w')) as -> by (destruct w'; cbn in *; by rewrite T, Ht).
    apply (NetInv_drop_snapshot w' d ∅ Hw' Hf); [|by rewrite map_size_empty; lia|done].
    destruct r; [by left|right; by destruct Hr as [-> _]]. }
  destruct (decode s) as [c|m] eqn:Hd; [|by apply (Hrm w)].
  apply (wp_put_back F pe ae c w (fun _ => ret tt) (fun _ => ret tt)
    (_ <- attempt (E := string) (F := string) (net_io display_io (remove_file F PENDING_REVERT_PATH)) ;; ret tt)
    (fun _ w' => NetInv w' /\ nw_transactions w' = ∅)); [done|exact (ni_snapshot _ Hw s c Hs Hd)|done|..];
  intros msg w' [T _] ?; apply wp_ret; (split; [done|congruence]).
Qed.

Lemma NetInv_reconcile F ae w : NetInv w -> NetInv (reconcile_orphans F ae w).2.
Proof.
  intros Hw. unfold reconcile_orphans. unfold bind at 1. rewrite load_config_plain by apply Hw.
  destruct (ae_connect ae); [|done].
  apply (wp_bind _ _ (fun _ => NetInv)). eapply wp_mono; [|apply sync_ib_spec, Hw]. intros r w' [-> Hb]. apply wp_modify.
  eapply NetInv_pushes; [|exact Hw]. by apply pushes_pushed, pushes_beside.
Qed.

Lemma NetInv_nm_apply F ae w : NetInv w -> NetInv (nm_apply F ae w).2.
Proof.
  intros Hw. unfold nm_apply. unfold bind at 1. rewrite load_config_plain by apply Hw. cbn.
  unfold bind, lift, modify. destruct (ae_connect ae) as [[]|]; [|done].
  eapply NetInv_pushes; [|exact Hw]. apply pushes_pushed, pushes_refl, Hw.
Qed.

Lemma confirm_keeps F id w : NetInv w -> stays w (confirm F id w).2.
Proof.
  intros Hw. unfold confirm, bind, gets. destruct (nw_transactions w !! id) as [t|] eqn:Et; [|by apply stays_pending].
  unfold throw_if. destruct (pt_cancel t); cbn [negb]; [|by apply stays_pending]. unfold ret, attempt.
  pose proof (txn_singleton _ _ _ (ni_one _ Hw) Et) as Es.
  destruct (remove_file F PENDING_REVERT_PATH (nw_disk w)) as [r d] eqn:E.
  apply remove_snapshot in E as [_ Hr]; [|apply Hw].
  assert (delete id (nw_transactions w) = ∅) as Hdel by (rewrite Es; apply delete_singleton_eq).
  destruct r as [[]|e]; [by apply stays_none|]. destruct (is_not_found e); [by apply stays_none|].
  destruct Hr as [-> _]. by apply stays_pending.
Qed.

Lemma push_keeps F ae w : NetInv w -> stays w (reconcile_orphans F ae w).2 /\ stays w (nm_apply F ae w).2.
Proof.
  intros Hw. split.
  - unfold reconcile_orphans. unfold bind at 1. rewrite load_config_plain by apply Hw.
    destruct (ae_connect ae); [|by apply stays_pending].
    apply (wp_bind _ _ (fun _ => stays w)). eapply wp_mono; [|apply sync_ib_spec, Hw]. intros r w' [-> Hb]. apply wp_modify.
    apply stays_pending, pushes_pending, pushes_pushed, pushes_beside, Hb.
  - unfold nm_apply. unfold bind at 1. rewrite load_config_plain by apply Hw. cbn.
    unfold bind, lift, modify. destruct (ae_connect ae) as [[]|]; [|by apply stays_pending].
    apply stays_pending, pushes_pending, pushes_pushed, pushes_refl, Hw.
Qed.

Lemma NetInv_step w w' : net_step w w' -> NetInv w -> NetInv w'.
Proof.
  destruct 1; intros Hw; eauto using NetInv_update, NetInv_confirm, NetInv_reconcile, NetInv_nm_apply.
  - by eapply timer_keeps.
  - by eapply restart_keeps.
Qed.

Lemma NetInv_reachable w w' : NetInv w -> rtc net_step w w' -> NetInv w'.
Proof. intros Hw. induction 1; eauto using NetInv_step. Qed.

(** ** What the snapshot of a pending change holds *)

(** The configuration a call reads; a file that cannot be read counts as the default. *)
Definition config_read (F : Faults) (d : Disk) : NetworkConfig :=
  match fault F OpRead JSON_PATH with Some _ => net_default | None => config_on d end.

(** A step through which transaction [id] stays in the table. *)
Definition kept (id : string) (w w' : NetWorld) : Prop := net_step w w' /\ is_Some (nw_transactions w' !! id).

(** Transaction [id] of [w] was opened, from a world that [init] reaches, by an update that succeeded, has been
    in the table ever since, and the snapshot on disk is the configuration that update found. *)
Definition opened_on (init w : NetWorld) (id : string) : Prop :=
  exists w0 e req mgmt resp w1,
    rtc net_step init w0 /\ update e req mgmt w0 = (Ok resp, w1) /\ us_txn_id resp = Some id /\
    rtc (kept id) w1 w /\ snapshot_of (nw_disk w) (config_read (ne_io e) (nw_disk w0)).

(** A step either opens the transaction or leaves it with its snapshot. *)
Lemma step_opens_or_stays w w' id :
  NetInv w -> net_step w w' -> is_Some (nw_transactions w' !! id) ->
  (exists e req mgmt resp, update e req mgmt w = (Ok resp, w') /\ us_txn_id resp = Some id /\
     snapshot_of (nw_disk w') (config_read (ne_io e) (nw_disk w))) \/ stays w w'.
Proof.
  intros Hw Hs Hid. destruct Hs as [e req mgmt w|F i w|F pe ae i t w Ht Hc|F pe ae w|F ae w|F ae w].
  - pose proof (update_spec e req mgmt w (ni_plain _ Hw)) as [_ Hc]. unfold wp in *.
    destruct (update e req mgmt w) as [r w'] eqn:Hu. cbn in *.
    destruct Hc as [[-> _]|(_ & _ & _ & Hr)]; [right; by apply stays_pending|].
    destruct r as [resp|]; [destruct (us_txn_id resp) as [i|] eqn:Ei|]; [|right; by apply stays_none..].
    left. destruct Hr as (Hs & t & Et & _). rewrite Et in Hid. destruct Hid as [? [<- _]%lookup_singleton_Some].
    by exists e, req, mgmt, resp.
  - right. by apply confirm_keeps.
  - right. by eapply timer_keeps.
  - right. apply stays_none. by apply restart_keeps.
  - right. by apply push_keeps.
  - right. by apply push_keeps.
Qed.

Lemma pending_opened init w :
  NetInv init -> nw_transactions init = ∅ -> rtc net_step init w ->
  forall id, is_Some (nw_transactions w !! id) -> opened_on init w id.
Proof.
  intros Hi He. revert w.
  apply (rtc_ind_r (fun w => forall id, is_Some (nw_transactions w !! id) -> opened_on init w id)).
  all: [> intros id Hid|intros w w' Hr Hs IH id Hid].
  { rewrite He in Hid. by destruct Hid. }
  destruct (step_opens_or_stays w w' id (NetInv_reachable _ _ Hi Hr) Hs Hid) as [(e & req & mgmt & resp & Hu & Ei & Hsn)|[Hb Hp]].
  - exists w, e, req, mgmt, resp, w'. split_and!; [done..|apply rtc_refl|done].
  - destruct (IH _ (Hb _ Hid)) as (w0 & e & req & mgmt & resp & w1 & Hr0 & Hu & Ei & Hk & Hsn).
    exists w0, e, req, mgmt, resp, w1. split_and!; [done..|by eapply rtc_r|].
    eapply snapshot_of_same; [|done]. apply Hp. intros Hn. rewrite Hn in Hid. by destruct Hid.
Qed.

(** C30: Started on a disk of readable files whose stored configurations, if they parse, the validator accepts, and
    whatever calls, disk faults and restarts follow: at most one change awaits confirmation, the stored configuration
    is one the validator accepts, and each change that awaits confirmation was opened by an update that succeeded, has
    been pending since, and the snapshot on disk is the configuration that this update found stored before it (the
    default one when it could not read the file). *)
Theorem network_states_sound (d : Disk) (w : NetWorld) :
  plain d -> stores_accepted d JSON_PATH -> stores_accepted d PENDING_REVERT_PATH ->
  let init := mkNetWorld ∅ 0 d None in
  rtc net_step init w ->
  size (nw_transactions w) <= 1 /\
  accepted (config_on (nw_disk w)) /\
  forall id, is_Some (nw_transactions w !! id) -> opened_on init w id.
Proof.
  intros Hd HJ HP init Hr.
  assert (NetInv init) as Hi by by split; cbn; rewrite ?map_size_empty; try lia.
  pose proof (NetInv_reachable _ _ Hi Hr) as Hw.
  split_and!; [apply Hw|apply config_accepted, Hw|by apply pending_opened].
Qed.

(** ** A pending change *)

(** Transaction [id] is armed and [prev] is the configuration it restores. *)
Definition covers (id : string) (prev : NetworkConfig) (w : NetWorld) : Prop :=
  plain (nw_disk w) /\ snapshot_of (nw_disk w) prev /\
  exists t, nw_transactions w = {[id := t]} /\ pt_cancel t = true.

Lemma update_refused e req mgmt w id t :
  nw_transactions w = {[id := t]} ->
  update e req mgmt w = (Err ("network transaction " ++ id ++ " is still awaiting confirmation"), w).
Proof.
  intros Et. unfold update. cbn zeta. unfold bind at 1, gets. rewrite Et, map_to_list_singleton. done.
Qed.

Lemma covers_pushes id prev w w' : pushes w w' -> covers id prev w -> covers id prev w'.
Proof.
  intros (T & _ & D & K) (_ & Hs & Ht). split_and!; [done| |by rewrite T].
  eapply snapshot_of_same; [|done]. apply K. by right.
Qed.

Lemma covers_waiting id prev w w' : waiting id w w' -> covers id prev w -> covers id prev w'.
Proof.
  destruct 1 as [e req mgmt w|F other w Hne|F ae w|F ae w]; intros Hc; pose proof Hc as (Hd & Hs & t & Et & _).
  - by rewrite (update_refused _ _ _ _ _ _ Et).
  - unfold confirm, bind, gets. rewrite Et, lookup_singleton_ne by done. done.
  - unfold reconcile_orphans. unfold bind at 1. rewrite load_config_plain by done.
    destruct (ae_connect ae); [|done].
    apply (wp_bind _ _ (fun _ => covers id prev)). eapply wp_mono; [|by apply sync_ib_spec].
    intros r w' [-> Hb]. apply wp_modify. eapply covers_pushes; [|exact Hc]. by apply pushes_pushed, pushes_beside.
  - unfold nm_apply. unfold bind at 1. rewrite load_config_plain by done. unfold bind, lift, modify.
    destruct (ae_connect ae) as [[]|]; [|done]. eapply covers_pushes; [|exact Hc]. by apply pushes_pushed, pushes_refl.
Qed.

Lemma covers_update e req mgmt w resp w1 id :
  NetInv w -> fault (ne_io e) OpRead JSON_PATH = None ->
  update e req mgmt w = (Ok resp, w1) -> us_txn_id resp = Some id ->
  covers id (config_on (nw_disk w)) w1 /\ accepted (config_on (nw_disk w)).
Proof.
  intros Hw Hf Hu Hid. split; [|apply config_accepted, Hw].
  pose proof (update_spec e req mgmt w (ni_plain _ Hw)) as [D Hc]. rewrite Hu in *. cbn in *. rewrite Hf, Hid in Hc.
  destruct Hc as [[_ ?]|(_ & _ & _ & Hs & Ht)]; [done|]. by split_and!.
Qed.

Lemma timer_reinstates pe ae id prev w :
  covers id prev w -> accepted prev -> healthy ae ->
  nw_transactions (rollback_timer no_faults pe ae id w).2 = ∅ /\
  reinstated ae prev (rollback_timer no_faults pe ae id w).2.
Proof.
  intros (Hd & Hs & t & Et & _) Ha Hh.
  apply (wp_bind _ _ (fun _ w' => nw_transactions w' = ∅ /\ reinstated ae prev w')), wp_gets.
  rewrite Et, lookup_singleton_eq. apply wp_bind, wp_modify, wp_bind, wp_attempt.
  eapply wp_mono; [|by apply (perform_rollback_ok pe ae prev)]. cbn. rewrite Et, alter_singleton_eq.
  intros r w' (-> & T & D & R). apply wp_modify. rewrite T. cbn. by rewrite delete_singleton_eq.
Qed.

(** C1: A change made with a rollback window and not confirmed is taken back, provided the update could read the
    stored configuration and, at the moment of the rollback, no disk call fails and NetworkManager answers and takes
    the profiles. Whatever updates, confirmations of other transactions and pushes, with any disk faults, come in
    between, when the timer then fires, and also when the engine is restarted instead, the configuration stored and the
    profiles pushed are those of the configuration before the change, and nothing is left pending. *)
Theorem unconfirmed_change_reverts e req mgmt w resp w1 id w2 pe ae :
  NetInv w -> fault (ne_io e) OpRead JSON_PATH = None ->
  update e req mgmt w = (Ok resp, w1) -> us_txn_id resp = Some id ->
  rtc (waiting id) w1 w2 -> healthy ae ->
  let timed_out := (rollback_timer no_faults pe ae id w2).2 in
  let restarted := (restore_pending_revert no_faults pe ae (restart w2)).2 in
  (nw_transactions timed_out = ∅ /\ reinstated ae (config_on (nw_disk w)) timed_out) /\
  (nw_transactions restarted = ∅ /\ reinstated ae (config_on (nw_disk w)) restarted).
Proof.
  intros Hw Hf Hu Hid Hr Hh. destruct (covers_update _ _ _ _ _ _ _ Hw Hf Hu Hid) as [Hc Ha].
  assert (covers id (config_on (nw_disk w)) w2) as Hc2.
  { clear -Hr Hc. induction Hr; eauto using covers_waiting. }
  split; [by apply timer_reinstates|]. destruct Hc2 as (Hd & Hs & _).
  by destruct (restore_ok pe ae (config_on (nw_disk w)) (restart w2)) as (_ & ? & ?).
Qed.

(** Confirming a pending change keeps it for good: the confirmation succeeds, the stored configuration
    stays, nothing is pending, the timer finds nothing to do and a restart restores nothing. *)
Theorem confirmed_change_stays w id t pe ae :
  NetInv w -> nw_transactions w !! id = Some t -> pt_cancel t = true ->
  let w' := (confirm no_faults id w).2 in
  (confirm no_faults id w).1 = Ok tt /\ config_on (nw_disk w') = config_on (nw_disk w) /\
  pending w' = [] /\ rollback_timer no_faults pe ae id w' = (Ok tt, w') /\
  restore_pending_revert no_faults pe ae (restart w') = (Ok tt, restart w').
Proof.
  intros Hw Et Hc. pose proof (txn_singleton _ _ _ (ni_one _ Hw) Et) as Es.
  destruct (ni_covered _ Hw) as [f Hf]. { rewrite Es. apply map_non_empty_singleton. }
  assert (confirm no_faults id w = (Ok tt, set_txns ∅ (set_disk (delete PENDING_REVERT_PATH (nw_disk w)) w))) as E.
  { unfold confirm, bind, gets. rewrite Et, Hc. cbn [negb throw_if]. unfold ret, attempt.
    rewrite (remove_file_no_faults _ _ _ Hf). unfold modify. cbn. by rewrite Es, delete_singleton_eq. }
  cbn zeta. rewrite E. cbn [fst snd]. split_and!; [done|by apply config_on_delete|done|done|].
  unfold restore_pending_revert, bind, attempt. rewrite read_net_io by (cbn; apply plain_delete, Hw). cbn.
  unfold content_at. by rewrite lookup_delete_eq.
Qed.

(** While a change awaits confirmation, or a snapshot of one awaits recovery, every further
    update is refused and changes nothing. *)
Theorem one_change_at_a_time e req mgmt w :
  nw_transactions w <> ∅ \/
  (fault (ne_io e) OpStat PENDING_REVERT_PATH = None /\ is_Some (nw_disk w !! PENDING_REVERT_PATH)) ->
  exists msg, update e req mgmt w = (Err msg, w).
Proof.
  intros Hor. unfold update. cbn zeta. unfold bind at 1, gets.
  destruct ((map_to_list (nw_transactions w)).*1) eqn:Et; [|by eexists].
  apply fmap_nil_inv, map_to_list_empty_iff in Et. destruct Hor as [?|[Hf [f Hp]]]; [done|].
  unfold bind at 1, path_exists. rewrite Hf, Hp. by eexists.
Qed.

End NetworkTxn.

(** ** Risk *)

Lemma first_some_None {A B} (f : A -> option B) l : first_some f l = None <-> forall x, x ∈ l -> f x = None.
Proof.
  induction l as [|x l IH]; cbn; [split; [by intros _ y ?%not_elem_of_nil|done]|].
  setoid_rewrite elem_of_cons. destruct (f x) eqn:E; [|rewrite IH; naive_solver].
  split; [done|]. intros Hx. rewrite (Hx x) in E; auto.
Qed.

Lemma or_else_None {A} (a b : option A) : or_else a b = None <-> a = None /\ b = None.
Proof. destruct a; naive_solver. Qed.

Lemma some_if_None b s : some_if b s = None <-> b = false.
Proof. by destruct b. Qed.

Lemma lists_spec m ms : lists m ms = true <-> m ∈ ms.
Proof.
  unfold lists. rewrite existsb_exists. setoid_rewrite <- list_elem_of_In. setoid_rewrite eqb_spec.
  naive_solver.
Qed.

Lemma and_iff (A B C D : Prop) : (A <-> B) -> (C <-> D) -> (A /\ C <-> B /\ D).
Proof. tauto. Qed.

Section RiskSpec.
Context (mgmt : string).

(** The masters of one kind: a master that lists the interface had it before,
    and one that is the interface or held it does not go away. *)
Definition masters_kept {A} (name : A -> string) (members : A -> list string) (before after : list A) : Prop :=
  (forall n, n ∈ after -> mgmt ∈ members n ->
     exists p, collect_map name id before !! name n = Some p /\ mgmt ∈ members p) /\
  (forall p, p ∈ before -> name p = mgmt \/ mgmt ∈ members p -> is_Some (collect_map name id after !! name p)).

Lemma masters_kept_spec {A} (name : A -> string) (members : A -> list string) what before after :
  enslaved_by mgmt name members what before after = None /\
  released_by mgmt name members what before after = None <->
  masters_kept name members before after.
Proof.
  unfold enslaved_by, released_by, masters_kept. cbn zeta. rewrite !first_some_None.
  apply and_iff; apply forall_proper; intros x; apply forall_proper; intros Hx.
  - rewrite some_if_None, andb_false_iff, negb_false_iff.
    rewrite <- lists_spec. destruct (collect_map name id before !! name x) as [p|] eqn:E.
    + rewrite lists_spec. destruct (lists mgmt (members x)) eqn:El; naive_solver.
    + destruct (lists mgmt (members x)); naive_solver.
  - destruct (collect_map name id after !! name x) as [n|] eqn:E; cbn [is_some]; [naive_solver|].
    destruct (name x =s mgmt) eqn:En.
    + apply eqb_spec in En. split; [done|]. intros Hs. destruct Hs as [? ?]; [by left|done].
    + apply eqb_neq_spec in En. rewrite some_if_None, <- not_true_iff_false, lists_spec.
      split; [|intros Hs ?; destruct Hs as [? ?]; [by right|done]]. intros Hs [?|?]; done.
Qed.

(** The entry of the interface itself keeps its addresses and MTU and is not
    switched off or removed. *)
Definition entry_kept (prev next : NetworkConfig) : Prop :=
  forall p, find_iface mgmt prev = Some p ->
  exists n, find_iface mgmt next = Some n /\ if_ipv4 n = if_ipv4 p /\ if_ipv6 n = if_ipv6 p /\
            if_mtu n = if_mtu p /\ (if_enabled p = true -> if_enabled n = true).

Lemma entry_kept_spec prev next : iface_risk prev next mgmt = None <-> entry_kept prev next.
Proof.
  unfold iface_risk, entry_kept. destruct (find_iface mgmt prev) as [p|]; [|by destruct (find_iface mgmt next)].
  destruct (find_iface mgmt next) as [n|].
  2: { split; [done|]. intros Hp. by destruct (Hp p eq_refl) as (? & ? & _). }
  rewrite !or_else_None, !some_if_None, orb_false_iff, andb_false_iff, !negb_false_iff, !bool_decide_eq_true.
  split.
  - intros ([E4 E6] & Em & Ee). intros ? [= <-]. exists n. split_and!; try done.
    intros Hp. by destruct Ee as [Ee|Ee]; rewrite ?Ee in *.
  - intros Hp. destruct (Hp p eq_refl) as (? & [= <-] & ? & ? & ? & ?). split_and!; try done.
    destruct (if_enabled p), (if_enabled n); auto.
Qed.

End RiskSpec.

Lemma and_5 (A B C D E : Prop) : A /\ B /\ C /\ D /\ E <-> C /\ (A /\ D) /\ (B /\ E).
Proof. tauto. Qed.

(** The risk classifier is exact. Knowing the management interface, it lets a change through without
    a rollback window just when the entry of that interface keeps its addresses and MTU and stays on, no
    bridge or bond takes it in, and no bridge or bond that is it or holds it goes away; not knowing it,
    just when bonds, bridges and VLANs are unchanged. *)
Theorem risk_classifier_exact (prev next : NetworkConfig) (mgmt : option string) :
  classify_risk prev next mgmt = None <->
  match mgmt with
  | Some m => entry_kept m prev next /\
              masters_kept m br_name br_members (nc_bridges prev) (nc_bridges next) /\
              masters_kept m bo_name bo_members (nc_bonds prev) (nc_bonds next)
  | None => nc_bonds prev = nc_bonds next /\ nc_bridges prev = nc_bridges next /\ nc_vlans prev = nc_vlans next
  end.
Proof.
  unfold classify_risk. destruct mgmt as [m|].
  - rewrite !or_else_None, entry_kept_spec, and_5, !masters_kept_spec. done.
  - rewrite some_if_None, !orb_false_iff, !negb_false_iff, !bool_decide_eq_true. tauto.
Qed.

Lemma collect_map_fmap {A} (name : A -> string) (g : A -> A) (l : list A) x :
  (forall a, name (g a) = name a) ->
  collect_map name id (g <$> l) !! x = g <$> collect_map name id l !! x.
Proof.
  intros Hg. unfold collect_map. induction l as [|a l IH] using rev_ind; [done|].
  rewrite fmap_app, !fold_left_app. cbn. rewrite Hg.
  destruct (decide (name a = x)) as [<-|]; [by rewrite !lookup_insert_eq|by rewrite !lookup_insert_ne].
Qed.

Lemma collect_map_elem {A} (name : A -> string) (l : list A) a :
  a ∈ l -> exists b, collect_map name id l !! name a = Some b.
Proof.
  unfold collect_map. induction l as [|c l IH] using rev_ind; [by intros ?%not_elem_of_nil|].
  rewrite fold_left_app. cbn. intros Ha. destruct (decide (name c = name a)) as [->|].
  - rewrite lookup_insert_eq. eauto.
  - rewrite lookup_insert_ne by done. apply IH. set_solver.
Qed.

Definition set_bridges (bs : list BridgeConfig) (c : NetworkConfig) : NetworkConfig :=
  mkNet (nc_interfaces c) (nc_dns c) (nc_bonds c) (nc_vlans c) bs (nc_macvlans c).

(** Change the addresses of every bridge. *)
Definition readdress (f : IpConfig -> IpConfig) (b : BridgeConfig) : BridgeConfig :=
  mkBridge (br_name b) (br_members b) (f (br_ipv4 b)) (f (br_ipv6 b)) (br_mtu b) (br_stp b)
    (br_forward_delay_s b) (br_inherit_member_mac b).

Lemma masters_kept_readdress m f l :
  NoDup (br_name <$> l) -> masters_kept m br_name br_members l (readdress f <$> l).
Proof.
  intros Hn. split.
  - intros n (b & -> & Hb)%list_elem_of_fmap Hm. cbn in *. exists b. split; [|done].
    destruct (collect_map_elem br_name l b Hb) as [b' Hb']. rewrite Hb'. f_equal.
    assert (b' ∈ l /\ br_name b' = br_name b) as [Hin Hname].
    { clear -Hb'. revert Hb'. unfold collect_map. induction l as [|c l IH] using rev_ind; [done|].
      rewrite fold_left_app. cbn. intros [[? <-]|[_ ?]]%lookup_insert_Some; [set_solver|].
      destruct IH as [? ?]; [done|]. set_solver. }
    apply list_elem_of_lookup in Hb as [i Hi]. apply list_elem_of_lookup in Hin as [j Hj].
    assert (i = j) as ->; [|congruence].
    apply (NoDup_lookup (br_name <$> l) i j (br_name b)); [done|..]; rewrite list_lookup_fmap;
      [by rewrite Hi|rewrite Hj; cbn; by rewrite Hname].
  - intros p Hp _. rewrite collect_map_fmap by done.
    destruct (collect_map_elem br_name l p Hp) as [b ->]. by eexists.
Qed.

Lemma masters_kept_refl {A} m (name : A -> string) (members : A -> list string) l :
  NoDup (name <$> l) -> masters_kept m name members l l.
Proof.
  intros Hn. assert (forall a, a ∈ l -> collect_map name id l !! name a = Some a) as Hl.
  { unfold collect_map. induction l as [|c l IH] using rev_ind; [by intros a ?%not_elem_of_nil|].
    rewrite fold_left_app. cbn. rewrite fmap_app in Hn. apply list.NoDup_app in Hn as (Hn & Hd & _).
    intros a [Ha|Ha]%elem_of_app.
    - rewrite lookup_insert_ne; [by apply IH|]. intros E. apply (Hd (name a)); [by apply list_elem_of_fmap_2|].
      rewrite <- E. cbn. set_solver.
    - apply list_elem_of_singleton in Ha as ->. by rewrite lookup_insert_eq. }
  split; [intros n Hn' Hm; exists n; auto|intros p Hp _; rewrite Hl by done; eauto].
Qed.

(** A change of the addresses of bridges alone is never flagged, also when the management
    interface is the bridge itself, which is what [mgmt_iface_for_peer] answers for a client that
    comes in over an enslaved port: such an update gets no rollback window unless it asks for one. *)
Theorem bridge_address_change_unflagged (c : NetworkConfig) (m : string) (f : IpConfig -> IpConfig) :
  NoDup (br_name <$> nc_bridges c) -> NoDup (bo_name <$> nc_bonds c) ->
  let next := set_bridges (readdress f <$> nc_bridges c) c in
  classify_risk c next (Some m) = None /\ rollback_window None (classify_risk c next (Some m)) = None.
Proof.
  intros Hb Ho. cbn zeta. set (next := set_bridges _ c).
  assert (classify_risk c next (Some m) = None) as ->; [|done].
  unfold classify_risk. rewrite !or_else_None, entry_kept_spec, and_5, !masters_kept_spec.
  split_and!; [intros p Hp; exists p; auto|by apply masters_kept_readdress|by apply masters_kept_refl].
Qed.

(** ** Inherited addresses *)

(** An addressing that a bridge may end up with. *)
Definition concrete (v6 : bool) (ip : IpConfig) : Prop :=
  match ip_method ip with
  | Inherit => False
  | Slaac => v6 = true
  | Static => ip_addresses ip <> []
  | Dhcp | Disabled => True
  end.

Lemma prior_ip_concrete prev v6 m ip : prior_ip prev v6 m = Some ip -> concrete v6 ip.
Proof.
  unfold prior_ip, concrete. destruct (find_iface m prev) as [i|]; [|done].
  set (q := if v6 then if_ipv6 i else if_ipv4 i). clearbody q.
  destruct (ip_method q) eqn:Em; [by intros [= <-]| |by destruct v6; intros [= <-]|done..].
  case_bool_decide; [done|]. intros [= <-]. by rewrite Em.
Qed.

Lemma resolve_inherit_one_concrete ms prev live v6 : concrete v6 (resolve_inherit_one ms prev live v6).
Proof.
  induction ms as [|m ms IH]; [done|]. cbn.
  destruct (prior_ip prev v6 m) as [ip|] eqn:E; [by eapply prior_ip_concrete|].
  destruct (negb v6 && is_dhcp_managed_v4 live m); [done|]. by destruct (addrs live m v6).
Qed.

(** After inheritance is resolved no bridge is left inheriting: what replaces it is DHCP, SLAAC (in
    IPv6 only), nothing, or a static configuration with at least one address; settings
    that do not inherit are kept. *)
Theorem inheritance_resolved (config prev : NetworkConfig) (live : LiveTopology) (b : BridgeConfig) :
  b ∈ nc_bridges (resolve_inherit config prev live) ->
  exists b0, b0 ∈ nc_bridges config /\ br_name b = br_name b0 /\ br_members b = br_members b0 /\
  (if bool_decide (ip_method (br_ipv4 b0) = Inherit) then concrete false (br_ipv4 b) else br_ipv4 b = br_ipv4 b0) /\
  (if bool_decide (ip_method (br_ipv6 b0) = Inherit) then concrete true (br_ipv6 b) else br_ipv6 b = br_ipv6 b0).
Proof.
  intros (b0 & -> & Hb0)%list_elem_of_fmap. exists b0. cbn.
  split_and!; try done; case_bool_decide; auto using resolve_inherit_one_concrete.
Qed.

(** ** A peer with an IPv6 address *)

(** The management interface of a client with an IPv6 address and no port is looked up for a
    truncated address: the last group is taken for a port. *)
Theorem ipv6_peer_truncated (route_get master : string -> option string) :
  mgmt_iface_for_peer route_get master "2001:db8::5" =
  walk_to_topmost_master master <$> route_get "2001:db8:".
Proof. reflexivity. Qed.

(** ** A rejected update *)

Section Rejected.
Context `{UuidV5} `{!Codec NetworkConfig} `{!Codec LayeredConfig}.

(** An update with a rollback window whose configuration the validator rejects returns the
    rejection but leaves the snapshot it took first: no transaction can be confirmed, and every later
    update is refused as if a rollback were pending, until a restart removes the snapshot. *)
Theorem rejected_update_blocks_updates e req mgmt w config s s' secs msg :
  plain (nw_disk w) -> nw_transactions w = ∅ -> nw_disk w !! PENDING_REVERT_PATH = None ->
  ne_io e = no_faults -> validate_request (ur_config req) mgmt = Ok tt ->
  prepare e (ur_config req) (config_on (nw_disk w)) = Ok config ->
  rollback_window (ur_confirm_within_secs req) (classify_risk (config_on (nw_disk w)) config mgmt) = Some secs ->
  encode (config_on (nw_disk w)) = Ok s -> encode config = Ok s' ->
  validate (to_layered config) = Err msg ->
  exists w', update e req mgmt w = (Err ("network config rejected by validator: " ++ msg), w') /\
    config_on (nw_disk w') = config_on (nw_disk w) /\ pending w' = [] /\
    (forall F id, is_ok (confirm F id w').1 = false) /\
    forall e2 req2 mgmt2, fault (ne_io e2) OpStat PENDING_REVERT_PATH = None ->
      update e2 req2 mgmt2 w' =
      (Err "a pending network rollback snapshot requires recovery before another update", w').
Proof.
  intros Hd Ht Hp Hio Hv Hprep Hwin Hs Hs' Hrej.
  assert (map_to_list (nw_transactions w) = []) as Hl by (rewrite Ht; apply map_to_list_empty).
  destruct (atomic_write no_faults PENDING_REVERT_PATH s (nw_disk w)) as [r d1] eqn:Hw.
  pose proof (atomic_write_no_faults PENDING_REVERT_PATH s (nw_disk w) Hd) as Hok.
  pose proof (atomic_write_content no_faults PENDING_REVERT_PATH s (nw_disk w) r d1 Hd ltac:(done) Hw) as Hc.
  pose proof (keeps_atomic_write (fun p => p = JSON_PATH) (nw_disk w) no_faults PENDING_REVERT_PATH s (nw_disk w)
      ltac:(done) ltac:(done) (framed_refl _ _ Hd)) as [_ HJ].
  rewrite Hw in Hok, HJ. cbn in Hok, HJ. destruct r as [[]|]; [|done]. exists (set_disk d1 w). split_and!.
  - unfold update, path_exists, persist_config, net_io, throw_if, ret, lift, gets. cbn zeta. rewrite Hio.
    unfold bind. rewrite Hl. cbn [fst snd fmap list_fmap fault no_faults]. rewrite Hp. cbn [is_some].
    rewrite Hv, load_config_plain by done. cbn [fault no_faults]. rewrite Hprep, Hwin, Hs. cbn [map_err].
    rewrite Hw. cbn [map_err]. rewrite Hs'. cbn [map_err]. by rewrite Hrej.
  - unfold config_on, content_at. cbn. by rewrite HJ.
  - unfold pending. cbn. by rewrite Hl.
  - intros F id. unfold confirm, bind, gets. cbn. by rewrite Ht, lookup_empty.
  - intros e2 req2 mgmt2 Hf. unfold update, bind, gets, path_exists. cbn. rewrite Hl, Hf. cbn.
    unfold content_at in Hc. by destruct (d1 !! PENDING_REVERT_PATH).
Qed.

End Rejected.
