(* ===== verification/NetworkWitness.v ===== *)
(** * Network: the theorems applied

    A box with one DHCP interface whose operator bridges it, with a serialiser
    of the few configurations that occur. *)
From Stdlib Require Import String Ascii ZArith.
From stdpp Require Import base list gmap strings numbers relations.
From S2P Require Import Prelude RustStr Disk StateStore Layered LayeredProps Records Nm NetworkCheck Network NetworkProps NetworkTxn NmDbus NmDbusProps.

Open Scope string_scope.
Open Scope rust_scope.

Module NetExample.

Definition dhcp : IpConfig := mkIp Dhcp [] None.
Definition eth0 : InterfaceConfig := mkIface "eth0" true dhcp ip_default None None [].
Definition before : NetworkConfig := mkNet [eth0] ["9.9.9.9"] [] [] [] [].
Definition br0 (ip : IpConfig) (members : list string) : BridgeConfig :=
  mkBridge "br0" members ip ip_default None false None true.
Definition bridged (ip : IpConfig) : NetworkConfig := mkNet [eth0] ["9.9.9.9"] [] [] [br0 ip ["eth0"]] [].
Definition asked : NetworkConfig := bridged (mkIp Inherit [] None).
Definition after : NetworkConfig := bridged dhcp.
Definition broken : NetworkConfig := mkNet [eth0] [] [] [] [br0 ip_default ["br0"]] [].

#[export] Instance uuid_example : UuidV5 := fun name => "uuid-" ++ name.

#[export] Instance config_codec : Codec NetworkConfig := {
  encode c := if decide (c = before) then Ok "before"
              else if decide (c = after) then Ok "after"
              else if decide (c = broken) then Ok "broken"
              else Err "not printed";
  decode s := if s =s "before" then Ok before
              else if s =s "after" then Ok after
              else if s =s "broken" then Ok broken
              else Err "not parsed"
}.

#[export] Instance config_codec_laws : CodecLaws NetworkConfig.
Proof. intros c s. cbn. repeat case_decide; intros [= <-]; subst; reflexivity. Qed.

#[export] Instance layered_codec : Codec LayeredConfig := {
  encode _ := Ok "layered";
  decode _ := Err "not parsed"
}.

Definition nic : LiveInterface :=
  mkLive "eth0" "02:00:00:00:00:01" true None true [] [] 1500 "physical" None None None None.

Definition nm_up : ApplyEnv := mkApplyEnv [nic] (Ok tt) (fun _ => Ok (mkOutcome [] [] [] [] [] [])).
Definition times : PersistEnv := mkPersistEnv 1700000000 (fun _ => 0%Z).
Definition env : NetEnv :=
  mkNetEnv no_faults topology_default [nic] times nm_up nm_up 1700000000 1700000000.

Definition disk0 : Disk := {[JSON_PATH := mkFile Regular 420 engine_uid "before"]}.
Definition world0 : NetWorld := mkNetWorld ∅ 0 disk0 None.
Definition request : UpdateRequest := mkUpdateRequest asked None.
Definition world1 : NetWorld := (update env request (Some "eth0") world0).2.
Definition txn : string := "6553f100-0".

Lemma world0_inv : NetInv world0.
Proof.
  split.
  - intros p f Hf. cbn in Hf. unfold disk0 in Hf. apply lookup_singleton_Some in Hf as [_ <-]. reflexivity.
  - cbn. rewrite map_size_empty. lia.
  - intros Hne. by destruct Hne.
  - intros s c Hs Hc. vm_compute in Hs. simplify_eq. vm_compute in Hc. simplify_eq. vm_compute. reflexivity.
  - intros s c Hs. vm_compute in Hs. done.
Qed.

Lemma healthy_up : healthy nm_up.
Proof. by split. Qed.

End NetExample.
Import NetExample.

Lemma layered_round_trip_witness : from_layered (to_layered after) = after.
Proof.
  apply (layered_round_trip after).
  - vm_compute. repeat constructor; set_solver.
  - intros b m Hb. by apply not_elem_of_nil in Hb.
  - intros b m Hb Hm. apply list_elem_of_singleton in Hb as ->. apply list_elem_of_singleton in Hm as ->.
    vm_compute. apply elem_of_cons. by left.
Defined.

(** The interface taken into the bridge: its profile has the bridge as controller and no address. *)
Definition port_profile : NmConnection :=
  List.hd (mkNm "" "" NmEthernet "" None None None None [] None true nm_ip_default nm_ip_default TsNone)
    (to_nm_profiles_with_macs (to_layered after) (apply_context nm_up None)).

Lemma profiles_follow_topology_witness :
  nm_controller port_profile = Some "br0" /\
  addressing (nm_ipv4 port_profile) (nm_ipv6 port_profile) = (NmDisabled, [], (NmDisabled, [])).
Proof.
  destruct (profiles_follow_topology (to_layered after) (apply_context nm_up None) port_profile)
    as (l & _ & _ & _ & Hc); [vm_compute; reflexivity|vm_compute; apply elem_of_cons; by left|].
  assert (nm_controller port_profile = Some "br0") as Hb by reflexivity.
  rewrite Hb in Hc. destruct Hc as [_ Ha]. split; [exact Hb|exact Ha].
Defined.

Lemma network_states_sound_witness :
  rtc net_step world0 world1 /\ is_Some (nw_transactions world1 !! txn) /\ opened_on world0 world1 txn /\
  accepted (config_on (nw_disk world1)).
Proof.
  assert (rtc net_step world0 world1) as Hr by (apply rtc_once; apply SUpdate).
  destruct (network_states_sound disk0 world1) as (H1 & H2 & H3);
    [apply world0_inv|apply world0_inv|apply world0_inv|exact Hr|].
  assert (is_Some (nw_transactions world1 !! txn)) as Ht by (vm_compute; eexists; reflexivity).
  split; [exact Hr|]. split; [exact Ht|]. split; [exact (H3 txn Ht)|exact H2].
Defined.

Lemma unconfirmed_change_reverts_witness :
  config_on (nw_disk world1) = after /\
  reinstated nm_up before (rollback_timer no_faults times nm_up txn world1).2 /\
  reinstated nm_up before (restore_pending_revert no_faults times nm_up (restart world1)).2.
Proof.
  destruct (update env request (Some "eth0") world0) as [r w1] eqn:E.
  assert (world1 = w1) as Hw by (unfold world1; by rewrite E).
  assert (exists resp, r = Ok resp /\ us_txn_id resp = Some txn) as (resp & -> & Hid).
  { assert (r = (update env request (Some "eth0") world0).1) as -> by by rewrite E.
    eexists. split; vm_compute; reflexivity. }
  split; [vm_compute; reflexivity|]. rewrite Hw.
  destruct (unconfirmed_change_reverts env request (Some "eth0") world0 resp w1 txn w1 times nm_up
    world0_inv eq_refl E Hid (rtc_refl _ _) healthy_up) as [[_ H1] [_ H2]].
  split; [exact H1|exact H2].
Defined.

Lemma confirmed_change_stays_witness :
  config_on (nw_disk (confirm no_faults txn world1).2) = after.
Proof.
  assert (NetInv world1) as Hi by (apply NetInv_update, world0_inv).
  destruct (nw_transactions world1 !! txn) as [t|] eqn:Et; [|vm_compute in Et; discriminate Et].
  assert (pt_cancel t = true) as Hc by (vm_compute in Et; by simplify_eq).
  destruct (confirmed_change_stays world1 txn t times nm_up Hi Et Hc) as (_ & H2 & _).
  etransitivity; [exact H2|]. vm_compute. reflexivity.
Defined.

Lemma one_change_at_a_time_witness : exists msg, update env request None world1 = (Err msg, world1).
Proof.
  apply one_change_at_a_time. left. intros E. vm_compute in E. discriminate E.
Defined.

Lemma bridge_address_change_unflagged_witness :
  rollback_window None
    (classify_risk after (set_bridges (readdress (fun _ => mkIp Static ["10.0.0.9/24"] None) <$> nc_bridges after) after)
       (Some "br0")) = None.
Proof.
  apply (bridge_address_change_unflagged after "br0" (fun _ => mkIp Static ["10.0.0.9/24"] None));
    vm_compute; repeat constructor; set_solver.
Defined.

Lemma inheritance_resolved_witness :
  exists b, b ∈ nc_bridges (resolve_inherit asked before topology_default) /\ br_ipv4 b = dhcp.
Proof.
  exists (br0 dhcp ["eth0"]).
  assert (br0 dhcp ["eth0"] ∈ nc_bridges (resolve_inherit asked before topology_default)) as Hb
    by (vm_compute; apply elem_of_cons; by left).
  split; [exact Hb|]. destruct (inheritance_resolved asked before topology_default (br0 dhcp ["eth0"]) Hb)
    as (b0 & _ & _ & _ & _). reflexivity.
Defined.

(** The rejected update and the one after it. *)
Lemma rejected_update_blocks_updates_witness :
  exists w', (update env (mkUpdateRequest broken (Some 60%Z)) (Some "eth0") world0).2 = w' /\
    is_ok (update env request (Some "eth0") w').1 = false.
Proof.
  destruct (rejected_update_blocks_updates env (mkUpdateRequest broken (Some 60%Z)) (Some "eth0") world0 broken
    "before" "broken" 60%Z "link 'br0' enslaves itself") as (w' & E & _ & _ & _ & Hblocked);
    [apply world0_inv|reflexivity|vm_compute; reflexivity..|].
  exists w'. split; [by rewrite E|]. by rewrite (Hblocked env request (Some "eth0") eq_refl).
Defined.

(** *** NetworkManager's side: a connection of the operator's and a stale one of the engine's. *)

Module NmExample.

#[export] Instance no_ipv6 : Ipv6Parser := fun _ => None.
#[export] Instance debug_example : ValueDebug :=
  fun v => match v with VStr s => "Str" ++ s | _ => "other" end.

Definition nm_ok : NmEnv :=
  mkNmEnv None (fun _ => None) (fun _ => None) (fun _ => None) (fun _ => None) (fun _ => Ok None) (fun _ _ => None).
Definition foreign : SettingsDict := {["connection" := {["id" := VStr "office wifi"]}]}.
Definition stale : SettingsDict := {["connection" := {["id" := VStr "nasty-old0"]}]}.
Definition nm_world : NmWorld := mkNmWorld {[1 := foreign; 2 := stale]} 3 [].

Lemma nm_world_numbered : numbered_below nm_world.
Proof.
  intros n s. cbn. intros [[<- _]|[_ [<- _]%lookup_singleton_Some]]%lookup_insert_Some; cbn; lia.
Qed.

End NmExample.
Import NmExample.

Lemma foreign_connections_untouched_witness :
  nmw_connections (apply_profiles nm_ok (desired_profiles [nic] (apply_context nm_up None) after) nm_world).2 !! 1
  = Some foreign.
Proof.
  apply foreign_connections_untouched; [exact nm_world_numbered|reflexivity|vm_compute; reflexivity].
Defined.

Lemma accepted_config_converges_witness :
  is_ok (apply_profiles nm_ok (desired_profiles [nic] (apply_context nm_up None) after) nm_world).1 = true /\
  nmw_connections (apply_profiles nm_ok (desired_profiles [nic] (apply_context nm_up None) after) nm_world).2 !! 2 = None.
Proof.
  assert (found nm_ok nm_world = [mkExisting 2 "nasty-old0" stale]) as Hf by (vm_compute; reflexivity).
  split; [|vm_compute; reflexivity].
  apply (accepted_config_converges nm_ok [nic] (apply_context nm_up None) after nm_world).
  - vm_compute. reflexivity.
  - by split.
  - exact nm_world_numbered.
  - rewrite Hf. repeat constructor. set_solver.
  - intros d ex _ Hex. rewrite Hf in Hex. apply list_elem_of_singleton in Hex as ->.
    intros va vb _ (name & m & k & Hm & Hk). cbn in Hm. unfold stale in Hm.
    apply lookup_singleton_Some in Hm as [_ <-]. apply lookup_singleton_Some in Hk as [_ <-].
    destruct va; try discriminate. intros E. change ("Str" ++ s = "Str" ++ "nasty-old0") in E. apply append_inj_l in E. by rewrite E.
Defined.
