(* ===== verification/BackupJobs.v ===== *)
(** * Backup jobs: nasty-backup/src/jobs.rs and the [start_*] wrappers of lib.rs

    The registry of background jobs, the tasks spawned for them and the monitor
    that ends a job whose task died. Each registry call holds the lock, so it is
    one step; a task is its position in the body of its [async] block.

    ** Backup jobs: correctness

    The life cycle of jobs under every interleaving of requests, tasks that
    finish or die, and monitors. *)
From Stdlib Require Import String Ascii ZArith QArith.
From stdpp Require Import base list gmap strings numbers relations.
From S2P Require Import Prelude RustStr.

Open Scope string_scope.
Open Scope rust_scope.
Open Scope nat_scope.

(** [chrono]'s RFC 3339 texts of instants (in nanoseconds). *)
Class Rfc3339 := {
  to_rfc3339 : Z -> string;
  parse_rfc3339 : string -> option Z
}.
Class Rfc3339Laws `{Rfc3339} : Prop :=
  parse_print : forall t, parse_rfc3339 (to_rfc3339 t) = Some t.

Inductive BackupJobKind := InitRepo | RunBackup | CheckRepo | Restore.

Inductive BackupJobState := Pending | Running | Succeeded | Failed.

#[export] Instance BackupJobState_eq_dec : EqDecision BackupJobState.
Proof. solve_decision. Defined.

Definition is_terminal (s : BackupJobState) : bool :=
  match s with Succeeded | Failed => true | _ => false end.

(** The payload of a finished job is JSON, kept as its text. *)
Record BackupJob := mkJob {
  jb_id : string;
  jb_profile_id : string;
  jb_kind : BackupJobKind;
  jb_state : BackupJobState;
  jb_created_at : string;
  jb_started_at : option string;
  jb_finished_at : option string;
  jb_progress : option string;
  jb_progress_fraction : option Q;
  jb_result : option string;
  jb_error : option string
}.

Definition active (j : BackupJob) : bool := negb (is_terminal (jb_state j)).

Inductive JobError := AlreadyRunning (profile_id job_id : string).

Abbreviation Jobs := (gmap string BackupJob).

(** [JOB_RETENTION], one hour. *)
Definition JOB_RETENTION : Z := 3600000000000.

Definition UNEXPECTED_TASK_ERROR : string := "Backup operation stopped unexpectedly; retry the operation".

Section Registry.
Context `{Rfc3339}.

(** [BackupJob::new]. *)
Definition new_job (uuid : string) (now : Z) (profile_id : string) (kind : BackupJobKind) : BackupJob :=
  mkJob uuid profile_id kind Pending (to_rfc3339 now) None None None None None None.

Definition retained (now : Z) (j : BackupJob) : bool :=
  if negb (is_terminal (jb_state j)) then true
  else match jb_finished_at j ≫= parse_rfc3339 with
       | Some ts => (now - JOB_RETENTION <? ts)%Z
       | None => true
       end.

Definition gc_locked (now : Z) (m : Jobs) : Jobs := filter (fun kv => retained now kv.2 = true) m.

Definition start (uuid : string) (now : Z) (profile_id : string) (kind : BackupJobKind) (m : Jobs)
    : result BackupJob JobError * Jobs :=
  let m := gc_locked now m in
  match List.find (fun j => (jb_profile_id j =s profile_id) && active j) ((map_to_list m).*2) with
  | Some existing => (Err (AlreadyRunning profile_id (jb_id existing)), m)
  | None => let job := new_job uuid now profile_id kind in (Ok job, <[uuid := job]> m)
  end.

Definition set_running (now : Z) (j : BackupJob) : BackupJob :=
  mkJob (jb_id j) (jb_profile_id j) (jb_kind j) Running (jb_created_at j) (Some (to_rfc3339 now))
    (jb_finished_at j) (jb_progress j) (jb_progress_fraction j) (jb_result j) (jb_error j).
Definition set_succeeded (now : Z) (result : string) (j : BackupJob) : BackupJob :=
  mkJob (jb_id j) (jb_profile_id j) (jb_kind j) Succeeded (jb_created_at j) (jb_started_at j)
    (Some (to_rfc3339 now)) (jb_progress j) (jb_progress_fraction j) (Some result) (jb_error j).
Definition set_failed (now : Z) (error : string) (j : BackupJob) : BackupJob :=
  mkJob (jb_id j) (jb_profile_id j) (jb_kind j) Failed (jb_created_at j) (jb_started_at j)
    (Some (to_rfc3339 now)) (jb_progress j) (jb_progress_fraction j) (jb_result j) (Some error).

(** [fraction.clamp(0.0, 1.0)]. *)
Definition clamp01 (q : Q) : Q := if Qle_bool q 0 then 0%Q else if Qle_bool 1 q then 1%Q else q.

Definition set_progress (q : Q) (j : BackupJob) : BackupJob :=
  mkJob (jb_id j) (jb_profile_id j) (jb_kind j) (jb_state j) (jb_created_at j) (jb_started_at j)
    (jb_finished_at j) (jb_progress j) (Some (clamp01 q)) (jb_result j) (jb_error j).

Definition mark_running (now : Z) (job_id : string) (m : Jobs) : Jobs := alter (set_running now) job_id m.
Definition mark_progress (job_id : string) (q : Q) (m : Jobs) : Jobs := alter (set_progress q) job_id m.
Definition mark_succeeded (now : Z) (job_id result : string) (m : Jobs) : Jobs :=
  alter (set_succeeded now result) job_id m.
Definition mark_failed (now : Z) (job_id error : string) (m : Jobs) : Jobs :=
  alter (set_failed now error) job_id m.

(** The registry and the marker of the running backup; whether a job was ended. *)
Definition recover_abandoned (now : Z) (job_id : string) (m : Jobs) (running : option string)
    : bool * Jobs * option string :=
  match m !! job_id with
  | None => (false, m, running)
  | Some j =>
      if is_terminal (jb_state j) then (false, m, running)
      else (true, alter (set_failed now UNEXPECTED_TASK_ERROR) job_id m,
            if bool_decide (running = Some (jb_profile_id j)) then None else running)
  end.

Definition get (now : Z) (job_id : string) (m : Jobs) : option BackupJob * Jobs :=
  let m := gc_locked now m in (m !! job_id, m).

(** Stable insertion, newest first; RFC 3339 texts are compared as text. *)
Fixpoint insert_job (j : BackupJob) (l : list BackupJob) : list BackupJob :=
  match l with
  | [] => [j]
  | k :: l' => if String.leb (jb_created_at k) (jb_created_at j) then j :: l else k :: insert_job j l'
  end.

Definition list_jobs (now : Z) (profile_id : option string) (m : Jobs) : list BackupJob * Jobs :=
  let m := gc_locked now m in
  (foldr insert_job [] (List.filter
     (fun j => match profile_id with None => true | Some p => jb_profile_id j =s p end) ((map_to_list m).*2)), m).

(** ** Tasks *)

(** Where a spawned task is: before [mark_running]; after it; inside
    [run_backup], with the marker set; after it; ended, by return, panic or
    cancellation, with its monitor still to run. *)
Inductive Stage := Spawned | Started | InRun | Left | Ended.

Record Task := mkTask { tk_profile : string; tk_kind : BackupJobKind; tk_stage : Stage }.

#[export] Instance Stage_eq_dec : EqDecision Stage.
Proof. solve_decision. Defined.

(** The service: registry, marker of the running backup, live tasks by job. *)
Record JobWorld := mkJobWorld {
  jw_jobs : Jobs;
  jw_running : option string;
  jw_tasks : gmap string Task
}.

Definition at_stage (s : Stage) (t : Task) : Task := mkTask (tk_profile t) (tk_kind t) s.

(** [start_init_repo], [start_run_backup], [start_check_repo] and [start_restore]: the job and its task. *)
Definition start_job (uuid : string) (now : Z) (profile_id : string) (kind : BackupJobKind) (w : JobWorld)
    : result BackupJob JobError * JobWorld :=
  match start uuid now profile_id kind (jw_jobs w) with
  | (Ok job, m) => (Ok job, mkJobWorld m (jw_running w) (<[uuid := mkTask profile_id kind Spawned]> (jw_tasks w)))
  | (Err e, m) => (Err e, mkJobWorld m (jw_running w) (jw_tasks w))
  end.

(** How the work of a task ended: its payload or its error. *)
Definition finish (now : Z) (job_id : string) (outcome : result string string) (m : Jobs) : Jobs :=
  match outcome with
  | Ok result => mark_succeeded now job_id result m
  | Err error => mark_failed now job_id error m
  end.

(** [status]. *)
Definition status_running (w : JobWorld) : bool := is_some (jw_running w).

Inductive job_step : JobWorld -> JobWorld -> Prop :=
| JStart uuid now profile kind w :
    jw_jobs w !! uuid = None -> jw_tasks w !! uuid = None ->
    job_step w (start_job uuid now profile kind w).2
| JGet now i w : job_step w (mkJobWorld (get now i (jw_jobs w)).2 (jw_running w) (jw_tasks w))
| JList now p w : job_step w (mkJobWorld (list_jobs now p (jw_jobs w)).2 (jw_running w) (jw_tasks w))
| JRunning now i t w :
    jw_tasks w !! i = Some t -> tk_stage t = Spawned ->
    job_step w (mkJobWorld (mark_running now i (jw_jobs w)) (jw_running w) (<[i := at_stage Started t]> (jw_tasks w)))
| JProgress i t q w :
    jw_tasks w !! i = Some t -> tk_stage t = Started -> tk_kind t = Restore ->
    job_step w (mkJobWorld (mark_progress i q (jw_jobs w)) (jw_running w) (jw_tasks w))
| JEnter i t w :
    jw_tasks w !! i = Some t -> tk_stage t = Started -> tk_kind t = RunBackup ->
    job_step w (mkJobWorld (jw_jobs w) (Some (tk_profile t)) (<[i := at_stage InRun t]> (jw_tasks w)))
| JLeave i t w :
    jw_tasks w !! i = Some t -> tk_stage t = InRun ->
    job_step w (mkJobWorld (jw_jobs w) None (<[i := at_stage Left t]> (jw_tasks w)))
| JFinish now i t outcome w :
    jw_tasks w !! i = Some t -> tk_stage t = Started \/ tk_stage t = Left ->
    job_step w (mkJobWorld (finish now i outcome (jw_jobs w)) (jw_running w) (<[i := at_stage Ended t]> (jw_tasks w)))
| JDie i t w :
    jw_tasks w !! i = Some t -> tk_stage t <> Ended ->
    job_step w (mkJobWorld (jw_jobs w) (jw_running w) (<[i := at_stage Ended t]> (jw_tasks w)))
| JMonitor now i t w :
    jw_tasks w !! i = Some t -> tk_stage t = Ended ->
    job_step w (let '(_, m, running) := recover_abandoned now i (jw_jobs w) (jw_running w) in
                mkJobWorld m running (delete i (jw_tasks w))).

End Registry.

Section JobProps.
Context `{Rfc3339}.

(** ** The registry *)

Lemma gc_lookup now (m : Jobs) i j : gc_locked now m !! i = Some j <-> m !! i = Some j /\ retained now j = true.
Proof. unfold gc_locked. by rewrite map_lookup_filter_Some. Qed.

Lemma retained_active now j : active j = true -> retained now j = true.
Proof. unfold retained, active. by intros ->. Qed.

Lemma find_active_None profile (m : Jobs) :
  List.find (fun j => (jb_profile_id j =s profile) && active j) ((map_to_list m).*2) = None ->
  forall (i : string) j, m !! i = Some j -> active j = true -> jb_profile_id j <> profile.
Proof.
  intros Hf i j Hj Ha E. assert (In j ((map_to_list m).*2)) as Hin.
  { apply list_elem_of_In, list_elem_of_fmap. exists (i, j). by rewrite elem_of_map_to_list. }
  apply (List.find_none _ _ Hf) in Hin. rewrite Ha, E, eqb_refl in Hin. done.
Qed.

Lemma clamp01_range q : (0 <= clamp01 q <= 1)%Q.
Proof.
  unfold clamp01. destruct (Qle_bool q 0) eqn:E0; [split; unfold Qle; cbn; lia|].
  destruct (Qle_bool 1 q) eqn:E1; [split; unfold Qle; cbn; lia|].
  rewrite <- not_true_iff_false, Qle_bool_iff in E0, E1. split; apply Qlt_le_weak, Qnot_le_lt; done.
Qed.

(** ** The invariant *)

(** What each state records. *)
Definition well_stamped (j : BackupJob) : Prop :=
  match jb_state j with
  | Pending => jb_started_at j = None /\ jb_finished_at j = None /\ jb_result j = None /\ jb_error j = None
  | Running => is_Some (jb_started_at j) /\ jb_finished_at j = None /\ jb_result j = None /\ jb_error j = None
  | Succeeded => is_Some (jb_finished_at j) /\ is_Some (jb_result j) /\ jb_error j = None
  | Failed => is_Some (jb_finished_at j) /\ is_Some (jb_error j) /\ jb_result j = None
  end /\ match jb_progress_fraction j with Some q => (0 <= q <= 1)%Q | None => True end.

(** A task and its job agree, until the task has ended. *)
Definition in_step (t : Task) (j : BackupJob) : Prop :=
  jb_profile_id j = tk_profile t /\
  match tk_stage t with
  | Spawned => jb_state j = Pending
  | Started | InRun | Left => jb_state j = Running
  | Ended => True
  end.

Record JobInv (w : JobWorld) : Prop := {
  ji_ids : forall i j, jw_jobs w !! i = Some j -> jb_id j = i /\ well_stamped j;
  ji_one : forall i i' j j', jw_jobs w !! i = Some j -> jw_jobs w !! i' = Some j' ->
    active j = true -> active j' = true -> jb_profile_id j = jb_profile_id j' -> i = i';
  ji_owned : forall i j, jw_jobs w !! i = Some j -> active j = true -> exists t, jw_tasks w !! i = Some t /\ in_step t j;
  ji_live : forall i t, jw_tasks w !! i = Some t -> tk_stage t <> Ended -> exists j, jw_jobs w !! i = Some j /\ active j = true
}.

Lemma JobInv_init : JobInv (mkJobWorld ∅ None ∅).
Proof. split; cbn; intros *; rewrite ?lookup_empty; done. Qed.

Lemma JobInv_gc now w :
  JobInv w -> JobInv (mkJobWorld (gc_locked now (jw_jobs w)) (jw_running w) (jw_tasks w)).
Proof.
  intros [Hi Ho Hw Hl]. split; cbn.
  - intros i j [Hj _]%gc_lookup. by apply Hi.
  - intros i i' j j' [Hj _]%gc_lookup [Hj' _]%gc_lookup. by apply Ho.
  - intros i j [Hj _]%gc_lookup. by apply Hw.
  - intros i t Ht Hs. destruct (Hl i t Ht Hs) as (j & Hj & Ha). exists j. rewrite gc_lookup.
    auto using retained_active.
Qed.

Lemma JobInv_start uuid now profile kind w :
  JobInv w -> jw_jobs w !! uuid = None -> jw_tasks w !! uuid = None ->
  JobInv (start_job uuid now profile kind w).2.
Proof.
  intros Hinv Hj Ht. pose proof (JobInv_gc now w Hinv) as [Hi Ho Hw Hl]. cbn in Hi, Ho, Hw, Hl.
  unfold start_job, start. cbn zeta. set (m := gc_locked now (jw_jobs w)) in *.
  assert (m !! uuid = None) as Hm.
  { destruct (m !! uuid) eqn:E; [|done]. apply gc_lookup in E as [E _]. congruence. }
  destruct (List.find _ _) as [ex|] eqn:Hf; [by split|].
  pose proof (find_active_None profile m Hf) as Hnone. clearbody m. split; cbn.
  - intros i j [[<- <-]|[_ Hij]]%lookup_insert_Some; [by split|by apply Hi].
  - intros i i' j j' [[<- <-]|[Hn Hij]]%lookup_insert_Some [[<- <-]|[Hn' Hij']]%lookup_insert_Some; cbn; try done.
    + intros _ Ha E. by destruct (Hnone i' j' Hij' Ha).
    + intros Ha _ E. by destruct (Hnone i j Hij Ha).
    + by apply Ho.
  - intros i j [[<- <-]|[Hn Hij]]%lookup_insert_Some Ha.
    + exists (mkTask profile kind Spawned). by rewrite lookup_insert_eq.
    + rewrite lookup_insert_ne by done. by apply Hw.
  - intros i t [[<- <-]|[Hn Hit]]%lookup_insert_Some Hs.
    + eexists. by rewrite lookup_insert_eq.
    + rewrite lookup_insert_ne by done. by eapply Hl.
Qed.

(** A task that has not ended moves its own job. *)
Lemma JobInv_move i t t' f w running :
  JobInv w -> jw_tasks w !! i = Some t -> tk_stage t <> Ended ->
  (forall j, jb_id j = i -> well_stamped j -> in_step t j -> active j = true ->
     jb_id (f j) = i /\ jb_profile_id (f j) = jb_profile_id j /\ well_stamped (f j) /\
     (active (f j) = true -> in_step t' (f j)) /\ (tk_stage t' <> Ended -> active (f j) = true)) ->
  JobInv (mkJobWorld (alter f i (jw_jobs w)) running (<[i := t']> (jw_tasks w))).
Proof.
  intros [Hi Ho Hw Hl] Ht Hs Hf.
  destruct (Hl i t Ht Hs) as (j & Hj & Ha). destruct (Hi i j Hj) as [Hid Hst].
  destruct (Hw i j Hj Ha) as (t0 & Ht0 & Hin). assert (t0 = t) as -> by congruence.
  destruct (Hf j Hid Hst Hin Ha) as (Hid' & Hp & Hst' & Hin' & Ha').
  assert (forall k l, alter f i (jw_jobs w) !! k = Some l ->
            (k = i /\ l = f j) \/ (k <> i /\ jw_jobs w !! k = Some l)) as Hk.
  { intros k l. destruct (decide (k = i)) as [->|]; [rewrite lookup_alter_eq, Hj; naive_solver|].
    rewrite lookup_alter_ne by done. auto. }
  split; cbn.
  - intros k l [[-> ->]|[_ ?]]%Hk; auto.
  - intros k k' l l' Hkl Hkl'. apply Hk in Hkl as [[-> ->]|[Hn Hkl]], Hkl' as [[-> ->]|[Hn' Hkl']]; try done; rewrite ?Hp.
    + intros _ Hla Hpe. exact (Ho _ _ _ _ Hj Hkl' Ha Hla Hpe).
    + intros Hla _ Hpe. exact (Ho _ _ _ _ Hkl Hj Hla Ha Hpe).
    + by apply Ho.
  - intros k l [[-> ->]|[Hn Hkl]]%Hk Hla; [exists t'; rewrite lookup_insert_eq; auto|].
    rewrite lookup_insert_ne by done. by apply Hw.
  - intros k u [[<- <-]|[Hn Hku]]%lookup_insert_Some Hu.
    + exists (f j). rewrite lookup_alter_eq, Hj. auto.
    + rewrite lookup_alter_ne by done. by eapply Hl.
Qed.

Lemma alter_same (m : Jobs) i : alter (fun j => j) i m = m.
Proof. apply map_eq. intros k. rewrite lookup_alter. case_decide; [subst; by destruct (m !! _)|done]. Qed.

(** A task that moves without touching its job. *)
Lemma JobInv_stage i t s w running :
  JobInv w -> jw_tasks w !! i = Some t -> tk_stage t <> Ended ->
  (forall j, in_step t j -> in_step (at_stage s t) j) ->
  JobInv (mkJobWorld (jw_jobs w) running (<[i := at_stage s t]> (jw_tasks w))).
Proof.
  intros Hinv Ht Hs Hin. rewrite <- (alter_same (jw_jobs w) i). eapply JobInv_move; [done..|]. intros; split_and!; auto.
Qed.

(** The monitor ends what its task left. *)
Lemma JobInv_monitor now i t w :
  JobInv w -> jw_tasks w !! i = Some t -> tk_stage t = Ended ->
  JobInv (let '(_, m, running) := recover_abandoned now i (jw_jobs w) (jw_running w) in
          mkJobWorld m running (delete i (jw_tasks w))).
Proof.
  intros [Hi Ho Hw Hl] Ht Hs.
  assert (forall k u, delete i (jw_tasks w) !! k = Some u -> tk_stage u <> Ended ->
            k <> i /\ exists j, jw_jobs w !! k = Some j /\ active j = true) as Hl'.
  { intros k u [Hk Hu]%lookup_delete_Some Hne. split; [done|]. by eapply Hl. }
  assert ((forall j, jw_jobs w !! i = Some j -> active j = false) ->
    JobInv (mkJobWorld (jw_jobs w) (jw_running w) (delete i (jw_tasks w)))) as Hkeep.
  { intros Hterm. split; cbn; [done|done| |].
    - intros k j Hj Ha. destruct (decide (k = i)) as [->|]; [rewrite (Hterm j Hj) in Ha; done|].
      rewrite lookup_delete_ne by done. by apply Hw.
    - intros k u Hu Hne. by apply (Hl' k u). }
  unfold recover_abandoned. destruct (jw_jobs w !! i) as [j|] eqn:Ej; [|by apply Hkeep].
  destruct (is_terminal (jb_state j)) eqn:Et.
  { apply Hkeep. intros ? [= <-]. unfold active. by rewrite Et. }
  clear Hkeep. set (g := set_failed now UNEXPECTED_TASK_ERROR).
  assert (forall k l, alter g i (jw_jobs w) !! k = Some l -> (k = i /\ l = g j) \/ (k <> i /\ jw_jobs w !! k = Some l)) as Hk.
  { intros k l. destruct (decide (k = i)) as [->|]; [rewrite lookup_alter_eq, Ej; naive_solver|].
    rewrite lookup_alter_ne by done. auto. }
  destruct (Hi i j Ej) as [Hid Hst]. split; cbn.
  - intros k l [[-> ->]|[_ ?]]%Hk; [|by apply Hi]. split; [done|]. destruct Hst as [Hst Hq]. split; [|done]. cbn.
    destruct (jb_state j); try done; naive_solver.
  - intros k k' l l' Hkl Hkl'. apply Hk in Hkl as [[-> ->]|[Hn Hkl]], Hkl' as [[-> ->]|[Hn' Hkl']]; try done. by apply Ho.
  - intros k l [[-> ->]|[Hn Hkl]]%Hk Hla; [done|]. rewrite lookup_delete_ne by done. by apply Hw.
  - intros k u Hu Hne. destruct (Hl' k u Hu Hne) as (Hn & x & Hx & Ha). exists x. by rewrite lookup_alter_ne.
Qed.

(** Ending a job: from running to done. *)
Lemma finish_job now outcome t j :
  jb_state j = Running -> well_stamped j ->
  let f := match outcome with Ok r => set_succeeded now r | Err e => set_failed now e end in
  jb_id (f j) = jb_id j /\ jb_profile_id (f j) = jb_profile_id j /\ well_stamped (f j) /\
  (active (f j) = true -> in_step (at_stage Ended t) (f j)) /\
  (tk_stage (at_stage Ended t) <> Ended -> active (f j) = true).
Proof. unfold well_stamped. intros -> [(? & ? & ? & ?) ?]. destruct outcome; cbn; split_and!; eauto; done. Qed.

Lemma JobInv_step w w' : job_step w w' -> JobInv w -> JobInv w'.
Proof.
  destruct 1 as [uuid now profile kind w Hj Ht|now i w|now p w|now i t w Ht Hs|i t q w Ht Hs _|i t w Ht Hs _|i t w Ht Hs
    |now i t outcome w Ht Hs|i t w Ht Hs|now i t w Ht Hs]; intros Hinv.
  - by apply JobInv_start.
  - by apply JobInv_gc.
  - by apply JobInv_gc.
  - unfold mark_running. eapply JobInv_move; [done..|congruence|].
    intros j Hid [Hst Hq] [Hp Hstep] Ha. rewrite Hs in Hstep. unfold well_stamped in *. rewrite Hstep in Hst. cbn.
    destruct Hst as (? & ? & ? & ?). split_and!; eauto; done.
  - rewrite <- (insert_id (jw_tasks w) i t Ht). eapply JobInv_move; [done..|congruence|].
    intros j Hid [Hst Hq] Hin Ha. unfold well_stamped. cbn. split_and!; auto; apply clamp01_range.
  - eapply JobInv_stage; [done..|congruence|]. intros j [? Hin]. rewrite Hs in Hin. by split.
  - eapply JobInv_stage; [done..|congruence|]. intros j [? Hin]. rewrite Hs in Hin. by split.
  - assert (finish now i outcome (jw_jobs w) =
      alter (match outcome with Ok r => set_succeeded now r | Err e => set_failed now e end) i (jw_jobs w)) as ->
      by by destruct outcome.
    eapply JobInv_move; [done..|by destruct Hs; congruence|].
    intros j <- Hst [Hp Hin] Ha. apply finish_job; [|done]. by destruct Hs as [Hs|Hs]; rewrite Hs in Hin.
  - eapply JobInv_stage; [done..|]. intros j [? _]. by split.
  - by eapply JobInv_monitor.
Qed.

Lemma JobInv_reachable w w' : JobInv w -> rtc job_step w w' -> JobInv w'.
Proof. intros Hw. induction 1; eauto using JobInv_step. Qed.

(** ** Claims *)

Definition jobs0 : JobWorld := mkJobWorld ∅ None ∅.

(** C28: In every state reachable from the start, under any interleaving of requests, workers and monitors,
    a profile has at most one unfinished job, every job has the stamps its state calls for and a progress between
    0 and 1, and every unfinished job has a live task, so none is stuck. *)
Theorem jobs_well_formed (w : JobWorld) :
  rtc job_step jobs0 w ->
  (forall i i' j j', jw_jobs w !! i = Some j -> jw_jobs w !! i' = Some j' ->
     active j = true -> active j' = true -> jb_profile_id j = jb_profile_id j' -> i = i') /\
  (forall i j, jw_jobs w !! i = Some j -> well_stamped j) /\
  (forall i j, jw_jobs w !! i = Some j -> active j = true -> is_Some (jw_tasks w !! i)).
Proof.
  intros Hw. apply (JobInv_reachable _ _ JobInv_init) in Hw as [Hi Ho Hw Hl]. split_and!; [done| |].
  - intros i j Hj. by apply Hi in Hj as [_ ?].
  - intros i j Hj Ha. destruct (Hw i j Hj Ha) as (t & Ht & _). eauto.
Qed.

(** What may become of job [i], [j] now, in a registry [m]: unfinished, it stays registered and does not go
    back; finished, it stays as it is until it is collected. *)
Definition advances (i : string) (j : BackupJob) (m : Jobs) : Prop :=
  if active j
  then exists j', m !! i = Some j' /\ jb_profile_id j' = jb_profile_id j /\ (jb_state j = Running -> jb_state j' <> Pending)
  else m !! i = Some j \/ m !! i = None.

Lemma advances_same i j m : m !! i = Some j -> advances i j m.
Proof. unfold advances. intros Hj. destruct (active j); [|by left]. exists j. split_and!; auto. by intros ->. Qed.

Lemma advances_gc i j now m : m !! i = Some j -> advances i j (gc_locked now m).
Proof.
  unfold advances. intros Hj. destruct (active j) eqn:Ha.
  - exists j. rewrite gc_lookup. split_and!; auto using retained_active. by intros ->.
  - destruct (gc_locked now m !! i) as [l|] eqn:E; [|by right]. apply gc_lookup in E as [E _]. left. congruence.
Qed.

Lemma advances_alter i j k t f w :
  JobInv w -> jw_jobs w !! i = Some j -> jw_tasks w !! k = Some t -> tk_stage t <> Ended ->
  (forall l, jb_profile_id (f l) = jb_profile_id l /\ (jb_state l = Running -> jb_state (f l) <> Pending)) ->
  advances i j (alter f k (jw_jobs w)).
Proof.
  intros [_ _ _ Hl] Hj Ht Hne Hf. destruct (decide (k = i)) as [->|Hki].
  - destruct (Hl i t Ht Hne) as (l & El & Ha). assert (l = j) as -> by congruence.
    unfold advances. rewrite Ha, lookup_alter_eq, Hj. exists (f j). split; [done|]. apply Hf.
  - apply advances_same. by rewrite lookup_alter_ne.
Qed.

(** Jobs move forward only. A step keeps a finished job as it is or collects it after its hour, and
    keeps an unfinished job registered: still unfinished, or finished by its own task or monitor. *)
Theorem jobs_move_forward (w w' : JobWorld) (i : string) (j : BackupJob) :
  rtc job_step jobs0 w -> job_step w w' -> jw_jobs w !! i = Some j -> advances i j (jw_jobs w').
Proof.
  intros Hw Hs Hj. pose proof (JobInv_reachable _ _ JobInv_init Hw) as Hinv.
  destruct Hs as [uuid now profile kind w Hju Htu|now k w|now p w|now k t w Ht Hs|k t q w Ht Hs _|k t w Ht Hs _|k t w Ht Hs
    |now k t outcome w Ht Hs|k t w Ht Hs|now k t w Ht Hs]; cbn in *; try (by apply advances_same); try (by apply advances_gc).
  - unfold start_job, start. cbn zeta. destruct (List.find _ _); [by apply advances_gc|]. cbn.
    unfold advances. rewrite lookup_insert_ne by congruence. by apply advances_gc.
  - eapply advances_alter; [done..|congruence|done].
  - eapply advances_alter; [done..|congruence|]. intros l. split; [done|]. cbn. by intros ->.
  - destruct outcome; (eapply advances_alter; [done..|destruct Hs; congruence|done]).
  - unfold recover_abandoned. destruct (jw_jobs w !! k) as [l|] eqn:El; [|by apply advances_same].
    destruct (is_terminal (jb_state l)) eqn:Et; [by apply advances_same|]. cbn.
    destruct (decide (k = i)) as [->|Hki]; [|apply advances_same; by rewrite lookup_alter_ne].
    assert (l = j) as -> by congruence. unfold advances, active. rewrite Et, lookup_alter_eq, Hj. by eexists.
Qed.

(** A job whose task has ended is finished once its monitor has run. If the task died without a
    word, by a panic or a cancellation, the job is marked as failed, the marker of its run is cleared and the
    profile is free for the next job. *)
Theorem dead_tasks_free_their_profile (w : JobWorld) now i t j :
  rtc job_step jobs0 w -> jw_tasks w !! i = Some t -> tk_stage t = Ended -> jw_jobs w !! i = Some j ->
  let '(_, m, running) := recover_abandoned now i (jw_jobs w) (jw_running w) in
  exists j', m !! i = Some j' /\ active j' = false /\
    (active j = true ->
     jb_error j' = Some UNEXPECTED_TASK_ERROR /\ running <> Some (jb_profile_id j) /\
     forall uuid later kind, is_ok (start uuid later (jb_profile_id j) kind m).1 = true).
Proof.
  intros Hw Ht Hs Hj. pose proof (JobInv_reachable _ _ JobInv_init Hw) as [Hi Ho Hown Hl].
  unfold recover_abandoned. rewrite Hj. destruct (is_terminal (jb_state j)) eqn:Et; unfold active; rewrite Et.
  { exists j. by rewrite Hj, Et. }
  eexists. rewrite lookup_alter_eq, Hj. split_and!; [done..|]. intros _. split_and!; [done|by case_bool_decide|].
  intros uuid later kind. unfold start. cbn zeta. destruct (List.find _ _) as [l|] eqn:Hf; [|done]. exfalso.
  apply List.find_some in Hf as [Hin [Hp%eqb_spec Ha]%andb_true_iff].
  apply list_elem_of_In, list_elem_of_fmap in Hin as ([k l'] & -> & Hkl%elem_of_map_to_list). cbn in *.
  apply gc_lookup in Hkl as [Hkl _]. destruct (decide (k = i)) as [->|Hki].
  - rewrite lookup_alter_eq, Hj in Hkl. cbn in Hkl. by simplify_eq.
  - rewrite lookup_alter_ne in Hkl by done. apply Hki. apply (Ho k i l' j); try done. unfold active. by rewrite Et.
Qed.

(** *** Overlapping runs *)

Definition started2 : JobWorld :=
  (start_job "b" 0 "q" RunBackup (start_job "a" 0 "p" RunBackup jobs0).2).2.
Definition both_in_run : JobWorld :=
  mkJobWorld (mark_running 0 "b" (mark_running 0 "a" (jw_jobs started2))) (Some "q")
    {["a" := mkTask "p" RunBackup InRun; "b" := mkTask "q" RunBackup InRun]}.

Lemma both_in_run_reachable : rtc job_step jobs0 both_in_run.
Proof.
  eapply rtc_l; [apply (JStart "a" 0 "p" RunBackup); reflexivity|].
  eapply rtc_l; [apply (JStart "b" 0 "q" RunBackup); reflexivity|].
  eapply rtc_l; [apply (JRunning 0 "a" (mkTask "p" RunBackup Spawned)); reflexivity|].
  eapply rtc_l; [apply (JRunning 0 "b" (mkTask "q" RunBackup Spawned)); reflexivity|].
  eapply rtc_l; [apply (JEnter "a" (mkTask "p" RunBackup Started)); reflexivity|].
  eapply rtc_l; [apply (JEnter "b" (mkTask "q" RunBackup Started)); reflexivity|].
  reflexivity.
Qed.

(** Two profiles may be backed up at the same time, and the marker of the running backup is a single
    slot that the first to leave clears: the status then says that no backup is running while one is. *)
Theorem overlapping_runs_hide_status :
  exists w i t, rtc job_step jobs0 w /\ jw_tasks w !! i = Some t /\ tk_kind t = RunBackup /\ tk_stage t = InRun /\
                status_running w = false.
Proof.
  eexists _, "b", (mkTask "q" RunBackup InRun). split.
  { eapply rtc_r; [apply both_in_run_reachable|].
    apply (JLeave "a" (mkTask "p" RunBackup InRun)); reflexivity. }
  split_and!; reflexivity.
Qed.

End JobProps.
