(* ===== verification/Backup.v ===== *)
(** * Backup profiles: nasty-backup/src/lib.rs and nasty-engine/src/router/backup.rs

    Profiles with their secrets, the state file, the operations that change
    profiles, and the phases of a run that touch them. Repository operations are
    those of the package rustic; their outcomes are the environment's. *)
From Stdlib Require Import String Ascii ZArith.
From stdpp Require Import base list gmap strings numbers.
From S2P Require Import Prelude RustStr Disk AuthTypes.

Open Scope string_scope.
Open Scope rust_scope.

Definition STATE_PATH : Path := ["var"; "lib"; "nasty"; "backups.json"].
Definition CACERT_DIR : Path := ["var"; "lib"; "nasty"; "cacerts"].

Record RetentionPolicy := mkRetention {
  keep_last : option Z;
  keep_daily : option Z;
  keep_weekly : option Z;
  keep_monthly : option Z;
  keep_yearly : option Z
}.

Record BackupRunResult := mkRunResult {
  rr_timestamp : string;
  rr_success : bool;
  rr_message : string;
  rr_duration_secs : Z;
  rr_bytes_added : option Z;
  rr_files_new : option Z;
  rr_files_changed : option Z
}.

(** [EncryptedBlob]: the sealed text. *)
Record EncryptedBlob := mkBlob { blob_text : string }.

#[export] Instance EncryptedBlob_eq_dec : EqDecision EncryptedBlob.
Proof. solve_decision. Defined.

Inductive BackupTarget :=
| Local (path : string)
| S3 (endpoint bucket access_key : string) (secret_key : option string)
     (secret_key_encrypted : option EncryptedBlob) (region : option string)
| Sftp (host user path : string) (port : option Z)
| RestTarget (url : string) (username password : option string) (password_encrypted : option EncryptedBlob)
| B2 (bucket account_id : string) (account_key : option string) (account_key_encrypted : option EncryptedBlob).

#[export] Instance BackupTarget_eq_dec : EqDecision BackupTarget.
Proof. solve_decision. Defined.

Record BackupProfile := mkProfile {
  bp_id : string;
  bp_name : string;
  bp_enabled : bool;
  bp_sources : list string;
  bp_target : BackupTarget;
  bp_schedule : option string;
  bp_retention : RetentionPolicy;
  bp_password : option string;
  bp_password_encrypted : option EncryptedBlob;
  bp_snapshot_before : bool;
  bp_repo_initialized : bool;
  bp_last_run : option BackupRunResult;
  bp_trusted_cacert : option string
}.

Inductive BackupError :=
| ProfileNotFound (id : string)
| ProfileExists (name : string)
| BackupFailed (msg : string)
| BackupIo (e : IoErr).

Definition display_backup_error (e : BackupError) : string :=
  match e with
  | ProfileNotFound i => "profile not found: " ++ i
  | ProfileExists n => "profile already exists: " ++ n
  | BackupFailed m => "backup failed: " ++ m
  | BackupIo e => "io error: " ++ display_io e
  end.

(** ** Texts *)

Definition validate_sources (sources : list string) : result unit BackupError :=
  match sources with
  | [] => Err (BackupFailed "backup sources cannot be empty")
  | _ => if existsb (fun s => trim s =s "") sources then Err (BackupFailed "backup sources cannot be empty") else Ok tt
  end.

Definition validate_pem_cert (pem : string) : result unit BackupError :=
  let trimmed := trim pem in
  if trimmed =s "" then Err (BackupFailed "trusted_cacert: empty input — leave the field unset to remove")
  else if negb (contains_str "-----BEGIN CERTIFICATE-----" trimmed) || negb (contains_str "-----END CERTIFICATE-----" trimmed)
  then Err (BackupFailed "trusted_cacert: not a PEM certificate — paste the contents of a .pem / .crt file starting with -----BEGIN CERTIFICATE-----")
  else Ok tt.

(** [rest.get(..n).is_some_and(|s| s.eq_ignore_ascii_case(p))]. *)
Definition starts_with_ci (p s : string) : bool :=
  starts_with p (to_ascii_lowercase (take_string (String.length p) s)).

(** The first URL: the text up to and including its scheme, and the rest. *)
Fixpoint find_scheme (s : string) : option (string * string) :=
  if starts_with_ci "https://" s then Some (take_string 8 s, skip_prefix 8 s)
  else if starts_with_ci "http://" s then Some (take_string 7 s, skip_prefix 7 s)
  else match s with
       | EmptyString => None
       | String c s' => (fun p => (String c p.1, p.2)) <$> find_scheme s'
       end.

(** The end of an authority: white space or one of [/ ? # ) ]]. *)
Definition ends_authority (s : string) : bool :=
  existsb (fun w => starts_with w s) white_space ||
  match s with
  | String c _ => Ascii.eqb c "/" || Ascii.eqb c "?" || Ascii.eqb c "#" || Ascii.eqb c ")" || Ascii.eqb c "]"
  | EmptyString => true
  end.

Fixpoint split_authority (s : string) : string * string :=
  if ends_authority s then (EmptyString, s)
  else match s with
       | EmptyString => (EmptyString, EmptyString)
       | String c s' => let '(a, r) := split_authority s' in (String c a, r)
       end.

(** The text after the last [@]. *)
Fixpoint after_at (s : string) : option string :=
  match s with
  | EmptyString => None
  | String c s' => match after_at s' with
                   | Some r => Some r
                   | None => if Ascii.eqb c "@" then Some s' else None
                   end
  end.

(** Each round goes past a scheme, so the length is fuel enough. *)
Fixpoint redact_fuel (fuel : nat) (s : string) : string :=
  match fuel with
  | 0 => s
  | S k =>
      match find_scheme s with
      | None => s
      | Some (before, rest) =>
          let '(authority, tail) := split_authority rest in
          match after_at authority with
          | None => before ++ authority ++ redact_fuel k tail
          | Some host => before ++ "[redacted]@" ++ redact_fuel k (host ++ tail)
          end
      end
  end.

Definition redact_url_credentials (message : string) : string := redact_fuel (String.length message) message.

(** [BackupError::to_rpc_error]. *)
Definition to_rpc_error (e : BackupError) : string := redact_url_credentials (display_backup_error e).

(** The package [url]: parsing, the parts with credentials, and the text without them. *)
Class UrlLib := {
  Url : Type;
  url_parse : string -> option Url;
  url_username : Url -> string;
  url_password : Url -> option string;
  url_strip : Url -> string
}.

Fixpoint decode_percent (s : string) : option string :=
  match s with
  | EmptyString => Some EmptyString
  | String c s' =>
      if Ascii.eqb c "%" then
        match s' with
        | String a (String b rest) =>
            match hex_octet (String a (String b EmptyString)) with
            | Some n => String (ascii_of_nat (Z.to_nat n)) <$> decode_percent rest
            | None => None
            end
        | _ => None
        end
      else String c <$> decode_percent s'
  end.

Definition decode_url_userinfo (value : string) : option string :=
  match decode_percent value with
  | Some d => if valid_utf8 d then Some d else None
  | None => None
  end.

(** ** Secrets *)

(** [nasty_common::secrets], which runs [systemd-creds]. *)
Class Vault := {
  seal : string -> string -> result EncryptedBlob string;
  unseal : string -> EncryptedBlob -> result string string
}.
Class VaultLaws `{Vault} : Prop :=
  unseal_seal : forall name plain blob, seal name plain = Ok blob -> unseal name blob = Ok plain.

Section Secrets.
Context `{UrlLib} `{Vault}.

Definition no_userinfo (u : Url) : bool :=
  (url_username u =s "") && negb (is_some (url_password u)).

Definition strip_url_userinfo (value : string) : string :=
  match url_parse value with
  | None => redact_url_credentials value
  | Some u => if no_userinfo u then value else url_strip u
  end.

(** The target with credentials of its URL moved to their fields, and whether it changed. *)
Definition normalize_rest_url_userinfo (t : BackupTarget) : BackupTarget * bool :=
  match t with
  | RestTarget url username password enc =>
      match url_parse url with
      | None => (t, false)
      | Some u =>
          if no_userinfo u then (t, false)
          else
            let username' := match username with
                             | None | Some EmptyString => decode_url_userinfo (url_username u)
                             | Some _ => username
                             end in
            let password' := match password, enc with
                             | None, None => url_password u ≫= decode_url_userinfo
                             | _, _ => password
                             end in
            (RestTarget (url_strip u) username' password' enc, true)
      end
  | _ => (t, false)
  end.

Definition mask (o : option string) : option string := match o with Some _ => Some "***" | None => None end.

Definition redacted_target (t : BackupTarget) : BackupTarget :=
  match t with
  | S3 e b a k _ r => S3 e b a (mask k) None r
  | B2 b a k _ => B2 b a (mask k) None
  | RestTarget u n p _ => RestTarget (strip_url_userinfo u) n (mask p) None
  | other => other
  end.

Definition redacted_run (r : BackupRunResult) : BackupRunResult :=
  mkRunResult (rr_timestamp r) (rr_success r) (redact_url_credentials (rr_message r)) (rr_duration_secs r)
    (rr_bytes_added r) (rr_files_new r) (rr_files_changed r).

(** [BackupProfile::redacted]. *)
Definition redacted (p : BackupProfile) : BackupProfile :=
  mkProfile (bp_id p) (bp_name p) (bp_enabled p) (bp_sources p) (redacted_target (bp_target p)) (bp_schedule p)
    (bp_retention p) (mask (bp_password p)) None (bp_snapshot_before p) (bp_repo_initialized p)
    (redacted_run <$> bp_last_run p) (bp_trusted_cacert p).

Definition profile_password_name (id : string) : string := "nasty.backup." ++ id ++ ".password".

(** Seal a plaintext that has no sealed form; kept in plaintext when that fails. *)
Definition seal_field (name : string) (plain : option string) (blob : option EncryptedBlob)
    : option string * option EncryptedBlob :=
  match blob, plain with
  | None, Some p => match seal name p with Ok b => (None, Some b) | Err _ => (Some p, None) end
  | _, _ => (plain, blob)
  end.

Definition encrypt_target_secrets_in_place (id : string) (t : BackupTarget) : BackupTarget :=
  match t with
  | S3 e b a k kb r =>
      let '(k, kb) := seal_field ("nasty.backup." ++ id ++ ".s3.secret_key") k kb in S3 e b a k kb r
  | B2 b a k kb => let '(k, kb) := seal_field ("nasty.backup." ++ id ++ ".b2.account_key") k kb in B2 b a k kb
  | RestTarget u n p pb =>
      let '(p, pb) := seal_field ("nasty.backup." ++ id ++ ".rest.password") p pb in RestTarget u n p pb
  | other => other
  end.

Definition set_secrets (target : BackupTarget) (password : option string) (blob : option EncryptedBlob) (p : BackupProfile)
    : BackupProfile :=
  mkProfile (bp_id p) (bp_name p) (bp_enabled p) (bp_sources p) target (bp_schedule p) (bp_retention p) password blob
    (bp_snapshot_before p) (bp_repo_initialized p) (bp_last_run p) (bp_trusted_cacert p).

Definition encrypt_profile_secrets_in_place (p : BackupProfile) : BackupProfile :=
  let '(password, blob) := seal_field (profile_password_name (bp_id p)) (bp_password p) (bp_password_encrypted p) in
  set_secrets (encrypt_target_secrets_in_place (bp_id p) (bp_target p)) password blob p.

Definition encrypted_target_set (t : BackupTarget) : bool :=
  match t with
  | S3 _ _ _ _ (Some _) _ | B2 _ _ _ (Some _) | RestTarget _ _ _ (Some _) => true
  | _ => false
  end.

(** A field the update leaves out keeps the stored one. *)
Definition carry (plain : option string) (blob : option EncryptedBlob) (old_plain : option string) (old_blob : option EncryptedBlob)
    : option string * option EncryptedBlob :=
  match plain, blob with None, None => (old_plain, old_blob) | _, _ => (plain, blob) end.

Definition carry_target (update existing : BackupTarget) : BackupTarget :=
  match update, existing with
  | S3 e b a k kb r, S3 _ _ _ k' kb' _ => let '(k, kb) := carry k kb k' kb' in S3 e b a k kb r
  | B2 b a k kb, B2 _ _ k' kb' => let '(k, kb) := carry k kb k' kb' in B2 b a k kb
  | RestTarget u n p pb, RestTarget _ _ p' pb' => let '(p, pb) := carry p pb p' pb' in RestTarget u n p pb
  | t, _ => t
  end.

Definition carry_forward_existing_secrets (update existing : BackupProfile) : BackupProfile :=
  let '(password, blob) := carry (bp_password update) (bp_password_encrypted update)
                             (bp_password existing) (bp_password_encrypted existing) in
  set_secrets (carry_target (bp_target update) (bp_target existing)) password blob update.

Definition backup_definition_matches (l r : BackupProfile) : bool :=
  bool_decide (bp_sources l = bp_sources r) && bool_decide (bp_target l = bp_target r) &&
  bool_decide (bp_password l = bp_password r) && bool_decide (bp_password_encrypted l = bp_password_encrypted r) &&
  bool_decide (bp_trusted_cacert l = bp_trusted_cacert r).

Definition set_last_run (run : option BackupRunResult) (p : BackupProfile) : BackupProfile :=
  mkProfile (bp_id p) (bp_name p) (bp_enabled p) (bp_sources p) (bp_target p) (bp_schedule p) (bp_retention p)
    (bp_password p) (bp_password_encrypted p) (bp_snapshot_before p) (bp_repo_initialized p) run (bp_trusted_cacert p).

Definition set_initialized (p : BackupProfile) : BackupProfile :=
  mkProfile (bp_id p) (bp_name p) (bp_enabled p) (bp_sources p) (bp_target p) (bp_schedule p) (bp_retention p)
    (bp_password p) (bp_password_encrypted p) (bp_snapshot_before p) true (bp_last_run p) (bp_trusted_cacert p).

Definition invalidate_last_run_if_definition_changed (update existing : BackupProfile) : BackupProfile :=
  if backup_definition_matches update existing then update else set_last_run None update.

Definition resolve_secret (name : string) (plain : option string) (blob : option EncryptedBlob) : result string BackupError :=
  match blob, plain with
  | Some b, _ => map_err (fun e => BackupFailed ("decrypt " ++ name ++ ": " ++ e)) (unseal name b)
  | None, Some p => Ok p
  | None, None => Err (BackupFailed ("secret '" ++ name ++ "' is neither encrypted nor plaintext (profile is missing required field)"))
  end.

Definition resolve_profile_password (p : BackupProfile) : result string BackupError :=
  resolve_secret (profile_password_name (bp_id p)) (bp_password p) (bp_password_encrypted p).

Record ResolvedTargetSecrets := mkResolved {
  rs_s3_secret_key : option string;
  rs_b2_account_key : option string;
  rs_rest_password : option string;
  rs_cacert_path : option Path
}.

Definition resolved_none : ResolvedTargetSecrets := mkResolved None None None None.

(** [BackupTarget::resolve_secrets]. *)
Definition resolve_secrets (t : BackupTarget) (id : string) : result ResolvedTargetSecrets BackupError :=
  match t with
  | S3 _ _ _ k kb _ =>
      match resolve_secret ("nasty.backup." ++ id ++ ".s3.secret_key") k kb with
      | Ok s => Ok (mkResolved (Some s) None None None) | Err e => Err e
      end
  | B2 _ _ k kb =>
      match resolve_secret ("nasty.backup." ++ id ++ ".b2.account_key") k kb with
      | Ok s => Ok (mkResolved None (Some s) None None) | Err e => Err e
      end
  | RestTarget _ (Some _) p pb =>
      match resolve_secret ("nasty.backup." ++ id ++ ".rest.password") p pb with
      | Ok s => Ok (mkResolved None None (Some s) None) | Err e => Err e
      end
  | _ => Ok resolved_none
  end.

End Secrets.

(** ** The state file *)

(** [StatePersistFailure]: before the rename nothing changed; after it the new file is in place. *)
Inductive StatePersistFailure :=
| BeforeRename (e : BackupError)
| AfterRename (dir : Path) (e : IoErr).

Definition committed (f : StatePersistFailure) : bool :=
  match f with AfterRename _ _ => true | BeforeRename _ => false end.

(** [From<StatePersistFailure> for BackupError]. *)
Definition persist_error (f : StatePersistFailure) : BackupError :=
  match f with
  | BeforeRename e => e
  | AfterRename dir e =>
      BackupFailed ("backup profile state update was applied, but parent directory " ++ display_path dir
        ++ " could not be synced; durability is not guaranteed, check storage health: " ++ display_io e)
  end.

Definition state_temp_path (path : Path) : result Path BackupError :=
  match parent path, file_name path with
  | None, _ => Err (BackupFailed ("state path has no parent: " ++ display_path path))
  | _, None => Err (BackupFailed ("state path has no name: " ++ display_path path))
  | Some dir, Some name => Ok (dir ++ [("." ++ name ++ ".tmp")%string])%list
  end.

Section State.
Context `{!Codec (list BackupProfile)} (F : Faults).

Definition state_write_error (operation : string) (path : Path) (e : IoErr) : BackupError :=
  BackupFailed (operation ++ " " ++ display_path path ++ ": " ++ display_io e).

Definition bk_io (operation : string) (path : Path) (m : M Disk IoErr unit) : M Disk BackupError unit :=
  fun d => match m d with (r, d') => (map_err (state_write_error operation path) r, d') end.

(** The closure [commit] of [save_profiles_to]. *)
Definition commit_state (temp path : Path) (json : string) : M Disk BackupError unit :=
  bk_io "write temporary backup state" temp (write_all F temp json) ;;;
  bk_io "sync temporary backup state" temp (check F OpSync temp) ;;;
  bk_io "replace backup state" path (rename F temp path).

Definition save_profiles_to (path : Path) (profiles : list BackupProfile) : M Disk StatePersistFailure unit :=
  temp <- lift (map_err BeforeRename (state_temp_path path)) ;;
  dir <- lift (ok_or (parent path) (BeforeRename (BackupFailed ("state path has no parent: " ++ display_path path)))) ;;
  json <- lift (map_err (fun e => BeforeRename (BackupFailed ("serialize backup profiles: " ++ e))) (encode profiles)) ;;
  (fun d => match bk_io "create temporary backup state" temp (create_new F temp 384) d with
            | (r, d') => (map_err BeforeRename r, d') end) ;;;
  c <- attempt (commit_state temp path json) ;;
  match c with
  | Err error =>
      r <- attempt (remove_file F temp) ;;
      match r with
      | Ok _ => throw (BeforeRename error)
      | Err cleanup =>
          (* dropping [TemporaryStateFile] tries once more *)
          _ <- attempt (E := IoErr) (remove_file F temp) ;;
          throw (BeforeRename (BackupFailed (display_backup_error error ++ "; remove temporary backup state "
                   ++ display_path temp ++ ": " ++ display_io cleanup)))
      end
  | Ok _ =>
      r <- attempt (check F OpOpenDir dir ;;; check F OpSyncDir dir) ;;
      match r with
      | Ok _ => ret tt
      | Err e => throw (AfterRename dir e)
      end
  end.

Definition load_profiles_from (path : Path) : M Disk BackupError (list BackupProfile) :=
  r <- attempt (read_to_string F path) ;;
  match r with
  | Ok content => lift (map_err (fun e => BackupFailed ("parse " ++ display_path path ++ ": " ++ e)) (decode content))
  | Err e => if is_not_found e then ret [] else throw (BackupIo e)
  end.

Definition load_profiles : M Disk BackupError (list BackupProfile) :=
  r <- attempt (E := BackupError) (load_profiles_from STATE_PATH) ;;
  match r with Ok ps => ret ps | Err _ => ret [] end.

Definition cleanup_stale_state_temp (path : Path) : M Disk BackupError unit :=
  match state_temp_path path with
  | Err _ => ret tt
  | Ok temp => _ <- attempt (E := IoErr) (remove_file F temp) ;; ret tt
  end.

End State.
