(* ===== verification/BackupService.v ===== *)
(** * The backup service: [BackupService] of nasty-backup/src/lib.rs

    The profiles in memory, the marker of the running backup and the disk. The
    bodies that take the lock on the profiles twice let other calls in
    between: [between] is whatever those did. *)
From Stdlib Require Import String Ascii ZArith.
From stdpp Require Import base list gmap strings numbers.
From S2P Require Import Prelude RustStr Disk AuthTypes Backup.

Open Scope string_scope.
Open Scope rust_scope.

Record BkWorld := mkBk {
  bk_profiles : list BackupProfile;
  bk_running : option string;
  bk_disk : Disk
}.

Section Service.
Context `{UrlLib} `{Vault} `{!Codec (list BackupProfile)}.

Abbreviation Bk := (M BkWorld BackupError).

Definition set_profiles (ps : list BackupProfile) (w : BkWorld) : BkWorld := mkBk ps (bk_running w) (bk_disk w).
Definition set_bk_running (r : option string) (w : BkWorld) : BkWorld := mkBk (bk_profiles w) r (bk_disk w).
Definition set_bk_disk (d : Disk) (w : BkWorld) : BkWorld := mkBk (bk_profiles w) (bk_running w) d.

(** Disk calls of the service. *)
Definition on_disk {E A} (m : M Disk E A) : M BkWorld E A :=
  fun w => match m (bk_disk w) with (r, d) => (r, set_bk_disk d w) end.

Definition persistence_committed (r : result unit StatePersistFailure) : bool :=
  match r with Ok _ => true | Err e => committed e end.

Definition publish_profiles (next : list BackupProfile) (persistence : result unit StatePersistFailure)
    : M BkWorld StatePersistFailure unit :=
  (if persistence_committed persistence then modify (set_profiles next) else ret tt) ;;;
  lift persistence.

Definition persist_profiles (F : Faults) (next : list BackupProfile) : M BkWorld StatePersistFailure unit :=
  r <- attempt (on_disk (save_profiles_to F STATE_PATH next)) ;;
  publish_profiles next r.

(** [persist_profiles(..)?] in a function that returns [BackupError]. *)
Definition persist (F : Faults) (next : list BackupProfile) : Bk unit :=
  r <- attempt (persist_profiles F next) ;;
  lift (map_err persist_error r).

Definition get_profile_internal (id : string) : Bk BackupProfile :=
  ps <- gets bk_profiles ;;
  lift (ok_or (List.find (fun p => bp_id p =s id) ps) (ProfileNotFound id)).

Definition get_profile (id : string) : Bk BackupProfile := p <- get_profile_internal id ;; ret (redacted p).

Definition list_profiles (w : BkWorld) : list BackupProfile := redacted <$> bk_profiles w.

Definition list_profiles_strict (F : Faults) : Bk (list BackupProfile) :=
  ps <- gets bk_profiles ;;
  _ <- on_disk (load_profiles_from F STATE_PATH) ;;
  ret (redacted <$> ps).

(** [BackupService::new]. *)
Definition new_service (F : Faults) (d : Disk) : BkWorld :=
  let d := (cleanup_stale_state_temp F STATE_PATH d).2 in
  match load_profiles F d with (Ok ps, d') => mkBk ps None d' | (Err _, d') => mkBk [] None d' end.

Definition set_id (i : string) (p : BackupProfile) : BackupProfile :=
  mkProfile i (bp_name p) (bp_enabled p) (bp_sources p) (bp_target p) (bp_schedule p) (bp_retention p)
    (bp_password p) (bp_password_encrypted p) (bp_snapshot_before p) (bp_repo_initialized p) (bp_last_run p) (bp_trusted_cacert p).

Definition normalized (p : BackupProfile) : BackupProfile :=
  set_secrets (normalize_rest_url_userinfo (bp_target p)).1 (bp_password p) (bp_password_encrypted p) p.

Definition check_cacert (p : BackupProfile) : result unit BackupError :=
  match bp_trusted_cacert p with Some pem => validate_pem_cert pem | None => Ok tt end.

(** [create_profile]; [uuid8] is the start of a fresh UUID. *)
Definition create_profile (F : Faults) (uuid8 : string) (profile : BackupProfile) : Bk BackupProfile :=
  lift (validate_sources (bp_sources profile)) ;;;
  let profile := if bp_id profile =s "" then set_id uuid8 profile else profile in
  lift (check_cacert profile) ;;;
  let profile := encrypt_profile_secrets_in_place (normalized profile) in
  ps <- gets bk_profiles ;;
  throw_if (existsb (fun p => (bp_id p =s bp_id profile) || (bp_name p =s bp_name profile)) ps)
    (ProfileExists (bp_name profile)) ;;;
  persist F (ps ++ [profile])%list ;;;
  ret (redacted profile).

(** [format!("{CACERT_DIR}/{id}.pem")] as a path. *)
Definition cacert_path (id : string) : Path := (CACERT_DIR ++ components (id ++ ".pem"))%list.

(** A failure to remove is only logged. *)
Definition drop_cacert (F : Faults) (id : string) : Bk unit :=
  _ <- attempt (E := IoErr) (on_disk (remove_file F (cacert_path id))) ;; ret tt.

(** [next[idx] = x] of the first profile with the id. *)
Definition position (id : string) (ps : list BackupProfile) : option nat :=
  fst <$> list_find (fun p => bp_id p = id) ps.

Definition update_profile (F : Faults) (between : BkWorld -> BkWorld) (id : string) (update : BackupProfile) : Bk BackupProfile :=
  lift (validate_sources (bp_sources update)) ;;;
  existing <- get_profile_internal id ;;
  let update := invalidate_last_run_if_definition_changed
                  (carry_forward_existing_secrets (normalized update) existing) existing in
  lift (check_cacert update) ;;;
  let update := encrypt_profile_secrets_in_place update in
  modify between ;;;
  ps <- gets bk_profiles ;;
  idx <- lift (ok_or (position id ps) (ProfileNotFound id)) ;;
  persistence <- attempt (persist_profiles F (<[idx := update]> ps)) ;;
  (if persistence_committed persistence && negb (is_some (bp_trusted_cacert update)) then drop_cacert F id else ret tt) ;;;
  lift (map_err persist_error persistence) ;;;
  ret (redacted update).

Definition delete_profile (F : Faults) (id : string) : Bk unit :=
  ps <- gets bk_profiles ;;
  throw_if (negb (existsb (fun p => bp_id p =s id) ps)) (ProfileNotFound id) ;;;
  persistence <- attempt (persist_profiles F (List.filter (fun p => negb (bp_id p =s id)) ps)) ;;
  (if persistence_committed persistence then drop_cacert F id else ret tt) ;;;
  lift (map_err persist_error persistence).

(** One profile of [migrate_secrets], and whether it changed. *)
Definition migrate_one (p : BackupProfile) : BackupProfile * bool :=
  let '(t, norm) := normalize_rest_url_userinfo (bp_target p) in
  let p1 := set_secrets t (bp_password p) (bp_password_encrypted p) p in
  let p2 := encrypt_profile_secrets_in_place p1 in
  let sealed q := (is_some (bp_password_encrypted q), encrypted_target_set (bp_target q)) in
  (p2, norm || negb (bool_decide (sealed p1 = sealed p2))).

Definition migrate_secrets (F : Faults) : Bk unit :=
  ps <- gets bk_profiles ;;
  if existsb (fun p => (migrate_one p).2) ps then persist F ((fun p => (migrate_one p).1) <$> ps) else ret tt.

(** [resolve_runtime]: secrets, and the trusted certificate written to its file. *)
Definition materialize_cacert (F : Faults) (id pem : string) : Bk Path :=
  let path := cacert_path id in
  let tmp := (CACERT_DIR ++ components (id ++ ".pem.tmp"))%list in
  let io {A} (m : M Disk IoErr A) : Bk A :=
    (fun w => match m (bk_disk w) with (r, d) => (map_err BackupIo r, set_bk_disk d w) end) in
  io (check F OpMkdir CACERT_DIR) ;;;
  io (fs_write F tmp pem) ;;;
  io (set_permissions F tmp 420) ;;;
  io (rename F tmp path) ;;;
  ret path.

Definition resolve_runtime (F : Faults) (p : BackupProfile) : Bk ResolvedTargetSecrets :=
  resolved <- lift (resolve_secrets (bp_target p) (bp_id p)) ;;
  match bp_trusted_cacert p with
  | None => ret resolved
  | Some pem =>
      let pem := trim pem in
      if pem =s "" then ret resolved
      else
        path <- materialize_cacert F (bp_id p) pem ;;
        ret (mkResolved (rs_s3_secret_key resolved) (rs_b2_account_key resolved) (rs_rest_password resolved) (Some path))
  end.

(** What the repository did: opened or created, and a backup with its counts. *)
Record RepoEnv := mkRepoEnv {
  re_init : result bool BackupError;
  re_backup : result (option Z * option Z * option Z) BackupError;
  re_prune : result unit BackupError;
  re_time : string;
  re_duration : Z
}.

Definition init_repo (F : Faults) (re : RepoEnv) (between : BkWorld -> BkWorld) (id : string) : Bk string :=
  profile <- get_profile_internal id ;;
  _ <- lift (resolve_profile_password profile) ;;
  _ <- resolve_runtime F profile ;;
  already <- lift (re_init re) ;;
  modify between ;;;
  ps <- gets bk_profiles ;;
  idx <- lift (ok_or (position id ps) (ProfileNotFound id)) ;;
  current <- lift (ok_or (ps !! idx) (ProfileNotFound id)) ;;
  throw_if (negb (backup_definition_matches current profile))
    (BackupFailed "profile changed during repository initialization; initialize the current target again") ;;;
  persist F (<[idx := set_initialized current]> ps) ;;;
  ret (if already : bool then "Repository already initialized" else "Repository initialized").

(** The inner [async] block of [run_backup]: the profile taken for executed, and the counts or the error. *)
Definition run_body (F : Faults) (re : RepoEnv) (between : BkWorld -> BkWorld) (run_profile : BackupProfile) (id : string)
    : Bk (BackupProfile * result (option Z * option Z * option Z) BackupError) :=
  match validate_sources (bp_sources run_profile) with
  | Err e => ret (run_profile, Err e)
  | Ok _ =>
      r <- attempt (if bp_repo_initialized run_profile then ret "" else init_repo F re between id) ;;
      match r with
      | Err e => ret (run_profile, Err e)
      | Ok _ =>
          r <- attempt (get_profile_internal id) ;;
          match r with
          | Err e => ret (run_profile, Err e)
          | Ok profile =>
              r <- attempt (_ <- lift (resolve_profile_password profile) ;;
                            _ <- resolve_runtime F profile ;;
                            lift (re_backup re)) ;;
              ret (profile, r)
          end
      end
  end.

Definition run_result (re : RepoEnv) (r : result (option Z * option Z * option Z) BackupError) : BackupRunResult :=
  match r with
  | Ok (bytes, new, changed) =>
      mkRunResult (re_time re) true "Backup completed successfully" (re_duration re) bytes new changed
  | Err e => mkRunResult (re_time re) false ("Backup failed: " ++ redact_url_credentials (display_backup_error e))
               (re_duration re) None None None
  end.

(** The record of a run: only on the profile that still has the definition that was run. *)
Definition record_run (F : Faults) (id : string) (executed : BackupProfile) (res : BackupRunResult) : Bk bool :=
  ps <- gets bk_profiles ;;
  match fst <$> list_find (fun p => bp_id p = id /\ backup_definition_matches p executed = true) ps with
  | Some idx =>
      match ps !! idx with
      | None => ret false
      | Some p =>
          r <- attempt (persist_profiles F (<[idx := set_last_run (Some res) p]> ps)) ;;
          match r with
          | Ok _ => ret true
          | Err e => throw (BackupFailed ((if rr_success res
              then "backup data was written, but recording its result failed; automatic pruning was skipped"
              else "the backup failed, and recording its result also failed") ++ ": " ++ display_backup_error (persist_error e)))
          end
      end
  | None => ret false
  end.

(** [prune] of the retention policy; a failure is only logged. *)
Definition prune (F : Faults) (re : RepoEnv) (p : BackupProfile) : Bk unit :=
  _ <- attempt (E := BackupError) (_ <- lift (resolve_profile_password p) ;;
                                   _ <- resolve_runtime F p ;;
                                   lift (re_prune re)) ;;
  ret tt.

Definition run_backup (F : Faults) (re : RepoEnv) (between1 between2 : BkWorld -> BkWorld) (id : string) : Bk BackupRunResult :=
  run_profile <- get_profile_internal id ;;
  modify (set_bk_running (Some id)) ;;;
  out <- run_body F re between1 run_profile id ;;
  modify (set_bk_running None) ;;;
  let res := run_result re out.2 in
  modify between2 ;;;
  recorded <- record_run F id out.1 res ;;
  (if rr_success res && recorded then prune F re out.1 else ret tt) ;;;
  ret res.

End Service.

(** ** Access: router/backup.rs *)

(** [strip_prefix] and [Path::components]: below [/fs], at least one name and no [..]. *)
Definition is_data_source (source : string) : bool :=
  starts_with "/" source &&
  match components source with
  | "fs" :: c :: rest => forallb (fun n => negb (n =s "..")) (c :: rest)
  | _ => false
  end.

Definition profile_requires_admin (p : BackupProfile) : bool := existsb (fun s => negb (is_data_source s)) (bp_sources p).

Definition profile_access_error (s : Session) (p : BackupProfile) : option string :=
  if is_some (s_filesystem s) || is_some (s_owner s) then Some "backup management requires an unscoped session"
  else if profile_requires_admin p && negb (bool_decide (s_role s = Admin))
  then Some "an admin session is required for system-state backup profiles"
  else None.

Definition require_profile_access `{UrlLib} (s : Session) (id : string) (w : BkWorld) : result unit string :=
  match (get_profile id w).1 with
  | Err e => Err (to_rpc_error e)
  | Ok p => match profile_access_error s p with Some m => Err m | None => Ok tt end
  end.
