(* ===== verification/Scheduler.v ===== *)
(** * The backup scheduler: nasty-backup/src/scheduler.rs

    The decision of each tick and its exact reading: once a profile has been
    looked at, a tick fires it just when an occurrence of its schedule lies
    between the previous look and now.

    ** The scheduler loop: [run_scheduler_loop] of nasty-backup/src/scheduler.rs

    One round: the profiles as the service lists them, the decision of the
    tick, and a job started for every profile that is due. *)
From Stdlib Require Import String Ascii ZArith.
From stdpp Require Import base list gmap strings numbers.
From S2P Require Import Prelude RustStr Disk AuthTypes BackupJobs Backup BackupService.

Open Scope string_scope.
Open Scope rust_scope.

(** The package [cron]: parsing, and the first occurrence after an instant. *)
Class Cron := {
  Schedule : Type;
  cron_from_str : string -> result Schedule string;
  cron_after : Schedule -> Z -> option Z
}.

(** [occurs] is the set of instants of a schedule; [after(t).next()] is its least element after [t]. *)
Class CronLaws `{Cron} := {
  occurs : Schedule -> Z -> Prop;
  cron_after_Some : forall s t u, cron_after s t = Some u ->
    (t < u)%Z /\ occurs s u /\ forall v, occurs s v -> (t < v)%Z -> (u <= v)%Z;
  cron_after_None : forall s t v, cron_after s t = None -> occurs s v -> (v <= t)%Z
}.

(** [split_whitespace().count()]; [fuel] bounds the words. *)
Fixpoint skip_word (s : string) : string :=
  match s with
  | EmptyString => EmptyString
  | String _ s' => if existsb (fun w => starts_with w s) white_space then s else skip_word s'
  end.

Fixpoint count_words (fuel : nat) (s : string) : nat :=
  match fuel with
  | 0 => 0
  | S k => let s := trim_start s in
           match s with EmptyString => 0 | _ => S (count_words k (skip_word s)) end
  end.

Definition field_count (s : string) : nat := count_words (S (String.length s)) s.

Section Tick.
Context `{Cron}.

Definition parse_cron (expr : string) : result Schedule string :=
  let trimmed := trim expr in
  let invalid e := "schedule '" ++ expr ++ "' is not a valid cron expression: " ++ e in
  match field_count trimmed with
  | 5 => map_err invalid (cron_from_str ("0 " ++ trimmed))
  | 6 | 7 => map_err invalid (cron_from_str trimmed)
  | n => Err (invalid ("expected 5, 6, or 7 fields; got " ++ fmt_nat n))
  end.

Definition should_fire (s : Schedule) (last now : Z) : option Z :=
  match cron_after s last with
  | Some next => if (next <=? now)%Z then Some next else None
  | None => None
  end.

Record SchedulerTick := mkTick {
  st_last_attempted : gmap string Z;
  st_started_at : Z
}.

Definition new_tick (started_at : Z) : SchedulerTick := mkTick ∅ started_at.

(** The schedule a profile is fired by. *)
Definition schedule_of (p : BackupProfile) : option Schedule :=
  if negb (bp_enabled p) then None
  else match bp_schedule p with
       | None => None
       | Some expr => if trim expr =s "" then None
                      else match parse_cron expr with Ok s => Some s | Err _ => None end
       end.

(** The body of the loop of [evaluate]. *)
Definition evaluate_one (started_at now : Z) (acc : gmap string Z * list string) (p : BackupProfile)
    : gmap string Z * list string :=
  let '(last_attempted, to_fire) := acc in
  match schedule_of p with
  | None => acc
  | Some s =>
      let last := default started_at (last_attempted !! bp_id p) in
      match should_fire s last now with
      | Some _ => (<[bp_id p := now]> last_attempted, (to_fire ++ [bp_id p])%list)
      | None => (<[bp_id p := last]> last_attempted, to_fire)
      end
  end.

Definition evaluate (profiles : list BackupProfile) (now : Z) (t : SchedulerTick) : list string * SchedulerTick :=
  let live := filter (fun kv => kv.1 ∈ bp_id <$> profiles) (st_last_attempted t) in
  let '(last, to_fire) := fold_left (evaluate_one (st_started_at t) now) profiles (live, []) in
  (to_fire, mkTick last (st_started_at t)).

Definition retry (profile_id : string) (t : SchedulerTick) : SchedulerTick :=
  mkTick (delete profile_id (st_last_attempted t)) (st_started_at t).

(** ** Properties *)

Context `{!CronLaws}.

Lemma should_fire_iff s last now :
  is_Some (should_fire s last now) <-> exists u, occurs s u /\ (last < u <= now)%Z.
Proof.
  unfold should_fire. destruct (cron_after s last) as [u|] eqn:E.
  - apply cron_after_Some in E as (Hlt & Ho & Hmin). destruct (Z.leb_spec u now) as [Hle|Hgt].
    + split; [intros _; exists u; auto|eauto].
    + split; [by intros []|]. intros (v & Hv & Hl & Hn). specialize (Hmin v Hv Hl). lia.
  - split; [by intros []|]. intros (v & Hv & Hl & _). apply (cron_after_None _ _ _ E) in Hv. lia.
Qed.

(** The turns of other profiles leave the entry of one alone. *)
Lemma evaluate_one_other started now acc q i :
  bp_id q <> i ->
  (evaluate_one started now acc q).1 !! i = acc.1 !! i /\ (i ∈ (evaluate_one started now acc q).2 <-> i ∈ acc.2).
Proof.
  intros Hne. unfold evaluate_one. destruct acc as [la tf]. destruct (schedule_of q) as [s|]; [|done]. cbn zeta.
  destruct (should_fire s _ now); cbn [fst snd]; rewrite lookup_insert_ne by done; [|done].
  split; [done|]. rewrite elem_of_app, list_elem_of_singleton. naive_solver.
Qed.

Lemma evaluate_loop_other started now i l : forall acc,
  i ∉ bp_id <$> l ->
  (fold_left (evaluate_one started now) l acc).1 !! i = acc.1 !! i /\
  (i ∈ (fold_left (evaluate_one started now) l acc).2 <-> i ∈ acc.2).
Proof.
  induction l as [|q l IH]; intros acc Hi; [done|]. cbn [fold_left]. cbn in Hi. apply not_elem_of_cons in Hi as [Hq Hi].
  destruct (IH (evaluate_one started now acc q) Hi) as [-> ->]. by apply evaluate_one_other.
Qed.

(** What the loop does to the entry of one profile and whether it fires it. *)
Lemma evaluate_loop started now profiles acc p s :
  NoDup (bp_id <$> profiles) -> p ∈ profiles -> schedule_of p = Some s ->
  (bp_id p ∉ acc.2) ->
  let out := fold_left (evaluate_one started now) profiles acc in
  let last := default started (acc.1 !! bp_id p) in
  (bp_id p ∈ out.2 <-> is_Some (should_fire s last now)) /\
  out.1 !! bp_id p = Some (if is_some (should_fire s last now) then now else last).
Proof.
  revert acc. induction profiles as [|q profiles IH]; intros acc Hn Hp Hs Hacc; [by apply not_elem_of_nil in Hp|].
  cbn [fold_left]. cbn in Hn. apply list.NoDup_cons in Hn as [Hq Hn].
  apply elem_of_cons in Hp as [<-|Hp].
  - destruct (evaluate_loop_other started now (bp_id p) profiles (evaluate_one started now acc p) Hq) as [E1 E2].
    cbn zeta. rewrite E1, E2. unfold evaluate_one. destruct acc as [la tf]. rewrite Hs. cbn in *.
    destruct (should_fire s _ now); cbn [fst snd is_some]; rewrite lookup_insert_eq; (split; [|done]).
    + rewrite elem_of_app, list_elem_of_singleton. naive_solver.
    + split; [done|by intros []].
  - assert (bp_id q <> bp_id p) as Hne by (intros E; apply Hq; rewrite E; by apply list_elem_of_fmap_2).
    destruct (evaluate_one_other started now acc q (bp_id p) Hne) as [E1 E2].
    destruct (IH (evaluate_one started now acc q)) as [E3 E4]; [done..|by rewrite E2|].
    cbn zeta in *. by rewrite E1 in E3, E4.
Qed.

Definition floor_of (t : SchedulerTick) (id : string) : Z := default (st_started_at t) (st_last_attempted t !! id).

Lemma evaluate_spec profiles now t p s :
  NoDup (bp_id <$> profiles) -> p ∈ profiles -> schedule_of p = Some s ->
  (bp_id p ∈ (evaluate profiles now t).1 <-> exists u, occurs s u /\ (floor_of t (bp_id p) < u <= now)%Z) /\
  floor_of (evaluate profiles now t).2 (bp_id p) =
    (if is_some (should_fire s (floor_of t (bp_id p)) now) then now else floor_of t (bp_id p)).
Proof.
  intros Hn Hp Hs. unfold evaluate.
  set (live := filter _ _). assert (live !! bp_id p = st_last_attempted t !! bp_id p) as Hl.
  { unfold live. destruct (st_last_attempted t !! bp_id p) as [x|] eqn:E.
    - apply map_lookup_filter_Some. split; [done|]. cbn. by apply (list_elem_of_fmap_2 bp_id).
    - apply map_lookup_filter_None. by left. }
  clearbody live.
  pose proof (evaluate_loop (st_started_at t) now profiles (live, []) p s Hn Hp Hs (not_elem_of_nil _)) as [E1 E2].
  cbn [fst snd] in E1, E2. rewrite Hl in E1, E2. fold (floor_of t (bp_id p)) in E1, E2.
  destruct (fold_left _ profiles (live, [])) as [la tf]. cbn in *. rewrite <- should_fire_iff. split; [done|].
  unfold floor_of at 1. cbn. by rewrite E2.
Qed.

(** C32: Once a tick has looked at a profile, the next tick fires it just when an occurrence of its schedule has
    passed since that look: no occurrence is missed between two ticks and none fires twice. *)
Theorem ticks_fire_each_occurrence_once profiles1 profiles2 now1 now2 t p1 p2 s :
  NoDup (bp_id <$> profiles1) -> NoDup (bp_id <$> profiles2) -> p1 ∈ profiles1 -> p2 ∈ profiles2 ->
  bp_id p1 = bp_id p2 -> schedule_of p1 = Some s -> schedule_of p2 = Some s ->
  (floor_of t (bp_id p1) <= now1)%Z ->
  (bp_id p2 ∈ (evaluate profiles2 now2 (evaluate profiles1 now1 t).2).1 <->
   exists u, occurs s u /\ (now1 < u <= now2)%Z).
Proof.
  intros Hn1 Hn2 Hp1 Hp2 Hid Hs1 Hs2 Hfl.
  destruct (evaluate_spec profiles1 now1 t p1 s Hn1 Hp1 Hs1) as [_ Hf].
  destruct (evaluate_spec profiles2 now2 (evaluate profiles1 now1 t).2 p2 s Hn2 Hp2 Hs2) as [E _].
  rewrite E, <- Hid, Hf. pose proof (should_fire_iff s (floor_of t (bp_id p1)) now1) as Hi.
  destruct (should_fire s _ now1); cbn [is_some]; [done|]. split; intros (u & Hu & Hlt & Hle).
  - exists u. split_and!; try done. destruct (Z.lt_ge_cases now1 u) as [|Hge]; [done|].
    assert (is_Some (None : option Z)) as [? ?]; [|done]. apply Hi. exists u. auto.
  - exists u. split_and!; try done. lia.
Qed.

(** A tick fires only enabled profiles that exist and whose schedule parses, each at most once. *)
Theorem tick_fires_only_due_profiles profiles now t i :
  i ∈ (evaluate profiles now t).1 ->
  exists p s, p ∈ profiles /\ bp_id p = i /\ bp_enabled p = true /\ schedule_of p = Some s.
Proof.
  unfold evaluate. set (live := filter _ _).
  assert (forall l acc, i ∈ (fold_left (evaluate_one (st_started_at t) now) l acc).2 ->
    i ∈ acc.2 \/ exists p s, p ∈ l /\ bp_id p = i /\ schedule_of p = Some s) as Hloop.
  { intros l. induction l as [|q l IH]; intros acc Hi; [by left|]. cbn [fold_left] in Hi.
    destruct (IH _ Hi) as [Hq|(p & s & ? & ? & ?)]; [|right; exists p, s; set_solver].
    unfold evaluate_one in Hq. destruct acc as [la tf]. destruct (schedule_of q) as [s|] eqn:Es; [|by left].
    destruct (should_fire s _ now); cbn in Hq; [|by left].
    apply elem_of_app in Hq as [?| ->%list_elem_of_singleton]; [by left|]. right. exists q, s. set_solver. }
  destruct (fold_left _ profiles (live, [])) as [la tf] eqn:E. cbn. intros Hi.
  destruct (Hloop profiles (live, [])) as [Hnil|(p & s & Hp & Hid & Hs)].
  - by rewrite E.
  - by apply not_elem_of_nil in Hnil.
  - exists p, s. split_and!; try done. unfold schedule_of in Hs. by destruct (bp_enabled p).
Qed.

(** A profile seen for the first time is fired at once if its schedule had any occurrence since the engine
    started, also one from before the profile existed. *)
Theorem new_profile_fires_for_the_past profiles now t p s u :
  NoDup (bp_id <$> profiles) -> p ∈ profiles -> schedule_of p = Some s ->
  st_last_attempted t !! bp_id p = None -> occurs s u -> (st_started_at t < u <= now)%Z ->
  bp_id p ∈ (evaluate profiles now t).1.
Proof.
  intros Hn Hp Hs Hnew Hu Hr. apply (evaluate_spec profiles now t p s Hn Hp Hs). exists u.
  unfold floor_of. by rewrite Hnew.
Qed.

End Tick.

Section Loop.
Context `{Cron} `{Rfc3339} `{UrlLib}.

(** The [for] loop; [uuid] gives the ids of new jobs. What each start returned is the log of the round. *)
Fixpoint start_due (uuid : string -> string) (now : Z) (due : list string) (t : SchedulerTick) (w : JobWorld)
    : list (string * result BackupJob JobError) * SchedulerTick * JobWorld :=
  match due with
  | [] => ([], t, w)
  | i :: due' =>
      let '(r, w') := start_job (uuid i) now i RunBackup w in
      let t' := match r with Ok _ => t | Err _ => retry i t end in
      let '(log, t'', w'') := start_due uuid now due' t' w' in
      ((i, r) :: log, t'', w'')
  end.

(** One round of the loop. *)
Definition scheduler_round (uuid : string -> string) (now : Z) (service : BkWorld) (t : SchedulerTick) (w : JobWorld) :=
  let '(due, t') := evaluate (list_profiles service) now t in
  start_due uuid now due t' w.

(** ** Properties *)

Context `{!CronLaws}.

Lemma schedule_of_redacted p : schedule_of (redacted p) = schedule_of p.
Proof. done. Qed.

Lemma floor_retry i t : floor_of (retry i t) i = st_started_at t.
Proof. unfold floor_of, retry. cbn. by rewrite lookup_delete_eq. Qed.

Lemma floor_retry_ne i j t : i <> j -> floor_of (retry i t) j = floor_of t j.
Proof. intros Hne. unfold floor_of, retry. cbn. by rewrite lookup_delete_ne. Qed.

Lemma started_evaluate profiles now t : st_started_at (evaluate profiles now t).2 = st_started_at t.
Proof. unfold evaluate. by destruct (fold_left _ _ _). Qed.

Lemma start_due_started uuid now due : forall t w, st_started_at (start_due uuid now due t w).1.2 = st_started_at t.
Proof.
  induction due as [|i due IH]; intros t w; [done|]. cbn [start_due].
  destruct (start_job (uuid i) now i RunBackup w) as [r w']. cbn zeta.
  set (t' := match r with Ok _ => t | Err _ => retry i t end). specialize (IH t' w').
  destruct (start_due uuid now due t' w') as [[log t''] w'']. cbn in *. rewrite IH. unfold t'. by destruct r.
Qed.

(** A floor that was reset stays so for the rest of the round. *)
Lemma start_due_reset uuid now due i : forall t w,
  floor_of t i = st_started_at t -> floor_of (start_due uuid now due t w).1.2 i = st_started_at t.
Proof.
  induction due as [|j due IH]; intros t w Hf; [done|]. cbn [start_due].
  destruct (start_job (uuid j) now j RunBackup w) as [r w']. cbn zeta.
  set (t' := match r with Ok _ => t | Err _ => retry j t end).
  assert (floor_of t' i = st_started_at t' /\ st_started_at t' = st_started_at t) as [Hf' Hs].
  { unfold t'. destruct r; [done|]. split; [|done]. destruct (decide (j = i)) as [->|]; [exact (floor_retry i t)|].
    by rewrite floor_retry_ne. }
  specialize (IH t' w' Hf'). destruct (start_due uuid now due t' w') as [[log t''] w'']. cbn in *. congruence.
Qed.

(** A job of the profile is unfinished. *)
Definition unfinished (w : JobWorld) (profile key : string) (j : BackupJob) : Prop :=
  jw_jobs w !! key = Some j /\ jb_profile_id j = profile /\ active j = true.
Definition busy (w : JobWorld) (profile : string) : Prop := exists key j, unfinished w profile key j.

(** The backup of the profile is registered and its task spawned. *)
Definition registered (uuid : string) (now : Z) (profile : string) (w : JobWorld) : Prop :=
  jw_jobs w !! uuid = Some (new_job uuid now profile RunBackup) /\
  jw_tasks w !! uuid = Some (mkTask profile RunBackup Spawned).

(** A start leaves the entries of all other jobs that are not finished. *)
Lemma start_job_frame uuid now i w :
  let w' := (start_job uuid now i RunBackup w).2 in
  (forall key j, key <> uuid -> active j = true -> jw_jobs w' !! key = Some j <-> jw_jobs w !! key = Some j) /\
  (forall key, key <> uuid -> jw_jobs w !! key = None -> jw_jobs w' !! key = None) /\
  (forall key, key <> uuid -> jw_tasks w' !! key = jw_tasks w !! key).
Proof.
  assert (forall (m : Jobs) key j, active j = true -> gc_locked now m !! key = Some j <-> m !! key = Some j) as Hgc.
  { intros m key j Ha. rewrite gc_lookup. pose proof (retained_active now j Ha). naive_solver. }
  assert (forall (m : Jobs) (key : string), m !! key = None -> gc_locked now m !! key = None) as Hgone.
  { intros m key Hk. apply eq_None_not_Some. intros [j [Hj _]%gc_lookup]. congruence. }
  unfold start_job, start. destruct (List.find _ _); cbn; [by auto|].
  split_and!; intros; rewrite lookup_insert_ne by done; auto.
Qed.

Lemma start_job_ok uuid now i w :
  ~ busy w i -> (start_job uuid now i RunBackup w).1 = Ok (new_job uuid now i RunBackup) /\
    registered uuid now i (start_job uuid now i RunBackup w).2.
Proof.
  intros Hb. unfold start_job, start. destruct (List.find _ _) as [j|] eqn:Ef; cbn.
  - apply List.find_some in Ef as [Hin [Hp Ha]%andb_true_iff]. destruct Hb.
    apply list_elem_of_In, list_elem_of_fmap in Hin as ([key j'] & -> & [Hk _]%elem_of_map_to_list%gc_lookup).
    exists key, j'. split_and!; [done|by apply eqb_spec|done].
  - split; [done|]. split; apply lookup_insert_eq.
Qed.

Lemma start_job_busy uuid now i w :
  busy w i -> exists key j, unfinished w i key j /\ (start_job uuid now i RunBackup w).1 = Err (AlreadyRunning i (jb_id j)).
Proof.
  intros (key & j & Hk & Hp & Ha). unfold start_job, start. destruct (List.find _ _) as [j'|] eqn:Ef; cbn.
  - apply List.find_some in Ef as [Hin [Hp' Ha']%andb_true_iff].
    apply list_elem_of_In, list_elem_of_fmap in Hin as ([key' ?] & -> & [Hk' _]%elem_of_map_to_list%gc_lookup).
    eexists key', _. split; [|done]. split_and!; [done|by apply eqb_spec|done].
  - exfalso. eapply (find_active_None i (gc_locked now (jw_jobs w)) Ef); [|exact Ha|done].
    apply gc_lookup. split; [done|by apply retained_active].
Qed.

(** The start of another profile. *)
Lemma unfinished_other uuid now i w p key j :
  i <> p -> jw_jobs w !! uuid = None ->
  unfinished (start_job uuid now i RunBackup w).2 p key j <-> unfinished w p key j.
Proof.
  intros Hne Hfresh. unfold unfinished. destruct (start_job_frame uuid now i w) as (Hj & _ & _). destruct (decide (key = uuid)) as [->|Hk].
  - rewrite Hfresh. split; [|by intros [? _]]. intros (Hl & Hp & Ha). revert Hl. unfold start_job, start.
    destruct (List.find _ _); cbn; [by intros [? _]%gc_lookup; simplify_eq|]. rewrite lookup_insert_eq. intros [= <-]. done.
  - split; intros (Hl & Hp & Ha); (split_and!; [by apply (Hj key j Hk Ha)|done..]).
Qed.

Lemma busy_other uuid now i w p :
  i <> p -> jw_jobs w !! uuid = None -> busy (start_job uuid now i RunBackup w).2 p <-> busy w p.
Proof. intros Hne Hf. split; intros (key & j & Hu); exists key, j; by eapply unfinished_other. Qed.

Lemma registered_other uuid now i w u p :
  u <> uuid -> registered u now p w -> registered u now p (start_job uuid now i RunBackup w).2.
Proof.
  intros Hne [Hj Ht]. destruct (start_job_frame uuid now i w) as (Hjobs & _ & Htasks). split; [by apply Hjobs|by rewrite Htasks].
Qed.

Section Due.
Context (uuid : string -> string) (now : Z) (uuid_inj : forall i j, uuid i = uuid j -> i = j).

(** The ids of the jobs to come are not in use. *)
Definition fresh_ids (l : list string) (w : JobWorld) : Prop := forall i, i ∈ l -> jw_jobs w !! uuid i = None.

Lemma fresh_next i l w : i ∉ l -> fresh_ids (i :: l) w -> fresh_ids l (start_job (uuid i) now i RunBackup w).2.
Proof.
  intros Hi Hf j Hj. apply start_job_frame; [intros ->%uuid_inj; done|]. apply Hf. by right.
Qed.

Lemma start_due_keeps due : forall t w i, i ∉ due -> fresh_ids due w -> NoDup due ->
  let w' := (start_due uuid now due t w).2 in
  (registered (uuid i) now i w -> registered (uuid i) now i w') /\ (forall key j, unfinished w i key j -> unfinished w' i key j).
Proof.
  induction due as [|q due IH]; intros t w i Hi Hf Hn; [done|]. cbn [start_due].
  apply not_elem_of_cons in Hi as [Hne Hi]. apply list.NoDup_cons in Hn as [Hq Hn].
  pose proof (fresh_next q due w Hq Hf) as Hf'. pose proof (Hf q ltac:(by left)) as Hfq.
  pose proof (registered_other (uuid q) now q w (uuid i) i ltac:(intros ?%uuid_inj; congruence)) as Hr.
  pose proof (fun key j => unfinished_other (uuid q) now q w i key j (not_eq_sym Hne) Hfq) as Hu.
  destruct (start_job (uuid q) now q RunBackup w) as [r w1]. cbn [snd] in *.
  set (t1 := match r with Ok _ => t | Err _ => retry q t end). specialize (IH t1 w1 i Hi Hf' Hn).
  destruct (start_due uuid now due t1 w1) as [[log t2] w2]. cbn in *. destruct IH as [IH1 IH2]. split; [auto|].
  intros key j Hk. by apply IH2, Hu.
Qed.

(** What the loop does for one profile that is due: a job if none is unfinished, the reset of its floor otherwise. *)
Lemma start_due_spec due i : forall t w,
  i ∈ due -> NoDup due -> fresh_ids due w ->
  let '(log, t', w') := start_due uuid now due t w in
  (~ busy w i -> (i, Ok (new_job (uuid i) now i RunBackup)) ∈ log /\ registered (uuid i) now i w') /\
  (busy w i -> (exists key j, unfinished w i key j /\ unfinished w' i key j /\ (i, Err (AlreadyRunning i (jb_id j))) ∈ log) /\
     floor_of t' i = st_started_at t).
Proof.
  induction due as [|q due IH]; intros t w Hin Hn Hf; [by apply not_elem_of_nil in Hin|]. cbn [start_due].
  apply list.NoDup_cons in Hn as [Hq Hn]. pose proof (fresh_next q due w Hq Hf) as Hf'. pose proof (Hf q ltac:(by left)) as Hfq.
  destruct (decide (q = i)) as [->|Hne].
  - pose proof (start_job_ok (uuid i) now i w) as Hok. pose proof (start_job_busy (uuid i) now i w) as Hbusy.
    destruct (start_job_frame (uuid i) now i w) as (Hj & _ & _).
    destruct (start_job (uuid i) now i RunBackup w) as [r w1]. cbn [fst snd] in *. set (t1 := match r with Ok _ => t | Err _ => retry i t end).
    pose proof (start_due_keeps due t1 w1 i Hq Hf' Hn) as [Hreg Hunf]. pose proof (start_due_reset uuid now due i t1 w1) as Hreset.
    destruct (start_due uuid now due t1 w1) as [[log t2] w2]. cbn in *. split.
    + intros Hb. destruct (Hok Hb) as [-> Hr]. split; [by left|by apply Hreg].
    + intros Hb. destruct (Hbusy Hb) as (key & j & Hu & ->). split.
      * exists key, j. split_and!; [done| |by left]. apply Hunf. destruct Hu as (Hk & Hp & Ha). split_and!; [|done..].
        apply Hj; [|done..]. intros ->. rewrite Hfq in Hk. done.
      * rewrite Hreset; [done|exact (floor_retry i t)].
  - apply elem_of_cons in Hin as [?|Hin]; [congruence|].
    pose proof (busy_other (uuid q) now q w i Hne Hfq) as Hb. pose proof (fun key j => unfinished_other (uuid q) now q w i key j Hne Hfq) as Hu.
    destruct (start_job (uuid q) now q RunBackup w) as [r w1]. cbn [snd] in *. set (t1 := match r with Ok _ => t | Err _ => retry q t end).
    specialize (IH t1 w1 Hin Hn Hf'). destruct (start_due uuid now due t1 w1) as [[log t2] w2]. rewrite Hb in IH.
    assert (st_started_at t1 = st_started_at t) as Hs by (unfold t1; by destruct r). rewrite Hs in IH. destruct IH as [IH1 IH2]. split.
    + intros Hnb. destruct (IH1 Hnb). split; [by right|done].
    + intros Hbb. destruct (IH2 Hbb) as [(key & j & Hk & Hk' & Hl) Hfl]. split; [|done]. exists key, j. split_and!; [by apply Hu|done|by right].
Qed.

End Due.

(** Each profile is due once. *)
Lemma due_once profiles now t : NoDup (bp_id <$> profiles) -> NoDup (evaluate profiles now t).1.
Proof.
  unfold evaluate. generalize (filter (fun kv : string * Z => kv.1 ∈ bp_id <$> profiles) (st_last_attempted t)) as live. intros live Hn.
  enough (forall l acc, exists l', (fold_left (evaluate_one (st_started_at t) now) l acc).2 = (acc.2 ++ l')%list /\ l' `sublist_of` bp_id <$> l) as Hl.
  { destruct (Hl profiles (live, [])) as (l' & E & Hs). destruct (fold_left _ _ _) as [la due]. cbn in *. subst. by eapply sublist_NoDup. }
  clear Hn. induction l as [|q l IH]; intros acc; cbn [fold_left fmap list_fmap]; [exists []; split; [by rewrite app_nil_r|done]|].
  destruct (IH (evaluate_one (st_started_at t) now acc q)) as (l' & -> & Hs). unfold evaluate_one. destruct acc as [la due].
  destruct (schedule_of q); [|exists l'; split; [done|by apply sublist_cons]].
  destruct (should_fire _ _ _); cbn; [|exists l'; split; [done|by apply sublist_cons]].
  exists (bp_id q :: l'). split; [by rewrite <- app_assoc|by apply sublist_skip].
Qed.

(** C33: In a round of the scheduler, a profile whose schedule has had an occurrence since it was last looked at and
    that has no unfinished job gets a backup job, which is in the registry, pending, with its task spawned, when the
    round ends. If a job of the profile is unfinished, the start is refused with the id of such a job, which the round
    leaves as it is, and the next round, whenever it comes, finds the profile due again if its schedule is the same.
    Assumed: the ids drawn for the new jobs are distinct and not in use, the profiles have distinct ids, and the profile
    was last looked at after the start of the engine. *)
Theorem due_profiles_start_or_retry uuid now (service : BkWorld) (t : SchedulerTick) (w : JobWorld) p s u :
  (forall i j, uuid i = uuid j -> i = j) -> (forall i, jw_jobs w !! uuid i = None) ->
  NoDup (bp_id <$> bk_profiles service) -> p ∈ bk_profiles service -> schedule_of p = Some s ->
  occurs s u -> (floor_of t (bp_id p) < u <= now)%Z -> (st_started_at t <= floor_of t (bp_id p))%Z ->
  let '(log, t', w') := scheduler_round uuid now service t w in
  (~ busy w (bp_id p) ->
     (bp_id p, Ok (new_job (uuid (bp_id p)) now (bp_id p) RunBackup)) ∈ log /\ registered (uuid (bp_id p)) now (bp_id p) w') /\
  (busy w (bp_id p) ->
     (exists key j, unfinished w (bp_id p) key j /\ unfinished w' (bp_id p) key j /\
        (bp_id p, Err (AlreadyRunning (bp_id p) (jb_id j))) ∈ log) /\
     forall later profiles q, (now <= later)%Z -> NoDup (bp_id <$> profiles) -> q ∈ profiles -> bp_id q = bp_id p ->
       schedule_of q = Some s -> bp_id p ∈ (evaluate profiles later t').1).
Proof.
  intros Hinj Hfresh Hn Hp Hs Hu Hr Hst. unfold scheduler_round.
  assert (bp_id <$> list_profiles service = bp_id <$> bk_profiles service) as Hids
    by (unfold list_profiles; by rewrite <- list_fmap_compose).
  destruct (evaluate_spec (list_profiles service) now t (redacted p) s) as [Hdue _].
  { by rewrite Hids. } { by apply list_elem_of_fmap_2. } { done. }
  pose proof (started_evaluate (list_profiles service) now t) as Hstart.
  pose proof (due_once (list_profiles service) now t ltac:(by rewrite Hids)) as Hnd.
  destruct (evaluate (list_profiles service) now t) as [due t1]. cbn [fst snd] in *.
  assert (bp_id p ∈ due) as Hin by (apply Hdue; exists u; auto).
  pose proof (start_due_spec uuid now Hinj due (bp_id p) t1 w Hin Hnd (fun i _ => Hfresh i)) as Hspec.
  destruct (start_due uuid now due t1 w) as [[log t'] w']. destruct Hspec as [Hfree Hbusy].
  split; [done|]. intros Hb. destruct (Hbusy Hb) as [Hj Hf]. split; [done|].
  intros later profiles q Hl Hn' Hq Hid Hs'. rewrite <- Hid.
  apply (evaluate_spec profiles later t' q s Hn' Hq Hs'). exists u. split; [done|]. rewrite Hid, Hf. lia.
Qed.

End Loop.
