(* ===== verification/BackupProps.v ===== *)
(** * Backup profiles: correctness

    What is in memory is what is stored, whatever fails; secrets resolve to
    what was given, sealed or not; what leaves the service shows no secret. *)
From Stdlib Require Import String Ascii ZArith.
From stdpp Require Import base list gmap strings numbers.
From S2P Require Import Prelude RustStr Disk StateStore Records AuthTypes Backup BackupService.

Open Scope string_scope.
Open Scope rust_scope.

(** ** The state file *)

Section Stored.
Context `{!Codec (list BackupProfile)}.

Definition TEMP_PATH : Path := ["var"; "lib"; "nasty"; ".backups.json.tmp"].

(** A disk call that changed neither the plainness of the disk nor the state file. *)
Abbreviation same_state d := (framed (eq STATE_PATH) d).

(** What a restart would read. *)
Definition stored (d : Disk) : result (list BackupProfile) string :=
  match content_at d STATE_PATH with Some s => decode s | None => Ok [] end.

Lemma stored_framed d d' : same_state d d' -> stored d' = stored d.
Proof. intros [_ Hk]. unfold stored, content_at. by rewrite Hk. Qed.

Lemma keeps_create_new keep d0 F p mode d :
  ~ keep p -> framed keep d0 d -> keeps (framed keep d0) (create_new F p mode) d.
Proof.
  intros Hp Hd. unfold create_new. apply keeps_bind; [by apply keeps_check|]. intros _ d' Hd'. keeps_go.
  by apply framed_insert.
Qed.

Lemma keeps_write_all keep d0 F p s d :
  ~ keep p -> framed keep d0 d -> keeps (framed keep d0) (write_all F p s) d.
Proof.
  intros Hp [Hd Hk]. assert (forall s, framed keep d0 (alter (set_content s) p d)) as Ha.
  { intros t. split.
    - intros q f. rewrite lookup_alter. case_decide; [subst|apply Hd].
      destruct (d !! q) as [g|] eqn:E; [|done]. intros [= <-]. rewrite is_regular_set_content. exact (Hd _ _ E).
    - intros q Hq. rewrite lookup_alter_ne by congruence. auto. }
  unfold write_all. destruct (fault F OpWrite p); apply Ha.
Qed.

Lemma create_new_created F p mode d d' :
  create_new F p mode d = (Ok tt, d') -> d' = <[p := mkFile Regular mode engine_uid ""]> d.
Proof.
  unfold create_new, bind, check, gets, modify, throw_if, ret, throw.
  destruct (fault F OpCreateNew p); [done|]. destruct (is_some (d !! p)); [done|]. by intros [= <-].
Qed.

(** The closure: the new text in place, or the state file as it was. *)
Lemma commit_state_spec F s d0 d :
  same_state d0 d -> is_Some (d !! TEMP_PATH) ->
  wp (commit_state F TEMP_PATH STATE_PATH s)
    (fun r d' => match r with
                 | Ok _ => plain d' /\ content_at d' STATE_PATH = Some s
                 | Err _ => same_state d0 d'
                 end) d.
Proof.
  intros Hd [f Hf]. pose proof (keeps_write_all (eq STATE_PATH) d0 F TEMP_PATH s d ltac:(done) Hd) as H1.
  unfold keeps, wp in H1. unfold commit_state, wp, bind, bk_io, check.
  destruct (write_all F TEMP_PATH s d) as [[[]|e] d1] eqn:E; cbn in H1 |- *; [|done].
  destruct (fault F OpSync TEMP_PATH); cbn; [done|].
  unfold rename, bind, check, gets. destruct (fault F OpRename TEMP_PATH); cbn; [done|].
  assert (d1 !! TEMP_PATH = Some (set_content s f)) as ->.
  { unfold write_all, bind, modify, throw in E. destruct (fault F OpWrite TEMP_PATH); [done|].
    injection E as <-. by rewrite lookup_alter_eq, Hf. }
  cbn. split.
  - apply plain_insert; [apply plain_delete, H1|]. rewrite is_regular_set_content. exact (proj1 Hd _ _ Hf).
  - unfold content_at. by rewrite lookup_insert_eq.
Qed.

(** Storing: done, done but not synced, or nothing changed. *)
Lemma save_profiles_spec F ps d :
  plain d ->
  wp (save_profiles_to F STATE_PATH ps)
    (fun r d' => if persistence_committed r
                 then plain d' /\ exists s, encode ps = Ok s /\ content_at d' STATE_PATH = Some s
                 else same_state d d') d.
Proof.
  intros Hd. assert (same_state d d) as H0 by by apply framed_refl.
  unfold save_profiles_to. do 2 (apply wp_bind, wp_lift; cbn [map_err ok_or]).
  apply wp_bind, wp_lift. destruct (encode ps) as [s|e]; cbn [map_err]; [|done].
  apply wp_bind. unfold wp at 1, bk_io.
  pose proof (keeps_create_new (eq STATE_PATH) d F TEMP_PATH 384 d ltac:(done) H0) as H1. unfold keeps, wp in H1.
  change (removelast STATE_PATH ++ [("." ++ "backups.json" ++ ".tmp")%string])%list with TEMP_PATH in *.
  destruct (create_new F TEMP_PATH 384 d) as [[[]|e] d1] eqn:E1; cbn [fst snd map_err] in *; [|done].
  apply create_new_created in E1 as ->.
  apply wp_bind, wp_attempt.
  eapply wp_mono; [|apply (commit_state_spec F s d); [done|rewrite lookup_insert_eq; eauto]].
  intros [[]|e] d2 H2; cbn beta iota in *.
  - destruct H2 as [Hp Hc]. unfold wp, bind, attempt, check.
    destruct (fault F OpOpenDir _); [cbn; eauto|]. destruct (fault F OpSyncDir _); cbn; eauto.
  - apply wp_bind, wp_attempt. eapply wp_mono; [|apply (keeps_remove (eq STATE_PATH) d F TEMP_PATH d2); done].
    intros [[]|e'] d3 H3; [done|]. apply wp_bind, wp_attempt.
    eapply wp_mono; [|apply (keeps_remove (eq STATE_PATH) d F TEMP_PATH d3); done]. done.
Qed.

(** ** Memory and file agree *)

Context `{!CodecLaws (list BackupProfile)}.

(** The profiles in memory are those of the file, and ids are unique. *)
Record BkInv (w : BkWorld) : Prop := {
  bi_plain : plain (bk_disk w);
  bi_stored : stored (bk_disk w) = Ok (bk_profiles w);
  bi_unique : NoDup (bp_id <$> bk_profiles w)
}.

(** A commit publishes the new profiles, a failure before it changes nothing. *)
Lemma persist_profiles_spec F next w :
  BkInv w -> NoDup (bp_id <$> next) ->
  wp (persist_profiles F next)
    (fun r w' => BkInv w' /\ bk_running w' = bk_running w /\
                 bk_profiles w' = if persistence_committed r then next else bk_profiles w) w.
Proof.
  intros [Hp Hs Hu] Hn. pose proof (save_profiles_spec F next (bk_disk w) Hp) as Hsave.
  unfold persist_profiles, publish_profiles, on_disk, attempt. unfold wp, bind, lift, modify in *.
  destruct (save_profiles_to F STATE_PATH next (bk_disk w)) as [r d]. cbn [fst snd] in *.
  destruct (persistence_committed r) eqn:Hc; cbn; rewrite ?Hc; (split_and!; [|done|done]); split; cbn; try done.
  - apply Hsave.
  - destruct Hsave as (_ & s & He & Hs1). unfold stored. rewrite Hs1. by apply decode_encode.
  - apply Hsave.
  - by rewrite (stored_framed _ _ Hsave).
Qed.

Lemma keeps_persist_profiles F next w :
  BkInv w -> NoDup (bp_id <$> next) -> keeps BkInv (persist_profiles F next) w.
Proof. intros Hw Hn. eapply wp_mono; [|by apply persist_profiles_spec]. by intros r w' [? _]. Qed.

Lemma keeps_persist F next w : BkInv w -> NoDup (bp_id <$> next) -> keeps BkInv (persist F next) w.
Proof.
  intros Hw Hn. unfold persist. apply keeps_bind; [by apply keeps_attempt, keeps_persist_profiles|].
  intros. by apply keeps_lift_last.
Qed.

Lemma keeps_on_disk {E A} (m : M Disk E A) w :
  BkInv w -> keeps (same_state (bk_disk w)) m (bk_disk w) -> keeps BkInv (on_disk m) w.
Proof.
  intros [Hp Hs Hu] Hk. unfold keeps, wp, on_disk in *. destruct (m (bk_disk w)) as [r d]. cbn in *.
  split; cbn; [apply Hk| |done]. by rewrite (stored_framed _ _ Hk).
Qed.

(** *** Certificates are other files *)

Lemma cacert_not_state (c : Path) : STATE_PATH <> (CACERT_DIR ++ c)%list.
Proof. done. Qed.

Lemma keeps_drop_cacert F id w : BkInv w -> keeps BkInv (drop_cacert F id) w.
Proof.
  intros Hw. unfold drop_cacert. apply keeps_bind; [|by intros; apply keeps_ret].
  apply keeps_attempt, keeps_on_disk; [done|]. apply keeps_remove; [apply cacert_not_state|].
  apply framed_refl, Hw.
Qed.

Lemma keeps_chmod keep d0 F p mode d :
  ~ keep p -> framed keep d0 d -> keeps (framed keep d0) (set_permissions F p mode) d.
Proof.
  intros Hp Hd. unfold keeps, wp, set_permissions, check, gets, bind, throw, ret, modify.
  destruct (fault F OpChmod p); [done|]. destruct (d !! p) as [f|] eqn:E; [|done]. cbn.
  apply framed_insert; [done| |done]. pose proof (proj1 Hd _ _ E). by destruct f.
Qed.

Lemma keeps_materialize F id pem w : BkInv w -> keeps BkInv (materialize_cacert F id pem) w.
Proof.
  intros Hw. unfold materialize_cacert. cbn zeta.
  assert (forall A (m : M Disk IoErr A) v, BkInv v -> keeps (same_state (bk_disk v)) m (bk_disk v) ->
    keeps BkInv (fun w : BkWorld => match m (bk_disk w) with
                        | (r, d) => (map_err BackupIo r, set_bk_disk d w) end) v) as Hio.
  { intros A m v Hv Hk. pose proof (keeps_on_disk m v Hv Hk) as Hd. unfold keeps, wp, on_disk in *.
    by destruct (m (bk_disk v)). }
  repeat (apply keeps_bind; [|intros]); try apply Hio; try done; try apply keeps_ret; try done.
  - apply keeps_check, framed_refl, Hw.
  - apply keeps_fs_write; [apply cacert_not_state|]. by apply framed_refl, bi_plain.
  - apply keeps_chmod; [apply cacert_not_state|]. by apply framed_refl, bi_plain.
  - apply keeps_rename; [apply cacert_not_state..|]. by apply framed_refl, bi_plain.
Qed.

#[local] Hint Resolve keeps_persist keeps_persist_profiles keeps_drop_cacert keeps_materialize : rust.

(** *** Operations *)

Context `{UrlLib} `{Vault}.

Lemma id_encrypt p : bp_id (encrypt_profile_secrets_in_place p) = bp_id p.
Proof. unfold encrypt_profile_secrets_in_place. by destruct (seal_field _ _ _). Qed.

Lemma id_carry p q : bp_id (carry_forward_existing_secrets p q) = bp_id p.
Proof. unfold carry_forward_existing_secrets. by destruct (carry _ _ _ _). Qed.

Lemma id_invalidate p q : bp_id (invalidate_last_run_if_definition_changed p q) = bp_id p.
Proof. unfold invalidate_last_run_if_definition_changed. by destruct (backup_definition_matches p q). Qed.

Lemma id_migrate p : bp_id (migrate_one p).1 = bp_id p.
Proof. unfold migrate_one. destruct (normalize_rest_url_userinfo _). cbn. by rewrite id_encrypt. Qed.

Lemma position_Some id ps idx : position id ps = Some idx -> exists p, ps !! idx = Some p /\ bp_id p = id.
Proof.
  unfold position. destruct (list_find _ ps) as [[i p]|] eqn:E; [|done]. intros [= <-].
  apply list_find_Some in E as (Hi & Hid & _). eauto.
Qed.

(** Replacing a profile by one with its id. *)
Lemma ids_insert (ps : list BackupProfile) idx p q :
  ps !! idx = Some p -> bp_id q = bp_id p -> bp_id <$> <[idx := q]> ps = bp_id <$> ps.
Proof. intros Hp Hq. rewrite list_fmap_insert, Hq. apply list_insert_id. by rewrite list_lookup_fmap, Hp. Qed.

(** The id of a profile that passed the check for duplicates is new. *)
Lemma no_duplicate_id q ps :
  existsb (fun p => (bp_id p =s bp_id q) || (bp_name p =s bp_name q)) ps = false ->
  existsb (fun p => bp_id p =s bp_id q) ps = false.
Proof. rewrite !existsb_none. intros Hn p Hp. by apply Hn, orb_false_iff in Hp as [? _]. Qed.

Lemma ids_append q ps :
  existsb (fun p => bp_id p =s bp_id q) ps = false -> NoDup (bp_id <$> ps) -> NoDup (bp_id <$> (ps ++ [q])%list).
Proof.
  rewrite existsb_none. intros Hn Hu. rewrite fmap_app. apply list.NoDup_app.
  split_and!; [done| |apply list.NoDup_singleton]. intros i Hi ->%list_elem_of_singleton.
  apply list_elem_of_fmap in Hi as (p & Hid & Hp). apply Hn, String.eqb_neq in Hp. congruence.
Qed.

Lemma keeps_create F uuid8 p w : BkInv w -> keeps BkInv (create_profile F uuid8 p) w.
Proof.
  intros Hw. unfold create_profile. keeps_go. apply keeps_persist; [done|].
  apply ids_append; [by apply no_duplicate_id|by apply bi_unique].
Qed.

Lemma keeps_get_internal id w : BkInv w -> keeps BkInv (get_profile_internal id) w.
Proof. intros. unfold get_profile_internal. keeps_go. Qed.

Lemma keeps_modify (f : BkWorld -> BkWorld) w :
  BkInv w -> (forall v, BkInv v -> BkInv (f v)) -> keeps BkInv (modify (E := BackupError) f) w.
Proof. intros Hw Hf. by apply Hf. Qed.

#[local] Hint Resolve keeps_get_internal keeps_modify : rust.

Lemma keeps_update F between id p w :
  BkInv w -> (forall v, BkInv v -> BkInv (between v)) -> bp_id p = id -> keeps BkInv (update_profile F between id p) w.
Proof.
  intros Hw Hb Hid. unfold update_profile. keeps_go. apply keeps_attempt, keeps_persist_profiles; [done|].
  match goal with Hx : ok_or (position _ _) _ = Ok _ |- _ =>
    destruct (position id _) as [i|] eqn:Hpos; [injection Hx as <-|done] end.
  apply position_Some in Hpos as (q & Hq & Hqid). erewrite ids_insert; [|done|].
  - by apply bi_unique.
  - rewrite id_encrypt, id_invalidate, id_carry. cbn. congruence.
Qed.

Lemma keeps_delete F id w : BkInv w -> keeps BkInv (delete_profile F id) w.
Proof.
  intros Hw. unfold delete_profile. keeps_go. apply keeps_attempt, keeps_persist_profiles; [done|].
  destruct Hw as [_ _ Hu]. revert Hu. generalize (bk_profiles w). intros ps.
  induction ps as [|p ps IH]; [done|]. cbn. intros [Hp Hu]%list.NoDup_cons.
  destruct (bp_id p =s id); cbn; [by apply IH|]. cbn. apply list.NoDup_cons. split; [|by apply IH].
  intros (q & Hq & Hin)%list_elem_of_fmap. apply Hp, list_elem_of_fmap. exists q. split; [done|].
  by apply elem_of_retain in Hin as [_ ?].
Qed.

Lemma keeps_migrate F w : BkInv w -> keeps BkInv (migrate_secrets F) w.
Proof.
  intros Hw. unfold migrate_secrets. keeps_go. apply keeps_persist; [done|].
  rewrite <- list_fmap_compose. erewrite list_fmap_ext; [by apply bi_unique|]. intros i q _. apply id_migrate.
Qed.

Lemma keeps_resolve_runtime F p w : BkInv w -> keeps BkInv (resolve_runtime F p) w.
Proof. intros Hw. unfold resolve_runtime. keeps_go. Qed.

#[local] Hint Resolve keeps_resolve_runtime : rust.

Lemma keeps_init F re between id w :
  BkInv w -> (forall v, BkInv v -> BkInv (between v)) -> keeps BkInv (init_repo F re between id) w.
Proof.
  intros Hw Hb. unfold init_repo. keeps_go. apply keeps_persist; [done|].
  match goal with Hx : ok_or (_ !! _) _ = Ok _ |- _ => destruct (_ !! _) eqn:Hq in Hx; [injection Hx as ->|done] end.
  erewrite ids_insert; [|done|done]. by apply bi_unique.
Qed.

#[local] Hint Resolve keeps_init : rust.

Lemma set_running_inv r v : BkInv v -> BkInv (set_bk_running r v).
Proof. by intros [? ? ?]. Qed.

#[local] Hint Resolve set_running_inv : rust.

Lemma keeps_run_body F re between p id w :
  BkInv w -> (forall v, BkInv v -> BkInv (between v)) -> keeps BkInv (run_body F re between p id) w.
Proof. intros Hw Hb. unfold run_body. keeps_go; apply keeps_attempt; keeps_go. Qed.

(** [next] is [ps] with the result of a run noted on a profile [id] that has the definition that ran. *)
Definition noted (id : string) (executed : BackupProfile) (res : BackupRunResult) (ps next : list BackupProfile) : Prop :=
  exists idx p, ps !! idx = Some p /\ bp_id p = id /\ backup_definition_matches p executed = true /\
                next = <[idx := set_last_run (Some res) p]> ps.

Lemma record_run_spec F id executed res w :
  BkInv w ->
  wp (record_run F id executed res)
    (fun r w' => BkInv w' /\ bk_running w' = bk_running w /\
       match r with
       | Ok true => noted id executed res (bk_profiles w) (bk_profiles w')
       | Ok false => w' = w /\ forall p, p ∈ bk_profiles w -> bp_id p = id -> backup_definition_matches p executed = false
       | Err _ => bk_profiles w' = bk_profiles w \/ noted id executed res (bk_profiles w) (bk_profiles w')
       end) w.
Proof.
  intros Hw. unfold record_run. apply wp_bind, wp_gets.
  destruct (list_find _ (bk_profiles w)) as [[idx p]|] eqn:E; cbn [fmap option_fmap option_map fst].
  - apply list_find_Some in E as (Hi & [Hid Hm] & _). rewrite Hi. apply wp_bind, wp_attempt.
    assert (noted id executed res (bk_profiles w) (<[idx := set_last_run (Some res) p]> (bk_profiles w))) as Hnote
      by (exists idx, p; auto).
    eapply wp_mono; [|apply (persist_profiles_spec F (<[idx := set_last_run (Some res) p]> (bk_profiles w))); [done|]].
    + intros r w' (Hw' & Hr & Hp). destruct r as [[]|e]; cbn in Hp; [apply wp_ret|apply wp_throw]; (split_and!; [done..|]);
        rewrite Hp; [done|]. destruct (committed e); auto.
    + rewrite (ids_insert _ _ p); [apply Hw|done|done].
  - apply list_find_None in E. apply wp_ret. split_and!; [done..|]. intros p Hp Hid.
    rewrite Forall_forall in E. specialize (E p ltac:(by apply list_elem_of_In)). destruct (backup_definition_matches p executed); [|done]. by destruct E.
Qed.

Lemma keeps_record_run F id executed res w : BkInv w -> keeps BkInv (record_run F id executed res) w.
Proof. intros Hw. eapply wp_mono; [|by apply record_run_spec]. by intros ? ? [? _]. Qed.

Lemma keeps_prune_policy F re p w : BkInv w -> keeps BkInv (prune F re p) w.
Proof. intros Hw. unfold prune. keeps_go. apply keeps_attempt. keeps_go. Qed.

#[local] Hint Resolve keeps_run_body keeps_record_run keeps_prune_policy : rust.

Lemma keeps_run F re between1 between2 id w :
  BkInv w -> (forall v, BkInv v -> BkInv (between1 v)) -> (forall v, BkInv v -> BkInv (between2 v)) ->
  keeps BkInv (run_backup F re between1 between2 id) w.
Proof. intros Hw H1 H2. unfold run_backup. keeps_go. Qed.

(** *** Calls *)

(** The calls that change the service. [between] is what other calls did while the lock was free. *)
Inductive BkCall :=
| CallCreate (F : Faults) (uuid8 : string) (p : BackupProfile)
| CallUpdate (F : Faults) (between : BkWorld -> BkWorld) (id : string) (p : BackupProfile)
| CallDelete (F : Faults) (id : string)
| CallMigrate (F : Faults)
| CallInit (F : Faults) (re : RepoEnv) (between : BkWorld -> BkWorld) (id : string)
| CallRun (F : Faults) (re : RepoEnv) (between1 between2 : BkWorld -> BkWorld) (id : string).

Definition exec (c : BkCall) (w : BkWorld) : BkWorld :=
  match c with
  | CallCreate F u p => (create_profile F u p w).2
  | CallUpdate F b i p => (update_profile F b i p w).2
  | CallDelete F i => (delete_profile F i w).2
  | CallMigrate F => (migrate_secrets F w).2
  | CallInit F re b i => (init_repo F re b i w).2
  | CallRun F re b1 b2 i => (run_backup F re b1 b2 i w).2
  end.

(** What happens in between keeps the invariant, and the profile of an update has the id of the request: the
    router reads both from the same field. *)
Definition regular (c : BkCall) : Prop :=
  let safe b := forall v, BkInv v -> BkInv (b v) in
  match c with
  | CallUpdate _ b i p => safe b /\ bp_id p = i
  | CallInit _ _ b _ => safe b
  | CallRun _ _ b1 b2 _ => safe b1 /\ safe b2
  | _ => True
  end.

Lemma bk_exec_inv c w : regular c -> BkInv w -> BkInv (exec c w).
Proof.
  destruct c; cbn [exec regular]; intros Hc Hw.
  - by apply keeps_create.
  - destruct Hc. by apply keeps_update.
  - by apply keeps_delete.
  - by apply keeps_migrate.
  - by apply keeps_init.
  - destruct Hc. by apply keeps_run.
Qed.

Lemma restart_profiles w : BkInv w -> bk_profiles (new_service no_faults (bk_disk w)) = bk_profiles w.
Proof.
  intros [Hp Hs Hu]. unfold new_service.
  assert (same_state (bk_disk w) (cleanup_stale_state_temp no_faults STATE_PATH (bk_disk w)).2) as Hd.
  { apply (keeps_bind _ (attempt (E := IoErr) (remove_file no_faults TEMP_PATH))); [|by intros; apply keeps_ret].
    apply keeps_attempt, keeps_remove; [done|]. by apply framed_refl. }
  revert Hd. generalize (cleanup_stale_state_temp no_faults STATE_PATH (bk_disk w)).2. intros d Hd.
  apply stored_framed in Hd as Hst. rewrite Hs in Hst. unfold stored in Hst.
  unfold load_profiles, load_profiles_from, bind, attempt. rewrite read_plain by apply Hd. cbn.
  destruct (content_at d STATE_PATH) as [s|]; cbn in *; [by rewrite Hst|congruence].
Qed.

(** C24: Whatever calls on profiles run, in whatever order and with whatever disk failures, the profiles in
    memory are exactly those a restart would read back, and ids stay unique. *)
Theorem profiles_stay_stored (calls : list BkCall) (w : BkWorld) :
  BkInv w -> Forall regular calls ->
  let w' := fold_left (fun v c => exec c v) calls w in
  NoDup (bp_id <$> bk_profiles w') /\ bk_profiles (new_service no_faults (bk_disk w')) = bk_profiles w'.
Proof.
  intros Hw Hc. assert (BkInv (fold_left (fun v c => exec c v) calls w)) as Hw'.
  { revert w Hw. induction Hc as [|c calls Hc _ IH]; intros w Hw; [done|]. cbn. apply IH. by apply bk_exec_inv. }
  split; [apply Hw'|by apply restart_profiles].
Qed.

(** The result of a run is noted only on a profile that still has the sources, target and secrets that were
    backed up, and changes nothing else; a profile that changed meanwhile is left as it is. *)
Theorem only_current_runs_recorded F id executed res (w : BkWorld) :
  BkInv w ->
  match record_run F id executed res w with
  | (Ok true, w') => noted id executed res (bk_profiles w) (bk_profiles w')
  | (Ok false, w') => w' = w /\ forall p, p ∈ bk_profiles w -> bp_id p = id -> backup_definition_matches p executed = false
  | (Err _, w') => bk_profiles w' = bk_profiles w \/ noted id executed res (bk_profiles w) (bk_profiles w')
  end.
Proof.
  intros Hw. pose proof (record_run_spec F id executed res w Hw) as (_ & _ & Hr).
  by destruct (record_run F id executed res w) as [r w'].
Qed.

End Stored.

(** ** Access *)

(** A session that may act on a backup profile and is not an administrator's is unscoped, and every source of
    the profile is a path below a filesystem of the NAS that does not climb back up. *)
Theorem operators_reach_data_only `{UrlLib} `{Vault} (s : Session) id (w : BkWorld) :
  require_profile_access s id w = Ok tt -> s_role s <> Admin ->
  exists p, (get_profile_internal id w).1 = Ok p /\ s_filesystem s = None /\ s_owner s = None /\
    forall src, src ∈ bp_sources p ->
      starts_with "/" src = true /\ exists c rest, components src = "fs" :: c :: rest /\ ".." ∉ c :: rest.
Proof.
  unfold require_profile_access, get_profile, bind. destruct (get_profile_internal id w) as [[p|e] w']; cbn; [|done].
  unfold profile_access_error. destruct (s_filesystem s), (s_owner s); cbn -[profile_requires_admin]; try done.
  destruct (profile_requires_admin (redacted p)) eqn:Ha; cbn -[profile_requires_admin].
  { case_bool_decide; cbn; intros Hr Hs; [by destruct Hs|done]. }
  intros _ _. exists p. split_and!; [done..|]. intros src Hsrc. unfold profile_requires_admin in Ha. cbn in Ha.
  apply (proj1 (existsb_none _ _)) with (x := src) in Ha; [|done]. apply negb_false_iff in Ha. unfold is_data_source in Ha.
  apply andb_true_iff in Ha as [Ha Hc]. split; [done|].
  destruct (components src) as [|f [|c rest]]; [done|by repeat case_match|].
  assert (f = "fs" /\ forallb (fun n => negb (n =s "..")) (c :: rest) = true) as [-> Hall] by by repeat case_match.
  exists c, rest. split; [done|]. intros Hin%list_elem_of_In.
  rewrite forallb_forall in Hall. by specialize (Hall _ Hin).
Qed.
