(* ===== verification/AlertService.v ===== *)
(** * Alert rules and their evaluation: nasty-system/src/alerts.rs

    [f64] is IEEE 754 binary64 as [SpecFloat] computes it. How Rust prints a
    float with a number of decimals is the class [FmtFixed].

    ** The alert service: [AlertService] of nasty-system/src/alerts.rs

    Rules and occurrences in memory, the number of changes, and the state file.
    An occurrence lives from the evaluation that first reports its alert to the
    first that could have reported it and does not. *)
From Stdlib Require Import String Ascii ZArith SpecFloat.
From stdpp Require Import base list gmap strings numbers.
From S2P Require Import Prelude RustStr Disk StateStore.

Open Scope string_scope.
Open Scope rust_scope.

(** ** Floats *)

Abbreviation f64 := spec_float.

(** [x as f64] of an integer. *)
Definition f64_of (z : Z) : f64 := binary_normalize 53 1024 z 0 false.
Definition f64_div (a b : f64) : f64 := SFdiv 53 1024 a b.
Definition f64_mul (a b : f64) : f64 := SFmul 53 1024 a b.
Definition f64_sub (a b : f64) : f64 := SFsub 53 1024 a b.

(** The literal [0.001]. *)
Definition milli : f64 := S754_finite false 4611686018427388 (-62).

(** [format!("{:.n}", x)]. *)
Class FmtFixed := fmt_fixed : nat -> f64 -> string.

(** ** Data *)

Inductive AlertMetric :=
| FsUsagePercent | CpuLoadPercent | MemoryUsagePercent | DiskTemperature | SmartHealth | SmartAttribute
| SwapUsagePercent | BcachefsDegraded | BcachefsDeviceError | BcachefsDeviceState | BcachefsIOErrors
| BcachefsScrubErrors | BcachefsReconcileStalled | RootDiskFreeGb | BootDiskFreeMb | CertificateExpiryDays
| CertificateRenewalFailure | BackupFailureMetric | KernelErrors.

#[export] Instance AlertMetric_eq_dec : EqDecision AlertMetric.
Proof. solve_decision. Defined.

Inductive AlertCondition := Above | Below | Equals.
Inductive AlertSeverity := Warning | Critical.

Record AlertRule := mkRule {
  ar_id : string;
  ar_name : string;
  ar_enabled : bool;
  ar_metric : AlertMetric;
  ar_condition : AlertCondition;
  ar_threshold : f64;
  ar_severity : AlertSeverity
}.

Record ActiveAlert := mkAlert {
  aa_rule_id : string;
  aa_rule_name : string;
  aa_severity : AlertSeverity;
  aa_metric : AlertMetric;
  aa_message : string;
  aa_current_value : f64;
  aa_threshold : f64;
  aa_source : string
}.

(** What of [SystemStats] the rules read. *)
Record SystemStats := mkStats {
  cpu_count : Z;
  cpu_load_1 : f64;
  mem_total_bytes : Z;
  mem_used_bytes : Z;
  swap_total_bytes : Z;
  swap_used_bytes : Z
}.

Record FsUsage := mkFsUsage { fu_name : string; fu_used_bytes : Z; fu_total_bytes : Z }.

Record CertificateHealth := mkCert {
  ce_host : string;
  ce_expires_in_days : option Z;
  ce_renewal_error : option string
}.

Record BackupFailure := mkBackupFailure {
  bf_profile_id : string;
  bf_profile_name : string;
  bf_timestamp : string;
  bf_message : string
}.

Record DiskHealthSummary := mkDiskHealth {
  dh_device : string;
  dh_transport : option string;
  dh_temperature_c : option Z;
  dh_health_passed : bool;
  dh_smart_status : string;
  dh_critical_attrs_with_value : list (Z * Z)
}.

Record KernelErrorAlert := mkKernelErrors { ke_total_count : Z; ke_categories : list string }.

Record BcachefsDeviceHealth := mkDevHealth { bd_path : string; bd_state : string; bd_has_errors : bool }.

Record BcachefsHealth := mkBcachefs {
  bh_fs_name : string;
  bh_degraded : bool;
  bh_devices : list BcachefsDeviceHealth;
  bh_io_error_count : Z;
  bh_scrub_errors : bool;
  bh_reconcile_stalled : bool
}.

Record DiskFreeSpace := mkFree { root_free_gb : option f64; boot_free_mb : option f64 }.

Definition CRITICAL_ATA_ATTRIBUTES : list (Z * string) :=
  [(5%Z, "Reallocated Sectors Count"); (10%Z, "Spin Retry Count"); (184%Z, "End-to-End Error");
   (187%Z, "Reported Uncorrectable Errors"); (188%Z, "Command Timeout"); (196%Z, "Reallocation Event Count");
   (197%Z, "Current Pending Sector Count"); (198%Z, "Offline Uncorrectable Sector Count"); (201%Z, "Soft Read Error Rate")].

(** [collect_critical_ata_attrs]: attributes are pairs of id and raw value. *)
Definition collect_critical_ata_attrs (smart_status : string) (rotational : option bool) (attributes : list (Z * Z))
    : list (Z * Z) :=
  if (smart_status =s "UNAVAILABLE") || negb (bool_decide (rotational = Some true)) then []
  else List.filter (fun a => existsb (fun c => Z.eqb c.1 a.1) CRITICAL_ATA_ATTRIBUTES) attributes.

(** [DiskHealthSummary::label]. *)
Definition label (d : DiskHealthSummary) : string :=
  match dh_transport d with
  | Some t => dh_device d ++ " [" ++ t ++ "]"
  | None => dh_device d
  end.

(** ** Evaluation *)

Definition check_condition (value : f64) (c : AlertCondition) (threshold : f64) : bool :=
  match c with
  | Above => SFltb threshold value
  | Below => SFltb value threshold
  | Equals => SFltb (SFabs (f64_sub value threshold)) milli
  end.

(** [(used as f64 / total as f64) * 100.0]. *)
Definition percent (used total : f64) : f64 := f64_mul (f64_div used total) (f64_of 100).

Definition fire (r : AlertRule) (message : string) (value threshold : f64) (source : string) : ActiveAlert :=
  mkAlert (ar_id r) (ar_name r) (ar_severity r) (ar_metric r) message value threshold source.

Definition guard_list {A} (b : bool) (l : list A) : list A := if b then l else [].

Section Evaluation.
Context `{FmtFixed}.

(** An alert when the condition of the rule holds of a value. *)
Definition when (r : AlertRule) (value : f64) (message source : string) : list ActiveAlert :=
  guard_list (check_condition value (ar_condition r) (ar_threshold r)) [fire r message value (ar_threshold r) source].

Definition one : f64 := f64_of 1.
Definition zero : f64 := f64_of 0.

Definition fs_usage (r : AlertRule) (fs : FsUsage) : list ActiveAlert :=
  if Z.eqb (fu_total_bytes fs) 0 then []
  else
    let pct := percent (f64_of (fu_used_bytes fs)) (f64_of (fu_total_bytes fs)) in
    let quote := String (ascii_of_nat 34) EmptyString in
    when r pct ("Filesystem " ++ quote ++ fu_name fs ++ quote ++ " usage at " ++ fmt_fixed 1 pct
                ++ "% (threshold: " ++ fmt_fixed 0 (ar_threshold r) ++ "%)") (fu_name fs).

Definition usage (r : AlertRule) (what source : string) (used total : Z) : list ActiveAlert :=
  if (0 <? total)%Z then
    let pct := percent (f64_of used) (f64_of total) in
    when r pct (what ++ " usage at " ++ fmt_fixed 1 pct ++ "% (threshold: " ++ fmt_fixed 0 (ar_threshold r) ++ "%)") source
  else [].

Definition cpu_load (r : AlertRule) (stats : SystemStats) : list ActiveAlert :=
  let pct := if (0 <? cpu_count stats)%Z then percent (cpu_load_1 stats) (f64_of (cpu_count stats)) else zero in
  when r pct ("CPU load at " ++ fmt_fixed 1 pct ++ "% (threshold: " ++ fmt_fixed 0 (ar_threshold r) ++ "%)") "cpu".

Definition disk_temperature (r : AlertRule) (d : DiskHealthSummary) : list ActiveAlert :=
  match dh_temperature_c d with
  | None => []
  | Some t => when r (f64_of t) ("Disk " ++ label d ++ " temperature at " ++ fmt_Z t ++ "°C (threshold: "
                                 ++ fmt_fixed 0 (ar_threshold r) ++ "°C)") (label d)
  end.

Definition smart_health (r : AlertRule) (d : DiskHealthSummary) : list ActiveAlert :=
  if dh_smart_status d =s "UNAVAILABLE" then []
  else guard_list (negb (dh_health_passed d))
         [fire r ("Disk " ++ label d ++ " SMART health check FAILED") zero (ar_threshold r) (label d)].

Definition attribute_name (attr_id : Z) : string :=
  match List.find (fun c => Z.eqb c.1 attr_id) CRITICAL_ATA_ATTRIBUTES with Some (_, n) => n | None => "Unknown" end.

Definition smart_attribute (r : AlertRule) (d : DiskHealthSummary) (a : Z * Z) : list ActiveAlert :=
  let '(attr_id, raw) := a in
  if SFleb (f64_of raw) (ar_threshold r) then []
  else [fire r ("Disk " ++ label d ++ " attribute " ++ attribute_name attr_id ++ " (id " ++ fmt_Z attr_id ++ ") raw value is "
                ++ fmt_Z raw ++ " — drive needs attention before SMART overall status flips")
          (f64_of raw) (ar_threshold r) (label d ++ "#" ++ fmt_Z attr_id)].

(** A health flag of a filesystem or a device: threshold ignored. *)
Definition flag (r : AlertRule) (b : bool) (message : string) (value : f64) (source : string) : list ActiveAlert :=
  guard_list b [fire r message value zero source].

Definition quoted (s : string) : string := String (ascii_of_nat 34) (s ++ String (ascii_of_nat 34) EmptyString).

Definition device_state (r : AlertRule) (fs : BcachefsHealth) (d : BcachefsDeviceHealth) : list ActiveAlert :=
  flag r (negb (bd_state d =s "rw") && negb (bd_state d =s "spare"))
    ("Device " ++ bd_path d ++ " in filesystem " ++ quoted (bh_fs_name fs) ++ " is in '" ++ bd_state d
     ++ "' state (expected 'rw')") zero (bd_path d).

Definition device_error (r : AlertRule) (fs : BcachefsHealth) (d : BcachefsDeviceHealth) : list ActiveAlert :=
  flag r (bd_has_errors d) ("Device " ++ bd_path d ++ " in filesystem " ++ quoted (bh_fs_name fs) ++ " has IO errors")
    one (bd_path d).

Definition kernel_error (r : AlertRule) (k : KernelErrorAlert) : list ActiveAlert :=
  let cats := match ke_categories k with [] => "none" | cs => String.concat ", " cs end in
  when r (f64_of (ke_total_count k))
    (fmt_Z (ke_total_count k) ++ " kernel error(s) detected (categories: " ++ cats ++ ")") "kernel".

(** One rule of [evaluate_rules]. *)
Definition evaluate_rule (stats : SystemStats) (filesystems : list FsUsage) (disk_health : list DiskHealthSummary)
    (bcachefs_health : list BcachefsHealth) (kernel_errors : KernelErrorAlert) (disk_free : DiskFreeSpace)
    (r : AlertRule) : list ActiveAlert :=
  match ar_metric r with
  | FsUsagePercent => flat_map (fs_usage r) filesystems
  | CpuLoadPercent => cpu_load r stats
  | MemoryUsagePercent => usage r "Memory" "memory" (mem_used_bytes stats) (mem_total_bytes stats)
  | SwapUsagePercent => usage r "Swap" "swap" (swap_used_bytes stats) (swap_total_bytes stats)
  | DiskTemperature => flat_map (disk_temperature r) disk_health
  | SmartHealth => flat_map (smart_health r) disk_health
  | SmartAttribute => flat_map (fun d => flat_map (smart_attribute r d) (dh_critical_attrs_with_value d)) disk_health
  | BcachefsDegraded => flat_map (fun fs => flag r (bh_degraded fs)
      ("Filesystem " ++ quoted (bh_fs_name fs) ++ " is running in DEGRADED mode (missing device)") one (bh_fs_name fs)) bcachefs_health
  | BcachefsDeviceState => flat_map (fun fs => flat_map (device_state r fs) (bh_devices fs)) bcachefs_health
  | BcachefsDeviceError => flat_map (fun fs => flat_map (device_error r fs) (bh_devices fs)) bcachefs_health
  | BcachefsIOErrors => flat_map (fun fs => flag r (0 <? bh_io_error_count fs)%Z
      ("Filesystem " ++ quoted (bh_fs_name fs) ++ " has " ++ fmt_Z (bh_io_error_count fs) ++ " IO errors")
      (f64_of (bh_io_error_count fs)) (bh_fs_name fs)) bcachefs_health
  | BcachefsScrubErrors => flat_map (fun fs => flag r (bh_scrub_errors fs)
      ("Filesystem " ++ quoted (bh_fs_name fs) ++ " scrub found data corruption") one (bh_fs_name fs)) bcachefs_health
  | BcachefsReconcileStalled => flat_map (fun fs => flag r (bh_reconcile_stalled fs)
      ("Filesystem " ++ quoted (bh_fs_name fs)
       ++ " reconcile looks stalled — pending background work hasn't progressed in over 30 minutes") one (bh_fs_name fs)) bcachefs_health
  | KernelErrors => kernel_error r kernel_errors
  | RootDiskFreeGb =>
      match root_free_gb disk_free with
      | None => []
      | Some free => when r free ("Root partition has " ++ fmt_fixed 1 free ++ " GB free (threshold: "
                                  ++ fmt_fixed 0 (ar_threshold r) ++ " GB)") "/"
      end
  | BootDiskFreeMb =>
      match boot_free_mb disk_free with
      | None => []
      | Some free => when r free ("/boot has " ++ fmt_fixed 0 free ++ " MB free (threshold: " ++ fmt_fixed 0 (ar_threshold r)
          ++ " MB). The next system update may fail to install its initrd. Run `nasty-cleanup all` to reclaim space.") "/boot"
      end
  | CertificateExpiryDays | CertificateRenewalFailure | BackupFailureMetric => []
  end.

Definition evaluate_rules (rules : list AlertRule) (stats : SystemStats) (filesystems : list FsUsage)
    (disk_health : list DiskHealthSummary) (bcachefs_health : list BcachefsHealth) (kernel_errors : KernelErrorAlert)
    (disk_free : DiskFreeSpace) : list ActiveAlert :=
  flat_map (evaluate_rule stats filesystems disk_health bcachefs_health kernel_errors disk_free) (List.filter ar_enabled rules).

(** ** Certificates and backups *)

Definition certificate_expiry (r : AlertRule) (c : CertificateHealth) : list ActiveAlert :=
  match ce_expires_in_days c with
  | None => []
  | Some days =>
      when r (f64_of days)
        (if (days <? 0)%Z then "TLS certificate for " ++ ce_host c ++ " expired " ++ fmt_Z (Z.abs days) ++ " day(s) ago"
         else "TLS certificate for " ++ ce_host c ++ " expires in " ++ fmt_Z days ++ " day(s) (threshold: "
              ++ fmt_fixed 0 (ar_threshold r) ++ " days)") (ce_host c)
  end.

Definition renewal_failure (r : AlertRule) (c : CertificateHealth) : list ActiveAlert :=
  match ce_renewal_error c with
  | None => []
  | Some e => [fire r ("TLS certificate issuance or renewal failed for " ++ ce_host c ++ ": " ++ e) one (ar_threshold r) (ce_host c)]
  end.

Definition evaluate_certificate_rules (rules : list AlertRule) (certificates : list CertificateHealth) : list ActiveAlert :=
  flat_map (fun r =>
    match ar_metric r with
    | CertificateExpiryDays => flat_map (certificate_expiry r) certificates
    | CertificateRenewalFailure =>
        guard_list (check_condition one (ar_condition r) (ar_threshold r)) (flat_map (renewal_failure r) certificates)
    | _ => []
    end) (List.filter ar_enabled rules).

End Evaluation.

Definition non_blank (l : string) : bool := negb (trim l =s "").

(** The line after the last [marker] that has one. *)
Fixpoint after_marker (marker : string) (ls : list string) : option string :=
  match ls with
  | [] => None
  | l :: rest =>
      match after_marker marker rest with
      | Some d => Some d
      | None => if trim l =s marker then List.find non_blank rest else None
      end
  end.

Definition backup_failure_summary (message : string) : string :=
  let ls := lines message in
  match after_marker "Caused by:" ls with
  | Some d => trim d
  | None =>
      match after_marker "Message:" ls with
      | Some d => trim d
      | None => match List.find non_blank ls with Some l => trim l | None => "unknown error" end
      end
  end.

Definition backup_failure (r : AlertRule) (f : BackupFailure) : ActiveAlert :=
  fire r ("Backup profile " ++ quoted (bf_profile_name f) ++ " failed at " ++ bf_timestamp f ++ ": "
          ++ backup_failure_summary (bf_message f)) one (ar_threshold r) (bf_profile_id f).

Definition evaluate_backup_rules (rules : list AlertRule) (failures : list BackupFailure) : list ActiveAlert :=
  flat_map (fun r =>
    guard_list (check_condition one (ar_condition r) (ar_threshold r)) (backup_failure r <$> failures))
    (List.filter (fun r => ar_enabled r && bool_decide (ar_metric r = BackupFailureMetric)) rules).

(** ** Default rules *)

Definition default_rules : list AlertRule := [
  mkRule "fs-usage-warn" "Filesystem usage warning" true FsUsagePercent Above (f64_of 80) Warning;
  mkRule "fs-usage-crit" "Filesystem usage critical" true FsUsagePercent Above (f64_of 95) Critical;
  mkRule "disk-temp-warn" "Disk temperature warning" true DiskTemperature Above (f64_of 50) Warning;
  mkRule "disk-temp-crit" "Disk temperature critical" true DiskTemperature Above (f64_of 60) Critical;
  mkRule "smart-health" "SMART health failure" true SmartHealth Equals (f64_of 1) Critical;
  mkRule "smart-attribute" "SMART critical attribute non-zero" true SmartAttribute Above (f64_of 0) Warning;
  mkRule "memory-warn" "Memory usage warning" true MemoryUsagePercent Above (f64_of 90) Warning;
  mkRule "cpu-load-warn" "CPU load warning" true CpuLoadPercent Above (f64_of 90) Warning;
  mkRule "bcachefs-degraded" "bcachefs degraded (missing device)" true BcachefsDegraded Equals (f64_of 1) Critical;
  mkRule "bcachefs-device-state" "bcachefs device not read-write" true BcachefsDeviceState Equals (f64_of 1) Warning;
  mkRule "bcachefs-device-errors" "bcachefs device IO errors" true BcachefsDeviceError Equals (f64_of 1) Critical;
  mkRule "bcachefs-io-errors" "bcachefs filesystem IO errors" true BcachefsIOErrors Above (f64_of 0) Critical;
  mkRule "bcachefs-scrub-errors" "bcachefs scrub found corruption" true BcachefsScrubErrors Equals (f64_of 1) Critical;
  mkRule "bcachefs-reconcile-stalled" "bcachefs reconcile stalled" true BcachefsReconcileStalled Equals (f64_of 1) Warning;
  mkRule "root-disk-low" "Root partition low on space" true RootDiskFreeGb Below (f64_of 10) Warning;
  mkRule "root-disk-crit" "Root partition critically low" true RootDiskFreeGb Below (f64_of 3) Critical;
  mkRule "boot-disk-low" "/boot partition low on space" true BootDiskFreeMb Below (f64_of 100) Warning;
  mkRule "boot-disk-crit" "/boot partition critically low" true BootDiskFreeMb Below (f64_of 30) Critical;
  mkRule "certificate-expiry-warn" "TLS certificate expiring soon" true CertificateExpiryDays Below (f64_of 31) Warning;
  mkRule "certificate-expiry-crit" "TLS certificate expiry critical" true CertificateExpiryDays Below (f64_of 8) Critical;
  mkRule "certificate-renewal-failure" "TLS certificate renewal failed" true CertificateRenewalFailure Equals (f64_of 1) Critical;
  mkRule "backup-failure" "Backup failed" true BackupFailureMetric Equals (f64_of 1) Warning;
  mkRule "kernel-errors" "Kernel errors detected" true KernelErrors Above (f64_of 0) Warning
].

Definition ALERT_DIR : Path := ["var"; "lib"; "nasty"].
Definition ALERT_PATH : Path := ["var"; "lib"; "nasty"; "alerts.json"].
Definition ALERT_TMP : Path := ["var"; "lib"; "nasty"; "alerts.json.tmp"].

Record AlertInstanceState := mkInstance {
  in_id : string;
  in_alert : ActiveAlert;
  in_acknowledged_at : option string;
  in_acknowledged_by : option string
}.

Record AlertOccurrence := mkOccurrence {
  oc_alert : ActiveAlert;
  oc_instance_id : string;
  oc_acknowledged : bool;
  oc_acknowledged_at : option string;
  oc_acknowledged_by : option string
}.

Record AlertAcknowledgement := mkAck { ak_instance_id : string; ak_at : string; ak_by : string }.

(** The serialised fields of [AlertState]; [dirty] is skipped. *)
Record AlertFile := mkAlertFile { af_rules : list AlertRule; af_instances : list AlertInstanceState }.

Record AlertRuleUpdate := mkRuleUpdate {
  ru_name : option string;
  ru_enabled : option bool;
  ru_threshold : option f64;
  ru_severity : option AlertSeverity
}.

Record AlertWorld := mkAlertWorld {
  aw_state : AlertFile;
  aw_dirty : bool;
  aw_revision : Z;
  aw_disk : Disk
}.

Definition set_state_of (f : AlertFile) (w : AlertWorld) : AlertWorld := mkAlertWorld f (aw_dirty w) (aw_revision w) (aw_disk w).
Definition set_dirty (b : bool) (w : AlertWorld) : AlertWorld := mkAlertWorld (aw_state w) b (aw_revision w) (aw_disk w).
Definition set_alert_disk (d : Disk) (w : AlertWorld) : AlertWorld := mkAlertWorld (aw_state w) (aw_dirty w) (aw_revision w) d.

(** [revision.fetch_add(1)] on a [u64]. *)
Definition bump (w : AlertWorld) : AlertWorld :=
  mkAlertWorld (aw_state w) (aw_dirty w) (wrapping_add (aw_revision w) 1) (aw_disk w).

(** ** Occurrences *)

(** Whether an alert continues an occurrence. *)
Definition same_occurrence (i : AlertInstanceState) (a : ActiveAlert) : bool :=
  (aa_rule_id (in_alert i) =s aa_rule_id a) && (aa_source (in_alert i) =s aa_source a) &&
  (negb (bool_decide (aa_metric a = BackupFailureMetric)) || (aa_message (in_alert i) =s aa_message a)).

Definition with_alert (a : ActiveAlert) (i : AlertInstanceState) : AlertInstanceState :=
  mkInstance (in_id i) a (in_acknowledged_at i) (in_acknowledged_by i).

Definition occurrence_with_alert (i : AlertInstanceState) (a : ActiveAlert) : AlertOccurrence :=
  mkOccurrence a (in_id i) (is_some (in_acknowledged_at i)) (in_acknowledged_at i) (in_acknowledged_by i).

Definition occurrence_from (i : AlertInstanceState) : AlertOccurrence := occurrence_with_alert i (in_alert i).

(** [remaining.remove(position)] of the first that matches. *)
Fixpoint take_first {A} (f : A -> bool) (l : list A) : option (A * list A) :=
  match l with
  | [] => None
  | x :: l' => if f x then Some (x, l') else (fun p => (p.1, x :: p.2)) <$> take_first f l'
  end.

(** The loop over the alerts: the instances in order, and what is left of the existing ones. [uuids] are fresh ids. *)
Fixpoint match_alerts (uuids : list string) (remaining : list AlertInstanceState) (alerts : list ActiveAlert)
    : list AlertInstanceState * list AlertInstanceState :=
  match alerts with
  | [] => ([], remaining)
  | a :: alerts' =>
      match take_first (fun i => same_occurrence i a) remaining with
      | Some (i, rest) =>
          let '(ins, gone) := match_alerts uuids rest alerts' in (with_alert a i :: ins, gone)
      | None =>
          let '(ins, gone) := match_alerts (tail uuids) remaining alerts' in
          (mkInstance (default "" (head uuids)) a None None :: ins, gone)
      end
  end.

Definition reconcile_instances (uuids : list string) (existing : list AlertInstanceState) (alerts : list ActiveAlert)
    (is_observed : ActiveAlert -> bool) : list AlertInstanceState * list AlertOccurrence :=
  let '(ins, gone) := match_alerts uuids existing alerts in
  let instances := (ins ++ List.filter (fun i => negb (is_observed (in_alert i))) gone)%list in
  (instances, occurrence_from <$> instances).

#[export] Instance option_string_eq_dec : EqDecision (option string) := _.

Definition same_instance_lifecycle (left right : list AlertInstanceState) : bool :=
  bool_decide (length left = length right) &&
  forallb (fun l => existsb (fun r =>
    (in_id l =s in_id r) && (aa_rule_id (in_alert l) =s aa_rule_id (in_alert r)) &&
    (aa_source (in_alert l) =s aa_source (in_alert r)) &&
    bool_decide (in_acknowledged_at l = in_acknowledged_at r) &&
    bool_decide (in_acknowledged_by l = in_acknowledged_by r)) right) left.

(** [get_or_insert_with]. *)
Definition or_insert {A} (o : option A) (a : A) : A := match o with Some x => x | None => a end.

Definition acknowledge_instance (username at_ : string) (i : AlertInstanceState) : AlertInstanceState :=
  mkInstance (in_id i) (in_alert i) (Some (or_insert (in_acknowledged_at i) at_)) (Some (or_insert (in_acknowledged_by i) username)).

Definition mark_acknowledged (instances : list AlertInstanceState) (instance_id username at_ : string)
    : result (AlertAcknowledgement * list AlertInstanceState) string :=
  match List.find (fun i => in_id i =s instance_id) instances with
  | None => Err "alert is no longer active"
  | Some i =>
      Ok (mkAck (in_id i) (or_insert (in_acknowledged_at i) at_) (or_insert (in_acknowledged_by i) username),
          update_first (fun i => in_id i =s instance_id) (acknowledge_instance username at_) instances)
  end.

(** ** The service *)

Section Service.
Context `{Codec AlertFile}.

Abbreviation Al := (M AlertWorld string).

Definition save_state (F : Faults) (f : AlertFile) : M Disk IoErr unit :=
  check F OpMkdir ALERT_DIR ;;;
  json <- lift (map_err OtherIo (encode f)) ;;
  check F OpOpen ALERT_TMP ;;;
  fs_write F ALERT_TMP json ;;;
  check F OpSync ALERT_TMP ;;;
  rename F ALERT_TMP ALERT_PATH.

(** [save_state(&state).await] as a value. *)
Definition try_save {E} (F : Faults) (f : AlertFile) : M AlertWorld E (result unit IoErr) :=
  fun w => match save_state F f (aw_disk w) with (r, d) => (Ok r, set_alert_disk d w) end.

(** The end of the calls that change a rule: save, clear [dirty], count. *)
Definition saved (F : Faults) : Al unit :=
  f <- gets aw_state ;;
  r <- try_save F f ;;
  lift (map_err display_io r) ;;;
  modify (set_dirty false) ;;;
  modify bump.

Definition set_rules (rules : list AlertRule) (f : AlertFile) : AlertFile := mkAlertFile rules (af_instances f).
Definition set_instances (ins : list AlertInstanceState) (f : AlertFile) : AlertFile := mkAlertFile (af_rules f) ins.

Definition create_rule (F : Faults) (uuid : string) (rule : AlertRule) : Al AlertRule :=
  f <- gets aw_state ;;
  throw_if (existsb (fun r => ar_id r =s ar_id rule) (af_rules f)) "rule ID already exists" ;;;
  let rule := mkRule (if ar_id rule =s "" then uuid else ar_id rule) (ar_name rule) (ar_enabled rule) (ar_metric rule)
                (ar_condition rule) (ar_threshold rule) (ar_severity rule) in
  modify (set_state_of (set_rules (af_rules f ++ [rule])%list f)) ;;;
  saved F ;;;
  ret rule.

Definition apply_update (u : AlertRuleUpdate) (r : AlertRule) : AlertRule :=
  mkRule (ar_id r) (default (ar_name r) (ru_name u)) (default (ar_enabled r) (ru_enabled u)) (ar_metric r) (ar_condition r)
    (default (ar_threshold r) (ru_threshold u)) (default (ar_severity r) (ru_severity u)).

Definition update_rule (F : Faults) (id : string) (u : AlertRuleUpdate) : Al AlertRule :=
  f <- gets aw_state ;;
  rule <- lift (ok_or (List.find (fun r => ar_id r =s id) (af_rules f)) "rule not found") ;;
  modify (set_state_of (set_rules (update_first (fun r => ar_id r =s id) (apply_update u) (af_rules f)) f)) ;;;
  saved F ;;;
  ret (apply_update u rule).

Definition delete_rule (F : Faults) (id : string) : Al unit :=
  f <- gets aw_state ;;
  let rules := retain (fun r => negb (ar_id r =s id)) (af_rules f) in
  throw_if (Nat.eqb (length rules) (length (af_rules f))) "rule not found" ;;;
  modify (set_state_of (set_rules rules f)) ;;;
  saved F.

Definition is_enabled (rules : list AlertRule) (rule_id : string) : bool :=
  (rule_id =s "mount-failure") || existsb (fun r => ar_enabled r && (ar_id r =s rule_id)) rules.

Definition reconcile_active (F : Faults) (uuids : list string) (alerts : list ActiveAlert) (is_observed : ActiveAlert -> bool)
    : Al (list AlertOccurrence) :=
  f <- gets aw_state ;;
  let existing := List.filter (fun i => is_enabled (af_rules f) (aa_rule_id (in_alert i))) (af_instances f) in
  let alerts := List.filter (fun a => is_enabled (af_rules f) (aa_rule_id a)) alerts in
  let '(instances, occurrences) := reconcile_instances uuids existing alerts is_observed in
  modify (set_state_of (set_instances instances f)) ;;;
  modify bump ;;;
  (if negb (same_instance_lifecycle instances (af_instances f)) then modify (set_dirty true) else ret tt) ;;;
  dirty <- gets aw_dirty ;;
  (if dirty : bool then
     f <- gets aw_state ;;
     r <- try_save F f ;;
     match r with Ok _ => modify (set_dirty false) | Err _ => ret tt end
   else ret tt) ;;;
  ret occurrences.

Definition acknowledge (F : Faults) (now instance_id username : string) : Al AlertAcknowledgement :=
  f <- gets aw_state ;;
  out <- lift (mark_acknowledged (af_instances f) instance_id username now) ;;
  let candidate := set_instances out.2 f in
  r <- try_save F candidate ;;
  lift (map_err display_io r) ;;;
  modify (fun w => set_dirty false (set_state_of candidate w)) ;;;
  modify bump ;;;
  ret out.1.

Definition is_active_unacknowledged (instance_id : string) (w : AlertWorld) : bool :=
  existsb (fun i => (in_id i =s instance_id) && negb (is_some (in_acknowledged_at i))) (af_instances (aw_state w)).

(** [AlertService::new]: the defaults on the first run, later those that are missing. *)
Definition backfill (defaults rules : list AlertRule) : list AlertRule :=
  fold_left (fun rs d => if existsb (fun r => ar_id r =s ar_id d) rs then rs else (rs ++ [d])%list) defaults rules.

Definition new_alerts (F : Faults) (defaults : list AlertRule) (ts : option Z) (d : Disk) : AlertWorld :=
  let '(r, d) := load_singleton_or_recover F (mkAlertFile [] []) ALERT_PATH ts d in
  let f := match r with Ok f => f | Err _ => mkAlertFile [] [] end in
  let rules := match af_rules f with [] => defaults | rs => backfill defaults rs end in
  let f' := set_rules rules f in
  let added := match af_rules f with [] => true | rs => negb (bool_decide (length rules = length rs)) end in
  let d' := if added then (save_state F f' d).2 else d in
  mkAlertWorld f' false 0 d'.

End Service.
