(* ===== verification/AlertProps.v ===== *)
(** * Alerts: correctness

    Rules fire only when enabled and when their condition holds; occurrences
    keep their identity and their acknowledgement for as long as the condition
    lasts, and both survive a restart.

    ** Alerts: memory, file and restart *)
From Stdlib Require Import String Ascii ZArith SpecFloat.
From stdpp Require Import base list gmap strings numbers relations.
From S2P Require Import Prelude RustStr Disk StateStore Records AlertService.

Open Scope string_scope.
Open Scope rust_scope.

(** ** Evaluation *)

Lemma elem_of_flat_map {A B : Type} (f : A -> list B) l y : y ∈ flat_map f l <-> exists x, x ∈ l /\ y ∈ f x.
Proof. rewrite list_elem_of_In, in_flat_map. by setoid_rewrite list_elem_of_In. Qed.

Lemma elem_of_guard {A : Type} (b : bool) (l : list A) x : x ∈ guard_list b l -> b = true /\ x ∈ l.
Proof. destruct b; [done|by intros ?%not_elem_of_nil]. Qed.

Definition thresholded (m : AlertMetric) : bool :=
  match m with
  | FsUsagePercent | CpuLoadPercent | MemoryUsagePercent | SwapUsagePercent | DiskTemperature
  | RootDiskFreeGb | BootDiskFreeMb | KernelErrors => true
  | _ => false
  end.

(** An alert of a rule, with its condition where the metric has one. *)
Definition justified (r : AlertRule) (a : ActiveAlert) : Prop :=
  aa_rule_id a = ar_id r /\ aa_rule_name a = ar_name r /\ aa_severity a = ar_severity r /\ aa_metric a = ar_metric r /\
  (thresholded (ar_metric r) = true ->
     aa_threshold a = ar_threshold r /\ check_condition (aa_current_value a) (ar_condition r) (ar_threshold r) = true).

Section Evaluation.
Context `{FmtFixed}.

Lemma justified_when r v m s a : a ∈ when r v m s -> justified r a.
Proof. unfold when. intros [Hc ->%list_elem_of_singleton]%elem_of_guard. by split_and!. Qed.

Lemma justified_flag r b m v s a : thresholded (ar_metric r) = false -> a ∈ flag r b m v s -> justified r a.
Proof. unfold flag. intros Ht [_ ->%list_elem_of_singleton]%elem_of_guard. split_and!; try done. by rewrite Ht. Qed.

(** Alerts of the pieces of one rule. *)
Ltac justify Em :=
  repeat match goal with
  | H : _ ∈ flat_map _ _ |- _ => apply elem_of_flat_map in H as (? & ? & H)
  | H : _ ∈ [] |- _ => by apply not_elem_of_nil in H
  | H : _ ∈ when _ _ _ _ |- _ => by apply justified_when in H
  | H : _ ∈ flag _ _ _ _ _ |- _ => apply justified_flag in H; [done|by rewrite Em]
  | H : _ ∈ (match ?x with _ => _ end) |- _ => destruct x
  end.

Lemma justified_rule stats fss dhs bhs ke df r a :
  a ∈ evaluate_rule stats fss dhs bhs ke df r -> justified r a.
Proof.
  unfold evaluate_rule. destruct (ar_metric r) eqn:Em; intros Ha;
    unfold fs_usage, cpu_load, usage, disk_temperature, device_state, device_error, kernel_error in Ha;
    justify Em.
  - unfold smart_health in Ha.
    destruct (_ =s _); [by apply not_elem_of_nil in Ha|].
    apply elem_of_guard in Ha as [_ ->%list_elem_of_singleton]. split_and!; try done. by rewrite Em.
  - unfold smart_attribute in Ha. destruct x0 as [attr raw]. destruct (SFleb (f64_of raw) (ar_threshold r)); [by apply not_elem_of_nil in Ha|].
    apply list_elem_of_singleton in Ha as ->. split_and!; try done. by rewrite Em.
Qed.

(** Every alert the evaluation reports is one of an enabled rule, with its name, severity and metric, and for
    a metric with a threshold the measured value meets the condition of the rule; so a disabled rule is silent,
    and so is a rule whose value is not a number. *)
Theorem alerts_are_justified rules stats fss dhs bhs ke df a :
  a ∈ evaluate_rules rules stats fss dhs bhs ke df ->
  exists r, r ∈ rules /\ ar_enabled r = true /\ justified r a.
Proof.
  unfold evaluate_rules. intros (r & Hr & Ha)%elem_of_flat_map.
  apply list_elem_of_In, filter_In in Hr as [Hr%list_elem_of_In He]. exists r. split_and!; try done.
  by eapply justified_rule.
Qed.

End Evaluation.

(** ** Occurrences *)

Lemma same_occurrence_refl i : same_occurrence i (in_alert i) = true.
Proof. unfold same_occurrence. rewrite !eqb_refl. cbn. by rewrite orb_true_r. Qed.

Lemma same_occurrence_key i a :
  same_occurrence i a = true -> aa_rule_id a = aa_rule_id (in_alert i) /\ aa_source a = aa_source (in_alert i).
Proof.
  unfold same_occurrence. rewrite !andb_true_iff, !eqb_spec. by intros [[-> ->] _].
Qed.

Lemma take_first_Some {A : Type} (f : A -> bool) l x rest :
  take_first f l = Some (x, rest) -> f x = true /\ l ≡ₚ x :: rest.
Proof.
  revert rest. induction l as [|y l IH]; intros rest; cbn; [done|]. destruct (f y) eqn:Ey.
  - by intros [= -> ->].
  - destruct (take_first f l) as [[z r]|]; [|done]. intros [= -> <-]. destruct (IH r eq_refl) as [Hx Hp]. split; [done|].
    rewrite Hp. apply Permutation_swap.
Qed.

Lemma take_first_None {A : Type} (f : A -> bool) l : take_first f l = None -> forall x, x ∈ l -> f x = false.
Proof.
  induction l as [|y l IH]; cbn; [by intros _ x ?%not_elem_of_nil|]. destruct (f y) eqn:Ey; [done|].
  destruct (take_first f l) as [[]|]; [done|]. intros _ x [->|Hx]%elem_of_cons; auto.
Qed.

(** An instance goes on under a new report of its alert. *)
Definition goes_on (i j : AlertInstanceState) : Prop := exists a, same_occurrence i a = true /\ j = with_alert a i.

(** What the loop makes of the alerts: each continues an existing occurrence, or begins one. *)
Lemma match_alerts_spec alerts : forall uuids remaining,
  let '(ins, gone) := match_alerts uuids remaining alerts in
  in_alert <$> ins = alerts /\
  (forall i, i ∈ gone -> i ∈ remaining) /\
  (forall j, j ∈ ins -> (exists i, i ∈ remaining /\ goes_on i j) \/
                        (exists a u, j = mkInstance u a None None /\ forall i, i ∈ gone -> same_occurrence i a = false)) /\
  (forall i, i ∈ remaining -> i ∈ gone \/ exists j, j ∈ ins /\ goes_on i j).
Proof.
  induction alerts as [|a alerts IH]; intros uuids remaining; cbn [match_alerts].
  { split_and!; try done; auto. by intros j ?%not_elem_of_nil. }
  destruct (take_first _ remaining) as [[i rest]|] eqn:E.
  - apply take_first_Some in E as [Hi Hp]. specialize (IH uuids rest).
    destruct (match_alerts uuids rest alerts) as [ins gone]. destruct IH as (Ha & Hg & Hj & Hr).
    assert (goes_on i (with_alert a i)) as Hgo by (exists a; auto). split_and!.
    + cbn. by rewrite Ha.
    + intros k Hk. rewrite Hp. right. auto.
    + intros j [->|Hin]%elem_of_cons; [left; exists i; rewrite Hp; split; [by left|done]|].
      destruct (Hj j Hin) as [(k & Hk & Hkj)|?]; [left; exists k; rewrite Hp; split; [by right|done]|by right].
    + intros k. rewrite Hp. intros [->|Hk]%elem_of_cons; [right; exists (with_alert a i); split; [by left|done]|].
      destruct (Hr k Hk) as [?|(j & ? & ?)]; [by left|right; exists j; split; [by right|done]].
  - pose proof (take_first_None _ _ E) as Hn. specialize (IH (tail uuids) remaining).
    destruct (match_alerts (tail uuids) remaining alerts) as [ins gone]. destruct IH as (Ha & Hg & Hj & Hr). split_and!.
    + cbn. by rewrite Ha.
    + done.
    + intros j [->|Hin]%elem_of_cons; [|by apply Hj]. right. eexists _, _. split; [done|]. intros k Hk. auto.
    + intros k Hk. destruct (Hr k Hk) as [?|(j & ? & ?)]; [by left|right; exists j; split; [by right|done]].
Qed.

Lemma NoDup_fmap_inj {A B : Type} (f : A -> B) l x y :
  NoDup (f <$> l) -> x ∈ l -> y ∈ l -> f x = f y -> x = y.
Proof.
  induction l as [|z l IH]; [by intros _ ?%not_elem_of_nil|]. cbn. intros [Hz Hn]%list.NoDup_cons.
  intros [->|Hx]%elem_of_cons [->|Hy]%elem_of_cons E; auto; destruct Hz; [rewrite E|rewrite <- E]; by apply list_elem_of_fmap_2.
Qed.

(** The ids: those of the existing occurrences and fresh ones. *)
Lemma match_alerts_ids alerts : forall uuids remaining,
  length alerts <= length uuids ->
  let '(ins, gone) := match_alerts uuids remaining alerts in
  exists used, used `sublist_of` uuids /\ in_id <$> (ins ++ gone)%list ≡ₚ (used ++ (in_id <$> remaining))%list.
Proof.
  induction alerts as [|a alerts IH]; intros uuids remaining Hl; cbn [match_alerts].
  { exists []. split; [apply sublist_nil_l|done]. }
  destruct (take_first _ remaining) as [[i rest]|] eqn:E.
  - apply take_first_Some in E as [_ Hp]. specialize (IH uuids rest ltac:(cbn in Hl; lia)).
    destruct (match_alerts uuids rest alerts) as [ins gone]. destruct IH as (used & Hs & Hi). exists used. split; [done|].
    cbn. rewrite Hi, Hp. cbn. by rewrite Permutation_middle.
  - destruct uuids as [|u uuids]; [cbn in Hl; lia|]. specialize (IH uuids remaining ltac:(cbn in Hl; lia)). cbn [tail head].
    destruct (match_alerts uuids remaining alerts) as [ins gone]. destruct IH as (used & Hs & Hi). exists (u :: used).
    split; [by constructor|]. cbn. by rewrite Hi.
Qed.

Section Reconcile.
Context (uuids : list string) (existing : list AlertInstanceState) (alerts : list ActiveAlert).
Context (is_observed : ActiveAlert -> bool).

Abbreviation instances := (reconcile_instances uuids existing alerts is_observed).1.

(** An acknowledgement belongs to one occurrence: an acknowledged instance after an evaluation was there
    before it, with the same id, of the same rule and source, and acknowledged by the same user at the same time. *)
Theorem acknowledgements_stay_with_their_alert j :
  j ∈ instances -> in_acknowledged_at j <> None ->
  exists i, i ∈ existing /\ in_id i = in_id j /\ aa_rule_id (in_alert i) = aa_rule_id (in_alert j) /\
    aa_source (in_alert i) = aa_source (in_alert j) /\
    in_acknowledged_at i = in_acknowledged_at j /\ in_acknowledged_by i = in_acknowledged_by j.
Proof.
  unfold reconcile_instances. pose proof (match_alerts_spec alerts uuids existing) as Hm.
  destruct (match_alerts uuids existing alerts) as [ins gone]. destruct Hm as (_ & Hg & Hj & _). cbn [fst].
  intros [Hin|Hin]%elem_of_app Hack.
  - destruct (Hj j Hin) as [(i & Hi & a & Hs & ->)|(a & u & -> & _)]; [|done].
    apply same_occurrence_key in Hs as [Hr Hsrc]. exists i. cbn. split_and!; congruence || done.
  - apply elem_of_retain in Hin as [_ Hin]. exists j. split_and!; auto.
Qed.

Definition continued (i : AlertInstanceState) : Prop := exists a, a ∈ alerts /\ same_occurrence i a = true.

(** Occurrences live as long as their alert. Every alert has an occurrence and ids stay unique; an occurrence
    whose alert is reported again, and by no other, goes on under its id with its acknowledgement; one that is not
    reported ends if its signal was observed, its id gone for good, and is kept as it was if it was not. *)
Theorem occurrences_live_with_their_alert :
  NoDup (uuids ++ (in_id <$> existing))%list -> length alerts <= length uuids ->
  NoDup (in_id <$> instances) /\
  (forall a, a ∈ alerts -> exists j, j ∈ instances /\ in_alert j = a) /\
  (forall i a, i ∈ existing -> a ∈ alerts -> same_occurrence i a = true ->
     (forall k, k ∈ existing -> same_occurrence k a = true -> k = i) -> exists j, j ∈ instances /\ goes_on i j) /\
  (forall i, i ∈ existing -> ~ continued i ->
     if is_observed (in_alert i) then in_id i ∉ in_id <$> instances else i ∈ instances).
Proof.
  intros Hn Hl. unfold reconcile_instances, continued. pose proof (match_alerts_spec alerts uuids existing) as Hm.
  pose proof (match_alerts_ids alerts uuids existing Hl) as Hids.
  destruct (match_alerts uuids existing alerts) as [ins gone]. destruct Hm as (Ha & Hg & Hj & Hr). cbn [fst].
  destruct Hids as (used & Hs & Hids). fold (retain (fun i => negb (is_observed (in_alert i))) gone).
  assert (NoDup (in_id <$> (ins ++ gone)%list)) as Hnd.
  { rewrite Hids. apply list.NoDup_app in Hn as (Hu & Hd & He). apply list.NoDup_app. split_and!; [|..|done].
    - exact (sublist_NoDup _ _ Hu Hs).
    - intros x Hx. apply Hd. exact (elem_of_sublist _ _ _ Hx Hs). }
  assert (in_id <$> (ins ++ retain (fun i => negb (is_observed (in_alert i))) gone)%list
            `sublist_of` in_id <$> (ins ++ gone)%list) as Hsub.
  { rewrite !fmap_app. apply sublist_app; [done|]. clear. induction gone as [|i gone IH]; [done|]. cbn.
    destruct (is_observed (in_alert i)); cbn; by constructor. }
  assert (forall a, a ∈ alerts -> exists j, j ∈ ins /\ in_alert j = a) as Hrep.
  { intros a. rewrite <- Ha, list_elem_of_fmap. naive_solver. }
  split_and!.
  - exact (sublist_NoDup _ _ Hnd Hsub).
  - intros a (j & Hin & <-)%Hrep. exists j. split; [rewrite elem_of_app; auto|done].
  - intros i a Hi Hal Hsame Huniq. destruct (Hr i Hi) as [Hgone|(j & Hin & Hgo)]; [|exists j; rewrite elem_of_app; auto].
    destruct (Hrep a Hal) as (j & Hin & Hja). exists j. rewrite elem_of_app. split; [by left|].
    destruct (Hj j Hin) as [(k & Hk & a' & Hs' & ->)|(a' & u & -> & Hno)]; cbn in Hja; subst a'.
    + rewrite <- (Huniq k Hk Hs'). exists a. auto.
    + by rewrite (Hno i Hgone) in Hsame.
  - intros i Hi Hnot. assert (i ∈ gone) as Hgone.
    { destruct (Hr i Hi) as [?|(j & Hin & a & Hsame & ->)]; [done|]. destruct Hnot. exists a. split; [|done].
      rewrite <- Ha. apply (list_elem_of_fmap_2 in_alert) in Hin. exact Hin. }
    destruct (is_observed (in_alert i)) eqn:Ho; [|rewrite elem_of_app; right; apply elem_of_retain; by rewrite Ho].
    rewrite fmap_app in Hnd. apply list.NoDup_app in Hnd as (_ & Hdis & Hgn).
    rewrite fmap_app, elem_of_app. intros [Hin|(k & Hk & [Hok Hkg]%elem_of_retain)%list_elem_of_fmap].
    + apply (Hdis _ Hin). by apply list_elem_of_fmap_2.
    + rewrite (NoDup_fmap_inj in_id gone i k) in Ho by done. by rewrite Ho in Hok.
Qed.

End Reconcile.

(** ** Lifecycles *)

(** What identifies an occurrence and its acknowledgement. *)
Definition life (i : AlertInstanceState) : string * string * string * option string * option string :=
  (in_id i, aa_rule_id (in_alert i), aa_source (in_alert i), in_acknowledged_at i, in_acknowledged_by i).

(** As many occurrences, and each of the one list is in the other. *)
Definition same_lives (ls rs : list AlertInstanceState) : Prop :=
  length ls = length rs /\ forall l, l ∈ ls -> life l ∈ life <$> rs.

Lemma lifecycle_spec ls rs : same_instance_lifecycle ls rs = true <-> same_lives ls rs.
Proof.
  assert (forall l r, (in_id l =s in_id r) && (aa_rule_id (in_alert l) =s aa_rule_id (in_alert r)) &&
    (aa_source (in_alert l) =s aa_source (in_alert r)) && bool_decide (in_acknowledged_at l = in_acknowledged_at r) &&
    bool_decide (in_acknowledged_by l = in_acknowledged_by r) = true <-> life l = life r) as Hlife.
  { intros l r. rewrite !andb_true_iff, !eqb_spec, !bool_decide_eq_true. unfold life. split; [by intros [[[[-> ->] ->] ->] ->]|].
    intros [= -> -> -> -> ->]. done. }
  unfold same_instance_lifecycle, same_lives. rewrite andb_true_iff, bool_decide_eq_true, forallb_forall.
  apply and_iff_compat_l. split.
  - intros Hf l Hl%list_elem_of_In. apply Hf, existsb_elem in Hl as (r & Hr & E%Hlife). rewrite E. by apply list_elem_of_fmap_2.
  - intros Hf l Hl%list_elem_of_In. apply existsb_elem. destruct (proj1 (list_elem_of_fmap _ _ _) (Hf l Hl)) as (r & E & Hr).
    exists r. split; [done|by apply Hlife].
Qed.

Lemma lives_trans ls ms rs : same_lives ls ms -> same_lives ms rs -> same_lives ls rs.
Proof.
  intros [Hl Hlm] [Hm Hmr]. split; [congruence|]. intros l (m & -> & Hin)%Hlm%list_elem_of_fmap. by apply Hmr.
Qed.

Lemma lives_text ls rs : life <$> ls = life <$> rs -> same_lives ls rs.
Proof.
  intros E. split; [by rewrite <- (length_fmap life ls), E, length_fmap|]. intros l Hl. rewrite <- E. by apply list_elem_of_fmap_2.
Qed.

(** With distinct ids the two lists are the same but for their order. *)
Lemma lives_permutation ls rs : NoDup (in_id <$> ls) -> same_lives ls rs -> life <$> ls ≡ₚ life <$> rs.
Proof.
  intros Hn [Hl Hin]. apply submseteq_length_Permutation; [|rewrite !length_fmap; lia]. apply NoDup_submseteq.
  - apply (NoDup_fmap_1 (fun t => t.1.1.1.1)). by rewrite <- list_fmap_compose.
  - intros x (l & -> & Hx)%list_elem_of_fmap. by apply Hin.
Qed.

(** ** The state file *)

(** Numbers that JSON can hold. *)
Definition finite (x : f64) : Prop := match x with S754_infinity _ | S754_nan => False | _ => True end.
Definition finite_alert (a : ActiveAlert) : Prop := finite (aa_current_value a) /\ finite (aa_threshold a).
Definition finite_file (f : AlertFile) : Prop :=
  Forall (fun r => finite (ar_threshold r)) (af_rules f) /\ Forall (fun i => finite_alert (in_alert i)) (af_instances f).

(** All of a rule, an alert and an occurrence but the numbers. *)
Definition rule_text (r : AlertRule) := (ar_id r, ar_name r, ar_enabled r, ar_metric r, ar_condition r, ar_severity r).
Definition alert_text (a : ActiveAlert) :=
  (aa_rule_id a, aa_rule_name a, aa_severity a, aa_metric a, aa_message a, aa_source a).
Definition instance_text (i : AlertInstanceState) :=
  (in_id i, alert_text (in_alert i), in_acknowledged_at i, in_acknowledged_by i).
Definition alike (f g : AlertFile) : Prop :=
  rule_text <$> af_rules f = rule_text <$> af_rules g /\ instance_text <$> af_instances f = instance_text <$> af_instances g.

(** What the service relies on: a state whose numbers are finite parses back as it was printed, but for its
    numbers, which [serde_json] may read as a neighbour. *)
Class AlertCodecLaws `{Codec AlertFile} : Prop :=
  alert_round_trip : forall f s, finite_file f -> encode f = Ok s -> exists g, decode s = Ok g /\ alike f g.

Lemma alike_lives f g : alike f g -> same_lives (af_instances f) (af_instances g).
Proof.
  intros [_ Hi]. apply lives_text. apply (f_equal (fmap (fun t : string * _ * option string * option string =>
    let '(i, a, x, y) := t in let '(r, _, _, _, _, src) := a in (i, r, src, x, y)))) in Hi.
  by rewrite <- !list_fmap_compose in Hi.
Qed.

Section File.
Context `{!Codec AlertFile} `{!AlertCodecLaws}.

Definition alert_stored (d : Disk) : result AlertFile string :=
  match content_at d ALERT_PATH with Some s => decode s | None => Ok (mkAlertFile [] []) end.

(** The file holds the state, but for the rounding of its numbers. *)
Definition stored_as (f : AlertFile) (d : Disk) : Prop := exists g, alert_stored d = Ok g /\ alike f g.

(** Saving is all or nothing. *)
Lemma save_state_spec F f d :
  plain d ->
  wp (save_state F f)
    (fun r d' => plain d' /\
       match r with
       | Ok _ => finite_file f -> stored_as f d'
       | Err _ => alert_stored d' = alert_stored d
       end) d.
Proof.
  intros Hd. unfold save_state, wp, bind, check, ret, throw, lift.
  destruct (fault F OpMkdir ALERT_DIR); [done|]. destruct (encode f) as [s|e] eqn:Ee; cbn -[fs_write rename]; [|done].
  destruct (fault F OpOpen ALERT_TMP); [done|].
  destruct (fs_write_plain F ALERT_TMP s d Hd) as (g & Hg & E). rewrite E.
  assert (forall t, plain (<[ALERT_TMP := set_content t g]> d) /\
            alert_stored (<[ALERT_TMP := set_content t g]> d) = alert_stored d) as Htmp.
  { intros t. split; [by apply plain_insert; rewrite ?is_regular_set_content|].
    unfold alert_stored, content_at. by rewrite lookup_insert_ne. }
  destruct (fault F OpWrite ALERT_TMP); [apply Htmp|]. destruct (fault F OpSync ALERT_TMP); [apply Htmp|].
  unfold rename, bind, check, gets, ret, throw, modify. destruct (fault F OpRename ALERT_TMP); [apply Htmp|].
  rewrite lookup_insert_eq. cbn. split.
  - apply plain_insert; [by apply plain_delete, Htmp|]. by rewrite is_regular_set_content.
  - intros Hfin. unfold stored_as, alert_stored, content_at. rewrite lookup_insert_eq. cbn. by apply alert_round_trip.
Qed.

(** ** The invariant *)

(** Unless marked dirty, memory and file agree on rules and on the life of every occurrence. *)
Record AlertInv (w : AlertWorld) : Prop := {
  ai_plain : plain (aw_disk w);
  ai_finite : finite_file (aw_state w);
  ai_clean : aw_dirty w = false -> exists g, alert_stored (aw_disk w) = Ok g /\
               rule_text <$> af_rules (aw_state w) = rule_text <$> af_rules g /\
               same_lives (af_instances (aw_state w)) (af_instances g)
}.

Lemma clean_saved f rev d b : plain d -> finite_file f -> stored_as f d -> AlertInv (mkAlertWorld f b rev d).
Proof.
  intros Hd Hf (g & Hg & Ha). split; [done..|]. intros _. exists g. split_and!; [done|apply Ha|by apply alike_lives].
Qed.

(** The occurrences after an evaluation show reported alerts or are those of before. *)
Lemma reconcile_finite uuids existing alerts obs :
  Forall (fun i => finite_alert (in_alert i)) existing -> Forall finite_alert alerts ->
  Forall (fun i => finite_alert (in_alert i)) (reconcile_instances uuids existing alerts obs).1.
Proof.
  intros He Ha. unfold reconcile_instances. pose proof (match_alerts_spec alerts uuids existing) as Hm.
  destruct (match_alerts uuids existing alerts) as [ins gone]. destruct Hm as (Hal & Hg & _ & _). cbn [fst].
  apply list.Forall_app_2; [apply (proj1 (Forall_fmap in_alert finite_alert ins)); by rewrite Hal|]. apply list.Forall_forall.
  intros i [_ Hi]%elem_of_retain. by apply (proj1 (list.Forall_forall _ _) He), Hg.
Qed.

Lemma inv_reconcile F uuids alerts obs w :
  AlertInv w -> Forall finite_alert alerts -> AlertInv (reconcile_active F uuids alerts obs w).2.
Proof.
  intros [Hp [Hfr Hfi] Hc] Hal. unfold reconcile_active, bind at 1, gets.
  set (existing := List.filter _ (af_instances (aw_state w))). set (seen := List.filter _ alerts).
  assert (Forall (fun i => finite_alert (in_alert i)) (reconcile_instances uuids existing seen obs).1) as Hins.
  { apply reconcile_finite; by apply Forall_retain. }
  destruct (reconcile_instances uuids existing seen obs) as [ins occ]. cbn [fst] in Hins.
  assert (finite_file (set_instances ins (aw_state w))) as Hfin by (by split).
  unfold bind, modify, ret, try_save. cbn. pose proof (save_state_spec F (set_instances ins (aw_state w)) (aw_disk w) Hp) as Hs. unfold wp in Hs.
  destruct (same_instance_lifecycle ins (af_instances (aw_state w))) eqn:El; cbn.
  2: { destruct (save_state F _ _) as [[[]|e] d]; cbn in *; [by apply clean_saved; try apply Hs|]. by split; [apply Hs|..]. }
  apply lifecycle_spec in El. destruct (aw_dirty w) eqn:Ed; cbn.
  - destruct (save_state F _ _) as [[[]|e] d]; cbn in *; [by apply clean_saved; try apply Hs|]. split; [apply Hs|done|]. cbn. by rewrite ?Ed.
  - split; [done..|]. cbn. intros _. destruct (Hc eq_refl) as (g & Hg & Hr & Hl). exists g. split_and!; try done.
    by eapply lives_trans.
Qed.

(** What an acknowledgement does, on every outcome. *)
Lemma acknowledge_spec F now id user w :
  plain (aw_disk w) ->
  let '(r, w') := acknowledge F now id user w in
  plain (aw_disk w') /\
  match r with
  | Ok ack => exists ins, mark_acknowledged (af_instances (aw_state w)) id user now = Ok (ack, ins) /\
                aw_state w' = set_instances ins (aw_state w) /\ aw_dirty w' = false /\
                (finite_file (aw_state w') -> stored_as (aw_state w') (aw_disk w'))
  | Err _ => aw_state w' = aw_state w /\ aw_dirty w' = aw_dirty w /\ alert_stored (aw_disk w') = alert_stored (aw_disk w)
  end.
Proof.
  intros Hp. unfold acknowledge, bind at 1, gets, bind at 1, lift at 1.
  destruct (mark_acknowledged _ _ _ _) as [[ack ins]|e]; cbn; [|done]. unfold bind, try_save, lift, modify, ret.
  pose proof (save_state_spec F (set_instances ins (aw_state w)) (aw_disk w) Hp) as Hs. unfold wp in Hs.
  destruct (save_state F _ _) as [[[]|e] d]; cbn in *; [|naive_solver]. split; [apply Hs|]. exists ins. split_and!; try done. apply Hs.
Qed.

Lemma mark_finite ins id user now ack ins' :
  Forall (fun i => finite_alert (in_alert i)) ins -> mark_acknowledged ins id user now = Ok (ack, ins') ->
  Forall (fun i => finite_alert (in_alert i)) ins'.
Proof.
  intros Hf. unfold mark_acknowledged. destruct (List.find _ ins); [|done]. intros [= _ <-]. apply list.Forall_forall. intros k Hk.
  apply elem_of_update_first in Hk as [Hk|(x & [Hx%list_elem_of_In _]%List.find_some & ->)].
  - by eapply list.Forall_forall in Hf.
  - cbn. by eapply list.Forall_forall in Hf.
Qed.

Lemma inv_acknowledge F now id user w : AlertInv w -> AlertInv (acknowledge F now id user w).2.
Proof.
  intros [Hp Hf Hc]. pose proof (acknowledge_spec F now id user w Hp) as Ha.
  destruct (acknowledge F now id user w) as [[ack|e] w']; cbn.
  - destruct Ha as (Hp' & ins & Hm & Hst & _ & Hs).
    assert (finite_file (aw_state w')) as Hf' by (rewrite Hst; split; [apply Hf|by eapply mark_finite; [apply Hf|]]).
    destruct w'. by apply clean_saved; auto.
  - destruct Ha as (Hp' & Es & Ed & Est). split; [done|by rewrite Es|]. rewrite Es, Ed, Est. exact Hc.
Qed.

(** A rule call that succeeded ended with a save. *)
Lemma inv_saved F w r w' : plain (aw_disk w) -> finite_file (aw_state w) -> saved F w = (Ok r, w') -> AlertInv w'.
Proof.
  intros Hp Hf. unfold saved, bind, gets, try_save, lift, modify.
  pose proof (save_state_spec F (aw_state w) (aw_disk w) Hp) as Hs. unfold wp in Hs.
  destruct (save_state F _ _) as [[[]|e] d]; cbn in *; [|done]. intros [= _ <-]. by apply clean_saved; try apply Hs.
Qed.

(** A call that succeeded succeeded in each of its parts. *)
Lemma bind_success {W E A B : Type} (m : M W E A) (f : A -> M W E B) w b w' :
  bind m f w = (Ok b, w') -> exists a w1, m w = (Ok a, w1) /\ f a w1 = (Ok b, w').
Proof. unfold bind. destruct (m w) as [[a|e] w1]; [eauto|done]. Qed.

Ltac success E :=
  repeat match type of E with
  | bind (gets _) _ _ = _ => apply bind_success in E as (? & ? & [= <- <-] & E)
  | bind (modify _) _ _ = _ => apply bind_success in E as (? & ? & [= _ <-] & E)
  | bind (throw_if ?b _) _ _ = _ => destruct b; [done|]; apply bind_success in E as (? & ? & [= _ <-] & E)
  | bind (lift (ok_or ?o _)) _ _ = _ => destruct o; [|done]; apply bind_success in E as (? & ? & [= <- <-] & E)
  end.

(** A call on rules saved a state with the rules it made. *)
Definition ends_saved F w w' : Prop :=
  exists rules, let v := set_state_of (set_rules rules (aw_state w)) w in
    saved F v = (Ok tt, w') /\ (Forall (fun r => finite (ar_threshold r)) (af_rules (aw_state w)) -> Forall (fun r => finite (ar_threshold r)) rules).

Lemma create_saved F uuid r w x w' : finite (ar_threshold r) -> create_rule F uuid r w = (Ok x, w') -> ends_saved F w w'.
Proof.
  intros Hr E. unfold create_rule in E. success E. apply bind_success in E as ([] & v & E & [= _ <-]).
  eexists. split; [exact E|]. intros Hf. apply list.Forall_app_2; [done|by apply Forall_singleton].
Qed.

Lemma update_saved F id u w x w' :
  match ru_threshold u with Some t => finite t | None => True end -> update_rule F id u w = (Ok x, w') -> ends_saved F w w'.
Proof.
  intros Hu E. unfold update_rule in E. success E. apply bind_success in E as ([] & v & E & [= _ <-]).
  eexists. split; [exact E|]. intros Hf. apply list.Forall_forall. intros y [Hy|(z & [Hz%list_elem_of_In _]%List.find_some & ->)]%elem_of_update_first.
  - by eapply list.Forall_forall in Hf.
  - cbn. destruct (ru_threshold u); [done|]. by eapply list.Forall_forall in Hf.
Qed.

Lemma delete_saved F id w x w' : delete_rule F id w = (Ok x, w') -> ends_saved F w w'.
Proof.
  intros E. unfold delete_rule in E. destruct x. success E. eexists. split; [exact E|]. by apply Forall_retain.
Qed.

(** A rule call that was answered with success left a clean state. *)
Lemma rule_call_inv {A : Type} F (m : M AlertWorld string A) w :
  (forall x w', m w = (Ok x, w') -> ends_saved F w w') ->
  is_ok (m w).1 = true -> plain (aw_disk w) -> finite_file (aw_state w) -> AlertInv (m w).2 /\ aw_dirty (m w).2 = false.
Proof.
  intros Hm Hok Hp [Hfr Hfi]. destruct (m w) as [[x|e] w'] eqn:E; [|done]. destruct (Hm x w' eq_refl) as (rules & Hs & Hr).
  cbn. split; [eapply inv_saved; [|split|exact Hs]; [exact Hp|by apply Hr|exact Hfi]|].
  unfold saved, bind, gets, try_save, lift, modify in Hs. destruct (save_state F _ _) as [[[]|e] d]; [|done].
  cbn in Hs. by injection Hs as <-.
Qed.

(** The calls, with any disk failures; rule changes that were answered with success. The numbers reported and
    given are finite. *)
Inductive alert_step (w : AlertWorld) : AlertWorld -> Prop :=
| SReconcile F uuids alerts obs : Forall finite_alert alerts -> alert_step w (reconcile_active F uuids alerts obs w).2
| SAcknowledge F now id user : alert_step w (acknowledge F now id user w).2
| SCreate F uuid r : finite (ar_threshold r) -> is_ok (create_rule F uuid r w).1 = true -> alert_step w (create_rule F uuid r w).2
| SUpdate F id u : match ru_threshold u with Some t => finite t | None => True end ->
    is_ok (update_rule F id u w).1 = true -> alert_step w (update_rule F id u w).2
| SDelete F id : is_ok (delete_rule F id w).1 = true -> alert_step w (delete_rule F id w).2.

Lemma inv_step w w' : alert_step w w' -> AlertInv w -> AlertInv w'.
Proof.
  destruct 1 as [F uuids alerts obs Ha|F now id user|F uuid r Hr Hok|F id u Hu Hok|F id Hok]; intros Hw.
  - by apply inv_reconcile.
  - by apply inv_acknowledge.
  - by apply (rule_call_inv F _ _ (fun x w' => create_saved F uuid r w x w' Hr)); [|apply Hw..].
  - by apply (rule_call_inv F _ _ (fun x w' => update_saved F id u w x w' Hu)); [|apply Hw..].
  - by apply (rule_call_inv F _ _ (delete_saved F id w)); [|apply Hw..].
Qed.

Lemma inv_reachable w w' : rtc alert_step w w' -> AlertInv w -> AlertInv w'.
Proof. induction 1; eauto using inv_step. Qed.

Lemma restart_loads defaults ts d g :
  plain d -> alert_stored d = Ok g -> af_instances (aw_state (new_alerts no_faults defaults ts d)) = af_instances g /\
  af_rules (aw_state (new_alerts no_faults defaults ts d)) = match af_rules g with [] => defaults | rs => backfill defaults rs end.
Proof.
  intros Hp Hs. unfold new_alerts, load_singleton_or_recover, bind, attempt. rewrite read_plain by done. cbn.
  unfold alert_stored in Hs. destruct (content_at d ALERT_PATH) as [s|]; cbn; [by rewrite Hs|]. by injection Hs as <-.
Qed.

(** C35: Occurrences and their acknowledgements survive a restart. Start in a state that is marked as not saved or
    whose file has its rules and occurrences. After any evaluations, acknowledgements and
    successful rule changes, with any disk failures, unless the state is marked as not saved, a restart finds the
    same occurrences, none missing and none more: their ids, rules, sources, and by whom and when each was acknowledged.
    Assumed: files are regular files, the occurrences have distinct ids (they are random), the numbers reported and given are finite, a state
    with finite numbers parses back as it was printed but for the rounding of these numbers, and the calls of the restart
    itself do not fail. *)
Theorem occurrences_survive_restart (w0 w : AlertWorld) defaults ts :
  AlertInv w0 -> rtc alert_step w0 w -> aw_dirty w = false -> NoDup (in_id <$> af_instances (aw_state w)) ->
  let after := new_alerts no_faults defaults ts (aw_disk w) in
  (fun i => (in_id i, aa_rule_id (in_alert i), aa_source (in_alert i), in_acknowledged_at i, in_acknowledged_by i))
    <$> af_instances (aw_state w) ≡ₚ
  (fun i => (in_id i, aa_rule_id (in_alert i), aa_source (in_alert i), in_acknowledged_at i, in_acknowledged_by i))
    <$> af_instances (aw_state after).
Proof.
  intros H0 Hr Hd Hn. apply (inv_reachable _ _ Hr) in H0 as [Hp _ Hc]. destruct (Hc Hd) as (g & Hg & _ & Hl).
  cbv zeta. destruct (restart_loads defaults ts (aw_disk w) g Hp Hg) as [-> _]. by apply lives_permutation.
Qed.

(** The first element that fits is replaced where it is. *)
Lemma update_first_split {A : Type} (f : A -> bool) (g : A -> A) l x :
  List.find f l = Some x ->
  exists pre post, l = (pre ++ x :: post)%list /\ update_first f g l = (pre ++ g x :: post)%list /\ forall y, y ∈ pre -> f y = false.
Proof.
  induction l as [|y l IH]; [done|]. cbn. destruct (f y) eqn:Ey.
  - intros [= ->]. exists [], l. split_and!; [done..|]. by intros y' ?%not_elem_of_nil.
  - intros (pre & post & -> & -> & Hpre)%IH. exists (y :: pre), post. split_and!; [done..|].
    intros z [->|Hz]%elem_of_cons; auto.
Qed.

(** C36: Acknowledging is all or nothing. If it succeeds, the occurrence with the id carries an acknowledgement with
    the user and the time of the call, or, if it had been acknowledged before, with those of the first time; every other
    occurrence and every rule is as before, in the same order; and the file holds this state (but for the rounding of its
    numbers). If it fails neither memory nor file changed. Assumed: files are regular files, the state's numbers are finite, and a state with
    finite numbers parses back as it was printed but for their rounding. *)
Theorem acknowledging_all_or_nothing F now id user (w : AlertWorld) :
  plain (aw_disk w) -> finite_file (aw_state w) ->
  match acknowledge F now id user w with
  | (Ok ack, w') =>
      stored_as (aw_state w') (aw_disk w') /\ af_rules (aw_state w') = af_rules (aw_state w) /\
      ak_instance_id ack = id /\
      exists pre i post,
        af_instances (aw_state w) = (pre ++ i :: post)%list /\ in_id i = id /\ id ∉ in_id <$> pre /\
        af_instances (aw_state w') = (pre ++ mkInstance id (in_alert i) (Some (ak_at ack)) (Some (ak_by ack)) :: post)%list /\
        ak_at ack = match in_acknowledged_at i with Some first => first | None => now end /\
        ak_by ack = match in_acknowledged_by i with Some first => first | None => user end
  | (Err _, w') => aw_state w' = aw_state w /\ alert_stored (aw_disk w') = alert_stored (aw_disk w)
  end.
Proof.
  intros Hp Hf. pose proof (acknowledge_spec F now id user w Hp) as Ha.
  destruct (acknowledge F now id user w) as [[ack|e] w']; [|naive_solver].
  destruct Ha as (_ & ins & Hm & Hs & _ & Hst).
  split; [apply Hst; rewrite Hs; split; [apply Hf|by eapply mark_finite; [apply Hf|]]|]. split; [by rewrite Hs|].
  unfold mark_acknowledged in Hm. destruct (List.find _ _) as [i|] eqn:Ef; [|done]. injection Hm as <- <-.
  assert (in_id i = id) as Hid by (by apply List.find_some in Ef as [_ ?%eqb_spec]). split; [done|].
  destruct (update_first_split _ (acknowledge_instance user now) _ _ Ef) as (pre & post & Hw & Hu & Hpre).
  exists pre, i, post. rewrite Hs. cbn [af_instances set_instances]. rewrite Hu. split_and!; try done; [|by rewrite <- Hid].
  intros (k & E & Hk%Hpre)%list_elem_of_fmap. by rewrite <- E, eqb_refl in Hk.
Qed.

(** *** Rule changes that fail *)

(** A rule whose creation was answered with an error because the state could not be saved takes effect
    nevertheless, is not marked as unsaved, and is gone after a restart. *)
Theorem failed_rule_creation_takes_effect F uuid r (w : AlertWorld) e :
  plain (aw_disk w) -> aw_dirty w = false ->
  existsb (fun x => ar_id x =s ar_id r) (af_rules (aw_state w)) = false -> ar_id r <> "" ->
  (save_state F (set_rules (af_rules (aw_state w) ++ [r])%list (aw_state w)) (aw_disk w)).1 = Err e ->
  (create_rule F uuid r w).1 = Err (display_io e) /\
  af_rules (aw_state (create_rule F uuid r w).2) = (af_rules (aw_state w) ++ [r])%list /\
  aw_dirty (create_rule F uuid r w).2 = false /\
  alert_stored (aw_disk (create_rule F uuid r w).2) = alert_stored (aw_disk w).
Proof.
  intros Hp Hd Hex Hid He. set (f := set_rules (af_rules (aw_state w) ++ [r])%list (aw_state w)) in *.
  pose proof (save_state_spec F f (aw_disk w) Hp) as Hs. unfold wp in Hs.
  destruct (save_state F f (aw_disk w)) as [[[]|e'] d] eqn:Es; cbn [fst snd] in *; [done|]. injection He as ->.
  assert (create_rule F uuid r w = (Err (display_io e), mkAlertWorld f (aw_dirty w) (aw_revision w) d)) as ->.
  { unfold create_rule, bind at 1, gets, throw_if. rewrite Hex. apply String.eqb_neq in Hid. rewrite Hid.
    unfold bind, modify, ret, saved, bind, gets, try_save, lift. destruct r. cbn -[save_state]. fold f in Es |- *.
    cbn in f. subst f. by rewrite Es. }
  cbn. split_and!; try done. apply Hs.
Qed.

(** A default rule that was deleted is back after a restart. *)
Theorem deleted_default_rule_returns F (w : AlertWorld) defaults ts r :
  plain (aw_disk w) -> finite_file (aw_state w) -> r ∈ defaults -> is_ok (delete_rule F (ar_id r) w).1 = true ->
  exists r', r' ∈ af_rules (aw_state (new_alerts no_faults defaults ts (aw_disk (delete_rule F (ar_id r) w).2))) /\ ar_id r' = ar_id r.
Proof.
  intros Hp Hf Hr Hok. destruct (rule_call_inv F _ _ (delete_saved F (ar_id r) w) Hok Hp Hf) as [[Hp' _ Hc] Hd].
  destruct (Hc Hd) as (g & Hg & _ & _). destruct (restart_loads defaults ts _ g Hp' Hg) as [_ ->].
  assert (forall ds rs, (exists x, x ∈ rs /\ ar_id x = ar_id r) -> exists x, x ∈ backfill ds rs /\ ar_id x = ar_id r) as Hkeep.
  { intros ds. unfold backfill. induction ds as [|d ds IH]; intros rs Hrs; [done|]. cbn. apply IH.
    destruct (existsb _ rs); [done|]. destruct Hrs as (x & Hx & E). exists x. rewrite elem_of_app. auto. }
  assert (forall ds rs, r ∈ ds -> exists x, x ∈ backfill ds rs /\ ar_id x = ar_id r) as Hback.
  { unfold backfill. induction ds as [|d ds IH]; intros rs; [by intros ?%not_elem_of_nil|].
    intros [<-|Hin]%elem_of_cons; cbn; [|by apply IH]. apply Hkeep. destruct (existsb _ rs) eqn:Ex.
    - apply existsb_elem in Ex as (x & Hx & ?%eqb_spec). eauto.
    - exists r. rewrite elem_of_app, list_elem_of_singleton. auto. }
  destruct (af_rules g) as [|x rs]; [by exists r|]. by apply Hback.
Qed.

End File.
