(* ===== verification/BackupWitness.v ===== *)
(** * Backups: the theorems applied

    One profile on an S3 target, run every hour, with a vault that seals by
    naming the secret, a schedule of fixed periods and a serialiser of the few
    states that occur.

    ** Alerts: the theorems applied

    A filesystem that is 96 percent full, its two rules, an acknowledgement and
    a restart, with a serialiser of the few states that occur. *)
From Stdlib Require Import String Ascii ZArith QArith SpecFloat.
From stdpp Require Import base list gmap strings numbers relations.
From S2P Require Import Prelude RustStr Disk StateStore Records AuthTypes BackupJobs Backup BackupService Scheduler BackupProps BackupSecrets AlertService AlertProps.

Open Scope string_scope.
Open Scope rust_scope.
Open Scope nat_scope.

Module BackupExample.

(** ** Jobs *)

#[export] Instance clock_example : Rfc3339 := {
  to_rfc3339 _ := "1970-01-01T00:00:00+00:00";
  parse_rfc3339 _ := Some 0%Z
}.

Definition one_died : JobWorld :=
  mkJobWorld (jw_jobs both_in_run) (Some "q")
    (<["a" := mkTask "p" RunBackup Ended]> (jw_tasks both_in_run)).

Lemma died_step : job_step both_in_run one_died.
Proof. apply (JDie "a" (mkTask "p" RunBackup InRun)); [reflexivity|discriminate]. Qed.

Lemma one_died_reachable : rtc job_step jobs0 one_died.
Proof. eapply rtc_r; [apply both_in_run_reachable|apply died_step]. Qed.

Definition job_a : BackupJob := default (mkJob "" "" RunBackup Pending "" None None None None None None) (jw_jobs both_in_run !! "a").

(** ** Profiles *)

#[export] Instance Retention_eq_dec : EqDecision RetentionPolicy.
Proof. solve_decision. Defined.
#[export] Instance RunResult_eq_dec : EqDecision BackupRunResult.
Proof. solve_decision. Defined.
#[export] Instance BackupProfile_eq_dec : EqDecision BackupProfile.
Proof. solve_decision. Defined.

#[export] Instance url_example : UrlLib := {
  Url := string;
  url_parse _ := None;
  url_username _ := "";
  url_password _ := None;
  url_strip u := u
}.

#[export] Instance vault_example : Vault := {
  seal name plain := Ok (mkBlob (name ++ ":" ++ plain));
  unseal name b := ok_or (strip_prefix (name ++ ":") (blob_text b)) "wrong name"
}.

#[export] Instance vault_laws_example : VaultLaws.
Proof. intros name plain b [= <-]. cbn. rewrite append_assoc. by rewrite strip_prefix_app. Qed.

Definition hourly (password : option string) (key : option string) : BackupProfile :=
  mkProfile "p" "nightly" true ["/fs/tank"] (S3 "endpoint" "bucket" "access" key None None) (Some "0 * * * *")
    (mkRetention (Some 7%Z) None None None None) password None false true None None.

Definition sealed (password : string) : BackupProfile :=
  encrypt_profile_secrets_in_place (hourly (Some password) (Some "key")).

Definition run_ok : BackupRunResult := mkRunResult "now" true "Backup completed successfully" 3 None None None.

#[export] Instance profiles_codec : Codec (list BackupProfile) := {
  encode ps := if decide (ps = []) then Ok "[]"
               else if decide (ps = [sealed "one"]) then Ok "one"
               else if decide (ps = [sealed "two"]) then Ok "two"
               else if decide (ps = [set_last_run (Some run_ok) (sealed "one")]) then Ok "ran"
               else Err "not printed";
  decode s := if s =s "[]" then Ok []
              else if s =s "one" then Ok [sealed "one"]
              else if s =s "two" then Ok [sealed "two"]
              else if s =s "ran" then Ok [set_last_run (Some run_ok) (sealed "one")]
              else Err "not parsed"
}.

#[export] Instance profiles_codec_laws : CodecLaws (list BackupProfile).
Proof. intros ps s. cbn -[sealed]. repeat case_decide; intros [= <-]; subst; reflexivity. Qed.

Definition fresh : BkWorld := mkBk [] None ∅.

Lemma fresh_inv : BkInv fresh.
Proof. split; [by intros p f|reflexivity|constructor]. Qed.

Definition created : BkWorld := (create_profile no_faults "u" (hourly (Some "one") (Some "key")) fresh).2.

Lemma created_inv : BkInv created.
Proof. apply (bk_exec_inv (CallCreate no_faults "u" (hourly (Some "one") (Some "key")))); [done|apply fresh_inv]. Qed.

(** ** Schedules *)

#[export] Instance cron_example : Cron := {
  Schedule := positive;
  cron_from_str s := if s =s "0 0 * * * *" then Ok 3600%positive else Err "unknown";
  cron_after p t := Some ((t / Zpos p + 1) * Zpos p)%Z
}.

#[export, refine] Instance cron_laws_example : CronLaws := { occurs p u := exists k, (u = k * Zpos p)%Z }.
Proof.
  - intros p t u. cbn. intros [= <-].
    pose proof (Z.div_mod t (Zpos p) ltac:(lia)). pose proof (Z.mod_pos_bound t (Zpos p) ltac:(lia)).
    split_and!; [lia|by eexists|]. intros v [k ->] Hlt. apply Z.mul_le_mono_nonneg_r; [lia|].
    apply Z.le_succ_l, Z.div_lt_upper_bound; lia.
  - intros p t v. cbn. done.
Defined.

Definition every_hour : Schedule := 3600%positive.
Definition at_start : SchedulerTick := new_tick 0.

End BackupExample.
Import BackupExample.

Lemma jobs_well_formed_witness : is_Some (jw_tasks both_in_run !! "a").
Proof.
  destruct (jobs_well_formed both_in_run both_in_run_reachable) as (_ & _ & Hlive).
  apply (Hlive "a" job_a); reflexivity.
Defined.

Lemma jobs_move_forward_witness : advances "a" job_a (jw_jobs one_died).
Proof. apply (jobs_move_forward both_in_run one_died); [apply both_in_run_reachable|apply died_step|reflexivity]. Defined.

(** The task of job [a] panicked: the monitor fails the job and its profile may run again. *)
Lemma dead_tasks_free_their_profile_witness :
  is_ok (start "c" 0 "p" RunBackup (recover_abandoned 0 "a" (jw_jobs one_died) (jw_running one_died)).1.2).1 = true.
Proof.
  pose proof (dead_tasks_free_their_profile one_died 0 "a" (mkTask "p" RunBackup Ended) job_a one_died_reachable
    eq_refl eq_refl eq_refl) as Hfree.
  destruct (recover_abandoned 0 "a" (jw_jobs one_died) (jw_running one_died)) as [[b m] r] eqn:E.
  destruct Hfree as (j & _ & _ & Hj). destruct (Hj eq_refl) as (_ & _ & Hs). exact (Hs "c" 0%Z RunBackup).
Defined.

(** The hour strikes between the ticks at 3599 s and 3601 s: it fires at the second, and not at 3602 s. *)
Lemma ticks_fire_each_occurrence_once_witness :
  "p" ∈ (evaluate [sealed "one"] 3601 (evaluate [sealed "one"] 3599 at_start).2).1 /\
  "p" ∉ (evaluate [sealed "one"] 3602 (evaluate [sealed "one"] 3601 at_start).2).1.
Proof.
  assert (NoDup (bp_id <$> [sealed "one"])) as Hn by (vm_compute; repeat constructor; set_solver).
  assert (sealed "one" ∈ [sealed "one"]) as Hp by set_solver.
  assert (schedule_of (sealed "one") = Some every_hour) as Hs by (vm_compute; reflexivity).
  split.
  - apply (ticks_fire_each_occurrence_once [sealed "one"] [sealed "one"] 3599 3601 at_start (sealed "one") (sealed "one")
      every_hour Hn Hn Hp Hp eq_refl Hs Hs); [vm_compute; discriminate|].
    exists 3600%Z. split; [by exists 1%Z|lia].
  - intros Hf. change "p" with (bp_id (sealed "one")) in Hf.
    apply (ticks_fire_each_occurrence_once [sealed "one"] [sealed "one"] 3601 3602 at_start (sealed "one") (sealed "one")
      every_hour Hn Hn Hp Hp eq_refl Hs Hs) in Hf; [|vm_compute; discriminate].
    destruct Hf as (u & [k ->] & Hu). change (Z.pos every_hour) with 3600%Z in Hu. lia.
Defined.

(** The hour strikes while the last backup of the profile still runs: the round at 3661 s tries again. Nothing of
    the profile runs: its job is registered. *)
Lemma due_profiles_start_or_retry_witness :
  "p" ∈ (evaluate [sealed "one"] 3661 (scheduler_round (fun i => "job of " ++ i) 3601 created at_start both_in_run).1.2).1 /\
  registered "job of p" 3601 "p" (scheduler_round (fun i => "job of " ++ i) 3601 created at_start jobs0).2.
Proof.
  assert (forall i j : string, "job of " ++ i = "job of " ++ j -> i = j) as Hinj by (intros i j; apply append_inj_l).
  assert (sealed "one" ∈ bk_profiles created) as Hin by (vm_compute; constructor).
  assert (0 < 3600 <= 3601)%Z as Hdue by lia. assert (0 <= 0)%Z as Hst by lia.
  assert (occurs every_hour 3600) as Hocc by (by exists 1%Z). split.
  - assert (forall i : string, jw_jobs both_in_run !! ("job of " ++ i) = None) as Hfresh by (intros i; reflexivity).
    pose proof (due_profiles_start_or_retry (fun i => "job of " ++ i) 3601 created at_start both_in_run (sealed "one")
      every_hour 3600 Hinj Hfresh (bi_unique _ created_inv) Hin eq_refl Hocc Hdue Hst) as Hround.
    destruct (scheduler_round (fun i => "job of " ++ i) 3601 created at_start both_in_run) as [[log t'] w'].
    destruct Hround as [_ [_ Hretry]]; [exists "a", job_a; by split_and!|].
    apply (Hretry 3661%Z [sealed "one"] (sealed "one")); [lia|apply list.NoDup_singleton|by left|reflexivity|reflexivity].
  - assert (forall i : string, jw_jobs jobs0 !! ("job of " ++ i) = None) as Hfresh by (intros i; reflexivity).
    pose proof (due_profiles_start_or_retry (fun i => "job of " ++ i) 3601 created at_start jobs0 (sealed "one")
      every_hour 3600 Hinj Hfresh (bi_unique _ created_inv) Hin eq_refl Hocc Hdue Hst) as Hround.
    destruct (scheduler_round (fun i => "job of " ++ i) 3601 created at_start jobs0) as [[log t'] w'].
    destruct Hround as [Hreg _]. apply Hreg. by intros (key & j & Hk & _).
Defined.

Lemma tick_fires_only_due_profiles_witness :
  exists p s, p ∈ [sealed "one"] /\ bp_id p = "p" /\ bp_enabled p = true /\ schedule_of p = Some s.
Proof. apply (tick_fires_only_due_profiles [sealed "one"] 3600 at_start "p"). vm_compute. constructor. Defined.

(** A password change that fails at the rename, and one that succeeds. *)
Lemma profiles_stay_stored_witness :
  let calls := [CallUpdate (mkFaults (fun op _ => match op with OpRename => Some NotFound | _ => None end) 0) (fun w => w) "p"
                  (hourly (Some "two") (Some "key"));
                CallUpdate no_faults (fun w => w) "p" (hourly (Some "two") (Some "key"))] in
  bk_profiles (new_service no_faults (bk_disk (fold_left (fun v c => exec c v) calls created))) = [sealed "two"].
Proof.
  intros calls. assert (Forall regular calls) as Hc by (unfold calls; apply Forall_cons; split; [done|apply Forall_cons; split; done]).
  destruct (profiles_stay_stored calls created created_inv Hc) as [_ E]. rewrite E. vm_compute. reflexivity.
Defined.

Lemma only_current_runs_recorded_witness :
  noted "p" (sealed "one") run_ok (bk_profiles created) [set_last_run (Some run_ok) (sealed "one")].
Proof.
  pose proof (only_current_runs_recorded no_faults "p" (sealed "one") run_ok created created_inv) as Hr.
  destruct (record_run no_faults "p" (sealed "one") run_ok created) as [r w'] eqn:E.
  assert (r = Ok true) as -> by (apply (f_equal fst) in E; vm_compute in E; by rewrite <- E).
  assert (bk_profiles w' = [set_last_run (Some run_ok) (sealed "one")]) as Ew; [|by rewrite Ew in Hr].
  apply (f_equal (fun x => bk_profiles x.2)) in E. cbn [snd] in E. rewrite <- E. vm_compute. reflexivity.
Defined.

Lemma created_profile_resolves_witness :
  exists q, (get_profile_internal "p" created).1 = Ok q /\ resolve_profile_password q = Ok "one" /\ bp_password q = None.
Proof.
  destruct (create_profile no_faults "u" (hourly (Some "one") (Some "key")) fresh) as [[r|e] w'] eqn:E;
    [|apply (f_equal fst) in E; vm_compute in E; discriminate].
  assert (w' = created) as -> by (unfold created; by rewrite E).
  destruct (created_profile_resolves no_faults "u" (hourly (Some "one") (Some "key")) fresh r created fresh_inv E)
    as (q & Hq & -> & Hid & Hpw & _ & Hat). cbn in Hid.
  exists q. split_and!.
  - cbn in Hq. by rewrite Hid in Hq.
  - rewrite Hpw, Hid. reflexivity.
  - apply Hat; [by intros ? ?|by right].
Defined.

(** An update without a password keeps it, one with a password replaces it. *)
Lemma update_keeps_or_replaces_password_witness :
  exists p, (get_profile_internal "p" (update_profile no_faults (fun w => w) "p" (hourly (Some "two") (Some "key")) created).2).1 = Ok p /\
            resolve_profile_password p = Ok "two".
Proof.
  destruct (update_profile no_faults (fun w => w) "p" (hourly (Some "two") (Some "key")) created) as [[r|e] w'] eqn:E;
    [|apply (f_equal fst) in E; vm_compute in E; discriminate].
  destruct (update_keeps_or_replaces_password no_faults (fun w => w) "p" (hourly (Some "two") (Some "key")) created r w'
    created_inv (fun v Hv => Hv) eq_refl E) as (ex & p & Hex & Hp & _ & Hpw & _).
  exists p. split; [exact Hp|]. rewrite Hpw. reflexivity.
Defined.

Lemma operators_reach_data_only_witness :
  exists p, (get_profile_internal "p" created).1 = Ok p /\
    forall src, src ∈ bp_sources p -> exists c rest, components src = "fs" :: c :: rest.
Proof.
  destruct (operators_reach_data_only (mkSession "t" "op" Operator None None None 0 false None) "p" created)
    as (p & Hp & _ & _ & Hs); [vm_compute; reflexivity|discriminate|].
  exists p. split; [exact Hp|]. intros src (_ & c & rest & Hc & _)%Hs. eauto.
Defined.

(** A library that reads the one form of URLs that occurs below. *)
Module RestExample.

Definition host_url : string := "https://host/repo".
#[export] Instance url_rest : UrlLib := {
  Url := string;
  url_parse s := match strip_prefix "https://user:" s with
                 | Some rest => match split_once "@" rest with
                                | Some (password, "host/repo") => Some password
                                | _ => None
                                end
                 | None => None
                 end;
  url_username _ := "user";
  url_password u := Some u;
  url_strip _ := host_url
}.

Definition on_rest (password key credential : string) : BackupProfile :=
  mkProfile "p" "nightly" true ["/fs/tank"]
    (RestTarget ("https://user:" ++ credential ++ "@host/repo") (Some "user") (Some key) (Some (mkBlob key))) None
    (mkRetention (Some 7%Z) None None None None) (Some password) (Some (mkBlob password)) false true None None.

Definition with_url : BkWorld := mkBk [on_rest "one" "key" "letmein"] None ∅.

End RestExample.

(** The list shows a profile with credentials in its URL as it would show any other password, key and credentials. *)
Lemma redaction_hides_secrets_witness :
  exists r, (profile_call (H := RestExample.url_rest) ListProfiles RestExample.with_url).1 = Ok [r] /\
    concealed r /\ redacted (H := RestExample.url_rest) (RestExample.on_rest "two" "other key" "sesame") = r.
Proof.
  destruct (redaction_hides_secrets (H := RestExample.url_rest) ListProfiles RestExample.with_url
    [redacted (H := RestExample.url_rest) (RestExample.on_rest "one" "key" "letmein")] RestExample.with_url
    (redacted (H := RestExample.url_rest) (RestExample.on_rest "one" "key" "letmein")))
    as (Hc & q & Hq & _ & _ & _ & Hsame); [reflexivity|by left|].
  eexists. split; [reflexivity|]. split; [exact Hc|]. apply Hsame. apply list_elem_of_singleton in Hq as ->.
  split; try reflexivity. apply SameRest; [|reflexivity]. right. exists "letmein", "sesame". by vm_compute.
Defined.

Lemma url_credentials_cut_out_witness :
  redact_url_credentials "failed: https://user:p@ss@host/repo" = "failed: https://[redacted]@host/repo".
Proof.
  exact (url_credentials_cut_out "failed: " "https://" "user:p@ss" "host/repo" eq_refl
    ltac:(set_solver) eq_refl eq_refl).
Defined.

Module AlertExample.

#[export] Instance fmt_example : FmtFixed := fun _ _ => "96".

Definition stats : SystemStats := mkStats 0 (f64_of 0) 0 0 0 0.
Definition tank : FsUsage := mkFsUsage "tank" 96 100.
Definition alerts : list ActiveAlert :=
  evaluate_rules default_rules stats [tank] [] [] (mkKernelErrors 0 []) (mkFree None None).

Lemma two_alerts : aa_rule_id <$> evaluate_rules default_rules stats [tank] [] [] (mkKernelErrors 0 []) (mkFree None None) =
  ["fs-usage-warn"; "fs-usage-crit"].
Proof. vm_compute. reflexivity. Qed.

Lemma some_alert : exists a, a ∈ evaluate_rules default_rules stats [tank] [] [] (mkKernelErrors 0 []) (mkFree None None).
Proof.
  pose proof two_alerts as H. destruct (evaluate_rules default_rules stats [tank] [] [] (mkKernelErrors 0 []) (mkFree None None)) as [|a l]; [discriminate|]. exists a. constructor.
Qed.

#[export] Instance spec_float_eq_dec : EqDecision spec_float.
Proof. solve_decision. Defined.
#[export] Instance condition_eq_dec : EqDecision AlertCondition.
Proof. solve_decision. Defined.
#[export] Instance severity_eq_dec : EqDecision AlertSeverity.
Proof. solve_decision. Defined.
#[export] Instance rule_eq_dec : EqDecision AlertRule.
Proof. solve_decision. Defined.
#[export] Instance alert_eq_dec : EqDecision ActiveAlert.
Proof. solve_decision. Defined.
#[export] Instance instance_eq_dec : EqDecision AlertInstanceState.
Proof. solve_decision. Defined.
#[export] Instance file_eq_dec : EqDecision AlertFile.
Proof. solve_decision. Defined.

(** The first occurrences, then the first of them acknowledged. *)
Definition firing : AlertFile := mkAlertFile default_rules (reconcile_instances ["u1"; "u2"] [] alerts (fun _ => true)).1.
Definition seen : AlertFile :=
  set_instances (update_first (fun i => in_id i =s "u1") (acknowledge_instance "admin" "noon") (af_instances firing)) firing.

#[export] Instance alert_codec : Codec AlertFile := {
  encode f := if decide (f = mkAlertFile default_rules []) then Ok "quiet"
              else if decide (f = firing) then Ok "firing"
              else if decide (f = seen) then Ok "seen"
              else Err "not printed";
  decode s := if s =s "quiet" then Ok (mkAlertFile default_rules [])
              else if s =s "firing" then Ok firing
              else if s =s "seen" then Ok seen
              else Err "not parsed"
}.

#[export] Instance alert_codec_laws : AlertCodecLaws.
Proof. intros f s _. cbn -[firing seen]. repeat case_decide; intros [= <-]; subst; by eexists. Qed.

Definition disk0 : Disk := {[ALERT_PATH := mkFile Regular 420 engine_uid "quiet"]}.
Definition booted : AlertWorld := new_alerts no_faults default_rules None disk0.
Definition world1 : AlertWorld := (reconcile_active no_faults ["u1"; "u2"] alerts (fun _ => true) booted).2.
Definition world2 : AlertWorld := (acknowledge no_faults "noon" "u1" "admin" world1).2.

Lemma disk0_plain : plain disk0.
Proof. intros p f. unfold disk0. by intros [_ <-]%lookup_singleton_Some. Qed.

Lemma quiet_finite : finite_file (mkAlertFile default_rules []).
Proof. split; vm_compute; repeat constructor. Qed.

Lemma alerts_finite : Forall finite_alert alerts.
Proof. vm_compute. repeat constructor. Qed.

Lemma booted_inv : AlertInv booted.
Proof.
  assert (booted = mkAlertWorld (mkAlertFile default_rules []) false 0 disk0) as -> by (vm_compute; reflexivity).
  apply clean_saved; [apply disk0_plain|by apply quiet_finite|by eexists].
Qed.

Lemma world1_inv : AlertInv world1.
Proof. apply inv_reconcile; [apply booted_inv|apply alerts_finite]. Qed.

End AlertExample.
Import AlertExample.

Lemma alerts_are_justified_witness :
  exists r a, a ∈ evaluate_rules default_rules stats [tank] [] [] (mkKernelErrors 0 []) (mkFree None None) /\
     r ∈ default_rules /\ ar_enabled r = true /\ justified r a.
Proof.
  destruct some_alert as [a Ha].
  destruct (alerts_are_justified default_rules stats [tank] [] [] (mkKernelErrors 0 []) (mkFree None None) a Ha)
    as (r & Hr & He & Hj). exists r, a. auto.
Defined.

Lemma acknowledgements_stay_with_their_alert_witness :
  exists i j, i ∈ af_instances seen /\ j ∈ (reconcile_instances ["u3"; "u4"] (af_instances seen) alerts (fun _ => true)).1 /\
    in_id i = in_id j /\ in_acknowledged_by j = Some "admin".
Proof.
  assert (exists j, j ∈ (reconcile_instances ["u3"; "u4"] (af_instances seen) alerts (fun _ => true)).1 /\
            in_acknowledged_at j = Some "noon" /\ in_acknowledged_by j = Some "admin") as (j & Hj & Hat & Hby)
    by (eexists; split; [vm_compute; constructor|split; reflexivity]).
  destruct (acknowledgements_stay_with_their_alert ["u3"; "u4"] (af_instances seen) alerts (fun _ => true) j Hj)
    as (i & Hi & Hid & _); [by rewrite Hat|]. exists i, j. auto.
Defined.

(** The filesystem is emptied: both occurrences end. *)
Lemma occurrences_live_with_their_alert_witness :
  "u1" ∉ in_id <$> (reconcile_instances ["u3"] (af_instances seen) [] (fun _ => true)).1.
Proof.
  assert (NoDup (["u3"] ++ (in_id <$> af_instances seen))%list) as Hn
    by (vm_compute; repeat constructor; set_solver).
  destruct (occurrences_live_with_their_alert ["u3"] (af_instances seen) [] (fun _ => true) Hn (Nat.le_0_l _))
    as (_ & _ & _ & Hgone).
  assert (exists i, i ∈ af_instances seen /\ in_id i = "u1") as (i & Hi & <-)
    by (eexists; split; [vm_compute; constructor|reflexivity]).
  apply (Hgone i Hi). by intros (a & ?%not_elem_of_nil & _).
Defined.

Lemma occurrences_survive_restart_witness :
  (("u1", Some "noon", Some "admin") : string * option string * option string) ∈
  (fun i => (in_id i, in_acknowledged_at i, in_acknowledged_by i)) <$>
    af_instances (aw_state (new_alerts no_faults default_rules None (aw_disk world2))).
Proof.
  assert (rtc alert_step booted world2) as Hr.
  { apply (rtc_l _ _ world1); [exact (SReconcile booted no_faults ["u1"; "u2"] alerts (fun _ => true) alerts_finite)|].
    apply rtc_once. exact (SAcknowledge world1 no_faults "noon" "u1" "admin"). }
  assert (NoDup (in_id <$> af_instances (aw_state world2))) as Hn by (vm_compute; repeat constructor; set_solver).
  pose proof (occurrences_survive_restart booted world2 default_rules None booted_inv Hr ltac:(vm_compute; reflexivity) Hn) as Hp.
  cbv zeta in Hp. apply (fmap_Permutation (fun t : string * string * string * option string * option string =>
    let '(i, _, _, at_, by_) := t in (i, at_, by_))) in Hp. rewrite <- !list_fmap_compose in Hp.
  refine (proj1 (elem_of_Permutation_proper _ _ _ Hp) _). vm_compute. constructor.
Defined.

Lemma acknowledging_all_or_nothing_witness :
  stored_as (aw_state world2) (aw_disk world2) /\ aw_state world2 = seen.
Proof.
  pose proof (acknowledging_all_or_nothing no_faults "noon" "u1" "admin" world1 (ai_plain _ world1_inv) (ai_finite _ world1_inv)) as Ha.
  split; [|vm_compute; reflexivity].
  assert (is_ok (acknowledge no_faults "noon" "u1" "admin" world1).1 = true) as Hok by (vm_compute; reflexivity).
  unfold world2. destruct (acknowledge no_faults "noon" "u1" "admin" world1) as [[ack|e] w']; [|discriminate]. apply Ha.
Defined.
