(* ===== verification/ConfigFs.v ===== *)
(** * configfs as the sharing services see it

    The kernel exposes its iSCSI (LIO) and NVMe (nvmet) targets as a tree of
    directories, attributes and links: making a directory makes an object with
    the attributes and groups of its kind, writing an attribute sets it,
    linking attaches one object to another. A directory is removed with what
    the kernel put into it, and only while nothing that was made or linked is
    left in it and no link points to it. Every call may fail for reasons of its
    own, as the plan [k_faults] says, call by call. *)
From Stdlib Require Import String Ascii ZArith.
From stdpp Require Import base list gmap strings numbers.
From S2P Require Import Prelude RustStr Disk StateStore Records.

Open Scope string_scope.
Open Scope rust_scope.

(** A directory made by a call or one that came with another object; an
    attribute; a link. *)
Inductive Node :=
| NDir (made : bool)
| NAttr (v : string)
| NLink (target : Path).

Abbreviation Tree := (gmap (list string) Node).

Record Kernel := mkKernel {
  k_tree : Tree;
  k_faults : list (option IoErr)
}.

(** What the kernel decides: the attributes (with their first values) and the
    groups of a new object, and the text an attribute reads as. *)
Class ConfigFs := {
  new_items : Path -> list (list string * option string);
  attr_text : string -> string
}.

(** Attributes read as they were written, with a line end at most. *)
Class ConfigFsLaws `{ConfigFs} : Prop := attr_text_trim : forall v, trim (attr_text v) = trim v.

(** [format!("{p}/{s}")]. *)
Definition sub (p : Path) (s : string) : Path := (p ++ components s)%list.
Infix "//" := sub (at level 40, left associativity) : rust_scope.

(** [q] is [p] or lies below it. *)
Definition below (p q : Path) : bool := bool_decide (p `prefix_of` q).
Definition strictly_below (p q : Path) : bool := below p q && negb (bool_decide (p = q)).

Section Calls.
Context `{ConfigFs}.

Abbreviation K := (M Kernel IoErr).

Definition set_tree (f : Tree -> Tree) (k : Kernel) : Kernel := mkKernel (f (k_tree k)) (k_faults k).
Definition tree : K Tree := gets k_tree.

(** The next call fails if the plan says so. *)
Definition next_fault : K unit := fun k =>
  match k_faults k with
  | [] => (Ok tt, k)
  | None :: rest => (Ok tt, mkKernel (k_tree k) rest)
  | Some e :: rest => (Err e, mkKernel (k_tree k) rest)
  end.

Definition item_node (i : list string * option string) : Node :=
  match i.2 with Some v => NAttr v | None => NDir false end.

(** The tree with a new object at [p]. *)
Definition make (p : Path) (t : Tree) : Tree :=
  <[p := NDir true]> (t ∪ list_to_map ((fun i => ((p ++ i.1)%list, item_node i)) <$> new_items p)).

(** [Path::is_dir]: links are followed. *)
Definition is_dir (t : Tree) (p : Path) : bool :=
  match t !! p with
  | Some (NDir _) => true
  | Some (NLink q) => match t !! q with Some (NDir _) => true | _ => false end
  | _ => false
  end.

(** [fs::create_dir]. *)
Definition k_create_dir (p : Path) : K unit :=
  next_fault ;;;
  t <- tree ;;
  throw_if (is_some (t !! p)) AlreadyExists ;;;
  match parent p with
  | Some q => if is_dir t q then modify (set_tree (make p)) else throw NotFound
  | None => throw AlreadyExists
  end.

(** [fs::create_dir_all]: the missing ancestors first. *)
Fixpoint create_below (q rest : Path) : K unit :=
  match rest with
  | [] => ret tt
  | c :: rest' =>
      let q' := (q ++ [c])%list in
      t <- tree ;;
      if is_dir t q' then create_below q' rest' else k_create_dir q' ;;; create_below q' rest'
  end.
Definition k_create_dir_all (p : Path) : K unit := create_below [] p.

Definition busy (t : Tree) (p : Path) : bool :=
  existsb (fun kv => match kv.2 with
                     | NDir true => strictly_below p kv.1
                     | NLink q => strictly_below p kv.1 || bool_decide (q = p)
                     | _ => false
                     end) (map_to_list t).

(** The tree without [p] and what lies below it. *)
Definition prune (p : Path) (t : Tree) : Tree := filter (fun kv => below p kv.1 = false) t.

(** [fs::remove_dir]. *)
Definition k_remove_dir (p : Path) : K unit :=
  next_fault ;;;
  t <- tree ;;
  match t !! p with
  | None => throw NotFound
  | Some (NDir true) =>
      throw_if (busy t p) (OtherIo "Directory not empty (os error 39)") ;;;
      modify (set_tree (prune p))
  | Some _ => throw (OtherIo "Operation not permitted (os error 1)")
  end.

(** [fs::write]: no file can be created in configfs. *)
Definition k_write (p : Path) (v : string) : K unit :=
  next_fault ;;;
  t <- tree ;;
  match t !! p with
  | Some (NAttr _) => modify (set_tree (<[p := NAttr v]>))
  | _ => throw (OtherIo "Permission denied (os error 13)")
  end.

(** [fs::read_to_string]. *)
Definition k_read (p : Path) : K string :=
  next_fault ;;;
  t <- tree ;;
  match t !! p with
  | Some (NAttr v) => ret (attr_text v)
  | Some _ => throw (OtherIo "Is a directory (os error 21)")
  | None => throw NotFound
  end.

(** [fs::symlink]: the target must be there. *)
Definition k_symlink (target link : Path) : K unit :=
  next_fault ;;;
  t <- tree ;;
  throw_if (is_some (t !! link)) AlreadyExists ;;;
  match parent link with
  | Some q =>
      if is_dir t q && is_dir t target then modify (set_tree (<[link := NLink target]>)) else throw NotFound
  | None => throw AlreadyExists
  end.

(** [fs::remove_file]. *)
Definition k_unlink (p : Path) : K unit :=
  next_fault ;;;
  t <- tree ;;
  match t !! p with
  | None => throw NotFound
  | Some (NLink _) => modify (set_tree (delete p))
  | Some _ => throw (OtherIo "Operation not permitted (os error 1)")
  end.

(** [fs::read_link]. *)
Definition k_read_link (p : Path) : K Path :=
  next_fault ;;;
  t <- tree ;;
  match t !! p with
  | Some (NLink q) => ret q
  | Some _ => throw (OtherIo "Invalid argument (os error 22)")
  | None => throw NotFound
  end.

(** The names in a directory, in the order of the map. *)
Definition children (t : Tree) (p : Path) : list string :=
  omap (fun kv => if bool_decide (parent kv.1 = Some p) then file_name kv.1 else None) (map_to_list t).

(** [fs::read_dir]. *)
Definition k_read_dir (p : Path) : K (list string) :=
  next_fault ;;;
  t <- tree ;;
  match t !! p with
  | Some (NDir _) => ret (children t p)
  | Some _ => throw (OtherIo "Not a directory (os error 20)")
  | None => throw NotFound
  end.

(** [Path::exists]: an error counts as missing. *)
Definition k_exists (p : Path) : K bool :=
  r <- attempt next_fault ;;
  t <- tree ;;
  ret (match r with
       | Err _ => false
       | Ok _ => match t !! p with
                 | Some (NLink q) => is_some (t !! q)
                 | o => is_some o
                 end
       end).

(** [fs::metadata], as far as the callers look: whether it is a directory. *)
Definition k_metadata (p : Path) : K bool :=
  next_fault ;;;
  t <- tree ;;
  match t !! p with
  | Some (NLink q) => if is_some (t !! q) then ret (is_dir t p) else throw NotFound
  | Some _ => ret (is_dir t p)
  | None => throw NotFound
  end.

(** [fs::canonicalize] of an object or of a link to one. *)
Definition k_canonicalize (p : Path) : K Path :=
  next_fault ;;;
  t <- tree ;;
  match t !! p with
  | Some (NLink q) => if is_some (t !! q) then ret q else throw NotFound
  | Some _ => ret p
  | None => throw NotFound
  end.

End Calls.

(** ** Lemmas *)

Lemma components_name s :
  contains_char "/" s = false -> s <> "" -> s <> "." -> components s = [s].
Proof.
  intros Hs He Hd. unfold components. rewrite (split_no_slash s Hs). simpl.
  apply eqb_neq_spec in He, Hd. by rewrite He, Hd.
Qed.

Definition attr (t : Tree) (p : Path) : option string :=
  match t !! p with Some (NAttr v) => Some v | _ => None end.

Lemma attr_insert_ne t p q n : p <> q -> attr (<[p := n]> t) q = attr t q.
Proof. intros. unfold attr. by rewrite lookup_insert_ne. Qed.

Lemma attr_insert t p v : attr (<[p := NAttr v]> t) p = Some v.
Proof. unfold attr. by rewrite lookup_insert_eq. Qed.

Lemma attr_Some t p v : attr t p = Some v <-> t !! p = Some (NAttr v).
Proof. unfold attr. destruct (t !! p) as [[]|]; naive_solver. Qed.

(** Writing an attribute changes no directory. *)
Lemma is_dir_write t p o v m : t !! p = Some (NAttr o) -> is_dir (<[p := NAttr v]> t) m = is_dir t m.
Proof.
  intros Hp. unfold is_dir. destruct (decide (p = m)) as [<-|Hm]; [by rewrite lookup_insert_eq, Hp|].
  rewrite lookup_insert_ne by done. destruct (t !! m) as [[|?|q]|]; try done.
  destruct (decide (p = q)) as [<-|Hq]; [by rewrite lookup_insert_eq, Hp|]. by rewrite lookup_insert_ne.
Qed.

Lemma below_spec p q : below p q = true <-> p `prefix_of` q.
Proof. apply bool_decide_eq_true. Qed.

Lemma below_app p q : below p (p ++ q)%list = true.
Proof. apply below_spec. by apply prefix_app_r. Qed.

Lemma lookup_prune t p q : prune p t !! q = if below p q then None else t !! q.
Proof.
  unfold prune. destruct (below p q) eqn:E.
  - apply map_lookup_filter_None. right. cbn. congruence.
  - destruct (t !! q) as [n|] eqn:Hq.
    + by apply map_lookup_filter_Some.
    + apply map_lookup_filter_None. by left.
Qed.

Section CallRules.
Context `{ConfigFs}.
Implicit Types (k : Kernel) (p q : Path).

(** A new object leaves the ones that are there as they are. *)
Lemma make_mono t p q n : t !! p = None -> t !! q = Some n -> make p t !! q = Some n.
Proof.
  intros Hp Hq. unfold make. rewrite lookup_insert_ne by congruence. by apply lookup_union_Some_l.
Qed.

Lemma make_self t p : make p t !! p = Some (NDir true).
Proof. apply lookup_insert_eq. Qed.

(** Outside of the new object nothing appears. *)
Lemma make_outside t p q : below p q = false -> make p t !! q = t !! q.
Proof.
  intros Hb. unfold make. rewrite lookup_insert_ne by (intros ->; by rewrite (proj2 (below_spec q q)) in Hb).
  apply lookup_union_l. apply not_elem_of_list_to_map_1.
  rewrite <- list_fmap_compose. intros ([i o] & -> & _)%list_elem_of_fmap. cbn in Hb. by rewrite below_app in Hb.
Qed.

Lemma wp_next_fault (Q : result unit IoErr -> Kernel -> Prop) k :
  (forall k', k_tree k' = k_tree k -> Q (Ok tt) k') ->
  (forall e k', k_tree k' = k_tree k -> Q (Err e) k') -> wp next_fault Q k.
Proof. intros Hok Herr. unfold wp, next_fault. destruct (k_faults k) as [|[e|] l]; cbn; auto. Qed.

Tactic Notation "call" ident(k1) ident(E1) :=
  apply wp_bind, wp_next_fault; [intros k1 E1|intros ? k1 E1; by auto]; apply wp_bind, wp_gets; rewrite ?E1.

Lemma wp_write p v (Q : result unit IoErr -> Kernel -> Prop) k :
  (forall old k', k_tree k !! p = Some (NAttr old) -> k_tree k' = <[p := NAttr v]> (k_tree k) -> Q (Ok tt) k') ->
  (forall e k', k_tree k' = k_tree k -> Q (Err e) k') -> wp (k_write p v) Q k.
Proof.
  intros Hok Herr. call k1 E1. destruct (k_tree k !! p) as [[]|] eqn:Hp; try (apply wp_throw; by auto).
  apply wp_modify. eapply Hok; [done|]. cbn. by rewrite E1.
Qed.

Lemma wp_read p (Q : result string IoErr -> Kernel -> Prop) k :
  (forall v k', k_tree k !! p = Some (NAttr v) -> k_tree k' = k_tree k -> Q (Ok (attr_text v)) k') ->
  (forall e k', k_tree k' = k_tree k -> Q (Err e) k') -> wp (k_read p) Q k.
Proof.
  intros Hok Herr. call k1 E1. destruct (k_tree k !! p) as [[]|] eqn:Hp; try (apply wp_throw; by auto).
  apply wp_ret. by eapply Hok.
Qed.

Lemma wp_create_dir p (Q : result unit IoErr -> Kernel -> Prop) k :
  (forall k', k_tree k !! p = None -> k_tree k' = make p (k_tree k) -> Q (Ok tt) k') ->
  (forall e k', k_tree k' = k_tree k -> Q (Err e) k') -> wp (k_create_dir p) Q k.
Proof.
  intros Hok Herr. call k1 E1. apply wp_bind, wp_throw_if; [auto|]. intros Hp.
  destruct (parent p) as [q|]; [|apply wp_throw; auto]. destruct (is_dir (k_tree k) q); [|apply wp_throw; auto].
  apply wp_modify, Hok; [by destruct (k_tree k !! p)|]. cbn. by rewrite E1.
Qed.

Lemma wp_remove_dir p (Q : result unit IoErr -> Kernel -> Prop) k :
  (forall k', k_tree k !! p = Some (NDir true) -> busy (k_tree k) p = false -> k_tree k' = prune p (k_tree k) -> Q (Ok tt) k') ->
  (forall e k', k_tree k' = k_tree k -> Q (Err e) k') -> wp (k_remove_dir p) Q k.
Proof.
  intros Hok Herr. call k1 E1. destruct (k_tree k !! p) as [[[]| |]|] eqn:Hp; try (apply wp_throw; by auto).
  apply wp_bind, wp_throw_if; [auto|]. intros Hb. apply wp_modify, Hok; [done..|]. cbn. by rewrite E1.
Qed.

Lemma wp_symlink a b (Q : result unit IoErr -> Kernel -> Prop) k :
  (forall k', k_tree k !! b = None -> k_tree k' = <[b := NLink a]> (k_tree k) -> Q (Ok tt) k') ->
  (forall e k', k_tree k' = k_tree k -> Q (Err e) k') -> wp (k_symlink a b) Q k.
Proof.
  intros Hok Herr. call k1 E1. apply wp_bind, wp_throw_if; [auto|]. intros Hp.
  destruct (parent b) as [q|]; [|apply wp_throw; auto]. destruct (_ && _); [|apply wp_throw; auto].
  apply wp_modify, Hok; [by destruct (k_tree k !! b)|]. cbn. by rewrite E1.
Qed.

Lemma wp_unlink p (Q : result unit IoErr -> Kernel -> Prop) k :
  (forall q k', k_tree k !! p = Some (NLink q) -> k_tree k' = delete p (k_tree k) -> Q (Ok tt) k') ->
  (forall e k', k_tree k' = k_tree k -> Q (Err e) k') -> wp (k_unlink p) Q k.
Proof.
  intros Hok Herr. call k1 E1. destruct (k_tree k !! p) as [[]|] eqn:Hp; try (apply wp_throw; by auto).
  apply wp_modify. eapply Hok; [done|]. cbn. by rewrite E1.
Qed.

(** Making a directory and its ancestors keeps what is there. *)
Lemma create_below_mono rest q k :
  wp (create_below q rest)
    (fun r k' => (forall p n, k_tree k !! p = Some n -> k_tree k' !! p = Some n) /\
                 (r = Ok tt -> rest <> [] -> is_dir (k_tree k') (q ++ rest)%list = true)) k.
Proof.
  revert q k. induction rest as [|c rest IH]; intros q k; cbn [create_below].
  { apply wp_ret. by split. }
  assert (forall k0, (forall p n, k_tree k !! p = Some n -> k_tree k0 !! p = Some n) ->
            is_dir (k_tree k0) (q ++ [c])%list = true ->
            wp (create_below (q ++ [c])%list rest)
              (fun r k' => (forall p n, k_tree k !! p = Some n -> k_tree k' !! p = Some n) /\
                 (r = Ok tt -> c :: rest <> [] -> is_dir (k_tree k') (q ++ c :: rest)%list = true)) k0) as Hgo.
  { intros k0 Hk0 Hd. destruct rest as [|c' rest]; [by apply wp_ret|].
    eapply wp_mono; [|apply IH]. intros r k' [Hm Hr]. split; [auto|]. intros -> _.
    rewrite <- (app_assoc q [c]) in Hr. by apply Hr. }
  apply wp_bind, wp_gets. destruct (is_dir (k_tree k) _) eqn:Hd; [by apply Hgo|].
  apply wp_bind, wp_create_dir.
  - intros k' Hn Ht. apply Hgo; [intros p n Hp; rewrite Ht; by apply make_mono|].
    unfold is_dir. by rewrite Ht, make_self.
  - intros e k' Ht. rewrite Ht. split; [done|discriminate].
Qed.

Lemma wp_create_dir_all p (Q : result unit IoErr -> Kernel -> Prop) k :
  p <> [] ->
  (forall k', (forall q n, k_tree k !! q = Some n -> k_tree k' !! q = Some n) -> is_dir (k_tree k') p = true -> Q (Ok tt) k') ->
  (forall e k', (forall q n, k_tree k !! q = Some n -> k_tree k' !! q = Some n) -> Q (Err e) k') ->
  wp (k_create_dir_all p) Q k.
Proof.
  intros Hp Hok Herr. eapply wp_mono; [|apply (create_below_mono p [] k)].
  intros [[]|e] k' [Hm Hr]; auto.
Qed.

(** With the parent in place it is one call or none. *)
Definition dirs_above (t : Tree) (p : Path) : Prop :=
  forall m r, p = (m ++ r)%list -> m <> [] -> r <> [] -> is_dir t m = true.

Lemma create_below_parent q rest c k :
  (forall m r, rest = (m ++ r)%list -> m <> [] -> is_dir (k_tree k) (q ++ m)%list = true) ->
  create_below q (rest ++ [c])%list k =
  (if is_dir (k_tree k) (q ++ rest ++ [c])%list then (Ok tt, k) else k_create_dir (q ++ rest ++ [c])%list k).
Proof.
  revert q. induction rest as [|b rest IH]; intros q Hd; cbn [app create_below].
  - unfold bind, tree, gets. destruct (is_dir _ _); [done|]. by destruct (k_create_dir _ k) as [[[]|e] k'].
  - unfold bind at 1, tree, gets. rewrite (Hd [b] rest eq_refl) by done.
    rewrite IH; [by rewrite <- !app_assoc|]. intros m r -> Hm. rewrite <- app_assoc.
    exact (Hd (b :: m) r eq_refl ltac:(done)).
Qed.

Lemma create_dir_all_parent p k :
  p <> [] -> dirs_above (k_tree k) p ->
  k_create_dir_all p k = (if is_dir (k_tree k) p then (Ok tt, k) else k_create_dir p k).
Proof.
  intros Hp Hd. destruct p as [|c p _] using rev_ind; [done|]. apply (create_below_parent []).
  intros m r -> Hm. apply (Hd m (r ++ [c])%list); [by rewrite app_assoc|done|by destruct r].
Qed.

(** What a new tree has: all the old one had, and attributes only of new
    objects. *)
Definition grown (t t' : Tree) : Prop :=
  (forall q n, t !! q = Some n -> t' !! q = Some n) /\
  (forall q v, attr t' q = Some v -> attr t q = Some v \/ exists p i, q = (p ++ i)%list /\ (i, Some v) ∈ new_items p).

Lemma grown_refl t : grown t t.
Proof. split; auto. Qed.

Lemma grown_trans t1 t2 t3 : grown t1 t2 -> grown t2 t3 -> grown t1 t3.
Proof. intros [Ha Hb] [Hc Hd]. split; [auto|]. intros q v [Hv|]%Hd; auto. Qed.

Lemma make_grown t p : t !! p = None -> grown t (make p t).
Proof.
  intros Hp. split; [intros q n; by apply make_mono|]. intros q v. rewrite !attr_Some. unfold make.
  intros [[<- [=]]|[Hne [Hq|[_ Hq]]%lookup_union_Some_raw]]%lookup_insert_Some; [by left|right].
  apply elem_of_list_to_map_2, list_elem_of_fmap in Hq as ([i o] & [= -> Hn] & Hin). exists p, i. split; [done|].
  unfold item_node in Hn. cbn in Hn. destruct o as [x|]; [|done]. by injection Hn as ->.
Qed.

Lemma create_below_grown rest q k : wp (create_below q rest) (fun _ k' => grown (k_tree k) (k_tree k')) k.
Proof.
  revert q k. induction rest as [|c rest IH]; intros q k; cbn [create_below]; [apply wp_ret, grown_refl|].
  apply wp_bind, wp_gets. destruct (is_dir (k_tree k) _); [apply IH|]. apply wp_bind, wp_create_dir.
  - intros k' Hn Ht. eapply wp_mono; [|apply IH]. intros r k2. apply grown_trans. rewrite Ht. by apply make_grown.
  - intros e k' ->. apply grown_refl.
Qed.

(** ** Faults *)

(** A computation uses up faults from the front of the plan. *)
Definition consumes {A} (m : M Kernel IoErr A) : Prop := forall k, k_faults (m k).2 `suffix_of` k_faults k.

Lemma consumes_const {A} (m : M Kernel IoErr A) : (forall k, k_faults (m k).2 = k_faults k) -> consumes m.
Proof. intros Hm k. by rewrite Hm. Qed.

Lemma consumes_bind {A B} (m : M Kernel IoErr A) (f : A -> M Kernel IoErr B) :
  consumes m -> (forall a, consumes (f a)) -> consumes (bind m f).
Proof.
  intros Hm Hf k. unfold bind. pose proof (Hm k) as Hk. destruct (m k) as [[a|e] k']; [|done]. etrans; [apply Hf|done].
Qed.

Lemma consumes_attempt {A} (m : M Kernel IoErr A) : consumes m -> consumes (attempt m).
Proof. intros Hm k. unfold attempt. pose proof (Hm k) as Hk. by destruct (m k). Qed.

Lemma consumes_next_fault : consumes next_fault.
Proof. intros k. unfold next_fault. destruct (k_faults k) as [|[e|] l] eqn:E; cbn; [by rewrite E|by exists [Some e]|by exists [None]]. Qed.

Ltac consumes_go := cbv zeta; repeat first
  [ apply consumes_next_fault
  | apply consumes_bind; [|intros]
  | apply consumes_attempt
  | match goal with |- consumes (match ?x with _ => _ end) => destruct x end
  | apply consumes_const; intros; reflexivity ].

Lemma consumes_create_below rest q : consumes (create_below q rest).
Proof.
  revert q. induction rest as [|c rest IH]; intros q; cbn [create_below]; [by apply consumes_const|].
  apply consumes_bind; [by apply consumes_const|]. intros t. destruct (is_dir t _); [apply IH|].
  apply consumes_bind; [|intros _; apply IH]. unfold k_create_dir, throw_if. consumes_go.
Qed.

Lemma consumes_create_dir_all p : consumes (k_create_dir_all p).
Proof. apply consumes_create_below. Qed.
Lemma consumes_write p v : consumes (k_write p v).
Proof. unfold k_write. consumes_go. Qed.
Lemma consumes_read p : consumes (k_read p).
Proof. unfold k_read. consumes_go. Qed.
Lemma consumes_symlink a b : consumes (k_symlink a b).
Proof. unfold k_symlink, throw_if. consumes_go. Qed.
Lemma consumes_read_link p : consumes (k_read_link p).
Proof. unfold k_read_link. consumes_go. Qed.
Lemma consumes_read_dir p : consumes (k_read_dir p).
Proof. unfold k_read_dir. consumes_go. Qed.
Lemma consumes_metadata p : consumes (k_metadata p).
Proof. unfold k_metadata. consumes_go. Qed.

Lemma consumes_exists p : consumes (k_exists p).
Proof. unfold k_exists. consumes_go. Qed.
Lemma consumes_canonicalize p : consumes (k_canonicalize p).
Proof. unfold k_canonicalize. consumes_go. Qed.

(** ** Reading a directory *)

Lemma elem_of_children t p n : n ∈ children t p <-> is_Some (t !! (p ++ [n])%list).
Proof.
  unfold children. rewrite list_elem_of_omap. split.
  - intros ([q x] & Hin & Hn). cbn in Hn. case_bool_decide as Hp; [|done]. apply parent_snoc in Hp as [m ->].
    unfold file_name in Hn. rewrite last_snoc in Hn. injection Hn as ->. apply elem_of_map_to_list in Hin. eauto.
  - intros [x Hx]. exists ((p ++ [n])%list, x). split; [by apply elem_of_map_to_list|]. cbn.
    rewrite bool_decide_true by (unfold parent; destruct (p ++ [n])%list eqn:E; [by destruct p|by rewrite <- E, removelast_last]). unfold file_name. by rewrite last_snoc.
Qed.

(** The plan never claims that something is missing. *)
Definition honest_kernel (k : Kernel) : Prop := Forall (fun o => o <> Some NotFound) (k_faults k).

Lemma honest_suffix k k' : k_faults k' `suffix_of` k_faults k -> honest_kernel k -> honest_kernel k'.
Proof. intros [l Hl] Hk. unfold honest_kernel in *. rewrite Hl in Hk. by apply Forall_app in Hk as [_ ?]. Qed.

Lemma wp_read_dir p (Q : result (list string) IoErr -> Kernel -> Prop) k :
  (forall b k', k_tree k !! p = Some (NDir b) -> k_tree k' = k_tree k -> Q (Ok (children (k_tree k) p)) k') ->
  (forall e k', k_tree k' = k_tree k -> (honest_kernel k -> e = NotFound -> k_tree k !! p = None) -> Q (Err e) k') ->
  wp (k_read_dir p) Q k.
Proof.
  intros Hok Herr. unfold honest_kernel in Herr. apply wp_bind. unfold wp at 1, next_fault.
  assert (forall k1, k_tree k1 = k_tree k ->
    wp (t <- tree ;; match t !! p with
        | Some (NDir _) => ret (children t p)
        | Some _ => throw (OtherIo "Not a directory (os error 20)")
        | None => throw NotFound
        end) Q k1) as Hgo.
  { intros k1 E1. apply wp_bind, wp_gets. rewrite E1.
    destruct (k_tree k !! p) as [[]|] eqn:Hp; [apply wp_ret; by eapply Hok|apply wp_throw; by apply Herr..]. }
  destruct (k_faults k) as [|[e|] l] eqn:E; cbn; [by apply Hgo| |by apply Hgo].
  apply Herr; [done|]. intros Hh ->. by inversion Hh.
Qed.

End CallRules.
