(* ===== verification/BlockWorld.v ===== *)
(** * The world of the block-sharing services

    The iSCSI and NVMe-oF services keep one record per target in a state
    directory and mirror it in configfs; [targetcli] writes what is in configfs
    to saveconfig.json. Each call to the state directory has its own fault plan
    and each run of [targetcli] its own outcome, in the order they are made.
    The [configfs_*] helpers, which iscsi.rs and nvmeof.rs both define, put the
    kernel's error into the service's error type with the path it was about.

    ** Records of the block-sharing services: rules

    How loading, saving and removing a record acts on what a state directory
    holds, and that calls to the kernel leave the records alone. *)
From Stdlib Require Import String Ascii ZArith.
From stdpp Require Import base list gmap strings numbers.
From S2P Require Import Prelude RustStr Disk StateStore Records ConfigFs.

Open Scope string_scope.
Open Scope rust_scope.

Record BlockWorld := mkBlockWorld {
  bw_disk : Disk;
  bw_kernel : Kernel;
  bw_plan : list Faults;
  bw_cli : list (result string string)
}.

Definition set_bw_disk (d : Disk) (w : BlockWorld) : BlockWorld :=
  mkBlockWorld d (bw_kernel w) (bw_plan w) (bw_cli w).
Definition set_kernel (k : Kernel) (w : BlockWorld) : BlockWorld :=
  mkBlockWorld (bw_disk w) k (bw_plan w) (bw_cli w).

Definition bw_tree (w : BlockWorld) : Tree := k_tree (bw_kernel w).

(** The plan of the next call to the disk. *)
Definition next_plan (w : BlockWorld) : Faults := default no_faults (head (bw_plan w)).

Definition disk_call {E A} (f : IoErr -> E) (m : Faults -> M Disk IoErr A) : M BlockWorld E A := fun w =>
  let '(r, d) := m (next_plan w) (bw_disk w) in
  (map_err f r, mkBlockWorld d (bw_kernel w) (tail (bw_plan w)) (bw_cli w)).

Definition kcall {E A} (f : IoErr -> E) (m : M Kernel IoErr A) : M BlockWorld E A := fun w =>
  let '(r, k) := m (bw_kernel w) in (map_err f r, set_kernel k w).

(** [let _ = f().await]. *)
Definition ignore {W E A} (m : M W E A) : M W E unit := attempt m ;;; ret tt.

Fixpoint for_each {W E A} (l : list A) (f : A -> M W E unit) : M W E unit :=
  match l with
  | [] => ret tt
  | a :: l' => f a ;;; for_each l' f
  end.

(** [Vec::remove] of the first element that satisfies [f]. *)
Fixpoint remove_first {A} (f : A -> bool) (l : list A) : list A :=
  match l with
  | [] => []
  | a :: l' => if f a then l' else a :: remove_first f l'
  end.

Section Calls.
Context `{ConfigFs} {E : Type} (cfg : string -> E).

Definition configfs_mkdir (p : Path) : M BlockWorld E unit :=
  kcall (fun e => cfg ("mkdir " ++ display_path p ++ ": " ++ display_io e)) (k_create_dir_all p).
Definition configfs_mkdir_new (p : Path) : M BlockWorld E unit :=
  kcall (fun e => cfg ("mkdir " ++ display_path p ++ ": " ++ display_io e)) (k_create_dir p).
Definition configfs_rmdir (p : Path) : M BlockWorld E unit :=
  kcall (fun e => cfg ("rmdir " ++ display_path p ++ ": " ++ display_io e)) (k_remove_dir p).
Definition configfs_write (p : Path) (v : string) : M BlockWorld E unit :=
  kcall (fun e => cfg ("write " ++ display_path p ++ "=" ++ v ++ ": " ++ display_io e)) (k_write p v).
Definition configfs_write_secret (p : Path) (v : string) : M BlockWorld E unit :=
  kcall (fun e => cfg ("write " ++ display_path p ++ "=<redacted>: " ++ display_io e)) (k_write p v).
Definition configfs_symlink (target link : Path) : M BlockWorld E unit :=
  kcall (fun e => cfg ("symlink " ++ display_path link ++ " -> " ++ display_path target ++ ": " ++ display_io e))
    (k_symlink target link).
Definition configfs_unlink (p : Path) : M BlockWorld E unit :=
  kcall (fun e => cfg ("unlink " ++ display_path p ++ ": " ++ display_io e)) (k_unlink p).

(** The entries of a directory as a loop [while let Ok(Some(entry)) = ..] sees
    them: an error ends the loop. *)
Fixpoint entries_seen (names : list string) : M BlockWorld E (list string) :=
  match names with
  | [] => ret []
  | n :: rest =>
      r <- attempt (kcall (E := IoErr) id next_fault) ;;
      match r with
      | Err _ => ret []
      | Ok _ => ns <- entries_seen rest ;; ret (n :: ns)
      end
  end.
Definition dir_entries (p : Path) : M BlockWorld E (list string) :=
  r <- attempt (kcall (E := IoErr) id (k_read_dir p)) ;;
  match r with Ok names => entries_seen names | Err _ => ret [] end.

(** Such a loop with a body, which may end it with a result. *)
Fixpoint each_entry {A} (names : list string) (f : string -> M BlockWorld E (option A)) : M BlockWorld E (option A) :=
  match names with
  | [] => ret None
  | n :: rest =>
      r <- attempt (kcall (E := IoErr) id next_fault) ;;
      match r with
      | Err _ => ret None
      | Ok _ =>
          o <- f n ;;
          match o with Some a => ret (Some a) | None => each_entry rest f end
      end
  end.
Definition scan_dir {A} (p : Path) (f : string -> M BlockWorld E (option A)) : M BlockWorld E (option A) :=
  r <- attempt (kcall (E := IoErr) id (k_read_dir p)) ;;
  match r with Ok names => each_entry names f | Err _ => ret None end.

(** A loop [while let Some(entry) = entries.next_entry().await?]. *)
Fixpoint each_entry_strict (io : IoErr -> E) (names : list string) (f : string -> M BlockWorld E unit) : M BlockWorld E unit :=
  match names with
  | [] => kcall io next_fault
  | n :: rest => kcall io next_fault ;;; f n ;;; each_entry_strict io rest f
  end.

(** [wait_for_target_ready] and [wait_for_subsystem_ready]: poll an attribute. *)
Fixpoint wait_ready (attempts : nat) (p : Path) : M BlockWorld E unit :=
  match attempts with
  | 0 => ret tt
  | S n =>
      r <- attempt (kcall (E := IoErr) id (k_read p)) ;;
      match r with
      | Ok v => if trim v =s "1" then ret tt else wait_ready n p
      | Err _ => wait_ready n p
      end
  end.

End Calls.

(** ** Rules *)

Lemma wp_kcall {E A} (f : IoErr -> E) (m : M Kernel IoErr A) (Q : result A E -> BlockWorld -> Prop) w :
  wp m (fun r k => Q (map_err f r) (set_kernel k w)) (bw_kernel w) -> wp (kcall f m) Q w.
Proof. unfold wp, kcall. by destruct (m (bw_kernel w)) as [r k]. Qed.

Lemma wp_disk_call {E A} (f : IoErr -> E) (m : Faults -> M Disk IoErr A) (Q : result A E -> BlockWorld -> Prop) w :
  wp (m (next_plan w))
    (fun r d => Q (map_err f r) (mkBlockWorld d (bw_kernel w) (tail (bw_plan w)) (bw_cli w))) (bw_disk w) ->
  wp (disk_call f m) Q w.
Proof. unfold wp, disk_call. by destruct (m _ (bw_disk w)) as [r d]. Qed.

Lemma wp_ignore {W E A} (m : M W E A) (Q : result unit E -> W -> Prop) w :
  wp m (fun _ w' => Q (Ok tt) w') w -> wp (ignore m) Q w.
Proof. intros Hm. apply wp_bind, wp_attempt. revert Hm. apply wp_mono. intros r w' Hq. by apply wp_ret. Qed.

Lemma wp_for_each_inv {W E A} (I : W -> Prop) (l : list A) (f : A -> M W E unit) w :
  I w -> (forall a w, a ∈ l -> I w -> keeps I (f a) w) -> keeps I (for_each l f) w.
Proof.
  revert w. induction l as [|a l IH]; intros w Hw Hf; cbn [for_each]; [done|].
  apply keeps_bind; [apply Hf; [by left|done]|]. intros _ w' Hw'. apply IH; [done|].
  intros b w1 Hb. apply Hf. by right.
Qed.

(** Computations on the kernel leave the disk as it is. *)
Definition same_disk (w w' : BlockWorld) : Prop := bw_disk w' = bw_disk w /\ bw_plan w' = bw_plan w /\ bw_cli w' = bw_cli w.

#[export] Instance same_disk_refl : Reflexive same_disk.
Proof. done. Qed.
#[export] Instance same_disk_trans : Transitive same_disk.
Proof. intros a b c (? & ? & ?) (? & ? & ?). unfold same_disk. split_and!; congruence. Qed.

Lemma keeps_kcall {E A} (f : IoErr -> E) (m : M Kernel IoErr A) w0 w :
  same_disk w0 w -> keeps (same_disk w0) (kcall f m) w.
Proof. intros Hs. apply wp_kcall. unfold wp. etransitivity; [exact Hs|done]. Qed.

Lemma honest_next w : Forall honest (bw_plan w) -> honest (next_plan w).
Proof. unfold next_plan. by destruct 1. Qed.

Section Records.
Context {T : Type} `{!HasId T} `{!Codec T} `{!CodecLaws T} (sd : StateDir) {E : Type} (io : IoErr -> E).
Implicit Types (w : BlockWorld) (d : Disk).

(** The same records in a directory in order. *)
Definition same_records (d d' : Disk) : Prop :=
  dir_ok sd d' /\ forall i, valid_id i -> stored (T := T) sd d' i = stored sd d i.

Lemma same_records_refl d : dir_ok sd d -> same_records d d.
Proof. by split. Qed.

(** Only the record [i] is different, if any. *)
Definition records_but (i : string) (d d' : Disk) : Prop :=
  dir_ok sd d' /\ forall j, valid_id j -> j <> i -> stored (T := T) sd d' j = stored sd d j.

Lemma wp_load_rec id (Q : result (option T) E -> BlockWorld -> Prop) w :
  dir_ok sd (bw_disk w) -> valid_id id ->
  (forall w', bw_disk w' = bw_disk w -> bw_kernel w' = bw_kernel w -> bw_cli w' = bw_cli w -> Q (Ok None) w') ->
  (forall x w', stored sd (bw_disk w) id = Some x -> id_of x = id ->
     bw_disk w' = bw_disk w -> bw_kernel w' = bw_kernel w -> bw_cli w' = bw_cli w -> Q (Ok (Some x)) w') ->
  wp (disk_call io (fun F => load F sd id)) Q w.
Proof.
  intros Hd Hv Hnone Hsome. apply wp_disk_call. destruct (load_stored sd (next_plan w) (bw_disk w) id Hd Hv) as [H2 H1].
  unfold wp. destruct (load _ sd id (bw_disk w)) as [r d]. cbn in *. subst d.
  destruct H1 as [-> | ->]; [by apply Hnone|]. destruct (stored sd (bw_disk w) id) as [x|] eqn:Hs; cbn; [|by apply Hnone].
  apply Hsome; try done. by apply (stored_id sd (bw_disk w)).
Qed.

Lemma wp_save_rec (x : T) (Q : result unit E -> BlockWorld -> Prop) w :
  dir_ok sd (bw_disk w) -> valid_id (id_of x) ->
  (forall w', records_but (id_of x) (bw_disk w) (bw_disk w') -> stored sd (bw_disk w') (id_of x) = Some x ->
     bw_kernel w' = bw_kernel w -> bw_cli w' = bw_cli w -> Q (Ok tt) w') ->
  (forall e w', same_records (bw_disk w) (bw_disk w') -> bw_kernel w' = bw_kernel w -> bw_cli w' = bw_cli w -> Q (Err (io e)) w') ->
  wp (disk_call io (fun F => save F sd (id_of x) x)) Q w.
Proof.
  intros Hd Hv Hok Herr. apply wp_disk_call.
  destruct (save_stored sd (next_plan w) (bw_disk w) x Hd Hv) as (Hd' & Hoth & Hr).
  unfold wp. destruct (save _ sd (id_of x) x (bw_disk w)) as [[[]|e] d]; cbn in *.
  - by apply Hok.
  - apply Herr; [|done..]. split; [done|]. intros i Hi. destruct (decide (i = id_of x)) as [->|]; [done|by apply Hoth].
Qed.

Lemma wp_remove_rec id (Q : result unit E -> BlockWorld -> Prop) w :
  dir_ok sd (bw_disk w) -> valid_id id -> honest (next_plan w) ->
  (forall w', records_but id (bw_disk w) (bw_disk w') -> stored sd (bw_disk w') id = None ->
     bw_kernel w' = bw_kernel w -> bw_cli w' = bw_cli w -> Q (Ok tt) w') ->
  (forall e w', bw_disk w' = bw_disk w -> bw_kernel w' = bw_kernel w -> bw_cli w' = bw_cli w -> Q (Err (io e)) w') ->
  wp (disk_call io (fun F => remove F sd id)) Q w.
Proof.
  intros Hd Hv Hh Hok Herr. apply wp_disk_call.
  destruct (remove_stored sd (next_plan w) (bw_disk w) id Hd Hv Hh) as (Hd' & Hoth & Hr).
  unfold wp. destruct (remove _ sd id (bw_disk w)) as [[[]|e] d]; cbn in *; [by apply Hok|by apply Herr].
Qed.

Lemma wp_load_all_rec (Q : result (list T) E -> BlockWorld -> Prop) w :
  dir_ok sd (bw_disk w) -> honest (next_plan w) ->
  (forall items w', NoDup (id_of <$> items) ->
     (forall x, x ∈ items <-> valid_id (id_of x) /\ stored sd (bw_disk w) (id_of x) = Some x) ->
     bw_disk w' = bw_disk w -> bw_kernel w' = bw_kernel w -> bw_cli w' = bw_cli w -> Q (Ok items) w') ->
  (forall e w', bw_disk w' = bw_disk w -> bw_kernel w' = bw_kernel w -> bw_cli w' = bw_cli w -> Q (Err e) w') ->
  wp (disk_call io (fun F => load_all_strict F sd)) Q w.
Proof.
  intros Hd Hh Hok Herr. apply wp_disk_call.
  pose proof (load_all_strict_stored sd (next_plan w) (bw_disk w)) as Hl.
  pose proof (load_all_strict_disk sd (next_plan w) (bw_disk w)) as H2.
  unfold wp. destruct (load_all_strict _ sd (bw_disk w)) as [[items|e] d]; cbn in *; subst d; [|by apply Herr].
  destruct (Hl items Hd Hh eq_refl). by apply Hok.
Qed.

(** A file outside of the directory. *)
Lemma same_records_insert d p f :
  dir_ok sd d -> (forall n, p <> dir sd ++ [n])%list -> (forall id, valid_id id -> p <> item_path sd id) ->
  same_records d (<[p := f]> d).
Proof.
  intros Hd Hp Hi. split.
  - split.
    + intros n g. rewrite lookup_insert_ne by auto. apply (dir_plain sd d Hd).
    + intros n g x. rewrite lookup_insert_ne by auto. apply (dir_ids sd d Hd).
  - intros i Hv. unfold stored. by rewrite lookup_insert_ne by auto.
Qed.

End Records.

(** ** Calls to configfs *)

Section ConfigRules.
Context `{ConfigFs} {E : Type} (cfg : string -> E).
Implicit Types (w : BlockWorld) (p : Path).

Lemma wp_cfg_write p v (Q : result unit E -> BlockWorld -> Prop) w :
  (forall old w', bw_tree w !! p = Some (NAttr old) -> bw_tree w' = <[p := NAttr v]> (bw_tree w) -> same_disk w w' -> Q (Ok tt) w') ->
  (forall e w', bw_tree w' = bw_tree w -> same_disk w w' -> Q (Err e) w') -> wp (configfs_write cfg p v) Q w.
Proof. intros Hok Herr. apply wp_kcall, wp_write; [intros old k Ho Hk; by eapply Hok|intros e k Hk; by apply Herr]. Qed.

Lemma wp_cfg_write_secret p v (Q : result unit E -> BlockWorld -> Prop) w :
  (forall old w', bw_tree w !! p = Some (NAttr old) -> bw_tree w' = <[p := NAttr v]> (bw_tree w) -> same_disk w w' -> Q (Ok tt) w') ->
  (forall e w', bw_tree w' = bw_tree w -> same_disk w w' -> Q (Err e) w') -> wp (configfs_write_secret cfg p v) Q w.
Proof. intros Hok Herr. apply wp_kcall, wp_write; [intros old k Ho Hk; by eapply Hok|intros e k Hk; by apply Herr]. Qed.

Lemma wp_cfg_rmdir p (Q : result unit E -> BlockWorld -> Prop) w :
  (forall w', bw_tree w !! p = Some (NDir true) -> bw_tree w' = prune p (bw_tree w) -> same_disk w w' -> Q (Ok tt) w') ->
  (forall e w', bw_tree w' = bw_tree w -> same_disk w w' -> Q (Err e) w') -> wp (configfs_rmdir cfg p) Q w.
Proof. intros Hok Herr. apply wp_kcall, wp_remove_dir; [intros k Ho Hb Hk; by eapply Hok|intros e k Hk; by apply Herr]. Qed.

Lemma wp_cfg_mkdir p (Q : result unit E -> BlockWorld -> Prop) w :
  p <> [] ->
  (forall w', (forall q n, bw_tree w !! q = Some n -> bw_tree w' !! q = Some n) -> is_dir (bw_tree w') p = true -> same_disk w w' -> Q (Ok tt) w') ->
  (forall e w', (forall q n, bw_tree w !! q = Some n -> bw_tree w' !! q = Some n) -> same_disk w w' -> Q (Err e) w') ->
  wp (configfs_mkdir cfg p) Q w.
Proof. intros Hp Hok Herr. apply wp_kcall, wp_create_dir_all; [done|intros k ??; by eapply Hok|intros e k ?; by apply Herr]. Qed.

(** A directory whose parent is there. *)
Lemma wp_cfg_mkdir_parent p (Q : result unit E -> BlockWorld -> Prop) w :
  p <> [] -> dirs_above (bw_tree w) p -> bw_tree w !! p = None ->
  (forall w', bw_tree w' = make p (bw_tree w) -> same_disk w w' -> Q (Ok tt) w') ->
  (forall e w', bw_tree w' = bw_tree w -> same_disk w w' -> Q (Err e) w') -> wp (configfs_mkdir cfg p) Q w.
Proof.
  intros Hp Ha Hn Hok Herr. apply wp_kcall. unfold wp. rewrite (create_dir_all_parent p _ Hp Ha).
  unfold is_dir. unfold bw_tree in Hn. rewrite Hn.
  apply (wp_create_dir p (fun r k => Q (map_err _ r) (set_kernel k w))); [intros k _ Hk; by apply Hok|intros e k Hk; by apply Herr].
Qed.

End ConfigRules.

(** ** Paths of one object *)

Lemma below_app_l p q r : below (p ++ q)%list (p ++ r)%list = below q r.
Proof. apply bool_decide_ext. split; [apply prefix_app_inv|apply prefix_app]. Qed.

Lemma below_cons a q b r : below (a :: q) (b :: r) = bool_decide (a = b) && below q r.
Proof.
  destruct (decide (a = b)) as [->|Hne].
  - rewrite bool_decide_true by done. apply (below_app_l [b]).
  - rewrite (bool_decide_false (a = b)) by done. apply bool_decide_eq_false. intros Hp%prefix_cons_inv_1. done.
Qed.

Lemma below_cons_nil a q : below (a :: q) [] = false.
Proof. apply bool_decide_eq_false. by intros [r [=]]. Qed.
