(* ===== verification/Iscsi.v ===== *)
(** * iSCSI targets: engine/nasty-sharing/src/iscsi.rs, the data and the pure parts

    Targets with their portals, LUNs and access lists, the checks of what an
    operator may ask for, the plan that turns one set of portals into another,
    and how LUNs find their volumes again after a restart: [remap_target] and
    [patch_saveconfig_value]; with the block-volume identities of
    nasty-common/src/block_volume.rs. *)
From Stdlib Require Import String Ascii ZArith.
From stdpp Require Import base list gmap strings numbers countable.
From S2P Require Import Prelude RustStr Disk StateStore Records JsonRpc Rest FirewallRules Backup ConfigFs.

Open Scope string_scope.
Open Scope rust_scope.

(** ** Block volumes *)

Record BlockVolumeId := mkVolumeId { bv_filesystem_uuid : string; bv_subvolume_id : Z }.

#[export] Instance BlockVolumeId_eq_dec : EqDecision BlockVolumeId.
Proof. solve_decision. Defined.
#[export] Instance BlockVolumeId_countable : Countable BlockVolumeId.
Proof.
  apply (inj_countable' (fun v => (bv_filesystem_uuid v, bv_subvolume_id v)) (fun x => mkVolumeId x.1 x.2)).
  by intros [].
Defined.

Record BlockDeviceMappings := mkMappings {
  bm_current : gmap BlockVolumeId string;
  bm_preexisting : gmap string BlockVolumeId
}.

Definition legacy_identity_for_exact_path (m : BlockDeviceMappings) (path : string) : option BlockVolumeId :=
  bm_preexisting m !! path.

(** ** Targets *)

Definition ISCSI_STATE_DIR : StateDir := mkStateDir ["var"; "lib"; "nasty"; "shares"; "iscsi"].
Definition DEFAULT_IQN_PREFIX : string := "iqn.2137-04.storage.nasty".
Definition ISCSI_BASE : Path := ["sys"; "kernel"; "config"; "target"; "iscsi"].
Definition CORE_BASE : Path := ["sys"; "kernel"; "config"; "target"; "core"].
Definition UNRESOLVED_BACKSTORE : string := "/dev/nasty-unresolved-block-volume".
Definition SAVECONFIG : Path := ["etc"; "target"; "saveconfig.json"].

Inductive IscsiError :=
| IsNotFound (what : string)
| IsAlreadyExists (what : string)
| IsBackstoreNotFound (path : string)
| IsInvalidBackingVolume (msg : string)
| IsConfigFs (msg : string)
| IsCommandFailed (msg : string)
| IsIo (e : IoErr).

Definition display_iscsi_error (e : IscsiError) : string :=
  match e with
  | IsNotFound s => "target not found: " ++ s
  | IsAlreadyExists s => "target already exists: " ++ s
  | IsBackstoreNotFound s => "backing device/file not found: " ++ s
  | IsInvalidBackingVolume s => "LUN backing volume cannot be repaired: " ++ s
  | IsConfigFs s => "configfs error: " ++ s
  | IsCommandFailed s => "command failed: " ++ s
  | IsIo e => "io error: " ++ display_io e
  end.

Record Portal := mkPortal { po_ip : string; po_port : Z; po_iser : bool }.

#[export] Instance Portal_eq_dec : EqDecision Portal.
Proof. solve_decision. Defined.

Record Lun := mkLun {
  lu_lun_id : Z;
  lu_backstore_path : string;
  lu_backstore_name : string;
  lu_backstore_type : string;
  lu_size_bytes : option Z;
  lu_backing_volume : option BlockVolumeId;
  lu_backing_volume_unresolved : bool
}.

Record Acl := mkAcl {
  ac_initiator_iqn : string;
  ac_userid : option string;
  ac_password : option string;
  ac_password_encrypted : option EncryptedBlob
}.

Record IscsiTarget := mkTarget {
  tg_id : string;
  tg_iqn : string;
  tg_alias : option string;
  tg_portals : list Portal;
  tg_luns : list Lun;
  tg_acls : list Acl;
  tg_enabled : bool
}.

#[export] Instance iscsi_target_id : HasId IscsiTarget := tg_id.

Definition set_portals_of (ps : list Portal) (t : IscsiTarget) : IscsiTarget :=
  mkTarget (tg_id t) (tg_iqn t) (tg_alias t) ps (tg_luns t) (tg_acls t) (tg_enabled t).
Definition set_luns_of (ls : list Lun) (t : IscsiTarget) : IscsiTarget :=
  mkTarget (tg_id t) (tg_iqn t) (tg_alias t) (tg_portals t) ls (tg_acls t) (tg_enabled t).
Definition set_acls_of (l : list Acl) (t : IscsiTarget) : IscsiTarget :=
  mkTarget (tg_id t) (tg_iqn t) (tg_alias t) (tg_portals t) (tg_luns t) l (tg_enabled t).

(** [Acl::redacted] and [IscsiTarget::redacted]. *)
Definition redacted_acl (a : Acl) : Acl :=
  mkAcl (ac_initiator_iqn a) (ac_userid a)
    (if is_some (ac_password a) || is_some (ac_password_encrypted a) then Some "***" else None) None.
Definition redacted_iscsi (t : IscsiTarget) : IscsiTarget := set_acls_of (redacted_acl <$> tg_acls t) t.

(** ** Requests *)

Record AclEntry := mkAclEntry { ae_initiator_iqn : string; ae_userid : option string; ae_password : option string }.

Record CreateTargetRequest := mkCreateTarget {
  ct_name : string;
  ct_alias : option string;
  ct_portals : option (list Portal);
  ct_device_path : option string;
  ct_backing_volume : option BlockVolumeId;
  ct_acls : option (list AclEntry)
}.

Record AddLunRequest := mkAddLun {
  al_target_id : string;
  al_backstore_path : string;
  al_backstore_type : option string;
  al_size_bytes : option Z;
  al_backing_volume : option BlockVolumeId
}.

(** ** Checks *)

Definition char_in (c : ascii) (l : string) : bool := contains_char c l.

Definition name_char (c : ascii) : bool := is_ascii_alphanumeric c || char_in c "-._:".

Definition validate_target_name (name : string) : result unit IscsiError :=
  if name =s "" then Err (IsCommandFailed "iSCSI target name is empty")
  else if (200 <? String.length name)%nat then Err (IsCommandFailed "iSCSI target name exceeds 200 chars")
  else if negb (all_chars name_char name) then
    Err (IsCommandFailed ("iSCSI target name '" ++ name ++ "' contains invalid characters (allowed: A-Z, a-z, 0-9, '-', '.', '_', ':')"))
  else Ok tt.

(** [s.strip_suffix(c)] for a character. *)
Definition strip_last (c : ascii) (s : string) : option string :=
  match rev_string s with
  | String d r => if Ascii.eqb c d then Some (rev_string r) else None
  | EmptyString => None
  end.

Definition validate_portal_ip `{IpParser} (ip : string) : result string IscsiError :=
  let trimmed := trim ip in
  if trimmed =s "" then Err (IsCommandFailed "portal IP is empty")
  else
    let unwrapped := default trimmed (s ← strip_prefix "[" trimmed; strip_last "]" s) in
    if is_some (parse_ip unwrapped) then Ok unwrapped
    else Err (IsCommandFailed ("portal IP '" ++ ip ++ "' is not a valid IPv4 or IPv6 address")).

Definition chap_enabled (userid password : option string) : result bool IscsiError :=
  let refused := Err (IsCommandFailed "CHAP username and password must be provided together and must not be empty") in
  match userid, password with
  | None, None => Ok false
  | Some u, Some p => if negb (u =s "") && negb (p =s "") then Ok true else refused
  | _, _ => refused
  end.

(** The loop of [create] over the requested access list. *)
Fixpoint check_acl_entries (seen : gset string) (acls : list AclEntry) : result unit IscsiError :=
  match acls with
  | [] => Ok tt
  | a :: rest =>
      match chap_enabled (ae_userid a) (ae_password a) with
      | Err e => Err e
      | Ok _ =>
          let name := to_ascii_lowercase (ae_initiator_iqn a) in
          if bool_decide (name ∈ seen) then Err (IsAlreadyExists (ae_initiator_iqn a))
          else check_acl_entries ({[name]} ∪ seen) rest
      end
  end.

(** ** Secrets *)

Definition chap_secret_name (target_id initiator_iqn : string) : string :=
  "nasty.iscsi." ++ target_id ++ "." ++ initiator_iqn ++ ".password".

Definition seal_chap_password `{Vault} (target_id initiator_iqn : string) (plaintext : option string)
    : option string * option EncryptedBlob :=
  match plaintext with
  | None => (None, None)
  | Some plain =>
      if plain =s "" then (None, None)
      else match seal (chap_secret_name target_id initiator_iqn) plain with
           | Ok blob => (None, Some blob)
           | Err _ => (Some plain, None)
           end
  end.

(** One access entry of [migrate_secrets]: the entry, and whether it changed. *)
Definition migrate_acl `{Vault} (target_id : string) (a : Acl) : Acl * bool :=
  if is_some (ac_password_encrypted a) then (a, false)
  else match ac_password a with
       | Some plain =>
           if plain =s "" then (a, false)
           else match seal_chap_password target_id (ac_initiator_iqn a) (Some plain) with
                | (pw, Some blob) => (mkAcl (ac_initiator_iqn a) (ac_userid a) pw (Some blob), true)
                | (_, None) => (a, false)
                end
       | None => (a, false)
       end.

(** ** Portal sets *)

Inductive PortalStep := PAdd (p : Portal) | PRemove (p : Portal).

Definition is_v6 (ip : string) : bool := contains_char ":" ip.
Definition is_wildcard (ip : string) : bool := (ip =s "0.0.0.0") || (ip =s "::").

(** The kernel refuses to bind both. *)
Definition conflicts (a r : Portal) : bool :=
  (po_port a =? po_port r)%Z && Bool.eqb (is_v6 (po_ip a)) (is_v6 (po_ip r))
  && ((po_ip a =s po_ip r) || is_wildcard (po_ip a) || is_wildcard (po_ip r)).

Definition same_endpoint (p q : Portal) : bool := (po_ip p =s po_ip q) && (po_port p =? po_port q)%Z.

Fixpoint normalize_portals `{IpParser} (normalized desired : list Portal) : result (list Portal) IscsiError :=
  match desired with
  | [] => Ok normalized
  | p :: rest =>
      match validate_portal_ip (po_ip p) with
      | Err e => Err e
      | Ok ip =>
          if (po_port p =? 0)%Z then Err (IsCommandFailed "portal port must be non-zero")
          else
            let q := mkPortal ip (po_port p) (po_iser p) in
            if existsb (same_endpoint q) normalized then
              Err (IsCommandFailed ("duplicate portal " ++ ip ++ ":" ++ fmt_Z (po_port p) ++ " in requested set"))
            else normalize_portals (normalized ++ [q])%list rest
      end
  end.

Definition listed (p : Portal) (l : list Portal) : bool := bool_decide (p ∈ l).

Definition plan_portal_transition `{IpParser} (current desired : list Portal) : result (list PortalStep) IscsiError :=
  match desired with
  | [] => Err (IsCommandFailed "portal set cannot be empty — target would become unreachable")
  | _ =>
      match normalize_portals [] desired with
      | Err e => Err e
      | Ok normalized =>
          let removes := List.filter (fun c => negb (listed c normalized)) current in
          let adds := List.filter (fun d => negb (listed d current)) normalized in
          let late a := existsb (conflicts a) removes in
          Ok ((PAdd <$> List.filter (fun a => negb (late a)) adds) ++ (PRemove <$> removes)
              ++ (PAdd <$> List.filter late adds))%list
      end
  end.

(** What a step does to the stored portals. *)
Definition apply_step (ps : list Portal) (s : PortalStep) : list Portal :=
  match s with
  | PAdd p => (ps ++ [p])%list
  | PRemove p => List.filter (fun q => negb (same_endpoint q p)) ps
  end.

Definition np_path_for (tpg : Path) (ip : string) (port : Z) : Path :=
  if contains_char ":" ip then tpg // "np" // ("[" ++ ip ++ "]:" ++ fmt_Z port)
  else tpg // "np" // (ip ++ ":" ++ fmt_Z port).

(** ** LUNs and their volumes *)

Definition is_managed_lun (l : Lun) : bool :=
  (lu_backstore_type l =s "block")
  && (is_some (lu_backing_volume l) || lu_backing_volume_unresolved l || starts_with "/dev/loop" (lu_backstore_path l)).

Definition resolve_lun (path : string) (v : option BlockVolumeId) (unresolved : bool) (l : Lun) : Lun :=
  mkLun (lu_lun_id l) path (lu_backstore_name l) (lu_backstore_type l) (lu_size_bytes l) v unresolved.

Definition repair_lun_of (device_path : string) (identity : BlockVolumeId) (l : Lun) : result Lun IscsiError :=
  if negb (lu_backing_volume_unresolved l) && is_some (lu_backing_volume l) then
    Err (IsInvalidBackingVolume ("LUN " ++ fmt_Z (lu_lun_id l) ++ " is already resolved"))
  else if negb (lu_backstore_type l =s "block") || negb (starts_with "/dev/loop" (lu_backstore_path l)) then
    Err (IsInvalidBackingVolume ("LUN " ++ fmt_Z (lu_lun_id l) ++ " is not an unresolved managed block volume"))
  else Ok (resolve_lun device_path (Some identity) false l).

Definition repair_target_lun (t : IscsiTarget) (lun_id : Z) (device_path : string) (identity : BlockVolumeId)
    : result IscsiTarget IscsiError :=
  match List.find (fun l => (lu_lun_id l =? lun_id)%Z) (tg_luns t) with
  | None => Err (IsNotFound ("LUN " ++ fmt_Z lun_id))
  | Some l =>
      match repair_lun_of device_path identity l with
      | Err e => Err e
      | Ok l' => Ok (set_luns_of (update_first (fun l => (lu_lun_id l =? lun_id)%Z) (fun _ => l') (tg_luns t)) t)
      end
  end.

(** What a remapping reports; nvmeof.rs has the same type. *)
Record DeviceRemapOutcome := mkOutcome { safe_to_restore : bool; ro_changed : bool }.

(** One LUN of [remap_target]: the LUN, whether it changed, whether it is
    resolved, and the entries for saveconfig. *)
Definition remap_lun (m : BlockDeviceMappings) (l : Lun) : Lun * bool * bool * list (string * string) :=
  if negb (is_managed_lun l) then (l, false, true, [])
  else
    let identity := match lu_backing_volume l with
                    | Some v => Some v
                    | None => legacy_identity_for_exact_path m (lu_backstore_path l)
                    end in
    match identity, (v ← identity; bm_current m !! v) with
    | Some v, Some device_path =>
        (resolve_lun device_path (Some v) false l,
         negb (bool_decide (lu_backing_volume l = Some v)) || negb (lu_backstore_path l =s device_path)
           || lu_backing_volume_unresolved l,
         true, [(lu_backstore_name l, device_path)])
    | _, _ =>
        (resolve_lun (lu_backstore_path l) (lu_backing_volume l) true l,
         negb (lu_backing_volume_unresolved l), false, [(lu_backstore_name l, UNRESOLVED_BACKSTORE)])
    end.

Definition remap_target (m : BlockDeviceMappings) (t : IscsiTarget) : IscsiTarget * bool * bool * list (string * string) :=
  let rs := remap_lun m <$> tg_luns t in
  (set_luns_of ((fun r => r.1.1.1) <$> rs) t,
   existsb (fun r => r.1.1.2) rs, forallb (fun r => r.1.2) rs, flat_map snd rs).

(** [insert_backstore_patch]: the patches, and whether restoring is still safe. *)
Definition insert_backstore_patch (name path : string) (st : gmap string string * bool) : gmap string string * bool :=
  let '(patches, safe) := st in
  match patches !! name with
  | None => (<[name := path]> patches, safe)
  | Some q => (patches, safe && (q =s path))
  end.

Definition insert_patches (ps : list (string * string)) (st : gmap string string * bool) : gmap string string * bool :=
  fold_left (fun st np => insert_backstore_patch np.1 np.2 st) ps st.

(** ** saveconfig.json *)

Definition as_array (v : Json) : option (list Json) := match v with JArray l => Some l | _ => None end.

(** [obj["dev"] = ..] where the field is there. *)
Definition json_set (key : string) (v w : Json) : Json :=
  match w with JObject fields => JObject (json_insert key v fields) | _ => w end.

Definition object_name (obj : Json) : string := default "" (json_get obj "name" ≫= as_str).

Definition count (name : string) (m : gmap string nat) : nat := default 0 (m !! name).

(** The loop over the storage objects: the objects, whether one changed, how
    often each name was seen with a device. *)
Fixpoint patch_objects (backstores : gmap string string) (objects : list Json) (matched : gmap string nat)
    : result (list Json * bool * gmap string nat) string :=
  match objects with
  | [] => Ok ([], false, matched)
  | obj :: rest =>
      let name := object_name obj in
      match backstores !! name with
      | None => Err ("saveconfig contains unexpected backstore '" ++ name ++ "'")
      | Some new_dev =>
          let '(obj', changed, matched') :=
            match json_get obj "dev" ≫= as_str with
            | Some dev => (if dev =s new_dev then obj else json_set "dev" (JString new_dev) obj, negb (dev =s new_dev),
                           <[name := S (count name matched)]> matched)
            | None => (obj, false, matched)
            end in
          match patch_objects backstores rest matched' with
          | Err e => Err e
          | Ok (rest', changed', m) => Ok (obj' :: rest', changed || changed', m)
          end
      end
  end.

(** Every expected name exactly once. *)
Definition once (names : list string) (matched : gmap string nat) (missing : string -> string) (twice : string -> nat -> string)
    : result unit string :=
  match List.find (fun n => negb (count n matched =? 1)%nat) names with
  | None => Ok tt
  | Some n => Err (match count n matched with 0 => missing n | c => twice n c end)
  end.

Fixpoint match_targets (targets : gset string) (saved : list Json) (matched : gmap string nat) : result (gmap string nat) string :=
  match saved with
  | [] => Ok matched
  | t :: rest =>
      match json_get t "wwn" ≫= as_str with
      | None => Err "saveconfig target has no wwn"
      | Some wwn =>
          if bool_decide (wwn ∈ targets) then match_targets targets rest (<[wwn := S (count wwn matched)]> matched)
          else Err ("saveconfig contains unexpected target '" ++ wwn ++ "'")
      end
  end.

Definition patch_saveconfig_value (json : Json) (backstores : gmap string string) (targets : gset string)
    : result (Json * bool) string :=
  match json_get json "storage_objects" ≫= as_array with
  | None => Err "saveconfig has no storage_objects array"
  | Some objects =>
      match patch_objects backstores objects ∅ with
      | Err e => Err e
      | Ok (objects', changed, matched) =>
          if negb (length objects =? size backstores)%nat then
            Err ("saveconfig contains " ++ fmt_nat (length objects) ++ " backstores but persisted state expects "
                 ++ fmt_nat (size backstores))
          else
            match once (map_to_list backstores).*1 matched
                    (fun n => "saveconfig is missing backstore '" ++ n ++ "'")
                    (fun n c => "saveconfig contains " ++ fmt_nat c ++ " backstores named '" ++ n ++ "'") with
            | Err e => Err e
            | Ok _ =>
                let json' := json_set "storage_objects" (JArray objects') json in
                match json_get json' "targets" ≫= as_array with
                | None => Err "saveconfig has no targets array"
                | Some saved =>
                    match match_targets targets saved ∅ with
                    | Err e => Err e
                    | Ok matched_targets =>
                        match once (elements targets) matched_targets
                                (fun n => "saveconfig is missing target '" ++ n ++ "'")
                                (fun n c => "saveconfig contains target '" ++ n ++ "' " ++ fmt_nat c ++ " times") with
                        | Err e => Err e
                        | Ok _ => Ok (json', changed)
                        end
                    end
                end
            end
      end
  end.

Fixpoint all_empty (json : Json) (keys : list string) : result unit string :=
  match keys with
  | [] => Ok tt
  | key :: rest =>
      match json_get json key ≫= as_array with
      | None => Err ("saveconfig has no " ++ key ++ " array")
      | Some [] => all_empty json rest
      | Some values => Err ("saveconfig contains " ++ fmt_nat (length values) ++ " stale " ++ key
                            ++ " entries but iSCSI state is empty")
      end
  end.
Definition validate_empty_saveconfig_value (json : Json) : result unit string :=
  all_empty json ["storage_objects"; "targets"].
