(* ===== verification/IscsiService.v ===== *)
(** * The iSCSI service: [IscsiService] of engine/nasty-sharing/src/iscsi.rs

    One definition per method. Records are in the state directory, the live
    targets in configfs; a call that fails half way leaves behind what the code
    leaves behind. *)
From Stdlib Require Import String Ascii ZArith.
From stdpp Require Import base list gmap strings numbers.
From S2P Require Import Prelude RustStr Disk StateStore Records JsonRpc Rest FirewallRules Backup ConfigFs BlockWorld Iscsi.

Open Scope string_scope.
Open Scope rust_scope.

(** What the methods ask the system: fresh identifiers, the addresses of the
    host, the device files. *)
Record IscsiEnv := mkIscsiEnv {
  ie_uuid : string;
  ie_has_global_ipv6 : bool;
  ie_exists : string -> bool;
  ie_is_file : string -> bool
}.

Section Service.
Context `{ConfigFs} `{Vault} `{IpParser} `{!Codec IscsiTarget} `{!Codec Json}.

Abbreviation I := (M BlockWorld IscsiError).
Abbreviation mkdir := (configfs_mkdir IsConfigFs).
Abbreviation rmdir := (configfs_rmdir IsConfigFs).
Abbreviation write := (configfs_write IsConfigFs).

(** ** The state directory *)

Definition load_target (id : string) : I (option IscsiTarget) := disk_call IsIo (fun F => load F ISCSI_STATE_DIR id).
Definition save_target (t : IscsiTarget) : I unit := disk_call IsIo (fun F => save F ISCSI_STATE_DIR (tg_id t) t).
Definition all_targets : I (list IscsiTarget) := disk_call IsIo (fun F => load_all_strict F ISCSI_STATE_DIR).

Definition find_target (id : string) : I IscsiTarget :=
  o <- load_target id ;;
  match o with Some t => ret t | None => throw (IsNotFound id) end.

(** ** targetcli *)

(** A run that succeeds replaces saveconfig.json. *)
Definition save_lio_config_checked : I unit := fun w =>
  match bw_cli w with
  | [] => (Ok tt, w)
  | Ok text :: rest =>
      (Ok tt, mkBlockWorld (<[SAVECONFIG := mkFile Regular 420 engine_uid text]> (bw_disk w)) (bw_kernel w) (bw_plan w) rest)
  | Err msg :: rest => (Err (IsCommandFailed ("targetcli saveconfig: " ++ msg)), mkBlockWorld (bw_disk w) (bw_kernel w) (bw_plan w) rest)
  end.
Definition save_lio_config : I unit := ignore save_lio_config_checked.

(** ** Kernel objects *)

Definition tpg_of (iqn : string) : Path := ISCSI_BASE // iqn // "tpgt_1".

Definition create_np (tpg : Path) (p : Portal) : I unit :=
  let np := np_path_for tpg (po_ip p) (po_port p) in
  mkdir np ;;;
  if po_iser p then
    r <- attempt (write (np // "iser") "1") ;;
    match r with
    | Ok _ => ret tt
    | Err e => ignore (rmdir np) ;;; throw e
    end
  else ret tt.

Definition remove_np (tpg : Path) (p : Portal) : I unit := rmdir (np_path_for tpg (po_ip p) (po_port p)).

Definition cleanup_unpersisted_target (target tpg : Path) (portals : list Portal) : I unit :=
  ignore (write (tpg // "enable") "0") ;;;
  for_each (rev portals) (fun p => ignore (remove_np tpg p)) ;;;
  ignore (rmdir tpg) ;;;
  ignore (rmdir target).

Definition create_target_dirs (base : Path) (iqn : string) : I (Path * Path) :=
  mkdir base ;;;
  let target := base // iqn in
  let tpg := target // "tpgt_1" in
  configfs_mkdir_new IsConfigFs target ;;;
  r <- attempt (mkdir tpg) ;;
  match r with
  | Ok _ => ret (target, tpg)
  | Err e => ignore (rmdir target) ;;; throw e
  end.

Definition backstore_hba_type (bs_type : string) : string := if bs_type =s "fileio" then "fileio" else "iblock".

(** The index in a directory name such as [iblock_3]. *)
Definition hba_index (hba_type name : string) : option Z :=
  strip_prefix (hba_type ++ "_") name ≫= parse_unsigned (2 ^ 32 - 1).

Definition next_hba_index (hba_type : string) : I Z :=
  names <- dir_entries CORE_BASE ;;
  ret (match omap (hba_index hba_type) names with
       | [] => 0
       | i :: more => (fold_left Z.max more i + 1) mod 2 ^ 32
       end)%Z.

Definition find_backstore_hba (hba_type bs_name : string) : I (option Z) :=
  scan_dir CORE_BASE (fun n =>
    match hba_index hba_type n with
    | None => ret None
    | Some i =>
        b <- kcall IsIo (k_exists (CORE_BASE // n // bs_name)) ;;
        ret (if b : bool then Some i else None)
    end).

Definition hba_is_empty (hba : Path) : I bool :=
  names <- dir_entries hba ;;
  ret (forallb (fun n => (n =s "hba_info") || (n =s "hba_mode")) names && (length names <=? 2)%nat).

Definition hba_path (hba_type : string) (i : Z) : Path := CORE_BASE // (hba_type ++ "_" ++ fmt_Z i).

(** The backstore of a LUN, wherever it is. *)
Definition remove_backstore (l : Lun) : I unit :=
  let hba_type := backstore_hba_type (lu_backstore_type l) in
  o <- find_backstore_hba hba_type (lu_backstore_name l) ;;
  match o with
  | None => ret tt
  | Some i =>
      let bs := hba_path hba_type i // lu_backstore_name l in
      ignore (write (bs // "enable") "0") ;;;
      ignore (rmdir bs) ;;;
      b <- hba_is_empty (hba_path hba_type i) ;;
      if b : bool then ignore (rmdir (hba_path hba_type i)) else ret tt
  end.

Definition remove_lun_dir (tpg : Path) (l : Lun) : I unit :=
  let lun := tpg // "lun" // ("lun_" ++ fmt_Z (lu_lun_id l)) in
  ignore (configfs_unlink IsConfigFs (lun // lu_backstore_name l)) ;;;
  ignore (rmdir lun).

(** ** Methods *)

Definition list_iscsi : I (list IscsiTarget) := ts <- all_targets ;; ret (redacted_iscsi <$> ts).
Definition get_iscsi (id : string) : I IscsiTarget := t <- find_target id ;; ret (redacted_iscsi t).

Definition delete_iscsi (id : string) : I unit :=
  t <- find_target id ;;
  let tpg := tpg_of (tg_iqn t) in
  ignore (write (tpg // "enable") "0") ;;;
  for_each (tg_acls t) (fun a => ignore (rmdir (tpg // "acls" // ac_initiator_iqn a))) ;;;
  for_each (tg_luns t) (remove_lun_dir tpg) ;;;
  for_each (tg_portals t) (fun p => ignore (remove_np tpg p)) ;;;
  ignore (rmdir tpg) ;;;
  ignore (rmdir (ISCSI_BASE // tg_iqn t)) ;;;
  for_each (tg_luns t) remove_backstore ;;;
  disk_call IsIo (fun F => remove F ISCSI_STATE_DIR id) ;;;
  save_lio_config.

(** [Path::parent] of a path text. *)
Definition parent_text (s : string) : option string :=
  match components s with
  | [] => None
  | c => Some (if starts_with "/" s then display_path (removelast c) else String.concat "/" (removelast c))
  end.

Definition check_backstore (e : IscsiEnv) (backstore_type path : string) : result unit IscsiError :=
  if backstore_type =s "block" then
    if ie_exists e path then Ok tt else Err (IsBackstoreNotFound path)
  else if backstore_type =s "fileio" then
    match parent_text path with
    | Some p => if ie_exists e p then Ok tt else Err (IsBackstoreNotFound p)
    | None => Ok tt
    end
  else Err (IsCommandFailed ("Unknown backstore type: " ++ backstore_type)).

(** [.max().map(|m| m + 1).unwrap_or(0)] on [u32]. *)
Definition next_lun_id (luns : list Lun) : Z :=
  match lu_lun_id <$> luns with
  | [] => 0
  | i :: more => (fold_left Z.max more i + 1) mod 2 ^ 32
  end%Z.

(** [s.rsplit(':').next()]. *)
Definition after_last_colon (s : string) : string := default "" (list.last (split ":" s)).

Definition backstore_name_for (iqn : string) (lun_id : Z) : string :=
  "nasty_" ++ after_last_colon iqn ++ "_lun" ++ fmt_Z lun_id.

Definition control_text (backstore_type path : string) (size : option Z) : string :=
  if backstore_type =s "block" then "udev_path=" ++ path
  else "fd_dev_name=" ++ path ++ ",fd_dev_size=" ++ fmt_Z (default 1073741824%Z size).

Definition add_lun (e : IscsiEnv) (req : AddLunRequest) : I IscsiTarget :=
  t <- find_target (al_target_id req) ;;
  let path := al_backstore_path req in
  let ty := match al_backstore_type req with
            | Some ty => ty
            | None => if ie_is_file e path then "fileio" else "block"
            end in
  lift (check_backstore e ty path) ;;;
  let lun_id := next_lun_id (tg_luns t) in
  let name := backstore_name_for (tg_iqn t) lun_id in
  let hba_type := backstore_hba_type ty in
  idx <- next_hba_index hba_type ;;
  let bs := hba_path hba_type idx // name in
  mkdir bs ;;;
  write (bs // "control") (control_text ty path (al_size_bytes req)) ;;;
  write (bs // "enable") "1" ;;;
  let lun := tpg_of (tg_iqn t) // "lun" // ("lun_" ++ fmt_Z lun_id) in
  mkdir lun ;;;
  configfs_symlink IsConfigFs bs (lun // name) ;;;
  let t := set_luns_of (tg_luns t ++ [mkLun lun_id path name ty (al_size_bytes req) (al_backing_volume req) false])%list t in
  save_target t ;;;
  save_lio_config ;;;
  ret (redacted_iscsi t).

Definition remove_lun (target_id : string) (lun_id : Z) : I IscsiTarget :=
  t <- find_target target_id ;;
  match List.find (fun l => (lu_lun_id l =? lun_id)%Z) (tg_luns t) with
  | None => throw (IsNotFound ("LUN " ++ fmt_Z lun_id ++ " not found"))
  | Some l =>
      remove_lun_dir (tpg_of (tg_iqn t)) l ;;;
      remove_backstore l ;;;
      let t := set_luns_of (remove_first (fun l => (lu_lun_id l =? lun_id)%Z) (tg_luns t)) t in
      save_target t ;;;
      save_lio_config ;;;
      ret (redacted_iscsi t)
  end.

Definition repair_lun (target_id : string) (lun_id : Z) (device_path : string) (identity : BlockVolumeId)
    : I (IscsiTarget * IscsiTarget) :=
  previous <- find_target target_id ;;
  t <- lift (repair_target_lun previous lun_id device_path identity) ;;
  save_target t ;;;
  ret (t, previous).

Definition restore_target_state (t : IscsiTarget) : I unit := save_target t.

(** ** Access lists *)

Definition rollback_new_acl (acl tpg : Path) (original_generate original_enable : string) : I unit :=
  write (tpg // "enable") "0" ;;;
  rmdir acl ;;;
  write (tpg // "attrib" // "generate_node_acls") original_generate ;;;
  write (tpg // "enable") original_enable.

(** [if let Err(e2) = m { return Err(ConfigFs(format!("{error}{what}{e2}"))) }]. *)
Definition or_report (m : I unit) (error : IscsiError) (what : string) : I unit :=
  r <- attempt m ;;
  match r with
  | Ok _ => ret tt
  | Err e2 => throw (IsConfigFs (display_iscsi_error error ++ what ++ display_iscsi_error e2))
  end.

(** The attributes of a new access entry, then of the group. *)
Definition configure_acl (acl tpg : Path) (chap : bool) (userid password : option string) : I unit :=
  match (if chap then userid else None), password with
  | Some u, Some p =>
      write (acl // "attrib" // "authentication") "1" ;;;
      write (acl // "auth" // "userid") u ;;;
      configfs_write_secret IsConfigFs (acl // "auth" // "password") p
  | _, _ => ret tt
  end ;;;
  write (tpg // "attrib" // "generate_node_acls") "0" ;;;
  write (tpg // "attrib" // "authentication") "0".

Definition new_acl (target_id initiator : string) (userid password : option string) : Acl :=
  let '(pw, enc) := seal_chap_password target_id initiator password in mkAcl initiator userid pw enc.

Definition add_acl (target_id initiator : string) (userid password : option string) : I IscsiTarget :=
  chap <- lift (chap_enabled userid password) ;;
  original <- find_target target_id ;;
  throw_if (existsb (fun a => eq_ignore_ascii_case (ac_initiator_iqn a) initiator) (tg_acls original))
    (IsAlreadyExists initiator) ;;;
  let tpg := tpg_of (tg_iqn original) in
  let acl := tpg // "acls" // initiator in
  let enable := tpg // "enable" in
  gen <- kcall IsIo (k_read (tpg // "attrib" // "generate_node_acls")) ;;
  let gen := trim gen in
  en <- kcall IsIo (k_read enable) ;;
  let en := trim en in
  let rollback error := or_report (rollback_new_acl acl tpg gen en) error "; ACL rollback failed with the TPG disabled: " in
  write enable "0" ;;;
  r <- attempt (mkdir acl) ;;
  match r with
  | Err error => or_report (write enable en) error "; failed to restore TPG enable state: " ;;; throw error
  | Ok _ =>
      r <- attempt (configure_acl acl tpg chap userid password) ;;
      match r with
      | Err error => rollback error ;;; throw error
      | Ok _ =>
          let t := set_acls_of (tg_acls original ++ [new_acl (tg_id original) initiator userid password])%list original in
          r <- attempt (save_target t) ;;
          match r with
          | Err error => rollback error ;;; throw error
          | Ok _ =>
              r <- attempt (write enable en) ;;
              match r with
              | Err error =>
                  or_report (save_target original) error "; failed to restore target state with the TPG disabled: " ;;;
                  rollback error ;;; throw error
              | Ok _ =>
                  r <- attempt save_lio_config_checked ;;
                  match r with
                  | Err error =>
                      or_report (write enable "0") error "; failed to disable TPG for rollback: " ;;;
                      or_report (save_target original) error "; failed to restore target state with the TPG disabled: " ;;;
                      rollback error ;;;
                      or_report save_lio_config_checked error "; failed to persist ACL rollback: " ;;;
                      throw error
                  | Ok _ => ret (redacted_iscsi t)
                  end
              end
          end
      end
  end.

Definition remove_acl (target_id initiator : string) : I IscsiTarget :=
  t <- find_target target_id ;;
  let tpg := tpg_of (tg_iqn t) in
  ignore (rmdir (tpg // "acls" // initiator)) ;;;
  let acls := List.filter (fun a => negb (ac_initiator_iqn a =s initiator)) (tg_acls t) in
  match acls with
  | [] => write (tpg // "attrib" // "generate_node_acls") "1"
  | _ => ret tt
  end ;;;
  let t := set_acls_of acls t in
  save_target t ;;;
  save_lio_config ;;;
  ret (redacted_iscsi t).

(** ** Portals *)

Definition add_portal (target_id ip : string) (port : Z) (iser : bool) : I IscsiTarget :=
  t <- find_target target_id ;;
  ip <- lift (validate_portal_ip ip) ;;
  let p := mkPortal ip port iser in
  if existsb (fun q => same_endpoint q p) (tg_portals t) then ret (redacted_iscsi t)
  else
    create_np (tpg_of (tg_iqn t)) p ;;;
    let t := set_portals_of (tg_portals t ++ [p])%list t in
    save_target t ;;;
    save_lio_config ;;;
    ret (redacted_iscsi t).

Definition remove_portal (target_id ip : string) (port : Z) : I IscsiTarget :=
  t <- find_target target_id ;;
  let at_ q := (po_ip q =s ip) && (po_port q =? port)%Z in
  throw_if (negb (existsb at_ (tg_portals t))) (IsNotFound ("portal " ++ ip ++ ":" ++ fmt_Z port ++ " not found")) ;;;
  throw_if (length (tg_portals t) =? 1)%nat
    (IsCommandFailed "Cannot remove the last portal — target would become unreachable. Add a replacement portal first.") ;;;
  ignore (rmdir (np_path_for (tpg_of (tg_iqn t)) ip port)) ;;;
  let t := set_portals_of (remove_first at_ (tg_portals t)) t in
  save_target t ;;;
  save_lio_config ;;;
  ret (redacted_iscsi t).

Definition do_step (tpg : Path) (s : PortalStep) : I unit :=
  match s with PAdd p => create_np tpg p | PRemove p => remove_np tpg p end.
Definition undo_step (tpg : Path) (s : PortalStep) : I unit :=
  match s with PAdd p => ignore (remove_np tpg p) | PRemove p => ignore (create_np tpg p) end.

(** The loop of [set_portals]: the portals reached; a failed step undoes the
    ones before it, the last first. *)
Fixpoint run_steps (tpg : Path) (steps applied : list PortalStep) (ps : list Portal) : I (list Portal) :=
  match steps with
  | [] => ret ps
  | s :: rest =>
      r <- attempt (do_step tpg s) ;;
      match r with
      | Err e => for_each applied (undo_step tpg) ;;; throw e
      | Ok _ => run_steps tpg rest (s :: applied) (apply_step ps s)
      end
  end.

Definition set_portals (target_id : string) (portals : list Portal) : I IscsiTarget :=
  t <- find_target target_id ;;
  steps <- lift (plan_portal_transition (tg_portals t) portals) ;;
  match steps with
  | [] => ret (redacted_iscsi t)
  | _ =>
      ps <- run_steps (tpg_of (tg_iqn t)) steps [] (tg_portals t) ;;
      let t := set_portals_of ps t in
      save_target t ;;;
      save_lio_config ;;;
      ret (redacted_iscsi t)
  end.

(** ** Creation *)

Fixpoint create_portals (target tpg : Path) (portals created : list Portal) : I (list Portal) :=
  match portals with
  | [] => ret created
  | p :: rest =>
      r <- attempt (create_np tpg p) ;;
      match r with
      | Err e => cleanup_unpersisted_target target tpg created ;;; throw e
      | Ok _ => create_portals target tpg rest (created ++ [p])%list
      end
  end.

Definition configure_tpg (tpg : Path) (has_explicit_acls : bool) : I unit :=
  write (tpg // "attrib" // "authentication") "0" ;;;
  write (tpg // "attrib" // "generate_node_acls") (if has_explicit_acls then "0" else "1") ;;;
  write (tpg // "attrib" // "demo_mode_write_protect") "0" ;;;
  write (tpg // "enable") "1".

Definition cleanup_failed_create (target_id : string) (error : IscsiError) : I IscsiError :=
  r <- attempt (delete_iscsi target_id) ;;
  match r with
  | Err e => ret (IsConfigFs (display_iscsi_error error ++ "; failed to clean up target: " ++ display_iscsi_error e))
  | Ok _ =>
      r <- attempt save_lio_config_checked ;;
      match r with
      | Err e => ret (IsConfigFs (display_iscsi_error error ++ "; failed to persist target cleanup: " ++ display_iscsi_error e))
      | Ok _ => ret error
      end
  end.

Definition or_cleanup (id : string) (m : I IscsiTarget) : I IscsiTarget :=
  r <- attempt m ;;
  match r with
  | Ok t => ret t
  | Err e => e <- cleanup_failed_create id e ;; throw e
  end.

Fixpoint add_acls (t : IscsiTarget) (acls : list AclEntry) : I IscsiTarget :=
  match acls with
  | [] => ret t
  | a :: rest =>
      t <- or_cleanup (tg_id t) (add_acl (tg_id t) (ae_initiator_iqn a) (ae_userid a) (ae_password a)) ;;
      add_acls t rest
  end.

Definition default_portal : Portal := mkPortal "0.0.0.0" 3260 false.
Definition v6_portal : Portal := mkPortal "::" 3260 false.

Definition create_iscsi (e : IscsiEnv) (req : CreateTargetRequest) : I IscsiTarget :=
  lift (validate_target_name (ct_name req)) ;;;
  lift (match ct_acls req with Some acls => check_acl_entries ∅ acls | None => Ok tt end) ;;;
  targets <- all_targets ;;
  let iqn := DEFAULT_IQN_PREFIX ++ ":" ++ ct_name req in
  match List.find (fun t => eq_ignore_ascii_case (tg_iqn t) iqn) targets with
  | Some existing => ret (redacted_iscsi existing)
  | None =>
      let '(mandatory, opportunistic_v6) :=
        match ct_portals req with Some p => (p, false) | None => ([default_portal], ie_has_global_ipv6 e) end in
      dirs <- create_target_dirs ISCSI_BASE iqn ;;
      let '(target, tpg) := dirs in
      created <- create_portals target tpg mandatory [] ;;
      created <- (if opportunistic_v6 : bool then
                    r <- attempt (mkdir (np_path_for tpg (po_ip v6_portal) (po_port v6_portal))) ;;
                    ret (match r with Ok _ => created ++ [v6_portal] | Err _ => created end)%list
                  else ret created) ;;
      r <- attempt (configure_tpg tpg (is_some (ct_acls req))) ;;
      match r with
      | Err error => cleanup_unpersisted_target target tpg created ;;; throw error
      | Ok _ =>
          let t := mkTarget (ie_uuid e) iqn (ct_alias req) created [] [] true in
          r <- attempt (save_target t) ;;
          match r with
          | Err error => cleanup_unpersisted_target target tpg (tg_portals t) ;;; throw error
          | Ok _ =>
              save_lio_config ;;;
              t <- match ct_device_path req with
                   | Some path =>
                       or_cleanup (tg_id t) (add_lun e (mkAddLun (tg_id t) path (Some "block") None (ct_backing_volume req)))
                   | None => ret t
                   end ;;
              t <- match ct_acls req with Some acls => add_acls t acls | None => ret t end ;;
              match tg_luns t with
              | [] => ret tt
              | _ => wait_ready 10 (tpg_of (tg_iqn t) // "enable")
              end ;;;
              ret (redacted_iscsi t)
          end
      end
  end.

(** ** Start-up *)

Definition migrate_target (t : IscsiTarget) : IscsiTarget * bool :=
  let rs := migrate_acl (tg_id t) <$> tg_acls t in
  (set_acls_of rs.*1 t, existsb snd rs).

Definition migrate_secrets_iscsi : I unit :=
  ts <- disk_call IsIo (fun F => load_all F ISCSI_STATE_DIR) ;;
  for_each ts (fun t =>
    let '(t', changed) := migrate_target t in
    if changed : bool then ignore (save_target t') else ret tt).

Definition patch_saveconfig (backstores : gmap string string) (targets : gset string) : M BlockWorld string unit :=
  text <- disk_call (fun e => "read /etc/target/saveconfig.json: " ++ display_io e) (fun F => read_to_string F SAVECONFIG) ;;
  json <- lift (map_err (fun e => "parse /etc/target/saveconfig.json: " ++ e) (decode text)) ;;
  out <- lift (patch_saveconfig_value json backstores targets) ;;
  let '(json', changed) := out in
  if changed : bool then
    text <- lift (map_err (fun e => "serialize /etc/target/saveconfig.json: " ++ e) (encode json')) ;;
    disk_call (fun e => "write /etc/target/saveconfig.json: " ++ display_io e) (fun F => fs_write F SAVECONFIG text)
  else ret tt.

Definition validate_no_saved_exports : M BlockWorld string unit :=
  r <- attempt (disk_call id (fun F => read_to_string F SAVECONFIG)) ;;
  match r with
  | Err e => if is_not_found e then ret tt else throw ("read /etc/target/saveconfig.json: " ++ display_io e)
  | Ok text =>
      json <- lift (map_err (fun e => "parse /etc/target/saveconfig.json: " ++ e) (decode text)) ;;
      lift (validate_empty_saveconfig_value json)
  end.

(** The loop of [remap_device_paths]: the targets after it, the patches with
    whether restoring is safe, and whether a target changed. *)
Fixpoint remap_targets (m : BlockDeviceMappings) (ts : list IscsiTarget) (st : gmap string string * bool) (any : bool)
    : M BlockWorld IscsiError (list IscsiTarget * (gmap string string * bool) * bool) :=
  match ts with
  | [] => ret ([], st, any)
  | t :: rest =>
      let '(t', changed, target_safe, target_patches) := remap_target m t in
      r <- (if changed : bool then attempt (save_target t') else ret (Ok tt)) ;;
      let persisted := is_ok r in
      let st := (st.1, st.2 && persisted && target_safe) in
      let st := insert_patches (if persisted then target_patches else []) st in
      let st := insert_patches ((fun l => (lu_backstore_name l,
                   if persisted || negb (is_managed_lun l) then lu_backstore_path l else UNRESOLVED_BACKSTORE)) <$> tg_luns t') st in
      out <- remap_targets m rest st (any || changed) ;;
      ret (t' :: out.1.1, out.1.2, out.2)
  end.

Definition remap_device_paths_iscsi (m : BlockDeviceMappings) : M BlockWorld IscsiError DeviceRemapOutcome :=
  r <- attempt all_targets ;;
  match r with
  | Err _ => ret (mkOutcome false false)
  | Ok [] =>
      r <- attempt validate_no_saved_exports ;;
      ret (mkOutcome (is_ok r) false)
  | Ok targets =>
      out <- remap_targets m targets (∅, true) false ;;
      let '(targets', (patches, safe), any) := out in
      r <- attempt (patch_saveconfig patches (list_to_set (tg_iqn <$> targets'))) ;;
      ret (mkOutcome (safe && is_ok r) any)
  end.

End Service.
