(* ===== verification/IscsiAcl.v ===== *)
(** * Replacing the portals of a target

    The plan [plan_portal_transition] makes is one the kernel can follow: no
    portal is added while one it cannot share its port with is up, nothing is
    removed that is not there, and the last step leaves exactly the portals
    that were asked for.

    ** Access lists are never half open

    [add_acl] takes the target down, makes the entry, records it and brings the
    target up again, and undoes all of it when a step fails. Whatever fails, and
    however often, it ends with the entry in place and recorded, or without it and
    with nothing changed but one attribute, or with the target down. *)
From Stdlib Require Import String Ascii ZArith.
From stdpp Require Import base list gmap strings numbers.
From S2P Require Import Prelude RustStr Disk StateStore Records JsonRpc FirewallRules Backup ConfigFs BlockWorld Iscsi IscsiService.

Open Scope string_scope.
Open Scope rust_scope.

(** No two portals of the set exclude each other. *)
Definition conflict_free (ps : list Portal) : Prop :=
  forall p q, p ∈ ps -> q ∈ ps -> p <> q -> conflicts p q = false.

(** The steps can be taken in this order. *)
Fixpoint safe_run (ps : list Portal) (steps : list PortalStep) : Prop :=
  match steps with
  | [] => True
  | PAdd p :: rest => (forall q, q ∈ ps -> conflicts p q = false) /\ safe_run (apply_step ps (PAdd p)) rest
  | PRemove p :: rest => p ∈ ps /\ safe_run (apply_step ps (PRemove p)) rest
  end.

Definition run (ps : list Portal) (steps : list PortalStep) : list Portal := fold_left apply_step steps ps.

Lemma same_endpoint_spec p q : same_endpoint p q = true <-> po_ip p = po_ip q /\ po_port p = po_port q.
Proof. unfold same_endpoint. by rewrite andb_true_iff, eqb_spec, Z.eqb_eq. Qed.

Lemma conflicts_sym p q : conflicts p q = conflicts q p.
Proof.
  unfold conflicts. rewrite (Z.eqb_sym (po_port p)), (String.eqb_sym (po_ip p)).
  destruct (is_v6 (po_ip p)), (is_v6 (po_ip q)), (is_wildcard (po_ip p)), (is_wildcard (po_ip q)); cbn;
    by rewrite ?orb_true_r, ?orb_false_r.
Qed.

Lemma endpoint_conflicts p q : same_endpoint p q = true -> conflicts p q = true.
Proof.
  intros [Hi Hp]%same_endpoint_spec. unfold conflicts. rewrite Hi, Hp, Z.eqb_refl, eqb_refl.
  by rewrite Bool.eqb_reflx.
Qed.

Lemma not_listed p l : negb (listed p l) = true <-> p ∉ l.
Proof. unfold listed. rewrite negb_true_iff. apply bool_decide_eq_false. Qed.

Lemma elem_of_filter_bool {A} (f : A -> bool) l x : x ∈ List.filter f l <-> x ∈ l /\ f x = true.
Proof. by rewrite !list_elem_of_In, filter_In. Qed.

(** ** The requested set *)

Section Plan.
Context `{IpParser}.

Definition endpoints_once (ps : list Portal) : Prop :=
  NoDup ps /\ forall p q, p ∈ ps -> q ∈ ps -> same_endpoint p q = true -> p = q.

Lemma normalize_once acc desired ps :
  endpoints_once acc -> normalize_portals acc desired = Ok ps -> endpoints_once ps.
Proof.
  revert acc. induction desired as [|p rest IH]; intros acc Ha; cbn [normalize_portals]; [by intros [= <-]|].
  destruct (validate_portal_ip (po_ip p)) as [ip|]; [|done]. destruct (po_port p =? 0)%Z; [done|].
  set (q := mkPortal ip (po_port p) (po_iser p)).
  destruct (existsb (same_endpoint q) acc) eqn:He; [done|]. apply IH.
  destruct Ha as [Hn Hu].
  assert (forall x, x ∈ acc -> same_endpoint q x = false) as Hq.
  { intros x Hx. destruct (same_endpoint q x) eqn:Hs; [|done].
    enough (existsb (same_endpoint q) acc = true) by congruence. apply existsb_exists.
    exists x. by rewrite <- list_elem_of_In. }
  split.
  - apply list.NoDup_app. split_and!; [done| |apply NoDup_singleton]. intros x Hx ->%list_elem_of_singleton.
    specialize (Hq q Hx). rewrite (proj2 (same_endpoint_spec q q)) in Hq; done.
  - intros x y [Hx| ->%list_elem_of_singleton]%elem_of_app [Hy| ->%list_elem_of_singleton]%elem_of_app Hs; auto.
    + apply same_endpoint_spec in Hs as [Hi Hp]. specialize (Hq x Hx).
      rewrite (proj2 (same_endpoint_spec q x)) in Hq; done.
    + by rewrite (Hq y Hy) in Hs.
Qed.

(** ** Runs of one kind of step *)

Lemma safe_adds ps adds rest :
  NoDup adds -> (forall p q, p ∈ adds -> q ∈ ps -> conflicts p q = false) ->
  (forall p q, p ∈ adds -> q ∈ adds -> p <> q -> conflicts p q = false) ->
  safe_run (ps ++ adds)%list rest -> safe_run ps ((PAdd <$> adds) ++ rest)%list.
Proof.
  revert ps. induction adds as [|p adds IH]; intros ps Hn Hps Hadds Hrest; [by rewrite app_nil_r in Hrest|].
  apply list.NoDup_cons in Hn as [Hp Hn]. cbn. split; [intros q; apply Hps; by left|].
  apply IH; [done| | |by rewrite <- app_assoc].
  - intros a q Ha [Hq| ->%list_elem_of_singleton]%elem_of_app; [apply Hps; [by right|done]|].
    apply Hadds; [by right|by left|by intros ->].
  - intros a b Ha Hb. apply Hadds; by right.
Qed.

Lemma run_adds ps adds : run ps (PAdd <$> adds) = (ps ++ adds)%list.
Proof.
  revert ps. induction adds as [|p adds IH]; intros ps; [by rewrite app_nil_r|].
  cbn. unfold run in IH. by rewrite IH, <- app_assoc.
Qed.

Definition without (rem ps : list Portal) : list Portal :=
  List.filter (fun q => forallb (fun p => negb (same_endpoint q p)) rem) ps.

Lemma run_removes ps rem : run ps (PRemove <$> rem) = without rem ps.
Proof.
  revert ps. induction rem as [|p rem IH]; intros ps; cbn.
  - unfold without. cbn. induction ps as [|q ps IHp]; [done|]. cbn. by rewrite <- IHp.
  - unfold run in IH. rewrite IH. unfold without. induction ps as [|q ps IHp]; [done|]. cbn.
    destruct (negb (same_endpoint q p)); cbn; [|done]. rewrite IHp. done.
Qed.

Lemma safe_removes ps rem rest :
  NoDup rem -> (forall p, p ∈ rem -> p ∈ ps) ->
  (forall p q, p ∈ rem -> q ∈ rem -> same_endpoint p q = true -> p = q) ->
  safe_run (without rem ps) rest -> safe_run ps ((PRemove <$> rem) ++ rest)%list.
Proof.
  rewrite <- run_removes. revert ps. induction rem as [|p rem IH]; intros ps Hn Hin Hu Hrest; [done|].
  apply list.NoDup_cons in Hn as [Hp Hn]. cbn. split; [apply Hin; by left|].
  apply IH; [done| |intros a b Ha Hb; apply Hu; by right|done].
  intros q Hq. apply elem_of_filter_bool. split; [apply Hin; by right|].
  apply negb_true_iff. destruct (same_endpoint q p) eqn:Hs; [|done].
  apply Hu in Hs as ->; [done|by right|by left].
Qed.

Lemma run_app ps a b : run ps (a ++ b)%list = run (run ps a) b.
Proof. apply fold_left_app. Qed.

(** ** The parts of a plan *)

Section Parts.
Context (current wanted : list Portal).
Context (Hcn : NoDup current) (Hc : conflict_free current).
Context (Hwn : NoDup wanted) (Hwc : conflict_free wanted).

Definition removed : list Portal := List.filter (fun c => negb (listed c wanted)) current.
Definition added : list Portal := List.filter (fun d => negb (listed d current)) wanted.
Definition is_late (a : Portal) : bool := existsb (conflicts a) removed.
Definition early : list Portal := List.filter (fun a => negb (is_late a)) added.
Definition late : list Portal := List.filter is_late added.

Lemma elem_of_removed p : p ∈ removed <-> p ∈ current /\ p ∉ wanted.
Proof. unfold removed. by rewrite elem_of_filter_bool, not_listed. Qed.
Lemma elem_of_early p : p ∈ early <-> (p ∈ wanted /\ p ∉ current) /\ is_late p = false.
Proof. unfold early, added. by rewrite !elem_of_filter_bool, not_listed, negb_true_iff. Qed.
Lemma elem_of_late p : p ∈ late <-> (p ∈ wanted /\ p ∉ current) /\ is_late p = true.
Proof. unfold late, added. by rewrite !elem_of_filter_bool, not_listed. Qed.

Lemma NoDup_filter_bool {A} (f : A -> bool) l : NoDup l -> NoDup (List.filter f l).
Proof. intros ?. by apply NoDup_ListNoDup, List.NoDup_filter, NoDup_ListNoDup. Qed.

(** An early addition conflicts with nothing that is up. *)
Lemma early_free p q : p ∈ early -> q ∈ current -> conflicts p q = false.
Proof.
  intros [[Hp Hpc] Hl]%elem_of_early Hq. destruct (decide (q ∈ wanted)) as [Hqw|Hqw].
  - apply Hwc; [done..|]. by intros ->.
  - destruct (conflicts p q) eqn:E; [|done]. enough (is_late p = true) by congruence.
    apply existsb_exists. exists q. by rewrite <- list_elem_of_In, elem_of_removed.
Qed.

(** Before the late additions only requested portals are up. *)
Lemma elem_of_between p : p ∈ without removed (current ++ early)%list <-> p ∈ wanted /\ (p ∈ current \/ p ∈ early).
Proof.
  unfold without. rewrite elem_of_filter_bool, elem_of_app, forallb_forall.
  setoid_rewrite <- list_elem_of_In. split.
  - intros [[Hp|Hp] Hf]; [|pose proof Hp as [[? _] _]%elem_of_early; by auto].
    destruct (decide (p ∈ wanted)); [auto|]. specialize (Hf p ltac:(by apply elem_of_removed)).
    by rewrite (proj2 (same_endpoint_spec p p)) in Hf.
  - intros [Hpw Hp]. split; [done|]. intros q [Hqc Hqw]%elem_of_removed. apply negb_true_iff.
    destruct (same_endpoint p q) eqn:Hs; [|done]. apply endpoint_conflicts in Hs.
    destruct Hp as [Hp|Hp]; [rewrite (Hc p q) in Hs; [done..|by intros ->]|].
    by rewrite (early_free p q) in Hs.
Qed.

Lemma late_not_between p : p ∈ late -> p ∉ without removed (current ++ early)%list.
Proof.
  intros [[_ Hpc] Hl]%elem_of_late [_ Hor]%elem_of_between. destruct Hor as [|[_ ?]%elem_of_early]; [done|congruence].
Qed.

Definition planned : list PortalStep := ((PAdd <$> early) ++ (PRemove <$> removed) ++ (PAdd <$> late))%list.

Lemma planned_safe : safe_run current planned.
Proof.
  apply safe_adds; [by repeat apply NoDup_filter_bool|apply early_free|..].
  { intros p q [[Hp _] _]%elem_of_early [[Hq _] _]%elem_of_early. by apply Hwc. }
  apply safe_removes; [by apply NoDup_filter_bool|intros p [Hp _]%elem_of_removed; apply elem_of_app; by left|..].
  { intros p q [Hp _]%elem_of_removed [Hq _]%elem_of_removed Hs%endpoint_conflicts. destruct (decide (p = q)); [done|].
    by rewrite (Hc p q) in Hs. }
  rewrite <- (app_nil_r (PAdd <$> late)). apply safe_adds; [by repeat apply NoDup_filter_bool| | |done].
  - intros p q Hp Hq. pose proof (late_not_between p Hp) as Hn. apply elem_of_late in Hp as [[Hp _] _].
    pose proof Hq as [Hqw _]%elem_of_between. apply Hwc; [done..|]. by intros ->.
  - intros p q [[Hp _] _]%elem_of_late [[Hq _] _]%elem_of_late. by apply Hwc.
Qed.

Lemma run_planned : run current planned = (without removed (current ++ early) ++ late)%list.
Proof. unfold planned. by rewrite !run_app, run_adds, run_removes, run_adds. Qed.

Lemma planned_result : NoDup (run current planned) /\ forall p, p ∈ run current planned <-> p ∈ wanted.
Proof.
  rewrite run_planned. split.
  - apply list.NoDup_app. split_and!; [|intros p Hp Hl; by apply (late_not_between p)|by repeat apply NoDup_filter_bool].
    apply NoDup_filter_bool, list.NoDup_app.
    split_and!; [done|by intros p ? [[_ ?] _]%elem_of_early|by repeat apply NoDup_filter_bool].
  - intros p. rewrite elem_of_app, elem_of_between, elem_of_early, elem_of_late.
    destruct (decide (p ∈ current)), (is_late p); naive_solver.
Qed.

End Parts.

(** The plan can be followed and ends with the requested set. *)
Lemma plan_works current desired steps :
  NoDup current -> conflict_free current ->
  plan_portal_transition current desired = Ok steps ->
  exists wanted, normalize_portals [] desired = Ok wanted /\
    (conflict_free wanted ->
     safe_run current steps /\ NoDup (run current steps) /\ forall p, p ∈ run current steps <-> p ∈ wanted).
Proof.
  intros Hcn Hc. unfold plan_portal_transition. destruct desired as [|d0 ds]; [done|].
  destruct (normalize_portals [] (d0 :: ds)) as [wanted|] eqn:Hw; [|done]. intros [= <-].
  exists wanted. split; [done|]. intros Hwc.
  assert (NoDup wanted) as Hwn by apply (normalize_once _ _ _ ltac:(split; [constructor|set_solver]) Hw).
  split; [by apply (planned_safe current wanted)|by apply (planned_result current wanted)].
Qed.

End Plan.

(** ** The state directory *)

Section Rules.
Context `{ConfigFs} `{Vault} `{!Codec IscsiTarget} `{!CodecLaws IscsiTarget}.
Implicit Types (w : BlockWorld).

Abbreviation target_at w id := (stored (T := IscsiTarget) ISCSI_STATE_DIR (bw_disk w) id).
Abbreviation in_order w := (dir_ok (T := IscsiTarget) ISCSI_STATE_DIR (bw_disk w)).

Lemma wp_find_target id (Q : result IscsiTarget IscsiError -> BlockWorld -> Prop) w :
  in_order w -> valid_id id ->
  (forall t w', target_at w id = Some t -> tg_id t = id -> bw_disk w' = bw_disk w -> bw_kernel w' = bw_kernel w -> Q (Ok t) w') ->
  (forall e w', bw_disk w' = bw_disk w -> bw_kernel w' = bw_kernel w -> Q (Err e) w') ->
  wp (find_target id) Q w.
Proof.
  intros Hd Hv Hok Herr. apply wp_bind. apply wp_load_rec; [done..| |].
  - intros w' ???. apply wp_throw. by apply Herr.
  - intros t w' ? Hid ???. apply wp_ret. by apply Hok.
Qed.

Lemma saveconfig_elsewhere d text :
  dir_ok (T := IscsiTarget) ISCSI_STATE_DIR d ->
  same_records (T := IscsiTarget) ISCSI_STATE_DIR d (<[SAVECONFIG := mkFile Regular 420 engine_uid text]> d).
Proof.
  intros Hd. apply same_records_insert; [done|by intros n|]. intros id Hv. rewrite item_path_eq by apply Hv. done.
Qed.

Lemma wp_save_lio (Q : result unit IscsiError -> BlockWorld -> Prop) w :
  in_order w ->
  (forall w', same_records (T := IscsiTarget) ISCSI_STATE_DIR (bw_disk w) (bw_disk w') -> bw_kernel w' = bw_kernel w -> Q (Ok tt) w') ->
  (forall e w', bw_disk w' = bw_disk w -> bw_kernel w' = bw_kernel w -> Q (Err e) w') ->
  wp save_lio_config_checked Q w.
Proof.
  intros Hd Hok Herr. unfold wp, save_lio_config_checked.
  destruct (bw_cli w) as [|[text|msg] rest]; cbn.
  - apply Hok; [by apply same_records_refl|done].
  - apply Hok; [by apply saveconfig_elsewhere|done].
  - by apply Herr.
Qed.

(** ** One access entry *)

Section Entry.
Context (orig : IscsiTarget) (initiator : string) (userid password : option string).

Definition the_tpg : Path := tpg_of (tg_iqn orig).
Definition en : Path := the_tpg // "enable".
Definition gen : Path := the_tpg // "attrib" // "generate_node_acls".
Definition tpg_auth : Path := the_tpg // "attrib" // "authentication".
Definition acl_dir : Path := the_tpg // "acls" // initiator.

Definition updated : IscsiTarget :=
  set_acls_of (tg_acls orig ++ [new_acl (tg_id orig) initiator userid password])%list orig.

Context (chap : bool) (g0 e0 : string).
Context (Hname : components initiator = [initiator]).

(** The credentials of the entry, if it has any. *)
Definition chap_set (t : Tree) : Prop :=
  forall u p, chap = true -> userid = Some u -> password = Some p ->
    attr t (acl_dir // "attrib" // "authentication") = Some "1" /\
    attr t (acl_dir // "auth" // "userid") = Some u /\ attr t (acl_dir // "auth" // "password") = Some p.

Definition acl_absent (t : Tree) : Prop := attr t en = Some e0 /\ attr t gen = Some g0 /\ t !! acl_dir = None.
Definition acl_in_place (t : Tree) : Prop := attr t en = Some e0 /\ attr t gen = Some "0" /\ t !! acl_dir = Some (NDir true) /\ chap_set t.
Definition target_down (t : Tree) : Prop := attr t en = Some "0".

(** Facts about the paths. *)
Lemma paths_apart :
  en <> gen /\ en <> tpg_auth /\ gen <> tpg_auth /\ below acl_dir en = false /\ below acl_dir gen = false /\ below acl_dir tpg_auth = false.
Proof.
  unfold en, gen, tpg_auth, acl_dir, sub. rewrite Hname.
  change (components "enable") with ["enable"]. change (components "acls") with ["acls"].
  change (components "attrib") with ["attrib"]. change (components "authentication") with ["authentication"].
  change (components "generate_node_acls") with ["generate_node_acls"].
  rewrite <- !app_assoc, !below_app_l. cbn [app]. rewrite !below_cons.
  split_and!; try done; intros E%app_inv_head; done.
Qed.

Lemma acl_attr_apart s p : below acl_dir p = false -> acl_dir // "attrib" // s <> p /\ acl_dir // "auth" // s <> p.
Proof.
  intros Hb. unfold sub. rewrite <- !app_assoc. split; intros <-; by rewrite below_app in Hb.
Qed.

Lemma wp_rollback w :
  target_down (bw_tree w) ->
  wp (rollback_new_acl acl_dir the_tpg g0 e0)
    (fun r w' => same_disk w w' /\
       match r with Ok _ => acl_absent (bw_tree w') | Err _ => target_down (bw_tree w') end) w.
Proof.
  destruct paths_apart as (Heg & _ & _ & Hbe & Hbg & _). intros Hdown. unfold rollback_new_acl. fold en gen.
  apply wp_bind, wp_cfg_write; [|intros e w' Ht Hs; unfold target_down; by rewrite Ht].
  intros _ w1 _ Ht1 Hs1.
  assert (target_down (bw_tree w1)) as Hd1 by (unfold target_down; by rewrite Ht1, attr_insert).
  apply wp_bind, wp_cfg_rmdir; [|intros e w' Ht Hs; split; [by etrans|unfold target_down; by rewrite Ht]].
  intros w2 _ Ht2 Hs2.
  assert (target_down (bw_tree w2)) as Hd2.
  { unfold target_down, attr. rewrite Ht2, lookup_prune, Hbe. exact Hd1. }
  assert (bw_tree w2 !! acl_dir = None) as Ha2 by (by rewrite Ht2, lookup_prune, (proj2 (below_spec acl_dir acl_dir))).
  assert (same_disk w w2) as Hs02 by (by etrans).
  apply wp_bind, wp_cfg_write; [|intros e w' Ht Hs; split; [by etrans|unfold target_down; by rewrite Ht]].
  intros _ w3 _ Ht3 Hs3.
  assert (acl_dir <> gen /\ acl_dir <> en) as [Hag Hae]
    by (split; intros E; [rewrite <- E in Hbg|rewrite <- E in Hbe]; by rewrite (proj2 (below_spec acl_dir acl_dir)) in *).
  apply wp_cfg_write.
  - intros _ w4 _ Ht4 Hs4. split; [by etrans; [|etrans]|]. unfold acl_absent. rewrite Ht4, Ht3.
    rewrite attr_insert, attr_insert_ne, attr_insert, !lookup_insert_ne by auto. done.
  - intros e w4 Ht4 Hs4. split; [by etrans; [|etrans]|]. unfold target_down. by rewrite Ht4, Ht3, attr_insert_ne.
Qed.

(** The credentials are written first, with the target down. *)
Definition acl_up_to (t : Tree) : Prop := target_down t /\ t !! acl_dir = Some (NDir true).

Lemma acl_up_to_write t p v :
  p <> en -> p <> acl_dir -> acl_up_to t -> acl_up_to (<[p := NAttr v]> t).
Proof. intros ?? [Hd Ha]. split; [unfold target_down; by rewrite attr_insert_ne|by rewrite lookup_insert_ne]. Qed.

Lemma acl_attrs_distinct :
  acl_dir // "attrib" // "authentication" <> acl_dir // "auth" // "userid" /\
  acl_dir // "attrib" // "authentication" <> acl_dir // "auth" // "password" /\
  acl_dir // "auth" // "userid" <> acl_dir // "auth" // "password".
Proof. unfold sub. rewrite <- !app_assoc. split_and!; intros E%app_inv_head; done. Qed.

Lemma acl_child_ne s a : components a = [a] -> acl_dir // a // s <> acl_dir.
Proof.
  intros Ha E. unfold sub in E at 1 2. rewrite Ha in E. apply (f_equal (@length string)) in E.
  rewrite !length_app in E. cbn in E. lia.
Qed.

Definition write_chap : M BlockWorld IscsiError unit :=
  match (if chap then userid else None), password with
  | Some u, Some p =>
      configfs_write IsConfigFs (acl_dir // "attrib" // "authentication") "1" ;;;
      configfs_write IsConfigFs (acl_dir // "auth" // "userid") u ;;;
      configfs_write_secret IsConfigFs (acl_dir // "auth" // "password") p
  | _, _ => ret tt
  end.

Lemma wp_write_chap w :
  acl_up_to (bw_tree w) ->
  wp write_chap (fun r w' => same_disk w w' /\ acl_up_to (bw_tree w') /\ (r = Ok tt -> chap_set (bw_tree w'))) w.
Proof.
  intros Hup. unfold write_chap, chap_set.
  destruct (if chap then userid else None) as [u|] eqn:Hu; [destruct password as [p|]|];
    [|apply wp_ret; split_and!; [done..|]; intros _ u' p' ->; congruence..].
  assert (userid = Some u) as -> by (by destruct chap).
  destruct paths_apart as (_ & _ & _ & Hbe & _ & _). destruct acl_attrs_distinct as (D1 & D2 & D3).
  destruct (acl_attr_apart "authentication" en Hbe) as [A1 _].
  destruct (acl_attr_apart "userid" en Hbe) as [_ A2]. destruct (acl_attr_apart "password" en Hbe) as [_ A3].
  pose proof (acl_child_ne "authentication" "attrib" eq_refl) as C1.
  pose proof (acl_child_ne "userid" "auth" eq_refl) as C2. pose proof (acl_child_ne "password" "auth" eq_refl) as C3.
  apply wp_bind, wp_cfg_write; [|intros e w' Ht Hs; rewrite Ht; by split_and!].
  intros _ w1 _ Ht1 Hs1. assert (acl_up_to (bw_tree w1)) as Hup1 by (rewrite Ht1; by apply acl_up_to_write).
  apply wp_bind, wp_cfg_write; [|intros e w' Ht Hs; rewrite Ht; by split_and!; [etrans|..]].
  intros _ w2 _ Ht2 Hs2. assert (acl_up_to (bw_tree w2)) as Hup2 by (rewrite Ht2; by apply acl_up_to_write).
  assert (same_disk w w2) as Hs02 by (by etrans).
  apply wp_cfg_write_secret; [|intros e w' Ht Hs; rewrite Ht; by split_and!; [etrans|..]].
  intros _ w3 _ Ht3 Hs3. split_and!; [by etrans|rewrite Ht3; by apply acl_up_to_write|].
  intros _ u' p' _ [= <-] [= <-]. rewrite Ht3, attr_insert, !attr_insert_ne, Ht2, attr_insert, attr_insert_ne, Ht1, attr_insert by auto.
  done.
Qed.

Lemma chap_set_write t p v : below acl_dir p = false -> chap_set t -> chap_set (<[p := NAttr v]> t).
Proof.
  intros Hb Hc u pw ???. destruct (Hc u pw) as (X1 & X2 & X3); [done..|].
  destruct (acl_attr_apart "authentication" p Hb) as [A1 _].
  destruct (acl_attr_apart "userid" p Hb) as [_ A2]. destruct (acl_attr_apart "password" p Hb) as [_ A3].
  by rewrite !attr_insert_ne by auto.
Qed.

Lemma wp_configure w :
  acl_up_to (bw_tree w) ->
  wp (configure_acl acl_dir the_tpg chap userid password)
    (fun r w' => same_disk w w' /\ target_down (bw_tree w') /\
       (r = Ok tt -> acl_up_to (bw_tree w') /\ attr (bw_tree w') gen = Some "0" /\ chap_set (bw_tree w'))) w.
Proof.
  intros Hup. unfold configure_acl. fold write_chap gen tpg_auth.
  destruct paths_apart as (Heg & Hea & Hga & _ & Hbg & Hba).
  assert (forall p, below acl_dir p = false -> p <> acl_dir) as Hne
    by (intros p Hb ->; by rewrite (proj2 (below_spec acl_dir acl_dir)) in Hb).
  apply wp_bind. eapply wp_mono; [|by apply wp_write_chap]. intros [[]|e] w1 (Hs1 & Hup1 & Hc1); [|split_and!; [done|apply Hup1|done]].
  specialize (Hc1 eq_refl). apply wp_bind, wp_cfg_write; [|intros e w' Ht Hs; rewrite Ht; split_and!; [by etrans|apply Hup1|done]].
  intros _ w2 _ Ht2 Hs2. assert (acl_up_to (bw_tree w2)) as Hup2 by (rewrite Ht2; apply acl_up_to_write; auto).
  assert (same_disk w w2) as Hs02 by (by etrans).
  apply wp_cfg_write; [|intros e w' Ht Hs; rewrite Ht; split_and!; [by etrans|apply Hup2|done]].
  intros _ w3 _ Ht3 Hs3. assert (acl_up_to (bw_tree w3)) as Hup3 by (rewrite Ht3; apply acl_up_to_write; auto).
  split_and!; [by etrans|apply Hup3|]. intros _. split_and!; [done|rewrite Ht3, attr_insert_ne, Ht2, attr_insert; auto|].
  rewrite Ht3, Ht2. by repeat apply chap_set_write.
Qed.

(** ** What the call leaves alone *)

(** In the kernel's tree all but the new entry and the two settings of the group is as it was; the group's own
    authentication may have been switched off. *)
Definition rest_kept (t0 t : Tree) : Prop := forall p, below acl_dir p = false -> p <> en -> p <> gen ->
  t !! p = t0 !! p \/ (p = tpg_auth /\ t !! p = Some (NAttr "0")).

(** What the call may write. *)
Definition its_own (p : Path) (v : string) : Prop := below acl_dir p = true \/ p = en \/ p = gen \/ (p = tpg_auth /\ v = "0").

Lemma rest_write t0 t p v : its_own p v -> rest_kept t0 t -> rest_kept t0 (<[p := NAttr v]> t).
Proof.
  intros Hp Hr q Hb He Hg. destruct (decide (p = q)) as [->|Hn]; [rewrite lookup_insert_eq|rewrite lookup_insert_ne by done; by apply Hr].
  right. destruct Hp as [Hp|[Hp|[Hp|[Hp ->]]]]; [congruence|done..].
Qed.

Abbreviation leaves t0 := (fun w : BlockWorld => rest_kept t0 (bw_tree w)).

Lemma leaves_write t0 p v w : its_own p v -> leaves t0 w -> keeps (leaves t0) (configfs_write IsConfigFs p v) w.
Proof. intros Hp Hw. apply wp_cfg_write; [intros old w' _ -> _; by apply rest_write|by intros e w' -> _]. Qed.

Lemma leaves_secret t0 p v w : its_own p v -> leaves t0 w -> keeps (leaves t0) (configfs_write_secret IsConfigFs p v) w.
Proof. intros Hp Hw. apply wp_cfg_write_secret; [intros old w' _ -> _; by apply rest_write|by intros e w' -> _]. Qed.

Lemma leaves_rmdir t0 w : leaves t0 w -> keeps (leaves t0) (configfs_rmdir IsConfigFs acl_dir) w.
Proof.
  intros Hw. apply wp_cfg_rmdir; [|by intros e w' -> _]. intros w' _ -> _ q Hb. rewrite lookup_prune, Hb. by apply Hw.
Qed.

Lemma leaves_save t0 t w : leaves t0 w -> keeps (leaves t0) (save_target t) w.
Proof. intros Hw. apply wp_disk_call. unfold wp. by destruct (save _ _ _ _ _). Qed.

Lemma leaves_lio t0 w : leaves t0 w -> keeps (leaves t0) save_lio_config_checked w.
Proof. intros Hw. unfold keeps, wp, save_lio_config_checked. by destruct (bw_cli w) as [|[|] ?]. Qed.

Lemma leaves_report t0 m error what w : keeps (leaves t0) m w -> keeps (leaves t0) (or_report m error what) w.
Proof.
  intros Hm. apply keeps_bind; [by apply keeps_attempt|]. intros [[]|e] w' Hw'; [by apply keeps_ret|exact Hw'].
Qed.

Lemma its_own_entry a s v : its_own (acl_dir // a // s) v.
Proof. left. unfold sub. rewrite <- !app_assoc. apply below_app. Qed.

Lemma its_own_group v : its_own en v /\ its_own gen v.
Proof. unfold its_own. tauto. Qed.

Lemma its_own_auth : its_own tpg_auth "0".
Proof. unfold its_own. tauto. Qed.

Lemma leaves_rollback t0 g e w : leaves t0 w -> keeps (leaves t0) (rollback_new_acl acl_dir the_tpg g e) w.
Proof.
  intros Hw. unfold rollback_new_acl. apply keeps_bind; [apply leaves_write; [apply its_own_group|done]|]. intros _ w1 Hw1.
  apply keeps_bind; [by apply leaves_rmdir|]. intros _ w2 Hw2.
  apply keeps_bind; [apply leaves_write; [apply its_own_group|done]|]. intros _ w3 Hw3. apply leaves_write; [apply its_own_group|done].
Qed.

Lemma leaves_configure t0 w : leaves t0 w -> keeps (leaves t0) (configure_acl acl_dir the_tpg chap userid password) w.
Proof.
  intros Hw. unfold configure_acl. apply keeps_bind.
  - destruct (if chap then userid else None), password; try by apply keeps_ret.
    apply keeps_bind; [apply leaves_write; [apply its_own_entry|done]|]. intros _ w1 Hw1.
    apply keeps_bind; [apply leaves_write; [apply its_own_entry|done]|]. intros _ w2 Hw2.
    apply leaves_secret; [apply its_own_entry|done].
  - intros _ w1 Hw1. apply keeps_bind; [apply leaves_write; [apply its_own_group|done]|]. intros _ w2 Hw2.
    apply leaves_write; [apply its_own_auth|done].
Qed.

(** ** The whole call *)

Context (w0 : BlockWorld) (Hid : valid_id (tg_id orig)).

(** The other records are as they were. *)
Definition others_kept (w : BlockWorld) : Prop :=
  records_but (T := IscsiTarget) ISCSI_STATE_DIR (tg_id orig) (bw_disk w0) (bw_disk w).

(** How the call may end. *)
Definition acl_outcome (r : result IscsiTarget IscsiError) (w : BlockWorld) : Prop :=
  others_kept w /\
  match r with
  | Ok _ => acl_in_place (bw_tree w) /\ target_at w (tg_id orig) = Some updated
  | Err _ =>
      (acl_absent (bw_tree w) /\ target_at w (tg_id orig) = Some orig) \/ target_down (bw_tree w) \/
      (acl_in_place (bw_tree w) /\ target_at w (tg_id orig) = Some updated)
  end.

Lemma others_same w w' : same_disk w w' -> others_kept w -> others_kept w'.
Proof. intros (Hd & _). unfold others_kept. by rewrite Hd. Qed.

Lemma wp_or_report (m : M BlockWorld IscsiError unit) error what (Q : result unit IscsiError -> BlockWorld -> Prop) w :
  wp m (fun r w' => match r with Ok _ => Q (Ok tt) w' | Err _ => forall e, Q (Err e) w' end) w -> wp (or_report m error what) Q w.
Proof.
  intros Hm. apply wp_bind, wp_attempt. revert Hm. apply wp_mono.
  intros [[]|e] w' Hq; [by apply wp_ret|by apply wp_throw].
Qed.

(** Undoing with the target down. *)
Lemma wp_undo error what w (k : M BlockWorld IscsiError IscsiTarget) :
  target_down (bw_tree w) -> others_kept w -> target_at w (tg_id orig) = Some orig ->
  (forall w', same_disk w w' -> acl_absent (bw_tree w') -> wp k acl_outcome w') ->
  wp (or_report (rollback_new_acl acl_dir the_tpg g0 e0) error what ;;; k) acl_outcome w.
Proof.
  intros Hdown Ho Hst Hk. apply wp_bind, wp_or_report. eapply wp_mono; [|by apply wp_rollback].
  intros [[]|e] w' [Hs Ht]; [by apply Hk|]. intros e'. split; [by apply (others_same w)|by right; left].
Qed.

Lemma outcome_absent (error : IscsiError) w w' :
  others_kept w -> target_at w (tg_id orig) = Some orig -> same_disk w w' -> acl_absent (bw_tree w') ->
  wp (throw error) acl_outcome w'.
Proof.
  intros Ho Hst Hs Ha. apply wp_throw. split; [by apply (others_same w)|]. left. split; [done|].
  destruct Hs as (-> & _). done.
Qed.

(** Putting the old record back. *)
Lemma wp_save_orig error what w (k : M BlockWorld IscsiError IscsiTarget) :
  target_down (bw_tree w) -> others_kept w ->
  (forall w', target_down (bw_tree w') -> others_kept w' -> target_at w' (tg_id orig) = Some orig -> wp k acl_outcome w') ->
  wp (or_report (save_target orig) error what ;;; k) acl_outcome w.
Proof.
  intros Hdown [Hdir Ho] Hk. apply wp_bind, wp_or_report.
  apply (wp_save_rec (T := IscsiTarget) ISCSI_STATE_DIR IsIo orig); [done..| |].
  - intros w' [Hd' Hr'] Hst Hker _. assert (bw_tree w' = bw_tree w) as Ht by (unfold bw_tree; by rewrite Hker).
    apply Hk; [by rewrite Ht| |done]. split; [done|]. intros j Hj Hne. rewrite Hr' by done. by apply Ho.
  - intros e w' [Hd' Hr'] Hker _ e'. assert (bw_tree w' = bw_tree w) as Ht by (unfold bw_tree; by rewrite Hker).
    split; [|right; left; by rewrite Ht]. split; [done|]. intros j Hj Hne. rewrite Hr' by done. by apply Ho.
Qed.

Definition finish_acl : M BlockWorld IscsiError IscsiTarget :=
  let rollback error := or_report (rollback_new_acl acl_dir the_tpg g0 e0) error "; ACL rollback failed with the TPG disabled: " in
  r <- attempt save_lio_config_checked ;;
  match r with
  | Err error =>
      or_report (configfs_write IsConfigFs en "0") error "; failed to disable TPG for rollback: " ;;;
      or_report (save_target orig) error "; failed to restore target state with the TPG disabled: " ;;;
      rollback error ;;;
      or_report save_lio_config_checked error "; failed to persist ACL rollback: " ;;;
      throw error
  | Ok _ => ret (redacted_iscsi updated)
  end.

Lemma wp_finish w :
  others_kept w -> target_at w (tg_id orig) = Some updated -> acl_in_place (bw_tree w) -> wp finish_acl acl_outcome w.
Proof.
  intros Ho Hst Hin. unfold finish_acl. apply wp_bind, wp_attempt, wp_save_lio; [apply Ho|..].
  { intros w1 [Hd1 Hr1] Hk1. apply wp_ret. assert (bw_tree w1 = bw_tree w) as Ht by (unfold bw_tree; by rewrite Hk1).
    split; [split; [done|]; intros j Hj Hne; rewrite Hr1 by done; by apply Ho|]. rewrite Ht, Hr1 by done. done. }
  intros error w1 Hd1 Hk1. assert (bw_tree w1 = bw_tree w) as Ht1 by (unfold bw_tree; by rewrite Hk1).
  assert (others_kept w1 /\ target_at w1 (tg_id orig) = Some updated) as [Ho1 Hst1].
  { unfold others_kept. rewrite Hd1. done. }
  apply wp_bind, wp_or_report, wp_cfg_write.
  - intros _ w2 _ Ht2 Hs2. apply wp_save_orig.
    { unfold target_down. by rewrite Ht2, attr_insert. }
    { by apply (others_same w1). }
    intros w3 Hdown3 Ho3 Hst3. apply wp_undo; [done..|]. intros w4 Hs4 Ha4.
    assert (others_kept w4) as Ho4 by (by apply (others_same w3)).
    apply wp_bind, wp_or_report, wp_save_lio; [apply Ho4|..].
    + intros w5 [Hd5 Hr5] Hk5. apply wp_throw. assert (bw_tree w5 = bw_tree w4) as Ht5 by (unfold bw_tree; by rewrite Hk5).
      split; [split; [done|]; intros j Hj Hne; rewrite Hr5 by done; by apply Ho4|].
      left. rewrite Ht5, Hr5 by done. split; [done|]. destruct Hs4 as (-> & _). done.
    + intros e5 w5 Hd5 Hk5 e6. assert (bw_tree w5 = bw_tree w4) as Ht5 by (unfold bw_tree; by rewrite Hk5).
      split; [unfold others_kept; rewrite Hd5; apply Ho4|]. left. rewrite Ht5, Hd5. split; [done|].
      destruct Hs4 as (-> & _). done.
  - intros e w2 Ht2 Hs2 e'. split; [by apply (others_same w1)|]. right. right. rewrite Ht2, Ht1.
    destruct Hs2 as (-> & _). done.
Qed.

(** From the moment the entry exists and the target is down. *)
Definition build_acl : M BlockWorld IscsiError IscsiTarget :=
  let rollback error := or_report (rollback_new_acl acl_dir the_tpg g0 e0) error "; ACL rollback failed with the TPG disabled: " in
  r <- attempt (configure_acl acl_dir the_tpg chap userid password) ;;
  match r with
  | Err error => rollback error ;;; throw error
  | Ok _ =>
      r <- attempt (save_target updated) ;;
      match r with
      | Err error => rollback error ;;; throw error
      | Ok _ =>
          r <- attempt (configfs_write IsConfigFs en e0) ;;
          match r with
          | Err error =>
              or_report (save_target orig) error "; failed to restore target state with the TPG disabled: " ;;;
              rollback error ;;; throw error
          | Ok _ => finish_acl
          end
      end
  end.

Lemma leaves_build t0 w : leaves t0 w -> keeps (leaves t0) build_acl w.
Proof.
  assert (forall v w1, leaves t0 w1 -> keeps (leaves t0) (configfs_write IsConfigFs en v) w1) as Hen
    by (intros; apply leaves_write; [apply its_own_group|done]).
  intros Hw. unfold build_acl, finish_acl.
  repeat first
    [ progress cbn beta zeta
    | lazymatch goal with
      | |- keeps _ (bind _ _) _ => apply keeps_bind; [|intros]
      | |- keeps _ (attempt _) _ => apply keeps_attempt
      | |- keeps _ (or_report _ _ _) _ => apply leaves_report
      | |- keeps _ (match ?x with _ => _ end) _ => destruct x
      | |- _ => solve [eauto using leaves_configure, leaves_rollback, leaves_save, leaves_lio, keeps_ret]
      end
    | assumption ].
Qed.

Lemma wp_build w :
  others_kept w -> target_at w (tg_id orig) = Some orig -> acl_up_to (bw_tree w) -> wp build_acl acl_outcome w.
Proof.
  intros Ho Hst Hup. unfold build_acl. apply wp_bind, wp_attempt. eapply wp_mono; [|by apply wp_configure].
  intros r w1 (Hs1 & Hd1 & Hr1). assert (others_kept w1) as Ho1 by (by apply (others_same w)).
  assert (target_at w1 (tg_id orig) = Some orig) as Hst1 by (destruct Hs1 as (-> & _); done).
  destruct r as [[]|error]; [|apply wp_undo; [done..|]; intros; by eapply outcome_absent].
  destruct (Hr1 eq_refl) as (Hup1 & Hg1 & Hc1). apply wp_bind, wp_attempt.
  apply (wp_save_rec (T := IscsiTarget) ISCSI_STATE_DIR IsIo updated); [apply Ho1|done|..]; cycle 1.
  { intros e w2 [Hd2 Hr2] Hk2 _. assert (bw_tree w2 = bw_tree w1) as Ht2 by (unfold bw_tree; by rewrite Hk2).
    assert (others_kept w2 /\ target_at w2 (tg_id orig) = Some orig) as [Ho2 Hst2].
    { split; [split; [done|]; intros j Hj Hne; rewrite Hr2 by done; by apply Ho1|by rewrite Hr2]. }
    apply wp_undo; [by rewrite Ht2|done..|]. intros; by eapply outcome_absent. }
  intros w2 [Hd2 Hr2] Hst2 Hk2 _. assert (bw_tree w2 = bw_tree w1) as Ht2 by (unfold bw_tree; by rewrite Hk2).
  assert (others_kept w2) as Ho2 by (split; [done|]; intros j Hj Hne; rewrite Hr2 by done; by apply Ho1).
  destruct paths_apart as (Heg & _ & _ & Hbe & _ & _).
  apply wp_bind, wp_attempt, wp_cfg_write.
  - intros _ w3 _ Ht3 Hs3. apply wp_finish; [by apply (others_same w2)|destruct Hs3 as (-> & _); done|].
    rewrite Ht3, Ht2. unfold acl_in_place. rewrite attr_insert, attr_insert_ne by done. split_and!; [done..| |by apply chap_set_write].
    rewrite lookup_insert_ne; [apply Hup1|]. intros E. rewrite E in Hbe. by rewrite (proj2 (below_spec acl_dir acl_dir)) in Hbe.
  - intros error w3 Ht3 Hs3. apply wp_save_orig; [by rewrite Ht3, Ht2|by apply (others_same w2)|].
    intros w4 Hd4 Ho4 Hst4. apply wp_undo; [done..|]. intros; by eapply outcome_absent.
Qed.

End Entry.

Lemma chap_of_userid userid password chap : chap_enabled userid password = Ok chap -> chap = is_some userid.
Proof. unfold chap_enabled. destruct userid, password; try done; [|naive_solver]. destruct (_ && _); naive_solver. Qed.

(** What the kernel holds before the call: the target is there, with no entry of
    that name. *)
Record acl_ready (t : Tree) (orig : IscsiTarget) (initiator g0 e0 : string) : Prop := mkAclReady {
  ar_gen : attr t (gen orig) = Some g0;
  ar_en : attr t (en orig) = Some e0;
  ar_trim : trim g0 = g0 /\ trim e0 = e0;
  ar_parents : dirs_above t (acl_dir orig initiator);
  ar_absent : t !! acl_dir orig initiator = None
}.

(** From the moment the target is taken down. *)
Lemma wp_take_down w orig initiator userid password g0 e0 w3 :
  in_order w -> valid_id (tg_id orig) -> target_at w (tg_id orig) = Some orig ->
  components initiator = [initiator] -> acl_ready (bw_tree w) orig initiator g0 e0 ->
  bw_tree w3 = bw_tree w -> bw_disk w3 = bw_disk w ->
  wp (configfs_write IsConfigFs (en orig) "0" ;;;
      r <- attempt (configfs_mkdir IsConfigFs (acl_dir orig initiator)) ;;
      match r with
      | Err error => or_report (configfs_write IsConfigFs (en orig) e0) error "; failed to restore TPG enable state: " ;;; throw error
      | Ok _ => build_acl orig initiator userid password (is_some userid) g0 e0
      end) (acl_outcome orig initiator userid password (is_some userid) g0 e0 w) w3.
Proof.
  intros Hd Hid Hst Hname [Hg He _ Hpar Habs] Ht3 Hd3.
  apply wp_bind, wp_cfg_write; [|intros e w' Ht' (Hd' & _); unfold acl_outcome, others_kept, acl_absent; rewrite Hd', Hd3, Ht', Ht3; split; [by split|by left]].
  intros old w4 Hold Ht4 (Hd4 & _).
  destruct (paths_apart orig initiator Hname) as (Heg & _ & _ & Hbe & Hbg & _).
  assert (acl_dir orig initiator <> en orig) as Hae.
  { intros E. rewrite <- E in Hbe. by rewrite (proj2 (below_spec (acl_dir orig initiator) (acl_dir orig initiator))) in Hbe. }
  assert (bw_tree w4 !! acl_dir orig initiator = None) as Habs4 by (by rewrite Ht4, Ht3, lookup_insert_ne).
  assert (dirs_above (bw_tree w4) (acl_dir orig initiator)) as Hpar4.
  { intros m r E Hm Hr. rewrite Ht4, (is_dir_write _ _ _ _ _ Hold), Ht3. by apply (Hpar m r). }
  assert (target_down orig (bw_tree w4)) as Hdown4 by (unfold target_down; by rewrite Ht4, attr_insert).
  apply wp_bind, wp_attempt, wp_cfg_mkdir_parent; [unfold acl_dir, sub; rewrite Hname; by destruct (the_tpg orig)|done..| |].
  - intros w5 Ht5 (Hd5 & _). apply wp_build; [done..| | |].
    + unfold others_kept. rewrite Hd5, Hd4, Hd3. by split.
    + by rewrite Hd5, Hd4, Hd3.
    + split; [|by rewrite Ht5, make_self]. unfold target_down, attr. rewrite Ht5, make_outside by done. exact Hdown4.
  - intros error w5 Ht5 (Hd5 & _). apply wp_bind, wp_or_report, wp_cfg_write.
    + intros _ w6 _ Ht6 (Hd6 & _). apply wp_throw. unfold acl_outcome, others_kept, acl_absent.
      rewrite Hd6, Hd5, Hd4, Hd3, Ht6, Ht5, Ht4, Ht3, attr_insert, !attr_insert_ne, !lookup_insert_ne by done.
      split; [by split|]. by left.
    + intros e w6 Ht6 (Hd6 & _) e'. unfold acl_outcome, others_kept, target_down. rewrite Hd6, Hd5, Hd4, Hd3, Ht6, Ht5.
      split; [by split|]. by right; left.
Qed.

Lemma leaves_take_down orig initiator userid password g0 e0 t0 w :
  components initiator = [initiator] -> dirs_above (bw_tree w) (acl_dir orig initiator) -> bw_tree w !! acl_dir orig initiator = None ->
  rest_kept orig initiator t0 (bw_tree w) ->
  keeps (fun w' => rest_kept orig initiator t0 (bw_tree w'))
    (configfs_write IsConfigFs (en orig) "0" ;;;
     r <- attempt (configfs_mkdir IsConfigFs (acl_dir orig initiator)) ;;
     match r with
     | Err error => or_report (configfs_write IsConfigFs (en orig) e0) error "; failed to restore TPG enable state: " ;;; throw error
     | Ok _ => build_acl orig initiator userid password (is_some userid) g0 e0
     end) w.
Proof.
  intros Hname Hpar Habs Hr. destruct (paths_apart orig initiator Hname) as (_ & _ & _ & Hbe & _ & _).
  apply wp_bind, wp_cfg_write; [|by intros e w' -> _]. intros old w1 Hold Ht1 _.
  assert (rest_kept orig initiator t0 (bw_tree w1)) as Hr1 by (rewrite Ht1; apply rest_write; [apply its_own_group|done]).
  apply wp_bind, wp_attempt, wp_cfg_mkdir_parent.
  - unfold acl_dir, sub. rewrite Hname. by destruct (the_tpg orig).
  - intros m r E Hm Hne. rewrite Ht1, (is_dir_write _ _ _ _ _ Hold). by apply (Hpar m r).
  - rewrite Ht1, lookup_insert_ne; [done|]. intros E. rewrite E in Hbe. by rewrite (proj2 (below_spec (acl_dir orig initiator) (acl_dir orig initiator))) in Hbe.
  - intros w2 Ht2 _. apply leaves_build. rewrite Ht2. intros q Hb. rewrite make_outside by done. by apply Hr1.
  - intros e w2 Ht2 _. rewrite <- Ht2 in Hr1. apply keeps_bind; [|done].
    by apply leaves_report, leaves_write; [apply its_own_group|].
Qed.

Lemma wp_add_acl `{!ConfigFsLaws} w orig initiator userid password g0 e0 :
  in_order w -> valid_id (tg_id orig) -> target_at w (tg_id orig) = Some orig ->
  components initiator = [initiator] -> acl_ready (bw_tree w) orig initiator g0 e0 ->
  wp (add_acl (tg_id orig) initiator userid password)
    (fun r w' => acl_outcome orig initiator userid password (is_some userid) g0 e0 w r w' /\ rest_kept orig initiator (bw_tree w) (bw_tree w')) w.
Proof.
  intros Hd Hid Hst Hname [Hg He [Htg Hte] Hpar Habs].
  assert (forall (error : IscsiError) w', bw_disk w' = bw_disk w -> bw_tree w' = bw_tree w ->
            acl_outcome orig initiator userid password (is_some userid) g0 e0 w (Err error) w' /\ rest_kept orig initiator (bw_tree w) (bw_tree w')) as Hsame.
  { intros error w' Hd' Ht'. unfold acl_outcome, others_kept, acl_absent. rewrite Hd', Ht'.
    split; [split; [by split|by left]|]. by left. }
  unfold add_acl. apply wp_bind, wp_lift. destruct (chap_enabled userid password) as [chap|] eqn:Hc; [|by apply Hsame].
  apply chap_of_userid in Hc as ->.
  apply wp_bind, wp_find_target; [done..| |intros e w' Hd' Hk'; apply Hsame; unfold bw_tree; by rewrite ?Hk'].
  intros t w1 Ht _ Hd1 Hk1. rewrite Hst in Ht. injection Ht as <-.
  assert (bw_tree w1 = bw_tree w) as Ht1 by (unfold bw_tree; by rewrite Hk1).
  apply wp_bind, wp_throw_if; [intros _; by apply Hsame|]. intros _.
  fold (the_tpg orig). fold (gen orig) (en orig) (acl_dir orig initiator).
  apply wp_bind, wp_kcall, wp_read; [|intros e k Hk; by apply Hsame; [|rewrite <- Ht1]].
  intros v k2 Hv Hk2. cbn [map_err]. apply attr_Some in Hv. fold (bw_tree w1) in Hv. rewrite Ht1, Hg in Hv. injection Hv as <-.
  apply wp_bind, wp_kcall, wp_read; [|intros e k Hk; apply Hsame; [done|]; rewrite <- Ht1; unfold bw_tree in *; cbn in *; congruence].
  intros v k3 Hv Hk3. cbn [map_err]. apply attr_Some in Hv.
  change (attr (k_tree k2) (en orig) = Some v) in Hv. rewrite Hk2 in Hv. fold (bw_tree w1) in Hv.
  rewrite Ht1, He in Hv. injection Hv as <-. rewrite !attr_text_trim, Htg, Hte.
  assert (bw_tree (set_kernel k3 (set_kernel k2 w1)) = bw_tree w) as Ht3 by (unfold bw_tree in *; cbn in *; congruence).
  apply wp_and; [by apply (wp_take_down w orig initiator userid password)|].
  apply (leaves_take_down orig initiator userid password g0 e0); [done|by rewrite Ht3|by rewrite Ht3|]. rewrite Ht3. by left.
Qed.

(** C12: Access lists are never half open. For a recorded target and a plain initiator name with no entry yet in the
    kernel, and however often the
    kernel, the disk or targetcli fail, [add_acl] leaves the other targets' records alone and ends in one of three ways: the
    entry exists in the kernel with its credentials, is recorded, and the target's enable flag is as it was, with unlisted
    initiators refused; or there is no entry, the enable flag and generate_node_acls are as before and so is the record; or
    the target is down. Success means the first. In the kernel's tree nothing else changes, except that the
    authentication of the target's portal group may be left switched off: the rollback does not restore it. *)
Theorem acl_changes_fail_closed `{!ConfigFsLaws} w orig initiator userid password g0 e0 :
  in_order w -> valid_id (tg_id orig) -> target_at w (tg_id orig) = Some orig ->
  components initiator = [initiator] -> acl_ready (bw_tree w) orig initiator g0 e0 ->
  let out := add_acl (tg_id orig) initiator userid password w in
  acl_outcome orig initiator userid password (is_some userid) g0 e0 w out.1 out.2 /\
  rest_kept orig initiator (bw_tree w) (bw_tree out.2).
Proof. intros. by apply wp_add_acl. Qed.

End Rules.
