(* ===== verification/IscsiRemap.v ===== *)
(** * The kernel's saved configuration

    targetcli restores what saveconfig.json lists. [patch_saveconfig_value]
    accepts a file only if it lists exactly the backstores and targets the
    engine has records of, each once, and hands it back with every backstore on
    the device it was given.

    ** iSCSI exports find their own volumes

    Loop devices get new numbers at every start. [remap_device_paths] gives each
    LUN the device of the volume it was made for and writes the same devices
    into saveconfig.json; only if that worked for every LUN of every target
    does it allow the kernel to restore the exports. *)
From Stdlib Require Import String Ascii ZArith.
From stdpp Require Import base list gmap strings numbers.
From S2P Require Import Prelude RustStr Disk StateStore Records JsonRpc Rest FirewallRules Backup ConfigFs BlockWorld Iscsi IscsiService IscsiAcl.

Open Scope string_scope.
Open Scope rust_scope.

Definition object_dev (o : Json) : option string := json_get o "dev" ≫= as_str.
Definition target_wwn (o : Json) : option string := json_get o "wwn" ≫= as_str.

(** The file lists the backstores of [b], each once and on its device, and the
    targets of [ts], each once. *)
Definition saved_ok (json : Json) (b : gmap string string) (ts : gset string) : Prop :=
  exists objs saved wwns,
    json_get json "storage_objects" ≫= as_array = Some objs /\ json_get json "targets" ≫= as_array = Some saved /\
    NoDup (object_name <$> objs) /\ (forall n, n ∈ object_name <$> objs <-> is_Some (b !! n)) /\
    (forall o, o ∈ objs -> object_dev o = b !! object_name o) /\
    target_wwn <$> saved = Some <$> wwns /\ NoDup wwns /\ (forall n, n ∈ wwns <-> n ∈ ts).

(** ** Fields of an object *)

Lemma find_json_insert k v fields : List.find (fun f => f.1 =s k) (json_insert k v fields) = Some (k, v).
Proof.
  induction fields as [|[k' v'] rest IH]; cbn; [by rewrite eqb_refl|].
  destruct (k' =s k) eqn:E; cbn; [by rewrite eqb_refl|]. by rewrite E.
Qed.

Lemma find_json_insert_ne k k' v fields :
  k <> k' -> List.find (fun f => f.1 =s k') (json_insert k v fields) = List.find (fun f => f.1 =s k') fields.
Proof.
  intros Hne. induction fields as [|[a x] rest IH]; cbn.
  - by rewrite (proj2 (eqb_neq_spec k k')).
  - destruct (a =s k) eqn:E; cbn; [apply eqb_spec in E as ->; by rewrite (proj2 (eqb_neq_spec k k'))|].
    by rewrite IH.
Qed.

Lemma json_insert_same k v k' fields :
  List.find (fun f => f.1 =s k) fields = Some (k', v) -> json_insert k v fields = fields.
Proof.
  induction fields as [|[a x] rest IH]; cbn; [done|]. destruct (a =s k) eqn:E.
  - intros [= -> ->]. by apply eqb_spec in E as ->.
  - intros Hf. by rewrite IH.
Qed.

Lemma json_get_set k v w : is_some (json_get w k) = true -> json_get (json_set k v w) k = Some v.
Proof. destruct w; try done. intros _. cbn. by rewrite find_json_insert. Qed.

Lemma json_get_set_ne k k' v w : k <> k' -> json_get (json_set k v w) k' = json_get w k'.
Proof. intros Hne. destruct w; try done. cbn. by rewrite find_json_insert_ne. Qed.

Lemma json_set_same k v w : json_get w k = Some v -> json_set k v w = w.
Proof.
  destruct w as [| | | | | |fields]; try done. cbn. destruct (List.find _ fields) as [[k' v']|] eqn:E; [|done].
  intros [= ->]. f_equal. by eapply json_insert_same.
Qed.

Lemma get_array v k l : json_get v k ≫= as_array = Some l -> json_get v k = Some (JArray l).
Proof. destruct (json_get v k) as [[]|]; cbn; naive_solver. Qed.

(** ** Counting *)

Definition occ (n : string) (l : list string) : nat := length (List.filter (fun m => m =s n) l).

Lemma occ_zero n l : occ n l = 0 <-> n ∉ l.
Proof.
  unfold occ. induction l as [|m l IH]; cbn; [split; [intros _ H%not_elem_of_nil|]; done|].
  destruct (m =s n) eqn:E; cbn; rewrite not_elem_of_cons.
  - apply eqb_spec in E as ->. naive_solver.
  - apply eqb_neq_spec in E. rewrite IH. naive_solver.
Qed.

Lemma occ_cons n m l : occ n (m :: l) = (if m =s n then 1 else 0) + occ n l.
Proof. unfold occ. cbn. by destruct (m =s n). Qed.

Lemma once_NoDup l : (forall n, n ∈ l -> occ n l = 1) -> NoDup l.
Proof.
  induction l as [|m l IH]; intros Hl; [constructor|].
  assert (m ∉ l) as Hm.
  { apply occ_zero. pose proof (Hl m ltac:(by left)) as H1. rewrite occ_cons, eqb_refl in H1. lia. }
  apply list.NoDup_cons. split; [done|]. apply IH. intros n Hn. pose proof (Hl n ltac:(by right)) as H1.
  rewrite occ_cons in H1. destruct (m =s n) eqn:E; [apply eqb_spec in E as ->; done|]. done.
Qed.

Lemma once_spec names matched f g :
  once names matched f g = Ok tt -> forall n, n ∈ names -> count n matched = 1.
Proof.
  unfold once. destruct (List.find _ names) as [m|] eqn:E; [done|]. intros _ n Hn.
  apply list_elem_of_In, (List.find_none _ _ E) in Hn. by apply negb_false_iff, Nat.eqb_eq in Hn.
Qed.

Lemma count_insert n k m : count n (<[k := S (count k m)]> m) = (if k =s n then 1 else 0) + count n m.
Proof.
  unfold count. destruct (k =s n) eqn:E.
  - apply eqb_spec in E as ->. by rewrite lookup_insert_eq.
  - apply eqb_neq_spec in E. by rewrite lookup_insert_ne.
Qed.

(** ** The storage objects *)

(** The names of the objects that have a device. *)
Definition dev_names (objs : list Json) : list string :=
  omap (fun o => match object_dev o with Some _ => Some (object_name o) | None => None end) objs.

Lemma dev_names_cons o objs :
  dev_names (o :: objs) = (match object_dev o with Some _ => [object_name o] | None => [] end ++ dev_names objs)%list.
Proof. unfold dev_names. cbn. by destruct (object_dev o). Qed.

Lemma dev_names_all objs :
  length (dev_names objs) = length objs ->
  dev_names objs = object_name <$> objs /\ forall o, o ∈ objs -> object_dev o <> None.
Proof.
  unfold dev_names. induction objs as [|o objs IH]; cbn; [split; [done|]; by intros o ?%not_elem_of_nil|].
  fold (dev_names objs) in *.
  assert (length (dev_names objs) <= length objs) as Hle.
  { clear. unfold dev_names. induction objs as [|o objs IH]; cbn; [done|]. destruct (object_dev o); cbn; lia. }
  destruct (object_dev o) eqn:Hd; cbn in *; intros Hl; [|lia]. destruct IH as [-> Hall]; [lia|]. split; [done|].
  intros x [-> |Hx]%elem_of_cons; [by rewrite Hd|auto].
Qed.

Lemma patched_object new_dev (o : Json) dev :
  object_dev o = Some dev ->
  object_dev (if dev =s new_dev then o else json_set "dev" (JString new_dev) o) = Some new_dev /\
  object_name (if dev =s new_dev then o else json_set "dev" (JString new_dev) o) = object_name o.
Proof.
  unfold object_dev, object_name. intros Hd. destruct (dev =s new_dev) eqn:E.
  - apply eqb_spec in E as ->. done.
  - rewrite json_get_set, json_get_set_ne; [done|done|]. by destruct (json_get o "dev").
Qed.

Lemma patch_objects_spec b objs matched objs' changed m :
  patch_objects b objs matched = Ok (objs', changed, m) ->
  object_name <$> objs' = object_name <$> objs /\ dev_names objs' = dev_names objs /\
  (forall o, o ∈ objs' -> is_Some (b !! object_name o)) /\
  (forall o, o ∈ objs' -> object_dev o <> None -> object_dev o = b !! object_name o) /\
  (forall n, count n m = occ n (dev_names objs) + count n matched) /\ (changed = false -> objs' = objs).
Proof.
  revert matched objs' changed m. induction objs as [|o objs IH]; intros matched objs' changed m; cbn [patch_objects].
  { intros [= <- <- <-]. split_and!; try done; intros o Ho%not_elem_of_nil; done. }
  destruct (b !! object_name o) as [new_dev|] eqn:Hb; [|done]. fold (object_dev o).
  assert (forall (o' : Json) (ch : bool) matched',
    object_name o' = object_name o -> (object_dev o' <> None -> object_dev o' = Some new_dev) ->
    (object_dev o' = None <-> object_dev o = None) -> (ch = false -> o' = o) ->
    (forall n, count n matched' = occ n (dev_names [o]) + count n matched) ->
    match patch_objects b objs matched' with
    | Ok (rest', ch', m) => Ok (o' :: rest', ch || ch', m)
    | Err e => Err e
    end = Ok (objs', changed, m) ->
    object_name <$> objs' = object_name <$> o :: objs /\ dev_names objs' = dev_names (o :: objs) /\
    (forall o, o ∈ objs' -> is_Some (b !! object_name o)) /\
    (forall o, o ∈ objs' -> object_dev o <> None -> object_dev o = b !! object_name o) /\
    (forall n, count n m = occ n (dev_names (o :: objs)) + count n matched) /\ (changed = false -> objs' = o :: objs)) as Hgo.
  { intros o' ch matched' Hn Hdev Hnone Hch Hc. destruct (patch_objects b objs matched') as [[[rest' ch'] m']|] eqn:E; [|done].
    intros [= <- <- <-]. apply IH in E as (Hnames & Hdn & Hin & Hdevs & Hcnt & Hsame).
    assert (dev_names (o' :: rest') = dev_names (o :: objs)) as Hdn'.
    { rewrite !dev_names_cons, Hdn, Hn. destruct (object_dev o'), (object_dev o); naive_solver. }
    split_and!; try done.
    - cbn. by rewrite Hn, Hnames.
    - intros x [-> |Hx]%elem_of_cons; [by rewrite Hn, Hb|by apply Hin].
    - intros x [-> |Hx]%elem_of_cons; [intros; rewrite Hn, Hb; auto|by apply Hdevs].
    - intros n. rewrite Hcnt, Hc, !dev_names_cons. destruct (object_dev o); cbn [app]; rewrite ?occ_cons; cbn; lia.
    - intros [-> ->]%orb_false_iff. by rewrite Hch, Hsame. }
  destruct (object_dev o) as [dev|] eqn:Hd.
  - destruct (patched_object new_dev o dev Hd) as [Hp Hn]. apply Hgo; [done|by rewrite Hp|by rewrite Hp| |].
    + intros E%negb_false_iff. by rewrite E.
    + intros n. rewrite count_insert, dev_names_cons, Hd. cbn [app]. rewrite occ_cons. cbn. lia.
  - apply Hgo; [done|by rewrite Hd|done..|]. intros n. by rewrite dev_names_cons, Hd.
Qed.

Lemma match_targets_spec ts saved matched m :
  match_targets ts saved matched = Ok m ->
  exists wwns, target_wwn <$> saved = Some <$> wwns /\ (forall n, n ∈ wwns -> n ∈ ts) /\
    forall n, count n m = occ n wwns + count n matched.
Proof.
  revert matched. induction saved as [|o saved IH]; intros matched; cbn [match_targets].
  { intros [= <-]. exists []. split_and!; try done. by intros n ?%not_elem_of_nil. }
  fold (target_wwn o). destruct (target_wwn o) as [wwn|] eqn:Hw; [|done].
  destruct (bool_decide (wwn ∈ ts)) eqn:Hts; [|done]. apply bool_decide_eq_true in Hts.
  intros (wwns & Hmap & Hin & Hcnt)%IH. exists (wwn :: wwns). split_and!.
  - cbn. by rewrite Hw, Hmap.
  - intros n [->|?]%elem_of_cons; auto.
  - intros n. rewrite Hcnt, count_insert, occ_cons. lia.
Qed.

Lemma count_empty n : count n ∅ = 0.
Proof. unfold count. by rewrite lookup_empty. Qed.

(** An accepted file lists what it must; unchanged means it did already. *)
Lemma patched_saveconfig json b ts json' changed :
  patch_saveconfig_value json b ts = Ok (json', changed) ->
  saved_ok json' b ts /\ (changed = false -> json' = json).
Proof.
  unfold patch_saveconfig_value. destruct (json_get json "storage_objects" ≫= as_array) as [objs|] eqn:Hobjs; [|done].
  apply get_array in Hobjs. destruct (patch_objects b objs ∅) as [[[objs' ch] m]|] eqn:Hp; [|done].
  apply patch_objects_spec in Hp as (Hnames & Hdn & Hin & Hdevs & Hcnt & Hsame).
  destruct (negb _) eqn:Hlen; [done|]. apply negb_false_iff, Nat.eqb_eq in Hlen.
  destruct (once (map_to_list b).*1 m _ _) as [[]|] eqn:Honce; [|done].
  destruct (json_get _ "targets" ≫= as_array) as [saved|] eqn:Hsaved; [|done].
  destruct (match_targets ts saved ∅) as [mt|] eqn:Hmt; [|done].
  destruct (once (elements ts) mt _ _) as [[]|] eqn:Ht; [|done]. intros [= <- <-].
  apply match_targets_spec in Hmt as (wwns & Hmap & Hwin & Hwcnt).
  assert (forall n, is_Some (b !! n) -> occ n (dev_names objs) = 1) as Hocc.
  { intros n [x Hx]. rewrite <- (once_spec _ _ _ _ Honce n), Hcnt, count_empty; [lia|].
    apply list_elem_of_fmap. exists (n, x). by rewrite elem_of_map_to_list. }
  assert (forall n, n ∈ dev_names objs -> is_Some (b !! n)) as Hdom.
  { intros n Hn. rewrite <- Hdn in Hn. apply list_elem_of_omap in Hn as (o & Ho & Hn). destruct (object_dev o); [|done].
    injection Hn as <-. by apply Hin. }
  assert (NoDup (dev_names objs)) as Hnd by (apply once_NoDup; auto).
  assert (forall n, is_Some (b !! n) -> n ∈ dev_names objs) as Hback.
  { intros n Hn. apply Hocc in Hn. destruct (decide (n ∈ dev_names objs)) as [|Hno%occ_zero]; [done|lia]. }
  assert (length (dev_names objs') = length objs') as Hl.
  { rewrite Hdn, <- (length_fmap object_name objs'), Hnames, length_fmap, Hlen, <- size_dom.
    rewrite <- (size_list_to_set (C := gset string) _ Hnd). f_equal. apply set_eq.
    intros n. rewrite elem_of_list_to_set, elem_of_dom. split; auto. }
  apply dev_names_all in Hl as [Hall Hsome]. split.
  - exists objs', saved, wwns. rewrite json_get_set by (by rewrite Hobjs). rewrite <- Hall, Hdn.
    split_and!; try done; [intros n; split; auto|auto|..].
    + apply once_NoDup. intros n Hn. rewrite <- (once_spec _ _ _ _ Ht n), Hwcnt, count_empty; [lia|].
      apply elem_of_elements, Hwin, Hn.
    + intros n. split; [apply Hwin|]. intros Hn%elem_of_elements. apply (once_spec _ _ _ _ Ht) in Hn.
      rewrite Hwcnt, count_empty in Hn. destruct (decide (n ∈ wwns)) as [|Hno%occ_zero]; [done|lia].
  - intros ->. rewrite Hsame by done. by apply json_set_same.
Qed.

(** ** LUNs *)

(** A managed LUN is on the device its volume has now. *)
Definition resolved (m : BlockDeviceMappings) (l : Lun) : Prop :=
  is_managed_lun l = true ->
  lu_backing_volume_unresolved l = false /\
  exists v, lu_backing_volume l = Some v /\ bm_current m !! v = Some (lu_backstore_path l).

Lemma resolve_lun_same path v b l :
  path = lu_backstore_path l -> v = lu_backing_volume l -> b = lu_backing_volume_unresolved l -> resolve_lun path v b l = l.
Proof. destruct l. cbn. by intros -> -> ->. Qed.

Lemma remap_lun_spec m l :
  let '(l', changed, safe, _) := remap_lun m l in
  (safe = true -> resolved m l') /\ (changed = false -> l' = l) /\ lu_backstore_name l' = lu_backstore_name l.
Proof.
  unfold remap_lun. destruct (is_managed_lun l) eqn:Hm; cbn [negb].
  2: { split_and!; try done. intros _ Hm'. congruence. }
  set (identity := match lu_backing_volume l with Some v => Some v | None => _ end).
  destruct identity as [v|] eqn:Hi; cbn [mbind option_bind].
  2: { split_and!; try done. intros Hu%negb_false_iff. by apply resolve_lun_same. }
  destruct (bm_current m !! v) as [path|] eqn:Hc.
  2: { split_and!; try done. intros Hu%negb_false_iff. by apply resolve_lun_same. }
  split_and!; try done.
  - intros _ _. split; [done|]. by exists v.
  - intros [[Hv%negb_false_iff Hp%negb_false_iff]%orb_false_iff Hu]%orb_false_iff.
    apply bool_decide_eq_true in Hv. apply eqb_spec in Hp. by apply resolve_lun_same.
Qed.

Lemma remap_target_spec m t :
  let '(t', changed, safe, _) := remap_target m t in
  tg_id t' = tg_id t /\ tg_iqn t' = tg_iqn t /\
  (safe = true -> forall l, l ∈ tg_luns t' -> resolved m l) /\ (changed = false -> t' = t).
Proof.
  cbn. split_and!; try done.
  - intros Hs l (r & -> & Hr)%list_elem_of_fmap. pose proof (proj1 (forallb_forall _ _) Hs r) as Hsafe.
    rewrite <- list_elem_of_In in Hsafe. specialize (Hsafe Hr). apply list_elem_of_fmap in Hr as (l0 & -> & _).
    pose proof (remap_lun_spec m l0) as Hl. destruct (remap_lun m l0) as [[[l' ch] sf] ps]. cbn in *. by apply Hl.
  - intros Hc. destruct t as [id iqn al ps luns acls en]. unfold set_luns_of. cbn in *. f_equal.
    induction luns as [|l luns IH]; [done|]. cbn in *. apply orb_false_iff in Hc as [Hl Hc]. rewrite IH by done. f_equal.
    pose proof (remap_lun_spec m l) as Hs. destruct (remap_lun m l) as [[[l' ch] sf] q]. cbn in *. by apply Hs.
Qed.

(** ** Patches *)

(** Patches that agree: nothing is lost, each listed name has its path, and no
    other name appears. *)
Lemma insert_patches_spec ps st patches :
  insert_patches ps st = (patches, true) ->
  st.2 = true /\ st.1 ⊆ patches /\ (forall n x, (n, x) ∈ ps -> patches !! n = Some x) /\
  (forall n, is_Some (patches !! n) -> is_Some (st.1 !! n) \/ n ∈ ps.*1).
Proof.
  revert st. induction ps as [|[n x] ps IH]; intros [p0 s0]; cbn.
  { intros [= -> ->]. split_and!; try done; [by intros n x ?%not_elem_of_nil|auto]. }
  intros (Hs & Hsub & Hin & Hdom)%IH. destruct (p0 !! n) as [q|] eqn:Hn; cbn in *.
  - apply andb_prop in Hs as [-> Hq%eqb_spec]. subst q. split_and!; try done.
    + intros n' x' [[= -> ->]|]%elem_of_cons; [|auto]. by eapply lookup_weaken.
    + intros n' [?|?]%Hdom; [auto|]. right. by right.
  - split_and!; try done.
    + etrans; [by apply insert_subseteq|exact Hsub].
    + intros n' x' [[= -> ->]|]%elem_of_cons; [|auto]. eapply lookup_weaken; [|exact Hsub]. apply lookup_insert_eq.
    + intros n' [Hn'|?]%Hdom; [|right; by right]. apply lookup_insert_is_Some in Hn' as [->|[_ ?]]; [right; by left|auto].
Qed.

Lemma remap_names m t t' c s ps n x :
  remap_target m t = (t', c, s, ps) -> (n, x) ∈ ps -> exists l, l ∈ tg_luns t' /\ lu_backstore_name l = n.
Proof.
  unfold remap_target. intros [= <- _ _ <-] Hin. cbn.
  apply list_elem_of_In, in_flat_map in Hin as (r & Hr & Hx). apply list_elem_of_In in Hr.
  exists r.1.1.1. split; [by apply (list_elem_of_fmap_2 (fun r => r.1.1.1))|].
  apply list_elem_of_fmap in Hr as (l & -> & _). revert Hx. unfold remap_lun.
  destruct (negb _); [done|]. destruct (match lu_backing_volume l with Some v => _ | None => _ end) as [v|]; cbn;
    [destruct (bm_current m !! v)|]; cbn; intros [[= <- _]|[]]; done.
Qed.

(** The backstores of some targets, by name. *)
Definition exports (ts : list IscsiTarget) (patches : gmap string string) : Prop :=
  (forall t l, t ∈ ts -> l ∈ tg_luns t -> patches !! lu_backstore_name l = Some (lu_backstore_path l)) /\
  (forall n, is_Some (patches !! n) -> exists t l, t ∈ ts /\ l ∈ tg_luns t /\ lu_backstore_name l = n).

Section Remap.
Context `{ConfigFs} `{Vault} `{IpParser} `{!Codec IscsiTarget} `{!CodecLaws IscsiTarget} `{!Codec Json} `{!CodecLaws Json}.
Implicit Types (w : BlockWorld) (m : BlockDeviceMappings).

Abbreviation target_at w id := (stored (T := IscsiTarget) ISCSI_STATE_DIR (bw_disk w) id).
Abbreviation in_order w := (dir_ok (T := IscsiTarget) ISCSI_STATE_DIR (bw_disk w)).

(** saveconfig.json is a regular file if it is there. *)
Definition config_plain w : Prop := forall f, bw_disk w !! SAVECONFIG = Some f -> is_regular f = true.

Lemma save_target_config t w :
  in_order w -> valid_id (tg_id t) -> config_plain w -> wp (save_target t) (fun _ w' => config_plain w') w.
Proof.
  intros Hd Hv Hc. apply wp_disk_call. pose proof Hv as [Hs _].
  destruct (save_spec (next_plan w) ISCSI_STATE_DIR (tg_id t) t (bw_disk w) Hs) as (Hoth & _).
  { rewrite tmp_path_eq by done. apply (dir_plain _ _ Hd). }
  unfold wp, config_plain. cbn. rewrite Hoth; [exact Hc|rewrite item_path_eq by done; done|rewrite tmp_path_eq by done; done].
Qed.

(** What the loop leaves: the records it was given, each in its new form if
    restoring is still safe. *)
Definition remapped m (ts : list IscsiTarget) w (out : list IscsiTarget * (gmap string string * bool) * bool)
    (p0 : gmap string string) w' : Prop :=
  let '(ts', (patches, safe), _) := out in
  in_order w' /\ config_plain w' /\ tg_id <$> ts' = tg_id <$> ts /\
  (forall i, valid_id i -> i ∉ tg_id <$> ts -> target_at w' i = target_at w i) /\
  (safe = true ->
     p0 ⊆ patches /\ (forall t, t ∈ ts' -> target_at w' (tg_id t) = Some t /\ forall l, l ∈ tg_luns t -> resolved m l) /\
     (forall t l, t ∈ ts' -> l ∈ tg_luns t -> patches !! lu_backstore_name l = Some (lu_backstore_path l)) /\
     (forall n, is_Some (patches !! n) -> is_Some (p0 !! n) \/ exists t l, t ∈ ts' /\ l ∈ tg_luns t /\ lu_backstore_name l = n)).

(** A target is saved if it changed. *)
Lemma wp_persist (t' : IscsiTarget) (changed : bool) w :
  in_order w -> valid_id (tg_id t') -> config_plain w -> (changed = false -> target_at w (tg_id t') = Some t') ->
  wp (E := IscsiError) (if changed then attempt (save_target t') else ret (Ok tt))
    (fun r w1 => exists x, r = Ok x /\ in_order w1 /\ config_plain w1 /\
       (forall i, valid_id i -> i <> tg_id t' -> target_at w1 i = target_at w i) /\
       (is_ok x = true -> target_at w1 (tg_id t') = Some t')) w.
Proof.
  intros Hd Hv Hc Hst. destruct changed; [|apply wp_ret; exists (Ok tt); split_and!; try done; intros _; by apply Hst].
  apply wp_attempt. eapply wp_mono; [|apply wp_and; [by apply (save_target_config t')|]].
  { intros r w1 [Hp Hrest]. exact (ex_intro _ r (conj eq_refl (conj (proj1 Hrest) (conj Hp (proj2 Hrest))))). }
  apply (wp_save_rec (T := IscsiTarget) ISCSI_STATE_DIR IsIo t'); [done..| |].
  - intros w1 [Hd1 Hr1] Hst1 _ _. by split_and!.
  - intros e w1 [Hd1 Hr1] _ _. split_and!; [done| |done]. intros i Hi _. by apply Hr1.
Qed.

(** The patches of one target. *)
Lemma target_patches_spec m t t' changed target_safe ps (persisted : bool) st st3 :
  remap_target m t = (t', changed, target_safe, ps) ->
  insert_patches ((fun l => (lu_backstore_name l,
      if persisted || negb (is_managed_lun l) then lu_backstore_path l else UNRESOLVED_BACKSTORE)) <$> tg_luns t')
    (insert_patches (if persisted then ps else []) (st.1, st.2 && persisted && target_safe)) = (st3, true) ->
  st.2 = true /\ persisted = true /\ target_safe = true /\ st.1 ⊆ st3 /\
  (forall l, l ∈ tg_luns t' -> st3 !! lu_backstore_name l = Some (lu_backstore_path l)) /\
  (forall n, is_Some (st3 !! n) -> is_Some (st.1 !! n) \/ exists l, l ∈ tg_luns t' /\ lu_backstore_name l = n).
Proof.
  intros Hr (Hs2 & Hsub2 & Hin2 & Hdom2)%insert_patches_spec.
  destruct (insert_patches (if persisted then ps else []) _) as [st2 s2] eqn:E. cbn in Hs2, Hsub2, Hdom2. subst s2.
  apply insert_patches_spec in E as (Hs1 & Hsub1 & _ & Hdom1). cbn in *.
  apply andb_prop in Hs1 as [[-> ->]%andb_prop ->]. split_and!; try done; [by etrans|..].
  - intros l Hl. apply Hin2. apply list_elem_of_fmap. by exists l.
  - intros n [Hn|Hn]%Hdom2.
    + apply Hdom1 in Hn as [|([n' x] & -> & Hn)%list_elem_of_fmap]; [auto|]. right. by apply (remap_names m t t' changed true ps n' x).
    + right. rewrite <- list_fmap_compose in Hn. apply list_elem_of_fmap in Hn as (l & -> & Hl). by exists l.
Qed.

Lemma wp_remap_targets m ts st any w :
  in_order w -> config_plain w -> NoDup (tg_id <$> ts) ->
  (forall t, t ∈ ts -> valid_id (tg_id t) /\ target_at w (tg_id t) = Some t) ->
  wp (remap_targets m ts st any)
    (fun r w' => exists out, r = Ok out /\ (out.1.2.2 = true -> st.2 = true) /\ remapped m ts w out st.1 w') w.
Proof.
  revert st any w. induction ts as [|t ts IH]; intros st any w Hd Hc Hn Hall; cbn [remap_targets].
  { apply wp_ret. exists ([], st, any). split; [done|]. split; [done|]. destruct st as [p0 s0].
    split_and!; try done. intros _. split_and!; try done; [by intros t ?%not_elem_of_nil|by intros t l ?%not_elem_of_nil|auto]. }
  apply list.NoDup_cons in Hn as [Hnt Hn]. destruct (Hall t ltac:(by left)) as [Hv Hst].
  destruct (remap_target m t) as [[[t' changed] target_safe] ps] eqn:Hr.
  pose proof (remap_target_spec m t) as Hsp. rewrite Hr in Hsp. destruct Hsp as (Hid & _ & Hres & Hch).
  apply wp_bind. eapply wp_mono; [|apply wp_persist; [done|by rewrite Hid|done|]]; [|by intros ->%Hch].
  intros r w1 (x & -> & Hd1 & Hc1 & Hoth1 & Hst1). cbn zeta. set (persisted := is_ok x) in *.
  set (st3 := insert_patches _ (insert_patches _ _)).
  apply wp_bind. eapply wp_mono; [|apply (IH st3); [done..|]]; cycle 1.
  { intros t1 Ht1. destruct (Hall t1 ltac:(by right)) as [Hv1 Hst1']. split; [done|]. rewrite Hoth1; [done..|].
    rewrite Hid. intros E. apply Hnt. rewrite <- E. by apply (list_elem_of_fmap_2 tg_id). }
  intros r w2 (out & -> & Hsafe & Hrem). destruct out as [[ts' [patches safe]] any']. cbn in Hsafe, Hrem.
  destruct Hrem as (Hd2 & Hc2 & Hids & Hoth2 & Hrest). apply wp_ret. eexists. split; [done|]. cbn.
  assert (safe = true -> st.2 = true /\ persisted = true /\ target_safe = true /\ st.1 ⊆ st3.1 /\
    (forall l, l ∈ tg_luns t' -> st3.1 !! lu_backstore_name l = Some (lu_backstore_path l)) /\
    (forall n, is_Some (st3.1 !! n) -> is_Some (st.1 !! n) \/ exists l, l ∈ tg_luns t' /\ lu_backstore_name l = n)) as Hst3.
  { intros Hs. apply (target_patches_spec m t t' changed target_safe ps persisted st st3.1 Hr).
    fold st3. rewrite (surjective_pairing st3) at 1. by rewrite Hsafe. }
  split; [intros Hs; by apply Hst3|]. split_and!; [done|done|by rewrite Hids, Hid| |].
  - intros i Hi [Hit Hits]%not_elem_of_cons. rewrite Hoth2, Hoth1 by (congruence || done). done.
  - intros Hs. destruct (Hst3 Hs) as (_ & Hper & Hts & Hsub3 & Hin3 & Hdom3). destruct (Hrest Hs) as (Hsub & Hrec & Hin & Hdom).
    split_and!.
    + by etrans.
    + intros t1 [-> |Ht1]%elem_of_cons; [|by apply Hrec]. split; [|by apply Hres].
      rewrite Hoth2; [by apply Hst1|by rewrite Hid|by rewrite Hid].
    + intros t1 l [-> |Ht1]%elem_of_cons Hl; [|by apply (Hin t1)]. eapply lookup_weaken; [by apply Hin3|done].
    + intros n [Hn3|(t1 & l & Ht1 & Hl & <-)]%Hdom; [|right; exists t1, l; split_and!; [by right|done..]].
      apply Hdom3 in Hn3 as [|(l & Hl & <-)]; [auto|]. right. exists t', l. split_and!; [by left|done..].
Qed.

(** ** The saved configuration *)

(** What saveconfig.json decodes to, if it is there. *)
Definition saved_config w : option (result Json string) := (fun f => decode (f_content f)) <$> bw_disk w !! SAVECONFIG.

Lemma read_config F w :
  config_plain w ->
  (read_to_string F SAVECONFIG (bw_disk w)).1 =
  match fault F OpRead SAVECONFIG with
  | Some e => Err e
  | None => match bw_disk w !! SAVECONFIG with Some f => Ok (f_content f) | None => Err NotFound end
  end.
Proof.
  intros Hc. unfold read_to_string, bind, check, gets, lift, throw, ret. destruct (fault F OpRead SAVECONFIG); [done|].
  cbn -[resolve SAVECONFIG]. rewrite resolve_plain by exact Hc. by destruct (bw_disk w !! SAVECONFIG).
Qed.

Lemma write_config F text w d' :
  config_plain w -> fs_write F SAVECONFIG text (bw_disk w) = (Ok tt, d') ->
  exists f, f_content f = text /\ d' = <[SAVECONFIG := f]> (bw_disk w).
Proof.
  intros Hc. unfold fs_write, bind, gets, lift, modify, throw, ret. rewrite resolve_plain by exact Hc.
  destruct (fault F OpWrite SAVECONFIG); [done|]. intros [= <-]. eexists. split; [|reflexivity]. done.
Qed.

Lemma records_config w f : in_order w -> same_records (T := IscsiTarget) ISCSI_STATE_DIR (bw_disk w) (<[SAVECONFIG := f]> (bw_disk w)).
Proof.
  intros Hd. apply same_records_insert; [done|done|]. intros id [Hv _]. by rewrite item_path_eq by done.
Qed.

(** A patch that succeeds leaves a file that lists the patches and the targets. *)
Lemma wp_patch_saveconfig patches iqns w :
  in_order w -> config_plain w ->
  wp (patch_saveconfig patches iqns) (fun r w' => is_ok r = true ->
    same_records (T := IscsiTarget) ISCSI_STATE_DIR (bw_disk w) (bw_disk w') /\
    exists json, saved_config w' = Some (Ok json) /\ saved_ok json patches iqns) w.
Proof.
  intros Hd Hc. unfold patch_saveconfig. apply wp_bind, wp_disk_call. unfold wp at 1.
  pose proof (read_config (next_plan w) w Hc) as Hr. pose proof (read_to_string_disk (next_plan w) SAVECONFIG (bw_disk w)) as H2.
  destruct (read_to_string (next_plan w) SAVECONFIG (bw_disk w)) as [r d]. cbn in Hr, H2 |- *. subst r d.
  destruct (fault (next_plan w) OpRead SAVECONFIG); cbn; [done|].
  destruct (bw_disk w !! SAVECONFIG) as [f|] eqn:Hf; cbn; [|done].
  set (w1 := mkBlockWorld (bw_disk w) _ _ _). apply wp_bind, wp_lift.
  destruct (decode (f_content f)) as [json|e] eqn:Hj; cbn; [|done].
  apply wp_bind, wp_lift. destruct (patch_saveconfig_value json patches iqns) as [[json' changed]|e] eqn:Hp; [|done].
  apply patched_saveconfig in Hp as [Hok Hsame]. destruct changed.
  - apply wp_bind, wp_lift. destruct (encode json') as [text|e] eqn:He; cbn; [|done].
    apply wp_disk_call. unfold wp. destruct (fs_write (next_plan w1) SAVECONFIG text (bw_disk w1)) as [[[]|e] d'] eqn:Hw; [|done].
    apply (write_config _ _ w) in Hw as (f' & Hf' & ->); [|done]. intros _. split; [by apply records_config|].
    exists json'. unfold saved_config. cbn. rewrite lookup_insert_eq. cbn. by rewrite Hf', (decode_encode _ _ He).
  - apply wp_ret. intros _. split; [by apply same_records_refl|]. exists json. rewrite (Hsame eq_refl) in Hok.
    unfold saved_config. cbn. by rewrite Hf, <- Hj.
Qed.

(** A file that lists nothing. *)
Definition lists_nothing (json : Json) : Prop := forall k, k = "storage_objects" \/ k = "targets" -> json_get json k ≫= as_array = Some [].

Lemma wp_no_saved_exports w :
  config_plain w -> honest (next_plan w) ->
  wp validate_no_saved_exports (fun r w' => is_ok r = true -> bw_disk w' = bw_disk w /\
    (saved_config w' = None \/ exists json, saved_config w' = Some (Ok json) /\ lists_nothing json)) w.
Proof.
  intros Hc Hh. unfold validate_no_saved_exports. apply wp_bind, wp_attempt, wp_disk_call. unfold wp at 1.
  pose proof (read_config (next_plan w) w Hc) as Hr. pose proof (read_to_string_disk (next_plan w) SAVECONFIG (bw_disk w)) as H2.
  destruct (read_to_string (next_plan w) SAVECONFIG (bw_disk w)) as [r d]. cbn in Hr, H2 |- *. subst r d.
  set (w1 := mkBlockWorld (bw_disk w) _ _ _).
  destruct (fault (next_plan w) OpRead SAVECONFIG) as [e|] eqn:HF; cbn.
  { destruct (is_not_found e) eqn:Hn; [|done]. exfalso. destruct e; try done. by apply (Hh OpRead SAVECONFIG). }
  destruct (bw_disk w !! SAVECONFIG) as [f|] eqn:Hf; cbn.
  - apply wp_bind, wp_lift. destruct (decode (f_content f)) as [json|e] eqn:Hj; cbn; [|done].
    apply wp_lift. intros Hok. split; [done|]. right. exists json. unfold saved_config. cbn. rewrite Hf. cbn. rewrite Hj. split; [done|].
    revert Hok. unfold validate_empty_saveconfig_value, all_empty, lists_nothing.
    destruct (json_get json "storage_objects" ≫= as_array) as [[|]|] eqn:Hso; [|done..].
    destruct (json_get json "targets" ≫= as_array) as [[|]|] eqn:Htg; [|done..]. by intros _ k [-> | ->].
  - apply wp_ret. intros _. split; [done|]. left. unfold saved_config. cbn. by rewrite Hf.
Qed.

(** ** Restoring *)

(** The kernel may restore: every managed LUN is on the device of its volume,
    and the saved configuration lists exactly the recorded targets and their
    backstores, each on the device of its LUN. *)
Definition restorable m w : Prop :=
  exists ts : list IscsiTarget,
    (forall t, t ∈ ts <-> valid_id (tg_id t) /\ target_at w (tg_id t) = Some t) /\
    (forall t l, t ∈ ts -> l ∈ tg_luns t -> resolved m l) /\
    match ts with
    | [] => saved_config w = None \/ exists json, saved_config w = Some (Ok json) /\ lists_nothing json
    | _ => exists json patches, saved_config w = Some (Ok json) /\ exports ts patches /\
             saved_ok json patches (list_to_set (tg_iqn <$> ts))
    end.

Lemma wp_all_targets (Q : result (list IscsiTarget) IscsiError -> BlockWorld -> Prop) w :
  in_order w -> Forall honest (bw_plan w) ->
  (forall ts w', NoDup (tg_id <$> ts) -> (forall t, t ∈ ts <-> valid_id (tg_id t) /\ target_at w (tg_id t) = Some t) ->
     bw_disk w' = bw_disk w -> Forall honest (bw_plan w') -> Q (Ok ts) w') ->
  (forall e w', bw_disk w' = bw_disk w -> Q (Err e) w') -> wp all_targets Q w.
Proof.
  intros Hd Hh Hok Herr. assert (Forall honest (tail (bw_plan w))) as Ht by (by destruct Hh).
  eapply wp_mono; [|apply wp_and; [|apply (wp_load_all_rec (T := IscsiTarget) ISCSI_STATE_DIR IsIo (fun r w' =>
    match r with
    | Ok ts => NoDup (tg_id <$> ts) /\ (forall t, t ∈ ts <-> valid_id (tg_id t) /\ target_at w (tg_id t) = Some t)
    | Err _ => True
    end /\ bw_disk w' = bw_disk w)); [done|by apply honest_next|by intros; split|by intros; split]]].
  2: { apply (wp_disk_call IsIo _ (fun _ w' => Forall honest (bw_plan w'))). exact Ht. }
  intros [ts|e] w' [Hp [Hr Hw]]; [|by apply Herr]. destruct Hr. by apply Hok.
Qed.

(** The records after the loop are the targets it returned. *)
Lemma remapped_records (ts' ts : list IscsiTarget) w w' (t : IscsiTarget) :
  tg_id <$> ts' = tg_id <$> ts -> (forall t, t ∈ ts <-> valid_id (tg_id t) /\ target_at w (tg_id t) = Some t) ->
  (forall i, valid_id i -> i ∉ tg_id <$> ts -> target_at w' i = target_at w i) ->
  (forall t, t ∈ ts' -> target_at w' (tg_id t) = Some t) ->
  t ∈ ts' <-> valid_id (tg_id t) /\ target_at w' (tg_id t) = Some t.
Proof.
  intros Hids Hall Hoth Hrec. split.
  - intros Ht. split; [|by apply Hrec]. apply (list_elem_of_fmap_2 tg_id) in Ht. rewrite Hids in Ht.
    apply list_elem_of_fmap in Ht as (t0 & -> & Ht0). by apply Hall.
  - intros [Hv Hst]. destruct (decide (tg_id t ∈ tg_id <$> ts)) as [Hin|Hin].
    + rewrite <- Hids in Hin. apply list_elem_of_fmap in Hin as (t1 & Ht1 & Hin). pose proof (Hrec t1 Hin) as Hst1.
      rewrite <- Ht1, Hst in Hst1. by injection Hst1 as ->.
    + exfalso. apply Hin. apply (list_elem_of_fmap_2 tg_id), Hall. split; [done|]. by rewrite <- Hoth.
Qed.

(** What a remapping of the iSCSI targets leaves. *)
Lemma wp_remap_iscsi m w :
  in_order w -> config_plain w -> Forall honest (bw_plan w) ->
  wp (remap_device_paths_iscsi m) (fun r w' => exists o, r = Ok o /\ (safe_to_restore o = true -> restorable m w')) w.
Proof.
  intros Hd Hc Hh.
  unfold remap_device_paths_iscsi. apply wp_bind, wp_attempt, wp_all_targets; [done..| |].
  2: { intros e w1 _. apply wp_ret. by eexists. }
  intros [|t ts] w1 Hnd Hall Hw1 Hh1.
  - apply wp_bind, wp_attempt. eapply wp_mono; [|apply wp_no_saved_exports; [|by apply honest_next]].
    2: { unfold config_plain. by rewrite Hw1. }
    intros r w2 Hr. apply wp_ret. eexists. split; [done|]. cbn. intros [Hd2 Hs]%Hr. exists [].
    split_and!; [|by intros ?? ?%not_elem_of_nil|done]. intros t. by rewrite Hd2, Hw1.
  - apply wp_bind. eapply wp_mono; [|apply wp_remap_targets].
    + intros r w2 (out & -> & _ & Hrem). destruct out as [[ts' [patches safe]] any].
      destruct Hrem as (Hd2 & Hc2 & Hids & Hoth & Hsafe).
      apply wp_bind, wp_attempt. eapply wp_mono; [|by apply wp_patch_saveconfig].
      intros r w3 Hr. apply wp_ret. eexists. split; [done|]. cbn. intros [-> Hok]%andb_prop.
      destruct (Hr Hok) as [[Hd3 Hsame] (json & Hj & Hsv)]. destruct (Hsafe eq_refl) as (_ & Hrec & Hin & Hdom).
      exists ts'. split_and!; [|by intros t' l Ht'; apply Hrec|].
      * intros t'. rewrite (remapped_records ts' (t :: ts) w1 w2 t' Hids); [|by rewrite Hw1|exact Hoth|by apply Hrec].
        split; intros [Hv Hst]; (split; [done|]); by rewrite <- Hst, Hsame.
      * destruct ts' as [|t' ts']; [done|]. exists json, patches. split_and!; [done| |done]. split; [done|].
        intros n Hn. apply Hdom in Hn as [Hn|]; [|done]. destruct Hn as [? Hn]. cbn in Hn. by rewrite lookup_empty in Hn.
    + by rewrite Hw1.
    + unfold config_plain. by rewrite Hw1.
    + done.
    + intros t' Ht'. rewrite Hw1. by apply Hall.
Qed.

(** C25: If [remap_device_paths] says that restoring is safe, then every managed
    LUN of every recorded target is on the device its volume has now, and
    saveconfig.json, which the kernel restores from, lists exactly the recorded
    targets and their backstores, each on that device; with no target recorded
    it lists nothing. The call itself never fails. *)
Theorem exports_restored_on_their_volumes m w :
  in_order w -> config_plain w -> Forall honest (bw_plan w) ->
  exists o w', remap_device_paths_iscsi m w = (Ok o, w') /\ (safe_to_restore o = true -> restorable m w').
Proof.
  intros Hd Hc Hh. pose proof (wp_remap_iscsi m w Hd Hc Hh) as Hw. unfold wp in Hw.
  destruct (remap_device_paths_iscsi m w) as [r w']. cbn in Hw. destruct Hw as (o & -> & Ho). by exists o, w'.
Qed.

End Remap.
