(* ===== verification/NvmeofService.v ===== *)
(** * NVMe-oF subsystems: engine/nasty-sharing/src/nvmeof.rs, the data and the pure parts

    Subsystems with their namespaces, ports and allowed hosts, the checks of
    names, and how namespaces find their volumes again after a restart.

    ** The NVMe-oF service: [NvmeofService] of engine/nasty-sharing/src/nvmeof.rs

    One definition per method. Subsystems are recorded in the state directory
    and live in the kernel's nvmet configfs; the kernel's side is lost at a
    reboot and survives a restart of the engine. Waiting (for clients to
    disconnect, for addresses to appear) is not modelled. *)
From Stdlib Require Import String Ascii ZArith.
From stdpp Require Import base list gmap strings numbers.
From S2P Require Import Prelude RustStr Disk StateStore Records JsonRpc ConfigFs BlockWorld Iscsi.

Open Scope string_scope.
Open Scope rust_scope.

Definition NVMEOF_STATE_DIR : StateDir := mkStateDir ["var"; "lib"; "nasty"; "shares"; "nvmeof"].
Definition NVMET_BASE : Path := ["sys"; "kernel"; "config"; "nvmet"].
Definition DEFAULT_NQN_PREFIX : string := "nqn.2137-04.storage.nasty".

Inductive NvmeofError :=
| NvNotFound (what : string)
| NvAlreadyExists (what : string)
| NvDeviceNotFound (path : string)
| NvInvalidBackingVolume (msg : string)
| NvNamespaceNotFound (nsid : Z)
| NvPortNotFound (port : Z)
| NvConfigFs (msg : string)
| NvIo (e : IoErr)
| NvInvalidTransport (t : string).

Definition display_nvmeof_error (e : NvmeofError) : string :=
  match e with
  | NvNotFound s => "subsystem not found: " ++ s
  | NvAlreadyExists s => "subsystem already exists: " ++ s
  | NvDeviceNotFound s => "device not found: " ++ s
  | NvInvalidBackingVolume s => "namespace backing volume cannot be repaired: " ++ s
  | NvNamespaceNotFound n => "namespace not found: nsid " ++ fmt_Z n
  | NvPortNotFound p => "port not found: " ++ fmt_Z p
  | NvConfigFs s => "configfs error: " ++ s
  | NvIo e => "io error: " ++ display_io e
  | NvInvalidTransport t => "unsupported transport '" ++ t ++ "' (expected " ++ quote ++ "tcp" ++ quote ++ " or " ++ quote ++ "rdma" ++ quote ++ ")"
  end.

Record Namespace := mkNamespace {
  ns_nsid : Z;
  ns_device_path : string;
  ns_enabled : bool;
  ns_backing_volume : option BlockVolumeId;
  ns_backing_volume_unresolved : bool
}.

Record Port := mkPort {
  pt_port_id : Z;
  pt_transport : string;
  pt_addr : string;
  pt_service_id : string;
  pt_addr_family : string
}.

Record NvmeofSubsystem := mkSubsystem {
  ss_id : string;
  ss_nqn : string;
  ss_namespaces : list Namespace;
  ss_ports : list Port;
  ss_allowed_hosts : list string;
  ss_allow_any_host : bool;
  ss_enabled : bool
}.

#[export] Instance nvmeof_subsystem_id : HasId NvmeofSubsystem := ss_id.

Definition set_namespaces (l : list Namespace) (s : NvmeofSubsystem) : NvmeofSubsystem :=
  mkSubsystem (ss_id s) (ss_nqn s) l (ss_ports s) (ss_allowed_hosts s) (ss_allow_any_host s) (ss_enabled s).
Definition set_ports (l : list Port) (s : NvmeofSubsystem) : NvmeofSubsystem :=
  mkSubsystem (ss_id s) (ss_nqn s) (ss_namespaces s) l (ss_allowed_hosts s) (ss_allow_any_host s) (ss_enabled s).
Definition set_hosts (l : list string) (any : bool) (s : NvmeofSubsystem) : NvmeofSubsystem :=
  mkSubsystem (ss_id s) (ss_nqn s) (ss_namespaces s) (ss_ports s) l any (ss_enabled s).

(** ** Requests *)

Record CreateSubsystemRequest := mkCreateSubsystem {
  cs_name : string;
  cs_allow_any_host : option bool;
  cs_device_path : option string;
  cs_backing_volume : option BlockVolumeId;
  cs_addr : option string;
  cs_port : option Z;
  cs_allowed_hosts : option (list string)
}.

Record AddPortRequest := mkAddPort {
  ap_subsystem_id : string;
  ap_transport : option string;
  ap_addr : option string;
  ap_service_id : option Z;
  ap_addr_family : option string
}.

(** ** Checks *)

Definition validate_subsystem_name (name : string) : result unit NvmeofError :=
  if name =s "" then Err (NvConfigFs "NVMe-oF subsystem name is empty")
  else if (200 <? String.length name)%nat then Err (NvConfigFs "NVMe-oF subsystem name exceeds 200 chars")
  else if negb (all_chars name_char name) then
    Err (NvConfigFs ("NVMe-oF subsystem name '" ++ name
      ++ "' contains invalid characters (allowed: A-Z, a-z, 0-9, '-', '.', '_', ':')"))
  else Ok tt.

Definition validate_host_nqn (nqn : string) : result unit NvmeofError :=
  if nqn =s "" then Err (NvConfigFs "host NQN is empty")
  else if (223 <? String.length nqn)%nat then Err (NvConfigFs "host NQN exceeds 223 chars (NVMe spec limit)")
  else if negb (starts_with "nqn." nqn) then
    Err (NvConfigFs ("host NQN '" ++ nqn ++ "' must start with 'nqn.' (per NVMe spec)"))
  else if contains_char "/" nqn || contains_char "\" nqn || any_control nqn || contains_char " " nqn then
    Err (NvConfigFs ("host NQN '" ++ nqn
      ++ "' contains invalid characters (must not contain '/', '\', whitespace, or control characters)"))
  else Ok tt.

Definition validate_transport (t : string) : result unit NvmeofError :=
  if (t =s "tcp") || (t =s "rdma") then Ok tt else Err (NvInvalidTransport t).

Fixpoint validate_hosts (hosts : list string) : result unit NvmeofError :=
  match hosts with
  | [] => Ok tt
  | h :: rest => match validate_host_nqn h with Err e => Err e | Ok _ => validate_hosts rest end
  end.

(** ** Namespaces and their volumes *)

Definition is_managed_namespace (n : Namespace) : bool :=
  is_some (ns_backing_volume n) || ns_backing_volume_unresolved n || starts_with "/dev/loop" (ns_device_path n).

Definition resolve_ns (path : string) (v : option BlockVolumeId) (unresolved : bool) (n : Namespace) : Namespace :=
  mkNamespace (ns_nsid n) path (ns_enabled n) v unresolved.

Definition repair_namespace_of (device_path : string) (identity : BlockVolumeId) (n : Namespace) : result Namespace NvmeofError :=
  if negb (ns_backing_volume_unresolved n) && is_some (ns_backing_volume n) then
    Err (NvInvalidBackingVolume ("namespace " ++ fmt_Z (ns_nsid n) ++ " is already resolved"))
  else if negb (starts_with "/dev/loop" (ns_device_path n)) then
    Err (NvInvalidBackingVolume ("namespace " ++ fmt_Z (ns_nsid n) ++ " is not an unresolved managed block volume"))
  else Ok (resolve_ns device_path (Some identity) false n).

Definition repair_subsystem_namespace (s : NvmeofSubsystem) (nsid : Z) (device_path : string) (identity : BlockVolumeId)
    : result NvmeofSubsystem NvmeofError :=
  match List.find (fun n => (ns_nsid n =? nsid)%Z) (ss_namespaces s) with
  | None => Err (NvNamespaceNotFound nsid)
  | Some n =>
      match repair_namespace_of device_path identity n with
      | Err e => Err e
      | Ok n' => Ok (set_namespaces (update_first (fun n => (ns_nsid n =? nsid)%Z) (fun _ => n') (ss_namespaces s)) s)
      end
  end.

(** One namespace of [remap_subsystem]: the namespace, whether it changed, and
    whether it is resolved. *)
Definition remap_namespace (m : BlockDeviceMappings) (n : Namespace) : Namespace * bool * bool :=
  if negb (is_managed_namespace n) then (n, false, true)
  else
    let identity := match ns_backing_volume n with
                    | Some v => Some v
                    | None => legacy_identity_for_exact_path m (ns_device_path n)
                    end in
    match identity, (v ← identity; bm_current m !! v) with
    | Some v, Some device_path =>
        (resolve_ns device_path (Some v) false n,
         negb (bool_decide (ns_backing_volume n = Some v)) || negb (ns_device_path n =s device_path)
           || ns_backing_volume_unresolved n,
         true)
    | _, _ =>
        (resolve_ns (ns_device_path n) (ns_backing_volume n) true n, negb (ns_backing_volume_unresolved n), false)
    end.

Definition remap_subsystem (m : BlockDeviceMappings) (s : NvmeofSubsystem) : NvmeofSubsystem * bool * bool :=
  let rs := remap_namespace m <$> ss_namespaces s in
  (set_namespaces ((fun r => r.1.1) <$> rs) s, existsb (fun r => r.1.2) rs, forallb snd rs).

(** The namespaces each subsystem should have, as the [HashMap] of
    [validate_managed_configfs_inventory]. *)
Definition expected_namespaces (l : list NvmeofSubsystem) : gmap string (list Z) :=
  fold_left (fun m s => <[ss_nqn s := ns_nsid <$> ss_namespaces s]> m) l ∅.

(** What the methods ask the system: a fresh identifier, the device files, the
    addresses the host is reached at. *)
Record NvmeofEnv := mkNvmeofEnv {
  ne_uuid : string;
  ne_exists : string -> bool;
  ne_primary_ip : option string;
  ne_primary_ipv6 : option string
}.

Definition PROTOCOLS_PATH : Path := ["var"; "lib"; "nasty"; "protocols.json"].

Definition as_bool (v : Json) : option bool := match v with JBool b => Some b | _ => None end.

Section Service.
Context `{ConfigFs} `{!Codec NvmeofSubsystem} `{!Codec Json}.

Abbreviation N := (M BlockWorld NvmeofError).
Abbreviation mkdir := (configfs_mkdir NvConfigFs).
Abbreviation rmdir := (configfs_rmdir NvConfigFs).
Abbreviation write := (configfs_write NvConfigFs).
Abbreviation symlink := (configfs_symlink NvConfigFs).
Abbreviation unlink := (configfs_unlink NvConfigFs).

(** ** The state directory *)

Definition load_subsystem (id : string) : N (option NvmeofSubsystem) := disk_call NvIo (fun F => load F NVMEOF_STATE_DIR id).
Definition save_subsystem (s : NvmeofSubsystem) : N unit := disk_call NvIo (fun F => save F NVMEOF_STATE_DIR (ss_id s) s).
Definition all_subsystems : N (list NvmeofSubsystem) := disk_call NvIo (fun F => load_all_strict F NVMEOF_STATE_DIR).

Definition find_subsystem (id : string) : N NvmeofSubsystem :=
  o <- load_subsystem id ;;
  match o with Some s => ret s | None => throw (NvNotFound id) end.

(** ** Paths *)

Definition subsystems_dir : Path := NVMET_BASE // "subsystems".
Definition ports_dir : Path := NVMET_BASE // "ports".
Definition subsys_path (nqn : string) : Path := subsystems_dir // nqn.
Definition ns_path (nqn : string) (nsid : Z) : Path := subsys_path nqn // "namespaces" // fmt_Z nsid.
Definition port_path (id : Z) : Path := ports_dir // fmt_Z id.
Definition host_path (nqn : string) : Path := NVMET_BASE // "hosts" // nqn.
Definition port_link (id : Z) (nqn : string) : Path := port_path id // "subsystems" // nqn.
Definition host_link (nqn host : string) : Path := subsys_path nqn // "allowed_hosts" // host.

(** ** configfs helpers *)

Definition ensure_dir (p : Path) : N unit :=
  r <- attempt (kcall (E := IoErr) id (k_metadata p)) ;;
  match r with
  | Ok true => ret tt
  | Ok false => throw (NvConfigFs (display_path p ++ " exists and is not a directory"))
  | Err e => if is_not_found e then mkdir p else throw (NvConfigFs ("stat " ++ display_path p ++ ": " ++ display_io e))
  end.

Definition ensure_symlink (target link : Path) : N unit :=
  r <- attempt (kcall (E := IoErr) id (k_read_link link)) ;;
  match r with
  | Ok existing =>
      if bool_decide (existing = target) then ret tt
      else
        a <- attempt (kcall (E := IoErr) id (k_canonicalize link)) ;;
        b <- attempt (kcall (E := IoErr) id (k_canonicalize target)) ;;
        match a, b with
        | Ok l, Ok t =>
            throw_if (negb (bool_decide (l = t)))
              (NvConfigFs ("symlink " ++ display_path link ++ " points to " ++ display_path existing ++ " instead of " ++ display_path target))
        | _, _ => throw (NvConfigFs ("symlink " ++ display_path link ++ " points to " ++ display_path existing ++ " instead of " ++ display_path target))
        end
  | Err e =>
      if is_not_found e then symlink target link
      else throw (NvConfigFs ("readlink " ++ display_path link ++ ": " ++ display_io e))
  end.

Definition dir_is_empty (p : Path) : N bool :=
  r <- attempt (kcall (E := IoErr) id (k_read_dir p)) ;;
  match r with
  | Err _ => ret true
  | Ok [] => ret true
  | Ok (_ :: _) =>
      r <- attempt (kcall (E := IoErr) id next_fault) ;;
      ret (negb (is_ok r))
  end.

(** ** Ports *)

Definition parse_port_id : string -> option Z := parse_unsigned (2 ^ 16 - 1).

(** The largest number in use plus one, on [u16]. *)
Definition next_port_id : N Z :=
  names <- dir_entries ports_dir ;;
  ret ((fold_left Z.max (omap parse_port_id names) 0 + 1) mod 2 ^ 16)%Z.

Definition read_attr (base : Path) (a : string) : N (option string) :=
  r <- attempt (kcall (E := IoErr) id (k_read (base // a))) ;;
  ret (match r with Ok v => Some (trim v) | Err _ => None end).

Definition find_existing_port (transport addr : string) (svc_id : Z) (addr_family : string) : N (option Z) :=
  scan_dir ports_dir (fun name =>
    match parse_port_id name with
    | None => ret None
    | Some id =>
        let p := port_path id in
        t <- read_attr p "addr_trtype" ;;
        a <- read_attr p "addr_traddr" ;;
        s <- read_attr p "addr_trsvcid" ;;
        f <- read_attr p "addr_adrfam" ;;
        ret (if bool_decide (t = Some transport) && bool_decide (a = Some addr) && bool_decide (s = Some (fmt_Z svc_id))
                && bool_decide (f = Some addr_family)
             then Some id else None)
    end).

Definition configure_port (p : Path) (transport addr service_id addr_family : string) : N unit :=
  write (p // "addr_trtype") transport ;;;
  write (p // "addr_traddr") addr ;;;
  write (p // "addr_trsvcid") service_id ;;;
  write (p // "addr_adrfam") addr_family.

(** ** Methods *)

Definition repair_namespace (subsystem_id : string) (nsid : Z) (device_path : string) (identity : BlockVolumeId)
    : N (NvmeofSubsystem * NvmeofSubsystem) :=
  previous <- find_subsystem subsystem_id ;;
  s <- lift (repair_subsystem_namespace previous nsid device_path identity) ;;
  save_subsystem s ;;;
  ret (s, previous).

Definition restore_subsystem_state (s : NvmeofSubsystem) : N unit := save_subsystem s.

Definition list_nvmeof : N (list NvmeofSubsystem) := all_subsystems.
Definition get_nvmeof (id : string) : N NvmeofSubsystem := find_subsystem id.

Definition next_nsid (l : list Namespace) : Z :=
  match ns_nsid <$> l with
  | [] => 1
  | i :: more => (fold_left Z.max more i + 1) mod 2 ^ 32
  end%Z.

Definition add_namespace (e : NvmeofEnv) (subsystem_id device_path : string) (backing_volume : option BlockVolumeId) : N NvmeofSubsystem :=
  throw_if (negb (ne_exists e device_path)) (NvDeviceNotFound device_path) ;;;
  s <- find_subsystem subsystem_id ;;
  let nsid := next_nsid (ss_namespaces s) in
  let p := ns_path (ss_nqn s) nsid in
  mkdir p ;;;
  write (p // "device_path") device_path ;;;
  write (p // "buffered_io") "0" ;;;
  write (p // "enable") "1" ;;;
  let s := set_namespaces (ss_namespaces s ++ [mkNamespace nsid device_path true backing_volume false])%list s in
  save_subsystem s ;;;
  ret s.

Definition remove_namespace (subsystem_id : string) (nsid : Z) : N NvmeofSubsystem :=
  s <- find_subsystem subsystem_id ;;
  throw_if (negb (existsb (fun n => (ns_nsid n =? nsid)%Z) (ss_namespaces s))) (NvNamespaceNotFound nsid) ;;;
  rmdir (ns_path (ss_nqn s) nsid) ;;;
  let s := set_namespaces (remove_first (fun n => (ns_nsid n =? nsid)%Z) (ss_namespaces s)) s in
  save_subsystem s ;;;
  ret s.

Definition add_port (e : NvmeofEnv) (req : AddPortRequest) : N NvmeofSubsystem :=
  s <- find_subsystem (ap_subsystem_id req) ;;
  let transport := default "tcp" (ap_transport req) in
  lift (validate_transport transport) ;;;
  let primary := default "0.0.0.0" (ne_primary_ip e) in
  let addr := match ap_addr req with
              | Some a => if negb (a =s "") && negb (a =s "0.0.0.0") then a else primary
              | None => primary
              end in
  let svc_id := default 4420%Z (ap_service_id req) in
  let addr_family := default "ipv4" (ap_addr_family req) in
  o <- find_existing_port transport addr svc_id addr_family ;;
  id <- match o with
        | Some existing => ret existing
        | None =>
            pid <- next_port_id ;;
            mkdir (port_path pid) ;;;
            configure_port (port_path pid) transport addr (fmt_Z svc_id) addr_family ;;;
            ret pid
        end ;;
  symlink (subsys_path (ss_nqn s)) (port_link id (ss_nqn s)) ;;;
  let s := set_ports (ss_ports s ++ [mkPort id transport addr (fmt_Z svc_id) addr_family])%list s in
  save_subsystem s ;;;
  ret s.

Definition remove_port_dir (id : Z) : N unit :=
  b <- dir_is_empty (port_path id // "subsystems") ;;
  if b : bool then ignore (rmdir (port_path id)) else ret tt.

Definition remove_port (subsystem_id : string) (port_id : Z) : N NvmeofSubsystem :=
  s <- find_subsystem subsystem_id ;;
  throw_if (negb (existsb (fun p => (pt_port_id p =? port_id)%Z) (ss_ports s))) (NvPortNotFound port_id) ;;;
  ignore (unlink (port_link port_id (ss_nqn s))) ;;;
  remove_port_dir port_id ;;;
  let s := set_ports (remove_first (fun p => (pt_port_id p =? port_id)%Z) (ss_ports s)) s in
  save_subsystem s ;;;
  ret s.

Definition ensure_tailscale_ports (e : NvmeofEnv) (ip : string) : N unit :=
  ss <- disk_call NvIo (fun F => load_all F NVMEOF_STATE_DIR) ;;
  for_each ss (fun s =>
    if existsb (fun p => pt_addr p =s ip) (ss_ports s) then ret tt
    else
      let '(transport, svc) := match ss_ports s with
                               | p :: _ => (pt_transport p, pt_service_id p)
                               | [] => ("tcp", "4420")
                               end in
      let port := default 4420%Z (parse_port_id svc) in
      ignore (add_port e (mkAddPort (ss_id s) (Some transport) (Some ip) (Some port) (Some "ipv4")))).

Definition remove_ports_for_ip (ip : string) : N unit :=
  ss <- disk_call NvIo (fun F => load_all F NVMEOF_STATE_DIR) ;;
  for_each ss (fun s =>
    for_each (pt_port_id <$> List.filter (fun p => pt_addr p =s ip) (ss_ports s)) (fun id =>
      ignore (remove_port (ss_id s) id))).

Definition add_host (subsystem_id host_nqn : string) : N NvmeofSubsystem :=
  lift (validate_host_nqn host_nqn) ;;;
  s <- find_subsystem subsystem_id ;;
  there <- kcall NvIo (k_exists (host_path host_nqn)) ;;
  (if there : bool then ret tt else mkdir (host_path host_nqn)) ;;;
  symlink (host_path host_nqn) (host_link (ss_nqn s) host_nqn) ;;;
  write (subsys_path (ss_nqn s) // "attr_allow_any_host") "0" ;;;
  let hosts := if bool_decide (host_nqn ∈ ss_allowed_hosts s) then ss_allowed_hosts s else (ss_allowed_hosts s ++ [host_nqn])%list in
  let s := set_hosts hosts false s in
  save_subsystem s ;;;
  ret s.

Definition remove_host (subsystem_id host_nqn : string) : N NvmeofSubsystem :=
  s <- find_subsystem subsystem_id ;;
  unlink (host_link (ss_nqn s) host_nqn) ;;;
  let s := set_hosts (List.filter (fun h => negb (h =s host_nqn)) (ss_allowed_hosts s)) (ss_allow_any_host s) s in
  save_subsystem s ;;;
  ret s.

Definition delete_nvmeof (id : string) : N unit :=
  s <- find_subsystem id ;;
  let ns_dir := subsys_path (ss_nqn s) // "namespaces" in
  let hosts_dir := subsys_path (ss_nqn s) // "allowed_hosts" in
  scan_dir ns_dir (fun n => ignore (write (ns_dir // n // "enable") "0") ;;; ret (None (A := unit))) ;;;
  for_each (ss_ports s) (fun p => ignore (unlink (port_link (pt_port_id p) (ss_nqn s)))) ;;;
  scan_dir ns_dir (fun n => ignore (rmdir (ns_dir // n)) ;;; ret (None (A := unit))) ;;;
  scan_dir hosts_dir (fun n => ignore (unlink (hosts_dir // n)) ;;; ret (None (A := unit))) ;;;
  for_each (ss_ports s) (fun p => remove_port_dir (pt_port_id p)) ;;;
  rmdir (subsys_path (ss_nqn s)) ;;;
  disk_call NvIo (fun F => remove F NVMEOF_STATE_DIR id).

Fixpoint add_hosts (s : NvmeofSubsystem) (hosts : list string) : N NvmeofSubsystem :=
  match hosts with
  | [] => ret s
  | h :: rest => s <- add_host (ss_id s) h ;; add_hosts s rest
  end.

(** The ports of a subsystem created with a device. *)
Definition add_default_ports (e : NvmeofEnv) (req : CreateSubsystemRequest) (s : NvmeofSubsystem) : N NvmeofSubsystem :=
  match ss_ports s with
  | _ :: _ => ret s
  | [] =>
      let svc_port := default 4420%Z (cs_port req) in
      s <- add_port e (mkAddPort (ss_id s) (Some "tcp") (Some (default "0.0.0.0" (cs_addr req))) (Some svc_port) (Some "ipv4")) ;;
      match cs_addr req, ne_primary_ipv6 e with
      | None, Some v6 =>
          r <- attempt (add_port e (mkAddPort (ss_id s) (Some "tcp") (Some v6) (Some svc_port) (Some "ipv6"))) ;;
          ret (match r with Ok s' => s' | Err _ => s end)
      | _, _ => ret s
      end
  end.

Definition create_nvmeof (e : NvmeofEnv) (req : CreateSubsystemRequest) : N NvmeofSubsystem :=
  lift (validate_subsystem_name (cs_name req)) ;;;
  lift (match cs_allowed_hosts req with Some hosts => validate_hosts hosts | None => Ok tt end) ;;;
  ss <- all_subsystems ;;
  let nqn := DEFAULT_NQN_PREFIX ++ ":" ++ cs_name req in
  match List.find (fun s => ss_nqn s =s nqn) ss with
  | Some existing => ret existing
  | None =>
      let allow_any := default true (cs_allow_any_host req) in
      mkdir (subsys_path nqn) ;;;
      write (subsys_path nqn // "attr_allow_any_host") (if allow_any then "1" else "0") ;;;
      let s := mkSubsystem (ne_uuid e) nqn [] [] [] allow_any true in
      save_subsystem s ;;;
      s <- match cs_device_path req with
           | Some path =>
               s <- match ss_namespaces s with
                    | [] => add_namespace e (ss_id s) path (cs_backing_volume req)
                    | _ => ret s
                    end ;;
               add_default_ports e req s
           | None => ret s
           end ;;
      s <- match cs_allowed_hosts req with Some hosts => add_hosts s hosts | None => ret s end ;;
      match ss_namespaces s with
      | [] => ret tt
      | _ => wait_ready 10 (ns_path (ss_nqn s) 1 // "enable")
      end ;;;
      ret s
  end.

(** ** Start-up *)

(** [if let Err(e) = m { failures.push(what + e); continue }]. *)
Definition or_failure {A} (what : string) (m : N A) (k : A -> N (list string)) : N (list string) :=
  r <- attempt m ;;
  match r with
  | Ok a => k a
  | Err e => ret [what ++ display_nvmeof_error e]
  end.

(** The failures of a loop's rounds, in order. *)
Fixpoint collect {A} (l : list A) (f : A -> N (list string)) : N (list string) :=
  match l with
  | [] => ret []
  | a :: rest => x <- f a ;; y <- collect rest f ;; ret (x ++ y)%list
  end.

Definition restore_namespace (e : NvmeofEnv) (p : Path) (n : Namespace) : N unit :=
  write (p // "enable") "0" ;;;
  throw_if (negb (ne_exists e (ns_device_path n))) (NvDeviceNotFound (ns_device_path n)) ;;;
  write (p // "device_path") (ns_device_path n) ;;;
  write (p // "buffered_io") "0" ;;;
  if ns_enabled n then write (p // "enable") "1" else ret tt.

Definition restore_one_namespace (e : NvmeofEnv) (nqn : string) (n : Namespace) : N (list string) :=
  let what := nqn ++ " namespace " ++ fmt_Z (ns_nsid n) ++ ": " in
  or_failure what (ensure_dir (ns_path nqn (ns_nsid n))) (fun _ =>
  or_failure what (restore_namespace e (ns_path nqn (ns_nsid n)) n) (fun _ => ret [])).

Definition restore_host (nqn host : string) : N (list string) :=
  let what := nqn ++ " host " ++ host ++ ": " in
  or_failure what (ensure_dir (host_path host)) (fun _ =>
  or_failure what (ensure_symlink (host_path host) (host_link nqn host)) (fun _ => ret [])).

Definition restore_port (nqn : string) (p : Port) : N (list string) :=
  let svc_id := default 4420%Z (parse_port_id (pt_service_id p)) in
  let link id :=
    or_failure (nqn ++ " port " ++ fmt_Z id ++ " bind: ") (ensure_symlink (subsys_path nqn) (port_link id nqn)) (fun _ => ret []) in
  let what := nqn ++ " port " ++ fmt_Z (pt_port_id p) ++ ": " in
  o <- find_existing_port (pt_transport p) (pt_addr p) svc_id (pt_addr_family p) ;;
  match o with
  | Some existing => link existing
  | None =>
      or_failure what (ensure_dir (port_path (pt_port_id p))) (fun _ =>
      or_failure what (configure_port (port_path (pt_port_id p)) (pt_transport p) (pt_addr p) (pt_service_id p) (pt_addr_family p)) (fun _ =>
      link (pt_port_id p)))
  end.

Definition restore_subsystem (e : NvmeofEnv) (s : NvmeofSubsystem) : N (list string) :=
  let nqn := ss_nqn s in
  or_failure (nqn ++ " subsystem: ") (ensure_dir (subsys_path nqn)) (fun _ =>
  or_failure (nqn ++ " access policy: ")
    (write (subsys_path nqn // "attr_allow_any_host") (if ss_allow_any_host s then "1" else "0")) (fun _ =>
  a <- collect (ss_namespaces s) (restore_one_namespace e nqn) ;;
  b <- collect (ss_allowed_hosts s) (restore_host nqn) ;;
  c <- collect (ss_ports s) (restore_port nqn) ;;
  ret (a ++ b ++ c)%list)).

(** Whether protocols.json says [true] for NVMe-oF; a file that cannot be read
    counts as [null]. *)
Definition protocol_on : N bool :=
  r <- attempt (disk_call id (fun F => read_to_string F PROTOCOLS_PATH)) ;;
  ret (match r with
       | Ok text => match decode text with
                    | Ok v => bool_decide (json_get v "nvmeof" ≫= as_bool = Some true)
                    | Err _ => false
                    end
       | Err _ => false
       end).

Definition restore (e : NvmeofEnv) : N unit :=
  on <- protocol_on ;;
  if negb on then ret tt
  else
    ss <- all_subsystems ;;
    match ss with
    | [] => ret tt
    | _ =>
        failures <- collect ss (restore_subsystem e) ;;
        match failures with
        | [] => ret tt
        | _ => throw (NvConfigFs (String.concat "; " failures))
        end
    end.

(** A directory's entries, [f] on each; a directory that is not there has none. *)
Definition each_in (p : Path) (f : string -> N unit) : N unit :=
  r <- attempt (kcall (E := IoErr) id (k_read_dir p)) ;;
  match r with
  | Err e => if is_not_found e then ret tt else throw (NvIo e)
  | Ok names => each_entry_strict NvIo names f
  end.

(** The live subsystems of the engine. *)
Definition each_managed (f : string -> N unit) : N unit :=
  each_in subsystems_dir (fun nqn => if negb (starts_with DEFAULT_NQN_PREFIX nqn) then ret tt else f nqn).

Definition live_namespaces (nqn : string) : Path := (subsystems_dir ++ [nqn; "namespaces"])%list.

Definition quiesce : N unit :=
  each_managed (fun nqn =>
    each_in (live_namespaces nqn) (fun n =>
      let enable := (live_namespaces nqn ++ [n; "enable"])%list in
      kcall (fun e => NvConfigFs ("disable " ++ display_path enable ++ ": " ++ display_io e)) (k_write enable "0"))).

(** Whether one namespace is enabled in the kernel. *)
Definition ns_active (nqn : string) (n : Namespace) : N bool :=
  r <- attempt (kcall (E := IoErr) id (k_read (ns_path nqn (ns_nsid n) // "enable"))) ;;
  match r with
  | Ok v => ret (trim v =s "1")
  | Err e => if is_not_found e then ret false else throw (NvIo e)
  end.

(** [f] on each, up to the first that is false. *)
Fixpoint all_of {A} (l : list A) (f : A -> N bool) : N bool :=
  match l with
  | [] => ret true
  | a :: rest => b <- f a ;; if b : bool then all_of rest f else ret false
  end.

Definition is_active : N bool :=
  ss <- all_subsystems ;;
  all_of ss (fun s => all_of (List.filter ns_enabled (ss_namespaces s)) (ns_active (ss_nqn s))).

Definition validate_managed_configfs_inventory (l : list NvmeofSubsystem) : N unit :=
  let expected := expected_namespaces l in
  each_managed (fun nqn =>
    match expected !! nqn with
    | None => throw (NvConfigFs ("live subsystem '" ++ nqn ++ "' has no persisted state"))
    | Some nsids =>
        each_in (live_namespaces nqn) (fun n =>
          match parse_unsigned (2 ^ 32 - 1) n with
          | None => throw (NvConfigFs ("live subsystem '" ++ nqn ++ "' has invalid namespace entry '" ++ n ++ "'"))
          | Some nsid =>
              throw_if (negb (bool_decide (nsid ∈ nsids)))
                (NvConfigFs ("live subsystem '" ++ nqn ++ "' namespace " ++ fmt_Z nsid ++ " has no persisted state"))
          end)
    end).

(** The loop of [remap_device_paths]: whether restoring is safe and whether a
    subsystem changed. *)
Fixpoint remap_subsystems (m : BlockDeviceMappings) (ss : list NvmeofSubsystem) (safe any : bool) : N (bool * bool) :=
  match ss with
  | [] => ret (safe, any)
  | s :: rest =>
      let '(s', changed, subsystem_safe) := remap_subsystem m s in
      saved <- (if changed : bool then r <- attempt (save_subsystem s') ;; ret (is_ok r) else ret true) ;;
      remap_subsystems m rest (safe && subsystem_safe && saved) (any || changed)
  end.

Definition remap_device_paths_nvmeof (m : BlockDeviceMappings) : N DeviceRemapOutcome :=
  r <- attempt all_subsystems ;;
  match r with
  | Err _ => ret (mkOutcome false false)
  | Ok ss =>
      r <- attempt (validate_managed_configfs_inventory ss) ;;
      out <- remap_subsystems m ss (is_ok r) false ;;
      ret (mkOutcome out.1 out.2)
  end.

End Service.
