(* ===== verification/NvmeofRestore.v ===== *)
(** * Loops over the live subsystems

    What a loop over a configfs directory establishes for every entry, and its
    two uses: [quiesce] disables every live namespace of the engine, and an
    inventory that passes knows every one of them.

    ** Restored namespaces serve their own devices

    [restore] disables a namespace before it gives it a device, and enables it
    last. Whatever fails, a namespace that is enabled and was sound (on a device
    that a record gives it) stays sound; if nothing fails, every recorded
    namespace is. *)
From Stdlib Require Import String Ascii ZArith.
From stdpp Require Import base list gmap strings numbers.
From S2P Require Import Prelude RustStr Disk StateStore Records JsonRpc ConfigFs BlockWorld Iscsi NvmeofService.

Open Scope string_scope.
Open Scope rust_scope.

(** ** Worlds that follow each other *)

(** The disk is the same and only faults have been used up. *)
Definition after (w w' : BlockWorld) : Prop :=
  bw_disk w' = bw_disk w /\ bw_plan w' `suffix_of` bw_plan w /\
  k_faults (bw_kernel w') `suffix_of` k_faults (bw_kernel w).

#[export] Instance after_preorder : PreOrder after.
Proof. split; [done|]. intros a b c (? & ? & ?) (? & ? & ?). split_and!; [congruence|by etrans..]. Qed.

Definition calm (w w' : BlockWorld) : Prop := after w w' /\ bw_tree w' = bw_tree w.

#[export] Instance calm_preorder : PreOrder calm.
Proof. split; [by intros w|]. intros a b c [? ?] [? ?]. split; [by etrans|congruence]. Qed.

Lemma after_honest w w' : after w w' -> honest_kernel (bw_kernel w) -> honest_kernel (bw_kernel w').
Proof. intros (_ & _ & Hf). by apply honest_suffix. Qed.

Lemma after_plan w w' : after w w' -> Forall honest (bw_plan w) -> Forall honest (bw_plan w').
Proof. intros (_ & [l Hl] & _). rewrite Hl. intros [_ ?]%Forall_app. done. Qed.

Lemma wp_kafter {E A} (f : IoErr -> E) (m : M Kernel IoErr A) (Q : result A E -> BlockWorld -> Prop) w :
  consumes m -> wp m (fun r k => after w (set_kernel k w) -> Q (map_err f r) (set_kernel k w)) (bw_kernel w) ->
  wp (kcall f m) Q w.
Proof. intros Hm Hq. apply wp_kcall. apply Hq. split_and!; [done..|]. apply Hm. Qed.

Section Loops.
Context `{ConfigFs} (R : BlockWorld -> BlockWorld -> Prop) `{!PreOrder R}.
Hypothesis calm_R : forall w w', calm w w' -> R w w'.
Hypothesis R_after : forall w w', R w w' -> after w w'.

Lemma keeps_next_fault {E} (io : IoErr -> E) w : wp (kcall io next_fault) (fun _ w' => R w w') w.
Proof.
  apply wp_kafter; [apply consumes_next_fault|].
  apply wp_next_fault; [intros k Hk Ha|intros e k Hk Ha]; apply calm_R; by split.
Qed.

(** Every entry ends with [P], if the loop ends well. *)
Lemma wp_each_strict {E} (io : IoErr -> E) names f (P : string -> BlockWorld -> Prop) w0 w :
  R w0 w ->
  (forall n w', n ∈ names -> R w0 w' -> wp (f n) (fun r w2 => R w' w2 /\ (r = Ok tt -> P n w2)) w') ->
  (forall n w1 w2, P n w1 -> R w1 w2 -> P n w2) ->
  wp (each_entry_strict io names f) (fun r w' => R w w' /\ (r = Ok tt -> forall n, n ∈ names -> P n w')) w.
Proof.
  intros Hw Hf Hst. revert w Hw. induction names as [|n names IH]; intros w Hw; cbn [each_entry_strict].
  - eapply wp_mono; [|apply keeps_next_fault]. intros r w1 Hr. split; [done|]. by intros _ n ?%not_elem_of_nil.
  - apply wp_bind. eapply wp_mono; [|apply keeps_next_fault]. intros [_|e] w1 Hw1; [|by split].
    apply wp_bind. eapply wp_mono; [|apply (Hf n); [by left|by etrans]].
    intros [[]|e] w2 [Hw2 Hp]; [|split; [by etrans|done]].
    eapply wp_mono; [|apply IH; [intros n' w' Hn'; apply Hf; by right|]].
    + intros r w3 [Hw3 Hall]. split; [etrans; [exact Hw1|by etrans]|].
      intros -> n' [-> |Hn']%elem_of_cons; [|by apply Hall]. apply (Hst _ w2); auto.
    + etrans; [exact Hw|by etrans].
Qed.

Lemma wp_each_in p f (P : string -> BlockWorld -> Prop) w0 w :
  R w0 w -> honest_kernel (bw_kernel w) ->
  (forall n w', is_Some (bw_tree w !! (p ++ [n])%list) -> R w0 w' -> wp (f n) (fun r w2 => R w' w2 /\ (r = Ok tt -> P n w2)) w') ->
  (forall n w1 w2, P n w1 -> R w1 w2 -> P n w2) ->
  wp (each_in p f) (fun r w' => R w w' /\
    (r = Ok tt -> forall n, is_some (bw_tree w !! p) = true -> is_Some (bw_tree w !! (p ++ [n])%list) -> P n w')) w.
Proof.
  intros Hw Hh Hf Hst. unfold each_in. apply wp_bind, wp_attempt, wp_kafter; [apply consumes_read_dir|]. apply wp_read_dir.
  - intros b k Hp Hk Ha. cbn. assert (R w (set_kernel k w)) as Hr by (apply calm_R; by split).
    eapply wp_mono; [|apply (wp_each_strict NvIo _ f P w0)]; [|by etrans| |done].
    + intros r w' [Hw' Hall]. split; [by etrans|]. intros Ho n _ Hn. apply Hall; [done|]. by apply elem_of_children.
    + intros n w' Hn. apply Hf. by apply elem_of_children in Hn.
  - intros e k Hk He Ha. cbn. assert (R w (set_kernel k w)) as Hr by (apply calm_R; by split).
    destruct (is_not_found e) eqn:Hn; [|apply wp_throw; by split].
    apply wp_ret. split; [done|]. intros _ n Hp. exfalso. destruct e; try done. unfold bw_tree in Hp. by rewrite He in Hp.
Qed.

(** Every live subsystem of the engine. *)
Lemma wp_each_managed f (P : string -> BlockWorld -> Prop) w :
  honest_kernel (bw_kernel w) ->
  (forall nqn w', starts_with DEFAULT_NQN_PREFIX nqn = true -> is_Some (bw_tree w !! (subsystems_dir ++ [nqn])%list) -> R w w' ->
     wp (f nqn) (fun r w2 => R w' w2 /\ (r = Ok tt -> P nqn w2)) w') ->
  (forall n w1 w2, P n w1 -> R w1 w2 -> P n w2) ->
  wp (each_managed f) (fun r w' => R w w' /\
    (r = Ok tt -> forall nqn, starts_with DEFAULT_NQN_PREFIX nqn = true -> is_some (bw_tree w !! subsystems_dir) = true ->
       is_Some (bw_tree w !! (subsystems_dir ++ [nqn])%list) -> P nqn w')) w.
Proof.
  intros Hh Hf Hst. eapply wp_mono; [|apply (wp_each_in _ _ (fun n w' => starts_with DEFAULT_NQN_PREFIX n = true -> P n w') w w); [done|done| |]].
  - intros r w' [Hw Hall]. split; [done|]. intros Hr nqn Hn Hd Hs. by apply (Hall Hr nqn).
  - intros nqn w' Hn Hw. destruct (starts_with DEFAULT_NQN_PREFIX nqn) eqn:Hp; cbn [negb].
    + eapply wp_mono; [|by apply Hf]. intros r w2 [? ?]. split; auto.
    + apply wp_ret. split; [done|]. by intros _ [=].
  - intros n w1 w2 Hp Hr Hn. apply (Hst _ w1); auto.
Qed.

End Loops.

(** ** Quiescing *)

(** A namespace of the engine that is there in the kernel. *)
Definition live (t : Tree) (nqn n : string) : Prop :=
  starts_with DEFAULT_NQN_PREFIX nqn = true /\ is_some (t !! subsystems_dir) = true /\
  is_Some (t !! (subsystems_dir ++ [nqn])%list) /\ is_some (t !! live_namespaces nqn) = true /\
  is_Some (t !! (live_namespaces nqn ++ [n])%list).

Definition enable_of (nqn n : string) : Path := (live_namespaces nqn ++ [n; "enable"])%list.

(** Nothing changed but that some of the engine's namespaces were disabled. *)
Definition quieted (t t' : Tree) : Prop :=
  forall p, t' !! p = t !! p \/ (exists nqn n, p = enable_of nqn n /\ starts_with DEFAULT_NQN_PREFIX nqn = true) /\
    (exists v, t !! p = Some (NAttr v)) /\ t' !! p = Some (NAttr "0").

#[export] Instance quieted_preorder : PreOrder quieted.
Proof.
  split; [by left|]. intros a b c Hab Hbc p. destruct (Hbc p) as [-> |(Hn & [v Hv] & ->)]; [apply Hab|].
  right. split_and!; [done| |done]. destruct (Hab p) as [<-|(_ & ? & _)]; [by exists v|done].
Qed.

Lemma quieted_is_some t t' p : quieted t t' -> is_Some (t' !! p) <-> is_Some (t !! p).
Proof. intros Hq. destruct (Hq p) as [-> |(_ & [v ->] & ->)]; [done|]. split; eauto. Qed.

Lemma is_some_iff {A} (o : option A) : is_some o = true <-> is_Some o.
Proof. destruct o; cbn; split; naive_solver. Qed.

Definition quiet_step (w w' : BlockWorld) : Prop := after w w' /\ quieted (bw_tree w) (bw_tree w').

#[export] Instance quiet_step_preorder : PreOrder quiet_step.
Proof. split; [by intros w; split|]. intros a b c [? ?] [? ?]. split; by etrans. Qed.

Lemma calm_quiet w w' : calm w w' -> quiet_step w w'.
Proof. intros [Ha Ht]. split; [done|]. by rewrite Ht. Qed.

Section Uses.
Context `{ConfigFs}.

Lemma wp_disable f nqn n w :
  starts_with DEFAULT_NQN_PREFIX nqn = true ->
  wp (kcall (E := NvmeofError) f (k_write (enable_of nqn n) "0"))
    (fun r w' => quiet_step w w' /\ (r = Ok tt -> attr (bw_tree w') (enable_of nqn n) = Some "0")) w.
Proof.
  intros Hn. apply wp_kafter; [apply consumes_write|]. apply wp_write.
  - intros old k Ho Hk Ha. unfold quiet_step, bw_tree. cbn. rewrite Hk. split; [|intros _; by apply attr_insert].
    split; [done|]. intros p. destruct (decide (p = enable_of nqn n)) as [-> |Hne]; [right|left; by rewrite lookup_insert_ne].
    rewrite lookup_insert_eq. split_and!; [by eexists _, _|by exists old|done].
  - intros e k Hk Ha. unfold quiet_step, bw_tree. cbn. rewrite Hk. by split.
Qed.

Lemma wp_quiesce w :
  honest_kernel (bw_kernel w) ->
  wp quiesce (fun r w' => quiet_step w w' /\
    (r = Ok tt -> forall nqn n, live (bw_tree w) nqn n -> attr (bw_tree w') (enable_of nqn n) = Some "0")) w.
Proof.
  intros Hh.
  assert (forall p w1 w2, attr (bw_tree w1) p = Some "0" -> quiet_step w1 w2 -> attr (bw_tree w2) p = Some "0") as Hstable.
  { intros p w1 w2 Hp [_ Hq]. apply attr_Some. destruct (Hq p) as [-> |(_ & _ & ?)]; [by apply attr_Some|done]. }
  eapply wp_mono; [|apply (wp_each_managed quiet_step calm_quiet _ (fun nqn w' => forall n,
    is_some (bw_tree w !! live_namespaces nqn) = true -> is_Some (bw_tree w !! (live_namespaces nqn ++ [n])%list) ->
    attr (bw_tree w') (enable_of nqn n) = Some "0")); [done| |]].
  - intros r w' [Hw Hall]. split; [done|]. intros Hr nqn n (Hp & Hd & Hs & Hl & Hn). by apply Hall.
  - intros nqn w1 Hp Hs Hw1. eapply wp_mono; [|apply (wp_each_in quiet_step calm_quiet _ _
      (fun n w' => attr (bw_tree w') (enable_of nqn n) = Some "0") w1 w1)]; [|done|by eapply after_honest; [apply Hw1|]| |].
    + intros r w2 [Hw2 Hall]. split; [done|]. intros Hr n Hd Hn. apply Hall; [done|..].
      * apply is_some_iff, (quieted_is_some (bw_tree w)), is_some_iff, Hd. apply Hw1.
      * by apply (quieted_is_some (bw_tree w)); [apply Hw1|].
    + intros n w2 _ _. by apply wp_disable.
    + intros n w2 w3. apply Hstable.
  - intros nqn w1 w2 Hall Hq n Hd Hn. by apply (Hstable _ w1); [apply Hall|].
Qed.

(** ** The inventory *)

(** What a live namespace must be: one a record names. *)
Definition known (ss : list NvmeofSubsystem) (nqn n : string) : Prop :=
  exists s nsid, s ∈ ss /\ ss_nqn s = nqn /\ parse_unsigned (2 ^ 32 - 1) n = Some nsid /\ nsid ∈ ns_nsid <$> ss_namespaces s.

Lemma expected_in ss nqn l :
  expected_namespaces ss !! nqn = Some l -> exists s, s ∈ ss /\ ss_nqn s = nqn /\ l = ns_nsid <$> ss_namespaces s.
Proof.
  unfold expected_namespaces. rewrite <- fold_left_rev_right. intros Hl.
  assert (exists s, s ∈ rev ss /\ ss_nqn s = nqn /\ l = ns_nsid <$> ss_namespaces s) as (s & Hs & ? & ?).
  { induction (rev ss) as [|s rs IH]; cbn in Hl; [by rewrite lookup_empty in Hl|].
    apply lookup_insert_Some in Hl as [[<- <-]|[_ Hl]]; [exists s; split_and!; [by left|done..]|].
    destruct (IH Hl) as (s' & Hs' & ? & ?). exists s'. split_and!; [by right|done..]. }
  exists s. split_and!; [|done..]. by rewrite list_elem_of_In, in_rev, <- list_elem_of_In.
Qed.

Lemma wp_inventory ss w :
  honest_kernel (bw_kernel w) ->
  wp (validate_managed_configfs_inventory ss) (fun r w' => calm w w' /\
    (r = Ok tt -> forall nqn n, live (bw_tree w) nqn n -> known ss nqn n)) w.
Proof.
  intros Hh. eapply wp_mono; [|apply (wp_each_managed calm (fun _ _ Hc => Hc) _ (fun nqn _ => forall n,
    is_some (bw_tree w !! live_namespaces nqn) = true -> is_Some (bw_tree w !! (live_namespaces nqn ++ [n])%list) ->
    known ss nqn n)); [done| |done]].
  - intros r w' [Hw Hall]. split; [done|]. intros Hr nqn n (Hp & Hd & Hs & Hl & Hn). by apply Hall.
  - intros nqn w1 Hp Hs Hw1. destruct (expected_namespaces ss !! nqn) as [nsids|] eqn:He; [|apply wp_throw; by split].
    apply expected_in in He as (s & Hin & Hq & ->).
    eapply wp_mono; [|apply (wp_each_in calm (fun _ _ Hc => Hc) _ _ (fun n _ => known ss nqn n) w1 w1)];
      [|done|by eapply after_honest; [apply Hw1|]| |done].
    + intros r w2 [Hw2 Hall]. split; [done|]. destruct Hw1 as [_ <-]. auto.
    + intros n w2 _ _. destruct (parse_unsigned _ n) as [nsid|] eqn:Hn; [|apply wp_throw; by split].
      apply wp_throw_if; [by split|]. intros Hb%negb_false_iff%bool_decide_eq_true. split; [done|]. intros _.
      by exists s, nsid.
Qed.

End Uses.

(** Kernel objects start disabled. *)
Class StartsDisabled `{ConfigFs} : Prop :=
  starts_disabled : forall p i v, (i, Some v) ∈ new_items p -> list.last (p ++ i)%list = Some "enable" -> v = "0".

Lemma sub_name p s : components s = [s] -> p // s = (p ++ [s])%list.
Proof. unfold sub. by intros ->. Qed.

Section Sound.
Context `{StartsDisabled} (e : NvmeofEnv) (ss : list NvmeofSubsystem).
Implicit Types (t : Tree) (p q : Path) (w : BlockWorld).

(** A record enables the namespace at [p] and gives it the device. *)
Definition recorded p (dev : string) : Prop :=
  exists s n, s ∈ ss /\ n ∈ ss_namespaces s /\ p = ns_path (ss_nqn s) (ns_nsid n) /\ ns_enabled n = true /\ ns_device_path n = dev.

(** The namespace at [p] is disabled, or on a device a record gives it. *)
Definition sound t p : Prop :=
  forall v, attr t (p ++ ["enable"])%list = Some v -> v <> "0" ->
  exists dev, attr t (p ++ ["device_path"])%list = Some dev /\ recorded p dev.

Definition kept w w' : Prop := after w w' /\ forall p, sound (bw_tree w) p -> sound (bw_tree w') p.

#[export] Instance kept_preorder : PreOrder kept.
Proof. split; [by intros w; split|]. intros a b c [? ?] [? ?]. split; [by etrans|auto]. Qed.

Lemma calm_kept w w' : calm w w' -> kept w w'.
Proof. intros [Ha Ht]. split; [done|]. by rewrite Ht. Qed.

(** Attributes of other names do not matter, nor do new objects and links. *)
Lemma sound_attrs t t' p :
  attr t' (p ++ ["enable"])%list = attr t (p ++ ["enable"])%list ->
  attr t' (p ++ ["device_path"])%list = attr t (p ++ ["device_path"])%list -> sound t p -> sound t' p.
Proof. unfold sound. by intros -> ->. Qed.

Lemma sound_other t q v p :
  list.last q <> Some "enable" -> list.last q <> Some "device_path" -> sound t p -> sound (<[q := NAttr v]> t) p.
Proof.
  intros H1 H2. apply sound_attrs; apply attr_insert_ne; intros ->; rewrite last_snoc in *; congruence.
Qed.

Lemma sound_link t q a p : t !! q = None -> sound t p -> sound (<[q := NLink a]> t) p.
Proof.
  intros Hq. assert (forall x, attr (<[q := NLink a]> t) x = attr t x) as Ha.
  { intros x. unfold attr. destruct (decide (q = x)) as [<-|]; [by rewrite lookup_insert_eq, Hq|by rewrite lookup_insert_ne]. }
  by apply sound_attrs.
Qed.

Lemma sound_grown t t' p : grown t t' -> sound t p -> sound t' p.
Proof.
  intros [Hold Hnew] Hs v Hv Hv0. destruct (Hnew _ _ Hv) as [Hv'|(q & i & E & Hin)].
  - destruct (Hs v Hv' Hv0) as (dev & Hd & Hr). exists dev. split; [|done]. apply attr_Some, Hold. by apply attr_Some.
  - destruct Hv0. apply (starts_disabled q i v Hin). by rewrite <- E, last_snoc.
Qed.

(** ** Calls *)

Lemma kept_read {E A} (f : IoErr -> E) (m : M Kernel IoErr A) w :
  consumes m -> (forall k, k_tree (m k).2 = k_tree k) -> keeps (kept w) (kcall f m) w.
Proof.
  intros Hc Hm. apply wp_kafter; [done|]. unfold wp. intros Ha. apply calm_kept. split; [done|]. apply Hm.
Qed.

Lemma kept_write_other q v w :
  list.last q <> Some "enable" -> list.last q <> Some "device_path" -> keeps (kept w) (configfs_write NvConfigFs q v) w.
Proof.
  intros H1 H2. apply wp_kafter; [apply consumes_write|]. apply wp_write.
  - intros old k Ho Hk Ha. split; [done|]. intros p. unfold bw_tree. cbn. rewrite Hk. by apply sound_other.
  - intros er k Hk Ha. by apply calm_kept.
Qed.

Lemma kept_mkdir q w : keeps (kept w) (configfs_mkdir NvConfigFs q) w.
Proof.
  apply wp_kafter; [apply consumes_create_dir_all|]. eapply wp_mono; [|apply create_below_grown].
  intros r k Hk Ha. split; [done|]. intros p. by apply sound_grown.
Qed.

Lemma kept_symlink a b w : keeps (kept w) (configfs_symlink NvConfigFs a b) w.
Proof.
  apply wp_kafter; [apply consumes_symlink|]. apply wp_symlink.
  - intros k Hn Hk Ha. split; [done|]. intros p. unfold bw_tree. cbn. rewrite Hk. by apply sound_link.
  - intros er k Hk Ha. by apply calm_kept.
Qed.

(** ** Computations that keep soundness *)

Definition keeper {E A} (m : M BlockWorld E A) : Prop := forall w, keeps (kept w) m w.

Lemma keeper_pure {E A} (m : M BlockWorld E A) : (forall w, (m w).2 = w) -> keeper m.
Proof. intros Hm w. unfold keeps, wp. by rewrite Hm. Qed.

Lemma keeper_bind {E A B} (m : M BlockWorld E A) (f : A -> M BlockWorld E B) :
  keeper m -> (forall a, keeper (f a)) -> keeper (bind m f).
Proof.
  intros Hm Hf w. apply wp_bind. eapply wp_mono; [|apply Hm]. intros [a|er] w1 Hw1; [|done].
  eapply wp_mono; [|apply Hf]. intros r w2 Hw2. by etrans.
Qed.

Lemma keeper_attempt {E F A} (m : M BlockWorld F A) : keeper m -> keeper (attempt (F := E) m).
Proof. intros Hm w. apply wp_attempt, Hm. Qed.

Lemma keeper_read {E A} (f : IoErr -> E) (m : M Kernel IoErr A) :
  consumes m -> (forall k, k_tree (m k).2 = k_tree k) -> keeper (kcall f m).
Proof. intros Hc Hm w. by apply kept_read. Qed.

Ltac reads := solve [intros k; repeat (unfold bind, attempt, next_fault, tree, gets, throw, ret, throw_if; cbn);
  destruct (k_faults k) as [|[]]; cbn; repeat case_match; done].

Lemma keeper_next_fault {E} (f : IoErr -> E) : keeper (kcall f next_fault).
Proof. apply keeper_read; [apply consumes_next_fault|reads]. Qed.
Lemma keeper_read_dir {E} (f : IoErr -> E) p : keeper (kcall f (k_read_dir p)).
Proof. apply keeper_read; [apply consumes_read_dir|unfold k_read_dir; reads]. Qed.
Lemma keeper_k_read {E} (f : IoErr -> E) p : keeper (kcall f (k_read p)).
Proof. apply keeper_read; [apply consumes_read|unfold k_read; reads]. Qed.
Lemma keeper_read_link {E} (f : IoErr -> E) p : keeper (kcall f (k_read_link p)).
Proof. apply keeper_read; [apply consumes_read_link|unfold k_read_link; reads]. Qed.
Lemma keeper_metadata {E} (f : IoErr -> E) p : keeper (kcall f (k_metadata p)).
Proof. apply keeper_read; [apply consumes_metadata|unfold k_metadata; reads]. Qed.
Lemma keeper_canonicalize {E} (f : IoErr -> E) p : keeper (kcall f (k_canonicalize p)).
Proof. apply keeper_read; [apply consumes_canonicalize|unfold k_canonicalize; reads]. Qed.
Lemma keeper_mkdir p : keeper (configfs_mkdir NvConfigFs p).
Proof. intros w. apply kept_mkdir. Qed.
Lemma keeper_symlink a b : keeper (configfs_symlink NvConfigFs a b).
Proof. intros w. apply kept_symlink. Qed.
Lemma keeper_write p s v :
  components s = [s] -> s <> "enable" -> s <> "device_path" -> keeper (configfs_write NvConfigFs (p // s) v).
Proof. intros Hs H1 H2 w. rewrite sub_name by done. apply kept_write_other; rewrite last_snoc; congruence. Qed.

Ltac keeper_go := cbv zeta; repeat first
  [ apply keeper_next_fault | apply keeper_read_dir | apply keeper_k_read | apply keeper_read_link | apply keeper_metadata
  | apply keeper_canonicalize | apply keeper_mkdir | apply keeper_symlink | (apply keeper_write; [reflexivity|discriminate..])
  | apply keeper_bind; [|intros]
  | apply keeper_attempt
  | match goal with |- keeper (match ?x with _ => _ end) => destruct x end
  | apply keeper_pure; intros; reflexivity ].

Lemma keeper_ensure_dir p : keeper (ensure_dir p).
Proof. unfold ensure_dir. keeper_go. Qed.

Lemma keeper_ensure_symlink a b : keeper (ensure_symlink a b).
Proof. unfold ensure_symlink, throw_if. keeper_go. Qed.

Lemma keeper_each_entry {E A} names (f : string -> M BlockWorld E (option A)) :
  (forall n, keeper (f n)) -> keeper (each_entry names f).
Proof. intros Hf. induction names as [|n names IH]; cbn [each_entry]; keeper_go; [apply Hf|apply IH]. Qed.

Lemma keeper_find_existing_port a b c d : keeper (find_existing_port a b c d).
Proof.
  unfold find_existing_port, scan_dir. keeper_go. apply keeper_each_entry. intros n. unfold read_attr. keeper_go.
Qed.

Lemma keeper_configure_port p a b c d : keeper (configure_port p a b c d).
Proof. unfold configure_port. keeper_go. Qed.

Lemma keeper_or_failure {A} what (m : M BlockWorld NvmeofError A) k :
  keeper m -> (forall a, keeper (k a)) -> keeper (or_failure what m k).
Proof. intros Hm Hk. unfold or_failure. keeper_go; [apply Hm|apply Hk]. Qed.

Lemma keeper_collect {A} (l : list A) f : (forall a, keeper (f a)) -> keeper (collect l f).
Proof. intros Hf. induction l as [|a l IH]; cbn [collect]; keeper_go; [apply Hf|apply IH]. Qed.

Lemma keeper_restore_host nqn h : keeper (restore_host nqn h).
Proof.
  apply keeper_or_failure; [apply keeper_ensure_dir|intros _]. apply keeper_or_failure; [apply keeper_ensure_symlink|intros _].
  by apply keeper_pure.
Qed.

Lemma keeper_restore_port nqn (po : Port) : keeper (restore_port nqn po).
Proof.
  assert (forall id, keeper (or_failure (nqn ++ " port " ++ fmt_Z id ++ " bind: ")
    (ensure_symlink (subsys_path nqn) (port_link id nqn)) (fun _ => ret []))) as Hlink.
  { intros id. apply keeper_or_failure; [apply keeper_ensure_symlink|intros _; by apply keeper_pure]. }
  unfold restore_port. apply keeper_bind; [apply keeper_find_existing_port|]. intros [id|]; [apply Hlink|].
  apply keeper_or_failure; [apply keeper_ensure_dir|intros _].
  apply keeper_or_failure; [apply keeper_configure_port|intros _; apply Hlink].
Qed.

(** ** One namespace *)

Lemma sound_disabled t p : attr t (p ++ ["enable"])%list = Some "0" -> sound t p.
Proof. intros Hv v Hv'. congruence. Qed.

(** Nothing but the namespace at [p] is touched by a write to one of its two
    attributes. *)
Lemma sound_elsewhere t p a v q :
  a = "enable" \/ a = "device_path" -> q <> p -> sound t q -> sound (<[(p ++ [a])%list := NAttr v]> t) q.
Proof.
  intros Ha Hne. apply sound_attrs; apply attr_insert_ne; intros [E _]%app_inj_tail; congruence.
Qed.

(** A namespace being restored: disabled so far. *)
Definition down w p w' : Prop := kept w w' /\ attr (bw_tree w') (p ++ ["enable"])%list = Some "0".

Lemma down_kept w p a v w1 w2 :
  a = "enable" \/ a = "device_path" -> kept w w1 -> after w1 w2 -> bw_tree w2 = <[(p ++ [a])%list := NAttr v]> (bw_tree w1) ->
  sound (bw_tree w2) p -> kept w w2.
Proof.
  intros Hb [Ha Hk] H12 Ht Hs. split; [by etrans|]. intros q Hq. destruct (decide (q = p)) as [->|Hne]; [done|].
  rewrite Ht. apply sound_elsewhere; [done..|]. by apply Hk.
Qed.

Lemma wp_ns_write w p a v (Q : result unit NvmeofError -> BlockWorld -> Prop) w1 :
  components a = [a] -> kept w w1 ->
  (forall w2, after w1 w2 -> bw_tree w2 = <[(p ++ [a])%list := NAttr v]> (bw_tree w1) -> Q (Ok tt) w2) ->
  (forall er w2, calm w1 w2 -> kept w w2 -> Q (Err er) w2) -> wp (configfs_write NvConfigFs (p // a) v) Q w1.
Proof.
  intros Hc Hk Hok Herr. rewrite sub_name by done. apply wp_kafter; [apply consumes_write|]. apply wp_write.
  - intros old k Ho Ht Ha. by apply Hok.
  - intros er k Ht Ha. apply Herr; [by split|]. etrans; [exact Hk|]. by apply calm_kept.
Qed.

Lemma attr_other t p a b v : a <> b -> attr (<[(p ++ [a])%list := NAttr v]> t) (p ++ [b])%list = attr t (p ++ [b])%list.
Proof. intros Hne. apply attr_insert_ne. intros [_ E]%app_inj_tail. done. Qed.

Lemma wp_restore_namespace s n w w1 :
  s ∈ ss -> n ∈ ss_namespaces s -> kept w w1 ->
  wp (restore_namespace e (ns_path (ss_nqn s) (ns_nsid n)) n)
    (fun r w' => kept w w' /\ (r = Ok tt -> sound (bw_tree w') (ns_path (ss_nqn s) (ns_nsid n)))) w1.
Proof.
  intros Hs Hn Hk1. set (p := ns_path (ss_nqn s) (ns_nsid n)). unfold restore_namespace.
  apply wp_bind, (wp_ns_write w); [done|done| |by intros er w2 _ Hk2; split]. intros w2 Ha2 Ht2.
  assert (attr (bw_tree w2) (p ++ ["enable"])%list = Some "0") as Hd2 by (rewrite Ht2; apply attr_insert).
  assert (kept w w2) as Hk2.
  { apply (down_kept w p "enable" "0" w1); [by left|done..|]. by apply sound_disabled. }
  apply wp_bind, wp_throw_if; [by intros _; split|]. intros _.
  apply wp_bind, (wp_ns_write w); [done|done| |by intros er w3 _ Hk3; split]. intros w3 Ha3 Ht3.
  assert (attr (bw_tree w3) (p ++ ["enable"])%list = Some "0") as Hd3 by (by rewrite Ht3, attr_other).
  assert (attr (bw_tree w3) (p ++ ["device_path"])%list = Some (ns_device_path n)) as Hv3 by (rewrite Ht3; apply attr_insert).
  assert (kept w w3) as Hk3.
  { apply (down_kept w p "device_path" (ns_device_path n) w2); [by right|done..|]. by apply sound_disabled. }
  apply wp_bind, (wp_ns_write w); [done|done| |by intros er w4 _ Hk4; split]. intros w4 Ha4 Ht4.
  assert (attr (bw_tree w4) (p ++ ["enable"])%list = Some "0") as Hd4 by (by rewrite Ht4, attr_other).
  assert (attr (bw_tree w4) (p ++ ["device_path"])%list = Some (ns_device_path n)) as Hv4 by (by rewrite Ht4, attr_other).
  assert (kept w w4) as Hk4.
  { split; [etrans; [apply Hk3|done]|]. intros q Hq. rewrite Ht4. apply sound_other; [by rewrite last_snoc..|]. by apply Hk3. }
  destruct (ns_enabled n) eqn:Hen; [|apply wp_ret; split; [done|intros _; by apply sound_disabled]].
  apply (wp_ns_write w); [done|done| |by intros er w5 _ Hk5; split]. intros w5 Ha5 Ht5.
  assert (sound (bw_tree w5) p) as Hs5.
  { intros v Hv _. exists (ns_device_path n). split; [by rewrite Ht5, attr_other|]. by exists s, n. }
  split; [|done]. apply (down_kept w p "enable" "1" w4); [by left|done..].
Qed.

(** ** Everything *)

(** A list of failures comes back, and if it is empty [P] holds. *)
Definition reports (m : M BlockWorld NvmeofError (list string)) (P : BlockWorld -> Prop) : Prop :=
  forall w, wp m (fun r w' => kept w w' /\ exists fs, r = Ok fs /\ (fs = [] -> P w')) w.

Lemma reports_failure {A} what (m : M BlockWorld NvmeofError A) k (P : BlockWorld -> Prop) :
  keeper m -> (forall a, reports (k a) P) -> reports (or_failure what m k) P.
Proof.
  intros Hm Hk w. apply wp_bind, wp_attempt. eapply wp_mono; [|apply Hm]. intros [a|er] w1 Hw1.
  - eapply wp_mono; [|apply Hk]. intros r w2 [Hw2 Hr]. split; [by etrans|done].
  - apply wp_ret. split; [done|]. by eexists.
Qed.

(** A last call, which [P] depends on or not. *)
Lemma reports_last {A} what (m : M BlockWorld NvmeofError A) (P : BlockWorld -> Prop) :
  (forall w, wp m (fun r w' => kept w w' /\ (is_ok r = true -> P w')) w) -> reports (or_failure what m (fun _ => ret [])) P.
Proof.
  intros Hm w. apply wp_bind, wp_attempt. eapply wp_mono; [|apply Hm]. intros [a|er] w1 [Hw1 Hp]; apply wp_ret; (split; [done|]); by eexists; split; [|auto].
Qed.

Lemma reports_keeper_last {A} what (m : M BlockWorld NvmeofError A) : keeper m -> reports (or_failure what m (fun _ => ret [])) (fun _ => True).
Proof. intros Hm. apply reports_last. intros w. eapply wp_mono; [|apply Hm]. by split. Qed.

Lemma reports_collect {A} (l : list A) f (P : A -> BlockWorld -> Prop) :
  (forall a, a ∈ l -> reports (f a) (P a)) -> (forall a w w', P a w -> kept w w' -> P a w') ->
  reports (collect l f) (fun w => forall a, a ∈ l -> P a w).
Proof.
  intros Hf Hst. induction l as [|a l IH]; intros w; cbn [collect].
  - apply wp_ret. split; [done|]. eexists. split; [done|]. by intros _ a ?%not_elem_of_nil.
  - apply wp_bind. eapply wp_mono; [|apply (Hf a); by left]. intros r w1 (Hw1 & fs & -> & Hp).
    apply wp_bind. eapply wp_mono; [|apply IH; intros b Hb; apply Hf; by right]. intros r w2 (Hw2 & fs2 & -> & Hall).
    apply wp_ret. split; [by etrans|]. eexists. split; [done|]. intros [-> ->]%app_eq_nil b [-> |Hb]%elem_of_cons; [|auto].
    apply (Hst _ w1); auto.
Qed.

Lemma reports_namespace s n :
  s ∈ ss -> n ∈ ss_namespaces s ->
  reports (restore_one_namespace e (ss_nqn s) n) (fun w => sound (bw_tree w) (ns_path (ss_nqn s) (ns_nsid n))).
Proof.
  intros Hs Hn. apply reports_failure; [apply keeper_ensure_dir|intros _]. apply reports_last. intros w.
  eapply wp_mono; [|by apply (wp_restore_namespace s n w w)]. intros [[]|er] w' [Hk Hr]; (split; [done|]); [|done]. intros _. by apply Hr.
Qed.

Lemma reports_host nqn h : reports (restore_host nqn h) (fun _ => True).
Proof. apply reports_failure; [apply keeper_ensure_dir|intros _]. apply reports_keeper_last, keeper_ensure_symlink. Qed.

(** Computations that do not fail. *)
Definition total {E A} (m : M BlockWorld E A) : Prop := forall w, is_ok (m w).1 = true.

Lemma total_bind {E A B} (m : M BlockWorld E A) (f : A -> M BlockWorld E B) : total m -> (forall a, total (f a)) -> total (bind m f).
Proof. intros Hm Hf w. unfold bind. specialize (Hm w). destruct (m w) as [[a|] w']; [apply Hf|done]. Qed.

Lemma total_attempt {E F A} (m : M BlockWorld F A) : total (attempt (F := E) m).
Proof. intros w. unfold attempt. by destruct (m w). Qed.

Lemma total_read_attr p a : total (read_attr p a).
Proof. apply total_bind; [apply total_attempt|done]. Qed.

Lemma total_find_existing_port a b c d : total (find_existing_port a b c d).
Proof.
  apply total_bind; [apply total_attempt|]. intros [names|]; [|done]. induction names as [|n names IH]; [done|].
  apply total_bind; [apply total_attempt|]. intros [_|]; [|done]. apply total_bind; [|by intros [|]].
  destruct (parse_port_id n) as [id|]; [|done]. repeat (apply total_bind; [apply total_read_attr|intros ?]). done.
Qed.

Lemma reports_port nqn (po : Port) : reports (restore_port nqn po) (fun _ => True).
Proof.
  intros w. apply wp_bind. pose proof (total_find_existing_port (pt_transport po) (pt_addr po)
    (default 4420%Z (parse_port_id (pt_service_id po))) (pt_addr_family po) w) as Ht.
  pose proof (keeper_find_existing_port (pt_transport po) (pt_addr po)
    (default 4420%Z (parse_port_id (pt_service_id po))) (pt_addr_family po) w) as Hk. unfold keeps, wp in Hk. unfold wp at 1.
  destruct (find_existing_port _ _ _ _ w) as [[o|] w1]; [|done]. cbn in Hk |- *.
  eapply wp_mono with (P := fun r w2 => kept w1 w2 /\ exists fs, r = Ok fs /\ (fs = [] -> True)).
  { intros r w2 [Hw2 Hr]. split; [by etrans|done]. }
  destruct o as [id|]; [apply reports_keeper_last, keeper_ensure_symlink|].
  apply reports_failure; [apply keeper_ensure_dir|intros _]. apply reports_failure; [apply keeper_configure_port|intros _].
  apply reports_keeper_last, keeper_ensure_symlink.
Qed.

Definition restored s w : Prop := forall n, n ∈ ss_namespaces s -> sound (bw_tree w) (ns_path (ss_nqn s) (ns_nsid n)).

Lemma restored_kept s w w' : restored s w -> kept w w' -> restored s w'.
Proof. intros Hr [_ Hk] n Hn. by apply Hk, Hr. Qed.

Lemma reports_subsystem s : s ∈ ss -> reports (restore_subsystem e s) (restored s).
Proof.
  intros Hs. apply reports_failure; [apply keeper_ensure_dir|intros _].
  apply reports_failure; [by apply keeper_write|intros _]. intros w.
  apply wp_bind. eapply wp_mono; [|apply (reports_collect _ _ (fun n w => sound (bw_tree w) (ns_path (ss_nqn s) (ns_nsid n))))].
  2: { intros n Hn. by apply reports_namespace. }
  2: { intros n w1 w2 Hn [_ Hk]. by apply Hk. }
  intros r w1 (Hw1 & fs1 & -> & Hr1).
  apply wp_bind. eapply wp_mono; [|apply (reports_collect _ _ (fun _ _ => True)); [intros h _; apply reports_host|done]].
  intros r w2 (Hw2 & fs2 & -> & _).
  apply wp_bind. eapply wp_mono; [|apply (reports_collect _ _ (fun _ _ => True)); [intros h _; apply reports_port|done]].
  intros r w3 (Hw3 & fs3 & -> & _). apply wp_ret. assert (kept w1 w3) by (by etrans). split; [by etrans|].
  eexists. split; [done|]. intros [-> _]%app_eq_nil. apply (restored_kept s w1); [|done]. intros n Hn. by apply Hr1.
Qed.

End Sound.

(** ** The call *)

Section Restore.
Context `{StartsDisabled} `{!Codec NvmeofSubsystem} `{!CodecLaws NvmeofSubsystem} `{!Codec Json} (e : NvmeofEnv).
Implicit Types (w : BlockWorld).

Abbreviation subsystem_at w id := (stored (T := NvmeofSubsystem) NVMEOF_STATE_DIR (bw_disk w) id).
Abbreviation in_order w := (dir_ok (T := NvmeofSubsystem) NVMEOF_STATE_DIR (bw_disk w)).

(** All the records. *)
Definition records w (ss : list NvmeofSubsystem) : Prop :=
  NoDup (ss_id <$> ss) /\ forall s, s ∈ ss <-> valid_id (ss_id s) /\ subsystem_at w (ss_id s) = Some s.

(** A disk call that only reads. *)
Lemma wp_disk_read {E A} (f : IoErr -> E) (m : Faults -> M Disk IoErr A) (Q : result A E -> BlockWorld -> Prop) w :
  (forall F, (m F (bw_disk w)).2 = bw_disk w) ->
  (forall w', after w w' -> bw_tree w' = bw_tree w -> Q (map_err f (m (next_plan w) (bw_disk w)).1) w') -> wp (disk_call f m) Q w.
Proof.
  intros Hm Hq. apply wp_disk_call. unfold wp. rewrite Hm. apply Hq; [|done]. split_and!; [done| |done]. cbn.
  destruct (bw_plan w) as [|F l]; [done|]. by exists [F].
Qed.

Lemma wp_all_subsystems (Q : result (list NvmeofSubsystem) NvmeofError -> BlockWorld -> Prop) w :
  in_order w -> Forall honest (bw_plan w) ->
  (forall ss w', records w ss -> calm w w' -> Q (Ok ss) w') -> (forall er w', calm w w' -> Q (Err er) w') ->
  wp all_subsystems Q w.
Proof.
  intros Hd Hh Hok Herr. apply wp_disk_read; [intros F; apply load_all_strict_disk|]. intros w' Ha Ht.
  destruct (load_all_strict (next_plan w) NVMEOF_STATE_DIR (bw_disk w)) as [[ss|er] d] eqn:El; cbn; [|apply Herr; by split].
  apply Hok; [|by split]. apply (load_all_strict_stored NVMEOF_STATE_DIR (next_plan w) (bw_disk w)); [done|by apply honest_next|by rewrite El].
Qed.

(** Whether protocols.json says that NVMe-oF is on. *)
Definition nvmeof_on (d : Disk) : Prop :=
  exists f v, d !! PROTOCOLS_PATH = Some f /\ is_regular f = true /\ decode (f_content f) = Ok v /\ json_get v "nvmeof" ≫= as_bool = Some true.

Lemma protocol_read F d : nvmeof_on d -> fault F OpRead PROTOCOLS_PATH = None ->
  exists text v, (read_to_string F PROTOCOLS_PATH d).1 = Ok text /\ decode text = Ok v /\ json_get v "nvmeof" ≫= as_bool = Some true.
Proof.
  intros (f & v & Hf & Hr & Hd & Hv) HF. exists (f_content f), v. split_and!; [|done..].
  unfold read_to_string, bind, check, gets, lift, throw, ret. rewrite HF. cbn -[resolve PROTOCOLS_PATH].
  rewrite resolve_plain by (intros ?; rewrite Hf; by intros [= <-]). by rewrite Hf.
Qed.

(** [restore] never puts a live namespace on a device no record gives it; if it
    reports no failure, every recorded namespace is as its record says. *)
Lemma wp_restore ss w :
  in_order w -> Forall honest (bw_plan w) -> (forall F, F ∈ bw_plan w -> fault F OpRead PROTOCOLS_PATH = None) ->
  records w ss ->
  wp (restore e) (fun r w' => kept ss w w' /\
    (r = Ok tt -> nvmeof_on (bw_disk w) -> forall s, s ∈ ss -> restored ss s w')) w.
Proof.
  intros Hd Hh HF [Hnd Hall]. unfold restore, protocol_on. apply wp_bind, wp_bind, wp_attempt.
  apply wp_disk_read; [intros F; apply read_to_string_disk|]. intros w1 Ha1 Ht1. apply wp_ret.
  assert (kept ss w w1) as Hk1 by (apply calm_kept; by split).
  set (on := match _ with Ok _ => _ | Err _ => _ end). destruct (negb on) eqn:Hon.
  { apply wp_ret. split; [done|]. intros _ Hn. exfalso. apply (protocol_read (next_plan w)) in Hn.
    2: { unfold next_plan. destruct (bw_plan w) as [|F l] eqn:E; [done|]. apply HF. by left. }
    destruct Hn as (text & v & Hr & Hv & Hj). subst on. rewrite Hr in Hon. cbn in Hon. rewrite Hv, Hj in Hon. done. }
  apply wp_bind, wp_all_subsystems.
  - destruct Ha1 as [-> _]. done.
  - by apply (after_plan w).
  - intros ss' w2 [_ Hall'] Hc2. assert (forall s, s ∈ ss' <-> s ∈ ss) as Hsame.
    { intros s. destruct Ha1 as [Hd1 _]. by rewrite Hall, Hall', Hd1. }
    assert (kept ss w w2) as Hk2 by (etrans; [exact Hk1|by apply calm_kept]).
    destruct ss' as [|s0 ss']; [apply wp_ret; split; [done|]; intros _ _ s Hs; by apply Hsame, not_elem_of_nil in Hs|].
    apply wp_bind. eapply wp_mono; [|apply (reports_collect ss _ _ (restored ss))].
    + intros r w3 (Hw3 & fs & -> & Hr). destruct fs; [apply wp_ret|apply wp_throw]; (split; [by etrans|]); [|done].
      intros _ _ s Hs. by apply Hr, Hsame.
    + intros s Hs. by apply reports_subsystem, Hsame.
    + intros s wa wb. apply restored_kept.
  - intros er w2 Hc2. split; [|done]. etrans; [exact Hk1|by apply calm_kept].
Qed.

End Restore.

(** ** Namespaces find their own volumes

    [remap_device_paths] gives each namespace the device its volume has now. It
    calls restoring safe only if that worked for every namespace, was recorded,
    and the kernel holds no namespace of the engine that is not recorded. *)

(** A managed namespace is on the device its volume has now. *)
Definition ns_resolved (m : BlockDeviceMappings) (n : Namespace) : Prop :=
  is_managed_namespace n = true ->
  ns_backing_volume_unresolved n = false /\
  exists v, ns_backing_volume n = Some v /\ bm_current m !! v = Some (ns_device_path n).

Lemma resolve_ns_same path v b n :
  path = ns_device_path n -> v = ns_backing_volume n -> b = ns_backing_volume_unresolved n -> resolve_ns path v b n = n.
Proof. destruct n. cbn. by intros -> -> ->. Qed.

Lemma remap_namespace_spec m n :
  let '(n', changed, safe) := remap_namespace m n in
  (safe = true -> ns_resolved m n') /\ (changed = false -> n' = n) /\ ns_nsid n' = ns_nsid n.
Proof.
  unfold remap_namespace. destruct (is_managed_namespace n) eqn:Hm; cbn [negb].
  2: { split_and!; try done. intros _ Hm'. congruence. }
  set (identity := match ns_backing_volume n with Some v => Some v | None => _ end).
  destruct identity as [v|] eqn:Hi; cbn [mbind option_bind].
  2: { split_and!; try done. intros Hu%negb_false_iff. by apply resolve_ns_same. }
  destruct (bm_current m !! v) as [path|] eqn:Hc.
  2: { split_and!; try done. intros Hu%negb_false_iff. by apply resolve_ns_same. }
  split_and!; try done.
  - intros _ _. split; [done|]. by exists v.
  - intros [[Hv%negb_false_iff Hp%negb_false_iff]%orb_false_iff Hu]%orb_false_iff.
    apply bool_decide_eq_true in Hv. apply eqb_spec in Hp. by apply resolve_ns_same.
Qed.

Lemma remap_subsystem_spec m s :
  let '(s', changed, safe) := remap_subsystem m s in
  ss_id s' = ss_id s /\ ss_nqn s' = ss_nqn s /\ ns_nsid <$> ss_namespaces s' = ns_nsid <$> ss_namespaces s /\
  (safe = true -> forall n, n ∈ ss_namespaces s' -> ns_resolved m n) /\ (changed = false -> s' = s).
Proof.
  cbn. split_and!; try done.
  - induction (ss_namespaces s) as [|n l IH]; [done|]. cbn. f_equal; [|done].
    pose proof (remap_namespace_spec m n) as Hn. destruct (remap_namespace m n) as [[n' c] f]. by apply Hn.
  - intros Hs n (r & -> & Hr)%list_elem_of_fmap. pose proof (proj1 (forallb_forall _ _) Hs r) as Hsafe.
    rewrite <- list_elem_of_In in Hsafe. specialize (Hsafe Hr). apply list_elem_of_fmap in Hr as (n0 & -> & _).
    pose proof (remap_namespace_spec m n0) as Hn. destruct (remap_namespace m n0) as [[n' c] f]. cbn in *. by apply Hn.
  - intros Hc. destruct s as [id nqn nss ps hs any en]. unfold set_namespaces. cbn in *. f_equal.
    induction nss as [|n nss IH]; [done|]. cbn in *. apply orb_false_iff in Hc as [Hn Hc]. rewrite IH by done. f_equal.
    pose proof (remap_namespace_spec m n) as Hs. destruct (remap_namespace m n) as [[n' c] f]. cbn in *. by apply Hs.
Qed.

Section Remap.
Context `{ConfigFs} `{!Codec NvmeofSubsystem} `{!CodecLaws NvmeofSubsystem} `{!Codec Json}.
Implicit Types (w : BlockWorld) (m : BlockDeviceMappings) (ss : list NvmeofSubsystem).

Abbreviation subsystem_at w id := (stored (T := NvmeofSubsystem) NVMEOF_STATE_DIR (bw_disk w) id).
Abbreviation in_order w := (dir_ok (T := NvmeofSubsystem) NVMEOF_STATE_DIR (bw_disk w)).

(** The kernel's objects are untouched; records may have been written. *)
Definition rewrote w w' : Prop :=
  bw_tree w' = bw_tree w /\ bw_plan w' `suffix_of` bw_plan w /\ k_faults (bw_kernel w') `suffix_of` k_faults (bw_kernel w) /\
  forall p, ~ (exists n, p = dir NVMEOF_STATE_DIR ++ [n])%list -> bw_disk w' !! p = bw_disk w !! p.

#[export] Instance rewrote_preorder : PreOrder rewrote.
Proof.
  split; [by intros w; split_and!|]. intros a b c (? & ? & ? & Hb) (? & ? & ? & Hc).
  split_and!; [congruence|by etrans|by etrans|]. intros p Hp. by rewrite Hc, Hb.
Qed.

Lemma calm_rewrote w w' : calm w w' -> rewrote w w'.
Proof. intros [(Hd & Hp & Hf) Ht]. split_and!; [done..|]. by rewrite Hd. Qed.

Lemma rewrote_plain w w' : plain (bw_disk w) -> in_order w' -> rewrote w w' -> plain (bw_disk w').
Proof.
  intros Hp Hd (_ & _ & _ & Hout) p f Hf.
  destruct (decide (parent p = Some (dir NVMEOF_STATE_DIR))) as [[n ->]%parent_snoc|Hnp]; [by eapply (dir_plain _ _ Hd)|].
  rewrite Hout in Hf; [by eapply Hp|]. intros [n ->]. by apply Hnp.
Qed.

(** A subsystem is saved if it changed. *)
Lemma wp_save_changed (s' : NvmeofSubsystem) (changed : bool) w :
  in_order w -> valid_id (ss_id s') -> (changed = false -> subsystem_at w (ss_id s') = Some s') ->
  wp (E := NvmeofError) (if changed then r <- attempt (save_subsystem s') ;; ret (is_ok r) else ret true)
    (fun r w1 => exists saved, r = Ok saved /\ in_order w1 /\ rewrote w w1 /\ (changed = false -> w1 = w) /\
       (forall i, valid_id i -> i <> ss_id s' -> subsystem_at w1 i = subsystem_at w i) /\
       (saved = true -> subsystem_at w1 (ss_id s') = Some s')) w.
Proof.
  intros Hd Hv Hst. destruct changed; [|apply wp_ret; exists true; split_and!; try done; intros _; by apply Hst].
  apply wp_bind, wp_attempt, wp_disk_call.
  destruct (save_stored NVMEOF_STATE_DIR (next_plan w) (bw_disk w) s' Hd Hv) as (Hd' & Hoth & Hr).
  pose proof (proj1 Hv) as Hs. destruct (save_spec (next_plan w) NVMEOF_STATE_DIR (ss_id s') s' (bw_disk w) Hs) as (Hf & _).
  { rewrite tmp_path_eq by done. apply (dir_plain _ _ Hd). }
  rewrite item_path_eq, tmp_path_eq in Hf by done.
  unfold wp. change (id_of s') with (ss_id s') in *. destruct (save _ NVMEOF_STATE_DIR (ss_id s') s' (bw_disk w)) as [r d]. cbn in *.
  exists (is_ok (map_err NvIo r)). split_and!; try done.
  - split_and!; [done| |done|].
    + cbn. destruct (bw_plan w) as [|F l]; [done|]. by exists [F].
    + intros p Hp. apply Hf; intros ->; apply Hp; by eexists.
  - destruct r as [[]|]; [|done]. intros _. apply Hr.
Qed.

(** The records after the loop, if restoring is safe. *)
Definition all_resolved m ss w : Prop :=
  exists ss', ss_id <$> ss' = ss_id <$> ss /\ ss_nqn <$> ss' = ss_nqn <$> ss /\
    ((fun s => ns_nsid <$> ss_namespaces s) <$> ss') = ((fun s => ns_nsid <$> ss_namespaces s) <$> ss) /\
    forall s, s ∈ ss' -> subsystem_at w (ss_id s) = Some s /\ forall n, n ∈ ss_namespaces s -> ns_resolved m n.

Lemma wp_remap_subsystems m ss safe any w :
  in_order w -> NoDup (ss_id <$> ss) -> (forall s, s ∈ ss -> valid_id (ss_id s) /\ subsystem_at w (ss_id s) = Some s) ->
  wp (remap_subsystems m ss safe any) (fun r w' => exists out, r = Ok out /\ in_order w' /\ rewrote w w' /\
    (forall i, valid_id i -> i ∉ ss_id <$> ss -> subsystem_at w' i = subsystem_at w i) /\
    (out.1 = true -> safe = true /\ all_resolved m ss w') /\ (out.2 = false -> any = false /\ w' = w)) w.
Proof.
  revert safe any w. induction ss as [|s ss IH]; intros safe any w Hd Hn Hall; cbn [remap_subsystems].
  { apply wp_ret. exists (safe, any). split_and!; try done. intros Hs. split; [done|]. exists []. split_and!; try done.
    by intros s ?%not_elem_of_nil. }
  apply list.NoDup_cons in Hn as [Hns Hn]. destruct (Hall s ltac:(by left)) as [Hv Hst].
  pose proof (remap_subsystem_spec m s) as Hsp. destruct (remap_subsystem m s) as [[s' changed] subsystem_safe].
  destruct Hsp as (Hid & Hnqn & Hids & Hres & Hch).
  apply wp_bind. eapply wp_mono; [|apply (wp_save_changed s' changed); [done|by rewrite Hid|by intros ->%Hch]].
  intros r w1 (saved & -> & Hd1 & Hw1 & Hsame & Hoth & Hst1). rewrite Hid in *.
  eapply wp_mono; [|apply IH; [done|done|]]; cycle 1.
  { intros s1 Hs1. destruct (Hall s1 ltac:(by right)) as [Hv1 Hst']. split; [done|]. rewrite Hoth; [done..|].
    intros E. apply Hns. rewrite <- E. by apply (list_elem_of_fmap_2 ss_id). }
  intros r w2 (out & -> & Hd2 & Hw2 & Hoth2 & Hsafe & Hany). exists out. split_and!; try done; [by etrans|..].
  - intros i Hi [Hne Hni]%not_elem_of_cons. rewrite Hoth2, Hoth by done. done.
  - intros Ho. destruct (Hsafe Ho) as [[[-> ->]%andb_prop ->]%andb_prop (ss' & E1 & E2 & E3 & Hr)]. split; [done|].
    exists (s' :: ss'). split_and!; [by cbn; rewrite E1, Hid|by cbn; rewrite E2, Hnqn|by cbn; rewrite E3, Hids|].
    intros s1 [-> |Hs1]%elem_of_cons; [|by apply Hr]. split; [|by apply Hres]. rewrite Hid, Hoth2 by done. by apply Hst1.
  - intros [[-> Hc]%orb_false_iff ->]%Hany. split; [done|]. by apply Hsame.
Qed.

(** The records after the loop are the ones it made. *)
Lemma all_resolved_records m ss w w' :
  records w ss -> (forall i, valid_id i -> i ∉ ss_id <$> ss -> subsystem_at w' i = subsystem_at w i) -> all_resolved m ss w' ->
  exists ss', records w' ss' /\ (forall s n, s ∈ ss' -> n ∈ ss_namespaces s -> ns_resolved m n) /\
    forall nqn n, known ss nqn n -> known ss' nqn n.
Proof.
  intros [Hnd Hall] Hoth (sr & E1 & E2 & E3 & Hr). exists sr. split_and!.
  - split; [by rewrite E1|]. intros s. split.
    + intros Hs. split; [|by apply Hr]. apply (list_elem_of_fmap_2 ss_id) in Hs. rewrite E1 in Hs.
      apply list_elem_of_fmap in Hs as (s0 & -> & Hs0). by apply Hall.
    + intros [Hv Hst]. destruct (decide (ss_id s ∈ ss_id <$> ss)) as [Hin|Hin].
      * rewrite <- E1 in Hin. apply list_elem_of_fmap in Hin as (s1 & Hs1 & Hin). destruct (Hr s1 Hin) as [Hst1 _].
        rewrite <- Hs1, Hst in Hst1. by injection Hst1 as ->.
      * exfalso. apply Hin, (list_elem_of_fmap_2 ss_id), Hall. split; [done|]. by rewrite <- Hoth.
  - intros s n Hs. by apply Hr.
  - intros nqn n (s & nsid & Hs & Hq & Hp & Hi). apply list_elem_of_lookup in Hs as [i Hs].
    assert (exists s1, sr !! i = Some s1) as [s1 Hs1].
    { apply lookup_lt_is_Some. rewrite <- (length_fmap ss_id), E1, length_fmap. by eapply lookup_lt_Some. }
    exists s1, nsid. split_and!; [by apply list_elem_of_lookup; exists i| |done|].
    + pose proof (f_equal (lookup i) E2) as E. rewrite !list_lookup_fmap, Hs, Hs1 in E. injection E as ->. done.
    + pose proof (f_equal (lookup i) E3) as E. rewrite !list_lookup_fmap, Hs, Hs1 in E. injection E as ->. done.
Qed.

(** What a remapping leaves. *)
Lemma wp_remap_nvmeof m w :
  in_order w -> Forall honest (bw_plan w) -> honest_kernel (bw_kernel w) ->
  wp (remap_device_paths_nvmeof m) (fun r w' => exists o, r = Ok o /\ in_order w' /\ rewrote w w' /\
    (safe_to_restore o = true -> exists ss, records w' ss /\
       (forall s n, s ∈ ss -> n ∈ ss_namespaces s -> ns_resolved m n) /\
       (forall nqn n, live (bw_tree w) nqn n -> known ss nqn n)) /\
    (ro_changed o = false -> bw_disk w' = bw_disk w)) w.
Proof.
  intros Hd Hh Hk. unfold remap_device_paths_nvmeof. apply wp_bind, wp_attempt, wp_all_subsystems; [done..| |].
  2: { intros er w1 Hc1. apply wp_ret. eexists. split; [done|]. split_and!; [|by apply calm_rewrote|done|].
       - destruct Hc1 as [[-> _] _]. done.
       - intros _. apply Hc1. }
  intros ss w1 Hrec Hc1. apply wp_bind, wp_attempt.
  assert (bw_disk w1 = bw_disk w) as Hd1 by apply Hc1. assert (bw_tree w1 = bw_tree w) as Ht1 by apply Hc1.
  eapply wp_mono; [|apply wp_inventory, (after_honest w w1); [apply Hc1|done]].
  intros r w2 [Hc2 Hinv]. assert (bw_disk w2 = bw_disk w) as Hd2 by (destruct Hc2 as [[-> _] _]; done).
  assert (records w2 ss) as Hrec2 by (unfold records; by rewrite Hd2).
  apply wp_bind. eapply wp_mono; [|apply wp_remap_subsystems; [by rewrite Hd2|apply Hrec2|by intros s ?%Hrec2]].
  intros r' w3 (out & -> & Hd3 & Hw3 & Hoth & Hsafe & Hany). apply wp_ret. eexists. split; [done|]. cbn. split_and!.
  - done.
  - etrans; [by apply calm_rewrote|]. etrans; [by apply calm_rewrote|done].
  - intros Ho. destruct (Hsafe Ho) as [Hok Hres].
    destruct (all_resolved_records m ss w2 w3 Hrec2 Hoth Hres) as (ss' & Hrec' & Hr & Hkn). exists ss'. split_and!; [done..|].
    intros nqn n Hl. apply Hkn, Hinv; [by destruct r as [[]|]|by rewrite Ht1].
  - intros [_ ->]%Hany. done.
Qed.

End Remap.
