(* ===== verification/Protocol.v ===== *)
(** * Protocol management: engine/nasty-system/src/protocol.rs

    Which protocols the operator wants is in protocols.json; the services of a
    protocol are systemd units. Enabling persists first and rolls back what it
    can when a unit does not start. What nut.rs, watchdog.rs, rest_server.rs,
    rdma.rs, dc.rs and network.rs answer, and how each run of [systemctl] and
    [modprobe] ends, is the environment's. The NFS-over-RDMA listener and the
    discovery daemons, whose failures are only logged, are left out.

    ** Which protocols come up

    [restore_excluding] starts the services of the protocols the operator wants
    and storage allows, and of no others; what it returns is what is up. *)
From Stdlib Require Import String Ascii ZArith.
From stdpp Require Import base list gmap strings numbers.
From S2P Require Import Prelude RustStr Disk StateStore Records JsonRpc FirewallRules ConfigFs BlockWorld.

Open Scope string_scope.
Open Scope rust_scope.

#[export] Instance Protocol_eq_dec : EqDecision Protocol.
Proof. solve_decision. Defined.

Definition is_system_service (p : Protocol) : bool :=
  match p with Nut | Ssh | Avahi | Smart | Watchdog | RestServer => true | _ => false end.

Definition display_name (p : Protocol) : string :=
  match p with
  | Nfs => "NFS" | Smb => "SMB" | Iscsi => "iSCSI" | Nvmeof => "NVMe-oF" | Nut => "UPS (NUT)" | Ssh => "SSH"
  | Avahi => "mDNS (Avahi)" | Smart => "SMART" | Watchdog => "Watchdog" | RestServer => "Backup Server"
  end.

(** nut.rs: the modes, with the units and the unit that tells the health of each. *)
Inductive NutMode := NutLocal | NutRemote.
Definition ALL_NUT_SERVICES : list string := ["nut-driver.service"; "nut-server.service"; "nut-monitor.service"].
Definition services_for_mode (m : NutMode) : list string :=
  match m with NutLocal => ALL_NUT_SERVICES | NutRemote => ["nut-monitor.service"] end.
Definition status_unit (m : NutMode) : string :=
  match m with NutLocal => "nut-server.service" | NutRemote => "nut-monitor.service" end.

Record ProtocolState := mkProtocolState {
  st_nfs : bool; st_smb : bool; st_iscsi : bool; st_nvmeof : bool; st_nut : bool;
  st_ssh : bool; st_avahi : bool; st_smart : bool; st_watchdog : bool; st_rest_server : bool
}.

(** [ProtocolState::default()]. *)
Definition protocol_default : ProtocolState := mkProtocolState false false false false false true true true false false.

Definition st_get (s : ProtocolState) (p : Protocol) : bool :=
  match p with
  | Nfs => st_nfs s | Smb => st_smb s | Iscsi => st_iscsi s | Nvmeof => st_nvmeof s | Nut => st_nut s
  | Ssh => st_ssh s | Avahi => st_avahi s | Smart => st_smart s | Watchdog => st_watchdog s | RestServer => st_rest_server s
  end.

Definition st_set (s : ProtocolState) (p : Protocol) (b : bool) : ProtocolState :=
  let '(mkProtocolState nfs smb iscsi nvmeof nut ssh avahi smart watchdog rest) := s in
  match p with
  | Nfs => mkProtocolState b smb iscsi nvmeof nut ssh avahi smart watchdog rest
  | Smb => mkProtocolState nfs b iscsi nvmeof nut ssh avahi smart watchdog rest
  | Iscsi => mkProtocolState nfs smb b nvmeof nut ssh avahi smart watchdog rest
  | Nvmeof => mkProtocolState nfs smb iscsi b nut ssh avahi smart watchdog rest
  | Nut => mkProtocolState nfs smb iscsi nvmeof b ssh avahi smart watchdog rest
  | Ssh => mkProtocolState nfs smb iscsi nvmeof nut b avahi smart watchdog rest
  | Avahi => mkProtocolState nfs smb iscsi nvmeof nut ssh b smart watchdog rest
  | Smart => mkProtocolState nfs smb iscsi nvmeof nut ssh avahi b watchdog rest
  | Watchdog => mkProtocolState nfs smb iscsi nvmeof nut ssh avahi smart b rest
  | RestServer => mkProtocolState nfs smb iscsi nvmeof nut ssh avahi smart watchdog b
  end.

Record ProtocolStatus := mkStatus {
  sp_name : string; sp_display_name : string; sp_enabled : bool; sp_running : bool; sp_system_service : bool
}.

Definition status_of (p : Protocol) (enabled running : bool) : ProtocolStatus :=
  mkStatus (protocol_name p) (display_name p) enabled running (is_system_service p).

(** ** The world *)

(** The engine's disk and kernel, the units that are active, and how the next
    runs of [systemctl] and [modprobe] end: a failed run leaves the unit in the
    state it says. *)
Record ProtoWorld := mkProtoWorld {
  pw_block : BlockWorld;
  pw_units : gmap string bool;
  pw_runs : list (result unit (string * bool))
}.

(** What the other modules answer. *)
Record ProtoEnv := mkProtoEnv {
  pe_hosts_domain : bool;
  pe_rdma : bool;
  pe_nut_mode : NutMode;
  pe_virtual : bool;
  pe_watchdog_config : result unit string;
  pe_watchdog_verify : result unit string;
  pe_watchdog_stop : result unit string;
  pe_smb_conf_exists : bool
}.

(** The directories a kernel module brings. *)
Class KernelModules := module_dirs : string -> list Path.

Definition CONFIG_DIR : StateDir := mkStateDir ["var"; "lib"; "nasty"].
Definition SMB_NASTY_CONF : Path := ["etc"; "samba"; "smb.nasty.conf"].
Definition SMB_CONF_HEADER : string := "# Managed by NASty — do not edit manually" ++ String (ascii_of_nat 10) "".

Section Service.
Context `{ConfigFs} `{KernelModules} `{!Codec ProtocolState} (e : ProtoEnv).

Abbreviation P := (M ProtoWorld string).

Definition set_block (b : BlockWorld) (w : ProtoWorld) : ProtoWorld := mkProtoWorld b (pw_units w) (pw_runs w).

(** A step on the disk or the kernel. *)
Definition on_block {E F A} (f : E -> F) (m : M BlockWorld E A) : M ProtoWorld F A := fun w =>
  let '(r, b) := m (pw_block w) in (map_err f r, set_block b w).

(** [Protocol::services]. *)
Definition services (p : Protocol) : list string :=
  match p with
  | Nfs => ["nfs-server.service"]
  | Smb => ["samba-smbd.service"; "samba-nmbd.service"; "samba-wsdd.service"]
  | Iscsi => ["target.service"]
  | Nvmeof => []
  | Nut => services_for_mode (pe_nut_mode e)
  | Ssh => ["sshd.service"]
  | Avahi => ["avahi-daemon.service"]
  | Smart => ["smartd.service"]
  | Watchdog => ["nasty-watchdog.service"]
  | RestServer => ["nasty-rest-server.service"]
  end.

(** A failed stop starts nothing. *)
Definition systemctl (action service : string) : P unit := fun w =>
  let rest := tail (pw_runs w) in
  let was := default false (pw_units w !! service) in
  match default (Ok tt) (head (pw_runs w)) with
  | Ok _ => (Ok tt, mkProtoWorld (pw_block w) (<[service := negb (action =s "stop")]> (pw_units w)) rest)
  | Err (msg, active) => (Err msg, mkProtoWorld (pw_block w) (<[service := active && (was || negb (action =s "stop"))]> (pw_units w)) rest)
  end.

Definition systemctl_is_active (service : string) : P bool := gets (fun w => default false (pw_units w !! service)).

(** A module that loads brings its directories. *)
Definition add_dirs (dirs : list Path) (k : Kernel) : Kernel :=
  mkKernel (fold_left (fun t p => match t !! p with None => <[p := NDir false]> t | Some _ => t end) dirs (k_tree k)) (k_faults k).
Definition modprobe (module : string) : P unit := fun w =>
  let rest := tail (pw_runs w) in
  match default (Ok tt) (head (pw_runs w)) with
  | Ok _ => (Ok tt, mkProtoWorld (set_kernel (add_dirs (module_dirs module) (bw_kernel (pw_block w))) (pw_block w)) (pw_units w) rest)
  | Err (msg, _) => (Err msg, mkProtoWorld (pw_block w) (pw_units w) rest)
  end.

Definition protocol_modules (p : Protocol) : list string :=
  match p with
  | Iscsi => ["target_core_mod"; "iscsi_target_mod"] ++ (if pe_rdma e then ["ib_isert"] else [])
  | Nvmeof => ["nvmet"; "nvmet-tcp"] ++ (if pe_rdma e then ["nvmet-rdma"] else [])
  | _ => []
  end%list.

(** ** The state file *)

Definition save_state (s : ProtocolState) : P unit :=
  on_block (fun x => x) (disk_call (fun er => "failed to write protocol state: " ++ display_io er) (fun F => save F CONFIG_DIR "protocols" s)).

Definition load_state : P ProtocolState :=
  r <- attempt (on_block (fun x => x) (disk_call id (fun F => read_to_string F (item_path CONFIG_DIR "protocols")))) ;;
  match r with
  | Ok content => ret (match decode content with Ok s => s | Err _ => protocol_default end)
  | Err _ =>
      let s := if pe_virtual e then st_set protocol_default Smart false else protocol_default in
      ignore (save_state s) ;;;
      ret s
  end.

(** ** Starting *)

(** The samba file must be there; the watchdog is checked before it is armed. *)
Definition prepare_protocol (p : Protocol) : P unit :=
  match p with
  | Smb =>
      if pe_smb_conf_exists e then ret tt
      else ignore (on_block (fun x => x) (disk_call display_io (fun F => fs_write F SMB_NASTY_CONF SMB_CONF_HEADER)))
  | Watchdog => lift (pe_watchdog_config e)
  | _ => ret tt
  end.

(** [watchdog::stop_and_verify]. *)
Definition stop_watchdog : P unit := fun w =>
  match pe_watchdog_stop e with
  | Ok _ => (Ok tt, mkProtoWorld (pw_block w) (<["nasty-watchdog.service" := false]> (pw_units w)) (pw_runs w))
  | Err msg => (Err msg, w)
  end.

Definition is_protocol_running (p : Protocol) : P bool :=
  match p with
  | Nfs => systemctl_is_active "nfs-server.service"
  | Smb => systemctl_is_active "samba-smbd.service"
  | Iscsi => systemctl_is_active "target.service"
  | Nvmeof => on_block display_io (kcall id (k_exists ["sys"; "kernel"; "config"; "nvmet"]))
  | Nut => systemctl_is_active (status_unit (pe_nut_mode e))
  | Ssh => systemctl_is_active "sshd.service"
  | Avahi => systemctl_is_active "avahi-daemon.service"
  | Smart => systemctl_is_active "smartd.service"
  | Watchdog => systemctl_is_active "nasty-watchdog.service"
  | RestServer => systemctl_is_active "nasty-rest-server.service"
  end.

Definition start_service (action : string) (p : Protocol) (service : string) : P unit :=
  systemctl action service ;;;
  match p with Watchdog => lift (pe_watchdog_verify e) | _ => ret tt end.

(** [if let Err(e2) = m { failure.push_str(what + e2) }]. *)
Definition append_failure (failure what : string) (m : P unit) : P string :=
  r <- attempt m ;;
  ret (match r with Ok _ => failure | Err e2 => failure ++ what ++ e2 end).

Definition stop_watchdog_if (p : Protocol) (failure : string) : P string :=
  match p with
  | Watchdog => append_failure failure "; failed to stop watchdog during rollback: " stop_watchdog
  | _ => ret failure
  end.

Definition is_enabled (p : Protocol) : P bool := s <- load_state ;; ret (st_get s p).
Definition is_running (p : Protocol) : P bool := is_protocol_running p.

(** [ProtocolService::quiesce]: the last service first, up to one that does not
    stop. *)
Definition quiesce_protocol (p : Protocol) : P unit := for_each (rev (services p)) (systemctl "stop").

Fixpoint list_of (s : ProtocolState) (ps : list Protocol) : P (list ProtocolStatus) :=
  match ps with
  | [] => ret []
  | p :: rest =>
      running <- is_protocol_running p ;;
      l <- list_of s rest ;;
      ret (status_of p (st_get s p) running :: l)
  end.
Definition list_protocols : P (list ProtocolStatus) := s <- load_state ;; list_of s ALL_PROTOCOLS.

(** The services of a protocol in order; a failure stops those started and
    takes the preference back. *)
Fixpoint start_services (p : Protocol) (s : ProtocolState) (svcs started : list string) : P unit :=
  match svcs with
  | [] => ret tt
  | svc :: rest =>
      r <- attempt (start_service "start" p svc) ;;
      match r with
      | Ok _ => start_services p s rest (started ++ [svc])%list
      | Err er =>
          let failure := "Failed to start " ++ display_name p ++ ": " ++ er in
          for_each started (fun st => ignore (systemctl "stop" st)) ;;;
          failure <- stop_watchdog_if p failure ;;
          failure <- append_failure failure "; state rollback failed: " (save_state (st_set s p false)) ;;
          throw failure
      end
  end.

Definition DC_REFUSAL : string :=
  "this box hosts an Active Directory domain — its domain controller serves SMB (shares included); demote it on the Settings → Directory panel before enabling standalone SMB".

Definition enable (name : string) : P ProtocolStatus :=
  match protocol_from_name name with
  | None => throw ("unknown protocol: " ++ name)
  | Some p =>
      throw_if (bool_decide (p = Smb) && pe_hosts_domain e) DC_REFUSAL ;;;
      s <- load_state ;;
      let s := st_set s p true in
      save_state s ;;;
      r <- attempt (prepare_protocol p) ;;
      match r with
      | Err er =>
          failure <- stop_watchdog_if p ("failed to prepare " ++ display_name p ++ ": " ++ er) ;;
          failure <- append_failure failure "; state rollback failed: " (save_state (st_set s p false)) ;;
          throw failure
      | Ok _ =>
          for_each (protocol_modules p) (fun md => ignore (modprobe md)) ;;;
          start_services p s (services p) [] ;;;
          running <- is_protocol_running p ;;
          ret (status_of p true running)
      end
  end.

Definition disable (name : string) : P ProtocolStatus :=
  match protocol_from_name name with
  | None => throw ("unknown protocol: " ++ name)
  | Some p =>
      s <- load_state ;;
      save_state (st_set s p false) ;;;
      match p with
      | Watchdog =>
          r <- attempt stop_watchdog ;;
          match r with
          | Err er => throw ("Watchdog is disabled in persistent state but could not be stopped: " ++ er)
          | Ok _ => ret (status_of Watchdog false false)
          end
      | _ =>
          for_each (services p) (fun svc => ignore (systemctl "stop" svc)) ;;;
          running <- is_protocol_running p ;;
          ret (status_of p false running)
      end
  end.

(** ** Start-up *)

(** The services of a protocol, up to one that does not start. *)
Fixpoint restore_services (p : Protocol) (svcs : list string) : P bool :=
  match svcs with
  | [] => ret true
  | svc :: rest =>
      r <- attempt (start_service (match p with Watchdog => "restart" | _ => "start" end) p svc) ;;
      match r with
      | Ok _ => restore_services p rest
      | Err _ => ret false
      end
  end.

(** One round of [restore_excluding]: the state, and whether the protocol is up. *)
Definition restore_protocol (excluded : list Protocol) (s : ProtocolState) (p : Protocol) : P (ProtocolState * bool) :=
  if negb (st_get s p) || bool_decide (p ∈ excluded) then
    (if negb (st_get s p) && bool_decide (p = Smart) then for_each (services p) (fun svc => ignore (systemctl "stop" svc)) else ret tt) ;;;
    (if bool_decide (p = Watchdog) then ignore stop_watchdog else ret tt) ;;;
    ret (s, false)
  else
    r <- attempt (prepare_protocol p) ;;
    match r with
    | Err _ =>
        let s := st_set s p false in
        ignore (save_state s) ;;;
        (if bool_decide (p = Watchdog) then ignore stop_watchdog else ret tt) ;;;
        ret (s, false)
    | Ok _ =>
        for_each (protocol_modules p) (fun md => ignore (modprobe md)) ;;;
        ok <- restore_services p (services p) ;;
        if ok : bool then ret (s, true)
        else
          (if bool_decide (p = Watchdog) then ignore stop_watchdog else ret tt) ;;;
          let s := st_set s p false in
          ignore (save_state s) ;;;
          ret (s, false)
    end.

Fixpoint restore_loop (excluded : list Protocol) (s : ProtocolState) (ps restored : list Protocol) : P (list Protocol) :=
  match ps with
  | [] => ret restored
  | p :: rest =>
      out <- restore_protocol excluded s p ;;
      restore_loop excluded out.1 rest (if out.2 then restored ++ [p] else restored)%list
  end.

Definition restore_excluding (excluded : list Protocol) : P (list Protocol) :=
  s <- load_state ;; restore_loop excluded s ALL_PROTOCOLS [].

Definition restore_protocols : P unit := ignore (restore_excluding []).

End Service.

Lemma st_get_set s p b q : st_get (st_set s p b) q = if decide (p = q) then b else st_get s q.
Proof. by destruct s, p, q. Qed.

(** The protocol a unit belongs to. *)
Definition owner (svc : string) : option Protocol :=
  List.find (fun p => bool_decide (svc ∈ match p with
    | Nfs => ["nfs-server.service"] | Smb => ["samba-smbd.service"; "samba-nmbd.service"; "samba-wsdd.service"]
    | Iscsi => ["target.service"] | Nvmeof => [] | Nut => ALL_NUT_SERVICES | Ssh => ["sshd.service"]
    | Avahi => ["avahi-daemon.service"] | Smart => ["smartd.service"] | Watchdog => ["nasty-watchdog.service"]
    | RestServer => ["nasty-rest-server.service"] end)) ALL_PROTOCOLS.

Section Props.
Context `{ConfigFs} `{KernelModules} `{!Codec ProtocolState} (e : ProtoEnv).
Implicit Types (w : ProtoWorld) (p q : Protocol).

Abbreviation active w svc := (pw_units w !! svc = Some true).

Lemma services_owner p svc : svc ∈ services e p -> owner svc = Some p.
Proof.
  unfold services, services_for_mode, ALL_NUT_SERVICES.
  destruct p; try destruct (pe_nut_mode e); intros Hs; repeat (apply elem_of_cons in Hs as [-> |Hs]; [reflexivity|]);
    by apply not_elem_of_nil in Hs.
Qed.

Lemma services_disjoint p q svc : svc ∈ services e p -> svc ∈ services e q -> p = q.
Proof. intros Hp%services_owner Hq%services_owner. congruence. Qed.

(** Only units of [p] changed. *)
Definition only p w w' : Prop := forall svc, svc ∉ services e p -> pw_units w' !! svc = pw_units w !! svc.

Lemma only_trans p w1 w2 w3 : only p w1 w2 -> only p w2 w3 -> only p w1 w3.
Proof. intros H12 H23 svc Hs. by rewrite H23, H12. Qed.

Lemma only_systemctl p a svc w : svc ∈ services e p -> keeps (only p w) (systemctl a svc) w.
Proof.
  intros Hs. unfold keeps, wp, systemctl. destruct (default _ _) as [|[msg act]]; intros s Hn; cbn;
    by rewrite lookup_insert_ne by (intros ->; done).
Qed.

Lemma same_units_block {E F A} (f : E -> F) (m : M BlockWorld E A) w : pw_units (on_block f m w).2 = pw_units w.
Proof. unfold on_block. by destruct (m (pw_block w)). Qed.

Lemma same_units_save s w : pw_units (save_state s w).2 = pw_units w.
Proof. apply same_units_block. Qed.

Lemma same_units_prepare p w : pw_units (prepare_protocol e p w).2 = pw_units w.
Proof.
  destruct p; try done. cbn. destruct (pe_smb_conf_exists e); [done|]. unfold ignore, bind, attempt.
  match goal with |- context [on_block ?f ?m w] => pose proof (same_units_block f m w) as Hu; destruct (on_block f m w) as [r w1] end.
  by cbn in *.
Qed.

Lemma same_units_modules l w : pw_units (for_each l (fun md => ignore (E := string) (modprobe md)) w).2 = pw_units w.
Proof.
  revert w. induction l as [|md l IH]; intros w; [done|]. cbn. unfold bind at 1, ignore, bind at 1, attempt.
  assert (pw_units (modprobe md w).2 = pw_units w) as Hm by (unfold modprobe; by destruct (default _ _) as [|[]]).
  destruct (modprobe md w) as [[]]; cbn in *; by rewrite IH.
Qed.

Lemma only_stop_watchdog w : keeps (only Watchdog w) (stop_watchdog e) w.
Proof.
  unfold keeps, wp, stop_watchdog. destruct (pe_watchdog_stop e); [|done]. intros svc Hs. cbn. rewrite lookup_insert_ne; [done|].
  intros <-. apply Hs. by left.
Qed.

(** Starting in order: all of them are up, or the result says so. *)
Lemma wp_restore_services p svcs w :
  (forall svc, svc ∈ svcs -> svc ∈ services e p) -> NoDup svcs ->
  wp (restore_services e p svcs) (fun r w' => only p w w' /\ (forall svc, svc ∉ svcs -> pw_units w' !! svc = pw_units w !! svc) /\
    exists up, r = Ok up /\ (up = true -> forall svc, svc ∈ svcs -> active w' svc)) w.
Proof.
  intros Hin Hnd. revert w. induction Hnd as [|svc svcs Hn Hnd IH]; intros w; cbn [restore_services].
  { apply wp_ret. split_and!; [done..|]. exists true. split; [done|]. by intros _ svc ?%not_elem_of_nil. }
  apply wp_bind, wp_attempt. set (action := match p with Watchdog => "restart" | _ => "start" end).
  assert (wp (start_service e action p svc) (fun r w1 => only p w w1 /\ (forall s, s <> svc -> pw_units w1 !! s = pw_units w !! s) /\
    (is_ok r = true -> active w1 svc)) w) as Hst.
  { unfold start_service. apply wp_bind. unfold wp at 1. pose proof (only_systemctl p action svc w (Hin svc ltac:(by left))) as Ho.
    unfold keeps, wp in Ho. assert (forall s, s <> svc -> pw_units (systemctl action svc w).2 !! s = pw_units w !! s) as Hs.
    { intros s Hs. unfold systemctl. destruct (default _ _) as [|[]]; cbn; by rewrite lookup_insert_ne. }
    assert (is_ok (systemctl action svc w).1 = true -> active (systemctl action svc w).2 svc) as Hup.
    { unfold systemctl. destruct (default _ _) as [|[]]; [|done]. cbn. intros _. rewrite lookup_insert_eq. by destruct p. }
    destruct (systemctl action svc w) as [[[]|er] w1]; cbn in *; [|by split_and!]. destruct p; split_and!; auto. }
  eapply wp_mono; [|exact Hst]. intros [[]|er] w1 (Ho1 & Hs1 & Hup).
  - eapply wp_mono; [|apply IH; intros s Hs; apply Hin; by right]. intros r w2 (Ho2 & Hs2 & up & -> & Hall).
    split_and!; [by eapply only_trans| |].
    + intros s [Hne Hns]%not_elem_of_cons. by rewrite Hs2, Hs1.
    + exists up. split; [done|]. intros Hu s [-> |Hs]%elem_of_cons; [|by apply Hall]. rewrite Hs2 by done. by apply Hup.
  - apply wp_ret. split_and!; [done|by intros s [? ?]%not_elem_of_cons; apply Hs1|]. by exists false.
Qed.

(** No unit was started. *)
Definition quieter w w' : Prop := forall svc, active w' svc -> active w svc.

Lemma still p w : only p w w /\ quieter w w.
Proof. split; [done|]. by intros svc. Qed.

Lemma quieter_stop svc w : quieter w (systemctl "stop" svc w).2.
Proof.
  intros s. unfold systemctl. destruct (default _ (head _)) as [|[msg act]]; cbn;
    (intros [[<- Hs]|[_ Hs]]%lookup_insert_Some; [|done]); [done|].
  apply andb_prop in Hs as [_ Hs]. rewrite orb_false_r in Hs. destruct (pw_units w !! svc) as [[]|]; done.
Qed.

Lemma wp_stop_all p svcs w :
  (forall svc, svc ∈ svcs -> svc ∈ services e p) ->
  wp (for_each svcs (fun svc => ignore (E := string) (systemctl "stop" svc))) (fun r w' => r = Ok tt /\ only p w w' /\ quieter w w') w.
Proof.
  intros Hin. revert w. induction svcs as [|svc svcs IH]; intros w; cbn [for_each]; [apply wp_ret; split; [done|apply still]|].
  apply wp_bind, wp_ignore. pose proof (only_systemctl p "stop" svc w ltac:(apply Hin; by left)) as Hw1.
  pose proof (quieter_stop svc w) as Hq1. unfold keeps, wp in *. destruct (systemctl "stop" svc w) as [r0 w1]. cbn in *.
  destruct (IH ltac:(intros s Hs; apply Hin; by right) w1) as (-> & Hw2 & Hq2). split_and!; [done|by eapply only_trans|].
  intros s Hs. by apply Hq1, Hq2.
Qed.

(** What one round leaves: only its own units change, none is started unless it
    may be, and [up] means that all of them are. *)
Definition round (excluded : list Protocol) s p w (out : ProtocolState * bool) w' : Prop :=
  (forall q, q <> p -> st_get out.1 q = st_get s q) /\ only p w w' /\
  (out.2 = true -> (p ∉ excluded) /\ st_get s p = true /\ forall svc, svc ∈ services e p -> active w' svc) /\
  (p ∈ excluded \/ st_get s p = false -> out.2 = false /\ quieter w w').

Lemma NoDup_services p : NoDup (services e p).
Proof.
  unfold services, services_for_mode, ALL_NUT_SERVICES. destruct p; try destruct (pe_nut_mode e);
    repeat (apply list.NoDup_cons; split; [by rewrite ?not_elem_of_cons; split_and?; try apply not_elem_of_nil|]); constructor.
Qed.

Lemma only_same p w w' : pw_units w' = pw_units w -> only p w w'.
Proof. intros Hu svc _. by rewrite Hu. Qed.

(** The watchdog is stopped in its own round. *)
Lemma wp_stop_watchdog_if p w :
  wp (E := string) (if bool_decide (p = Watchdog) then ignore (stop_watchdog e) else ret tt) (fun r w' => r = Ok tt /\ only p w w' /\ quieter w w') w.
Proof.
  destruct (decide (p = Watchdog)) as [-> |Hne]; [rewrite bool_decide_true by done|rewrite bool_decide_false by done; apply wp_ret; split; [done|apply still]].
  apply wp_ignore. pose proof (only_stop_watchdog w) as Ho. split_and!; [done|exact Ho|].
  unfold stop_watchdog. destruct (pe_watchdog_stop e); [|by intros svc]. intros svc. cbn. by intros [[_ [=]]|[_ ?]]%lookup_insert_Some.
Qed.

Lemma wp_ignore_save s (Q : result unit string -> ProtoWorld -> Prop) w :
  (forall w', pw_units w' = pw_units w -> Q (Ok tt) w') -> wp (ignore (save_state s)) Q w.
Proof. intros HQ. apply wp_ignore. unfold wp. apply HQ, same_units_save. Qed.

Lemma wp_restore_protocol excluded s p w :
  wp (restore_protocol e excluded s p) (fun r w' => exists out, r = Ok out /\ round excluded s p w out w') w.
Proof.
  unfold restore_protocol. destruct (negb (st_get s p) || bool_decide (p ∈ excluded)) eqn:Hx.
  - apply wp_bind. eapply wp_mono with (P := fun r w1 => r = Ok tt /\ only p w w1 /\ quieter w w1).
    2: { destruct (negb (st_get s p) && bool_decide (p = Smart)); [|apply wp_ret; split; [done|apply still]]. by apply wp_stop_all. }
    intros r w1 (-> & Hw1 & Hq1). apply wp_bind. eapply wp_mono; [|apply wp_stop_watchdog_if]. intros r w2 (-> & Hw2 & Hq2). apply wp_ret.
    exists (s, false). split; [done|]. split_and!; try done; [by eapply only_trans|]. intros _. split; [done|]. intros svc Hs. by apply Hq1, Hq2.
  - apply orb_false_iff in Hx as [Hg%negb_false_iff Hx%bool_decide_eq_false].
    assert (~ (p ∈ excluded \/ st_get s p = false)) as Hgo by (intros [|]; congruence).
    assert (forall q, q <> p -> st_get (st_set s p false) q = st_get s q) as Hset by (intros q Hq; rewrite st_get_set; by rewrite decide_False).
    apply wp_bind, wp_attempt. unfold wp at 1. pose proof (same_units_prepare p w) as Hu1.
    destruct (prepare_protocol e p w) as [[[]|er] w1]; cbn in Hu1 |- *.
    + apply wp_bind. unfold wp at 1. pose proof (same_units_modules (protocol_modules e p) w1) as Hu2.
      assert (is_ok (for_each (protocol_modules e p) (fun md => ignore (E := string) (modprobe md)) w1).1 = true) as Hok.
      { clear. generalize w1. induction (protocol_modules e p) as [|md l IH]; intros w; [done|]. cbn. unfold bind at 1, ignore, bind at 1, attempt.
        destruct (modprobe md w). apply IH. }
      destruct (for_each _ _ w1) as [[[]|] w2]; [|done]. cbn in Hu2 |- *. apply wp_bind.
      eapply wp_mono; [|apply (wp_restore_services p); [done|apply NoDup_services]].
      intros r w3 (H3 & _ & up & -> & Hup). assert (only p w w3) as Hw3.
      { eapply only_trans; [apply only_same|exact H3]. by rewrite Hu2, Hu1. }
      destruct up; [apply wp_ret; exists (s, true); split; [done|]; (split_and!; [done|done|intros _; split_and!; [done|done|by apply Hup]|by intros Hbad])|].
      apply wp_bind. eapply wp_mono; [|apply wp_stop_watchdog_if]. intros r w4 (-> & Hw4 & _). apply wp_bind, wp_ignore_save. intros w5 Hu5.
      apply wp_ret. exists (st_set s p false, false). split; [done|]. split_and!; try done.
      eapply only_trans; [exact Hw3|]. eapply only_trans; [exact Hw4|by apply only_same].
    + apply wp_bind, wp_ignore_save. intros w2 Hu2. apply wp_bind. eapply wp_mono; [|apply wp_stop_watchdog_if].
      intros r w3 (-> & Hw3 & _). apply wp_ret. exists (st_set s p false, false). split; [done|]. split_and!; try done.
      eapply only_trans; [apply only_same|exact Hw3]. congruence.
Qed.

Definition allowed (excluded : list Protocol) s p : Prop := (p ∉ excluded) /\ st_get s p = true.

(** The rounds: [l] comes up, the others stay as they were or stop. *)
Definition rounds (excluded : list Protocol) s (ps l : list Protocol) w w' : Prop :=
  (forall p, p ∈ l -> p ∈ ps /\ allowed excluded s p /\ forall svc, svc ∈ services e p -> active w' svc) /\
  (forall p svc, p ∈ ps -> p ∈ excluded \/ st_get s p = false -> svc ∈ services e p -> active w' svc -> active w svc) /\
  (forall svc, (forall p, p ∈ ps -> svc ∉ services e p) -> pw_units w' !! svc = pw_units w !! svc).

Lemma wp_restore_loop excluded s0 s ps restored w :
  NoDup ps -> (forall q, q ∈ ps -> st_get s q = st_get s0 q) ->
  wp (restore_loop e excluded s ps restored)
    (fun r w' => exists l, r = Ok (restored ++ l)%list /\ rounds excluded s0 ps l w w') w.
Proof.
  intros Hnd. revert s restored w. induction Hnd as [|p ps Hn Hnd IH]; intros s restored w Hs; cbn [restore_loop].
  { apply wp_ret. exists []. rewrite app_nil_r. split; [done|]. split_and!; [by intros p ?%not_elem_of_nil|by intros p svc ?%not_elem_of_nil|done]. }
  apply wp_bind. eapply wp_mono; [|apply wp_restore_protocol]. intros r w1 ([s1 up] & -> & Hq & Ho & Hup & Hno). cbn in *.
  assert (forall q svc, q ∈ ps -> svc ∈ services e q -> svc ∉ services e p) as Hdis.
  { intros q svc Hq' Hs1 Hs2. destruct (services_disjoint q p svc Hs1 Hs2). done. }
  eapply wp_mono; [|apply IH]; cycle 1.
  { intros q Hq'. rewrite Hq by (intros ->; done). apply Hs. by right. }
  intros r w2 (l & -> & Hl & Hbad & Hoth).
  exists ((if up then [p] else []) ++ l)%list. split; [destruct up; cbn; by rewrite <- ?app_assoc|]. split_and!.
  - intros q [Hq1|Hq2]%elem_of_app; [|destruct (Hl q Hq2) as (? & ? & ?); split_and!; [by right|done..]].
    destruct up; [|by apply not_elem_of_nil in Hq1]. apply list_elem_of_singleton in Hq1 as ->.
    destruct (Hup eq_refl) as (Hx & Hg & Hact). split_and!; [by left|split; [done|]; by rewrite <- Hs by (by left)|].
    intros svc Hsvc. rewrite Hoth; [by apply Hact|]. intros q Hq' Hs'. by apply (Hdis q svc Hq').
  - intros q svc [-> |Hq1]%elem_of_cons Hx Hsvc Hact.
    + rewrite <- Hs in Hx by (by left). destruct (Hno Hx) as [_ Hquiet]. apply Hquiet. rewrite <- Hoth; [done|].
      intros q Hq' Hs'. by apply (Hdis q svc Hq').
    + pose proof (Hbad q svc Hq1 Hx Hsvc Hact) as Ha. rewrite <- Ho; [done|]. by apply (Hdis q).
  - intros svc Hsvc. rewrite Hoth by (intros q Hq'; apply Hsvc; by right). apply Ho. apply Hsvc. by left.
Qed.

Lemma NoDup_all_protocols : NoDup ALL_PROTOCOLS.
Proof. apply (bool_decide_unpack _). by vm_compute. Qed.

Lemma wp_restore_excluding excluded s0 w0 w :
  load_state e w = (Ok s0, w0) ->
  wp (restore_excluding e excluded) (fun r w' => exists l, r = Ok l /\ rounds excluded s0 ALL_PROTOCOLS l w w') w.
Proof.
  intros Hl. assert (pw_units w0 = pw_units w) as Hu.
  { enough (wp (load_state e) (fun _ w' => pw_units w' = pw_units w) w) as Hu by (unfold wp in Hu; by rewrite Hl in Hu).
    apply wp_bind, wp_attempt. unfold wp at 1.
    match goal with |- context [on_block ?f ?m w] => pose proof (same_units_block f m w) as Hu; destruct (on_block f m w) as [[c|er] w1] end;
      cbn [fst snd] in *; [by apply wp_ret|]. apply wp_bind, wp_ignore_save. intros w' Hw'. apply wp_ret. congruence. }
  apply wp_bind. unfold wp at 1. rewrite Hl. cbn [fst snd]. eapply wp_mono; [|apply (wp_restore_loop excluded s0); [apply NoDup_all_protocols|done]].
  intros r w' (l & -> & H1 & H2 & H3). exists l. split; [done|]. unfold rounds. by rewrite <- Hu.
Qed.

End Props.
