(* ===== verification/BlockReconcile.v ===== *)
(** * Bringing the block exports back: [reconcile_block_shares_under_lock] of engine/nasty-engine/src/router/fs.rs

    After a filesystem is mounted the loop devices of its block volumes are
    known again. The engine gives the exports their devices, takes down those it
    cannot place and restarts the others: the iSCSI and NVMe-oF services, the
    protocol services and the firewall together. The devices themselves come
    from the storage service.

    ** What the rest of the engine leaves alone

    While the iSCSI exports, the protocols and the firewall are brought up, the
    records and the live namespaces of NVMe-oF stay as they are, and so does the
    operator's wish to have NVMe-oF on. *)
From Stdlib Require Import String Ascii ZArith.
From stdpp Require Import base list gmap strings numbers.
From S2P Require Import Prelude RustStr Disk StateStore Records JsonRpc Rest FirewallRules Firewall Backup ConfigFs BlockWorld Iscsi IscsiService IscsiRemap NvmeofService NvmeofRestore Protocol.

Open Scope string_scope.
Open Scope rust_scope.

(** The protocols' world with the firewall's configuration and live table. *)
Record ShareWorld := mkShareWorld {
  sw_proto : ProtoWorld;
  sw_config : FirewallConfig;
  sw_live : option string
}.

Definition sw_block (w : ShareWorld) : BlockWorld := pw_block (sw_proto w).

(** What the calls get from the system: the answers of the other modules and,
    for each call of the firewall, how its runs of [nft] end. *)
Record ShareEnv := mkShareEnv {
  se_proto : ProtoEnv;
  se_nvmeof : NvmeofEnv;
  se_fw : nat -> FwEnv
}.

Section Reconcile.
Context `{ConfigFs} `{Vault} `{IpParser} `{KernelModules} `{!Codec IscsiTarget} `{!Codec NvmeofSubsystem} `{!Codec Json}
  `{!Codec ProtocolState} `{!Codec FirewallRestrictions} `{!Codec (list CustomRule)}.

Abbreviation S := (M ShareWorld string).

Definition on_proto {A} (m : M ProtoWorld string A) : S A := fun w =>
  let '(r, p) := m (sw_proto w) in (r, mkShareWorld p (sw_config w) (sw_live w)).
Definition on_blocks {E A} (f : E -> string) (m : M BlockWorld E A) : S A := on_proto (on_block f m).

(** A call of the firewall service, on the engine's disk. *)
Definition on_firewall {A} (m : M FwWorld string A) : S A := fun w =>
  let b := sw_block w in
  let '(r, f) := m (mkFw (sw_config w) (sw_live w) (bw_disk b)) in
  (r, mkShareWorld (set_block (set_bw_disk (fw_disk f) b) (sw_proto w)) (fw_config f) (fw_live f)).

(** [if let Err(error) = m { failures.push(what + error) }]. *)
Definition failing (what : string) (m : S unit) : S (list string) :=
  r <- attempt m ;;
  ret (match r with Ok _ => [] | Err er => [what ++ er] end).

Definition reconcile_iscsi (e : ShareEnv) (o : DeviceRemapOutcome) : S (list string) :=
  if negb (safe_to_restore o) then
    fs <- failing "quiesce unsafe iSCSI state: " (on_proto (quiesce_protocol (se_proto e) Iscsi)) ;;
    ignore (on_firewall (close_ (se_fw e 0) Iscsi)) ;;;
    ret fs
  else
    wanted <- on_proto (is_enabled (se_proto e) Iscsi) ;;
    stale <- (if wanted : bool then
                if ro_changed o then ret true
                else running <- on_proto (is_running (se_proto e) Iscsi) ;; ret (negb running)
              else ret false) ;;
    if stale : bool then
      r <- attempt (on_proto (quiesce_protocol (se_proto e) Iscsi) ;;;
                    on_firewall (open_ (se_fw e 1) Iscsi) ;;;
                    on_proto (enable (se_proto e) "iscsi")) ;;
      match r with
      | Ok _ => ret []
      | Err er => ignore (on_firewall (close_ (se_fw e 2) Iscsi)) ;;; ret ["reactivate iSCSI: " ++ er]
      end
    else ret [].

Definition reconcile_nvmeof (e : ShareEnv) (o : DeviceRemapOutcome) : S (list string) :=
  if negb (safe_to_restore o) then
    fs <- failing "quiesce unsafe NVMe-oF state: " (on_blocks display_nvmeof_error quiesce) ;;
    ignore (on_firewall (close_ (se_fw e 3) Nvmeof)) ;;;
    ret fs
  else
    wanted <- on_proto (is_enabled (se_proto e) Nvmeof) ;;
    stale <- (if wanted : bool then
                if ro_changed o then ret true
                else r <- attempt (on_blocks display_nvmeof_error is_active) ;;
                     ret (match r with Ok b => negb b | Err _ => true end)
              else ret false) ;;
    if stale : bool then
      r <- attempt (on_firewall (open_ (se_fw e 4) Nvmeof)) ;;
      match r with
      | Err er => ret ["reopen NVMe-oF firewall: " ++ er]
      | Ok _ =>
          r <- attempt (on_proto (enable (se_proto e) "nvmeof")) ;;
          match r with
          | Err er => ret ["reactivate NVMe-oF: " ++ er]
          | Ok _ =>
              r <- attempt (on_blocks display_nvmeof_error (restore (se_nvmeof e))) ;;
              match r with
              | Ok _ => ret []
              | Err er =>
                  ignore (on_blocks display_nvmeof_error quiesce) ;;;
                  ignore (on_firewall (close_ (se_fw e 5) Nvmeof)) ;;;
                  ret ["restore NVMe-oF: " ++ er]
              end
          end
      end
    else ret [].

Definition reconcile_block_shares_under_lock (e : ShareEnv) (mappings : BlockDeviceMappings) : S unit :=
  nvmeof <- on_blocks display_nvmeof_error (remap_device_paths_nvmeof mappings) ;;
  iscsi <- on_blocks display_iscsi_error (remap_device_paths_iscsi mappings) ;;
  a <- reconcile_iscsi e iscsi ;;
  b <- reconcile_nvmeof e nvmeof ;;
  match (a ++ b)%list with
  | [] => ret tt
  | failures => throw (String.concat "; " failures)
  end.

End Reconcile.

(** protocols.json as both its readers see it. *)
Class ProtocolJson `{!Codec ProtocolState} `{!Codec Json} : Prop :=
  protocol_json : forall (s : ProtocolState) text, decode text = Ok s -> st_nvmeof s = true ->
    exists v : Json, decode text = Ok v /\ json_get v "nvmeof" ≫= as_bool = Some true.

Lemma keeps_save {T} `{!Codec T} keep d0 F sd id (x : T) d :
  ~ keep (tmp_path sd id) -> ~ keep (item_path sd id) -> framed keep d0 d -> keeps (framed keep d0) (save F sd id x) d.
Proof. intros Ht Hi Hd. unfold save. keeps_go. Qed.

Definition nv_file (p : Path) : Prop := exists n, p = (dir NVMEOF_STATE_DIR ++ [n])%list.

Definition nv_or_protocols (p : Path) : Prop := nv_file p \/ p = PROTOCOLS_PATH.

(** The NVMe-oF side of [b], with the files of [keep], is still there in [b']. *)
Record apart (keep : Path -> Prop) (b b' : BlockWorld) : Prop := mkApart {
  ap_disk : framed keep (bw_disk b) (bw_disk b');
  ap_plan : bw_plan b' `suffix_of` bw_plan b;
  ap_faults : k_faults (bw_kernel b') `suffix_of` k_faults (bw_kernel b);
  ap_attr : forall p, attr (bw_tree b') p = attr (bw_tree b) p;
  ap_there : forall p, is_Some (bw_tree b !! p) -> is_Some (bw_tree b' !! p)
}.

Lemma apart_refl keep b : plain (bw_disk b) -> apart keep b b.
Proof. intros Hp. by split; [apply framed_refl|..]. Qed.

Lemma apart_trans keep a b c : apart keep a b -> apart keep b c -> apart keep a c.
Proof.
  intros [[_ Hk1] P1 F1 A1 T1] [[Hp Hk2] P2 F2 A2 T2]. split; [|by etrans|by etrans|congruence|auto].
  split; [done|]. intros p Hn. by rewrite Hk2, Hk1.
Qed.

Lemma apart_weaken b b' : apart nv_or_protocols b b' -> apart nv_file b b'.
Proof. intros [[Hp Hk] P F A T]. split; [|done..]. split; [done|]. intros p Hn. apply Hk. by left. Qed.

(** The same files, the same records. *)
Lemma records_same `{!Codec NvmeofSubsystem} b b' ss : (forall p, nv_file p -> bw_disk b' !! p = bw_disk b !! p) -> records b ss -> records b' ss.
Proof.
  intros Hd [Hn Hall]. split; [done|]. intros s. rewrite Hall. split; intros [Hv Hst]; (split; [done|]); rewrite <- Hst; unfold stored;
    rewrite Hd; try done; rewrite item_path_eq by apply Hv; by eexists.
Qed.

(** The tail of a plan after one call. *)
Lemma plan_tail w : tail (bw_plan w) `suffix_of` bw_plan w.
Proof. destruct (bw_plan w) as [|F l]; [done|]. by exists [F]. Qed.

(** A call to the disk that keeps away from the records. *)
Lemma apart_disk_call {E A} (f : IoErr -> E) (m : Faults -> M Disk IoErr A) keep b0 b :
  apart keep b0 b -> (forall F, keeps (framed keep (bw_disk b0)) (m F) (bw_disk b)) -> keeps (apart keep b0) (disk_call f m) b.
Proof.
  intros [Hd Hp Hf Ha Ht] Hm. apply wp_disk_call. eapply wp_mono; [|apply Hm]. intros r d Hd'. split; [done| |done..].
  etrans; [apply plan_tail|done].
Qed.

(** ** The iSCSI exports *)

Section Iscsi.
Context `{ConfigFs} `{Vault} `{IpParser} `{!Codec IscsiTarget} `{!CodecLaws IscsiTarget} `{!Codec Json}.

Abbreviation iscsi_order b := (dir_ok (T := IscsiTarget) ISCSI_STATE_DIR (bw_disk b)).

Lemma apart_save_target b0 b (t : IscsiTarget) : valid_id (tg_id t) -> apart nv_or_protocols b0 b -> keeps (apart nv_or_protocols b0) (save_target t) b.
Proof.
  intros [Hv _] Hb. apply apart_disk_call; [done|]. intros F. apply keeps_save; [..|apply Hb].
  - rewrite tmp_path_eq by done. by intros [[n [=]]|[=]].
  - rewrite item_path_eq by done. by intros [[n [=]]|[=]].
Qed.

Lemma apart_remap_targets m ts st any b0 b :
  Forall (fun t => valid_id (tg_id t)) ts -> apart nv_or_protocols b0 b -> keeps (apart nv_or_protocols b0) (remap_targets m ts st any) b.
Proof.
  intros Hts. revert st any b. induction Hts as [|t ts Hv _ IH]; intros st any b Hb; cbn [remap_targets]; [done|].
  pose proof (remap_target_spec m t) as Hsp. destruct (remap_target m t) as [[[t' changed] safe] ps]. destruct Hsp as [Hid _].
  apply keeps_bind; [|intros r b1 Hb1; apply keeps_bind; [by apply IH|done]].
  destruct changed; [|done]. apply keeps_attempt, apart_save_target; [by rewrite Hid|done].
Qed.

Lemma apart_remap_iscsi m b0 b :
  iscsi_order b -> Forall honest (bw_plan b) -> apart nv_or_protocols b0 b -> keeps (apart nv_or_protocols b0) (remap_device_paths_iscsi m) b.
Proof.
  intros Hd Hh Hb. unfold remap_device_paths_iscsi. apply wp_bind, wp_attempt.
  eapply wp_mono; [|apply wp_and; [apply (apart_disk_call IsIo _ _ b0 b Hb)|apply wp_all_targets with (Q := fun r _ =>
    forall ts, r = Ok ts -> Forall (fun t => valid_id (tg_id t)) ts); [done..| |done]]].
  - intros r b1 [Hb1 Hv]. destruct r as [ts|er]; [|done]. specialize (Hv ts eq_refl). destruct ts as [|t ts].
    + apply keeps_bind; [|done]. apply keeps_attempt. unfold validate_no_saved_exports. apply keeps_bind; [|intros [text|er] b2 Hb2].
      * apply keeps_attempt, apart_disk_call; [done|]. intros F. apply keeps_read, Hb1.
      * by apply keeps_lift.
      * by destruct (is_not_found er).
    + apply keeps_bind; [by apply apart_remap_targets|]. intros [[ts' [patches safe]] any] b2 Hb2.
      apply keeps_bind; [|done]. apply keeps_attempt. unfold patch_saveconfig. apply keeps_bind.
      { apply apart_disk_call; [done|]. intros F. apply keeps_read, Hb2. }
      intros text b3 Hb3. apply keeps_lift; [done|]. intros json _. apply keeps_lift; [done|]. intros [json' [|]] _; [|done].
      apply keeps_lift; [done|]. intros text' _. apply apart_disk_call; [done|]. intros F. apply keeps_fs_write; [|apply Hb3].
      by intros [[n [=]]|[=]].
  - intros F. unfold keeps, wp. rewrite load_all_strict_disk. apply Hb.
  - intros ts b1 _ Hall _ _ ? [= <-]. apply Forall_forall. intros t Ht. apply list_elem_of_In in Ht. by apply Hall.
Qed.

End Iscsi.

(** ** Protocols *)

(** protocols.json asks for NVMe-oF. *)
Definition wants `{!Codec ProtocolState} (b : BlockWorld) : Prop :=
  exists f s, bw_disk b !! PROTOCOLS_PATH = Some f /\ decode (f_content f) = Ok s /\ st_nvmeof s = true.

Section Protocols.
Context `{ConfigFs} `{KernelModules} `{!Codec ProtocolState} `{!CodecLaws ProtocolState} (e : ProtoEnv) (b0 : BlockWorld).
Hypothesis readable : forall F, F ∈ bw_plan b0 -> fault F OpRead PROTOCOLS_PATH = None.
Implicit Types (w : ProtoWorld) (b : BlockWorld).

Definition kept_on b : Prop := apart nv_file b0 b /\ wants b.
Definition kept_p w : Prop := kept_on (pw_block w).

Lemma wp_on_block {E F A} (f : E -> F) (m : M BlockWorld E A) (Q : result A F -> ProtoWorld -> Prop) w :
  wp m (fun r b => Q (map_err f r) (set_block b w)) (pw_block w) -> wp (on_block f m) Q w.
Proof. unfold wp, on_block. by destruct (m (pw_block w)). Qed.

Lemma next_readable b : apart nv_file b0 b -> fault (next_plan b) OpRead PROTOCOLS_PATH = None.
Proof.
  intros Hb. destruct (ap_plan _ _ _ Hb) as [l Hl]. unfold next_plan. destruct (bw_plan b) as [|F k]; [done|].
  apply readable. rewrite Hl. apply elem_of_app. right. by left.
Qed.

Lemma wp_load_state (Q : result ProtocolState string -> ProtoWorld -> Prop) w :
  kept_p w -> (forall s w', kept_p w' -> st_nvmeof s = true -> Q (Ok s) w') -> wp (load_state e) Q w.
Proof.
  intros [Hb (f & s & Hf & Hs & Hon)] HQ. unfold load_state. apply wp_bind, wp_attempt, wp_on_block, wp_disk_call.
  unfold wp at 1. change (item_path CONFIG_DIR "protocols") with PROTOCOLS_PATH.
  rewrite read_plain by apply (ap_disk _ _ _ Hb). rewrite next_readable by done. unfold content_at. rewrite Hf. cbn. rewrite Hs.
  apply wp_ret, HQ; [|done]. split; [|by exists f, s]. destruct Hb as [Hd Hp Hk Ha Ht].
  split; [done| |done..]. etrans; [apply plan_tail|done].
Qed.

Lemma kept_save_state s w : st_nvmeof s = true -> kept_p w -> keeps kept_p (save_state s) w.
Proof.
  intros Hs [Hb Hw]. apply wp_on_block. unfold kept_p. cbn [pw_block set_block].
  enough (keeps kept_on (disk_call (fun er => "failed to write protocol state: " ++ display_io er)
            (fun F => save F CONFIG_DIR "protocols" s)) (pw_block w)) as Hk by done.
  eapply wp_mono; [intros r b Hr; exact Hr|]. apply wp_and.
  - apply apart_disk_call; [done|]. intros F. apply keeps_save; [by intros [n [=]]..|apply Hb].
  - apply wp_disk_call. eapply wp_mono; [|apply save_spec; [done|]].
    + intros r d (_ & Hr & _). change (item_path CONFIG_DIR "protocols") with PROTOCOLS_PATH in Hr. destruct r as [[]|er].
      * destruct Hr as (text & f & He & Hf & Hc & _). exists f, s. cbn. split_and!; [done| |done]. rewrite Hc. by apply decode_encode.
      * destruct Hw as (f & s0 & Hf & ?). exists f, s0. cbn. by rewrite Hr.
    + intros f. apply (ap_disk _ _ _ Hb).
Qed.

Lemma kept_units us rs w : kept_p w -> kept_p (mkProtoWorld (pw_block w) us rs).
Proof. done. Qed.

Lemma kept_systemctl a s w : kept_p w -> keeps kept_p (systemctl a s) w.
Proof. intros Hw. unfold keeps, wp, systemctl. by destruct (default _ _) as [|[]]. Qed.

Lemma add_dirs_spec dirs k :
  (forall p, attr (k_tree (add_dirs dirs k)) p = attr (k_tree k) p) /\
  (forall p, is_Some (k_tree k !! p) -> is_Some (k_tree (add_dirs dirs k) !! p)).
Proof.
  unfold add_dirs. cbn. generalize (k_tree k) as t. induction dirs as [|q dirs IH]; intros t; [done|]. cbn.
  destruct (t !! q) eqn:Hq; [apply IH|]. destruct (IH (<[q := NDir false]> t)) as [Ha Ht]. split.
  - intros p. rewrite Ha. unfold attr. destruct (decide (q = p)) as [<-|]; [by rewrite lookup_insert_eq, Hq|by rewrite lookup_insert_ne].
  - intros p Hp. apply Ht. apply lookup_insert_is_Some. destruct (decide (q = p)); auto.
Qed.

Lemma kept_modprobe md w : kept_p w -> keeps kept_p (modprobe md) w.
Proof.
  intros [Hb Hw]. unfold keeps, wp, modprobe. destruct (default _ _) as [|[msg act]]; [|done]. split; [|done].
  destruct Hb as [Hd Hp Hf Ha Ht]. destruct (add_dirs_spec (module_dirs md) (bw_kernel (pw_block w))) as [Ha' Ht'].
  split; [done..| |].
  - intros p. cbn. rewrite <- Ha. apply Ha'.
  - intros p Hp'. apply Ht'. by apply Ht.
Qed.

Lemma kept_for_each {A} (l : list A) (f : A -> M ProtoWorld string unit) w :
  (forall a w, kept_p w -> keeps kept_p (f a) w) -> kept_p w -> keeps kept_p (for_each l f) w.
Proof. intros Hf Hw. apply wp_for_each_inv; [done|]. intros a w' _. apply Hf. Qed.

Lemma kept_ignore {A} (m : M ProtoWorld string A) w : keeps kept_p m w -> keeps kept_p (ignore (E := string) m) w.
Proof. intros Hm. by apply wp_ignore. Qed.

Lemma kept_start_services p s svcs started w :
  p = Iscsi \/ p = Nvmeof -> st_nvmeof (st_set s p false) = true -> kept_p w -> keeps kept_p (start_services e p s svcs started) w.
Proof.
  intros Hp Hs. revert started w. induction svcs as [|svc svcs IH]; intros started w Hw; cbn [start_services]; [done|].
  apply keeps_bind.
  { apply keeps_attempt. unfold start_service. apply keeps_bind; [by apply kept_systemctl|]. by destruct p. }
  intros [_|er] w1 Hw1; [by apply IH|]. apply keeps_bind.
  { apply kept_for_each; [|done]. intros st w2 Hw2. apply kept_ignore. by apply kept_systemctl. }
  intros _ w2 Hw2. apply keeps_bind; [by destruct Hp as [-> | ->]|]. intros failure w3 Hw3.
  apply keeps_bind; [|done]. apply keeps_bind; [|done]. apply keeps_attempt. by apply kept_save_state.
Qed.

Lemma apart_kcall {E A} (f : IoErr -> E) (m : M Kernel IoErr A) b :
  consumes m -> (forall k, k_tree (m k).2 = k_tree k) -> kept_on b -> keeps kept_on (kcall f m) b.
Proof.
  intros Hc Hm [[Hd Hp Hf Ha Ht] Hw]. apply wp_kcall. unfold wp. split; [|done]. split; [done|done|cbn; by etrans; [apply Hc|]|..].
  - intros p. unfold bw_tree. cbn. by rewrite Hm.
  - intros p. unfold bw_tree. cbn. rewrite Hm. apply Ht.
Qed.

Lemma kept_running p w : p = Iscsi \/ p = Nvmeof -> kept_p w -> keeps kept_p (is_protocol_running e p) w.
Proof.
  intros [-> | ->] Hw; [done|]. apply wp_on_block. apply (apart_kcall (E := IoErr) id); [apply consumes_exists| |done].
  intros k. unfold k_exists, bind, attempt, next_fault, tree, gets, ret. by destruct (k_faults k) as [|[]].
Qed.

Lemma kept_enable p w :
  p = Iscsi \/ p = Nvmeof -> kept_p w -> keeps kept_p (enable e (protocol_name p)) w.
Proof.
  intros Hp Hw. unfold enable. replace (protocol_from_name (protocol_name p)) with (Some p) by (by destruct Hp as [-> | ->]).
  apply keeps_throw_if; [done|]. intros _. apply wp_bind, wp_load_state; [done|]. intros s w1 Hw1 Hs.
  assert (st_nvmeof (st_set s p true) = true) as Hs1 by (by destruct s, Hp as [-> | ->]).
  apply keeps_bind; [by apply kept_save_state|]. intros _ w2 Hw2. replace (prepare_protocol e p) with (ret (W := ProtoWorld) (E := string) tt) by (by destruct Hp as [-> | ->]).
  apply wp_bind, wp_attempt, wp_ret. apply keeps_bind; [apply kept_for_each; [|done]; intros md w' Hw'; by apply kept_ignore, kept_modprobe|].
  intros _ w4 Hw4. apply keeps_bind; [|intros _ w5 Hw5; apply keeps_bind; [by apply kept_running|done]].
  destruct Hp as [-> | ->]; [|done]. apply kept_start_services; [by left|by destruct s|done].
Qed.

End Protocols.

(** ** The firewall *)

Section Shares.
Context `{ConfigFs} `{Vault} `{IpParser} `{KernelModules} `{!Codec IscsiTarget} `{!Codec NvmeofSubsystem} `{!Codec Json}
  `{!Codec ProtocolState} `{!CodecLaws ProtocolState} `{!Codec FirewallRestrictions} `{!Codec (list CustomRule)} (b0 : BlockWorld).
Hypothesis readable : forall F, F ∈ bw_plan b0 -> fault F OpRead PROTOCOLS_PATH = None.
Implicit Types (w : ShareWorld).

Lemma apply_nftables_disk check apply c f : fw_disk (apply_nftables check apply c f).2 = fw_disk f.
Proof.
  unfold apply_nftables, bind, lift, modify, ret. destruct (check (batch c)) as [[]|]; [|done].
  by destruct (nft_applied (apply (batch c))).
Qed.

(** Opening and closing a service writes no file. *)
Lemma set_rule_active_disk fe s ports b f : fw_disk (set_rule_active fe s ports b f).2 = fw_disk f.
Proof.
  assert (forall c, fw_disk (commit_candidate fe c None f).2 = fw_disk f) as Hc.
  { intros c. unfold commit_candidate, bind at 1 2, attempt at 1, gets. pose proof (apply_nftables_disk (fe_check fe) (fe_apply fe) c f) as Hd.
    by destruct (apply_nftables (fe_check fe) (fe_apply fe) c f) as [[[]|er] f1]. }
  unfold set_rule_active. destruct ports; [done|]. unfold bind at 1, gets.
  destruct (List.find _ _) as [rule|]; [by destruct (Bool.eqb _ _)|done].
Qed.

Definition kept_s w : Prop := kept_on b0 (sw_block w).

Lemma kept_proto {A} (m : M ProtoWorld string A) w : keeps (kept_p b0) m (sw_proto w) -> keeps kept_s (on_proto m) w.
Proof. unfold keeps, wp, on_proto. by destruct (m (sw_proto w)). Qed.

Lemma firewall_block fe s ports b w : sw_block (on_firewall (set_rule_active fe s ports b) w).2 = sw_block w.
Proof.
  unfold on_firewall. pose proof (set_rule_active_disk fe s ports b (mkFw (sw_config w) (sw_live w) (bw_disk (sw_block w)))) as Hd.
  destruct (set_rule_active fe s ports b _) as [r f]. cbn in Hd |- *.
  change (sw_block (mkShareWorld _ _ _)) with (set_bw_disk (fw_disk f) (sw_block w)). rewrite Hd. by destruct (sw_block w).
Qed.

Lemma kept_firewall fe s ports b w : kept_s w -> keeps kept_s (on_firewall (set_rule_active fe s ports b)) w.
Proof. intros Hw. unfold keeps, wp, kept_s. by rewrite firewall_block. Qed.

(** The firewall of the engine is as it was, in memory and in the kernel. *)
Definition same_firewall (w w' : ShareWorld) : Prop := sw_config w' = sw_config w /\ sw_live w' = sw_live w.

Lemma wp_blocks {E A} (f : E -> string) (k : M BlockWorld E A) (Q : result A string -> ShareWorld -> Prop) w :
  wp k (fun r b => forall w', sw_block w' = b -> same_firewall w w' -> Q (map_err f r) w') (sw_block w) -> wp (on_blocks f k) Q w.
Proof.
  unfold wp, on_blocks, on_proto, on_block, sw_block. destruct (k (pw_block (sw_proto w))) as [r b]. cbn. intros HQ. by apply HQ.
Qed.

Lemma kept_ignore_s {A} (m : M ShareWorld string A) w : keeps kept_s m w -> keeps kept_s (ignore (E := string) m) w.
Proof. intros Hm. by apply wp_ignore. Qed.

(** Bringing iSCSI back leaves NVMe-oF alone. *)
Lemma kept_reconcile_iscsi e o w : kept_s w -> keeps kept_s (reconcile_iscsi e o) w.
Proof.
  intros Hw. assert (forall w, kept_s w -> keeps kept_s (on_proto (quiesce_protocol (se_proto e) Iscsi)) w) as Hq.
  { intros w1 Hw1. apply kept_proto, kept_for_each; [|done]. intros a w2. apply kept_systemctl. }
  unfold reconcile_iscsi. destruct (negb (safe_to_restore o)).
  - apply keeps_bind; [apply keeps_bind; [by apply keeps_attempt, Hq|done]|]. intros fs w1 Hw1.
    apply keeps_bind; [by apply kept_ignore_s, kept_firewall|done].
  - apply keeps_bind; [apply kept_proto, wp_bind, (wp_load_state _ b0 readable); [done|]; by intros|]. intros wanted w1 Hw1.
    apply keeps_bind.
    { destruct wanted; [|done]. destruct (ro_changed o); [done|]. apply keeps_bind; [|done].
      apply kept_proto, kept_running; [by left|done]. }
    intros [] w2 Hw2; [|done]. apply keeps_bind; [apply keeps_attempt|].
    + apply keeps_bind; [by apply Hq|]. intros _ w3 Hw3. apply keeps_bind; [by apply kept_firewall|]. intros _ w4 Hw4.
      apply kept_proto, (kept_enable _ b0 readable Iscsi); [by left|done].
    + intros [_|er] w3 Hw3; [done|]. apply keeps_bind; [by apply kept_ignore_s, kept_firewall|done].
Qed.

End Shares.

(** ** No export serves another volume

    When [reconcile_block_shares] reports success, every live NVMe-oF namespace
    of the engine is disabled or on the device its volume has now. *)

Definition ours (nqn : string) : Prop := starts_with DEFAULT_NQN_PREFIX nqn = true.
Definition nv_path (nqn n : string) : Path := (live_namespaces nqn ++ [n])%list.

(** The kernel's objects of the engine are reached through their directories
    and have names the engine could have given them. *)
Definition orderly (t : Tree) : Prop := forall nqn n v, ours nqn -> attr t (enable_of nqn n) = Some v ->
  live t nqn n /\ components nqn = [nqn] /\ components n = [n] /\
  forall nsid, parse_unsigned (2 ^ 32 - 1) n = Some nsid -> n = fmt_Z nsid.

Lemma enable_of_path nqn n : enable_of nqn n = (nv_path nqn n ++ ["enable"])%list.
Proof. unfold enable_of, nv_path. by rewrite <- app_assoc. Qed.

Lemma ns_path_live nqn nsid :
  components nqn = [nqn] -> components (fmt_Z nsid) = [fmt_Z nsid] -> ns_path nqn nsid = nv_path nqn (fmt_Z nsid).
Proof.
  intros Hq Hn. unfold ns_path, nv_path, live_namespaces, subsys_path. rewrite (sub_name _ (fmt_Z nsid)), (sub_name _ nqn) by done.
  rewrite sub_name by done. by rewrite <- !app_assoc.
Qed.

Section Exports.
Context `{StartsDisabled} `{Vault} `{IpParser} `{KernelModules} `{!Codec IscsiTarget} `{!CodecLaws IscsiTarget}
  `{!Codec NvmeofSubsystem} `{!CodecLaws NvmeofSubsystem} `{!Codec Json} `{!Codec ProtocolState} `{!CodecLaws ProtocolState}
  `{!ProtocolJson} `{!Codec FirewallRestrictions} `{!Codec (list CustomRule)}.
Implicit Types (b : BlockWorld) (w : ShareWorld) (m : BlockDeviceMappings) (ss : list NvmeofSubsystem).

Abbreviation subsystem_at b id := (stored (T := NvmeofSubsystem) NVMEOF_STATE_DIR (bw_disk b) id).
Abbreviation nv_order b := (dir_ok (T := NvmeofSubsystem) NVMEOF_STATE_DIR (bw_disk b)).
Abbreviation iscsi_order b := (dir_ok (T := IscsiTarget) ISCSI_STATE_DIR (bw_disk b)).

(** The live namespaces are those of the records. *)
Definition agrees ss (t : Tree) : Prop := forall nqn n, ours nqn -> sound ss t (nv_path nqn n).

(** An enabled namespace of the engine is on the device of a record that
    belongs to it, which is the one its volume has now. *)
Definition served m b : Prop := forall nqn n v, ours nqn -> attr (bw_tree b) (enable_of nqn n) = Some v -> v <> "0" ->
  exists s ns, subsystem_at b (ss_id s) = Some s /\ ns ∈ ss_namespaces s /\ ns_path (ss_nqn s) (ns_nsid ns) = nv_path nqn n /\
    ns_enabled ns = true /\ attr (bw_tree b) (nv_path nqn n ++ ["device_path"])%list = Some (ns_device_path ns) /\ ns_resolved m ns.

Lemma agrees_served ss m b :
  records b ss -> (forall s n, s ∈ ss -> n ∈ ss_namespaces s -> ns_resolved m n) -> agrees ss (bw_tree b) -> served m b.
Proof.
  intros [_ Hall] Hres Ha nqn n v Hn Hv Hv0. rewrite enable_of_path in Hv.
  destruct (Ha nqn n Hn v Hv Hv0) as (dev & Hd & s & ns & Hs & Hns & Hp & He & <-). exists s, ns.
  split_and!; [by apply Hall|done|done|done|done|by eapply Hres].
Qed.

(** All disabled. *)
Lemma disabled_served m b : (forall nqn n v, ours nqn -> attr (bw_tree b) (enable_of nqn n) = Some v -> v = "0") -> served m b.
Proof. intros Hd nqn n v Hn Hv Hv0. by destruct Hv0, (Hd nqn n v Hn Hv). Qed.

(** ** Worlds with the same NVMe-oF side *)

Lemma orderly_apart b b' : apart nv_file b b' -> orderly (bw_tree b) -> orderly (bw_tree b').
Proof.
  intros Hb Ho nqn n v Hn. rewrite (ap_attr _ _ _ Hb). intros Hv. destruct (Ho nqn n v Hn Hv) as ((? & L1 & L2 & L3 & L4) & Hrest).
  split; [|done]. split_and!; try done; [|by apply (ap_there _ _ _ Hb)| |by apply (ap_there _ _ _ Hb)];
    apply is_some_iff, (ap_there _ _ _ Hb), is_some_iff; done.
Qed.

Lemma agrees_attr ss t t' : (forall p, attr t' p = attr t p) -> agrees ss t -> agrees ss t'.
Proof. intros Ha Hg nqn n Hn. eapply sound_attrs; [apply Ha..|]. by apply Hg. Qed.

(** ** Reading *)

Lemma keeps_calm_read {E A} (f : IoErr -> E) (k : M Kernel IoErr A) b0 b :
  consumes k -> (forall x, k_tree (k x).2 = k_tree x) -> calm b0 b -> keeps (calm b0) (kcall f k) b.
Proof. intros Hc Hk Hb. apply wp_kafter; [done|]. unfold wp. intros Ha. etrans; [exact Hb|]. split; [done|]. apply Hk. Qed.

Lemma calm_all_of {A} (l : list A) f b0 b : (forall a b, calm b0 b -> keeps (calm b0) (f a) b) -> calm b0 b -> keeps (calm b0) (all_of l f) b.
Proof.
  intros Hf. revert b. induction l as [|a l IH]; intros b Hb; cbn [all_of]; [done|].
  apply keeps_bind; [by apply Hf|]. intros [] b1 Hb1; [by apply IH|done].
Qed.

Lemma calm_is_active b : keeps (calm b) is_active b.
Proof.
  unfold is_active. apply wp_bind, wp_disk_read; [intros F; apply load_all_strict_disk|]. intros b1 Ha Ht.
  destruct (map_err _ _) as [ss|er]; [|by split]. apply calm_all_of; [|by split]. intros s b2 Hb2. apply calm_all_of; [|done].
  intros n b3 Hb3. unfold ns_active. apply keeps_bind.
  { apply keeps_attempt, keeps_calm_read; [apply consumes_read| |done].
    intros k. unfold k_read, bind, next_fault, tree, gets, throw, ret. destruct (k_faults k) as [|[]]; cbn; repeat case_match; done. }
  intros [v|er] b4 Hb4; [done|]. by destruct (is_not_found er).
Qed.

Lemma calm_apart b b' : plain (bw_disk b) -> calm b b' -> apart nv_file b b'.
Proof. intros Hp [(Hd & Hl & Hf) Ht]. split; [split; rewrite Hd; done|done|done|..]; by rewrite Ht. Qed.

(** ** After the remapping *)

(** What is known once the namespaces have their devices. *)
Record remapped m b (o : DeviceRemapOutcome) : Prop := mkRemapped {
  rm_plain : plain (bw_disk b);
  rm_order : nv_order b;
  rm_honest : Forall honest (bw_plan b);
  rm_readable : forall F, F ∈ bw_plan b -> fault F OpRead PROTOCOLS_PATH = None;
  rm_kernel : honest_kernel (bw_kernel b);
  rm_orderly : orderly (bw_tree b);
  rm_safe : safe_to_restore o = true -> exists ss, records b ss /\
    (forall s n, s ∈ ss -> n ∈ ss_namespaces s -> ns_resolved m n) /\
    (forall nqn n, live (bw_tree b) nqn n -> known ss nqn n) /\ (ro_changed o = false -> agrees ss (bw_tree b))
}.

Section After.
Context (m : BlockDeviceMappings) (b1 : BlockWorld) (o : DeviceRemapOutcome) (e : ShareEnv).
Hypothesis Hrm : remapped m b1 o.

(** The kernel of a later world is honest too. *)
Lemma later_honest b : apart nv_file b1 b -> honest_kernel (bw_kernel b).
Proof. intros Hb. eapply honest_suffix; [apply (ap_faults _ _ _ Hb)|apply Hrm]. Qed.

Lemma quiesce_served b : apart nv_file b1 b -> wp quiesce (fun r b' => r = Ok tt -> served m b') b.
Proof.
  intros Hb. eapply wp_mono; [|apply wp_quiesce, later_honest, Hb]. intros r b' [[_ Hq] Hr] Hok. specialize (Hr Hok).
  apply disabled_served. intros nqn n v Hn Hv. destruct (Hq (enable_of nqn n)) as [E|(_ & _ & E)].
  - assert (attr (bw_tree b) (enable_of nqn n) = Some v) as Hv0 by (apply attr_Some; rewrite <- E; by apply attr_Some).
    destruct (orderly_apart _ _ Hb (rm_orderly _ _ _ Hrm) _ _ _ Hn Hv0) as [Hl _]. specialize (Hr nqn n Hl). congruence.
  - apply attr_Some in Hv. congruence.
Qed.

(** A namespace of the engine that the inventory found is one of a record. *)
Lemma known_path ss nqn n v :
  (forall nqn n, live (bw_tree b1) nqn n -> known ss nqn n) -> ours nqn -> attr (bw_tree b1) (enable_of nqn n) = Some v ->
  exists s ns, s ∈ ss /\ ns ∈ ss_namespaces s /\ ns_path (ss_nqn s) (ns_nsid ns) = nv_path nqn n.
Proof.
  intros Hk Hn Hv. destruct (rm_orderly _ _ _ Hrm _ _ _ Hn Hv) as (Hl & Hq & Hc & Hf).
  destruct (Hk _ _ Hl) as (s & nsid & Hs & <- & Hp & (ns & -> & Hns)%list_elem_of_fmap). exists s, ns. split_and!; [done..|].
  specialize (Hf _ Hp). subst n. by apply ns_path_live.
Qed.

Lemma restore_served b :
  safe_to_restore o = true -> apart nv_file b1 b -> wants b ->
  wp (restore (se_nvmeof e)) (fun r b' => r = Ok tt -> served m b') b.
Proof.
  intros Hs Hb (f & st & Hf & Hst & Hon). destruct (rm_safe _ _ _ Hrm Hs) as (ss & Hrec & Hres & Hkn & _).
  destruct (ap_disk _ _ _ Hb) as [Hpl Hsame]. destruct (ap_plan _ _ _ Hb) as [l Hl].
  assert (records b ss) as Hrec' by (by apply (records_same b1)).
  eapply wp_mono; [|apply (wp_restore (se_nvmeof e) ss b)].
  - intros r b' [[Ha Hk] Hr] Hok. apply (agrees_served ss); [apply (records_same b); [|done]; intros p _; by destruct Ha as [-> _]|done|].
    assert (nvmeof_on (bw_disk b)) as Hnv.
    { destruct (protocol_json st (f_content f) Hst Hon) as (v & Hv & Hj). exists f, v. split_and!; [done|by eapply Hpl|done..]. }
    intros nqn n Hn. destruct (attr (bw_tree b) (enable_of nqn n)) as [v|] eqn:Hv.
    + rewrite (ap_attr _ _ _ Hb) in Hv. destruct (known_path ss nqn n v Hkn Hn Hv) as (s & ns & Hin & Hns & <-). by apply (Hr Hok Hnv s).
    + apply Hk. intros v. rewrite <- enable_of_path. congruence.
  - apply (dir_ok_same _ (bw_disk b1)); [intros n; apply Hsame; by eexists|apply Hrm].
  - pose proof (rm_honest _ _ _ Hrm) as Hh. rewrite Hl in Hh. by apply Forall_app in Hh as [_ ?].
  - intros F HF. apply (rm_readable _ _ _ Hrm). rewrite Hl. apply elem_of_app. by right.
  - done.
Qed.

(** Worlds between the calls. *)
Abbreviation kept_w w := (kept_s b1 w).

Lemma wp_on_blocks {E A} (f : E -> string) (k : M BlockWorld E A) (Q : result A string -> ShareWorld -> Prop) w :
  (forall r b, k (sw_block w) = (r, b) -> forall w', sw_block w' = b -> Q (map_err f r) w') -> wp (on_blocks f k) Q w.
Proof.
  intros HQ. unfold wp, on_blocks, on_proto, on_block. unfold sw_block in HQ. destruct (k (pw_block (sw_proto w))) as [r b] eqn:Ek. cbn. by eapply HQ.
Qed.

Lemma wp_ignore_firewall fe s ports a (Q : result unit string -> ShareWorld -> Prop) w :
  (forall w', sw_block w' = sw_block w -> Q (Ok tt) w') -> wp (ignore (on_firewall (set_rule_active fe s ports a))) Q w.
Proof. intros HQ. apply wp_ignore. unfold wp. apply HQ, firewall_block. Qed.

Lemma unchanged_served b w :
  safe_to_restore o = true -> ro_changed o = false -> apart nv_file b1 (sw_block w) -> calm (sw_block w) b -> served m b.
Proof.
  intros Hs Hc Hb Hca. destruct (rm_safe _ _ _ Hrm Hs) as (ss & Hrec & Hres & _ & Hag). specialize (Hag Hc).
  pose proof (apart_trans _ _ _ _ Hb (calm_apart _ _ (proj1 (ap_disk _ _ _ Hb)) Hca)) as Hb'.
  apply (agrees_served ss); [apply (records_same b1); [apply (ap_disk _ _ _ Hb')|done]|done|].
  apply (agrees_attr ss (bw_tree b1)); [apply (ap_attr _ _ _ Hb')|done].
Qed.

Lemma wp_restart w :
  safe_to_restore o = true -> kept_w w ->
  wp (r <- attempt (on_firewall (open_ (se_fw e 4) Nvmeof)) ;;
      match r with
      | Err er => ret ["reopen NVMe-oF firewall: " ++ er]
      | Ok _ =>
          r <- attempt (on_proto (enable (se_proto e) "nvmeof")) ;;
          match r with
          | Err er => ret ["reactivate NVMe-oF: " ++ er]
          | Ok _ =>
              r <- attempt (on_blocks display_nvmeof_error (restore (se_nvmeof e))) ;;
              match r with
              | Ok _ => ret []
              | Err er =>
                  ignore (on_blocks display_nvmeof_error quiesce) ;;;
                  ignore (on_firewall (close_ (se_fw e 5) Nvmeof)) ;;;
                  ret ["restore NVMe-oF: " ++ er]
              end
          end
      end) (fun r w' => r = Ok [] -> served m (sw_block w')) w.
Proof.
  intros Hs Hw. apply wp_bind, wp_attempt. eapply wp_mono; [|apply (kept_firewall b1); exact Hw].
  intros [[]|er] w1 Hw1; [|by apply wp_ret]. apply wp_bind, wp_attempt.
  eapply wp_mono; [|apply (kept_proto b1), (kept_enable _ b1 (rm_readable _ _ _ Hrm) Nvmeof); [by right|exact Hw1]].
  intros [st|er] w2 [Hb2 Hwant]; [|by apply wp_ret]. apply wp_bind, wp_attempt, wp_on_blocks. intros r b Er w3 Hw3.
  pose proof (restore_served (sw_block w2) Hs Hb2 Hwant) as Hserved. unfold wp in Hserved. rewrite Er in Hserved. cbn in Hserved.
  destruct r as [[]|er]; cbn [map_err]; [apply wp_ret; intros _; rewrite Hw3; by apply Hserved|].
  apply wp_bind, wp_ignore. unfold wp at 1. apply wp_bind, wp_ignore. unfold wp at 1. by apply wp_ret.
Qed.

Lemma wp_reconcile_nvmeof w : kept_w w -> wp (reconcile_nvmeof e o) (fun r w' => r = Ok [] -> served m (sw_block w')) w.
Proof.
  intros Hw. unfold reconcile_nvmeof. destruct (safe_to_restore o) eqn:Hs; cbn [negb].
  - apply wp_bind. unfold is_enabled. eapply wp_mono with (P := fun r w1 => r = Ok true /\ kept_w w1).
    2: { assert (wp (load_state (se_proto e)) (fun r p => exists s, r = Ok s /\ st_nvmeof s = true /\ kept_p b1 p) (sw_proto w)) as Hl.
         { apply (wp_load_state _ b1 (rm_readable _ _ _ Hrm)); [done|]. intros s p Hp Hon. by exists s. }
         unfold wp, on_proto, bind in *. destruct (load_state (se_proto e) (sw_proto w)) as [r p]. cbn in Hl |- *.
         destruct Hl as (s & -> & Hon & Hp). cbn. by rewrite Hon. }
    intros r w1 [-> Hw1]. apply wp_bind. destruct (ro_changed o) eqn:Hc; [apply wp_ret; by apply wp_restart|].
    apply wp_bind, wp_attempt, wp_on_blocks. intros r b Er w2 Hw2. pose proof (calm_is_active (sw_block w1)) as Hca.
    unfold keeps, wp in Hca. rewrite Er in Hca. cbn in Hca.
    assert (kept_w w2) as Hk2.
    { destruct Hw1 as [Hb1 Hwant]. unfold kept_s. rewrite Hw2. split.
      - eapply apart_trans; [exact Hb1|]. apply calm_apart; [apply (ap_disk _ _ _ Hb1)|done].
      - unfold wants. by destruct Hca as [[-> _] _]. }
    apply wp_ret. destruct r as [[]|er]; cbn [map_err negb]; [|by apply wp_restart..].
    apply wp_ret. intros _. rewrite Hw2. apply (unchanged_served b w1); [done..|apply Hw1|done].
  - apply wp_bind. unfold failing. apply wp_bind, wp_attempt, wp_on_blocks. intros r b Er w1 Hw1.
    pose proof (quiesce_served (sw_block w) (proj1 Hw)) as Hq. unfold wp in Hq. rewrite Er in Hq. cbn in Hq.
    apply wp_ret, wp_bind, wp_ignore_firewall. intros w2 Hw2. apply wp_ret. destruct r as [[]|er]; cbn; [|done].
    intros _. rewrite Hw2, Hw1. by apply Hq.
Qed.

End After.

(** ** The call *)

(** What the engine starts from: its files are regular and its directories in
    order, calls may fail but not claim that something is missing, NVMe-oF is
    wanted, and the live namespaces are those of the records. *)
Record settled b : Prop := mkSettled {
  se_plain : plain (bw_disk b);
  se_order : nv_order b;
  se_iscsi : iscsi_order b;
  se_honest : Forall honest (bw_plan b);
  se_readable : forall F, F ∈ bw_plan b -> fault F OpRead PROTOCOLS_PATH = None;
  se_kernel : honest_kernel (bw_kernel b);
  se_orderly : orderly (bw_tree b);
  se_wanted : wants b;
  se_agrees : forall ss, records b ss -> agrees ss (bw_tree b)
}.

Lemma settled_remapped m b :
  settled b -> wp (remap_device_paths_nvmeof m) (fun r b' => exists o, r = Ok o /\ remapped m b' o /\ iscsi_order b' /\ wants b') b.
Proof.
  intros [Hpl Hor His Hh HF Hk Ho Hw Hag]. eapply wp_mono; [|by apply wp_remap_nvmeof].
  intros r b' (o & -> & Hd & Hrw & Hsafe & Hsame). exists o. split; [done|].
  pose proof (rewrote_plain _ _ Hpl Hd Hrw) as Hpl'. destruct Hrw as (Ht & [l Hl] & Hf & Hout).
  split_and!.
  - split; [done|done| | | | |].
    + rewrite Hl in Hh. by apply Forall_app in Hh as [_ ?].
    + intros F HF'. apply HF. rewrite Hl. apply elem_of_app. by right.
    + by apply (honest_suffix (bw_kernel b)).
    + by rewrite Ht.
    + intros Hs. destruct (Hsafe Hs) as (ss & Hrec & Hres & Hkn). exists ss. rewrite Ht. split_and!; [done..|].
      intros Hc. apply Hag. apply (records_same b'); [|done]. intros p _. by rewrite Hsame.
  - apply (dir_ok_same _ (bw_disk b)); [|done]. intros n. apply Hout. by intros [? [=]].
  - destruct Hw as (f & st & Hpf & ?). exists f, st. rewrite Hout; [done|]. by intros [? [=]].
Qed.

(** When the call reports success, every enabled namespace of the engine is on the device its volume has now. *)
Lemma reconciled_served e m w w' :
  settled (sw_block w) -> reconcile_block_shares_under_lock e m w = (Ok tt, w') -> served m (sw_block w').
Proof.
  intros Hset Hrun.
  enough (wp (reconcile_block_shares_under_lock e m) (fun r w' => r = Ok tt -> served m (sw_block w')) w) as Hwp.
  { unfold wp in Hwp. rewrite Hrun in Hwp. by apply Hwp. }
  unfold reconcile_block_shares_under_lock. apply wp_bind, wp_on_blocks. intros r b1 Er w1 Hw1.
  pose proof (settled_remapped m _ Hset) as Hr. unfold wp in Hr. rewrite Er in Hr. cbn in Hr. clear Er.
  destruct Hr as (o & -> & Hrm & His & Hwant). cbn [map_err].
  apply wp_bind, wp_on_blocks. intros r b2 Er w2 Hw2. destruct r as [oi|er]; [|done]. cbn [map_err].
  assert (kept_s b1 w2) as Hk2.
  { unfold kept_s. rewrite Hw2. assert (apart nv_or_protocols b1 b1) as Hb1 by apply apart_refl, Hrm.
    pose proof (apart_remap_iscsi m b1 b1 His (rm_honest _ _ _ Hrm) Hb1) as Ha. unfold keeps, wp in Ha.
    rewrite Hw1 in Er. rewrite Er in Ha. cbn in Ha. split; [by apply apart_weaken|].
    destruct Hwant as (f & st & Hf & ?). exists f, st. destruct (ap_disk _ _ _ Ha) as [_ Hs]. rewrite Hs; [done|]. by right. }
  apply wp_bind. eapply wp_mono; [|apply (kept_reconcile_iscsi b1 (rm_readable _ _ _ Hrm) e oi w2 Hk2)].
  intros [fa|er] w3 Hk3; [|done]. apply wp_bind. eapply wp_mono; [|apply (wp_reconcile_nvmeof m b1 o e Hrm w3 Hk3)].
  intros [fb|er] w4 Hsv; [|done]. destruct fa as [|? ?]; cbn [app]; [|by apply wp_throw].
  destruct fb as [|? ?]; [apply wp_ret; intros _; by apply Hsv|by apply wp_throw].
Qed.

End Exports.
