(* ===== verification/ShareBoot.v ===== *)
(** * Starting the shares: engine/nasty-engine/src/main.rs

    The part of [main] from the storage recovery to the domain services: NFS is
    stopped before the mounts, the block exports get their devices, what cannot
    be placed is taken down, the other protocols start, and the firewall is
    opened for what came up only. Which filesystems failed to mount is an
    argument, the answer of [restore_mounts]. The phases' time limits are not
    modelled. *)
From Stdlib Require Import String Ascii ZArith.
From stdpp Require Import base list gmap strings numbers.
From S2P Require Import Prelude RustStr Disk StateStore Records JsonRpc Rest FirewallRules Firewall FirewallProps Backup ConfigFs BlockWorld Iscsi IscsiService IscsiRemap NvmeofService NvmeofRestore Protocol BlockReconcile.

Open Scope string_scope.
Open Scope rust_scope.

Definition protocol_restore_exclusions (nfs_safe iscsi_safe nvmeof_safe : bool) : list Protocol :=
  ((if nfs_safe then [] else [Nfs]) ++ (if iscsi_safe then [] else [Iscsi]) ++ (if nvmeof_safe then [] else [Nvmeof]))%list.

Section Boot.
Context `{ConfigFs} `{Vault} `{IpParser} `{KernelModules} `{!Codec IscsiTarget} `{!Codec NvmeofSubsystem} `{!Codec Json}
  `{!Codec ProtocolState} `{!Codec FirewallRestrictions} `{!Codec (list CustomRule)}.

(** [mount_failures] are the names that [restore_mounts] returned. *)
Definition boot_shares (e : ShareEnv) (mount_failures : list string) (mappings : BlockDeviceMappings) : M ShareWorld string (list Protocol) :=
  r <- attempt (on_proto (quiesce_protocol (se_proto e) Nfs)) ;;
  let nfs_quiesced := match r with Ok _ => true | Err _ => false end in
  let storage_restore_failed := match mount_failures with [] => false | _ => true end in
  let nfs_safe := nfs_quiesced && negb storage_restore_failed in
  nvmeof <- on_blocks display_nvmeof_error (remap_device_paths_nvmeof mappings) ;;
  iscsi <- on_blocks display_iscsi_error (remap_device_paths_iscsi mappings) ;;
  reload_iscsi <- (if negb (safe_to_restore iscsi) then ret true else on_proto (is_enabled (se_proto e) Iscsi)) ;;
  (if reload_iscsi : bool then
     r <- attempt (on_proto (quiesce_protocol (se_proto e) Iscsi)) ;;
     match r with
     | Ok _ => ret tt
     | Err er => throw ("failed to quiesce iSCSI before protocol restore: " ++ er)
     end
   else ret tt) ;;;
  (if negb (safe_to_restore nvmeof) then
     r <- attempt (on_blocks display_nvmeof_error quiesce) ;;
     match r with
     | Ok _ => ret tt
     | Err er => throw ("failed to quiesce unsafe NVMe-oF state: " ++ er)
     end
   else ret tt) ;;;
  let excluded := protocol_restore_exclusions nfs_safe (safe_to_restore iscsi) (safe_to_restore nvmeof) in
  restored <- on_proto (restore_excluding (se_proto e) excluded) ;;
  let actual_states := (fun p => (p, negb (bool_decide (p ∈ excluded)) && bool_decide (p ∈ restored))) <$> ALL_PROTOCOLS in
  r <- attempt (on_firewall (set_protocol_states (se_fw e 0) actual_states)) ;;
  match r with
  | Ok _ => ret restored
  | Err er => throw ("firewall protocol reconciliation failed: " ++ er)
  end.

(** ** The firewall afterwards *)

(** One rule per service. *)
Definition rules_once (st : FirewallState) : Prop := NoDup (r_service <$> st).

Lemma update_services f st p :
  (forall r, r_service (f r) = r_service r) -> r_service <$> update_first p f st = r_service <$> st.
Proof. intros Hf. induction st as [|r st IH]; [done|]. cbn. destruct (p r); cbn; [by rewrite Hf|by rewrite IH]. Qed.

Lemma set_active_service b r : r_service (set_active b r) = r_service r.
Proof. by destruct r. Qed.

Lemma elem_of_update (f : FirewallRule -> FirewallRule) s st r :
  rules_once st -> r ∈ update_first (for_service s) f st -> (forall r, r_service (f r) = r_service r) ->
  (r_service r <> s /\ r ∈ st) \/ (r_service r = s /\ exists r0, r0 ∈ st /\ r = f r0).
Proof.
  intros Hn Hr Hf. unfold rules_once in Hn. induction st as [|r0 st IH]; cbn in *; [by apply not_elem_of_nil in Hr|].
  apply list.NoDup_cons in Hn as [Hn0 Hn]. unfold for_service in *. destruct (r_service r0 =s s) eqn:Es.
  - apply eqb_spec in Es as <-. apply elem_of_cons in Hr as [-> |Hr].
    + right. split; [apply Hf|]. exists r0. split; [by left|done].
    + left. split; [|by right]. intros E. apply Hn0. rewrite <- E. by apply (list_elem_of_fmap_2 r_service).
  - apply elem_of_cons in Hr as [-> |Hr].
    + left. split; [by apply eqb_neq_spec|by left].
    + destruct (IH Hn Hr) as [[Ha Hb]|(Ha & r1 & Hb & Hc)]; [left; split; [done|by right]|right; split; [done|]].
      exists r1. split; [by right|done].
Qed.

Lemma step_rules acc p b :
  rules_once acc.2 -> let acc' := set_protocol_state acc (p, b) in
  rules_once acc'.2 /\ (acc'.1 = false -> acc' = acc) /\
  (forall r, r ∈ acc'.2 -> r_service r = protocol_name p -> r_active r = b) /\
  (forall r, r ∈ acc'.2 -> r_service r <> protocol_name p -> r ∈ acc.2).
Proof.
  intros Hn. cbn. unfold set_protocol_state. cbn [fst snd]. destruct (List.find _ acc.2) as [rule|] eqn:Hf.
  - apply find_some in Hf as [Hin Hs]. apply list_elem_of_In in Hin. unfold for_service in Hs. apply eqb_spec in Hs.
    destruct (Bool.eqb (r_active rule) b) eqn:Hb.
    + apply eqb_prop in Hb. split_and!; try done. intros r Hr Hrs. replace r with rule; [done|].
      clear -Hn Hin Hr Hs Hrs. unfold rules_once in Hn. induction acc.2 as [|r0 st IH]; [by apply not_elem_of_nil in Hr|].
      cbn in Hn. apply list.NoDup_cons in Hn as [Hn0 Hn].
      apply elem_of_cons in Hin as [-> |Hin], Hr as [-> |Hr]; [done| | |by apply IH]; exfalso; apply Hn0;
        [rewrite Hs, <- Hrs|rewrite Hrs, <- Hs]; by apply (list_elem_of_fmap_2 r_service).
    + cbn. split_and!; [unfold rules_once; rewrite update_services; [done|apply set_active_service]|done|..].
      * intros r Hr Hrs. destruct (elem_of_update _ _ _ _ Hn Hr (set_active_service b)) as [[? _]|(_ & r0 & _ & ->)]; [congruence|done].
      * intros r Hr Hrs. destruct (elem_of_update _ _ _ _ Hn Hr (set_active_service b)) as [[_ ?]|(? & _)]; [done|congruence].
  - split_and!; try done. intros r Hr Hrs. exfalso. apply list_elem_of_In in Hr. apply (find_none _ _ Hf) in Hr.
    unfold for_service in Hr. by rewrite Hrs, eqb_refl in Hr.
Qed.

Lemma fold_rules l acc :
  rules_once acc.2 -> NoDup (protocol_name ∘ fst <$> l) ->
  let acc' := fold_left set_protocol_state l acc in
  rules_once acc'.2 /\ (acc'.1 = false -> acc' = acc) /\
  (forall p b r, (p, b) ∈ l -> r ∈ acc'.2 -> r_service r = protocol_name p -> r_active r = b) /\
  (forall r, r ∈ acc'.2 -> r_service r ∉ protocol_name ∘ fst <$> l -> r ∈ acc.2).
Proof.
  cbn zeta. revert acc. induction l as [|[p b] l IH]; intros acc Hn Hd; cbn [fold_left].
  { split_and!; try done. by intros p b r ?%not_elem_of_nil. }
  cbn in Hd. apply list.NoDup_cons in Hd as [Hd0 Hd]. destruct (step_rules acc p b Hn) as (Hn1 & Hsame & Hset & Hold).
  destruct (IH _ Hn1 Hd) as (Hn2 & Hsame2 & Hset2 & Hold2). split_and!; [done| | |].
  - intros Hc. rewrite (Hsame2 Hc) in Hc |- *. by apply Hsame.
  - intros q c r [[= -> ->]|Hq]%elem_of_cons Hr Hrs; [|by eapply Hset2]. apply Hset; [|done]. apply Hold2; [done|]. by rewrite Hrs.
  - intros r Hr [Hr1 Hr2]%not_elem_of_cons. apply Hold; [by apply Hold2|done].
Qed.

Lemma commit_config fe c f f' : commit_candidate fe c None f = (Ok tt, f') -> fw_config f' = c.
Proof.
  unfold commit_candidate, bind at 1 2, attempt at 1, gets. destruct (apply_nftables (fe_check fe) (fe_apply fe) c f) as [[[]|er] f1]; cbn; [|done].
  by intros [= <-].
Qed.

(** After it succeeded, the rules of the protocols are as told. *)
Lemma set_states_rules fe l f f' :
  rules_once (fc_state (fw_config f)) -> NoDup (protocol_name ∘ fst <$> l) -> set_protocol_states fe l f = (Ok tt, f') ->
  forall p b r, (p, b) ∈ l -> r ∈ fc_state (fw_config f') -> r_service r = protocol_name p -> r_active r = b.
Proof.
  intros Hn Hd. unfold set_protocol_states, bind at 1, gets. destruct (fold_rules l (false, fc_state (fw_config f)) Hn Hd) as (_ & Hsame & Hset & _).
  destruct (fold_left _ _ _) as [changed st]. cbn in Hsame, Hset. destruct changed; cbn [negb].
  - intros ->%commit_config. apply Hset.
  - intros [= <-]. assert (st = fc_state (fw_config f)) as <- by (specialize (Hsame eq_refl); congruence). done.
Qed.

End Boot.

(** ** The records while the protocols start *)

Definition share_file (p : Path) : Prop := (exists n, p = (dir ISCSI_STATE_DIR ++ [n])%list) \/ p = SAVECONFIG \/ nv_file p.

Section Frame.
Context `{ConfigFs} `{KernelModules} `{!Codec ProtocolState} (e : ProtoEnv) (d0 : Disk).
Implicit Types (w : ProtoWorld).

Definition framed_p w : Prop := framed share_file d0 (bw_disk (pw_block w)).

Lemma framed_disk_call {E F A} (g : E -> F) (f : IoErr -> E) (m : Faults -> M Disk IoErr A) w :
  (forall F, keeps (framed share_file d0) (m F) (bw_disk (pw_block w))) -> keeps framed_p (on_block g (disk_call f m)) w.
Proof. intros Hm. apply wp_on_block, wp_disk_call. apply Hm. Qed.

Lemma framed_save_state s w : framed_p w -> keeps framed_p (save_state s) w.
Proof. intros Hw. apply framed_disk_call. intros F. apply keeps_save; [by intros [[n [=]]|[[=]|[n [=]]]]..|done]. Qed.

Lemma framed_systemctl a svc w : framed_p w -> keeps framed_p (systemctl a svc) w.
Proof. intros Hw. unfold keeps, wp, systemctl. by destruct (default _ (head _)) as [|[]]. Qed.

Lemma framed_modprobe md w : framed_p w -> keeps framed_p (modprobe md) w.
Proof. intros Hw. unfold keeps, wp, modprobe. by destruct (default _ _) as [|[]]. Qed.

Lemma framed_watchdog w : framed_p w -> keeps framed_p (stop_watchdog e) w.
Proof. intros Hw. unfold keeps, wp, stop_watchdog. by destruct (pe_watchdog_stop e). Qed.

Lemma framed_ignore {A} (m : M ProtoWorld string A) w : keeps framed_p m w -> keeps framed_p (ignore (E := string) m) w.
Proof. intros Hm. by apply wp_ignore. Qed.

Lemma framed_for_each {A} (l : list A) (f : A -> M ProtoWorld string unit) w :
  (forall a w, framed_p w -> keeps framed_p (f a) w) -> framed_p w -> keeps framed_p (for_each l f) w.
Proof. intros Hf Hw. apply wp_for_each_inv; [done|]. intros a w' _. apply Hf. Qed.

Lemma framed_watchdog_if b w : framed_p w -> keeps (E := string) framed_p (if b : bool then ignore (stop_watchdog e) else ret tt) w.
Proof. intros Hw. destruct b; [|done]. by apply framed_ignore, framed_watchdog. Qed.

Lemma framed_prepare p w : framed_p w -> keeps framed_p (prepare_protocol e p) w.
Proof.
  intros Hw. destruct p; try done. cbn. destruct (pe_smb_conf_exists e); [done|]. apply framed_ignore, framed_disk_call.
  intros F. apply keeps_fs_write; [|done]. by intros [[n [=]]|[[=]|[n [=]]]].
Qed.

Lemma framed_services p svcs w : framed_p w -> keeps framed_p (restore_services e p svcs) w.
Proof.
  revert w. induction svcs as [|svc svcs IH]; intros w Hw; cbn [restore_services]; [done|]. apply keeps_bind.
  - apply keeps_attempt. unfold start_service. apply keeps_bind; [by apply framed_systemctl|]. by destruct p.
  - intros [_|er] w1 Hw1; [by apply IH|done].
Qed.

Lemma framed_restore_protocol excluded s p w : framed_p w -> keeps framed_p (restore_protocol e excluded s p) w.
Proof.
  intros Hw. unfold restore_protocol. destruct (negb (st_get s p) || _).
  - apply keeps_bind.
    { destruct (_ && _); [|done]. apply framed_for_each; [|done]. intros svc w1 Hw1. by apply framed_ignore, framed_systemctl. }
    intros _ w1 Hw1. apply keeps_bind; [by apply framed_watchdog_if|done].
  - apply keeps_bind; [by apply keeps_attempt, framed_prepare|]. intros [_|er] w1 Hw1.
    + apply keeps_bind; [apply framed_for_each; [|done]; intros md w2 Hw2; by apply framed_ignore, framed_modprobe|].
      intros _ w2 Hw2. apply keeps_bind; [by apply framed_services|]. intros [] w3 Hw3; [done|].
      apply keeps_bind; [by apply framed_watchdog_if|]. intros _ w4 Hw4. apply keeps_bind; [by apply framed_ignore, framed_save_state|done].
    + apply keeps_bind; [by apply framed_ignore, framed_save_state|]. intros _ w2 Hw2. apply keeps_bind; [by apply framed_watchdog_if|done].
Qed.

Lemma framed_load_state w : framed_p w -> keeps framed_p (load_state e) w.
Proof.
  intros Hw. unfold load_state. apply keeps_bind; [apply keeps_attempt, framed_disk_call; intros F; by apply keeps_read|].
  intros [c|er] w1 Hw1; [done|]. apply keeps_bind; [by apply framed_ignore, framed_save_state|done].
Qed.

Lemma framed_restore excluded w : framed_p w -> keeps framed_p (restore_excluding e excluded) w.
Proof.
  intros Hw. unfold restore_excluding. apply keeps_bind; [by apply framed_load_state|]. intros s w1 Hw1.
  generalize (@nil Protocol) as restored. revert s w1 Hw1. induction ALL_PROTOCOLS as [|p ps IH]; intros s w1 Hw1 restored; [done|].
  cbn [restore_loop]. apply keeps_bind; [by apply framed_restore_protocol|]. intros out w2 Hw2. by apply IH.
Qed.

Lemma framed_quiesce p w : framed_p w -> keeps framed_p (quiesce_protocol e p) w.
Proof. intros Hw. apply framed_for_each; [|done]. intros svc w1. apply framed_systemctl. Qed.

End Frame.

(** ** The call *)

Section Start.
Context `{ConfigFs} `{Vault} `{IpParser} `{KernelModules} `{!Codec IscsiTarget} `{!CodecLaws IscsiTarget}
  `{!Codec NvmeofSubsystem} `{!CodecLaws NvmeofSubsystem} `{!Codec Json} `{!CodecLaws Json} `{!Codec ProtocolState}
  `{!Codec FirewallRestrictions} `{!Codec (list CustomRule)}.
Implicit Types (b : BlockWorld) (w : ShareWorld) (m : BlockDeviceMappings).

Lemma set_states_disk fe l f : fw_disk (set_protocol_states fe l f).2 = fw_disk f.
Proof.
  unfold set_protocol_states, bind at 1, gets. destruct (fold_left _ _ _) as [[] st]; cbn [negb]; [|done].
  unfold commit_candidate, bind at 1 2, attempt at 1, gets.
  pose proof (apply_nftables_disk (fe_check fe) (fe_apply fe) (with_state st (fw_config f)) f) as Hd.
  by destruct (apply_nftables (fe_check fe) (fe_apply fe) _ f) as [[[]|er] f1].
Qed.

Lemma set_bw_disk_same b : set_bw_disk (bw_disk b) b = b.
Proof. by destruct b. Qed.

(** What is restored from the files of the shares depends on nothing else. *)
Lemma restorable_same m b b' :
  (forall p, share_file p -> bw_disk b' !! p = bw_disk b !! p) -> restorable m b -> restorable m b'.
Proof.
  intros Hd (ts & Hts & Hres & Hcfg). exists ts. assert (saved_config b' = saved_config b) as Hsc by (unfold saved_config; by rewrite Hd; [|right; left]).
  rewrite Hsc. split_and!; [|done..]. intros t. rewrite Hts. unfold stored.
  split; intros [Hv Hst]; (split; [done|]); rewrite item_path_eq in * by apply Hv; [rewrite Hd|rewrite Hd in Hst]; try done; left; by eexists.
Qed.

Lemma load_state_ok (e : ProtoEnv) (w : ProtoWorld) : is_ok (load_state e w).1 = true.
Proof.
  enough (wp (load_state e) (fun r _ => is_ok r = true) w) as Hl by done. apply wp_bind, wp_attempt. unfold wp at 1.
  match goal with |- context [on_block ?f ?x w] => destruct (on_block f x w) as [[c|er] w1] end; cbn [fst snd]; [by apply wp_ret|].
  apply wp_bind, wp_ignore. by apply wp_ret.
Qed.

(** What the engine's disk and kernel start from. *)
Record bootable b : Prop := mkBootable {
  bo_plain : plain (bw_disk b);
  bo_nvmeof : dir_ok (T := NvmeofSubsystem) NVMEOF_STATE_DIR (bw_disk b);
  bo_iscsi : dir_ok (T := IscsiTarget) ISCSI_STATE_DIR (bw_disk b);
  bo_honest : Forall honest (bw_plan b);
  bo_kernel : honest_kernel (bw_kernel b)
}.

(** Remapping the namespaces: what it reports is so. *)
Lemma wp_boot_nvmeof m b :
  bootable b ->
  wp (remap_device_paths_nvmeof m) (fun r b1 => exists nv, r = Ok nv /\ plain (bw_disk b1) /\
    dir_ok (T := IscsiTarget) ISCSI_STATE_DIR (bw_disk b1) /\ Forall honest (bw_plan b1) /\ honest_kernel (bw_kernel b1) /\
    (safe_to_restore nv = true -> exists ss, records b1 ss /\ forall s n, s ∈ ss -> n ∈ ss_namespaces s -> ns_resolved m n)) b.
Proof.
  intros [Hp Hn Hi Hh Hk]. eapply wp_mono; [|by apply wp_remap_nvmeof].
  intros r b1 (nv & -> & Hd & Hrw & Hsafe & _). exists nv. split; [done|].
  pose proof (rewrote_plain _ _ Hp Hd Hrw) as Hp1. destruct Hrw as (_ & [l Hl] & Hf & Hout). split_and!; [done| | | |].
  - apply (dir_ok_same _ (bw_disk b)); [|done]. intros n. apply Hout. by intros [? [=]].
  - rewrite Hl in Hh. by apply Forall_app in Hh as [_ ?].
  - by apply (honest_suffix (bw_kernel b)).
  - intros Hs. destruct (Hsafe Hs) as (ss & Hrec & Hres & _). by exists ss.
Qed.

Lemma wp_boot_iscsi m b1 :
  plain (bw_disk b1) -> dir_ok (T := IscsiTarget) ISCSI_STATE_DIR (bw_disk b1) -> Forall honest (bw_plan b1) ->
  wp (remap_device_paths_iscsi m) (fun r b2 => exists oi, r = Ok oi /\ (safe_to_restore oi = true -> restorable m b2) /\
    apart nv_or_protocols b1 b2) b1.
Proof.
  intros Hp Hi Hh. eapply wp_mono; [|apply wp_and; [apply (wp_remap_iscsi m b1); [done| |done]|apply (apart_remap_iscsi m b1 b1); [done..|by apply apart_refl]]].
  - intros r b2 [(oi & -> & Hs) Ha]. by exists oi.
  - intros f. apply Hp.
Qed.

Abbreviation framed_s d0 w := (framed share_file d0 (bw_disk (sw_block w))).

Lemma framed_on_proto {A} d0 (x : M ProtoWorld string A) w : keeps (framed_p d0) x (sw_proto w) -> keeps (fun w' => framed_s d0 w') (on_proto x) w.
Proof. unfold keeps, wp, on_proto. by destruct (x (sw_proto w)). Qed.

(** Protocols whose shares could not be placed do not come up, and the files the
    others' shares are restored from are as the remapping left them. *)
Definition placed m (l : list Protocol) b : Prop :=
  (Iscsi ∈ l -> restorable m b) /\
  (Nvmeof ∈ l -> exists ss, records b ss /\ forall s n, s ∈ ss -> n ∈ ss_namespaces s -> ns_resolved m n).

Lemma placed_same m l b b' : (forall p, share_file p -> bw_disk b' !! p = bw_disk b !! p) -> placed m l b -> placed m l b'.
Proof.
  intros Hd (Hi & Hv). split_and!; [by intros ?%Hi; apply (restorable_same m b)|].
  intros (ss & Hrec & Hres)%Hv. exists ss. split; [|done]. apply (records_same b); [|done]. intros p Hp. apply Hd. right. by right.
Qed.

Lemma names_once (f : Protocol -> bool) : NoDup (protocol_name ∘ fst <$> ((fun p => (p, f p)) <$> ALL_PROTOCOLS)).
Proof.
  rewrite <- list_fmap_compose. change (NoDup (protocol_name <$> ALL_PROTOCOLS)). apply (bool_decide_unpack _). by vm_compute.
Qed.

Lemma all_listed p : p ∈ ALL_PROTOCOLS.
Proof. destruct p; unfold ALL_PROTOCOLS; repeat first [by left|right]. Qed.

(** The steps between leave the records alone. *)
Lemma same_kernel_proto {A} (x : M ProtoWorld string A) w (Q : result A string -> ShareWorld -> Prop) :
  wp x (fun r p => forall w', sw_proto w' = p -> same_firewall w w' -> Q r w') (sw_proto w) -> wp (on_proto x) Q w.
Proof. unfold wp, on_proto. destruct (x (sw_proto w)) as [r p]. cbn. intros HQ. by apply HQ. Qed.

(** The kernel enforces the rules that are in memory. *)
Definition enforced w : Prop := sw_live w = Some (batch (sw_config w)).

Lemma enforced_same w w' : same_firewall w w' -> enforced w -> enforced w'.
Proof. unfold enforced. by intros [-> ->]. Qed.

(** The firewall, told what came up. *)
Lemma wp_boot_states fe (l : list Protocol) (states : list (Protocol * bool)) w :
  rules_once (fc_state (sw_config w)) -> NoDup (protocol_name ∘ fst <$> states) ->
  wp (r <- attempt (on_firewall (set_protocol_states fe states)) ;;
      match r with Ok _ => ret l | Err er => throw ("firewall protocol reconciliation failed: " ++ er) end)
    (fun r w' => forall l', r = Ok l' -> l' = l /\ sw_proto w' = sw_proto w /\ (sound_nft fe -> enforced w -> enforced w') /\
       forall p (a : bool) ru, (p, a) ∈ states -> ru ∈ fc_state (sw_config w') -> r_service ru = protocol_name p -> r_active ru = a) w.
Proof.
  intros Hn Hnd. apply wp_bind, wp_attempt. unfold wp at 1, on_firewall.
  set (f1 := mkFw (sw_config w) (sw_live w) (bw_disk (sw_block w))).
  pose proof (set_states_disk fe states f1) as Hd. pose proof (set_states_rules fe states f1) as Hrules.
  pose proof (fun Hs Hi => exec_success fe (FStates states) f1 Hs Hi) as Hstep. cbn [exec_fw] in Hstep.
  destruct (set_protocol_states fe states f1) as [[[]|er] f2]; cbn [fst snd] in *; [|done].
  specialize (Hrules f2 Hn Hnd eq_refl). apply wp_ret. intros ? [= <-].
  split_and!; [done| |intros Hs Hi; exact (Hstep Hs Hi eq_refl)|done].
  cbn [sw_proto]. rewrite Hd. change (fw_disk f1) with (bw_disk (sw_block w)). rewrite set_bw_disk_same.
  unfold sw_block, set_block. by destruct (sw_proto w).
Qed.

Lemma wp_boot_firewall fe (l : list Protocol) (f : Protocol -> bool) w :
  rules_once (fc_state (sw_config w)) ->
  wp (r <- attempt (on_firewall (set_protocol_states fe ((fun p => (p, f p)) <$> ALL_PROTOCOLS))) ;;
      match r with Ok _ => ret l | Err er => throw ("firewall protocol reconciliation failed: " ++ er) end)
    (fun r w' => forall l', r = Ok l' -> l' = l /\ sw_proto w' = sw_proto w /\ (sound_nft fe -> enforced w -> enforced w') /\
       forall p ru, ru ∈ fc_state (sw_config w') -> r_service ru = protocol_name p -> r_active ru = f p) w.
Proof.
  intros Hn. eapply wp_mono; [|exact (wp_boot_states fe l _ w Hn (names_once f))].
  intros r w' Hr l' Hl'. destruct (Hr l' Hl') as (-> & Hp & He & Hru). split_and!; [done..|]. intros p ru. apply Hru.
  apply (list_elem_of_fmap_2 (fun p => (p, f p))), all_listed.
Qed.

(** The last two steps: starting what may start, and the firewall. *)
Lemma wp_boot_finish e excluded w d0 :
  framed_s d0 w -> rules_once (fc_state (sw_config w)) ->
  wp (restored <- on_proto (restore_excluding (se_proto e) excluded) ;;
      let actual_states := (fun p => (p, negb (bool_decide (p ∈ excluded)) && bool_decide (p ∈ restored))) <$> ALL_PROTOCOLS in
      r <- attempt (on_firewall (set_protocol_states (se_fw e 0) actual_states)) ;;
      match r with
      | Ok _ => ret restored
      | Err er => throw ("firewall protocol reconciliation failed: " ++ er)
      end)
    (fun r w' => forall l, r = Ok l -> framed_s d0 w' /\ (sound_nft (se_fw e 0) -> enforced w -> enforced w') /\
       (forall p, p ∈ l -> p ∉ excluded) /\
       (forall p ru, ru ∈ fc_state (sw_config w') -> r_service ru = protocol_name p -> r_active ru = true <-> p ∈ l) /\
       (forall p svc, p ∈ l -> svc ∈ services (se_proto e) p -> pw_units (sw_proto w') !! svc = Some true)) w.
Proof.
  intros Hf Hn. pose proof (load_state_ok (se_proto e) (sw_proto w)) as Hl.
  destruct (load_state (se_proto e) (sw_proto w)) as [[s0|] p0] eqn:El; [|done]. clear Hl.
  apply wp_bind, same_kernel_proto.
  eapply wp_mono; [|exact (wp_and _ _ (fun _ => framed_p d0) _ (wp_restore_excluding (se_proto e) excluded s0 p0 (sw_proto w) El)
    (framed_restore (se_proto e) d0 excluded (sw_proto w) Hf))].
  intros r p1 [(l & -> & Hin & _) Hfr] w1 Hw1 Hc1. eapply wp_mono; [|apply (wp_boot_firewall (se_fw e 0) l); by rewrite (proj1 Hc1)].
  intros r w2 Hfin ? ->. destruct (Hfin _ eq_refl) as (-> & Hw2 & He & Hrules).
  assert (forall p, p ∈ l -> p ∉ excluded) as Hex by (intros p Hp; by destruct (Hin p Hp) as (_ & [? _] & _)).
  split_and!; [unfold sw_block; by rewrite Hw2, Hw1|intros Hs Hi; apply He; [done|by eapply enforced_same]|done|..].
  - intros p ru Hru Hs. rewrite (Hrules p ru Hru Hs), andb_true_iff, negb_true_iff, bool_decide_eq_false, bool_decide_eq_true. naive_solver.
  - intros p svc Hp Hsvc. rewrite Hw2, Hw1. by apply (Hin p Hp).
Qed.

Definition kernel_p (k : Kernel) (p : ProtoWorld) : Prop := bw_kernel (pw_block p) = k.

Lemma kernel_disk_call {E F A} (g : E -> F) (f : IoErr -> E) (x : Faults -> M Disk IoErr A) k p :
  kernel_p k p -> keeps (kernel_p k) (on_block g (disk_call f x)) p.
Proof. intros Hk. apply wp_on_block, wp_disk_call. done. Qed.

Lemma kernel_load_state e k p : kernel_p k p -> keeps (kernel_p k) (load_state e) p.
Proof.
  intros Hk. apply keeps_bind; [by apply keeps_attempt, kernel_disk_call|]. intros [c|er] p1 Hp1; [done|].
  apply keeps_bind; [by apply wp_ignore, kernel_disk_call|done].
Qed.

Lemma wp_boot_reload e oi w d0 :
  framed_s d0 w ->
  wp (if negb (safe_to_restore oi) then ret true else on_proto (is_enabled (se_proto e) Iscsi))
    (fun _ w' => framed_s d0 w' /\ same_firewall w w' /\ bw_kernel (sw_block w') = bw_kernel (sw_block w)) w.
Proof.
  intros Hf. destruct (negb (safe_to_restore oi)); [by apply wp_ret|]. apply same_kernel_proto, wp_bind.
  eapply wp_mono; [|apply wp_and; [apply (framed_load_state (se_proto e) d0 (sw_proto w) Hf)|apply (kernel_load_state (se_proto e) _ (sw_proto w) eq_refl)]].
  intros [s|er] p [Hp Hk]; [apply wp_ret|]; intros w' Hw' Hc'; unfold sw_block; by rewrite Hw'.
Qed.

Lemma wp_boot_stop e (reload : bool) w d0 :
  framed_s d0 w ->
  wp (if reload then
        r <- attempt (on_proto (quiesce_protocol (se_proto e) Iscsi)) ;;
        match r with Ok _ => ret tt | Err er => throw ("failed to quiesce iSCSI before protocol restore: " ++ er) end
      else ret tt)
    (fun _ w' => framed_s d0 w' /\ same_firewall w w' /\ bw_kernel (sw_block w') = bw_kernel (sw_block w)) w.
Proof.
  intros Hf. destruct reload; [|by apply wp_ret]. apply wp_bind, wp_attempt, same_kernel_proto.
  assert (keeps (kernel_p (bw_kernel (sw_block w))) (quiesce_protocol (se_proto e) Iscsi) (sw_proto w)) as Hk.
  { apply wp_for_each_inv; [done|]. intros svc p _ Hp. unfold keeps, wp, systemctl. by destruct (default _ (head _)) as [|[]]. }
  eapply wp_mono; [|exact (wp_and _ (fun _ => framed_p d0) (fun _ => kernel_p _) _ (framed_quiesce (se_proto e) d0 Iscsi (sw_proto w) Hf) Hk)].
  intros r p [Hp Hk'] w' Hw' Hc'. unfold sw_block. destruct r; [apply wp_ret|apply wp_throw]; by rewrite Hw'.
Qed.

Lemma wp_boot_quiesce (unsafe : bool) w d0 :
  framed_s d0 w -> honest_kernel (bw_kernel (sw_block w)) ->
  wp (if unsafe then
        r <- attempt (on_blocks display_nvmeof_error quiesce) ;;
        match r with Ok _ => ret tt | Err er => throw ("failed to quiesce unsafe NVMe-oF state: " ++ er) end
      else ret tt)
    (fun _ w' => framed_s d0 w' /\ same_firewall w w') w.
Proof.
  intros Hf Hk. destruct unsafe; [|by apply wp_ret]. apply wp_bind, wp_attempt, wp_blocks.
  eapply wp_mono; [|by apply wp_quiesce]. intros r b [[(Hd & _) _] _] w' Hw' Hc'.
  assert (framed_s d0 w') as Hf' by (rewrite Hw', Hd; exact Hf). destruct r; [apply wp_ret|apply wp_throw]; done.
Qed.

Lemma same_firewall_trans w1 w2 w3 : same_firewall w1 w2 -> same_firewall w2 w3 -> same_firewall w1 w3.
Proof. intros [Hc Hl] [Hc2 Hl2]. split; congruence. Qed.

(** Stopping the services of a protocol touches neither disk nor kernel. *)
Lemma quiesce_block (e : ProtoEnv) pr p : pw_block (quiesce_protocol e pr p).2 = pw_block p.
Proof.
  enough (keeps (fun p' => pw_block p' = pw_block p) (quiesce_protocol e pr) p) as Hk by exact Hk.
  apply wp_for_each_inv; [done|]. intros svc p1 _ Hp. unfold keeps, wp, systemctl. by destruct (default _ (head _)) as [|[]].
Qed.

(** From the remapping of the devices on, for a given answer to whether NFS may start. *)
Lemma wp_boot_rest e (nfs_safe : bool) m w :
  bootable (sw_block w) -> rules_once (fc_state (sw_config w)) ->
  wp (nvmeof <- on_blocks display_nvmeof_error (remap_device_paths_nvmeof m) ;;
      iscsi <- on_blocks display_iscsi_error (remap_device_paths_iscsi m) ;;
      reload_iscsi <- (if negb (safe_to_restore iscsi) then ret true else on_proto (is_enabled (se_proto e) Iscsi)) ;;
      (if reload_iscsi : bool then
         r <- attempt (on_proto (quiesce_protocol (se_proto e) Iscsi)) ;;
         match r with Ok _ => ret tt | Err er => throw ("failed to quiesce iSCSI before protocol restore: " ++ er) end
       else ret tt) ;;;
      (if negb (safe_to_restore nvmeof) then
         r <- attempt (on_blocks display_nvmeof_error quiesce) ;;
         match r with Ok _ => ret tt | Err er => throw ("failed to quiesce unsafe NVMe-oF state: " ++ er) end
       else ret tt) ;;;
      let excluded := protocol_restore_exclusions nfs_safe (safe_to_restore iscsi) (safe_to_restore nvmeof) in
      restored <- on_proto (restore_excluding (se_proto e) excluded) ;;
      let actual_states := (fun p => (p, negb (bool_decide (p ∈ excluded)) && bool_decide (p ∈ restored))) <$> ALL_PROTOCOLS in
      r <- attempt (on_firewall (set_protocol_states (se_fw e 0) actual_states)) ;;
      match r with
      | Ok _ => ret restored
      | Err er => throw ("firewall protocol reconciliation failed: " ++ er)
      end) (fun r w' => forall l, r = Ok l ->
    (forall p ru, ru ∈ fc_state (sw_config w') -> r_service ru = protocol_name p -> r_active ru = true <-> p ∈ l) /\
    (sound_nft (se_fw e 0) -> enforced w -> enforced w') /\
    (forall p svc, p ∈ l -> svc ∈ services (se_proto e) p -> pw_units (sw_proto w') !! svc = Some true) /\
    (Nfs ∈ l -> nfs_safe = true) /\ placed m l (sw_block w')) w.
Proof.
  intros Hb Hn. apply wp_bind, wp_blocks. eapply wp_mono; [|by apply wp_boot_nvmeof].
  intros r b1 (nv & -> & Hp1 & Hi1 & Hh1 & Hk1 & Hnv) w1 Hw1 Hc1. cbn [map_err].
  apply wp_bind, wp_blocks. rewrite Hw1. eapply wp_mono; [|by apply wp_boot_iscsi].
  intros r b2 (oi & -> & Hiscsi & Ha) w2 Hw2 Hc2. cbn [map_err].
  assert (framed_s (bw_disk b2) w2 /\ same_firewall w w2) as Hw2f.
  { split; [|by eapply same_firewall_trans]. rewrite Hw2. apply framed_refl, (ap_disk _ _ _ Ha). }
  assert (honest_kernel (bw_kernel (sw_block w2))) as Hk2 by (rewrite Hw2; eapply honest_suffix; [apply (ap_faults _ _ _ Ha)|done]).
  apply wp_bind. eapply wp_mono; [|apply (wp_boot_reload e oi w2 (bw_disk b2) (proj1 Hw2f))].
  intros [reload|er] w3 (Hf3 & Hc3 & Hk3); [|done]. apply wp_bind. eapply wp_mono; [|apply (wp_boot_stop e reload w3 (bw_disk b2) Hf3)].
  intros [[]|er] w4 (Hf4 & Hc4 & Hk4); [|done]. apply wp_bind.
  eapply wp_mono; [|apply (wp_boot_quiesce (negb (safe_to_restore nv)) w4 (bw_disk b2) Hf4); by rewrite Hk4, Hk3].
  intros [[]|er] w5 (Hf5 & Hc5); [|done].
  assert (same_firewall w w5) as Hc by (destruct Hw2f; by repeat (eapply same_firewall_trans; [eassumption|])).
  eapply wp_mono; [|apply (wp_boot_finish e _ w5 (bw_disk b2) Hf5); by rewrite (proj1 Hc)].
  intros r w6 Hfin l ->. destruct (Hfin l eq_refl) as (Hf6 & He & Hex & Hrules & Hsvc).
  split_and!; [done|intros Hs Hi; apply He; [done|by eapply enforced_same]|done|..].
  { intros Hl%Hex. destruct nfs_safe; [done|]. destruct Hl. by left. }
  apply (placed_same m l b2); [apply Hf6|]. split_and!.
  - intros Hl%Hex. apply Hiscsi. destruct (safe_to_restore oi); [done|]. destruct Hl. apply elem_of_app. right. by left.
  - intros Hl%Hex. destruct (safe_to_restore nv); [|destruct Hl; apply elem_of_app; right; apply elem_of_app; right; by left].
    destruct (Hnv eq_refl) as (ss & Hrec & Hres). exists ss. split; [|done]. apply (records_same b1); [|done].
    intros p Hp. apply (ap_disk _ _ _ Ha). by left.
Qed.

(** C17: At boot, the firewall is opened for what came up and nothing else. After [boot_shares] succeeded: in the engine's
    configuration the rule of a protocol is active exactly if the protocol came up, and the kernel enforces this
    configuration if it enforced the one before and [nft] has applied what it reports as applied; all services of a protocol
    that came up are running; NFS came up only if [restore_mounts] reported no filesystem that failed to mount and the NFS
    services could be stopped before the mounts; iSCSI only if saveconfig.json restores every target on the volumes it was
    made for; NVMe-oF only if every recorded namespace is on its own volume. Assumed: the state directories are in order, a
    failing call never claims that something is missing, and the firewall has one rule per service. *)
Theorem boot_opens_what_came_up e mount_failures m w l w' :
  bootable (sw_block w) -> rules_once (fc_state (sw_config w)) -> boot_shares e mount_failures m w = (Ok l, w') ->
  (forall p ru, ru ∈ fc_state (sw_config w') -> r_service ru = protocol_name p -> r_active ru = true <-> p ∈ l) /\
  (sound_nft (se_fw e 0) -> enforced w -> enforced w') /\
  (forall p svc, p ∈ l -> svc ∈ services (se_proto e) p -> pw_units (sw_proto w') !! svc = Some true) /\
  (Nfs ∈ l -> mount_failures = [] /\ (quiesce_protocol (se_proto e) Nfs (sw_proto w)).1 = Ok tt) /\
  placed m l (sw_block w').
Proof.
  intros Hb Hn Hrun. pose proof (quiesce_block (se_proto e) Nfs (sw_proto w)) as Hq.
  enough (wp (boot_shares e mount_failures m) (fun r w' => r = Ok l ->
    (forall p ru, ru ∈ fc_state (sw_config w') -> r_service ru = protocol_name p -> r_active ru = true <-> p ∈ l) /\
    (sound_nft (se_fw e 0) -> enforced w -> enforced w') /\
    (forall p svc, p ∈ l -> svc ∈ services (se_proto e) p -> pw_units (sw_proto w') !! svc = Some true) /\
    (Nfs ∈ l -> mount_failures = [] /\ (quiesce_protocol (se_proto e) Nfs (sw_proto w)).1 = Ok tt) /\
    placed m l (sw_block w')) w) as Hwp by (unfold wp in Hwp; rewrite Hrun in Hwp; by apply Hwp).
  apply wp_bind, wp_attempt, same_kernel_proto. unfold wp at 1.
  destruct (quiesce_protocol (se_proto e) Nfs (sw_proto w)) as [r p1]. cbn [snd fst] in *. intros w1 Hw1 Hc.
  eapply wp_mono; [|apply wp_boot_rest; [unfold sw_block; by rewrite Hw1, Hq|by rewrite (proj1 Hc)]].
  intros r2 w2 Hfin ->. destruct (Hfin l eq_refl) as (Hru & He & Hsvc & Hnfs & Hpl).
  split_and!; [done|intros Hs Hi; apply He; [done|by eapply enforced_same]|done| |done]. intros Hl%Hnfs. by destruct r as [[]|], mount_failures.
Qed.

End Start.
