(* ===== verification/FileShare.v ===== *)
(** * The world of the file-sharing services

    The NFS and SMB services (engine/nasty-sharing/src/nfs.rs and smb.rs) keep
    one record per share in a state directory, write one configuration file
    per share and tell the server to read it again. Each call to the disk has
    its own fault plan and each program the services start its own outcome, in
    the order of the calls; the commands that were started are kept.

    ** A record and the configuration file that goes with it

    The NFS and SMB services keep a state directory of records and, for each
    record that is live, one file the server reads. The lemmas say what each
    call does to the pair; [in_step] is the relation between the two that the
    services maintain.

    ** Text of configuration files

    What the readers of exports(5) and smb.conf(5) do to a line, and the
    lemmas that take a rendered text apart again. *)
From Stdlib Require Import String Ascii ZArith.
From stdpp Require Import base list gmap strings numbers pretty.
From S2P Require Import Prelude RustStr Disk StateStore Records.

Open Scope string_scope.
Open Scope rust_scope.

(** [std::process::Output]; the streams are bytes. *)
Record Output := mkOutput { out_success : bool; out_stdout : string; out_stderr : string }.

Record FileWorld := mkFileWorld {
  fw_disk : Disk;
  fw_plan : list Faults;
  fw_runs : list (result Output IoErr);
  fw_ran : list (string * list string)
}.

Definition fw_next (w : FileWorld) : Faults := default no_faults (head (fw_plan w)).

(** One call of [std::fs], [tokio::fs] or the state directory. *)
Definition fs_call {E A} (f : IoErr -> E) (m : Faults -> M Disk IoErr A) : M FileWorld E A := fun w =>
  let '(r, d) := m (fw_next w) (fw_disk w) in
  (map_err f r, mkFileWorld d (tail (fw_plan w)) (fw_runs w) (fw_ran w)).

Definition default_output : Output := mkOutput true "" "".

(** [Command::new(program).args(args).output().await]. *)
Definition command {E} (program : string) (args : list string) : M FileWorld E (result Output IoErr) := fun w =>
  (Ok (default (Ok default_output) (head (fw_runs w))),
   mkFileWorld (fw_disk w) (fw_plan w) (tail (fw_runs w)) (fw_ran w ++ [(program, args)])%list).

(** [nasty_common::cmd::try_run]. *)
Definition try_run {E} (program : string) (args : list string) : M FileWorld E unit :=
  command program args ;;; ret tt.

(** The directories that are shared, as the kernel resolves them. *)
Class ShareTree := {
  path_exists : string -> bool;
  canonicalize : string -> option Path
}.

(** [canonical.starts_with("/fs/")], which compares components. *)
Definition under_fs (p : Path) : bool := match p with "fs" :: _ => true | _ => false end.

(** ** [String::from_utf8_lossy] *)

Definition byte_between (lo hi : nat) (o : option ascii) : bool :=
  match o with Some c => (lo <=? nat_of_ascii c)%nat && (nat_of_ascii c <=? hi)%nat | None => false end.

Definition nth_byte (n : nat) (s : string) : option ascii := String.get n s.

(** The character or the ill-formed sequence at the front: how many bytes it has and whether it is a character. *)
Definition next_char (s : string) : bool * nat :=
  let cont n := byte_between 128 191 (nth_byte n s) in
  let three lo hi := if negb (byte_between lo hi (nth_byte 1 s)) then (false, 1) else if cont 2%nat then (true, 3) else (false, 2) in
  let four lo hi :=
    if negb (byte_between lo hi (nth_byte 1 s)) then (false, 1) else if negb (cont 2%nat) then (false, 2)
    else if cont 3%nat then (true, 4) else (false, 3) in
  let b := nth_byte 0 s in
  if byte_between 0 127 b then (true, 1)
  else if byte_between 194 223 b then if cont 1%nat then (true, 2) else (false, 1)
  else if byte_between 224 224 b then three 160 191
  else if byte_between 225 236 b then three 128 191
  else if byte_between 237 237 b then three 128 159
  else if byte_between 238 239 b then three 128 191
  else if byte_between 240 240 b then four 144 191
  else if byte_between 241 243 b then four 128 191
  else if byte_between 244 244 b then four 128 143
  else (false, 1).

Definition replacement : string := bytes_of [239; 191; 189]%nat.

(** Every round consumes at least one byte, so the length is fuel enough. *)
Fixpoint lossy_fuel (fuel : nat) (s : string) : string :=
  match fuel, s with
  | S k, String _ _ =>
      let '(good, n) := next_char s in
      (if good then take_string n s else replacement) ++ lossy_fuel k (skip_prefix n s)
  | _, _ => EmptyString
  end.
Definition from_utf8_lossy (s : string) : string := lossy_fuel (String.length s) s.

Example lossy_example :
  from_utf8_lossy (bytes_of [97; 240; 144; 65; 195; 169; 128]%nat)
  = "a" ++ replacement ++ "A" ++ bytes_of [195; 169]%nat ++ replacement.
Proof. vm_compute. reflexivity. Qed.

(** ** Rules *)

Lemma wp_fs_call {E A} (f : IoErr -> E) (m : Faults -> M Disk IoErr A) (Q : result A E -> FileWorld -> Prop) w :
  wp (m (fw_next w)) (fun r d => Q (map_err f r) (mkFileWorld d (tail (fw_plan w)) (fw_runs w) (fw_ran w))) (fw_disk w) ->
  wp (fs_call f m) Q w.
Proof. unfold wp, fs_call. by destruct (m _ (fw_disk w)) as [r d]. Qed.

Lemma wp_command {E} program args (Q : result (result Output IoErr) E -> FileWorld -> Prop) w :
  (forall r w', fw_disk w' = fw_disk w -> fw_plan w' = fw_plan w -> Q (Ok r) w') -> wp (command program args) Q w.
Proof. intros HQ. unfold wp, command. by apply HQ. Qed.

(** ** One path *)

Lemma fs_write_at F d q text :
  (forall f, d !! q = Some f -> is_regular f = true) ->
  wp (fs_write F q text)
    (fun r d' => (forall p, p <> q -> d' !! p = d !! p) /\ (forall f, d' !! q = Some f -> is_regular f = true) /\
       (is_ok r = true -> exists f, d' !! q = Some f /\ f_content f = text)) d.
Proof.
  intros Hreg. unfold fs_write. apply wp_bind, wp_gets, wp_bind, wp_lift. rewrite resolve_plain by done.
  set (old := match d !! q with Some f => f | None => _ end).
  assert (forall s f, <[q := set_content s old]> d !! q = Some f -> is_regular f = true) as Hold.
  { intros s f. rewrite lookup_insert_eq. intros [= <-]. subst old. unfold set_content, is_regular in *.
    destruct (d !! q) as [g|] eqn:Hg; [|done]. by apply (Hreg g). }
  destruct (fault F OpWrite q).
  - apply wp_bind, wp_modify, wp_throw. split_and!; [intros p Hp; by rewrite lookup_insert_ne|apply Hold|done].
  - apply wp_modify. split_and!; [intros p Hp; by rewrite lookup_insert_ne|apply Hold|].
    intros _. eexists. by rewrite lookup_insert_eq.
Qed.

Lemma remove_file_at F d q :
  wp (remove_file F q)
    (fun r d' => (forall p, p <> q -> d' !! p = d !! p) /\ (forall f, d' !! q = Some f -> d !! q = Some f) /\
       (fault F OpUnlink q = None -> d' !! q = None)) d.
Proof.
  unfold remove_file, check. destruct (fault F OpUnlink q) eqn:Ef; [apply wp_bind, wp_throw; by split_and!|].
  apply wp_bind, wp_ret, wp_bind, wp_gets. destruct (d !! q) as [f|] eqn:Hf.
  - apply wp_modify. rewrite lookup_delete_eq. split_and!; [intros p Hp; by rewrite lookup_delete_ne|done|done].
  - apply wp_throw. by rewrite Hf.
Qed.

Section Companion.
Context {T : Type} `{!HasId T} `{!Codec T} `{!CodecLaws T}.
Context (sd : StateDir) (conf : string -> Path) (live : T -> bool) (says : T -> string -> Prop).
Context (conf_away : forall i n, valid_id i -> conf i <> (dir sd ++ [n])%list).
Context (conf_inj : forall i j, valid_id i -> valid_id j -> conf i = conf j -> i = j).
Implicit Types (d : Disk) (id : string) (F : Faults).

(** The file is there exactly when its record is and is live, and says what the record says. *)
Definition in_step d id : Prop :=
  match stored (T := T) sd d id with
  | Some x => if live x then exists f, d !! conf id = Some f /\ says x (f_content f) else d !! conf id = None
  | None => d !! conf id = None
  end.

Record files_ok d : Prop := mkFilesOk {
  fo_dir : dir_ok (T := T) sd d;
  fo_plain : forall id f, valid_id id -> d !! conf id = Some f -> is_regular f = true
}.

(** A call about [id] leaves the other records and their files alone. *)
Definition about id d d' : Prop :=
  files_ok d' /\ forall i, valid_id i -> i <> id -> stored (T := T) sd d' i = stored sd d i /\ d' !! conf i = d !! conf i.

Lemma about_refl id d : files_ok d -> about id d d.
Proof. by split. Qed.

Lemma about_trans id d1 d2 d3 : about id d1 d2 -> about id d2 d3 -> about id d1 d3.
Proof.
  intros [_ H12] [Hok H23]. split; [done|]. intros i Hi Hn. destruct (H12 i Hi Hn), (H23 i Hi Hn). split; congruence.
Qed.

Lemma about_in_step id d d' i : about id d d' -> valid_id i -> i <> id -> in_step d i -> in_step d' i.
Proof. intros [_ Ha] Hi Hn. destruct (Ha i Hi Hn) as [Hs Hc]. unfold in_step. by rewrite Hs, Hc. Qed.

(** Saving a record. *)
Lemma save_about F d x :
  files_ok d -> valid_id (id_of x) ->
  wp (save F sd (id_of x) x)
    (fun r d' => about (id_of x) d d' /\ (forall q, (forall n, q <> (dir sd ++ [n])%list) -> d' !! q = d !! q) /\
       stored sd d' (id_of x) = match r with Ok _ => Some x | Err _ => stored sd d (id_of x) end) d.
Proof.
  intros [Hd Hp] Hid. pose proof (save_stored sd F d x Hd Hid) as (Hd' & Hoth & Hr). cbn zeta in *.
  assert (forall f, d !! tmp_path sd (id_of x) = Some f -> is_regular f = true) as Hreg.
  { rewrite tmp_path_eq by apply Hid. apply (dir_plain sd d Hd). }
  pose proof (save_spec F sd (id_of x) x d (proj1 Hid) Hreg) as (Hsame & _). unfold wp in *.
  destruct (save F sd (id_of x) x d) as [r d']. cbn [fst snd] in *.
  assert (forall q, (forall n, q <> (dir sd ++ [n])%list) -> d' !! q = d !! q) as Hout.
  { intros q Hq. apply Hsame; [rewrite item_path_eq by apply Hid|rewrite tmp_path_eq by apply Hid]; apply Hq. }
  assert (forall i, valid_id i -> d' !! conf i = d !! conf i) as Hconf.
  { intros i Hi. apply Hout. intros n. by apply conf_away. }
  split_and!; [|done|by destruct r].
  split; [|intros i Hi Hn; split; [by apply Hoth|by apply Hconf]].
  split; [done|]. intros i f Hi. rewrite Hconf by done. by apply Hp.
Qed.

(** A change of one path outside the state directory. *)
Lemma stored_elsewhere d d' :
  (forall n, d' !! (dir sd ++ [n])%list = d !! (dir sd ++ [n])%list) -> forall i, valid_id i -> stored (T := T) sd d' i = stored sd d i.
Proof. intros Hs i Hi. unfold stored. by rewrite item_path_eq, Hs by apply Hi. Qed.

Lemma conf_changed d d' id :
  files_ok d -> valid_id id -> (forall p, p <> conf id -> d' !! p = d !! p) ->
  (forall f, d' !! conf id = Some f -> is_regular f = true) ->
  about id d d' /\ stored (T := T) sd d' id = stored sd d id.
Proof.
  intros [Hd Hp] Hid Hsame Hreg.
  assert (forall n, d' !! (dir sd ++ [n])%list = d !! (dir sd ++ [n])%list) as Hdir.
  { intros n. apply Hsame. apply not_eq_sym. by apply conf_away. }
  split; [|by apply stored_elsewhere]. split.
  - split; [by eapply dir_ok_same|]. intros i f Hi. destruct (decide (i = id)) as [->|Hn]; [apply Hreg|].
    rewrite Hsame; [by apply Hp|]. intros E. by apply Hn, conf_inj.
  - intros i Hi Hn. split; [by apply stored_elsewhere|]. apply Hsame. intros E. by apply Hn, conf_inj.
Qed.

(** Writing the file of a record. *)
Lemma write_about F d id text :
  files_ok d -> valid_id id ->
  wp (fs_write F (conf id) text)
    (fun r d' => about id d d' /\ stored (T := T) sd d' id = stored sd d id /\
       (is_ok r = true -> exists f, d' !! conf id = Some f /\ f_content f = text)) d.
Proof.
  intros Hok Hid. eapply wp_mono; [|apply fs_write_at; intros f; by apply (fo_plain d Hok)].
  intros r d' (Hsame & Hreg & Hr). destruct (conf_changed d d' id) as [Ha Hs]; [done..|by split_and!].
Qed.

(** Removing the file of a record. *)
Lemma drop_about F d id :
  files_ok d -> valid_id id ->
  wp (remove_file F (conf id))
    (fun r d' => about id d d' /\ stored (T := T) sd d' id = stored sd d id /\
       (fault F OpUnlink (conf id) = None -> d' !! conf id = None)) d.
Proof.
  intros Hok Hid. eapply wp_mono; [|apply remove_file_at]. intros r d' (Hsame & Hsub & Hr).
  destruct (conf_changed d d' id) as [Ha Hs]; [done|done|done|..|by split_and!].
  intros f Hf. apply (fo_plain d Hok id); [done|]. by apply Hsub.
Qed.

(** Removing a record. *)
Lemma remove_about F d id :
  files_ok d -> valid_id id -> honest F ->
  wp (remove F sd id)
    (fun r d' => about id d d' /\ (forall q, (forall n, q <> (dir sd ++ [n])%list) -> d' !! q = d !! q) /\
       stored (T := T) sd d' id = match r with Ok _ => None | Err _ => stored sd d id end) d.
Proof.
  intros [Hd Hp] Hid Hh. pose proof (remove_stored (T := T) sd F d id Hd Hid Hh) as (Hd' & Hoth & Hr). cbn zeta in *.
  assert (forall q, (forall n, q <> (dir sd ++ [n])%list) -> (remove F sd id d).2 !! q = d !! q) as Hout.
  { intros q Hq. assert (item_path sd id <> q) as Hn by (rewrite item_path_eq by apply Hid; apply not_eq_sym, Hq). clear -Hn.
    unfold remove, remove_file, bind, attempt, check, gets, throw, ret, modify.
    destruct (fault F OpUnlink (item_path sd id)) as [[]|]; [done..|]. cbn -[item_path].
    destruct (d !! item_path sd id); cbn -[item_path]; [by rewrite lookup_delete_ne|done]. }
  unfold wp. destruct (remove F sd id d) as [r d']. cbn [fst snd] in *.
  assert (forall i, valid_id i -> d' !! conf i = d !! conf i) as Hconf by (intros i Hi; apply Hout; intros n; by apply conf_away).
  split_and!; [|done|destruct r; [done|by subst]]. split.
  - split; [done|]. intros i f Hi. rewrite Hconf by done. by apply Hp.
  - intros i Hi Hn. split; [by apply Hoth|by apply Hconf].
Qed.

(** Loading a record. *)
Lemma wp_load_record F d id :
  dir_ok (T := T) sd d -> valid_id id ->
  wp (load (T := T) F sd id)
    (fun r d' => d' = d /\ forall x, r = Ok (Some x) -> stored sd d id = Some x /\ id_of x = id) d.
Proof.
  intros Hd Hid. unfold wp. destruct (load_stored (T := T) sd F d id Hd Hid) as [Hdisk Hl].
  destruct (load F sd id d) as [r d']. cbn [fst snd] in *. split; [done|]. intros x ->.
  destruct Hl as [|[= Hl]]; [done|]. split; [done|]. by eapply stored_id.
Qed.

(** A change of a path that belongs to no record. *)
Lemma about_elsewhere d d' q id :
  files_ok d -> (forall n, q <> (dir sd ++ [n])%list) -> (forall i, valid_id i -> q <> conf i) ->
  (forall p, p <> q -> d' !! p = d !! p) ->
  about id d d' /\ (forall i, valid_id i -> in_step d i -> in_step d' i).
Proof.
  intros [Hd Hp] Hdir Hconf Hsame.
  assert (forall n, d' !! (dir sd ++ [n])%list = d !! (dir sd ++ [n])%list) as Hdir'
    by (intros n; apply Hsame, not_eq_sym, Hdir).
  assert (forall i, valid_id i -> d' !! conf i = d !! conf i) as Hconf'
    by (intros i Hi; apply Hsame, not_eq_sym; by apply Hconf).
  pose proof (stored_elsewhere d d' Hdir') as Hst. split.
  - split; [|intros i Hi _; by split; [apply Hst|apply Hconf']]. split; [by eapply dir_ok_same|].
    intros i f Hi. rewrite Hconf' by done. by apply Hp.
  - intros i Hi. unfold in_step. by rewrite Hst, Hconf'.
Qed.

(** Listing the records. *)
Lemma load_all_disk F d : (load_all (T := T) F sd d).2 = d.
Proof.
  unfold load_all, bind, attempt. pose proof (read_dir_disk F (dir sd) d) as Hr.
  destruct (read_dir F (dir sd) d) as [[ps|e] d1]; cbn in Hr; subst d1; [|done].
  generalize (@nil T). induction ps as [|p ps IH]; intros acc; cbn [load_all_loop]; [done|].
  unfold bind, attempt. pose proof (check_disk F OpReadDir p d) as Hc.
  destruct (check F OpReadDir p d) as [[[]|e] d1]; cbn in Hc; subst d1; [|done].
  destruct (negb (is_json p)); [apply IH|]. pose proof (read_to_string_disk F p d) as Hr.
  destruct (read_to_string F p d) as [[c|e] d1]; cbn in Hr; subst d1; [|apply IH].
  destruct (decode c); apply IH.
Qed.

Lemma wp_load_records F d (Q : result (list T) IoErr -> Disk -> Prop) :
  (forall r, Q r d) -> wp (load_all (T := T) F sd) Q d.
Proof. intros HQ. unfold wp. pose proof (load_all_disk F d) as Hd. destruct (load_all F sd d) as [r d']. cbn in Hd. by subst. Qed.

End Companion.

(** Every character satisfies [f]. *)
Definition only (f : ascii -> bool) (s : string) : Prop := Forall (fun c => f c = true) (String.list_ascii_of_string s).

(** The words of a line: what is between spaces and tabs. *)
Definition words (s : string) : list string :=
  List.filter (fun w => negb (w =s "")) (split " " (replace_char (ascii_of_nat 9) " " s)).

Lemma string_app_cons c a b : String c a ++ b = String c (a ++ b).
Proof. reflexivity. Qed.

Lemma append_nil_r s : s ++ "" = s.
Proof. induction s as [|c s IH]; [done|]. by rewrite string_app_cons, IH. Qed.

(** ** Characters *)

Lemma only_nil f : only f "".
Proof. constructor. Qed.

Lemma only_cons f c s : only f (String c s) <-> f c = true /\ only f s.
Proof. unfold only. cbn. by rewrite list.Forall_cons. Qed.

Lemma only_app f a b : only f (a ++ b) <-> only f a /\ only f b.
Proof.
  induction a as [|c a IH]; [pose proof (only_nil f); change ("" ++ b) with b; tauto|].
  rewrite string_app_cons, !only_cons, IH. tauto.
Qed.

Lemma only_mono f g s : (forall c, f c = true -> g c = true) -> only f s -> only g s.
Proof. intros Hfg Hs. by apply (list.Forall_impl _ _ _ Hs). Qed.

Lemma only_char f c s : only f s -> f c = false -> contains_char c s = false.
Proof.
  induction s as [|d s IH]; [done|]. intros [Hd Hs]%only_cons Hc. cbn.
  rewrite (IH Hs Hc), orb_false_r. destruct (Ascii.eqb_spec c d) as [->|]; congruence.
Qed.

Lemma only_contains c s : contains_char c s = false <-> only (fun d => negb (Ascii.eqb c d)) s.
Proof.
  induction s as [|d s IH]; [by split; [constructor|]|]. rewrite only_cons, <- IH. cbn.
  destruct (Ascii.eqb c d); cbn; intuition congruence.
Qed.

Lemma contains_str_char c s : contains_str (String c EmptyString) s = contains_char c s.
Proof.
  induction s as [|d s IH]; [done|]. cbn. rewrite <- IH. unfold starts_with. cbn.
  destruct (ascii_dec c d) as [->|Hn]; [by rewrite Ascii.eqb_refl; destruct s|].
  destruct (Ascii.eqb_spec c d); [done|]. done.
Qed.

(** ** Splitting *)

Lemma split_one c a : contains_char c a = false -> split c a = [a].
Proof.
  induction a as [|d a IH]; [done|]. cbn. intros [Hd Ha]%orb_false_iff. by rewrite Hd, IH.
Qed.

Lemma split_app c a b : contains_char c a = false -> split c (a ++ String c b) = a :: split c b.
Proof.
  induction a as [|d a IH]; [intros _; change ("" ++ ?s) with s; cbn [split split_once]; by rewrite Ascii.eqb_refl|].
  cbn [contains_char]. intros [Hd Ha]%orb_false_iff. rewrite string_app_cons. cbn [split]. by rewrite Hd, IH.
Qed.

Lemma concat_cons sep a b l : String.concat sep (a :: b :: l) = a ++ sep ++ String.concat sep (b :: l).
Proof. reflexivity. Qed.

Lemma split_concat c l :
  l <> [] -> Forall (fun a => contains_char c a = false) l -> split c (String.concat (String c "") l) = l.
Proof.
  intros Hne Hl. induction Hl as [|a l Ha Hl IH]; [done|]. destruct l as [|b l]; [by apply split_one|].
  rewrite concat_cons. change (String c "" ++ ?s) with (String c s).
  rewrite split_app by done. by rewrite IH.
Qed.

Lemma split_app_parts c a b : split c (a ++ String c b) = (split c a ++ split c b)%list.
Proof.
  induction a as [|d a IH]; [change ("" ++ ?s) with s; cbn [split app]; by rewrite Ascii.eqb_refl|]. rewrite string_app_cons. cbn [split].
  rewrite IH. destruct (Ascii.eqb c d); [done|]. pose proof (split_nonempty c a).
  by destruct (split c a).
Qed.

Lemma split_once_app c a b : contains_char c a = false -> split_once c (a ++ String c b) = Some (a, b).
Proof.
  induction a as [|d a IH]; [intros _; change ("" ++ ?s) with s; cbn [split split_once]; by rewrite Ascii.eqb_refl|].
  cbn [contains_char]. intros [Hd Ha]%orb_false_iff. rewrite string_app_cons. cbn [split_once]. by rewrite Hd, IH.
Qed.

Lemma split_once_none c a : contains_char c a = false -> split_once c a = None.
Proof. induction a as [|d a IH]; [done|]. cbn. intros [Hd Ha]%orb_false_iff. by rewrite Hd, IH. Qed.

(** ** Words *)

Lemma replace_char_absent a b s : contains_char a s = false -> replace_char a b s = s.
Proof.
  induction s as [|c s IH]; [done|]. cbn. intros [Hc Hs]%orb_false_iff.
  rewrite Ascii.eqb_sym in Hc. by rewrite Hc, IH.
Qed.

Lemma replace_char_app a b s t : replace_char a b (s ++ t) = replace_char a b s ++ replace_char a b t.
Proof. induction s as [|c s IH]; [done|]. rewrite string_app_cons. cbn [replace_char]. by rewrite IH. Qed.

(** A word: not empty, without blanks. *)
Definition word (s : string) : Prop := s <> "" /\ contains_char " " s = false /\ contains_char (ascii_of_nat 9) s = false.

Lemma concat_absent c sep l :
  contains_char c sep = false -> Forall (fun a => contains_char c a = false) l ->
  contains_char c (String.concat sep l) = false.
Proof.
  intros Hs Hl. induction Hl as [|a l Ha Hl IH]; [done|]. destruct l as [|b l]; [done|].
  by rewrite concat_cons, !contains_char_app, Ha, Hs, IH.
Qed.

Lemma filter_words l : Forall word l -> List.filter (fun w => negb (w =s "")) l = l.
Proof.
  induction 1 as [|w l (Hw & _) _ IH]; [done|]. cbn. apply eqb_neq_spec in Hw. by rewrite Hw, IH.
Qed.

Lemma words_concat l : Forall word l -> words (String.concat " " l) = l.
Proof.
  intros Hl. unfold words. rewrite replace_char_absent.
  - destruct (decide (l = [])) as [->|Hne]; [done|].
    rewrite split_concat; [by apply filter_words|done|]. by apply (list.Forall_impl _ _ _ Hl); intros w (_ & ? & _).
  - apply concat_absent; [done|]. by apply (list.Forall_impl _ _ _ Hl); intros w (_ & _ & ?).
Qed.

Lemma words_head w l : word w -> Forall word l -> words (w ++ bytes_of [9]%nat ++ String.concat " " l) = w :: l.
Proof.
  intros Hw Hl. pose proof Hw as (Hne & Hs & Ht). pose proof (words_concat l Hl) as Hc. unfold words in *.
  rewrite !replace_char_app, (replace_char_absent _ _ w) by done. change (replace_char (ascii_of_nat 9) " " (bytes_of [9]%nat)) with " ".
  change (" " ++ ?s) with (String " " s). rewrite split_app by done. cbn [List.filter].
  apply eqb_neq_spec in Hne. by rewrite Hne, Hc.
Qed.

(** ** Substrings *)

Lemma contains_str_nil p : p <> "" -> contains_str p "" = false.
Proof. by destruct p. Qed.

(** A pattern without the separator lies within one part. *)
Lemma prefix_sep c p a b :
  contains_char c p = false -> String.prefix p (a ++ String c b) = String.prefix p a.
Proof.
  revert p. induction a as [|d a IH]; intros [|e p]; [done|..|done|].
  - change ("" ++ ?s) with s. cbn [contains_char String.prefix]. intros [Hc _]%orb_false_iff.
    destruct (ascii_dec e c) as [->|]; [by rewrite Ascii.eqb_refl in Hc|done].
  - cbn [contains_char]. intros [_ Hp]%orb_false_iff. rewrite string_app_cons. cbn [String.prefix].
    destruct (ascii_dec e d); [by apply IH|done].
Qed.

Lemma contains_str_sep c p a b :
  contains_char c p = false -> p <> "" ->
  contains_str p (a ++ String c b) = contains_str p a || contains_str p b.
Proof.
  intros Hc Hp. induction a as [|d a IH].
  - rewrite (contains_str_nil p Hp). change ("" ++ ?s) with s. cbn [contains_str orb]. unfold starts_with.
    pose proof (prefix_sep c p "" b Hc) as Hx. change ("" ++ ?s) with s in Hx. rewrite Hx. by destruct p.
  - pose proof (prefix_sep c p (String d a) b Hc) as Hx. rewrite string_app_cons in *. cbn [contains_str].
    unfold starts_with in *. by rewrite Hx, IH, orb_assoc.
Qed.

(** Induction on the parts between separators. *)
Lemma parts_ind (c : ascii) (P : string -> Prop) :
  (forall a, contains_char c a = false -> P a) ->
  (forall a b, contains_char c a = false -> P b -> P (a ++ String c b)) -> forall s, P s.
Proof.
  intros Hone Hsep s. change s with ("" ++ s). assert (contains_char c "" = false) as Ha by done. revert Ha.
  generalize "". induction s as [|d s IH]; intros a Ha.
  - apply Hone. by rewrite append_nil_r.
  - destruct (Ascii.eqb_spec c d) as [<-|Hn]; [apply Hsep; [done|by apply (IH "")]|].
    change (String d s) with (String d "" ++ s). rewrite append_assoc. apply IH.
    rewrite contains_char_app, Ha. cbn. by destruct (Ascii.eqb_spec c d).
Qed.

Lemma contains_str_split c p s :
  contains_char c p = false -> p <> "" -> contains_str p s = existsb (contains_str p) (split c s).
Proof.
  intros Hc Hp. induction s as [a Ha|a b Ha IH] using (parts_ind c).
  - rewrite split_one by done. cbn. by rewrite orb_false_r.
  - by rewrite split_app, contains_str_sep, IH by done.
Qed.

(** A pattern with a character the text does not have. *)
Lemma contains_str_absent c p s : contains_char c p = true -> contains_char c s = false -> contains_str p s = false.
Proof.
  intros Hp. assert (forall t, contains_char c t = false -> String.prefix p t = false) as Hpre.
  { clear s. induction p as [|d p IH]; [done|]. intros [|e t]; [done|]. cbn [contains_char String.prefix] in *.
    intros [He Ht]%orb_false_iff. destruct (ascii_dec d e) as [->|]; [|done].
    rewrite He in Hp. by apply IH. }
  induction s as [|d s IH]; cbn [contains_str]; unfold starts_with.
  - intros _. by rewrite (Hpre "").
  - intros Hs. rewrite (Hpre _ Hs). cbn in Hs. apply orb_false_iff in Hs as [_ Hs]. by apply IH.
Qed.

(** ** Numbers *)

Lemma only_pretty_go x s : only is_digit s -> only is_digit (pretty_N_go x s).
Proof.
  revert s. induction (N.lt_wf_0 x) as [x _ IH]. intros s Hs.
  destruct (decide (x = 0)%N) as [->|Hx]; [by rewrite pretty_N_go_0|].
  rewrite pretty_N_go_step by lia. apply IH; [apply N.div_lt; lia|]. apply only_cons. split; [|done].
  assert (x mod 10 < 10)%N as Hd by (apply N.mod_lt; lia).
  destruct (x mod 10)%N as [|p]; [done|]. do 4 (destruct p as [p|p|]; [..|done]; try done); lia.
Qed.

Lemma only_fmt_Z z : (0 <= z)%Z -> only is_digit (fmt_Z z).
Proof.
  intros Hz. unfold fmt_Z, pretty, pretty_Z. destruct z as [|p|p]; [by apply only_cons; split; [|apply only_nil]|..|lia].
  apply only_pretty_go, only_nil.
Qed.
