(* ===== verification/Nfs.v ===== *)
(** * NFS shares: engine/nasty-sharing/src/nfs.rs

    The records, the validators of what goes into an exports file, the text of
    the file, and every operation of [NfsService]. *)
From Stdlib Require Import String Ascii ZArith.
From stdpp Require Import base list gmap strings numbers.
From S2P Require Import Prelude RustStr Disk StateStore Records FileShare.

Open Scope string_scope.
Open Scope rust_scope.

(** ** Data *)

Inductive NfsError :=
| NfsNotFound (id : string)
| NfsAlreadyExists (path : string)
| NfsPathNotFound (path : string)
| NfsPathNotInFilesystem (path : string)
| NfsInvalidClient (what : string)
| NfsExportFailed (stderr : string)
| NfsIo (e : IoErr).

Record NfsClient := mkNfsClient { nc_host : string; nc_options : string }.

Record NfsShare := mkNfsShare {
  ns_id : string;
  ns_path : string;
  ns_comment : option string;
  ns_clients : list NfsClient;
  ns_enabled : bool
}.

#[export] Instance nfs_id : HasId NfsShare := ns_id.

Record CreateNfsShareRequest := mkCreateNfs {
  cn_path : string;
  cn_comment : option string;
  cn_clients : list NfsClient;
  cn_enabled : option bool
}.

Record UpdateNfsShareRequest := mkUpdateNfs {
  un_id : string;
  un_comment : option string;
  un_clients : option (list NfsClient);
  un_enabled : option bool
}.

Definition NASTY_EXPORTS_DIR : string := "/etc/exports.d".
Definition nfs_state_dir : StateDir := mkStateDir ["var"; "lib"; "nasty"; "shares"; "nfs"].

(** ** Validators *)

Definition contains_any (cs : list ascii) (s : string) : bool := existsb (fun c => contains_char c s) cs.

Definition double_quote : ascii := ascii_of_nat 34.

(** [s.chars().any(char::is_whitespace)]. *)
Definition any_whitespace (s : string) : bool := existsb (fun w => contains_str w s) white_space.

Definition validate_nfs_host (host : string) : result unit NfsError :=
  if host =s "" then Err (NfsInvalidClient "host is empty")
  else if any_whitespace host || any_control host
          || contains_any ["("; ")"; double_quote; "'"; ";"; ","; "\"]%char host
  then Err (NfsInvalidClient ("host '" ++ host ++ "' contains invalid characters"))
  else Ok tt.

Definition option_char (c : ascii) : bool :=
  is_ascii_alphanumeric c || existsb (Ascii.eqb c) ["_"; "-"; "="; ","; "/"; "."; ":"; "@"]%char.

Definition validate_nfs_options (options : string) : result unit NfsError :=
  if negb (all_chars option_char options)
  then Err (NfsInvalidClient ("options '" ++ options ++ "' contain invalid characters"))
  else Ok tt.

Definition validate_nfs_client (c : NfsClient) : result unit NfsError :=
  match validate_nfs_host (nc_host c) with
  | Err e => Err e
  | Ok _ => validate_nfs_options (nc_options c)
  end.

Fixpoint validate_nfs_clients (cs : list NfsClient) : result unit NfsError :=
  match cs with
  | [] => Ok tt
  | c :: rest => match validate_nfs_client c with Err e => Err e | Ok _ => validate_nfs_clients rest end
  end.

Definition validate_export_path (path : string) : result unit NfsError :=
  if any_control path
     || contains_any [ascii_of_nat 9; ascii_of_nat 10; ascii_of_nat 13; double_quote; "'"; "\"]%char path
  then Err (NfsInvalidClient ("path '" ++ path ++ "' contains invalid characters for an exports file"))
  else Ok tt.

(** ** The exports file *)

(** [stable_fsid]: djb2 in wrapping 32-bit arithmetic. *)
Definition u32_modulus : Z := 2 ^ 32.
Definition djb2 (id : string) : Z :=
  fold_left (fun hash b => (hash * 33 mod u32_modulus + Z.of_nat (nat_of_ascii b)) mod u32_modulus)%Z
    (String.list_ascii_of_string id) 5381%Z.
Definition stable_fsid (id : string) : Z := (djb2 id mod 0x7FFFFFFE + 1)%Z.

Definition client_options (fsid : Z) (options : string) : string :=
  let opts := if negb (contains_str "fsid=" options) then options ++ ",fsid=" ++ fmt_Z fsid else options in
  if negb (contains_str "insecure" opts) && negb (contains_str "secure" opts) then opts ++ ",insecure" else opts.

Definition render_client (fsid : Z) (c : NfsClient) : string :=
  nc_host c ++ "(" ++ client_options fsid (nc_options c) ++ ")".

Definition tab : string := bytes_of [9]%nat.

Definition render_export_file (share : NfsShare) : result string NfsError :=
  match validate_export_path (ns_path share) with
  | Err e => Err e
  | Ok _ =>
      match validate_nfs_clients (ns_clients share) with
      | Err e => Err e
      | Ok _ =>
          let fsid := stable_fsid (ns_id share) in
          Ok ("# NASty share " ++ ns_id share ++ newline
              ++ ns_path share ++ tab ++ String.concat " " (render_client fsid <$> ns_clients share) ++ newline)
      end
  end.

Definition export_file_path (id : string) : string := NASTY_EXPORTS_DIR ++ "/nasty-" ++ id ++ ".exports".
Definition export_file (id : string) : Path := components (export_file_path id).

(** ** The service *)

Section Service.
Context `{Codec NfsShare} `{ShareTree} (uuid : string).

Definition remove_export_file (id : string) : M FileWorld NfsError unit :=
  attempt (fs_call NfsIo (fun F => remove_file F (export_file id))) ;;; ret tt.

Definition write_export_file (share : NfsShare) : M FileWorld NfsError unit :=
  fs_call NfsIo (fun F => check F OpMkdir (components NASTY_EXPORTS_DIR)) ;;;
  if negb (ns_enabled share) || negb (path_exists (ns_path share)) then
    attempt (fs_call NfsIo (fun F => remove_file F (export_file (ns_id share)))) ;;; ret tt
  else
    content <- lift (render_export_file share) ;;
    fs_call NfsIo (fun F => fs_write F (export_file (ns_id share)) content).

Definition reload_exports : M FileWorld NfsError unit :=
  r <- command "exportfs" ["-ra"] ;;
  match r with
  | Err e => throw (NfsIo e)
  | Ok output =>
      if negb (out_success output) then
        let stderr := from_utf8_lossy (out_stderr output) in
        if contains_str "Failed to stat" stderr then ret tt else throw (NfsExportFailed stderr)
      else ret tt
  end.

Definition nfs_list : M FileWorld NfsError (list NfsShare) := fs_call NfsIo (fun F => load_all F nfs_state_dir).

Definition nfs_list_strict : M FileWorld NfsError (list NfsShare) :=
  fs_call NfsIo (fun F => load_all_strict F nfs_state_dir).

Definition nfs_get (id : string) : M FileWorld NfsError NfsShare :=
  o <- fs_call NfsIo (fun F => load F nfs_state_dir id) ;;
  match o with Some s => ret s | None => throw (NfsNotFound id) end.

(** Save the record, write its exports file and reload. *)
Definition publish (share : NfsShare) : M FileWorld NfsError NfsShare :=
  fs_call NfsIo (fun F => save F nfs_state_dir (ns_id share) share) ;;;
  write_export_file share ;;;
  reload_exports ;;;
  ret share.

Definition nfs_create (req : CreateNfsShareRequest) : M FileWorld NfsError NfsShare :=
  lift (validate_export_path (cn_path req)) ;;;
  throw_if (negb (path_exists (cn_path req))) (NfsPathNotFound (cn_path req)) ;;;
  match canonicalize (cn_path req) with
  | None => throw (NfsPathNotFound (cn_path req))
  | Some canonical =>
      throw_if (negb (under_fs canonical)) (NfsPathNotInFilesystem (cn_path req)) ;;;
      lift (validate_nfs_clients (cn_clients req)) ;;;
      shares <- nfs_list ;;
      match List.find (fun s => ns_path s =s cn_path req) shares with
      | Some existing => ret existing
      | None =>
          publish (mkNfsShare uuid (cn_path req) (cn_comment req) (cn_clients req) (default true (cn_enabled req)))
      end
  end.

Definition nfs_update (req : UpdateNfsShareRequest) : M FileWorld NfsError NfsShare :=
  share <- nfs_get (un_id req) ;;
  let comment := match un_comment req with Some c => Some c | None => ns_comment share end in
  match un_clients req with
  | Some clients => lift (validate_nfs_clients clients)
  | None => ret tt
  end ;;;
  publish (mkNfsShare (ns_id share) (ns_path share) comment (default (ns_clients share) (un_clients req))
             (default (ns_enabled share) (un_enabled req))).

Definition nfs_delete (id : string) : M FileWorld NfsError unit :=
  nfs_get id ;;;
  fs_call NfsIo (fun F => remove F nfs_state_dir id) ;;;
  remove_export_file id ;;;
  reload_exports.

End Service.

(** ** Computed examples, from the tests of nfs.rs *)

Definition example_share (clients : list NfsClient) : NfsShare := mkNfsShare "abc" "/fs/p/data" None clients true.

Example render_export_file_example :
  render_export_file (example_share [mkNfsClient "10.0.0.1" "rw"; mkNfsClient "10.0.0.2" "ro,secure,fsid=0"])
  = Ok ("# NASty share abc" ++ newline ++ "/fs/p/data" ++ tab
        ++ "10.0.0.1(rw,fsid=" ++ fmt_Z (stable_fsid "abc") ++ ",insecure) 10.0.0.2(ro,secure,fsid=0)" ++ newline).
Proof. vm_compute. reflexivity. Qed.

Example validators_example :
  (is_ok <$> [validate_nfs_host "192.168.1.0/24"; validate_nfs_host "host with space"; validate_nfs_host "host(opts)";
              validate_nfs_options "rw,sync,sec=sys:krb5"; validate_nfs_options "rw sync";
              validate_export_path "/fs/p/data with spaces"; validate_export_path "/fs/p\back"])
  = [true; false; false; true; false; true; false].
Proof. vm_compute. reflexivity. Qed.
