(* ===== verification/NfsService.v ===== *)
(** * What an exports file says

    A reader of exports(5) for the part of its grammar the service writes, and
    the proof that the file of a share says what its record says: its path, its
    clients and for each of them its own options with the defaults.

    ** The exports follow the records

    Whatever reads and writes fail on the way, an operation of the NFS service that
    reports success leaves the exports directory in step with the records: a
    share that is enabled and whose directory is there has a file that reads
    back as its record, and no other share has one. *)
From Stdlib Require Import String Ascii ZArith.
From stdpp Require Import base list gmap strings numbers.
From S2P Require Import Prelude RustStr Disk StateStore Records FileShare Nfs.

Open Scope string_scope.
Open Scope rust_scope.

(** ** exports(5) *)

(** A pound sign starts a comment. *)
Definition strip_comment (l : string) : string := match split_once "#" l with Some (a, _) => a | None => l end.

(** [host(opt,opt)], or a host alone. *)
Definition read_client (w : string) : string * list string :=
  match split_once "(" w with
  | Some (h, rest) =>
      match split_once ")" rest with Some (o, _) => (h, split "," o) | None => (h, split "," rest) end
  | None => (w, [])
  end.

(** An export point and its clients. *)
Definition read_line (l : string) : option (string * list (string * list string)) :=
  match words (strip_comment l) with
  | [] => None
  | p :: cs => Some (p, read_client <$> cs)
  end.

(** A text with quotes or backslashes is not read: their escapes and continued lines are not needed here. *)
Definition read_exports (text : string) : option (list (string * list (string * list string))) :=
  if contains_any ["\"%char; double_quote] text then None else Some (omap read_line (split (ascii_of_nat 10) text)).

(** The options of a client: those of its record, an identifier of the file
    system unless one is given, and [insecure] unless the record says which. *)
Definition export_options (fsid : Z) (options : string) : list string :=
  let os := split "," options in
  os ++ (if existsb (contains_str "fsid=") os then [] else ["fsid=" ++ fmt_Z fsid])
     ++ (if existsb (contains_str "secure") os then [] else ["insecure"]).

Definition export_of (s : NfsShare) : string * list (string * list string) :=
  (ns_path s, (fun c => (nc_host c, export_options (stable_fsid (ns_id s)) (nc_options c))) <$> ns_clients s).

(** What the validators leave to the operator: no blank in the path and no pound sign. *)
Record plain_share (s : NfsShare) : Prop := mkPlain {
  ps_path : ns_path s <> "" /\ any_whitespace (ns_path s) = false /\ contains_char "#" (ns_path s) = false;
  ps_hosts : Forall (fun c => contains_char "#" (nc_host c) = false) (ns_clients s);
  ps_id : only (fun c => is_ascii_alphanumeric c || Ascii.eqb c "-") (ns_id s)
}.

(** ** The identifier of the file system *)

Lemma fsid_positive id : (1 <= stable_fsid id <= 0x7FFFFFFE)%Z.
Proof. unfold stable_fsid. pose proof (Z.mod_pos_bound (djb2 id) 0x7FFFFFFE). lia. Qed.

(** ** Options *)

Lemma only_all_chars f s : all_chars f s = true <-> only f s.
Proof.
  induction s as [|c s IH]; [by split; [intros _; apply only_nil|]|]. cbn [all_chars]. by rewrite only_cons, andb_true_iff, IH.
Qed.

Lemma only_digit_option s : only is_digit s -> only option_char s.
Proof. apply only_mono. intros c Hc. unfold option_char, is_ascii_alphanumeric, is_digit in *. cbv zeta. by rewrite Hc. Qed.

Lemma client_options_only fsid o : (0 <= fsid)%Z -> only option_char o -> only option_char (client_options fsid o).
Proof.
  intros Hf Ho. pose proof (only_digit_option _ (only_fmt_Z _ Hf)) as Hd.
  unfold client_options. destruct (negb (contains_str "fsid=" o)); cbn zeta; case_match;
    rewrite ?only_app; repeat split; try done; by apply only_all_chars.
Qed.

Lemma fsid_not_secure fsid : (0 <= fsid)%Z -> contains_str "secure" ("fsid=" ++ fmt_Z fsid) = false.
Proof.
  intros Hf. apply (contains_str_absent "u"); [done|]. rewrite contains_char_app. cbn [contains_char].
  by rewrite (only_char is_digit "u" (fmt_Z fsid) (only_fmt_Z _ Hf)).
Qed.

Lemma contains_str_tail c q s : contains_str (String c q) s = true -> contains_str q s = true.
Proof.
  induction s as [|d s IH]; [done|]. cbn [contains_str]. intros [Hp|Hs]%orb_true_iff; [|by rewrite IH, orb_true_r].
  unfold starts_with in Hp. cbn [String.prefix] in Hp. destruct (ascii_dec c d); [|done].
  apply orb_true_iff. right. destruct s; cbn [contains_str]; unfold starts_with; by rewrite Hp.
Qed.

Lemma insecure_secure s : contains_str "insecure" s = true -> contains_str "secure" s = true.
Proof. intros Hs. by do 2 apply contains_str_tail in Hs. Qed.

(** The text of the options reads back as the list of them. *)
Lemma client_options_split fsid o : (0 <= fsid)%Z -> split "," (client_options fsid o) = export_options fsid o.
Proof.
  intros Hf. unfold client_options, export_options.
  rewrite <- !(contains_str_split ",") by done. set (opts := if negb (contains_str "fsid=" o) then _ else _).
  assert (split "," opts = split "," o ++ (if contains_str "fsid=" o then [] else [("fsid=" ++ fmt_Z fsid)%string]))%list as Hs.
  { subst opts. destruct (contains_str "fsid=" o); cbn [negb]; [by rewrite app_nil_r|].
    change (",fsid=" ++ ?s) with (String "," ("fsid=" ++ s)). rewrite split_app_parts. f_equal. apply split_one.
    rewrite contains_char_app. by rewrite (only_char is_digit "," (fmt_Z fsid) (only_fmt_Z _ Hf)). }
  assert (contains_str "secure" opts = contains_str "secure" o) as Hsec.
  { subst opts. destruct (contains_str "fsid=" o); cbn [negb]; [done|].
    change (",fsid=" ++ ?s) with (String "," ("fsid=" ++ s)). rewrite contains_str_sep by done.
    by rewrite fsid_not_secure, orb_false_r. }
  rewrite <- Hsec. destruct (contains_str "secure" opts) eqn:E; cbn [negb].
  - rewrite andb_false_r, app_nil_r. done.
  - rewrite andb_true_r. destruct (contains_str "insecure" opts) eqn:Ei;
      [apply insecure_secure in Ei; congruence|]. cbn [negb].
    change (",insecure") with (String "," "insecure"). by rewrite split_app_parts, Hs, <- app_assoc.
Qed.

(** ** Clients *)

Lemma contains_any_elem cs c s : contains_any cs s = false -> c ∈ cs -> contains_char c s = false.
Proof.
  unfold contains_any. intros Hs Hc. destruct (contains_char c s) eqn:E; [|done].
  assert (existsb (fun c => contains_char c s) cs = true) as Ht; [|congruence].
  apply existsb_exists. exists c. by rewrite <- list_elem_of_In.
Qed.

Lemma whitespace_elem s c : any_whitespace s = false -> String c EmptyString ∈ white_space -> contains_char c s = false.
Proof.
  unfold any_whitespace. intros Hs Hc. destruct (contains_char c s) eqn:E; [|done].
  assert (existsb (fun w => contains_str w s) white_space = true) as Ht; [|congruence].
  apply existsb_exists. exists (String c EmptyString). by rewrite contains_str_char, <- list_elem_of_In.
Qed.

Record client_ok (c : NfsClient) : Prop := mkClientOk {
  co_host : nc_host c <> "";
  co_blank : any_whitespace (nc_host c) = false;
  co_chars : contains_any ["("; ")"; double_quote; "'"; ";"; ","; "\"]%char (nc_host c) = false;
  co_options : only option_char (nc_options c)
}.

Lemma validated_client c : validate_nfs_client c = Ok tt -> client_ok c.
Proof.
  unfold validate_nfs_client, validate_nfs_host, validate_nfs_options.
  destruct (nc_host c =s "") eqn:Eh; [done|]. destruct (any_whitespace (nc_host c)) eqn:Ew; [done|].
  destruct (any_control _); [done|]. cbn [orb]. destruct (contains_any _ _) eqn:Ec; [done|].
  destruct (all_chars option_char (nc_options c)) eqn:Eo; [|done]. intros _.
  split; [by apply eqb_neq_spec|done|done|by apply only_all_chars].
Qed.

Lemma validated_clients cs : validate_nfs_clients cs = Ok tt -> Forall client_ok cs.
Proof.
  induction cs as [|c cs IH]; [by constructor|]. cbn. destruct (validate_nfs_client c) as [[]|] eqn:E; [|done].
  intros Hcs. constructor; [by apply validated_client|by apply IH].
Qed.

(** A character neither a host nor the punctuation of a client nor an option has. *)
Lemma render_client_absent fsid c d :
  (0 <= fsid)%Z -> client_ok c -> contains_char d (nc_host c) = false ->
  Ascii.eqb d "(" = false -> Ascii.eqb d ")" = false -> option_char d = false ->
  contains_char d (render_client fsid c) = false.
Proof.
  intros Hf Hc Hd H1 H2 Ho. unfold render_client. rewrite !contains_char_app, Hd. cbn [contains_char].
  by rewrite H1, H2, (only_char option_char d _ (client_options_only _ _ Hf (co_options _ Hc)) Ho).
Qed.

Lemma read_rendered fsid c :
  (0 <= fsid)%Z -> client_ok c -> read_client (render_client fsid c) = (nc_host c, export_options fsid (nc_options c)).
Proof.
  intros Hf Hc. unfold read_client, render_client. change ("(" ++ ?s) with (String "(" s).
  rewrite split_once_app by (apply (contains_any_elem _ _ _ (co_chars _ Hc)); by left).
  change ")" with (String ")" "") at 2. rewrite split_once_app, client_options_split; [done..|].
  by apply (only_char option_char _ _ (client_options_only _ _ Hf (co_options _ Hc))).
Qed.

(** ** The file *)

Lemma line_of_share s :
  plain_share s -> Forall client_ok (ns_clients s) ->
  read_line (ns_path s ++ tab ++ String.concat " " (render_client (stable_fsid (ns_id s)) <$> ns_clients s))
  = Some (export_of s).
Proof.
  intros [(Hne & Hb & Hp) Hh _] Hc. pose proof (fsid_positive (ns_id s)) as Hf. set (fsid := stable_fsid (ns_id s)) in *.
  unfold read_line, strip_comment. rewrite split_once_none.
  2: { rewrite !contains_char_app, Hp. cbn [orb]. apply concat_absent; [done|]. apply Forall_fmap.
       apply list.Forall_forall. intros c Hin. apply render_client_absent; try done; [lia|..].
       - by eapply list.Forall_forall in Hc.
       - by eapply list.Forall_forall in Hh; [|exact Hin]. }
  unfold tab. rewrite words_head.
  - unfold export_of. do 2 f_equal. rewrite <- list_fmap_compose. apply list_fmap_ext. intros i c Hi. cbn.
    apply read_rendered; [lia|]. eapply list.Forall_forall in Hc; [exact Hc|]. by eapply list_elem_of_lookup_2.
  - split_and!; [done|apply (whitespace_elem _ _ Hb)..]; apply list_elem_of_In; vm_compute; tauto.
  - apply Forall_fmap. apply (list.Forall_impl _ _ _ Hc). intros c Hok.
    pose proof (co_blank _ Hok) as Hbl.
    split_and!; [|apply render_client_absent; try done; try lia; apply (whitespace_elem _ _ Hbl);
      apply list_elem_of_In; vm_compute; tauto..].
    cbn. unfold render_client. pose proof (co_host _ Hok). by destruct (nc_host c).
Qed.

Lemma path_chars p c :
  validate_export_path p = Ok tt ->
  c ∈ [ascii_of_nat 9; ascii_of_nat 10; ascii_of_nat 13; double_quote; "'"; "\"]%char -> contains_char c p = false.
Proof.
  unfold validate_export_path. destruct (any_control p); [done|]. cbn [orb].
  destruct (contains_any _ p) eqn:E; [done|]. intros _ Hc. by apply (contains_any_elem _ _ _ E).
Qed.

(** A character that is in no part of the text. *)
Lemma text_absent s c :
  Forall client_ok (ns_clients s) -> contains_char c (ns_path s) = false -> contains_char c (ns_id s) = false ->
  Forall (fun k => contains_char c (nc_host k) = false) (ns_clients s) ->
  c ∈ [ascii_of_nat 10; double_quote; "\"]%char ->
  contains_char c ("# NASty share " ++ ns_id s) = false /\
  contains_char c (ns_path s ++ tab ++ String.concat " " (render_client (stable_fsid (ns_id s)) <$> ns_clients s)) = false.
Proof.
  intros Hc Hp Hid Hh Hin. pose proof (fsid_positive (ns_id s)) as Hf.
  assert (contains_char c (String.concat " " (render_client (stable_fsid (ns_id s)) <$> ns_clients s)) = false) as Hcl.
  { apply concat_absent; [by repeat (apply elem_of_cons in Hin as [->|Hin]; [done|]); apply elem_of_nil in Hin|].
    apply Forall_fmap, list.Forall_forall. intros k Hk. eapply list.Forall_forall in Hc, Hh; [|exact Hk..].
    repeat (apply elem_of_cons in Hin as [->|Hin]; [by apply render_client_absent; try done; lia|]).
    by apply elem_of_nil in Hin. }
  rewrite !contains_char_app, Hp, Hid, Hcl.
  by repeat (apply elem_of_cons in Hin as [->|Hin]; [done|]); apply elem_of_nil in Hin.
Qed.

(** The exports file of a share says what its record says, and nothing else. *)
Lemma rendered_reads s text :
  plain_share s -> render_export_file s = Ok text -> read_exports text = Some [export_of s].
Proof.
  intros Hs. unfold render_export_file. destruct (validate_export_path (ns_path s)) as [[]|] eqn:Ep; [|done].
  destruct (validate_nfs_clients (ns_clients s)) as [[]|] eqn:Ec; [|done]. apply validated_clients in Ec. intros [= <-].
  assert (forall c, c ∈ [ascii_of_nat 10; double_quote; "\"]%char ->
    contains_char c ("# NASty share " ++ ns_id s) = false /\
    contains_char c (ns_path s ++ tab ++ String.concat " " (render_client (stable_fsid (ns_id s)) <$> ns_clients s)) = false) as Hab.
  { intros c Hin. apply text_absent; [done|..|done].
    - apply (path_chars _ _ Ep). set_solver.
    - apply (only_char _ _ _ (ps_id _ Hs)). by repeat (apply elem_of_cons in Hin as [->|Hin]; [done|]); apply elem_of_nil in Hin.
    - apply (list.Forall_impl _ _ _ Ec). intros k Hk. apply elem_of_cons in Hin as [->|Hin].
      + apply (whitespace_elem _ _ (co_blank _ Hk)), list_elem_of_In. vm_compute. tauto.
      + apply (contains_any_elem _ _ _ (co_chars _ Hk)). set_solver. }
  rewrite (append_assoc "# NASty share "), (append_assoc tab), (append_assoc (ns_path s)).
  set (l1 := "# NASty share " ++ ns_id s) in *. set (l2 := ns_path s ++ tab ++ _) in *.
  unfold read_exports. assert (contains_any ["\"%char; double_quote] (l1 ++ newline ++ l2 ++ newline) = false) as ->.
  { unfold contains_any. cbn [existsb]. rewrite !contains_char_app.
    destruct (Hab "\"%char) as [-> ->]; [set_solver|]. by destruct (Hab double_quote) as [-> ->]; [set_solver|]. }
  destruct (Hab (ascii_of_nat 10)) as [H1 H2]; [set_solver|].
  change (newline ++ ?x) with (String (ascii_of_nat 10) x). rewrite split_app by done.
  change newline with (String (ascii_of_nat 10) ""). rewrite split_app by done.
  cbn [omap list_omap split]. subst l2. rewrite line_of_share by done.
  assert (read_line l1 = None) as -> by reflexivity. reflexivity.
Qed.

(** A path with a blank passes the validator and adds a client of its own choosing. *)
Example blank_in_path_adds_client :
  read_exports (default "" (match render_export_file (mkNfsShare "abc" "/fs/p/data *(rw,no_root_squash)" None
                                                        [mkNfsClient "10.0.0.1" "ro,secure,fsid=1"] true) with
                            | Ok t => Some t | Err _ => None end))
  = Some [("/fs/p/data", [("*", ["rw"; "no_root_squash"]); ("10.0.0.1", ["ro"; "secure"; "fsid=1"])])].
Proof. vm_compute. reflexivity. Qed.

Lemma export_file_eq id :
  contains_char "/" id = false -> export_file id = ["etc"; "exports.d"; "nasty-" ++ id ++ ".exports"].
Proof.
  intros Hid. assert (contains_char "/" ("nasty-" ++ id ++ ".exports") = false) as Hn by (by rewrite !contains_char_app, Hid).
  unfold export_file, components. set (n := "nasty-" ++ id ++ ".exports") in *.
  change (export_file_path id) with ("" ++ String "/" ("etc" ++ String "/" ("exports.d" ++ String "/" n))).
  rewrite !split_app, split_one by done. cbn [List.filter]. reflexivity.
Qed.

Lemma export_away i n : valid_id i -> export_file i <> (dir nfs_state_dir ++ [n])%list.
Proof. intros [Hi _]. by rewrite export_file_eq. Qed.

Lemma export_inj i j : valid_id i -> valid_id j -> export_file i = export_file j -> i = j.
Proof.
  intros [Hi _] [Hj _]. rewrite !export_file_eq by done. intros [= E]. change ("" ++ ?s) with s in E. by apply append_inj_r in E.
Qed.

(** The operations. *)
Inductive NfsOp :=
| NfsCreate (uuid : string) (req : CreateNfsShareRequest)
| NfsUpdate (req : UpdateNfsShareRequest)
| NfsDelete (id : string).

Definition nfs_target (op : NfsOp) : string :=
  match op with NfsCreate uuid _ => uuid | NfsUpdate req => un_id req | NfsDelete id => id end.

Section Service.
Context `{!Codec NfsShare} `{!CodecLaws NfsShare} `{!ShareTree}.
Implicit Types (d : Disk) (w : FileWorld) (s : NfsShare).

Definition exec_nfs (op : NfsOp) : M FileWorld NfsError unit :=
  match op with
  | NfsCreate uuid req => nfs_create uuid req ;;; ret tt
  | NfsUpdate req => nfs_update req ;;; ret tt
  | NfsDelete id => nfs_delete id
  end.

Definition nfs_live s : bool := ns_enabled s && path_exists (ns_path s).
Definition nfs_says s (text : string) : Prop := plain_share s -> read_exports text = Some [export_of s].

Abbreviation step_of := (in_step nfs_state_dir export_file nfs_live nfs_says).
Abbreviation files := (files_ok (T := NfsShare) nfs_state_dir export_file).
Abbreviation about_nfs := (about (T := NfsShare) nfs_state_dir export_file).

(** A file the service removes goes away, and one that is there is not said to be missing. *)
Definition reliable (F : Faults) : Prop := honest F /\ forall p, fault F OpUnlink p = None.

Definition op_ready (op : NfsOp) d : Prop :=
  valid_id (nfs_target op) /\
  match op with NfsCreate uuid _ => stored (T := NfsShare) nfs_state_dir d uuid = None | _ => True end.

(** What an operation about [id] leaves. *)
Definition done_with (id : string) d {A} (r : result A NfsError) w' : Prop :=
  about_nfs id d (fw_disk w') /\ Forall reliable (fw_plan w') /\ (is_ok r = true -> step_of (fw_disk w') id).

Lemma reliable_tail (l : list Faults) : Forall reliable l -> Forall reliable (tail l).
Proof. destruct l; [done|]. by intros [_ ?]%list.Forall_cons. Qed.

Lemma reliable_next w : Forall reliable (fw_plan w) -> reliable (fw_next w).
Proof. unfold fw_next. destruct (fw_plan w); [done|]. by intros [? _]%list.Forall_cons. Qed.

Lemma wp_reload (Q : result unit NfsError -> FileWorld -> Prop) w :
  (forall r w', fw_disk w' = fw_disk w -> fw_plan w' = fw_plan w -> Q r w') -> wp reload_exports Q w.
Proof.
  intros HQ. unfold reload_exports. apply wp_bind, wp_command. intros [out|e] w' Hd Hp; [|apply wp_throw; by apply HQ].
  destruct (out_success out); cbn [negb]; [apply wp_ret; by apply HQ|].
  case_match; [apply wp_ret|apply wp_throw]; by apply HQ.
Qed.

(** The file of a record that was just saved. *)
Lemma wp_write_export s w :
  files (fw_disk w) -> valid_id (ns_id s) -> Forall reliable (fw_plan w) ->
  stored nfs_state_dir (fw_disk w) (ns_id s) = Some s ->
  wp (write_export_file s) (fun r w' => done_with (ns_id s) (fw_disk w) r w') w.
Proof.
  intros Hok Hid Hp Hs. unfold write_export_file.
  apply wp_bind, wp_fs_call. unfold check at 1. case_match.
  { apply wp_throw. split_and!; [by apply about_refl|by apply reliable_tail|done]. }
  apply wp_ret. cbn [map_err]. set (w1 := mkFileWorld _ _ _ _).
  assert (Forall reliable (fw_plan w1)) as Hp1 by (by apply reliable_tail).
  assert (forall b, nfs_live s = b -> negb (ns_enabled s) || negb (path_exists (ns_path s)) = negb b) as Hlive.
  { intros b <-. unfold nfs_live. by rewrite negb_andb. }
  destruct (nfs_live s) eqn:El; rewrite (Hlive _ eq_refl); cbn [negb].
  - apply wp_bind, wp_lift. destruct (render_export_file s) as [text|] eqn:Er.
    2: { split_and!; [by apply about_refl|done|done]. }
    apply wp_fs_call. eapply wp_use; [apply (write_about (T := NfsShare) nfs_state_dir export_file export_away export_inj); done|].
    cbn. intros r d' (Ha & Hs' & Hr). split_and!; [done|by apply reliable_tail|]. intros Hr'.
    unfold in_step. cbn. rewrite Hs', Hs, El. destruct Hr as (f & Hf & Hc); [by destruct r|].
    exists f. split; [done|]. intros Hpl. rewrite Hc. by eapply rendered_reads.
  - apply wp_bind, wp_attempt, wp_fs_call.
    eapply wp_use; [apply (drop_about (T := NfsShare) nfs_state_dir export_file export_away export_inj); done|].
    cbn. intros r d' (Ha & Hs' & Hr). apply wp_ret. split_and!; [done|by apply reliable_tail|]. intros _.
    unfold in_step. cbn. rewrite Hs', Hs, El. apply Hr. by apply (reliable_next w1).
Qed.

Lemma wp_publish s w :
  files (fw_disk w) -> valid_id (ns_id s) -> Forall reliable (fw_plan w) ->
  wp (publish s) (fun r w' => done_with (ns_id s) (fw_disk w) r w') w.
Proof.
  intros Hok Hid Hp. unfold publish. apply wp_bind, wp_fs_call.
  eapply wp_use; [apply (save_about nfs_state_dir export_file export_away _ _ s); done|].
  intros r d' (Ha & _ & Hr). apply reliable_tail in Hp. destruct r as [[]|e]; cbn [map_err]; [|by split_and!].
  apply wp_bind. eapply wp_use; [apply wp_write_export; [apply Ha|done|done|done]|].
  intros r w' (Ha' & Hp' & Hr'). cbn in Ha'. pose proof (about_trans _ _ _ _ _ _ Ha Ha') as Hab.
  destruct r as [[]|e]; [|by split_and!].
  apply wp_bind, wp_reload. intros r w2 Hd2 Hp2. unfold done_with.
  destruct r as [[]|e]; [apply wp_ret|]; rewrite Hd2, Hp2; by split_and!.
Qed.

Lemma wp_get id w (Q : result NfsShare NfsError -> FileWorld -> Prop) :
  files (fw_disk w) -> valid_id id -> Forall reliable (fw_plan w) ->
  (forall r w', fw_disk w' = fw_disk w -> Forall reliable (fw_plan w') -> (forall s, r = Ok s -> ns_id s = id) -> Q r w') ->
  wp (nfs_get id) Q w.
Proof.
  intros Hok Hid Hp HQ. unfold nfs_get. apply wp_bind, wp_fs_call.
  eapply wp_use; [apply (wp_load_record (T := NfsShare) nfs_state_dir); [apply Hok|done]|]. intros r d' [-> Hl]. apply reliable_tail in Hp.
  destruct r as [[s|]|e]; cbn [map_err]; [apply wp_ret|apply wp_throw|]; apply HQ; try done.
  intros s' [= <-]. by apply (Hl s).
Qed.

Lemma failed id w w' (e : NfsError) {A} :
  files (fw_disk w) -> fw_disk w' = fw_disk w -> Forall reliable (fw_plan w') ->
  done_with id (fw_disk w) (Err (A := A) e) w'.
Proof. intros Hok Hd Hp. split_and!; [rewrite Hd; by apply about_refl|done|done]. Qed.

Lemma wp_exec_update req w :
  files (fw_disk w) -> Forall reliable (fw_plan w) -> valid_id (un_id req) ->
  wp (nfs_update req ;;; ret tt) (fun r w' => done_with (un_id req) (fw_disk w) r w') w.
Proof.
  intros Hok Hp Hid. apply wp_bind. unfold nfs_update. apply wp_bind, wp_get; [done..|]. intros r w1 Hd1 Hp1 Hs.
  destruct r as [s|e]; [|by apply failed]. specialize (Hs s eq_refl). apply wp_bind.
  assert (forall (c : M FileWorld NfsError unit), c w1 = (Ok tt, w1) \/ (exists e, c w1 = (Err e, w1)) ->
    forall Q, Q (Ok tt) w1 -> (forall e, Q (Err e) w1) -> wp c Q w1) as Hpure.
  { intros c [Hc|(e & Hc)] Q HO HE; unfold wp; rewrite Hc; [exact HO|apply HE]. }
  apply Hpure; [|cbn beta iota|intros e; by apply failed].
  { destruct (un_clients req) as [cs|]; [|by left]. unfold lift. destruct (validate_nfs_clients cs) as [[]|e]; [by left|right; by eexists]. }
  rewrite <- Hs, <- Hd1. eapply wp_use; [apply wp_publish; cbn; rewrite ?Hd1, ?Hs; done|].
  intros [x|e] w2 H2; [by apply wp_ret|done].
Qed.

Lemma wp_exec_create uuid req w :
  files (fw_disk w) -> Forall reliable (fw_plan w) -> valid_id uuid -> step_of (fw_disk w) uuid ->
  wp (nfs_create uuid req ;;; ret tt) (fun r w' => done_with uuid (fw_disk w) r w') w.
Proof.
  intros Hok Hp Hid Hst. apply wp_bind. unfold nfs_create. apply wp_bind, wp_lift.
  destruct (validate_export_path _) as [[]|]; [|by apply failed]. apply wp_bind, wp_throw_if; [by intros _; apply failed|intros _].
  destruct (canonicalize _) as [q|]; [|by apply wp_throw, failed].
  apply wp_bind, wp_throw_if; [by intros _; apply failed|intros _]. apply wp_bind, wp_lift.
  destruct (validate_nfs_clients _) as [[]|]; [|by apply failed].
  apply wp_bind, wp_fs_call, wp_load_records. intros r. apply reliable_tail in Hp.
  destruct r as [l|e]; cbn [map_err]; [|by apply failed]. destruct (List.find _ l) as [x|].
  - apply wp_ret, wp_ret. split_and!; [by apply about_refl|done|done].
  - eapply wp_use; [by apply wp_publish|]. intros [x|e] w2 H2; [by apply wp_ret|done].
Qed.

Lemma wp_exec_delete id w :
  files (fw_disk w) -> Forall reliable (fw_plan w) -> valid_id id ->
  wp (nfs_delete id) (fun r w' => done_with id (fw_disk w) r w') w.
Proof.
  intros Hok Hp Hid. unfold nfs_delete. apply wp_bind, wp_get; [done..|]. intros r w1 Hd1 Hp1 _.
  destruct r as [s|e]; [|by apply failed]. rewrite <- Hd1 in *.
  apply wp_bind, wp_fs_call.
  eapply wp_use; [apply (remove_about (T := NfsShare) nfs_state_dir export_file export_away); [done|done|by apply (reliable_next w1)]|].
  intros r d' (Ha & _ & Hr). apply reliable_tail in Hp1.
  destruct r as [[]|e]; cbn [map_err]; [|by split_and!].
  unfold remove_export_file. apply wp_bind, wp_bind, wp_attempt, wp_fs_call.
  eapply wp_use; [apply (drop_about (T := NfsShare) nfs_state_dir export_file export_away export_inj); [apply Ha|done]|].
  intros r d2 (Ha2 & Hs2 & Hr2). pose proof (about_trans _ _ _ _ _ _ Ha Ha2) as Hab. cbn in Hs2, Hr2.
  apply wp_ret, wp_reload. cbn [fw_disk fw_plan]. intros r' w' Hd' Hp'. unfold done_with. rewrite Hd', Hp'.
  split_and!; [done|by apply reliable_tail|]. intros _. unfold in_step. cbn. rewrite Hs2, Hr.
  apply Hr2. by apply (reliable_next (mkFileWorld d' _ _ _)).
Qed.

(** C26: an operation of the NFS service that reports success leaves the exports in step with the records,
    whatever reads, writes and renames failed on the way and whatever [exportfs] answered: a share whose record is
    enabled and whose directory exists has an exports file that reads, by exports(5), as exactly its path with each of
    its clients and that client's own options (an fsid and [insecure] added when the record gives none), and a share
    that is disabled, whose directory is gone or that was deleted has none. An operation that fails leaves every other
    share in step. Assumed: all shares were in step before, ids are plain names of letters, digits and dashes and the id
    of a new share is not in use; no file that is to be removed stays (the service ignores a failed removal, and the share
    then stays exported) and no failing call claims that a file is missing. What a file reads as is stated for the
    records without blanks or pound signs in the path and without pound signs in the clients: the validators let them
    through, and exports(5) then reads something else. *)
Theorem exports_stay_in_step op w r w' :
  files (fw_disk w) -> (forall i, valid_id i -> step_of (fw_disk w) i) ->
  Forall reliable (fw_plan w) -> op_ready op (fw_disk w) -> exec_nfs op w = (r, w') ->
  files (fw_disk w') /\
  (forall i, valid_id i -> i <> nfs_target op -> step_of (fw_disk w') i) /\
  (is_ok r = true -> forall i, valid_id i -> step_of (fw_disk w') i).
Proof.
  intros Hok Hst Hp [Hid Hop] E.
  assert (wp (exec_nfs op) (fun r w' => done_with (nfs_target op) (fw_disk w) r w') w) as Hw; cycle 1.
  { unfold wp in Hw. rewrite E in Hw. destruct Hw as (Ha & _ & Hr).
    assert (forall i, valid_id i -> i <> nfs_target op -> step_of (fw_disk w') i) as Hoth.
    { intros i Hi Hn. eapply about_in_step; [exact Ha|done|done|by apply Hst]. }
    split_and!; [apply Ha|done|].
    intros Hr' i Hi. destruct (decide (i = nfs_target op)) as [->|]; [by apply Hr|by apply Hoth]. }
  clear E r w'. destruct op as [uuid req|req|id]; cbn [exec_nfs nfs_target] in *;
    [by apply wp_exec_create; [..|apply Hst]|by apply wp_exec_update|by apply wp_exec_delete].
Qed.

End Service.
