(* ===== verification/Smb.v ===== *)
(** * SMB shares: engine/nasty-sharing/src/smb.rs

    The records, the validators, the text of a share's section and of the list
    of includes, the Time Machine advertisement and the portal's access policy. *)
From Stdlib Require Import String Ascii ZArith.
From stdpp Require Import base list gmap strings numbers.
From S2P Require Import Prelude RustStr Disk StateStore Records FileShare Nfs.

Open Scope string_scope.
Open Scope rust_scope.

(** ** Data *)

Inductive SmbError :=
| SmbNotFound (id : string)
| SmbNameExists (name : string)
| SmbPathNotFound (path : string)
| SmbPathNotInFilesystem (path : string)
| SmbInvalidName (what : string)
| TimeMachineRequiresAuth
| SmbReloadFailed (stderr : string)
| SmbPrincipalLookup (what : string)
| SmbIo (e : IoErr).

Record SmbShare := mkSmbShare {
  sm_id : string;
  sm_name : string;
  sm_path : string;
  sm_comment : option string;
  sm_read_only : bool;
  sm_browseable : bool;
  sm_guest_ok : bool;
  sm_valid_users : list string;
  sm_extra_params : gmap string string;
  sm_time_machine : bool;
  sm_time_machine_max_size_gib : option Z;
  sm_enabled : bool
}.

#[export] Instance smb_id : HasId SmbShare := sm_id.

Record CreateSmbShareRequest := mkCreateSmb {
  cs_name : string;
  cs_path : string;
  cs_comment : option string;
  cs_read_only : option bool;
  cs_browseable : option bool;
  cs_guest_ok : option bool;
  cs_valid_users : option (list string);
  cs_extra_params : option (gmap string string);
  cs_time_machine : option bool;
  cs_time_machine_max_size_gib : option Z;
  cs_enabled : option bool
}.

Record UpdateSmbShareRequest := mkUpdateSmb {
  us_id : string;
  us_name : option string;
  us_comment : option string;
  us_read_only : option bool;
  us_browseable : option bool;
  us_guest_ok : option bool;
  us_valid_users : option (list string);
  us_extra_params : option (gmap string string);
  us_time_machine : option bool;
  us_time_machine_max_size_gib : option Z;
  us_enabled : option bool
}.

Definition NASTY_SMB_CONF_PATH : string := "/etc/samba/smb.nasty.conf".
Definition NASTY_SMB_SHARE_DIR : string := "/etc/samba/nasty.d".
Definition NASTY_TIMEMACHINE_AVAHI_PATH : string := "/etc/avahi/services/nasty-timemachine.service".
Definition share_dir : Path := components NASTY_SMB_SHARE_DIR.
Definition list_path : Path := components NASTY_SMB_CONF_PATH.
Definition avahi_path : Path := components NASTY_TIMEMACHINE_AVAHI_PATH.
Definition smb_state_dir : StateDir := mkStateDir ["var"; "lib"; "nasty"; "shares"; "smb"].

(** ** Validators *)

(** [char::is_control] of the character at the front, with its length in bytes. *)
Definition control_at (s : string) : nat :=
  match s with
  | EmptyString => 0
  | String c s' =>
      let n := nat_of_ascii c in
      if (n <? 32)%nat || (n =? 127)%nat then 1
      else if (n =? 194)%nat then
        match s' with
        | String d _ => if (128 <=? nat_of_ascii d)%nat && (nat_of_ascii d <=? 159)%nat then 2 else 0
        | EmptyString => 0
        end
      else 0
  end.

(** [sanitize_smb_value]: drop the control characters and semicolons. *)
Fixpoint sanitize_smb_value (s : string) : string :=
  match s with
  | EmptyString => EmptyString
  | String c s' =>
      match control_at s, s' with
      | 1, _ => sanitize_smb_value s'
      | 2, String _ s'' => sanitize_smb_value s''
      | _, _ => if Ascii.eqb c ";" then sanitize_smb_value s' else String c (sanitize_smb_value s')
      end
  end.

Definition validate_share_name (name : string) : result unit SmbError :=
  if (name =s "") || (80 <? Z.of_nat (String.length name))%Z
     || contains_any ["/"; "\"; "["; "]"; ":"; "|"; "<"; ">"; "+"; "="; ";"; ","; "?"; "*"]%char name
  then Err (SmbInvalidName "Share name must be 1-80 chars without special characters")
  else Ok tt.

Definition validate_share_path (path : string) : result unit SmbError :=
  if path =s "" then Err (SmbInvalidName "share path is empty")
  else if contains_any [ascii_of_nat 10; ascii_of_nat 13; ascii_of_nat 0; double_quote; "#"%char] path
  then Err (SmbInvalidName ("share path contains characters that would inject smb.conf directives "
                            ++ "(newline, CR, NUL, double-quote, '#')"))
  else Ok tt.

Definition local_char (c : ascii) : bool := is_ascii_alphanumeric c || existsb (Ascii.eqb c) ["-"; "_"; "."]%char.
Definition domain_char (c : ascii) : bool := is_ascii_alphanumeric c || Ascii.eqb c "-".
Definition account_char (c : ascii) : bool := local_char c || Ascii.eqb c " ".

(** [s.strip_prefix('@').unwrap_or(s)]. *)
Definition strip_at (s : string) : string := default s (strip_prefix "@" s).

Definition validate_valid_user (raw : string) : result unit SmbError :=
  let entry := strip_at raw in
  if (entry =s "") || (256 <? Z.of_nat (String.length entry))%Z
  then Err (SmbInvalidName ("invalid valid_users entry '" ++ raw ++ "'"))
  else if any_control entry || contains_any [";"%char; double_quote; "#"%char; "="%char; ascii_of_nat 10; ascii_of_nat 13] entry
  then Err (SmbInvalidName ("valid_users entry '" ++ raw ++ "' contains forbidden characters"))
  else
    match split "\" entry with
    | [name] =>
        if negb (all_chars local_char name) then Err (SmbInvalidName ("invalid user/group name '" ++ raw ++ "'")) else Ok tt
    | [domain; name] =>
        let domain_ok := negb (domain =s "") && (Z.of_nat (String.length domain) <=? 15)%Z && all_chars domain_char domain in
        let name_ok := negb (name =s "") && all_chars account_char name in
        if negb domain_ok || negb name_ok then Err (SmbInvalidName ("invalid domain principal '" ++ raw ++ "'")) else Ok tt
    | _ => Err (SmbInvalidName ("invalid valid_users entry '" ++ raw ++ "'"))
    end.

Fixpoint validate_valid_users (entries : list string) : result unit SmbError :=
  match entries with
  | [] => Ok tt
  | raw :: rest => match validate_valid_user raw with Err e => Err e | Ok _ => validate_valid_users rest end
  end.

Definition validate_file_principal (principal : string) : result unit SmbError :=
  if (principal =s "") || negb (trim principal =s principal) || starts_with "@" principal
  then Err (SmbInvalidName "file principal must be a non-empty user principal")
  else validate_valid_users [principal].

Definition validate_time_machine (share : SmbShare) : result unit SmbError :=
  if sm_time_machine share && (sm_guest_ok share || sm_read_only share) then Err TimeMachineRequiresAuth else Ok tt.

(** ** The section of a share *)

Definition yes_no (b : bool) : string := if b then "yes" else "no".

Definition push (key value : string) : string := "    " ++ key ++ " = " ++ value ++ newline.

Definition quote_user (u : string) : string :=
  let s := sanitize_smb_value u in if contains_char " " s then quote ++ s ++ quote else s.

(** [extra.sort_by_key(|(k, _)| *k)]; keys are compared by their bytes. *)
Fixpoint insert_param (kv : string * string) (l : list (string * string)) : list (string * string) :=
  match l with
  | [] => [kv]
  | x :: l' => match String.compare (fst kv) (fst x) with Gt => x :: insert_param kv l' | _ => kv :: l end
  end.
Definition sorted_params (m : gmap string string) : list (string * string) := foldr insert_param [] (map_to_list m).

Definition time_machine_block (share : SmbShare) : string :=
  push "vfs objects" "catia fruit streams_xattr"
  ++ push "fruit:time machine" "yes"
  ++ push "fruit:metadata" "stream"
  ++ push "fruit:posix_rename" "yes"
  ++ push "fruit:veto_appledouble" "no"
  ++ push "fruit:wipe_intentionally_left_blank_rfork" "yes"
  ++ push "fruit:delete_empty_adfiles" "yes"
  ++ match sm_time_machine_max_size_gib share with
     | Some gib => push "fruit:time machine max size" (fmt_Z gib ++ "G")
     | None => ""
     end.

Definition render_share_conf (share : SmbShare) : string :=
  "[" ++ sanitize_smb_value (sm_name share) ++ "]" ++ newline
  ++ push "path" (sm_path share)
  ++ match sm_comment share with Some c => push "comment" (sanitize_smb_value c) | None => "" end
  ++ push "read only" (yes_no (sm_read_only share))
  ++ push "browseable" (yes_no (sm_browseable share))
  ++ push "guest ok" (yes_no (sm_guest_ok share))
  ++ (if sm_guest_ok share then
        push "force user" "nobody" ++ push "force group" "nogroup" ++ push "create mask" "0666" ++ push "directory mask" "0777"
      else if negb (bool_decide (sm_valid_users share = [])) then
        match List.find (fun u => negb (starts_with "@" u)) (sm_valid_users share) with
        | Some first_user => push "force user" (sanitize_smb_value first_user)
        | None => ""
        end ++ push "create mask" "0664" ++ push "directory mask" "0775"
      else "")
  ++ (if negb (bool_decide (sm_valid_users share = []))
      then push "valid users" (String.concat " " (quote_user <$> sm_valid_users share)) else "")
  ++ String.concat "" ((fun kv => push (sanitize_smb_value (fst kv)) (sanitize_smb_value (snd kv)))
                         <$> sorted_params (sm_extra_params share))
  ++ (if sm_time_machine share then time_machine_block share else "").

Definition render_include_list (share_conf_names : list string) : string :=
  "# Managed by NASty — do not edit manually" ++ newline
  ++ "# Per-share configs in /etc/samba/nasty.d/" ++ newline ++ newline
  ++ "include = /etc/samba/nasty-domain.conf" ++ newline ++ newline
  ++ "include = /etc/samba/nasty-tuning.conf" ++ newline ++ newline
  ++ String.concat "" ((fun name => "include = " ++ NASTY_SMB_SHARE_DIR ++ "/" ++ name ++ newline) <$> share_conf_names).

Definition share_conf_path (id : string) : string := NASTY_SMB_SHARE_DIR ++ "/" ++ id ++ ".conf".
Definition share_conf (id : string) : Path := components (share_conf_path id).

(** ** The Time Machine advertisement *)

(** [s.replace(c, t)]. *)
Fixpoint replace_with (c : ascii) (t s : string) : string :=
  match s with
  | EmptyString => EmptyString
  | String d s' => (if Ascii.eqb d c then t else String d EmptyString) ++ replace_with c t s'
  end.

Definition xml_escape (s : string) : string :=
  replace_with "'" "&apos;" (replace_with double_quote "&quot;"
    (replace_with ">" "&gt;" (replace_with "<" "&lt;" (replace_with "&" "&amp;" s)))).

Definition disk_records (names : list string) : string :=
  String.concat "" (imap (fun i name =>
    "    <txt-record>dk" ++ fmt_nat i ++ "=adVN=" ++ xml_escape name ++ ",adVF=0x82</txt-record>" ++ newline) names).

Definition build_timemachine_avahi_xml (tm_share_names : list string) : option string :=
  match tm_share_names with
  | [] => None
  | _ =>
      Some ("<?xml version=" ++ quote ++ "1.0" ++ quote ++ " standalone='no'?>" ++ newline
            ++ "<!DOCTYPE service-group SYSTEM " ++ quote ++ "avahi-service.dtd" ++ quote ++ ">" ++ newline
            ++ "<!-- Managed by NASty — do not edit manually -->" ++ newline
            ++ "<service-group>" ++ newline
            ++ "  <name replace-wildcards=" ++ quote ++ "yes" ++ quote ++ ">%h</name>" ++ newline
            ++ "  <service>" ++ newline
            ++ "    <type>_adisk._tcp</type>" ++ newline
            ++ "    <port>9</port>" ++ newline
            ++ "    <txt-record>sys=waMa=0,adVF=0x100</txt-record>" ++ newline
            ++ disk_records tm_share_names
            ++ "  </service>" ++ newline
            ++ "</service-group>" ++ newline)
  end.

(** ** The portal's policy *)

Definition share_allows_principal (share : SmbShare) (principal : string) (groups : list string) : bool :=
  if negb (sm_enabled share) || sm_guest_ok share || bool_decide (sm_valid_users share = [])
     || negb (bool_decide (sm_extra_params share = ∅))
  then false
  else existsb (fun allowed =>
         match strip_prefix "@" allowed with
         | Some group => existsb (fun current => eq_ignore_ascii_case current group) groups
         | None => eq_ignore_ascii_case allowed principal
         end) (sm_valid_users share).

(** ** Computed examples, from the tests of smb.rs *)

Example sanitize_example : sanitize_smb_value ("a;b" ++ newline ++ "c" ++ bytes_of [13; 194; 133; 100]%nat) = "abcd".
Proof. vm_compute. reflexivity. Qed.

Example valid_users_example :
  (is_ok <$> (validate_valid_user <$> ["alice"; "@staff"; "CORP\domain admins"; "@CORP\ops"; "a b"; "CORP\"; "a\b\c"; "x;y"]))
  = [true; true; true; true; false; false; false; false].
Proof. vm_compute. reflexivity. Qed.

Definition example_smb : SmbShare :=
  mkSmbShare "id-1" "share1" "/fs/p/data" None false true false ["alice"; "@CORP\domain admins"] ∅ false None true.

Example render_share_conf_example :
  render_share_conf example_smb
  = "[share1]" ++ newline ++ push "path" "/fs/p/data" ++ push "read only" "no" ++ push "browseable" "yes"
    ++ push "guest ok" "no" ++ push "force user" "alice" ++ push "create mask" "0664" ++ push "directory mask" "0775"
    ++ push "valid users" ("alice " ++ quote ++ "@CORP\domain admins" ++ quote).
Proof. vm_compute. reflexivity. Qed.
