(* ===== verification/SmbService.v ===== *)
(** * The SMB service: engine/nasty-sharing/src/smb.rs

    Every operation of [SmbService] on shares, users and groups, with the files
    it writes and the programs it starts, and the lookup of a portal user's
    groups. *)
From Stdlib Require Import String Ascii ZArith.
From stdpp Require Import base list gmap strings numbers.
From S2P Require Import Prelude RustStr Disk StateStore Records AlertService FileShare Nfs Smb.

Open Scope string_scope.
Open Scope rust_scope.

(** ** Shares *)

Section Shares.
Context `{Codec SmbShare} `{ShareTree} (uuid : string).

Definition write_share_conf (share : SmbShare) : M FileWorld SmbError unit :=
  fs_call SmbIo (fun F => check F OpMkdir share_dir) ;;;
  if negb (sm_enabled share) then
    attempt (fs_call SmbIo (fun F => remove_file F (share_conf (sm_id share)))) ;;; ret tt
  else
    fs_call SmbIo (fun F => fs_write F (share_conf (sm_id share)) (render_share_conf share)) ;;;
    try_run "chmod" ["0777"; sm_path share].

Definition remove_share_conf (id : string) : M FileWorld SmbError unit :=
  attempt (fs_call SmbIo (fun F => remove_file F (share_conf id))) ;;; ret tt.

(** The entries [while let Ok(Some(entry)) = dir.next_entry().await] sees. *)
Fixpoint conf_names (F : Faults) (ps : list Path) : M Disk IoErr (list string) :=
  match ps with
  | [] => ret []
  | p :: rest =>
      r <- attempt (check F OpReadDir p) ;;
      match r with
      | Err _ => ret []
      | Ok _ =>
          names <- conf_names F rest ;;
          let name := from_utf8_lossy (default "" (file_name p)) in
          ret (if ends_with ".conf" name then name :: names else names)
      end
  end.

Definition rebuild_include_list : M FileWorld SmbError unit :=
  fs_call SmbIo (fun F => check F OpMkdir share_dir) ;;;
  names <- fs_call SmbIo (fun F => ps <- read_dir F share_dir ;; conf_names F ps) ;;
  fs_call SmbIo (fun F => fs_write F list_path (render_include_list names)).

Definition ensure_config_scaffolding : M FileWorld SmbError unit := rebuild_include_list.

Definition reload_samba : M FileWorld SmbError unit :=
  r <- command "smbcontrol" ["all"; "reload-config"] ;;
  match r with
  | Err e => throw (SmbIo e)
  | Ok output =>
      throw_if (negb (out_success output)) (SmbReloadFailed (from_utf8_lossy (out_stderr output)))
  end.

Definition smb_list : M FileWorld SmbError (list SmbShare) := fs_call SmbIo (fun F => load_all F smb_state_dir).

Definition smb_list_strict : M FileWorld SmbError (list SmbShare) :=
  fs_call SmbIo (fun F => load_all_strict F smb_state_dir).

Definition smb_get (id : string) : M FileWorld SmbError SmbShare :=
  o <- fs_call SmbIo (fun F => load F smb_state_dir id) ;;
  match o with Some s => ret s | None => throw (SmbNotFound id) end.

(** Failures are logged, not returned. *)
Definition sync_timemachine_avahi : M FileWorld SmbError unit :=
  shares <- smb_list ;;
  let names := sm_name <$> List.filter (fun s => sm_enabled s && sm_time_machine s) shares in
  let reload := (try_run "systemctl" ["reload"; "avahi-daemon"] : M FileWorld SmbError unit) in
  match build_timemachine_avahi_xml names with
  | Some xml =>
      r <- attempt (fs_call SmbIo (fun F => check F OpMkdir (removelast avahi_path))) ;;
      match r with
      | Err _ => ret tt
      | Ok _ =>
          r <- attempt (fs_call SmbIo (fun F => fs_write F avahi_path xml)) ;;
          match r with Err _ => ret tt | Ok _ => reload end
      end
  | None => attempt (fs_call SmbIo (fun F => remove_file F avahi_path)) ;;; reload
  end.

Fixpoint wait_for_share (attempts : nat) (share_name : string) : M FileWorld SmbError unit :=
  match attempts with
  | 0 => ret tt
  | S n =>
      r <- command "testparm" ["-s"; "--section-name"; share_name] ;;
      match r with
      | Ok out =>
          if contains_str share_name (from_utf8_lossy (out_stdout out)) then ret tt else wait_for_share n share_name
      | Err _ => wait_for_share n share_name
      end
  end.
Definition wait_for_share_ready (share_name : string) : M FileWorld SmbError unit := wait_for_share 10 share_name.

(** Save the record, write its section, list it and reload. *)
Definition publish_smb (share : SmbShare) : M FileWorld SmbError unit :=
  fs_call SmbIo (fun F => save F smb_state_dir (sm_id share) share) ;;;
  write_share_conf share ;;;
  rebuild_include_list ;;;
  reload_samba ;;;
  sync_timemachine_avahi.

Definition positive_cap (o : option Z) : option Z :=
  match o with Some n => if (0 <? n)%Z then Some n else None | None => None end.

Definition new_smb_share (req : CreateSmbShareRequest) : SmbShare :=
  mkSmbShare uuid (cs_name req) (cs_path req) (cs_comment req) (default false (cs_read_only req))
    (default true (cs_browseable req)) (default false (cs_guest_ok req)) (default [] (cs_valid_users req))
    (default ∅ (cs_extra_params req)) (default false (cs_time_machine req))
    (positive_cap (cs_time_machine_max_size_gib req)) (default true (cs_enabled req)).

Definition smb_create (req : CreateSmbShareRequest) : M FileWorld SmbError SmbShare :=
  lift (validate_share_name (cs_name req)) ;;;
  lift (validate_share_path (cs_path req)) ;;;
  lift (match cs_valid_users req with Some us => validate_valid_users us | None => Ok tt end) ;;;
  throw_if (negb (path_exists (cs_path req))) (SmbPathNotFound (cs_path req)) ;;;
  match canonicalize (cs_path req) with
  | None => throw (SmbPathNotFound (cs_path req))
  | Some canonical =>
      throw_if (negb (under_fs canonical)) (SmbPathNotInFilesystem (cs_path req)) ;;;
      shares <- smb_list ;;
      match List.find (fun s => sm_name s =s cs_name req) shares with
      | Some existing => ret existing
      | None =>
          let share := new_smb_share req in
          lift (validate_time_machine share) ;;;
          publish_smb share ;;;
          wait_for_share_ready (sm_name share) ;;;
          ret share
      end
  end.

Definition updated_smb (req : UpdateSmbShareRequest) (s : SmbShare) : SmbShare :=
  mkSmbShare (sm_id s) (default (sm_name s) (us_name req)) (sm_path s)
    (match us_comment req with Some c => Some c | None => sm_comment s end)
    (default (sm_read_only s) (us_read_only req)) (default (sm_browseable s) (us_browseable req))
    (default (sm_guest_ok s) (us_guest_ok req)) (default (sm_valid_users s) (us_valid_users req))
    (default (sm_extra_params s) (us_extra_params req)) (default (sm_time_machine s) (us_time_machine req))
    (match us_time_machine_max_size_gib req with
     | Some n => if (0 <? n)%Z then Some n else None
     | None => sm_time_machine_max_size_gib s
     end) (default (sm_enabled s) (us_enabled req)).

Definition smb_update (req : UpdateSmbShareRequest) : M FileWorld SmbError SmbShare :=
  lift (match us_name req with Some n => validate_share_name n | None => Ok tt end) ;;;
  s <- smb_get (us_id req) ;;
  match us_name req with
  | Some new_name =>
      shares <- smb_list ;;
      throw_if (existsb (fun x => (sm_name x =s new_name) && negb (sm_id x =s us_id req)) shares) (SmbNameExists new_name)
  | None => ret tt
  end ;;;
  lift (match us_valid_users req with Some us => validate_valid_users us | None => Ok tt end) ;;;
  let share := updated_smb req s in
  lift (validate_time_machine share) ;;;
  publish_smb share ;;;
  ret share.

Definition smb_delete (id : string) : M FileWorld SmbError unit :=
  smb_get id ;;;
  fs_call SmbIo (fun F => remove F smb_state_dir id) ;;;
  remove_share_conf id ;;;
  rebuild_include_list ;;;
  reload_samba ;;;
  sync_timemachine_avahi.

End Shares.

(** ** Users and groups *)

Definition SMB_USER_UID_MIN : Z := 3000.
Definition SMB_GROUP_GID_MIN : Z := 3000.

Record SmbUser := mkSmbUser { su_username : string; su_uid : Z }.
Record SmbGroup := mkSmbGroup { sg_name : string; sg_gid : Z; sg_members : list string }.

(** A command whose failure to start or to succeed is the error of the operation. *)
Definition run_or_fail (program : string) (args : list string) : M FileWorld SmbError unit :=
  r <- command program args ;;
  match r with
  | Err e => throw (SmbReloadFailed (program ++ ": " ++ display_io e))
  | Ok output =>
      throw_if (negb (out_success output))
        (SmbReloadFailed (program ++ " failed: " ++ from_utf8_lossy (out_stderr output)))
  end.

(** The first number, from [first] on, the program does not know. *)
Fixpoint next_available (program : string) (pre : list string) (count : nat) (first fallback : Z) : M FileWorld SmbError Z :=
  match count with
  | 0 => ret fallback
  | S n =>
      r <- command program (pre ++ [fmt_Z first])%list ;;
      match r with
      | Ok out => if negb (out_success out) then ret first else next_available program pre n (first + 1)%Z fallback
      | Err _ => next_available program pre n (first + 1)%Z fallback
      end
  end.
Definition next_available_uid : M FileWorld SmbError Z := next_available "id" [] 1000 SMB_USER_UID_MIN SMB_USER_UID_MIN.
Definition next_available_gid : M FileWorld SmbError Z :=
  next_available "getent" ["group"] 1000 SMB_GROUP_GID_MIN SMB_GROUP_GID_MIN.

(** What is written to a program's standard input, or waiting for it; the outcome is the next one. *)
Definition stage (what : string) (data : list string) : M FileWorld SmbError (result Output IoErr) := command what data.

Definition set_smb_password (username password : string) : M FileWorld SmbError unit :=
  spawned <- command "smbpasswd" ["-a"; "-s"; username] ;;
  match spawned with
  | Err e => throw (SmbReloadFailed ("smbpasswd: " ++ display_io e))
  | Ok _ =>
      written <- stage "stdin" [password ++ newline ++ password ++ newline] ;;
      match written with
      | Err e => throw (SmbReloadFailed ("smbpasswd stdin: " ++ display_io e))
      | Ok _ =>
          waited <- stage "wait" [] ;;
          match waited with
          | Err e => throw (SmbReloadFailed ("smbpasswd wait: " ++ display_io e))
          | Ok output =>
              throw_if (negb (out_success output))
                (SmbReloadFailed ("smbpasswd failed: " ++ from_utf8_lossy (out_stderr output)))
          end
      end
  end.

Definition account_name_char (c : ascii) : bool := is_ascii_alphanumeric c || Ascii.eqb c "-" || Ascii.eqb c "_".

Definition check_account_name (what : string) (name : string) : result unit SmbError :=
  if (name =s "") || (32 <? Z.of_nat (String.length name))%Z
  then Err (SmbInvalidName (what ++ " must be 1-32 characters"))
  else if negb (all_chars account_name_char name)
  then Err (SmbInvalidName (what ++ " must be alphanumeric, hyphens, or underscores"))
  else Ok tt.

(** Whether a lookup finds the name already. *)
Definition must_be_new (program : string) (args : list string) (name : string) : M FileWorld SmbError unit :=
  r <- command program args ;;
  match r with
  | Err e => throw (SmbReloadFailed (program ++ ": " ++ display_io e))
  | Ok out => throw_if (out_success out) (SmbNameExists name)
  end.

Definition create_user (raw password : string) : M FileWorld SmbError SmbUser :=
  let username := trim raw in
  lift (check_account_name "username" username) ;;;
  must_be_new "id" [username] username ;;;
  uid <- next_available_uid ;;
  run_or_fail "useradd"
    ["--system"; "--uid"; fmt_Z uid; "--no-create-home"; "--shell"; "/usr/sbin/nologin"; username] ;;;
  set_smb_password username password ;;;
  ret (mkSmbUser username uid).

Definition delete_user (username : string) : M FileWorld SmbError unit :=
  try_run "smbpasswd" ["-x"; username] ;;;
  run_or_fail "userdel" [username].

Definition set_user_password (username password : string) : M FileWorld SmbError unit :=
  set_smb_password username password.

(** [line.splitn(n, c)]. *)
Fixpoint splitn (n : nat) (c : ascii) (s : string) : list string :=
  match n with
  | 0 => []
  | 1 => [s]
  | S n' => match split_once c s with Some (a, b) => a :: splitn n' c b | None => [s] end
  end.

Definition passdb_user (line : string) : option SmbUser :=
  match splitn 3 ":" line with
  | name :: uid :: _ =>
      match parse_unsigned (2 ^ 32 - 1) uid with
      | Some n => if (SMB_USER_UID_MIN <=? n)%Z then Some (mkSmbUser name n) else None
      | None => None
      end
  | _ => None
  end.

Definition list_users : M FileWorld SmbError (list SmbUser) :=
  r <- command "pdbedit" ["-L"; "-d"; "0"] ;;
  match r with
  | Err e => throw (SmbReloadFailed ("pdbedit: " ++ display_io e))
  | Ok output => ret (omap passdb_user (lines (from_utf8_lossy (out_stdout output))))
  end.

Definition create_group (raw : string) : M FileWorld SmbError SmbGroup :=
  let name := trim raw in
  lift (check_account_name "group name" name) ;;;
  must_be_new "getent" ["group"; name] name ;;;
  gid <- next_available_gid ;;
  run_or_fail "groupadd" ["--gid"; fmt_Z gid; name] ;;;
  ret (mkSmbGroup name gid []).

Definition delete_group (name : string) : M FileWorld SmbError unit := run_or_fail "groupdel" [name].

Definition group_line (line : string) : option SmbGroup :=
  match splitn 4 ":" line with
  | name :: _ :: gid :: rest =>
      match parse_unsigned (2 ^ 32 - 1) gid with
      | Some n =>
          if (SMB_GROUP_GID_MIN <=? n)%Z && (n <? SMB_GROUP_GID_MIN + 1000)%Z then
            let members := match rest with m :: _ => List.filter (fun s => negb (s =s "")) (split "," m) | [] => [] end in
            Some (mkSmbGroup name n members)
          else None
      | None => None
      end
  | _ => None
  end.

Definition list_groups : M FileWorld SmbError (list SmbGroup) :=
  content <- fs_call (fun e => SmbReloadFailed ("read /etc/group: " ++ display_io e))
    (fun F => read_to_string F ["etc"; "group"]) ;;
  ret (omap group_line (lines content)).

Definition add_group_member (group user : string) : M FileWorld SmbError unit := run_or_fail "usermod" ["-aG"; group; user].
Definition remove_group_member (group user : string) : M FileWorld SmbError unit := run_or_fail "gpasswd" ["-d"; user; group].

(** ** The groups of a portal user *)

Record PrincipalAuthorization := mkPrincipal { pz_principal : string; pz_groups : list string }.

Definition MAX_NSS_OUTPUT : Z := 64 * 1024.
Definition MAX_PRINCIPAL_GROUPS : nat := 128.

(** What became of a program that is given two seconds. *)
Inductive Bounded :=
| NotStarted (e : IoErr)
| StdoutFailed (e : IoErr)
| StderrFailed (e : IoErr)
| WaitFailed (e : IoErr)
| TimedOut
| Exited (o : Output).

(** NSS, winbind and the password database, as the programs that ask them answer. *)
Class NameService := bounded : string -> list string -> Bounded.

Definition run_bounded_command `{NameService} (program : string) (args : list string) : result Output SmbError :=
  match bounded program args with
  | NotStarted e => Err (SmbPrincipalLookup ("start " ++ program ++ ": " ++ display_io e))
  | StdoutFailed e => Err (SmbPrincipalLookup ("read " ++ program ++ " stdout: " ++ display_io e))
  | StderrFailed e => Err (SmbPrincipalLookup ("read " ++ program ++ " stderr: " ++ display_io e))
  | WaitFailed e => Err (SmbPrincipalLookup ("wait for " ++ program ++ ": " ++ display_io e))
  | TimedOut => Err (SmbPrincipalLookup (program ++ " timed out"))
  | Exited o =>
      if (MAX_NSS_OUTPUT <? Z.of_nat (String.length (out_stdout o)))%Z
         || (MAX_NSS_OUTPUT <? Z.of_nat (String.length (out_stderr o)))%Z
      then Err (SmbPrincipalLookup (program ++ " output exceeded the limit"))
      else Ok o
  end.

Fixpoint parse_gids (l : list string) : result (list string) SmbError :=
  match l with
  | [] => Ok []
  | g :: rest =>
      match parse_unsigned (2 ^ 32 - 1) g with
      | None => Err (SmbPrincipalLookup "id returned an invalid GID")
      | Some _ => match parse_gids rest with Ok gs => Ok (g :: gs) | Err e => Err e end
      end
  end.

(** [filter(|gid| unique_gids.insert(gid.clone()))]: the first of each. *)
Fixpoint first_of_each (seen : list string) (l : list string) : list string :=
  match l with
  | [] => []
  | g :: rest => if existsb (String.eqb g) seen then first_of_each seen rest else g :: first_of_each (g :: seen) rest
  end.

Definition group_of_gid `{NameService} (gid : string) : result string SmbError :=
  match run_bounded_command "getent" ["group"; gid] with
  | Err e => Err e
  | Ok output =>
      if negb (out_success output) then Err (SmbPrincipalLookup ("could not resolve GID " ++ gid))
      else if negb (valid_utf8 (out_stdout output)) then Err (SmbPrincipalLookup "getent returned non-UTF-8 output")
      else
        match head (lines (out_stdout output)) ≫= split_once ":" with
        | Some (name, _) =>
            if name =s "" then Err (SmbPrincipalLookup ("getent returned an invalid record for GID " ++ gid)) else Ok name
        | None => Err (SmbPrincipalLookup ("getent returned an invalid record for GID " ++ gid))
        end
  end.

Fixpoint groups_of_gids `{NameService} (l : list string) : result (list string) SmbError :=
  match l with
  | [] => Ok []
  | g :: rest =>
      match group_of_gid g with
      | Err e => Err e
      | Ok name => match groups_of_gids rest with Ok ns => Ok (name :: ns) | Err e => Err e end
      end
  end.

Definition local_passdb_contains_principal (principal output : string) : bool :=
  valid_utf8 output &&
  existsb (fun line => match split_once ":" line with
                       | Some (name, _) => eq_ignore_ascii_case name principal
                       | None => false
                       end) (lines output).

Definition resolve_principal_authorization `{NameService} (principal : string) : result PrincipalAuthorization SmbError :=
  match run_bounded_command "id" ["-G"; "--"; principal] with
  | Err e => Err e
  | Ok output =>
      if negb (out_success output)
      then Err (SmbPrincipalLookup ("principal does not exist: " ++ trim (from_utf8_lossy (out_stderr output))))
      else if negb (valid_utf8 (out_stdout output)) then Err (SmbPrincipalLookup "id returned non-UTF-8 output")
      else
        match parse_gids (split_whitespace (out_stdout output)) with
        | Err e => Err e
        | Ok all =>
            let gids := first_of_each [] all in
            if bool_decide (gids = []) || (MAX_PRINCIPAL_GROUPS <? length gids)%nat
            then Err (SmbPrincipalLookup "principal has no groups or exceeds the group limit")
            else
              match groups_of_gids gids with
              | Err e => Err e
              | Ok groups =>
                  if negb (contains_char "\" principal) then
                    match run_bounded_command "pdbedit" ["--list"; "--user"; principal] with
                    | Err e => Err e
                    | Ok o =>
                        if negb (out_success o) || negb (local_passdb_contains_principal principal (out_stdout o))
                        then Err (SmbPrincipalLookup "local principal is not present in Samba passdb")
                        else Ok (mkPrincipal principal groups)
                    end
                  else Ok (mkPrincipal principal groups)
              end
        end
  end.

(** [late]: the whole lookup took more than five seconds. *)
Definition principal_authorization `{NameService} (late : bool) (principal : string) : result PrincipalAuthorization SmbError :=
  match validate_file_principal principal with
  | Err e => Err e
  | Ok _ => if late then Err (SmbPrincipalLookup "lookup timed out") else resolve_principal_authorization principal
  end.

Example users_example :
  omap passdb_user (lines ("alice:3000:Alice" ++ newline ++ "root:0:root" ++ newline ++ "bob:3001" ++ newline))
  = [mkSmbUser "alice" 3000; mkSmbUser "bob" 3001].
Proof. vm_compute. reflexivity. Qed.

Example groups_example :
  omap group_line (lines ("staff:x:3000:alice,bob" ++ newline ++ "wheel:x:1:root" ++ newline ++ "late:x:4000:" ++ newline))
  = [mkSmbGroup "staff" 3000 ["alice"; "bob"]].
Proof. vm_compute. reflexivity. Qed.

Example whitespace_example : split_whitespace ("3000 3001" ++ newline) = ["3000"; "3001"].
Proof. vm_compute. reflexivity. Qed.
