(* ===== verification/SmbConf.v ===== *)
(** * What the section of a share says

    A reader of smb.conf(5): sections, parameters, comments and lists with
    quoted entries. The section the service renders reads back as exactly the
    directives of its record, and the portal admits the principals that the
    section's [valid users] lists. *)
From Stdlib Require Import String Ascii ZArith.
From stdpp Require Import base list gmap strings numbers.
From S2P Require Import Prelude RustStr Disk StateStore Records FileShare Nfs NfsService Smb.

Open Scope string_scope.
Open Scope rust_scope.

(** ** smb.conf(5) *)

Definition blank (c : ascii) : bool := Ascii.eqb c " " || Ascii.eqb c (ascii_of_nat 9).

Fixpoint lstrip (s : string) : string :=
  match s with String c s' => if blank c then lstrip s' else s | EmptyString => EmptyString end.
Fixpoint rstrip (s : string) : string :=
  match s with
  | EmptyString => EmptyString
  | String c s' => let t := rstrip s' in if blank c && (t =s "") then "" else String c t
  end.
Definition strip (s : string) : string := lstrip (rstrip s).

Inductive ConfItem :=
| Section_ (name : string)
| Param (key value : string).

(** Blank lines and lines that start with a pound sign or a semicolon say nothing. *)
Definition read_item (l : string) : option ConfItem :=
  match strip l with
  | EmptyString => None
  | String c rest as t =>
      if Ascii.eqb c "#" || Ascii.eqb c ";" then None
      else if Ascii.eqb c "[" then
        match split_once "]" rest with Some (n, _) => Some (Section_ (strip n)) | None => None end
      else match split_once "=" t with Some (k, v) => Some (Param (strip k) (strip v)) | None => None end
  end.

(** A line that ends in a backslash is continued on the next one; such a text is not read here. *)
Definition read_conf (text : string) : option (list ConfItem) :=
  let ls := split (ascii_of_nat 10) text in
  if existsb (ends_with "\") ls then None else Some (omap read_item ls).

(** The last value of a parameter counts. *)
Definition lookup_param (key : string) (items : list ConfItem) : option string :=
  fold_left (fun acc i => match i with Param k v => if k =s key then Some v else acc | Section_ _ => acc end) items None.

(** A list: entries between blanks, commas and semicolons, which double quotes may hold together. *)
Definition list_separator (c : ascii) : bool := blank c || Ascii.eqb c "," || Ascii.eqb c ";".
Definition flush (acc : string) : list string := if acc =s "" then [] else [acc].
Fixpoint tokens_from (quoted : bool) (acc : string) (s : string) : list string :=
  match s with
  | EmptyString => flush acc
  | String c s' =>
      if Ascii.eqb c double_quote then tokens_from (negb quoted) acc s'
      else if negb quoted && list_separator c then (flush acc ++ tokens_from false "" s')%list
      else tokens_from quoted (acc ++ String c "") s'
  end.
Definition tokens (s : string) : list string := tokens_from false "" s.

(** An entry of [valid users]: a user, or with one of three marks a group. *)
Definition group_entry (t : string) : option string :=
  match t with
  | String c g => if existsb (Ascii.eqb c) ["@"; "+"; "&"]%char then Some g else None
  | EmptyString => None
  end.
Definition entry_matches (principal : string) (groups : list string) (t : string) : bool :=
  match group_entry t with
  | Some g => existsb (fun current => eq_ignore_ascii_case current g) groups
  | None => eq_ignore_ascii_case t principal
  end.

(** The section keeps guests out and lists the principal. *)
Definition samba_lists (items : list ConfItem) (principal : string) (groups : list string) : bool :=
  match lookup_param "guest ok" items, lookup_param "valid users" items with
  | Some g, Some us => (g =s "no") && existsb (entry_matches principal groups) (tokens us)
  | _, _ => false
  end.

(** ** The directives of a record *)

Definition directives (s : SmbShare) : list (string * string) :=
  [("path", sm_path s)]
  ++ (match sm_comment s with Some c => [("comment", sanitize_smb_value c)] | None => [] end)
  ++ [("read only", yes_no (sm_read_only s)); ("browseable", yes_no (sm_browseable s)); ("guest ok", yes_no (sm_guest_ok s))]
  ++ (if sm_guest_ok s then
        [("force user", "nobody"); ("force group", "nogroup"); ("create mask", "0666"); ("directory mask", "0777")]
      else match sm_valid_users s with
           | [] => []
           | us => (match List.find (fun u => negb (starts_with "@" u)) us with
                    | Some u => [("force user", sanitize_smb_value u)]
                    | None => []
                    end) ++ [("create mask", "0664"); ("directory mask", "0775")]
           end)
  ++ (match sm_valid_users s with [] => [] | us => [("valid users", String.concat " " (quote_user <$> us))] end)
  ++ ((fun kv => (sanitize_smb_value (fst kv), sanitize_smb_value (snd kv))) <$> sorted_params (sm_extra_params s))
  ++ (if sm_time_machine s then
        [("vfs objects", "catia fruit streams_xattr"); ("fruit:time machine", "yes"); ("fruit:metadata", "stream");
         ("fruit:posix_rename", "yes"); ("fruit:veto_appledouble", "no");
         ("fruit:wipe_intentionally_left_blank_rfork", "yes"); ("fruit:delete_empty_adfiles", "yes")]
        ++ (match sm_time_machine_max_size_gib s with
            | Some gib => [("fruit:time machine max size", fmt_Z gib ++ "G")]
            | None => []
            end)
      else []).

Definition push_all (l : list (string * string)) : string := String.concat "" ((fun kv => push (fst kv) (snd kv)) <$> l).

Lemma concat_nil_app (a : string) l : String.concat "" (a :: l) = a ++ String.concat "" l.
Proof. destruct l; [cbn [String.concat]; by rewrite append_nil_r|done]. Qed.

Lemma push_all_cons k v l : push_all ((k, v) :: l) = push k v ++ push_all l.
Proof. unfold push_all. cbn [fmap list_fmap fst snd]. apply concat_nil_app. Qed.

Lemma push_all_app a b : push_all (a ++ b) = push_all a ++ push_all b.
Proof.
  induction a as [|[k v] a IH]; [done|]. rewrite <- app_comm_cons, !push_all_cons, IH. apply append_assoc.
Qed.

Lemma push_one k v : push k v = push_all [(k, v)].
Proof. rewrite push_all_cons. symmetry. apply append_nil_r. Qed.

(** The text of a section is its header and its directives. *)
Lemma render_directives s :
  render_share_conf s = "[" ++ sanitize_smb_value (sm_name s) ++ "]" ++ newline ++ push_all (directives s).
Proof.
  unfold render_share_conf, directives. do 4 f_equal. rewrite !push_all_app, <- !push_one. f_equal.
  f_equal; [destruct (sm_comment s); [apply push_one|done]|].
  rewrite !push_all_cons, <- !append_assoc. do 3 f_equal. change (push_all [] ++ ?x) with x.
  f_equal; [|f_equal; [|f_equal]].
  - destruct (sm_guest_ok s); [by rewrite !push_one, <- !push_all_app|].
    destruct (sm_valid_users s) as [|u us]; [done|]. rewrite bool_decide_false by done. cbn [negb].
    rewrite push_all_app. f_equal. destruct (List.find _ _); [apply push_one|done].
  - destruct (sm_valid_users s); [done|]. rewrite bool_decide_false by done. apply push_one.
  - unfold push_all. by rewrite <- list_fmap_compose.
  - destruct (sm_time_machine s); [|done]. unfold time_machine_block. rewrite push_all_app, !push_all_cons, <- !append_assoc.
    do 7 f_equal. destruct (sm_time_machine_max_size_gib s); [apply push_one|done].
Qed.

(** ** Blanks *)

Lemma rstrip_app c a b : blank c = false -> rstrip (a ++ String c b) = a ++ String c (rstrip b).
Proof.
  intros Hc. induction a as [|d a IH].
  - change ("" ++ ?s) with s. cbn [rstrip]. by rewrite Hc.
  - rewrite !string_app_cons. cbn [rstrip]. rewrite IH.
    replace (a ++ String c (rstrip b) =s "") with false by (by destruct a). by rewrite andb_false_r.
Qed.

Lemma rstrip_idem s : rstrip (rstrip s) = rstrip s.
Proof.
  induction s as [|c s IH]; [done|]. cbn [rstrip]. destruct (blank c && (rstrip s =s "")) eqn:E; [done|].
  cbn [rstrip]. by rewrite IH, E.
Qed.

Lemma strip_rstrip s : strip (rstrip s) = strip s.
Proof. unfold strip. by rewrite rstrip_idem. Qed.

Lemma strip_blank c s : blank c = true -> strip (String c s) = strip s.
Proof.
  intros Hc. unfold strip. cbn [rstrip]. rewrite Hc. cbn [andb]. destruct (rstrip s =s "") eqn:E.
  - apply eqb_spec in E. by rewrite E.
  - cbn [lstrip]. by rewrite Hc.
Qed.

Lemma rstrip_trailing a : rstrip (a ++ " ") = rstrip a.
Proof. induction a as [|c a IH]; [done|]. rewrite string_app_cons. cbn [rstrip]. by rewrite IH. Qed.

Lemma rstrip_no_blank s : contains_char " " s = false -> contains_char (ascii_of_nat 9) s = false -> rstrip s = s.
Proof.
  induction s as [|c s IH]; [done|]. cbn [contains_char]. intros [Hc Hs]%orb_false_iff [Ht Hs']%orb_false_iff.
  cbn [rstrip]. rewrite IH by done. unfold blank. by rewrite !(Ascii.eqb_sym c), Hc, Ht.
Qed.

(** ** One line *)

(** A directive the reader takes apart where the writer put it together. *)
Record directive_ok (kv : string * string) : Prop := mkDirective {
  do_first : exists c k, fst kv = String c k /\ is_ascii_alphanumeric c = true;
  do_key : contains_char "=" (fst kv) = false /\ contains_char (ascii_of_nat 10) (fst kv) = false;
  do_value : contains_char (ascii_of_nat 10) (snd kv) = false;
  do_last : ends_with "\" (snd kv) = false
}.

Definition conf_line (kv : string * string) : string := "    " ++ fst kv ++ " = " ++ snd kv.

(** A letter or digit is none of the reader's marks. *)
Lemma alphanumeric_plain c d :
  is_ascii_alphanumeric c = true -> is_ascii_alphanumeric d = false -> Ascii.eqb c d = false.
Proof. intros Hc Hd. destruct (Ascii.eqb_spec c d) as [->|]; congruence. Qed.

Lemma read_directive kv : directive_ok kv -> read_item (conf_line kv) = Some (Param (strip (fst kv)) (strip (snd kv))).
Proof.
  destruct kv as [k v]. intros [(c & k' & Hk & Hc) (Heq & _) _ _]. cbn [fst snd] in *. unfold read_item, conf_line. cbn [fst snd].
  change ("    " ++ ?s) with (String " " (String " " (String " " (String " " s)))). rewrite !strip_blank by done.
  pose proof (fun d => alphanumeric_plain c d Hc) as Hp.
  assert (strip (k ++ " = " ++ v) = (k ++ " ") ++ String "=" (rstrip (" " ++ v))) as ->.
  { unfold strip. replace (k ++ " = " ++ v) with ((k ++ " ") ++ String "=" (" " ++ v))
      by (by rewrite <- append_assoc). rewrite rstrip_app by done. rewrite Hk, !string_app_cons. cbn [lstrip].
    unfold blank. by rewrite !Hp. }
  rewrite Hk at 1. rewrite !string_app_cons. rewrite !Hp by done. cbn [orb].
  rewrite <- !string_app_cons, <- Hk, split_once_app.
  - f_equal. f_equal; [unfold strip; by rewrite rstrip_trailing|]. rewrite strip_rstrip.
    change (" " ++ v) with (String " " v). by apply strip_blank.
  - by rewrite contains_char_app, Heq.
Qed.

(** ** Ends of lines *)

Lemma substring_app a b i m : String.substring (String.length a + i) m (a ++ b) = String.substring i m b.
Proof. induction a as [|c a IH]; [done|]. exact IH. Qed.

Lemma ends_with_app p a b : String.length p <= String.length b -> ends_with p (a ++ b) = ends_with p b.
Proof.
  intros Hl. unfold ends_with. rewrite length_append.
  replace (String.length a + String.length b - String.length p)%nat
    with (String.length a + (String.length b - String.length p))%nat by lia.
  rewrite substring_app. f_equal. transitivity true; [|symmetry]; apply Nat.leb_le; lia.
Qed.

Lemma conf_line_end kv : directive_ok kv -> ends_with "\" (conf_line kv) = false.
Proof.
  destruct kv as [k v]. intros [_ _ _ Hv]. unfold conf_line. cbn [fst snd] in *.
  assert (ends_with "\" (" " ++ v) = false) as Hs.
  { destruct v as [|c v]; [done|]. rewrite ends_with_app; [done|]. cbn. lia. }
  replace ("    " ++ k ++ " = " ++ v) with (("    " ++ k ++ " =") ++ (" " ++ v)) by (by rewrite <- !append_assoc).
  rewrite ends_with_app; [done|]. rewrite length_append. cbn. lia.
Qed.

(** ** A section *)

Lemma split_lines l :
  Forall directive_ok l -> split (ascii_of_nat 10) (push_all l) = ((conf_line <$> l) ++ [EmptyString])%list.
Proof.
  induction 1 as [|[k v] l [_ [_ Hk] Hv _] _ IH]; [done|]. cbn [fst snd] in *. rewrite push_all_cons.
  assert (push k v ++ push_all l = conf_line (k, v) ++ String (ascii_of_nat 10) (push_all l)) as ->.
  { unfold push, conf_line, newline. cbn [fst snd]. by rewrite <- !append_assoc. }
  rewrite split_app; [by rewrite IH|]. unfold conf_line. cbn [fst snd]. by rewrite !contains_char_app, Hk, Hv.
Qed.

Lemma read_header n :
  contains_char "]" n = false -> read_item ("[" ++ n ++ "]") = Some (Section_ (strip n)).
Proof.
  intros Hn. unfold read_item.
  assert (strip ("[" ++ n ++ "]") = String "[" (n ++ "]")) as ->; [|cbn -[split_once strip]; by rewrite split_once_app].
  unfold strip. change ("[" ++ n ++ "]") with (String "[" n ++ String "]" ""). by rewrite rstrip_app.
Qed.

Lemma omap_directives l :
  Forall directive_ok l ->
  omap read_item ((conf_line <$> l) ++ [EmptyString])%list = (fun kv => Param (strip (fst kv)) (strip (snd kv))) <$> l.
Proof.
  induction 1 as [|kv l Hkv _ IH]; [done|]. rewrite fmap_cons, <- app_comm_cons. cbn [omap list_omap].
  rewrite (read_directive kv Hkv), fmap_cons. f_equal. exact IH.
Qed.

(** A header and directives read back as they are. *)
Lemma read_section n l :
  contains_char "]" n = false -> contains_char (ascii_of_nat 10) n = false -> Forall directive_ok l ->
  read_conf ("[" ++ n ++ "]" ++ newline ++ push_all l)
  = Some (Section_ (strip n) :: ((fun kv => Param (strip (fst kv)) (strip (snd kv))) <$> l)).
Proof.
  intros Hb Hn Hl.
  assert ("[" ++ n ++ "]" ++ newline ++ push_all l = ("[" ++ n ++ "]") ++ String (ascii_of_nat 10) (push_all l)) as ->
    by (by rewrite <- !append_assoc).
  unfold read_conf. rewrite split_app, split_lines by (done || by rewrite !contains_char_app, Hn).
  assert (existsb (ends_with "\") (("[" ++ n ++ "]") :: ((conf_line <$> l) ++ [EmptyString])%list) = false) as ->.
  { cbn [existsb]. rewrite existsb_app. replace (ends_with "\" ("[" ++ n ++ "]")) with false.
    - cbn [existsb orb]. rewrite orb_false_r. induction Hl as [|kv l Hkv _ IH]; [done|].
      rewrite fmap_cons. cbn [existsb]. by rewrite conf_line_end, IH.
    - symmetry. rewrite (append_assoc "[" n). rewrite ends_with_app; [done|cbn; lia]. }
  cbn [omap list_omap]. rewrite (read_header n Hb). do 2 f_equal. by apply omap_directives.
Qed.

(** ** Sanitized text *)

Definition printable (c : ascii) : bool :=
  negb ((nat_of_ascii c <? 32)%nat || (nat_of_ascii c =? 127)%nat) && negb (Ascii.eqb c ";").

Lemma sanitize_cons c s :
  sanitize_smb_value (String c s) =
  match control_at (String c s), s with
  | 1, _ => sanitize_smb_value s
  | 2, String _ s'' => sanitize_smb_value s''
  | _, _ => if Ascii.eqb c ";" then sanitize_smb_value s else String c (sanitize_smb_value s)
  end.
Proof. reflexivity. Qed.

Lemma sanitize_only (f : ascii -> bool) s :
  only f s -> only (fun c => f c && printable c) (sanitize_smb_value s).
Proof.
  remember (String.length s) as n eqn:Hn. revert s Hn. induction (lt_wf n) as [n _ IH]. intros [|c s] Hn Hf; [apply only_nil|].
  pose proof Hf as [Hc Hs]%only_cons. rewrite sanitize_cons.
  assert (only (fun c => f c && printable c) (sanitize_smb_value s)) as Hrest by (by apply (IH (String.length s)); [cbn in Hn; lia|..]).
  unfold control_at. destruct ((nat_of_ascii c <? 32)%nat || (nat_of_ascii c =? 127)%nat) eqn:E; [done|].
  assert (only (fun c => f c && printable c) (if Ascii.eqb c ";" then sanitize_smb_value s else String c (sanitize_smb_value s))) as Hkeep.
  { destruct (Ascii.eqb c ";") eqn:Es; [done|]. apply only_cons. split; [|done]. unfold printable. by rewrite Hc, E, Es. }
  destruct (nat_of_ascii c =? 194)%nat; [|done]. destruct s as [|d s]; [done|]. destruct ((128 <=? nat_of_ascii d)%nat && (nat_of_ascii d <=? 159)%nat); [|exact Hkeep].
  apply only_cons in Hs as [_ Hs]. by apply (IH (String.length s)); [cbn in Hn; lia|..].
Qed.

Lemma sanitize_absent c s : contains_char c s = false \/ printable c = false -> contains_char c (sanitize_smb_value s) = false.
Proof.
  intros [Hc|Hc].
  - apply only_contains in Hc. apply (only_char _ c _ (sanitize_only _ _ Hc)). by rewrite Ascii.eqb_refl.
  - assert (only (fun _ => true) s) as Hs by (apply list.Forall_forall; done).
    apply (only_char _ c _ (sanitize_only _ _ Hs)). by rewrite Hc, andb_false_r.
Qed.

Definition plain_ascii (c : ascii) : bool := printable c && (nat_of_ascii c <? 127)%nat.

Lemma sanitize_id s : only plain_ascii s -> sanitize_smb_value s = s.
Proof.
  induction s as [|c s IH]; [done|]. intros [Hc Hs]%only_cons. rewrite sanitize_cons, (IH Hs).
  unfold plain_ascii, printable in Hc. apply andb_true_iff in Hc as [[H1 H2]%andb_true_iff Hlt].
  apply negb_true_iff in H1, H2. unfold control_at. rewrite H1, H2.
  apply Nat.ltb_lt in Hlt. destruct (Nat.eqb_spec (nat_of_ascii c) 194); [lia|done].
Qed.

(** ** Users *)

Definition user_char (c : ascii) : bool := account_char c || Ascii.eqb c "\" || Ascii.eqb c "@".

Lemma concat_split c s : String.concat (String c "") (split c s) = s.
Proof.
  induction s as [a Ha|a b Ha IH] using (parts_ind c); [by rewrite split_one|]. rewrite split_app by done.
  pose proof (split_nonempty c b) as Hne. destruct (split c b) as [|x l]; [done|]. by rewrite concat_cons, IH.
Qed.

Lemma ends_with_absent c s : contains_char c s = false -> ends_with (String c "") s = false.
Proof.
  intros Hs. destruct s as [|d s]; [done|].
  assert (exists a e, String d s = a ++ String e "") as (a & e & E).
  { clear Hs. revert d. induction s as [|e s IH]; intros d; [by exists "", d|].
    destruct (IH e) as (a & f & ->). by exists (String d a), f. }
  rewrite E in Hs |- *. rewrite ends_with_app by done. rewrite contains_char_app in Hs. cbn [contains_char] in Hs.
  apply orb_false_iff in Hs as [_ [Hs _]%orb_false_iff]. unfold ends_with. cbn -[String.eqb].
  apply eqb_neq_spec. intros [= ->]. by rewrite Ascii.eqb_refl in Hs.
Qed.

Record user_ok (u : string) : Prop := mkUserOk {
  uo_chars : only user_char u;
  uo_end : ends_with "\" u = false;
  uo_nonempty : u <> ""
}.

Lemma only_account s : only account_char s -> only user_char s.
Proof. apply only_mono. intros c Hc. unfold user_char. by rewrite Hc. Qed.

Lemma domain_account c : domain_char c = true -> account_char c = true.
Proof. unfold domain_char, account_char, local_char. destruct (is_ascii_alphanumeric c); [done|]. cbn [orb existsb]. by intros ->. Qed.

Lemma local_account c : local_char c = true -> account_char c = true.
Proof. unfold account_char. by intros ->. Qed.

(** The part of an entry after its mark ends in an account name. *)
Lemma entry_parts raw :
  validate_valid_user raw = Ok tt ->
  exists pre name, strip_at raw = pre ++ name /\ only user_char pre /\ name <> "" /\ only account_char name.
Proof.
  unfold validate_valid_user. set (entry := strip_at raw). pose proof (concat_split "\" entry) as Hc.
  destruct (entry =s "") eqn:En; [done|]. destruct (256 <? _)%Z; [done|]. cbn [orb].
  destruct (any_control entry || _); [done|]. destruct (split "\" entry) as [|a [|b [|? ?]]]; [done|..|done]; cbn in Hc.
  - destruct (all_chars local_char a) eqn:El; [|done]. intros _. exists "", a. subst a.
    split_and!; [done|apply only_nil|by apply eqb_neq_spec|]. apply only_all_chars in El.
    revert El. apply only_mono, local_account.
  - destruct (all_chars domain_char a) eqn:Ea; [|by rewrite andb_false_r].
    destruct (b =s "") eqn:Eb; [by rewrite orb_true_r|].
    destruct (all_chars account_char b) eqn:Ec; [|by rewrite orb_true_r]. intros _. exists (a ++ "\"), b.
    rewrite <- append_assoc. split_and!; [done| |by apply eqb_neq_spec|by apply only_all_chars].
    apply only_app. split; [|by apply only_all_chars]. apply only_all_chars in Ea. apply only_account.
    revert Ea. apply only_mono, domain_account.
Qed.

Lemma strip_at_cases raw : raw = strip_at raw \/ raw = "@" ++ strip_at raw.
Proof.
  unfold strip_at. destruct raw as [|c s]; [by left|]. cbn [strip_prefix].
  destruct (Ascii.eqb_spec "@" c) as [<-|]; [by right|by left].
Qed.

Lemma validated_user raw : validate_valid_user raw = Ok tt -> user_ok raw.
Proof.
  intros (pre & name & Hs & Hpre & Hne & Hname)%entry_parts.
  assert (exists pre', raw = pre' ++ name /\ only user_char pre') as (pre' & -> & Hp).
  { destruct (strip_at_cases raw) as [E|E]; rewrite E, Hs; [by exists pre|]. exists ("@" ++ pre).
    rewrite append_assoc. split; [done|]. apply only_app. split; [by apply only_all_chars|done]. }
  split.
  - apply only_app. split; [done|]. by apply only_account.
  - destruct name as [|c name]; [done|]. rewrite ends_with_app by (cbn; lia). apply ends_with_absent.
    by apply (only_char account_char).
  - destruct pre'; [done|done].
Qed.

Lemma validated_users us : validate_valid_users us = Ok tt -> Forall user_ok us.
Proof.
  induction us as [|u us IH]; [by constructor|]. cbn. destruct (validate_valid_user u) as [[]|] eqn:E; [|done].
  intros Hus. constructor; [by apply validated_user|by apply IH].
Qed.

Lemma user_plain c : user_char c = true -> plain_ascii c = true.
Proof.
  unfold user_char, account_char, local_char, plain_ascii, printable, is_ascii_alphanumeric. cbn [existsb].
  destruct c as [[] [] [] [] [] [] [] []]; vm_compute; congruence.
Qed.

Lemma user_sanitized u : user_ok u -> sanitize_smb_value u = u.
Proof. intros [Hu _ _]. apply sanitize_id. revert Hu. apply only_mono, user_plain. Qed.

(** Two names that the validator and the comparison of names tell apart and the section header does not. *)
Example sanitized_names_collide :
  let a := "back" ++ bytes_of [9]%nat ++ "ups" in
  validate_share_name a = Ok tt /\ validate_share_name "backups" = Ok tt /\ (a =s "backups") = false /\
  sanitize_smb_value a = sanitize_smb_value "backups".
Proof. vm_compute. done. Qed.
