(* ===== verification/SmbPortal.v ===== *)
(** * The portal and the section agree

    The list of users a section carries reads back as the record's, so that the
    portal's own policy, [share_allows_principal], and Samba's reading of the
    section admit the same principals. *)
From Stdlib Require Import String Ascii ZArith.
From stdpp Require Import base list gmap strings numbers.
From S2P Require Import Prelude RustStr Disk StateStore Records FileShare Nfs NfsService Smb SmbConf.

Open Scope string_scope.
Open Scope rust_scope.

(** ** Lists of users *)

Lemma tokens_plain u acc s :
  contains_char double_quote u = false -> (forall c, list_separator c = true -> contains_char c u = false) ->
  tokens_from false acc (u ++ s) = tokens_from false (acc ++ u) s.
Proof.
  revert acc. induction u as [|c u IH]; intros acc Hq Hs; [by rewrite append_nil_r|].
  cbn [contains_char] in Hq. apply orb_false_iff in Hq as [Hc Hq]. rewrite string_app_cons. cbn [tokens_from].
  rewrite Ascii.eqb_sym in Hc. rewrite Hc. cbn [negb andb]. destruct (list_separator c) eqn:Ec.
  - specialize (Hs c Ec). cbn in Hs. by rewrite Ascii.eqb_refl in Hs.
  - rewrite IH; [by rewrite <- append_assoc|done|]. intros d Hd. specialize (Hs d Hd). cbn in Hs.
    by apply orb_false_iff in Hs as [_ Hs].
Qed.

Lemma tokens_quoted u acc s :
  contains_char double_quote u = false -> tokens_from true acc (u ++ s) = tokens_from true (acc ++ u) s.
Proof.
  revert acc. induction u as [|c u IH]; intros acc Hq; [by rewrite append_nil_r|].
  cbn [contains_char] in Hq. apply orb_false_iff in Hq as [Hc Hq]. rewrite string_app_cons. cbn [tokens_from].
  rewrite Ascii.eqb_sym in Hc. rewrite Hc. cbn [negb andb]. rewrite IH by done. by rewrite <- append_assoc.
Qed.

Lemma user_separator u c :
  user_ok u -> list_separator c = true -> Ascii.eqb c " " = false -> contains_char c u = false.
Proof.
  intros [Hu _ _] Hc Hn. apply (only_char user_char _ _ Hu). revert Hc Hn.
  unfold list_separator, blank. intros [[[E|E%Ascii.eqb_eq]%orb_true_iff|E%Ascii.eqb_eq]%orb_true_iff|E%Ascii.eqb_eq]%orb_true_iff;
    [congruence|by subst c..].
Qed.

Lemma user_no_quote u : user_ok u -> contains_char double_quote u = false.
Proof. intros [Hu _ _]. by apply (only_char user_char _ _ Hu). Qed.

(** One entry, bare or quoted. *)
Lemma tokens_entry u s : user_ok u -> tokens_from false "" (quote_user u ++ s) = tokens_from false u s.
Proof.
  intros Hu. unfold quote_user. rewrite user_sanitized by done. pose proof (user_no_quote u Hu) as Hq.
  destruct (contains_char " " u) eqn:Es.
  - rewrite <- !append_assoc. change (quote ++ ?x) with (String double_quote x). cbn [tokens_from].
    rewrite Ascii.eqb_refl. cbn [negb]. rewrite tokens_quoted by done.
    change (quote ++ s) with (String double_quote s). cbn [tokens_from]. by rewrite Ascii.eqb_refl.
  - apply tokens_plain; [done|]. intros c Hc. destruct (Ascii.eqb_spec c " ") as [->|Hn]; [done|].
    apply user_separator; [done|done|]. by destruct (Ascii.eqb_spec c " ").
Qed.

Lemma tokens_users us : Forall user_ok us -> tokens (String.concat " " (quote_user <$> us)) = us.
Proof.
  unfold tokens. induction 1 as [|u us Hu Hus IH]; [done|].
  assert (flush u = [u]) as Hf. { unfold flush. pose proof (uo_nonempty u Hu) as Hne. apply eqb_neq_spec in Hne. by rewrite Hne. }
  destruct us as [|v us].
  - cbn. rewrite <- (append_nil_r (quote_user u)), tokens_entry by done. exact Hf.
  - rewrite !fmap_cons, concat_cons, tokens_entry, <- fmap_cons by done. change (" " ++ ?x) with (String " " x).
    cbn [tokens_from]. change (Ascii.eqb " " double_quote) with false. cbn [negb andb]. change (list_separator " ") with true.
    cbn iota. by rewrite IH, Hf.
Qed.

(** ** The value is not trimmed *)

Definition solid (w : string) : Prop := (exists c w', w = String c w' /\ blank c = false) /\ rstrip w = w.

Lemma solid_concat l : l <> [] -> Forall solid l -> strip (String.concat " " l) = String.concat " " l.
Proof.
  intros Hne Hl. assert (solid (String.concat " " l)) as [(c & w & E & Hc) Hr]; [|unfold strip; rewrite Hr, E; cbn; by rewrite Hc].
  induction Hl as [|a l Ha Hl IH]; [done|]. destruct l as [|b l]; [done|]. rewrite concat_cons.
  specialize (IH ltac:(done)). destruct IH as [(c & w & E & Hc) Hr]. destruct Ha as [(ca & wa & -> & Hca) _].
  split; [eexists ca, _; by rewrite string_app_cons|]. rewrite append_assoc, E.
  rewrite rstrip_app by done. f_equal. rewrite <- E, <- Hr, E. cbn [rstrip]. by rewrite Hc.
Qed.

Lemma solid_user u : user_ok u -> solid (quote_user u).
Proof.
  intros Hu. unfold quote_user. rewrite user_sanitized by done. destruct (contains_char " " u) eqn:Es.
  - split; [eexists double_quote, _; done|]. change quote with (String double_quote "").
    rewrite append_assoc, rstrip_app by done. done.
  - pose proof (user_separator u (ascii_of_nat 9) Hu eq_refl eq_refl) as Ht. split; [|by apply rstrip_no_blank].
    pose proof (uo_nonempty u Hu). destruct u as [|c u]; [done|]. exists c, u. split; [done|].
    cbn [contains_char] in Es, Ht. apply orb_false_iff in Es as [E1 _], Ht as [E2 _]. unfold blank.
    rewrite !(Ascii.eqb_sym c). by rewrite E1, E2.
Qed.

(** ** The directives of a valid record *)

Record share_ok (s : SmbShare) : Prop := mkShareOk {
  so_name : validate_share_name (sm_name s) = Ok tt;
  so_path : validate_share_path (sm_path s) = Ok tt;
  so_users : validate_valid_users (sm_valid_users s) = Ok tt;
  so_cap : match sm_time_machine_max_size_gib s with Some n => (0 < n)%Z | None => True end
}.

(** No line ends in a backslash, and raw parameters are keys and values. *)
Record plain_conf (s : SmbShare) : Prop := mkPlainConf {
  pc_path : ends_with "\" (sm_path s) = false;
  pc_comment : match sm_comment s with Some c => ends_with "\" (sanitize_smb_value c) = false | None => True end;
  pc_extra : Forall (fun kv => directive_ok (sanitize_smb_value (fst kv), sanitize_smb_value (snd kv)))
               (sorted_params (sm_extra_params s))
}.

Definition fixed_directive (kv : string * string) : bool :=
  match fst kv with String c _ => is_ascii_alphanumeric c | EmptyString => false end
  && negb (contains_char "=" (fst kv)) && negb (contains_char (ascii_of_nat 10) (fst kv))
  && negb (contains_char (ascii_of_nat 10) (snd kv)) && negb (ends_with "\" (snd kv)).

Lemma fixed_ok kv : fixed_directive kv = true -> directive_ok kv.
Proof.
  unfold fixed_directive. intros [[[[H1 H2]%andb_true_iff H3]%andb_true_iff H4]%andb_true_iff H5]%andb_true_iff.
  apply negb_true_iff in H2, H3, H4, H5. split; [|done..]. destruct (fst kv) as [|c k]; [done|]. by exists c, k.
Qed.

Lemma fixed_all l : forallb fixed_directive l = true -> Forall directive_ok l.
Proof. intros Hl. apply list.Forall_forall. intros kv Hkv. apply fixed_ok. rewrite forallb_forall in Hl. by apply Hl, list_elem_of_In. Qed.

(** A fixed key with any value of one line. *)
Lemma keyed_ok k v :
  fixed_directive (k, "") = true -> contains_char (ascii_of_nat 10) v = false -> ends_with "\" v = false -> directive_ok (k, v).
Proof. intros [Hf Hk _ _]%fixed_ok Hn He. by split. Qed.

Lemma users_line us :
  us <> [] -> Forall user_ok us ->
  contains_char (ascii_of_nat 10) (String.concat " " (quote_user <$> us)) = false /\
  ends_with "\" (String.concat " " (quote_user <$> us)) = false.
Proof.
  intros Hne Hus. split.
  - apply concat_absent; [done|]. apply Forall_fmap. apply (list.Forall_impl _ _ _ Hus). intros u Hu. cbn.
    unfold quote_user. rewrite user_sanitized by done.
    pose proof (only_char user_char (ascii_of_nat 10) u (uo_chars u Hu) eq_refl) as Hn.
    case_match; [|done]. by rewrite !contains_char_app, Hn.
  - induction Hus as [|u us Hu Hus IH]; [done|]. destruct us as [|v us].
    + cbn. unfold quote_user. rewrite user_sanitized by done. case_match; [|apply Hu].
      rewrite append_assoc, ends_with_app by done. done.
    + rewrite !fmap_cons, concat_cons, <- fmap_cons. specialize (IH ltac:(done)).
      rewrite append_assoc, ends_with_app; [done|]. destruct (String.concat " " (quote_user <$> v :: us)) eqn:E; [|cbn; lia].
      pose proof (tokens_users (v :: us) Hus) as Ht. by rewrite E in Ht.
Qed.

Lemma share_path_line s : share_ok s -> contains_char (ascii_of_nat 10) (sm_path s) = false.
Proof.
  intros [_ Hp _ _]. revert Hp. unfold validate_share_path. destruct (sm_path s =s ""); [done|].
  destruct (contains_any _ _) eqn:E; [done|]. intros _. apply (contains_any_elem _ _ _ E). by left.
Qed.

Lemma directives_ok s : share_ok s -> plain_conf s -> Forall directive_ok (directives s).
Proof.
  intros Hs [Hp Hc He]. pose proof (validated_users _ (so_users s Hs)) as Hus. unfold directives.
  repeat apply list.Forall_app_2.
  - apply Forall_singleton. apply keyed_ok; [done| |done]. by apply share_path_line.
  - destruct (sm_comment s) as [c|]; [|constructor]. apply Forall_singleton. apply keyed_ok; [done| |done].
    apply sanitize_absent. by right.
  - apply fixed_all. by destruct (sm_read_only s), (sm_browseable s), (sm_guest_ok s).
  - destruct (sm_guest_ok s); [by apply fixed_all|]. destruct (sm_valid_users s) as [|u us]; [constructor|].
    apply list.Forall_app_2; [|by apply fixed_all]. destruct (List.find _ (u :: us)) as [x|] eqn:Ef; [|constructor].
    apply find_some in Ef as [Hx%list_elem_of_In _]. eapply list.Forall_forall in Hus; [|exact Hx].
    apply Forall_singleton. apply keyed_ok; [done|apply sanitize_absent; by right|]. rewrite user_sanitized by done. apply Hus.
  - destruct (sm_valid_users s) as [|u us]; [constructor|]. apply Forall_singleton.
    destruct (users_line (u :: us)) as [Hn Hl]; [done|done|]. by apply keyed_ok.
  - by apply Forall_fmap.
  - destruct (sm_time_machine s); [|constructor]. apply list.Forall_app_2; [by apply fixed_all|].
    pose proof (so_cap s Hs) as Hcap. destruct (sm_time_machine_max_size_gib s) as [gib|]; [|constructor].
    apply Forall_singleton. apply keyed_ok; [done|..|by rewrite ends_with_app].
    rewrite contains_char_app. by rewrite (only_char is_digit (ascii_of_nat 10) _ (only_fmt_Z gib ltac:(lia))).
Qed.

(** The items of a section. *)
Definition section_items (s : SmbShare) : list ConfItem :=
  Section_ (strip (sanitize_smb_value (sm_name s)))
  :: ((fun kv => Param (strip (fst kv)) (strip (snd kv))) <$> directives s).

Definition is_param (i : ConfItem) : Prop := match i with Param _ _ => True | Section_ _ => False end.

(** The section of a record reads back as its directives, and nothing else. *)
Lemma section_reads s : share_ok s -> plain_conf s -> read_conf (render_share_conf s) = Some (section_items s).
Proof.
  intros Hs Hp. rewrite render_directives. apply read_section; [..|by apply directives_ok].
  - apply sanitize_absent. left. pose proof (so_name s Hs) as Hn. revert Hn. unfold validate_share_name.
    destruct (contains_any _ (sm_name s)) eqn:E; [by rewrite !orb_true_r|]. intros _.
    apply (contains_any_elem _ _ _ E). apply list_elem_of_In. vm_compute. tauto.
  - apply sanitize_absent. by right.
Qed.

(** ** Parameters *)

Definition without (key : string) (l : list (string * string)) : bool :=
  forallb (fun kv => negb (strip (fst kv) =s key)) l.

Lemma lookup_skip key l acc :
  without key l = true ->
  fold_left (fun acc i => match i with Param k v => if k =s key then Some v else acc | Section_ _ => acc end)
    ((fun kv => Param (strip (fst kv)) (strip (snd kv))) <$> l) acc = acc.
Proof.
  revert acc. induction l as [|kv l IH]; intros acc; [done|]. unfold without. cbn [forallb].
  intros [Hk Hl]%andb_true_iff. cbn [fmap list_fmap fold_left]. apply negb_true_iff in Hk. rewrite Hk. by apply IH.
Qed.

Lemma lookup_last s key k v pre post :
  directives s = (pre ++ (k, v) :: post)%list -> strip k = key -> without key post = true ->
  lookup_param key (section_items s) = Some (strip v).
Proof.
  intros Hd Hk Hp. unfold lookup_param, section_items. rewrite Hd. cbn [fold_left].
  rewrite fmap_app, fold_left_app, fmap_cons. cbn [fold_left fst snd]. rewrite Hk, eqb_refl. by apply lookup_skip.
Qed.

Lemma lookup_absent s key : without key (directives s) = true -> lookup_param key (section_items s) = None.
Proof. intros Hd. unfold lookup_param, section_items. cbn [fold_left]. by apply lookup_skip. Qed.

Lemma without_app key a b : without key (a ++ b) = without key a && without key b.
Proof. apply forallb_app. Qed.

Lemma app_four {X} (a b c d e : list X) : (a ++ b ++ c ++ d ++ e = (a ++ b ++ c ++ d) ++ e)%list.
Proof. by rewrite <- !app_assoc. Qed.

Section Parameters.
Context (s : SmbShare) (no_extra : sm_extra_params s = ∅).

Local Lemma extras_none : sorted_params (sm_extra_params s) = [].
Proof. rewrite no_extra. unfold sorted_params. by rewrite map_to_list_empty. Qed.

Local Ltac segments :=
  rewrite ?without_app, ?extras_none; cbn [fmap list_fmap];
  repeat match goal with
  | |- context [sm_comment s] => destruct (sm_comment s)
  | |- context [if sm_guest_ok s then _ else _] => destruct (sm_guest_ok s)
  | |- context [match sm_valid_users s with _ => _ end] => destruct (sm_valid_users s)
  | |- context [List.find ?f ?l] => destruct (List.find f l)
  | |- context [if sm_time_machine s then _ else _] => destruct (sm_time_machine s)
  | |- context [sm_time_machine_max_size_gib s] => destruct (sm_time_machine_max_size_gib s)
  end; reflexivity.

Lemma path_param : lookup_param "path" (section_items s) = Some (strip (sm_path s)).
Proof. eapply (lookup_last s "path" "path" _ []); [reflexivity|reflexivity|]. segments. Qed.

Lemma guest_param : lookup_param "guest ok" (section_items s) = Some (yes_no (sm_guest_ok s)).
Proof.
  replace (yes_no (sm_guest_ok s)) with (strip (yes_no (sm_guest_ok s))) by (by destruct (sm_guest_ok s)).
  eapply (lookup_last s "guest ok" "guest ok" _
    (("path", sm_path s) :: (match sm_comment s with Some c => [("comment", sanitize_smb_value c)] | None => [] end)
     ++ [("read only", yes_no (sm_read_only s)); ("browseable", yes_no (sm_browseable s))]));
    [unfold directives; destruct (sm_comment s); reflexivity|reflexivity|]. segments.
Qed.

Lemma users_param us :
  sm_valid_users s = us -> us <> [] -> Forall user_ok us ->
  lookup_param "valid users" (section_items s) = Some (String.concat " " (quote_user <$> us)).
Proof.
  intros Hus Hne Hok. rewrite <- (solid_concat (quote_user <$> us)); [|by destruct us|].
  - destruct us as [|u us]; [done|]. eapply (lookup_last s "valid users" "valid users").
    + unfold directives. rewrite Hus. etransitivity; [apply app_four|reflexivity].
    + reflexivity.
    + segments.
  - apply Forall_fmap. apply (list.Forall_impl _ _ _ Hok), solid_user.
Qed.

Lemma no_users_param : sm_valid_users s = [] -> lookup_param "valid users" (section_items s) = None.
Proof. intros Hus. apply lookup_absent. unfold directives. rewrite Hus. segments. Qed.

End Parameters.

(** ** Admission *)

(** A validated entry has one mark at most. *)
Lemma group_entry_at u : user_ok u -> group_entry u = strip_prefix "@" u.
Proof.
  intros [Hu _ Hne]. destruct u as [|c u]; [done|]. apply only_cons in Hu as [Hc _]. cbn [group_entry strip_prefix existsb].
  rewrite (Ascii.eqb_sym "@" c). destruct (Ascii.eqb_spec c "@") as [->|]; [done|].
  destruct (Ascii.eqb_spec c "+") as [->|]; [done|]. by destruct (Ascii.eqb_spec c "&") as [->|].
Qed.

Lemma existsb_congr {A} (f g : A -> bool) (l : list A) : (forall a, a ∈ l -> f a = g a) -> existsb f l = existsb g l.
Proof.
  induction l as [|a l IH]; [done|]. intros Hfg. cbn. rewrite Hfg by (by left). f_equal. apply IH. intros b Hb. apply Hfg. by right.
Qed.

(** C18: for an enabled share without raw Samba parameters, the portal and Samba agree. The text the service
    renders for the record, read by the rules of smb.conf(5), is one section header with the record's name
    (without control characters and outer blanks) and parameters below it, and no second header; its path is the record's
    path without outer blanks; and the portal's policy admits a
    principal with its groups exactly when that section keeps guests out and its list of valid users names the
    principal or one of its groups: quoting keeps an entry with a space whole, no entry, name or comment adds a line,
    and no entry can pass for another. Assumed: the record passed the validators, and neither its path nor its comment
    ends in a backslash. The validators let such an ending through, and smb.conf(5) then joins the next line to it. *)
Theorem portal_agrees_with_section s principal groups :
  share_ok s -> plain_conf s -> sm_enabled s = true -> sm_extra_params s = ∅ ->
  exists params, let items := Section_ (strip (sanitize_smb_value (sm_name s))) :: params in
    read_conf (render_share_conf s) = Some items /\ Forall is_param params /\
    lookup_param "path" items = Some (strip (sm_path s)) /\
    share_allows_principal s principal groups = samba_lists items principal groups.
Proof.
  intros Hs Hp He Hx. exists (tail (section_items s)). change (Section_ _ :: tail _) with (section_items s). cbv zeta.
  split_and!; [by apply section_reads|by apply Forall_fmap, list.Forall_forall|by apply path_param|].
  unfold share_allows_principal, samba_lists. rewrite He, (guest_param s Hx), (bool_decide_true _ Hx). cbn [negb orb].
  pose proof (validated_users _ (so_users s Hs)) as Hus. rewrite orb_false_r.
  destruct (decide (sm_valid_users s = [])) as [Hn|Hn].
  { rewrite (no_users_param s Hx Hn), (bool_decide_true _ Hn). by rewrite orb_true_r. }
  rewrite (users_param s Hx _ eq_refl Hn Hus), (bool_decide_false _ Hn), orb_false_r, (tokens_users _ Hus).
  destruct (sm_guest_ok s); [done|]. cbn [yes_no andb]. change ("no" =s "no") with true. cbn [andb].
  apply existsb_congr. intros u Hu. eapply list.Forall_forall in Hus; [|exact Hu].
  unfold entry_matches. by rewrite group_entry_at.
Qed.
