(* ===== verification/SmbInv.v ===== *)
(** * The sections follow the records

    An operation of the SMB service that reports success leaves a section for
    exactly the enabled shares, each reading back as its record, an include
    line for each of them, and only records that passed the validators, provided
    that files it removes go away and directories can be listed. *)
From Stdlib Require Import String Ascii ZArith.
From stdpp Require Import base list gmap strings numbers.
From S2P Require Import Prelude RustStr Disk StateStore Records FileShare Nfs NfsService Smb SmbService SmbConf SmbPortal.

Open Scope string_scope.
Open Scope rust_scope.

Lemma share_conf_eq id : contains_char "/" id = false -> share_conf id = (share_dir ++ [(id ++ ".conf")%string])%list.
Proof.
  intros Hid. assert (contains_char "/" (id ++ ".conf") = false) as Hn by (by rewrite contains_char_app, Hid).
  unfold share_conf, components. set (n := id ++ ".conf") in *.
  change (share_conf_path id) with ("" ++ String "/" ("etc" ++ String "/" ("samba" ++ String "/" ("nasty.d" ++ String "/" n)))).
  rewrite !split_app, split_one by done.
  assert (n <> "" /\ n <> ".") as [H1 H2].
  { subst n. split; intros E; apply (f_equal String.length) in E; rewrite length_append in E; cbn in E; lia. }
  cbn [List.filter]. apply eqb_neq_spec in H1, H2. rewrite H1, H2. reflexivity.
Qed.

Lemma conf_away i n : valid_id i -> share_conf i <> (dir smb_state_dir ++ [n])%list.
Proof. intros [Hi _]. by rewrite share_conf_eq. Qed.

Lemma conf_inj i j : valid_id i -> valid_id j -> share_conf i = share_conf j -> i = j.
Proof. intros [Hi _] [Hj _]. rewrite !share_conf_eq by done. intros [_ E]%app_inj_tail. by apply append_inj_r in E. Qed.

Lemma other_paths q :
  q ∈ [list_path; avahi_path] -> (forall n, q <> (dir smb_state_dir ++ [n])%list) /\ (forall i, valid_id i -> q <> share_conf i).
Proof.
  intros Hq. repeat (apply elem_of_cons in Hq as [->|Hq]); [..|by apply elem_of_nil in Hq];
    (split; [done|]; intros i [Hi _]; by rewrite share_conf_eq).
Qed.

Inductive SmbOp :=
| SmbCreate (uuid : string) (req : CreateSmbShareRequest)
| SmbUpdate (req : UpdateSmbShareRequest)
| SmbDelete (id : string).

Definition smb_target (op : SmbOp) : string :=
  match op with SmbCreate uuid _ => uuid | SmbUpdate req => us_id req | SmbDelete id => id end.

(** A record that passed the validators. *)
Definition record_ok (s : SmbShare) : Prop := share_ok s /\ validate_time_machine s = Ok tt.

Section Service.
Context `{!Codec SmbShare} `{!CodecLaws SmbShare} `{!ShareTree}.
Implicit Types (d : Disk) (w : FileWorld) (s : SmbShare) (id : string).

Definition exec_smb (op : SmbOp) : M FileWorld SmbError unit :=
  match op with
  | SmbCreate uuid req => smb_create uuid req ;;; ret tt
  | SmbUpdate req => smb_update req ;;; ret tt
  | SmbDelete id => smb_delete id
  end.

(** What the section of a record says. *)
Definition smb_says s (text : string) : Prop := share_ok s -> plain_conf s -> read_conf text = Some (section_items s).

Abbreviation step_of := (in_step smb_state_dir share_conf sm_enabled smb_says).
Abbreviation files := (files_ok (T := SmbShare) smb_state_dir share_conf).
Abbreviation about_smb := (about (T := SmbShare) smb_state_dir share_conf).

(** The list of includes has a line for every section, and only for files that are there. *)
Definition listed d : Prop :=
  exists f names, d !! list_path = Some f /\ f_content f = render_include_list names /\
    forall n, n ∈ names <-> exists raw, is_Some (d !! (share_dir ++ [raw])%list) /\ n = from_utf8_lossy raw /\ ends_with ".conf" n = true.

(** The two other files are no links. *)
Definition plain_files d : Prop := forall q f, q ∈ [list_path; avahi_path] -> d !! q = Some f -> is_regular f = true.

Definition records_ok d : Prop := forall id s, valid_id id -> stored smb_state_dir d id = Some s -> record_ok s.

Record smb_state d : Prop := mkSmbState {
  ss_files : files d;
  ss_plain : plain_files d;
  ss_records : records_ok d;
  ss_step : forall id, valid_id id -> step_of d id;
  ss_listed : listed d
}.

(** Files that are removed go away, and directories can be read to the end. *)
Definition reliable_smb (F : Faults) : Prop :=
  honest F /\ (forall p, fault F OpUnlink p = None) /\ (forall p, fault F OpReadDir p = None).

Definition smb_ready (op : SmbOp) d : Prop :=
  valid_id (smb_target op) /\
  match op with SmbCreate uuid _ => stored (T := SmbShare) smb_state_dir d uuid = None | _ => True end.

Lemma smb_plan_tail (l : list Faults) : Forall reliable_smb l -> Forall reliable_smb (tail l).
Proof. destruct l; [done|]. by intros [_ ?]%list.Forall_cons. Qed.

Lemma smb_plan_next w : Forall reliable_smb (fw_plan w) -> reliable_smb (fw_next w).
Proof. unfold fw_next. destruct (fw_plan w); [done|]. by intros [? _]%list.Forall_cons. Qed.

(** ** Frames *)

(** Nothing but the record and the section of [id] and the two other files changed, and a record that
    is there is a valid one. *)
Definition touched id d d' : Prop :=
  about_smb id d d' /\ plain_files d' /\
  (forall s, stored smb_state_dir d' id = Some s -> record_ok s).

Lemma touched_trans id d1 d2 d3 : touched id d1 d2 -> touched id d2 d3 -> touched id d1 d3.
Proof. intros (A & _ & _) (B & P & R). split_and!; [by eapply about_trans|done|done]. Qed.

Lemma touched_refl id d : files d -> plain_files d -> (forall s, stored smb_state_dir d id = Some s -> record_ok s) -> touched id d d.
Proof. intros. split_and!; [by apply about_refl|done|done]. Qed.

(** One of the two other files changed. *)
Lemma other_changed id d d' q :
  valid_id id -> touched id d d -> q ∈ [list_path; avahi_path] ->
  (forall p, p <> q -> d' !! p = d !! p) -> (forall f, d' !! q = Some f -> is_regular f = true) ->
  touched id d d' /\ (step_of d id -> step_of d' id).
Proof.
  intros Hid ([Hf _] & Hp & Hr) Hq Hsame Hreg. destruct (other_paths q Hq) as [Hd Hc].
  destruct (about_elsewhere smb_state_dir share_conf sm_enabled smb_says d d' q id Hf Hd Hc Hsame) as [Ha Hst].
  split; [|by apply Hst]. split_and!; [done|..].
  - intros q' f Hq'. destruct (decide (q' = q)) as [->|Hn]; [apply Hreg|]. rewrite Hsame by done. by apply Hp.
  - intros s. rewrite (stored_elsewhere smb_state_dir d d'); [apply Hr| |done].
    intros n. apply Hsame, not_eq_sym, Hd.
Qed.

(** The state of [id] midway two calls. *)
Record midway id d w : Prop := mkMidway {
  bt_valid : valid_id id;
  bt_touched : touched id d (fw_disk w);
  bt_plan : Forall reliable_smb (fw_plan w)
}.

Lemma midway_self id d w : midway id d w -> touched id (fw_disk w) (fw_disk w).
Proof. intros [_ ([Hf _] & Hp & Hr) _]. by apply touched_refl. Qed.

(** ** The list of includes *)

Lemma conf_names_all F ps d :
  (forall p, fault F OpReadDir p = None) ->
  conf_names F ps d
  = (Ok (List.filter (ends_with ".conf") ((fun p => from_utf8_lossy (default "" (file_name p))) <$> ps)), d).
Proof.
  intros HF. induction ps as [|p ps IH]; [done|]. cbn [conf_names]. unfold bind, attempt, check. rewrite HF. cbn -[from_utf8_lossy ends_with].
  rewrite IH. cbn -[from_utf8_lossy ends_with]. by case_match.
Qed.

Lemma conf_listing d d' n :
  (forall raw, d' !! (share_dir ++ [raw])%list = d !! (share_dir ++ [raw])%list) ->
  n ∈ List.filter (ends_with ".conf")
        ((fun p => from_utf8_lossy (default "" (file_name p))) <$> entries_of (mkStateDir share_dir) d) <->
  exists raw, is_Some (d' !! (share_dir ++ [raw])%list) /\ n = from_utf8_lossy raw /\ ends_with ".conf" n = true.
Proof.
  intros Hsh. rewrite list_elem_of_In, filter_In, <- list_elem_of_In, list_elem_of_fmap. split.
  - intros [(p & -> & [(raw & ->) Hs]%elem_of_entries) He]. exists raw. rewrite Hsh. cbn [dir] in *.
    unfold file_name in *. rewrite last_snoc in *. by split_and!.
  - intros (raw & Hs & -> & He). rewrite Hsh in Hs. split; [|done]. exists (share_dir ++ [raw])%list.
    rewrite elem_of_entries. split_and!; [unfold file_name; by rewrite last_snoc|by exists raw|done].
Qed.

Lemma wp_rebuild id d w :
  midway id d w ->
  wp rebuild_include_list
    (fun r w' => midway id d w' /\ (step_of (fw_disk w) id -> step_of (fw_disk w') id) /\ (is_ok r = true -> listed (fw_disk w'))) w.
Proof.
  intros Hb. pose proof (midway_self _ _ _ Hb) as Hself. destruct Hb as [Hid Ht Hp]. unfold rebuild_include_list.
  apply wp_bind, wp_fs_call. unfold check at 1. case_match; [apply wp_throw|apply wp_ret]; cbn [map_err].
  { split_and!; [by split; [..|apply smb_plan_tail]|done|done]. }
  apply smb_plan_tail in Hp. set (w1 := mkFileWorld _ _ _ _). apply wp_bind, wp_fs_call.
  destruct (smb_plan_next w1 Hp) as (_ & _ & Hrd). unfold wp at 1. cbn beta. unfold bind at 1, read_dir, bind at 1, check.
  rewrite Hrd. cbn -[conf_names share_dir]. rewrite conf_names_all by done. cbn [fst snd map_err].
  apply smb_plan_tail in Hp. set (names := List.filter _ _). set (w2 := mkFileWorld _ _ _ _).
  assert (forall f, fw_disk w !! list_path = Some f -> is_regular f = true) as Hlp
    by (intros f; apply (proj1 (proj2 Hself)); by left).
  apply wp_fs_call. eapply wp_use; [by apply fs_write_at|].
  intros r d' (Hsame & Hreg & Hr). cbn [fw_disk w2] in *.
  destruct (other_changed id (fw_disk w) d' list_path Hid Hself) as [Ht' Hst]; [by left|done|done|].
  split_and!; [split; [done|by eapply touched_trans|by apply smb_plan_tail]|done|].
  intros Hok. destruct Hr as (f & Hf & Hc); [by destruct r|]. exists f, names. split_and!; [done|done|].
  intros n. apply conf_listing. intros raw. by apply Hsame.
Qed.

(** ** The other calls *)

(** What a call that ends an operation leaves: its section in step, and the list. *)
Definition settled id d w : Prop := midway id d w /\ step_of (fw_disk w) id /\ listed (fw_disk w).

Lemma listed_same d d' : (forall p, p <> avahi_path -> d' !! p = d !! p) -> listed d -> listed d'.
Proof.
  intros Hsame (f & names & Hf & Hc & Hn). exists f, names. split_and!; [by rewrite Hsame|done|].
  intros n. rewrite Hn. split; intros (raw & Hr & ? & ?); exists raw; [rewrite Hsame by done|rewrite Hsame in Hr by done]; done.
Qed.

Lemma settled_avahi id d w d' :
  settled id d w -> (forall p, p <> avahi_path -> d' !! p = fw_disk w !! p) ->
  (forall f, d' !! avahi_path = Some f -> is_regular f = true) ->
  forall w', fw_disk w' = d' -> Forall reliable_smb (fw_plan w') -> settled id d w'.
Proof.
  intros (Hb & Hst & Hl) Hsame Hreg w' <- Hp. pose proof (midway_self _ _ _ Hb) as Hself. destruct Hb as [Hid Ht _].
  destruct (other_changed id (fw_disk w) (fw_disk w') avahi_path Hid Hself) as [Ht' Hst']; [by right; left|done|done|].
  split_and!; [split; [done|by eapply touched_trans|done]|by apply Hst'|by eapply listed_same].
Qed.

Lemma settled_same id d w w' :
  settled id d w -> fw_disk w' = fw_disk w -> Forall reliable_smb (fw_plan w') -> settled id d w'.
Proof. intros ([Hid Ht _] & Hst & Hl) Hd Hp. unfold settled. rewrite Hd. split_and!; [|done|done]. split; [done|by rewrite Hd|done]. Qed.

Lemma wp_try_run {E} program args (Q : result unit E -> FileWorld -> Prop) w :
  (forall w', fw_disk w' = fw_disk w -> fw_plan w' = fw_plan w -> Q (Ok tt) w') -> wp (try_run program args) Q w.
Proof. intros HQ. unfold try_run. apply wp_bind, wp_command. intros r w' Hd Hp. apply wp_ret. by apply HQ. Qed.

Lemma wp_sync id d w : settled id d w -> wp sync_timemachine_avahi (fun _ w' => settled id d w') w.
Proof.
  intros Hw. pose proof (smb_plan_tail _ (bt_plan _ _ _ (proj1 Hw))) as Hp. unfold sync_timemachine_avahi.
  apply wp_bind, wp_fs_call, wp_load_records. intros r. set (w1 := mkFileWorld _ _ _ _).
  assert (settled id d w1) as Hw1 by (by eapply settled_same). clearbody w1. clear Hw Hp w.
  destruct r as [shares|e]; cbn [map_err]; [|done]. pose proof (bt_plan _ _ _ (proj1 Hw1)) as Hp.
  assert (forall f, fw_disk w1 !! avahi_path = Some f -> is_regular f = true) as Hreg.
  { intros f. destruct Hw1 as [[_ (_ & Hpl & _) _] _]. apply Hpl. by right; left. }
  destruct (build_timemachine_avahi_xml _) as [xml|].
  - apply wp_bind, wp_attempt, wp_fs_call. unfold check. apply smb_plan_tail in Hp.
    case_match; [apply wp_throw|apply wp_ret]; cbn [map_err]; [by apply wp_ret; eapply settled_same|].
    apply wp_bind, wp_attempt, wp_fs_call. eapply wp_use; [by apply fs_write_at|]. intros r d' (Hs & Hr & _). apply smb_plan_tail in Hp.
    assert (forall w', fw_disk w' = d' -> fw_plan w' = tail (tail (fw_plan w1)) -> settled id d w') as Hend.
    { intros w' Hd' Hp'. eapply settled_avahi; [exact Hw1|done|done|done|]. by rewrite Hp'. }
    destruct r as [[]|e]; cbn [map_err]; [|by apply wp_ret, Hend]. apply wp_try_run. intros w' Hd' Hp'. by apply Hend.
  - apply wp_bind, wp_attempt, wp_fs_call. eapply wp_use; [apply remove_file_at|]. intros r d' (Hs & Hr & _). apply smb_plan_tail in Hp.
    apply wp_try_run. intros w' Hd' Hp'. eapply settled_avahi; [exact Hw1|exact Hs| |done|by rewrite Hp'].
    intros f Hf. by apply Hreg, Hr.
Qed.

Lemma wp_reload_samba id d w (Q : result unit SmbError -> FileWorld -> Prop) :
  settled id d w -> (forall r w', settled id d w' -> Q r w') -> wp reload_samba Q w.
Proof.
  intros Hw HQ. unfold reload_samba. apply wp_bind, wp_command. intros [out|e] w' Hd Hp.
  - apply wp_throw_if; intros _; apply HQ; eapply settled_same; [exact Hw|done|rewrite Hp; apply Hw|exact Hw|done|rewrite Hp; apply Hw].
  - apply wp_throw, HQ. eapply settled_same; [exact Hw|done|rewrite Hp; apply Hw].
Qed.

(** The end every operation has in common. *)
Lemma wp_finish_smb id d w :
  midway id d w -> step_of (fw_disk w) id ->
  wp (rebuild_include_list ;;; reload_samba ;;; sync_timemachine_avahi)
    (fun r w' => midway id d w' /\ (is_ok r = true -> settled id d w')) w.
Proof.
  intros Hb Hst. apply wp_bind. eapply wp_use; [by apply (wp_rebuild id d w)|]. intros r w1 (Hb1 & Hst1 & Hl).
  destruct r as [[]|e]; [|by split]. assert (settled id d w1) as Hs by (split_and!; auto).
  apply wp_bind. eapply wp_reload_samba; [exact Hs|]. intros r w2 Hs2. destruct r as [[]|e]; [|by split; [apply Hs2|]].
  eapply wp_use; [by apply (wp_sync id d)|]. intros r w3 Hs3. by split; [apply Hs3|].
Qed.

(** ** The operations *)

Definition outcome id d {A} (r : result A SmbError) w' : Prop :=
  midway id d w' /\ (is_ok r = true -> settled id d w').

Lemma wp_write_conf s d w :
  midway (sm_id s) d w -> stored smb_state_dir (fw_disk w) (sm_id s) = Some s ->
  wp (write_share_conf s)
    (fun r w' => midway (sm_id s) d w' /\ (is_ok r = true -> step_of (fw_disk w') (sm_id s))) w.
Proof.
  intros Hb Hs. pose proof (midway_self _ _ _ Hb) as Hself. destruct Hb as [Hid Ht Hp]. unfold write_share_conf.
  assert (forall d', about_smb (sm_id s) (fw_disk w) d' -> stored smb_state_dir d' (sm_id s) = Some s ->
    (forall q, q ∈ [list_path; avahi_path] -> d' !! q = fw_disk w !! q) -> touched (sm_id s) d d') as Hto.
  { intros d' Ha Hs' Hq. eapply touched_trans; [exact Ht|]. destruct Hself as (_ & Hpl & Hr). split_and!; [done|..].
    - intros q f Hin. rewrite (Hq q Hin). by apply Hpl.
    - intros x. rewrite Hs', <- Hs. apply Hr. }
  apply wp_bind, wp_fs_call. unfold check at 1. apply smb_plan_tail in Hp.
  case_match; [apply wp_throw|apply wp_ret]; cbn [map_err]; [by split; [split|]|]. set (w1 := mkFileWorld _ _ _ _).
  assert (files (fw_disk w1)) as Hf by apply Ht. destruct (sm_enabled s) eqn:Ee; cbn [negb].
  - apply wp_bind, wp_fs_call.
    eapply wp_use; [apply wp_and; [apply (write_about smb_state_dir share_conf conf_away conf_inj _ (fw_disk w1) (sm_id s)); done
                   |apply fs_write_at; intros f; by apply (fo_plain _ _ _ Hf)]|].
    intros r d' [(Ha & Hs' & Hr) (Hsame & _)]. cbn [fw_disk w1] in *. rewrite Hs in Hs'. apply smb_plan_tail in Hp.
    assert (touched (sm_id s) d d') as Ht'.
    { apply Hto; [done|done|]. intros q Hq. apply Hsame. by apply (other_paths q Hq). }
    destruct r as [[]|e]; cbn [map_err]; [|by split; [split|]].
    apply wp_try_run. intros w' Hd' Hp'. cbn [fw_disk fw_plan] in *. split; [split; [done|by rewrite Hd'|by rewrite Hp']|].
    intros _. unfold in_step. rewrite Hd', Hs', Ee. destruct Hr as (f & Hff & Hc); [done|]. exists f. split; [done|].
    intros Hok Hpl. rewrite Hc. by apply section_reads.
  - apply wp_bind, wp_attempt, wp_fs_call.
    eapply wp_use; [apply wp_and; [apply (drop_about smb_state_dir share_conf conf_away conf_inj _ (fw_disk w1) (sm_id s)); done
                   |apply remove_file_at]|].
    intros r d' [(Ha & Hs' & Hr) (Hsame & _)]. cbn [fw_disk w1] in *. rewrite Hs in Hs'. pose proof (smb_plan_next w1 Hp) as (_ & Hun & _).
    apply smb_plan_tail in Hp. apply wp_ret. split.
    + split; [done| |done]. apply Hto; [done|done|]. intros q Hq. apply Hsame. by apply (other_paths q Hq).
    + intros _. unfold in_step. cbn [fw_disk]. rewrite Hs', Ee. by apply Hr.
Qed.

(** The two other files are outside the state directory. *)
Lemma plain_kept d d' :
  plain_files d -> (forall q, (forall n, q <> (dir smb_state_dir ++ [n])%list) -> d' !! q = d !! q) -> plain_files d'.
Proof. intros Hp Hout q f Hq. rewrite Hout by (by apply (other_paths q Hq)). by apply Hp. Qed.

Lemma wp_publish_smb s d w :
  midway (sm_id s) d w -> record_ok s -> wp (publish_smb s) (fun r w' => outcome (sm_id s) d r w') w.
Proof.
  intros [Hid Ht Hp] Hr. unfold publish_smb. apply wp_bind, wp_fs_call.
  eapply wp_use; [apply (save_about smb_state_dir share_conf conf_away _ _ s); [apply Ht|done]|].
  intros r d' (Ha & Hout & Hs). apply smb_plan_tail in Hp. cbn [fw_disk] in *.
  assert (touched (sm_id s) d d') as Ht'.
  { destruct Ht as (Hab & Hpl & Hrec). split_and!; [by eapply about_trans|by eapply plain_kept|].
    change (id_of s) with (sm_id s) in Hs. intros x. rewrite Hs. destruct r; [by intros [= <-]|apply Hrec]. }
  destruct r as [[]|e]; cbn [map_err]; [|by split; [split|]].
  apply wp_bind. eapply wp_use; [apply (wp_write_conf s d); [by split|done]|]. intros r w1 [Hb1 Hst1].
  destruct r as [[]|e]; [|by split]. apply wp_finish_smb; [done|by apply Hst1].
Qed.

Lemma stopped id d w w' (e : SmbError) {A} :
  midway id d w -> fw_disk w' = fw_disk w -> Forall reliable_smb (fw_plan w') -> outcome id d (Err (A := A) e) w'.
Proof. intros [Hid Ht _] Hd Hp. split; [|done]. split; [done|by rewrite Hd|done]. Qed.

Lemma wp_wait n name id d w : settled id d w -> wp (wait_for_share n name) (fun r w' => r = Ok tt /\ settled id d w') w.
Proof.
  revert w. induction n as [|n IH]; intros w Hw; cbn [wait_for_share]; [by apply wp_ret|].
  apply wp_bind, wp_command. intros r w' Hd Hp.
  assert (settled id d w') as Hw' by (eapply settled_same; [exact Hw|done|rewrite Hp; apply Hw]).
  destruct r; [case_match; [by apply wp_ret|]|]; by apply IH.
Qed.

Lemma wp_smb_get id d w (Q : result SmbShare SmbError -> FileWorld -> Prop) :
  midway id d w ->
  (forall r w', fw_disk w' = fw_disk w -> midway id d w' ->
     (forall s, r = Ok s -> sm_id s = id /\ record_ok s) -> Q r w') ->
  wp (smb_get id) Q w.
Proof.
  intros Hb HQ. pose proof Hb as [Hid Ht Hp]. unfold smb_get. apply wp_bind, wp_fs_call.
  eapply wp_use; [apply (wp_load_record (T := SmbShare) smb_state_dir); [apply Ht|done]|].
  intros r d' [-> Hl]. apply smb_plan_tail in Hp. set (w1 := mkFileWorld _ _ _ _).
  assert (midway id d w1) as Hb1 by (by split).
  destruct r as [[s|]|e]; cbn [map_err]; [apply wp_ret|apply wp_throw|]; apply HQ; try done.
  intros s' [= <-]. destruct (Hl s eq_refl) as [Hs Hi]. split; [done|]. by apply Ht.
Qed.

Lemma updated_ok req s :
  record_ok s -> match us_name req with Some n => validate_share_name n | None => Ok tt end = Ok tt ->
  match us_valid_users req with Some us => validate_valid_users us | None => Ok tt end = Ok tt ->
  validate_time_machine (updated_smb req s) = Ok tt -> record_ok (updated_smb req s).
Proof.
  intros [[Hn Hp Hu Hc] _] Hn' Hu' Ht. split; [|done]. split; cbn.
  - by destruct (us_name req).
  - done.
  - by destruct (us_valid_users req).
  - destruct (us_time_machine_max_size_gib req) as [n|]; [|done]. destruct (0 <? n)%Z eqn:E; [|done]. by apply Z.ltb_lt.
Qed.

Lemma created_record_ok uuid req :
  validate_share_name (cs_name req) = Ok tt -> validate_share_path (cs_path req) = Ok tt ->
  match cs_valid_users req with Some us => validate_valid_users us | None => Ok tt end = Ok tt ->
  validate_time_machine (new_smb_share uuid req) = Ok tt -> record_ok (new_smb_share uuid req).
Proof.
  intros Hn Hp Hu Ht. split; [|done]. split; cbn; [done|done|by destruct (cs_valid_users req)|].
  unfold positive_cap. destruct (cs_time_machine_max_size_gib req) as [n|]; [|done].
  destruct (0 <? n)%Z eqn:E; [|done]. by apply Z.ltb_lt.
Qed.

Lemma wp_update_smb req w :
  midway (us_id req) (fw_disk w) w ->
  wp (smb_update req ;;; ret tt) (fun r w' => outcome (us_id req) (fw_disk w) r w') w.
Proof.
  intros Hb. apply wp_bind. unfold smb_update. apply wp_bind, wp_lift.
  destruct (match us_name req with Some n => validate_share_name n | None => Ok tt end) as [[]|] eqn:En; [|by eapply stopped; [exact Hb|..|apply Hb]].
  apply wp_bind. apply (wp_smb_get _ (fw_disk w)); [done|]. intros r w1 Hd1 Hb1 Hs1.
  destruct r as [s|e]; [|by split]. destruct (Hs1 s eq_refl) as [Hi Hok]. clear Hs1.
  apply wp_bind.
  assert (forall Q, (forall r w', fw_disk w' = fw_disk w1 -> Forall reliable_smb (fw_plan w') -> Q r w') ->
    wp (match us_name req with
        | Some new_name => shares <- smb_list ;;
            throw_if (existsb (fun x => (sm_name x =s new_name) && negb (sm_id x =s us_id req)) shares) (SmbNameExists new_name)
        | None => ret tt
        end) Q w1) as Hunique.
  { intros Q HQ. destruct (us_name req); [|apply wp_ret, HQ; [done|apply Hb1]].
    apply wp_bind, wp_fs_call, wp_load_records. intros r. pose proof (smb_plan_tail _ (bt_plan _ _ _ Hb1)).
    destruct r; cbn [map_err]; [apply wp_throw_if; intros _; by apply HQ|by apply HQ]. }
  apply Hunique. intros r w2 Hd2 Hp2. destruct r as [[]|e]; [|by eapply stopped].
  assert (midway (us_id req) (fw_disk w) w2) as Hb2 by (destruct Hb1; by split; [..|rewrite Hd2|]).
  apply wp_bind, wp_lift.
  destruct (match us_valid_users req with Some us => validate_valid_users us | None => Ok tt end) as [[]|] eqn:Eu; [|by split].
  cbn zeta. apply wp_bind, wp_lift. destruct (validate_time_machine _) as [[]|] eqn:Et; [|by split].
  apply wp_bind. eapply wp_use; [apply (wp_publish_smb (updated_smb req s) (fw_disk w)); [cbn; by rewrite Hi|by apply updated_ok]|].
  cbn [sm_id updated_smb]. rewrite Hi. intros [[]|e] w3 Ho; [by apply wp_ret, wp_ret|done].
Qed.

(** A share of that name may be there already; then nothing is written. *)
Lemma wp_create_smb uuid req w :
  midway uuid (fw_disk w) w ->
  wp (smb_create uuid req ;;; ret tt)
    (fun r w' => midway uuid (fw_disk w) w' /\
       (is_ok r = true -> step_of (fw_disk w) uuid -> listed (fw_disk w) -> settled uuid (fw_disk w) w')) w.
Proof.
  intros Hb. pose proof (bt_plan _ _ _ Hb) as Hp. apply wp_bind. unfold smb_create. apply wp_bind, wp_lift.
  destruct (validate_share_name _) as [[]|] eqn:En; [|by split]. apply wp_bind, wp_lift.
  destruct (validate_share_path _) as [[]|] eqn:Ep; [|by split]. apply wp_bind, wp_lift.
  destruct (match cs_valid_users req with Some us => validate_valid_users us | None => Ok tt end) as [[]|] eqn:Eu; [|by split].
  apply wp_bind, wp_throw_if; [by split|intros _]. destruct (canonicalize _) as [q|]; [|by apply wp_throw].
  apply wp_bind, wp_throw_if; [by split|intros _]. apply wp_bind, wp_fs_call, wp_load_records. intros r.
  set (w1 := mkFileWorld _ _ _ _). apply smb_plan_tail in Hp.
  assert (midway uuid (fw_disk w) w1) as Hb1 by (destruct Hb; by split).
  destruct r as [l|e]; cbn [map_err]; [|by split]. destruct (List.find _ l) as [x|].
  { by apply wp_ret, wp_ret; split; [|intros _ ??; split_and!]. }
  cbn zeta. apply wp_bind, wp_lift. destruct (validate_time_machine _) as [[]|] eqn:Et; [|by split].
  apply wp_bind. eapply wp_use; [apply (wp_publish_smb (new_smb_share uuid req) (fw_disk w)); [done|by apply created_record_ok]|].
  intros [[]|e] w2 [Hb2 Hs2]; [|by split]. specialize (Hs2 eq_refl).
  apply wp_bind. eapply wp_use; [by apply wp_wait|]. intros r w3 [-> Hs3]. by apply wp_ret, wp_ret; split; [apply Hs3|].
Qed.

Lemma wp_delete_smb id w :
  midway id (fw_disk w) w -> wp (smb_delete id) (fun r w' => outcome id (fw_disk w) r w') w.
Proof.
  intros Hb. unfold smb_delete. apply wp_bind. apply (wp_smb_get _ (fw_disk w)); [done|].
  intros r w1 Hd1 Hb1 _. destruct r as [s|e]; [|by split]. destruct Hb1 as [Hid Ht1 Hp1]. apply wp_bind, wp_fs_call.
  eapply wp_use; [apply (remove_about (T := SmbShare) smb_state_dir share_conf conf_away); [apply Ht1|done|apply (smb_plan_next w1 Hp1)]|].
  intros r d' (Ha & Hout & Hs). apply smb_plan_tail in Hp1.
  assert (touched id (fw_disk w) d') as Ht'.
  { destruct Ht1 as (Hab & Hpl & Hrec). split_and!; [by eapply about_trans|by eapply plain_kept|].
    intros x. rewrite Hs. destruct r; [done|apply Hrec]. }
  destruct r as [[]|e]; cbn [map_err]; [|by split; [split|]].
  unfold remove_share_conf. apply wp_bind, wp_bind, wp_attempt, wp_fs_call. set (w2 := mkFileWorld _ _ _ _).
  eapply wp_use; [apply wp_and; [apply (drop_about (T := SmbShare) smb_state_dir share_conf conf_away conf_inj _ (fw_disk w2) id); [apply Ht'|done]
                 |apply remove_file_at]|].
  intros r d2 [(Ha2 & Hs2 & Hr2) (Hsame & _)]. cbn [fw_disk w2] in *. pose proof (smb_plan_next w2 Hp1) as (_ & Hun & _).
  apply smb_plan_tail in Hp1. apply wp_ret, wp_finish_smb.
  - split; [done| |done]. destruct Ht' as (Hab & Hpl & _). split_and!; [by eapply about_trans|..].
    + intros q f Hq. rewrite Hsame by (by apply (other_paths q Hq)). by apply Hpl.
    + intros x. cbn [fw_disk]. by rewrite Hs2, Hs.
  - unfold in_step. cbn [fw_disk]. rewrite Hs2, Hs. by apply Hr2.
Qed.

Lemma wp_exec_smb op w :
  midway (smb_target op) (fw_disk w) w ->
  wp (exec_smb op)
    (fun r w' => midway (smb_target op) (fw_disk w) w' /\
       (is_ok r = true -> step_of (fw_disk w) (smb_target op) -> listed (fw_disk w) -> settled (smb_target op) (fw_disk w) w')) w.
Proof.
  intros Hb. destruct op as [uuid req|req|id]; cbn [exec_smb smb_target] in *; [by apply wp_create_smb|..].
  - eapply wp_use; [by apply wp_update_smb|]. intros r w' [Hb' Hs]. split; [done|]. auto.
  - eapply wp_use; [by apply wp_delete_smb|]. intros r w' [Hb' Hs]. split; [done|]. auto.
Qed.

(** The part of the state that no failure breaks. *)
Record well_formed w : Prop := mkWellFormed {
  wf_files : files (fw_disk w);
  wf_plain : plain_files (fw_disk w);
  wf_records : records_ok (fw_disk w);
  wf_plan : Forall reliable_smb (fw_plan w)
}.

Lemma well_formed_midway id w : well_formed w -> valid_id id -> midway id (fw_disk w) w.
Proof. intros [Hf Hpl Hr Hp] Hid. split; [done| |done]. apply touched_refl; [done|done|]. intros s. by apply Hr. Qed.

Lemma midway_records id d w : records_ok d -> midway id d w -> records_ok (fw_disk w).
Proof.
  intros Hrec [_ ([_ Ha] & _ & Hr) _] i s Hi Hs. destruct (decide (i = id)) as [->|Hn]; [by apply Hr|].
  apply (Hrec i); [done|]. by rewrite <- (proj1 (Ha i Hi Hn)).
Qed.

Lemma exec_well_formed op w : well_formed w -> valid_id (smb_target op) -> well_formed (exec_smb op w).2.
Proof.
  intros Hw Hid. pose proof (wp_exec_smb op w (well_formed_midway _ _ Hw Hid)) as Hx. unfold wp in Hx.
  destruct (exec_smb op w) as [r w']. destruct Hx as [Hb _]. cbn [fst snd] in *. pose proof (midway_records _ _ _ (wf_records _ Hw) Hb) as Hr.
  destruct Hb as [_ ([Hf _] & Hpl & _) Hp]. by split.
Qed.

(** A sequence of operations, whatever each of them reports. *)
Fixpoint run_smb (ops : list SmbOp) w : FileWorld :=
  match ops with
  | [] => w
  | op :: rest => run_smb rest (exec_smb op w).2
  end.

(** C27: every SMB share on disk is a value the service may render: after any sequence of operations, failed ones
    included, each record has a name, a path and users that pass their validators, a positive Time Machine cap
    if it has one, and is neither read-only nor open to guests if it is a Time Machine share; and each record is stored under its own
    identifier. *)
Theorem smb_records_stay_valid ops w :
  well_formed w -> Forall (fun op => valid_id (smb_target op)) ops ->
  dir_ok (T := SmbShare) smb_state_dir (fw_disk (run_smb ops w)) /\
  forall id s, valid_id id -> stored smb_state_dir (fw_disk (run_smb ops w)) id = Some s ->
    sm_id s = id /\ share_ok s /\ (sm_time_machine s = true -> sm_guest_ok s = false /\ sm_read_only s = false).
Proof.
  intros Hw Hops. assert (well_formed (run_smb ops w)) as [Hf _ Hr _].
  { revert w Hw. induction Hops as [|op ops Hop _ IH]; intros w Hw; [done|]. by apply IH, exec_well_formed. }
  split; [apply Hf|]. intros id s Hid Hs. destruct (Hr id s Hid Hs) as [Hok Htm].
  split_and!; [by eapply (stored_id smb_state_dir); [apply Hf|..]|done|]. intros Et. revert Htm. unfold validate_time_machine.
  rewrite Et. by destruct (sm_guest_ok s), (sm_read_only s).
Qed.


End Service.
