(* ===== verification/FileShareWitness.v ===== *)
(** * File sharing: the theorems applied

    An NFS and an SMB share created on a small disk. *)
From Stdlib Require Import String Ascii ZArith.
From stdpp Require Import base list gmap strings numbers countable.
From S2P Require Import Prelude RustStr Disk StateStore Records AuthWitness FileShare Nfs NfsService Smb SmbService SmbConf SmbPortal SmbInv.

Open Scope string_scope.
Open Scope rust_scope.

Module FileShareExample.

#[export] Instance nfs_client_eq_dec : EqDecision NfsClient.
Proof. solve_decision. Defined.
#[export] Instance nfs_client_countable : Countable NfsClient.
Proof.
  apply (inj_countable' (fun c => (nc_host c, nc_options c)) (fun x => mkNfsClient x.1 x.2)). by intros [].
Defined.
#[export] Instance nfs_share_eq_dec : EqDecision NfsShare.
Proof. solve_decision. Defined.
#[export] Instance nfs_share_countable : Countable NfsShare.
Proof.
  apply (inj_countable' (fun s => (ns_id s, ns_path s, ns_comment s, ns_clients s, ns_enabled s))
    (fun x => mkNfsShare x.1.1.1.1 x.1.1.1.2 x.1.1.2 x.1.2 x.2)). by intros [].
Defined.
#[export] Instance nfs_codec : Codec NfsShare := count_codec NfsShare.
#[export] Instance nfs_codec_laws : CodecLaws NfsShare.
Proof. apply count_codec_laws. Qed.

#[export] Instance smb_share_eq_dec : EqDecision SmbShare.
Proof. solve_decision. Defined.
#[export] Instance smb_share_countable : Countable SmbShare.
Proof.
  apply (inj_countable' (fun s => ((sm_id s, sm_name s, sm_path s, sm_comment s),
      (sm_read_only s, sm_browseable s, sm_guest_ok s, sm_valid_users s),
      (sm_extra_params s, sm_time_machine s, sm_time_machine_max_size_gib s, sm_enabled s)))
    (fun x => mkSmbShare x.1.1.1.1.1 x.1.1.1.1.2 x.1.1.1.2 x.1.1.2 x.1.2.1.1.1 x.1.2.1.1.2 x.1.2.1.2 x.1.2.2
       x.2.1.1.1 x.2.1.1.2 x.2.1.2 x.2.2)). by intros [].
Defined.
#[export] Instance smb_codec : Codec SmbShare := count_codec SmbShare.
#[export] Instance smb_codec_laws : CodecLaws SmbShare.
Proof. apply count_codec_laws. Qed.

#[export] Instance share_tree : ShareTree := {|
  path_exists p := starts_with "/fs/tank" p;
  canonicalize p := Some (components p)
|}.

(** ** NFS *)

Definition quiet : FileWorld := mkFileWorld ∅ [] [] [].
Definition nfs_req : CreateNfsShareRequest := mkCreateNfs "/fs/tank/a" None [mkNfsClient "10.0.0.0/8" "rw"] None.
Definition nfs_op : NfsOp := NfsCreate "n1" nfs_req.
Definition exported : FileWorld := (exec_nfs nfs_op quiet).2.
Definition nfs_share1 : NfsShare := mkNfsShare "n1" "/fs/tank/a" None [mkNfsClient "10.0.0.0/8" "rw"] true.

Lemma exported_ok : exec_nfs nfs_op quiet = (Ok tt, exported).
Proof. apply run_split. vm_compute. reflexivity. Qed.

Lemma empty_files : files_ok (T := NfsShare) nfs_state_dir export_file ∅.
Proof. split; [split|]; intros *; rewrite lookup_empty; discriminate. Qed.

Lemma empty_step i : in_step (T := NfsShare) nfs_state_dir export_file nfs_live nfs_says ∅ i.
Proof. unfold in_step, stored. by rewrite lookup_empty. Qed.

Lemma n1_valid : valid_id "n1".
Proof. by split. Qed.

Lemma plain1 : plain_share nfs_share1.
Proof.
  split; [|repeat constructor|]; [|by apply only_all_chars]. split_and!; [done|vm_compute; reflexivity|reflexivity].
Qed.

Lemma n1_stored : stored nfs_state_dir (fw_disk exported) "n1" = Some nfs_share1.
Proof. vm_compute. reflexivity. Qed.

(** After the call the share's file exports its path to its client. *)
Lemma exports_stay_in_step_witness :
  exists f, fw_disk exported !! export_file "n1" = Some f /\
    read_exports (f_content f)
    = Some [("/fs/tank/a", [("10.0.0.0/8", ["rw"; "fsid=5863589"; "insecure"])])].
Proof.
  destruct (exports_stay_in_step nfs_op quiet _ _ empty_files (fun i _ => empty_step i) (Forall_nil_2 _)
    (conj n1_valid eq_refl) exported_ok) as (_ & _ & Hok).
  specialize (Hok eq_refl "n1" n1_valid). unfold in_step in Hok. rewrite n1_stored in Hok.
  change (nfs_live nfs_share1) with true in Hok. destruct Hok as (f & Hf & Hs). exists f. split; [exact Hf|].
  rewrite (Hs plain1). vm_compute. reflexivity.
Defined.

(** ** SMB *)

Definition include_disk : Disk := {[list_path := mkFile Regular 420 engine_uid (render_include_list [])]}.
Definition calm : FileWorld := mkFileWorld include_disk [] [] [].
Definition smb_req : CreateSmbShareRequest :=
  mkCreateSmb "media" "/fs/tank/media" (Some "films; and more") None None None (Some ["alice"; "@CORP\domain admins"]) None
    None None None.
Definition smb_op : SmbOp := SmbCreate "s1" smb_req.
Definition smb_run : result unit SmbError * FileWorld := exec_smb smb_op calm.
Definition shared : FileWorld := smb_run.2.
Definition smb_share1 : SmbShare := new_smb_share "s1" smb_req.

Lemma shared_ok : exec_smb smb_op calm = (Ok tt, shared).
Proof. apply (run_split smb_run). vm_compute. reflexivity. Qed.

Lemma include_disk_only p f : include_disk !! p = Some f -> p = list_path /\ is_regular f = true.
Proof. unfold include_disk. by intros [<- <-]%lookup_singleton_Some. Qed.

Lemma calm_conf i : valid_id i -> include_disk !! share_conf i = None.
Proof.
  intros Hi. destruct (include_disk !! share_conf i) as [f|] eqn:E; [|done]. apply include_disk_only in E as [E _].
  destruct Hi as [Hi _]. by rewrite share_conf_eq in E.
Qed.

Lemma calm_stored i : valid_id i -> stored (T := SmbShare) smb_state_dir include_disk i = None.
Proof.
  intros [Hi _]. unfold stored. rewrite item_path_eq by done.
  destruct (include_disk !! (dir smb_state_dir ++ [(i ++ ".json")%string])%list) as [f|] eqn:E; [|done].
  by apply include_disk_only in E as [E _].
Qed.

Lemma calm_state : smb_state include_disk.
Proof.
  split.
  - split; [split|].
    + intros n f Hf. by apply include_disk_only in Hf as [Hf _].
    + intros n f x Hf. by apply include_disk_only in Hf as [Hf _].
    + intros i f Hi. by rewrite calm_conf.
  - intros q f _ Hf. by apply include_disk_only in Hf as [_ Hf].
  - intros i s Hi. by rewrite calm_stored.
  - intros i Hi. unfold in_step. rewrite calm_stored by done. by apply calm_conf.
  - exists (mkFile Regular 420 engine_uid (render_include_list [])), []. split_and!; [done|done|].
    intros n. split; [by intros ?%elem_of_nil|]. intros (raw & (f & Hf) & _). by apply include_disk_only in Hf as [Hf _].
Qed.

Lemma s1_valid : valid_id "s1".
Proof. by split. Qed.

Lemma smb_share1_ok : share_ok smb_share1.
Proof. split; vm_compute; reflexivity || exact I. Qed.

Lemma smb_share1_plain : plain_conf smb_share1.
Proof. split; [vm_compute; reflexivity..|]. constructor. Qed.

Lemma s1_stored : stored smb_state_dir (fw_disk shared) "s1" = Some smb_share1.
Proof. vm_compute. reflexivity. Qed.


(** A share made and changed, the second change refused. *)
Definition changes : list SmbOp :=
  [smb_op; SmbUpdate (mkUpdateSmb "s1" (Some "films") None (Some true) None None None None None None None);
   SmbUpdate (mkUpdateSmb "s1" None None None None None None None (Some true) None None)].

Lemma smb_records_stay_valid_witness :
  exists s, stored smb_state_dir (fw_disk (run_smb changes calm)) "s1" = Some s /\ sm_name s = "films" /\
    sm_read_only s = true /\ share_ok s /\ sm_time_machine s = false.
Proof.
  destruct (smb_records_stay_valid changes calm) as [_ Hr].
  - exact (mkWellFormed calm (ss_files _ calm_state) (ss_plain _ calm_state) (ss_records _ calm_state) (Forall_nil_2 _)).
  - repeat constructor; done.
  - exists (mkSmbShare "s1" "films" "/fs/tank/media" (Some "films; and more") true true false ["alice"; "@CORP\domain admins"] ∅ false None true).
    assert (stored smb_state_dir (fw_disk (run_smb changes calm)) "s1" =
      Some (mkSmbShare "s1" "films" "/fs/tank/media" (Some "films; and more") true true false ["alice"; "@CORP\domain admins"] ∅ false None true))
      as Hs by (vm_compute; reflexivity).
    destruct (Hr "s1" _ s1_valid Hs) as (_ & Hok & _). exact (conj Hs (conj eq_refl (conj eq_refl (conj Hok eq_refl)))).
Defined.

(** The portal lets a domain administrator in and keeps [domain] out. *)
Lemma portal_agrees_with_section_witness :
  (exists items, read_conf (render_share_conf smb_share1) = Some items /\
     samba_lists items "CORP\eve" ["CORP\domain admins"] = true) /\
  (exists items, read_conf (render_share_conf smb_share1) = Some items /\ samba_lists items "admins" ["CORP\domain"] = false).
Proof.
  split.
  - destruct (portal_agrees_with_section smb_share1 "CORP\eve" ["CORP\domain admins"] smb_share1_ok smb_share1_plain eq_refl eq_refl)
      as (params & Hi & _ & _ & Hp). eexists. split; [exact Hi|]. rewrite <- Hp. vm_compute. reflexivity.
  - destruct (portal_agrees_with_section smb_share1 "admins" ["CORP\domain"] smb_share1_ok smb_share1_plain eq_refl eq_refl)
      as (params & Hi & _ & _ & Hp). eexists. split; [exact Hi|]. rewrite <- Hp. vm_compute. reflexivity.
Defined.

End FileShareExample.
