(* ===== verification/BlockWitness.v ===== *)
(** * Block sharing: the theorems applied

    A target and a subsystem whose volumes have come back on other devices, a
    kernel that still exports the old ones, and a serialiser of JSON values. *)
From Stdlib Require Import String Ascii ZArith.
From stdpp Require Import base list gmap strings numbers countable.
From S2P Require Import Prelude RustStr Disk StateStore Records AuthWitness JsonRpc Rest FirewallRules Firewall FirewallWitness Backup ConfigFs BlockWorld Iscsi IscsiService IscsiAcl IscsiRemap NvmeofService NvmeofRestore Protocol BlockReconcile ShareBoot.

Open Scope string_scope.
Open Scope rust_scope.

Module BlockExample.

(** ** JSON *)

Abbreviation leaf := (bool + Z + string)%type.

Fixpoint to_tree (j : Json) : gen_tree leaf :=
  match j with
  | JNull => GenNode 0 []
  | JBool b => GenLeaf (inl (inl b))
  | JInt n => GenLeaf (inl (inr n))
  | JFloat s => GenNode 3 [GenLeaf (inr s)]
  | JString s => GenLeaf (inr s)
  | JArray l => GenNode 1 (map to_tree l)
  | JObject fs => GenNode 2 (map (fun kv => GenNode 4 [GenLeaf (inr (fst kv)); to_tree (snd kv)]) fs)
  end.

Fixpoint from_tree (t : gen_tree leaf) : Json :=
  match t with
  | GenLeaf (inl (inl b)) => JBool b
  | GenLeaf (inl (inr n)) => JInt n
  | GenLeaf (inr s) => JString s
  | GenNode 1 l => JArray (map from_tree l)
  | GenNode 2 l =>
      JObject (map (fun t => match t with GenNode _ [GenLeaf (inr k); v] => (k, from_tree v) | _ => ("", JNull) end) l)
  | GenNode 3 [GenLeaf (inr s)] => JFloat s
  | _ => JNull
  end.

Lemma from_to_tree : forall j, from_tree (to_tree j) = j.
Proof.
  fix IH 1. intros [|b|n|s|s|l|fs]; [reflexivity..| |]; cbn; f_equal.
  - induction l as [|j l IHl]; [reflexivity|]. cbn. f_equal; [apply IH|exact IHl].
  - induction fs as [|[k v] fs IHf]; [reflexivity|]. cbn. f_equal; [f_equal; apply IH|exact IHf].
Qed.

#[export] Instance json_codec : Codec Json := {|
  encode j := Ok (pos_print (countable.encode (to_tree j)));
  decode s := match countable.decode (pos_parse s) with Some t => Ok (from_tree t) | None => Err "not JSON" end
|}.
#[export] Instance json_codec_laws : CodecLaws Json.
Proof. intros j s [= <-]. cbn. rewrite pos_parse_print, countable.decode_encode. by rewrite from_to_tree. Qed.

(** The file of the protocols is a JSON object. *)
Definition flag (v : Json) (key : string) : bool := default false (json_get v key ≫= as_bool).
Definition state_json (s : ProtocolState) : Json :=
  JObject [("nfs", JBool (st_nfs s)); ("smb", JBool (st_smb s)); ("iscsi", JBool (st_iscsi s)); ("nvmeof", JBool (st_nvmeof s));
           ("nut", JBool (st_nut s)); ("ssh", JBool (st_ssh s)); ("avahi", JBool (st_avahi s)); ("smart", JBool (st_smart s));
           ("watchdog", JBool (st_watchdog s)); ("rest_server", JBool (st_rest_server s))].
Definition json_state (v : Json) : ProtocolState :=
  mkProtocolState (flag v "nfs") (flag v "smb") (flag v "iscsi") (flag v "nvmeof") (flag v "nut") (flag v "ssh") (flag v "avahi")
    (flag v "smart") (flag v "watchdog") (flag v "rest_server").

#[export] Instance state_codec : Codec ProtocolState := {|
  encode s := encode (state_json s);
  decode text := match decode text with Ok v => Ok (json_state v) | Err e => Err e end
|}.
#[export] Instance state_codec_laws : CodecLaws ProtocolState.
Proof.
  intros s text Hs. change (encode (state_json s) = Ok text) in Hs.
  change (match decode text with Ok v => Ok (json_state v) | Err e => Err e end = Ok s).
  rewrite (Disk.decode_encode _ _ Hs). by destruct s.
Qed.
#[export] Instance protocol_json_example : ProtocolJson.
Proof.
  intros s text Hs Hon. change (match decode text with Ok v => Ok (json_state v) | Err e => Err e end = Ok s) in Hs.
  destruct (decode text) as [v|] eqn:Hv; [|done]. injection Hs as <-. exists v. split; [done|].
  cbn in Hon. unfold flag in Hon. by destruct (json_get v "nvmeof" ≫= as_bool) as [[]|].
Qed.

(** ** Records *)

#[export] Instance blob_countable : Countable EncryptedBlob.
Proof. apply (inj_countable' blob_text mkBlob). by intros []. Defined.
#[export] Instance portal_countable : Countable Portal.
Proof. apply (inj_countable' (fun p => (po_ip p, po_port p, po_iser p)) (fun x => mkPortal x.1.1 x.1.2 x.2)). by intros []. Defined.
#[export] Instance lun_eq_dec : EqDecision Lun.
Proof. solve_decision. Defined.
#[export] Instance lun_countable : Countable Lun.
Proof.
  apply (inj_countable' (fun l => (lu_lun_id l, lu_backstore_path l, lu_backstore_name l, lu_backstore_type l, lu_size_bytes l,
      lu_backing_volume l, lu_backing_volume_unresolved l))
    (fun x => mkLun x.1.1.1.1.1.1 x.1.1.1.1.1.2 x.1.1.1.1.2 x.1.1.1.2 x.1.1.2 x.1.2 x.2)). by intros [].
Defined.
#[export] Instance acl_eq_dec : EqDecision Acl.
Proof. solve_decision. Defined.
#[export] Instance acl_countable : Countable Acl.
Proof.
  apply (inj_countable' (fun a => (ac_initiator_iqn a, ac_userid a, ac_password a, ac_password_encrypted a))
    (fun x => mkAcl x.1.1.1 x.1.1.2 x.1.2 x.2)). by intros [].
Defined.
#[export] Instance target_eq_dec : EqDecision IscsiTarget.
Proof. solve_decision. Defined.
#[export] Instance target_countable : Countable IscsiTarget.
Proof.
  apply (inj_countable' (fun t => (tg_id t, tg_iqn t, tg_alias t, tg_portals t, tg_luns t, tg_acls t, tg_enabled t))
    (fun x => mkTarget x.1.1.1.1.1.1 x.1.1.1.1.1.2 x.1.1.1.1.2 x.1.1.1.2 x.1.1.2 x.1.2 x.2)). by intros [].
Defined.
#[export] Instance target_codec : Codec IscsiTarget := count_codec IscsiTarget.
#[export] Instance target_codec_laws : CodecLaws IscsiTarget.
Proof. apply count_codec_laws. Qed.

#[export] Instance namespace_eq_dec : EqDecision Namespace.
Proof. solve_decision. Defined.
#[export] Instance namespace_countable : Countable Namespace.
Proof.
  apply (inj_countable' (fun n => (ns_nsid n, ns_device_path n, ns_enabled n, ns_backing_volume n, ns_backing_volume_unresolved n))
    (fun x => mkNamespace x.1.1.1.1 x.1.1.1.2 x.1.1.2 x.1.2 x.2)). by intros [].
Defined.
#[export] Instance port_eq_dec : EqDecision Port.
Proof. solve_decision. Defined.
#[export] Instance port_countable : Countable Port.
Proof.
  apply (inj_countable' (fun p => (pt_port_id p, pt_transport p, pt_addr p, pt_service_id p, pt_addr_family p))
    (fun x => mkPort x.1.1.1.1 x.1.1.1.2 x.1.1.2 x.1.2 x.2)). by intros [].
Defined.
#[export] Instance subsystem_eq_dec : EqDecision NvmeofSubsystem.
Proof. solve_decision. Defined.
#[export] Instance subsystem_countable : Countable NvmeofSubsystem.
Proof.
  apply (inj_countable' (fun s => (ss_id s, ss_nqn s, ss_namespaces s, ss_ports s, ss_allowed_hosts s, ss_allow_any_host s, ss_enabled s))
    (fun x => mkSubsystem x.1.1.1.1.1.1 x.1.1.1.1.1.2 x.1.1.1.1.2 x.1.1.1.2 x.1.1.2 x.1.2 x.2)). by intros [].
Defined.
#[export] Instance subsystem_codec : Codec NvmeofSubsystem := count_codec NvmeofSubsystem.
#[export] Instance subsystem_codec_laws : CodecLaws NvmeofSubsystem.
Proof. apply count_codec_laws. Qed.

Definition text_of {T} `{Codec T} (x : T) : string := match encode x with Ok s => s | Err _ => "" end.
Lemma text_decodes {T} `{Codec T} `{!CodecLaws T} (x : T) : is_ok (encode x) = true -> decode (text_of x) = Ok x.
Proof. unfold text_of. destruct (encode x) as [s|] eqn:E; [|done]. intros _. by apply Disk.decode_encode. Qed.

(** ** The kernel *)

Definition IQN : string := "iqn.2137-04.storage.nasty:t1".
Definition NQN : string := "nqn.2137-04.storage.nasty:s1".
Definition INITIATOR : string := "iqn.1993-08.org.debian:host".
Definition TPG : Path := ["sys"; "kernel"; "config"; "target"; "iscsi"; IQN; "tpgt_1"].
Definition NS1 : Path := ["sys"; "kernel"; "config"; "nvmet"; "subsystems"; NQN; "namespaces"; "1"].

(** Access entries come with their credentials, all other objects with nothing. *)
#[export] Instance toy_configfs : ConfigFs := {|
  new_items p := match list.last (removelast p) with
                 | Some d => if d =s "acls" then [(["attrib"], None); (["attrib"; "authentication"], Some "0"); (["auth"], None);
                                                  (["auth"; "userid"], Some ""); (["auth"; "password"], Some "")] else []
                 | None => []
                 end;
  attr_text v := v
|}.
#[export] Instance toy_configfs_laws : ConfigFsLaws.
Proof. done. Qed.
#[export] Instance toy_starts_disabled : StartsDisabled.
Proof.
  intros p i v Hin Hl. cbn in Hin. destruct (list.last (removelast p)) as [d|]; [|by apply not_elem_of_nil in Hin].
  destruct (d =s "acls"); [|by apply not_elem_of_nil in Hin].
  rewrite last_app in Hl. repeat first [apply elem_of_cons in Hin as [[= -> ->]|Hin]; [done|] | apply elem_of_cons in Hin as [[=]|Hin]].
  by apply not_elem_of_nil in Hin.
Qed.

Fixpoint prefixes (p : Path) : list Path :=
  match p with [] => [] | c :: p' => [c] :: ((fun q => c :: q) <$> prefixes p') end.

Definition nodes : list (Path * Node) :=
  [((TPG ++ ["enable"])%list, NAttr "1"); ((TPG ++ ["attrib"; "generate_node_acls"])%list, NAttr "1");
   ((TPG ++ ["attrib"; "authentication"])%list, NAttr "0");
   ((NS1 ++ ["enable"])%list, NAttr "1"); ((NS1 ++ ["device_path"])%list, NAttr "/dev/loop0"); ((NS1 ++ ["buffered_io"])%list, NAttr "0");
   (["sys"; "kernel"; "config"; "nvmet"; "subsystems"; NQN; "attr_allow_any_host"], NAttr "0")]
  ++ ((fun p => (p, NDir true)) <$> prefixes (TPG ++ ["acls"])%list) ++ ((fun p => (p, NDir true)) <$> drop 3 (prefixes NS1)).

Definition live_tree : Tree := list_to_map nodes.

(** ** The disk *)

Definition volume (n : Z) : BlockVolumeId := mkVolumeId "fs-uuid" n.
Definition mappings : BlockDeviceMappings := mkMappings {[volume 7 := "/dev/loop5"; volume 8 := "/dev/loop6"]} ∅.

Definition target1 : IscsiTarget :=
  mkTarget "t1" IQN None [mkPortal "0.0.0.0" 3260 false] [mkLun 0 "/dev/loop1" "t1_lun0" "block" None (Some (volume 7)) false] [] true.
Definition subsystem1 : NvmeofSubsystem :=
  mkSubsystem "s1" NQN [mkNamespace 1 "/dev/loop0" true (Some (volume 8)) false] [] [] false true.
Definition saveconfig : Json :=
  JObject [("storage_objects", JArray [JObject [("name", JString "t1_lun0"); ("dev", JString "/dev/loop1")]]);
           ("targets", JArray [JObject [("wwn", JString IQN)]])].
Definition protocols : ProtocolState := st_set (st_set protocol_default Nvmeof true) Iscsi true.

Definition regular (text : string) : File := mkFile Regular 420 engine_uid text.
Definition disk_files : list (Path * File) :=
  [(["var"; "lib"; "nasty"; "shares"; "iscsi"; "t1.json"], regular (text_of target1));
   (["var"; "lib"; "nasty"; "shares"; "nvmeof"; "s1.json"], regular (text_of subsystem1));
   (SAVECONFIG, regular (text_of saveconfig)); (PROTOCOLS_PATH, regular (text_of protocols))].
Definition block_disk : Disk := list_to_map disk_files.

Definition block_world (faults : list (option IoErr)) : BlockWorld := mkBlockWorld block_disk (mkKernel live_tree faults) [] [].

(** What is on the disk and in the tree, case by case. *)
Lemma disk_case p f : block_disk !! p = Some f -> (p, f) ∈ disk_files.
Proof. apply elem_of_list_to_map_2. Qed.

Lemma tree_case p v : attr live_tree p = Some v -> (p, NAttr v) ∈ nodes.
Proof. intros Hp%attr_Some. by apply elem_of_list_to_map_2. Qed.

Ltac cases H := unfold disk_files in H; repeat (apply elem_of_cons in H as [[=]|H]); [..|by apply not_elem_of_nil in H].

Lemma disk_plain : plain block_disk.
Proof. intros p f Hf%disk_case. cases Hf; by subst. Qed.

Lemma target_text : decode (text_of target1) = Ok target1.
Proof. by apply text_decodes. Qed.
Lemma subsystem_text : decode (text_of subsystem1) = Ok subsystem1.
Proof. by apply text_decodes. Qed.
Lemma protocols_text : decode (text_of protocols) = Ok protocols.
Proof. by apply text_decodes. Qed.

Lemma iscsi_dir : dir_ok (T := IscsiTarget) ISCSI_STATE_DIR block_disk.
Proof.
  split; [intros n f Hf; by eapply disk_plain|]. intros n f x Hf%disk_case _ Hx. unfold ISCSI_STATE_DIR in Hf. cases Hf. subst.
  change (decode (text_of target1) = Ok x) in Hx. rewrite target_text in Hx. by injection Hx as <-.
Qed.

Lemma nvmeof_dir : dir_ok (T := NvmeofSubsystem) NVMEOF_STATE_DIR block_disk.
Proof.
  split; [intros n f Hf; by eapply disk_plain|]. intros n f x Hf%disk_case _ Hx. unfold NVMEOF_STATE_DIR in Hf. cases Hf. subst.
  change (decode (text_of subsystem1) = Ok x) in Hx. rewrite subsystem_text in Hx. by injection Hx as <-.
Qed.

Lemma t1_valid : valid_id "t1".
Proof. by split. Qed.
Lemma sub1_valid : valid_id "s1".
Proof. by split. Qed.

Lemma target_stored : stored ISCSI_STATE_DIR block_disk "t1" = Some target1.
Proof.
  unfold stored. rewrite item_path_eq by done.
  assert (block_disk !! (dir ISCSI_STATE_DIR ++ [("t1" ++ ".json")%string])%list = Some (regular (text_of target1))) as ->
    by (apply elem_of_list_to_map_1; [by repeat constructor; set_solver|by left]).
  cbn [f_content regular]. by rewrite target_text.
Qed.

Lemma subsystem_stored : stored NVMEOF_STATE_DIR block_disk "s1" = Some subsystem1.
Proof.
  unfold stored. rewrite item_path_eq by done.
  assert (block_disk !! (dir NVMEOF_STATE_DIR ++ [("s1" ++ ".json")%string])%list = Some (regular (text_of subsystem1))) as ->
    by (apply elem_of_list_to_map_1; [by repeat constructor; set_solver|by right; left]).
  cbn [f_content regular]. by rewrite subsystem_text.
Qed.

#[export] Instance toy_vault : Vault := {| seal _ plain := Ok (mkBlob plain); unseal _ b := Ok (blob_text b) |}.
#[export] Instance toy_modules : KernelModules := fun _ => [].

(** ** Remapping the targets *)

Definition safe_of {E} (r : result DeviceRemapOutcome E) : bool := match r with Ok o => safe_to_restore o | Err _ => false end.

Lemma remap_safe : safe_of (remap_device_paths_iscsi mappings (block_world [])).1 = true.
Proof. vm_compute. reflexivity. Qed.

(** The target is restored on the device its volume has now. *)
Lemma exports_restored_on_their_volumes_witness :
  exists o w', remap_device_paths_iscsi mappings (block_world []) = (Ok o, w') /\ safe_to_restore o = true /\ restorable mappings w'.
Proof.
  destruct (exports_restored_on_their_volumes mappings (block_world []) iscsi_dir (disk_plain SAVECONFIG) (Forall_nil_2 _))
    as (o & w' & Hrun & Hsafe). exists o, w'.
  assert (safe_to_restore o = true) as Ho by (pose proof remap_safe as Hs; rewrite Hrun in Hs; exact Hs).
  exact (conj Hrun (conj Ho (Hsafe Ho))).
Defined.

(** ** Bringing the exports back *)

Definition proto_env : ProtoEnv := mkProtoEnv false false NutLocal false (Ok tt) (Ok tt) (Ok tt) true.
Definition share_env : ShareEnv := mkShareEnv proto_env (mkNvmeofEnv "u" (fun _ => true) None None) (fun _ => fenv).
Definition firewall : FirewallConfig :=
  with_state (protocol_rules (fc_restrictions config_default) ((fun p => (p, false)) <$> ALL_PROTOCOLS)) config_default.
Definition share_world : ShareWorld := mkShareWorld (mkProtoWorld (block_world []) ∅ []) firewall None.

Lemma protocols_file : block_disk !! PROTOCOLS_PATH = Some (regular (text_of protocols)).
Proof. apply elem_of_list_to_map_1; [by repeat constructor; set_solver|]. by do 3 right; left. Qed.

(** The only namespace the kernel has. *)
Lemma live_case nqn n v : attr live_tree (enable_of nqn n) = Some v -> nqn = NQN /\ n = "1" /\ v = "1".
Proof.
  intros Hv%tree_case. unfold nodes, enable_of, live_namespaces in Hv. cbn in Hv.
  repeat (apply elem_of_cons in Hv as [Hv|Hv]; [first [discriminate Hv|injection Hv as -> -> ->; done]|]).
  by apply not_elem_of_nil in Hv.
Qed.

Lemma live_orderly : orderly live_tree.
Proof.
  intros nqn n v _ (-> & -> & ->)%live_case. split_and!; [|done..|].
  - split_and!; vm_compute; done || by eexists.
  - intros nsid. vm_compute. by intros [= <-].
Qed.

Lemma live_agrees ss : records (block_world []) ss -> agrees ss live_tree.
Proof.
  intros [_ Hall] nqn n _ v Hv _. change ((nv_path nqn n ++ ["enable"])%list) with ((live_namespaces nqn ++ [n])%list ++ ["enable"])%list in Hv.
  rewrite <- app_assoc in Hv. apply (live_case nqn n v) in Hv as (-> & -> & ->). exists "/dev/loop0". split; [vm_compute; reflexivity|].
  exists subsystem1, (mkNamespace 1 "/dev/loop0" true (Some (volume 8)) false). split_and!; [|by left|vm_compute; reflexivity|done|done].
  apply Hall. split; [apply sub1_valid|apply subsystem_stored].
Qed.

Lemma world_settled : settled (sw_block share_world).
Proof.
  split; [apply disk_plain|apply nvmeof_dir|apply iscsi_dir|constructor|by intros F ?%not_elem_of_nil|constructor|apply live_orderly| |apply live_agrees].
  exists (regular (text_of protocols)), protocols. split_and!; [apply protocols_file|apply protocols_text|reflexivity].
Qed.

Definition reconcile_run : result unit string * ShareWorld := reconcile_block_shares_under_lock share_env mappings share_world.
Definition reconciled : ShareWorld := reconcile_run.2.
Lemma reconcile_ok : reconcile_block_shares_under_lock share_env mappings share_world = (Ok tt, reconciled).
Proof. apply (run_split reconcile_run). vm_compute. reflexivity. Qed.

(** The namespace is live again, on the device its volume has now. *)
Lemma namespace_is_live :
  attr (bw_tree (sw_block reconciled)) (enable_of NQN "1") = Some "1" /\
  attr (bw_tree (sw_block reconciled)) (NS1 ++ ["device_path"])%list = Some "/dev/loop6".
Proof. split; vm_compute; reflexivity. Qed.

(** ** Boot *)

Definition boot_run : result (list Protocol) string * ShareWorld := boot_shares share_env ["tank"] mappings share_world.
Definition booted : ShareWorld := boot_run.2.
Definition came_up : list Protocol := [Iscsi; Nvmeof; Ssh; Avahi; Smart].
Lemma boot_run_ok : boot_shares share_env ["tank"] mappings share_world = (Ok came_up, booted).
Proof. apply (run_split boot_run). vm_compute. reflexivity. Qed.

Lemma world_bootable : bootable (sw_block share_world).
Proof. split; [apply disk_plain|apply nvmeof_dir|apply iscsi_dir|constructor|constructor]. Qed.

Lemma firewall_once : rules_once (fc_state (sw_config share_world)).
Proof. apply (bool_decide_unpack _). vm_compute. reflexivity. Qed.

(** NFS stays closed because a filesystem is missing; iSCSI is open and restorable. *)
Lemma boot_opens_what_came_up_witness :
  (forall ru, ru ∈ fc_state (sw_config booted) -> r_service ru = "iscsi" -> r_active ru = true) /\
  (forall ru, ru ∈ fc_state (sw_config booted) -> r_service ru = "nfs" -> r_active ru = false) /\
  pw_units (sw_proto booted) !! "target.service" = Some true /\ restorable mappings (sw_block booted).
Proof.
  destruct (boot_opens_what_came_up share_env ["tank"] mappings share_world came_up booted world_bootable firewall_once boot_run_ok)
    as (Hrules & _ & Hunits & _ & (Hi & _)).
  assert (Iscsi ∈ came_up) as Hin by (left).
  split; [intros ru Hru Hs; apply (Hrules Iscsi ru Hru Hs); exact Hin|].
  split; [|split; [exact (Hunits Iscsi "target.service" Hin ltac:(left))|exact (Hi Hin)]].
  intros ru Hru Hs. destruct (r_active ru) eqn:E; [|reflexivity]. apply (Hrules Nfs ru Hru Hs) in E. exfalso.
  repeat (apply elem_of_cons in E as [E|E]; [discriminate E|]). exact (not_elem_of_nil _ E).
Defined.

(** ** Access lists *)

(** Every call from the eleventh on fails. *)
Definition storm : list (option IoErr) := (replicate 8 None ++ replicate 40 (Some (OtherIo "I/O error")))%list.

Lemma dirs_check t p : forallb (fun k => is_dir t (take (S k) p)) (seq 0 (length p - 1)) = true -> dirs_above t p.
Proof.
  intros Hall m r -> Hm Hr. rewrite forallb_forall in Hall. specialize (Hall (length m - 1)).
  destruct m as [|c m]; [done|]. destruct r as [|d r]; [done|]. replace (S (length (c :: m) - 1)) with (length (c :: m)) in Hall by (cbn; lia).
  rewrite take_app_length in Hall. apply Hall, in_seq. rewrite length_app. cbn. lia.
Qed.

Lemma entry_ready : acl_ready live_tree target1 INITIATOR "1" "1".
Proof.
  split; [vm_compute; reflexivity|vm_compute; reflexivity|split; vm_compute; reflexivity| |vm_compute; reflexivity].
  apply dirs_check. vm_compute. reflexivity.
Qed.

Definition acl_run (faults : list (option IoErr)) : result IscsiTarget IscsiError * BlockWorld :=
  add_acl "t1" INITIATOR (Some "u") (Some "secret") (block_world faults).

(** Without failures the entry is in place; in the storm the target is down. *)
Lemma acl_changes_fail_closed_witness :
  is_ok (acl_run []).1 = true /\
  (acl_outcome target1 INITIATOR (Some "u") (Some "secret") true "1" "1" (block_world []) (acl_run []).1 (acl_run []).2 /\
   rest_kept target1 INITIATOR (bw_tree (block_world [])) (bw_tree (acl_run []).2)) /\
  is_ok (acl_run storm).1 = false /\
  (acl_outcome target1 INITIATOR (Some "u") (Some "secret") true "1" "1" (block_world storm) (acl_run storm).1 (acl_run storm).2 /\
   rest_kept target1 INITIATOR (bw_tree (block_world storm)) (bw_tree (acl_run storm).2)).
Proof.
  split; [vm_compute; reflexivity|]. split.
  - exact (acl_changes_fail_closed (block_world []) target1 INITIATOR (Some "u") (Some "secret") "1" "1" iscsi_dir t1_valid
      target_stored eq_refl entry_ready).
  - split; [vm_compute; reflexivity|].
    exact (acl_changes_fail_closed (block_world storm) target1 INITIATOR (Some "u") (Some "secret") "1" "1" iscsi_dir t1_valid
      target_stored eq_refl entry_ready).
Defined.

Example storm_target_down : attr (bw_tree (acl_run storm).2) (TPG ++ ["enable"])%list = Some "0".
Proof. vm_compute. reflexivity. Qed.

(** ** A failed reconciliation is not retried *)

(** The firewall does not reload while the namespaces are given their devices. *)
Definition nft_down : FwEnv := mkFwEnv no_complaint nft_fails no_complaint nft_fails "u" "r1" no_faults.
Definition flaky_env : ShareEnv := mkShareEnv proto_env (mkNvmeofEnv "u" (fun _ => true) None None) (fun _ => nft_down).
Definition first_try : result unit string * ShareWorld := reconcile_block_shares_under_lock flaky_env mappings share_world.
Definition second_try : result unit string * ShareWorld := reconcile_block_shares_under_lock share_env mappings first_try.2.

(** The first call fails and leaves the namespace live on the device of another volume; the next one finds
    nothing changed, reports success and leaves it there. *)
Example stale_namespace_survives_retry :
  is_ok first_try.1 = false /\ second_try.1 = Ok tt /\
  attr (bw_tree (sw_block second_try.2)) (enable_of NQN "1") = Some "1" /\
  attr (bw_tree (sw_block second_try.2)) (NS1 ++ ["device_path"])%list = Some "/dev/loop0" /\
  bm_current mappings !! volume 8 = Some "/dev/loop6".
Proof. split_and!; vm_compute; reflexivity. Qed.

End BlockExample.
