(* ===== verification/Subvolume.v ===== *)
(** * Subvolumes: engine/nasty-storage/src/subvolume.rs, the data and the pure parts

    Subvolumes and snapshots as the engine reports them, the requests, the
    checks of names, owners, sizes and storage policies, and what the output of
    the tools means; with the calls of the kernel and of other programs the
    service makes, as one type [Sys], and [cmd::run_ok] on top of them. *)
From Stdlib Require Import String Ascii ZArith.
From stdpp Require Import base list gmap strings numbers sorting.
From S2P Require Import Prelude RustStr Disk FileShare Iscsi.

Open Scope string_scope.
Open Scope rust_scope.

(** ** Names *)

Definition BLOCK_FILE_NAME : string := "vol.img".
Definition LEGACY_EXPORT_EVIDENCE : string := "/run/nasty-block-export-legacy-evidence.json".

Definition subvol_path (mount_point name : string) : string := mount_point ++ "/" ++ name.
Definition snap_path (mount_point subvol snap : string) : string := mount_point ++ "/" ++ subvol ++ "@" ++ snap.
Definition img_path (path : string) : string := path ++ "/" ++ BLOCK_FILE_NAME.

Definition XATTR_NS : string := "user.".
Definition XATTR_NASTY_TYPE : string := "user.nasty.type".
Definition XATTR_NASTY_VOLSIZE : string := "user.nasty.volsize".
Definition XATTR_NASTY_COMPRESSION : string := "user.nasty.compression".
Definition XATTR_NASTY_COMMENT : string := "user.nasty.comment".
Definition XATTR_NASTY_OWNER : string := "user.nasty.owner".
Definition XATTR_NASTY_DIRECT_IO : string := "user.nasty.direct_io".
Definition XATTR_NASTY_BLOCK_FILESYSTEM : string := "trusted.nasty.block_filesystem".
Definition XATTR_NASTY_BLOCK_FILESYSTEM_UUID : string := "trusted.nasty.block_filesystem_uuid".
Definition XATTR_NASTY_PROVISIONING_STATE : string := "trusted.nasty.provisioning_state".
Definition XATTR_NASTY_CLONE_SOURCE : string := "trusted.nasty.clone_source".
Definition NASTY_KEY_PREFIX : string := "nasty.".
Definition BCACHEFS_EFFECTIVE_NS : string := "bcachefs_effective.".
Definition BCACHEFS_NS : string := "bcachefs.".

(** ** Errors *)

Inductive SubvolumeError :=
| SvFilesystemNotFound (name : string)
| SvFilesystemNotMounted (name : string)
| SvAlreadyExists (name : string)
| SvNotFound (name : string)
| SvAccessDenied
| SvVolsizeRequired
| SvBlockFilesystemRequiresBlock
| SvReservedProperty (key : string)
| SvExistingIncompatible (msg : string)
| SvInvalidName (msg : string)
| SvInvalidVolsize (msg : string)
| SvInvalidStoragePolicy (msg : string)
| SvShrinkNotSupported (current requested : Z)
| SvChildrenStuck (children : string)
| SvLoopDetachFailed (device reason : string)
| SvCommandFailed (msg : string)
| SvIo (e : IoErr).

Definition display_subvolume_error (e : SubvolumeError) : string :=
  match e with
  | SvFilesystemNotFound s => "filesystem not found: " ++ s
  | SvFilesystemNotMounted s => "filesystem not mounted: " ++ s
  | SvAlreadyExists s => "subvolume already exists: " ++ s
  | SvNotFound s => "subvolume not found: " ++ s
  | SvAccessDenied => "access denied"
  | SvVolsizeRequired => "volsize is required for block subvolumes"
  | SvBlockFilesystemRequiresBlock => "block_filesystem is only valid for block subvolumes"
  | SvReservedProperty s => "property key is reserved for internal metadata: " ++ s
  | SvExistingIncompatible s => "existing subvolume is incompatible with the create request: " ++ s
  | SvInvalidName s => "invalid name: " ++ s
  | SvInvalidVolsize s => "invalid volsize: " ++ s
  | SvInvalidStoragePolicy s => "invalid storage policy: " ++ s
  | SvShrinkNotSupported c r => "cannot shrink subvolume from " ++ fmt_Z c ++ " to " ++ fmt_Z r ++ " bytes"
  | SvChildrenStuck s => "could not delete child subvolume(s): " ++ s
  | SvLoopDetachFailed d r => "could not detach loop device " ++ d ++ ": " ++ r
  | SvCommandFailed s => "command failed: " ++ s
  | SvIo e => "io error: " ++ display_io e
  end.

(** ** Checks of names *)

Definition MAX_VOLSIZE_BYTES : Z := 256 * 1024 * 1024 * 1024 * 1024.

Definition check_component (c : string) : result unit SubvolumeError :=
  if c =s "" then Err (SvInvalidName "name must not contain empty path components ('//')")
  else if (c =s "..") || (c =s ".") then Err (SvInvalidName "name must not contain '.' or '..' components")
  else if contains_char "@" c then Err (SvInvalidName "name must not contain '@' (reserved for snapshot syntax)")
  else if any_control c then Err (SvInvalidName "name must not contain control characters")
  else Ok tt.

Fixpoint check_components (cs : list string) : result unit SubvolumeError :=
  match cs with
  | [] => Ok tt
  | c :: cs => match check_component c with Ok _ => check_components cs | Err e => Err e end
  end.

Definition validate_subvolume_name (name : string) : result unit SubvolumeError :=
  if name =s "" then Err (SvInvalidName "name is empty")
  else if (200 <? String.length name)%nat then Err (SvInvalidName "name exceeds 200 chars")
  else if starts_with "/" name then Err (SvInvalidName "name must not start with '/'")
  else if starts_with "." name then Err (SvInvalidName "name must not start with '.'")
  else check_components (split "/" name).

Definition validate_existing_snapshot_name (subvolume snapshot : string) : result unit SubvolumeError :=
  match validate_subvolume_name subvolume with
  | Err e => Err e
  | Ok _ =>
      if snapshot =s "" then Err (SvInvalidName "snapshot name is empty")
      else if contains_char "/" snapshot then Err (SvInvalidName "snapshot name must be one path component")
      else if any_control snapshot then Err (SvInvalidName "snapshot name must not contain control characters")
      else
        let source_component := default subvolume (list.last (split "/" subvolume)) in
        if (255 <? String.length source_component + 1 + String.length snapshot)%nat
        then Err (SvInvalidName "combined subvolume@snapshot name exceeds 255 bytes")
        else Ok tt
  end.

Definition validate_snapshot_name (subvolume snapshot : string) : result unit SubvolumeError :=
  match validate_existing_snapshot_name subvolume snapshot with
  | Err e => Err e
  | Ok _ =>
      if (200 <? String.length snapshot)%nat then Err (SvInvalidName "snapshot name exceeds 200 bytes")
      else if starts_with "." snapshot then Err (SvInvalidName "snapshot name must not start with '.'")
      else if contains_char "@" snapshot then Err (SvInvalidName "snapshot name must not contain '@'")
      else Ok tt
  end.

(** ** Owners *)

Definition require_owner (actual required : option string) : result unit SubvolumeError :=
  match required with
  | Some r => if decide (actual = Some r) then Ok tt else Err SvAccessDenied
  | None => Ok tt
  end.

Definition authorize_snapshot_provenance (snapshot_owner parent_owner owner_filter : option string)
    (allow_admin_override : bool) : result unit SubvolumeError :=
  if allow_admin_override then Ok tt
  else
    match require_owner parent_owner owner_filter with
    | Err e => Err e
    | Ok _ =>
        match require_owner snapshot_owner owner_filter with
        | Err e => Err e
        | Ok _ => if decide (snapshot_owner = parent_owner) then Ok tt else Err SvAccessDenied
        end
    end.

Definition authorize_orphan_snapshot (snapshot_owner owner_filter : option string) (allow_admin_override : bool)
  : result unit SubvolumeError :=
  if allow_admin_override then Ok tt
  else match owner_filter with None => Err SvAccessDenied | Some o => require_owner snapshot_owner (Some o) end.

(** ** Sizes *)

Definition validate_volsize_bytes (bytes : Z) : result unit SubvolumeError :=
  if (bytes =? 0)%Z then Err (SvInvalidVolsize "volsize must be greater than zero")
  else if (MAX_VOLSIZE_BYTES <? bytes)%Z
  then Err (SvInvalidVolsize ("volsize " ++ fmt_Z bytes ++ " exceeds maximum " ++ fmt_Z MAX_VOLSIZE_BYTES ++ " (256 TiB)"))
  else Ok tt.

Definition validate_grow_only (current requested : Z) : result unit SubvolumeError :=
  if (requested <? current)%Z then Err (SvShrinkNotSupported current requested) else Ok tt.

(** [u64]: a product wraps in a release build; [saturating_mul] stops at the largest value. *)
Definition wrapping_mul (a b : Z) : Z := ((a * b) mod u64_modulus)%Z.
Definition saturating_mul (a b : Z) : Z := Z.min (a * b) (u64_modulus - 1).
Definition div_ceil (a b : Z) : Z := ((a + b - 1) / b)%Z.

Definition quota_kib_from_bytes (bytes : Z) : Z := div_ceil bytes 1024.
Definition quota_bytes_from_request (bytes : Z) : Z := wrapping_mul (quota_kib_from_bytes bytes) 1024.

Definition max_option (a b : option Z) : option Z :=
  match a, b with Some a, Some b => Some (Z.max a b) | Some a, None => Some a | None, b => b end.

Definition filesystem_capacity_bound (quota_bytes recorded_bytes used_bytes : option Z) : option Z :=
  match max_option quota_bytes recorded_bytes with
  | Some declared_capacity => Some (Z.max declared_capacity (default 0%Z used_bytes))
  | None => None
  end.

Definition is_already_detached (err : string) : bool :=
  let lower := to_ascii_lowercase err in
  contains_str "no such device" lower || contains_str "not in use" lower.

(** ** Subvolumes *)

Inductive SubvolumeType := TFilesystem | TBlock.
Inductive BlockFilesystem := Ext3 | Ext4 | Xfs.

#[export] Instance SubvolumeType_eq_dec : EqDecision SubvolumeType.
Proof. solve_decision. Defined.
#[export] Instance BlockFilesystem_eq_dec : EqDecision BlockFilesystem.
Proof. solve_decision. Defined.

Definition as_str (f : BlockFilesystem) : string := match f with Ext3 => "ext3" | Ext4 => "ext4" | Xfs => "xfs" end.
Definition mkfs_program (f : BlockFilesystem) : string :=
  match f with Ext3 => "mkfs.ext3" | Ext4 => "mkfs.ext4" | Xfs => "mkfs.xfs" end.

Definition debug_type (t : SubvolumeType) : string := match t with TFilesystem => "Filesystem" | TBlock => "Block" end.
Definition debug_block_filesystem (f : BlockFilesystem) : string := match f with Ext3 => "Ext3" | Ext4 => "Ext4" | Xfs => "Xfs" end.
Definition debug_option {A} (show : A -> string) (o : option A) : string :=
  match o with Some a => "Some(" ++ show a ++ ")" | None => "None" end.

Record Subvolume := mkSubvolume {
  sv_name : string;
  sv_filesystem : string;
  sv_type : SubvolumeType;
  sv_path : string;
  sv_used_bytes : option Z;
  sv_quota_bytes : option Z;
  sv_compression : option string;
  sv_comments : option string;
  sv_volsize_bytes : option Z;
  sv_block_device : option string;
  sv_block_volume_id : option BlockVolumeId;
  sv_block_filesystem : option BlockFilesystem;
  sv_block_filesystem_uuid : option string;
  sv_snapshots : list string;
  sv_owner : option string;
  sv_properties : gmap string string;
  sv_parent : option string;
  sv_direct_io : bool;
  sv_bcachefs_options : gmap string string;
  sv_bcachefs_overrides : gmap string string;
  sv_bcachefs_inherited_options : gmap string string;
  sv_created : bool
}.

Record Snapshot := mkSnapshot {
  sn_name : string;
  sn_subvolume : string;
  sn_filesystem : string;
  sn_path : string;
  sn_read_only : bool;
  sn_parent : option string;
  sn_block_device : option string;
  sn_created_at : option Z
}.

Record SubvolumeMeta := mkMeta {
  me_type : SubvolumeType;
  me_volsize_bytes : option Z;
  me_compression : option string;
  me_comments : option string;
  me_owner : option string;
  me_direct_io : bool;
  me_block_filesystem : option BlockFilesystem;
  me_block_filesystem_uuid : option string
}.

Record SubvolumeAttrs := mkAttrs {
  at_meta : SubvolumeMeta;
  at_properties : gmap string string;
  at_bcachefs_options : gmap string string;
  at_bcachefs_overrides : gmap string string
}.

(** ** Requests *)

Record CreateSubvolumeRequest := mkCreateSubvolume {
  cv_filesystem : string;
  cv_name : string;
  cv_type : SubvolumeType;
  cv_volsize_bytes : option Z;
  cv_compression : option string;
  cv_comments : option string;
  cv_direct_io : option bool;
  cv_foreground_target : option string;
  cv_background_target : option string;
  cv_promote_target : option string;
  cv_metadata_target : option string;
  cv_data_replicas : option Z;
  cv_block_filesystem : option BlockFilesystem
}.

Definition default_type : SubvolumeType := TFilesystem.

Record DeleteSubvolumeRequest := mkDeleteSubvolume { dv_filesystem : string; dv_name : string }.
Record CreateSnapshotRequest := mkCreateSnapshot {
  cn_filesystem : string; cn_subvolume : string; cn_name : string; cn_read_only : option bool }.
Record DeleteSnapshotRequest := mkDeleteSnapshot { dn_filesystem : string; dn_subvolume : string; dn_name : string }.
Record CloneSnapshotRequest := mkCloneSnapshot {
  ln_filesystem : string; ln_subvolume : string; ln_snapshot : string; ln_new_name : string }.
Record RollbackSnapshotRequest := mkRollback { rb_filesystem : string; rb_subvolume : string; rb_snapshot : string }.
Record RollbackResult := mkRollbackResult { rr_subvolume : Subvolume; rr_safety_snapshot : string }.
Record CloneSubvolumeRequest := mkCloneSubvolume { lv_filesystem : string; lv_name : string; lv_new_name : string }.
Record ResizeSubvolumeRequest := mkResize { rs_filesystem : string; rs_name : string; rs_volsize_bytes : Z }.

Inductive SubvolumeErasureCode := EcInherit | EcEnabled | EcDisabled.

Definition file_option (e : SubvolumeErasureCode) : string :=
  match e with
  | EcInherit => "--erasure_code=-"
  | EcEnabled => "--erasure_code=1"
  | EcDisabled => "--erasure_code=0"
  end.

Record UpdateSubvolumeRequest := mkUpdateSubvolume {
  uv_filesystem : string;
  uv_name : string;
  uv_compression : option string;
  uv_comments : option string;
  uv_foreground_target : option string;
  uv_background_target : option string;
  uv_promote_target : option string;
  uv_metadata_target : option string;
  uv_data_replicas : option Z;
  uv_erasure_code : option SubvolumeErasureCode
}.

Record SetPropertiesRequest := mkSetProperties { sp_filesystem : string; sp_name : string; sp_properties : gmap string string }.
Record RemovePropertiesRequest := mkRemoveProperties { rp_filesystem : string; rp_name : string; rp_keys : list string }.
Record FindByPropertyRequest := mkFindByProperty { fp_filesystem : option string; fp_key : string; fp_value : string }.

(** ** Storage policies *)

Definition option_enabled (value : option string) : bool :=
  match value with Some v => (v =s "1") || (v =s "true") || (v =s "yes") || (v =s "on") | None => false end.

Definition parse_u32 (s : string) : option Z := parse_unsigned (2 ^ 32 - 1) s.
Definition parse_u64 (s : string) : option Z := parse_unsigned (u64_modulus - 1) s.

Definition option_replicas (options : gmap string string) : Z :=
  default 1%Z (options !! "data_replicas" ≫= parse_u32).

Definition option_replicas_or (options fallback : gmap string string) : Z :=
  match options !! "data_replicas" ≫= parse_u32 with Some n => n | None => option_replicas fallback end.

Definition option_enabled_or (options fallback : gmap string string) : bool :=
  match options !! "erasure_code" with
  | Some v => option_enabled (Some v)
  | None => option_enabled (fallback !! "erasure_code")
  end.

(** [entry(k).or_insert(v)] *)
Definition or_insert (k v : string) (m : gmap string string) : gmap string string :=
  match m !! k with Some _ => m | None => <[k := v]> m end.

Definition add_storage_defaults (options : gmap string string) (data_replicas : Z) (erasure_code : bool) : gmap string string :=
  or_insert "erasure_code" (if erasure_code then "1" else "0") (or_insert "data_replicas" (fmt_Z data_replicas) options).

Definition validate_storage_policy (data_replicas : Z) (erasure_code : bool) : result unit SubvolumeError :=
  if erasure_code && negb ((2 <=? data_replicas)%Z && (data_replicas <=? 3)%Z)
  then Err (SvInvalidStoragePolicy ("erasure coding requires 2 or 3 data replicas (got " ++ fmt_Z data_replicas ++ ")"))
  else Ok tt.

Definition compression_file_option (value : string) : string * bool :=
  if (value =s "inherit") || (value =s "-") then ("-", true)
  else if (value =s "none") || (value =s "") then ("none", true)
  else (value, false).

(** ** What bcachefs lists *)

Record BcachefsListEntry := mkEntry {
  be_path : string;
  be_subvolid : option Z;
  be_flags : option string;
  be_snapshot_parent : option string;
  be_otime_unix : option Z
}.

Record BcachefsInfo := mkInfo {
  bi_subvol_paths : gset string;
  bi_subvolume_ids : gmap string Z;
  bi_snapshot_flags : gmap string bool;
  bi_snapshot_parents : gmap string string;
  bi_snapshot_created_at : gmap string Z
}.

Definition empty_info : BcachefsInfo := mkInfo ∅ ∅ ∅ ∅ ∅.

Definition strip_slash (p : string) : string := default p (strip_prefix "/" p).

Definition add_entry (i : BcachefsInfo) (e : BcachefsListEntry) : BcachefsInfo :=
  let ids := match be_subvolid e with Some n => <[be_path e := n]> (bi_subvolume_ids i) | None => bi_subvolume_ids i end in
  let is_ro := bool_decide (be_flags e = Some "ro") in
  match be_snapshot_parent e with
  | Some p =>
      let parents := <[be_path e := strip_slash p]> (bi_snapshot_parents i) in
      if is_ro
      then mkInfo (bi_subvol_paths i) ids (<[be_path e := true]> (bi_snapshot_flags i)) parents
             (match be_otime_unix e with Some t => <[be_path e := t]> (bi_snapshot_created_at i) | None => bi_snapshot_created_at i end)
      else mkInfo ({[be_path e]} ∪ bi_subvol_paths i) ids (bi_snapshot_flags i) parents (bi_snapshot_created_at i)
  | None => mkInfo ({[be_path e]} ∪ bi_subvol_paths i) ids (bi_snapshot_flags i) (bi_snapshot_parents i) (bi_snapshot_created_at i)
  end.

Definition build_bcachefs_info (entries : list BcachefsListEntry) : BcachefsInfo := foldl add_entry empty_info entries.

(** ** Project quotas *)

Record ProjectQuotaInfo := mkQuota { pq_used_bytes : Z; pq_hard_bytes : Z }.

Definition project_quota_info (curspace_bytes bhardlimit_blocks : Z) : ProjectQuotaInfo :=
  mkQuota curspace_bytes (saturating_mul bhardlimit_blocks 1024).

(** The payload of [quotactl], and what [Q_GETNEXTQUOTA] adds to it. *)
Record IfDqblk := mkDqblk {
  dqb_bhardlimit : Z; dqb_bsoftlimit : Z; dqb_curspace : Z; dqb_ihardlimit : Z; dqb_isoftlimit : Z;
  dqb_curinodes : Z; dqb_btime : Z; dqb_itime : Z; dqb_valid : Z }.
Record IfNextDqblk := mkNextDqblk { nq_block : IfDqblk; nq_id : Z }.

Definition QIF_BLIMITS : Z := 1.
Definition project_quota_limit (blocks : Z) : IfDqblk := mkDqblk blocks blocks 0 0 0 0 0 0 QIF_BLIMITS.

(** [DefaultHasher] over the two names. *)
Class ProjectHash := hash_names : string -> string -> Z.

Definition project_id_for `{ProjectHash} (filesystem name : string) : Z :=
  Z.max (Z.land (hash_names filesystem name) 0xFFFFFFFF) 1.

Definition project_id_needs_update (current : option Z) (expected : Z) : bool := negb (bool_decide (current = Some expected)).

(** The upper parts stay where the shift leaves them; [as u32] keeps the low bits. *)
Definition split_dev_t (dev : Z) : Z * Z :=
  let major := Z.lor (Z.land (Z.shiftr dev 8) 0xfff) (Z.land (Z.shiftr dev 32) (u64_modulus - 1 - 0xfff)) in
  let minor := Z.lor (Z.land dev 0xff) (Z.land (Z.shiftr dev 12) (u64_modulus - 1 - 0xff)) in
  ((major mod 2 ^ 32)%Z, (minor mod 2 ^ 32)%Z).

(** ** Filesystems, as far as the service looks at them *)

Record FsView := mkFs {
  fv_name : string;
  fv_uuid : string;
  fv_mount_point : option string;
  fv_mounted : bool;
  fv_data_replicas : option Z;
  fv_erasure_code : option bool;
  fv_encrypted : option bool
}.

(** ** Calls *)

(** What a program left behind: whether it succeeded, its status as printed and its output. *)
Record Finished := mkFinished { ou_success : bool; ou_status : string; ou_stdout : string; ou_stderr : string }.

Inductive Sys : Type -> Type :=
| Exec (program : string) (args : list string) : Sys (result Finished IoErr)
| FsGet (name : string) : Sys (result FsView string)
| FsList : Sys (result (list FsView) string)
| Exists (path : string) : Sys bool
| Canonicalize (path : string) : Sys (option string)
| XattrGet (path key : string) : Sys (result (option string) IoErr)
| XattrList (path : string) : Sys (result (list string) IoErr)
| XattrSet (path key value : string) : Sys (result unit IoErr)
| XattrRemove (path key : string) : Sys (result unit IoErr)
| SetMode (path : string) (mode : Z) : Sys (result unit IoErr)
| CreateDirAll (path : string) : Sys (result unit IoErr)
| CreateImage (path : string) : Sys (result unit IoErr)
| SetLen (path : string) (bytes : Z) : Sys (result unit IoErr)
| FileLen (path : string) : Sys (result Z IoErr)
| FileBlocks (path : string) : Sys (result Z IoErr)
| StatDev (path : string) : Sys (result Z IoErr)
| StatIdentity (path : string) : Sys (result (Z * Z) IoErr)
| ReadLink (path : string) : Sys (result string IoErr)
| ProjectId (path : string) : Sys (result (option Z) IoErr)
| SetQuota (device : string) (projid : Z) (quota : IfDqblk) : Sys (result unit IoErr)
| NextQuota (device : string) (id : Z) : Sys (result IfNextDqblk (Z * IoErr))
| ReadText (path : string) : Sys (result string IoErr)
| WriteText (path text : string) : Sys (result unit IoErr)
| AppendText (path text : string) : Sys (result unit IoErr)
| RenameFile (from to : string) : Sys (result unit IoErr)
| RemoveFile (path : string) : Sys (result unit IoErr)
| NowSecs : Sys Z
| ProcessId : Sys Z.

(** The machine: a state of its own, and what each call answers and does to it. *)
Class Os := { Store : Type; os_call : forall {A}, Sys A -> Store -> A * Store }.

(** The service's own state: the evidence of earlier exports it has read. *)
Record SvWorld `{Os} := mkSvWorld { sw_store : Store; sw_evidence : option (gmap string BlockVolumeId) }.

Definition sys `{Os} {E A} (c : Sys A) : M SvWorld E A := fun w =>
  let '(a, s) := os_call c (sw_store w) in (Ok a, mkSvWorld _ s (sw_evidence w)).

(** ** cmd.rs *)

Definition run_ok `{Os} {E} (program : string) (args : list string) : M SvWorld E (result string string) :=
  o <- sys (Exec program args) ;;
  ret (match o with
       | Err e => Err ("failed to execute " ++ program ++ ": " ++ display_io e)
       | Ok o =>
           if ou_success o then Ok (from_utf8_lossy (ou_stdout o))
           else Err (program ++ " exited with " ++ ou_status o ++ ": " ++ from_utf8_lossy (ou_stderr o))
       end).

(** ** Loops over calls *)

(** A loop that pushes what its body answers. *)
Fixpoint collect {W E A B} (f : A -> M W E (option B)) (l : list A) : M W E (list B) :=
  match l with
  | [] => ret []
  | a :: l => o <- f a ;; bs <- collect f l ;; ret (match o with Some b => b :: bs | None => bs end)
  end.

Fixpoint for_each {W E A} (f : A -> M W E unit) (l : list A) : M W E unit :=
  match l with [] => ret tt | a :: l => f a ;;; for_each f l end.

(** [?] with a conversion of the error. *)
Definition orfail {W E F A} (f : F -> E) (r : result A F) : M W E A :=
  match r with Ok a => ret a | Err e => throw (f e) end.
