(* ===== verification/SubvolumeRead.v ===== *)
(** * Looking at subvolumes: engine/nasty-storage/src/subvolume.rs, the tools and the reading operations

    The extended attributes of a subvolume, the tools the service runs and what
    it makes of their output, project quotas, and the operations that list and
    find subvolumes and snapshots. Logging is left out. *)
From Stdlib Require Import String Ascii ZArith.
From stdpp Require Import base list gmap strings numbers sorting.
From S2P Require Import Prelude RustStr Disk FileShare Iscsi Subvolume.

Open Scope string_scope.
Open Scope rust_scope.

Section Service.
Context `{Os} `{ProjectHash} `{!Codec (list BcachefsListEntry)} `{!Codec (gmap string BlockVolumeId)}.

Abbreviation Sv A := (M SvWorld SubvolumeError A).

(** [cmd::run_ok(..).map_err(CommandFailed)?] and [let _ = cmd::run_ok(..)] *)
Definition run_cmd (program : string) (args : list string) : Sv string :=
  r <- run_ok program args ;; orfail SvCommandFailed r.
Definition run_ignored (program : string) (args : list string) : Sv unit := r <- run_ok program args ;; ret tt.

(** ** Extended attributes *)

Definition read_string_xattr {E} (path key : string) : M SvWorld E (option string) :=
  r <- sys (XattrGet path key) ;;
  ret (match r with Ok (Some v) => if valid_utf8 v then Some v else None | _ => None end).

(** [xattr::get(..).ok().flatten() == Some(state)] *)
Definition provisioning_is {E} (path state : string) : M SvWorld E bool :=
  r <- sys (XattrGet path XATTR_NASTY_PROVISIONING_STATE) ;;
  ret (match r with Ok (Some v) => v =s state | _ => false end).

Definition parse_block_filesystem (v : string) : option BlockFilesystem :=
  if v =s "ext3" then Some Ext3 else if v =s "ext4" then Some Ext4 else if v =s "xfs" then Some Xfs else None.

Definition type_of_text {E} (path : string) (t : option string) : M SvWorld E SubvolumeType :=
  match t with
  | Some t =>
      if t =s "block" then ret TBlock
      else if t =s "filesystem" then ret TFilesystem
      else there <- sys (Exists (img_path path)) ;; ret (if there then TBlock else TFilesystem)
  | None => there <- sys (Exists (img_path path)) ;; ret (if there then TBlock else TFilesystem)
  end.

(** The four maps the attributes are sorted into. *)
Record RawAttrs := mkRaw {
  ra_meta : gmap string string; ra_properties : gmap string string;
  ra_options : gmap string string; ra_overrides : gmap string string }.

Definition sort_xattr (raw : RawAttrs) (name value : string) : RawAttrs :=
  match strip_prefix BCACHEFS_EFFECTIVE_NS name with
  | Some key => mkRaw (ra_meta raw) (ra_properties raw) (<[key := value]> (ra_options raw)) (ra_overrides raw)
  | None =>
      match strip_prefix BCACHEFS_NS name with
      | Some key => mkRaw (ra_meta raw) (ra_properties raw) (ra_options raw) (<[key := value]> (ra_overrides raw))
      | None =>
          match strip_prefix XATTR_NS name with
          | Some key =>
              if starts_with NASTY_KEY_PREFIX key
              then mkRaw (<[key := value]> (ra_meta raw)) (ra_properties raw) (ra_options raw) (ra_overrides raw)
              else mkRaw (ra_meta raw) (<[key := value]> (ra_properties raw)) (ra_options raw) (ra_overrides raw)
          | None => raw
          end
      end
  end.

Fixpoint sort_xattrs {E} (path : string) (names : list string) (raw : RawAttrs) : M SvWorld E RawAttrs :=
  match names with
  | [] => ret raw
  | name :: names =>
      let name := from_utf8_lossy name in
      v <- read_string_xattr path name ;;
      sort_xattrs path names (match v with Some value => sort_xattr raw name value | None => raw end)
  end.

Definition read_all_xattrs {E} (path : string) : M SvWorld E SubvolumeAttrs :=
  names <- sys (XattrList path) ;;
  raw <- match names with Ok names => sort_xattrs path names (mkRaw ∅ ∅ ∅ ∅) | Err _ => ret (mkRaw ∅ ∅ ∅ ∅) end ;;
  let meta := ra_meta raw in
  t <- type_of_text path (meta !! "nasty.type") ;;
  block_filesystem <- read_string_xattr path XATTR_NASTY_BLOCK_FILESYSTEM ;;
  uuid <- read_string_xattr path XATTR_NASTY_BLOCK_FILESYSTEM_UUID ;;
  ret (mkAttrs
    (mkMeta t (meta !! "nasty.volsize" ≫= parse_u64) (meta !! "nasty.compression") (meta !! "nasty.comment") (meta !! "nasty.owner")
       (bool_decide (meta !! "nasty.direct_io" = Some "true")) (block_filesystem ≫= parse_block_filesystem) uuid)
    (ra_properties raw) (ra_options raw) (ra_overrides raw)).

Definition read_meta_xattrs {E} (path : string) : M SvWorld E SubvolumeMeta :=
  type_text <- read_string_xattr path XATTR_NASTY_TYPE ;;
  t <- type_of_text path type_text ;;
  volsize <- read_string_xattr path XATTR_NASTY_VOLSIZE ;;
  compression <- read_string_xattr path XATTR_NASTY_COMPRESSION ;;
  comments <- read_string_xattr path XATTR_NASTY_COMMENT ;;
  owner <- read_string_xattr path XATTR_NASTY_OWNER ;;
  direct_io <- read_string_xattr path XATTR_NASTY_DIRECT_IO ;;
  block_filesystem <- read_string_xattr path XATTR_NASTY_BLOCK_FILESYSTEM ;;
  uuid <- read_string_xattr path XATTR_NASTY_BLOCK_FILESYSTEM_UUID ;;
  ret (mkMeta t (volsize ≫= parse_u64) compression comments owner (bool_decide (direct_io = Some "true"))
         (block_filesystem ≫= parse_block_filesystem) uuid).

Definition set_xattr (path key value : string) (msg : IoErr -> string) : Sv unit :=
  r <- sys (XattrSet path key value) ;; orfail (fun e => SvCommandFailed (msg e)) r.

Definition set_xattr_if (path key : string) (value : option string) (what : string) : Sv unit :=
  match value with
  | Some v => set_xattr path key v (fun e => "setxattr " ++ what ++ ": " ++ display_io e)
  | None => ret tt
  end.

Definition write_meta_xattrs (path : string) (m : SubvolumeMeta) : Sv unit :=
  set_xattr_if path XATTR_NASTY_TYPE (Some (match me_type m with TFilesystem => "filesystem" | TBlock => "block" end)) "type" ;;;
  set_xattr_if path XATTR_NASTY_VOLSIZE (fmt_Z <$> me_volsize_bytes m) "volsize" ;;;
  set_xattr_if path XATTR_NASTY_COMPRESSION (me_compression m) "compression" ;;;
  set_xattr_if path XATTR_NASTY_COMMENT (me_comments m) "comment" ;;;
  set_xattr_if path XATTR_NASTY_OWNER (me_owner m) "owner" ;;;
  set_xattr_if path XATTR_NASTY_DIRECT_IO (if me_direct_io m then Some "true" else None) "direct_io" ;;;
  set_xattr_if path XATTR_NASTY_BLOCK_FILESYSTEM (as_str <$> me_block_filesystem m) "block filesystem" ;;;
  set_xattr_if path XATTR_NASTY_BLOCK_FILESYSTEM_UUID (me_block_filesystem_uuid m) "block filesystem UUID".

(** ** The tools *)

Definition bcachefs_list_all_strict (mount_point : string) : Sv BcachefsInfo :=
  output <- run_cmd "bcachefs" ["subvolume"; "list"; "--snapshots"; "--json"; mount_point] ;;
  match decode output with
  | Ok entries => ret (build_bcachefs_info entries)
  | Err e => throw (SvCommandFailed ("parse bcachefs subvolume list for " ++ mount_point ++ ": " ++ e))
  end.

Definition bcachefs_list_all {E} (mount_point : string) : M SvWorld E BcachefsInfo :=
  r <- attempt (bcachefs_list_all_strict mount_point) ;;
  ret (match r with Ok i => i | Err _ => empty_info end).

Definition initialize_block_filesystem (loop_device : string) (filesystem : BlockFilesystem) : Sv string :=
  run_cmd (mkfs_program filesystem) [loop_device] ;;;
  run_cmd "blockdev" ["--flushbufs"; loop_device] ;;;
  detected <- run_cmd "blkid" ["-p"; "-s"; "TYPE"; "-o"; "value"; loop_device] ;;
  throw_if (negb (trim detected =s as_str filesystem))
    (SvCommandFailed ("filesystem verification failed for " ++ loop_device ++ ": expected " ++ as_str filesystem
       ++ ", detected " ++ fmt_debug_str (trim detected))) ;;;
  uuid <- run_cmd "blkid" ["-p"; "-s"; "UUID"; "-o"; "value"; loop_device] ;;
  throw_if (trim uuid =s "") (SvCommandFailed ("filesystem verification returned no UUID for " ++ loop_device)) ;;;
  ret (trim uuid).

(** The loop device is let go; the path stays for the operator. *)
Definition quarantine_failed_create (subvol_path : string) (loop_device : option string) : Sv unit :=
  match loop_device with Some device => run_ignored "losetup" ["-d"; device] | None => ret tt end.

Definition path_identity (path : string) : Sv string :=
  r <- sys (StatIdentity path) ;;
  match r with
  | Ok (dev, ino) => ret (fmt_Z dev ++ ":" ++ fmt_Z ino)
  | Err e => throw (SvCommandFailed ("read identity for " ++ path ++ ": " ++ display_io e))
  end.

(** The name of a device of the kernel. *)
Definition block_device_for_dev {E} (base : string) (dev : Z) : M SvWorld E (option string) :=
  let '(major, minor) := split_dev_t dev in
  r <- sys (ReadLink (base ++ "/" ++ fmt_Z major ++ ":" ++ fmt_Z minor)) ;;
  ret (match r with
       | Ok target =>
           match list.last (components target) with
           | Some name => if (name =s "..") || negb (valid_utf8 name) then None else Some ("/dev/" ++ name)
           | None => None
           end
       | Err _ => None
       end).

Definition NUL : ascii := ascii_of_nat 0.
Definition nul_error : IoErr := OtherIo "device path contains NUL".

Definition write_project_quota_limit {E} (device : string) (projid blocks : Z) : M SvWorld E (result unit IoErr) :=
  if contains_char NUL device then ret (Err nul_error) else sys (SetQuota device projid (project_quota_limit blocks)).

Definition set_project_quota_limit (mount_point : string) (projid bytes : Z) : Sv unit :=
  dev <- sys (StatDev mount_point) ;;
  dev <- orfail SvIo dev ;;
  device <- block_device_for_dev "/sys/dev/block" dev ;;
  match device with
  | None => throw (SvCommandFailed ("no block device found for " ++ mount_point ++ " (dev_t " ++ fmt_Z dev ++ ")"))
  | Some device =>
      r <- write_project_quota_limit device projid (quota_kib_from_bytes bytes) ;;
      orfail (fun e => SvCommandFailed ("quotactl failed for project nasty-" ++ fmt_Z projid ++ " on " ++ mount_point
                         ++ " (" ++ device ++ "): " ++ display_io e)) r
  end.

Definition PROJID : string := "/etc/projid".

Definition register_project {E} (name : string) (projid : Z) : M SvWorld E unit :=
  existing <- sys (ReadText PROJID) ;;
  let existing := match existing with Ok t => t | Err _ => "" end in
  if existsb (fun l => starts_with (name ++ ":") l || ends_with (":" ++ fmt_Z projid) l) (lines existing) then ret tt
  else r <- sys (AppendText PROJID (name ++ ":" ++ fmt_Z projid ++ newline)) ;; ret tt.

Definition without_project (projid : Z) (existing : string) : string :=
  String.concat "" ((fun l => l ++ newline) <$> List.filter (fun l => negb (ends_with (":" ++ fmt_Z projid) l)) (lines existing)).

Definition unregister_project {E} (projid : Z) : M SvWorld E unit :=
  existing <- sys (ReadText PROJID) ;;
  match existing with
  | Err _ => ret tt
  | Ok existing => r <- sys (WriteText PROJID (without_project projid existing)) ;; ret tt
  end.

Definition set_project_quota {E} (mount_point dir_path : string) (projid bytes : Z) : M SvWorld E unit :=
  let proj_name := "nasty-" ++ fmt_Z projid in
  register_project proj_name projid ;;;
  current <- sys (ProjectId dir_path) ;;
  match current with
  | Err _ => ret tt
  | Ok current =>
      assigned <- (if project_id_needs_update current projid
                   then r <- run_ok "setproject" ["-c"; "-P"; proj_name; dir_path] ;; ret (is_ok r)
                   else ret true) ;;
      if assigned : bool
      then r <- attempt (set_project_quota_limit mount_point projid bytes) ;; ret tt
      else ret tt
  end.

Definition block_image_size {E} (subvol_path : string) : M SvWorld E (option Z) :=
  r <- sys (FileBlocks (img_path subvol_path)) ;;
  ret (match r with Ok b => Some (wrapping_mul b 512) | Err _ => None end).

Definition ENOENT : Z := 2.
Definition ESRCH : Z := 3.
Definition QUOTA_STEPS : nat := Z.to_nat 100000.

(** One step per allocated quota; [id as c_int] is the same 32 bits. *)
Fixpoint next_quotas {E} (fuel : nat) (device : string) (id : Z) (out : gmap Z ProjectQuotaInfo)
  : M SvWorld E (result (gmap Z ProjectQuotaInfo) IoErr) :=
  match fuel with
  | O => ret (Ok out)
  | S fuel =>
      r <- sys (NextQuota device id) ;;
      match r with
      | Err (errno, e) => ret (if (errno =? ENOENT)%Z || (errno =? ESRCH)%Z then Ok out else Err e)
      | Ok blk =>
          let out := if (0 <? nq_id blk)%Z
                     then <[nq_id blk := project_quota_info (dqb_curspace (nq_block blk)) (dqb_bhardlimit (nq_block blk))]> out
                     else out in
          if (nq_id blk =? 2 ^ 32 - 1)%Z then ret (Ok out) else next_quotas fuel device (nq_id blk + 1)%Z out
      end
  end.

Definition read_project_quotas {E} (device : string) : M SvWorld E (result (gmap Z ProjectQuotaInfo) IoErr) :=
  if contains_char NUL device then ret (Err nul_error) else next_quotas QUOTA_STEPS device 0 ∅.

Definition query_project_usages {E} (mount_point : string) : M SvWorld E (gmap Z ProjectQuotaInfo) :=
  dev <- sys (StatDev mount_point) ;;
  match dev with
  | Err _ => ret ∅
  | Ok dev =>
      device <- block_device_for_dev "/sys/dev/block" dev ;;
      match device with
      | None => ret ∅
      | Some device => r <- read_project_quotas device ;; ret (match r with Ok usages => usages | Err _ => ∅ end)
      end
  end.

(** The last line of a backing file wins. *)
Definition losetup_map_of (output : string) : gmap string string :=
  foldl (fun m l => match split_whitespace l with dev :: back :: _ => <[back := dev]> m | _ => m end) ∅ (lines output).

Definition build_losetup_map {E} : M SvWorld E (gmap string string) :=
  r <- run_ok "losetup" ["--list"; "--output"; "NAME,BACK-FILE"; "--noheadings"] ;;
  ret (match r with Ok output => losetup_map_of output | Err _ => ∅ end).

Definition find_loop_device_from_map {E} (losetup_map : gmap string string) (file_path : string) : M SvWorld E (option string) :=
  canonical <- sys (Canonicalize file_path) ;;
  ret (match canonical with Some c => losetup_map !! from_utf8_lossy c | None => None end).

Definition find_loop_device {E} (file_path : string) : M SvWorld E (option string) :=
  m <- build_losetup_map ;; find_loop_device_from_map m file_path.

(** Byte-wise order of texts. *)
Definition string_le (a b : string) : Prop := String.leb a b = true.
#[local] Instance string_le_dec a b : Decision (string_le a b).
Proof. unfold string_le. apply _. Defined.

Definition child_lines (parent_name output : string) : list string :=
  omap (fun l => let path := default "" (head (split_whitespace l)) in
                 if starts_with (parent_name ++ "/") path && negb (path =s parent_name) then Some path else None) (lines output).

Definition find_child_subvolumes {E} (mount_point parent_name : string) : M SvWorld E (list string) :=
  r <- run_ok "bcachefs" ["subvolume"; "list"; "-R"; mount_point] ;;
  ret (match r with Ok output => merge_sort string_le (child_lines parent_name output) | Err _ => [] end).

Definition losetup_args (direct_io : bool) (img : string) : list string :=
  (["--find"; "--show"] ++ (if direct_io then ["--direct-io=on"] else []) ++ [img])%list.

Definition materialize_subvol_from_snapshot (snap_path dest_path : string) (owner_filter : option string) : Sv unit :=
  run_cmd "bcachefs" ["subvolume"; "snapshot"; snap_path; dest_path] ;;;
  snap_meta <- read_meta_xattrs snap_path ;;
  (match owner_filter with
   | Some owner => set_xattr dest_path XATTR_NASTY_OWNER owner (fun e => "set owner on " ++ dest_path ++ ": " ++ display_io e)
   | None => ret tt
   end) ;;;
  match me_type snap_meta with
  | TBlock =>
      there <- sys (Exists (img_path dest_path)) ;;
      if there : bool then run_cmd "losetup" (losetup_args (me_direct_io snap_meta) (img_path dest_path)) ;;; ret tt else ret tt
  | TFilesystem => ret tt
  end.

(** ** Reading *)

Definition fs_mount_point (fs_name : string) : Sv string :=
  fs <- sys (FsGet fs_name) ;;
  fs <- orfail (fun _ => SvFilesystemNotFound fs_name) fs ;;
  lift (ok_or (fv_mount_point fs) (SvFilesystemNotMounted fs_name)).

(** [Path::parent] of a path below a mount point. *)
Definition parent_text (path : string) : string := display_path (removelast (components path)).

Definition listed_name (p : string) : bool :=
  negb (p =s "") && negb (contains_char "@" p) && negb (starts_with ".nasty/" p) && negb (p =s ".nasty").

(** The name a snapshot of [name] has, if [p] is one. *)
Definition snapshot_of (name p : string) : option string :=
  match strip_prefix (name ++ "@") p with
  | Some s => if contains_char "/" s then None else Some s
  | None => None
  end.

Definition snapshot_names (mount_point name : string) (info : BcachefsInfo) (owner_filter : option string) : Sv (list string) :=
  collect (fun p =>
    match snapshot_of name p with
    | None => ret None
    | Some s =>
        match owner_filter with
        | None => ret (Some s)
        | Some owner =>
            meta <- read_meta_xattrs (snap_path mount_point name s) ;;
            ret (if decide (me_owner meta = Some owner) then Some s else None)
        end
    end) (map_to_list (bi_snapshot_flags info)).*1.

Definition sizes_of (fs_name name path : string) (usages : gmap Z ProjectQuotaInfo) (t : SubvolumeType) : Sv (option Z * option Z) :=
  match t with
  | TBlock => size <- block_image_size path ;; ret (size, None)
  | TFilesystem =>
      ret (match usages !! project_id_for fs_name name with
           | Some info => (Some (pq_used_bytes info), if (0 <? pq_hard_bytes info)%Z then Some (pq_hard_bytes info) else None)
           | None => (None, None)
           end)
  end.

Definition describe (fs_name : string) (fs : FsView) (mount_point : string) (info : BcachefsInfo)
    (usages : gmap Z ProjectQuotaInfo) (losetup_map : gmap string string) (owner_filter : option string) (name : string)
  : Sv (option Subvolume) :=
  let path := subvol_path mount_point name in
  creating <- provisioning_is path "creating" ;;
  if creating : bool then ret None
  else
    attrs <- read_all_xattrs path ;;
    up <- read_all_xattrs (parent_text path) ;;
    let inherited := add_storage_defaults (at_bcachefs_options up) (default 1%Z (fv_data_replicas fs)) (default false (fv_erasure_code fs)) in
    let meta := at_meta attrs in
    if is_ok (require_owner (me_owner meta) owner_filter) then
      snapshots <- snapshot_names mount_point name info owner_filter ;;
      sizes <- sizes_of fs_name name path usages (me_type meta) ;;
      device <- match me_type meta with
                | TBlock => find_loop_device_from_map losetup_map (img_path path)
                | TFilesystem => ret None
                end ;;
      let volume_id := match me_type meta with
                       | TBlock => mkVolumeId (fv_uuid fs) <$> bi_subvolume_ids info !! name
                       | TFilesystem => None
                       end in
      ret (Some (mkSubvolume name fs_name (me_type meta) path sizes.1 sizes.2 (me_compression meta) (me_comments meta)
        (me_volsize_bytes meta) device volume_id (me_block_filesystem meta) (me_block_filesystem_uuid meta) snapshots
        (me_owner meta) (at_properties attrs) (bi_snapshot_parents info !! name) (me_direct_io meta)
        (at_bcachefs_options attrs) (at_bcachefs_overrides attrs) inherited false))
    else ret None.

Definition list_subvolumes (fs_name : string) (owner_filter : option string) : Sv (list Subvolume) :=
  fs <- sys (FsGet fs_name) ;;
  fs <- orfail (fun _ => SvFilesystemNotFound fs_name) fs ;;
  mount_point <- lift (ok_or (fv_mount_point fs) (SvFilesystemNotMounted fs_name)) ;;
  info <- bcachefs_list_all_strict mount_point ;;
  usages <- query_project_usages mount_point ;;
  losetup_map <- build_losetup_map ;;
  collect (describe fs_name fs mount_point info usages losetup_map owner_filter)
    (List.filter listed_name (elements (bi_subvol_paths info))).

Fixpoint list_filesystems (fss : list FsView) (fs_filter owner_filter : option string) : Sv (list Subvolume) :=
  match fss with
  | [] => ret []
  | fs :: fss =>
      if negb (fv_mounted fs) || match fs_filter with Some f => negb (fv_name fs =s f) | None => false end
      then list_filesystems fss fs_filter owner_filter
      else
        subvols <- list_subvolumes (fv_name fs) owner_filter ;;
        rest <- list_filesystems fss fs_filter owner_filter ;;
        ret (subvols ++ rest)%list
  end.

Definition list_all (fs_filter owner_filter : option string) : Sv (list Subvolume) :=
  all_fs <- sys FsList ;;
  all_fs <- orfail SvCommandFailed all_fs ;;
  list_filesystems all_fs fs_filter owner_filter.

Definition get (fs_name name : string) (owner_filter : option string) : Sv Subvolume :=
  all <- list_subvolumes fs_name None ;;
  subvolume <- lift (ok_or (List.find (fun s => sv_name s =s name) all) (SvNotFound name)) ;;
  lift (require_owner (sv_owner subvolume) owner_filter) ;;;
  ret subvolume.

Definition block_volume_id_for_device (device_path : string) : Sv (option BlockVolumeId) :=
  all <- list_all None None ;;
  match List.find (fun s => bool_decide (sv_type s = TBlock) && bool_decide (sv_block_device s = Some device_path)) all with
  | Some subvol =>
      match sv_block_volume_id subvol with
      | Some id => ret (Some id)
      | None => throw (SvCommandFailed ("managed block device " ++ device_path ++ " has no stable bcachefs identity"))
      end
  | None => ret None
  end.

Definition list_children (filesystem name : string) : Sv (list string) :=
  mount_point <- fs_mount_point filesystem ;; find_child_subvolumes mount_point name.

Definition find_by_property (req : FindByPropertyRequest) (owner_filter : option string) : Sv (list Subvolume) :=
  all <- list_all (fp_filesystem req) owner_filter ;;
  ret (List.filter (fun s => bool_decide (sv_properties s !! fp_key req = Some (fp_value req))) all).

(** ** Snapshots, read *)

Definition list_snapshots_for (fs_name subvol_name : string) : Sv (list Snapshot) :=
  lift (validate_subvolume_name subvol_name) ;;;
  mount_point <- fs_mount_point fs_name ;;
  there <- sys (Exists (subvol_path mount_point subvol_name)) ;;
  if negb there then ret []
  else
    info <- bcachefs_list_all mount_point ;;
    ret (omap (fun kv =>
      match snapshot_of subvol_name kv.1 with
      | Some s => Some (mkSnapshot s subvol_name fs_name (snap_path mount_point subvol_name s) kv.2 (Some subvol_name) None
                          (bi_snapshot_created_at info !! kv.1))
      | None => None
      end) (map_to_list (bi_snapshot_flags info))).

Definition list_snapshot (fs_name mount_point : string) (info : BcachefsInfo) (owned : option (gset string))
    (owner_filter : option string) (kv : string * bool) : Sv (option Snapshot) :=
  match split_once "@" kv.1 with
  | None => ret None
  | Some (subvol_name, snap_name) =>
      if (subvol_name =s "") || (snap_name =s "") || contains_char "/" snap_name then ret None
      else if match owned with Some set => negb (bool_decide (subvol_name ∈ set)) | None => false end then ret None
      else
        let path := snap_path mount_point subvol_name snap_name in
        let found := Some (mkSnapshot snap_name subvol_name fs_name path kv.2 (bi_snapshot_parents info !! kv.1) None
                             (bi_snapshot_created_at info !! kv.1)) in
        match owner_filter with
        | None => ret found
        | Some owner => meta <- read_meta_xattrs path ;; ret (if decide (me_owner meta = Some owner) then found else None)
        end
  end.

Definition list_snapshots (fs_name : string) (owner_filter : option string) : Sv (list Snapshot) :=
  mount_point <- fs_mount_point fs_name ;;
  owned <- match owner_filter with
           | Some _ => subvols <- list_subvolumes fs_name owner_filter ;; ret (Some (list_to_set (sv_name <$> subvols) : gset string))
           | None => ret None
           end ;;
  info <- bcachefs_list_all mount_point ;;
  collect (list_snapshot fs_name mount_point info owned owner_filter) (map_to_list (bi_snapshot_flags info)).

End Service.
