(* ===== verification/SubvolumeService.v ===== *)
(** * Changing subvolumes: engine/nasty-storage/src/subvolume.rs, the operations

    Every operation of [SubvolumeService] that changes the machine, as a program
    over the calls of [Sys]: the guards it passes and the calls it makes, in the
    order of the source. The locks are left out: an operation runs as a whole. *)
From Stdlib Require Import String Ascii ZArith.
From stdpp Require Import base list gmap strings numbers sorting.
From S2P Require Import Prelude RustStr Disk FileShare Iscsi Subvolume SubvolumeRead.

Open Scope string_scope.
Open Scope rust_scope.

Section Service.
Context `{Os} `{ProjectHash} `{!Codec (list BcachefsListEntry)} `{!Codec (gmap string BlockVolumeId)}.

Abbreviation Sv A := (M SvWorld SubvolumeError A).

(** ** Creating *)

Definition effective_volsize (req : CreateSubvolumeRequest) : option Z :=
  (fun bytes => match cv_type req with TFilesystem => quota_bytes_from_request bytes | TBlock => bytes end) <$> cv_volsize_bytes req.

Definition is_block (t : SubvolumeType) : bool := match t with TBlock => true | TFilesystem => false end.

Definition check_create (req : CreateSubvolumeRequest) : Sv unit :=
  lift (validate_subvolume_name (cv_name req)) ;;;
  throw_if (is_block (cv_type req) && negb (is_some (cv_volsize_bytes req))) SvVolsizeRequired ;;;
  throw_if (is_block (cv_type req) && contains_char "/" (cv_name req)) (SvInvalidName "nested block subvolumes are not supported") ;;;
  throw_if (negb (is_block (cv_type req)) && is_some (cv_block_filesystem req)) SvBlockFilesystemRequiresBlock ;;;
  match cv_volsize_bytes req with Some bytes => lift (validate_volsize_bytes bytes) | None => ret tt end.

(** Modes are written in hexadecimal: [0x1ff] is 0777 and [0x1c0] is 0700. *)

(** Whether an existing subvolume is what the request asks for. *)
Definition compatible (req : CreateSubvolumeRequest) (existing : Subvolume) : result unit SubvolumeError :=
  if negb (bool_decide (sv_type existing = cv_type req))
  then Err (SvExistingIncompatible ("requested " ++ debug_type (cv_type req) ++ ", existing " ++ debug_type (sv_type existing)))
  else match effective_volsize req with
  | Some expected =>
      if bool_decide (sv_volsize_bytes existing = Some expected) then Ok tt
      else Err (SvExistingIncompatible ("requested capacity " ++ fmt_Z expected ++ ", existing capacity "
                  ++ debug_option fmt_Z (sv_volsize_bytes existing)))
  | None => Ok tt
  end.

Definition compatible_filesystem (req : CreateSubvolumeRequest) (existing : Subvolume) : result unit SubvolumeError :=
  let uuid := default "" (sv_block_filesystem_uuid existing) in
  match cv_block_filesystem req with
  | Some expected =>
      if negb (bool_decide (sv_block_filesystem existing = Some expected)) || (uuid =s "")
      then Err (SvExistingIncompatible ("requested initialized " ++ as_str expected ++ ", existing type="
                  ++ debug_option debug_block_filesystem (sv_block_filesystem existing)
                  ++ ", uuid_present=" ++ (if uuid =s "" then "false" else "true")))
      else Ok tt
  | None => Ok tt
  end.

Definition create_existing (req : CreateSubvolumeRequest) (path : string) : Sv Subvolume :=
  creating <- provisioning_is path "creating" ;;
  throw_if creating (SvExistingIncompatible "a previous create was interrupted before provisioning completed") ;;;
  existing <- get (cv_filesystem req) (cv_name req) None ;;
  lift (compatible req existing) ;;;
  lift (compatible_filesystem req existing) ;;;
  match sv_type existing with
  | TFilesystem =>
      r <- sys (SetMode path 0x1ff) ;;
      orfail (fun e => SvCommandFailed ("chmod 0777 " ++ path ++ " during idempotent create: " ++ display_io e)) r ;;;
      ret existing
  | TBlock => ret existing
  end.

(** A step of the creation whose failure leaves a block subvolume in quarantine. *)
Definition or_quarantine {A} (block : bool) (path : string) (loop_device : option string) (m : Sv A) : Sv A :=
  r <- attempt m ;;
  match r with
  | Ok a => ret a
  | Err e => (if block then quarantine_failed_create path loop_device else ret tt) ;;; throw e
  end.

Definition set_mode (path : string) (mode : Z) (msg : IoErr -> string) : Sv unit :=
  r <- sys (SetMode path mode) ;; orfail (fun e => SvCommandFailed (msg e)) r.

(** The options bcachefs is asked to set on a path; failures are not reported. *)
Definition set_file_option (flag : string) (path : string) : Sv unit := run_ignored "bcachefs" ["set-file-option"; flag; path].

Definition create_options (req : CreateSubvolumeRequest) (path : string) : Sv unit :=
  (match cv_compression req with Some c => set_file_option ("--compression=" ++ c) path | None => ret tt end) ;;;
  for_each (fun fv : string * option string =>
    match fv.2 with Some t => set_file_option (fv.1 ++ "=" ++ t) path | None => ret tt end)
    [("--foreground_target", cv_foreground_target req); ("--background_target", cv_background_target req);
     ("--promote_target", cv_promote_target req); ("--metadata_target", cv_metadata_target req)] ;;;
  match cv_data_replicas req with Some n => set_file_option ("--data_replicas=" ++ fmt_Z n) path | None => ret tt end.

(** The image of a block subvolume: the loop device it is attached to and the
    identifier of the file system made in it. *)
Definition create_image (req : CreateSubvolumeRequest) (path : string) (volsize : Z) : Sv (string * option string) :=
  let img := img_path path in
  or_quarantine true path None
    (r <- sys (CreateImage img) ;; orfail (fun e => SvCommandFailed ("create block image " ++ img ++ ": " ++ display_io e)) r) ;;;
  or_quarantine true path None
    (r <- sys (SetLen img volsize) ;; orfail (fun e => SvCommandFailed ("resize block image " ++ img ++ ": " ++ display_io e)) r) ;;;
  fs <- sys (FsGet (cv_filesystem req)) ;;
  let encrypted := match fs with Ok fs => bool_decide (fv_encrypted fs = Some true) | Err _ => false end in
  (if encrypted then ret tt else set_file_option "--nocow" img) ;;;
  attached <- or_quarantine true path None
    (device <- run_cmd "losetup" (losetup_args (default false (cv_direct_io req)) img) ;;
     throw_if (trim device =s "") (SvCommandFailed "losetup returned an empty loop device path") ;;;
     ret (trim device)) ;;
  match cv_block_filesystem req with
  | Some filesystem =>
      uuid <- or_quarantine true path (Some attached) (initialize_block_filesystem attached filesystem) ;;
      ret (attached, Some uuid)
  | None => ret (attached, None)
  end.

Definition create_fresh (req : CreateSubvolumeRequest) (owner : option string) (mount_point path : string) : Sv Subvolume :=
  let block := is_block (cv_type req) in
  parent_there <- sys (Exists (parent_text path)) ;;
  (if parent_there : bool then ret tt else r <- sys (CreateDirAll (parent_text path)) ;; orfail SvIo r) ;;;
  run_cmd "bcachefs" ["subvolume"; "create"; path] ;;;
  or_quarantine block path None (set_mode path 0x1c0 (fun e => "chmod 0700 " ++ path ++ ": " ++ display_io e)) ;;;
  or_quarantine block path None
    (set_xattr path XATTR_NASTY_PROVISIONING_STATE "creating"
       (fun e => "set provisioning state on " ++ path ++ ": " ++ display_io e)) ;;;
  create_options req path ;;;
  (if block then ret tt
   else set_project_quota mount_point path (project_id_for (cv_filesystem req) (cv_name req)) (default 0%Z (effective_volsize req))) ;;;
  image <- (if block then i <- create_image req path (default 0%Z (effective_volsize req)) ;; ret (Some i) else ret None) ;;
  let loop_device := fst <$> image in
  or_quarantine block path loop_device
    (write_meta_xattrs path
       (mkMeta (cv_type req) (effective_volsize req) (cv_compression req) (cv_comments req) owner (default false (cv_direct_io req))
          (cv_block_filesystem req) (image ≫= snd))) ;;;
  or_quarantine block path loop_device
    (set_xattr path XATTR_NASTY_PROVISIONING_STATE "ready"
       (fun e => "mark provisioning complete on " ++ path ++ ": " ++ display_io e)) ;;;
  (if block then ret tt else r <- sys (SetMode path 0x1ff) ;; ret tt) ;;;
  s <- get (cv_filesystem req) (cv_name req) None ;;
  ret (mkSubvolume (sv_name s) (sv_filesystem s) (sv_type s) (sv_path s) (sv_used_bytes s) (sv_quota_bytes s) (sv_compression s)
         (sv_comments s) (sv_volsize_bytes s) (sv_block_device s) (sv_block_volume_id s) (sv_block_filesystem s)
         (sv_block_filesystem_uuid s) (sv_snapshots s) (sv_owner s) (sv_properties s) (sv_parent s) (sv_direct_io s)
         (sv_bcachefs_options s) (sv_bcachefs_overrides s) (sv_bcachefs_inherited_options s) true).

Definition create (req : CreateSubvolumeRequest) (owner : option string) : Sv Subvolume :=
  check_create req ;;;
  mount_point <- fs_mount_point (cv_filesystem req) ;;
  let path := subvol_path mount_point (cv_name req) in
  there <- sys (Exists path) ;;
  if there : bool then create_existing req path else create_fresh req owner mount_point path.

(** ** Deleting *)

Fixpoint delete_children (mount_point : string) (children : list string) : Sv (list string) :=
  match children with
  | [] => ret []
  | child :: children =>
      r <- run_ok "bcachefs" ["subvolume"; "delete"; subvol_path mount_point child] ;;
      stuck <- delete_children mount_point children ;;
      ret (match r with Ok _ => stuck | Err e => (child ++ " (" ++ e ++ ")") :: stuck end)
  end.

Definition delete (req : DeleteSubvolumeRequest) (owner_filter : option string) : Sv unit :=
  subvol <- get (dv_filesystem req) (dv_name req) owner_filter ;;
  (match sv_type subvol, sv_block_device subvol with
   | TBlock, Some loop_dev =>
       r <- run_ok "losetup" ["-d"; loop_dev] ;;
       match r with
       | Err e => if is_already_detached e then ret tt else throw (SvLoopDetachFailed loop_dev e)
       | Ok _ => ret tt
       end
   | _, _ => ret tt
   end) ;;;
  mount_point <- fs_mount_point (dv_filesystem req) ;;
  let path := subvol_path mount_point (dv_name req) in
  children <- find_child_subvolumes mount_point (dv_name req) ;;
  stuck <- delete_children mount_point (rev children) ;;
  (match stuck with [] => ret tt | _ => throw (SvChildrenStuck (String.concat "; " stuck)) end) ;;;
  run_cmd "bcachefs" ["subvolume"; "delete"; path] ;;;
  match sv_type subvol with
  | TFilesystem => unregister_project (project_id_for (dv_filesystem req) (dv_name req))
  | TBlock => ret tt
  end.

(** ** Loop devices *)

Definition attach (fs_name name : string) (owner_filter : option string) : Sv Subvolume :=
  subvol <- get fs_name name owner_filter ;;
  match sv_type subvol with
  | TFilesystem => throw (SvCommandFailed "only block subvolumes can be attached")
  | TBlock =>
      match sv_block_device subvol with
      | Some _ => ret subvol
      | None =>
          run_cmd "losetup" (losetup_args (sv_direct_io subvol) (img_path (sv_path subvol))) ;;;
          get fs_name name owner_filter
      end
  end.

Definition detach (fs_name name : string) (owner_filter : option string) : Sv Subvolume :=
  subvol <- get fs_name name owner_filter ;;
  (match sv_block_device subvol with Some loop_dev => run_cmd "losetup" ["-d"; loop_dev] ;;; ret tt | None => ret tt end) ;;;
  get fs_name name owner_filter.

(** ** Resizing *)

Definition resize_image (req : ResizeSubvolumeRequest) (subvol : Subvolume) : Sv Z :=
  let img := img_path (sv_path subvol) in
  current <- sys (FileLen img) ;;
  current <- orfail (fun e => SvCommandFailed ("stat block image " ++ img ++ ": " ++ display_io e)) current ;;
  lift (validate_grow_only current (rs_volsize_bytes req)) ;;;
  run_cmd "truncate" ["-s"; fmt_Z (rs_volsize_bytes req); img] ;;;
  (match sv_block_device subvol with
   | Some loop_dev => run_cmd "losetup" ["--set-capacity"; loop_dev] ;;; ret tt
   | None => ret tt
   end) ;;;
  ret (rs_volsize_bytes req).

Definition resize_quota (req : ResizeSubvolumeRequest) (subvol : Subvolume) : Sv Z :=
  let requested := quota_bytes_from_request (rs_volsize_bytes req) in
  bound <- lift (ok_or (filesystem_capacity_bound (sv_quota_bytes subvol) (sv_volsize_bytes subvol) (sv_used_bytes subvol))
                   (SvInvalidVolsize "current filesystem capacity is unavailable; refusing resize")) ;;
  lift (validate_grow_only bound requested) ;;;
  mount_point <- fs_mount_point (rs_filesystem req) ;;
  set_project_quota_limit mount_point (project_id_for (rs_filesystem req) (rs_name req)) requested ;;;
  ret requested.

Definition resize (req : ResizeSubvolumeRequest) (owner_filter : option string) : Sv Subvolume :=
  lift (validate_volsize_bytes (rs_volsize_bytes req)) ;;;
  subvol <- get (rs_filesystem req) (rs_name req) owner_filter ;;
  effective <- match sv_type subvol with TBlock => resize_image req subvol | TFilesystem => resize_quota req subvol end ;;
  mount_point <- fs_mount_point (rs_filesystem req) ;;
  set_xattr (subvol_path mount_point (rs_name req)) XATTR_NASTY_VOLSIZE (fmt_Z effective)
    (fun e => "setxattr volsize: " ++ display_io e) ;;;
  get (rs_filesystem req) (rs_name req) owner_filter.

(** ** Updating *)

(** The policy the subvolume would have after the update. *)
Definition requested_policy (req : UpdateSubvolumeRequest) (subvol : Subvolume) : Z * bool :=
  let inherited := sv_bcachefs_inherited_options subvol in
  (match uv_data_replicas req with
   | Some n => if (n =? 0)%Z then option_replicas inherited else n
   | None => option_replicas_or (sv_bcachefs_options subvol) inherited
   end,
   match uv_erasure_code req with
   | Some EcInherit => option_enabled (inherited !! "erasure_code")
   | Some EcEnabled => true
   | Some EcDisabled => false
   | None => option_enabled_or (sv_bcachefs_options subvol) inherited
   end).

Definition update_compression (comp path : string) : Sv unit :=
  let '(value, clear_metadata) := compression_file_option comp in
  run_cmd "bcachefs" ["set-file-option"; "--compression=" ++ value; path] ;;;
  if clear_metadata : bool then r <- sys (XattrRemove path XATTR_NASTY_COMPRESSION) ;; ret tt
  else set_xattr path XATTR_NASTY_COMPRESSION value (fun e => "setxattr compression: " ++ display_io e).

Definition update_comments (comments path : string) : Sv unit :=
  if comments =s "" then r <- sys (XattrRemove path XATTR_NASTY_COMMENT) ;; ret tt
  else set_xattr path XATTR_NASTY_COMMENT comments (fun e => "setxattr comment: " ++ display_io e).

Definition update_erasure_code (req : UpdateSubvolumeRequest) (subvol : Subvolume) (ec : SubvolumeErasureCode) : Sv unit :=
  let previous := match sv_bcachefs_overrides subvol !! "data_replicas" with
                  | Some replicas => "--data_replicas=" ++ replicas
                  | None => "--data_replicas=-"
                  end in
  r <- run_ok "bcachefs" ["set-file-option"; file_option ec; sv_path subvol] ;;
  match r with
  | Ok _ => ret tt
  | Err error =>
      match uv_data_replicas req with
      | Some _ =>
          back <- run_ok "bcachefs" ["set-file-option"; previous; sv_path subvol] ;;
          match back with
          | Err rollback_error => throw (SvCommandFailed (error ++ "; restoring data replicas also failed: " ++ rollback_error))
          | Ok _ => throw (SvCommandFailed error)
          end
      | None => throw (SvCommandFailed error)
      end
  end.

Definition update (req : UpdateSubvolumeRequest) (owner_filter : option string) : Sv Subvolume :=
  subvol <- get (uv_filesystem req) (uv_name req) owner_filter ;;
  let path := sv_path subvol in
  (if is_some (uv_data_replicas req) || is_some (uv_erasure_code req)
   then let '(replicas, ec) := requested_policy req subvol in lift (validate_storage_policy replicas ec)
   else ret tt) ;;;
  (match uv_compression req with Some comp => update_compression comp path | None => ret tt end) ;;;
  (match uv_comments req with Some comments => update_comments comments path | None => ret tt end) ;;;
  for_each (fun fv : string * option string =>
    match fv.2 with Some t => run_cmd "bcachefs" ["set-file-option"; fv.1 ++ "=" ++ t; path] ;;; ret tt | None => ret tt end)
    [("--foreground_target", uv_foreground_target req); ("--background_target", uv_background_target req);
     ("--promote_target", uv_promote_target req); ("--metadata_target", uv_metadata_target req)] ;;;
  (match uv_data_replicas req with
   | Some n =>
       run_cmd "bcachefs" ["set-file-option"; (if (n =? 0)%Z then "--data_replicas=-" else "--data_replicas=" ++ fmt_Z n); path] ;;; ret tt
   | None => ret tt
   end) ;;;
  (match uv_erasure_code req with Some ec => update_erasure_code req subvol ec | None => ret tt end) ;;;
  get (uv_filesystem req) (uv_name req) owner_filter.

(** ** Snapshots *)

Definition flush (subvol : Subvolume) : Sv unit :=
  match sv_type subvol, sv_block_device subvol with
  | TBlock, Some loop_dev => run_ignored "blockdev" ["--flushbufs"; loop_dev]
  | _, _ => ret tt
  end.

Definition create_snapshot_locked (req : CreateSnapshotRequest) (owner_filter : option string) : Sv Snapshot :=
  get (cn_filesystem req) (cn_subvolume req) owner_filter ;;;
  mount_point <- fs_mount_point (cn_filesystem req) ;;
  let source_path := subvol_path mount_point (cn_subvolume req) in
  let path := snap_path mount_point (cn_subvolume req) (cn_name req) in
  source_there <- sys (Exists source_path) ;;
  throw_if (negb source_there) (SvNotFound (cn_subvolume req)) ;;;
  there <- sys (Exists path) ;;
  throw_if there (SvAlreadyExists (cn_name req)) ;;;
  subvol <- get (cn_filesystem req) (cn_subvolume req) owner_filter ;;
  flush subvol ;;;
  run_cmd "bcachefs" ["subvolume"; "snapshot"; "-r"; source_path; path] ;;;
  info <- bcachefs_list_all mount_point ;;
  ret (mkSnapshot (cn_name req) (cn_subvolume req) (cn_filesystem req) path true (Some (cn_subvolume req)) None
         (bi_snapshot_created_at info !! (cn_subvolume req ++ "@" ++ cn_name req))).

Definition create_snapshot (req : CreateSnapshotRequest) (owner_filter : option string) : Sv Snapshot :=
  lift (validate_snapshot_name (cn_subvolume req) (cn_name req)) ;;;
  create_snapshot_locked req owner_filter.

(** The subvolume a snapshot belongs to, if it is still there. *)
Definition find_parent (fs_name name : string) (owner_filter : option string) : Sv (option Subvolume) :=
  r <- attempt (get fs_name name owner_filter) ;;
  match r with
  | Ok parent => ret (Some parent)
  | Err (SvNotFound _) => ret None
  | Err e => throw e
  end.

Definition authorize_snapshot (snapshot_owner : option string) (parent : option Subvolume) (owner_filter : option string)
    (allow : bool) : result unit SubvolumeError :=
  match parent with
  | Some parent => authorize_snapshot_provenance snapshot_owner (sv_owner parent) owner_filter allow
  | None => authorize_orphan_snapshot snapshot_owner owner_filter allow
  end.

Definition delete_snapshot (req : DeleteSnapshotRequest) (owner_filter : option string) (allow_orphan_cleanup : bool) : Sv unit :=
  lift (validate_existing_snapshot_name (dn_subvolume req) (dn_name req)) ;;;
  parent <- find_parent (dn_filesystem req) (dn_subvolume req) owner_filter ;;
  throw_if (negb (is_some parent) && negb (is_some owner_filter) && negb allow_orphan_cleanup) SvAccessDenied ;;;
  mount_point <- fs_mount_point (dn_filesystem req) ;;
  let path := snap_path mount_point (dn_subvolume req) (dn_name req) in
  there <- sys (Exists path) ;;
  throw_if (negb there) (SvNotFound (dn_name req)) ;;;
  meta <- read_meta_xattrs path ;;
  lift (authorize_snapshot (me_owner meta) parent owner_filter allow_orphan_cleanup) ;;;
  run_cmd "bcachefs" ["subvolume"; "delete"; path] ;;;
  ret tt.

(** The subvolume a clone was made from, as its attribute says. *)
Definition check_clone_source (path new_name clone_source : string) : Sv unit :=
  recorded <- read_string_xattr path XATTR_NASTY_CLONE_SOURCE ;;
  throw_if (negb (bool_decide (recorded = Some clone_source)))
    (SvExistingIncompatible ("clone destination " ++ new_name ++ " has source " ++ debug_option fmt_debug_str recorded
       ++ ", requested " ++ clone_source)).

Definition record_clone_source (path clone_source : string) : Sv unit :=
  set_xattr path XATTR_NASTY_CLONE_SOURCE clone_source (fun e => "record clone source on " ++ path ++ ": " ++ display_io e).

Definition clone_snapshot (req : CloneSnapshotRequest) (owner_filter : option string) (allow_admin_override : bool) : Sv Subvolume :=
  lift (validate_existing_snapshot_name (ln_subvolume req) (ln_snapshot req)) ;;;
  lift (validate_subvolume_name (ln_new_name req)) ;;;
  parent <- find_parent (ln_filesystem req) (ln_subvolume req) owner_filter ;;
  throw_if (negb (is_some parent) && negb (is_some owner_filter) && negb allow_admin_override) SvAccessDenied ;;;
  mount_point <- fs_mount_point (ln_filesystem req) ;;
  let path := snap_path mount_point (ln_subvolume req) (ln_snapshot req) in
  let new_path := subvol_path mount_point (ln_new_name req) in
  there <- sys (Exists path) ;;
  throw_if (negb there) (SvNotFound ("snapshot " ++ ln_subvolume req ++ "@" ++ ln_snapshot req)) ;;;
  meta <- read_meta_xattrs path ;;
  lift (authorize_snapshot (me_owner meta) parent owner_filter allow_admin_override) ;;;
  source_identity <- path_identity path ;;
  let clone_source := "snapshot:" ++ source_identity in
  new_there <- sys (Exists new_path) ;;
  if new_there : bool
  then
    existing <- get (ln_filesystem req) (ln_new_name req) owner_filter ;;
    check_clone_source new_path (ln_new_name req) clone_source ;;;
    ret existing
  else
    materialize_subvol_from_snapshot path new_path owner_filter ;;;
    now_identity <- path_identity path ;;
    throw_if (negb (now_identity =s source_identity))
      (SvCommandFailed ("snapshot source changed while cloning into " ++ ln_new_name req)) ;;;
    record_clone_source new_path clone_source ;;;
    get (ln_filesystem req) (ln_new_name req) owner_filter.

Definition rollback (req : RollbackSnapshotRequest) (owner_filter : option string) (allow_admin_override : bool) : Sv RollbackResult :=
  lift (validate_existing_snapshot_name (rb_subvolume req) (rb_snapshot req)) ;;;
  subvol <- get (rb_filesystem req) (rb_subvolume req) owner_filter ;;
  throw_if (is_block (sv_type subvol))
    (SvCommandFailed "rollback is not yet supported for block subvolumes (iSCSI / NVMe-oF / VM disks)") ;;;
  mount_point <- fs_mount_point (rb_filesystem req) ;;
  let live := subvol_path mount_point (rb_subvolume req) in
  let path := snap_path mount_point (rb_subvolume req) (rb_snapshot req) in
  there <- sys (Exists path) ;;
  throw_if (negb there) (SvNotFound ("snapshot " ++ rb_subvolume req ++ "@" ++ rb_snapshot req)) ;;;
  meta <- read_meta_xattrs path ;;
  lift (authorize_snapshot_provenance (me_owner meta) (sv_owner subvol) owner_filter allow_admin_override) ;;;
  children <- find_child_subvolumes mount_point (rb_subvolume req) ;;
  throw_if (negb (bool_decide (children = [])))
    (SvCommandFailed ("rollback refused: '" ++ rb_subvolume req ++ "' has nested subvolumes (" ++ String.concat ", " children
       ++ "). Roll those back individually.")) ;;;
  now <- sys NowSecs ;;
  let safety_name := "pre-rollback-" ++ fmt_Z now in
  create_snapshot_locked (mkCreateSnapshot (rb_filesystem req) (rb_subvolume req) safety_name (Some true)) owner_filter ;;;
  deleted <- run_ok "bcachefs" ["subvolume"; "delete"; live] ;;
  orfail (fun e => SvCommandFailed ("rollback: deleting live subvolume failed (" ++ e
    ++ "). Your data is intact in safety snapshot '" ++ rb_subvolume req ++ "@" ++ safety_name ++ "'.")) deleted ;;;
  recreated <- attempt (materialize_subvol_from_snapshot path live owner_filter) ;;
  orfail (fun e => SvCommandFailed ("rollback: recreating from snapshot failed (" ++ display_subvolume_error e
    ++ "). Recover from safety snapshot '" ++ rb_subvolume req ++ "@" ++ safety_name ++ "' or the target '@"
    ++ rb_snapshot req ++ "'.")) recreated ;;;
  set_project_quota mount_point live (project_id_for (rb_filesystem req) (rb_subvolume req)) (default 0%Z (sv_quota_bytes subvol)) ;;;
  recreated <- get (rb_filesystem req) (rb_subvolume req) None ;;
  ret (mkRollbackResult recreated safety_name).

(** ** Clones *)

Definition attach_clone (parent : Subvolume) (new_path : string) : Sv unit :=
  match sv_type parent with
  | TBlock =>
      there <- sys (Exists (img_path new_path)) ;;
      if there : bool then run_cmd "losetup" (losetup_args (sv_direct_io parent) (img_path new_path)) ;;; ret tt else ret tt
  | TFilesystem => ret tt
  end.

Definition clone_subvolume (req : CloneSubvolumeRequest) (owner_filter : option string) : Sv Subvolume :=
  lift (validate_subvolume_name (lv_name req)) ;;;
  lift (validate_subvolume_name (lv_new_name req)) ;;;
  parent <- get (lv_filesystem req) (lv_name req) owner_filter ;;
  mount_point <- fs_mount_point (lv_filesystem req) ;;
  let source_path := subvol_path mount_point (lv_name req) in
  let new_path := subvol_path mount_point (lv_new_name req) in
  there <- sys (Exists source_path) ;;
  throw_if (negb there) (SvNotFound (lv_name req)) ;;;
  source_identity <- path_identity source_path ;;
  let clone_source := "subvolume:" ++ source_identity in
  new_there <- sys (Exists new_path) ;;
  if new_there : bool
  then check_clone_source new_path (lv_new_name req) clone_source ;;; get (lv_filesystem req) (lv_new_name req) None
  else
    flush parent ;;;
    run_cmd "bcachefs" ["subvolume"; "snapshot"; source_path; new_path] ;;;
    now_identity <- path_identity source_path ;;
    throw_if (negb (now_identity =s source_identity))
      (SvCommandFailed ("subvolume source changed while cloning into " ++ lv_new_name req)) ;;;
    write_meta_xattrs new_path
      (mkMeta (sv_type parent) (sv_volsize_bytes parent) (sv_compression parent) None owner_filter (sv_direct_io parent)
         (sv_block_filesystem parent) (sv_block_filesystem_uuid parent)) ;;;
    record_clone_source new_path clone_source ;;;
    attach_clone parent new_path ;;;
    get (lv_filesystem req) (lv_new_name req) None.

(** ** Properties *)

Definition set_property (path : string) (kv : string * string) : Sv unit :=
  throw_if (starts_with NASTY_KEY_PREFIX kv.1) (SvReservedProperty kv.1) ;;;
  set_xattr path (XATTR_NS ++ kv.1) kv.2 (fun e => "setxattr " ++ (XATTR_NS ++ kv.1) ++ ": " ++ display_io e).

Definition set_properties (req : SetPropertiesRequest) (owner_filter : option string) : Sv Subvolume :=
  subvol <- get (sp_filesystem req) (sp_name req) owner_filter ;;
  for_each (set_property (sv_path subvol)) (map_to_list (sp_properties req)) ;;;
  get (sp_filesystem req) (sp_name req) owner_filter.

Definition remove_property (path key : string) : Sv unit :=
  throw_if (starts_with NASTY_KEY_PREFIX key) (SvReservedProperty key) ;;;
  r <- sys (XattrRemove path (XATTR_NS ++ key)) ;;
  match r with
  | Ok _ => ret tt
  | Err e => if is_not_found e then ret tt
             else throw (SvCommandFailed ("removexattr " ++ (XATTR_NS ++ key) ++ ": " ++ display_io e))
  end.

Definition remove_properties (req : RemovePropertiesRequest) (owner_filter : option string) : Sv Subvolume :=
  subvol <- get (rp_filesystem req) (rp_name req) owner_filter ;;
  for_each (remove_property (sv_path subvol)) (rp_keys req) ;;;
  get (rp_filesystem req) (rp_name req) owner_filter.

(** ** After a start *)

Definition load_or_initialize_legacy_evidence (path : string) (observed : gmap string BlockVolumeId)
  : M SvWorld string (gmap string BlockVolumeId) :=
  r <- sys (ReadText path) ;;
  match r with
  | Ok contents => match decode contents with Ok m => ret m | Err e => throw ("parse " ++ path ++ ": " ++ e) end
  | Err e =>
      if is_not_found e then
        pid <- sys ProcessId ;;
        let temporary := display_path (with_extension (components path) (fmt_Z pid ++ ".tmp")) in
        match encode observed with
        | Err e => throw ("serialize legacy export evidence: " ++ e)
        | Ok contents =>
            written <- sys (WriteText temporary contents) ;;
            orfail (fun e => "write " ++ temporary ++ ": " ++ display_io e) written ;;;
            renamed <- sys (RenameFile temporary path) ;;
            match renamed with
            | Err e => r <- sys (RemoveFile temporary) ;; throw ("publish " ++ path ++ ": " ++ display_io e)
            | Ok _ => ret observed
            end
        end
      else throw ("read " ++ path ++ ": " ++ display_io e)
  end.

Definition legacy_export_evidence (observed : gmap string BlockVolumeId) : M SvWorld string (gmap string BlockVolumeId) :=
  cached <- gets sw_evidence ;;
  match cached with
  | Some evidence => ret evidence
  | None =>
      evidence <- load_or_initialize_legacy_evidence LEGACY_EXPORT_EVIDENCE observed ;;
      modify (fun w => mkSvWorld _ (sw_store w) (Some evidence)) ;;;
      ret evidence
  end.

(** The devices that are attached before the engine attaches any. *)
Fixpoint observe_existing {E} (subvols : list Subvolume) (observed : gmap string BlockVolumeId) (existing : gmap BlockVolumeId string)
  : M SvWorld E (gmap string BlockVolumeId * gmap BlockVolumeId string) :=
  match subvols with
  | [] => ret (observed, existing)
  | s :: subvols =>
      match sv_block_volume_id s with
      | None => observe_existing subvols observed existing
      | Some volume =>
          d <- find_loop_device (img_path (sv_path s)) ;;
          match d with
          | Some device => observe_existing subvols (<[device := volume]> observed) (<[volume := device]> existing)
          | None => observe_existing subvols observed existing
          end
      end
  end.

(** The loop device of a block subvolume: the one it has, or a new one. *)
Definition restore_device {E} (existing : gmap BlockVolumeId string) (volume : BlockVolumeId) (s : Subvolume) : M SvWorld E (option string) :=
  match existing !! volume with
  | Some device => ret (Some device)
  | None =>
      r <- run_ok "losetup" (losetup_args (sv_direct_io s) (img_path (sv_path s))) ;;
      ret (match r with Ok dev => Some (trim dev) | Err _ => None end)
  end.

Fixpoint restore_each {E} (evidence : gmap string BlockVolumeId) (existing : gmap BlockVolumeId string) (subvols : list Subvolume)
    (m : BlockDeviceMappings) : M SvWorld E BlockDeviceMappings :=
  match subvols with
  | [] => ret m
  | s :: subvols =>
      match sv_block_volume_id s with
      | None => restore_each evidence existing subvols m
      | Some volume =>
          there <- sys (Exists (img_path (sv_path s))) ;;
          if negb there then restore_each evidence existing subvols m
          else
            d <- restore_device existing volume s ;;
            let existing := base.delete volume existing in
            match d with
            | None => restore_each evidence existing subvols m
            | Some dev =>
                restore_each evidence existing subvols
                  (mkMappings (<[volume := dev]> (bm_current m))
                     (if bool_decide (evidence !! dev = Some volume) then <[dev := volume]> (bm_preexisting m) else bm_preexisting m))
            end
      end
  end.

Definition restore_block_devices {E} : M SvWorld E BlockDeviceMappings :=
  all <- attempt (list_all None None) ;;
  match all with
  | Err _ => ret (mkMappings ∅ ∅)
  | Ok all =>
      let block_subvols := List.filter (fun s => is_block (sv_type s)) all in
      seen <- observe_existing block_subvols ∅ ∅ ;;
      evidence <- attempt (legacy_export_evidence seen.1) ;;
      match evidence with
      | Err _ => ret (mkMappings ∅ ∅)
      | Ok evidence => restore_each evidence seen.2 block_subvols (mkMappings ∅ ∅)
      end
  end.

Definition reconcile_subvolume {E} (fs_name mount_point : string) (usages : gmap Z ProjectQuotaInfo) (s : Subvolume) : M SvWorld E unit :=
  let projid := project_id_for fs_name (sv_name s) in
  match usages !! projid with
  | None => set_project_quota mount_point (sv_path s) projid 0
  | Some info =>
      match sv_volsize_bytes s with
      | Some volsize =>
          if (0 <? volsize)%Z && (pq_hard_bytes info =? saturating_mul volsize 1024)%Z
          then set_project_quota mount_point (sv_path s) projid volsize
          else ret tt
      | None => ret tt
      end
  end.

Definition reconcile_filesystem {E} (fs : FsView) : M SvWorld E unit :=
  match fv_mount_point fs with
  | None => ret tt
  | Some mount_point =>
      usages <- query_project_usages mount_point ;;
      subvols <- attempt (list_subvolumes (fv_name fs) None) ;;
      match subvols with
      | Err _ => ret tt
      | Ok subvols =>
          for_each (reconcile_subvolume (fv_name fs) mount_point usages) (List.filter (fun s => negb (is_block (sv_type s))) subvols)
      end
  end.

Definition reconcile_project_ids {E} : M SvWorld E unit :=
  filesystems <- sys FsList ;;
  match filesystems with
  | Err _ => ret tt
  | Ok filesystems => for_each reconcile_filesystem (List.filter fv_mounted filesystems)
  end.

End Service.
