(* ===== verification/SubvolumeLaws.v ===== *)
(** * What the subvolume service relies on

    [OsView] says what is in the machine: the subvolumes with their attributes
    and data, where filesystems are mounted and what the loop devices are backed
    by. [OsLaws] states what the kernel, bcachefs and the tools promise about
    the calls of the service, for paths without symbolic links: what each call
    may change, what reading an attribute says, that a listing names subvolumes,
    that a snapshot is a copy. On top of them a notion of a program that leaves
    the volumes alone, [calm], and the proof that all reading operations are. *)
From Stdlib Require Import String Ascii ZArith.
From stdpp Require Import base list gmap strings numbers.
From S2P Require Import Prelude RustStr Disk FileShare Iscsi Subvolume SubvolumeRead.

Open Scope string_scope.
Open Scope rust_scope.

(** ** The machine *)

Record Volume (D : Type) := mkVolume { vl_attrs : gmap string string; vl_mode : Z; vl_data : D }.
Arguments mkVolume {_}.
Arguments vl_attrs {_}.
Arguments vl_mode {_}.
Arguments vl_data {_}.

Class OsView `{Os} := {
  (** The contents of the files of a subvolume. *)
  Data : Type;
  (** The subvolume at a path. *)
  volumes : Store -> Path -> option (Volume Data);
  (** Where a filesystem is mounted, by its name. *)
  mounts : Store -> string -> option string;
  (** The file a loop device is on, as the kernel prints it. *)
  loops : Store -> string -> option string;
  (** The identifier of the filesystem that is mounted at a place. *)
  uuid_at : Store -> string -> option string;
  (** The path of a subvolume, by its identity. *)
  volume_at : Store -> BlockVolumeId -> option Path
}.

Definition owner_of {D} (v : Volume D) : option string := vl_attrs v !! XATTR_NASTY_OWNER.

(** ** What a call may change *)

Section Touches.
Context `{OsView}.

(** The subvolume a path is in: the nearest one above it, or at it. *)
Definition enclosing (s : Store) (p q : Path) : Prop :=
  is_Some (volumes s q) /\ q `prefix_of` p /\ forall q', q' `prefix_of` p -> is_Some (volumes s q') -> q' `prefix_of` q.

(** The subvolume a file is in. *)
Definition holding (s : Store) (p q : Path) : Prop := q <> p /\ enclosing s p q.

Definition first_arg (args : list string) : string := default "" (head args).
Definition last_arg (args : list string) : string := default "" (list.last args).

(** Files of the engine and of the system, which are in no subvolume. *)
Definition system_path (p : string) : bool := starts_with "/etc/" p || starts_with "/run/" p.

(** A new subvolume or snapshot goes to a place where there is no subvolume. *)
Definition exec_touches (s : Store) (program : string) (args : list string) (q : Path) : Prop :=
  if program =s "bcachefs" then
    if first_arg args =s "subvolume" then
      if default "" (args !! 1%nat) =s "list" then False
      else q = components (last_arg args) /\ (default "" (args !! 1%nat) = "delete" \/ volumes s q = None)
    else enclosing s (components (last_arg args)) q
  else if program =s "truncate" then holding s (components (last_arg args)) q
  else if starts_with "mkfs." program then
    exists f, loops s (last_arg args) = Some f /\ holding s (components f) q
  else if existsb (String.eqb program) ["losetup"; "blockdev"; "blkid"; "setproject"] then False
  else True.

Definition touches {A} (c : Sys A) (s : Store) (q : Path) : Prop :=
  match c with
  | Exec program args => exec_touches s program args q
  | XattrSet p _ _ | XattrRemove p _ | SetMode p _ => enclosing s (components p) q
  | CreateImage p | SetLen p _ => holding s (components p) q
  | WriteText p _ | AppendText p _ | RenameFile _ p | RemoveFile p => system_path p = false
  | _ => False
  end.

(** The call that removes a subvolume. *)
Definition deletes {A} (c : Sys A) (q : Path) : Prop :=
  match c with
  | Exec program args => program = "bcachefs" /\ exists p, args = ["subvolume"; "delete"; p] /\ components p = q
  | _ => False
  end.

(** The calls that attach and detach loop devices. *)
Definition changes_loops {A} (c : Sys A) : bool :=
  match c with
  | Exec program args =>
      (program =s "losetup") && negb (last_arg args =s "--noheadings") && negb (first_arg args =s "--set-capacity")
  | _ => false
  end.

End Touches.

Definition LOSETUP_LIST : list string := ["--list"; "--output"; "NAME,BACK-FILE"; "--noheadings"].

Class OsLaws `{OsView} `{!Codec (list BcachefsListEntry)} : Prop := {
  (** A call changes the volumes it is asked to change. *)
  law_frame : forall A (c : Sys A) s q, ~ touches c s q -> volumes (os_call c s).2 q = volumes s q;
  (** None of the calls mounts or unmounts. *)
  law_mounts : forall A (c : Sys A) s, mounts (os_call c s).2 = mounts s;
  law_fs : forall n s fs s' m, os_call (FsGet n) s = (Ok fs, s') -> fv_mount_point fs = Some m -> mounts s n = Some m;
  (** Reading an attribute of a subvolume. *)
  law_xattr : forall p k s v s' vol, os_call (XattrGet p k) s = (Ok (Some v), s') ->
    volumes s (components p) = Some vol -> vl_attrs vol !! k = Some v;
  (** A subvolume stays until it is deleted. *)
  law_alive : forall A (c : Sys A) s q, ~ deletes c q -> is_Some (volumes s q) -> is_Some (volumes (os_call c s).2 q);
  (** A listing names subvolumes. *)
  law_list : forall m s o s' es e, os_call (Exec "bcachefs" ["subvolume"; "list"; "--snapshots"; "--json"; m]) s = (Ok o, s') ->
    ou_success o = true -> decode (from_utf8_lossy (ou_stdout o)) = Ok es -> e ∈ es ->
    is_Some (volumes s (components (subvol_path m (be_path e))));
  (** A snapshot is a copy, at a place where there was nothing. *)
  law_snapshot : forall ro a b s o s', os_call (Exec "bcachefs" (["subvolume"; "snapshot"] ++ ro ++ [a; b])%list) s = (Ok o, s') ->
    (ro = [] \/ ro = ["-r"]) -> ou_success o = true ->
    volumes s (components b) = None /\ exists v, volumes s (components a) = Some v /\ volumes s' (components b) = Some v;
  (** A new subvolume is there, where there was nothing. *)
  law_create : forall p s o s', os_call (Exec "bcachefs" ["subvolume"; "create"; p]) s = (Ok o, s') -> ou_success o = true ->
    (forall q, components p `prefix_of` q -> volumes s q = None) /\ is_Some (volumes s' (components p));
  (** A mode is all that [chmod] changes. *)
  law_mode : forall p m s q v, volumes s q = Some v ->
    exists m', volumes (os_call (SetMode p m) s).2 q = Some (mkVolume (vl_attrs v) m' (vl_data v));
  (** A loop device is attached to the file that was asked for, and it was free. *)
  law_attach : forall d f s o s', os_call (Exec "losetup" (losetup_args d f)) s = (Ok o, s') -> ou_success o = true ->
    let dev := trim (from_utf8_lossy (ou_stdout o)) in
    loops s' dev = Some (display_path (components f)) /\ loops s dev = None;
  (** Setting an attribute. *)
  law_xattr_set : forall p k x s s' vol, os_call (XattrSet p k x) s = (Ok tt, s') -> volumes s (components p) = Some vol ->
    volumes s' (components p) = Some (mkVolume (<[k := x]> (vl_attrs vol)) (vl_mode vol) (vl_data vol))
}.

(** ** Lists of components *)

Lemma split_app_slash a b : split "/" (a ++ "/" ++ b) = (split "/" a ++ split "/" b)%list.
Proof. change ("/" ++ b) with (String "/" b). apply split_app_parts. Qed.

Lemma components_app a b : components (a ++ "/" ++ b) = (components a ++ components b)%list.
Proof. unfold components. rewrite split_app_slash. apply List.filter_app. Qed.

Lemma components_subvol m n : components (subvol_path m n) = (components m ++ components n)%list.
Proof. apply components_app. Qed.

Lemma components_img p : components (img_path p) = (components p ++ [BLOCK_FILE_NAME])%list.
Proof. unfold img_path. by rewrite components_app. Qed.

Lemma strip_prefix_Some p s r : strip_prefix p s = Some r -> s = p ++ r.
Proof.
  revert s. induction p as [|c p IH]; intros s; [by destruct s; injection 1 as <-|].
  destruct s as [|d s]; [done|]. cbn. destruct (Ascii.eqb c d) eqn:E; [|done]. apply Ascii.eqb_eq in E as ->.
  intros E. by rewrite (IH _ E).
Qed.

(** ** Programs that leave the volumes alone *)

Section Calm.
Context `{OsLaws} `{ProjectHash} `{!Codec (gmap string BlockVolumeId)}.
Implicit Types (s : Store) (w : SvWorld) (q : Path) (P : Path -> Prop).

(** The volumes at [P], and the mounts, are as in [s0]. *)
Definition kept P s0 w : Prop :=
  mounts (sw_store w) = mounts s0 /\ forall q, P q -> volumes (sw_store w) q = volumes s0 q.

Definition calm {E A} (m : M SvWorld E A) : Prop := forall P s0 w, kept P s0 w -> keeps (kept P s0) m w.

(** What a whole call keeps is what its parts keep. *)
Lemma kept_refl P w : kept P (sw_store w) w.
Proof. done. Qed.

Lemma kept_sys {E A} (c : Sys A) P s0 w :
  (forall q, P q -> ~ touches c (sw_store w) q) -> kept P s0 w -> keeps (kept P s0) (sys (E := E) c) w.
Proof.
  intros Ht [Hm Hk]. unfold keeps, wp, sys. pose proof (law_mounts _ c (sw_store w)) as Hm'.
  pose proof (law_frame _ c (sw_store w)) as Hf. destruct (os_call c (sw_store w)) as [a s]. cbn in *.
  split; cbn; [congruence|]. intros q Hq. rewrite Hf by eauto. by apply Hk.
Qed.

Lemma calm_sys {E A} (c : Sys A) : (forall s q, ~ touches c s q) -> calm (sys (E := E) c).
Proof. intros Hc P s0 w Hk. apply kept_sys; [|done]. intros q _. apply Hc. Qed.

Lemma calm_ret {E A} (a : A) : calm (ret (E := E) a).
Proof. intros P s0 w Hk. by apply keeps_ret. Qed.

Lemma calm_throw {E A} (e : E) : calm (throw (A := A) e).
Proof. intros P s0 w Hk. by apply keeps_throw. Qed.

Lemma calm_lift {E A} (r : result A E) : calm (lift r).
Proof. intros P s0 w Hk. by apply keeps_lift_last. Qed.

Lemma calm_throw_if {E} b (e : E) : calm (throw_if b e).
Proof. destruct b; [apply calm_throw|apply calm_ret]. Qed.

Lemma calm_bind {E A B} (m : M SvWorld E A) (f : A -> M SvWorld E B) : calm m -> (forall a, calm (f a)) -> calm (bind m f).
Proof. intros Hm Hf P s0 w Hk. apply keeps_bind; [by apply Hm|]. intros a w' Hk'. by apply Hf. Qed.

Lemma calm_attempt {E F A} (m : M SvWorld F A) : calm m -> calm (attempt (F := E) m).
Proof. intros Hm P s0 w Hk. apply keeps_attempt. by apply Hm. Qed.

Lemma calm_gets {E A} (f : SvWorld -> A) : calm (gets (E := E) f).
Proof. by intros P s0 w Hk. Qed.

Lemma calm_orfail {E F A} (f : F -> E) (r : result A F) : calm (orfail f r).
Proof. destruct r; [apply calm_ret|apply calm_throw]. Qed.

Lemma calm_collect {E A B} (f : A -> M SvWorld E (option B)) l : (forall a, calm (f a)) -> calm (collect f l).
Proof.
  intros Hf. induction l as [|a l IH]; cbn [collect]; [apply calm_ret|].
  apply calm_bind; [done|]. intros o. apply calm_bind; [done|]. intros bs. apply calm_ret.
Qed.

Lemma calm_for_each {E A} (f : A -> M SvWorld E unit) l : (forall a, calm (f a)) -> calm (for_each f l).
Proof. intros Hf. induction l as [|a l IH]; cbn [for_each]; [apply calm_ret|]. by apply calm_bind. Qed.

End Calm.

Create HintDb calm.
#[export] Hint Resolve calm_ret calm_throw calm_lift calm_throw_if calm_gets calm_orfail : calm.

(** Walk through a program. *)
Ltac calm_go :=
  repeat first
    [ progress cbn beta zeta
    | solve [eauto with calm]
    | lazymatch goal with
      | |- forall _, _ => intros ?
      | |- calm (bind _ _) => apply calm_bind; [|intros]
      | |- calm (attempt _) => apply calm_attempt
      | |- calm (collect _ _) => apply calm_collect; intros
      | |- calm (for_each _ _) => apply calm_for_each; intros
      | |- calm (sys _) => apply calm_sys; intros ? ? Htouch; try done
      | |- calm (match ?x with _ => _ end) => destruct x eqn:?
      | |- calm (if ?x then _ else _) => destruct x eqn:?
      end ].

(** ** Running programs *)

Section Running.
Context `{OsLaws}.

Lemma calm_run_ok {E} program args : (forall s q, ~ exec_touches s program args q) -> calm (run_ok (E := E) program args).
Proof. intros Ht. unfold run_ok. calm_go. by apply (Ht s q). Qed.

Lemma calm_run_cmd program args : (forall s q, ~ exec_touches s program args q) -> calm (run_cmd program args).
Proof. intros Ht. unfold run_cmd. apply calm_bind; [by apply calm_run_ok|]. calm_go. Qed.

Lemma calm_run_ignored program args : (forall s q, ~ exec_touches s program args q) -> calm (run_ignored program args).
Proof. intros Ht. unfold run_ignored. apply calm_bind; [by apply calm_run_ok|]. calm_go. Qed.

End Running.

(** A program that is known to change no volume. *)
Ltac calm_exec := first [apply calm_run_ok|apply calm_run_cmd|apply calm_run_ignored]; intros ? ? Htouch; exact Htouch.


(** ** Programs that only look *)

Section Quiet.
Context `{OsLaws}.
Implicit Types (w : SvWorld).

(** A call that changes neither a volume nor a loop device. *)
Definition quiet_call {A} (c : Sys A) : Prop := (forall s q, ~ touches c s q) /\ changes_loops c = false.

Definition after {A} (c : Sys A) w : SvWorld := mkSvWorld _ (os_call c (sw_store w)).2 (sw_evidence w).

(** What quiet calls keep, the program keeps. *)
Definition quiet {E A} (m : M SvWorld E A) : Prop :=
  forall I : SvWorld -> Prop, (forall B (c : Sys B) w, quiet_call c -> I w -> I (after c w)) -> forall w, I w -> keeps I m w.

Lemma quiet_sys {E A} (c : Sys A) : quiet_call c -> quiet (sys (E := E) c).
Proof.
  intros Hc I HI w Hw. specialize (HI _ c w Hc Hw). unfold keeps, wp, sys, after in *.
  by destruct (os_call c (sw_store w)) as [a s].
Qed.

Lemma quiet_ret {E A} (a : A) : quiet (ret (E := E) a).
Proof. intros I HI w Hw. by apply keeps_ret. Qed.

Lemma quiet_throw {E A} (e : E) : quiet (throw (A := A) e).
Proof. intros I HI w Hw. by apply keeps_throw. Qed.

Lemma quiet_lift {E A} (r : result A E) : quiet (lift r).
Proof. intros I HI w Hw. by apply keeps_lift_last. Qed.

Lemma quiet_throw_if {E} b (e : E) : quiet (throw_if b e).
Proof. destruct b; [apply quiet_throw|apply quiet_ret]. Qed.

Lemma quiet_bind {E A B} (m : M SvWorld E A) (f : A -> M SvWorld E B) : quiet m -> (forall a, quiet (f a)) -> quiet (bind m f).
Proof. intros Hm Hf I HI w Hw. apply keeps_bind; [by apply Hm|]. intros a w' Hw'. by apply Hf. Qed.

Lemma quiet_attempt {E F A} (m : M SvWorld F A) : quiet m -> quiet (attempt (F := E) m).
Proof. intros Hm I HI w Hw. apply keeps_attempt. by apply Hm. Qed.

Lemma quiet_orfail {E F A} (f : F -> E) (r : result A F) : quiet (orfail f r).
Proof. destruct r; [apply quiet_ret|apply quiet_throw]. Qed.

Lemma quiet_collect {E A B} (f : A -> M SvWorld E (option B)) l : (forall a, quiet (f a)) -> quiet (collect f l).
Proof.
  intros Hf. induction l as [|a l IH]; cbn [collect]; [apply quiet_ret|].
  apply quiet_bind; [done|]. intros o. apply quiet_bind; [done|]. intros bs. apply quiet_ret.
Qed.

Lemma quiet_run_ok {E} program args : quiet_call (Exec program args) -> quiet (run_ok (E := E) program args).
Proof. intros Hc. unfold run_ok. apply quiet_bind; [by apply quiet_sys|]. intros o. apply quiet_ret. Qed.

Lemma quiet_run_cmd program args : quiet_call (Exec program args) -> quiet (run_cmd program args).
Proof. intros Hc. unfold run_cmd. apply quiet_bind; [by apply quiet_run_ok|]. intros r. apply quiet_orfail. Qed.

(** A program that only looks is calm. *)
Lemma quiet_calm {E A} (m : M SvWorld E A) : quiet m -> calm m.
Proof.
  intros Hm P s0 w Hk. apply Hm; [|done]. intros B c w' [Hc _] Hk'.
  pose proof (calm_sys (E := E) c Hc P s0 w' Hk') as Hs. unfold keeps, wp, sys, after in *.
  by destruct (os_call c (sw_store w')) as [a s].
Qed.

End Quiet.

Create HintDb quiet.
#[export] Hint Resolve quiet_ret quiet_throw quiet_lift quiet_throw_if quiet_orfail : quiet.

(** Walk through a program that only looks. *)
Ltac quiet_exec := first [apply quiet_run_ok|apply quiet_run_cmd]; (split; [intros ? ? Htouch; exact Htouch|reflexivity]).

Ltac quiet_go :=
  repeat first
    [ progress cbn beta zeta
    | solve [eauto with quiet]
    | lazymatch goal with
      | |- forall _, _ => intros ?
      | |- quiet (bind _ _) => apply quiet_bind; [|intros]
      | |- quiet (attempt _) => apply quiet_attempt
      | |- quiet (collect _ _) => apply quiet_collect; intros
      | |- quiet (sys _) => apply quiet_sys; split; [intros ? ? Htouch; done|done]
      | |- quiet (match ?x with _ => _ end) => destruct x eqn:?
      | |- quiet (if ?x then _ else _) => destruct x eqn:?
      end ].

Section Reading.
Context `{OsLaws} `{ProjectHash} `{!Codec (gmap string BlockVolumeId)}.

Lemma quiet_read_string_xattr {E} path key : quiet (read_string_xattr (E := E) path key).
Proof. unfold read_string_xattr. quiet_go. Qed.
#[local] Hint Resolve quiet_read_string_xattr : quiet.

Lemma quiet_provisioning_is {E} path st : quiet (provisioning_is (E := E) path st).
Proof. unfold provisioning_is. quiet_go. Qed.

Lemma quiet_type_of_text {E} path t : quiet (type_of_text (E := E) path t).
Proof. unfold type_of_text. quiet_go. Qed.
#[local] Hint Resolve quiet_provisioning_is quiet_type_of_text : quiet.

Lemma quiet_sort_xattrs {E} path names raw : quiet (sort_xattrs (E := E) path names raw).
Proof. revert raw. induction names as [|n names IH]; intros raw; cbn [sort_xattrs]; quiet_go. Qed.
#[local] Hint Resolve quiet_sort_xattrs : quiet.

Lemma quiet_read_all_xattrs {E} path : quiet (read_all_xattrs (E := E) path).
Proof. unfold read_all_xattrs. quiet_go. Qed.

Lemma quiet_read_meta_xattrs {E} path : quiet (read_meta_xattrs (E := E) path).
Proof. unfold read_meta_xattrs. quiet_go. Qed.
#[local] Hint Resolve quiet_read_all_xattrs quiet_read_meta_xattrs : quiet.

Lemma quiet_bcachefs_list_all_strict mount_point : quiet (bcachefs_list_all_strict mount_point).
Proof. unfold bcachefs_list_all_strict. apply quiet_bind; [by quiet_exec|]. quiet_go. Qed.
#[local] Hint Resolve quiet_bcachefs_list_all_strict : quiet.

Lemma quiet_bcachefs_list_all {E} mount_point : quiet (bcachefs_list_all (E := E) mount_point).
Proof. unfold bcachefs_list_all. quiet_go. Qed.

Lemma quiet_path_identity path : quiet (path_identity path).
Proof. unfold path_identity. quiet_go. Qed.

Lemma quiet_block_device_for_dev {E} base dev : quiet (block_device_for_dev (E := E) base dev).
Proof. unfold block_device_for_dev. quiet_go. Qed.
#[local] Hint Resolve quiet_bcachefs_list_all quiet_path_identity quiet_block_device_for_dev : quiet.

Lemma quiet_write_project_quota_limit {E} device projid blocks : quiet (write_project_quota_limit (E := E) device projid blocks).
Proof. unfold write_project_quota_limit. quiet_go. Qed.
#[local] Hint Resolve quiet_write_project_quota_limit : quiet.

Lemma quiet_set_project_quota_limit mount_point projid bytes : quiet (set_project_quota_limit mount_point projid bytes).
Proof. unfold set_project_quota_limit. quiet_go. Qed.

Lemma quiet_register_project {E} name projid : quiet (register_project (E := E) name projid).
Proof. unfold register_project. quiet_go. Qed.

Lemma quiet_unregister_project {E} projid : quiet (unregister_project (E := E) projid).
Proof. unfold unregister_project. quiet_go. Qed.
#[local] Hint Resolve quiet_set_project_quota_limit quiet_register_project : quiet.

Lemma quiet_set_project_quota {E} mount_point dir projid bytes : quiet (set_project_quota (E := E) mount_point dir projid bytes).
Proof.
  unfold set_project_quota. apply quiet_bind; [by eauto with quiet|]. intros _. apply quiet_bind; [by quiet_go|].
  intros [current|]; [|by quiet_go]. apply quiet_bind; [|by intros []; quiet_go].
  destruct (project_id_needs_update _ _); [|by quiet_go]. apply quiet_bind; [by quiet_exec|]. quiet_go.
Qed.

Lemma quiet_block_image_size {E} path : quiet (block_image_size (E := E) path).
Proof. unfold block_image_size. quiet_go. Qed.

Lemma quiet_next_quotas {E} fuel device id out : quiet (next_quotas (E := E) fuel device id out).
Proof. revert id out. induction fuel as [|fuel IH]; intros id out; cbn [next_quotas]; quiet_go. Qed.
#[local] Hint Resolve quiet_block_image_size quiet_next_quotas : quiet.

Lemma quiet_query_project_usages {E} mount_point : quiet (query_project_usages (E := E) mount_point).
Proof. unfold query_project_usages, read_project_quotas. quiet_go. Qed.

Lemma quiet_build_losetup_map {E} : quiet (build_losetup_map (E := E)).
Proof. unfold build_losetup_map. apply quiet_bind; [by quiet_exec|]. quiet_go. Qed.

Lemma quiet_find_loop_device_from_map {E} m path : quiet (find_loop_device_from_map (E := E) m path).
Proof. unfold find_loop_device_from_map. quiet_go. Qed.
#[local] Hint Resolve quiet_query_project_usages quiet_build_losetup_map quiet_find_loop_device_from_map : quiet.

Lemma quiet_find_loop_device {E} path : quiet (find_loop_device (E := E) path).
Proof. unfold find_loop_device. quiet_go. Qed.

Lemma quiet_find_child_subvolumes {E} mount_point name : quiet (find_child_subvolumes (E := E) mount_point name).
Proof. unfold find_child_subvolumes. apply quiet_bind; [by quiet_exec|]. quiet_go. Qed.

Lemma quiet_fs_mount_point fs : quiet (fs_mount_point fs).
Proof. unfold fs_mount_point. quiet_go. Qed.

Lemma quiet_snapshot_names m name info owner : quiet (snapshot_names m name info owner).
Proof. unfold snapshot_names. quiet_go. Qed.

Lemma quiet_sizes_of fs name path usages t : quiet (sizes_of fs name path usages t).
Proof. unfold sizes_of. quiet_go. Qed.
#[local] Hint Resolve quiet_snapshot_names quiet_sizes_of : quiet.

Lemma quiet_describe fs_name fs m info usages lm owner name : quiet (describe fs_name fs m info usages lm owner name).
Proof. unfold describe. quiet_go. Qed.
#[local] Hint Resolve quiet_describe : quiet.

Lemma quiet_list_subvolumes fs owner : quiet (list_subvolumes fs owner).
Proof. unfold list_subvolumes. quiet_go. Qed.
#[local] Hint Resolve quiet_list_subvolumes : quiet.

Lemma quiet_get fs name owner : quiet (get fs name owner).
Proof. unfold get. quiet_go. Qed.

Lemma quiet_list_filesystems fss f owner : quiet (list_filesystems fss f owner).
Proof. induction fss as [|fs fss IH]; cbn [list_filesystems]; quiet_go. Qed.
#[local] Hint Resolve quiet_list_filesystems : quiet.

Lemma quiet_list_all f owner : quiet (list_all f owner).
Proof. unfold list_all. quiet_go. Qed.

End Reading.

#[export] Hint Resolve quiet_read_string_xattr quiet_provisioning_is quiet_type_of_text quiet_read_all_xattrs quiet_read_meta_xattrs
  quiet_bcachefs_list_all_strict quiet_bcachefs_list_all quiet_path_identity quiet_set_project_quota_limit quiet_register_project
  quiet_unregister_project quiet_set_project_quota quiet_query_project_usages quiet_build_losetup_map quiet_find_loop_device_from_map
  quiet_find_loop_device quiet_find_child_subvolumes quiet_fs_mount_point quiet_list_subvolumes quiet_get quiet_list_all
  quiet_block_image_size quiet_describe : quiet.

#[export] Hint Extern 3 (calm _) => apply quiet_calm; solve [eauto with quiet] : calm.
