(* ===== verification/SubvolumeOwner.v ===== *)
(** * What an owner may change

    A token that is confined to its own subvolumes changes no other: what
    [get] answers about an owner is what the volume says, and every operation
    that takes an owner filter touches only a volume it has checked, or a place
    where there was none. *)
From Stdlib Require Import String Ascii ZArith.
From stdpp Require Import base list gmap strings numbers sorting.
From S2P Require Import Prelude RustStr Disk FileShare Iscsi Subvolume SubvolumeRead SubvolumeService SubvolumeLaws.

Open Scope string_scope.
Open Scope rust_scope.

(** ** What bcachefs lists *)

Lemma add_entry_paths i e n : n ∈ bi_subvol_paths (add_entry i e) -> n = be_path e \/ n ∈ bi_subvol_paths i.
Proof. unfold add_entry. destruct (be_snapshot_parent e); [destruct (bool_decide _)|]; cbn; set_solver. Qed.

Lemma info_paths_from es i n :
  n ∈ bi_subvol_paths (foldl add_entry i es) -> n ∈ bi_subvol_paths i \/ exists e, e ∈ es /\ be_path e = n.
Proof.
  revert i. induction es as [|e es IH]; intros i; cbn; [by left|]. intros [Hn|(e' & He & Hp)]%IH.
  - apply add_entry_paths in Hn as [->|Hn]; [right; exists e; set_solver|by left].
  - right. exists e'. set_solver.
Qed.

Lemma info_paths es n : n ∈ bi_subvol_paths (build_bcachefs_info es) -> exists e, e ∈ es /\ be_path e = n.
Proof. intros [Hn|He]%info_paths_from; [set_solver|done]. Qed.

(** ** What is nested *)

Lemma starts_with_Some p s : starts_with p s = true -> exists r, s = p ++ r.
Proof.
  unfold starts_with. revert s. induction p as [|c p IH]; intros s; [by exists s|].
  destruct s as [|d s]; [done|]. cbn. destruct (ascii_dec c d) as [->|]; [|done]. intros [r ->]%IH. by exists r.
Qed.

Lemma child_lines_below name output c : c ∈ child_lines name output -> exists x, c = name ++ "/" ++ x.
Proof.
  unfold child_lines. intros (l & _ & Hl)%list_elem_of_omap. cbv zeta in Hl. destruct (starts_with _ _) eqn:Es; [|done].
  apply starts_with_Some in Es as [x Hx]. exists x. rewrite append_assoc, <- Hx. cbn [andb] in Hl. by destruct (negb _); [injection Hl as <-|].
Qed.

(** ** Loops *)

Section Loops.
Context {W E A B : Type}.

Lemma wp_collect (I : W -> Prop) (Q : A -> B -> Prop) (f : A -> M W E (option B)) l w :
  (forall a w, a ∈ l -> I w -> wp (f a) (fun r w' => I w' /\ forall b, r = Ok (Some b) -> Q a b) w) ->
  I w -> wp (collect f l) (fun r w' => I w' /\ forall bs, r = Ok bs -> Forall (fun b => exists a, a ∈ l /\ Q a b) bs) w.
Proof.
  revert w. induction l as [|a l IH]; intros w Hf Hw; cbn [collect]; [apply wp_ret; split; [done|by intros ? [= <-]]|].
  apply wp_bind. eapply wp_mono; [|apply Hf; [set_solver|done]]. intros r w1 [Hw1 Hr]. destruct r as [o|e]; [|by split].
  apply wp_bind. eapply wp_mono; [|apply IH; [intros; apply Hf; [set_solver|done]|done]].
  intros r w2 [Hw2 Hbs]. destruct r as [bs|e]; [|by split]. apply wp_ret. split; [done|]. intros bs' [= <-].
  assert (Forall (fun b => exists a', a' ∈ a :: l /\ Q a' b) bs) as Hall.
  { eapply list.Forall_impl; [by apply Hbs|]. intros b (a' & Ha & Hq). exists a'. set_solver. }
  destruct o as [b|]; [|done]. constructor; [|done]. exists a. split; [set_solver|by apply Hr].
Qed.

End Loops.

Section Owner.
Context `{OsLaws} `{ProjectHash} `{!Codec (gmap string BlockVolumeId)}.
Implicit Types (s : Store) (w : SvWorld) (q : Path) (P : Path -> Prop).

(** The machine has the same volumes and mounts. *)
Definition same s0 w : Prop := kept (fun _ => True) s0 w.

Lemma same_volumes s0 w q : same s0 w -> volumes (sw_store w) q = volumes s0 q.
Proof. intros [_ Hv]. by apply Hv. Qed.

Lemma wp_calm {E A} (m : M SvWorld E A) (Q : result A E -> SvWorld -> Prop) s0 w :
  calm m -> same s0 w -> wp m Q w -> wp m (fun r w' => same s0 w' /\ Q r w') w.
Proof. intros Hm Hw HQ. apply wp_and; [by apply Hm|done]. Qed.

(** The next step of a walk in which nothing changes. *)
Lemma wp_calm_bind {E A B} (m : M SvWorld E A) (f : A -> M SvWorld E B) (Q : result B E -> SvWorld -> Prop) s0 w :
  calm m -> same s0 w -> (forall e w', same s0 w' -> Q (Err e) w') -> (forall a w', same s0 w' -> wp (f a) Q w') -> wp (bind m f) Q w.
Proof. intros Hm Hw He Hf. apply wp_bind. eapply wp_mono; [|by apply (Hm _ _ _ Hw)]. intros [a|e] w' Hw'; auto. Qed.

Lemma wp_sys {E A} (c : Sys A) (Q : result A E -> SvWorld -> Prop) w :
  (forall a s, os_call c (sw_store w) = (a, s) -> Q (Ok a) (mkSvWorld _ s (sw_evidence w))) -> wp (sys c) Q w.
Proof. intros HQ. unfold wp, sys. destruct (os_call c (sw_store w)) as [a s] eqn:E1. cbn. by apply HQ. Qed.

(** ** Attributes *)

Lemma wp_read_string_xattr {E} path key s0 w : same s0 w ->
  wp (read_string_xattr (E := E) path key) (fun r w' => same s0 w' /\
    forall x v, r = Ok (Some x) -> volumes s0 (components path) = Some v -> vl_attrs v !! key = Some x) w.
Proof.
  intros Hw. apply wp_calm; [apply quiet_calm, quiet_read_string_xattr|done|]. unfold read_string_xattr. apply wp_bind, wp_sys.
  intros a s Ha. apply wp_ret. intros x v Hx Hv. rewrite <- (same_volumes _ _ _ Hw) in Hv.
  destruct a as [[y|]|]; try done. destruct (valid_utf8 y); [|done]. injection Hx as ->. by eapply law_xattr.
Qed.

Lemma sort_xattr_owner raw name value o :
  ra_meta (sort_xattr raw name value) !! "nasty.owner" = Some o ->
  ra_meta raw !! "nasty.owner" = Some o \/ name = XATTR_NASTY_OWNER /\ value = o.
Proof.
  unfold sort_xattr. destruct (strip_prefix BCACHEFS_EFFECTIVE_NS name); [by left|].
  destruct (strip_prefix BCACHEFS_NS name); [by left|]. destruct (strip_prefix XATTR_NS name) as [key|] eqn:E; [|by left].
  apply strip_prefix_Some in E as ->. destruct (starts_with NASTY_KEY_PREFIX key); [|by left]. cbn [ra_meta].
  destruct (decide (key = "nasty.owner")) as [->|Hn]; [|rewrite lookup_insert_ne by done; by left].
  rewrite lookup_insert_eq. intros [= ->]. by right.
Qed.

Lemma wp_sort_xattrs {E} path names raw s0 w v : same s0 w -> volumes s0 (components path) = Some v ->
  (forall o, ra_meta raw !! "nasty.owner" = Some o -> owner_of v = Some o) ->
  wp (sort_xattrs (E := E) path names raw) (fun r w' => same s0 w' /\
    forall raw' o, r = Ok raw' -> ra_meta raw' !! "nasty.owner" = Some o -> owner_of v = Some o) w.
Proof.
  intros Hw Hv. revert raw w Hw. induction names as [|n names IH]; intros raw w Hw Hraw; cbn [sort_xattrs].
  { apply wp_ret. split; [done|]. by intros raw' o [= <-] Ho; apply Hraw. }
  cbv zeta. apply wp_bind. eapply wp_mono; [|by apply wp_read_string_xattr]. intros r w1 [Hw1 Hx].
  destruct r as [x|e]; [|by split]. apply IH; [done|]. intros o. destruct x as [x|]; [|by apply Hraw].
  intros [Ho|[E1 ->]]%sort_xattr_owner; [by apply Hraw|]. unfold owner_of. rewrite <- E1. by eapply Hx.
Qed.

(** The owner that is reported is the volume's. *)
Definition honest_owner s0 (path : string) (o : option string) : Prop :=
  forall v x, volumes s0 (components path) = Some v -> o = Some x -> owner_of v = Some x.

Lemma wp_read_all_xattrs {E} path s0 w v : same s0 w -> volumes s0 (components path) = Some v ->
  wp (read_all_xattrs (E := E) path) (fun r w' => same s0 w' /\
    forall a, r = Ok a -> honest_owner s0 path (me_owner (at_meta a))) w.
Proof.
  intros Hw Hv. apply wp_calm; [apply quiet_calm, quiet_read_all_xattrs|done|]. unfold read_all_xattrs. apply wp_bind, wp_sys.
  intros names s Hn.
  assert (same s0 (mkSvWorld _ s (sw_evidence w))) as Hs.
  { pose proof (calm_sys (E := E) (XattrList path) (fun _ _ Ht => Ht) _ _ _ Hw) as Hk.
    unfold keeps, wp, sys in Hk. by rewrite Hn in Hk. }
  apply wp_bind. eapply wp_mono with (P := fun r w' => same s0 w' /\
    forall raw o, r = Ok raw -> ra_meta raw !! "nasty.owner" = Some o -> owner_of v = Some o).
  2:{ destruct names as [names|]; [by apply wp_sort_xattrs|]. apply wp_ret. split; [done|]. by intros raw o [= <-]. }
  intros r w1 [Hw1 Hr]. destruct r as [raw|e]; [|done].
  do 3 (eapply wp_calm_bind; [by eauto with calm|eassumption|done|]; intros ? ? ?).
  apply wp_ret. intros a' [= <-] v' x Hv' Hx. cbn in Hx. simplify_eq. by eapply Hr.
Qed.

Lemma wp_read_meta_xattrs {E} path s0 w : same s0 w ->
  wp (read_meta_xattrs (E := E) path) (fun r w' => same s0 w' /\
    forall a, r = Ok a -> honest_owner s0 path (me_owner a)) w.
Proof.
  intros Hw. apply wp_calm; [apply quiet_calm, quiet_read_meta_xattrs|done|]. unfold read_meta_xattrs.
  do 5 (eapply wp_calm_bind; [by eauto with calm|eassumption|done|]; intros ? ? ?).
  apply wp_bind. eapply wp_mono; [|by apply (wp_read_string_xattr path XATTR_NASTY_OWNER s0)].
  intros ro w5 [Hw5 Ho]. destruct ro as [owner|]; [|done].
  do 3 (eapply wp_calm_bind; [by eauto with calm|eassumption|done|]; intros ? ? ?).
  apply wp_ret. intros m [= <-] v x Hv Hx. cbn in Hx. subst owner. by eapply Ho.
Qed.

(** ** One subvolume, and the one that is asked for *)

Lemma wp_sys_same {E A} (c : Sys A) s0 w : (forall s q, ~ touches c s q) -> same s0 w ->
  wp (sys (E := E) c) (fun r w' => same s0 w' /\ exists a, r = Ok a /\ os_call c (sw_store w) = (a, sw_store w')) w.
Proof.
  intros Hc Hw. apply wp_calm; [by apply calm_sys|done|]. apply wp_sys. intros a s Ha. by exists a.
Qed.

Lemma wp_describe fs_name fs m info usages lm owner name s0 w v :
  same s0 w -> volumes s0 (components (subvol_path m name)) = Some v ->
  wp (describe fs_name fs m info usages lm owner name) (fun r w' => same s0 w' /\
    forall sv, r = Ok (Some sv) -> sv_name sv = name /\ sv_path sv = subvol_path m name /\ honest_owner s0 (sv_path sv) (sv_owner sv)) w.
Proof.
  intros Hw Hv. apply wp_calm; [apply quiet_calm, quiet_describe|done|]. unfold describe.
  eapply wp_calm_bind; [by eauto with calm|eassumption|done|]. intros creating w1 Hw1. destruct creating; [by apply wp_ret|].
  apply wp_bind. eapply wp_mono; [|by eapply wp_read_all_xattrs]. intros r w2 [Hw2 Ha]. destruct r as [attrs|e]; [|done].
  eapply wp_calm_bind; [by eauto with calm|eassumption|done|]. intros up w3 Hw3. cbv zeta.
  destruct (is_ok _); [|by apply wp_ret].
  eapply wp_calm_bind; [apply quiet_calm, quiet_snapshot_names|eassumption|done|]. intros snaps w4 Hw4.
  eapply wp_calm_bind; [apply quiet_calm, quiet_sizes_of|eassumption|done|]. intros sizes w5 Hw5.
  eapply wp_calm_bind; [by destruct (me_type (at_meta attrs)); eauto with calm|eassumption|done|]. intros dev w6 Hw6.
  apply wp_ret. intros sv [= <-]. cbn. split_and!; [done..|]. by apply Ha.
Qed.

Lemma wp_list_strict m s0 w : same s0 w ->
  wp (bcachefs_list_all_strict m) (fun r w' => same s0 w' /\
    forall i n, r = Ok i -> n ∈ bi_subvol_paths i -> is_Some (volumes s0 (components (subvol_path m n)))) w.
Proof.
  intros Hw. apply wp_calm; [by eauto with calm|done|]. unfold bcachefs_list_all_strict, run_cmd, run_ok.
  apply wp_bind, wp_bind, wp_bind, wp_sys. intros a s Ha. apply wp_ret. unfold orfail.
  destruct a as [o|e]; [|by apply wp_throw]. destruct (ou_success o) eqn:Eo; [|by apply wp_throw]. apply wp_ret.
  destruct (decode _) as [es|e] eqn:Ed; [|by apply wp_throw]. apply wp_ret. intros i n [= <-] (e & He & <-)%info_paths.
  rewrite <- (same_volumes _ _ _ Hw). by eapply law_list.
Qed.

(** What is known about a subvolume that was found. *)
Definition found s0 fs name (sv : Subvolume) : Prop := exists m v,
  mounts s0 fs = Some m /\ sv_name sv = name /\ sv_path sv = subvol_path m name /\
  volumes s0 (components (sv_path sv)) = Some v /\ honest_owner s0 (sv_path sv) (sv_owner sv).

Lemma wp_fs_mount_point fs s0 w : same s0 w ->
  wp (fs_mount_point fs) (fun r w' => same s0 w' /\ forall m, r = Ok m -> mounts s0 fs = Some m) w.
Proof.
  intros Hw. apply wp_calm; [by eauto with calm|done|]. unfold fs_mount_point. apply wp_bind.
  eapply wp_mono; [|by apply wp_sys_same; [intros s q Ht; exact Ht|]]. intros r w1 (Hw1 & a & -> & Ha).
  apply wp_bind. destruct a as [f|e]; [|by apply wp_throw]. apply wp_ret, wp_lift.
  destruct (fv_mount_point f) as [m|] eqn:Em; [|done]. intros m' [= <-]. destruct Hw as [<- _]. by eapply law_fs.
Qed.

Lemma wp_list_subvolumes fs owner s0 w : same s0 w ->
  wp (list_subvolumes fs owner) (fun r w' => same s0 w' /\
    forall l, r = Ok l -> Forall (fun sv => found s0 fs (sv_name sv) sv) l) w.
Proof.
  intros Hw. unfold list_subvolumes. apply wp_bind.
  eapply wp_mono; [|by apply wp_sys_same; [intros s q Ht; exact Ht|]]. intros r w1 (Hw1 & a & -> & Ha).
  apply wp_bind. destruct a as [f|e]; [|by apply wp_throw]. apply wp_ret. apply wp_bind, wp_lift.
  destruct (fv_mount_point f) as [m|] eqn:Em; [|done]. cbn [ok_or].
  assert (mounts s0 fs = Some m) as Hm. { destruct Hw as [<- _]. by eapply law_fs. }
  apply wp_bind. eapply wp_mono; [|by apply wp_list_strict]. intros r w2 [Hw2 Hi]. destruct r as [info|e]; [|done].
  eapply wp_calm_bind; [by eauto with calm|eassumption|done|]. intros usages w3 Hw3.
  eapply wp_calm_bind; [by eauto with calm|eassumption|done|]. intros lm w4 Hw4.
  eapply wp_mono; [|apply (wp_collect (same s0) (fun n sv => sv_name sv = n /\ found s0 fs n sv)); [|done]].
  - intros r w5 [Hw5 Hall]. split; [done|]. intros l Hl. eapply list.Forall_impl; [by apply Hall|].
    intros sv (n & _ & <- & Hf). done.
  - intros n w5 Hn Hw5. apply list_elem_of_In, List.filter_In in Hn as [Hn _]. apply list_elem_of_In, elem_of_elements in Hn.
    destruct (Hi info n eq_refl Hn) as [v Hv]. eapply wp_mono; [|by eapply wp_describe].
    intros r w6 [Hw6 Hd]. split; [done|]. intros sv Hsv. destruct (Hd sv Hsv) as (Hname & Hpath & Ho).
    split; [done|]. exists m, v. by rewrite Hpath in *.
Qed.

Lemma wp_get_subvolume fs name owner s0 w : same s0 w ->
  wp (get fs name owner) (fun r w' => same s0 w' /\
    forall sv, r = Ok sv -> found s0 fs name sv /\ require_owner (sv_owner sv) owner = Ok tt) w.
Proof.
  intros Hw. apply wp_calm; [by eauto with calm|done|]. unfold get. apply wp_bind.
  eapply wp_mono; [|by apply wp_list_subvolumes]. intros r w1 [Hw1 Hl]. destruct r as [l|e]; [|done].
  apply wp_bind, wp_lift. destruct (List.find _ l) as [sv|] eqn:Ef; [|done]. cbn [ok_or].
  apply find_Some_elem in Ef as [Hin Hn%eqb_spec]. apply wp_bind, wp_lift.
  destruct (require_owner _ _) as [[]|] eqn:Er; [|done]. apply wp_ret. intros sv' [= <-]. split; [|done].
  specialize (Hl l eq_refl). rewrite list.Forall_forall in Hl. rewrite <- Hn. by apply Hl.
Qed.

(** The volume at a path is the token's own. *)
Definition owned s0 (o : string) q : Prop := exists v, volumes s0 q = Some v /\ owner_of v = Some o.

Lemma found_owned s0 fs name sv o :
  found s0 fs name sv -> require_owner (sv_owner sv) (Some o) = Ok tt -> owned s0 o (components (sv_path sv)).
Proof.
  intros (m & v & _ & _ & _ & Hv & Ho) Hr. exists v. split; [done|]. apply (Ho v o Hv).
  unfold require_owner in Hr. by destruct (decide (sv_owner sv = Some o)).
Qed.

(** ** Programs that work on one subvolume *)

(** The volumes at [P] are as they were, and there is one at [p]. *)
Definition guarded P p s0 w : Prop := kept P s0 w /\ is_Some (volumes (sw_store w) p).

Definition near {E A} (p : Path) (m : M SvWorld E A) : Prop :=
  forall P s0 w, ~ P p -> guarded P p s0 w -> keeps (guarded P p s0) m w.

Lemma near_calm {E A} p (m : M SvWorld E A) : calm m -> near p m.
Proof.
  intros Hm P s0 w _ [Hk Ha]. unfold keeps, guarded. apply wp_and; [by apply Hm|].
  eapply wp_mono; [|by apply (Hm (fun q => q = p) (sw_store w) w)]. intros r w' [_ Hv]. by rewrite Hv.
Qed.

Lemma near_bind {E A B} p (m : M SvWorld E A) (f : A -> M SvWorld E B) : near p m -> (forall a, near p (f a)) -> near p (bind m f).
Proof. intros Hm Hf P s0 w Hp Hg. apply keeps_bind; [by apply Hm|]. intros a w' Hg'. by apply Hf. Qed.

Lemma near_attempt {E F A} p (m : M SvWorld F A) : near p m -> near p (attempt (F := E) m).
Proof. intros Hm P s0 w Hp Hg. apply keeps_attempt. by apply Hm. Qed.

Lemma near_for_each {E A} p (f : A -> M SvWorld E unit) l : (forall a, near p (f a)) -> near p (for_each f l).
Proof. intros Hf. induction l as [|a l IH]; cbn [for_each]; [by apply near_calm; eauto with calm|]. by apply near_bind. Qed.

Lemma near_sys {E A} p (c : Sys A) :
  (forall s q, is_Some (volumes s p) -> touches c s q -> q = p) -> (forall q, ~ deletes c q) -> near p (sys (E := E) c).
Proof.
  intros Ht Hd P s0 w Hp [Hk Ha]. unfold keeps, guarded. apply wp_and.
  - apply kept_sys; [|done]. intros q Hq Htq. by rewrite (Ht _ _ Ha Htq) in Hq.
  - apply wp_sys. intros a s E1. cbn. pose proof (law_alive _ c (sw_store w) p (Hd p) Ha) as Hl. by rewrite E1 in Hl.
Qed.

Lemma enclosing_self s p q : is_Some (volumes s p) -> enclosing s p q -> q = p.
Proof. intros Ha (_ & Hq & He). apply (anti_symm prefix); [done|]. by apply He. Qed.

Lemma holding_img s p q : is_Some (volumes s p) -> holding s (p ++ [BLOCK_FILE_NAME])%list q -> q = p.
Proof.
  intros Ha (Hne & _ & Hq & He). apply (anti_symm prefix); [|apply He; [by apply prefix_app_r|done]].
  destruct Hq as [r Hr]. destruct r as [|x r _] using rev_ind; [by rewrite app_nil_r in Hr|].
  rewrite app_assoc in Hr. apply app_inj_tail in Hr as [-> _]. by apply prefix_app_r.
Qed.

Lemma near_set_xattr path key value msg : near (components path) (set_xattr path key value msg).
Proof.
  unfold set_xattr. apply near_bind; [|intros; apply near_calm; eauto with calm].
  apply near_sys; [|by intros q []]. intros s q. cbn. apply enclosing_self.
Qed.

Lemma near_xattr_remove {E} path key : near (components path) (sys (E := E) (XattrRemove path key)).
Proof. apply near_sys; [|by intros q []]. intros s q. cbn. apply enclosing_self. Qed.

Lemma near_run_ok {E} p program args :
  (forall s q, is_Some (volumes s p) -> exec_touches s program args q -> q = p) -> (program = "bcachefs" -> head args <> Some "subvolume") ->
  near p (run_ok (E := E) program args).
Proof.
  intros Ht Hd. unfold run_ok. apply near_bind; [|intros; apply near_calm; eauto with calm].
  apply near_sys; [done|]. intros q [-> (x & -> & _)]. by apply Hd.
Qed.

Lemma near_run_cmd p program args :
  (forall s q, is_Some (volumes s p) -> exec_touches s program args q -> q = p) -> (program = "bcachefs" -> head args <> Some "subvolume") ->
  near p (run_cmd program args).
Proof. intros Ht Hd. unfold run_cmd. apply near_bind; [by apply near_run_ok|]. intros. apply near_calm. eauto with calm. Qed.

Lemma near_file_option {E} flag path : near (components path) (run_ok (E := E) "bcachefs" ["set-file-option"; flag; path]).
Proof. apply near_run_ok; [|done]. intros s q Ha Ht. by apply (enclosing_self s). Qed.

Lemma near_file_option_cmd flag path : near (components path) (run_cmd "bcachefs" ["set-file-option"; flag; path]).
Proof. unfold run_cmd. apply near_bind; [apply near_file_option|]. intros. apply near_calm. eauto with calm. Qed.

Lemma near_truncate size path : near (components path) (run_cmd "truncate" ["-s"; size; img_path path]).
Proof.
  apply near_run_cmd; [|done]. intros s q Ha Ht. apply (holding_img s); [done|].
  change (holding s (components (img_path path)) q) in Ht. by rewrite components_img in Ht.
Qed.

End Owner.

Create HintDb near.
#[export] Hint Resolve near_set_xattr near_xattr_remove near_file_option near_file_option_cmd near_truncate : near.

Ltac near_go :=
  repeat first
    [ progress cbn beta zeta
    | solve [eauto with near]
    | solve [apply near_calm; calm_go]
    | solve [apply near_calm; calm_exec]
    | lazymatch goal with
      | |- forall _, _ => intros ?
      | |- near _ (bind _ _) => apply near_bind; [|intros]
      | |- near _ (attempt _) => apply near_attempt
      | |- near _ (for_each _ _) => apply near_for_each; intros
      | |- near _ (match ?x with _ => _ end) => destruct x eqn:?
      | |- near _ (if ?x then _ else _) => destruct x eqn:?
      end ].

Section Operations.
Context `{OsLaws} `{ProjectHash} `{!Codec (gmap string BlockVolumeId)}.
Implicit Types (s : Store) (w : SvWorld) (q : Path) (o : string).

(** The volumes of others. *)
Definition theirs s0 o q : Prop := is_Some (volumes s0 q) /\ ~ owned s0 o q.

(** An operation that changes no volume of another. *)
Definition respects {E A} o (m : M SvWorld E A) : Prop :=
  forall s0 w, same s0 w -> keeps (kept (theirs s0 o) s0) m w.

Lemma kept_weaken (P P' : Path -> Prop) s0 w : (forall q, P' q -> P q) -> kept P s0 w -> kept P' s0 w.
Proof. intros Hp [Hm Hk]. split; [done|]. auto. Qed.

Lemma same_kept P s0 w : same s0 w -> kept P s0 w.
Proof. by apply kept_weaken. Qed.

Lemma respects_calm {E A} o (m : M SvWorld E A) : calm m -> respects o m.
Proof. intros Hm s0 w Hw. apply Hm. by apply same_kept. Qed.

Lemma theirs_found s0 o fs name sv : found s0 fs name sv -> require_owner (sv_owner sv) (Some o) = Ok tt ->
  ~ theirs s0 o (components (sv_path sv)).
Proof. intros Hf Ho [_ Hn]. apply Hn. by eapply found_owned. Qed.

Lemma calm_keeps {E A} P s0 w (m : M SvWorld E A) : calm m -> kept P s0 w -> keeps (kept P s0) m w.
Proof. intros Hm. apply Hm. Qed.

Lemma near_keeps {E A} P p s0 w (m : M SvWorld E A) :
  near p m -> ~ P p -> kept P s0 w -> is_Some (volumes (sw_store w) p) -> keeps (kept P s0) m w.
Proof. intros Hm Hp Hk Ha. eapply wp_mono; [|by apply (Hm P s0)]. by intros r w' [Hw' _]. Qed.

(** An operation that finds a subvolume of the token and works on that one. *)
Lemma respects_get {A} o fs name (k : Subvolume -> M SvWorld SubvolumeError A) :
  (forall sv, near (components (sv_path sv)) (k sv)) -> respects o (sv <- get fs name (Some o) ;; k sv).
Proof.
  intros Hk s0 w Hw. unfold keeps. apply wp_bind. eapply wp_mono; [|by apply (wp_get_subvolume fs name (Some o) s0)].
  intros r w1 [Hw1 Hr]. destruct r as [sv|e]; [|by apply same_kept]. destruct (Hr sv eq_refl) as [Hf Ho].
  pose proof (theirs_found _ _ _ _ _ Hf Ho) as Hn. destruct Hf as (m & v & _ & _ & _ & Hv & _).
  eapply wp_mono; [|apply (Hk sv (theirs s0 o) s0); [done|]]; [by intros r w2 [Hw2 _]|].
  split; [by apply same_kept|]. rewrite (same_volumes _ _ _ Hw1). by exists v.
Qed.

Lemma respects_attach o fs name : respects o (attach fs name (Some o)).
Proof.
  unfold attach. apply respects_get. intros sv. apply near_calm. destruct (sv_type sv); [by eauto with calm|].
  destruct (sv_block_device sv); [by eauto with calm|]. apply calm_bind; [|by eauto with calm].
  unfold losetup_args. destruct (sv_direct_io sv); calm_exec.
Qed.

Lemma respects_detach o fs name : respects o (detach fs name (Some o)).
Proof.
  unfold detach. apply respects_get. intros sv. apply near_calm. apply calm_bind; [|by eauto with calm].
  destruct (sv_block_device sv); [|by eauto with calm]. apply calm_bind; [calm_exec|by eauto with calm].
Qed.

Lemma respects_update o req : respects o (update req (Some o)).
Proof. unfold update, update_compression, update_comments, update_erasure_code. apply respects_get. intros sv. near_go. Qed.

Lemma respects_set_properties o req : respects o (set_properties req (Some o)).
Proof. unfold set_properties, set_property. apply respects_get. intros sv. near_go. Qed.

Lemma respects_remove_properties o req : respects o (remove_properties req (Some o)).
Proof. unfold remove_properties, remove_property. apply respects_get. intros sv. near_go. Qed.

(** ** Mount points *)

Lemma wp_kept_mount P s0 w fs : kept P s0 w ->
  wp (fs_mount_point fs) (fun r w' => (kept P s0 w' /\ same (sw_store w) w') /\ forall m, r = Ok m -> mounts s0 fs = Some m) w.
Proof.
  intros Hk. apply wp_and; [apply wp_and; [by apply calm_keeps; [apply quiet_calm, quiet_fs_mount_point|]|by apply calm_keeps; [apply quiet_calm, quiet_fs_mount_point|]]|].
  eapply wp_mono; [|by apply (wp_fs_mount_point fs (sw_store w))]. intros r w' [_ Hm] m Hr. destruct Hk as [<- _]. by apply Hm.
Qed.

Lemma near_resize_image req sv : near (components (sv_path sv)) (resize_image req sv).
Proof. unfold resize_image. near_go. Qed.

Lemma calm_resize_quota req sv : calm (resize_quota req sv).
Proof. unfold resize_quota. calm_go. Qed.

Lemma respects_resize o req : respects o (resize req (Some o)).
Proof.
  intros s0 w Hw. unfold resize, keeps. apply wp_bind, wp_lift. destruct (validate_volsize_bytes _) as [[]|]; [|by apply same_kept].
  apply wp_bind. eapply wp_mono; [|by apply (wp_get_subvolume _ _ (Some o) s0)].
  intros r w1 [Hw1 Hr]. destruct r as [sv|e]; [|by apply same_kept]. destruct (Hr sv eq_refl) as [Hf Ho].
  pose proof (theirs_found _ _ _ _ _ Hf Ho) as Hn. destruct Hf as (m & v & Hm & _ & Hp & Hv & _).
  assert (guarded (theirs s0 o) (components (sv_path sv)) s0 w1) as Hg.
  { split; [by apply same_kept|]. rewrite (same_volumes _ _ _ Hw1). by exists v. }
  apply wp_bind. eapply wp_mono with (P := fun _ => guarded (theirs s0 o) (components (sv_path sv)) s0).
  2:{ destruct (sv_type sv); [apply near_calm; [apply calm_resize_quota|done..]|by apply near_resize_image]. }
  intros r w2 Hg2. destruct r as [eff|e]; [|apply Hg2]. apply wp_bind.
  eapply wp_mono; [|apply (wp_kept_mount _ _ _ (rs_filesystem req) (proj1 Hg2))].
  intros r w3 [[Hk3 Hs3] Hm3]. destruct r as [m'|e]; [|done].
  assert (m' = m) as -> by (specialize (Hm3 m' eq_refl); congruence). rewrite <- Hp.
  eapply near_keeps; [|done|done|by rewrite (same_volumes _ _ _ Hs3); apply Hg2]. near_go.
Qed.

(** ** New places *)

(** The volumes there were. *)
Definition present s0 q : Prop := is_Some (volumes s0 q).

Lemma theirs_present s0 o q : theirs s0 o q -> present s0 q.
Proof. by intros []. Qed.

(** A place that [P] covers is taken. *)
Lemma kept_taken P s0 w q : (P q -> present s0 q) -> kept P s0 w -> volumes (sw_store w) q = None -> ~ P q.
Proof. intros HP Hk Hn Hq. destruct (HP Hq) as [v Hv]. rewrite (proj2 Hk q Hq) in Hn. congruence. Qed.

(** A copy: it goes to a place that none of [P] was at. *)
Lemma keeps_snapshot_at P s0 w ro a b : (ro = [] \/ ro = ["-r"]) -> (P (components b) -> present s0 (components b)) -> kept P s0 w ->
  wp (run_cmd "bcachefs" (["subvolume"; "snapshot"] ++ ro ++ [a; b])%list) (fun r w' => kept P s0 w' /\
    forall u, r = Ok u -> (~ P (components b) /\ volumes (sw_store w) (components b) = None) /\
      exists v, volumes (sw_store w) (components a) = Some v /\ volumes (sw_store w') (components b) = Some v) w.
Proof.
  intros Hro Hb Hk. unfold run_cmd, run_ok. apply wp_and.
  - apply keeps_bind; [|intros x w' Hk'; by apply calm_orfail]. apply keeps_bind; [|intros x w' Hk'; by apply calm_ret].
    apply kept_sys; [|done]. intros q Hq Ht.
    assert (q = components b /\ volumes (sw_store w) q = None) as [-> Hn] by (destruct Hro as [-> | ->]; cbn in Ht; by destruct Ht as [-> [|]]).
    by apply (kept_taken P s0 w _ Hb Hk Hn).
  - apply wp_bind, wp_bind, wp_sys. intros x s Hx. apply wp_ret. destruct x as [out|e]; [|by apply wp_throw].
    destruct (ou_success out) eqn:Eo; [|by apply wp_throw]. apply wp_ret. intros u _.
    destruct (law_snapshot _ _ _ _ _ _ Hx Hro Eo) as [Hn Hv]. split; [split; [by eapply kept_taken|done]|done].
Qed.

Lemma calm_flush sv : calm (flush sv).
Proof. unfold flush. destruct (sv_type sv), (sv_block_device sv); try by eauto with calm. calm_exec. Qed.

Lemma calm_losetup direct img : calm (run_cmd "losetup" (losetup_args direct img)).
Proof. unfold losetup_args. destruct direct; calm_exec. Qed.

(** There is a snapshot where there was none, and it is a copy. *)
Definition taken s0 w (fs sub name : string) : Prop := exists m v, mounts s0 fs = Some m /\
  volumes s0 (components (snap_path m sub name)) = None /\ volumes s0 (components (subvol_path m sub)) = Some v /\
  volumes (sw_store w) (components (snap_path m sub name)) = Some v.

(** Whatever happens, no volume changes. *)
Lemma wp_create_snapshot_locked req owner s0 w : same s0 w ->
  wp (create_snapshot_locked req owner) (fun r w' => kept (present s0) s0 w' /\
    forall sn, r = Ok sn -> taken s0 w' (cn_filesystem req) (cn_subvolume req) (cn_name req)) w.
Proof.
  intros Hw. unfold create_snapshot_locked. pose proof (same_kept (present s0) s0) as Herr.
  eapply wp_calm_bind; [by eauto with calm|eassumption|by split; [apply Herr|]|]. intros _ w1 Hw1. apply wp_bind.
  eapply wp_mono; [|by apply wp_fs_mount_point]. intros r w2 [Hw2 Hm]. destruct r as [m|e]; [|by split; [apply Herr|]]. cbv zeta.
  eapply wp_calm_bind; [calm_go|eassumption|by split; [apply Herr|]|]. intros src w3 Hw3.
  eapply wp_calm_bind; [by eauto with calm|eassumption|by split; [apply Herr|]|]. intros _ w4 Hw4.
  do 2 (eapply wp_calm_bind; [calm_go|eassumption|by split; [apply Herr|]|]; intros ? ? ?).
  eapply wp_calm_bind; [by eauto with calm|eassumption|by split; [apply Herr|]|]. intros sv w6 Hw6.
  eapply wp_calm_bind; [by apply calm_flush|eassumption|by split; [apply Herr|]|]. intros _ w7 Hw7. apply wp_bind.
  eapply wp_mono; [|apply (keeps_snapshot_at (present s0) s0 w7 ["-r"]); [by right|done|by apply same_kept]].
  intros r w8 [Hk8 Hv8]. destruct r as [u|e]; [|by split]. destruct (Hv8 u eq_refl) as ([_ Hfree] & v & Hsrc & Hdst).
  rewrite (same_volumes _ _ _ Hw7) in Hsrc. rewrite (same_volumes _ _ _ Hw7) in Hfree. apply wp_bind. eapply wp_mono with (P := fun _ w' => kept (present s0) s0 w' /\ same (sw_store w8) w').
  2:{ apply wp_and; [by apply calm_keeps; [apply quiet_calm, quiet_bcachefs_list_all|]|by apply calm_keeps; [apply quiet_calm, quiet_bcachefs_list_all|]]. }
  intros r w9 [Hk9 Hs9]. destruct r as [info|e]; [|by split]. apply wp_ret. split; [done|]. intros sn _. exists m, v.
  split_and!; [by apply Hm|done|done|]. by rewrite (same_volumes _ _ _ Hs9).
Qed.

Lemma respects_create_snapshot_locked o req owner : respects o (create_snapshot_locked req owner).
Proof.
  intros s0 w Hw. eapply wp_mono; [|by apply wp_create_snapshot_locked]. intros r w' [Hk _].
  eapply kept_weaken; [|exact Hk]. intros q. apply theirs_present.
Qed.

Lemma respects_create_snapshot o req : respects o (create_snapshot req (Some o)).
Proof.
  intros s0 w Hw. unfold create_snapshot. apply keeps_lift; [by apply same_kept|]. intros ? _. by apply respects_create_snapshot_locked.
Qed.

(** ** Snapshots made into subvolumes *)

(** The owner an owner filter leaves on a copy. *)
Definition stamped (flt : option string) (v : Volume Data) : Volume Data :=
  match flt with Some o => mkVolume (<[XATTR_NASTY_OWNER := o]> (vl_attrs v)) (vl_mode v) (vl_data v) | None => v end.

Lemma wp_materialize P s0 w a b flt : (P (components b) -> present s0 (components b)) -> kept P s0 w ->
  wp (materialize_subvol_from_snapshot a b flt) (fun r w' => kept P s0 w' /\
    (r = Ok tt -> ~ P (components b) /\ exists v, volumes (sw_store w) (components a) = Some v /\
       volumes (sw_store w') (components b) = Some (stamped flt v))) w.
Proof.
  intros Hp Hk. unfold materialize_subvol_from_snapshot. apply wp_bind.
  eapply wp_mono; [|by apply (keeps_snapshot_at P s0 w []); [left| |]]. intros r w1 [Hk1 Hv1]. destruct r as [u|e]; [|by split].
  destruct (Hv1 u eq_refl) as ([Hb _] & v & Ha & Hv). clear Hv1. apply wp_bind.
  eapply wp_mono with (P := fun _ w' => kept P s0 w' /\ same (sw_store w1) w').
  2:{ apply wp_and; [by apply calm_keeps; [apply quiet_calm, quiet_read_meta_xattrs|]|by apply calm_keeps; [apply quiet_calm, quiet_read_meta_xattrs|]]. }
  intros r w2 [Hk2 Hs2]. destruct r as [meta|e]; [|by split]. rewrite <- (same_volumes _ _ _ Hs2) in Hv.
  apply wp_bind.
  eapply wp_mono with (P := fun r w' => kept P s0 w' /\ (r = Ok tt -> volumes (sw_store w') (components b) = Some (stamped flt v))).
  2:{ destruct flt as [o|]; [|by apply wp_ret]. apply wp_and.
      - eapply wp_mono; [|apply (near_set_xattr b _ _ _ P s0 w2 Hb); split; [done|by exists v]]. by intros r w' [Hw' _].
      - unfold set_xattr. apply wp_bind, wp_sys. intros x s Hx. destruct x as [[]|e]; [|by apply wp_throw].
        apply wp_ret. intros _. cbn. by eapply law_xattr_set. }
  intros r w3 [Hk3 Hv3]. destruct r as [[]|e]; [|by split].
  specialize (Hv3 eq_refl).
  assert (calm (match me_type meta with
    | TBlock => there <- sys (Exists (img_path b)) ;;
        if there : bool then run_cmd "losetup" (losetup_args (me_direct_io meta) (img_path b)) ;;; ret tt else ret tt
    | TFilesystem => ret (E := SubvolumeError) tt end)) as Hc.
  { pose proof (calm_losetup (me_direct_io meta) (img_path b)). calm_go. }
  eapply wp_mono with (P := fun _ w' => kept P s0 w' /\ same (sw_store w3) w').
  2:{ apply wp_and; [by apply Hc|by apply Hc]. }
  intros r w4 [Hk4 Hs4]. split; [done|]. intros _. split; [done|]. exists v. split; [done|]. by rewrite (same_volumes _ _ _ Hs4).
Qed.

Lemma keeps_delete_at P s0 w path : ~ P (components path) -> kept P s0 w ->
  keeps (kept P s0) (run_ok (E := SubvolumeError) "bcachefs" ["subvolume"; "delete"; path]) w.
Proof.
  intros Hp Hk. unfold run_ok. apply keeps_bind; [|intros x w' Hk'; by apply calm_ret].
  apply kept_sys; [|done]. intros q Hq Ht. cbn in Ht. by destruct Ht as [-> _].
Qed.

Lemma keeps_delete_cmd P s0 w path : ~ P (components path) -> kept P s0 w ->
  keeps (kept P s0) (run_cmd "bcachefs" ["subvolume"; "delete"; path]) w.
Proof. intros Hp Hk. unfold run_cmd. apply keeps_bind; [by apply keeps_delete_at|]. intros x w' Hk'. by apply calm_orfail. Qed.

(** ** Rolling back *)

Lemma respects_rollback o req : respects o (rollback req (Some o) false).
Proof.
  intros s0 w Hw. unfold rollback, keeps. pose proof (same_kept (theirs s0 o) s0) as Herr.
  apply wp_bind, wp_lift. destruct (validate_existing_snapshot_name _ _) as [[]|]; [|by apply Herr].
  apply wp_bind. eapply wp_mono; [|by apply (wp_get_subvolume _ _ (Some o) s0)].
  intros r w1 [Hw1 Hr]. destruct r as [sv|e]; [|by apply Herr]. destruct (Hr sv eq_refl) as [Hf Ho].
  pose proof (theirs_found _ _ _ _ _ Hf Ho) as Hn. destruct Hf as (m & v & Hm & _ & Hp & Hv & _).
  eapply wp_calm_bind; [by eauto with calm|eassumption|done|]. intros _ w2 Hw2. apply wp_bind.
  eapply wp_mono; [|by apply wp_fs_mount_point]. intros r w3 [Hw3 Hm3]. destruct r as [m'|e]; [|by apply Herr]. cbv zeta.
  assert (m' = m) as -> by (specialize (Hm3 m' eq_refl); congruence). rewrite <- Hp. clear Hm3.
  eapply wp_calm_bind; [calm_go|eassumption|done|]. intros there w4 Hw4.
  eapply wp_calm_bind; [by eauto with calm|eassumption|done|]. intros _ w5 Hw5.
  eapply wp_calm_bind; [by eauto with calm|eassumption|done|]. intros meta w6 Hw6.
  eapply wp_calm_bind; [by eauto with calm|eassumption|done|]. intros _ w7 Hw7.
  eapply wp_calm_bind; [by eauto with calm|eassumption|done|]. intros children w8 Hw8.
  eapply wp_calm_bind; [by eauto with calm|eassumption|done|]. intros _ w9 Hw9.
  eapply wp_calm_bind; [calm_go|eassumption|done|]. intros now w10 Hw10.
  apply keeps_bind; [by apply respects_create_snapshot_locked|]. intros sn w11 Hk11.
  apply keeps_bind; [by apply keeps_delete_at|]. intros d w12 Hk12.
  apply keeps_bind; [by apply calm_orfail|]. intros _ w13 Hk13.
  apply keeps_bind.
  { apply keeps_attempt. eapply wp_mono; [|by apply (wp_materialize (theirs s0 o) s0); [apply theirs_present|]]. by intros r w' [Hw' _]. }
  intros rc w14 Hk14. apply calm_keeps; [|done]. calm_go.
Qed.

Lemma respects_clone_snapshot o req : respects o (clone_snapshot req (Some o) false).
Proof.
  intros s0 w Hw. unfold clone_snapshot, find_parent, keeps. pose proof (same_kept (theirs s0 o) s0) as Herr.
  do 4 (eapply wp_calm_bind; [calm_go|eassumption|done|]; intros ? ? ?). apply wp_bind.
  eapply wp_mono; [|by apply wp_fs_mount_point]. intros r w3 [Hw3 Hm3]. destruct r as [m|e]; [|by apply Herr]. cbv zeta.
  do 5 (eapply wp_calm_bind; [calm_go|eassumption|done|]; intros ? ? ?).
  eapply wp_calm_bind; [calm_go|eassumption|done|]. intros b w4 Hw4. destruct b.
  { apply calm_keeps; [|by apply Herr]. unfold check_clone_source. calm_go. }
  apply wp_bind. eapply wp_mono; [|apply (wp_materialize (theirs s0 o) s0); [apply theirs_present|by apply Herr]].
  intros r w5 [Hk5 Hv5]. destruct r as [[]|e]; [|done]. destruct (Hv5 eq_refl) as (Hb & v & _ & Hv).
  eapply near_keeps; [|exact Hb|done|by eexists]. unfold record_clone_source. near_go.
Qed.

Lemma near_write_meta_xattrs path meta : near (components path) (write_meta_xattrs path meta).
Proof. unfold write_meta_xattrs, set_xattr_if. near_go. Qed.

Lemma calm_attach_clone sv path : calm (attach_clone sv path).
Proof. unfold attach_clone. pose proof (calm_losetup (sv_direct_io sv) (img_path path)). calm_go. Qed.

Lemma respects_clone_subvolume o req : respects o (clone_subvolume req (Some o)).
Proof.
  intros s0 w Hw. unfold clone_subvolume, keeps. pose proof (same_kept (theirs s0 o) s0) as Herr.
  do 3 (eapply wp_calm_bind; [calm_go|eassumption|done|]; intros ? ? ?). apply wp_bind.
  eapply wp_mono; [|by apply wp_fs_mount_point]. intros r w3 [Hw3 Hm3]. destruct r as [m|e]; [|by apply Herr]. cbv zeta.
  do 3 (eapply wp_calm_bind; [calm_go|eassumption|done|]; intros ? ? ?).
  eapply wp_calm_bind; [calm_go|eassumption|done|]. intros b w4 Hw4. destruct b.
  { apply calm_keeps; [|by apply Herr]. unfold check_clone_source. calm_go. }
  eapply wp_calm_bind; [by apply calm_flush|eassumption|done|]. intros _ w5 Hw5. apply wp_bind.
  eapply wp_mono; [|apply (keeps_snapshot_at (theirs s0 o) s0 w5 []); [by left|apply theirs_present|by apply Herr]].
  intros r w6 [Hk6 Hv6]. destruct r as [u|e]; [|done]. destruct (Hv6 u eq_refl) as ([Hb _] & v & _ & Hv).
  eapply near_keeps; [|exact Hb|done|by eexists]. unfold record_clone_source.
  pose proof (near_write_meta_xattrs (subvol_path m (lv_new_name req))).
  match goal with |- context [attach_clone ?p ?n] => pose proof (calm_attach_clone p n) end. near_go.
Qed.

(** ** Deleting *)

(** The meaning of the two permissions: the snapshot's owner is the token. *)
Lemma authorized_owner so parent o : authorize_snapshot so parent (Some o) false = Ok tt -> so = Some o.
Proof.
  unfold authorize_snapshot, authorize_snapshot_provenance, authorize_orphan_snapshot, require_owner.
  destruct parent as [p|]; intros; repeat case_decide; congruence.
Qed.

Lemma respects_delete_snapshot o req : respects o (delete_snapshot req (Some o) false).
Proof.
  intros s0 w Hw. unfold delete_snapshot, find_parent, keeps. pose proof (same_kept (theirs s0 o) s0) as Herr.
  eapply wp_calm_bind; [calm_go|eassumption|done|]. intros _ w1 Hw1.
  eapply wp_calm_bind; [calm_go|eassumption|done|]. intros parent w2 Hw2.
  eapply wp_calm_bind; [calm_go|eassumption|done|]. intros _ w3 Hw3. apply wp_bind.
  eapply wp_mono; [|by apply wp_fs_mount_point]. intros r w4 [Hw4 _]. destruct r as [m|e]; [|by apply Herr]. cbv zeta.
  do 2 (eapply wp_calm_bind; [calm_go|eassumption|done|]; intros ? ? ?). apply wp_bind.
  eapply wp_mono; [|by apply wp_read_meta_xattrs]. intros r w5 [Hw5 Hmeta]. destruct r as [meta|e]; [|by apply Herr].
  apply wp_bind, wp_lift. destruct (authorize_snapshot _ _ _ _) as [[]|e] eqn:Ea; [|by apply Herr].
  apply authorized_owner in Ea. apply keeps_bind; [|intros u w6 Hk6; by apply calm_ret].
  apply keeps_delete_cmd; [|by apply Herr]. intros [[v Hv] Hn]. apply Hn. exists v. split; [done|].
  by apply (Hmeta meta eq_refl v o Hv).
Qed.

(** Not in a subvolume of the token, nor below one. *)
Definition beyond s0 o q : Prop := present s0 q /\ forall p, owned s0 o p -> ~ p `prefix_of` q.

Lemma beyond_theirs s0 o q : beyond s0 o q -> theirs s0 o q.
Proof. intros [Hp Hn]. split; [done|]. intros Ho. by apply (Hn q Ho). Qed.

Lemma wp_find_child m name s0 w : same s0 w ->
  wp (find_child_subvolumes (E := SubvolumeError) m name) (fun r w' => same s0 w' /\
    forall l, r = Ok l -> Forall (fun c => exists x, c = name ++ "/" ++ x) l) w.
Proof.
  intros Hw. apply wp_calm; [by eauto with calm|done|]. unfold find_child_subvolumes, run_ok.
  apply wp_bind, wp_bind, wp_sys. intros a s Ha. apply wp_ret, wp_ret. intros l [= <-].
  destruct a as [out|]; [|done]. destruct (ou_success out); [|done]. rewrite merge_sort_Permutation.
  apply list.Forall_forall. apply child_lines_below.
Qed.

Lemma keeps_delete_children P s0 w m cs : Forall (fun c => ~ P (components (subvol_path m c))) cs -> kept P s0 w ->
  keeps (kept P s0) (delete_children m cs) w.
Proof.
  revert w. induction cs as [|c cs IH]; intros w Hc Hk; cbn [delete_children]; [by apply calm_ret|].
  inversion Hc as [|? ? Hc1 Hcs]; subst. apply keeps_bind; [by apply keeps_delete_at|]. intros r w1 Hk1.
  apply keeps_bind; [by apply IH|]. intros st w2 Hk2. by apply calm_ret.
Qed.

(** Deleting takes what is nested along, whoever owns it. *)
Lemma delete_beyond o req s0 w : same s0 w -> keeps (kept (beyond s0 o) s0) (delete req (Some o)) w.
Proof.
  intros Hw. unfold delete, keeps. pose proof (same_kept (beyond s0 o) s0) as Herr.
  apply wp_bind. eapply wp_mono; [|by apply (wp_get_subvolume _ _ (Some o) s0)].
  intros r w1 [Hw1 Hr]. destruct r as [sv|e]; [|by apply Herr]. destruct (Hr sv eq_refl) as [Hf Ho].
  pose proof (found_owned _ _ _ _ _ Hf Ho) as Hown. destruct Hf as (m & v & Hm & _ & Hp & Hv & _).
  eapply wp_calm_bind; [|eassumption|done|].
  { destruct (sv_type sv), (sv_block_device sv); try by eauto with calm. apply calm_bind; [calm_exec|]. calm_go. }
  intros _ w2 Hw2. apply wp_bind. eapply wp_mono; [|by apply wp_fs_mount_point]. intros r w3 [Hw3 Hm3].
  destruct r as [m'|e]; [|by apply Herr]. assert (m' = m) as -> by (specialize (Hm3 m' eq_refl); congruence). cbv zeta. rewrite <- Hp.
  apply wp_bind. eapply wp_mono; [|by apply wp_find_child]. intros r w4 [Hw4 Hc]. destruct r as [cs|e]; [|by apply Herr].
  apply keeps_bind.
  { apply keeps_delete_children; [|by apply Herr]. apply List.Forall_rev. eapply list.Forall_impl; [by apply Hc|].
    intros c (x & ->) [_ Hn]. apply (Hn _ Hown). rewrite Hp, !components_subvol, components_app, app_assoc. by apply prefix_app_r. }
  intros st w5 Hk5. apply keeps_bind; [by apply calm_keeps; [calm_go|]|]. intros _ w6 Hk6.
  apply keeps_bind; [apply keeps_delete_cmd; [by intros [_ Hn]; apply (Hn _ Hown)|done]|]. intros u w7 Hk7.
  apply calm_keeps; [|done]. calm_go.
Qed.

End Operations.
