(* ===== verification/SubvolumeProps.v ===== *)
(** * What the operations on subvolumes promise

    A token confined to its own subvolumes changes no other; a rollback never
    loses what was there before it; creating a subvolume never changes the data
    or the attributes of one that exists, even while it formats a device, and
    never the mode of one that the request does not name. *)
From Stdlib Require Import String Ascii ZArith.
From stdpp Require Import base list gmap strings numbers sorting.
From S2P Require Import Prelude RustStr Disk StateStore FileShare Iscsi Subvolume SubvolumeRead SubvolumeService SubvolumeLaws SubvolumeOwner.

Open Scope string_scope.
Open Scope rust_scope.

(** ** Creating

    [create] works at a place where there was nothing: the tools it runs, the
    formatting of the loop device included, change only the subvolume that it
    has just made. At a place that is taken it changes no more than the mode. *)

(** *** Paths as texts *)

Lemma components_good s : Forall (fun c => c <> "" /\ c <> "." /\ contains_char "/" c = false) (components s).
Proof.
  apply list.Forall_forall. intros c (Hin & Hc)%list_elem_of_In%List.filter_In. apply andb_true_iff in Hc as [H1 H2].
  apply negb_true_iff, eqb_neq_spec in H1, H2. split_and!; [done..|]. apply list_elem_of_In in Hin.
  clear H1 H2. revert c Hin. induction s as [|d s IH]; intros c; [by intros ->%list_elem_of_singleton|]. cbn [RustStr.split].
  destruct (Ascii.eqb "/" d) eqn:Ed; [intros [->|Hc]%elem_of_cons; [done|by apply IH]|].
  destruct (split "/" s) as [|h t]; [intros ->%list_elem_of_singleton; cbn [contains_char]; by rewrite Ed|].
  intros [->|Hc]%elem_of_cons; [cbn [contains_char]; rewrite Ed; apply IH; by left|apply IH; by right].
Qed.

Lemma components_display s : components (display_path (components s)) = components s.
Proof.
  pose proof (components_good s) as Hg. unfold display_path. change ("/" ++ ?x) with (String "/" x).
  unfold components at 1. cbn [RustStr.split]. rewrite Ascii.eqb_refl. cbn [List.filter].
  destruct (components s) as [|c l] eqn:E; [done|]. rewrite (split_concat "/"); [|done|by eapply list.Forall_impl; [exact Hg|]; intros ? (_ & _ & ?)].
  cbn [negb andb String.eqb]. clear E. induction Hg as [|c' l' (H1 & H2 & _) Hl IH]; [done|]. cbn [List.filter].
  apply eqb_neq_spec in H1, H2. rewrite H1, H2. cbn. by rewrite IH.
Qed.

Section Create.
Context `{OsLaws} `{ProjectHash} `{!Codec (gmap string BlockVolumeId)}.
Implicit Types (s : Store) (w : SvWorld) (q : Path).

(** ** Steps at the new place *)

Lemma calm_quarantine path dev : calm (quarantine_failed_create path dev).
Proof. unfold quarantine_failed_create. destruct dev; [calm_exec|by eauto with calm]. Qed.

Lemma near_or_quarantine {A} p block path dev (m : M SvWorld SubvolumeError A) : near p m -> near p (or_quarantine block path dev m).
Proof. intros Hm. pose proof (calm_quarantine path dev). unfold or_quarantine. near_go. Qed.

Lemma near_set_mode path mode msg : near (components path) (set_mode path mode msg).
Proof. unfold set_mode. apply near_bind; [|near_go]. apply near_sys; [|by intros q []]. intros s q. cbn. apply enclosing_self. Qed.

Lemma near_create_options req path : near (components path) (create_options req path).
Proof. unfold create_options, set_file_option, run_ignored. near_go. Qed.

(** Everything but the new place is as it was. *)
Definition apart_from p s0 w : Prop := guarded (fun q => q <> p) p s0 w.

Lemma near_apart {E A} p s0 w (m : M SvWorld E A) : near p m -> apart_from p s0 w -> keeps (apart_from p s0) m w.
Proof. intros Hm Hw. apply Hm; [|done]. intros Hp. by apply Hp. Qed.

(** A call that touches the new place or what is free. *)
Lemma apart_sys {E A} p s0 w (c : Sys A) : (forall q, touches c (sw_store w) q -> q = p) -> (forall q, ~ deletes c q) ->
  apart_from p s0 w -> keeps (apart_from p s0) (sys (E := E) c) w.
Proof.
  intros Ht Hd [Hk Ha]. unfold keeps, apart_from, guarded. apply wp_and.
  - apply kept_sys; [|done]. intros q Hq Htq. by apply Hq, Ht.
  - apply wp_sys. intros a s E1. cbn. pose proof (law_alive _ c (sw_store w) p (Hd p) Ha) as Hl. by rewrite E1 in Hl.
Qed.

Lemma enclosing_img p s0 w q : volumes s0 (p ++ [BLOCK_FILE_NAME])%list = None -> apart_from p s0 w ->
  enclosing (sw_store w) (p ++ [BLOCK_FILE_NAME])%list q -> q = p.
Proof.
  intros Hf [Hk Ha] He. apply (holding_img (sw_store w)); [done|]. split; [|done]. intros ->. destruct He as [Hs _].
  rewrite (proj2 Hk), Hf in Hs; [by destruct Hs|]. intros E. apply (f_equal length) in E. rewrite length_app in E. cbn in E. lia.
Qed.

Lemma apart_nocow path s0 w : volumes s0 (components (img_path path)) = None -> apart_from (components path) s0 w ->
  keeps (apart_from (components path) s0) (set_file_option "--nocow" (img_path path)) w.
Proof.
  intros Hf Hw. rewrite components_img in Hf. unfold set_file_option, run_ignored, run_ok.
  apply keeps_bind; [apply keeps_bind|]; [|by intros; apply keeps_ret..]. apply apart_sys; [|by intros q [_ (x & [=] & _)]|done].
  intros q Ht. change (enclosing (sw_store w) (components (img_path path)) q) in Ht. rewrite components_img in Ht.
  by eapply enclosing_img.
Qed.

(** Formatting a device that is on the image of the new place. *)
Lemma apart_initialize path dev fs s0 w : loops (sw_store w) dev = Some (display_path (components (img_path path))) ->
  apart_from (components path) s0 w -> keeps (apart_from (components path) s0) (initialize_block_filesystem dev fs) w.
Proof.
  intros Hl Hw. unfold initialize_block_filesystem. apply keeps_bind.
  - unfold run_cmd, run_ok. apply keeps_bind; [apply keeps_bind|].
    + apply apart_sys; [|by intros q [E _]; destruct fs|done]. intros q Ht.
      assert (exists f, loops (sw_store w) dev = Some f /\ holding (sw_store w) (components f) q) as (f & Hf & Hh) by (destruct fs; exact Ht).
      rewrite Hl in Hf. injection Hf as <-. rewrite components_display, components_img in Hh. by eapply holding_img; [apply Hw|].
    + intros. by apply keeps_ret.
    + intros x w1 Hw1. by apply near_apart; [apply near_calm; calm_go|].
  - intros _ w1 Hw1. apply near_apart; [|done]. apply near_calm.
    apply calm_bind; [calm_exec|]. intros _. apply calm_bind; [calm_exec|]. intros d. apply calm_bind; [calm_go|]. intros _.
    apply calm_bind; [calm_exec|]. calm_go.
Qed.

Lemma wp_or_quarantine {A} path (m : M SvWorld SubvolumeError A) (I : SvWorld -> Prop) (Q : A -> SvWorld -> Prop) dev w :
  (forall w, I w -> keeps I (quarantine_failed_create path dev) w) ->
  wp m (fun r w' => I w' /\ forall a, r = Ok a -> Q a w') w ->
  wp (or_quarantine true path dev m) (fun r w' => I w' /\ forall a, r = Ok a -> Q a w') w.
Proof.
  intros Hq Hm. unfold or_quarantine. apply wp_bind, wp_attempt. eapply wp_mono; [|exact Hm]. intros r w1 [Hw1 Hr].
  destruct r as [a|e]; [by apply wp_ret|]. apply wp_bind. eapply wp_mono; [|by apply Hq]. intros r w2 Hw2.
  destruct r; [by apply wp_throw|by split].
Qed.

Lemma apart_create_image req path size s0 w : volumes s0 (components (img_path path)) = None -> apart_from (components path) s0 w ->
  keeps (apart_from (components path) s0) (create_image req path size) w.
Proof.
  intros Hf Hw. unfold create_image. set (p := components path) in *.
  assert (forall w, apart_from p s0 w -> keeps (apart_from p s0) (quarantine_failed_create path None) w) as Hq0.
  { intros w1 Hw1. by apply near_apart; [apply near_calm, calm_quarantine|]. }
  assert (forall (c : Sys (result unit IoErr)), (forall s q, touches c s q -> holding s (components (img_path path)) q) ->
    (forall q, ~ deletes c q) -> near p (sys (E := SubvolumeError) c)) as Hnear.
  { intros c Hc Hd. apply near_sys; [|done]. intros s q Ha Ht%Hc. rewrite components_img in Ht. by apply (holding_img s). }
  apply keeps_bind; [apply near_apart; [|done]; apply near_or_quarantine, near_bind; [by apply Hnear; [|intros q []]|near_go]|].
  intros _ w1 Hw1. apply keeps_bind.
  { apply near_apart; [|done]; apply near_or_quarantine, near_bind; [by apply Hnear; [|intros q []]|near_go]. }
  intros _ w2 Hw2. apply keeps_bind; [by apply near_apart; [apply near_calm; calm_go|]|]. intros fs w3 Hw3. cbv zeta. apply keeps_bind.
  { destruct (match fs with Ok _ => _ | Err _ => _ end); [by apply keeps_ret|by apply apart_nocow]. }
  intros _ w4 Hw4. unfold keeps. apply wp_bind. eapply wp_mono.
  2:{ apply (wp_or_quarantine path _ (apart_from p s0) (fun dev w' => loops (sw_store w') dev = Some (display_path (components (img_path path)))));
        [done|]. apply wp_and.
      - apply near_apart; [|done]. apply near_calm. apply calm_bind; [apply calm_losetup|]. calm_go.
      - unfold run_cmd, run_ok. apply wp_bind, wp_bind, wp_bind, wp_sys. intros a s Ha. apply wp_ret.
        destruct a as [o|]; [|by apply wp_throw]. destruct (ou_success o) eqn:Eo; [|by apply wp_throw]. apply wp_ret.
        apply wp_bind, wp_throw_if; [done|]. intros _. apply wp_ret. intros dev [= <-]. by eapply law_attach. }
  intros r w5 [Hw5 Hdev]. destruct r as [dev|e]; [|done]. specialize (Hdev dev eq_refl).
  destruct (cv_block_filesystem req) as [bf|]; [|by apply wp_ret]. apply keeps_bind; [|by intros; apply keeps_ret].
  unfold or_quarantine. apply keeps_bind; [by apply keeps_attempt, apart_initialize|]. intros r w6 Hw6.
  apply near_apart; [|done]. apply near_calm. pose proof (calm_quarantine path (Some dev)). calm_go.
Qed.

(** ** The whole call *)

(** The new subvolume goes where there was nothing; at a taken place nothing changes. *)
Lemma keeps_run_create path s0 w : same s0 w ->
  wp (run_cmd "bcachefs" ["subvolume"; "create"; path]) (fun r w' => kept (present s0) s0 w' /\ kept (fun q => q <> components path) s0 w' /\
    forall u, r = Ok u -> (forall q, components path `prefix_of` q -> volumes s0 q = None) /\
      is_Some (volumes (sw_store w') (components path))) w.
Proof.
  intros Hw. pose proof (same_kept (fun q => q <> components path) _ _ Hw) as Hk. pose proof (same_kept (present s0) _ _ Hw) as Hp.
  unfold run_cmd, run_ok. apply wp_and; [|apply wp_and].
  - apply keeps_bind; [|intros x w' Hk'; by apply calm_orfail]. apply keeps_bind; [|intros x w' Hk'; by apply calm_ret].
    apply kept_sys; [|done]. intros q [v Hv] [_ [[=]|Hn]]. rewrite (same_volumes _ _ _ Hw) in Hn. congruence.
  - apply keeps_bind; [|intros x w' Hk'; by apply calm_orfail]. apply keeps_bind; [|intros x w' Hk'; by apply calm_ret].
    apply kept_sys; [|done]. intros q Hq Ht. by apply Hq, Ht.
  - apply wp_bind, wp_bind, wp_sys. intros x s Hx. apply wp_ret. destruct x as [out|e]; [|by apply wp_throw].
    destruct (ou_success out) eqn:Eo; [|by apply wp_throw]. apply wp_ret. intros u _.
    destruct (law_create _ _ _ _ Hx Eo) as [Hn Hs]. split; [|done]. intros q Hq. rewrite <- (same_volumes _ _ _ Hw). by apply Hn.
Qed.

Lemma keeps_create_fresh req owner m path s0 w :
  same s0 w -> keeps (kept (present s0) s0) (create_fresh req owner m path) w.
Proof.
  intros Hw. unfold create_fresh, keeps. set (p := components path). pose proof (same_kept (present s0) s0) as Herr.
  eapply wp_calm_bind; [calm_go|eassumption|done|]. intros up w1 Hw1.
  eapply wp_calm_bind; [destruct up; calm_go|eassumption|done|]. intros _ w2 Hw2. apply wp_bind.
  eapply wp_mono; [|by apply (keeps_run_create path s0)]. intros r w3 (Hp3 & Hk3 & Ha3). destruct r as [u|e]; [|done].
  destruct (Ha3 u eq_refl) as [Hfree Hs3]. assert (apart_from p s0 w3) as Hw3 by (by split). clear Ha3 Hk3 Hp3 Hs3.
  match goal with |- wp ?prog _ _ => enough (keeps (apart_from p s0) prog w3) as Hk end.
  { apply (wp_mono _ (fun _ => apart_from p s0)); [|exact Hk]. intros r w4 [Hw4 _]. eapply kept_weaken; [|exact Hw4].
    intros q [v Hv] ->. rewrite Hfree in Hv; [done|reflexivity]. }
  assert (forall A (k : M SvWorld SubvolumeError A) w, near p k -> apart_from p s0 w -> keeps (apart_from p s0) k w) as Hnear
    by (intros; by apply near_apart).
  apply keeps_bind; [apply Hnear; [apply near_or_quarantine, near_set_mode|done]|]. intros _ w4 Hw4.
  apply keeps_bind; [apply Hnear; [apply near_or_quarantine, near_set_xattr|done]|]. intros _ w5 Hw5.
  apply keeps_bind; [apply Hnear; [apply near_create_options|done]|]. intros _ w6 Hw6.
  apply keeps_bind; [apply Hnear; [apply near_calm; calm_go|done]|]. intros _ w7 Hw7. apply keeps_bind.
  { destruct (is_block (cv_type req)); [|by apply keeps_ret]. apply keeps_bind; [|by intros; apply keeps_ret].
    apply apart_create_image; [|done]. apply Hfree. rewrite components_img. by apply prefix_app_r. }
  intros image w8 Hw8. cbv zeta.
  apply keeps_bind; [apply Hnear; [apply near_or_quarantine, near_write_meta_xattrs|done]|]. intros _ w9 Hw9.
  apply keeps_bind; [apply Hnear; [apply near_or_quarantine, near_set_xattr|done]|]. intros _ w10 Hw10.
  apply keeps_bind.
  { apply Hnear; [|done]. destruct (is_block _); [near_go|]. apply near_bind; [|near_go].
    apply near_sys; [|by intros q []]. intros s q. cbn. apply enclosing_self. }
  intros _ w11 Hw11. apply Hnear; [|done]. apply near_calm. calm_go.
Qed.

(** Alike but for the mode of the directory. *)
Definition same_content (v v' : Volume Data) : Prop := vl_attrs v' = vl_attrs v /\ vl_data v' = vl_data v.

(** The place that a request to create names. *)
Definition named_by (req : CreateSubvolumeRequest) s q : Prop :=
  exists m, mounts s (cv_filesystem req) = Some m /\ q = components (subvol_path m (cv_name req)).

(** A subvolume keeps its data and attributes, and unless the request names it all of it. *)
Definition kept_but_mode req s0 w q v : Prop :=
  exists v', volumes (sw_store w) q = Some v' /\ same_content v v' /\ (v' = v \/ named_by req s0 q).

Lemma kept_but_mode_same req s0 w q v : volumes s0 q = Some v -> same s0 w -> kept_but_mode req s0 w q v.
Proof. intros Hv Hw. exists v. rewrite (same_volumes _ _ _ Hw). split_and!; [done|done|by left]. Qed.

Lemma wp_create_existing req m s0 w q v : mounts s0 (cv_filesystem req) = Some m -> same s0 w -> volumes s0 q = Some v ->
  wp (create_existing req (subvol_path m (cv_name req))) (fun _ w' => kept_but_mode req s0 w' q v) w.
Proof.
  intros Hm Hw Hv. pose proof (kept_but_mode_same req s0) as Herr. set (path := subvol_path m (cv_name req)).
  unfold create_existing. eapply wp_calm_bind; [calm_go|eassumption|by auto|]. intros creating w1 Hw1.
  eapply wp_calm_bind; [calm_go|eassumption|by auto|]. intros _ w2 Hw2.
  apply wp_bind. eapply wp_mono; [|by apply (wp_get_subvolume _ _ None s0)]. intros r w3 [Hw3 Hf].
  destruct r as [existing|e]; [|by auto]. destruct (Hf existing eq_refl) as [(m' & vp & Hm' & _ & Hp & Hvp & _) _].
  assert (m' = m) as -> by congruence. rewrite Hp in Hvp. fold path in Hvp.
  eapply wp_calm_bind; [calm_go|eassumption|by auto|]. intros _ w4 Hw4.
  eapply wp_calm_bind; [calm_go|eassumption|by auto|]. intros _ w5 Hw5.
  destruct (sv_type existing); [|by apply wp_ret; auto]. apply wp_bind, wp_sys. intros a s Ha. apply wp_bind.
  assert (kept_but_mode req s0 (mkSvWorld _ s (sw_evidence w5)) q v) as Hend.
  { rewrite <- (same_volumes s0 w5 q) in Hv by done. destruct (law_mode path 0x1ff _ _ _ Hv) as [m' Hmode].
    pose proof (law_frame _ (SetMode path 0x1ff) (sw_store w5) q) as Hfr. rewrite Ha in Hmode, Hfr. cbn [snd] in Hmode, Hfr.
    eexists. split_and!; [exact Hmode|done|]. destruct (decide (q = components path)) as [->|Hn]; [right; by exists m|left].
    rewrite Hfr in Hmode; [congruence|]. intros He. apply Hn. eapply enclosing_self; [|exact He]. rewrite (same_volumes _ _ _ Hw5). by eexists. }
  destruct a as [[]|e]; [apply wp_ret, wp_ret|apply wp_throw]; exact Hend.
Qed.

Lemma wp_create_content req owner w q v : volumes (sw_store w) q = Some v ->
  wp (create req owner) (fun _ w' => kept_but_mode req (sw_store w) w' q v) w.
Proof.
  intros Hv. set (s0 := sw_store w) in *. assert (same s0 w) as Hw by done. clearbody s0.
  pose proof (fun w1 => kept_but_mode_same req s0 w1 q v Hv) as Herr.
  unfold create. eapply wp_calm_bind; [unfold check_create; calm_go|eassumption|by auto|]. intros _ w1 Hw1.
  apply wp_bind. eapply wp_mono; [|by apply wp_fs_mount_point]. intros r w2 [Hw2 Hm]. destruct r as [m|e]; [|by auto].
  specialize (Hm m eq_refl). cbv zeta. eapply wp_calm_bind; [calm_go|eassumption|by auto|]. intros there w3 Hw3.
  destruct there; [by apply wp_create_existing|]. eapply wp_mono; [|by apply keeps_create_fresh]. intros _ w4 [_ Hk].
  exists v. rewrite Hk by by exists v. split_and!; [done|done|by left].
Qed.

(** C13: Creating a subvolume changes no other. Whatever is asked for and however it ends, formatting the new block device
    included, every subvolume that was there is as it was: data, attributes and mode. The one exception is a subvolume that
    is already at the place the request names: it keeps its data and its attributes, but not always its mode, since the
    call opens such a subvolume, whoever owns it, to everybody. *)
Theorem create_changes_no_other req owner w r w' q v :
  create req owner w = (r, w') -> volumes (sw_store w) q = Some v ->
  exists v', volumes (sw_store w') q = Some v' /\ same_content v v' /\ (v' = v \/ named_by req (sw_store w) q).
Proof. intros Hrun Hv. pose proof (wp_create_content req owner w q v Hv) as Hwp. unfold wp in Hwp. by rewrite Hrun in Hwp. Qed.

End Create.

(** ** Names with an at sign *)

Lemma contains_split a s : a <> "/"%char -> contains_char a s = true -> exists c, c ∈ split "/" s /\ contains_char a c = true.
Proof.
  intros Ha. induction s as [|d s IH]; [done|]. cbn [contains_char RustStr.split]. intros [Hd|Hs]%orb_true_iff.
  - apply Ascii.eqb_eq in Hd as <-. assert (Ascii.eqb "/" a = false) as -> by (apply Ascii.eqb_neq; congruence).
    destruct (split "/" s) as [|h t]; eexists; (split; [by left|]); cbn [contains_char]; by rewrite Ascii.eqb_refl.
  - destruct (IH Hs) as (c & Hc & Hac). destruct (Ascii.eqb "/" d); [exists c; split; [by right|done]|].
    destruct (split "/" s) as [|h t]; [by apply elem_of_nil in Hc|]. apply elem_of_cons in Hc as [->|Hc].
    + exists (String d h). split; [by left|]. cbn [contains_char]. by rewrite Hac, orb_true_r.
    + exists c. split; [by right|done].
Qed.

Lemma contains_components a s : a <> "/"%char -> a <> "."%char -> contains_char a s = true ->
  exists c, c ∈ components s /\ contains_char a c = true.
Proof.
  intros Ha Hdot (c & Hc & Hac)%contains_split; [|done]. exists c. split; [|done]. unfold components.
  apply list_elem_of_In, List.filter_In. split; [by apply list_elem_of_In|].
  destruct (c =s "") eqn:E1; [apply eqb_spec in E1; by subst|]. destruct (c =s ".") eqn:E2; [|done].
  apply eqb_spec in E2; subst. cbn in Hac. rewrite orb_false_r in Hac. apply Ascii.eqb_eq in Hac. congruence.
Qed.

Lemma check_components_at cs : check_components cs = Ok tt -> Forall (fun c => contains_char "@" c = false) cs.
Proof.
  induction cs as [|c cs IH]; [done|]. cbn. unfold check_component.
  destruct (c =s ""), ((c =s "..") || (c =s ".")), (contains_char "@" c) eqn:Ea, (any_control c); try done. by constructor; auto.
Qed.

Lemma valid_name_at n : validate_subvolume_name n = Ok tt -> Forall (fun c => contains_char "@" c = false) (components n).
Proof.
  unfold validate_subvolume_name. destruct (n =s ""), (200 <? String.length n)%nat, (starts_with "/" n), (starts_with "." n); try done.
  intros Hc%check_components_at. rewrite list.Forall_forall in *. intros c Hin. apply Hc.
  apply list_elem_of_In, List.filter_In in Hin as [Hin _]. by apply list_elem_of_In.
Qed.

Lemma contains_char_middle c a b : contains_char c (a ++ String c b) = true.
Proof.
  rewrite contains_char_app. cbn [contains_char]. by rewrite Ascii.eqb_refl, orb_true_r.
Qed.

(** A snapshot is not at the path of its subvolume. *)
Lemma snap_not_live m sub x : validate_subvolume_name sub = Ok tt -> components (snap_path m sub x) <> components (subvol_path m sub).
Proof.
  intros Hn%valid_name_at. change (snap_path m sub x) with (subvol_path m (sub ++ String "@" x)). rewrite !components_subvol.
  intros E%app_inv_head. destruct (contains_components "@" (sub ++ String "@" x)) as (c & Hc & Hat); [done..|apply contains_char_middle|].
  rewrite E in Hc. rewrite list.Forall_forall in Hn. rewrite (Hn _ Hc) in Hat. done.
Qed.

(** ** The calls with an owner filter *)

Inductive SvCall :=
| CallList (fs : string)
| CallGet (fs name : string)
| CallAttach (fs name : string)
| CallDetach (fs name : string)
| CallResize (req : ResizeSubvolumeRequest)
| CallUpdate (req : UpdateSubvolumeRequest)
| CallSetProperties (req : SetPropertiesRequest)
| CallRemoveProperties (req : RemovePropertiesRequest)
| CallCreateSnapshot (req : CreateSnapshotRequest)
| CallDeleteSnapshot (req : DeleteSnapshotRequest)
| CallCloneSnapshot (req : CloneSnapshotRequest)
| CallRollback (req : RollbackSnapshotRequest)
| CallCloneSubvolume (req : CloneSubvolumeRequest)
| CallDelete (req : DeleteSubvolumeRequest).

Section Props.
Context `{OsLaws} `{ProjectHash} `{!Codec (gmap string BlockVolumeId)}.
Implicit Types (s : Store) (w : SvWorld) (q : Path) (o : string) (c : SvCall).

Definition done_with {E A} (m : M SvWorld E A) : M SvWorld E unit := m ;;; ret tt.

(** A call of a token, which has no override. *)
Definition run_call o c : M SvWorld SubvolumeError unit :=
  match c with
  | CallList fs => done_with (list_subvolumes fs (Some o))
  | CallGet fs name => done_with (get fs name (Some o))
  | CallAttach fs name => done_with (attach fs name (Some o))
  | CallDetach fs name => done_with (detach fs name (Some o))
  | CallResize req => done_with (resize req (Some o))
  | CallUpdate req => done_with (update req (Some o))
  | CallSetProperties req => done_with (set_properties req (Some o))
  | CallRemoveProperties req => done_with (remove_properties req (Some o))
  | CallCreateSnapshot req => done_with (create_snapshot req (Some o))
  | CallDeleteSnapshot req => done_with (delete_snapshot req (Some o) false)
  | CallCloneSnapshot req => done_with (clone_snapshot req (Some o) false)
  | CallRollback req => done_with (rollback req (Some o) false)
  | CallCloneSubvolume req => done_with (clone_subvolume req (Some o))
  | CallDelete req => done_with (delete req (Some o))
  end.

Definition is_delete c : bool := match c with CallDelete _ => true | _ => false end.

Lemma respects_done {E A} o (m : M SvWorld E A) : respects o m -> respects o (done_with m).
Proof. intros Hm s0 w Hw. apply keeps_bind; [by apply Hm|]. intros a w' Hk. by apply calm_ret. Qed.

Lemma call_respects o c : is_delete c = false -> respects o (run_call o c).
Proof.
  destruct c; intros Hc; try done; apply respects_done;
    eauto using respects_attach, respects_detach, respects_resize, respects_update, respects_set_properties,
      respects_remove_properties, respects_create_snapshot, respects_delete_snapshot, respects_clone_snapshot,
      respects_rollback, respects_clone_subvolume, respects_calm with calm.
Qed.

Lemma call_beyond o c s0 w : same s0 w -> keeps (kept (beyond s0 o) s0) (run_call o c) w.
Proof.
  intros Hw. destruct (is_delete c) eqn:Ec.
  - destruct c; try done. apply keeps_bind; [by apply delete_beyond|]. intros a w' Hk. by apply calm_ret.
  - eapply wp_mono; [|by apply call_respects]. intros r w' Hk. eapply kept_weaken; [|exact Hk]. intros q. apply beyond_theirs.
Qed.

(** A token reaches only its own subvolumes. Whatever call a token that is confined to its subvolumes makes, and
    however it ends, a subvolume that the token does not own and that is not inside one it owns is afterwards as it was:
    its data, its attributes and its mode. Only a deletion reaches below a subvolume of the token at all. *)
Theorem tokens_reach_their_own_volumes o c w r w' q v :
  run_call o c w = (r, w') -> volumes (sw_store w) q = Some v -> owner_of v <> Some o ->
  (is_delete c = true -> forall p vp, volumes (sw_store w) p = Some vp -> owner_of vp = Some o -> ~ p `prefix_of` q) ->
  volumes (sw_store w') q = Some v.
Proof.
  intros Hrun Hv Ho Hd. assert (~ owned (sw_store w) o q) as Hn by (intros (v' & Hv' & Hov); simplify_eq).
  destruct (is_delete c) eqn:Ec.
  - pose proof (call_beyond o c (sw_store w) w (kept_refl _ w)) as Hk. unfold keeps, wp in Hk. rewrite Hrun in Hk. cbn in Hk.
    rewrite (proj2 Hk q); [done|]. split; [by exists v|]. intros p (vp & Hvp & Hop). by eapply Hd.
  - pose proof (call_respects o c Ec (sw_store w) w (kept_refl _ w)) as Hk. unfold keeps, wp in Hk. rewrite Hrun in Hk. cbn in Hk.
    rewrite (proj2 Hk q); [done|]. split; [by exists v|done].
Qed.

(** ** Rolling back *)

(** What a rollback leaves: what was there before is in its place or in a snapshot taken on the way. *)
Definition not_lost w (m sub : string) (v : Volume Data) : Prop :=
  volumes (sw_store w) (components (subvol_path m sub)) = Some v \/
  exists t, volumes (sw_store w) (components (snap_path m sub ("pre-rollback-" ++ fmt_Z t))) = Some v.

Definition rolled_back s0 w (m sub snap : string) (flt : option string) (v : Volume Data) (res : RollbackResult) : Prop :=
  volumes (sw_store w) (components (snap_path m sub (rr_safety_snapshot res))) = Some v /\
  forall vt, volumes s0 (components (snap_path m sub snap)) = Some vt ->
    volumes (sw_store w) (components (subvol_path m sub)) = Some (stamped flt vt).

(** The steps after the safety snapshot. *)
Lemma wp_rollback_tail req flt (sv : Subvolume) m name v s0 w1 :
  let live := subvol_path m (rb_subvolume req) in
  let path := snap_path m (rb_subvolume req) (rb_snapshot req) in
  let safe := components (snap_path m (rb_subvolume req) name) in
  safe <> components live -> components path <> components live ->
  (is_Some (volumes s0 (components path)) -> volumes (sw_store w1) (components path) = volumes s0 (components path)) ->
  volumes (sw_store w1) safe = Some v -> forall f g,
  wp (deleted <- run_ok "bcachefs" ["subvolume"; "delete"; live] ;; orfail f deleted ;;;
      recreated <- attempt (materialize_subvol_from_snapshot path live flt) ;; orfail g recreated ;;;
      set_project_quota m live (project_id_for (rb_filesystem req) (rb_subvolume req)) (default 0%Z (sv_quota_bytes sv)) ;;;
      recreated <- get (rb_filesystem req) (rb_subvolume req) None ;; ret (mkRollbackResult recreated name))
    (fun r w => volumes (sw_store w) safe = Some v /\ forall res, r = Ok res -> rr_safety_snapshot res = name /\
       forall vt, volumes s0 (components path) = Some vt -> volumes (sw_store w) (components live) = Some (stamped flt vt)) w1.
Proof.
  intros live path safe Hsafe Hpath Hsame Hv f g. set (P := fun q => q <> components live).
  pose proof (kept_refl P w1) as Hk. apply wp_bind. eapply wp_mono; [|by apply (keeps_delete_at P); [intros Hp; by apply Hp|]].
  intros r w2 Hk2. pose proof (proj2 Hk2 safe Hsafe) as Hs2. rewrite Hv in Hs2. destruct r as [d|e]; [|done].
  apply wp_bind. destruct d as [d|e]; [|by apply wp_throw]. apply wp_ret. apply wp_bind, wp_attempt.
  eapply wp_mono; [|by apply (wp_materialize P (sw_store w1)); [intros []|]].
  intros r w3 [Hk3 Hv3]. pose proof (proj2 Hk3 safe Hsafe) as Hs3. rewrite Hv in Hs3.
  apply wp_bind. destruct r as [[]|e]; [|by apply wp_throw]. apply wp_ret. destruct (Hv3 eq_refl) as (_ & vs & Hvs & Hlive).
  rewrite (proj2 Hk2 _ Hpath) in Hvs.
  apply wp_bind. eapply wp_mono; [|by apply (quiet_calm _ (quiet_set_project_quota m live _ _) _ _ _ (kept_refl (fun _ => True) w3))].
  intros r w4 Hw4. destruct r as [u|e]; [|by rewrite (same_volumes _ _ _ Hw4)]. eapply wp_calm_bind; [by eauto with calm|eassumption|..].
  { intros e w5 Hw5. by rewrite (same_volumes _ _ _ Hw5). }
  intros rec w5 Hw5. apply wp_ret. rewrite !(same_volumes _ _ _ Hw5). split; [done|]. intros res [= <-]. split; [done|].
  intros vt Hvt. rewrite Hsame in Hvs by (rewrite Hvt; by eexists). congruence.
Qed.

Lemma wp_rollback_subvolume req flt allow m v w :
  mounts (sw_store w) (rb_filesystem req) = Some m ->
  volumes (sw_store w) (components (subvol_path m (rb_subvolume req))) = Some v ->
  wp (rollback req flt allow) (fun r w' => not_lost w' m (rb_subvolume req) v /\
    forall res, r = Ok res -> rolled_back (sw_store w) w' m (rb_subvolume req) (rb_snapshot req) flt v res) w.
Proof.
  intros Hm Hv. set (s0 := sw_store w) in *. assert (same s0 w) as Hw by done. unfold rollback.
  assert (forall w' e, same s0 w' -> not_lost w' m (rb_subvolume req) v /\ forall res, Err (A := RollbackResult) (E := SubvolumeError) e = Ok res ->
    rolled_back s0 w' m (rb_subvolume req) (rb_snapshot req) flt v res) as Herr.
  { intros w' e Hw'. split; [|done]. left. by rewrite (same_volumes _ _ _ Hw'). }
  apply wp_bind, wp_lift. destruct (validate_existing_snapshot_name _ _) as [[]|] eqn:En; [|by apply Herr].
  assert (validate_subvolume_name (rb_subvolume req) = Ok tt) as Hname.
  { unfold validate_existing_snapshot_name in En. by destruct (validate_subvolume_name _) as [[]|]. }
  eapply wp_calm_bind; [by eauto with calm|eassumption|by eauto|]. intros sv w1 Hw1.
  eapply wp_calm_bind; [by eauto with calm|eassumption|by eauto|]. intros _ w2 Hw2. apply wp_bind.
  eapply wp_mono; [|by apply wp_fs_mount_point]. intros r w3 [Hw3 Hm3]. destruct r as [m'|e]; [|by apply Herr]. cbv zeta.
  assert (m' = m) as -> by (specialize (Hm3 m' eq_refl); congruence). clear Hm3.
  do 6 (eapply wp_calm_bind; [calm_go|eassumption|by eauto|]; intros ? ? ?).
  eapply wp_calm_bind; [calm_go|eassumption|by eauto|]. intros now w10 Hw10. apply wp_bind.
  eapply wp_mono; [|by apply (wp_create_snapshot_locked _ flt s0 w10)]. intros r w11 [Hk11 Ht].
  assert (volumes (sw_store w11) (components (subvol_path m (rb_subvolume req))) = Some v) as Hlive.
  { rewrite (proj2 Hk11); [done|]. by exists v. }
  destruct r as [sn|e]; [|by split; [left|]]. destruct (Ht sn eq_refl) as (m' & v' & Hm' & Hfree & Hsrc & Hcopy). cbn in *.
  simplify_eq. eapply wp_mono; [|eapply (wp_rollback_tail req flt sv m ("pre-rollback-" ++ fmt_Z now) v s0 w11); [..|done]].
  - intros r w12 [Hs Hres]. split; [right; by exists now|]. intros res Hr. destruct (Hres res Hr) as [E Hvt]. split; [by rewrite E|done].
  - intros E. congruence.
  - by apply snap_not_live.
  - intros Hp. by apply (proj2 Hk11).
Qed.

(** C11: A rollback loses nothing. However a rollback ends, what the subvolume held before is still there: at its path, or
    in a snapshot of it named after the rollback. When it succeeds the snapshot it reports holds exactly the state
    before, and the subvolume holds what the requested snapshot held, under the same path. *)
Theorem rollback_loses_nothing req flt allow m v w r w' :
  rollback req flt allow w = (r, w') -> mounts (sw_store w) (rb_filesystem req) = Some m ->
  volumes (sw_store w) (components (subvol_path m (rb_subvolume req))) = Some v ->
  not_lost w' m (rb_subvolume req) v /\
  forall res, r = Ok res -> rolled_back (sw_store w) w' m (rb_subvolume req) (rb_snapshot req) flt v res.
Proof.
  intros Hrun Hm Hv. pose proof (wp_rollback_subvolume req flt allow m v w Hm Hv) as Hwp. unfold wp in Hwp. by rewrite Hrun in Hwp.
Qed.

End Props.
