(* ===== verification/SubvolumeRestore.v ===== *)
(** * Loop devices find their volumes again

    After a start [restore_block_devices] tells the block exports which loop
    device each volume is on. Every device it names is attached to the image of
    the volume it is named for, whatever calls fail on the way; and an export
    that is brought back with this answer serves the image of its volume. *)
From Stdlib Require Import String Ascii ZArith.
From stdpp Require Import base list gmap strings numbers sorting.
From S2P Require Import Prelude RustStr Disk StateStore Records JsonRpc Rest FirewallRules Firewall Backup ConfigFs BlockWorld Iscsi NvmeofService NvmeofRestore Protocol BlockReconcile FileShare Subvolume SubvolumeRead SubvolumeService SubvolumeLaws SubvolumeOwner SubvolumeProps.

Open Scope string_scope.
Open Scope rust_scope.

Definition detaches {A} (c : Sys A) : bool :=
  match c with Exec program args => (program =s "losetup") && (first_arg args =s "-d") | _ => false end.

(** What losetup prints, what the identifiers of bcachefs mean, and that nothing else changes either. *)
Class LoopLaws `{OsLaws} : Prop := {
  law_loops : forall A (c : Sys A) s d, changes_loops c = false -> loops (os_call c s).2 d = loops s d;
  (** A loop device is on its file until it is detached. *)
  law_attached : forall A (c : Sys A) s d f, loops s d = Some f -> detaches c = false -> loops (os_call c s).2 d = Some f;
  law_places : forall A (c : Sys A) s v, (forall s q, ~ touches c s q) -> volume_at (os_call c s).2 v = volume_at s v;
  law_uuids : forall A (c : Sys A) s m, uuid_at (os_call c s).2 m = uuid_at s m;
  law_fs_uuid : forall n s fs s' m, os_call (FsGet n) s = (Ok fs, s') -> fv_mount_point fs = Some m -> uuid_at s m = Some (fv_uuid fs);
  (** A listing gives the identifier of each subvolume. *)
  law_entry : forall m s o s' es e n u, os_call (Exec "bcachefs" ["subvolume"; "list"; "--snapshots"; "--json"; m]) s = (Ok o, s') ->
    ou_success o = true -> decode (from_utf8_lossy (ou_stdout o)) = Ok es -> e ∈ es -> be_subvolid e = Some n ->
    uuid_at s m = Some u -> volume_at s (mkVolumeId u n) = Some (components (subvol_path m (be_path e)));
  (** A line per loop device: its name and the file it is on. *)
  law_loop_list : forall s o s' l, os_call (Exec "losetup" LOSETUP_LIST) s = (Ok o, s') -> ou_success o = true ->
    l ∈ RustStr.lines (from_utf8_lossy (ou_stdout o)) ->
    exists d f, loops s d = Some f /\ split_whitespace l = d :: split_whitespace f;
  (** There are no links on the way to an image. *)
  law_canonical : forall p s c s', os_call (Canonicalize p) s = (Some c, s') -> from_utf8_lossy c = display_path (components p)
}.

Section Restore.
Context `{LoopLaws} `{ProjectHash} `{!Codec (gmap string BlockVolumeId)}.
Implicit Types (s : Store) (w : SvWorld) (id : BlockVolumeId).

(** ** Nothing changes while the engine looks *)

Record steady s0 w : Prop := mkSteady {
  st_same : same s0 w;
  st_loops : forall d, loops (sw_store w) d = loops s0 d;
  st_places : forall v, volume_at (sw_store w) v = volume_at s0 v;
  st_uuids : forall m, uuid_at (sw_store w) m = uuid_at s0 m
}.

Lemma steady_after {A} (c : Sys A) s0 w : quiet_call c -> steady s0 w -> steady s0 (after c w).
Proof.
  intros [Ht Hc] [Hs Hl Hp Hu]. split; cbn.
  - pose proof (calm_sys (E := string) c Ht _ _ _ Hs) as Hk. unfold keeps, wp, sys, after in *.
    by destruct (os_call c (sw_store w)) as [a s].
  - intros d. by rewrite law_loops.
  - intros v. by rewrite law_places.
  - intros m. by rewrite law_uuids.
Qed.

Lemma wp_quiet {E A} (m : M SvWorld E A) (Q : result A E -> SvWorld -> Prop) s0 w :
  quiet m -> steady s0 w -> wp m Q w -> wp m (fun r w' => steady s0 w' /\ Q r w') w.
Proof. intros Hm Hw HQ. apply wp_and; [|done]. apply Hm; [|done]. intros B c w' Hc. by apply steady_after. Qed.

Lemma wp_quiet_bind {E A B} (m : M SvWorld E A) (f : A -> M SvWorld E B) (Q : result B E -> SvWorld -> Prop) s0 w :
  quiet m -> steady s0 w -> (forall e w', steady s0 w' -> Q (Err e) w') -> (forall a w', steady s0 w' -> wp (f a) Q w') -> wp (bind m f) Q w.
Proof.
  intros Hm Hw He Hf. apply wp_bind. eapply wp_mono; [|apply (wp_quiet _ (fun _ _ => True) s0 w Hm Hw); done].
  intros [a|e] w' [Hw' _]; auto.
Qed.

(** ** Identities *)

Lemma add_entry_ids i e n k : bi_subvolume_ids (add_entry i e) !! n = Some k ->
  bi_subvolume_ids i !! n = Some k \/ n = be_path e /\ be_subvolid e = Some k.
Proof.
  assert (forall ids : gmap string Z, (match be_subvolid e with Some x => <[be_path e := x]> ids | None => ids end) !! n = Some k ->
    ids !! n = Some k \/ n = be_path e /\ be_subvolid e = Some k) as Hids.
  { intros ids. destruct (be_subvolid e) as [x|]; [|by left]. destruct (decide (be_path e = n)) as [<-|Hn];
      [rewrite lookup_insert_eq; intros [= ->]; by right|rewrite lookup_insert_ne by done; by left]. }
  unfold add_entry. destruct (be_snapshot_parent e); [destruct (bool_decide _)|]; cbn; apply Hids.
Qed.

Lemma info_ids es n k : bi_subvolume_ids (build_bcachefs_info es) !! n = Some k -> exists e, e ∈ es /\ be_path e = n /\ be_subvolid e = Some k.
Proof.
  unfold build_bcachefs_info. assert (forall i, bi_subvolume_ids (foldl add_entry i es) !! n = Some k ->
    bi_subvolume_ids i !! n = Some k \/ exists e, e ∈ es /\ be_path e = n /\ be_subvolid e = Some k) as Hi.
  { induction es as [|e es IH]; intros i; cbn; [by left|]. intros [Hn|(e' & He & ?)]%IH; [|right; exists e'; set_solver].
    apply add_entry_ids in Hn as [?|[-> ?]]; [by left|]. right. exists e. set_solver. }
  intros [Hn|He]%Hi; [done|done].
Qed.

(** The identity that is reported is the volume's. *)
Definition placed s0 (sv : Subvolume) : Prop :=
  forall id, sv_block_volume_id sv = Some id -> volume_at s0 id = Some (components (sv_path sv)).

Lemma wp_describe_id fs_name fs m info usages lm owner name s0 w : steady s0 w ->
  wp (describe fs_name fs m info usages lm owner name) (fun r w' => steady s0 w' /\
    forall sv, r = Ok (Some sv) -> sv_path sv = subvol_path m name /\
      forall id, sv_block_volume_id sv = Some id -> exists k, bi_subvolume_ids info !! name = Some k /\ id = mkVolumeId (fv_uuid fs) k) w.
Proof.
  intros Hw. apply wp_quiet; [apply quiet_describe|done|]. unfold describe.
  eapply wp_quiet_bind; [by eauto with quiet|eassumption|done|]. intros creating w1 Hw1. destruct creating; [by apply wp_ret|].
  eapply wp_quiet_bind; [by eauto with quiet|eassumption|done|]. intros attrs w2 Hw2.
  eapply wp_quiet_bind; [by eauto with quiet|eassumption|done|]. intros up w3 Hw3. cbv zeta.
  destruct (is_ok _); [|by apply wp_ret].
  eapply wp_quiet_bind; [by apply quiet_snapshot_names|eassumption|done|]. intros snaps w4 Hw4.
  eapply wp_quiet_bind; [by apply quiet_sizes_of|eassumption|done|]. intros sizes w5 Hw5.
  eapply wp_quiet_bind; [by destruct (me_type (at_meta attrs)); eauto with quiet|eassumption|done|]. intros dev w6 Hw6.
  apply wp_ret. intros sv [= <-]. cbn. split; [done|]. intros id. destruct (me_type _); [done|].
  intros (k & Hk & ->)%fmap_Some. by exists k.
Qed.

Lemma wp_list_ids fs owner s0 w : steady s0 w ->
  wp (list_subvolumes fs owner) (fun r w' => steady s0 w' /\ forall l, r = Ok l -> Forall (placed s0) l) w.
Proof.
  intros Hw. unfold list_subvolumes. apply wp_bind. eapply wp_mono; [|apply (wp_quiet _ (fun r _ => forall a, r = Ok a -> exists s' : Store,
    os_call (FsGet fs) (sw_store w) = (a, s')) s0 w); [quiet_go|done|apply wp_sys; intros a s Ha a' [= <-]; by exists s]].
  intros r w1 [Hw1 Hfs]. destruct r as [a|e]; [|done]. destruct (Hfs a eq_refl) as [s1 Ha]. clear Hfs.
  apply wp_bind. destruct a as [f|e]; [|by apply wp_throw]. apply wp_ret. apply wp_bind, wp_lift.
  destruct (fv_mount_point f) as [m|] eqn:Em; [|done]. cbn [ok_or].
  assert (uuid_at s0 m = Some (fv_uuid f)) as Hu. { rewrite <- (st_uuids _ _ Hw). by eapply law_fs_uuid. }
  apply wp_bind. eapply wp_mono.
  2:{ apply (wp_quiet _ (fun r _ => forall i n k, r = Ok i -> bi_subvolume_ids i !! n = Some k ->
        volume_at s0 (mkVolumeId (fv_uuid f) k) = Some (components (subvol_path m n))) s0 w1); [by eauto with quiet|done|].
      unfold bcachefs_list_all_strict, run_cmd, run_ok. apply wp_bind, wp_bind, wp_bind, wp_sys. intros a s Hx. apply wp_ret.
      destruct a as [o|e]; [|by apply wp_throw]. destruct (ou_success o) eqn:Eo; [|by apply wp_throw]. apply wp_ret.
      destruct (decode _) as [es|e] eqn:Ed; [|by apply wp_throw]. apply wp_ret. intros i n k [= <-] (e & He & <- & Hk)%info_ids.
      rewrite <- (st_places _ _ Hw1). eapply law_entry; [done..|]. by rewrite (st_uuids _ _ Hw1). }
  intros r w2 [Hw2 Hi]. destruct r as [info|e]; [|done].
  eapply wp_quiet_bind; [by eauto with quiet|eassumption|done|]. intros usages w3 Hw3.
  eapply wp_quiet_bind; [by eauto with quiet|eassumption|done|]. intros lm w4 Hw4.
  eapply wp_mono; [|apply (wp_collect (steady s0) (fun _ sv => placed s0 sv)); [|done]].
  - intros r w5 [Hw5 Hall]. split; [done|]. intros l Hl. eapply list.Forall_impl; [by apply Hall|]. by intros sv (n & _ & Hp).
  - intros n w5 _ Hw5. eapply wp_mono; [|by apply wp_describe_id]. intros r w6 [Hw6 Hd]. split; [done|]. intros sv Hsv id Hid.
    destruct (Hd sv Hsv) as [Hpath Hk]. destruct (Hk id Hid) as (k & Hk' & ->). rewrite Hpath. by eapply Hi.
Qed.

Lemma wp_list_filesystems fss f owner s0 w : steady s0 w ->
  wp (list_filesystems fss f owner) (fun r w' => steady s0 w' /\ forall l, r = Ok l -> Forall (placed s0) l) w.
Proof.
  revert w. induction fss as [|fs fss IH]; intros w Hw; cbn [list_filesystems]; [by apply wp_ret; split; [|intros l [= <-]]|].
  destruct (_ || _); [by apply IH|]. apply wp_bind. eapply wp_mono; [|by apply wp_list_ids]. intros r w1 [Hw1 Hl].
  destruct r as [l1|e]; [|done]. apply wp_bind. eapply wp_mono; [|by apply IH]. intros r w2 [Hw2 Hl2].
  destruct r as [l2|e]; [|done]. apply wp_ret. split; [done|]. intros l [= <-]. apply list.Forall_app. auto.
Qed.

Lemma wp_list_all f owner s0 w : steady s0 w ->
  wp (list_all f owner) (fun r w' => steady s0 w' /\ forall l, r = Ok l -> Forall (placed s0) l) w.
Proof.
  intros Hw. unfold list_all. eapply wp_quiet_bind; [quiet_go|eassumption|done|]. intros fss w1 Hw1.
  eapply wp_quiet_bind; [by eauto with quiet|eassumption|done|]. intros l w2 Hw2. by apply wp_list_filesystems.
Qed.

(** ** Loop devices *)

(** The file of a volume's image, as the kernel prints it. *)
Definition image_text (p : Path) : string := display_path (p ++ [BLOCK_FILE_NAME])%list.

(** A device is on the image of a volume. *)
Definition on_image s0 w id (dev : string) : Prop :=
  exists p, volume_at s0 id = Some p /\ loops (sw_store w) dev = Some (image_text p).

(** No file under a loop device has a blank in its name, and none is deleted. *)
Definition plain_loops s : Prop := forall d f, loops s d = Some f -> split_whitespace f = [f].

Lemma losetup_map_spec (b d output : string) : losetup_map_of output !! b = Some d ->
  exists l rest, l ∈ RustStr.lines output /\ split_whitespace l = d :: b :: rest.
Proof.
  unfold losetup_map_of. assert (forall ls (m : gmap string string),
    foldl (fun m l => match split_whitespace l with dev :: back :: _ => <[back := dev]> m | _ => m end) m ls !! b = Some d ->
    m !! b = Some d \/ exists l rest, l ∈ ls /\ split_whitespace l = d :: b :: rest) as Hl.
  { induction ls as [|l ls IH]; intros m; cbn [foldl]; [by left|]. intros [Hm|(l' & rest & Hin & Hl)]%IH; [|right; exists l', rest; split; [by right|done]].
    destruct (split_whitespace l) as [|dev [|back rest]] eqn:E; [by left..|]. destruct (decide (back = b)) as [->|Hn].
    - rewrite lookup_insert_eq in Hm. injection Hm as ->. right. exists l, rest. split; [by left|done].
    - rewrite lookup_insert_ne in Hm by done. by left. }
  intros [Hm|?]%Hl; [done|done].
Qed.

Lemma wp_find_loop_device {E} path s0 w : plain_loops s0 -> steady s0 w ->
  wp (find_loop_device (E := E) path) (fun r w' => steady s0 w' /\
    exists o, r = Ok o /\ forall d, o = Some d -> loops s0 d = Some (display_path (components path))) w.
Proof.
  intros Hplain Hw. apply wp_quiet; [by eauto with quiet|done|]. unfold find_loop_device, build_losetup_map, run_ok.
  apply wp_bind, wp_bind, wp_bind, wp_sys. intros o s Ho. apply wp_ret, wp_ret. unfold find_loop_device_from_map.
  apply wp_bind, wp_sys. intros c s' Hc. apply wp_ret. eexists. split; [done|]. intros d Hd. destruct c as [c|]; [|done].
  rewrite (law_canonical _ _ _ _ Hc) in Hd. destruct o as [o|]; [|done]. destruct (ou_success o) eqn:Eo; [|done].
  apply losetup_map_spec in Hd as (l & rest & Hin & Hl). destruct (law_loop_list _ _ _ _ Ho Eo Hin) as (d' & f & Hf & Hsplit).
  rewrite (st_loops _ _ Hw) in Hf. rewrite (Hplain _ _ Hf), Hl in Hsplit. by simplify_eq.
Qed.

Lemma wp_observe {E} svs observed existing s0 w : plain_loops s0 -> steady s0 w -> Forall (placed s0) svs ->
  (forall id d, existing !! id = Some d -> exists p, volume_at s0 id = Some p /\ loops s0 d = Some (image_text p)) ->
  wp (observe_existing (E := E) svs observed existing) (fun r w' => steady s0 w' /\ exists x, r = Ok x /\
    forall id d, x.2 !! id = Some d -> exists p, volume_at s0 id = Some p /\ loops s0 d = Some (image_text p)) w.
Proof.
  intros Hpl. revert observed existing w. induction svs as [|sv svs IH]; intros observed existing w Hw Hall Hex; cbn [observe_existing].
  { apply wp_ret. split; [done|]. by eexists. }
  inversion Hall as [|? ? Hsv Hsvs]; subst. destruct (sv_block_volume_id sv) as [id|] eqn:Eid; [|by apply IH].
  apply wp_bind. eapply wp_mono; [|by apply wp_find_loop_device]. intros r w1 (Hw1 & d & -> & Hd).
  destruct d as [d|]; [|by apply IH]. apply IH; [done..|]. intros id' d'. destruct (decide (id = id')) as [<-|Hn].
  - rewrite lookup_insert_eq. intros [= <-]. exists (components (sv_path sv)). split; [by apply Hsv|].
    unfold image_text. rewrite <- components_img. by apply Hd.
  - rewrite lookup_insert_ne by done. apply Hex.
Qed.

Lemma wp_evidence observed s0 w : steady s0 w -> keeps (steady s0) (legacy_export_evidence observed) w.
Proof.
  intros Hw. unfold legacy_export_evidence. apply keeps_gets. cbv beta. destruct (sw_evidence w); [by apply keeps_ret|].
  apply keeps_bind.
  - assert (quiet (load_or_initialize_legacy_evidence LEGACY_EXPORT_EVIDENCE observed)) as Hq.
    { unfold load_or_initialize_legacy_evidence. quiet_go. }
    apply Hq; [|done]. intros B c w' Hc. by apply steady_after.
  - intros ev w1 Hw1. apply keeps_bind; [|intros; by apply keeps_ret]. destruct Hw1 as [[Hm Hv] Hl Hp Hu]. by split.
Qed.

(** ** The mappings *)

(** What the answer says so far is true. *)
Definition sound_mappings s0 w (m : BlockDeviceMappings) : Prop :=
  (forall id dev, bm_current m !! id = Some dev -> on_image s0 w id dev) /\
  (forall dev id, bm_preexisting m !! dev = Some id -> on_image s0 w id dev).

(** Devices may be attached, none is detached. *)
Definition growing s0 w : Prop := forall d f, loops s0 d = Some f -> loops (sw_store w) d = Some f.

Lemma on_image_grow s0 w w' id dev : growing (sw_store w) w' -> on_image s0 w id dev -> on_image s0 w' id dev.
Proof. intros Hg (p & Hp & Hl). exists p. split; [done|]. by apply Hg. Qed.

Lemma sound_grow s0 w w' m : growing (sw_store w) w' -> sound_mappings s0 w m -> sound_mappings s0 w' m.
Proof. intros Hg [Hc Hp]. split; intros; eapply on_image_grow; eauto. Qed.

Lemma growing_steady s w : steady s w -> growing s w.
Proof. intros Hs d f Hf. by rewrite (st_loops _ _ Hs). Qed.

Lemma growing_trans s w w' : growing s w -> growing (sw_store w) w' -> growing s w'.
Proof. intros Hg Hg' d f Hf. by apply Hg', Hg. Qed.

Lemma wp_restore_device {E} existing id sv s0 w : growing s0 w -> placed s0 sv -> sv_block_volume_id sv = Some id ->
  (forall i d, existing !! i = Some d -> exists p, volume_at s0 i = Some p /\ loops s0 d = Some (image_text p)) ->
  wp (restore_device (E := E) existing id sv) (fun r w' => exists o, r = Ok o /\ growing (sw_store w) w' /\
    forall dev, o = Some dev -> on_image s0 w' id dev) w.
Proof.
  intros Hg Hsv Hid Hex. unfold restore_device. destruct (existing !! id) as [d|] eqn:E1.
  - apply wp_ret. eexists. split_and!; [done|by intros ? ?|]. intros dev [= <-]. destruct (Hex _ _ E1) as (p & Hp & Hl). exists p. split; [done|]. by apply Hg.
  - unfold run_ok. apply wp_bind, wp_bind, wp_sys. intros a s Ha. apply wp_ret, wp_ret. eexists. split_and!; [done|..].
    + intros d f Hf. cbn. pose proof (law_attached _ (Exec "losetup" (losetup_args (sv_direct_io sv) (img_path (sv_path sv)))) _ _ _ Hf) as Hk.
      rewrite Ha in Hk. by apply Hk.
    + intros dev Hdev. destruct a as [o|e]; [|done]. destruct (ou_success o) eqn:Eo; [|done]. injection Hdev as <-.
      destruct (law_attach _ _ _ _ _ Ha Eo) as (Hl & _). exists (components (sv_path sv)). split; [by apply Hsv|].
      cbn. by rewrite Hl, components_img.
Qed.

Lemma wp_restore_each {E} evidence existing svs m s0 w : growing s0 w -> Forall (placed s0) svs -> sound_mappings s0 w m ->
  (forall i d, existing !! i = Some d -> exists p, volume_at s0 i = Some p /\ loops s0 d = Some (image_text p)) ->
  wp (restore_each (E := E) evidence existing svs m) (fun r w' => exists m', r = Ok m' /\ sound_mappings s0 w' m') w.
Proof.
  revert existing m w. induction svs as [|sv svs IH]; intros existing m w Hg Hall Hm Hex; cbn [restore_each].
  { apply wp_ret. by exists m. }
  inversion Hall as [|? ? Hsv Hsvs]; subst. destruct (sv_block_volume_id sv) as [id|] eqn:Eid; [|by apply IH].
  apply wp_bind, wp_sys. intros there s Hthere. set (w1 := mkSvWorld _ s (sw_evidence w)).
  assert (growing (sw_store w) w1) as Hg1.
  { intros d f Hf. pose proof (law_attached _ (Exists (img_path (sv_path sv))) _ _ _ Hf eq_refl) as Hk. by rewrite Hthere in Hk. }
  pose proof (growing_trans _ _ _ Hg Hg1) as Hg1'. pose proof (sound_grow _ _ _ _ Hg1 Hm) as Hm1. clearbody w1.
  destruct (negb there); [by apply IH|]. apply wp_bind. eapply wp_mono; [|by eapply (wp_restore_device existing id sv s0 w1)].
  intros r w2 (d & -> & Hg2 & Hdev). pose proof (sound_grow _ _ _ _ Hg2 Hm1) as Hm2. pose proof (growing_trans _ _ _ Hg1' Hg2) as Hg2'.
  cbv zeta.
  assert (forall i d, base.delete id existing !! i = Some d -> exists p, volume_at s0 i = Some p /\ loops s0 d = Some (image_text p)) as Hex'.
  { intros i x [_ Hx]%lookup_delete_Some. by apply Hex. }
  destruct d as [dev|]; [|by apply IH]. specialize (Hdev dev eq_refl). apply IH; [done..| |done]. destruct Hm2 as [Hc Hp]. split; cbn.
  - intros i x. destruct (decide (id = i)) as [<-|Hn]; [rewrite lookup_insert_eq; by intros [= <-]|rewrite lookup_insert_ne by done; apply Hc].
  - destruct (bool_decide _); [|done]. intros x i. destruct (decide (dev = x)) as [<-|Hn];
      [rewrite lookup_insert_eq; by intros [= <-]|rewrite lookup_insert_ne by done; apply Hp].
Qed.

Lemma wp_restore_block_devices {E} w : plain_loops (sw_store w) ->
  wp (restore_block_devices (E := E)) (fun r w' => exists m, r = Ok m /\ sound_mappings (sw_store w) w' m) w.
Proof.
  intros Hpl. set (s0 := sw_store w) in *. assert (steady s0 w) as Hw by (by split). clearbody s0.
  assert (forall w', sound_mappings s0 w' (mkMappings ∅ ∅)) as Hempty by (by split).
  unfold restore_block_devices. apply wp_bind, wp_attempt. eapply wp_mono; [|by apply wp_list_all]. intros r w1 [Hw1 Hl].
  destruct r as [all|e]; [|apply wp_ret; by eexists]. cbv zeta.
  assert (Forall (placed s0) (List.filter (fun sv => is_block (sv_type sv)) all)) as Hall.
  { apply (Forall_retain (placed s0)). by apply Hl. }
  apply wp_bind. eapply wp_mono; [|by apply (wp_observe (E := E) _ ∅ ∅ s0)]. intros r w2 (Hw2 & seen & -> & Hex).
  apply wp_bind, wp_attempt. eapply wp_mono; [|by apply wp_evidence]. intros r w3 Hw3.
  destruct r as [ev|e]; [|apply wp_ret; by eexists]. apply wp_restore_each; [by apply growing_steady|done|done|by apply Hex].
Qed.

(** The loop devices that are restored belong to the volumes they are named for. Whatever calls fail, the engine gets
    an answer, and each device in it, as the current device of a volume or as one that was exported before, is attached to
    the image of the subvolume with that identity: provided that no file under a loop device has a blank in its name. *)
Theorem restored_devices_are_on_their_volumes w r w' :
  plain_loops (sw_store w) -> restore_block_devices (E := SubvolumeError) w = (r, w') ->
  exists m, r = Ok m /\ sound_mappings (sw_store w) w' m.
Proof.
  intros Hpl Hrun. pose proof (wp_restore_block_devices (E := SubvolumeError) w Hpl) as Hwp. unfold wp in Hwp. by rewrite Hrun in Hwp.
Qed.

End Restore.

(** ** From the volume to the export *)

Section Exports.
Context `{LoopLaws} `{ProjectHash} `{!Codec (gmap string BlockVolumeId)}.
Context `{StartsDisabled} `{Vault} `{IpParser} `{KernelModules} `{!Codec IscsiTarget} `{!CodecLaws IscsiTarget}
  `{!Codec NvmeofSubsystem} `{!CodecLaws NvmeofSubsystem} `{!Codec Json} `{!Codec ProtocolState} `{!CodecLaws ProtocolState}
  `{!ProtocolJson} `{!Codec FirewallRestrictions} `{!Codec (list CustomRule)}.

(** An export serves an image: the namespace is on a device of a record, and if the record is for a volume of the engine
    this device is attached to the image of that volume. *)
Definition serves_image (s : Store) (v : SvWorld) (b : BlockWorld) (nqn n : string) : Prop := exists ns dev,
  attr (bw_tree b) (nv_path nqn n ++ ["device_path"])%list = Some dev /\ ns_device_path ns = dev /\
  (exists sub, stored (T := NvmeofSubsystem) NVMEOF_STATE_DIR (bw_disk b) (ss_id sub) = Some sub /\ ns ∈ ss_namespaces sub /\
     ns_path (ss_nqn sub) (ns_nsid ns) = nv_path nqn n) /\
  (is_managed_namespace ns = true -> exists id, ns_backing_volume ns = Some id /\ on_image s v id dev).

(** C8: After a start from settled block shares every NVMe-oF export serves its own volume. When the engine has restored the
    loop devices and then reports that the block exports are back, each live namespace under its name that is enabled is on a
    device of a record, and for a record of a managed volume this device is attached to the image of the very volume the
    record was made for. Assumed: no file under a loop device has a blank in its name; and before the call NVMe-oF is wanted
    and protocols.json can be read, the live namespaces are those of the records on disk, the state directories and the
    kernel's directories are in order, and a failing call never claims that something is missing. Without the agreement of
    live namespaces and records the call can succeed with a namespace on an old device, as a retry after a failed call
    does. *)
Theorem exports_serve_their_own_images e m w w' v v' :
  plain_loops (sw_store v) -> restore_block_devices (E := SubvolumeError) v = (Ok m, v') ->
  settled (sw_block w) -> reconcile_block_shares_under_lock e m w = (Ok tt, w') ->
  forall nqn n x, ours nqn -> attr (bw_tree (sw_block w')) (enable_of nqn n) = Some x -> x <> "0" ->
  serves_image (sw_store v) v' (sw_block w') nqn n.
Proof.
  intros Hpl Hres Hset Hrec nqn n x Hn Hx Hx0. pose proof (wp_restore_block_devices (E := SubvolumeError) v Hpl) as Hwp.
  unfold wp in Hwp. rewrite Hres in Hwp. destruct Hwp as (m' & [= <-] & Hcur & _).
  destruct (reconciled_served e m w w' Hset Hrec nqn n x Hn Hx Hx0) as (sub & ns & Hsub & Hns & Hp & _ & Hdev & Hr).
  exists ns, (ns_device_path ns). split_and!; [done|done|by exists sub|]. intros Hman. destruct (Hr Hman) as (_ & id & Hid & Hc).
  exists id. split; [done|]. by apply Hcur.
Qed.

End Exports.
