(* ===== verification/SubvolumeWitness.v ===== *)
(** * Subvolumes: the theorems applied

    A small machine that keeps the laws: one filesystem with a few subvolumes,
    tools that do what they are asked and two loop devices. *)
From Stdlib Require Import String Ascii ZArith.
From stdpp Require Import base list gmap strings numbers countable sorting.
From S2P Require Import Prelude RustStr Disk StateStore Records AuthWitness JsonRpc Rest FirewallRules Firewall FirewallWitness Backup ConfigFs BlockWorld Iscsi IscsiService NvmeofService NvmeofRestore Protocol BlockReconcile BlockWitness FileShare Subvolume SubvolumeRead SubvolumeService SubvolumeLaws SubvolumeOwner SubvolumeProps SubvolumeRestore.

Open Scope string_scope.
Open Scope rust_scope.

Module SubvolumeExample.

(** ** The machine *)

Record Toy := mkToy { ty_vols : gmap Path (Volume string); ty_loops : gmap string string }.

Definition with_vols (s : Toy) (v : gmap Path (Volume string)) : Toy := mkToy v (ty_loops s).
Definition with_loops (s : Toy) (l : gmap string string) : Toy := mkToy (ty_vols s) l.

#[export] Instance BcachefsListEntry_eq_dec : EqDecision BcachefsListEntry.
Proof. solve_decision. Defined.
#[export] Instance BcachefsListEntry_countable : Countable BcachefsListEntry.
Proof.
  apply (inj_countable' (fun e => (be_path e, be_subvolid e, be_flags e, be_snapshot_parent e, be_otime_unix e))
    (fun x => let '(p, i, f, sp, t) := x in mkEntry p i f sp t)). by intros [].
Defined.
#[export] Instance entries_codec : Codec (list BcachefsListEntry) := count_codec (list BcachefsListEntry).
#[export] Instance evidence_codec : Codec (gmap string BlockVolumeId) := count_codec (gmap string BlockVolumeId).
#[export] Instance toy_hash : ProjectHash := fun a b => Z.of_nat (String.length a + String.length b).

(** What bcachefs can list, if it is there. *)
Definition entries : list BcachefsListEntry := [
  mkEntry "a" (Some 7%Z) None None None; mkEntry "b" (Some 8%Z) None None None;
  mkEntry "a@s1" (Some 9%Z) (Some "ro") (Some "/a") (Some 100%Z); mkEntry "c" (Some 10%Z) None None None].

Definition MOUNT : string := "/fs/tank".
Definition at_name (n : string) : Path := components (subvol_path MOUNT n).
Definition listed (s : Toy) : list BcachefsListEntry := List.filter (fun e => is_some (ty_vols s !! at_name (be_path e))) entries.
Definition tank : FsView := mkFs "tank" "fs-uuid" (Some MOUNT) true (Some 1%Z) None None.

Inductive Action :=
| ADelete (p : string) | ANew (p : string) | ACopy (a b : string) | AList
| AAttach (f : string) | ADetach (d : string) | ALoops | ASay (text : string) | AFail.

Definition action (program : string) (args : list string) : Action :=
  if program =s "bcachefs" then
    if first_arg args =s "subvolume" then
      let verb := default "" (args !! 1%nat) in
      if verb =s "list" then
        if bool_decide (args = ["subvolume"; "list"; "--snapshots"; "--json"; MOUNT]) then AList else ASay ""
      else if verb =s "delete" then match args with [_; _; p] => ADelete p | _ => AFail end
      else if verb =s "create" then match args with [_; _; p] => ANew p | _ => AFail end
      else if verb =s "snapshot" then match args with [_; _; a; b] | [_; _; _; a; b] => ACopy a b | _ => AFail end
      else AFail
    else ASay ""
  else if program =s "losetup" then
    if first_arg args =s "--find" then if last_arg args =s "--noheadings" then AFail else AAttach (last_arg args)
    else if last_arg args =s "--noheadings" then ALoops
    else if first_arg args =s "-d" then ADetach (last_arg args)
    else ASay ""
  else if program =s "blkid" then ASay (if default "" (args !! 2%nat) =s "TYPE" then "ext4" else "uuid-1")
  else ASay "".

Definition fine (text : string) : result Finished IoErr := Ok (mkFinished true "exit status: 0" text "").
Definition failed : result Finished IoErr := Ok (mkFinished false "exit status: 1" "" "no").

Definition free_device (s : Toy) : option string :=
  List.find (fun d => negb (is_some (ty_loops s !! d))) ["/dev/loop5"; "/dev/loop6"].

Definition toy_exists (p : string) (s : Toy) : bool :=
  existsb (fun q => bool_decide (components p `prefix_of` q ++ [BLOCK_FILE_NAME])%list) (map_to_list (ty_vols s)).*1.

Lemma toy_free p s q : toy_exists p s = false -> components p `prefix_of` q -> ty_vols s !! q = None.
Proof.
  intros Hex Hq. destruct (ty_vols s !! q) as [v|] eqn:Ev; [|done]. exfalso.
  unfold toy_exists in Hex. apply existsb_none with (x := q) in Hex.
  - apply bool_decide_eq_false in Hex. by apply Hex, prefix_app_r.
  - apply list_elem_of_fmap. exists (q, v). by rewrite elem_of_map_to_list.
Qed.

Definition act (a : Action) (s : Toy) : result Finished IoErr * Toy :=
  match a with
  | ADelete p =>
      if is_some (ty_vols s !! components p) then (fine "", with_vols s (base.delete (components p) (ty_vols s))) else (failed, s)
  | ANew p =>
      if toy_exists p s then (failed, s)
      else (fine "", with_vols s (<[components p := mkVolume ∅ 493 ""]> (ty_vols s)))
  | ACopy a b =>
      match ty_vols s !! components a, ty_vols s !! components b with
      | Some v, None => (fine "", with_vols s (<[components b := v]> (ty_vols s)))
      | _, _ => (failed, s)
      end
  | AList => (fine (BlockExample.text_of (listed s)), s)
  | AAttach f =>
      match free_device s with
      | Some d => (fine d, with_loops s (<[d := display_path (components f)]> (ty_loops s)))
      | None => (failed, s)
      end
  | ADetach d => (fine "", with_loops s (base.delete d (ty_loops s)))
  | ALoops => if bool_decide (ty_loops s = ∅) then (fine "", s) else (failed, s)
  | ASay text => (fine text, s)
  | AFail => (failed, s)
  end.

(** A change of a volume that is there. *)
Definition alter_volume (p : string) (f : Volume string -> Volume string) (s : Toy) : result unit IoErr * Toy :=
  match ty_vols s !! components p with
  | Some v => (Ok tt, with_vols s (<[components p := f v]> (ty_vols s)))
  | None => (Err NotFound, s)
  end.

Definition toy_call {A} (c : Sys A) (s : Toy) : A * Toy :=
  match c in Sys A return A * Toy with
  | Exec program args => act (action program args) s
  | FsGet n => (if n =s "tank" then Ok tank else Err "unknown filesystem", s)
  | FsList => (Ok [tank], s)
  | Exists p => (toy_exists p s, s)
  | Canonicalize p =>
      let t := display_path (components p) in (if from_utf8_lossy t =s t then Some t else None, s)
  | XattrGet p k => (match ty_vols s !! components p with Some v => Ok (vl_attrs v !! k) | None => Err NotFound end, s)
  | XattrList p => (match ty_vols s !! components p with Some v => Ok (map_to_list (vl_attrs v)).*1 | None => Err NotFound end, s)
  | XattrSet p k x => alter_volume p (fun v => mkVolume (<[k := x]> (vl_attrs v)) (vl_mode v) (vl_data v)) s
  | XattrRemove p k => alter_volume p (fun v => mkVolume (base.delete k (vl_attrs v)) (vl_mode v) (vl_data v)) s
  | SetMode p m => alter_volume p (fun v => mkVolume (vl_attrs v) m (vl_data v)) s
  | CreateDirAll _ => (Ok tt, s)
  | CreateImage _ => (Ok tt, s)
  | SetLen _ _ => (Ok tt, s)
  | FileLen _ => (Ok 1024%Z, s)
  | FileBlocks _ => (Ok 2%Z, s)
  | StatDev _ => (Ok 2049%Z, s)
  | StatIdentity _ => (Ok (1%Z, 2%Z), s)
  | ReadLink _ => (Ok "../../block/sda", s)
  | ProjectId _ => (Ok (Some 1%Z), s)
  | SetQuota _ _ _ => (Ok tt, s)
  | NextQuota _ _ => (Err (ENOENT, NotFound), s)
  | ReadText _ => (Err NotFound, s)
  | WriteText _ _ => (Ok tt, s)
  | AppendText _ _ => (Ok tt, s)
  | RenameFile _ _ => (Ok tt, s)
  | RemoveFile _ => (Ok tt, s)
  | NowSecs => (1700000000%Z, s)
  | ProcessId => (42%Z, s)
  end.

#[export] Instance toy_os : Os := {| Store := Toy; os_call := @toy_call |}.

#[export] Instance toy_view : OsView := {|
  Data := string;
  volumes s q := ty_vols s !! q;
  mounts _ n := if n =s "tank" then Some MOUNT else None;
  loops s d := ty_loops s !! d;
  uuid_at _ m := if m =s MOUNT then Some "fs-uuid" else None;
  volume_at _ id :=
    if bv_filesystem_uuid id =s "fs-uuid"
    then (fun e => at_name (be_path e)) <$> List.find (fun e => bool_decide (be_subvolid e = Some (bv_subvolume_id id))) entries
    else None
|}.

(** ** Its laws *)

Lemma lossy_print p : from_utf8_lossy (pos_print p) = pos_print p.
Proof.
  induction p as [p IH|p IH|]; [| |done]; cbn [pos_print].
  - transitivity (String "1" (from_utf8_lossy (pos_print p))); [by destruct (pos_print p)|by rewrite IH].
  - transitivity (String "0" (from_utf8_lossy (pos_print p))); [by destruct (pos_print p)|by rewrite IH].
Qed.

Lemma listing_text es : decode (T := list BcachefsListEntry) (from_utf8_lossy (BlockExample.text_of es)) = Ok es.
Proof.
  unfold BlockExample.text_of. cbn [encode entries_codec count_codec]. rewrite lossy_print. by apply (count_codec_laws (list BcachefsListEntry)).
Qed.

Lemma listed_there s e : e ∈ listed s -> e ∈ entries /\ is_Some (ty_vols s !! at_name (be_path e)).
Proof.
  unfold listed. intros [He Hs]%list_elem_of_In%List.filter_In. split; [by apply list_elem_of_In|]. by destruct (ty_vols s !! _).
Qed.

Lemma toy_enclosing (s : Toy) p : is_Some (ty_vols s !! p) -> enclosing s p p.
Proof. intros Hp. split_and!; [done|done|]. by intros q Hq _. Qed.

Lemma alter_frame p f s q : ~ enclosing s (components p) q -> ty_vols (alter_volume p f s).2 !! q = ty_vols s !! q.
Proof.
  intros He. unfold alter_volume. destruct (ty_vols s !! components p) as [v|] eqn:Ev; [|done]. cbn.
  rewrite lookup_insert_ne; [done|]. intros <-. apply He, toy_enclosing. by exists v.
Qed.

Lemma alter_alive p f s q : is_Some (ty_vols s !! q) -> is_Some (ty_vols (alter_volume p f s).2 !! q).
Proof.
  intros Hq. unfold alter_volume. destruct (ty_vols s !! components p) as [v|] eqn:Ev; [|done]. cbn. rewrite lookup_insert_is_Some'. by right.
Qed.

(** What the programs do to the volumes is what they may. *)
Lemma act_frame program args s q : ~ exec_touches s program args q -> ty_vols (act (action program args) s).2 !! q = ty_vols s !! q.
Proof.
  unfold exec_touches, action. destruct (program =s "bcachefs"); [|intros _; by repeat (case_match; simplify_eq/=)].
  destruct (first_arg args =s "subvolume"); [|done]. cbv zeta.
  destruct (default "" (args !! 1%nat) =s "list"); [intros _; by repeat (case_match; simplify_eq/=)|]. intros Hq.
  assert (forall x, components (last_arg args) = x -> default "" (args !! 1%nat) = "delete" \/ ty_vols s !! x = None -> q <> x) as Hne
    by (intros x <- Hd ->; by apply Hq).
  destruct (default "" (args !! 1%nat) =s "delete") eqn:Ed; [apply eqb_spec in Ed|destruct (default "" (args !! 1%nat) =s "create"); [|destruct (_ =s "snapshot"); [|done]]].
  - destruct args as [|? [|? [|p [|? ?]]]]; try done. cbn. case_match; [|done]. cbn. rewrite lookup_delete_ne; [done|]. symmetry. apply Hne; [done|by left].
  - destruct args as [|? [|? [|p [|? ?]]]]; try done. cbn. destruct (toy_exists p s) eqn:Ep; [done|]. cbn. rewrite lookup_insert_ne; [done|]. symmetry. apply Hne; [done|].
    right. by eapply toy_free.
  - destruct args as [|? [|? [|p [|? [|? [|? ?]]]]]]; try done; cbn; repeat case_match; try done; cbn;
      (rewrite lookup_insert_ne; [done|]); symmetry; (apply Hne; [done|by right]).
Qed.

Lemma act_alive program args s q : ~ deletes (Exec program args) q -> is_Some (ty_vols s !! q) -> is_Some (ty_vols (act (action program args) s).2 !! q).
Proof.
  intros Hd Hq. destruct (action program args) as [p|p|a b| |f|d| |t|] eqn:Ea; cbn; try done.
  - case_match; [|done]. cbn. rewrite lookup_delete_ne; [done|]. intros <-. apply Hd. unfold action in Ea.
    destruct (program =s "bcachefs") eqn:E1; [|by repeat (case_match; simplify_eq/=)]. apply eqb_spec in E1 as ->.
    destruct (first_arg args =s "subvolume") eqn:E2; [|done]. cbv zeta in Ea. apply eqb_spec in E2.
    destruct (_ =s "list"); [by repeat (case_match; simplify_eq/=)|]. destruct (_ =s "delete") eqn:E3; [|by repeat (case_match; simplify_eq/=)].
    apply eqb_spec in E3. split; [done|]. destruct args as [|x [|y [|z [|? ?]]]]; try done. cbn in *. simplify_eq. by exists p.
  - case_match; [done|]. cbn. rewrite lookup_insert_is_Some'. by right.
  - repeat case_match; try done. cbn. rewrite lookup_insert_is_Some'. by right.
  - by case_match.
  - by case_match.
Qed.

Lemma attach_law d f s o s' : act (action "losetup" (losetup_args d f)) s = (Ok o, s') -> ou_success o = true ->
  let dev := trim (from_utf8_lossy (ou_stdout o)) in
  ty_loops s' !! dev = Some (display_path (components f)) /\ ty_loops s !! dev = None.
Proof.
  intros Hrun Hok dev.
  assert (action "losetup" (losetup_args d f) = if f =s "--noheadings" then AFail else AAttach f) as Ha by (by destruct d).
  rewrite Ha in Hrun. destruct (f =s "--noheadings"); [by injection Hrun as <- <-|]. cbn [act] in Hrun.
  destruct (free_device s) as [x|] eqn:Ex; [|by injection Hrun as <- <-]. unfold fine in Hrun. injection Hrun as <- <-.
  unfold free_device in Ex. apply find_Some_elem in Ex as [Hx Hf].
  assert (dev = x) as ->.
  { subst dev. cbn [ou_stdout]. apply elem_of_cons in Hx as [->|[->|Hx]%elem_of_cons]; [vm_compute; reflexivity..|by apply elem_of_nil in Hx]. }
  split; [by apply lookup_insert_eq|]. by destruct (ty_loops s !! x).
Qed.

#[export] Instance toy_laws : OsLaws.
Proof.
  split.
  - intros A c s q. destruct c; intros Ht; cbn in Ht |- *; try done; [by apply act_frame|by apply alter_frame..].
  - done.
  - intros n s fs s' m. cbn. destruct (n =s "tank"); [|done]. by intros [= <- <-] [= <-].
  - intros p k s v s' vol. cbn. intros E Hv. rewrite Hv in E. by simplify_eq.
  - intros A c s q Hd Hq. destruct c; cbn; try done; [by apply act_alive|by apply alter_alive..].
  - intros m s o s' es e Hrun _.
    change (act (if bool_decide (["subvolume"; "list"; "--snapshots"; "--json"; m] = ["subvolume"; "list"; "--snapshots"; "--json"; MOUNT])
                 then AList else ASay "") s = (Ok o, s')) in Hrun.
    case_bool_decide as Em; unfold act, fine in Hrun; injection Hrun as <- <-; cbn [ou_stdout].
    + injection Em as ->. rewrite listing_text. intros [= <-] He. by apply listed_there.
    + by intros [= <-] ?%elem_of_nil.
  - intros ro a b s o s' Hrun Hro. destruct Hro as [-> | ->]; cbn in Hrun; unfold failed, fine in Hrun; repeat case_match; simplify_eq/=; intros; try done;
      (split; [assumption|]); eexists; (split; [eassumption|]); by rewrite lookup_insert_eq.
  - intros p s o s' Hrun. cbn in Hrun. unfold failed, fine in Hrun. destruct (toy_exists p s) eqn:Ep; simplify_eq/=; intros; [done|].
    split; [|by rewrite lookup_insert_eq]. intros q. by apply toy_free.
  - intros p m s q v Hv. cbn in *. unfold alter_volume. destruct (ty_vols s !! components p) as [v'|] eqn:E; [|exists (vl_mode v); by destruct v].
    cbn. destruct (decide (components p = q)) as [<-|Hn]; [rewrite lookup_insert_eq; simplify_eq; by eexists|].
    rewrite lookup_insert_ne by done. exists (vl_mode v). by destruct v.
  - intros d f s o s' Hrun Hok dev. exact (attach_law d f s o s' Hrun Hok).
  - intros p k x s s' vol. cbn. unfold alter_volume. intros E Hv. rewrite Hv in E. simplify_eq/=. by rewrite lookup_insert_eq.
Qed.

Lemma act_loops program args s d : changes_loops (Exec program args) = false -> ty_loops (act (action program args) s).2 !! d = ty_loops s !! d.
Proof.
  cbn. unfold action. destruct (program =s "bcachefs"); [intros _; by repeat (case_match; simplify_eq/=)|].
  destruct (program =s "losetup"); [|intros _; by repeat (case_match; simplify_eq/=)]. cbn.
  destruct (last_arg args =s "--noheadings"); [intros _; by repeat (case_match; simplify_eq/=)|]. cbn.
  destruct (first_arg args =s "--set-capacity") eqn:E; [|done]. intros _. apply eqb_spec in E as ->. done.
Qed.

Lemma act_attached program args s d f : ty_loops s !! d = Some f -> detaches (Exec program args) = false ->
  ty_loops (act (action program args) s).2 !! d = Some f.
Proof.
  intros Hd. cbn. unfold action. destruct (program =s "bcachefs"); [intros _; by repeat (case_match; simplify_eq/=)|].
  destruct (program =s "losetup"); [|intros _; by repeat (case_match; simplify_eq/=)]. cbn.
  destruct (first_arg args =s "-d") eqn:E; [done|]. intros _.
  destruct (first_arg args =s "--find"); [|by repeat (case_match; simplify_eq/=)].
  destruct (_ =s "--noheadings"); [done|]. cbn [act]. destruct (free_device s) as [x|] eqn:Ex; [|done]. cbn.
  unfold free_device in Ex. apply find_Some_elem in Ex as [_ Hx]. rewrite lookup_insert_ne; [done|]. intros ->. by rewrite Hd in Hx.
Qed.

Lemma entry_place e n : e ∈ entries -> be_subvolid e = Some n -> volume_at (mkToy ∅ ∅) (mkVolumeId "fs-uuid" n) = Some (at_name (be_path e)).
Proof.
  intros He Hn. repeat (apply elem_of_cons in He as [->|He]; [injection Hn as <-; vm_compute; reflexivity|]). by apply elem_of_nil in He.
Qed.

#[export] Instance toy_loop_laws : LoopLaws.
Proof.
  split.
  - intros A c s d Hc. destruct c; try done; cbn [os_call toy_os toy_call loops toy_view]; [by apply act_loops|..];
      unfold alter_volume; by case_match.
  - intros A c s d f Hd Hc. destruct c; try done; cbn [os_call toy_os toy_call loops toy_view]; [by apply act_attached|..];
      unfold alter_volume; by case_match.
  - done.
  - done.
  - intros n s fs s' m. cbn. destruct (n =s "tank"); [|done]. by intros [= <- <-] [= <-].
  - intros m s o s' es e n u Hrun _.
    change (act (if bool_decide (["subvolume"; "list"; "--snapshots"; "--json"; m] = ["subvolume"; "list"; "--snapshots"; "--json"; MOUNT])
                 then AList else ASay "") s = (Ok o, s')) in Hrun.
    case_bool_decide as Em; unfold act, fine in Hrun; injection Hrun as <- <-; cbn [ou_stdout].
    + injection Em as ->. rewrite listing_text. intros [= <-] [He _]%listed_there Hn [= <-]. by apply entry_place.
    + by intros [= <-] ?%elem_of_nil.
  - intros s o s' l Hrun Hok. change (act ALoops s = (Ok o, s')) in Hrun. cbn [act] in Hrun. unfold fine, failed in Hrun.
    case_bool_decide; injection Hrun as <- <-; [|done]. vm_compute. by intros ?%elem_of_nil.
  - intros p s c s'. cbn. destruct (_ =s _) eqn:E; [|done]. intros [= <- <-]. by apply eqb_spec.
Qed.

(** ** The calls *)

Definition vol (t o d : string) : Volume Data := mkVolume {[XATTR_NASTY_TYPE := t; XATTR_NASTY_OWNER := o]} 511 d.

Definition on_a : Volume Data := vol "filesystem" "alice" "new".
Definition on_s1 : Volume Data := vol "filesystem" "alice" "old".
Definition on_b : Volume Data := vol "block" "bob" "disk".

Definition world1 : SvWorld := mkSvWorld _ (mkToy {[at_name "a" := on_a; at_name "a@s1" := on_s1; at_name "b" := on_b]} ∅) None.

(** Alice deletes her subvolume; Bob's stays. *)
Definition delete_a : SvCall := CallDelete (mkDeleteSubvolume "tank" "a").
Definition after_delete : SvWorld := (run_call "alice" delete_a world1).2.

Lemma only_a_is_alices p v :
  volumes (sw_store world1) p = Some v -> owner_of v = Some "alice" -> p = at_name "a" \/ p = at_name "a@s1".
Proof.
  cbn. intros [[<- <-]|[_ [[<- <-]|[_ Hv]]%lookup_insert_Some]]%lookup_insert_Some Ho; [by left|by right|].
  apply lookup_singleton_Some in Hv as [<- <-].
  vm_compute in Ho. discriminate Ho.
Qed.

Lemma tokens_reach_their_own_volumes_witness :
  volumes (sw_store after_delete) (at_name "b") = Some on_b /\
  volumes (sw_store after_delete) (at_name "a") = None /\
  is_ok (run_call "alice" delete_a world1).1 = true.
Proof.
  split; [|split; vm_compute; reflexivity].
  apply (tokens_reach_their_own_volumes "alice" delete_a world1 (run_call "alice" delete_a world1).1 after_delete (at_name "b") on_b).
  - by destruct (run_call "alice" delete_a world1) eqn:E; unfold after_delete; rewrite E.
  - vm_compute. reflexivity.
  - vm_compute. discriminate.
  - intros _ p v Hv Ho Hp. destruct (only_a_is_alices p v Hv Ho) as [-> | ->]; apply (bool_decide_pack _) in Hp; vm_compute in Hp; exact Hp.
Defined.

(** A rollback to the snapshot. *)
Definition rollback_a : RollbackSnapshotRequest := mkRollback "tank" "a" "s1".
Definition rolled : result RollbackResult SubvolumeError * SvWorld := rollback rollback_a (Some "alice") false world1.
Lemma rollback_run : rollback rollback_a (Some "alice") false world1 = (rolled.1, rolled.2).
Proof. unfold rolled. by destruct (rollback _ _ _ _). Qed.

Lemma rollback_loses_nothing_witness :
  not_lost rolled.2 MOUNT "a" on_a /\
  (exists res, rolled.1 = Ok res /\ rolled_back (sw_store world1) rolled.2 MOUNT "a" "s1" (Some "alice") on_a res).
Proof.
  destruct (rollback_loses_nothing rollback_a (Some "alice") false MOUNT on_a world1 rolled.1 rolled.2 rollback_run
    ltac:(vm_compute; reflexivity) ltac:(vm_compute; reflexivity)) as [Hn Hr].
  split; [exact Hn|]. assert (is_ok rolled.1 = true) as Hok by (vm_compute; reflexivity).
  destruct rolled.1 as [res|e] eqn:E; [|discriminate Hok]. exists res. split; [reflexivity|]. exact (Hr res eq_refl).
Defined.

(** A new block subvolume with a file system on it. *)
Definition create_c : CreateSubvolumeRequest :=
  mkCreateSubvolume "tank" "c" TBlock (Some 1048576%Z) None None None None None None None None (Some Ext4).
Definition created : result Subvolume SubvolumeError * SvWorld := create create_c (Some "alice") world1.
Lemma create_run : create create_c (Some "alice") world1 = (created.1, created.2).
Proof. unfold created. by destruct (create _ _ _). Qed.

Lemma create_changes_no_other_witness :
  (exists v, volumes (sw_store created.2) (at_name "b") = Some v /\ same_content on_b v /\
     (v = on_b \/ named_by create_c (sw_store world1) (at_name "b"))) /\
  is_Some (volumes (sw_store created.2) (at_name "c")) /\ is_ok created.1 = true.
Proof.
  split; [|split; [vm_compute; eexists; reflexivity|vm_compute; reflexivity]].
  apply (create_changes_no_other create_c (Some "alice") world1 created.1 created.2 (at_name "b") on_b create_run).
  vm_compute. reflexivity.
Defined.

(** ** Two surprises *)

(** Bob's private subvolume is opened to everybody, and described, when Alice asks to create one of that name. *)
Definition private_b : Volume Data := mkVolume (vl_attrs (vol "filesystem" "bob" "")) 448 "secret".
Definition world3 : SvWorld := mkSvWorld _ (mkToy {[at_name "b" := private_b]} ∅) None.
Definition create_b : CreateSubvolumeRequest :=
  mkCreateSubvolume "tank" "b" TFilesystem None None None None None None None None None None.

Lemma create_opens_anothers_subvolume :
  let run := create create_b (Some "alice") world3 in
  (exists sv, run.1 = Ok sv /\ sv_owner sv = Some "bob" /\ sv_created sv = false) /\
  exists v, volumes (sw_store run.2) (at_name "b") = Some v /\ vl_mode v = 511%Z.
Proof. vm_compute. split; eexists; repeat split; reflexivity. Qed.

(** A clone that an administrator makes belongs to the token that owns its source. *)
Lemma admin_clone_keeps_the_token :
  exists sv, (clone_subvolume (mkCloneSubvolume "tank" "a" "c") None world1).1 = Ok sv /\ sv_owner sv = Some "alice".
Proof. vm_compute. eexists. split; reflexivity. Qed.

(** After a cold start: two block subvolumes, no loop device yet. *)
Definition world2 : SvWorld :=
  mkSvWorld _ (mkToy {[at_name "a" := vol "block" "alice" "disk a"; at_name "b" := on_b]} ∅) None.
Definition restored : SvWorld := (restore_block_devices (E := SubvolumeError) world2).2.

Lemma restore_run : restore_block_devices (E := SubvolumeError) world2 = (Ok BlockExample.mappings, restored).
Proof. apply (run_split (restore_block_devices world2)). vm_compute. reflexivity. Qed.

Lemma no_loops : plain_loops (sw_store world2).
Proof. intros d f. cbn. by rewrite lookup_empty. Qed.

Lemma restored_devices_are_on_their_volumes_witness :
  exists m, bm_current m !! BlockExample.volume 8 = Some "/dev/loop6" /\ sound_mappings (sw_store world2) restored m /\
    loops (sw_store restored) "/dev/loop6" = Some "/fs/tank/b/vol.img".
Proof.
  destruct (restored_devices_are_on_their_volumes world2 (Ok BlockExample.mappings) restored no_loops restore_run) as (m & Hm & Hs).
  injection Hm as <-. exists BlockExample.mappings. split; [vm_compute; reflexivity|]. split; [exact Hs|]. vm_compute. reflexivity.
Defined.

Import BlockExample.

(** The namespace that is brought back serves the image of volume 8. *)
Lemma exports_serve_their_own_images_witness :
  serves_image (sw_store world2) restored (sw_block BlockExample.reconciled) BlockExample.NQN "1".
Proof.
  apply (exports_serve_their_own_images BlockExample.share_env BlockExample.mappings BlockExample.share_world BlockExample.reconciled
    world2 restored no_loops restore_run BlockExample.world_settled BlockExample.reconcile_ok BlockExample.NQN "1" "1").
  - vm_compute. reflexivity.
  - exact (proj1 BlockExample.namespace_is_live).
  - discriminate.
Defined.

End SubvolumeExample.
