(* ===== verification/Filesystem.v ===== *)
(** * Creating a filesystem: engine/nasty-storage/src/filesystem.rs

    The path from a request to a formatted and mounted filesystem: the checks of
    the request, the inventory of block devices that is read from lsblk and
    sysfs, the plan of what is formatted and partitioned, the checks that are
    repeated before anything is destroyed, and the calls that follow. Programs,
    the files of the engine and the TPM are reached through the calls of [Dev],
    which may answer anything; the calls that were made are kept in a trace. *)
From Stdlib Require Import String Ascii ZArith SpecFloat.
From stdpp Require Import base list gmap strings numbers sorting.
From S2P Require Import Prelude RustStr Disk StateStore JsonRpc Router ConfigFs BlockWorld Iscsi NvmeofService FileShare Subvolume.

Open Scope string_scope.
Open Scope rust_scope.

Definition MOUNT_BASE : string := "/fs".
Definition FS_STATE_PATH : string := "/var/lib/nasty/fs-state.json".
Definition KEYS_DIR : string := "/var/lib/nasty/keys".
Definition TPM_SEALED_SUFFIX : string := "tpm".
Definition MIN_CREATE_FREE_BYTES : Z := 1073741824.

(** ** Data *)

Inductive FilesystemError :=
| FsCommandFailed (msg : string)
| FsNotFound (name : string)
| FsAlreadyExists (name : string)
| FsDeviceInUse (msg : string)
| FsInvalidInput (msg : string)
| FsNoDevices
| FsDeviceNotFound (path : string)
| FsIo (e : IoErr).

Definition display_fs_error (e : FilesystemError) : string :=
  match e with
  | FsCommandFailed s => "bcachefs command failed: " ++ s
  | FsNotFound s => "filesystem not found: " ++ s
  | FsAlreadyExists s => "filesystem already exists: " ++ s
  | FsDeviceInUse s => "device " ++ s ++ " is already in use"
  | FsInvalidInput s => "invalid input: " ++ s
  | FsNoDevices => "no devices specified"
  | FsDeviceNotFound s => "device not found: " ++ s
  | FsIo e => "io error: " ++ display_io e
  end.

Record DeviceSpec := mkSpec { ds_path : string; ds_label : option string; ds_durability : option Z }.

Record CreateFilesystemRequest := mkCreateFs {
  cf_name : string;
  cf_devices : list DeviceSpec;
  cf_replicas : Z;
  cf_compression : option string;
  cf_encryption : option bool;
  cf_passphrase : option string;
  cf_store_key : option bool;
  cf_bind_to_tpm : option bool;
  cf_label : option string;
  cf_foreground_target : option string;
  cf_metadata_target : option string;
  cf_background_target : option string;
  cf_promote_target : option string;
  cf_erasure_code : option bool;
  cf_data_checksum : option string;
  cf_metadata_checksum : option string;
  cf_bucket_size : option string;
  cf_encoded_extent_max : option string;
  cf_version_upgrade : option string;
  cf_journal_flush_delay : option Z
}.

Definition set_devices (l : list DeviceSpec) (r : CreateFilesystemRequest) : CreateFilesystemRequest :=
  mkCreateFs (cf_name r) l (cf_replicas r) (cf_compression r) (cf_encryption r) (cf_passphrase r) (cf_store_key r)
    (cf_bind_to_tpm r) (cf_label r) (cf_foreground_target r) (cf_metadata_target r) (cf_background_target r)
    (cf_promote_target r) (cf_erasure_code r) (cf_data_checksum r) (cf_metadata_checksum r) (cf_bucket_size r)
    (cf_encoded_extent_max r) (cf_version_upgrade r) (cf_journal_flush_delay r).

Record FilesystemOptions := mkFsOptions {
  fo_compression : option string;
  fo_background_compression : option string;
  fo_data_replicas : option Z;
  fo_metadata_replicas : option Z;
  fo_data_checksum : option string;
  fo_metadata_checksum : option string;
  fo_foreground_target : option string;
  fo_background_target : option string;
  fo_promote_target : option string;
  fo_metadata_target : option string;
  fo_erasure_code : option bool;
  fo_encrypted : option bool;
  fo_locked : option bool;
  fo_key_stored : option bool;
  fo_error_action : option string;
  fo_version_upgrade : option string;
  fo_degraded : option bool;
  fo_verbose : option bool;
  fo_fsck : option bool;
  fo_journal_flush_disabled : option bool;
  fo_journal_flush_delay : option Z;
  fo_move_ios_in_flight : option Z;
  fo_move_bytes_in_flight : option string
}.

Record FilesystemDevice := mkFsDevice {
  fd_path : string;
  fd_label : option string;
  fd_durability : option Z;
  fd_state : option string;
  fd_data_allowed : option string;
  fd_has_data : option string;
  fd_discard : option bool;
  fd_rotational : option bool;
  fd_read_errors : option Z;
  fd_write_errors : option Z;
  fd_checksum_errors : option Z;
  fd_member_index : option Z;
  fd_uuid : option string;
  fd_missing : option bool
}.

(** A created filesystem has no mount error. *)
Record Filesystem := mkFilesystem {
  fs_name : string;
  fs_uuid : string;
  fs_devices : list FilesystemDevice;
  fs_mount_point : option string;
  fs_mounted : bool;
  fs_total_bytes : Z;
  fs_used_bytes : Z;
  fs_available_bytes : Z;
  fs_options : FilesystemOptions
}.

Record FsMountOptions := mkMountOptions {
  mo_uuid : option string;
  mo_devices : list string;
  mo_mounted : option bool;
  mo_encrypted : option bool;
  mo_version_upgrade : option string;
  mo_degraded : option bool;
  mo_verbose : option bool;
  mo_fsck : option bool;
  mo_journal_flush_disabled : option bool;
  mo_journal_flush_delay : option Z;
  mo_legacy_io_scheduler : option string
}.

Abbreviation FsState := (gmap string FsMountOptions).

(** ** The inventory of block devices *)

Record BlockIdentity := mkIdentity {
  bi_devno : string;
  bi_size_bytes : Z;
  bi_dev_type : string;
  bi_parent_devno : option string;
  bi_start_512_sector : option Z;
  bi_partition_number : option Z;
  bi_partition_uuid : option string;
  bi_partition_table_uuid : option string;
  bi_disk_sequence : option Z;
  bi_logical_sector_bytes : Z
}.

#[export] Instance BlockIdentity_eq_dec : EqDecision BlockIdentity.
Proof. solve_decision. Defined.

Record PreflightBlockDevice := mkNode {
  pd_path : string;
  pd_parent_path : option string;
  pd_identity : BlockIdentity;
  pd_fs_type : option string;
  pd_partition_table_type : option string;
  pd_read_only : bool;
  pd_mount_points : list string;
  pd_children : gset string;
  pd_holders : list string
}.

Record BlockInventory := mkInventory {
  iv_devices : gmap string PreflightBlockDevice;
  iv_paths : gmap string string
}.

Definition devno (n : PreflightBlockDevice) : string := bi_devno (pd_identity n).
Definition dev_type (n : PreflightBlockDevice) : string := bi_dev_type (pd_identity n).

Definition get_path (inv : BlockInventory) (path : string) : option PreflightBlockDevice :=
  iv_paths inv !! path ≫= fun d => iv_devices inv !! d.
Definition get_identity (inv : BlockInventory) (i : BlockIdentity) : option PreflightBlockDevice := iv_devices inv !! bi_devno i.

(** The loop of [descendants]: what is left to visit, what was seen, what was found. *)
Fixpoint visit (fuel : nat) (inv : BlockInventory) (pending : list string) (seen : gset string)
    (found : list PreflightBlockDevice) : list PreflightBlockDevice :=
  match fuel, pending with
  | S fuel, d :: pending =>
      if bool_decide (d ∈ seen) then visit fuel inv pending seen found
      else
        match iv_devices inv !! d with
        | Some node => visit fuel inv (elements (pd_children node) ++ pending)%list ({[d]} ∪ seen) (found ++ [node])%list
        | None => visit fuel inv pending ({[d]} ∪ seen) found
        end
  | _, _ => found
  end.

(** How often something may be put on the list of [visit]. *)
Definition pushes (m : gmap string PreflightBlockDevice) : nat := map_fold (fun _ n acc => size (pd_children n) + acc)%nat 0%nat m.

Definition descendants (inv : BlockInventory) (root : PreflightBlockDevice) : list PreflightBlockDevice :=
  visit (size (pd_children root) + pushes (iv_devices inv)) inv (elements (pd_children root)) ∅ [].

Inductive CreateTargetPlan :=
| Existing (spec : DeviceSpec) (expected : BlockIdentity)
| FreeSpace (spec : DeviceSpec) (parent : BlockIdentity) (partition_number start_sector end_sector : Z) (path : string).

Record CreateFilesystemPlan := mkPlan { cp_request : CreateFilesystemRequest; cp_targets : list CreateTargetPlan; cp_mount_point : string }.

(** ** lsblk *)

Definition u64_max : Z := u64_modulus - 1.
Definition u32_max : Z := 4294967295.

Definition non_empty (s : string) : option string := if s =s "" then None else Some s.

Definition json_string (v : Json) (key : string) : option string :=
  json_get v key ≫= fun x => JsonRpc.as_str x ≫= fun s => non_empty (trim s).

Definition as_u64 (v : Json) : option Z :=
  match v with JInt n => if ((0 <=? n) && (n <=? u64_max))%Z then Some n else None | _ => None end.

(** [Option::or_else]. *)
Definition or_else_opt {A} (a b : option A) : option A := match a with Some _ => a | None => b end.

Definition json_u64 (v : Json) (key : string) : option Z :=
  json_get v key ≫= fun x => or_else_opt (as_u64 x) (JsonRpc.as_str x ≫= fun s => parse_unsigned u64_max (trim s)).

Definition json_bool (v : Json) (key : string) : bool :=
  default false (json_get v key ≫= fun x =>
    or_else_opt (as_bool x)
   (or_else_opt ((fun n => negb (n =? 0)%Z) <$> as_u64 x)
      ((fun s => (s =s "1") || (s =s "true")) <$> JsonRpc.as_str x))).

Definition normalize_device_path (path : string) : string := if starts_with "/" path then path else "/dev/" ++ path.

Definition parse_mount_points (v : Json) : list string :=
  match json_get v "mountpoints" with
  | Some (JArray l) => omap (fun x => JsonRpc.as_str x ≫= fun s => non_empty (trim s)) l
  | Some (JString s) => omap (fun line => non_empty (trim line)) (lines s)
  | _ => match json_string v "mountpoint" with Some s => [s] | None => [] end
  end.

(** A device of the output with those below it. *)
Inductive LsTree := LsNode (value : Json) (children : list LsTree).

Fixpoint ls_tree (v : Json) : LsTree :=
  LsNode v
    match v with
    | JObject fields =>
        match List.find (fun f => f.1 =s "children")
                (List.map (fun '(k, c) => (k, match c with JArray l => List.map ls_tree l | _ => [] end)) fields) with
        | Some (_, l) => l
        | None => []
        end
    | _ => []
    end.

(** What [collect] fills: the devices by number, the numbers by path, the edges of the tree. *)
Record Collected := mkCollected {
  co_devices : gmap string PreflightBlockDevice;
  co_paths : gmap string string;
  co_edges : list (string * string)
}.

Definition identity_of (v : Json) (d : string) : BlockIdentity :=
  mkIdentity d (default 0%Z (json_u64 v "size")) (default "" (json_string v "type")) None (json_u64 v "start")
    (json_u64 v "partn" ≫= fun n => if (n <=? u32_max)%Z then Some n else None)
    (json_string v "partuuid") (json_string v "ptuuid") (json_u64 v "disk-seq") (default 512%Z (json_u64 v "log-sec")).

Definition node_of (v : Json) (d path : string) : PreflightBlockDevice :=
  mkNode path (normalize_device_path <$> json_string v "pkname") (identity_of v d) (json_string v "fstype") (json_string v "pttype")
    (json_bool v "ro") (parse_mount_points v) ∅ [].

Definition add_path (d : string) (p : option string) (m : gmap string string) : gmap string string :=
  match p with Some p => <[normalize_device_path p := d]> m | None => m end.

Definition add_value (v : Json) (d path : string) (parent : option string) (st : Collected) : Collected :=
  mkCollected
    (match co_devices st !! d with Some _ => co_devices st | None => <[d := node_of v d path]> (co_devices st) end)
    (add_path d (json_string v "kname") (add_path d (json_string v "name") (<[path := d]> (co_paths st))))
    (match parent with Some p => co_edges st ++ [(d, p)] | None => co_edges st end)%list.

Fixpoint collect_value (parent : option string) (t : LsTree) (st : Collected) : result Collected FilesystemError :=
  match t with
  | LsNode v kids =>
      match json_string v "maj:min", normalize_device_path <$> or_else_opt (json_string v "path") (json_string v "name") with
      | None, _ => Err (FsCommandFailed "lsblk device is missing MAJ:MIN")
      | Some _, None => Err (FsCommandFailed "lsblk device is missing PATH")
      | Some d, Some path =>
          (fix collect_kids (l : list LsTree) (st : Collected) : result Collected FilesystemError :=
             match l with
             | [] => Ok st
             | k :: l => match collect_value (Some d) k st with Ok st => collect_kids l st | Err e => Err e end
             end) kids (add_value v d path parent st)
      end
  end.

Fixpoint collect_roots (l : list Json) (st : Collected) : result Collected FilesystemError :=
  match l with
  | [] => Ok st
  | v :: l => match collect_value None (ls_tree v) st with Ok st => collect_roots l st | Err e => Err e end
  end.

Definition set_parent (p : string) (n : PreflightBlockDevice) : PreflightBlockDevice :=
  let i := pd_identity n in
  mkNode (pd_path n) (pd_parent_path n)
    (mkIdentity (bi_devno i) (bi_size_bytes i) (bi_dev_type i) (Some p) (bi_start_512_sector i) (bi_partition_number i)
       (bi_partition_uuid i) (bi_partition_table_uuid i) (bi_disk_sequence i) (bi_logical_sector_bytes i))
    (pd_fs_type n) (pd_partition_table_type n) (pd_read_only n) (pd_mount_points n) (pd_children n) (pd_holders n).
Definition add_child (c : string) (n : PreflightBlockDevice) : PreflightBlockDevice :=
  mkNode (pd_path n) (pd_parent_path n) (pd_identity n) (pd_fs_type n) (pd_partition_table_type n) (pd_read_only n)
    (pd_mount_points n) ({[c]} ∪ pd_children n) (pd_holders n).
Definition set_holders (l : list string) (n : PreflightBlockDevice) : PreflightBlockDevice :=
  mkNode (pd_path n) (pd_parent_path n) (pd_identity n) (pd_fs_type n) (pd_partition_table_type n) (pd_read_only n)
    (pd_mount_points n) (pd_children n) l.

Definition link (m : gmap string PreflightBlockDevice) (e : string * string) : gmap string PreflightBlockDevice :=
  alter (add_child e.1) e.2 (alter (set_parent e.2) e.1 m).

(** The parents that the devices name themselves. *)
Definition path_parents (st : Collected) : list (string * string) :=
  omap (fun '(d, n) => pd_parent_path n ≫= fun p => (fun parent => (d, parent)) <$> co_paths st !! p) (map_to_list (co_devices st)).

Definition parse_lsblk_inventory `{!Codec Json} (output : string) : result BlockInventory FilesystemError :=
  match decode output with
  | Err e => Err (FsCommandFailed ("failed to parse lsblk device inventory: " ++ e))
  | Ok parsed =>
      match json_get parsed "blockdevices" ≫= as_array with
      | None => Err (FsCommandFailed "lsblk returned no blockdevices")
      | Some roots =>
          match collect_roots roots (mkCollected ∅ ∅ []) with
          | Err e => Err e
          | Ok st => Ok (mkInventory (fold_left link (co_edges st ++ path_parents st)%list (co_devices st)) (co_paths st))
          end
      end
  end.

(** ** Checks of a request *)

Definition name_byte (c : ascii) : bool :=
  is_ascii_alphanumeric c || existsb (Ascii.eqb c) ["-"; "_"; "."]%char.

Definition validate_create_name (name : string) : result unit FilesystemError :=
  if (name =s "") || (32 <? String.length name)%nat
  then Err (FsInvalidInput "filesystem name must be between 1 and 32 bytes")
  else if (name =s ".") || (name =s "..") || negb (all_chars name_byte name)
  then Err (FsInvalidInput "filesystem name may contain only ASCII letters, digits, '.', '-', and '_'")
  else Ok tt.

Definition validate_create_label (field label : string) : result unit FilesystemError :=
  if (label =s "") || (32 <? String.length label)%nat || negb (all_chars name_byte label)
  then Err (FsInvalidInput (field ++ " must be 1-32 ASCII letters, digits, '.', '-', or '_'"))
  else Ok tt.

Definition validate_compression (spec : string) : result unit string :=
  let spec := trim spec in
  if (spec =s "") || (spec =s "none") then Ok tt
  else
    let '(algo, level) := match split_once ":" spec with Some (a, l) => (a, Some l) | None => (spec, None) end in
    let check (max_level : option Z) : result unit string :=
      match level with
      | None => Ok tt
      | Some level =>
          match max_level with
          | None => Err (algo ++ " does not take a compression level")
          | Some max =>
              match parse_unsigned u32_max level with
              | None => Err ("compression level '" ++ level ++ "' is not a number")
              | Some n =>
                  if ((n <? 1) || (max <? n))%Z
                  then Err (algo ++ " compression level must be between 1 and " ++ fmt_Z max ++ " (got " ++ fmt_Z n ++ ")")
                  else Ok tt
              end
          end
      end in
    if algo =s "lz4" then check None
    else if algo =s "zstd" then check (Some 22%Z)
    else if algo =s "gzip" then check (Some 9%Z)
    else Err ("unknown compression algorithm '" ++ algo ++ "'").

(** *** Sizes

    A decimal number is the nearest binary64 number, ties to even; the fraction
    is scaled until the quotient has more digits than are kept, and its last bit
    says whether there is a rest. *)
Definition f64_of_ratio (neg : bool) (m d : Z) : spec_float :=
  if (m =? 0)%Z then S754_zero neg
  else
    let k := Z.max 0 (66 + Z.log2 d - Z.log2 m) in
    let q := (m * 2 ^ k / d)%Z in
    let sticky := if (m * 2 ^ k mod d =? 0)%Z then 0%Z else 1%Z in
    let mant := (2 * q + sticky)%Z in
    binary_normalize 53 1024 (if neg then - mant else mant)%Z (- k - 1) neg.

(** [str::parse::<f64>] of a text without letters: a sign, digits with at most one point, at least one digit. *)
Definition parse_f64 (s : string) : option spec_float :=
  let '(neg, body) := match s with String "-" b => (true, b) | String "+" b => (false, b) | _ => (false, s) end in
  let '(whole, frac) := match split_once "." body with Some p => p | None => (body, "") end in
  if whole ++ frac =s "" then None
  else (fun m => f64_of_ratio neg m (10 ^ Z.of_nat (String.length frac))) <$> digits_value 0 (whole ++ frac).

(** [as u64]: towards zero, within the range. *)
Definition f64_as_u64 (f : spec_float) : Z :=
  match f with
  | S754_zero _ | S754_nan | S754_infinity true | S754_finite true _ _ => 0
  | S754_infinity false => u64_max
  | S754_finite false m e => Z.min u64_max (if (0 <=? e)%Z then Z.pos m * 2 ^ e else Z.pos m / 2 ^ (- e))
  end.

Definition is_alphabetic (c : ascii) : bool := is_ascii_alphanumeric c && negb (is_digit c).

(** The text before the first letter, and from there on. *)
Fixpoint split_letters (s : string) : string * string :=
  match s with
  | EmptyString => ("", "")
  | String c s' => if is_alphabetic c then ("", s) else let '(a, b) := split_letters s' in (String c a, b)
  end.

(** [to_uppercase], as far as it can give a unit: the dotless i is the one letter beyond ASCII. *)
Fixpoint to_uppercase (s : string) : string :=
  match s with
  | String "196" (String "177" s') => String "I" (to_uppercase s')
  | String c s' =>
      String (if (97 <=? nat_of_ascii c)%nat && (nat_of_ascii c <=? 122)%nat then ascii_of_nat (nat_of_ascii c - 32) else c) (to_uppercase s')
  | EmptyString => EmptyString
  end.

Definition unit_of (suffix : string) : option Z :=
  let u := to_uppercase suffix in
  if u =s "B" then Some 1%Z
  else if matches u ["K"; "KIB"; "KB"] then Some (2 ^ 10)%Z
  else if matches u ["M"; "MIB"; "MB"] then Some (2 ^ 20)%Z
  else if matches u ["G"; "GIB"; "GB"] then Some (2 ^ 30)%Z
  else if matches u ["T"; "TIB"; "TB"] then Some (2 ^ 40)%Z
  else None.

Definition parse_human_bytes (s : string) : option Z :=
  match parse_unsigned u64_max s with
  | Some n => Some n
  | None =>
      let s := trim s in
      if s =s "" then None
      else
        match split_letters s with
        | (num, "") => f64_as_u64 <$> parse_f64 num
        | (num, suffix) =>
            parse_f64 num ≫= fun n =>
            unit_of suffix ≫= fun u => Some (f64_as_u64 (SFmul 53 1024 n (f64_of_ratio false u 1)))
        end
  end.

Definition is_power_of_two (n : Z) : bool := (0 <? n)%Z && (2 ^ Z.log2 n =? n)%Z.

(** *** The request *)

(** [for x in l { f(x)?; }]. *)
Fixpoint check_all {A} (f : A -> result unit FilesystemError) (l : list A) : result unit FilesystemError :=
  match l with
  | [] => Ok tt
  | a :: l => match f a with Ok _ => check_all f l | Err e => Err e end
  end.

(** [f()?; g()]. *)
Definition then_check (f g : result unit FilesystemError) : result unit FilesystemError :=
  match f with Ok _ => g | Err e => Err e end.

Definition reject_if (b : bool) (msg : string) : result unit FilesystemError := if b then Err (FsInvalidInput msg) else Ok tt.

(** A check of each field that is given. *)
Definition given (f : string -> string -> result unit FilesystemError) (x : string * option string) : result unit FilesystemError :=
  match x.2 with Some v => f x.1 v | None => Ok tt end.

Definition durability_of (d : DeviceSpec) : Z := default 1%Z (ds_durability d).

Definition validate_device (d : DeviceSpec) : result unit FilesystemError :=
  then_check (reject_if (ds_path d =s "") "device path must not be empty")
 (then_check (reject_if (2 <? durability_of d)%Z
    ("device " ++ ds_path d ++ " has invalid durability " ++ fmt_Z (durability_of d) ++ "; expected 0, 1, or 2"))
    (given validate_create_label ("device label", ds_label d))).

(** [u32::saturating_add] along the devices. *)
Definition total_durability (l : list DeviceSpec) : Z := fold_left (fun t d => Z.min u32_max (t + durability_of d)) l 0%Z.

Definition tiering_targets (r : CreateFilesystemRequest) : list string :=
  omap id [cf_foreground_target r; cf_metadata_target r; cf_background_target r; cf_promote_target r].

Definition default_label (r : CreateFilesystemRequest) : string := default (cf_name r) (cf_label r).

Definition validate_target (r : CreateFilesystemRequest) (target : string) : result unit FilesystemError :=
  let labels := (fun d => default (default_label r) (ds_label d)) <$> cf_devices r in
  reject_if (negb (existsb (fun l => (l =s target) || starts_with (target ++ ".") l) labels))
    ("tiering target '" ++ target ++ "' does not match any selected device label").

Definition validate_checksum (field value : string) : result unit FilesystemError :=
  reject_if (negb (matches value ["none"; "crc32c"; "crc64"; "xxhash"])) ("invalid " ++ field ++ " value '" ++ value ++ "'").

Definition validate_size (field value : string) : result unit FilesystemError :=
  match parse_human_bytes value with
  | None => Err (FsInvalidInput ("invalid " ++ field ++ " value '" ++ value ++ "'"))
  | Some bytes => reject_if ((bytes =? 0)%Z || negb (is_power_of_two bytes)) (field ++ " must be a non-zero power-of-two size")
  end.

Definition validate_erasure (r : CreateFilesystemRequest) : result unit FilesystemError :=
  if bool_decide (cf_erasure_code r = Some true) then
    then_check (reject_if (cf_replicas r <? 2)%Z "erasure coding requires replicas >= 2")
      (reject_if (Z.of_nat (length (cf_devices r)) <? cf_replicas r + 1)%Z
        ("erasure coding with " ++ fmt_Z (cf_replicas r) ++ " replicas requires at least "
         ++ fmt_Z ((cf_replicas r + 1) mod 2 ^ 32) ++ " devices (got " ++ fmt_nat (length (cf_devices r)) ++ ")"))
  else Ok tt.

Definition validate_create_request (r : CreateFilesystemRequest) : result unit FilesystemError :=
  then_check (validate_create_name (cf_name r))
 (then_check (if bool_decide (cf_devices r = []) then Err FsNoDevices else Ok tt)
 (then_check (match cf_compression r with Some c => map_err FsInvalidInput (validate_compression c) | None => Ok tt end)
 (then_check (reject_if (bool_decide (cf_encryption r = Some true) && (default "" (cf_passphrase r) =s "")) "passphrase is required when encryption=true")
 (then_check (reject_if (cf_replicas r =? 0)%Z "replicas must be at least 1")
 (then_check (check_all validate_device (cf_devices r))
 (then_check (reject_if (total_durability (cf_devices r) <? cf_replicas r)%Z
    (fmt_Z (cf_replicas r) ++ " replicas require at least that much total device durability (got "
     ++ fmt_Z (total_durability (cf_devices r)) ++ ")"))
 (then_check (validate_erasure r)
 (then_check (check_all (given validate_create_label)
    [("filesystem label", cf_label r); ("foreground target", cf_foreground_target r); ("metadata target", cf_metadata_target r);
     ("background target", cf_background_target r); ("promote target", cf_promote_target r)])
 (then_check (check_all (validate_target r) (tiering_targets r))
 (then_check (check_all (given validate_checksum) [("data_checksum", cf_data_checksum r); ("metadata_checksum", cf_metadata_checksum r)])
 (then_check (check_all (given validate_size) [("bucket_size", cf_bucket_size r); ("encoded_extent_max", cf_encoded_extent_max r)])
    (given (fun _ value => reject_if (negb (matches value ["compatible"; "incompatible"; "none"]))
                             ("invalid version_upgrade value '" ++ value ++ "'")) ("", cf_version_upgrade r))))))))))))).

(** ** Devices that are in use *)

(** The first reason not to touch one device. *)
Definition usage_of (swaps : gset string) (reject_signatures : bool) (n : PreflightBlockDevice) : option string :=
  if pd_read_only n then Some (pd_path n ++ " is read-only")
  else
    match pd_mount_points n with
    | mount :: _ => Some (pd_path n ++ " is mounted at " ++ mount)
    | [] =>
        if bool_decide (devno n ∈ swaps) then Some (pd_path n ++ " is active swap")
        else if negb (bool_decide (pd_holders n = [])) then Some (pd_path n ++ " is held by " ++ String.concat ", " (pd_holders n))
        else if reject_signatures then (fun t => pd_path n ++ " contains a " ++ t ++ " signature") <$> pd_fs_type n
        else None
    end.

Fixpoint first_usage (swaps : gset string) (reject_signatures : bool) (l : list PreflightBlockDevice) : option string :=
  match l with
  | [] => None
  | n :: l => match usage_of swaps reject_signatures n with Some r => Some r | None => first_usage swaps reject_signatures l end
  end.

Definition node_usage_error (inv : BlockInventory) (node : PreflightBlockDevice) (swaps : gset string)
    (include_descendants reject_signatures : bool) : option string :=
  first_usage swaps reject_signatures (node :: if include_descendants then descendants inv node else []).

Definition in_use (node : PreflightBlockDevice) (reason : string) : FilesystemError :=
  FsDeviceInUse (pd_path node ++ " (" ++ reason ++ ")").

Definition validate_existing_create_target (inv : BlockInventory) (node : PreflightBlockDevice) (swaps : gset string) : result unit FilesystemError :=
  if negb ((dev_type node =s "disk") || (dev_type node =s "part"))
  then Err (FsInvalidInput (pd_path node ++ " is a " ++ dev_type node ++ " device, not a disk or partition"))
  else
    match node_usage_error inv node swaps true true with
    | Some reason => Err (in_use node reason)
    | None =>
        if (dev_type node =s "disk") && (negb (bool_decide (pd_children node = ∅)) || is_some (pd_partition_table_type node))
        then Err (in_use node "whole disk has a partition table or child devices")
        else reject_if (bi_size_bytes (pd_identity node) =? 0)%Z (pd_path node ++ " reports zero capacity")
    end.

Definition validate_free_space_parent (inv : BlockInventory) (node : PreflightBlockDevice) (swaps : gset string) : result unit FilesystemError :=
  if negb (dev_type node =s "disk")
  then Err (FsInvalidInput (pd_path node ++ ":free requires a whole disk, got " ++ dev_type node))
  else if negb (bool_decide (pd_partition_table_type node = Some "gpt"))
  then Err (FsInvalidInput (pd_path node ++ ":free requires an existing GPT partition table"))
  else match node_usage_error inv node swaps false true with
       | Some reason => Err (in_use node reason)
       | None => Ok tt
       end.

Definition target_containing_disk (inv : BlockInventory) (node : PreflightBlockDevice) : option string :=
  if dev_type node =s "disk" then Some (devno node)
  else bi_parent_devno (pd_identity node) ≫= fun parent =>
       iv_devices inv !! parent ≫= fun p => if dev_type p =s "disk" then Some parent else None.

(** The device that a plan was made for is still that device. *)
Definition identity_changed (expected : BlockIdentity) (current : option PreflightBlockDevice) (path : string) : result unit FilesystemError :=
  match current with
  | None => Err (FsInvalidInput ("device " ++ path ++ " disappeared after preflight; no changes were made"))
  | Some c =>
      reject_if (negb (bool_decide (pd_identity c = expected)))
        ("device " ++ path ++ " changed after preflight; refusing destructive operation")
  end.

Definition partition_device_path (disk_path : string) (number : Z) : string :=
  match rev_string disk_path with
  | String c _ => if is_digit c then disk_path ++ "p" ++ fmt_Z number else disk_path ++ fmt_Z number
  | EmptyString => disk_path ++ fmt_Z number
  end.

(** [checked_mul] on [u64]. *)
Definition checked_mul (a b : Z) : option Z := if (a * b <=? u64_max)%Z then Some (a * b)%Z else None.

Definition sectors_in (start_sector end_sector : Z) : Z := wrapping_add (wrapping_sub end_sector start_sector) 1.

Definition verify_created_partition (inv : BlockInventory) (parent : BlockIdentity) (number start_sector end_sector : Z) (path : string)
    : result BlockIdentity FilesystemError :=
  match get_path inv path with
  | None => Err (FsCommandFailed ("created partition " ++ path ++ " did not appear in the kernel device inventory"))
  | Some node =>
      match checked_mul (sectors_in start_sector end_sector) (bi_logical_sector_bytes parent),
            checked_mul start_sector (bi_logical_sector_bytes parent / 512) with
      | None, _ => Err (FsInvalidInput "partition size overflow")
      | Some _, None => Err (FsInvalidInput "partition start overflow")
      | Some expected_size, Some expected_start =>
          let i := pd_identity node in
          if bool_decide (bi_dev_type i = "part") && bool_decide (bi_parent_devno i = Some (bi_devno parent))
             && bool_decide (bi_partition_number i = Some number) && bool_decide (bi_start_512_sector i = Some expected_start)
             && (bi_size_bytes i =? expected_size)%Z
          then Ok i
          else Err (FsInvalidInput ("created node " ++ path ++ " does not match planned partition " ++ fmt_Z number ++ " ("
                      ++ fmt_Z start_sector ++ "-" ++ fmt_Z end_sector ++ "); refusing to format it"))
      end
  end.

(** ** sgdisk *)

Definition parse_sgdisk_sector (output what : string) : result Z FilesystemError :=
  match omap (fun line => parse_unsigned u64_max (trim line)) (lines output) with
  | n :: _ => Ok n
  | [] => Err (FsCommandFailed ("sgdisk returned no " ++ what ++ " sector"))
  end.

Definition parse_sgdisk_partition_numbers (output : string) : gset Z :=
  list_to_set (omap (fun line =>
    match split_whitespace line with
    | number :: start :: end_ :: _ =>
        parse_unsigned u32_max number ≫= fun n =>
        parse_unsigned u64_max start ≫= fun _ => parse_unsigned u64_max end_ ≫= fun _ => Some n
    | _ => None
    end) (lines output)).

(** ** The arguments of the format *)

Definition option_args (l : list (string * option string)) : list string :=
  omap (fun x => (fun v => "--" ++ x.1 ++ "=" ++ v) <$> x.2) l.

Definition flag_arg (b : bool) (a : string) : list string := if b then [a] else [].

Definition device_args (r : CreateFilesystemRequest) (d : DeviceSpec) : list string :=
  (match ds_label d with
   | Some l => [("--label=" ++ l)%string]
   | None => flag_arg (negb (bool_decide (tiering_targets r = []))) ("--label=" ++ default_label r)
   end ++
   match ds_durability d with Some n => [("--durability=" ++ fmt_Z n)%string] | None => [] end ++ [ds_path d])%list.

Definition build_create_format_args (r : CreateFilesystemRequest) (devices : list DeviceSpec) : list string :=
  (["format"; ("--fs_label=" ++ cf_name r)%string] ++
   flag_arg (1 <? cf_replicas r)%Z ("--replicas=" ++ fmt_Z (cf_replicas r)) ++
   option_args [("compression", cf_compression r)] ++
   flag_arg (bool_decide (cf_encryption r = Some true)) "--encrypted" ++
   option_args [("foreground_target", cf_foreground_target r); ("metadata_target", cf_metadata_target r);
                ("background_target", cf_background_target r); ("promote_target", cf_promote_target r)] ++
   flag_arg (bool_decide (cf_erasure_code r = Some true)) "--erasure_code" ++
   option_args [("data_checksum", cf_data_checksum r); ("metadata_checksum", cf_metadata_checksum r);
                ("bucket", cf_bucket_size r); ("encoded_extent_max", cf_encoded_extent_max r)] ++
   flat_map (device_args r) devices)%list.

Definition build_mount_opts (o : FsMountOptions) : string :=
  String.concat ","
    (["prjquota"] ++
     match mo_version_upgrade o with
     | Some vu => flag_arg (negb (vu =s "") && negb (vu =s "none")) ("version_upgrade=" ++ vu)
     | None => []
     end ++
     flag_arg (bool_decide (mo_degraded o = Some true)) "degraded" ++
     flag_arg (bool_decide (mo_verbose o = Some true)) "verbose" ++
     flag_arg (bool_decide (mo_fsck o = Some true)) "fsck" ++
     flag_arg (bool_decide (mo_journal_flush_disabled o = Some true)) "journal_flush_disabled" ++
     match mo_journal_flush_delay o with Some d => [("journal_flush_delay=" ++ fmt_Z d)%string] | None => [] end)%list.

(** ** Calls *)

Inductive Dev : Type -> Type :=
(** A program, its arguments and what it reads from its standard input. *)
| Spawn (program : string) (args : list string) (stdin : option string) : Dev (result Finished IoErr)
| ListDir (path : string) : Dev (result (list (result string IoErr)) IoErr)
| Resolve (path : string) : Dev (option string)
| Lstat (path : string) : Dev (result unit IoErr)
| PathExists (path : string) : Dev bool
| MakeDirs (path : string) : Dev (result unit IoErr)
| MakeDir (path : string) : Dev (result unit IoErr)
| RemoveDir (path : string) : Dev (result unit IoErr)
| ReadFile (path : string) : Dev (result string IoErr)
| WriteFile (path text : string) : Dev (result unit IoErr)
| LinkTarget (path : string) : Dev (option string)
| TpmAvailable : Dev bool
| TpmUnseal (path : string) : Dev (result string string)
(** The sealed blob as it is written to its file. *)
| TpmSeal (secret : string) : Dev (result string string)
(** What the service's own listing says about the encryption of a filesystem. *)
| ListedEncrypted (name : string) : Dev (result (option bool) FilesystemError).

Class Machine := { MachineState : Type; machine : forall A, Dev A -> MachineState -> A * MachineState }.
Arguments machine {_ A} _ _.

(** A call that was made, and its answer. *)
Inductive Event : Type := Did (A : Type) (c : Dev A) (a : A) : Event.
Arguments Did {A} c a.

(** The machine, and the calls made so far, the latest first. *)
Record FsWorld `{Machine} := mkFsWorld { fs_machine : MachineState; fs_trace : list Event }.
Arguments mkFsWorld {_} _ _.

Section Create.
Context `{Machine} `{!Codec Json} `{!Codec FsState}.

Abbreviation F := (M FsWorld FilesystemError).

Definition dev {E A} (c : Dev A) : M FsWorld E A := fun w =>
  let '(a, s) := machine c (fs_machine w) in (Ok a, mkFsWorld s (Did c a :: fs_trace w)).

(** [cmd::run_ok] and [cmd::run_ok_stdin]. *)
Definition run_with {E} (program : string) (args : list string) (stdin : option string) : M FsWorld E (result string string) :=
  o <- dev (Spawn program args stdin) ;;
  ret (match o with
       | Err e => Err ("failed to execute " ++ program ++ ": " ++ display_io e)
       | Ok o =>
           if ou_success o then Ok (from_utf8_lossy (ou_stdout o))
           else Err (program ++ " exited with " ++ ou_status o ++ ": " ++ from_utf8_lossy (ou_stderr o))
       end).
Definition run {E} (program : string) (args : list string) : M FsWorld E (result string string) := run_with program args None.
Definition run_or_fail (program : string) (args : list string) : F string :=
  r <- run program args ;; orfail FsCommandFailed r.

(** ** Reading the devices *)

Definition lsblk_args : list string :=
  ["--json"; "--bytes"; "--paths"; "--output";
   "NAME,KNAME,PATH,MAJ:MIN,SIZE,TYPE,PKNAME,FSTYPE,PTTYPE,PTUUID,PARTUUID,PARTN,START,RO,MOUNTPOINTS,LOG-SEC,DISK-SEQ"].

Fixpoint entry_names (l : list (result string IoErr)) : result (list string) IoErr :=
  match l with
  | [] => Ok []
  | Ok n :: l => match entry_names l with Ok ns => Ok (from_utf8_lossy n :: ns) | Err e => Err e end
  | Err e :: _ => Err e
  end.

Definition read_holders (n : PreflightBlockDevice) : F (list string) :=
  let path := "/sys/dev/block/" ++ devno n ++ "/holders" in
  r <- dev (ListDir path) ;;
  entries <- orfail (fun e => FsCommandFailed ("failed to inspect " ++ path ++ ": " ++ display_io e)) r ;;
  orfail FsIo (entry_names entries).

Fixpoint with_holders (l : list (string * PreflightBlockDevice)) (m : gmap string PreflightBlockDevice)
    : F (gmap string PreflightBlockDevice) :=
  match l with
  | [] => ret m
  | (d, n) :: l => hs <- read_holders n ;; with_holders l (<[d := set_holders hs n]> m)
  end.

Definition read_block_inventory : F BlockInventory :=
  output <- run_or_fail "lsblk" lsblk_args ;;
  inv <- lift (parse_lsblk_inventory output) ;;
  devices <- with_holders (map_to_list (iv_devices inv)) (iv_devices inv) ;;
  ret (mkInventory devices (iv_paths inv)).

Fixpoint swap_devices (inv : BlockInventory) (l : list string) (swaps : gset string) : F (gset string) :=
  match l with
  | [] => ret swaps
  | path :: l =>
      canonical <- dev (Resolve path) ;;
      swap_devices inv l
        (match get_path inv (match canonical with Some c => from_utf8_lossy c | None => path end) with
         | Some n => {[devno n]} ∪ swaps
         | None => swaps
         end)
  end.

Definition read_active_swaps (inv : BlockInventory) : F (gset string) :=
  output <- run_or_fail "swapon" ["--show"; "--noheadings"; "--raw"; "--output"; "NAME"] ;;
  swap_devices inv (omap (fun line => non_empty (trim line)) (lines output)) ∅.

Definition signature_args (path : string) : list string := ["--no-act"; "--noheadings"; "--output"; "TYPE"; path].
Definition has_output (output : string) : bool := existsb (fun line => negb (trim line =s "")) (lines output).

Definition has_block_signatures (path : string) : F bool :=
  output <- run_or_fail "wipefs" (signature_args path) ;;
  ret (has_output output).

Definition no_signatures (node : PreflightBlockDevice) (reason : string) : F unit :=
  found <- has_block_signatures (pd_path node) ;;
  throw_if found (in_use node reason).

Definition canonical_block_path (path : string) : F string :=
  r <- dev (Resolve path) ;;
  canonical <- orfail id (ok_or (from_utf8_lossy <$> r) (FsDeviceNotFound path)) ;;
  lift (reject_if (negb (starts_with "/dev/" canonical)) (path ++ " does not resolve to a /dev block device")) ;;;
  ret canonical.

(** ** The plan *)

Definition plan_free_partition (disk : PreflightBlockDevice) : F (Z * Z * Z * string) :=
  let sector := bi_logical_sector_bytes (pd_identity disk) in
  lift (reject_if ((sector <? 512)%Z || negb (sector mod 512 =? 0)%Z)
    (pd_path disk ++ " reports unsupported logical sector size " ++ fmt_Z sector)) ;;;
  first <- run_or_fail "sgdisk" ["--first-aligned-in-largest"; pd_path disk] ;;
  last <- run_or_fail "sgdisk" ["--end-of-largest"; pd_path disk] ;;
  table <- run_or_fail "sgdisk" ["--print"; pd_path disk] ;;
  start_sector <- lift (parse_sgdisk_sector first "first free") ;;
  end_sector <- lift (parse_sgdisk_sector last "last free") ;;
  lift (reject_if (end_sector <? start_sector)%Z (pd_path disk ++ " has no usable contiguous free space")) ;;;
  bytes <- orfail id (ok_or (checked_mul (sectors_in start_sector end_sector) sector) (FsInvalidInput "free-space size overflow")) ;;
  lift (reject_if (bytes <? MIN_CREATE_FREE_BYTES)%Z
    (pd_path disk ++ " has only " ++ fmt_Z bytes ++ " bytes in its largest aligned free extent; at least "
     ++ fmt_Z MIN_CREATE_FREE_BYTES ++ " are required")) ;;;
  let used := parse_sgdisk_partition_numbers table in
  number <- orfail id (ok_or (List.find (fun n => negb (bool_decide (n ∈ used))) (seqZ 1 128))
    (FsInvalidInput (pd_path disk ++ " has no free GPT partition slots"))) ;;
  ret (number, start_sector, end_sector, partition_device_path (pd_path disk) number).

(** [path.strip_suffix(":free")]. *)
Definition strip_free (path : string) : option string := rev_string <$> strip_prefix (rev_string ":free") (rev_string path).

(** A device that was asked for: the specification, whether its free space is meant, the device. *)
Abbreviation Resolved := (DeviceSpec * bool * PreflightBlockDevice)%type.

Definition resolve_spec (inv : BlockInventory) (swaps : gset string) (spec : DeviceSpec) : F Resolved :=
  let '(raw_path, free) := match strip_free (ds_path spec) with Some p => (p, true) | None => (ds_path spec, false) end in
  path <- canonical_block_path raw_path ;;
  node <- orfail id (ok_or (get_path inv path) (FsDeviceNotFound (ds_path spec))) ;;
  (if free : bool then lift (validate_free_space_parent inv node swaps)
   else
     lift (validate_existing_create_target inv node swaps) ;;;
     no_signatures node "existing disk, partition-table, RAID, LVM, or filesystem signature") ;;;
  ret (spec, free, node).

Fixpoint resolve_specs (inv : BlockInventory) (swaps : gset string) (l : list DeviceSpec) : F (list Resolved) :=
  match l with
  | [] => ret []
  | spec :: l => r <- resolve_spec inv swaps spec ;; rs <- resolve_specs inv swaps l ;; ret (r :: rs)
  end.

(** Two selected devices on one disk, one of which is the whole of it. *)
Definition overlaps (inv : BlockInventory) (disk : string) (a b : Resolved) : bool :=
  negb (devno a.2 =s devno b.2) && bool_decide (target_containing_disk inv b.2 = Some disk) &&
  ((negb a.1.2 && (dev_type a.2 =s "disk")) || (negb b.1.2 && (dev_type b.2 =s "disk"))).

Fixpoint check_selection (inv : BlockInventory) (all : list Resolved) (seen : gset string) (l : list Resolved) : result unit FilesystemError :=
  match l with
  | [] => Ok tt
  | r :: l =>
      if bool_decide (devno r.2 ∈ seen)
      then Err (FsInvalidInput (pd_path r.2 ++ " is selected more than once, possibly through aliases"))
      else
        match target_containing_disk inv r.2 with
        | None => Err (FsInvalidInput ("could not determine the parent disk for " ++ pd_path r.2))
        | Some disk =>
            match List.find (overlaps inv disk r) all with
            | Some other => Err (FsInvalidInput (pd_path r.2 ++ " overlaps selected device " ++ pd_path other.2))
            | None => check_selection inv all ({[devno r.2]} ∪ seen) l
            end
        end
  end.

Definition plan_target (r : Resolved) : F CreateTargetPlan :=
  if r.1.2 then
    p <- plan_free_partition r.2 ;;
    let '(number, start_sector, end_sector, path) := p in
    ret (FreeSpace r.1.1 (pd_identity r.2) number start_sector end_sector path)
  else ret (Existing r.1.1 (pd_identity r.2)).

Fixpoint plan_targets (l : list Resolved) : F (list CreateTargetPlan) :=
  match l with
  | [] => ret []
  | r :: l => t <- plan_target r ;; ts <- plan_targets l ;; ret (t :: ts)
  end.

Definition check_tpm (req : CreateFilesystemRequest) : F unit :=
  if bool_decide (cf_bind_to_tpm req = Some true) then
    lift (reject_if (negb (bool_decide (cf_encryption req = Some true))) "bind_to_tpm requires encryption=true") ;;;
    lift (reject_if (bool_decide (cf_store_key req = Some false)) "bind_to_tpm requires store_key=true") ;;;
    available <- dev TpmAvailable ;;
    lift (reject_if (negb available) "bind_to_tpm requested but no TPM2 is available on this host")
  else ret tt.

Definition build_create_plan (req : CreateFilesystemRequest) : F CreateFilesystemPlan :=
  lift (validate_create_request req) ;;;
  check_tpm req ;;;
  let mount_point := MOUNT_BASE ++ "/" ++ cf_name req in
  there <- dev (Lstat mount_point) ;;
  (match there with
   | Ok _ => throw (FsAlreadyExists (cf_name req))
   | Err NotFound => ret tt
   | Err e => throw (FsIo e)
   end) ;;;
  inv <- read_block_inventory ;;
  swaps <- read_active_swaps inv ;;
  resolved <- resolve_specs inv swaps (cf_devices req) ;;
  lift (check_selection inv resolved ∅ resolved) ;;;
  targets <- plan_targets resolved ;;
  ret (mkPlan req targets mount_point).

Definition reserve_create_mount_point (plan : CreateFilesystemPlan) : F unit :=
  r <- dev (MakeDirs MOUNT_BASE) ;;
  orfail FsIo r ;;;
  r <- dev (MakeDir (cp_mount_point plan)) ;;
  match r with
  | Ok _ => ret tt
  | Err AlreadyExists => throw (FsAlreadyExists (cf_name (cp_request plan)))
  | Err e => throw (FsIo e)
  end.

(** ** Before anything is destroyed *)

(** The device with an identity, as it is now. *)
Definition same_device (inv : BlockInventory) (i : BlockIdentity) : result PreflightBlockDevice FilesystemError :=
  let current := get_identity inv i in
  match identity_changed i current (match current with Some n => pd_path n | None => bi_devno i end), current with
  | Err e, _ => Err e
  | Ok _, Some n => Ok n
  | Ok _, None => Err FsNoDevices
  end.

Definition revalidate_source (inv : BlockInventory) (swaps : gset string) (t : CreateTargetPlan) : F unit :=
  match t with
  | Existing _ i =>
      current <- lift (same_device inv i) ;;
      lift (validate_existing_create_target inv current swaps) ;;;
      no_signatures current "a signature appeared after preflight"
  | FreeSpace _ parent _ _ _ _ =>
      current <- lift (same_device inv parent) ;;
      lift (validate_free_space_parent inv current swaps)
  end.

Definition revalidate_create_sources (plan : CreateFilesystemPlan) : F unit :=
  inv <- read_block_inventory ;;
  swaps <- read_active_swaps inv ;;
  for_each (revalidate_source inv swaps) (cp_targets plan).

(** ** Partitions *)

(** The new partition, looked for until it appears. *)
Fixpoint await_partition (tries : nat) (parent : BlockIdentity) (number start_sector end_sector : Z) (path : string) : F (option BlockIdentity) :=
  match tries with
  | O => ret None
  | S tries =>
      inv <- read_block_inventory ;;
      match get_path inv path with
      | Some _ => i <- lift (verify_created_partition inv parent number start_sector end_sector path) ;; ret (Some i)
      | None => await_partition tries parent number start_sector end_sector path
      end
  end.

Definition new_arg (number start_sector end_sector : Z) : string :=
  "--new=" ++ fmt_Z number ++ ":" ++ fmt_Z start_sector ++ ":" ++ fmt_Z end_sector.

Definition set_path (path : string) (s : DeviceSpec) : DeviceSpec := mkSpec path (ds_label s) (ds_durability s).

(** A device of the plan, and the partition that was made for it. *)
Definition execute_target (t : CreateTargetPlan) : F (DeviceSpec * option (string * BlockIdentity)) :=
  match t with
  | Existing spec i =>
      inv <- read_block_inventory ;;
      node <- orfail id (ok_or (get_identity inv i)
        (FsInvalidInput ("device " ++ ds_path spec ++ " disappeared after preflight"))) ;;
      ret (set_path (pd_path node) spec, None)
  | FreeSpace spec parent number start_sector end_sector path =>
      inv <- read_block_inventory ;;
      swaps <- read_active_swaps inv ;;
      disk <- lift (same_device inv parent) ;;
      lift (validate_free_space_parent inv disk swaps) ;;;
      run_or_fail "sgdisk" [new_arg number start_sector end_sector; pd_path disk] ;;;
      run "partprobe" [pd_path disk] ;;;
      run "udevadm" ["settle"] ;;;
      created <- await_partition 10 parent number start_sector end_sector path ;;
      i <- orfail id (ok_or created (FsCommandFailed ("created partition " ++ path ++ " did not appear after partprobe"))) ;;
      ret (set_path path spec, Some (path, i))
  end.

Fixpoint execute_targets (l : list CreateTargetPlan) : F (list DeviceSpec * list (string * BlockIdentity)) :=
  match l with
  | [] => ret ([], [])
  | t :: l =>
      d <- execute_target t ;;
      rest <- execute_targets l ;;
      ret (d.1 :: rest.1, match d.2 with Some c => c :: rest.2 | None => rest.2 end)
  end.

Definition wipe_created (created : string * BlockIdentity) : F unit :=
  let '(path, expected) := created in
  inv <- read_block_inventory ;;
  swaps <- read_active_swaps inv ;;
  let current := get_path inv path in
  lift (identity_changed expected current path) ;;;
  (match current ≫= fun n => node_usage_error inv n swaps true false with
   | Some reason => throw (FsDeviceInUse (path ++ " (" ++ reason ++ ")"))
   | None => ret tt
   end) ;;;
  run_or_fail "wipefs" ["--all"; "--force"; path] ;;;
  ret tt.

Definition execute_partition_plan (plan : CreateFilesystemPlan) : F (list DeviceSpec) :=
  revalidate_create_sources plan ;;;
  done <- execute_targets (cp_targets plan) ;;
  for_each wipe_created done.2 ;;;
  ret done.1.

Definition revalidate_target (inv : BlockInventory) (swaps : gset string) (x : CreateTargetPlan * DeviceSpec) : F unit :=
  let '(t, device) := x in
  node <- orfail id (ok_or (get_path inv (ds_path device)) (FsDeviceNotFound (ds_path device))) ;;
  (match t with
   | Existing _ i => lift (identity_changed i (Some node) (ds_path device))
   | FreeSpace _ parent number start_sector end_sector path =>
       lift (reject_if (negb (path =s ds_path device)) "resolved partition path changed after preflight") ;;;
       lift (verify_created_partition inv parent number start_sector end_sector path) ;;;
       ret tt
   end) ;;;
  lift (validate_existing_create_target inv node swaps) ;;;
  no_signatures node "a signature appeared before format".

Definition revalidate_create_targets (plan : CreateFilesystemPlan) (devices : list DeviceSpec) : F unit :=
  inv <- read_block_inventory ;;
  swaps <- read_active_swaps inv ;;
  for_each (revalidate_target inv swaps) (combine (cp_targets plan) devices).

(** ** What a device holds now *)

Definition is_device_bcachefs (device : string) : F bool :=
  r <- run "blkid" ["-s"; "TYPE"; "-o"; "value"; device] ;;
  ret (match r with Ok s => trim s =s "bcachefs" | Err _ => false end).

Definition get_fs_uuid (device : string) : F (option string) :=
  r <- run "blkid" ["-s"; "UUID"; "-o"; "value"; device] ;;
  match match r with Ok s => non_empty (trim s) | Err _ => None end with
  | Some uuid => ret (Some uuid)
  | None =>
      r <- run "lsblk" ["-no"; "UUID"; device] ;;
      ret (match r with Ok s => non_empty (trim s) | Err _ => None end)
  end.

Fixpoint verify_device_paths_uuid (paths : list string) (expected_uuid : string) : F unit :=
  match paths with
  | [] => ret tt
  | path :: paths =>
      actual <- get_fs_uuid path ;;
      throw_if (negb (bool_decide (actual = Some expected_uuid)))
        (FsCommandFailed ("device " ++ path ++ " no longer belongs to filesystem UUID " ++ expected_uuid ++ "; refusing the operation")) ;;;
      verify_device_paths_uuid paths expected_uuid
  end.

Definition get_mount_usage (mount_point : string) : F (option (Z * Z * Z)) :=
  r <- run "df" ["-B1"; "--output=size,used,avail"; mount_point] ;;
  ret (match r with
       | Err _ => None
       | Ok output =>
           match lines output with
           | _ :: line :: _ =>
               match omap (parse_unsigned u64_max) (split_whitespace line) with
               | [total; used; available] => Some (total, used, available)
               | _ => None
               end
           | _ => None
           end
       end).

(** ** Mounts *)

Definition parse_bcachefs_mount_line (line : string) : option (string * list string) :=
  match split_whitespace line with
  | device :: mount_point :: fstype :: _ => if fstype =s "bcachefs" then Some (mount_point, split ":" device) else None
  | _ => None
  end.

Definition by_uuid_source (devices : list string) : option string :=
  match devices with [only] => strip_prefix "/dev/disk/by-uuid/" only | _ => None end.

(** [Path::file_name] of a link's target. *)
Definition base_name (path : string) : option string :=
  match list.last (components path) with Some n => if n =s ".." then None else Some n | None => None end.

Fixpoint sysfs_members (fs_dir : string) (l : list (result string IoErr)) : F (list (Z * string)) :=
  match l with
  | [] => ret []
  | Ok name :: l =>
      match strip_prefix "dev-" name ≫= parse_unsigned u32_max with
      | Some idx =>
          target <- dev (LinkTarget (fs_dir ++ "/" ++ name ++ "/block")) ;;
          rest <- sysfs_members fs_dir l ;;
          ret (match target ≫= base_name with
               | Some n => if valid_utf8 n then (idx, "/dev/" ++ n) :: rest else rest
               | None => rest
               end)
      | None => sysfs_members fs_dir l
      end
  | Err _ :: l => sysfs_members fs_dir l
  end.

Definition member_before (a b : Z * string) : Prop := (a.1 <= b.1)%Z.
#[local] Instance member_before_dec a b : Decision (member_before a b) := decide (a.1 <= b.1)%Z.

Definition sysfs_fs_members (base uuid : string) : F (option (list string)) :=
  let fs_dir := base ++ "/" ++ uuid in
  r <- dev (ListDir fs_dir) ;;
  match r with
  | Err _ => ret None
  | Ok entries =>
      members <- sysfs_members fs_dir entries ;;
      ret (if bool_decide (members = []) then None else Some ((merge_sort member_before members).*2))
  end.

Definition resolve_mount_devices (devices : list string) (sysfs_base : string) : F (list string) :=
  match by_uuid_source devices with
  | Some uuid => r <- sysfs_fs_members sysfs_base uuid ;; ret (default devices r)
  | None => ret devices
  end.

Fixpoint resolve_mounts (l : list (string * list string)) (m : gmap string (list string)) : F (gmap string (list string)) :=
  match l with
  | [] => ret m
  | (mount_point, devices) :: l =>
      ds <- resolve_mount_devices devices "/sys/fs/bcachefs" ;;
      resolve_mounts l (<[mount_point := ds]> m)
  end.

Definition read_bcachefs_mounts : F (gmap string (list string)) :=
  content <- dev (ReadFile "/proc/mounts") ;;
  resolve_mounts (omap parse_bcachefs_mount_line (lines (match content with Ok c => c | Err _ => "" end))) ∅.

Definition mounted_fs_uuid_at (mount_point : string) : F (option string) :=
  mounts <- read_bcachefs_mounts ;;
  match mounts !! mount_point with
  | None => ret None
  | Some devices =>
      match by_uuid_source devices, devices with
      | Some uuid, _ => ret (Some uuid)
      | None, [] => ret None
      | None, first :: _ => u <- get_fs_uuid first ;; ret (u ≫= non_empty)
      end
  end.

(** Looked at again until the deadline, as often as [polls] says. *)
Fixpoint mounted_fs_uuid_after_mount (polls : nat) (mount_point : string) : F (option string) :=
  r <- attempt (mounted_fs_uuid_at mount_point) ;;
  match r with
  | Ok (Some uuid) => ret (Some uuid)
  | _ => match polls with O => ret None | S polls => mounted_fs_uuid_after_mount polls mount_point end
  end.

(** ** Options *)

Definition parse_bcachefs_opt (val : string) : string :=
  match split_once "[" val with
  | Some (_, s) => trim (match split "]" (match split_once "[" s with Some (a, _) => a | None => s end) with a :: _ => a | [] => s end)
  | None => val
  end.

Definition read_opt (base name : string) : F (option string) :=
  r <- dev (ReadFile (base ++ "/" ++ name)) ;;
  ret (match r with
       | Ok s => let v := parse_bcachefs_opt (trim s) in if matches v [""; "none"; "(none)"] then None else Some v
       | Err _ => None
       end).
Definition read_opt_u32 (base name : string) : F (option Z) := r <- read_opt base name ;; ret (r ≫= parse_unsigned u32_max).
Definition read_opt_bool (base name : string) : F (option bool) :=
  r <- read_opt base name ;; ret ((fun s => (s =s "1") || (s =s "true")) <$> r).

Definition no_options : FilesystemOptions :=
  mkFsOptions None None None None None None None None None None None None None None None None None None None None None None None.

Definition read_fs_options_sysfs (uuid : string) : F FilesystemOptions :=
  if uuid =s "" then ret no_options
  else
    let base := "/sys/fs/bcachefs/" ++ uuid ++ "/options" in
    compression <- read_opt base "compression" ;;
    background_compression <- read_opt base "background_compression" ;;
    data_replicas <- read_opt_u32 base "data_replicas" ;;
    metadata_replicas <- read_opt_u32 base "metadata_replicas" ;;
    data_checksum <- read_opt base "data_checksum" ;;
    metadata_checksum <- read_opt base "metadata_checksum" ;;
    foreground_target <- read_opt base "foreground_target" ;;
    background_target <- read_opt base "background_target" ;;
    promote_target <- read_opt base "promote_target" ;;
    metadata_target <- read_opt base "metadata_target" ;;
    erasure_code <- read_opt_bool base "erasure_code" ;;
    encrypted <- read_opt_bool base "encrypted" ;;
    error_action <- read_opt base "errors" ;;
    version_upgrade <- read_opt base "version_upgrade" ;;
    journal_flush_delay <- read_opt_u32 base "journal_flush_delay" ;;
    move_ios_in_flight <- read_opt_u32 base "move_ios_in_flight" ;;
    move_bytes_in_flight <- read_opt base "move_bytes_in_flight" ;;
    ret (mkFsOptions compression background_compression data_replicas metadata_replicas data_checksum metadata_checksum
      foreground_target background_target promote_target metadata_target erasure_code encrypted None None error_action
      version_upgrade None None None None journal_flush_delay move_ios_in_flight move_bytes_in_flight).

(** ** The state file *)

Definition load_fs_state_strict : F FsState :=
  r <- dev (ReadFile FS_STATE_PATH) ;;
  match r with
  | Ok content => orfail (fun e => FsCommandFailed ("parse " ++ FS_STATE_PATH ++ " failed: " ++ e)) (decode content)
  | Err NotFound => ret ∅
  | Err e => throw (FsCommandFailed ("read " ++ FS_STATE_PATH ++ " failed: " ++ display_io e))
  end.

Definition load_fs_state : F FsState :=
  r <- attempt load_fs_state_strict ;;
  ret (match r with Ok s => s | Err _ => ∅ end).

Definition save_fs_state (state : FsState) : F unit :=
  json <- orfail FsCommandFailed (encode state) ;;
  r <- dev (WriteFile FS_STATE_PATH json) ;;
  orfail FsIo r.

Definition set_mounted (b : bool) (o : FsMountOptions) : FsMountOptions :=
  mkMountOptions (mo_uuid o) (mo_devices o) (Some b) (mo_encrypted o) (mo_version_upgrade o) (mo_degraded o) (mo_verbose o)
    (mo_fsck o) (mo_journal_flush_disabled o) (mo_journal_flush_delay o) (mo_legacy_io_scheduler o).

(** A failure to save is only logged. *)
Definition save_fs_mounted_with_opts (name : string) (opts : FsMountOptions) : F unit :=
  state <- load_fs_state ;;
  attempt (E := FilesystemError) (save_fs_state (<[name := set_mounted true opts]> state)) ;;;
  ret tt.

(** ** Keys *)

Definition sealed_path_of (name : string) : string := KEYS_DIR ++ "/" ++ name ++ "." ++ TPM_SEALED_SUFFIX.
Definition key_path_of (name : string) : string := KEYS_DIR ++ "/" ++ name ++ ".key".

Definition read_plain_key (name : string) : F (option string) :=
  there <- dev (PathExists (key_path_of name)) ;;
  if there : bool then
    r <- dev (ReadFile (key_path_of name)) ;;
    bytes <- orfail (fun e => FsCommandFailed ("read key for '" ++ name ++ "' at " ++ key_path_of name ++ ": " ++ display_io e)) r ;;
    ret (Some bytes)
  else ret None.

Definition read_unlock_key (name : string) : F (option string) :=
  sealed <- dev (PathExists (sealed_path_of name)) ;;
  if sealed : bool then
    r <- dev (TpmUnseal (sealed_path_of name)) ;;
    match r with Ok bytes => ret (Some bytes) | Err _ => read_plain_key name end
  else read_plain_key name.

Definition unlock_with (device stdin : string) : F unit :=
  r <- run_with "bcachefs" ["unlock"; "-k"; "session"; device] (Some stdin) ;;
  orfail FsCommandFailed r ;;;
  ret tt.

Definition bcachefs_unlock_with_key (device key : string) : F unit :=
  unlock_with device (if ends_with newline key then key else key ++ newline).

Definition tpm_status (name : string) : F (bool * bool) :=
  available <- dev TpmAvailable ;;
  bound <- dev (PathExists (sealed_path_of name)) ;;
  ret (available, bound).

Definition tpm_bind (name : string) : F (bool * bool) :=
  r <- dev (ListedEncrypted name) ;;
  encrypted <- lift r ;;
  lift (reject_if (negb (bool_decide (encrypted = Some true))) ("filesystem '" ++ name ++ "' is not encrypted")) ;;;
  available <- dev TpmAvailable ;;
  throw_if (negb available) (FsCommandFailed "TPM2 not available on this host") ;;;
  r <- dev (ReadFile (key_path_of name)) ;;
  plaintext <- orfail (fun e => FsCommandFailed ("no stored key for '" ++ name ++ "' at " ++ key_path_of name ++ ": "
    ++ display_io e ++ " — bind requires an existing .key")) r ;;
  r <- dev (TpmSeal plaintext) ;;
  json <- orfail (fun e => FsCommandFailed ("tpm seal: " ++ e)) r ;;
  r <- dev (WriteFile (sealed_path_of name) json) ;;
  orfail (fun e => FsCommandFailed ("write " ++ sealed_path_of name ++ ": " ++ display_io e)) r ;;;
  tpm_status name.

(** ** create *)

(** The path of the first device: a plan has at least one. *)
Definition first_path (l : list DeviceSpec) : string := match l with d :: _ => ds_path d | [] => "" end.

(** The mount point goes when the program in front of it fails. *)
Definition or_remove_dir {A} (mount_point : string) (m : F A) : F A :=
  r <- attempt m ;;
  match r with
  | Ok a => ret a
  | Err e => dev (RemoveDir mount_point) ;;; throw e
  end.

Definition run_format (args : list string) (stdin : option string) (first : string) : F unit :=
  r <- dev (Spawn "bcachefs" args stdin) ;;
  o <- orfail (fun e => FsCommandFailed ("failed to execute bcachefs: " ++ display_io e)) r ;;
  if ou_success o then ret tt
  else
    formatted <- is_device_bcachefs first ;;
    throw_if (negb formatted) (FsCommandFailed ("bcachefs exited with " ++ ou_status o ++ ": " ++ from_utf8_lossy (ou_stderr o))).

Definition store_key (req : CreateFilesystemRequest) (passphrase : string) : F unit :=
  if bool_decide (cf_store_key req = Some false) then ret tt
  else
    r <- dev (MakeDirs KEYS_DIR) ;;
    orfail FsIo r ;;;
    r <- dev (WriteFile (key_path_of (cf_name req)) passphrase) ;;
    orfail FsIo r.

Definition is_encrypted (req : CreateFilesystemRequest) : bool := bool_decide (cf_encryption req = Some true).

(** [bcachefs format]: the passphrase is read twice. *)
Definition format_devices (req : CreateFilesystemRequest) (mount_point : string) : F unit :=
  let passphrase := default "" (cf_passphrase req) in
  let stdin := if is_encrypted req then Some (passphrase ++ newline ++ passphrase ++ newline) else None in
  or_remove_dir mount_point
    (run_format (build_create_format_args req (cf_devices req)) stdin (first_path (cf_devices req))) ;;;
  if is_encrypted req then store_key req passphrase else ret tt.

Definition unlock_created (req : CreateFilesystemRequest) : F unit :=
  if is_encrypted req then
    key <- read_unlock_key (cf_name req) ;;
    match key, cf_passphrase req with
    | Some bytes, _ => bcachefs_unlock_with_key (first_path (cf_devices req)) bytes
    | None, Some passphrase => unlock_with (first_path (cf_devices req)) (passphrase ++ newline)
    | None, None => ret tt
    end
  else ret tt.

Definition mount_options (req : CreateFilesystemRequest) : FsMountOptions :=
  mkMountOptions None [] None (if is_encrypted req then Some true else None) (cf_version_upgrade req) None None None None
    (cf_journal_flush_delay req) None.

Definition mount_created (polls : nat) (req : CreateFilesystemRequest) (mount_point uuid : string) : F unit :=
  run_or_fail "bcachefs" ["mount"; "-o"; build_mount_opts (mount_options req);
                          String.concat ":" (ds_path <$> cf_devices req); mount_point] ;;;
  mounted <- mounted_fs_uuid_after_mount polls mount_point ;;
  if bool_decide (mounted = Some uuid) then ret tt
  else
    rollback <- run "umount" [mount_point] ;;
    throw (FsCommandFailed ("mounted filesystem UUID did not match expected UUID " ++ uuid
      ++ match rollback with Err e => "; rollback unmount also failed: " ++ e | Ok _ => "" end)).

Definition saved_options (req : CreateFilesystemRequest) (uuid : string) : FsMountOptions :=
  let o := mount_options req in
  mkMountOptions (Some uuid) (ds_path <$> cf_devices req) (mo_mounted o) (mo_encrypted o) (mo_version_upgrade o) (mo_degraded o)
    (mo_verbose o) (mo_fsck o) (mo_journal_flush_disabled o) (mo_journal_flush_delay o) (mo_legacy_io_scheduler o).

Definition created_device (d : DeviceSpec) : FilesystemDevice :=
  mkFsDevice (ds_path d) (ds_label d) (ds_durability d) (Some "rw") None None None None None None None None None None.

Definition bind_created (req : CreateFilesystemRequest) : F unit :=
  if bool_decide (cf_bind_to_tpm req = Some true) then
    r <- attempt (tpm_bind (cf_name req)) ;;
    match r with
    | Ok _ => ret tt
    | Err e => throw (FsCommandFailed ("filesystem '" ++ cf_name req ++ "' created but TPM seal failed: " ++ display_fs_error e))
    end
  else ret tt.

(** What follows the format. *)
Definition finish_create (polls : nat) (req : CreateFilesystemRequest) (mount_point : string) : F Filesystem :=
  u <- get_fs_uuid (first_path (cf_devices req)) ;;
  uuid <- orfail id (ok_or (u ≫= non_empty) (FsCommandFailed ("filesystem '" ++ cf_name req
    ++ "' was formatted, but its UUID could not be verified; refusing to mount it"))) ;;
  verify_device_paths_uuid (ds_path <$> cf_devices req) uuid ;;;
  unlock_created req ;;;
  mount_created polls req mount_point uuid ;;;
  save_fs_mounted_with_opts (cf_name req) (saved_options req uuid) ;;;
  usage <- get_mount_usage mount_point ;;
  bind_created req ;;;
  options <- read_fs_options_sysfs uuid ;;
  let '(total, used, available) := default (0, 0, 0)%Z usage in
  ret (mkFilesystem (cf_name req) uuid (created_device <$> cf_devices req) (Some mount_point) true total used available options).

(** Everything before the format: the plan, and the request with the devices it is carried out on. *)
Definition prepare_create (req : CreateFilesystemRequest) : F (CreateFilesystemRequest * string) :=
  plan <- build_create_plan req ;;
  let req := cp_request plan in
  state <- load_fs_state ;;
  throw_if (is_some (state !! cf_name req)) (FsAlreadyExists (cf_name req)) ;;;
  reserve_create_mount_point plan ;;;
  devices <- or_remove_dir (cp_mount_point plan) (execute_partition_plan plan) ;;
  or_remove_dir (cp_mount_point plan) (revalidate_create_targets plan devices) ;;;
  ret (set_devices devices req, cp_mount_point plan).

Definition create (polls : nat) (req : CreateFilesystemRequest) : F Filesystem :=
  p <- prepare_create req ;;
  format_devices p.1 p.2 ;;;
  finish_create polls p.1 p.2.

End Create.
