(* ===== verification/FilesystemProps.v ===== *)
(** * What creating a filesystem may destroy

    Whatever the programs answer, [create] formats only devices that were unused
    when the engine last looked, and looks just before it formats; it wipes only
    partitions that it made itself. The witnesses at the end create a filesystem
    on the free space of a disk. *)
From Stdlib Require Import String Ascii ZArith.
From stdpp Require Import base list gmap strings numbers sorting.
From S2P Require Import Prelude RustStr Disk StateStore JsonRpc Router ConfigFs BlockWorld Iscsi NvmeofService FileShare Subvolume Filesystem.

Open Scope string_scope.
Open Scope rust_scope.

(** ** Devices and what is stacked on them *)

(** A device, its partitions, what is built on those, and so on. *)
Inductive stacked (inv : BlockInventory) (root : PreflightBlockDevice) : PreflightBlockDevice -> Prop :=
| stacked_self : stacked inv root root
| stacked_child a d n : stacked inv root a -> d ∈ pd_children a -> iv_devices inv !! d = Some n -> stacked inv root n.

(** Nobody uses a device. *)
Definition idle (swaps : gset string) (n : PreflightBlockDevice) : Prop :=
  pd_read_only n = false /\ pd_mount_points n = [] /\ (devno n ∉ swaps) /\ pd_holders n = [].

(** A device that may be formatted. *)
Record unused (inv : BlockInventory) (swaps : gset string) (node : PreflightBlockDevice) : Prop := mkUnused {
  un_kind : dev_type node = "disk" \/ dev_type node = "part";
  un_size : bi_size_bytes (pd_identity node) <> 0%Z;
  un_idle : forall n, stacked inv node n -> idle swaps n /\ pd_fs_type n = None;
  un_whole : dev_type node = "disk" -> pd_children node = ∅ /\ pd_partition_table_type node = None
}.

(** A partition of a disk with a number, from one logical sector to another. *)
Record partition_of (parent : BlockIdentity) (number start_sector end_sector : Z) (i : BlockIdentity) : Prop := mkPartitionOf {
  po_type : bi_dev_type i = "part";
  po_parent : bi_parent_devno i = Some (bi_devno parent);
  po_number : bi_partition_number i = Some number;
  po_start : bi_start_512_sector i = Some (start_sector * (bi_logical_sector_bytes parent / 512))%Z;
  po_size : bi_size_bytes i = (sectors_in start_sector end_sector * bi_logical_sector_bytes parent)%Z
}.

Section Stack.
Context (inv : BlockInventory).
Implicit Types (n root : PreflightBlockDevice) (seen : gset string).

(** What may still be pushed by devices that were not seen. *)
Definition left_over seen : nat := pushes (filter (fun x => x.1 ∉ seen) (iv_devices inv)).

Lemma pushes_delete (m : gmap string PreflightBlockDevice) d n : m !! d = Some n ->
  pushes m = (size (pd_children n) + pushes (delete d m))%nat.
Proof. intros Hd. unfold pushes. apply (map_fold_delete_L (fun _ n acc => size (pd_children n) + acc)%nat 0%nat d n m); [intros; lia|done]. Qed.

Lemma left_over_seen seen d : d ∉ seen ->
  left_over seen = (match iv_devices inv !! d with Some n => size (pd_children n) | None => 0 end + left_over ({[d]} ∪ seen))%nat.
Proof.
  intros Hd. unfold left_over.
  assert (filter (fun x => x.1 ∉ ({[d]} ∪ seen : gset string)) (iv_devices inv) = delete d (filter (fun x => x.1 ∉ seen) (iv_devices inv))) as ->.
  { apply map_eq. intros k. apply option_eq. intros n.
    rewrite lookup_delete_Some, !map_lookup_filter_Some. cbn. set_solver. }
  destruct (iv_devices inv !! d) as [n|] eqn:E.
  - apply pushes_delete. by apply map_lookup_filter_Some.
  - rewrite delete_id; [done|]. by apply map_lookup_filter_None; left.
Qed.

(** The loop ends up with a set that is closed under children, and has found its devices. *)
Lemma visit_closed fuel : forall pending seen found, (length pending + left_over seen <= fuel)%nat ->
  exists all : gset string, (forall d, d ∈ pending \/ d ∈ seen -> d ∈ all) /\ found ⊆ visit fuel inv pending seen found /\
  forall d n, d ∈ all -> d ∉ seen -> iv_devices inv !! d = Some n -> n ∈ visit fuel inv pending seen found /\ pd_children n ⊆ all.
Proof.
  induction fuel as [|fuel IH]; intros [|d pending] seen found Hf; cbn [visit]; cbn in Hf; try (exists seen; set_solver); try lia.
  case_bool_decide as Hd.
  - destruct (IH pending seen found) as (all & H1 & H2 & H3); [lia|]. exists all. split; [set_solver|done].
  - pose proof (left_over_seen seen d Hd) as Hl. destruct (iv_devices inv !! d) as [node|] eqn:E.
    + destruct (IH (elements (pd_children node) ++ pending)%list ({[d]} ∪ seen) (found ++ [node])%list) as (all & H1 & H2 & H3).
      { rewrite length_app. unfold size, set_size in Hl. cbn in Hl. lia. }
      exists all. split_and!; [set_solver|set_solver|]. intros d' n Hin Hns Hn.
      destruct (decide (d' = d)) as [->|Hne]; [|by apply (H3 d'); set_solver]. simplify_eq.
      split; [set_solver|]. intros c Hc. apply H1. left. set_solver.
    + destruct (IH pending ({[d]} ∪ seen) found) as (all & H1 & H2 & H3); [lia|].
      exists all. split_and!; [set_solver|done|]. intros d' n Hin Hns Hn.
      destruct (decide (d' = d)) as [->|Hne]; [by simplify_eq|]. by apply (H3 d'); set_solver.
Qed.

Lemma left_over_empty : left_over ∅ = pushes (iv_devices inv).
Proof. unfold left_over. f_equal. apply map_filter_id. set_solver. Qed.

(** [descendants] misses nothing. *)
Lemma descendants_complete root n : stacked inv root n -> n = root \/ n ∈ descendants inv root.
Proof.
  destruct (visit_closed (size (pd_children root) + pushes (iv_devices inv)) (elements (pd_children root)) ∅ []) as (all & H1 & _ & H3).
  { rewrite left_over_empty. unfold size, set_size. cbn. lia. }
  change (visit _ _ _ _ _) with (descendants inv root) in H3.
  assert (forall n, stacked inv root n -> (n = root \/ n ∈ descendants inv root) /\ pd_children n ⊆ all) as Hall; [|intros Hs; by apply Hall].
  induction 1 as [|a d m Ha [_ Hc] Hd Hm].
  - split; [by left|]. intros c Hc. apply H1. left. set_solver.
  - destruct (H3 d m) as [Hf Hk]; [set_solver..|done|]. auto.
Qed.

End Stack.

Section Usage.
Context (inv : BlockInventory) (swaps : gset string).

Lemma usage_of_None sigs n : usage_of swaps sigs n = None -> idle swaps n /\ (sigs = true -> pd_fs_type n = None).
Proof.
  unfold usage_of, idle. destruct (pd_read_only n), (pd_mount_points n); try done.
  repeat case_bool_decide; try done. cbn. destruct sigs; [|done]. by destruct (pd_fs_type n).
Qed.

Lemma first_usage_None sigs l : first_usage swaps sigs l = None -> Forall (fun n => usage_of swaps sigs n = None) l.
Proof. induction l as [|n l IH]; cbn; [done|]. destruct (usage_of swaps sigs n) eqn:E; [done|]. intros. constructor; auto. Qed.

Lemma unused_stack node sigs : node_usage_error inv node swaps true sigs = None ->
  forall n, stacked inv node n -> idle swaps n /\ (sigs = true -> pd_fs_type n = None).
Proof.
  unfold node_usage_error. intros H%first_usage_None n Hn. inversion H as [|? ? H0 Hl]; subst.
  apply usage_of_None. destruct (descendants_complete inv node n Hn) as [->|Hin]; [done|]. rewrite list.Forall_forall in Hl. by apply Hl.
Qed.

Lemma validated_unused node : validate_existing_create_target inv node swaps = Ok tt -> unused inv swaps node.
Proof.
  unfold validate_existing_create_target, reject_if. destruct ((_ =s _) || (_ =s _)) eqn:Ek; [|done]. cbn [negb].
  destruct (node_usage_error inv node swaps true true) as [r|] eqn:Eu; [done|].
  destruct ((dev_type node =s "disk") && _) eqn:Ew; [done|]. destruct (_ =? 0)%Z eqn:Es; [done|]. intros _. constructor.
  - apply orb_true_iff in Ek as [?%eqb_spec|?%eqb_spec]; auto.
  - by apply Z.eqb_neq.
  - intros n Hn. destruct (unused_stack node true Eu n Hn). auto.
  - intros Hd. rewrite Hd, String.eqb_refl in Ew. cbn in Ew. apply orb_false_iff in Ew as [Hc Ht].
    apply negb_false_iff, bool_decide_eq_true in Hc. by destruct (pd_partition_table_type node).
Qed.

Lemma verified_partition parent number s e path i : verify_created_partition inv parent number s e path = Ok i ->
  exists node, get_path inv path = Some node /\ i = pd_identity node /\ partition_of parent number s e i.
Proof.
  unfold verify_created_partition. destruct (get_path inv path) as [node|]; [|done].
  unfold checked_mul. destruct (_ <=? _)%Z; [|done]. destruct (_ <=? _)%Z; [|done].
  destruct (_ && _) eqn:E; [|done]. intros [= <-]. exists node. split_and!; [done..|].
  repeat match goal with H : _ && _ = true |- _ => apply andb_true_iff in H as [? ?] end.
  repeat match goal with H : bool_decide _ = true |- _ => apply bool_decide_eq_true in H end.
  constructor; try done. by apply Z.eqb_eq.
Qed.

Lemma unchanged expected current path : identity_changed expected current path = Ok tt ->
  exists node, current = Some node /\ pd_identity node = expected.
Proof.
  unfold identity_changed, reject_if. destruct current as [node|]; [|done]. destruct (bool_decide _) eqn:E; [|done].
  intros _. exists node. split; [done|]. by apply bool_decide_eq_true in E.
Qed.

End Usage.

(** ** Traces *)

(** A program that was run, with its arguments. *)
Definition spawned (ev : Event) : option (string * list string) :=
  match ev with Did c _ => match c with Spawn program args _ => Some (program, args) | _ => None end end.

Definition runs (program : string) (f : string -> bool) (ev : Event) : bool :=
  match spawned ev with Some (p, a :: _) => (p =s program) && f a | _ => false end.

(** The calls that destroy what is on a device. *)
Definition formats : Event -> bool := runs "bcachefs" (fun a => a =s "format").
Definition wipes : Event -> bool := runs "wipefs" (fun a => a =s "--all").
Definition partitions : Event -> bool := runs "sgdisk" (starts_with "--new=").

Definition harmless (ev : Event) : Prop := formats ev = false /\ wipes ev = false /\ partitions ev = false.

(** [justified Q t t']: the trace [t] grew to [t'], and [Q] holds of each call and of the calls before it. *)
Definition justified (Q : Event -> list Event -> Prop) (t t' : list Event) : Prop :=
  exists new, t' = (new ++ t)%list /\ forall l ev e, new = (l ++ ev :: e)%list -> Q ev (e ++ t)%list.

Lemma justified_refl Q t : justified Q t t.
Proof. exists []. split; [done|]. by intros [] ? ?. Qed.

Lemma justified_one (Q : Event -> list Event -> Prop) ev t : Q ev t -> justified Q t (ev :: t).
Proof. intros HQ. exists [ev]. split; [done|]. intros [|x l] ev' e [= <- He]; [by subst|]. by destruct l. Qed.

Lemma justified_trans Q t1 t2 t3 : justified Q t1 t2 -> justified Q t2 t3 -> justified Q t1 t3.
Proof.
  intros (n1 & -> & H1) (n2 & -> & H2). exists (n2 ++ n1)%list. split; [by rewrite (assoc_L (++)%list)|].
  intros l ev e [(k & -> & Hr)|(k & -> & Hr)]%app_eq_inv.
  - destruct k as [|x k]; simplify_list_eq.
    + by apply (H1 [] ev e).
    + by apply (H2 l).
  - by apply (H1 k).
Qed.

Lemma justified_suffix Q t t' : justified Q t t' -> t `suffix_of` t'.
Proof. intros (new & -> & _). by exists new. Qed.

Section Programs.
Context `{Machine} `{!Codec Json} `{!Codec FsState}.
Implicit Types w : FsWorld.

(** The calls that a program makes are justified. *)
Definition does {E A} (Q : Event -> list Event -> Prop) (m : M FsWorld E A) : Prop :=
  forall w, justified Q (fs_trace w) (fs_trace (m w).2).

(** [Q] asks nothing of calls that destroy nothing. *)
Class Lenient (Q : Event -> list Event -> Prop) : Prop := lenient : forall ev t, harmless ev -> Q ev t.

Definition calm_rule (ev : Event) (_ : list Event) : Prop := harmless ev.
#[export] Instance harmless_lenient : Lenient calm_rule.
Proof. by intros ev t. Qed.

Section Does.
Context (Q : Event -> list Event -> Prop).

Lemma does_ret {E A} (a : A) : does Q (ret (E := E) a).
Proof. intros w. apply justified_refl. Qed.
Lemma does_throw {E A} (e : E) : does Q (throw (A := A) e).
Proof. intros w. apply justified_refl. Qed.
Lemma does_lift {E A} (r : result A E) : does Q (lift r).
Proof. intros w. apply justified_refl. Qed.
Lemma does_throw_if {E} b (e : E) : does Q (throw_if b e).
Proof. destruct b; [apply does_throw|apply does_ret]. Qed.
Lemma does_orfail {E F A} (f : F -> E) (r : result A F) : does Q (orfail f r).
Proof. destruct r; [apply does_ret|apply does_throw]. Qed.
Lemma does_bind {E A B} (m : M FsWorld E A) (f : A -> M FsWorld E B) : does Q m -> (forall a, does Q (f a)) -> does Q (bind m f).
Proof.
  intros Hm Hf w. unfold bind. specialize (Hm w). destruct (m w) as [[a|e] w1]; [|done]. eapply justified_trans; [done|apply Hf].
Qed.
Lemma does_attempt {E F A} (m : M FsWorld E A) : does Q m -> does Q (attempt (F := F) m).
Proof. intros Hm w. specialize (Hm w). unfold attempt. by destruct (m w). Qed.
Lemma does_for_each {E A} (f : A -> M FsWorld E unit) l : (forall a, does Q (f a)) -> does Q (for_each f l).
Proof. intros Hf. induction l as [|a l IH]; cbn; [apply does_ret|]. apply does_bind; [apply Hf|done]. Qed.
Lemma does_dev `{!Lenient Q} {E A} (c : Dev A) : (forall a, harmless (Did c a)) -> does Q (dev (E := E) c).
Proof.
  intros Hc w. unfold dev. destruct (machine c (fs_machine w)) as [a s]. cbn. by apply justified_one, lenient.
Qed.
End Does.

Lemma does_mono (P Q : Event -> list Event -> Prop) {E A} (m : M FsWorld E A) : (forall ev t, P ev t -> Q ev t) -> does P m -> does Q m.
Proof. intros HPQ Hm w. destruct (Hm w) as (new & Ht & Hn). exists new. split; [done|]. eauto. Qed.

End Programs.

(** Walk through a program; what is left are loops and calls that destroy. *)
Create HintDb does.
#[export] Hint Extern 0 (Lenient _) => typeclasses eauto : does.
Ltac does_go :=
  repeat first
    [ progress cbn beta iota zeta
    | lazymatch goal with
      | |- does _ (bind _ _) => apply does_bind; [|intros]
      | |- does _ (ret _) => apply does_ret
      | |- does _ (throw _) => apply does_throw
      | |- does _ (throw_if _ _) => apply does_throw_if
      | |- does _ (lift _) => apply does_lift
      | |- does _ (orfail _ _) => apply does_orfail
      | |- does _ (attempt _) => apply does_attempt
      | |- does _ (for_each _ _) => apply does_for_each; intros
      | |- does ?Q (dev ?c) => refine (does_dev Q c _); intros; repeat split
      | |- does _ (match ?x with _ => _ end) => destruct x
      | |- does _ _ => solve [eauto with does]
      end ].

Section Harmless.
Context `{Machine} `{!Codec Json} `{!Codec FsState} (Q : Event -> list Event -> Prop) `{!Lenient Q}.

Lemma does_read_holders n : does Q (read_holders n).
Proof. unfold read_holders. does_go. Qed.
Lemma does_with_holders l : forall m, does Q (with_holders l m).
Proof. induction l as [|[d n] l IH]; intros m; cbn; [does_go|]. apply does_bind; [apply does_read_holders|auto]. Qed.
Hint Resolve does_with_holders : does.
Lemma does_read_block_inventory : does Q read_block_inventory.
Proof. unfold read_block_inventory, run_or_fail, run, run_with. does_go. Qed.
Lemma does_swap_devices inv l : forall s, does Q (swap_devices inv l s).
Proof. induction l as [|p l IH]; intros s; cbn; does_go; auto. Qed.
Hint Resolve does_swap_devices : does.
Lemma does_read_active_swaps inv : does Q (read_active_swaps inv).
Proof. unfold read_active_swaps, run_or_fail, run, run_with. does_go. Qed.
Hint Resolve does_read_block_inventory does_read_active_swaps : does.
Lemma does_no_signatures node reason : does Q (no_signatures node reason).
Proof. unfold no_signatures, has_block_signatures, run_or_fail, run, run_with. does_go. Qed.
Hint Resolve does_no_signatures : does.
Lemma does_resolve_spec inv swaps spec : does Q (resolve_spec inv swaps spec).
Proof. unfold resolve_spec, canonical_block_path. does_go. Qed.
Lemma does_plan_free_partition disk : does Q (plan_free_partition disk).
Proof. unfold plan_free_partition, run_or_fail, run, run_with. does_go. Qed.
Hint Resolve does_resolve_spec does_plan_free_partition : does.
Lemma does_resolve_specs inv swaps l : does Q (resolve_specs inv swaps l).
Proof. induction l; cbn; does_go; auto. Qed.
Lemma does_plan_targets l : does Q (plan_targets l).
Proof. induction l as [|r l IH]; cbn; unfold plan_target; does_go; auto. Qed.
Hint Resolve does_resolve_specs does_plan_targets : does.
Lemma does_build_create_plan req : does Q (build_create_plan req).
Proof. unfold build_create_plan, check_tpm. does_go. Qed.
Lemma does_load_fs_state : does Q load_fs_state.
Proof. unfold load_fs_state, load_fs_state_strict. does_go. Qed.
Lemma does_reserve plan : does Q (reserve_create_mount_point plan).
Proof. unfold reserve_create_mount_point. does_go. Qed.
Lemma does_revalidate_source inv swaps t : does Q (revalidate_source inv swaps t).
Proof. unfold revalidate_source. does_go. Qed.
Hint Resolve does_revalidate_source : does.
Lemma does_revalidate_create_sources plan : does Q (revalidate_create_sources plan).
Proof. unfold revalidate_create_sources. does_go. Qed.
Lemma does_revalidate_target inv swaps x : does Q (revalidate_target inv swaps x).
Proof. unfold revalidate_target. does_go. Qed.
Lemma does_await_partition tries parent n s e path : does Q (await_partition tries parent n s e path).
Proof. induction tries; cbn; does_go; auto. Qed.
Lemma does_is_device_bcachefs d : does Q (is_device_bcachefs d).
Proof. unfold is_device_bcachefs, run, run_with. does_go. Qed.
Lemma does_get_fs_uuid d : does Q (get_fs_uuid d).
Proof. unfold get_fs_uuid, run, run_with. does_go. Qed.
Hint Resolve does_load_fs_state does_get_fs_uuid : does.
Lemma does_verify_paths l uuid : does Q (verify_device_paths_uuid l uuid).
Proof. induction l; cbn; does_go; auto. Qed.
Lemma does_sysfs_members dir l : does Q (sysfs_members dir l).
Proof. induction l as [|[n|e] l IH]; cbn; does_go; auto. Qed.
Hint Resolve does_sysfs_members : does.
Lemma does_resolve_mounts l : forall m, does Q (resolve_mounts l m).
Proof.
  induction l as [|[p ds] l IH]; intros m; cbn; unfold resolve_mount_devices, sysfs_fs_members; does_go; auto.
Qed.
Hint Resolve does_resolve_mounts : does.
Lemma does_mounted_after polls p : does Q (mounted_fs_uuid_after_mount polls p).
Proof. induction polls; cbn; unfold mounted_fs_uuid_at, read_bcachefs_mounts; does_go; auto. Qed.
Lemma does_read_fs_options uuid : does Q (read_fs_options_sysfs uuid).
Proof. unfold read_fs_options_sysfs, read_opt_u32, read_opt_bool, read_opt. does_go. Qed.
Hint Resolve does_verify_paths does_mounted_after does_read_fs_options : does.
Lemma does_finish_create polls req mount_point : does Q (finish_create polls req mount_point).
Proof.
  unfold finish_create, unlock_created, read_unlock_key, read_plain_key, bcachefs_unlock_with_key, unlock_with, mount_created,
    save_fs_mounted_with_opts, save_fs_state, get_mount_usage, bind_created, tpm_bind, tpm_status, run_or_fail, run, run_with.
  does_go.
Qed.
Lemma does_store_key req p : does Q (store_key req p).
Proof. unfold store_key. does_go. Qed.

End Harmless.
#[export] Hint Resolve does_read_block_inventory does_read_active_swaps does_no_signatures does_build_create_plan does_load_fs_state does_reserve
  does_revalidate_create_sources does_revalidate_target does_await_partition does_is_device_bcachefs does_finish_create does_store_key : does.

(** ** What a run says about its devices *)

Section Claims.
Context `{Machine} `{!Codec Json} `{!Codec FsState}.
Implicit Types (w : FsWorld) (t : list Event).

(** A call that was made after [w] and before the end of [t]. *)
Definition during w t (ev : Event) : Prop := exists e, (ev :: e) `suffix_of` t /\ fs_trace w `suffix_of` e.

(** A program that succeeded with an output. *)
Definition reported w t (program : string) (args : list string) (output : string) : Prop :=
  exists o, during w t (Did (Spawn program args None) (Ok o)) /\ ou_success o = true /\ output = from_utf8_lossy (ou_stdout o).

(** The path led to a device in an inventory that was read in the run. *)
Definition asked_for w t (path : string) (P : PreflightBlockDevice -> Prop) : Prop :=
  exists canonical inv wa wb node, during w t (Did (Resolve path) (Some canonical)) /\
    read_block_inventory wa = (Ok inv, wb) /\ fs_trace w `suffix_of` fs_trace wa /\ fs_trace wb `suffix_of` t /\
    get_path inv (from_utf8_lossy canonical) = Some node /\ P node.

(** The sectors are the largest free extent that sgdisk reports, with a number that no partition has. *)
Definition fits w t (disk : PreflightBlockDevice) (number start_sector end_sector : Z) : Prop :=
  exists first last table,
    reported w t "sgdisk" ["--first-aligned-in-largest"; pd_path disk] first /\ parse_sgdisk_sector first "first free" = Ok start_sector /\
    reported w t "sgdisk" ["--end-of-largest"; pd_path disk] last /\ parse_sgdisk_sector last "last free" = Ok end_sector /\
    reported w t "sgdisk" ["--print"; pd_path disk] table /\ number ∉ parse_sgdisk_partition_numbers table /\
    (1 <= number <= 128)%Z /\ (start_sector <= end_sector)%Z /\
    (MIN_CREATE_FREE_BYTES <= sectors_in start_sector end_sector * bi_logical_sector_bytes (pd_identity disk) <= u64_max)%Z.

(** A device as a reading of the devices in the run has it. *)
Definition looked_at w t (node : PreflightBlockDevice) : Prop :=
  exists inv wa wb, read_block_inventory wa = (Ok inv, wb) /\ fs_trace w `suffix_of` fs_trace wa /\ fs_trace wb `suffix_of` t /\
    iv_devices inv !! devno node = Some node.

(** The partition was made in the run, on the device with the given identity. *)
Definition made w t (parent : BlockIdentity) (number start_sector end_sector : Z) : Prop :=
  exists ev disk, during w t ev /\ spawned ev = Some ("sgdisk", [new_arg number start_sector end_sector; pd_path disk]) /\
    pd_identity disk = parent /\ looked_at w t disk.

(** The request names the free space of the disk at this path. *)
Definition names_free (req : CreateFilesystemRequest) (path : string) : Prop :=
  exists spec, spec ∈ cf_devices req /\ strip_free (ds_path spec) = Some path.

(** The devices and swaps are those of the last look; only [checks] were made since. *)
Definition last_look (inv : BlockInventory) (swaps : gset string) (checks : list Event) t : Prop :=
  exists w0 w1 w2, read_block_inventory w0 = (Ok inv, w1) /\ read_active_swaps inv w1 = (Ok swaps, w2) /\ t = (checks ++ fs_trace w2)%list.

Definition signature_check (ev : Event) : Prop := exists path, spawned ev = Some ("wipefs", signature_args path).
Definition found_blank (path : string) (ev : Event) : Prop :=
  exists o, ev = Did (Spawn "wipefs" (signature_args path) None) (Ok o) /\ ou_success o = true /\ has_output (from_utf8_lossy (ou_stdout o)) = false.

(** The device is the one that the request named, or a new partition of the disk that it named. *)
Definition as_asked w t (spec : DeviceSpec) (node : PreflightBlockDevice) : Prop :=
  match strip_free (ds_path spec) with
  | None => asked_for w t (ds_path spec) (fun n => pd_identity node = pd_identity n)
  | Some path => asked_for w t path (fun disk => exists number s e,
      fits w t disk number s e /\ made w t (pd_identity disk) number s e /\ partition_of (pd_identity disk) number s e (pd_identity node))
  end.

Record ready w t inv swaps (checks : list Event) (spec d : DeviceSpec) : Prop := mkReady {
  rd_label : ds_label d = ds_label spec;
  rd_durability : ds_durability d = ds_durability spec;
  rd_device : exists node, get_path inv (ds_path d) = Some node /\ unused inv swaps node /\
                List.Exists (found_blank (pd_path node)) checks /\ as_asked w t spec node
}.

(** Why a format is allowed. *)
Definition may_format w (req : CreateFilesystemRequest) (ev : Event) t : Prop :=
  exists inv swaps checks devices, last_look inv swaps checks t /\ Forall signature_check checks /\
    spawned ev = Some ("bcachefs", build_create_format_args (set_devices devices req) devices) /\
    Forall2 (ready w t inv swaps checks) (cf_devices req) devices.

(** Why wiping a device is allowed. *)
Definition may_wipe w (req : CreateFilesystemRequest) (ev : Event) t : Prop :=
  exists path asked number s e inv swaps node,
    spawned ev = Some ("wipefs", ["--all"; "--force"; path]) /\ names_free req asked /\
    last_look inv swaps [] t /\ get_path inv path = Some node /\
    asked_for w t asked (fun disk => fits w t disk number s e /\ made w t (pd_identity disk) number s e /\
      partition_of (pd_identity disk) number s e (pd_identity node)) /\
    forall n, stacked inv node n -> idle swaps n.

(** Why making a partition is allowed. *)
Definition may_partition w (req : CreateFilesystemRequest) (ev : Event) t : Prop :=
  exists asked number s e inv swaps disk, names_free req asked /\
    spawned ev = Some ("sgdisk", [new_arg number s e; pd_path disk]) /\ last_look inv swaps [] t /\
    iv_devices inv !! devno disk = Some disk /\
    asked_for w t asked (fun n => pd_identity disk = pd_identity n /\ fits w t n number s e) /\
    dev_type disk = "disk" /\ pd_partition_table_type disk = Some "gpt" /\ idle swaps disk /\ pd_fs_type disk = None.

(** A call of [create], judged by what was done before it. *)
Definition allowed w (req : CreateFilesystemRequest) (ev : Event) t : Prop :=
  (formats ev = true -> may_format w req ev t) /\ (wipes ev = true -> may_wipe w req ev t) /\ (partitions ev = true -> may_partition w req ev t).

#[export] Instance allowed_lenient w req : Lenient (allowed w req).
Proof. intros ev t (Hf & Hw & Hp). repeat split; congruence. Qed.

(** ** Longer traces say no less *)

Lemma during_mono w t t' ev : t `suffix_of` t' -> during w t ev -> during w t' ev.
Proof. intros Ht (e & He & Hw). exists e. split; [by etrans|done]. Qed.
Lemma during_here w t ev : fs_trace w `suffix_of` t -> during w (ev :: t) ev.
Proof. intros Ht. by exists t. Qed.
Lemma reported_mono w t t' p args out : t `suffix_of` t' -> reported w t p args out -> reported w t' p args out.
Proof. intros Ht (o & Ho & Hr). exists o. split; [by eapply during_mono|done]. Qed.
Lemma fits_mono w t t' disk n s e : t `suffix_of` t' -> fits w t disk n s e -> fits w t' disk n s e.
Proof. intros Ht (f & l & tb & H1 & H2 & H3 & H4 & H5 & H6). exists f, l, tb. split_and!; try done; try (by eapply reported_mono); tauto. Qed.
Lemma asked_for_mono w t t' path (P P' : PreflightBlockDevice -> Prop) : t `suffix_of` t' -> (forall n, P n -> P' n) ->
  asked_for w t path P -> asked_for w t' path P'.
Proof.
  intros Ht HP (c & inv & wa & wb & n & H1 & H2 & H3 & H4 & H5 & H6). exists c, inv, wa, wb, n.
  split_and!; [by eapply during_mono|done|done|by etrans|done|auto].
Qed.
Lemma looked_at_mono w t t' node : t `suffix_of` t' -> looked_at w t node -> looked_at w t' node.
Proof. intros Ht (inv & wa & wb & H1 & H2 & H3 & H4). exists inv, wa, wb. split_and!; [done..|by etrans|done]. Qed.
Lemma made_mono w t t' i n s e : t `suffix_of` t' -> made w t i n s e -> made w t' i n s e.
Proof. intros Ht (ev & d & Hd & Hs & Hi & Hl). exists ev, d. split_and!; [by eapply during_mono|done..|by eapply looked_at_mono]. Qed.

(** ** Successful programs *)

Lemma bind_ok {W E A B} (m : M W E A) (f : A -> M W E B) (v : W) b v' : bind m f v = (Ok b, v') ->
  exists a v1, m v = (Ok a, v1) /\ f a v1 = (Ok b, v').
Proof. unfold bind. destruct (m v) as [[a|e] v1]; [|done]. eauto. Qed.

Lemma lift_ok {W E A} (r : result A E) (v v' : W) a : lift r v = (Ok a, v') -> r = Ok a /\ v' = v.
Proof. unfold lift. by intros [= -> ->]. Qed.
Lemma orfail_ok {W E F A} (f : F -> E) (r : result A F) (v v' : W) a : orfail f r v = (Ok a, v') -> r = Ok a /\ v' = v.
Proof. destruct r; [|done]. by intros [= -> ->]. Qed.
Lemma ok_or_ok {A E} (o : option A) (e : E) a : ok_or o e = Ok a -> o = Some a.
Proof. destruct o; [|done]. by intros [= ->]. Qed.
Lemma throw_if_ok {W E} b (e : E) (v v' : W) u : throw_if b e v = (Ok u, v') -> b = false /\ v' = v.
Proof. destruct b; [done|]. by intros [= _ ->]. Qed.
Lemma reject_if_ok b msg : reject_if b msg = Ok tt -> b = false.
Proof. by destruct b. Qed.

Lemma dev_ok {E A} (c : Dev A) w a w' : dev (E := E) c w = (Ok a, w') -> fs_trace w' = Did c a :: fs_trace w.
Proof. unfold dev. destruct (machine c (fs_machine w)). by intros [= -> <-]. Qed.

Lemma run_or_fail_ok p args w out w' : run_or_fail p args w = (Ok out, w') ->
  exists o, fs_trace w' = Did (Spawn p args None) (Ok o) :: fs_trace w /\ ou_success o = true /\ out = from_utf8_lossy (ou_stdout o).
Proof.
  unfold run_or_fail, run, run_with. intros (r & w1 & (o & w2 & Ho%dev_ok & [= <- <-])%bind_ok & [Hr ->]%orfail_ok)%bind_ok.
  destruct o as [o|e]; [|done]. destruct (ou_success o) eqn:Es; [|done]. injection Hr as <-. eauto.
Qed.

Lemma does_suffix {E A} Q (m : M FsWorld E A) w r w' : does Q m -> m w = (r, w') -> fs_trace w `suffix_of` fs_trace w'.
Proof. intros Hm Hr. specialize (Hm w). rewrite Hr in Hm. by eapply justified_suffix. Qed.

Lemma inventory_suffix w r w' : read_block_inventory w = (r, w') -> fs_trace w `suffix_of` fs_trace w'.
Proof. apply (does_suffix calm_rule). eauto with does. Qed.
Lemma swaps_suffix inv w r w' : read_active_swaps inv w = (r, w') -> fs_trace w `suffix_of` fs_trace w'.
Proof. apply (does_suffix calm_rule). eauto with does. Qed.

End Claims.

(** Take a successful run apart. *)
Ltac run_ok :=
  repeat match goal with
  | H : bind _ _ _ = (Ok _, _) |- _ =>
      let x := fresh "x" in let w1 := fresh "w" in let Hm := fresh "Hm" in apply bind_ok in H as (x & w1 & Hm & H); cbn beta zeta iota in H
  | H : ret _ _ = (Ok _, _) |- _ => injection H as ? ?; subst
  | H : lift _ _ = (Ok _, _) |- _ => apply lift_ok in H as [H ->]
  | H : orfail _ _ _ = (Ok _, _) |- _ => apply orfail_ok in H as [H ->]
  | H : ok_or _ _ = Ok _ |- _ => apply ok_or_ok in H
  | H : throw_if _ _ _ = (Ok _, _) |- _ => apply throw_if_ok in H as [H ->]
  | H : throw _ _ = (Ok _, _) |- _ => discriminate H
  | H : reject_if _ _ = Ok ?u |- _ => destruct u; apply reject_if_ok in H
  end.

(** ** The plan *)

Section Plan.
Context `{Machine} `{!Codec Json} `{!Codec FsState}.
Implicit Types (w : FsWorld) (t : list Event).

(** A part of the plan stands for a device of the request. *)
Definition planned w t (spec : DeviceSpec) (x : CreateTargetPlan) : Prop :=
  match x with
  | Existing spec' i => spec' = spec /\ strip_free (ds_path spec) = None /\ asked_for w t (ds_path spec) (fun n => i = pd_identity n)
  | FreeSpace spec' parent number s e _ =>
      spec' = spec /\ exists path, strip_free (ds_path spec) = Some path /\
        asked_for w t path (fun disk => parent = pd_identity disk /\ fits w t disk number s e)
  end.

Lemma planned_mono w t t' spec x : t `suffix_of` t' -> planned w t spec x -> planned w t' spec x.
Proof.
  intros Ht. destruct x as [sp i|sp parent n s e p]; cbn.
  - intros (-> & Hn & Ha). split_and!; [done..|]. eapply asked_for_mono; [done| |done]. done.
  - intros (-> & path & Hp & Ha). split; [done|]. exists path. split; [done|].
    eapply asked_for_mono; [done| |done]. intros d [-> Hf]. split; [done|]. by eapply fits_mono.
Qed.

Lemma run_reported w0 w p args out w' : fs_trace w0 `suffix_of` fs_trace w -> run_or_fail p args w = (Ok out, w') ->
  reported w0 (fs_trace w') p args out /\ fs_trace w `suffix_of` fs_trace w' /\ fs_trace w0 `suffix_of` fs_trace w'.
Proof.
  intros Hw (o & Ht & Hs & ->)%run_or_fail_ok. rewrite Ht. split_and!; [|by eexists [_]|etrans; [done|by eexists [_]]].
  exists o. split_and!; [by apply during_here|done..].
Qed.

Lemma find_free_number (used : gset Z) n : List.find (fun n => negb (bool_decide (n ∈ used))) (seqZ 1 128) = Some n -> (1 <= n <= 128)%Z /\ n ∉ used.
Proof.
  intros [Hin Hu]%find_Some_elem. apply elem_of_seqZ in Hin. split; [lia|]. by apply negb_true_iff, bool_decide_eq_false in Hu.
Qed.

Lemma plan_free_ok w0 w disk number s e path w' : fs_trace w0 `suffix_of` fs_trace w ->
  plan_free_partition disk w = (Ok (number, s, e, path), w') -> fits w0 (fs_trace w') disk number s e.
Proof.
  intros Hw Hrun. unfold plan_free_partition in Hrun. run_ok.
  repeat match goal with
  | Hw : fs_trace w0 `suffix_of` fs_trace ?a, H : run_or_fail _ _ ?a = (Ok _, ?b) |- _ =>
      apply (run_reported w0 a _ _ _ b Hw) in H as (?Hr & ?Hs & ?Hw)
  end.
  match goal with H : List.find _ _ = Some _ |- _ => apply find_free_number in H as [? ?] end.
  eexists _, _, _. split_and!; try done; try (eapply reported_mono; [|done]; by repeat (etrans; [eassumption|])).
  all: unfold checked_mul in *; repeat case_match; simplify_eq; lia.
Qed.

(** A device of the request as it was found. *)
Definition resolved w t (spec : DeviceSpec) (r : DeviceSpec * bool * PreflightBlockDevice) : Prop :=
  r.1.1 = spec /\
  match strip_free (ds_path spec) with
  | Some path => r.1.2 = true /\ asked_for w t path (fun n => n = r.2)
  | None => r.1.2 = false /\ asked_for w t (ds_path spec) (fun n => n = r.2)
  end.

Lemma resolved_mono w t t' spec r : t `suffix_of` t' -> resolved w t spec r -> resolved w t' spec r.
Proof.
  intros Ht [Hs Hr]. split; [done|]. destruct (strip_free _); destruct Hr as [Hf Ha]; (split; [done|]); (eapply asked_for_mono; [done| |done]; done).
Qed.

Lemma canonical_ok w0 w path c w' : fs_trace w0 `suffix_of` fs_trace w -> canonical_block_path path w = (Ok c, w') ->
  exists raw, during w0 (fs_trace w') (Did (Resolve path) (Some raw)) /\ c = from_utf8_lossy raw /\ fs_trace w `suffix_of` fs_trace w'.
Proof.
  intros Hw Hrun. unfold canonical_block_path in Hrun. run_ok. destruct x as [raw|]; [|done]. cbn in *. simplify_eq.
  exists raw. match goal with Hd : dev _ _ = _ |- _ => apply dev_ok in Hd as -> end.
  split_and!; [by apply during_here|done|by eexists [_]].
Qed.

Lemma resolve_spec_ok w0 wa inv wb swaps spec w r w' :
  read_block_inventory wa = (Ok inv, wb) -> fs_trace w0 `suffix_of` fs_trace wa -> fs_trace wb `suffix_of` fs_trace w ->
  resolve_spec inv swaps spec w = (Ok r, w') -> resolved w0 (fs_trace w') spec r.
Proof.
  intros Hinv Ha Hb Hrun. unfold resolve_spec in Hrun.
  assert (fs_trace w0 `suffix_of` fs_trace w) as Hw.
  { etrans; [exact Ha|]. etrans; [|exact Hb]. by apply inventory_suffix in Hinv. }
  assert (forall raw (m : PreflightBlockDevice -> M FsWorld FilesystemError unit) k, (path <- canonical_block_path raw ;; node <- orfail id (ok_or (get_path inv path) (FsDeviceNotFound (ds_path spec))) ;;
    m node ;;; ret (spec, k, node)) w = (Ok r, w') -> (forall n, does calm_rule (m n)) ->
    r.1.1 = spec /\ r.1.2 = k /\ asked_for w0 (fs_trace w') raw (fun n => n = r.2)) as Hgen.
  { clear Hrun. intros raw m k Hrun Hm. run_ok. match goal with H : canonical_block_path _ _ = _ |- _ => apply (canonical_ok w0) in H as (c & Hd & -> & Hs); [|done] end.
    match goal with H : m _ _ = (Ok _, ?v) |- _ => apply (does_suffix calm_rule) in H; [|done] end.
    split_and!; [done..|]. exists c, inv, wa, wb. eexists. split_and!; [by eapply during_mono|done..|by repeat (etrans; [eassumption|])|done|done]. }
  destruct (strip_free (ds_path spec)) as [raw|] eqn:Ef; apply Hgen in Hrun as (H1 & H2 & H3); unfold resolved; rewrite ?Ef; try done.
  - intros n. apply does_lift.
  - intros n. apply does_bind; [apply does_lift|]. intros _. eauto with does.
Qed.

Lemma resolve_specs_ok w0 wa inv wb swaps l : forall w rs w',
  read_block_inventory wa = (Ok inv, wb) -> fs_trace w0 `suffix_of` fs_trace wa -> fs_trace wb `suffix_of` fs_trace w ->
  resolve_specs inv swaps l w = (Ok rs, w') -> Forall2 (resolved w0 (fs_trace w')) l rs.
Proof.
  induction l as [|spec l IH]; intros w rs w' Hinv Ha Hb Hrun; cbn in Hrun; run_ok; [constructor|].
  match goal with H1 : resolve_spec _ _ _ w = (Ok _, ?v), H2 : resolve_specs _ _ _ ?v = (Ok _, _) |- _ =>
    pose proof (does_suffix calm_rule _ _ _ _ (does_resolve_spec calm_rule inv swaps spec) H1) as Hs1;
    pose proof (does_suffix calm_rule _ _ _ _ (does_resolve_specs calm_rule inv swaps l) H2) as Hs2;
    pose proof (resolve_spec_ok w0 wa inv wb swaps spec w _ v Hinv Ha Hb H1) as Hr; apply IH in H2; [|done..|by etrans] end.
  constructor; [by eapply resolved_mono|done].
Qed.

Lemma plan_target_ok w0 w spec r x w' : resolved w0 (fs_trace w) spec r -> fs_trace w0 `suffix_of` fs_trace w ->
  plan_target r w = (Ok x, w') -> planned w0 (fs_trace w') spec x.
Proof.
  intros [Hs Hr] Hw Hrun. unfold plan_target in Hrun. rewrite Hs in Hrun.
  revert Hr. destruct (strip_free (ds_path spec)) as [path|] eqn:Ef; intros [Hk Ha]; rewrite Hk in Hrun.
  - apply bind_ok in Hrun as ([[[n s] e] p] & w1 & Hp & Hrun). injection Hrun as <- <-.
    pose proof (does_suffix calm_rule _ _ _ _ (does_plan_free_partition calm_rule r.2) Hp) as Hs'.
    split; [done|]. exists path. split; [done|]. eapply asked_for_mono; [exact Hs'| |exact Ha]. intros ? ->. split; [done|]. by eapply plan_free_ok.
  - injection Hrun as <- <-. split_and!; [done..|]. eapply asked_for_mono; [reflexivity| |exact Ha]. by intros ? ->.
Qed.

Lemma does_plan_target Q `{!Lenient Q} r : does Q (plan_target r).
Proof. unfold plan_target. destruct r.1.2; [|apply does_ret]. apply does_bind; [by apply does_plan_free_partition|]. intros [[[]]]. apply does_ret. Qed.

Lemma plan_targets_ok w0 rs : forall w l ts w', Forall2 (resolved w0 (fs_trace w)) l rs -> fs_trace w0 `suffix_of` fs_trace w ->
  plan_targets rs w = (Ok ts, w') -> Forall2 (planned w0 (fs_trace w')) l ts.
Proof.
  induction rs as [|r rs IH]; intros w l ts w' Hrs Hw Hrun; cbn in Hrun; run_ok.
  - inversion Hrs; subst. constructor.
  - inversion Hrs as [|spec ? l' ? Hr Hrest]; subst.
    match goal with H1 : plan_target _ w = (Ok _, ?v), H2 : plan_targets _ ?v = (Ok _, _) |- _ =>
      pose proof (does_suffix calm_rule _ _ _ _ (does_plan_target calm_rule r) H1) as Hs1;
      pose proof (does_suffix calm_rule _ _ _ _ (does_plan_targets calm_rule rs) H2) as Hs2;
      apply (plan_target_ok w0 w spec) in H1; [|done..]; apply (IH v l') in H2; [| |by etrans] end.
    + constructor; [by eapply planned_mono|done].
    + eapply Forall2_impl; [exact Hrest|]. intros. by eapply resolved_mono.
Qed.

Lemma build_plan_ok req w plan w' : build_create_plan req w = (Ok plan, w') ->
  cp_request plan = req /\ Forall2 (planned w (fs_trace w')) (cf_devices req) (cp_targets plan).
Proof.
  unfold build_create_plan. intros Hrun. run_ok. cbn. split; [done|].
  match goal with
  | Ht : check_tpm _ w = (_, ?v), Hl : dev _ ?v = (Ok ?there, ?v1), Hg : _ ?v1 = (Ok _, ?a), Hi : read_block_inventory ?a = (Ok ?inv, ?b),
    Hs : read_active_swaps ?inv ?b = (Ok ?swaps, ?c), Hr : resolve_specs ?inv ?swaps _ ?c = (Ok ?rs, ?d), Hp : plan_targets ?rs ?d = _ |- _ =>
      assert (a = v1) as -> by (destruct there as [|[]]; [discriminate Hg|by injection Hg|discriminate Hg..]);
      apply (does_suffix calm_rule) in Ht; [|unfold check_tpm; does_go]; apply dev_ok in Hl;
      assert (fs_trace w `suffix_of` fs_trace v1) as Ha by (rewrite Hl; by apply suffix_cons_r);
      pose proof (inventory_suffix _ _ _ Hi) as Hb; pose proof (swaps_suffix _ _ _ _ Hs) as Hc;
      pose proof (does_suffix calm_rule _ _ _ _ (does_resolve_specs calm_rule inv swaps (cf_devices req)) Hr) as Hd;
      apply (plan_targets_ok w rs d (cf_devices req)) in Hp; [done|by eapply resolve_specs_ok|]
  end.
  by repeat (etrans; [eassumption|]).
Qed.

End Plan.

(** ** Carrying out the plan *)

Section Execute.
Context `{Machine} `{!Codec Json} `{!Codec FsState}.
Implicit Types (w : FsWorld) (t : list Event).

Lemma justified_bind {E A B} Q (m : M FsWorld E A) (f : A -> M FsWorld E B) w :
  justified Q (fs_trace w) (fs_trace (m w).2) ->
  (forall a w1, m w = (Ok a, w1) -> justified Q (fs_trace w1) (fs_trace (f a w1).2)) ->
  justified Q (fs_trace w) (fs_trace (bind m f w).2).
Proof.
  intros Hm Hf. unfold bind. destruct (m w) as [[a|e] w1] eqn:E1; cbn in *; [|done]. eapply justified_trans; [exact Hm|]. by apply Hf.
Qed.

Lemma does_at {E A} Q (m : M FsWorld E A) w : does Q m -> justified Q (fs_trace w) (fs_trace (m w).2).
Proof. by intros Hm. Qed.

Lemma justified_run (Q : Event -> list Event -> Prop) p args w : (forall a, Q (Did (Spawn p args None) a) (fs_trace w)) ->
  justified Q (fs_trace w) (fs_trace (run_or_fail p args w).2).
Proof.
  intros HQ. unfold run_or_fail, run, run_with. apply justified_bind; [|intros; apply does_orfail].
  apply justified_bind; [|intros; apply does_ret]. unfold dev. destruct (machine _ _) as [a s]. by apply justified_one.
Qed.

Lemma same_device_ok inv i n : same_device inv i = Ok n -> iv_devices inv !! bi_devno i = Some n /\ pd_identity n = i.
Proof.
  unfold same_device. destruct (identity_changed _ _ _) as [[]|] eqn:E; [|done]. apply unchanged in E as (node & Hc & Hi).
  rewrite Hc. intros [= <-]. done.
Qed.

Lemma free_parent_ok inv disk swaps : validate_free_space_parent inv disk swaps = Ok tt ->
  dev_type disk = "disk" /\ pd_partition_table_type disk = Some "gpt" /\ idle swaps disk /\ pd_fs_type disk = None.
Proof.
  unfold validate_free_space_parent. destruct (dev_type disk =s "disk") eqn:Ed; [|done]. apply eqb_spec in Ed.
  case_bool_decide as Eg; [|done]. cbn [negb]. unfold node_usage_error, first_usage.
  destruct (usage_of swaps true disk) eqn:Eu; [done|]. apply usage_of_None in Eu as [Hi Hf]. auto.
Qed.

(** What was done about a part of the plan. *)
Definition carried w t (x : CreateTargetPlan) (r : DeviceSpec * option (string * BlockIdentity)) : Prop :=
  match x with
  | Existing spec _ => exists p, r = (set_path p spec, None)
  | FreeSpace spec parent number s e path =>
      made w t parent number s e /\ exists i, r = (set_path path spec, Some (path, i)) /\ partition_of parent number s e i
  end.

Lemma carried_mono w t t' x r : t `suffix_of` t' -> carried w t x r -> carried w t' x r.
Proof. intros Ht. destruct x; cbn; [done|]. intros [Hm Hi]. split; [by eapply made_mono|done]. Qed.

Lemma await_ok parent n s e path tries : forall w i w', await_partition tries parent n s e path w = (Ok (Some i), w') -> partition_of parent n s e i.
Proof.
  induction tries as [|tries IH]; intros w i w' Hrun; cbn in Hrun; [done|]. run_ok.
  destruct (get_path _ path) eqn:Eg; [|by eapply IH]. run_ok. simplify_eq. by edestruct verified_partition as (node & _ & _ & Hp).
Qed.

Lemma execute_target_justified w0 req spec x w : spec ∈ cf_devices req -> planned w0 (fs_trace w) spec x -> fs_trace w0 `suffix_of` fs_trace w ->
  justified (allowed w0 req) (fs_trace w) (fs_trace (execute_target x w).2).
Proof.
  intros Hin Hp Hw. destruct x as [sp i|sp parent n s e path]; cbn [execute_target].
  { apply does_at. does_go. }
  apply justified_bind; [by apply (does_read_block_inventory (allowed w0 req))|]. intros inv w1 Hinv.
  apply justified_bind; [by apply (does_read_active_swaps (allowed w0 req))|]. intros swaps w2 Hsw.
  pose proof (inventory_suffix _ _ _ Hinv) as S1. pose proof (swaps_suffix _ _ _ _ Hsw) as S2.
  apply justified_bind; [apply does_lift|]. intros disk w3 [Hd ->]%lift_ok. apply same_device_ok in Hd as [Hl Hi].
  apply justified_bind; [apply does_lift|]. intros [] w4 [Hf ->]%lift_ok. apply free_parent_ok in Hf.
  apply justified_bind.
  { apply justified_run. intros a. split_and!; [by intros [=]|by intros [=]|intros _].
    destruct Hp as (-> & asked & Hn & Ha). exists asked, n, s, e, inv, swaps, disk. split_and!; try tauto; [by exists spec|by exists w, w1, w2|by rewrite <- Hi in Hl|].
    assert (fs_trace w `suffix_of` fs_trace w2) as S by (by etrans). eapply asked_for_mono; [exact S| |exact Ha].
    intros d [-> Hfit]. split; [done|]. by eapply fits_mono. }
  intros _ w5 _. apply does_at. unfold run, run_with. does_go.
Qed.

Lemma does_grows {E A} (m : M FsWorld E A) w r w' : does calm_rule m -> m w = (r, w') -> fs_trace w `suffix_of` fs_trace w'.
Proof. intros Hm Hr. by eapply does_suffix. Qed.

Lemma execute_target_ok w0 x w r w' : fs_trace w0 `suffix_of` fs_trace w -> execute_target x w = (Ok r, w') -> carried w0 (fs_trace w') x r.
Proof.
  intros Hw Hrun. destruct x as [sp i|sp parent n s e path]; cbn [execute_target] in Hrun; run_ok; subst; cbn; [by eexists|].
  match goal with Hi : read_block_inventory w = (_, ?a), Hs : read_active_swaps _ ?a = (_, ?b), Hr : run_or_fail _ _ ?b = (Ok _, ?c),
    Hp : run "partprobe" _ ?c = (_, ?d), Hu : run "udevadm" _ ?d = (_, ?f), Ha : await_partition _ _ _ _ _ _ ?f = (Ok (Some _), _) |- _ =>
    pose proof Hi as Hread; apply inventory_suffix in Hi; apply swaps_suffix in Hs; apply run_or_fail_ok in Hr as (o & Ht & _);
    apply does_grows in Hp; [|unfold run, run_with; does_go]; apply does_grows in Hu; [|unfold run, run_with; does_go];
    pose proof (await_ok _ _ _ _ _ _ _ _ _ Ha) as Hpart; apply does_grows in Ha; [|eauto with does];
    assert (made w0 (fs_trace c) parent n s e) as Hmade end.
  { match goal with Hd : same_device _ _ = Ok _ |- _ => apply same_device_ok in Hd as [Hl Hid] end.
    eexists _, _. rewrite Ht. split_and!; [apply during_here|done|exact Hid|]; [by repeat (etrans; [eassumption|])|].
    eexists _, _, _. split_and!; [exact Hread|done|by apply suffix_cons_r|by rewrite <- Hid in Hl]. }
  split; [|by eexists]. eapply made_mono; [|exact Hmade]. by repeat (etrans; [eassumption|]).
Qed.

Lemma execute_targets_spec w0 req xs : forall l w, l ⊆ cf_devices req -> Forall2 (planned w0 (fs_trace w)) l xs -> fs_trace w0 `suffix_of` fs_trace w ->
  justified (allowed w0 req) (fs_trace w) (fs_trace (execute_targets xs w).2) /\
  forall ds created w', execute_targets xs w = (Ok (ds, created), w') ->
    exists rs, Forall2 (carried w0 (fs_trace w')) xs rs /\ ds = rs.*1 /\ created = omap snd rs.
Proof.
  induction xs as [|x xs IH]; intros l w Hsub Hpl Hw; cbn [execute_targets].
  { split; [apply does_at, does_ret|]. intros ds created w' [= <- <- <-]. by exists []. }
  inversion Hpl as [|spec ? l' ? Hx Hrest]; subst.
  assert (spec ∈ cf_devices req /\ l' ⊆ cf_devices req) as [Hin Hsub'] by set_solver.
  pose proof (execute_target_justified w0 req spec x w Hin Hx Hw) as Hj.
  assert (forall r w1, execute_target x w = (r, w1) -> fs_trace w `suffix_of` fs_trace w1) as Hgrow.
  { intros r w1 E1. rewrite E1 in Hj. by eapply justified_suffix. }
  assert (forall r w1, execute_target x w = (r, w1) -> Forall2 (planned w0 (fs_trace w1)) l' xs /\ fs_trace w0 `suffix_of` fs_trace w1) as Hnext.
  { intros r w1 E1. apply Hgrow in E1. split; [|by etrans]. eapply Forall2_impl; [exact Hrest|]. intros. by eapply planned_mono. }
  split.
  - apply justified_bind; [done|]. intros d w1 E1. destruct (Hnext _ _ E1) as [Hpl1 Hw1].
    apply justified_bind; [by apply (IH l')|]. intros; apply does_at, does_ret.
  - intros ds created w' Hrun. run_ok.
    match goal with H1 : execute_target x w = (Ok ?d, ?w1), H2 : execute_targets xs ?w1 = (Ok ?rest, _) |- _ =>
      destruct (Hnext _ _ H1) as [Hpl1 Hw1]; destruct (IH l' w1 Hsub' Hpl1 Hw1) as [Hj2 Hok];
      assert (fs_trace w1 `suffix_of` fs_trace w') as Hs by (rewrite H2 in Hj2; by eapply justified_suffix);
      destruct rest as [ds' created']; destruct (Hok _ _ _ H2) as (rs & Hrs & -> & ->); apply (execute_target_ok w0) in H1; [|done];
      exists (d :: rs); split_and!; [constructor; [by eapply carried_mono|done]|done|by destruct d as [? [|]]] end.
Qed.

(** A partition that may be wiped. *)
Definition to_wipe w req t (i : BlockIdentity) : Prop :=
  exists asked number s e, names_free req asked /\
    asked_for w t asked (fun disk => fits w t disk number s e /\ made w t (pd_identity disk) number s e /\ partition_of (pd_identity disk) number s e i).

Lemma to_wipe_mono w req t t' i : t `suffix_of` t' -> to_wipe w req t i -> to_wipe w req t' i.
Proof.
  intros Ht (a & n & s & e & Hn & Ha). exists a, n, s, e. split; [done|].
  eapply asked_for_mono; [exact Ht| |exact Ha]. intros d (Hf & Hm & Hp). split_and!; [by eapply fits_mono|by eapply made_mono|done].
Qed.

Lemma wipe_justified w0 req c w : to_wipe w0 req (fs_trace w) c.2 -> justified (allowed w0 req) (fs_trace w) (fs_trace (wipe_created c w).2).
Proof.
  destruct c as [path i]. intros Hc. cbn [snd] in Hc. unfold wipe_created.
  apply justified_bind; [by apply (does_read_block_inventory (allowed w0 req))|]. intros inv w1 Hinv.
  apply justified_bind; [by apply (does_read_active_swaps (allowed w0 req))|]. intros swaps w2 Hsw.
  pose proof (inventory_suffix _ _ _ Hinv) as S1. pose proof (swaps_suffix _ _ _ _ Hsw) as S2.
  apply justified_bind; [apply does_lift|]. intros [] w3 [Hd ->]%lift_ok. apply unchanged in Hd as (node & Hnode & Hi). rewrite Hnode. cbn [mbind option_bind].
  apply justified_bind; [apply does_at; does_go|]. intros [] w4 Hfree.
  revert Hfree. destruct (node_usage_error inv node swaps true false) eqn:Eu; [done|]. intros [= <-].
  apply justified_bind; [|intros; apply does_at, does_ret]. apply justified_run. intros a. split_and!; [by intros [=]|intros _|by intros [=]].
  apply (to_wipe_mono w0 req _ (fs_trace w2)) in Hc as (asked & n & s & e & Hm & Ha); [|by etrans].
  exists path, asked, n, s, e, inv, swaps, node. rewrite <- Hi in Ha. split_and!; [done|done|by exists w, w1, w2|done|done|].
  intros m Hs. by apply (unused_stack inv swaps node false Eu m Hs).
Qed.

Lemma wipes_justified w0 req l : forall w, Forall (fun c => to_wipe w0 req (fs_trace w) c.2) l ->
  justified (allowed w0 req) (fs_trace w) (fs_trace (for_each wipe_created l w).2).
Proof.
  induction l as [|c l IH]; intros w Hl; cbn [for_each]; [apply does_at, does_ret|]. inversion Hl as [|? ? Hc Hrest]; subst.
  pose proof (wipe_justified w0 req c w Hc) as Hj. apply justified_bind; [done|]. intros u w1 E1. apply IH.
  rewrite E1 in Hj. apply justified_suffix in Hj. eapply list.Forall_impl; [exact Hrest|]. intros. by eapply to_wipe_mono.
Qed.

Lemma carried_to_wipe w req t spec x r c : spec ∈ cf_devices req -> planned w t spec x -> carried w t x r -> r.2 = Some c -> to_wipe w req t c.2.
Proof.
  intros Hin. destruct x as [sp i|sp parent n s e path]; cbn; [by intros _ (p & ->)|].
  intros (_ & asked & Hn & Ha) (Hm & i & -> & Hp) [= <-]. exists asked, n, s, e. split; [by exists spec|].
  eapply asked_for_mono; [reflexivity| |exact Ha]. intros d [-> Hf]. done.
Qed.

Lemma all_to_wipe w req t l xs rs : l ⊆ cf_devices req -> Forall2 (planned w t) l xs -> Forall2 (carried w t) xs rs ->
  Forall (fun c => to_wipe w req t c.2) (omap snd rs).
Proof.
  intros Hsub Hl Hr. revert l Hsub Hl. induction Hr as [|x r xs rs Hx Hr IH]; intros l Hsub Hl; inversion Hl as [|spec ? l' ? Hp Hl']; subst; [constructor|].
  assert (spec ∈ cf_devices req /\ l' ⊆ cf_devices req) as [Hin Hsub'] by set_solver. cbn. specialize (IH _ Hsub' Hl'). destruct (r.2) as [c|] eqn:E; cbn; [|done]. constructor; [by eapply carried_to_wipe|done].
Qed.

Lemma execute_plan_spec w0 req l plan w : l ⊆ cf_devices req -> Forall2 (planned w0 (fs_trace w)) l (cp_targets plan) -> fs_trace w0 `suffix_of` fs_trace w ->
  justified (allowed w0 req) (fs_trace w) (fs_trace (execute_partition_plan plan w).2) /\
  forall ds w', execute_partition_plan plan w = (Ok ds, w') -> exists rs, Forall2 (carried w0 (fs_trace w')) (cp_targets plan) rs /\ ds = rs.*1.
Proof.
  intros Hsub Hpl Hw. unfold execute_partition_plan.
  assert (forall r w1, revalidate_create_sources plan w = (r, w1) -> Forall2 (planned w0 (fs_trace w1)) l (cp_targets plan) /\ fs_trace w0 `suffix_of` fs_trace w1) as H1.
  { intros r w1 E1. apply does_grows in E1; [|eauto with does]. split; [|by etrans]. eapply Forall2_impl; [exact Hpl|]. intros. by eapply planned_mono. }
  assert (forall w1 ds created w2, execute_targets (cp_targets plan) w1 = (Ok (ds, created), w2) -> Forall2 (planned w0 (fs_trace w1)) l (cp_targets plan) ->
    fs_trace w0 `suffix_of` fs_trace w1 -> exists rs, Forall2 (carried w0 (fs_trace w2)) (cp_targets plan) rs /\ ds = rs.*1 /\
    justified (allowed w0 req) (fs_trace w2) (fs_trace (for_each wipe_created created w2).2)) as H2.
  { intros w1 ds created w2 E2 Hp1 Hw1. destruct (execute_targets_spec w0 req (cp_targets plan) l w1 Hsub Hp1 Hw1) as [Hj Hok].
    destruct (Hok _ _ _ E2) as (rs & Hrs & -> & ->). rewrite E2 in Hj. apply justified_suffix in Hj.
    exists rs. split_and!; [done..|]. apply wipes_justified. eapply all_to_wipe; [exact Hsub| |exact Hrs].
    eapply Forall2_impl; [exact Hp1|]. intros. by eapply planned_mono. }
  split.
  - apply justified_bind; [apply does_at; eauto with does|]. intros [] w1 E1. destruct (H1 _ _ E1) as [Hp1 Hw1].
    apply justified_bind; [by apply (execute_targets_spec w0 req _ l)|]. intros [ds created] w2 E2.
    destruct (H2 _ _ _ _ E2 Hp1 Hw1) as (rs & _ & _ & Hj). apply justified_bind; [done|]. intros; apply does_at, does_ret.
  - intros ds w' Hrun. run_ok.
    match goal with E1 : revalidate_create_sources _ _ = _, E2 : execute_targets _ _ = (Ok ?d, _), E3 : for_each _ _ _ = _ |- _ =>
      destruct (H1 _ _ E1) as [Hp1 Hw1]; destruct d as [ds created]; destruct (H2 _ _ _ _ E2 Hp1 Hw1) as (rs & Hrs & -> & Hj);
      cbn [snd] in E3; rewrite E3 in Hj; apply justified_suffix in Hj; exists rs; split; [|done] end.
    eapply Forall2_impl; [exact Hrs|]. intros. by eapply carried_mono.
Qed.

(** ** Just before the format *)

(** What the last look says about a device of the plan. *)
Definition checked inv swaps (checks : list Event) (x : CreateTargetPlan * DeviceSpec) : Prop :=
  exists node, get_path inv (ds_path x.2) = Some node /\ unused inv swaps node /\ List.Exists (found_blank (pd_path node)) checks /\
  match x.1 with
  | Existing _ i => pd_identity node = i
  | FreeSpace _ parent number s e _ => partition_of parent number s e (pd_identity node)
  end.

Lemma no_signatures_ok node reason w w' : no_signatures node reason w = (Ok tt, w') ->
  exists ev, fs_trace w' = ev :: fs_trace w /\ found_blank (pd_path node) ev.
Proof.
  unfold no_signatures, has_block_signatures. intros Hrun. run_ok. subst.
  match goal with Hr : run_or_fail _ _ _ = _ |- _ => apply run_or_fail_ok in Hr as (o & Ht & Hs & ->) end.
  eexists. split; [exact Ht|]. by exists o.
Qed.

Lemma revalidate_target_ok inv swaps x w w' : revalidate_target inv swaps x w = (Ok tt, w') ->
  exists ev, fs_trace w' = ev :: fs_trace w /\ signature_check ev /\ checked inv swaps [ev] x.
Proof.
  destruct x as [x d]. unfold revalidate_target. intros Hrun. run_ok.
  match goal with Hs : no_signatures ?node _ ?w1 = _, Hv : validate_existing_create_target _ _ _ = Ok ?u, Hp : _ w = (Ok _, ?w1),
    Hg : get_path _ _ = Some ?node |- _ =>
    destruct u; apply validated_unused in Hv; apply no_signatures_ok in Hs as (ev & Ht & Hb);
    assert (w1 = w /\ match x with Existing _ i => pd_identity node = i | FreeSpace _ parent n s e _ => partition_of parent n s e (pd_identity node) end) as [-> Hx] end.
  { destruct x as [sp i|sp parent n s e path]; run_ok.
    - split; [done|]. match goal with Hc : identity_changed _ _ _ = Ok ?u |- _ => destruct u; by apply unchanged in Hc as (node & [= <-] & Hi) end.
    - split; [done|]. match goal with Hc : negb (_ =s _) = false |- _ => apply negb_false_iff, eqb_spec in Hc as -> end.
      match goal with Hv : verify_created_partition _ _ _ _ _ _ = Ok _ |- _ => apply verified_partition in Hv as (node & Hn & -> & Hpart) end.
      by simplify_eq. }
  exists ev. split_and!; [done| |].
  - destruct Hb as (o & -> & _). by eexists.
  - eexists. split_and!; [done..|by constructor|done].
Qed.

Lemma revalidate_targets_ok inv swaps l : forall w w', for_each (revalidate_target inv swaps) l w = (Ok tt, w') ->
  exists checks, fs_trace w' = (checks ++ fs_trace w)%list /\ Forall signature_check checks /\ Forall (checked inv swaps checks) l.
Proof.
  induction l as [|x l IH]; intros w w' Hrun; cbn [for_each] in Hrun.
  { injection Hrun as <-. exists []. split_and!; [done|constructor..]. }
  run_ok. match goal with H1 : revalidate_target _ _ _ _ = (Ok ?u, ?w1) |- _ => destruct u; apply revalidate_target_ok in H1 as (ev & Ht & Hs & Hc) end.
  apply IH in Hrun as (checks & Ht' & Hss & Hl). exists (checks ++ [ev])%list. rewrite Ht', Ht, <- (assoc_L (++)%list). split_and!; [done|apply Forall_app; split; [done|by constructor]|].
  assert (forall c c' y, checked inv swaps c y -> (forall e, e ∈ c -> e ∈ c') -> checked inv swaps c' y) as Hmono.
  { intros c c' y (node & H1 & H2 & H3 & H4) Hsub. exists node. split_and!; try done.
    apply List.Exists_exists in H3 as (e & He & Hb). apply List.Exists_exists. exists e. split; [|done]. apply list_elem_of_In, Hsub, list_elem_of_In, He. }
  constructor; [eapply Hmono; [exact Hc|set_solver]|]. eapply list.Forall_impl; [exact Hl|]. intros y Hy. eapply Hmono; [exact Hy|set_solver].
Qed.

Lemma ready_all w t inv swaps checks l xs rs : Forall2 (planned w t) l xs -> Forall2 (carried w t) xs rs ->
  Forall (checked inv swaps checks) (combine xs rs.*1) -> Forall2 (ready w t inv swaps checks) l rs.*1.
Proof.
  intros Hl Hr. revert l Hl. induction Hr as [|x r xs rs Hx Hr IH]; intros l Hl Hc; inversion Hl as [|spec ? l' ? Hp Hl']; subst; [constructor|].
  cbn in Hc. inversion Hc as [|? ? Hck Hcs]; subst. cbn. constructor; [|by apply IH].
  destruct Hck as (node & Hg & Hu & Hb & Hi). cbn in Hg, Hi. destruct x as [sp i|sp parent n s e path].
  - destruct Hp as (-> & Hf & Ha). destruct Hx as (p & ->). constructor; [done..|]. exists node. split_and!; [done..|].
    unfold as_asked. rewrite Hf. eapply asked_for_mono; [reflexivity| |exact Ha]. intros d ->. done.
  - destruct Hp as (-> & asked & Hf & Ha). destruct Hx as (Hm & i & -> & Hpart). constructor; [done..|]. exists node. split_and!; [done..|].
    unfold as_asked. rewrite Hf. eapply asked_for_mono; [reflexivity| |exact Ha]. intros d [-> Hfit]. by exists n, s, e.
Qed.

End Execute.

(** ** create *)

Section Created.
Context `{Machine} `{!Codec Json} `{!Codec FsState}.
Implicit Types (w : FsWorld) (t : list Event).

Lemma or_remove_dir_justified {A} Q `{!Lenient Q} mp (m : M FsWorld FilesystemError A) w :
  justified Q (fs_trace w) (fs_trace (m w).2) -> justified Q (fs_trace w) (fs_trace (or_remove_dir mp m w).2).
Proof.
  intros Hm. unfold or_remove_dir. apply justified_bind; [|intros [a|e] w1 _; apply does_at; does_go].
  unfold attempt. by destruct (m w).
Qed.

Lemma or_remove_dir_ok {A} mp (m : M FsWorld FilesystemError A) w a w' : or_remove_dir mp m w = (Ok a, w') -> m w = (Ok a, w').
Proof.
  unfold or_remove_dir, bind, attempt. destruct (m w) as [[b|e] w1]; [by intros [= -> ->]|]. cbn. by destruct (dev _ w1) as [[] ?].
Qed.

(** The devices of a request are ready to be formatted. *)
Definition all_ready w t (req : CreateFilesystemRequest) (devices : list DeviceSpec) : Prop :=
  exists inv swaps checks, last_look inv swaps checks t /\ Forall signature_check checks /\
    Forall2 (ready w t inv swaps checks) (cf_devices req) devices.

Lemma revalidate_ok w0 req plan rs w w' :
  Forall2 (planned w0 (fs_trace w)) (cf_devices req) (cp_targets plan) -> Forall2 (carried w0 (fs_trace w)) (cp_targets plan) rs ->
  revalidate_create_targets plan rs.*1 w = (Ok tt, w') -> all_ready w0 (fs_trace w') req rs.*1.
Proof.
  intros Hp Hc Hrun. assert (fs_trace w `suffix_of` fs_trace w') as Hs.
  { eapply does_grows; [|exact Hrun]. unfold revalidate_create_targets. does_go. }
  unfold revalidate_create_targets in Hrun. run_ok. apply revalidate_targets_ok in Hrun as (checks & Ht & Hck & Hl).
  eexists _, _, checks. split_and!; [by eexists _, _, _|done|]. eapply ready_all; [| |exact Hl].
  - eapply Forall2_impl; [exact Hp|]. intros. by eapply planned_mono.
  - eapply Forall2_impl; [exact Hc|]. intros. by eapply carried_mono.
Qed.

Lemma prepare_spec req w :
  justified (allowed w req) (fs_trace w) (fs_trace (prepare_create req w).2) /\
  forall p w', prepare_create req w = (Ok p, w') -> exists devices, p.1 = set_devices devices req /\ all_ready w (fs_trace w') req devices.
Proof.
  unfold prepare_create.
  assert (forall plan w1, build_create_plan req w = (Ok plan, w1) -> forall v, fs_trace w1 `suffix_of` fs_trace v ->
    Forall2 (planned w (fs_trace v)) (cf_devices req) (cp_targets plan) /\ fs_trace w `suffix_of` fs_trace v) as Hplan.
  { intros plan w1 E1 v Hv. pose proof (does_grows _ _ _ _ (does_build_create_plan calm_rule req) E1) as Hs.
    apply build_plan_ok in E1 as [_ Hp]. split; [|by etrans]. eapply Forall2_impl; [exact Hp|]. intros. by eapply planned_mono. }
  split.
  - apply justified_bind; [apply does_at; eauto with does|]. intros plan w1 E1.
    apply justified_bind; [apply does_at; eauto with does|]. intros state w2 E2%does_grows; [|eauto with does].
    apply justified_bind; [apply does_throw_if|]. intros [] w3 [_ ->]%throw_if_ok.
    apply justified_bind; [apply does_at; eauto with does|]. intros [] w4 E4%does_grows; [|eauto with does].
    destruct (Hplan _ _ E1 w4) as [Hp Hw]; [by etrans|].
    apply justified_bind; [apply or_remove_dir_justified; [apply _|]; by eapply execute_plan_spec|]. intros ds w5 _.
    apply justified_bind; [|intros; apply does_at, does_ret]. apply or_remove_dir_justified; [apply _|].
    apply does_at. unfold revalidate_create_targets. does_go.
  - intros p w' Hrun. run_ok.
    match goal with E1 : build_create_plan req w = (Ok ?plan, _), E2 : load_fs_state _ = _, E4 : reserve_create_mount_point _ _ = (_, ?w4),
      E5 : or_remove_dir _ (execute_partition_plan _) ?w4 = (Ok ?ds, ?w5), E6 : or_remove_dir _ (revalidate_create_targets _ _) _ = (Ok ?u, _) |- _ =>
      pose proof (build_plan_ok _ _ _ _ E1) as [-> _]; apply does_grows in E2; [|eauto with does]; apply does_grows in E4; [|eauto with does];
      destruct (Hplan _ _ E1 w4) as [Hp Hw]; [by etrans|]; apply or_remove_dir_ok in E5; apply or_remove_dir_ok in E6; destruct u;
      destruct (execute_plan_spec w req _ plan w4 (reflexivity _) Hp Hw) as [Hj Hok]; rewrite E5 in Hj; apply justified_suffix in Hj;
      destruct (Hok _ _ E5) as (rs & Hrs & ->); exists rs.*1; split; [done|]; eapply revalidate_ok; [|exact Hrs|exact E6] end.
    eapply Forall2_impl; [exact Hp|]. intros. by eapply planned_mono.
Qed.

Lemma create_justified polls req w : justified (allowed w req) (fs_trace w) (fs_trace (create polls req w).2).
Proof.
  unfold create. destruct (prepare_spec req w) as [Hj Hok]. apply justified_bind; [done|]. intros [req' mp] w1 E1.
  destruct (Hok _ _ E1) as (devices & Hreq & inv & swaps & checks & Hl & Hc & Hr). cbn in Hreq. subst req'.
  apply justified_bind; [|intros; apply does_at; eauto with does]. unfold format_devices.
  apply justified_bind; [|intros; apply does_at; does_go]. apply or_remove_dir_justified; [apply _|].
  unfold run_format. apply justified_bind; [|intros; apply does_at; does_go].
  unfold dev. destruct (machine _ _) as [a s]. apply justified_one. split_and!; [intros _|by intros [=]|by intros [=]].
  by exists inv, swaps, checks, devices.
Qed.

Lemma create_allows polls req w r w' later ev earlier : create polls req w = (r, w') ->
  fs_trace w' = (later ++ ev :: earlier ++ fs_trace w)%list -> allowed w req ev (earlier ++ fs_trace w)%list.
Proof.
  intros Hrun Ht. pose proof (create_justified polls req w) as (new & Hn & Hall). rewrite Hrun in Hn. cbn in Hn.
  rewrite Ht, app_comm_cons, (assoc_L (++)%list) in Hn. apply app_inv_tail in Hn. by eapply Hall.
Qed.

(** C6: Creating a filesystem formats only devices that nobody uses. Whatever the tools answer, when [create] runs the format,
    nothing but checks for signatures was run since the engine last read the devices and the swaps; in that reading every
    device of the format is a disk or a partition with a capacity, and neither it nor anything stacked on it is read-only,
    mounted, swap, held or carries a filesystem, a whole disk has neither partitions nor a table; a check found it without
    signatures; and it is the device that the request named, unchanged since it was first looked at, or the new partition in
    the free space that the request named. *)
Theorem create_formats_only_unused_devices polls req w r w' later ev earlier :
  create polls req w = (r, w') -> fs_trace w' = (later ++ ev :: earlier ++ fs_trace w)%list -> formats ev = true ->
  may_format w req ev (earlier ++ fs_trace w)%list.
Proof. intros Hrun Ht. by eapply create_allows. Qed.

(** C7: Creating a filesystem changes partition tables and wipes devices only where it may. When [create] makes a partition, the
    disk is one whose free space a device of the request names: the path it gives led, in this run, to a disk of the same
    identity, and in a reading just before the disk has a GPT and nobody uses it; the partition is the largest free extent that
    sgdisk reported for that disk, of at least a gibibyte, under a number that no partition had. When it wipes a device, that is
    a partition which this run made on a disk whose free space the request names, found in a reading just before with the
    number, place and size that were planned, and neither it nor anything stacked on it is in use. *)
Theorem create_wipes_only_its_partitions polls req w r w' later ev earlier :
  create polls req w = (r, w') -> fs_trace w' = (later ++ ev :: earlier ++ fs_trace w)%list ->
  (partitions ev = true -> may_partition w req ev (earlier ++ fs_trace w)%list) /\
  (wipes ev = true -> may_wipe w req ev (earlier ++ fs_trace w)%list).
Proof. intros Hrun Ht. destruct (create_allows _ _ _ _ _ _ _ _ Hrun Ht) as (_ & Hw & Hp). done. Qed.

End Created.

(** ** A run

    A disk with a mounted partition and free space behind it, and an empty disk. *)
Module FilesystemExample.

(** The calls before and after the first that satisfies [f]. *)
Fixpoint cut (f : Event -> bool) (t : list Event) : option (list Event * Event * list Event) :=
  match t with
  | [] => None
  | ev :: t => if f ev then Some ([], ev, t) else (fun '(a, x, b) => (ev :: a, x, b)) <$> cut f t
  end.

Lemma cut_Some f t a x b : cut f t = Some (a, x, b) -> t = (a ++ x :: b)%list /\ f x = true.
Proof.
  revert a. induction t as [|ev t IH]; intros a; cbn; [done|]. destruct (f ev) eqn:E; [by intros [= <- <- <-]|].
  destruct (cut f t) as [[[a' x'] b']|] eqn:Ec; [|done]. intros [= <- <- <-]. destruct (IH a' eq_refl) as [-> Hf]. done.
Qed.

Definition text (k v : string) : string * Json := (k, JString v).
Definition number (k : string) (n : Z) : string * Json := (k, JInt n).

Definition part (n size start : Z) (mount : list Json) (path devno : string) : Json :=
  JObject [text "path" path; text "maj:min" devno; text "type" "part"; number "size" size; number "start" start; number "partn" n;
           ("mountpoints", JArray mount)].

Definition sdb (kids : list Json) : Json :=
  JObject [text "path" "/dev/sdb"; text "maj:min" "8:16"; text "type" "disk"; number "size" 4294967296; text "pttype" "gpt";
           ("children", JArray kids)].
Definition sdb1 : Json := part 1 1073741824 2048 [JString "/"] "/dev/sdb1" "8:17".
Definition sdb2 : Json := part 2 2147483648 4194304 [JNull] "/dev/sdb2" "8:18".
Definition sdc : Json := JObject [text "path" "/dev/sdc"; text "maj:min" "8:32"; text "type" "disk"; number "size" 1073741824].

Definition blockdevices (l : list Json) : Json := JObject [("blockdevices", JArray l)].

#[export] Instance toy_json : Codec Json := {|
  encode := fun _ => Err "unsupported";
  decode := fun s => if s =s "before" then Ok (blockdevices [sdb [sdb1]; sdc])
                     else if s =s "after" then Ok (blockdevices [sdb [sdb1; sdb2]; sdc])
                     else Err "unsupported"
|}.

(** The state file holds the names. *)
#[export] Instance toy_fs_state : Codec FsState := {|
  encode := fun m => Ok (String.concat "," (elements (dom m)));
  decode := fun _ => Ok ∅
|}.

(** Whether the partition, the filesystem and the mount are there, and how the state file reads. *)
Record Toy := mkToy { ty_part : bool; ty_formatted : bool; ty_mounted : bool; ty_state : result string IoErr }.

Definition said (s : string) : result Finished IoErr := Ok (mkFinished true "exit status: 0" s "").

Definition spawn (program : string) (args : list string) (s : Toy) : result Finished IoErr * Toy :=
  let first := match args with a :: _ => a | [] => "" end in
  if (program =s "lsblk") && (first =s "--json") then (said (if ty_part s then "after" else "before"), s)
  else if first =s "--first-aligned-in-largest" then (said "4194304", s)
  else if first =s "--end-of-largest" then (said "8388607", s)
  else if first =s "--print" then (said "1 2048 2099199 1024.0 MiB 8300 root", s)
  else if starts_with "--new=" first then (said "", mkToy true (ty_formatted s) (ty_mounted s) (ty_state s))
  else if first =s "format" then (said "", mkToy (ty_part s) true (ty_mounted s) (ty_state s))
  else if first =s "mount" then (said "", mkToy (ty_part s) (ty_formatted s) true (ty_state s))
  else if program =s "blkid" then (said (if ty_formatted s then "u-1" else ""), s)
  else (said "", s).

Definition toy_call {A} (c : Dev A) (s : Toy) : A * Toy :=
  match c in Dev A return A * Toy with
  | Spawn program args _ => spawn program args s
  | ListDir _ => (Ok [], s)
  | Resolve path => (Some path, s)
  | Lstat _ => (Err NotFound, s)
  | PathExists _ => (false, s)
  | MakeDirs _ | MakeDir _ | RemoveDir _ => (Ok tt, s)
  | ReadFile path =>
      (if path =s FS_STATE_PATH then ty_state s
       else if (path =s "/proc/mounts") && ty_mounted s then Ok "/dev/disk/by-uuid/u-1 /fs/tank bcachefs rw 0 0"
       else Err NotFound, s)
  | WriteFile _ _ => (Ok tt, s)
  | LinkTarget _ => (None, s)
  | TpmAvailable => (false, s)
  | TpmUnseal _ | TpmSeal _ => (Err "no TPM", s)
  | ListedEncrypted _ => (Ok None, s)
  end.

#[export] Instance toy_machine : Machine := {| MachineState := Toy; machine := @toy_call |}.

Definition request : CreateFilesystemRequest :=
  mkCreateFs "tank" [mkSpec "/dev/sdb:free" None None; mkSpec "/dev/sdc" None None] 2 None None None None None None None None None None None
    None None (Some "512k") None None None.
Definition start (state : result string IoErr) : FsWorld := mkFsWorld (mkToy false false false state) [].
Definition created (state : result string IoErr) : result Filesystem FilesystemError * FsWorld := create 3 request (start state).

Lemma created_run state : create 3 request (start state) = ((created state).1, (created state).2).
Proof. unfold created. by destruct (create _ _ _). Qed.

Lemma create_formats_only_unused_devices_witness :
  is_ok (created (Err NotFound)).1 = true /\
  exists later ev earlier, fs_trace (created (Err NotFound)).2 = (later ++ ev :: earlier)%list /\ formats ev = true /\
    may_format (start (Err NotFound)) request ev (earlier ++ [])%list.
Proof.
  split; [vm_compute; reflexivity|].
  destruct (cut formats (fs_trace (created (Err NotFound)).2)) as [[[later ev] earlier]|] eqn:E; [|vm_compute in E; discriminate E].
  apply cut_Some in E as [Ht Hf]. exists later, ev, earlier. split; [done|]. split; [done|].
  apply (create_formats_only_unused_devices 3 request (start (Err NotFound)) _ _ later ev earlier (created_run _)); [|done].
  cbn [start fs_trace]. by rewrite app_nil_r.
Defined.

Lemma create_wipes_only_its_partitions_witness :
  exists later ev earlier, fs_trace (created (Err NotFound)).2 = (later ++ ev :: earlier)%list /\ wipes ev = true /\
    may_wipe (start (Err NotFound)) request ev (earlier ++ [])%list.
Proof.
  destruct (cut wipes (fs_trace (created (Err NotFound)).2)) as [[[later ev] earlier]|] eqn:E; [|vm_compute in E; discriminate E].
  apply cut_Some in E as [Ht Hf]. exists later, ev, earlier. split; [done|]. split; [done|].
  apply (create_wipes_only_its_partitions 3 request (start (Err NotFound)) _ _ later ev earlier (created_run _)); [|done].
  cbn [start fs_trace]. by rewrite app_nil_r.
Defined.

(** A mounted partition is refused, and nothing is destroyed. *)
Lemma mounted_partition_refused :
  let run := create 3 (set_devices [mkSpec "/dev/sdb1" None None; mkSpec "/dev/sdc" None None] request) (start (Err NotFound)) in
  run.1 = Err (FsDeviceInUse "/dev/sdb1 (/dev/sdb1 is mounted at /)") /\ existsb (fun ev => formats ev || wipes ev || partitions ev) (fs_trace run.2) = false.
Proof. split; vm_compute; reflexivity. Qed.

(** What was written to a file. *)
Definition written (path : string) (ev : Event) : option string :=
  match ev with Did c _ => match c with WriteFile p s => if p =s path then Some s else None | _ => None end end.

(** When the state file cannot be read, it is written again with the new filesystem alone. *)
Lemma unreadable_state_overwritten :
  let run := created (Err (OtherIo "Input/output error (os error 5)")) in
  is_ok run.1 = true /\ omap (written FS_STATE_PATH) (fs_trace run.2) = ["tank"].
Proof. split; vm_compute; reflexivity. Qed.

End FilesystemExample.
