(* ===== verification/Api.v ===== *)
(** * The services behind the arms of the router

    The state that the arms of share.*, subvolume.* and snapshot.* work on: the
    services for subvolumes, shares, protocols and the firewall together, on one
    disk, with the helpers of engine/nasty-engine/src/router/mod.rs that several
    arms use. An arm is a program that ends with a response: its early returns
    are the errors of the monad. Containers and virtual machines are reached
    through calls of their services, which may answer anything. *)
From Stdlib Require Import String Ascii ZArith.
From stdpp Require Import base list gmap strings numbers sorting.
From S2P Require Import Prelude RustStr Disk StateStore AuthTypes AuthStore AuthService JsonRpc Router FirewallRules Firewall Backup ConfigFs BlockWorld Iscsi IscsiService NvmeofService Protocol BlockReconcile FileShare Nfs Smb SmbService Subvolume SubvolumeRead SubvolumeService.

Open Scope string_scope.
Open Scope rust_scope.

(** ** Errors as texts *)

Definition display_nfs_error (e : NfsError) : string :=
  match e with
  | NfsNotFound id => "share not found: " ++ id
  | NfsAlreadyExists p => "share already exists for path: " ++ p
  | NfsPathNotFound p => "path does not exist: " ++ p
  | NfsPathNotInFilesystem p => "path is not within a NASty filesystem: " ++ p
  | NfsInvalidClient s => "invalid NFS client spec: " ++ s
  | NfsExportFailed s => "exportfs failed: " ++ s
  | NfsIo e => "io error: " ++ display_io e
  end.

Definition display_smb_error (e : SmbError) : string :=
  match e with
  | SmbNotFound id => "share not found: " ++ id
  | SmbNameExists n => "share name already exists: " ++ n
  | SmbPathNotFound p => "path does not exist: " ++ p
  | SmbPathNotInFilesystem p => "path is not within a NASty filesystem: " ++ p
  | SmbInvalidName s => "invalid share name: " ++ s
  | TimeMachineRequiresAuth => "a Time Machine share must be authenticated and writable (not guest, not read-only)"
  | SmbReloadFailed s => "samba reload failed: " ++ s
  | SmbPrincipalLookup s => "principal lookup failed: " ++ s
  | SmbIo e => "io error: " ++ display_io e
  end.

(** ** Containers and virtual machines *)

(** A virtual machine as the other services see it. *)
Record VmView := mkVm { vm_id : string; vm_name : string; vm_running : bool; vm_disks : list string }.

(** The calls of the services for containers, virtual machines and backups. *)
Inductive Guest : Type -> Type :=
| AppsStorage : Guest (option string)
| AppsEnabled : Guest bool
| AppsConfigPath : Guest (option string)
| AppsList : Guest (result (list string) string)
| AppStop (name : string) : Guest (result unit string)
| AppStart (name : string) : Guest (result unit string)
| VmList : Guest (result (list VmView) string)
| VmStop (id : string) : Guest (result unit string)
| VmKill (id : string) : Guest (result unit string)
| VmStart (id : string) : Guest (result unit string)
| BackupProfiles : Guest (list (string * list string))
| TailscaleIp : Guest (option string).

Class Guests := {
  GuestState : Type;
  guest_call : forall A, Guest A -> GuestState -> A * GuestState
}.
Arguments guest_call {_ A} _ _.

(** ** The world *)

Record ApiWorld `{Os} `{Guests} := mkApi {
  ap_sub : SvWorld;
  ap_share : ShareWorld;
  ap_file_plan : list Faults;
  ap_file_runs : list (result Output IoErr);
  ap_file_ran : list (string * list string);
  ap_guests : GuestState
}.
Arguments ApiWorld _ _ : clear implicits.
Arguments ApiWorld {_ _}.
Arguments mkApi {_ _} _ _ _ _ _ _.

(** What the calls get from the system. *)
Record ApiEnv := mkApiEnv {
  ae_auth : Env;
  ae_share : ShareEnv;
  ae_iscsi : IscsiEnv;
  (** The identifier of a new file share. *)
  ae_uuid : string;
  (** How often a machine that shuts down is looked at before the deadline. *)
  ae_polls : nat
}.

(** The decoder of a request's parameters and the encoder of its result, derived by [serde]. *)
Class FromValue (T : Type) := from_value : Json -> result T string.
Class ToValue (T : Type) := to_value : T -> Json.

(** The services of [AppState] that the arms use share one engine. *)
Section Api.
Context `{AuthPrims} `{Os} `{Guests} `{ConfigFs} `{Vault} `{IpParser} `{KernelModules} `{ProjectHash} `{ShareTree}.
Context `{!Codec (list BcachefsListEntry)} `{!Codec (gmap string BlockVolumeId)} `{!Codec IscsiTarget} `{!Codec NvmeofSubsystem}
  `{!Codec Json} `{!Codec ProtocolState} `{!Codec FirewallRestrictions} `{!Codec (list CustomRule)} `{!Codec NfsShare} `{!Codec SmbShare}.

Abbreviation Eng := (Engine ApiWorld).
(** An arm, or a part of one. *)
Abbreviation Arm := (M Eng Response).

(** Run a call of a service: its error is a value. *)
Definition within {W E F A} (look : Eng -> W) (put : W -> Eng -> Eng) (m : M W E A) : M Eng F (result A E) := fun g =>
  let '(r, w) := m (look g) in (Ok r, put w g).

Definition set_services (x : ApiWorld) (g : Eng) : Eng := mkEngine (auth g) (events g) x.

Definition put_sub (w : SvWorld) (g : Eng) : Eng :=
  let x := Router.services g in
  set_services (mkApi w (ap_share x) (ap_file_plan x) (ap_file_runs x) (ap_file_ran x) (ap_guests x)) g.
Definition put_share (w : ShareWorld) (g : Eng) : Eng :=
  let x := Router.services g in
  set_services (mkApi (ap_sub x) w (ap_file_plan x) (ap_file_runs x) (ap_file_ran x) (ap_guests x)) g.

Definition subvolumes {F A} (m : M SvWorld SubvolumeError A) : M Eng F (result A SubvolumeError) := within (fun g => ap_sub (Router.services g)) put_sub m.
Definition shares {F A} (m : M ShareWorld string A) : M Eng F (result A string) :=
  within (fun g => ap_share (Router.services g)) put_share m.

(** The block services, the protocols and the firewall are parts of the same world. *)
Definition blocks {E F A} (m : M BlockWorld E A) : M Eng F (result A E) :=
  within (fun g => sw_block (ap_share (Router.services g)))
    (fun b g => let s := ap_share (Router.services g) in
                put_share (mkShareWorld (set_block b (sw_proto s)) (sw_config s) (sw_live s)) g) m.

(** The services for NFS and SMB work on the same disk; their runs of programs are their own. *)
Definition files {E F A} (m : M FileWorld E A) : M Eng F (result A E) :=
  within (fun g => let x := Router.services g in
                   mkFileWorld (bw_disk (sw_block (ap_share x))) (ap_file_plan x) (ap_file_runs x) (ap_file_ran x))
    (fun f g => let x := Router.services g in
                let s := ap_share x in
                set_services (mkApi (ap_sub x)
                  (mkShareWorld (set_block (set_bw_disk (FileShare.fw_disk f) (sw_block s)) (sw_proto s)) (sw_config s) (sw_live s))
                  (fw_plan f) (fw_runs f) (fw_ran f) (ap_guests x)) g) m.

Definition guests {F A} (c : Guest A) : M Eng F A := fun g =>
  let x := Router.services g in
  let '(a, s) := guest_call c (ap_guests x) in
  (Ok a, set_services (mkApi (ap_sub x) (ap_share x) (ap_file_plan x) (ap_file_runs x) (ap_file_ran x) s) g).

(** ** Early returns *)

(** [if let Some(r) = m { return Some(r) }]. *)
Definition gate (m : Eng -> option Response * Eng) : Arm unit := fun g =>
  let '(o, g') := m g in (match o with Some r => Err r | None => Ok tt end, g').

Definition deny {A} (req : Request) (msg : string) : Arm A := throw (err req msg).

(** [match r { Ok(v) => v, Err(e) => return Some(err(req, e)) }]. *)
Definition or_err {E A} (req : Request) (f : E -> string) (r : result A E) : Arm A :=
  match r with Ok a => ret a | Err e => deny req (f e) end.

(** [match m.await { Ok(v) => ok(req, v), Err(e) => err(req, e) }]. *)
Definition answer {E A} (req : Request) (f : E -> string) (v : A -> Json) (m : Arm (result A E)) : Arm Response :=
  r <- m ;;
  a <- or_err req f r ;;
  ret (ok_ req (v a)).

Definition params {T} `{!FromValue T} (req : Request) : Arm T :=
  match parse_params from_value req with
  | Ok p => ret p
  | Err msg => throw (invalid req msg)
  end.

Definition str_arg (req : Request) (key : string) : Arm string := lift (require_str req key).

Definition text_ok {A} (_ : A) : Json := JString "ok".

(** ** Gates *)

Definition root_equivalent (e : ApiEnv) (req : Request) (session : Session) (reason : string) : Arm unit :=
  gate (require_root_equivalent (ae_auth e) req session reason).

Definition require_protocol (e : ApiEnv) (req : Request) (p : Protocol) : Arm unit :=
  r <- shares (on_proto (is_enabled (se_proto (ae_share e)) p)) ;;
  match r with
  | Ok true => ret tt
  | _ => deny req (display_name p ++ " protocol is not enabled — enable it first via service.protocol.enable")
  end.

Definition require_rdma (e : ApiEnv) (req : Request) (module : string) : Arm unit :=
  if negb (pe_rdma (se_proto (ae_share e))) then
    deny req "RDMA transport is disabled on this box — enable RDMA on the Sharing page first (requires an RDMA-capable NIC)"
  else
    r <- shares (on_proto (modprobe module)) ;;
    or_err req id r.

(** ** Who uses a device or a subvolume *)

(** A LUN is on a device, or on a volume. *)
Definition lun_uses (device : option string) (identity : option BlockVolumeId) (l : Lun) : bool :=
  match device with Some d => lu_backstore_path l =s d | None => false end ||
  match identity with Some i => bool_decide (lu_backing_volume l = Some i) | None => false end.

Definition ns_uses (device : option string) (identity : option BlockVolumeId) (n : Namespace) : bool :=
  match device with Some d => ns_device_path n =s d | None => false end ||
  match identity with Some i => bool_decide (ns_backing_volume n = Some i) | None => false end.

Definition target_using (device : option string) (identity : option BlockVolumeId) (l : list IscsiTarget) : option IscsiTarget :=
  List.find (fun t => existsb (lun_uses device identity) (tg_luns t)) l.
Definition subsystem_using (device : option string) (identity : option BlockVolumeId) (l : list NvmeofSubsystem) : option NvmeofSubsystem :=
  List.find (fun s => existsb (ns_uses device identity) (ss_namespaces s)) l.

Definition check_block_device_conflict (device_path exclude_protocol : string) : M Eng Response (option string) :=
  identity <- subvolumes (block_volume_id_for_device device_path) ;;
  match identity with
  | Err e => ret (Some (display_subvolume_error e))
  | Ok identity =>
      iscsi <- (if exclude_protocol =s "iscsi" then ret None
                else
                  targets <- blocks list_iscsi ;;
                  ret (match targets with
                       | Ok targets =>
                           (fun t => "device " ++ device_path ++ " is already exported via iSCSI (target '" ++ tg_iqn t ++ "')")
                             <$> target_using (Some device_path) identity targets
                       | Err e => Some ("cannot verify iSCSI device conflicts because state failed to load: " ++ display_iscsi_error e)
                       end)) ;;
      match iscsi with
      | Some c => ret (Some c)
      | None =>
          if exclude_protocol =s "nvmeof" then ret None
          else
            subsystems <- blocks list_nvmeof ;;
            ret (match subsystems with
                 | Ok subsystems =>
                     (fun s => "device " ++ device_path ++ " is already exported via NVMe-oF (subsystem '" ++ ss_nqn s ++ "')")
                       <$> subsystem_using (Some device_path) identity subsystems
                 | Err e => Some ("cannot verify NVMe-oF device conflicts because state failed to load: " ++ display_nvmeof_error e)
                 end)
      end
  end.

(** The path of a share is the subvolume or below it. *)
Definition path_in_subvol (path subvol_path : string) : bool := (path =s subvol_path) || starts_with (subvol_path ++ "/") path.

(** [if m is Some, that; else k]. *)
Definition or_else {A} (m k : M Eng Response (option A)) : M Eng Response (option A) :=
  r <- m ;;
  match r with Some a => ret (Some a) | None => k end.

Definition used_by_vm (device : option string) : M Eng Response (option string) :=
  match device with
  | None => ret None
  | Some bd =>
      vms <- guests VmList ;;
      ret (match vms with
           | Ok vms => (fun vm => "subvolume is in use as a disk by VM '" ++ vm_name vm ++ "'. Detach the disk first.")
                         <$> List.find (fun vm => existsb (String.eqb bd) (vm_disks vm)) vms
           | Err _ => None
           end)
  end.

Definition check_subvolume_in_use (filesystem name : string) : M Eng Response (option string) :=
  sv <- subvolumes (get filesystem name None) ;;
  match sv with
  | Err _ => ret None
  | Ok sv =>
      or_else (used_by_vm (sv_block_device sv))
     (or_else
        (targets <- blocks list_iscsi ;;
         ret (match targets with
              | Ok targets => (fun t => "subvolume is in use by iSCSI target '" ++ tg_iqn t ++ "'. Delete the target first.")
                                <$> target_using (sv_block_device sv) (sv_block_volume_id sv) targets
              | Err e => Some ("cannot verify iSCSI dependencies because state failed to load: " ++ display_iscsi_error e)
              end))
     (or_else
        (subsystems <- blocks list_nvmeof ;;
         ret (match subsystems with
              | Ok subsystems => (fun s => "subvolume is in use by NVMe-oF subsystem '" ++ ss_nqn s ++ "'. Delete the subsystem first.")
                                   <$> subsystem_using (sv_block_device sv) (sv_block_volume_id sv) subsystems
              | Err e => Some ("cannot verify NVMe-oF dependencies because state failed to load: " ++ display_nvmeof_error e)
              end))
     (or_else
        (nfs <- files nfs_list ;;
         ret (match nfs with
              | Ok nfs => (fun s => "subvolume is shared via NFS (path: " ++ Nfs.ns_path s ++ "). Delete the NFS share first.")
                            <$> List.find (fun s => path_in_subvol (Nfs.ns_path s) (sv_path sv)) nfs
              | Err _ => None
              end))
        (smb <- files smb_list ;;
         ret (match smb with
              | Ok smb => (fun s => "subvolume is shared via SMB as '" ++ sm_name s ++ "'. Delete the SMB share first.")
                            <$> List.find (fun s => path_in_subvol (sm_path s) (sv_path sv)) smb
              | Err _ => None
              end)))))
  end.

(** The first subvolume of a filesystem that is in use. *)
Fixpoint first_in_use (name : string) (l : list Subvolume) : M Eng Response (option string) :=
  match l with
  | [] => ret None
  | sv :: l =>
      r <- check_subvolume_in_use name (sv_name sv) ;;
      match r with
      | Some reason => ret (Some ("filesystem '" ++ name ++ "' cannot be destroyed: subvolume '" ++ sv_name sv ++ "' is in use — " ++ reason))
      | None => first_in_use name l
      end
  end.

Definition check_filesystem_in_use (name : string) : M Eng Response (option string) :=
  subvols <- subvolumes (list_all None None) ;;
  match List.filter (fun sv => sv_filesystem sv =s name) (match subvols with Ok l => l | Err _ => [] end) with
  | [] => ret None
  | l =>
      or_else (first_in_use name l)
        (enabled <- guests AppsEnabled ;;
         if negb enabled then ret None
         else
         storage <- guests AppsConfigPath ;;
         ret (match storage with
              | Some path =>
                  if starts_with ("/fs/" ++ name ++ "/") path
                  then Some ("filesystem '" ++ name ++ "' cannot be destroyed: apps runtime storage is on this filesystem. Disable Apps first.")
                  else None
              | None => None
              end))
  end.

End Api.
