(* ===== verification/ShareApi.v ===== *)
(** * The arms of share.*: engine/nasty-engine/src/router/share.rs

    Who may share what: the scope of a session, the checks of the source and of
    the destination of an export, and one definition per method. *)
From Stdlib Require Import String Ascii ZArith.
From stdpp Require Import base list gmap strings numbers sorting.
From S2P Require Import Prelude RustStr Disk StateStore AuthTypes AuthStore AuthService JsonRpc Router FirewallRules Firewall Backup ConfigFs BlockWorld Iscsi IscsiService NvmeofService Protocol BlockReconcile FileShare Nfs Smb SmbService Subvolume SubvolumeRead SubvolumeService Api.

Open Scope string_scope.
Open Scope rust_scope.

(** ** Requests *)

Record DeleteNfsShareRequest := mkDeleteNfs { dn_id : string }.
Record DeleteSmbShareRequest := mkDeleteSmb { ds_id : string }.
Record DeleteTargetRequest := mkDeleteTarget { dt_id : string }.
Record RemoveLunRequest := mkRemoveLun { rl_target_id : string; rl_lun_id : Z }.
Record RepairLunRequest := mkRepairLun { pl_target_id : string; pl_lun_id : Z; pl_device_path : string }.
Record AddAclRequest := mkAddAcl { aa_target_id : string; aa_initiator_iqn : string; aa_userid : option string; aa_password : option string }.
Record RemoveAclRequest := mkRemoveAcl { ra_target_id : string; ra_initiator_iqn : string }.
Record AddPortalRequest := mkAddPortal { ao_target_id : string; ao_ip : string; ao_port : Z; ao_iser : bool }.
Record SetPortalsRequest := mkSetPortals { sp_target_id : string; sp_portals : list Portal }.
Record RemovePortalRequest := mkRemovePortal { rp_target_id : string; rp_ip : string; rp_port : Z }.
Record DeleteSubsystemRequest := mkDeleteSubsystem { du_id : string }.
Record AddNamespaceRequest := mkAddNamespace { an_subsystem_id : string; an_device_path : string }.
Record RemoveNamespaceRequest := mkRemoveNamespace { rn_subsystem_id : string; rn_nsid : Z }.
Record RepairNamespaceRequest := mkRepairNamespace { pn_subsystem_id : string; pn_nsid : Z; pn_device_path : string }.
Record RemovePortRequest := mkRemovePort { ro_subsystem_id : string; ro_port_id : Z }.
Record AddHostRequest := mkAddHost { ah_subsystem_id : string; ah_host_nqn : string }.
Record RemoveHostRequest := mkRemoveHost { rh_subsystem_id : string; rh_host_nqn : string }.

(** ** Scope *)

Definition resource_matches_scope (filesystem : string) (owner filesystem_filter owner_filter : option string) : bool :=
  match filesystem_filter with None => true | Some filter => filter =s filesystem end &&
  match owner_filter with None => true | Some filter => bool_decide (owner = Some filter) end.

Definition session_is_scoped (session : Session) : bool := is_some (s_filesystem session) || is_some (s_owner session).

Definition session_allows_raw_block_sources (session : Session) : bool :=
  role_eqb (s_role session) Admin && negb (session_is_scoped session).

Definition session_allows_empty_block_destination (session : Session) : bool :=
  role_eqb (s_role session) Operator && negb (session_is_scoped session).

(** The canonical path of a subvolume with its filesystem and owner. *)
Definition Candidate : Type := Path * string * option string.

(** [max_by_key]: of equal keys the last. *)
Definition max_by_length (l : list Candidate) : option Candidate :=
  fold_left (fun best c => match best with
                           | None => Some c
                           | Some b => if (length b.1.1 <=? length c.1.1)%nat then Some c else Some b
                           end) l None.

Definition candidate_matches (filesystem_filter owner_filter : option string) (c : Candidate) : bool :=
  resource_matches_scope c.1.2 c.2 filesystem_filter owner_filter.

Definition path_source_matches_scope (requested : Path) (candidates : list Candidate) (filesystem_filter owner_filter : option string) : bool :=
  match max_by_length (List.filter (fun c => bool_decide (c.1.1 `prefix_of` requested)) candidates) with
  | Some c => candidate_matches filesystem_filter owner_filter c
  | None => false
  end &&
  forallb (candidate_matches filesystem_filter owner_filter) (List.filter (fun c => bool_decide (requested `prefix_of` c.1.1)) candidates).

Definition smb_extra_params_require_admin (existing requested : option (gmap string string)) : bool :=
  match (match requested with Some _ => requested | None => existing end) with
  | Some ps => negb (bool_decide (ps = ∅))
  | None => false
  end.

Definition candidates_of `{ShareTree} (subvolumes : list Subvolume) : list Candidate :=
  omap (fun sv => (fun p => (p, sv_filesystem sv, sv_owner sv)) <$> canonicalize (sv_path sv)) subvolumes.

(** [Path::file_name]. *)
Definition file_name (p : string) : option string :=
  match list.last (components p) with
  | Some n => if n =s ".." then None else Some n
  | None => None
  end.

Definition canonical_fileio_source `{ShareTree} (requested : string) : result Path string :=
  if path_exists requested then ok_or (canonicalize requested) "access denied"
  else
    match file_name requested, IscsiService.parent_text requested with
    | Some name, Some parent =>
        match canonicalize parent with
        | Some p => Ok (p ++ [name])%list
        | None => Err "access denied"
        end
    | _, _ => Err "access denied"
    end.

Definition fileio_source_is_lexically_managed (requested : string) : bool :=
  starts_with "/" requested && under_fs (components requested) && negb (existsb (String.eqb "..") (components requested)).

Definition fileio_source_is_managed `{ShareTree} (requested : string) : bool :=
  match canonical_fileio_source requested with
  | Ok path => under_fs path
  | Err _ => fileio_source_is_lexically_managed requested
  end.

(** Why a LUN makes its target a matter of the administrator. *)
Definition lun_root_reason `{ShareTree} (l : Lun) : option string :=
  let t := lu_backstore_type l in
  if (t =s "block") && (negb (is_some (lu_backing_volume l)) || lu_backing_volume_unresolved l) then Some "raw_iscsi_destination"
  else if (t =s "fileio") && negb (fileio_source_is_managed (lu_backstore_path l)) then Some "unmanaged_iscsi_fileio_destination"
  else if (t =s "block") || (t =s "fileio") then None
  else Some "unknown_iscsi_backstore".

Definition root_reason `{ShareTree} (luns : list Lun) : option string :=
  fold_left (fun reason l => match lun_root_reason l with Some r => Some r | None => reason end) luns None.

Section Shares.
Context `{AuthPrims} `{Os} `{Guests} `{ConfigFs} `{Vault} `{IpParser} `{KernelModules} `{ProjectHash} `{ShareTree}.
Context `{!Codec (list BcachefsListEntry)} `{!Codec (gmap string BlockVolumeId)} `{!Codec IscsiTarget} `{!Codec NvmeofSubsystem}
  `{!Codec Json} `{!Codec ProtocolState} `{!Codec FirewallRestrictions} `{!Codec (list CustomRule)} `{!Codec NfsShare} `{!Codec SmbShare}.

Abbreviation Eng := (Engine ApiWorld).
Abbreviation Arm := (M Eng Response).

(** ** Authorisation *)

Definition text_of (canonical : Path) : result string string :=
  let t := display_path canonical in if valid_utf8 t then Ok t else Err "access denied".

(** The checks of a session's scope on a path, shared by [authorize_path_source] and [authorize_fileio_source]. *)
Definition scope_check (session : Session) (canonical : Path) : Arm (result unit string) :=
  all <- subvolumes (list_all None None) ;;
  ret (match all with
       | Err e => Err (display_subvolume_error e)
       | Ok all =>
           if path_source_matches_scope canonical (candidates_of all) (s_filesystem session) (s_owner session)
           then Ok tt else Err "access denied"
       end).

Definition authorize_path_source (session : Session) (requested : string) : Arm (result string string) :=
  if negb (session_is_scoped session) then ret (Ok requested)
  else
    match canonicalize requested with
    | None => ret (Err "access denied")
    | Some canonical =>
        r <- scope_check session canonical ;;
        ret (match r with Err e => Err e | Ok _ => text_of canonical end)
    end.

Definition is_block_at (device_path : string) (sv : Subvolume) : bool :=
  is_block (sv_type sv) && bool_decide (sv_block_device sv = Some device_path).

Definition authorize_block_source (session : Session) (device_path : string) : Arm (result (option BlockVolumeId) string) :=
  if session_allows_raw_block_sources session then
    r <- subvolumes (block_volume_id_for_device device_path) ;;
    ret (map_err display_subvolume_error r)
  else
    all <- subvolumes (list_all None None) ;;
    ret (match all with
         | Err e => Err (display_subvolume_error e)
         | Ok all =>
             match List.find (is_block_at device_path) all with
             | None => Err "access denied"
             | Some matched =>
                 if negb (resource_matches_scope (sv_filesystem matched) (sv_owner matched) (s_filesystem session) (s_owner session))
                 then Err "access denied"
                 else match sv_block_volume_id matched with
                      | Some id => Ok (Some id)
                      | None => Err ("managed block device " ++ device_path ++ " has no stable bcachefs identity")
                      end
             end
         end).

Definition authorize_fileio_source (session : Session) (requested : string) : Arm (result string string) :=
  if session_allows_raw_block_sources session then ret (Ok requested)
  else
    match canonical_fileio_source requested with
    | Err e => ret (Err e)
    | Ok canonical =>
        if negb (under_fs canonical) then ret (Err "access denied")
        else
          r <- (if session_is_scoped session then scope_check session canonical else ret (Ok tt)) ;;
          ret (match r with Err e => Err e | Ok _ => text_of canonical end)
    end.

(** The identities are those of subvolumes in the scope. *)
Fixpoint identities_in_scope (session : Session) (all : list Subvolume) (identities : list BlockVolumeId) : result unit string :=
  match identities with
  | [] => Ok tt
  | i :: identities =>
      match List.find (fun sv => bool_decide (sv_block_volume_id sv = Some i)) all with
      | None => Err "access denied"
      | Some sv =>
          if resource_matches_scope (sv_filesystem sv) (sv_owner sv) (s_filesystem session) (s_owner session)
          then identities_in_scope session all identities
          else Err "access denied"
      end
  end.

Definition authorize_block_destination (session : Session) (identities : list (option BlockVolumeId)) : Arm (result unit string) :=
  if session_allows_raw_block_sources session then ret (Ok tt)
  else if bool_decide (identities = []) then
    ret (if session_allows_empty_block_destination session then Ok tt else Err "access denied")
  else if existsb (fun i => negb (is_some i)) identities then ret (Err "access denied")
  else
    all <- subvolumes (list_all None None) ;;
    ret (match all with
         | Err e => Err (display_subvolume_error e)
         | Ok all => identities_in_scope session all (omap id identities)
         end).

(** [return Some(block_authorization_error(req, session, error))]. *)
Definition block_authorization_error {A} (e : ApiEnv) (req : Request) (session : Session) (error : string) : Arm A :=
  (if error =s "access denied"
   then modify (audit_engine (ae_auth e) "permission_denied" (s_username session) (ip_or_unknown session)
          ("method=" ++ rq_method req ++ " role=" ++ fmt_debug_role (s_role session) ++ " reason=block_source_policy"))
   else ret tt) ;;;
  deny req error.

Definition or_block_error {A} (e : ApiEnv) (req : Request) (session : Session) (r : result A string) : Arm A :=
  match r with Ok a => ret a | Err error => block_authorization_error e req session error end.

Fixpoint authorize_fileio_luns (e : ApiEnv) (req : Request) (session : Session) (luns : list Lun) : Arm unit :=
  match luns with
  | [] => ret tt
  | l :: luns =>
      r <- authorize_fileio_source session (lu_backstore_path l) ;;
      or_block_error e req session r ;;;
      authorize_fileio_luns e req session luns
  end.

Definition has_type (t : string) (l : Lun) : bool := lu_backstore_type l =s t.

Definition authorized_iscsi_target (e : ApiEnv) (req : Request) (session : Session) (target_id : string) : Arm IscsiTarget :=
  r <- blocks (get_iscsi target_id) ;;
  target <- or_err req display_iscsi_error r ;;
  (match root_reason (tg_luns target) with
   | Some reason => root_equivalent e req session reason
   | None => ret tt
   end) ;;;
  (if session_is_scoped session then
     authorize_fileio_luns e req session (List.filter (has_type "fileio") (tg_luns target)) ;;;
     let identities := lu_backing_volume <$> List.filter (has_type "block") (tg_luns target) in
     if bool_decide (tg_luns target = []) || negb (bool_decide (identities = []))
     then r <- authorize_block_destination session identities ;; or_block_error e req session r
     else ret tt
   else ret tt) ;;;
  ret target.

Definition is_raw_namespace (n : Namespace) : bool := negb (is_some (ns_backing_volume n)) || ns_backing_volume_unresolved n.

Definition authorized_nvmeof_subsystem (e : ApiEnv) (req : Request) (session : Session) (subsystem_id : string) : Arm NvmeofSubsystem :=
  r <- blocks (get_nvmeof subsystem_id) ;;
  subsystem <- or_err req display_nvmeof_error r ;;
  (if existsb is_raw_namespace (ss_namespaces subsystem) then root_equivalent e req session "raw_nvmeof_destination" else ret tt) ;;;
  (if session_is_scoped session then
     r <- authorize_block_destination session (ns_backing_volume <$> ss_namespaces subsystem) ;;
     or_block_error e req session r
   else ret tt) ;;;
  ret subsystem.

(** The device of a new export: its volume, or none for the administrator. *)
Definition block_source (e : ApiEnv) (req : Request) (session : Session) (device_path reason : string) : Arm (option BlockVolumeId) :=
  r <- authorize_block_source session device_path ;;
  identity <- or_block_error e req session r ;;
  (match identity with
   | None => root_equivalent e req session reason
   | Some _ => ret tt
   end) ;;;
  ret identity.

Definition no_conflict (req : Request) (device_path exclude : string) : Arm unit :=
  conflict <- check_block_device_conflict device_path exclude ;;
  match conflict with Some c => deny req c | None => ret tt end.

(** ** NFS and SMB *)

Section Arms.
Context (e : ApiEnv) (req : Request) (session : Session).
Context `{!FromValue CreateNfsShareRequest} `{!FromValue UpdateNfsShareRequest} `{!FromValue DeleteNfsShareRequest}
  `{!FromValue CreateSmbShareRequest} `{!FromValue UpdateSmbShareRequest} `{!FromValue DeleteSmbShareRequest}
  `{!FromValue CreateTargetRequest} `{!FromValue DeleteTargetRequest} `{!FromValue AddLunRequest} `{!FromValue RemoveLunRequest}
  `{!FromValue RepairLunRequest} `{!FromValue AddAclRequest} `{!FromValue RemoveAclRequest} `{!FromValue AddPortalRequest}
  `{!FromValue SetPortalsRequest} `{!FromValue RemovePortalRequest} `{!FromValue CreateSubsystemRequest}
  `{!FromValue DeleteSubsystemRequest} `{!FromValue AddNamespaceRequest} `{!FromValue RemoveNamespaceRequest}
  `{!FromValue RepairNamespaceRequest} `{!FromValue AddPortRequest} `{!FromValue RemovePortRequest} `{!FromValue AddHostRequest}
  `{!FromValue RemoveHostRequest} `{!ToValue NfsShare} `{!ToValue SmbShare} `{!ToValue IscsiTarget} `{!ToValue NvmeofSubsystem}.

Abbreviation nfs_answer := (answer req display_nfs_error).
Abbreviation smb_answer := (answer req display_smb_error).
Abbreviation iscsi_answer := (answer req display_iscsi_error).
Abbreviation nvmeof_answer := (answer req display_nvmeof_error).
Definition to_array {A} `{!ToValue A} (l : list A) : Json := JArray (to_value <$> l).

Definition path_source (path : string) : Arm string :=
  r <- authorize_path_source session path ;;
  or_err req id r.

Definition arm_nfs_create : Arm Response :=
  require_protocol e req FirewallRules.Nfs ;;;
  p <- params (T := CreateNfsShareRequest) req ;;
  path <- path_source (cn_path p) ;;
  nfs_answer to_value (files (nfs_create (ae_uuid e) (mkCreateNfs path (cn_comment p) (cn_clients p) (cn_enabled p)))).

Definition arm_nfs_update : Arm Response :=
  require_protocol e req FirewallRules.Nfs ;;;
  p <- params (T := UpdateNfsShareRequest) req ;;
  r <- files (nfs_get (un_id p)) ;;
  share <- or_err req display_nfs_error r ;;
  path_source (Nfs.ns_path share) ;;;
  nfs_answer to_value (files (nfs_update p)).

Definition arm_nfs_delete : Arm Response :=
  require_protocol e req FirewallRules.Nfs ;;;
  p <- params (T := DeleteNfsShareRequest) req ;;
  r <- files (nfs_get (dn_id p)) ;;
  share <- or_err req display_nfs_error r ;;
  path_source (Nfs.ns_path share) ;;;
  nfs_answer text_ok (files (nfs_delete (dn_id p))).

Definition set_smb_path (path : string) (p : CreateSmbShareRequest) : CreateSmbShareRequest :=
  mkCreateSmb (Smb.cs_name p) path (cs_comment p) (cs_read_only p) (cs_browseable p) (cs_guest_ok p) (cs_valid_users p)
    (cs_extra_params p) (cs_time_machine p) (cs_time_machine_max_size_gib p) (cs_enabled p).

(** A scoped session learns nothing about the shares of others from a name that is taken. *)
Definition smb_name_taken (name : string) : Arm bool :=
  r <- files smb_list ;;
  ret (match r with Ok l => existsb (fun s => eq_ignore_ascii_case (sm_name s) name) l | Err _ => false end).

Definition arm_smb_create : Arm Response :=
  require_protocol e req FirewallRules.Smb ;;;
  p <- params (T := CreateSmbShareRequest) req ;;
  (if smb_extra_params_require_admin None (cs_extra_params p) then root_equivalent e req session "raw_samba_parameters" else ret tt) ;;;
  (if session_is_scoped session then
     taken <- smb_name_taken (Smb.cs_name p) ;;
     if taken : bool then deny req "access denied" else ret tt
   else ret tt) ;;;
  path <- path_source (cs_path p) ;;
  smb_answer to_value (files (smb_create (ae_uuid e) (set_smb_path path p))).

Definition arm_smb_update : Arm Response :=
  require_protocol e req FirewallRules.Smb ;;;
  p <- params (T := UpdateSmbShareRequest) req ;;
  r <- files (smb_get (us_id p)) ;;
  share <- or_err req display_smb_error r ;;
  (if smb_extra_params_require_admin (Some (sm_extra_params share)) (us_extra_params p)
   then root_equivalent e req session "raw_samba_parameters" else ret tt) ;;;
  path_source (sm_path share) ;;;
  smb_answer to_value (files (smb_update p)).

Definition arm_smb_delete : Arm Response :=
  require_protocol e req FirewallRules.Smb ;;;
  p <- params (T := DeleteSmbShareRequest) req ;;
  r <- files (smb_get (ds_id p)) ;;
  share <- or_err req display_smb_error r ;;
  path_source (sm_path share) ;;;
  smb_answer text_ok (files (smb_delete (ds_id p))).

(** ** iSCSI *)

Definition set_target_volume (v : option BlockVolumeId) (p : CreateTargetRequest) : CreateTargetRequest :=
  mkCreateTarget (ct_name p) (ct_alias p) (ct_portals p) (ct_device_path p) v (ct_acls p).

Definition iqn_taken (iqn : string) : Arm bool :=
  r <- blocks list_iscsi ;;
  ret (match r with Ok l => existsb (fun t => eq_ignore_ascii_case (tg_iqn t) iqn) l | Err _ => false end).

Definition arm_iscsi_create : Arm Response :=
  require_protocol e req FirewallRules.Iscsi ;;;
  p <- params (T := CreateTargetRequest) req ;;
  (if session_is_scoped session then
     if negb (is_some (ct_device_path p)) then deny req "access denied"
     else
       taken <- iqn_taken ("iqn.2137-04.storage.nasty:" ++ ct_name p) ;;
       if taken : bool then deny req "access denied" else ret tt
   else ret tt) ;;;
  (if match ct_portals p with Some ps => existsb po_iser ps | None => false end then require_rdma e req "ib_isert" else ret tt) ;;;
  p <- (match ct_device_path p with
        | Some device_path =>
            identity <- block_source e req session device_path "raw_iscsi_source" ;;
            ret (set_target_volume identity p)
        | None => ret p
        end) ;;
  (match ct_device_path p with Some dp => no_conflict req dp "iscsi" | None => ret tt end) ;;;
  iscsi_answer to_value (blocks (create_iscsi (ae_iscsi e) p)).

(** A call on a target that the session may use. *)
Definition on_target (id : string) : Arm unit := authorized_iscsi_target e req session id ;;; ret tt.

Definition arm_iscsi_delete : Arm Response :=
  require_protocol e req FirewallRules.Iscsi ;;;
  p <- params (T := DeleteTargetRequest) req ;;
  on_target (dt_id p) ;;;
  iscsi_answer text_ok (blocks (delete_iscsi (dt_id p))).

Definition is_fileio (p : AddLunRequest) : bool :=
  match al_backstore_type p with
  | Some t => t =s "fileio"
  | None => ie_is_file (ae_iscsi e) (al_backstore_path p)
  end.

Definition arm_iscsi_add_lun : Arm Response :=
  require_protocol e req FirewallRules.Iscsi ;;;
  p <- params (T := AddLunRequest) req ;;
  on_target (al_target_id p) ;;;
  p <- (if is_fileio p then
          r <- authorize_fileio_source session (al_backstore_path p) ;;
          path <- or_block_error e req session r ;;
          ret (mkAddLun (al_target_id p) path (al_backstore_type p) (al_size_bytes p) (al_backing_volume p))
        else
          identity <- block_source e req session (al_backstore_path p) "raw_iscsi_source" ;;
          ret (mkAddLun (al_target_id p) (al_backstore_path p) (al_backstore_type p) (al_size_bytes p) identity)) ;;
  no_conflict req (al_backstore_path p) "iscsi" ;;;
  iscsi_answer to_value (blocks (add_lun (ae_iscsi e) p)).

Definition arm_iscsi_remove_lun : Arm Response :=
  require_protocol e req FirewallRules.Iscsi ;;;
  p <- params (T := RemoveLunRequest) req ;;
  on_target (rl_target_id p) ;;;
  iscsi_answer to_value (blocks (remove_lun (rl_target_id p) (rl_lun_id p))).

(** [failures.push(error)] for a call that failed. *)
Definition pushed {E A} (f : E -> string) (r : result A E) : list string := match r with Ok _ => [] | Err er => [f er] end.

Definition cleanup_text (failures : list string) : option string :=
  match failures with [] => None | _ => Some (String.concat "; " failures) end.

Definition quiesce_iscsi_after_failed_repair : Arm (option string) :=
  a <- shares (on_proto (quiesce_protocol (se_proto (ae_share e)) FirewallRules.Iscsi)) ;;
  b <- shares (on_firewall (close_ (se_fw (ae_share e) 6) FirewallRules.Iscsi)) ;;
  ret (cleanup_text (pushed id a ++ pushed id b)%list).

Definition quiesce_nvmeof_after_failed_repair : Arm (option string) :=
  a <- blocks quiesce ;;
  b <- shares (on_firewall (close_ (se_fw (ae_share e) 6) FirewallRules.Nvmeof)) ;;
  ret (cleanup_text (pushed display_nvmeof_error a ++ pushed id b)%list).

(** [reconcile_block_shares_under_lock] with the devices as they are now. *)
Definition reconcile_now : Arm (result unit string) :=
  mappings <- subvolumes restore_block_devices ;;
  match mappings with
  | Ok m => shares (reconcile_block_shares_under_lock (ae_share e) m)
  | Err er => ret (Err (display_subvolume_error er))
  end.

(** What is said when a repair could not be activated. *)
Definition repair_failure (what activation_error : string) (rollback cleanup : option string) : string :=
  what ++ " repair could not be activated: " ++ activation_error
  ++ match rollback with Some er => "; persisted-state rollback failed: " ++ er | None => "; persisted state was rolled back" end
  ++ match cleanup with Some er => "; safe export cleanup failed: " ++ er | None => "" end.

Definition err_text {E} (f : E -> string) (r : result unit E) : option string :=
  match r with Ok _ => None | Err er => Some (f er) end.

(** The volume of a device that is chosen for a repair. *)
Definition repair_source (device_path exclude : string) : Arm BlockVolumeId :=
  no_conflict req device_path exclude ;;;
  r <- subvolumes (block_volume_id_for_device device_path) ;;
  identity <- or_err req display_subvolume_error r ;;
  match identity with
  | Some i => ret i
  | None => deny req "selected device is not a managed block subvolume"
  end.

Definition unscoped_admin : Arm unit :=
  if negb (role_eqb (s_role session) Admin) || session_is_scoped session
  then deny req "unscoped Admin session required" else ret tt.

Definition arm_iscsi_repair_lun : Arm Response :=
  unscoped_admin ;;;
  p <- params (T := RepairLunRequest) req ;;
  identity <- repair_source (pl_device_path p) "iscsi" ;;
  r <- blocks (repair_lun (pl_target_id p) (pl_lun_id p) (pl_device_path p) identity) ;;
  repaired <- or_err req display_iscsi_error r ;;
  stopped <- shares (on_proto (quiesce_protocol (se_proto (ae_share e)) FirewallRules.Iscsi)) ;;
  activation <- match stopped with
                | Ok _ => reconcile_now
                | Err er => ret (Err ("failed to stop the existing iSCSI export: " ++ er))
                end ;;
  match activation with
  | Ok _ => ret (ok_ req (to_value (redacted_iscsi repaired.1)))
  | Err activation_error =>
      rollback <- blocks (restore_target_state repaired.2) ;;
      cleanup <- quiesce_iscsi_after_failed_repair ;;
      deny req (repair_failure "LUN" activation_error (err_text display_iscsi_error rollback) cleanup)
  end.

Definition arm_iscsi_add_acl : Arm Response :=
  require_protocol e req FirewallRules.Iscsi ;;;
  p <- params (T := AddAclRequest) req ;;
  on_target (aa_target_id p) ;;;
  iscsi_answer to_value (blocks (add_acl (aa_target_id p) (aa_initiator_iqn p) (aa_userid p) (aa_password p))).

Definition arm_iscsi_remove_acl : Arm Response :=
  require_protocol e req FirewallRules.Iscsi ;;;
  p <- params (T := RemoveAclRequest) req ;;
  on_target (ra_target_id p) ;;;
  iscsi_answer to_value (blocks (remove_acl (ra_target_id p) (ra_initiator_iqn p))).

Definition arm_iscsi_add_portal : Arm Response :=
  require_protocol e req FirewallRules.Iscsi ;;;
  p <- params (T := AddPortalRequest) req ;;
  on_target (ao_target_id p) ;;;
  (if ao_iser p then require_rdma e req "ib_isert" else ret tt) ;;;
  iscsi_answer to_value (blocks (add_portal (ao_target_id p) (ao_ip p) (ao_port p) (ao_iser p))).

Definition arm_iscsi_set_portals : Arm Response :=
  require_protocol e req FirewallRules.Iscsi ;;;
  p <- params (T := SetPortalsRequest) req ;;
  on_target (sp_target_id p) ;;;
  (if existsb po_iser (sp_portals p) then require_rdma e req "ib_isert" else ret tt) ;;;
  iscsi_answer to_value (blocks (set_portals (sp_target_id p) (sp_portals p))).

Definition arm_iscsi_remove_portal : Arm Response :=
  require_protocol e req FirewallRules.Iscsi ;;;
  p <- params (T := RemovePortalRequest) req ;;
  on_target (rp_target_id p) ;;;
  iscsi_answer to_value (blocks (remove_portal (rp_target_id p) (rp_ip p) (rp_port p))).

(** ** NVMe-oF *)

Definition set_subsystem_volume (v : option BlockVolumeId) (p : CreateSubsystemRequest) : CreateSubsystemRequest :=
  mkCreateSubsystem (NvmeofService.cs_name p) (cs_allow_any_host p) (cs_device_path p) v (cs_addr p) (cs_port p) (cs_allowed_hosts p).

Definition nqn_taken (nqn : string) : Arm bool :=
  r <- blocks list_nvmeof ;;
  ret (match r with Ok l => existsb (fun s => ss_nqn s =s nqn) l | Err _ => false end).

(** A port on the Tailscale address, if there is one: a failure is only logged. *)
Definition add_tailscale_port (v : NvmeofSubsystem) : Arm unit :=
  if bool_decide (ss_ports v = []) then ret tt
  else
    ip <- guests TailscaleIp ;;
    match ip with
    | Some ip =>
        blocks (add_port (se_nvmeof (ae_share e)) (mkAddPort (ss_id v) (Some "tcp") (Some ip) (Some 4420%Z) (Some "ipv4"))) ;;; ret tt
    | None => ret tt
    end.

Definition arm_nvmeof_create : Arm Response :=
  require_protocol e req FirewallRules.Nvmeof ;;;
  p <- params (T := CreateSubsystemRequest) req ;;
  (if session_is_scoped session then
     if negb (is_some (cs_device_path p)) then deny req "access denied"
     else
       taken <- nqn_taken ("nqn.2137-04.storage.nasty:" ++ NvmeofService.cs_name p) ;;
       if taken : bool then deny req "access denied" else ret tt
   else ret tt) ;;;
  p <- (match cs_device_path p with
        | Some device_path =>
            identity <- block_source e req session device_path "raw_nvmeof_source" ;;
            ret (set_subsystem_volume identity p)
        | None => ret p
        end) ;;
  (match cs_device_path p with Some dp => no_conflict req dp "nvmeof" | None => ret tt end) ;;;
  r <- blocks (create_nvmeof (se_nvmeof (ae_share e)) p) ;;
  v <- or_err req display_nvmeof_error r ;;
  add_tailscale_port v ;;;
  ret (ok_ req (to_value v)).

Definition on_subsystem (id : string) : Arm unit := authorized_nvmeof_subsystem e req session id ;;; ret tt.

Definition arm_nvmeof_delete : Arm Response :=
  require_protocol e req FirewallRules.Nvmeof ;;;
  p <- params (T := DeleteSubsystemRequest) req ;;
  on_subsystem (du_id p) ;;;
  nvmeof_answer text_ok (blocks (delete_nvmeof (du_id p))).

Definition arm_nvmeof_add_namespace : Arm Response :=
  require_protocol e req FirewallRules.Nvmeof ;;;
  p <- params (T := AddNamespaceRequest) req ;;
  on_subsystem (an_subsystem_id p) ;;;
  identity <- block_source e req session (an_device_path p) "raw_nvmeof_source" ;;
  no_conflict req (an_device_path p) "nvmeof" ;;;
  nvmeof_answer to_value (blocks (add_namespace (se_nvmeof (ae_share e)) (an_subsystem_id p) (an_device_path p) identity)).

Definition arm_nvmeof_remove_namespace : Arm Response :=
  require_protocol e req FirewallRules.Nvmeof ;;;
  p <- params (T := RemoveNamespaceRequest) req ;;
  on_subsystem (rn_subsystem_id p) ;;;
  nvmeof_answer to_value (blocks (remove_namespace (rn_subsystem_id p) (rn_nsid p))).

Definition arm_nvmeof_repair_namespace : Arm Response :=
  unscoped_admin ;;;
  p <- params (T := RepairNamespaceRequest) req ;;
  identity <- repair_source (pn_device_path p) "nvmeof" ;;
  r <- blocks (repair_namespace (pn_subsystem_id p) (pn_nsid p) (pn_device_path p) identity) ;;
  repaired <- or_err req display_nvmeof_error r ;;
  stopped <- blocks quiesce ;;
  activation <- match stopped with
                | Ok _ => reconcile_now
                | Err er => ret (Err ("failed to stop the existing NVMe-oF export: " ++ display_nvmeof_error er))
                end ;;
  match activation with
  | Ok _ => ret (ok_ req (to_value repaired.1))
  | Err activation_error =>
      rollback <- blocks (restore_subsystem_state repaired.2) ;;
      cleanup <- quiesce_nvmeof_after_failed_repair ;;
      deny req (repair_failure "namespace" activation_error (err_text display_nvmeof_error rollback) cleanup)
  end.

Definition arm_nvmeof_add_port : Arm Response :=
  require_protocol e req FirewallRules.Nvmeof ;;;
  p <- params (T := AddPortRequest) req ;;
  on_subsystem (ap_subsystem_id p) ;;;
  (if bool_decide (ap_transport p = Some "rdma") then require_rdma e req "nvmet-rdma" else ret tt) ;;;
  nvmeof_answer to_value (blocks (add_port (se_nvmeof (ae_share e)) p)).

Definition arm_nvmeof_remove_port : Arm Response :=
  require_protocol e req FirewallRules.Nvmeof ;;;
  p <- params (T := RemovePortRequest) req ;;
  on_subsystem (ro_subsystem_id p) ;;;
  nvmeof_answer to_value (blocks (remove_port (ro_subsystem_id p) (ro_port_id p))).

Definition arm_nvmeof_add_host : Arm Response :=
  require_protocol e req FirewallRules.Nvmeof ;;;
  p <- params (T := AddHostRequest) req ;;
  on_subsystem (ah_subsystem_id p) ;;;
  nvmeof_answer to_value (blocks (add_host (ah_subsystem_id p) (ah_host_nqn p))).

Definition arm_nvmeof_remove_host : Arm Response :=
  require_protocol e req FirewallRules.Nvmeof ;;;
  p <- params (T := RemoveHostRequest) req ;;
  on_subsystem (rh_subsystem_id p) ;;;
  nvmeof_answer to_value (blocks (remove_host (rh_subsystem_id p) (rh_host_nqn p))).

(** ** The methods *)

(** The reading arms, which know no scope. *)
Definition share_reads : list (string * Arm Response) := [
  ("share.nfs.list", nfs_answer to_array (files nfs_list));
  ("share.nfs.get", id <- str_arg req "id" ;; nfs_answer to_value (files (nfs_get id)));
  ("share.smb.list", smb_answer to_array (files smb_list));
  ("share.smb.get", id <- str_arg req "id" ;; smb_answer to_value (files (smb_get id)));
  ("share.iscsi.list", iscsi_answer to_array (blocks list_iscsi));
  ("share.iscsi.get", id <- str_arg req "id" ;; iscsi_answer to_value (blocks (get_iscsi id)));
  ("share.nvmeof.list", nvmeof_answer to_array (blocks list_nvmeof));
  ("share.nvmeof.get", id <- str_arg req "id" ;; nvmeof_answer to_value (blocks (get_nvmeof id)))].

Definition share_changes : list (string * Arm Response) := [
  ("share.nfs.create", arm_nfs_create); ("share.nfs.update", arm_nfs_update); ("share.nfs.delete", arm_nfs_delete);
  ("share.smb.create", arm_smb_create); ("share.smb.update", arm_smb_update); ("share.smb.delete", arm_smb_delete);
  ("share.iscsi.create", arm_iscsi_create); ("share.iscsi.delete", arm_iscsi_delete);
  ("share.iscsi.add_lun", arm_iscsi_add_lun); ("share.iscsi.remove_lun", arm_iscsi_remove_lun);
  ("share.iscsi.repair_lun", arm_iscsi_repair_lun); ("share.iscsi.add_acl", arm_iscsi_add_acl);
  ("share.iscsi.remove_acl", arm_iscsi_remove_acl); ("share.iscsi.add_portal", arm_iscsi_add_portal);
  ("share.iscsi.set_portals", arm_iscsi_set_portals); ("share.iscsi.remove_portal", arm_iscsi_remove_portal);
  ("share.nvmeof.create", arm_nvmeof_create); ("share.nvmeof.delete", arm_nvmeof_delete);
  ("share.nvmeof.add_namespace", arm_nvmeof_add_namespace); ("share.nvmeof.remove_namespace", arm_nvmeof_remove_namespace);
  ("share.nvmeof.repair_namespace", arm_nvmeof_repair_namespace); ("share.nvmeof.add_port", arm_nvmeof_add_port);
  ("share.nvmeof.remove_port", arm_nvmeof_remove_port); ("share.nvmeof.add_host", arm_nvmeof_add_host);
  ("share.nvmeof.remove_host", arm_nvmeof_remove_host)].

(** The [match] on the method: the arm, if there is one. *)
Definition find_arm (m : string) (l : list (string * Arm Response)) : option (Arm Response) :=
  snd <$> List.find (fun a => a.1 =s m) l.

(** An arm answers with its response, or with that of an early return. *)
Definition run_arm (m : Arm Response) (g : Eng) : Response * Eng :=
  let '(r, g') := m g in (match r with Ok a => a | Err a => a end, g').

Definition route_inner (g : Eng) : option Response * Eng :=
  match find_arm (rq_method req) (share_reads ++ share_changes)%list with
  | Some arm => let '(r, g') := run_arm arm g in (Some r, g')
  | None => (None, g)
  end.

(** ** The ports of the firewall *)

Definition tcp_port (port : Z) : PortSpec := FirewallRules.mkPort port None Tcp None None.

(** A [BTreeSet] of ports, in order. *)
Definition port_set (l : list Z) : list Z := merge_sort Z.le (remove_dups l).

Definition or_default (port : Z) (l : list Z) : list Z := match l with [] => [port] | _ => l end.

Definition portal_ports (targets : list IscsiTarget) : list Z :=
  or_default 3260 (port_set (flat_map (fun t => po_port <$> tg_portals t) targets)).

Definition listener_ports (subsystems : list NvmeofSubsystem) : list Z :=
  or_default 4420 (port_set (flat_map (fun s => omap (fun p => parse_unsigned (2 ^ 16 - 1) (pt_service_id p))
                              (List.filter (fun p => pt_transport p =s "tcp") (ss_ports s))) subsystems)).

Definition portal_firewall_ports : M Eng string (list PortSpec * list PortSpec) :=
  targets <- blocks list_iscsi ;;
  targets <- lift (map_err (fun er => "list iSCSI targets: " ++ display_iscsi_error er) targets) ;;
  subsystems <- blocks list_nvmeof ;;
  subsystems <- lift (map_err (fun er => "list NVMe-oF subsystems: " ++ display_nvmeof_error er) subsystems) ;;
  ret (tcp_port <$> portal_ports targets, tcp_port <$> listener_ports subsystems).

Definition sync_portal_firewall_ports : M Eng string unit :=
  ports <- portal_firewall_ports ;;
  r <- shares (on_firewall (set_portal_ports (se_fw (ae_share e) 7) ports.1 ports.2)) ;;
  lift r.

Definition changes_portals (m : string) : bool := matches m [
  "share.iscsi.create"; "share.iscsi.delete"; "share.iscsi.add_portal"; "share.iscsi.remove_portal"; "share.iscsi.set_portals";
  "share.nvmeof.create"; "share.nvmeof.delete"; "share.nvmeof.add_port"; "share.nvmeof.remove_port"].

Definition share_try_route (g : Eng) : option Response * Eng :=
  match route_inner g with
  | (None, g') => (None, g')
  | (Some resp, g') =>
      if negb (changes_portals (rq_method req)) then (Some resp, g')
      else
        match sync_portal_firewall_ports g' with
        | (Ok _, g'') => (Some resp, g'')
        | (Err er, g'') =>
            (Some (match rs_error resp with
                   | None => err req ("share changed but firewall port synchronization failed: " ++ er)
                   | Some _ => resp
                   end), g'')
        end
  end.

End Arms.
End Shares.
