(* ===== verification/SubvolumeApi.v ===== *)
(** * The arms of subvolume.* and snapshot.*

    engine/nasty-engine/src/router/subvolume.rs and router/snapshot.rs, with what
    depends on a subvolume (subvolume_dependents.rs) and the rollback that stops
    and resumes the dependents around the swap (subvol_rollback.rs). *)
From Stdlib Require Import String Ascii ZArith.
From stdpp Require Import base list gmap strings numbers sorting.
From S2P Require Import Prelude RustStr Disk StateStore AuthTypes AuthStore AuthService JsonRpc Router FirewallRules Firewall Backup ConfigFs BlockWorld Iscsi IscsiService NvmeofService Protocol BlockReconcile FileShare Nfs Smb SmbService Subvolume SubvolumeRead SubvolumeService Api ShareApi.

Open Scope string_scope.
Open Scope rust_scope.

(** ** Dependents *)

Record SubvolumeDependents := mkDependents {
  dp_filesystem : string;
  dp_name : string;
  dp_path : string;
  dp_apps : list string;
  dp_vms : list string;
  dp_backup_jobs : list string;
  dp_nfs_shares : list string;
  dp_smb_shares : list string;
  dp_iscsi_targets : list string;
  dp_nvmeof_subsystems : list string;
  dp_state_errors : list string
}.

Definition no_dependents : SubvolumeDependents := mkDependents "" "" "" [] [] [] [] [] [] [] [].

(** [paths_desc] is sorted, the longest first. *)
Definition owning_subvol (paths_desc : list string) (target : string) : option string := List.find (path_in_subvol target) paths_desc.

Definition longer (a b : string) : Prop := (String.length b <= String.length a)%nat.
#[export] Instance longer_dec a b : Decision (longer a b) := decide (String.length b <= String.length a)%nat.

(** The subvolumes and the ways to find one. *)
Record SubvolIndex := mkIndex {
  ix_paths_desc : list string;
  ix_by_block_dev : gmap string string;
  ix_by_block_id : gmap BlockVolumeId string
}.

Definition index_of (subvols : list Subvolume) : SubvolIndex :=
  mkIndex (merge_sort longer (sv_path <$> subvols))
    (fold_left (fun m sv => match sv_block_device sv with Some d => <[d := sv_path sv]> m | None => m end) subvols ∅)
    (fold_left (fun m sv => match sv_block_volume_id sv with Some i => <[i := sv_path sv]> m | None => m end) subvols ∅).

Abbreviation Buckets := (gmap string SubvolumeDependents).

Definition empty_buckets (subvols : list Subvolume) : Buckets :=
  fold_left (fun m sv => <[sv_path sv := mkDependents (sv_filesystem sv) (sv_name sv) (sv_path sv) [] [] [] [] [] [] [] []]> m) subvols ∅.

Definition opt_list {A} (o : option A) : list A := match o with Some a => [a] | None => [] end.

(** The subvolumes that a path, a device or a volume belongs to. *)
Definition owners_of_path (ix : SubvolIndex) (path : string) : list string :=
  (opt_list (owning_subvol (ix_paths_desc ix) path) ++ opt_list (ix_by_block_dev ix !! path))%list.
Definition owners_of_volume (ix : SubvolIndex) (v : option BlockVolumeId) : list string :=
  opt_list (v ≫= fun i => ix_by_block_id ix !! i).

(** Something is counted once for each of its subvolumes. *)
Definition attribute (f : SubvolumeDependents -> SubvolumeDependents) (owners : list string) (m : Buckets) : Buckets :=
  fold_left (fun m p => alter f p m) (remove_dups owners) m.

Definition add_apps (l : list string) (d : SubvolumeDependents) : SubvolumeDependents :=
  mkDependents (dp_filesystem d) (dp_name d) (dp_path d) l (dp_vms d) (dp_backup_jobs d) (dp_nfs_shares d) (dp_smb_shares d)
    (dp_iscsi_targets d) (dp_nvmeof_subsystems d) (dp_state_errors d).
Definition add_vm (n : string) (d : SubvolumeDependents) : SubvolumeDependents :=
  mkDependents (dp_filesystem d) (dp_name d) (dp_path d) (dp_apps d) (dp_vms d ++ [n])%list (dp_backup_jobs d) (dp_nfs_shares d)
    (dp_smb_shares d) (dp_iscsi_targets d) (dp_nvmeof_subsystems d) (dp_state_errors d).
Definition add_backup (n : string) (d : SubvolumeDependents) : SubvolumeDependents :=
  mkDependents (dp_filesystem d) (dp_name d) (dp_path d) (dp_apps d) (dp_vms d) (dp_backup_jobs d ++ [n])%list (dp_nfs_shares d)
    (dp_smb_shares d) (dp_iscsi_targets d) (dp_nvmeof_subsystems d) (dp_state_errors d).
Definition add_nfs (n : string) (d : SubvolumeDependents) : SubvolumeDependents :=
  mkDependents (dp_filesystem d) (dp_name d) (dp_path d) (dp_apps d) (dp_vms d) (dp_backup_jobs d) (dp_nfs_shares d ++ [n])%list
    (dp_smb_shares d) (dp_iscsi_targets d) (dp_nvmeof_subsystems d) (dp_state_errors d).
Definition add_smb (n : string) (d : SubvolumeDependents) : SubvolumeDependents :=
  mkDependents (dp_filesystem d) (dp_name d) (dp_path d) (dp_apps d) (dp_vms d) (dp_backup_jobs d) (dp_nfs_shares d)
    (dp_smb_shares d ++ [n])%list (dp_iscsi_targets d) (dp_nvmeof_subsystems d) (dp_state_errors d).
Definition add_iscsi (n : string) (d : SubvolumeDependents) : SubvolumeDependents :=
  mkDependents (dp_filesystem d) (dp_name d) (dp_path d) (dp_apps d) (dp_vms d) (dp_backup_jobs d) (dp_nfs_shares d)
    (dp_smb_shares d) (dp_iscsi_targets d ++ [n])%list (dp_nvmeof_subsystems d) (dp_state_errors d).
Definition add_nvmeof (n : string) (d : SubvolumeDependents) : SubvolumeDependents :=
  mkDependents (dp_filesystem d) (dp_name d) (dp_path d) (dp_apps d) (dp_vms d) (dp_backup_jobs d) (dp_nfs_shares d)
    (dp_smb_shares d) (dp_iscsi_targets d) (dp_nvmeof_subsystems d ++ [n])%list (dp_state_errors d).
Definition add_state_error (n : string) (d : SubvolumeDependents) : SubvolumeDependents :=
  mkDependents (dp_filesystem d) (dp_name d) (dp_path d) (dp_apps d) (dp_vms d) (dp_backup_jobs d) (dp_nfs_shares d)
    (dp_smb_shares d) (dp_iscsi_targets d) (dp_nvmeof_subsystems d) (dp_state_errors d ++ [n])%list.

(** [filter_map(|sv| by_path.remove(&sv.path))]. *)
Fixpoint take_buckets (subvols : list Subvolume) (m : Buckets) : list SubvolumeDependents :=
  match subvols with
  | [] => []
  | sv :: subvols =>
      match m !! sv_path sv with
      | Some d => d :: take_buckets subvols (base.delete (sv_path sv) m)
      | None => take_buckets subvols m
      end
  end.

Definition count_vms (ix : SubvolIndex) (vms : list VmView) (m : Buckets) : Buckets :=
  fold_left (fun m vm => attribute (add_vm (vm_name vm)) (flat_map (owners_of_path ix) (vm_disks vm)) m) vms m.
Definition count_backups (ix : SubvolIndex) (ps : list (string * list string)) (m : Buckets) : Buckets :=
  fold_left (fun m p => attribute (add_backup p.1) (flat_map (fun src => opt_list (owning_subvol (ix_paths_desc ix) src)) p.2) m) ps m.
Definition count_nfs (ix : SubvolIndex) (l : list NfsShare) (m : Buckets) : Buckets :=
  fold_left (fun m s => attribute (add_nfs (Nfs.ns_id s)) (opt_list (owning_subvol (ix_paths_desc ix) (Nfs.ns_path s))) m) l m.
Definition count_smb (ix : SubvolIndex) (l : list SmbShare) (m : Buckets) : Buckets :=
  fold_left (fun m s => attribute (add_smb (sm_name s)) (opt_list (owning_subvol (ix_paths_desc ix) (sm_path s))) m) l m.
Definition count_iscsi (ix : SubvolIndex) (l : list IscsiTarget) (m : Buckets) : Buckets :=
  fold_left (fun m t => attribute (add_iscsi (tg_iqn t))
    (flat_map (fun x => (owners_of_path ix (lu_backstore_path x) ++ owners_of_volume ix (lu_backing_volume x))%list) (tg_luns t)) m) l m.
Definition count_nvmeof (ix : SubvolIndex) (l : list NvmeofSubsystem) (m : Buckets) : Buckets :=
  fold_left (fun m s => attribute (add_nvmeof (ss_nqn s))
    (flat_map (fun n => (owners_of_path ix (ns_device_path n) ++ owners_of_volume ix (ns_backing_volume n))%list) (ss_namespaces s)) m) l m.

Definition filesystem_scope_denied (scope : option string) (requested : string) : bool :=
  match scope with Some filesystem => negb (filesystem =s requested) | None => false end.

Section Arms.
Context `{AuthPrims} `{Os} `{Guests} `{ConfigFs} `{Vault} `{IpParser} `{KernelModules} `{ProjectHash} `{ShareTree}.
Context `{!Codec (list BcachefsListEntry)} `{!Codec (gmap string BlockVolumeId)} `{!Codec IscsiTarget} `{!Codec NvmeofSubsystem}
  `{!Codec Json} `{!Codec ProtocolState} `{!Codec FirewallRestrictions} `{!Codec (list CustomRule)} `{!Codec NfsShare} `{!Codec SmbShare}.

Abbreviation Eng := (Engine ApiWorld).
Abbreviation Arm := (M Eng Response).

Definition find_all_subvolume_dependents : Arm (list SubvolumeDependents) :=
  all <- subvolumes (list_all None None) ;;
  let subvols := match all with Ok l => l | Err _ => [] end in
  let ix := index_of subvols in
  let m := empty_buckets subvols in
  storage <- guests AppsStorage ;;
  m <- (match storage ≫= owning_subvol (ix_paths_desc ix) with
        | Some owning =>
            apps <- guests AppsList ;;
            ret (match apps with Ok apps => alter (add_apps apps) owning m | Err _ => m end)
        | None => ret m
        end) ;;
  vms <- guests VmList ;;
  let m := match vms with Ok vms => count_vms ix vms m | Err _ => m end in
  profiles <- guests BackupProfiles ;;
  let m := count_backups ix profiles m in
  nfs <- files nfs_list ;;
  let m := match nfs with Ok l => count_nfs ix l m | Err _ => m end in
  smb <- files smb_list ;;
  let m := match smb with Ok l => count_smb ix l m | Err _ => m end in
  targets <- blocks list_iscsi ;;
  let m := match targets with
           | Ok l => count_iscsi ix l m
           | Err er => add_state_error ("iSCSI state failed to load: " ++ display_iscsi_error er) <$> m
           end in
  subsystems <- blocks list_nvmeof ;;
  let m := match subsystems with
           | Ok l => count_nvmeof ix l m
           | Err er => add_state_error ("NVMe-oF state failed to load: " ++ display_nvmeof_error er) <$> m
           end in
  ret (take_buckets subvols m).

(** ** Rollback with its dependents *)

(** A part of the cascade; an error is a text. *)
Abbreviation Cascade := (M Eng string).

Fixpoint stop_apps (apps : list string) : Cascade unit :=
  match apps with
  | [] => ret tt
  | app :: apps =>
      r <- guests (AppStop app) ;;
      match r with
      | Ok _ => stop_apps apps
      | Err er => throw ("rollback aborted before any change: app '" ++ app ++ "' failed to stop (" ++ er ++ ")")
      end
  end.

Fixpoint resume_apps (apps : list string) : Cascade unit :=
  match apps with
  | [] => ret tt
  | app :: apps => guests (AppStart app) ;;; resume_apps apps
  end.

Definition resolve_vm_ids (names : list string) : Cascade (list (string * string)) :=
  vms <- guests VmList ;;
  ret (match vms with
       | Err _ => []
       | Ok vms => omap (fun n => (fun v => (vm_id v, n)) <$> List.find (fun v => vm_name v =s n) vms) names
       end).

Definition is_vm_running (id : string) : Cascade bool :=
  vms <- guests VmList ;;
  ret (match vms with
       | Ok vms => match List.find (fun v => vm_id v =s id) vms with Some v => vm_running v | None => false end
       | Err _ => false
       end).

(** [wait_until_stopped]: look, and look again until the deadline. *)
Fixpoint wait_until_stopped (polls : nat) (id : string) : Cascade bool :=
  running <- is_vm_running id ;;
  if negb running then ret true
  else match polls with
       | O => ret false
       | S polls => wait_until_stopped polls id
       end.

(** Ask a machine to stop, and kill it when it does not. *)
Definition stop_vm (polls : nat) (apps : list string) (vm : string * string) : Cascade unit :=
  running <- is_vm_running vm.1 ;;
  if negb running then ret tt
  else
    r <- guests (VmStop vm.1) ;;
    stopped <- match r with Ok _ => wait_until_stopped polls vm.1 | Err _ => ret false end ;;
    if stopped : bool then ret tt
    else
      k <- guests (VmKill vm.1) ;;
      match k with
      | Ok _ => ret tt
      | Err er =>
          resume_apps apps ;;;
          throw ("rollback aborted: VM '" ++ vm.2 ++ "' wouldn't shut down and force-kill failed (" ++ er
            ++ "). Stopped apps were restarted; manually stop the VM and retry.")
      end.

Definition smb_enabled_req (id : string) (enabled : bool) : UpdateSmbShareRequest :=
  mkUpdateSmb id None None None None None None None None None (Some enabled).
Definition nfs_enabled_req (id : string) (enabled : bool) : UpdateNfsShareRequest := mkUpdateNfs id None None (Some enabled).

(** Try each; the ids of those that went through. *)
Fixpoint toggle {A} (f : A -> string) (upd : string -> Cascade bool) (l : list A) : Cascade (list string) :=
  match l with
  | [] => ret []
  | a :: l =>
      ok <- upd (f a) ;;
      rest <- toggle f upd l ;;
      ret (if ok then f a :: rest else rest)
  end.

Definition update_smb_enabled (enabled : bool) (id : string) : Cascade bool :=
  r <- files (smb_update (smb_enabled_req id enabled)) ;; ret (is_ok r).
Definition update_nfs_enabled (enabled : bool) (id : string) : Cascade bool :=
  r <- files (nfs_update (nfs_enabled_req id enabled)) ;; ret (is_ok r).

Definition set_smb_shares_enabled (subvol_path : string) (enabled : bool) : Cascade (list string) :=
  r <- files smb_list ;;
  match r with
  | Err _ => ret []
  | Ok l => toggle sm_id (update_smb_enabled enabled)
              (List.filter (fun s => negb (Bool.eqb (sm_enabled s) enabled) && path_in_subvol (sm_path s) subvol_path) l)
  end.

Definition set_nfs_shares_enabled (subvol_path : string) (enabled : bool) : Cascade (list string) :=
  r <- files nfs_list ;;
  match r with
  | Err _ => ret []
  | Ok l => toggle Nfs.ns_id (update_nfs_enabled enabled)
              (List.filter (fun s => negb (Bool.eqb (Nfs.ns_enabled s) enabled) && path_in_subvol (Nfs.ns_path s) subvol_path) l)
  end.

Definition reenable_smb_shares (ids : list string) : Cascade unit := toggle id (update_smb_enabled true) ids ;;; ret tt.
Definition reenable_nfs_shares (ids : list string) : Cascade unit := toggle id (update_nfs_enabled true) ids ;;; ret tt.

Fixpoint start_vms (vms : list (string * string)) : Cascade unit :=
  match vms with
  | [] => ret tt
  | vm :: vms => guests (VmStart vm.1) ;;; start_vms vms
  end.

Definition dependents_of (filesystem name : string) (l : list SubvolumeDependents) : SubvolumeDependents :=
  default no_dependents (List.find (fun d => (dp_filesystem d =s filesystem) && (dp_name d =s name)) l).

(** The answer of a program that does not return early. *)
Definition arm_value {A} (d : A) (m : Arm A) : Cascade A := fun g =>
  let '(r, g') := m g in (Ok (match r with Ok a => a | Err _ => d end), g').

Definition rollback_with_dependents (e : ApiEnv) (req : RollbackSnapshotRequest) (owner_filter : option string)
    (allow_admin_override : bool) : Cascade RollbackResult :=
  lift (map_err display_subvolume_error (validate_existing_snapshot_name (rb_subvolume req) (rb_snapshot req))) ;;;
  r <- subvolumes (get (rb_filesystem req) (rb_subvolume req) owner_filter) ;;
  sv <- lift (map_err display_subvolume_error r) ;;
  throw_if (is_block (sv_type sv) || is_some (sv_block_device sv))
    "rollback is not yet supported for block subvolumes (iSCSI / NVMe-oF / VM disks)" ;;;
  all <- arm_value [] find_all_subvolume_dependents ;;
  let deps := dependents_of (rb_filesystem req) (rb_subvolume req) all in
  stop_apps (dp_apps deps) ;;;
  vm_ids <- resolve_vm_ids (dp_vms deps) ;;
  for_each (stop_vm (ae_polls e) (dp_apps deps)) vm_ids ;;;
  smb_ids <- set_smb_shares_enabled (sv_path sv) false ;;
  nfs_ids <- set_nfs_shares_enabled (sv_path sv) false ;;
  result <- subvolumes (rollback req owner_filter allow_admin_override) ;;
  reenable_nfs_shares nfs_ids ;;;
  reenable_smb_shares smb_ids ;;;
  start_vms vm_ids ;;;
  resume_apps (dp_apps deps) ;;;
  lift (map_err display_subvolume_error result).

(** ** subvolume.* *)

Context (e : ApiEnv) (req : Request) (session : Session).
Context `{!FromValue CreateSubvolumeRequest} `{!FromValue DeleteSubvolumeRequest} `{!FromValue ResizeSubvolumeRequest}
  `{!FromValue UpdateSubvolumeRequest} `{!FromValue CloneSubvolumeRequest} `{!FromValue SetPropertiesRequest}
  `{!FromValue RemovePropertiesRequest} `{!FromValue FindByPropertyRequest} `{!FromValue CreateSnapshotRequest}
  `{!FromValue DeleteSnapshotRequest} `{!FromValue CloneSnapshotRequest} `{!FromValue RollbackSnapshotRequest}
  `{!ToValue Subvolume} `{!ToValue Snapshot} `{!ToValue RollbackResult} `{!ToValue SubvolumeDependents}.

Abbreviation sv_answer := (answer req display_subvolume_error).
Abbreviation owner := (s_owner session).

(** [if session.filesystem.as_deref().is_some_and(|f| f != filesystem) { err(req, "access denied") }]. *)
Definition in_filesystem (filesystem : string) : Arm unit :=
  if filesystem_scope_denied (s_filesystem session) filesystem then deny req "access denied" else ret tt.

(** The arms that take a filesystem and a name. *)
Definition named_arm {A} `{!ToValue A} (f : string -> string -> M SvWorld SubvolumeError A) : Arm Response :=
  fs_name <- str_arg req "filesystem" ;;
  name <- str_arg req "name" ;;
  in_filesystem fs_name ;;;
  sv_answer to_value (subvolumes (f fs_name name)).

(** The arms that take a request on a filesystem. *)
Definition request_arm {T A} `{!FromValue T} (v : A -> Json) (filesystem : T -> string) (f : T -> M SvWorld SubvolumeError A) : Arm Response :=
  p <- params (T := T) req ;;
  in_filesystem (filesystem p) ;;;
  sv_answer v (subvolumes (f p)).

Definition arm_list_dependents : Arm Response :=
  all <- find_all_subvolume_dependents ;;
  let filtered := match s_filesystem session with
                  | Some fs => List.filter (fun d => dp_filesystem d =s fs) all
                  | None => all
                  end in
  ret (ok_ req (to_array filtered)).

Definition arm_subvolume_list : Arm Response :=
  fs_name <- str_arg req "filesystem" ;;
  in_filesystem fs_name ;;;
  sv_answer to_array (subvolumes (list_subvolumes fs_name owner)).

Definition arm_subvolume_children : Arm Response :=
  fs_name <- str_arg req "filesystem" ;;
  name <- str_arg req "name" ;;
  sv_answer (fun l => JArray (JString <$> l)) (subvolumes (list_children fs_name name)).

Definition arm_subvolume_delete : Arm Response :=
  p <- params (T := DeleteSubvolumeRequest) req ;;
  in_filesystem (dv_filesystem p) ;;;
  conflict <- check_subvolume_in_use (dv_filesystem p) (dv_name p) ;;
  (match conflict with Some c => deny req c | None => ret tt end) ;;;
  sv_answer text_ok (subvolumes (delete p owner)).

Definition arm_find_by_property : Arm Response :=
  p <- params (T := FindByPropertyRequest) req ;;
  p <- (match s_filesystem session, fp_filesystem p with
        | Some sp, Some rp => if negb (sp =s rp) then deny req "access denied" else ret p
        | Some sp, None => ret (mkFindByProperty (Some sp) (fp_key p) (fp_value p))
        | None, _ => ret p
        end) ;;
  sv_answer to_array (subvolumes (find_by_property p owner)).

Definition subvolume_arms : list (string * Arm Response) := [
  ("subvolume.list_all", sv_answer to_array (subvolumes (list_all (s_filesystem session) owner)));
  ("subvolume.list_dependents", arm_list_dependents);
  ("subvolume.list", arm_subvolume_list);
  ("subvolume.get", named_arm (fun fs name => get fs name owner));
  ("subvolume.children", arm_subvolume_children);
  ("subvolume.create", request_arm to_value cv_filesystem (fun p => create p owner));
  ("subvolume.delete", arm_subvolume_delete);
  ("subvolume.attach", named_arm (fun fs name => attach fs name owner));
  ("subvolume.detach", named_arm (fun fs name => detach fs name owner));
  ("subvolume.resize", request_arm to_value rs_filesystem (fun p => resize p owner));
  ("subvolume.update", request_arm to_value uv_filesystem (fun p => update p owner));
  ("subvolume.clone", request_arm to_value lv_filesystem (fun p => clone_subvolume p owner));
  ("subvolume.set_properties", request_arm to_value Subvolume.sp_filesystem (fun p => set_properties p owner));
  ("subvolume.remove_properties", request_arm to_value Subvolume.rp_filesystem (fun p => remove_properties p owner));
  ("subvolume.find_by_property", arm_find_by_property)].

(** ** snapshot.* *)

Definition is_admin : bool := role_eqb (s_role session) Admin.

Definition arm_snapshot_list : Arm Response :=
  fs_name <- str_arg req "filesystem" ;;
  in_filesystem fs_name ;;;
  sv_answer to_array (subvolumes (list_snapshots fs_name owner)).

Definition arm_snapshot_rollback : Arm Response :=
  root_equivalent e req session "dependent_resource_restart" ;;;
  p <- params (T := RollbackSnapshotRequest) req ;;
  in_filesystem (rb_filesystem p) ;;;
  answer req id to_value (attempt (rollback_with_dependents e p owner is_admin)).

Definition snapshot_arms : list (string * Arm Response) := [
  ("snapshot.list", arm_snapshot_list);
  ("snapshot.create", request_arm to_value Subvolume.cn_filesystem (fun p => create_snapshot p owner));
  ("snapshot.delete", request_arm text_ok dn_filesystem (fun p => delete_snapshot p owner is_admin));
  ("snapshot.clone", request_arm to_value ln_filesystem (fun p => clone_snapshot p owner is_admin));
  ("snapshot.rollback", arm_snapshot_rollback)].

(** The two [try_route]s. *)
Definition route_arms (l : list (string * Arm Response)) (g : Eng) : option Response * Eng :=
  match find_arm (rq_method req) l with
  | Some arm => let '(r, g') := run_arm arm g in (Some r, g')
  | None => (None, g)
  end.

Definition subvolume_try_route : Eng -> option Response * Eng := route_arms subvolume_arms.
Definition snapshot_try_route : Eng -> option Response * Eng := route_arms snapshot_arms.

End Arms.
