(* ===== verification/ApiProps.v ===== *)
(** * What the arms of the router promise

    A token that is confined to its own subvolumes changes no other through the
    dispatcher, whatever the request, but for the mode of one whose name it asks
    to create. *)
From Stdlib Require Import String Ascii ZArith.
From stdpp Require Import base list gmap strings numbers sorting.
From S2P Require Import Prelude RustStr Disk StateStore AuthTypes AuthStore AuthService JsonRpc Router FirewallRules Firewall Backup ConfigFs BlockWorld Iscsi IscsiService NvmeofService Protocol BlockReconcile FileShare Nfs Smb SmbService Subvolume SubvolumeRead SubvolumeService SubvolumeLaws SubvolumeOwner SubvolumeProps Api ShareApi SubvolumeApi.

Open Scope string_scope.
Open Scope rust_scope.

(** The dispatcher with the arms of the modelled domains. *)
Class ApiSerde := {
  serde_create_nfs :: FromValue CreateNfsShareRequest;
  serde_update_nfs :: FromValue UpdateNfsShareRequest;
  serde_delete_nfs :: FromValue DeleteNfsShareRequest;
  serde_create_smb :: FromValue CreateSmbShareRequest;
  serde_update_smb :: FromValue UpdateSmbShareRequest;
  serde_delete_smb :: FromValue DeleteSmbShareRequest;
  serde_create_target :: FromValue CreateTargetRequest;
  serde_delete_target :: FromValue DeleteTargetRequest;
  serde_add_lun :: FromValue AddLunRequest;
  serde_remove_lun :: FromValue RemoveLunRequest;
  serde_repair_lun :: FromValue RepairLunRequest;
  serde_add_acl :: FromValue AddAclRequest;
  serde_remove_acl :: FromValue RemoveAclRequest;
  serde_add_portal :: FromValue AddPortalRequest;
  serde_set_portals :: FromValue SetPortalsRequest;
  serde_remove_portal :: FromValue RemovePortalRequest;
  serde_create_subsystem :: FromValue CreateSubsystemRequest;
  serde_delete_subsystem :: FromValue DeleteSubsystemRequest;
  serde_add_namespace :: FromValue AddNamespaceRequest;
  serde_remove_namespace :: FromValue RemoveNamespaceRequest;
  serde_repair_namespace :: FromValue RepairNamespaceRequest;
  serde_add_port :: FromValue AddPortRequest;
  serde_remove_port :: FromValue RemovePortRequest;
  serde_add_host :: FromValue AddHostRequest;
  serde_remove_host :: FromValue RemoveHostRequest;
  serde_create_subvolume :: FromValue CreateSubvolumeRequest;
  serde_delete_subvolume :: FromValue DeleteSubvolumeRequest;
  serde_resize :: FromValue ResizeSubvolumeRequest;
  serde_update_subvolume :: FromValue UpdateSubvolumeRequest;
  serde_clone_subvolume :: FromValue CloneSubvolumeRequest;
  serde_set_properties :: FromValue SetPropertiesRequest;
  serde_remove_properties :: FromValue RemovePropertiesRequest;
  serde_find_by_property :: FromValue FindByPropertyRequest;
  serde_create_snapshot :: FromValue CreateSnapshotRequest;
  serde_delete_snapshot :: FromValue DeleteSnapshotRequest;
  serde_clone_snapshot :: FromValue CloneSnapshotRequest;
  serde_rollback :: FromValue RollbackSnapshotRequest;
  serde_nfs_share :: ToValue NfsShare;
  serde_smb_share :: ToValue SmbShare;
  serde_target :: ToValue IscsiTarget;
  serde_subsystem :: ToValue NvmeofSubsystem;
  serde_subvolume :: ToValue Subvolume;
  serde_snapshot :: ToValue Snapshot;
  serde_rollback_result :: ToValue RollbackResult;
  serde_dependents :: ToValue SubvolumeDependents
}.

Section Dispatch.
Context `{AuthPrims} `{!Codec AuthState} `{!RateCodec} `{!RpcSerde} `{!ApiSerde}.
Context `{Os} `{Guests} `{ConfigFs} `{Vault} `{IpParser} `{KernelModules} `{ProjectHash} `{ShareTree}.
Context `{!Codec (list BcachefsListEntry)} `{!Codec (gmap string BlockVolumeId)} `{!Codec IscsiTarget} `{!Codec NvmeofSubsystem}
  `{!Codec Json} `{!Codec ProtocolState} `{!Codec FirewallRestrictions} `{!Codec (list CustomRule)} `{!Codec NfsShare} `{!Codec SmbShare}.
Abbreviation Eng := (Engine ApiWorld).
(** The arms of the other domains. *)
Context (others : Domain -> Env -> Request -> Session -> Eng -> option Response * Eng).
Context (principal_authorization : string -> result unit string).

Definition with_auth_env (e : Env) (a : ApiEnv) : ApiEnv := mkApiEnv e (ae_share a) (ae_iscsi a) (ae_uuid a) (ae_polls a).

(** [share::try_route], [subvolume::try_route] and [snapshot::try_route] in their places. *)
Definition api_try_route (a : ApiEnv) (d : Domain) (e : Env) (req : Request) (session : Session) : Eng -> option Response * Eng :=
  match d with
  | DShare => share_try_route (with_auth_env e a) req session
  | DSubvolume => subvolume_try_route req session
  | DSnapshot => snapshot_try_route (with_auth_env e a) req session
  | d => others d e req session
  end.

Definition api_handle (a : ApiEnv) (e : Env) (req : Request) (session : Session) (g : Eng) : Response * Eng :=
  handle_request (api_try_route a) principal_authorization e req session g.

End Dispatch.

(** ** Programs that leave the subvolumes alone *)

Section Resting.
Context `{OsLaws} `{AuthPrims} `{Guests} `{ConfigFs} `{Vault} `{IpParser} `{KernelModules} `{ProjectHash} `{ShareTree}.
Context `{!Codec (gmap string BlockVolumeId)} `{!Codec IscsiTarget} `{!Codec NvmeofSubsystem}
  `{!Codec Json} `{!Codec ProtocolState} `{!Codec FirewallRestrictions} `{!Codec (list CustomRule)} `{!Codec NfsShare} `{!Codec SmbShare}.
Abbreviation Eng := (Engine ApiWorld).
Implicit Types (s : Store) (g : Eng).

(** What the engine sees of the subvolumes. *)
Definition look (g : Eng) : SvWorld := ap_sub (Router.services g).

Definition resting {E A} (m : M Eng E A) : Prop := forall s0 g, same s0 (look g) -> keeps (fun g' => same s0 (look g')) m g.

Lemma resting_still {E A} (m : M Eng E A) : (forall g, look (m g).2 = look g) -> resting m.
Proof. intros Hm s0 g Hg. unfold keeps, wp. by rewrite Hm. Qed.

Lemma resting_bind {E A B} (m : M Eng E A) (f : A -> M Eng E B) : resting m -> (forall a, resting (f a)) -> resting (bind m f).
Proof. intros Hm Hf s0 g Hg. apply keeps_bind; [by apply Hm|]. intros a g' Hg'. by apply Hf. Qed.

Lemma resting_ret {E A} (a : A) : resting (ret (E := E) a).
Proof. by apply resting_still. Qed.
Lemma resting_throw {E A} (e : E) : resting (throw (A := A) e).
Proof. by apply resting_still. Qed.
Lemma resting_lift {E A} (r : result A E) : resting (lift r).
Proof. by apply resting_still. Qed.

Lemma resting_subvolumes {F A} (m : M SvWorld SubvolumeError A) : calm m -> resting (subvolumes (F := F) m).
Proof.
  intros Hm s0 g Hg. specialize (Hm _ _ _ Hg). unfold keeps, wp, subvolumes, within, look in *.
  destruct (m (ap_sub _)) as [r w]. done.
Qed.

Lemma resting_blocks {E F A} (m : M BlockWorld E A) : resting (blocks (F := F) m).
Proof. apply resting_still. intros g. unfold blocks, within. by destruct (m _). Qed.
Lemma resting_shares {F A} (m : M ShareWorld string A) : resting (shares (F := F) m).
Proof. apply resting_still. intros g. unfold shares, within. by destruct (m _). Qed.
Lemma resting_files {E F A} (m : M FileWorld E A) : resting (files (F := F) m).
Proof. apply resting_still. intros g. unfold files, within. by destruct (m _). Qed.
Lemma resting_guests {F A} (c : Guest A) : resting (guests (F := F) c).
Proof. apply resting_still. intros g. unfold guests. by destruct (guest_call c _). Qed.

Lemma resting_root_equivalent e req session reason : resting (root_equivalent e req session reason).
Proof.
  apply resting_still. intros g. unfold root_equivalent, gate, require_root_equivalent, require_endpoint_access.
  by destruct (authorize_session _ _).
Qed.

Lemma resting_deny {A} req msg : resting (deny (A := A) req msg).
Proof. by apply resting_still. Qed.

Lemma resting_or_err {E A} req f (r : result A E) : resting (or_err req f r).
Proof. destruct r; [apply resting_ret|apply resting_deny]. Qed.

Lemma resting_params {T} `{!FromValue T} req : resting (params (T := T) req).
Proof. unfold params. destruct (parse_params _ _); by apply resting_still. Qed.

Lemma resting_attempt {E F A} (m : M Eng F A) : resting m -> resting (attempt (F := E) m).
Proof. intros Hm s0 g Hg. apply keeps_attempt. by apply Hm. Qed.

Lemma resting_modify_audit {E} e a b c d : resting (modify (E := E) (audit_engine e a b c d)).
Proof. by apply resting_still. Qed.

End Resting.

Create HintDb resting.
#[export] Hint Resolve resting_ret resting_throw resting_lift resting_blocks resting_shares resting_files resting_guests
  resting_root_equivalent resting_deny resting_or_err resting_params resting_modify_audit resting_subvolumes : resting.
#[export] Hint Extern 2 (calm _) => solve [eauto with calm] : resting.

(** Walk through a program of the engine. *)
Ltac resting_go :=
  repeat first
    [ progress cbn beta zeta
    | solve [eauto with resting]
    | lazymatch goal with
      | |- forall _, _ => intros ?
      | |- resting (bind _ _) => apply resting_bind; [|intros]
      | |- resting (attempt _) => apply resting_attempt
      | |- resting (subvolumes _) => apply resting_subvolumes
      | |- calm _ => solve [eauto with calm|apply quiet_calm; quiet_go|calm_go]
      | |- resting (match ?x with _ => _ end) => destruct x eqn:?
      | |- resting (if ?x then _ else _) => destruct x eqn:?
      end ].

Section Tokens.
Context `{OsLaws} `{AuthPrims} `{!Codec AuthState} `{!RateCodec} `{!RpcSerde} `{!ApiSerde}.
Context `{Guests} `{ConfigFs} `{Vault} `{IpParser} `{KernelModules} `{ProjectHash} `{ShareTree}.
Context `{!Codec (gmap string BlockVolumeId)} `{!Codec IscsiTarget} `{!Codec NvmeofSubsystem}
  `{!Codec Json} `{!Codec ProtocolState} `{!Codec FirewallRestrictions} `{!Codec (list CustomRule)} `{!Codec NfsShare} `{!Codec SmbShare}.
Abbreviation Eng := (Engine ApiWorld).
Implicit Types (s : Store) (g : Eng) (e : ApiEnv) (req : Request) (session : Session) (o : string).

Lemma calm_block_volume_id device : calm (block_volume_id_for_device device).
Proof. unfold block_volume_id_for_device. calm_go. Qed.

Lemma calm_list_children fs name : calm (list_children fs name).
Proof. unfold list_children. calm_go. Qed.

Lemma calm_find_by_property p flt : calm (find_by_property p flt).
Proof. unfold find_by_property. calm_go. Qed.

Lemma calm_list_snapshots fs flt : calm (list_snapshots fs flt).
Proof. unfold list_snapshots, list_snapshot. calm_go. Qed.

#[local] Hint Resolve calm_block_volume_id calm_list_children calm_find_by_property calm_list_snapshots : calm.

(** ** The arms of share.* *)

Lemma resting_block_error {A} e req session error : resting (block_authorization_error (A := A) e req session error).
Proof. unfold block_authorization_error. resting_go. Qed.
#[local] Hint Resolve resting_block_error : resting.

Lemma resting_or_block_error {A} e req session (r : result A string) : resting (or_block_error e req session r).
Proof. unfold or_block_error. resting_go. Qed.
#[local] Hint Resolve resting_or_block_error : resting.

Lemma resting_require_protocol e req p : resting (require_protocol e req p).
Proof. unfold require_protocol. resting_go. Qed.
Lemma resting_require_rdma e req m : resting (require_rdma e req m).
Proof. unfold require_rdma. resting_go. Qed.

Lemma resting_authorize_path session p : resting (authorize_path_source session p).
Proof. unfold authorize_path_source, scope_check. resting_go. Qed.
Lemma resting_authorize_block session p : resting (authorize_block_source session p).
Proof. unfold authorize_block_source. resting_go. Qed.
Lemma resting_authorize_fileio session p : resting (authorize_fileio_source session p).
Proof. unfold authorize_fileio_source, scope_check. resting_go. Qed.
Lemma resting_authorize_destination session l : resting (authorize_block_destination session l).
Proof. unfold authorize_block_destination. resting_go. Qed.
#[local] Hint Resolve resting_require_protocol resting_require_rdma resting_authorize_path resting_authorize_block
  resting_authorize_fileio resting_authorize_destination : resting.

Lemma resting_path_source req session p : resting (path_source req session p).
Proof. unfold path_source. resting_go. Qed.

Lemma resting_fileio_luns e req session l : resting (authorize_fileio_luns e req session l).
Proof. induction l as [|x l IH]; cbn [authorize_fileio_luns]; resting_go. Qed.
#[local] Hint Resolve resting_path_source resting_fileio_luns : resting.

Lemma resting_on_target e req session id : resting (on_target e req session id).
Proof. unfold on_target, authorized_iscsi_target. resting_go. Qed.
Lemma resting_on_subsystem e req session id : resting (on_subsystem e req session id).
Proof. unfold on_subsystem, authorized_nvmeof_subsystem. resting_go. Qed.
Lemma resting_block_source e req session p reason : resting (block_source e req session p reason).
Proof. unfold block_source. resting_go. Qed.
Lemma resting_no_conflict req p x : resting (no_conflict req p x).
Proof. unfold no_conflict, check_block_device_conflict. resting_go. Qed.
Lemma resting_answer {E A} req f v (m : M Eng Response (result A E)) : resting m -> resting (answer req f v m).
Proof. intros Hm. unfold answer. resting_go. Qed.
#[local] Hint Resolve resting_on_target resting_on_subsystem resting_block_source resting_no_conflict resting_answer : resting.

Lemma resting_tailscale e v : resting (add_tailscale_port e v).
Proof. unfold add_tailscale_port. resting_go. Qed.
Lemma resting_taken_smb n : resting (smb_name_taken n).
Proof. unfold smb_name_taken. resting_go. Qed.
Lemma resting_taken_iqn n : resting (iqn_taken n).
Proof. unfold iqn_taken. resting_go. Qed.
Lemma resting_taken_nqn n : resting (nqn_taken n).
Proof. unfold nqn_taken. resting_go. Qed.
Lemma resting_str_arg req k : resting (str_arg req k).
Proof. unfold str_arg. resting_go. Qed.
#[local] Hint Resolve resting_tailscale resting_taken_smb resting_taken_iqn resting_taken_nqn resting_str_arg : resting.

(** The repairs are for the administrator alone. *)
Lemma resting_unscoped {A} req session (k : unit -> M Eng Response A) : session_is_scoped session = true -> resting (bind (unscoped_admin req session) k).
Proof. intros Hs. apply resting_still. intros g. unfold unscoped_admin, bind. rewrite Hs, orb_true_r. done. Qed.

Lemma resting_changes e req session : session_is_scoped session = true ->
  Forall (fun a => resting a.2) (share_changes e req session).
Proof.
  intros Hs. unfold share_changes, arm_iscsi_repair_lun, arm_nvmeof_repair_namespace.
  repeat (apply list.Forall_cons; split; cbn [snd]; [try by apply resting_unscoped|]); [..|done].
  all: unfold arm_nfs_create, arm_nfs_update, arm_nfs_delete, arm_smb_create, arm_smb_update, arm_smb_delete, arm_iscsi_create,
    arm_iscsi_delete, arm_iscsi_add_lun, arm_iscsi_remove_lun, arm_iscsi_add_acl, arm_iscsi_remove_acl, arm_iscsi_add_portal,
    arm_iscsi_set_portals, arm_iscsi_remove_portal, arm_nvmeof_create, arm_nvmeof_delete, arm_nvmeof_add_namespace,
    arm_nvmeof_remove_namespace, arm_nvmeof_add_port, arm_nvmeof_remove_port, arm_nvmeof_add_host, arm_nvmeof_remove_host; resting_go.
Qed.

Lemma resting_reads req : Forall (fun a => resting a.2) (share_reads req).
Proof. unfold share_reads. repeat (apply list.Forall_cons; split; cbn [snd]; [resting_go|]); done. Qed.

Lemma resting_sync e : resting (sync_portal_firewall_ports e).
Proof. unfold sync_portal_firewall_ports, portal_firewall_ports. resting_go. Qed.

Lemma find_arm_in m (l : list (string * M Eng Response Response)) arm (P : M Eng Response Response -> Prop) :
  find_arm m l = Some arm -> Forall (fun a => P a.2) l -> P arm.
Proof.
  unfold find_arm. intros ((n & a) & Ha & ->)%fmap_Some Hl. apply find_Some_elem in Ha as [Ha _].
  rewrite list.Forall_forall in Hl. by apply (Hl _ Ha).
Qed.

Lemma route_inner_rests e req session s0 g : session_is_scoped session = true -> same s0 (look g) ->
  same s0 (look (route_inner e req session g).2).
Proof.
  intros Hs Hg. unfold route_inner, run_arm. destruct (find_arm _ _) as [arm|] eqn:Ea; [|done].
  assert (resting arm) as Harm.
  { eapply (find_arm_in _ _ _ (fun m => resting m)); [exact Ea|]. apply list.Forall_app. split; [apply resting_reads|by apply resting_changes]. }
  specialize (Harm s0 g Hg). unfold keeps, wp in Harm. by destruct (arm g) as [r g'].
Qed.

Lemma share_route_rests e req session s0 g : session_is_scoped session = true -> same s0 (look g) ->
  same s0 (look (share_try_route e req session g).2).
Proof.
  intros Hs Hg. unfold share_try_route. pose proof (route_inner_rests e req session s0 g Hs Hg) as Hr.
  destruct (route_inner _ _ _ _) as [[resp|] g']; cbn in *; [|done]. destruct (negb _); [done|].
  pose proof (resting_sync e s0 g' Hr) as Hk. unfold keeps, wp in Hk. by destruct (sync_portal_firewall_ports e g') as [[] g''].
Qed.

(** ** The arms of subvolume.* and snapshot.* *)

Lemma resting_in_filesystem req session f : resting (in_filesystem req session f).
Proof. unfold in_filesystem. resting_go. Qed.
#[local] Hint Resolve resting_in_filesystem : resting.

Lemma resting_or_else {A} (m k : M Eng Response (option A)) : resting m -> resting k -> resting (or_else m k).
Proof. intros Hm Hk. unfold or_else. resting_go. Qed.
#[local] Hint Resolve resting_or_else : resting.

Lemma resting_in_use fs name : resting (check_subvolume_in_use fs name).
Proof. unfold check_subvolume_in_use, used_by_vm. resting_go; repeat (apply resting_or_else; resting_go). Qed.

Lemma resting_dependents : resting find_all_subvolume_dependents.
Proof. unfold find_all_subvolume_dependents. resting_go. Qed.
#[local] Hint Resolve resting_in_use resting_dependents : resting.

(** A subvolume [q] that belongs to somebody else. *)
Section Spared.
Context (creating : bool) (o : string) (s0 : Store) (q : Path) (v : Volume Data) (Hv : volumes s0 q = Some v) (Hq : theirs s0 o q).

(** It keeps its data and attributes, and unless the request creates a subvolume its mode. *)
Definition spared (w : SvWorld) : Prop :=
  exists v', volumes (sw_store w) q = Some v' /\ same_content v v' /\ (creating = false -> v' = v).

Lemma spared_same w : same s0 w -> spared w.
Proof. intros Hw. exists v. by rewrite (same_volumes _ _ _ Hw). Qed.

Lemma spared_kept (P : Path -> Prop) w : P q -> kept P s0 w -> spared w.
Proof. intros Hp [_ Hk]. exists v. rewrite Hk by done. done. Qed.

Definition sparing {E A} (m : M SvWorld E A) : Prop := forall w, same s0 w -> wp m (fun _ w' => spared w') w.
Definition spares {E A} (m : M Eng E A) : Prop := forall g, same s0 (look g) -> wp m (fun _ g' => spared (look g')) g.

Lemma spares_rest {E A} (m : M Eng E A) : resting m -> spares m.
Proof. intros Hm g Hg. eapply wp_mono; [|by apply (Hm s0)]. intros r g'. apply spared_same. Qed.

Lemma spares_bind {E A B} (m : M Eng E A) (f : A -> M Eng E B) : resting m -> (forall a, spares (f a)) -> spares (bind m f).
Proof.
  intros Hm Hf g Hg. apply wp_bind. eapply wp_mono; [|by apply (Hm s0)]. intros [a|er] g' Hg'; [by apply Hf|by apply spared_same].
Qed.

Lemma spares_answer {A} req (f : SubvolumeError -> string) (j : A -> Json) (m : M SvWorld SubvolumeError A) :
  sparing m -> spares (answer req f j (subvolumes m)).
Proof.
  intros Hm g Hg. specialize (Hm (look g) Hg). unfold answer, subvolumes, within, bind, wp, look in *.
  destruct (m (ap_sub (Router.services g))) as [[a|er] w]; exact Hm.
Qed.

Lemma sparing_respects {E A} (m : M SvWorld E A) : respects o m -> sparing m.
Proof. intros Hm w Hw. eapply wp_mono; [|by apply Hm]. intros r w'. by apply spared_kept. Qed.

Lemma sparing_create p flt : creating = true -> sparing (create p flt).
Proof.
  intros Hc w Hw. eapply wp_mono; [|apply wp_create_content; by rewrite (same_volumes _ _ _ Hw)].
  intros r w' (v' & Hv' & Hs & _). exists v'. split_and!; [done..|congruence].
Qed.

Lemma sparing_delete p : beyond s0 o q -> sparing (delete p (Some o)).
Proof. intros Hb w Hw. eapply wp_mono; [|by apply (delete_beyond o)]. intros r w'. by apply spared_kept. Qed.


#[local] Hint Resolve respects_attach respects_detach respects_resize respects_update respects_set_properties respects_remove_properties
  respects_create_snapshot respects_delete_snapshot respects_clone_snapshot respects_clone_subvolume : core.

Context (req : Request) (session : Session) (Ho : s_owner session = Some o).

Lemma spares_request {T A} `{!FromValue T} j (f : T -> string) (m : T -> M SvWorld SubvolumeError A) :
  (forall p, sparing (m p)) -> spares (request_arm req session j f m).
Proof. intros Hm. unfold request_arm. do 2 (apply spares_bind; [by eauto with resting|intros ?]). by apply spares_answer. Qed.

Lemma spares_named {A} `{!ToValue A} (m : string -> string -> M SvWorld SubvolumeError A) :
  (forall a b, sparing (m a b)) -> spares (named_arm req session m).
Proof. intros Hm. unfold named_arm. do 3 (apply spares_bind; [by eauto with resting|intros ?]). by apply spares_answer. Qed.

(** The arms that delete and create need more. *)
Definition deletes_subvolume (m : string) : bool := m =s "subvolume.delete".
Definition creates_subvolume (m : string) : bool := m =s "subvolume.create".

Lemma spares_subvolume_arms :
  Forall (fun a => (deletes_subvolume a.1 = true -> beyond s0 o q) -> (creates_subvolume a.1 = true -> creating = true) -> spares a.2)
    (subvolume_arms req session).
Proof.
  unfold subvolume_arms, owner. rewrite Ho. repeat (apply list.Forall_cons; split; cbn [fst snd]; [intros Hd Hc|]); [..|done].
  all: try (apply spares_request; intros; first [apply sparing_create, Hc; done|apply sparing_respects; by auto]).
  all: try (apply spares_named; intros; apply sparing_respects; first [by auto|apply respects_calm; by eauto with calm]).
  all: try solve [apply spares_rest; unfold arm_list_dependents, arm_subvolume_list, arm_subvolume_children, arm_find_by_property; resting_go].
  - unfold arm_subvolume_delete. rewrite Ho. do 4 (apply spares_bind; [resting_go|intros ?]). apply spares_answer, sparing_delete. by apply Hd.
Qed.

(** What is for the administrator alone is refused to a token. *)
Lemma resting_refused {A} e reason (k : unit -> M Eng Response A) : is_some (s_owner session) = true ->
  resting (bind (root_equivalent e req session reason) k).
Proof.
  intros Hs. assert (exists d, authorize_session session RootEquivalent = Err d) as [d Hd].
  { unfold authorize_session. rewrite Hs, orb_true_r. cbn. destruct (_ && _); [by eexists|]. destruct (negb _); by eexists. }
  apply resting_still. intros g. unfold bind, root_equivalent, gate, require_root_equivalent, require_endpoint_access. by rewrite Hd.
Qed.

Lemma spares_snapshot_arms e : role_eqb (s_role session) Admin = false -> Forall (fun a => spares a.2) (snapshot_arms e req session).
Proof.
  intros Hr. unfold snapshot_arms, is_admin. rewrite Hr, Ho. repeat (apply list.Forall_cons; split; cbn [snd]); [..|done].
  all: try (apply spares_request; intros; apply sparing_respects; by auto).
  - apply spares_rest. unfold arm_snapshot_list. resting_go.
  - apply spares_rest. unfold arm_snapshot_rollback. apply resting_refused. by rewrite Ho.
Qed.

End Spared.

(** ** Through the dispatcher *)

Context (others : Domain -> Env -> Request -> Session -> Eng -> option Response * Eng).
Context (principal_authorization : string -> result unit string).

(** The domains in which a subvolume can be named. *)
Definition storage_domain (m : string) : Prop := exists d, domain_of m = Some d /\ (d = DSubvolume \/ d = DSnapshot \/ d = DShare).

Lemma route_arms_spares c s0 q v req (l : list (string * M Eng Response Response)) g : volumes s0 q = Some v -> same s0 (look g) ->
  Forall (fun a => a.1 = rq_method req -> spares c s0 q v a.2) l -> spared c q v (look (route_arms req l g).2).
Proof.
  intros Hv Hg Hl. unfold route_arms, run_arm. destruct (find_arm _ _) as [arm|] eqn:Ea; [|by apply (spared_same c s0)].
  unfold find_arm in Ea. apply fmap_Some in Ea as ((n & a) & Ha & ->). apply find_Some_elem in Ha as [Ha Hn%eqb_spec].
  rewrite list.Forall_forall in Hl. specialize (Hl _ Ha Hn g Hg). unfold wp in Hl. cbn in *. by destruct (a g) as [r g'].
Qed.

Lemma storage_route_spares a (ev : Env) req session o s0 q v g : s_owner session = Some o -> role_eqb (s_role session) Admin = false ->
  storage_domain (rq_method req) -> volumes s0 q = Some v -> theirs s0 o q -> (rq_method req = "subvolume.delete" -> beyond s0 o q) ->
  same s0 (look g) -> spared (creates_subvolume (rq_method req)) q v (look (route (api_try_route others a) principal_authorization ev req session g).2).
Proof.
  intros Ho Hr (d & Hd & Hdom) Hv Hq Hb Hg. unfold route. rewrite Hd.
  destruct Hdom as [->|[->| ->]]; cbn [api_try_route].
  - pose proof (route_arms_spares (creates_subvolume (rq_method req)) s0 q v req (subvolume_arms req session) g Hv Hg) as Hs. unfold subvolume_try_route.
    destruct (route_arms _ _ g) as [resp g']. apply Hs. eapply list.Forall_impl; [by eapply (spares_subvolume_arms (creates_subvolume (rq_method req)))|].
    intros [m arm] Hm Heq. apply Hm; [|by rewrite <- Heq]. unfold deletes_subvolume. intros Hdel%eqb_spec. apply Hb. by rewrite <- Heq.
  - pose proof (route_arms_spares (creates_subvolume (rq_method req)) s0 q v req (snapshot_arms (with_auth_env ev a) req session) g Hv Hg) as Hs. unfold snapshot_try_route.
    destruct (route_arms _ _ g) as [resp g']. apply Hs. eapply list.Forall_impl; [by eapply (spares_snapshot_arms (creates_subvolume (rq_method req)))|]. by intros ? ? _.
  - assert (session_is_scoped session = true) as Hsc by (unfold session_is_scoped; rewrite Ho; apply orb_true_r).
    pose proof (share_route_rests (with_auth_env ev a) req session s0 g Hsc Hg) as Hs.
    destruct (share_try_route _ _ _ g) as [resp g']. by apply (spared_same _ s0).
Qed.

(** C9: A token changes no data of another through the engine. Whatever request on subvolumes, snapshots or shares a
    token that is confined to its own subvolumes makes, and whatever the answer, every subvolume that the token does not
    own keeps its data and its attributes, owner included, and its mode too, except that subvolume.create may change a
    mode (creating a name that exists opens that subvolume, whoever owns it, to everybody). For subvolume.delete, which
    takes what lies in a subvolume along, this is said of the subvolumes that are not inside one of the token's. *)
Theorem token_requests_spare_others a (ev : Env) req session g r g' o q v :
  s_owner session = Some o -> role_eqb (s_role session) Admin = false -> storage_domain (rq_method req) ->
  api_handle others principal_authorization a ev req session g = (r, g') ->
  volumes (sw_store (look g)) q = Some v -> owner_of v <> Some o ->
  (rq_method req = "subvolume.delete" -> forall p vp, volumes (sw_store (look g)) p = Some vp -> owner_of vp = Some o -> ~ p `prefix_of` q) ->
  exists v', volumes (sw_store (look g')) q = Some v' /\ same_content v v' /\ (rq_method req <> "subvolume.create" -> v' = v).
Proof.
  intros Ho Hr Hdom Hrun Hv Hn Hd. set (s0 := sw_store (look g)) in *. assert (same s0 (look g)) as Hg by done. clearbody s0.
  assert (theirs s0 o q) as Hq. { split; [by eexists|]. intros (v' & Hv' & Hov). congruence. }
  pose proof (storage_route_spares a ev req session o s0 q v g Ho Hr Hdom Hv Hq) as Hs.
  set (kept_at := fun g' => exists v', volumes (sw_store (look g')) q = Some v' /\ same_content v v' /\ (rq_method req <> "subvolume.create" -> v' = v)).
  assert (forall g', spared (creates_subvolume (rq_method req)) q v (look g') -> kept_at g') as Hk.
  { intros g1 (v' & Ha & Hb & Hc). exists v'. split_and!; [done..|]. intros Hne. by apply Hc, eqb_neq_spec. }
  assert (kept_at g) as Hrefused by (apply Hk; by apply (spared_same _ s0)). change (kept_at g'). unfold api_handle, handle_request in Hrun.
  destruct (_ && _); [by injection Hrun as <- <-|]. destruct (negb (role_permits _ _)); [by injection Hrun as <- <-|].
  destruct (route _ _ _ _ _ g) as [resp g1]. assert (kept_at g1) as Hend.
  { apply Hk, Hs; [|done]. intros Hm. split; [by eexists|]. intros p (vp & Hvp & Hop). by eapply Hd. }
  destruct (rs_error resp); [by injection Hrun as <- <-|]. injection Hrun as <- <-.
  by destruct (collection_for_method _), (_ && _).
Qed.

End Tokens.
