(* ===== verification/ShareScope.v ===== *)
(** * Shares stay in the scope of their sessions

    A session that is confined to a filesystem or to the subvolumes of a token
    changes nothing through share.* unless everything that the request names is
    in a subvolume of that scope: the path of an NFS or SMB share with every
    subvolume nested in it, the images and devices behind an iSCSI target or an NVMe-oF subsystem, and the source
    of a new export. *)
From Stdlib Require Import String Ascii ZArith.
From stdpp Require Import base list gmap strings numbers sorting.
From S2P Require Import Prelude RustStr Disk StateStore Records AuthTypes AuthStore AuthService JsonRpc Router FirewallRules Firewall Backup ConfigFs BlockWorld Iscsi IscsiService NvmeofService Protocol BlockReconcile FileShare Nfs Smb SmbService Subvolume SubvolumeRead SubvolumeService SubvolumeLaws SubvolumeOwner SubvolumeProps SubvolumeRestore Api ShareApi SubvolumeApi ApiProps.

Open Scope string_scope.
Open Scope rust_scope.

(** ** What a listing says of each subvolume *)

Section Listing.
Context `{LoopLaws} `{ProjectHash} `{!Codec (gmap string BlockVolumeId)}.
Implicit Types (s : Store) (w : SvWorld).

(** A map of loop devices by their files. *)
Definition sound_map s0 (lm : gmap string string) : Prop := forall b d, lm !! b = Some d -> loops s0 d = Some b.

Definition on_own_image s0 (sv : Subvolume) : Prop :=
  forall d, sv_block_device sv = Some d -> loops s0 d = Some (image_text (components (sv_path sv))).

(** The subvolume is there, with this owner, this identity and this device. *)
Definition known s0 (sv : Subvolume) : Prop := found s0 (sv_filesystem sv) (sv_name sv) sv /\ placed s0 sv /\ on_own_image s0 sv.

Lemma wp_build_losetup_map {E} s0 w : plain_loops s0 -> steady s0 w ->
  wp (build_losetup_map (E := E)) (fun r w' => steady s0 w' /\ forall lm, r = Ok lm -> sound_map s0 lm) w.
Proof.
  intros Hplain Hw. apply wp_quiet; [by eauto with quiet|done|]. unfold build_losetup_map, run_ok.
  apply wp_bind, wp_bind, wp_sys. intros o s Ho. apply wp_ret, wp_ret. intros lm [= <-] b d Hd.
  destruct o as [o|]; [|done]. destruct (ou_success o) eqn:Eo; [|done].
  apply losetup_map_spec in Hd as (l & rest & Hin & Hl). destruct (law_loop_list _ _ _ _ Ho Eo Hin) as (d' & f & Hf & Hsplit).
  rewrite (st_loops _ _ Hw) in Hf. rewrite (Hplain _ _ Hf), Hl in Hsplit. by simplify_eq.
Qed.

Lemma wp_describe_device fs_name fs m info usages lm owner name s0 w : steady s0 w -> sound_map s0 lm ->
  wp (describe fs_name fs m info usages lm owner name) (fun r w' => steady s0 w' /\
    forall sv, r = Ok (Some sv) -> sv_filesystem sv = fs_name /\ on_own_image s0 sv) w.
Proof.
  intros Hw Hlm. apply wp_quiet; [apply quiet_describe|done|]. unfold describe.
  eapply wp_quiet_bind; [by eauto with quiet|eassumption|done|]. intros creating w1 Hw1. destruct creating; [by apply wp_ret|].
  eapply wp_quiet_bind; [by eauto with quiet|eassumption|done|]. intros attrs w2 Hw2.
  eapply wp_quiet_bind; [by eauto with quiet|eassumption|done|]. intros up w3 Hw3. cbv zeta.
  destruct (is_ok _); [|by apply wp_ret].
  eapply wp_quiet_bind; [by apply quiet_snapshot_names|eassumption|done|]. intros snaps w4 Hw4.
  eapply wp_quiet_bind; [by apply quiet_sizes_of|eassumption|done|]. intros sizes w5 Hw5. apply wp_bind.
  destruct (me_type (at_meta attrs)); [apply wp_ret, wp_ret; intros sv [= <-]; by split; [|intros d]|].
  unfold find_loop_device_from_map. apply wp_bind, wp_sys. intros c s Hc. apply wp_ret, wp_ret. intros sv [= <-].
  split; [done|]. intros d. unfold image_text. cbn [sv_path sv_block_device]. rewrite <- components_img.
  destruct c as [c|]; [|done]. rewrite (law_canonical _ _ _ _ Hc). apply Hlm.
Qed.

Lemma wp_list_devices fs owner s0 w : plain_loops s0 -> steady s0 w ->
  wp (list_subvolumes fs owner) (fun r w' => steady s0 w' /\ forall l, r = Ok l -> Forall (fun sv => sv_filesystem sv = fs /\ on_own_image s0 sv) l) w.
Proof.
  intros Hpl Hw. unfold list_subvolumes. eapply wp_quiet_bind; [quiet_go|eassumption|done|]. intros f w1 Hw1.
  eapply wp_quiet_bind; [quiet_go|eassumption|done|]. intros f' w2 Hw2. eapply wp_quiet_bind; [quiet_go|eassumption|done|]. intros m w3 Hw3.
  eapply wp_quiet_bind; [by eauto with quiet|eassumption|done|]. intros info w4 Hw4.
  eapply wp_quiet_bind; [by eauto with quiet|eassumption|done|]. intros usages w5 Hw5.
  apply wp_bind. eapply wp_mono; [|by apply wp_build_losetup_map]. intros r w6 [Hw6 Hlm]. destruct r as [lm|]; [|done].
  specialize (Hlm lm eq_refl). eapply wp_mono; [|apply (wp_collect (steady s0) (fun _ sv => sv_filesystem sv = fs /\ on_own_image s0 sv)); [|done]].
  - intros r w7 [Hw7 Hall]. split; [done|]. intros l Hl. eapply list.Forall_impl; [by apply Hall|]. by intros sv (n & _ & ?).
  - intros n w7 _ Hw7. by apply wp_describe_device.
Qed.

Lemma wp_list_known fs owner s0 w : plain_loops s0 -> steady s0 w ->
  wp (list_subvolumes fs owner) (fun r w' => steady s0 w' /\ forall l, r = Ok l -> Forall (known s0) l) w.
Proof.
  intros Hpl Hw. pose proof (wp_and _ _ _ _ (wp_list_devices fs owner s0 w Hpl Hw)
    (wp_and _ _ _ _ (wp_list_ids fs owner s0 w Hw) (wp_list_subvolumes fs owner s0 w (st_same _ _ Hw)))) as Hall.
  eapply wp_mono; [|exact Hall]. intros r w' ([Hw' Hd] & [_ Hi] & [_ Hf]). split; [done|]. intros l Hl.
  specialize (Hd l Hl). specialize (Hi l Hl). specialize (Hf l Hl). rewrite list.Forall_forall in *. intros sv Hsv.
  destruct (Hd sv Hsv) as [Hfs Hdev]. split; [rewrite Hfs; by apply Hf|]. split; [by apply Hi|done].
Qed.

Lemma wp_all_known f owner s0 w : plain_loops s0 -> steady s0 w ->
  wp (list_all f owner) (fun r w' => steady s0 w' /\ forall l, r = Ok l -> Forall (known s0) l) w.
Proof.
  intros Hpl Hw. unfold list_all. eapply wp_quiet_bind; [quiet_go|eassumption|done|]. intros fss w1 Hw1.
  eapply wp_quiet_bind; [by eauto with quiet|eassumption|done|]. intros fss' w2 Hw2. clear Hw Hw1.
  revert w2 Hw2. induction fss' as [|fs fss' IH]; intros w2 Hw2; cbn [list_filesystems]; [by apply wp_ret; split; [|intros l [= <-]]|].
  destruct (_ || _); [by apply IH|]. apply wp_bind. eapply wp_mono; [|by apply wp_list_known]. intros r w3 [Hw3 Hl].
  destruct r as [l1|er]; [|done]. apply wp_bind. eapply wp_mono; [|by apply IH]. intros r w4 [Hw4 Hl2].
  destruct r as [l2|er]; [|done]. apply wp_ret. split; [done|]. intros l [= <-]. apply list.Forall_app. auto.
Qed.

End Listing.

(** ** The scope of a session *)

(** What a request names: a directory, an image file, a block device or a volume. *)
Inductive Named :=
| NPath (p : string)
| NFile (p : string)
| NDevice (d : string)
| NVolume (i : option BlockVolumeId).

Definition lun_named (l : Lun) : Named :=
  if has_type "fileio" l then NFile (lu_backstore_path l) else NVolume (lu_backing_volume l).
Definition namespace_named (n : Namespace) : Named := NVolume (ns_backing_volume n).

Section Scope.
Context `{LoopLaws} `{ProjectHash} `{ShareTree} `{!Codec (gmap string BlockVolumeId)}.
Implicit Types (s : Store) (session : Session) (path : string).

(** The subvolume at [path] is on the session's filesystem and belongs to its token. *)
Definition reach s session path : Prop := exists fs m n,
  mounts s fs = Some m /\ path = subvol_path m n /\ is_Some (volumes s (components path)) /\
  (forall f, s_filesystem session = Some f -> f = fs) /\
  (forall o, s_owner session = Some o -> owned s o (components path)).

(** The subvolumes that the engine lists on a machine in the state [s]. *)
Definition listing s (l : list Subvolume) : Prop := exists w w', steady s w /\ list_all None None w = (Ok l, w').

(** A subvolume of a listing, at its canonical path. *)
Definition rooted (l : list Subvolume) (sv : Subvolume) (root : Path) : Prop := sv ∈ l /\ canonicalize (sv_path sv) = Some root.

(** Of the subvolumes that the engine lists, the innermost one around the path is within reach, and so is each one inside it. *)
Definition below s session (c : Path) : Prop := exists l, listing s l /\
  (exists sv root, rooted l sv root /\ root `prefix_of` c /\ reach s session (sv_path sv) /\
     forall sv' root', rooted l sv' root' -> root' `prefix_of` c -> root' `prefix_of` root) /\
  forall sv root, rooted l sv root -> c `prefix_of` root -> reach s session (sv_path sv).

Definition in_scope s session (n : Named) : Prop :=
  match n with
  | NPath p => exists c, canonicalize p = Some c /\ below s session c
  | NFile p => exists c, canonical_fileio_source p = Ok c /\ below s session c
  | NDevice d => exists path, reach s session path /\ loops s d = Some (image_text (components path))
  | NVolume (Some i) => exists path, reach s session path /\ volume_at s i = Some (components path)
  | NVolume None => False
  end.

Lemma known_reach s session sv : known s sv ->
  resource_matches_scope (sv_filesystem sv) (sv_owner sv) (s_filesystem session) (s_owner session) = true -> reach s session (sv_path sv).
Proof.
  intros [(m & v & Hm & Hn & Hp & Hv & Ho) _] [Hf Hown]%andb_true_iff. exists (sv_filesystem sv), m, (sv_name sv).
  split_and!; [done|done|by eexists|intros f Ef; rewrite Ef in Hf; by apply eqb_spec in Hf|].
  intros o Eo. rewrite Eo in Hown. apply bool_decide_eq_true in Hown. exists v. split; [done|]. by apply (Ho v o).
Qed.

(** [max_by_key] finds one of the longest. *)
Lemma max_by_length_spec (l : list Candidate) c : max_by_length l = Some c ->
  c ∈ l /\ forall c', c' ∈ l -> (length c'.1.1 <= length c.1.1)%nat.
Proof.
  unfold max_by_length. assert (forall best, fold_left (fun best c => match best with None => Some c
      | Some b => if (length b.1.1 <=? length c.1.1)%nat then Some c else Some b end) l best = Some c ->
    (best = Some c \/ c ∈ l) /\ (forall b, best = Some b -> (length b.1.1 <= length c.1.1)%nat) /\
    forall c', c' ∈ l -> (length c'.1.1 <= length c.1.1)%nat) as Hl.
  { clear. induction l as [|x l IH]; intros best; cbn; [intros ->; split_and!; [by left|by intros ? [= ->]|set_solver]|].
    intros (Hin & Hb & Hall)%IH. destruct best as [b|].
    - destruct (Nat.leb_spec (length b.1.1) (length x.1.1)) as [Hle|Hlt]; (split_and!; [set_solver| |]).
      + intros ? [= <-]. specialize (Hb x eq_refl). lia.
      + intros c' [->|?]%elem_of_cons; [by apply Hb|by apply Hall].
      + intros ? [= <-]. by apply Hb.
      + intros c' [->|?]%elem_of_cons; [specialize (Hb b eq_refl); lia|by apply Hall].
    - split_and!; [set_solver|done|]. intros c' [->|?]%elem_of_cons; [by apply Hb|by apply Hall]. }
  intros (Hin & _ & Hall)%Hl. by destruct Hin.
Qed.

(** The check of a path: the innermost subvolume around it and every one inside it match the scope. *)
Lemma path_source_exact c l f o : path_source_matches_scope c l f o = true ->
  (exists x, x ∈ l /\ x.1.1 `prefix_of` c /\ candidate_matches f o x = true /\
     forall y, y ∈ l -> y.1.1 `prefix_of` c -> y.1.1 `prefix_of` x.1.1) /\
  forall y, y ∈ l -> c `prefix_of` y.1.1 -> candidate_matches f o y = true.
Proof.
  unfold path_source_matches_scope. intros [Hc Hn]%andb_true_iff. split.
  - destruct (max_by_length _) as [x|] eqn:Ex; [|done]. apply max_by_length_spec in Ex as [Hx Hmax].
    apply list_elem_of_In, List.filter_In in Hx as [Hx Hp%bool_decide_eq_true]. apply list_elem_of_In in Hx. exists x. split_and!; [done..|].
    intros y Hy Hyc. assert (length y.1.1 <= length x.1.1)%nat as Hlen.
    { apply Hmax. apply list_elem_of_In, List.filter_In. split; [by apply list_elem_of_In|by apply bool_decide_eq_true]. }
    destruct (prefix_weak_total _ _ _ Hyc Hp) as [?|Hxy]; [done|]. apply prefix_length in Hxy as Hl.
    by rewrite (prefix_length_eq _ _ Hxy) by lia.
  - intros y Hy Hyc. rewrite forallb_forall in Hn. apply Hn, List.filter_In. split; [by apply list_elem_of_In|by apply bool_decide_eq_true].
Qed.

Lemma candidate_rooted l sv root : rooted l sv root -> (root, sv_filesystem sv, sv_owner sv) ∈ candidates_of l.
Proof. intros [Hsv Hr]. apply list_elem_of_omap. exists sv. by rewrite Hr. Qed.

Lemma scope_check_below s session c l : listing s l -> Forall (known s) l ->
  path_source_matches_scope c (candidates_of l) (s_filesystem session) (s_owner session) = true -> below s session c.
Proof.
  intros Hli Hl [(x & Hx & Hp & Hm & Hmax) Hin]%path_source_exact. rewrite list.Forall_forall in Hl. exists l. split_and!; [done|..].
  - apply list_elem_of_omap in Hx as (sv & Hsv & (r & Hr & ->)%fmap_Some). exists sv, r.
    split_and!; [done|done|by apply known_reach; [apply Hl|]|]. intros sv' r' Hr' Hc. exact (Hmax _ (candidate_rooted _ _ _ Hr') Hc).
  - intros sv r Hr Hc. apply known_reach; [apply Hl, Hr|]. exact (Hin _ (candidate_rooted _ _ _ Hr) Hc).
Qed.

Lemma identities_reach s session l ids : Forall (known s) l -> identities_in_scope session l ids = Ok tt ->
  Forall (fun i => in_scope s session (NVolume (Some i))) ids.
Proof.
  intros Hl. induction ids as [|i ids IH]; [done|]. cbn. destruct (List.find _ l) as [sv|] eqn:Ef; [|done].
  destruct (resource_matches_scope _ _ _ _) eqn:Em; [|done]. intros Hi%IH. constructor; [|done].
  apply find_Some_elem in Ef as [Hsv Hid%bool_decide_eq_true]. rewrite list.Forall_forall in Hl.
  exists (sv_path sv). split; [by apply known_reach; [apply Hl|]|]. by apply (Hl sv Hsv).
Qed.

End Scope.

(** ** Looking without changing *)

(** The file of the protocols' state, which is written anew when it cannot be read. *)
Definition protocol_file (p : Path) : Prop := p = item_path CONFIG_DIR "protocols" \/ p = tmp_path CONFIG_DIR "protocols".
Definition other_file (p : Path) : Prop := ~ protocol_file p.

Section Idle.
Context `{LoopLaws} `{AuthPrims} `{Guests} `{ConfigFs} `{Vault} `{IpParser} `{KernelModules} `{ProjectHash} `{ShareTree}.
Context `{!Codec (gmap string BlockVolumeId)} `{!Codec IscsiTarget} `{!Codec NvmeofSubsystem}
  `{!Codec Json} `{!Codec ProtocolState} `{!Codec FirewallRestrictions} `{!Codec (list CustomRule)} `{!Codec NfsShare} `{!Codec SmbShare}.
Abbreviation Eng := (Engine ApiWorld).
Abbreviation Arm := (M Eng Response).
Implicit Types (g : Eng) (e : ApiEnv) (req : Request) (session : Session).

Definition block_world g : BlockWorld := sw_block (ap_share (Router.services g)).
Definition store_of g : Store := sw_store (look g).

(** The subvolumes, the live exports and the files are as they were, but for the protocols' state. *)
Record idle g0 g : Prop := mkIdle {
  id_steady : steady (store_of g0) (look g);
  id_tree : forall p n, bw_tree (block_world g0) !! p = Some n -> bw_tree (block_world g) !! p = Some n;
  id_disk : framed other_file (bw_disk (block_world g0)) (bw_disk (block_world g))
}.

Lemma idle_refl g : plain (bw_disk (block_world g)) -> idle g g.
Proof. intros Hp. split; [done|done|by apply framed_refl]. Qed.

Context (g0 : Eng).

Definition idles {E A} (m : M Eng E A) : Prop := forall g, idle g0 g -> keeps (idle g0) m g.

(** A step that leaves the three alone. *)
Lemma idles_still {E A} (m : M Eng E A) : (forall g, look (m g).2 = look g /\ bw_kernel (block_world (m g).2) = bw_kernel (block_world g) /\
    bw_disk (block_world (m g).2) = bw_disk (block_world g)) -> idles m.
Proof. intros Hm g [Hs Ht Hd]. destruct (Hm g) as (E1 & E2 & E3). unfold keeps, wp. split; unfold bw_tree in *; by rewrite ?E1, ?E2, ?E3. Qed.

Lemma idles_bind {E A B} (m : M Eng E A) (f : A -> M Eng E B) : idles m -> (forall a, idles (f a)) -> idles (bind m f).
Proof. intros Hm Hf g Hg. apply keeps_bind; [by apply Hm|]. intros a g' Hg'. by apply Hf. Qed.

Lemma idles_subvolumes {F A} (m : M SvWorld SubvolumeError A) : quiet m -> idles (subvolumes (F := F) m).
Proof.
  intros Hm g [Hs Ht Hd]. assert (keeps (steady (store_of g0)) m (look g)) as Hk.
  { apply Hm; [|done]. intros B c w Hc. by apply steady_after. }
  unfold keeps, wp, subvolumes, within, look in *. destruct (m (ap_sub _)) as [r w]. by split.
Qed.

Lemma idles_blocks {E F A} (m : M BlockWorld E A) : (forall b, bw_disk (m b).2 = bw_disk b /\ bw_kernel (m b).2 = bw_kernel b) ->
  idles (blocks (F := F) m).
Proof.
  intros Hm. apply idles_still. intros g. unfold blocks, within. specialize (Hm (block_world g)). unfold block_world in *.
  by destruct (m _) as [r b], Hm as [E1 E2].
Qed.

Lemma idles_files {E F A} (m : M FileWorld E A) : (forall f, FileShare.fw_disk (m f).2 = FileShare.fw_disk f) -> idles (files (F := F) m).
Proof.
  intros Hm. apply idles_still. intros g. unfold files, within. cbv zeta. set (f := mkFileWorld _ _ _ _). specialize (Hm f).
  by destruct (m f) as [r f'].
Qed.

Lemma idles_ret {E A} (a : A) : idles (ret (E := E) a).
Proof. by apply idles_still. Qed.
Lemma idles_deny {A} req msg : idles (deny (A := A) req msg).
Proof. by apply idles_still. Qed.
Lemma idles_or_err {E A} req f (r : result A E) : idles (or_err req f r).
Proof. destruct r; by apply idles_still. Qed.
Lemma idles_params {T} `{!FromValue T} req : idles (params (T := T) req).
Proof. unfold params. destruct (parse_params _ _); by apply idles_still. Qed.
Lemma idles_root_equivalent e req session reason : idles (root_equivalent e req session reason).
Proof.
  apply idles_still. intros g. unfold root_equivalent, gate, require_root_equivalent, require_endpoint_access.
  by destruct (authorize_session _ _).
Qed.
Lemma idles_or_block_error {A} e req session (r : result A string) : idles (or_block_error e req session r).
Proof.
  destruct r as [a|er]; [apply idles_ret|]. unfold or_block_error, block_authorization_error.
  apply idles_bind; [|intros; apply idles_deny]. destruct (_ =s _); [by apply idles_still|apply idles_ret].
Qed.

(** ** Reading records *)

Lemma load_plain {T} `{!Codec T} F sd id d : plain d -> (load (T := T) F sd id d).2 = d /\
  forall x, (load F sd id d).1 = Ok (Some x) -> stored (T := T) sd d id = Some x.
Proof.
  intros Hp. unfold load, bind, attempt, stored. rewrite (read_plain F (item_path sd id) d Hp).
  destruct (fault F OpRead _); [by split|]. unfold content_at. destruct (d !! item_path sd id) as [f|]; [|by split]. cbn [fmap option_fmap option_map].
  destruct (decode (f_content f)); (split; [done|]); by intros x [= <-].
Qed.

(** A record as it is on the disk, or on one that differs in the protocols' state alone. *)
Definition seen {T} `{!Codec T} (sd : StateDir) (id : string) (x : T) : Prop :=
  exists d, framed other_file (bw_disk (block_world g0)) d /\ stored sd d id = Some x.

Lemma reads_list_iscsi b : bw_disk (list_iscsi b).2 = bw_disk b /\ bw_kernel (list_iscsi b).2 = bw_kernel b.
Proof.
  unfold list_iscsi, all_targets, bind, disk_call. pose proof (load_all_strict_disk (T := IscsiTarget) ISCSI_STATE_DIR (next_plan b) (bw_disk b)) as Hd.
  destruct (load_all_strict _ _ _) as [[l|er] d]; cbn in *; by subst d.
Qed.

Lemma reads_list_nvmeof b : bw_disk (list_nvmeof b).2 = bw_disk b /\ bw_kernel (list_nvmeof b).2 = bw_kernel b.
Proof.
  unfold list_nvmeof, all_subsystems, disk_call. pose proof (load_all_strict_disk (T := NvmeofSubsystem) NVMEOF_STATE_DIR (next_plan b) (bw_disk b)) as Hd.
  destruct (load_all_strict _ _ _) as [r d]; cbn in *; by subst d.
Qed.


Lemma wp_get_iscsi id g : idle g0 g ->
  wp (E := Response) (blocks (get_iscsi id)) (fun r g' => idle g0 g' /\
    forall t, r = Ok (Ok t) -> exists t0, seen ISCSI_STATE_DIR id t0 /\ tg_luns t = tg_luns t0) g.
Proof.
  intros Hg. destruct (load_plain (T := IscsiTarget) (next_plan (block_world g)) ISCSI_STATE_DIR id (bw_disk (block_world g))) as [Hd Hx];
    [by apply (id_disk _ _ Hg)|].
  destruct Hg as [Hs Ht Hk]. unfold wp, blocks, within, get_iscsi, find_target, load_target, bind, disk_call, block_world in *.
  destruct (load _ _ _ _) as [[[t|]|er] d]; cbn in *; subst d; (split; [by split|]); [|done..].
  intros t' [= <-]. exists t. split; [|done]. eexists. split; [exact Hk|by apply Hx].
Qed.

Lemma wp_get_nvmeof id g : idle g0 g ->
  wp (E := Response) (blocks (get_nvmeof id)) (fun r g' => idle g0 g' /\ forall t, r = Ok (Ok t) -> seen NVMEOF_STATE_DIR id t) g.
Proof.
  intros Hg. destruct (load_plain (T := NvmeofSubsystem) (next_plan (block_world g)) NVMEOF_STATE_DIR id (bw_disk (block_world g))) as [Hd Hx];
    [by apply (id_disk _ _ Hg)|].
  destruct Hg as [Hs Ht Hk]. unfold wp, blocks, within, get_nvmeof, find_subsystem, load_subsystem, bind, disk_call, block_world in *.
  destruct (load _ _ _ _) as [[[t|]|er] d]; cbn in *; subst d; (split; [by split|]); [|done..].
  intros t' [= <-]. eexists. split; [exact Hk|by apply Hx].
Qed.

Lemma wp_get_nfs id g : idle g0 g ->
  wp (E := Response) (files (nfs_get id)) (fun r g' => idle g0 g' /\ forall t, r = Ok (Ok t) -> seen nfs_state_dir id t) g.
Proof.
  intros Hg. pose proof (fun F => load_plain (T := NfsShare) F nfs_state_dir id (bw_disk (block_world g)) (proj1 (id_disk _ _ Hg))) as Hl.
  destruct Hg as [Hs Ht Hk]. unfold wp, files, within, nfs_get, bind, fs_call, block_world in *. cbn in *.
  destruct (Hl (fw_next (mkFileWorld (bw_disk (sw_block (ap_share (Router.services g)))) (ap_file_plan (Router.services g))
    (ap_file_runs (Router.services g)) (ap_file_ran (Router.services g))))) as [Hd Hx].
  destruct (load _ _ _ _) as [[[t|]|er] d]; cbn in *; subst d; (split; [by split|]); [|done..].
  intros t' [= <-]. eexists. split; [exact Hk|by apply Hx].
Qed.

Lemma wp_get_smb id g : idle g0 g ->
  wp (E := Response) (files (smb_get id)) (fun r g' => idle g0 g' /\ forall t, r = Ok (Ok t) -> seen smb_state_dir id t) g.
Proof.
  intros Hg. pose proof (fun F => load_plain (T := SmbShare) F smb_state_dir id (bw_disk (block_world g)) (proj1 (id_disk _ _ Hg))) as Hl.
  destruct Hg as [Hs Ht Hk]. unfold wp, files, within, smb_get, bind, fs_call, block_world in *. cbn in *.
  destruct (Hl (fw_next (mkFileWorld (bw_disk (sw_block (ap_share (Router.services g)))) (ap_file_plan (Router.services g))
    (ap_file_runs (Router.services g)) (ap_file_ran (Router.services g))))) as [Hd Hx].
  destruct (load _ _ _ _) as [[[t|]|er] d]; cbn in *; subst d; (split; [by split|]); [|done..].
  intros t' [= <-]. eexists. split; [exact Hk|by apply Hx].
Qed.

(** ** Protocols *)

Definition proto_idle (k : Kernel) (d0 : Disk) (w : ProtoWorld) : Prop :=
  bw_kernel (pw_block w) = k /\ framed other_file d0 (bw_disk (pw_block w)).

Lemma proto_idle_call {E F A} (f : E -> F) (h : IoErr -> E) (m : Faults -> M Disk IoErr A) k d0 w :
  (forall F, keeps (framed other_file d0) (m F) (bw_disk (pw_block w))) -> proto_idle k d0 w -> keeps (proto_idle k d0) (on_block f (disk_call h m)) w.
Proof. intros Hm [Hk _]. apply wp_on_block, wp_disk_call. unfold keeps, wp in *. split; [done|apply Hm]. Qed.

Lemma proto_idle_enabled pe p k d0 w : proto_idle k d0 w -> keeps (proto_idle k d0) (is_enabled pe p) w.
Proof.
  intros Hw. apply keeps_bind; [|by intros; apply keeps_ret]. unfold load_state. apply keeps_bind.
  - apply keeps_attempt, proto_idle_call; [|done]. intros F. apply keeps_read, Hw.
  - intros [c|er] w1 Hw1; [by apply keeps_ret|]. apply keeps_bind; [|by intros; apply keeps_ret]. apply wp_ignore, proto_idle_call; [|done].
    intros F. apply keeps_save; [..|apply Hw1]; unfold other_file, protocol_file; tauto.
Qed.

Lemma idles_require_protocol e req p : idles (require_protocol e req p).
Proof.
  apply idles_bind.
  - intros g [Hs Ht Hd]. assert (proto_idle (bw_kernel (block_world g)) (bw_disk (block_world g0)) (sw_proto (ap_share (Router.services g)))) as Hp by done.
    apply (proto_idle_enabled (se_proto (ae_share e)) p) in Hp. unfold keeps, wp, shares, within, on_proto, block_world, sw_block, bw_tree in *.
    destruct (is_enabled _ _ _) as [r w], Hp as [Hk Hd']. cbn in Hk, Hd'. split; [done| |done]. intros q n Hq. change (k_tree (bw_kernel (pw_block w)) !! q = Some n). rewrite Hk. by apply Ht.
  - intros [[]|]; [apply idles_ret|apply idles_deny..].
Qed.

(** Loading a module adds directories. *)
Lemma add_dirs_keeps dirs k p n : k_tree k !! p = Some n -> k_tree (add_dirs dirs k) !! p = Some n.
Proof.
  unfold add_dirs. cbn. generalize (k_tree k) as t. induction dirs as [|q dirs IH]; intros t Ht; [done|]. cbn [fold_left]. apply IH.
  destruct (t !! q) as [x|] eqn:Eq; [done|]. by rewrite lookup_insert_ne by congruence.
Qed.

Lemma idles_require_rdma e req m : idles (require_rdma e req m).
Proof.
  unfold require_rdma. destruct (negb _); [apply idles_deny|]. apply idles_bind; [|intros; apply idles_or_err].
  intros g [Hs Ht Hd]. unfold keeps, wp, shares, within, on_proto, modprobe. destruct (default _ _) as [|[]]; [|by split].
  split; [done| |done]. intros p n Hp. by apply add_dirs_keeps, Ht.
Qed.


(** ** Authorisation *)

Context (session : Session) (Hscoped : session_is_scoped session = true) (Hloops : plain_loops (store_of g0)).
Abbreviation scoped := (in_scope (store_of g0) session).

Lemma not_raw : session_allows_raw_block_sources session = false.
Proof. unfold session_allows_raw_block_sources. by rewrite Hscoped, andb_false_r. Qed.

(** The first steps of an authorisation list the subvolumes. *)
Lemma wp_listed {A} (k : result (list Subvolume) SubvolumeError -> A) (Q : A -> Prop) g : idle g0 g ->
  (forall l, listing (store_of g0) l -> Forall (known (store_of g0)) l -> Q (k (Ok l))) -> (forall er, Q (k (Err er))) ->
  wp (E := Response) (all <- subvolumes (list_all None None) ;; ret (k all)) (fun r g' => idle g0 g' /\ forall x, r = Ok x -> Q x) g.
Proof.
  intros Hg Hk He. pose proof (idles_subvolumes (F := Response) (list_all None None) (quiet_list_all _ _) g Hg) as Hi.
  pose proof (wp_all_known None None (store_of g0) (look g) Hloops (id_steady _ _ Hg)) as Hl.
  pose proof (id_steady _ _ Hg) as Hst.
  unfold keeps, wp, bind, subvolumes, within, look in *. destruct (list_all None None _) as [[l|er] w] eqn:El; (split; [exact Hi|]); intros x [= <-].
  - apply Hk; [by eexists _, _|by apply Hl].
  - apply He.
Qed.

Lemma wp_scope_check c g : idle g0 g -> wp (scope_check session c) (fun r g' => idle g0 g' /\
  forall x, r = Ok x -> x = Ok tt -> below (store_of g0) session c) g.
Proof.
  intros Hg. apply wp_listed; [done| |done]. intros l Hli Hl. destruct (path_source_matches_scope _ _ _ _) eqn:Em; [|done].
  intros _. by eapply scope_check_below.
Qed.

Lemma wp_path_source req p g : idle g0 g -> wp (path_source req session p) (fun r g' => idle g0 g' /\ forall x, r = Ok x -> scoped (NPath p)) g.
Proof.
  intros Hg. unfold path_source, authorize_path_source. rewrite Hscoped. apply wp_bind. cbn [negb].
  destruct (canonicalize p) as [c|] eqn:Ec; [|by apply wp_ret, wp_throw].
  apply wp_bind. eapply wp_mono; [|by apply wp_scope_check]. intros r g1 [Hg1 Hb]. destruct r as [x|er]; [|by split]. apply wp_ret.
  destruct x as [[]|er]; [|by apply wp_throw]. destruct (text_of c) as [t|]; [|by apply wp_throw]. apply wp_ret. split; [done|].
  intros _ _. exists c. split; [done|]. by apply (Hb (Ok tt)).
Qed.

Lemma wp_or_block_error {A} e req (r : result A string) g : idle g0 g ->
  wp (or_block_error e req session r) (fun r' g' => idle g0 g' /\ forall a, r' = Ok a -> r = Ok a) g.
Proof.
  intros Hg. apply wp_and; [by apply idles_or_block_error|]. destruct r as [a|er]; [by apply wp_ret; intros ? [= <-]|].
  unfold or_block_error, block_authorization_error. apply wp_bind. by destruct (_ =s _).
Qed.

Lemma wp_block_source e req d reason g : idle g0 g ->
  wp (block_source e req session d reason) (fun r g' => idle g0 g' /\ forall x, r = Ok x -> scoped (NDevice d)) g.
Proof.
  intros Hg. unfold block_source, authorize_block_source. rewrite not_raw. apply wp_bind.
  eapply wp_mono; [|apply (wp_listed _ (fun x => forall i, x = Ok i -> scoped (NDevice d))); [done| |done]].
  - intros r g1 [Hg1 Hr]. destruct r as [x|er]; [|by split]. apply wp_bind. eapply wp_mono; [|by apply wp_or_block_error].
    intros [i|er] g2 [Hg2 Hx]; [|by split]. apply wp_bind. eapply wp_mono with (P := fun _ g' => idle g0 g').
    + intros [[]|er] g3 Hg3; [|by split]. apply wp_ret. split; [done|]. intros _ _. by eapply Hr, Hx.
    + destruct i; [by apply idles_ret|by apply idles_root_equivalent].
  - intros l _ Hl i. destruct (List.find _ l) as [sv|] eqn:Ef; [|done]. destruct (negb _) eqn:Em; [done|]. apply negb_false_iff in Em.
    intros _. apply find_Some_elem in Ef as [Hsv [_ Hd%bool_decide_eq_true]%andb_true_iff]. rewrite list.Forall_forall in Hl.
    exists (sv_path sv). split; [by apply known_reach; [apply Hl|]|]. by apply (Hl sv Hsv).
Qed.


Lemma wp_fileio_source p g : idle g0 g -> wp (authorize_fileio_source session p) (fun r g' => idle g0 g' /\
  forall x t, r = Ok x -> x = Ok t -> scoped (NFile p)) g.
Proof.
  intros Hg. unfold authorize_fileio_source. rewrite not_raw, Hscoped. destruct (canonical_fileio_source p) as [c|er] eqn:Ec.
  2:{ apply wp_ret. split; [done|]. by intros x t [= <-]. }
  destruct (negb _); [apply wp_ret; split; [done|]; by intros x t [= <-]|].
  apply wp_bind. eapply wp_mono; [|by apply wp_scope_check]. intros r g1 [Hg1 Hb]. destruct r as [x|er]; [|by split]. apply wp_ret.
  split; [done|]. intros y t [= <-] Ht. destruct x as [[]|er]; [|done]. exists c. split; [done|]. by apply (Hb (Ok tt)).
Qed.

Lemma wp_fileio_luns e req l g : idle g0 g -> wp (authorize_fileio_luns e req session l) (fun r g' => idle g0 g' /\
  forall x, r = Ok x -> Forall (fun y => scoped (NFile (lu_backstore_path y))) l) g.
Proof.
  revert g. induction l as [|y l IH]; intros g Hg; cbn [authorize_fileio_luns]; [by apply wp_ret|].
  apply wp_bind. eapply wp_mono; [|by apply wp_fileio_source]. intros r g1 [Hg1 Hy]. destruct r as [x|er]; [|by split].
  apply wp_bind. eapply wp_mono; [|by apply wp_or_block_error]. intros [t|er] g2 [Hg2 Hx]; [|by split].
  eapply wp_mono; [|by apply IH]. intros r g3 [Hg3 Hl]. split; [done|]. intros u Hu. constructor; [|by eapply Hl].
  by eapply Hy; [|apply Hx].
Qed.

Lemma wp_destination ids g : idle g0 g -> wp (authorize_block_destination session ids) (fun r g' => idle g0 g' /\
  forall x, r = Ok x -> x = Ok tt -> ids <> [] /\ Forall (fun i => scoped (NVolume i)) ids) g.
Proof.
  intros Hg. unfold authorize_block_destination. rewrite not_raw. case_bool_decide as Hids.
  { apply wp_ret. split; [done|]. intros x [= <-]. unfold session_allows_empty_block_destination. by rewrite Hscoped, andb_false_r. }
  destruct (existsb _ ids) eqn:Ee; [apply wp_ret; split; [done|]; by intros x [= <-]|].
  apply wp_listed; [done| |done]. intros l _ Hl Hi. pose proof (identities_reach _ _ _ _ Hl Hi) as Hok. clear Hi. split; [done|].
  apply list.Forall_forall. intros [i|] Hi.
  - rewrite list.Forall_forall in Hok. apply Hok. apply list_elem_of_omap. by exists (Some i).
  - exfalso. apply not_true_iff_false in Ee. apply Ee, existsb_exists. exists None. split; [by apply list_elem_of_In|done].
Qed.

Lemma root_reason_none l : root_reason l = None -> Forall (fun x => lun_root_reason x = None) l.
Proof.
  unfold root_reason. assert (forall o, fold_left (fun reason y => match lun_root_reason y with Some r => Some r | None => reason end) l o = None ->
    o = None /\ Forall (fun x => lun_root_reason x = None) l) as Hl.
  { induction l as [|y l IH]; intros o; cbn; [by intros ->|]. intros [Ho Hl]%IH. destruct (lun_root_reason y) eqn:Ey; [done|]. by repeat constructor. }
  by intros [_ ?]%Hl.
Qed.

(** What is for the administrator alone is refused. *)
Lemma wp_root_refused e req reason g : idle g0 g ->
  wp (root_equivalent e req session reason) (fun r g' => idle g0 g' /\ is_ok r = false) g.
Proof.
  intros Hg. apply wp_and; [by apply idles_root_equivalent|].
  assert (exists d, authorize_session session RootEquivalent = Err d) as [d Hd].
  { unfold authorize_session. unfold session_is_scoped in Hscoped. rewrite Hscoped. destruct (_ && negb _); [by eexists|]. destruct (negb _); by eexists. }
  unfold wp, root_equivalent, gate, require_root_equivalent, require_endpoint_access. by rewrite Hd.
Qed.

(** A target or a subsystem that the session may change. *)
Definition may_change (l : list Named) : Prop := l <> [] /\ Forall scoped l.

Lemma luns_scoped (l : list Lun) : Forall (fun x => lun_root_reason x = None) l ->
  Forall (fun y => scoped (NFile (lu_backstore_path y))) (List.filter (has_type "fileio") l) ->
  Forall (fun i => scoped (NVolume i)) (lu_backing_volume <$> List.filter (has_type "block") l) ->
  Forall scoped (lun_named <$> l).
Proof.
  rewrite !Forall_fmap, !list.Forall_forall. intros Hroot Hf Hb x Hx. cbn. unfold lun_named. destruct (has_type "fileio" x) eqn:Et.
  - apply Hf, list_elem_of_In, List.filter_In. split; [by apply list_elem_of_In|done].
  - apply (Hb x), list_elem_of_In, List.filter_In. split; [by apply list_elem_of_In|]. specialize (Hroot x Hx).
    unfold lun_root_reason, has_type in *. rewrite Et in Hroot. by destruct (_ =s "block").
Qed.

Lemma wp_on_target e req id g : idle g0 g -> wp (on_target e req session id) (fun r g' => idle g0 g' /\
  forall x, r = Ok x -> exists t, seen ISCSI_STATE_DIR id t /\ may_change (lun_named <$> tg_luns t)) g.
Proof.
  intros Hg. unfold on_target, authorized_iscsi_target. apply wp_bind, wp_bind. eapply wp_mono; [|by apply wp_get_iscsi].
  intros r g1 [Hg1 Ht]. destruct r as [[t|er]|er]; [|by apply wp_bind, wp_throw|by split].
  destruct (Ht t eq_refl) as (t0 & Hseen & Hluns). apply wp_bind, wp_ret, wp_bind.
  destruct (root_reason (tg_luns t)) as [reason|] eqn:Er.
  { eapply wp_mono; [|by apply wp_root_refused]. by intros [[]|er] g2 [Hg2 Hn]. }
  apply wp_ret. rewrite Hscoped. apply wp_bind, wp_bind. eapply wp_mono; [|by apply wp_fileio_luns].
  intros r g2 [Hg2 Hf]. destruct r as [u|er]; [|by split]. specialize (Hf u eq_refl). cbv zeta.
  apply root_reason_none in Er as Hroot.
  destruct (bool_decide (tg_luns t = []) || _) eqn:Eb.
  - apply wp_bind. eapply wp_mono; [|by apply wp_destination]. intros r g3 [Hg3 Hd]. destruct r as [x|er]; [|by split].
    eapply wp_mono; [|by apply wp_or_block_error]. intros [[]|er] g4 [Hg4 Hx]; [|by split]. apply wp_ret, wp_ret. split; [done|].
    intros _ _. exists t0. split; [done|]. rewrite <- Hluns. destruct (Hd x eq_refl (Hx tt eq_refl)) as [Hne Hv]. split.
    + intros Hn%fmap_nil_inv. apply Hne. by rewrite Hn.
    + by apply luns_scoped.
  - apply orb_false_iff in Eb as [E1%bool_decide_eq_false E2%negb_false_iff%bool_decide_eq_true]. apply wp_ret, wp_ret, wp_ret. split; [done|].
    intros _ _. exists t0. split; [done|]. rewrite <- Hluns. split; [by intros ?%fmap_nil_inv|]. apply luns_scoped; [done..|]. by rewrite E2.
Qed.

Lemma wp_on_subsystem e req id g : idle g0 g -> wp (on_subsystem e req session id) (fun r g' => idle g0 g' /\
  forall x, r = Ok x -> exists t, seen NVMEOF_STATE_DIR id t /\ may_change (namespace_named <$> ss_namespaces t)) g.
Proof.
  intros Hg. unfold on_subsystem, authorized_nvmeof_subsystem. apply wp_bind, wp_bind. eapply wp_mono; [|by apply wp_get_nvmeof].
  intros r g1 [Hg1 Ht]. destruct r as [[t|er]|er]; [|by apply wp_bind, wp_throw|by split]. specialize (Ht t eq_refl).
  apply wp_bind, wp_ret, wp_bind. eapply wp_mono with (P := fun _ g' => idle g0 g').
  2:{ destruct (existsb _ _); [by apply idles_root_equivalent|by apply idles_ret]. }
  intros [u|er] g2 Hg2; [|by split]. rewrite Hscoped. apply wp_bind, wp_bind. eapply wp_mono; [|by apply wp_destination].
  intros r g3 [Hg3 Hd]. destruct r as [x|er]; [|by split]. eapply wp_mono; [|by apply wp_or_block_error].
  intros [[]|er] g4 [Hg4 Hx]; [|by split]. apply wp_ret, wp_ret. split; [done|]. intros _ _. exists t. split; [done|].
  destruct (Hd x eq_refl (Hx tt eq_refl)) as [Hne Hv]. split; [intros Hn%fmap_nil_inv; apply Hne; by rewrite Hn|].
  rewrite Forall_fmap. rewrite Forall_fmap in Hv. exact Hv.
Qed.


(** ** What a request names *)

Context `{!ApiSerde} (req : Request).

(** The request is for this method, with these parameters. *)
Definition asks {T} `{!FromValue T} (m : string) (p : T) : Prop := rq_method req = m /\ parse_params from_value req = Ok p.

(** The methods on a target or a subsystem that exists. *)
Inductive on_existing_target : string -> Prop :=
| on_iscsi_delete (p : DeleteTargetRequest) : asks "share.iscsi.delete" p -> on_existing_target (dt_id p)
| on_remove_lun (p : RemoveLunRequest) : asks "share.iscsi.remove_lun" p -> on_existing_target (rl_target_id p)
| on_add_acl (p : AddAclRequest) : asks "share.iscsi.add_acl" p -> on_existing_target (aa_target_id p)
| on_remove_acl (p : RemoveAclRequest) : asks "share.iscsi.remove_acl" p -> on_existing_target (ra_target_id p)
| on_add_portal (p : AddPortalRequest) : asks "share.iscsi.add_portal" p -> on_existing_target (ao_target_id p)
| on_set_portals (p : SetPortalsRequest) : asks "share.iscsi.set_portals" p -> on_existing_target (ShareApi.sp_target_id p)
| on_remove_portal (p : RemovePortalRequest) : asks "share.iscsi.remove_portal" p -> on_existing_target (ShareApi.rp_target_id p).

Inductive on_existing_subsystem : string -> Prop :=
| on_nvmeof_delete (p : DeleteSubsystemRequest) : asks "share.nvmeof.delete" p -> on_existing_subsystem (du_id p)
| on_remove_namespace (p : RemoveNamespaceRequest) : asks "share.nvmeof.remove_namespace" p -> on_existing_subsystem (rn_subsystem_id p)
| on_add_port (p : AddPortRequest) : asks "share.nvmeof.add_port" p -> on_existing_subsystem (ap_subsystem_id p)
| on_remove_port (p : RemovePortRequest) : asks "share.nvmeof.remove_port" p -> on_existing_subsystem (ro_subsystem_id p)
| on_add_host (p : AddHostRequest) : asks "share.nvmeof.add_host" p -> on_existing_subsystem (ah_subsystem_id p)
| on_remove_host (p : RemoveHostRequest) : asks "share.nvmeof.remove_host" p -> on_existing_subsystem (rh_subsystem_id p).

Definition source_named (e : ApiEnv) (p : AddLunRequest) : Named :=
  if is_fileio e p then NFile (al_backstore_path p) else NDevice (al_backstore_path p).

(** Everything that a request which changes shares is about. *)
Inductive names (e : ApiEnv) : list Named -> Prop :=
| names_nfs_create (p : CreateNfsShareRequest) : asks "share.nfs.create" p -> names e [NPath (cn_path p)]
| names_nfs_update (p : UpdateNfsShareRequest) t : asks "share.nfs.update" p -> seen nfs_state_dir (un_id p) t -> names e [NPath (Nfs.ns_path t)]
| names_nfs_delete (p : DeleteNfsShareRequest) t : asks "share.nfs.delete" p -> seen nfs_state_dir (dn_id p) t -> names e [NPath (Nfs.ns_path t)]
| names_smb_create (p : CreateSmbShareRequest) : asks "share.smb.create" p -> names e [NPath (cs_path p)]
| names_smb_update (p : UpdateSmbShareRequest) t : asks "share.smb.update" p -> seen smb_state_dir (us_id p) t -> names e [NPath (sm_path t)]
| names_smb_delete (p : DeleteSmbShareRequest) t : asks "share.smb.delete" p -> seen smb_state_dir (ds_id p) t -> names e [NPath (sm_path t)]
| names_iscsi_create (p : CreateTargetRequest) d : asks "share.iscsi.create" p -> ct_device_path p = Some d -> names e [NDevice d]
| names_add_lun (p : AddLunRequest) t : asks "share.iscsi.add_lun" p -> seen ISCSI_STATE_DIR (al_target_id p) t ->
    names e (source_named e p :: (lun_named <$> tg_luns t))
| names_target id t : on_existing_target id -> seen ISCSI_STATE_DIR id t -> names e (lun_named <$> tg_luns t)
| names_nvmeof_create (p : CreateSubsystemRequest) d : asks "share.nvmeof.create" p -> cs_device_path p = Some d -> names e [NDevice d]
| names_add_namespace (p : AddNamespaceRequest) t : asks "share.nvmeof.add_namespace" p -> seen NVMEOF_STATE_DIR (an_subsystem_id p) t ->
    names e (NDevice (an_device_path p) :: (namespace_named <$> ss_namespaces t))
| names_subsystem id t : on_existing_subsystem id -> seen NVMEOF_STATE_DIR id t -> names e (namespace_named <$> ss_namespaces t).

(** Nothing has happened, or all that the request names is in the scope. *)
Definition settled_scope (e : ApiEnv) {E A} (_ : result A E) g : Prop := idle g0 g \/ exists l, names e l /\ may_change l.

Lemma pass {A B} e (m : Arm A) (k : A -> Arm B) g : idles m -> idle g0 g ->
  (forall a g', idle g0 g' -> wp (k a) (settled_scope e) g') -> wp (bind m k) (settled_scope e) g.
Proof. intros Hm Hg Hk. apply wp_bind. eapply wp_mono; [|by apply Hm]. intros [a|er] g' Hg'; [by apply Hk|by left]. Qed.

Lemma pass_params {T B} `{!FromValue T} e (k : T -> Arm B) g : idle g0 g ->
  (forall p, parse_params from_value req = Ok p -> wp (k p) (settled_scope e) g) -> wp (bind (params req) k) (settled_scope e) g.
Proof. intros Hg Hk. unfold params. destruct (parse_params _ _) as [p|] eqn:Ep; [by apply wp_bind, wp_ret, Hk|]. by apply wp_bind, wp_throw; left. Qed.

(** A step after which more is known. *)
Lemma learn {A B} e (m : Arm A) (k : A -> Arm B) (P : A -> Prop) g :
  wp m (fun r g' => idle g0 g' /\ forall x, r = Ok x -> P x) g ->
  (forall a g', P a -> idle g0 g' -> wp (k a) (settled_scope e) g') -> wp (bind m k) (settled_scope e) g.
Proof. intros Hm Hk. apply wp_bind. eapply wp_mono; [|exact Hm]. intros [a|er] g' [Hg' Ha]; [by apply Hk; [apply Ha|]|by left]. Qed.

(** A record is read, or the request ends. *)
Lemma learn_record {T E B} e (m : Arm (result T E)) f (k : T -> Arm B) (P : T -> Prop) g :
  wp m (fun r g' => idle g0 g' /\ forall t, r = Ok (Ok t) -> P t) g ->
  (forall t g', P t -> idle g0 g' -> wp (k t) (settled_scope e) g') ->
  wp (r <- m ;; x <- or_err req f r ;; k x) (settled_scope e) g.
Proof.
  intros Hm Hk. apply wp_bind. eapply wp_mono; [|exact Hm]. intros [[t|er]|er] g' [Hg' Ht]; [| |by left].
  - apply wp_bind, wp_ret. by apply Hk; [apply Ht|].
  - apply wp_bind, wp_throw. by left.
Qed.

Lemma allowed {A} e (m : Arm A) l g : names e l -> may_change l -> wp m (settled_scope e) g.
Proof. intros Hn Hl. right. by exists l. Qed.

Lemma one_scoped n : scoped n -> may_change [n].
Proof. intros Hn. by split; [|constructor]. Qed.

#[local] Hint Resolve idles_require_protocol idles_require_rdma idles_or_err idles_ret idles_deny idles_root_equivalent one_scoped : core.

(** The arms for NFS and SMB. *)
Lemma scope_nfs_create e g : rq_method req = "share.nfs.create" -> idle g0 g -> wp (arm_nfs_create e req session) (settled_scope e) g.
Proof.
  intros Hm Hg. apply pass; [done..|]. intros _ g1 Hg1. apply pass_params; [done|]. intros p Hp.
  eapply learn; [by apply wp_path_source|]. intros path g2 Hs Hg2. eapply allowed; [by eapply names_nfs_create|by apply one_scoped].
Qed.

Lemma scope_nfs_update e g : rq_method req = "share.nfs.update" -> idle g0 g -> wp (arm_nfs_update e req session) (settled_scope e) g.
Proof.
  intros Hm Hg. apply pass; [done..|]. intros _ g1 Hg1. apply pass_params; [done|]. intros p Hp.
  eapply learn_record; [by apply wp_get_nfs|]. intros t g2 Ht Hg2.
  eapply learn; [by apply wp_path_source|]. intros path g9 Hs Hg9. eapply allowed; [by eapply names_nfs_update|by apply one_scoped].
Qed.

Lemma scope_nfs_delete e g : rq_method req = "share.nfs.delete" -> idle g0 g -> wp (arm_nfs_delete e req session) (settled_scope e) g.
Proof.
  intros Hm Hg. apply pass; [done..|]. intros _ g1 Hg1. apply pass_params; [done|]. intros p Hp.
  eapply learn_record; [by apply wp_get_nfs|]. intros t g2 Ht Hg2.
  eapply learn; [by apply wp_path_source|]. intros path g9 Hs Hg9. eapply allowed; [by eapply names_nfs_delete|by apply one_scoped].
Qed.

Lemma idles_smb_taken n : idles (smb_name_taken n).
Proof.
  apply idles_bind; [|intros; apply idles_ret]. apply idles_files. intros f. unfold smb_list, fs_call.
  pose proof (load_all_disk (T := SmbShare) smb_state_dir (fw_next f) (FileShare.fw_disk f)) as Hd. destruct (load_all _ _ _) as [r d]. exact Hd.
Qed.

Lemma scope_smb_create e g : rq_method req = "share.smb.create" -> idle g0 g -> wp (arm_smb_create e req session) (settled_scope e) g.
Proof.
  intros Hm Hg. apply pass; [done..|]. intros _ g1 Hg1. apply pass_params; [done|]. intros p Hp.
  apply pass; [by destruct (smb_extra_params_require_admin _ _)|done|]. intros _ g2 Hg2. apply pass; [|done|].
  { destruct (session_is_scoped session); [|done]. apply idles_bind; [apply idles_smb_taken|]. by intros []. }
  intros _ g3 Hg3. eapply learn; [by apply wp_path_source|]. intros path g4 Hs Hg4. eapply allowed; [by eapply names_smb_create|by apply one_scoped].
Qed.

Lemma scope_smb_update e g : rq_method req = "share.smb.update" -> idle g0 g -> wp (arm_smb_update e req session) (settled_scope e) g.
Proof.
  intros Hm Hg. apply pass; [done..|]. intros _ g1 Hg1. apply pass_params; [done|]. intros p Hp.
  eapply learn_record; [by apply wp_get_smb|]. intros t g2 Ht Hg2.
  apply pass; [by destruct (smb_extra_params_require_admin _ _)|done|]. intros _ g3 Hg3.
  eapply learn; [by apply wp_path_source|]. intros path g9 Hs Hg9. eapply allowed; [by eapply names_smb_update|by apply one_scoped].
Qed.

Lemma scope_smb_delete e g : rq_method req = "share.smb.delete" -> idle g0 g -> wp (arm_smb_delete e req session) (settled_scope e) g.
Proof.
  intros Hm Hg. apply pass; [done..|]. intros _ g1 Hg1. apply pass_params; [done|]. intros p Hp.
  eapply learn_record; [by apply wp_get_smb|]. intros t g2 Ht Hg2.
  eapply learn; [by apply wp_path_source|]. intros path g9 Hs Hg9. eapply allowed; [by eapply names_smb_delete|by apply one_scoped].
Qed.

(** The arms for block exports. *)
Lemma scope_on_target {A} e id (k : unit -> Arm A) g : on_existing_target id -> idle g0 g -> wp (bind (on_target e req session id) k) (settled_scope e) g.
Proof.
  intros Hid Hg. eapply learn; [by apply wp_on_target|]. intros u g1 (t & Ht & Hl) Hg1. eapply allowed; [by eapply names_target|done].
Qed.

Lemma scope_on_subsystem {A} e id (k : unit -> Arm A) g : on_existing_subsystem id -> idle g0 g ->
  wp (bind (on_subsystem e req session id) k) (settled_scope e) g.
Proof.
  intros Hid Hg. eapply learn; [by apply wp_on_subsystem|]. intros u g1 (t & Ht & Hl) Hg1. eapply allowed; [by eapply names_subsystem|done].
Qed.

(** A method on a target or a subsystem that exists. *)
Lemma scope_existing {T B} `{!FromValue T} e proto (k : T -> Arm B) g : idle g0 g ->
  (forall p g', parse_params from_value req = Ok p -> idle g0 g' -> wp (k p) (settled_scope e) g') ->
  wp (require_protocol e req proto ;;; p <- params (T := T) req ;; k p) (settled_scope e) g.
Proof. intros Hg Hk. apply pass; [done..|]. intros _ g1 Hg1. apply pass_params; [done|]. intros p Hp. by apply Hk. Qed.

Lemma idles_taken_iqn n : idles (iqn_taken n).
Proof. apply idles_bind; [apply idles_blocks, reads_list_iscsi|intros; apply idles_ret]. Qed.
Lemma idles_taken_nqn n : idles (nqn_taken n).
Proof. apply idles_bind; [apply idles_blocks, reads_list_nvmeof|intros; apply idles_ret]. Qed.

Lemma scope_iscsi_create e g : rq_method req = "share.iscsi.create" -> idle g0 g -> wp (arm_iscsi_create e req session) (settled_scope e) g.
Proof.
  intros Hm Hg. apply scope_existing; [done|]. intros p g1 Hp Hg1. rewrite Hscoped. destruct (ct_device_path p) as [d|] eqn:Ed; cbn [is_some negb].
  2:{ apply wp_bind, wp_throw. by left. }
  apply pass; [|done|]. { apply idles_bind; [apply idles_taken_iqn|]. by intros []. }
  intros _ g2 Hg2. apply pass; [by destruct (match ct_portals p with Some _ => _ | None => _ end)|done|]. intros _ g3 Hg3.
  apply wp_bind, wp_bind. eapply wp_mono; [|by apply wp_block_source]. intros [i|er] g4 [Hg4 Hs]; [|by left].
  eapply allowed; [by eapply names_iscsi_create|by eapply one_scoped, Hs].
Qed.

Lemma scope_nvmeof_create e g : rq_method req = "share.nvmeof.create" -> idle g0 g -> wp (arm_nvmeof_create e req session) (settled_scope e) g.
Proof.
  intros Hm Hg. apply scope_existing; [done|]. intros p g1 Hp Hg1. rewrite Hscoped. destruct (cs_device_path p) as [d|] eqn:Ed; cbn [is_some negb].
  2:{ apply wp_bind, wp_throw. by left. }
  apply pass; [|done|]. { apply idles_bind; [apply idles_taken_nqn|]. by intros []. }
  intros _ g3 Hg3. apply wp_bind, wp_bind. eapply wp_mono; [|by apply wp_block_source]. intros [i|er] g4 [Hg4 Hs]; [|by left].
  eapply allowed; [by eapply names_nvmeof_create|by eapply one_scoped, Hs].
Qed.

Lemma may_change_cons n l : scoped n -> may_change l -> may_change (n :: l).
Proof. intros Hn [_ Hl]. split; [done|by constructor]. Qed.

Lemma scope_iscsi_add_lun e g : rq_method req = "share.iscsi.add_lun" -> idle g0 g -> wp (arm_iscsi_add_lun e req session) (settled_scope e) g.
Proof.
  intros Hm Hg. apply scope_existing; [done|]. intros p g1 Hp Hg1. eapply learn; [by apply wp_on_target|].
  intros _ g2 (t & Ht & Hl) Hg2. eapply (learn e _ _ (fun _ => scoped (source_named e p))).
  - unfold source_named. destruct (is_fileio e p).
    + apply wp_bind. eapply wp_mono; [|by apply wp_fileio_source]. intros r g3 [Hg3 Hf]. destruct r as [x|er]; [|by split].
      apply wp_bind. eapply wp_mono; [|by apply wp_or_block_error]. intros [y|er] g4 [Hg4 Hx]; [|by split]. apply wp_ret. split; [done|].
      intros _ _. by eapply Hf, Hx.
    + apply wp_bind. eapply wp_mono; [|by apply wp_block_source]. intros [i|er] g3 [Hg3 Hd]; [|by split]. apply wp_ret. split; [done|].
      intros _ _. by eapply Hd.
  - intros q g5 Hs Hg5. eapply allowed; [by eapply names_add_lun|by apply may_change_cons].
Qed.

Lemma scope_nvmeof_add_namespace e g : rq_method req = "share.nvmeof.add_namespace" -> idle g0 g ->
  wp (arm_nvmeof_add_namespace e req session) (settled_scope e) g.
Proof.
  intros Hm Hg. apply scope_existing; [done|]. intros p g1 Hp Hg1. eapply learn; [by apply wp_on_subsystem|].
  intros _ g2 (t & Ht & Hl) Hg2. eapply learn; [by apply wp_block_source|]. intros i g3 Hs Hg3.
  eapply allowed; [by eapply names_add_namespace|by apply may_change_cons].
Qed.


(** ** All arms *)

Lemma idles_answer {E A} f v (m : Arm (result A E)) : idles m -> idles (answer req f v m).
Proof. intros Hm. apply idles_bind; [done|]. intros r. apply idles_bind; [apply idles_or_err|]. intros a. apply idles_ret. Qed.

Lemma idles_str_arg k : idles (str_arg req k).
Proof. by apply idles_still. Qed.

Lemma settled_idles {A} e (m : Arm A) g : idles m -> idle g0 g -> wp m (settled_scope e) g.
Proof. intros Hm Hg. eapply wp_mono; [|by apply Hm]. intros r g' Hg'. by left. Qed.

Lemma scope_unscoped_admin {A} e (k : unit -> Arm A) g : idle g0 g -> wp (bind (unscoped_admin req session) k) (settled_scope e) g.
Proof. intros Hg. unfold unscoped_admin. rewrite Hscoped, orb_true_r. apply wp_bind, wp_throw. by left. Qed.

Lemma scope_changes e : Forall (fun a => a.1 = rq_method req -> forall g, idle g0 g -> wp a.2 (settled_scope e) g) (share_changes e req session).
Proof.
  unfold share_changes. repeat (apply list.Forall_cons; split; cbn [fst snd]; [intros Hm g Hg|]); [..|done].
  all: first [by apply scope_nfs_create|by apply scope_nfs_update|by apply scope_nfs_delete|by apply scope_smb_create|by apply scope_smb_update
    |by apply scope_smb_delete|by apply scope_iscsi_create|by apply scope_iscsi_add_lun|by apply scope_nvmeof_create
    |by apply scope_nvmeof_add_namespace|by apply scope_unscoped_admin|idtac].
  all: apply scope_existing; [done|]; intros p g1 Hp Hg1; first [apply scope_on_target; [|done]|apply scope_on_subsystem; [|done]].
  - by apply on_iscsi_delete.
  - by apply on_remove_lun.
  - by apply on_add_acl.
  - by apply on_remove_acl.
  - by apply on_add_portal.
  - by apply on_set_portals.
  - by apply on_remove_portal.
  - by apply on_nvmeof_delete.
  - by apply on_remove_namespace.
  - by apply on_add_port.
  - by apply on_remove_port.
  - by apply on_add_host.
  - by apply on_remove_host.
Qed.

Lemma idles_wp {E A} (m : M Eng E A) (Q : result A E -> Prop) : (forall g, idle g0 g -> wp m (fun r g' => idle g0 g' /\ Q r) g) -> idles m.
Proof. intros Hm g Hg. eapply wp_mono; [|by apply Hm]. by intros r g' [? _]. Qed.

Lemma idles_reads : Forall (fun a => idles a.2) (share_reads req).
Proof.
  assert (forall f, FileShare.fw_disk (nfs_list f).2 = FileShare.fw_disk f) as Hnfs.
  { intros f. unfold nfs_list, fs_call. pose proof (load_all_disk (T := NfsShare) nfs_state_dir (fw_next f) (FileShare.fw_disk f)) as Hd.
    destruct (load_all _ _ _) as [r d]. exact Hd. }
  assert (forall f, FileShare.fw_disk (smb_list f).2 = FileShare.fw_disk f) as Hsmb.
  { intros f. unfold smb_list, fs_call. pose proof (load_all_disk (T := SmbShare) smb_state_dir (fw_next f) (FileShare.fw_disk f)) as Hd.
    destruct (load_all _ _ _) as [r d]. exact Hd. }
  unfold share_reads. repeat (apply list.Forall_cons; split; cbn [snd]); [..|done].
  all: try (apply idles_bind; [apply idles_str_arg|]; intros id); apply idles_answer.
  - by apply idles_files.
  - eapply idles_wp, wp_get_nfs.
  - by apply idles_files.
  - eapply idles_wp, wp_get_smb.
  - apply idles_blocks, reads_list_iscsi.
  - eapply idles_wp, wp_get_iscsi.
  - apply idles_blocks, reads_list_nvmeof.
  - eapply idles_wp, wp_get_nvmeof.
Qed.

Lemma scope_route_inner e g : idle g0 g -> settled_scope e (Ok tt : result unit unit) (route_inner e req session g).2.
Proof.
  intros Hg. unfold route_inner, run_arm, find_arm. destruct (List.find _ _) as [[m arm]|] eqn:Ef; [|by left]. cbn [fmap option_fmap option_map snd].
  apply find_Some_elem in Ef as [Hin Hm%eqb_spec]. cbn in Hm. apply elem_of_app in Hin as [Hin|Hin].
  - pose proof idles_reads as Hr. rewrite list.Forall_forall in Hr. specialize (Hr _ Hin g Hg). unfold keeps, wp in Hr. cbn in Hr.
    destruct (arm g) as [r g']. by left.
  - pose proof (scope_changes e) as Hc. rewrite list.Forall_forall in Hc. specialize (Hc _ Hin Hm g Hg). unfold wp in Hc. cbn in Hc.
    by destruct (arm g) as [r g'].
Qed.

(** Opening ports changes neither a file nor an export. *)
Lemma ports_disk fe a b w : Firewall.fw_disk (set_portal_ports fe a b w).2 = Firewall.fw_disk w.
Proof.
  assert (forall x y c w, Firewall.fw_disk (apply_nftables x y c w).2 = Firewall.fw_disk w) as Ha.
  { intros x y c v. unfold apply_nftables, bind, lift. destruct (x (batch c)) as [[]|]; [|done]. by destruct (y (batch c)) as [[[]|] []]. }
  unfold set_portal_ports, bind, gets. destruct (replace_rule_ports _ _ a _) as [c1 s1]. destruct (replace_rule_ports _ _ b _) as [c2 s2].
  destruct (_ && _); [done|]. unfold commit_candidate, bind, gets, attempt. specialize (Ha (fe_check fe) (fe_apply fe) (with_state s2 (fw_config w)) w).
  by destruct (apply_nftables _ _ _ w) as [[[]|er] w1].
Qed.

Lemma idles_sync e : idles (sync_portal_firewall_ports e).
Proof.
  unfold sync_portal_firewall_ports, portal_firewall_ports. repeat (apply idles_bind; [|intros ?]); try by apply idles_still.
  - apply idles_blocks, reads_list_iscsi.
  - apply idles_blocks, reads_list_nvmeof.
  - apply idles_still. intros g. unfold shares, within, on_firewall. cbv zeta.
    pose proof (ports_disk (se_fw (ae_share e) 7) a.1 a.2 (mkFw (sw_config (ap_share (Router.services g))) (sw_live (ap_share (Router.services g)))
      (bw_disk (sw_block (ap_share (Router.services g)))))) as Hd. destruct (set_portal_ports _ _ _ _) as [r f]. cbn in Hd. cbn. unfold block_world. by rewrite <- Hd.
Qed.

Lemma scope_try_route e g : idle g0 g -> settled_scope e (Ok tt : result unit unit) (share_try_route e req session g).2.
Proof.
  intros Hg. pose proof (scope_route_inner e g Hg) as Hr. unfold share_try_route. destruct (route_inner _ _ _ _) as [[resp|] g']; [|done].
  destruct (negb _); [done|]. destruct Hr as [Hi|?]; [|by destruct (sync_portal_firewall_ports e g') as [[] g'']; right].
  pose proof (idles_sync e g' Hi) as Hk. unfold keeps, wp in Hk. by destruct (sync_portal_firewall_ports e g') as [[] g'']; left.
Qed.

End Idle.

Section Confined.
Context `{LoopLaws} `{AuthPrims} `{Guests} `{ConfigFs} `{Vault} `{IpParser} `{KernelModules} `{ProjectHash} `{ShareTree} `{!ApiSerde}.
Context `{!Codec (gmap string BlockVolumeId)} `{!Codec IscsiTarget} `{!Codec NvmeofSubsystem}
  `{!Codec Json} `{!Codec ProtocolState} `{!Codec FirewallRestrictions} `{!Codec (list CustomRule)} `{!Codec NfsShare} `{!Codec SmbShare}.
Abbreviation Eng := (Engine ApiWorld).

(** C10: A confined session shares only what is its own. When a request on shares of a session that is confined to a
    filesystem or to the subvolumes of a token changes any file of the engine but the state of the protocols, or anything
    that was in the kernel's tree of exports, or a subvolume, then everything that the request names is in the session's
    scope, on its filesystem and owned by its token. For the directory of an NFS or SMB share and for an image file: of the
    subvolumes that the engine lists, the innermost one around it is in the scope, and so is every one inside it. For the
    device of a new export: it is attached to the image of a subvolume in the scope. For the other parts of the target or
    subsystem: each is the volume of a subvolume in the scope. Assumed: the engine's files are regular files, and no file
    under a loop device has a blank in its name. *)
Theorem confined_sessions_share_their_own e req session (g : Eng) r g' :
  session_is_scoped session = true -> plain (bw_disk (block_world g)) -> plain_loops (store_of g) ->
  share_try_route e req session g = (r, g') ->
  (forall p, ~ protocol_file p -> bw_disk (block_world g') !! p = bw_disk (block_world g) !! p) /\
  (forall p n, bw_tree (block_world g) !! p = Some n -> bw_tree (block_world g') !! p = Some n) /\
  (forall q, volumes (store_of g') q = volumes (store_of g) q) \/
  exists l, names g req e l /\ l <> [] /\ Forall (in_scope (store_of g) session) l.
Proof.
  intros Hs Hp Hl Hrun. destruct (scope_try_route g session Hs Hl req e g (idle_refl g Hp)) as [Hi|(l & Hn & Hne & Hall)]; [|by right; exists l].
  rewrite Hrun in Hi. left. split_and!; [exact (proj2 (id_disk _ _ Hi))|exact (id_tree _ _ Hi)|].
  intros q. apply (same_volumes _ _ _ (st_same _ _ (id_steady _ _ Hi))).
Qed.

End Confined.
