(* ===== verification/ApiWitness.v ===== *)
(** * The arms of the router: the theorems applied

    Alice's token deletes her subvolume and shares it over NFS, on the machine of
    [SubvolumeWitness]. *)
From Stdlib Require Import String Ascii ZArith.
From stdpp Require Import base list gmap strings numbers countable.
From S2P Require Import Prelude RustStr Disk StateStore Records AuthTypes AuthStore AuthService AuthWitness JsonRpc Router RpcWitness FirewallRules Firewall FirewallWitness Backup ConfigFs BlockWorld Iscsi IscsiService NvmeofService Protocol BlockReconcile BlockWitness FileShare Nfs Smb SmbService FileShareWitness Subvolume SubvolumeRead SubvolumeService SubvolumeLaws SubvolumeOwner SubvolumeProps SubvolumeRestore SubvolumeWitness Api ShareApi SubvolumeApi ApiProps ShareScope.

Open Scope string_scope.
Open Scope rust_scope.

Module ApiExample.
Import BlockExample FileShareExample SubvolumeExample.

(** ** Requests *)

Definition text_field (v : Json) (k : string) : string := match json_get v k with Some j => default "" (JsonRpc.as_str j) | None => "" end.
Definition unsupported {T} : FromValue T := fun _ => Err "unsupported".
Definition shown {T} : ToValue T := fun _ => JNull.

#[export] Instance toy_api_serde : ApiSerde := {|
  serde_create_nfs := fun v => Ok (mkCreateNfs (text_field v "path") None [mkNfsClient "10.0.0.0/8" "rw"] None);
  serde_update_nfs := unsupported;
  serde_delete_nfs := fun v => Ok (mkDeleteNfs (text_field v "id"));
  serde_create_smb := unsupported;
  serde_update_smb := unsupported;
  serde_delete_smb := unsupported;
  serde_create_target := unsupported;
  serde_delete_target := unsupported;
  serde_add_lun := unsupported;
  serde_remove_lun := unsupported;
  serde_repair_lun := unsupported;
  serde_add_acl := unsupported;
  serde_remove_acl := unsupported;
  serde_add_portal := unsupported;
  serde_set_portals := unsupported;
  serde_remove_portal := unsupported;
  serde_create_subsystem := unsupported;
  serde_delete_subsystem := unsupported;
  serde_add_namespace := unsupported;
  serde_remove_namespace := unsupported;
  serde_repair_namespace := unsupported;
  serde_add_port := unsupported;
  serde_remove_port := unsupported;
  serde_add_host := unsupported;
  serde_remove_host := unsupported;
  serde_create_subvolume := unsupported;
  serde_delete_subvolume := fun v => Ok (mkDeleteSubvolume (text_field v "filesystem") (text_field v "name"));
  serde_resize := unsupported;
  serde_update_subvolume := unsupported;
  serde_clone_subvolume := unsupported;
  serde_set_properties := unsupported;
  serde_remove_properties := unsupported;
  serde_find_by_property := unsupported;
  serde_create_snapshot := unsupported;
  serde_delete_snapshot := unsupported;
  serde_clone_snapshot := unsupported;
  serde_rollback := fun v => Ok (mkRollback (text_field v "filesystem") (text_field v "subvolume") (text_field v "snapshot"));
  serde_nfs_share := shown;
  serde_smb_share := shown;
  serde_target := shown;
  serde_subsystem := shown;
  serde_subvolume := shown;
  serde_snapshot := shown;
  serde_rollback_result := shown;
  serde_dependents := shown
|}.

(** ** Containers and machines

    Two apps live in the subvolume [a]; the second does not stop when [stubborn].
    A machine that is off has a disk there too. *)
Record ToyGuests := mkToyGuests { tg_apps : gmap string bool; tg_vm : bool; tg_stubborn : bool }.

Definition toy_guest {A} (c : Guest A) (s : ToyGuests) : A * ToyGuests :=
  match c in Guest A return A * ToyGuests with
  | AppsStorage => (Some "/fs/tank/a/apps", s)
  | AppsEnabled => (true, s)
  | AppsConfigPath => (None, s)
  | AppsList => (Ok ["one"; "two"], s)
  | AppStop n => if tg_stubborn s && (n =s "two") then (Err "busy", s)
                 else (Ok tt, mkToyGuests (<[n := false]> (tg_apps s)) (tg_vm s) (tg_stubborn s))
  | AppStart n => (Ok tt, mkToyGuests (<[n := true]> (tg_apps s)) (tg_vm s) (tg_stubborn s))
  | VmList => (Ok [mkVm "v1" "vm" (tg_vm s) ["/fs/tank/a/disk.img"]], s)
  | VmStop _ | VmKill _ => (Ok tt, mkToyGuests (tg_apps s) false (tg_stubborn s))
  | VmStart _ => (Ok tt, mkToyGuests (tg_apps s) true (tg_stubborn s))
  | BackupProfiles => ([], s)
  | TailscaleIp => (None, s)
  end.

#[export] Instance toy_guests : Guests := {| GuestState := ToyGuests; guest_call := @toy_guest |}.

(** ** The engine *)

Definition nfs_on : ProtocolState := mkProtocolState true false false false false true true true false false.
Definition api_disk : Disk := {[PROTOCOLS_PATH := regular (BlockExample.text_of nfs_on)]}.
Definition api_share : ShareWorld :=
  mkShareWorld (mkProtoWorld (mkBlockWorld api_disk (mkKernel ∅ []) [] []) ∅ []) BlockExample.firewall None.
Definition running : gmap string bool := {["one" := true; "two" := true]}.
Definition engine (stubborn : bool) : Engine ApiWorld :=
  mkEngine w0 [] (mkApi world1 api_share [] [] [] (mkToyGuests running false stubborn)).

Definition api_env : ApiEnv := mkApiEnv (env 3000 "t") share_env (mkIscsiEnv "u" false (fun _ => true) (fun _ => false)) "n1" 60.
Definition token : Session := mkSession "x" "alice" Operator None (Some "tank") (Some "alice") 2000 false None.
Definition admin : Session := mkSession "y" "root" Admin None None None 2000 false (Some "10.0.0.1").

Definition nothing (d : Domain) (e : Env) (req : Request) (s : Session) (g : Engine ApiWorld) : option Response * Engine ApiWorld := (None, g).
Definition nobody (p : string) : result unit string := Err "unknown".

Definition ask (m : string) (fields : list (string * string)) : Request :=
  mkRequest "2.0" m (Some (JObject ((fun kv => (kv.1, JString kv.2)) <$> fields))) (JInt 1).

(** ** Alice deletes her subvolume *)

Definition delete_request : Request := ask "subvolume.delete" [("filesystem", "tank"); ("name", "a")].
Definition deleted : Response * Engine ApiWorld := api_handle nothing nobody api_env (env 3000 "t") delete_request token (engine false).

Lemma token_requests_spare_others_witness :
  (exists v, volumes (sw_store (look deleted.2)) (at_name "b") = Some v /\ same_content on_b v /\
     (rq_method delete_request <> "subvolume.create" -> v = on_b)) /\
  volumes (sw_store (look deleted.2)) (at_name "a") = None /\ rs_error deleted.1 = None.
Proof.
  split; [|split; vm_compute; reflexivity].
  apply (token_requests_spare_others nothing nobody api_env (env 3000 "t") delete_request token (engine false) deleted.1 deleted.2
    "alice" (at_name "b") on_b).
  - reflexivity.
  - reflexivity.
  - exists DSubvolume. split; [vm_compute; reflexivity|left; reflexivity].
  - unfold deleted. destruct (api_handle _ _ _ _ _ _ _). reflexivity.
  - vm_compute. reflexivity.
  - vm_compute. discriminate.
  - intros _ p v Hv Ho Hp. destruct (only_a_is_alices p v Hv Ho) as [-> | ->]; apply (bool_decide_pack _) in Hp; vm_compute in Hp; exact Hp.
Defined.

(** ** Alice shares her subvolume *)

Definition share_request : Request := ask "share.nfs.create" [("path", "/fs/tank/a")].
Definition shared : option Response * Engine ApiWorld := share_try_route api_env share_request token (engine false).

Lemma confined_sessions_share_their_own_witness :
  (exists l, names (engine false) share_request api_env l /\ l <> [] /\ Forall (in_scope (store_of (engine false)) token) l) /\
  (rs_error <$> shared.1) = Some None /\ (rs_error <$> (share_try_route api_env (ask "share.nfs.create" [("path", "/fs/tank/b")]) token (engine false)).1) <> Some None.
Proof.
  split; [|split; [vm_compute; reflexivity|vm_compute; discriminate]].
  destruct (confined_sessions_share_their_own api_env share_request token (engine false) shared.1 shared.2) as [(Hd & _)|Hl]; [..|exact Hl].
  - reflexivity.
  - intros p f Hf. apply (lookup_singleton_Some PROTOCOLS_PATH p (regular (BlockExample.text_of nfs_on)) f) in Hf as [_ <-]. reflexivity.
  - intros d f. cbn. rewrite lookup_empty. discriminate.
  - unfold shared. destruct (share_try_route _ _ _ _). reflexivity.
  - exfalso. assert (~ protocol_file (item_path nfs_state_dir "n1")) as Hp by (intros [Hp|Hp]; vm_compute in Hp; discriminate Hp).
    specialize (Hd _ Hp). vm_compute in Hd. discriminate Hd.
Defined.

(** ** A rollback and what depends on the subvolume *)

Definition rolled_back_by_admin (stubborn : bool) : result RollbackResult string * Engine ApiWorld :=
  rollback_with_dependents api_env (mkRollback "tank" "a" "s1") None true (engine stubborn).
Definition guests_after (stubborn : bool) : ToyGuests := ap_guests (Router.services (rolled_back_by_admin stubborn).2).

(** The rollback is given up when the second app does not stop, and the first app, which did stop, stays stopped. *)
Lemma refused_rollback_leaves_an_app_stopped :
  (rolled_back_by_admin true).1 = Err "rollback aborted before any change: app 'two' failed to stop (busy)" /\
  tg_apps (guests_after true) !! "one" = Some false.
Proof. split; vm_compute; reflexivity. Qed.

(** A rollback that succeeds starts the apps again, and also the machine that was off before it. *)
Lemma rollback_starts_a_machine_that_was_off :
  is_ok (rolled_back_by_admin false).1 = true /\ tg_apps (guests_after false) = running /\
  tg_vm (ap_guests (Router.services (engine false))) = false /\ tg_vm (guests_after false) = true.
Proof. split_and!; vm_compute; reflexivity. Qed.

End ApiExample.
